(* ===== verification/_CoqProject ===== *)
-Q . S2P
Prelude.v
Machine.v
State.v
CString.v
Kalloc.v
Vm.v
VmFacts.v
VmUser.v
VmKernel.v
VmWitness.v
Printf.v
Sched.v
Spinlock.v
Sleeplock.v
SleepWakeup.v
Block.v
Bio.v
Store.v
Virtio.v
VirtioFacts.v
Log.v
LogFacts.v
Uio.v
Fs.v
Trans.v
FsFacts.v
FileFacts.v
WriteFacts.v
Dir.v
FsWitness.v
Pipe.v
Console.v
File.v
Proc.v
Exec.v
Sysfile.v
Syscall.v
Trap.v
TrapFacts.v
MmrFacts.v
PipeFacts.v
Riscv.v
Asm.v
Start.v
FirstProc.v
Boot.v
BootFacts.v
Initcode.v
Path.v
Ulib.v
Unix.v
Uprogs.v
Grep.v
ShParse.v
ShFacts.v
ShGrammar.v
ShRun.v
Ls.v
Init.v
Utools.v
ProdCons.v
Umalloc.v
Mkfs.v
MkfsImage.v
