(* ===== verification/Prelude.v ===== *)
(** * A verification of xv6 as in OSLab3

    The program is a small Unix for RISC-V: the teaching kernel xv6 (under
    src/kernel) with two additions, a scheduler with the policies round robin
    and multi-level feedback queues, and memory-mapped regions that processes
    can share; its user library and programs (src/user), and the program that
    makes the disk image (src/mkfs). This library translates the C code and the
    assembly into executable definitions and proves what makes the code
    correct, or what it does wrong.

    ** How code is modelled

    The kernel's global variables, physical memory included, are one record
    [kstate] ([State]); a C function is a definition in the monad [K] of
    state-changing code that returns ([Ret]), panics ([Panic]), gives up the
    processor in [sched] with the rest of its run as a continuation ([Swtch]),
    or exceeds the bound of a loop ([Fuel]). C integers are [Z] with the
    wrap-around of their width written out; structs are records, except where
    the code relies on their layout (page tables, trap frames, pipes, disk
    blocks), which is then byte memory. [while] loops are [loop], which allows
    2^64 rounds, more than any of the code's counters can take; the theorems
    show that the loops end far earlier. The recursion of [freewalk] has 64
    levels, page tables have 3. [kernel_pagetable], the symbols of the linker
    script ([Layout] in [Machine]) and the disk driver as its clients see it
    ([DiskDriver] in [Bio], discharged by [VirtioFacts]) are parameters.

    Spinlocks appear twice. [Spinlock] has the code of spinlock.c instruction
    by instruction on any number of harts, and proves mutual exclusion. The
    rest of the kernel uses the result: [acquire] and [release] are atomic, and
    what other harts and interrupts do is visible where the code gives up the
    lock that guards the data, in [sleep] and [sched]. There the theorems
    quantify over what the others may do (the relation [R] of [okay] in
    [Prelude]). [SleepWakeup] takes [sleep], [wakeup] and the scheduler apart
    again: their statements are interleaved on several harts.

    The theorems on waiting need only that the queues exist and that every
    process has a priority ([sched_ok]), which holds under both policies. The
    kernel as it is built uses round robin, under which processes are queued
    and never taken out; what needs the queues to hold exactly the runnable
    processes ([sched_inv]) is about the multi-level policy, and says so.

    The assembly files and start.c run on a hart ([Riscv]) with its registers,
    control registers and instructions; [main] runs on the kernel's state
    together with the registers of the UART and the disk ([Boot]). User
    programs are given the system calls they make through type classes whose
    laws say what the calls promise: [Unix], [Streams] and [Files] (reading and
    writing), [Procs] and [Descriptors] (fork, exec, pipe, dup), [Dirs] (the
    tree that ls walks), [Caring] (what init sees of its children), [Regions]
    and [Sharing] (mapped regions over fork: only the pages present are
    shared); every class has an instance with which the theorems are applied. There the end of a program, [exit], is the outcome
    [Panic], [fork] is given the code of the child, and an endless loop is given
    by the number of its rounds. Library functions on strings (ulib.c,
    umalloc.c) run on byte memory; programs have their strings as lists.

    ** Files

    [Prelude]: integers, the monad, loops and their proof rules, lists.
    [Machine]: riscv.h, memlayout.h, param.h, byte memory. [State]: proc.h,
    file.h, buf.h and the other structs, the kernel's state, locks as the other
    files use them, the tactic [krun] for symbolic execution.

    Memory. [CString]: string.c. [Kalloc]: kalloc.c. [Vm]: vm.c; [VmFacts]:
    well-formed page tables and the address space they denote; [VmUser]:
    growing, copying, freeing address spaces, copies to and from user memory;
    [VmKernel]: the page table of the kernel; [VmWitness]: a concrete address
    space.

    Processes. [Spinlock], [Sched] (the queues, [sched], [yield], [sleep],
    [wakeup] and [scheduler] of proc.c), [Sleeplock]: sleeplock.c,
    [SleepWakeup]: waiting on several harts, [Proc]: the
    rest of proc.c, [Exec]: exec.c, [Trap]: trap.c and plic.c, [TrapFacts]:
    time slices and system calls, [MmrFacts]: page faults and the rings of
    processes that share a region.

    Files. [Block]: fields of disk blocks, [Bio]: bio.c, [Store]: the cache as
    its clients see it, [Virtio]: virtio_disk.c, [VirtioFacts]: the driver with
    its device, [Log]: log.c, [LogFacts]: atomic commits and recovery, [Fs]:
    fs.c, [Trans]: one file-system call, [FsFacts]: blocks and inodes,
    [FileFacts]: contents of files, [WriteFacts]: writes that allocate, [Dir]: directories and paths, [FsWitness]:
    a small disk image, [Pipe]: pipe.c, [PipeFacts]: pipes as queues, [File]:
    file.c, [Sysfile]: sysfile.c.

    Console. [Printf]: printf.c and synchronous output, [Console]: uart.c and
    console.c, [Uio]: copies between kernel and process and the arguments of
    system calls, [Syscall]: sysproc.c and syscall.c.

    Machine and start. [Riscv]: the hart, [Asm]: trampoline.S, swtch.S,
    kernelvec.S and entry.S, [Start]: start.c, [FirstProc]: [userinit], [Boot]:
    main.c and the initialisation functions, [BootFacts]: what they establish,
    [Initcode]: initcode.S, [Path]: a system call from the stub in usys.S and
    back.

    User library and programs. [Ulib]: ulib.c, [Unix]: user/printf.c and the
    system calls, [Umalloc]: umalloc.c, [Uprogs]: cat.c, wc.c and echo.c, [Ls]:
    ls.c, [Grep]: grep.c, [ShParse]: the parser of sh.c, [ShFacts] and
    [ShGrammar]: its tokens and its grammar, [ShRun]: [runcmd], [Init]: init.c,
    [Utools]: the small tools, pstree.c and time.c among them, [ProdCons]:
    private.c and the programs that produce and consume. [Mkfs] and
    [MkfsImage]: mkfs.c and the image it makes.

    ** What is shown

    The log: a crash after any prefix of the disk writes of a commit recovers
    to all or none of the transaction; what [writei] wrote, from user or kernel
    memory, into blocks the file has or into blocks it allocates on the way, is
    on disk after the call, and so are the inode and the bitmap. The driver implements the transfer the cache assumes, through its
    descriptor ring, the interrupt and the scheduler. The cache returns the
    current contents of a block. The block allocator, inodes, files and
    directories do what their names say, in terms of the block contents a
    file-system call sees. Page tables: every routine against the address space
    as a function from pages to entries, every page accounted for. Spinlocks
    exclude; sleep and wakeup lose no wakeup in any interleaving of their
    statements; sleeplocks, pipes and [begin_op] work through any waiting. The scheduler serves its queues in order.
    Traps: system calls from the trap to the return, time slices, page faults
    in a mapped region. [printf] prints what its format says.

    From power on: [start] leaves machine mode with the timer running; hart 0
    runs every initialisation function to its end, its page table maps exactly
    the kernel's address space, and no other hart does anything before it is
    done; the first process runs initcode.S, which calls exec of /init; init
    makes and opens the console, starts a shell, waits for it among the orphans
    it reaps, and starts the next one. A system call,
    through stub, trampoline and kernel, changes its result register and (with
    the number) a7, and nothing else of the program's registers; a thread that
    switches away resumes with its registers.

    User space: [malloc] and [free] keep a sound heap and disjoint blocks, and
    what is freed is free memory again; the
    matcher of grep decides the language of its pattern, and grep prints exactly
    the lines that match; the parser of the shell ends on every line, gives every
    command of the grammar its tree for every spelling, and the command line
    starts the programs it names with exactly the descriptors it asks for; cat,
    wc, echo, ls, ps, pstree and rm write what they should; producers and
    consumers get the sum through a shared region that is touched before the
    fork and nothing through a private one. The image of mkfs holds the files it was given, as the kernel reads it.

    Bounds: recursion that is not structural has fuel, and the theorems show
    that it is enough: 4 * n + 4 calls for the parser on a line of n bytes, 65
    levels for the tree of 64 processes. The theorem on [kvmmake] needs 501
    free pages.

    Some theorems pin down what the code does wrong: page faults outside every
    region are retried for ever, priorities are never lowered, a time slice
    wraps below zero, a process queued twice is linked to itself, the ring of a
    shared region breaks at the second [fork], a shared region that is first
    touched after the fork is not shared (prodcons3).

    ** Not modelled

    The test programs (usertests.c, grind.c, forktest.c, stressfs.c, pstest.c,
    zombie.c, matmul.c), which exercise the kernel and promise nothing
    themselves; matmul.c computes with floating point. ramdisk.c is not built,
    and uses flags that struct buf does not have. temp.c is a note. Headers with
    prototypes only. Weak memory: the spinlock model is sequentially consistent,
    as the fences in the code intend; its count of nested [push_off] is not cut
    to 32 bits, since no hart holds 2^31 locks. The system calls that the user
    programs make are not run in the kernel model; the classes state what they
    promise, and idealise in two places: for the shell, which files can be
    opened and which programs can be run does not change during a command, and
    fork, pipe and wait do not fail ([Descriptors]). A hart that has come to the
    scheduler makes no more steps in the model of [main], which is about the
    order of initialisation. [Start] has the control registers that start.c
    writes; the general registers that compiled C uses as scratch are not in
    it. In [Asm] and [Path] the translation of the program's addresses is fixed
    for the time of a call. *)

From Stdlib Require Export ZArith Lia Bool List Permutation.
From stdpp Require Export base tactics list strings sets gmap.

#[global] Open Scope Z_scope.

(** ** Fixed-width integers

    A C integer is a [Z]; these functions write out the wrap-around of the
    type it is stored in (kernel/types.h). *)

Definition u8 (x : Z) : Z := x mod 2 ^ 8.
Definition u16 (x : Z) : Z := x mod 2 ^ 16.
Definition u32 (x : Z) : Z := x mod 2 ^ 32.
Definition u64 (x : Z) : Z := x mod 2 ^ 64.
Definition i32 (x : Z) : Z := (x + 2 ^ 31) mod 2 ^ 32 - 2 ^ 31.
Definition i16 (x : Z) : Z := (x + 2 ^ 15) mod 2 ^ 16 - 2 ^ 15.
Definition i8 (x : Z) : Z := (x + 2 ^ 7) mod 2 ^ 8 - 2 ^ 7.

(** ** Outcomes of kernel code

    A piece of kernel code run from a state either returns ([Ret]), calls
    [panic] and never returns ([Panic]), gives up the processor in [sched]
    and is later resumed in whatever state the other threads left
    ([Swtch]), or exceeds the bound put on a loop ([Fuel]). *)

Inductive outcome (S A : Type) : Type :=
| Ret (a : A) (s : S)
| Panic (msg : string) (s : S)
| Swtch (s : S) (k : S -> outcome S A)
| Fuel (s : S).
Arguments Ret {S A} a s.
Arguments Panic {S A} msg s.
Arguments Swtch {S A} s k.
Arguments Fuel {S A} s.

Definition M (S A : Type) : Type := S -> outcome S A.

Section Monad.
Context {S : Type}.

Definition ret {A} (a : A) : M S A := fun s => Ret a s.

Fixpoint bindO {A B} (o : outcome S A) (f : A -> S -> outcome S B) : outcome S B :=
  match o with
  | Ret a s => f a s
  | Panic msg s => Panic msg s
  | Swtch s k => Swtch s (fun s' => bindO (k s') f)
  | Fuel s => Fuel s
  end.

Definition bind {A B} (m : M S A) (f : A -> M S B) : M S B :=
  fun s => bindO (m s) f.

Definition panic {A} (msg : string) : M S A := fun s => Panic msg s.
Definition get : M S S := fun s => Ret s s.
Definition gets {A} (f : S -> A) : M S A := fun s => Ret (f s) s.
Definition modify (f : S -> S) : M S unit := fun s => Ret tt (f s).
Definition swtch : M S unit := fun s => Swtch s (fun s' => Ret tt s').
End Monad.

Declare Scope kernel_scope.
Delimit Scope kernel_scope with kernel.
#[global] Open Scope kernel_scope.

Notation "x <- m ;; f" := (bind m (fun x => f))
  (at level 20, m at level 99, f at level 200, only parsing) : kernel_scope.
Notation "' p <- m ;; f" := (bind m (fun p => f))
  (at level 20, p pattern, m at level 99, f at level 200, only parsing) : kernel_scope.
Notation "m ;;; f" := (bind m (fun _ => f))
  (at level 100, f at level 200, right associativity, only parsing) : kernel_scope.

Section Control.
Context {S : Type}.

Definition when (b : bool) (m : M S unit) : M S unit :=
  if b then m else ret tt.

(** A C [for] over the elements of a list whose body may leave the
    enclosing function (or [break]) with a value. *)
Fixpoint for_each {X R} (l : list X) (body : X -> M S (option R)) : M S (option R) :=
  match l with
  | [] => ret None
  | x :: l' =>
      r <- body x ;;
      match r with
      | Some v => ret (Some v)
      | None => for_each l' body
      end
  end.

(** A C [for] over the elements of a list with no exit. *)
Fixpoint for_all {X} (l : list X) (body : X -> M S unit) : M S unit :=
  match l with
  | [] => ret tt
  | x :: l' => body x ;;; for_all l' body
  end.

(** [iter d] runs a loop body at most [2^d] times: [inl] goes round
    again with new loop variables, [inr] leaves the loop. *)
Fixpoint iter {X R} (d : nat) (body : X -> M S (X + R)) (x : X) : M S (X + R) :=
  match d with
  | O => body x
  | Datatypes.S d' =>
      r <- iter d' body x ;;
      match r with
      | inl x' => iter d' body x'
      | inr v => ret (inr v)
      end
  end.

(** A C [while] loop: [2^64] rounds, more than any 64-bit counter can
    distinguish; a loop still running then reports [Fuel]. *)
Definition loop {X R} (body : X -> M S (X + R)) (x : X) : M S R :=
  r <- iter 64 body x ;;
  match r with
  | inl _ => fun s => Fuel s
  | inr v => ret v
  end.
End Control.

(** ** Reasoning about runs *)

Section MonadFacts.
Context {S : Type}.

Lemma bind_Ret {A B} (m : M S A) (f : A -> M S B) s a s' :
  m s = Ret a s' -> bind m f s = f a s'.
Proof. intros H. unfold bind. now rewrite H. Qed.

Lemma bind_Panic {A B} (m : M S A) (f : A -> M S B) s msg s' :
  m s = Panic msg s' -> bind m f s = Panic msg s'.
Proof. intros H. unfold bind. now rewrite H. Qed.

(** The first step of a nested sequence. *)
Lemma bind_bind_Ret {A B C} (m : M S A) (f : A -> M S B) (g : B -> M S C) s a s' :
  m s = Ret a s' -> bind (bind m f) g s = bind (f a) g s'.
Proof. unfold bind. now intros ->. Qed.

Lemma bind_Swtch {A B} (m : M S A) (f : A -> M S B) s s1 k :
  m s = Swtch s1 k -> bind m f s = Swtch s1 (fun s' => bindO (k s') f).
Proof. intros H. unfold bind. now rewrite H. Qed.

Lemma for_all_skip {X} (l1 l2 : list X) (body : X -> M S unit) s :
  (forall x, x ∈ l1 -> body x s = Ret tt s) -> for_all (l1 ++ l2) body s = for_all l2 body s.
Proof.
  induction l1 as [|x l1 IH]; intros H; [done|]. simpl. rewrite (bind_Ret _ _ _ _ _ (H x ltac:(apply elem_of_cons; by left))).
  apply IH. intros y Hy. apply H. apply elem_of_cons. by right.
Qed.

Lemma for_all_id {X} (l : list X) (body : X -> M S unit) s :
  (forall x, x ∈ l -> body x s = Ret tt s) -> for_all l body s = Ret tt s.
Proof. intros H. rewrite <- (app_nil_r l). by rewrite for_all_skip. Qed.

(** Inversion of a returning sequence. *)
Lemma bind_inv_Ret {A B} (m : M S A) (f : A -> M S B) s b s' :
  bind m f s = Ret b s' -> exists a s1, m s = Ret a s1 /\ f a s1 = Ret b s'.
Proof.
  unfold bind. destruct (m s) as [a s1|msg s1|s1 k|s1]; simpl; intros H;
    try discriminate. eauto.
Qed.

(** [runs body n x s o]: from loop variables [x] and state [s] the loop
    ends with outcome [o] in its [n]-th round. *)
Inductive runs {X R} (body : X -> M S (X + R)) : nat -> X -> S -> outcome S R -> Prop :=
| runs_done x s r s' :
    body x s = Ret (inr r) s' -> runs body 1 x s (Ret r s')
| runs_panic x s msg s' :
    body x s = Panic msg s' -> runs body 1 x s (Panic msg s')
| runs_step n x s x' s' o :
    body x s = Ret (inl x') s' -> runs body n x' s' o ->
    runs body (Datatypes.S n) x s o.

(** A run of [n] rounds: either it ends within them or reaches [x']. *)
Inductive rounds {X R} (body : X -> M S (X + R)) : nat -> X -> S -> X -> S -> Prop :=
| rounds_O x s : rounds body 0 x s x s
| rounds_S n x s x1 s1 x' s' :
    body x s = Ret (inl x1) s1 -> rounds body n x1 s1 x' s' ->
    rounds body (Datatypes.S n) x s x' s'.

Lemma runs_split {X R} (body : X -> M S (X + R)) k n x s o :
  runs body n x s o -> (k < n)%nat ->
  exists x' s', rounds body k x s x' s' /\ runs body (n - k) x' s' o.
Proof.
  revert n x s. induction k as [|k IH]; intros n x s H Hk.
  - exists x, s. split; [constructor|]. now rewrite Nat.sub_0_r.
  - inversion H; subst; try lia.
    destruct (IH _ _ _ H1 ltac:(lia)) as (x2 & s2 & H2 & H3).
    exists x2, s2. split; [econstructor; eauto|]. exact H3.
Qed.

Lemma iter_rounds {X R} (body : X -> M S (X + R)) d x s x' s' :
  rounds body (2 ^ d) x s x' s' -> iter d body x s = Ret (inl x') s'.
Proof.
  revert x s x' s'. induction d as [|d IH]; intros x s x' s' H.
  - simpl in H. inversion H as [|? ? ? ? ? ? ? Hb Hr]; subst.
    inversion Hr; subst. exact Hb.
  - assert (Hs : exists x1 s1, rounds body (2 ^ d) x s x1 s1 /\
                               rounds body (2 ^ d) x1 s1 x' s').
    { replace (2 ^ Datatypes.S d)%nat with (2 ^ d + 2 ^ d)%nat in H by (simpl; lia).
      clear IH. revert x s H. generalize (2 ^ d)%nat at 1 3 as k.
      induction k as [|k IH]; intros x s H; simpl in H.
      - exists x, s. split; [constructor|exact H].
      - inversion H; subst. destruct (IH _ _ H2) as (x2 & s2 & ? & ?).
        exists x2, s2. split; [econstructor; eauto|assumption]. }
    destruct Hs as (x1 & s1 & H1 & H2). simpl.
    rewrite (bind_Ret _ _ _ _ _ (IH _ _ _ _ H1)). now apply IH.
Qed.

Lemma iter_runs {X R} (body : X -> M S (X + R)) d n x s o :
  runs body n x s o -> (n <= 2 ^ d)%nat ->
  iter d body x s = match o with
                    | Ret r s' => Ret (inr r) s'
                    | Panic msg s' => Panic msg s'
                    | Swtch s' k => iter d body x s
                    | Fuel s' => iter d body x s
                    end.
Proof.
  revert n x s o. induction d as [|d IH]; intros n x s o H Hn.
  - inversion H; subst; try assumption.
    simpl in Hn. assert (n0 = 0)%nat as -> by lia. inversion H1.
  - simpl. destruct (decide (n <= 2 ^ d)%nat) as [Hle|Hgt].
    + specialize (IH _ _ _ _ H Hle). destruct o; try reflexivity.
      * now rewrite (bind_Ret _ _ _ _ _ IH).
      * now rewrite (bind_Panic _ _ _ _ _ IH).
    + destruct (runs_split body (2 ^ d) n x s o H ltac:(lia)) as (x1 & s1 & H1 & H2).
      apply iter_rounds in H1. rewrite (bind_Ret _ _ _ _ _ H1).
      simpl in Hn. specialize (IH _ _ _ _ H2 ltac:(lia)).
      destruct o; try reflexivity; exact IH.
Qed.

(** A loop that ends in at most [2^64] rounds has the outcome it ends
    with. *)
Lemma loop_runs {X R} (body : X -> M S (X + R)) n x s o :
  runs body n x s o -> Z.of_nat n <= 2 ^ 64 -> loop body x s = o.
Proof.
  intros H Hn.
  assert (Hn' : (n <= 2 ^ 64)%nat).
  { apply Nat2Z.inj_le. rewrite Nat2Z.inj_pow. exact Hn. }
  pose proof (iter_runs body 64 n x s o H Hn') as Hi. unfold loop.
  assert (Ho : (exists r s', o = Ret r s') \/ (exists m s', o = Panic m s')).
  { clear -H. induction H; eauto. }
  destruct Ho as [(r & s' & ->)|(msg & s' & ->)].
  - now rewrite (bind_Ret _ _ _ _ _ Hi).
  - now rewrite (bind_Panic _ _ _ _ _ Hi).
Qed.

(** Termination and correctness of a loop by an invariant and a measure
    that decreases with every further round. *)
Lemma loop_measure {X R} (body : X -> M S (X + R)) (Inv : X -> S -> Prop)
    (mu : X -> S -> nat) (Q : outcome S R -> Prop) :
  (forall x s, Inv x s ->
     (exists x' s', body x s = Ret (inl x') s' /\ Inv x' s' /\ (mu x' s' < mu x s)%nat) \/
     (exists r s', body x s = Ret (inr r) s' /\ Q (Ret r s')) \/
     (exists msg s', body x s = Panic msg s' /\ Q (Panic msg s'))) ->
  forall x s, Inv x s -> Z.of_nat (mu x s) < 2 ^ 64 -> Q (loop body x s).
Proof.
  intros Hbody x s Hinv Hmu.
  assert (H : exists n o, runs body n x s o /\ (n <= Datatypes.S (mu x s))%nat /\ Q o).
  { clear Hmu. remember (mu x s) as k eqn:Hk. assert (Hle : (mu x s <= k)%nat) by lia.
    clear Hk. revert x s Hinv Hle. induction k as [|k IH]; intros x s Hinv Hle.
    - destruct (Hbody x s Hinv) as [(x' & s' & Hb & Hi & Hm)|[(r & s' & Hb & HQ)|(m & s' & Hb & HQ)]].
      + lia.
      + exists 1%nat, (Ret r s'). split; [now constructor|]. split; [lia|done].
      + exists 1%nat, (Panic m s'). split; [now constructor|]. split; [lia|done].
    - destruct (Hbody x s Hinv) as [(x' & s' & Hb & Hi & Hm)|[(r & s' & Hb & HQ)|(m & s' & Hb & HQ)]].
      + destruct (IH x' s' Hi ltac:(lia)) as (n & o & Hr & Hn & HQ).
        exists (Datatypes.S n), o. split; [econstructor; eauto|]. split; [lia|done].
      + exists 1%nat, (Ret r s'). split; [now constructor|]. split; [lia|done].
      + exists 1%nat, (Panic m s'). split; [now constructor|]. split; [lia|done]. }
  destruct H as (n & o & Hr & Hn & HQ).
  rewrite (loop_runs body n x s o Hr); [done|lia].
Qed.

(** A loop that counts from [a] to [n]. *)
Lemma loop_for {R} (body : Z -> M S (Z + R)) (I : Z -> S -> Prop) (n : Z) (Q : outcome S R -> Prop) a s :
  (forall i s, a <= i < n -> I i s -> exists s', body i s = Ret (inl (i + 1)) s' /\ I (i + 1) s') ->
  (forall s, I n s -> exists r s', body n s = Ret (inr r) s' /\ Q (Ret r s')) ->
  a <= n -> n - a < 2 ^ 64 -> I a s -> Q (loop body a s).
Proof.
  intros Hstep Hend Han Hlt HI.
  apply (loop_measure body (fun i s => a <= i <= n /\ I i s) (fun i _ => Z.to_nat (n - i))); [|split; [lia|done]|lia].
  intros i s1 [Hi HI1]. destruct (decide (i = n)) as [->|Hne].
  - right. left. by apply Hend.
  - left. destruct (Hstep i s1 ltac:(lia) HI1) as (s' & E & HI'). exists (i + 1), s'. split; [done|]. split; [|lia].
    split; [lia|done].
Qed.
End MonadFacts.

(** ** Code that gives up the processor

    [okay n R Q o]: while the other threads behave as [R] says, the run [o]
    does not panic and does not exceed the bound of a loop in its first [n]
    switches, and a return satisfies [Q], which is also told how many of the
    [n] switches are left. [R n' s s'] is about the switch after which [n'] are
    left, from the state [s] in which the thread gives up the processor to the
    state [s'] in which it is resumed. Beyond [n] switches nothing is said: a
    thread may wait for ever. *)

Section Okay.
Context {S : Type}.

Fixpoint okay {A} (n : nat) (R : nat -> S -> S -> Prop) (Q : nat -> A -> S -> Prop) (o : outcome S A) {struct o} : Prop :=
  match o with
  | Ret a s => Q n a s
  | Panic _ _ => False
  | Fuel _ => False
  | Swtch s k =>
      match n with
      | O => True
      | Datatypes.S n' => forall s', R n' s s' -> okay n' R Q (k s')
      end
  end.

Lemma okay_weaken {A} (R R' : nat -> S -> S -> Prop) (Q Q' : nat -> A -> S -> Prop) (o : outcome S A) : forall n,
  (forall n s s', R' n s s' -> R n s s') -> (forall n a s, Q n a s -> Q' n a s) -> okay n R Q o -> okay n R' Q' o.
Proof.
  induction o as [a s|msg s|s k IH|s]; intros n HR HQ Ho; simpl in *; [by apply HQ|done| |done].
  destruct n as [|n]; [done|]. intros s' Hs. apply IH; auto.
Qed.

Lemma okay_bindO {A B} (R : nat -> S -> S -> Prop) (f : A -> M S B) (Q : nat -> B -> S -> Prop) (o : outcome S A) : forall n,
  okay n R (fun n' a s => okay n' R Q (f a s)) o -> okay n R Q (bindO o f).
Proof.
  induction o as [a s|msg s|s k IH|s]; intros n Ho; simpl in *; try done.
  destruct n as [|n]; [done|]. intros s' Hs. apply IH; auto.
Qed.

Lemma okay_bind {A B} (R : nat -> S -> S -> Prop) (m : M S A) (f : A -> M S B) (Q : nat -> B -> S -> Prop) n s :
  okay n R (fun n' a s => okay n' R Q (f a s)) (m s) -> okay n R Q (bind m f s).
Proof. apply okay_bindO. Qed.

(** A loop whose every round uses up a switch or decreases a measure; the
    invariant may depend on the number of switches left. *)
Lemma okay_loop {X T} (R : nat -> S -> S -> Prop) (body : X -> M S (X + T)) (Inv : nat -> X -> S -> Prop)
    (mu : X -> S -> nat) (Q : nat -> T -> S -> Prop) :
  (forall n x s, Inv n x s ->
     okay n R (fun n' r s' => match r with
                              | inl x' => Inv n' x' s' /\ (n' + mu x' s' < n + mu x s)%nat
                              | inr v => Q n' v s'
                              end) (body x s)) ->
  forall n x s, Inv n x s -> Z.of_nat (n + mu x s) < 2 ^ 64 -> okay n R Q (loop body x s).
Proof.
  intros Hbody n x s Hinv Hmu.
  assert (Hit : forall d n x s, Inv n x s ->
    okay n R (fun n' r s' => match r with
                             | inl x' => Inv n' x' s' /\ (n' + mu x' s' + 2 ^ d <= n + mu x s)%nat
                             | inr v => Q n' v s'
                             end) (iter d body x s)).
  { clear n x s Hinv Hmu. induction d as [|d IH]; intros n x s Hinv.
    - simpl. refine (okay_weaken R R _ _ _ n _ _ (Hbody n x s Hinv)); [done|].
      intros n' [x'|v] s'; [intros [? ?]; split; [done|lia]|done].
    - cbn [iter]. apply okay_bind. refine (okay_weaken R R _ _ _ n _ _ (IH n x s Hinv)); [done|].
      intros n' [x'|v] s'; [|done]. intros [Hi Hle].
      refine (okay_weaken R R _ _ _ n' _ _ (IH n' x' s' Hi)); [done|].
      intros n2 [x2|v] s2; [|done]. intros [Hi2 Hle2]. split; [done|]. cbn [Nat.pow]. lia. }
  unfold loop. apply okay_bind. refine (okay_weaken R R _ _ _ n _ _ (Hit 64%nat n x s Hinv)); [done|].
  intros n' [x'|v] s'; [|done]. intros [_ Hle]. exfalso.
  assert (H : Z.of_nat (2 ^ 64) <= Z.of_nat (n + mu x s)) by lia.
  rewrite Nat2Z.inj_pow in H. change (Z.of_nat 2 ^ Z.of_nat 64) with (2 ^ 64) in H. lia.
Qed.

Lemma okay_Ret {A} (R : nat -> S -> S -> Prop) (Q : nat -> A -> S -> Prop) n (o : outcome S A) a s :
  o = Ret a s -> Q n a s -> okay n R Q o.
Proof. by intros ->. Qed.
End Okay.

(** ** Runs closed by a fixed environment

    [closed env m]: whenever the thread switches away, [env] runs until it
    switches back. *)

Section Closed.
Context {S : Type} (env : M S unit).

Fixpoint settle {A} (o : outcome S A) : outcome S A :=
  match o with
  | Ret a s => Ret a s
  | Panic msg s => Panic msg s
  | Fuel s => Fuel s
  | Swtch s k =>
      match env s with
      | Ret _ s' => settle (k s')
      | Panic msg s' => Panic msg s'
      | Swtch s' _ | Fuel s' => Fuel s'
      end
  end.

Definition closed {A} (m : M S A) : M S A := fun s => settle (m s).

Lemma closed_Ret {A} (m : M S A) s a s' : m s = Ret a s' -> closed m s = Ret a s'.
Proof. unfold closed. by intros ->. Qed.

Lemma closed_eq {A} (m m' : M S A) s s' : m s = m' s' -> closed m s = closed m' s'.
Proof. unfold closed. by intros ->. Qed.

Lemma settle_bindO {A B} (f : A -> M S B) (o : outcome S A) :
  settle (bindO o f) = bindO (settle o) (fun a => closed (f a)).
Proof.
  induction o as [a s|msg s|s k IH|s]; simpl; try done. destruct (env s); simpl; [apply IH|done..].
Qed.

Lemma closed_bind {A B} (m : M S A) (f : A -> M S B) s :
  closed (bind m f) s = bind (closed m) (fun a => closed (f a)) s.
Proof. apply settle_bindO. Qed.

Lemma closed_bind_Ret {A B} (m : M S A) (f : A -> M S B) s a s' :
  closed m s = Ret a s' -> closed (bind m f) s = closed (f a) s'.
Proof. intros H. rewrite closed_bind. by rewrite (bind_Ret _ _ _ _ _ H). Qed.

Lemma bindO_ext {A B} (o : outcome S A) (f g : A -> M S B) :
  (forall a s, f a s = g a s) -> (forall s k, o <> Swtch s k) -> bindO o f = bindO o g.
Proof. intros H Ho. destruct o as [a s|msg s|s k|s]; simpl; [apply H|done| |done]. by destruct (Ho s k). Qed.

Lemma settle_not_swtch {A} (o : outcome S A) s k : settle o <> Swtch s k.
Proof. induction o as [a s1|msg s1|s1 k1 IH|s1]; simpl; try done. destruct (env s1); try done. Qed.

Lemma closed_iter {X R} d (body : X -> M S (X + R)) x s :
  closed (iter d body x) s = iter d (fun x => closed (body x)) x s.
Proof.
  revert x s. induction d as [|d IH]; intros x s; [done|]. cbn [iter]. rewrite closed_bind. unfold bind. rewrite <- IH.
  apply bindO_ext; [|intros; apply settle_not_swtch]. intros [x'|v] s'; [apply IH|done].
Qed.

Lemma closed_loop {X R} (body : X -> M S (X + R)) x s :
  closed (loop body x) s = loop (fun x => closed (body x)) x s.
Proof.
  unfold loop. rewrite closed_bind. unfold bind. rewrite <- closed_iter.
  apply bindO_ext; [|intros; apply settle_not_swtch]. by intros [x'|v] s'.
Qed.
End Closed.

(** ** Lists *)

Lemma seq_around n p : (p < n)%nat -> seq 0 n = seq 0 p ++ p :: seq (S p) (n - S p).
Proof. intros H. replace n with (p + S (n - S p))%nat at 1 by lia. by rewrite seq_app. Qed.

Lemma map_seq_shift {A} (f : nat -> A) k n : map f (seq k n) = map (fun i => f (k + i)%nat) (seq 0 n).
Proof.
  revert k f. induction n as [|n IH]; intros k f; [done|]. simpl. f_equal; [f_equal; lia|].
  rewrite (IH (Datatypes.S k)), (IH 1%nat). apply map_ext. intros i. f_equal. lia.
Qed.

Lemma NoDup_drop_mid {A} (F K G L : list A) : NoDup (F ++ K ++ G ++ L) -> NoDup (K ++ F ++ L).
Proof.
  intros H. rewrite (Permutation_app_swap_app F K), (Permutation_app_swap_app F G),
    (Permutation_app_swap_app K G) in H. by apply NoDup_app in H as (_ & _ & H).
Qed.

Lemma alter_insert_eq {A} (f : A -> A) (l : list A) i x : l !! i = Some x -> alter f i l = <[i := f x]> l.
Proof.
  revert i. induction l as [|y l IH]; intros [|i] H; simpl in *; try done; [congruence|]. f_equal. by apply IH.
Qed.

Lemma alter_alter {A} (f g : A -> A) (l : list A) i : alter f i (alter g i l) = alter (fun x => f (g x)) i l.
Proof. revert i. induction l as [|y l IH]; intros [|i]; simpl; try done. f_equal. apply IH. Qed.

Lemma alter_comm {A} (f g : A -> A) (l : list A) i j :
  (forall x, f (g x) = g (f x)) -> alter f i (alter g j l) = alter g j (alter f i l).
Proof.
  intros H. revert i j. induction l as [|y l IH]; intros [|i] [|j]; simpl; try done; f_equal; [apply H|apply IH].
Qed.

(** A list of lists seen from its [i]-th element. *)
Lemma concat_split {A} (ls : list (list A)) i l :
  ls !! i = Some l ->
  exists before after, concat ls = before ++ l ++ after /\
    forall l', concat (<[i := l']> ls) = before ++ l' ++ after.
Proof.
  intros H. exists (concat (take i ls)), (concat (drop (Datatypes.S i) ls)). split.
  - rewrite <- (take_drop_middle ls i l H) at 1. by rewrite concat_app.
  - intros l'. rewrite insert_take_drop by (by apply lookup_lt_is_Some_1; eexists). by rewrite concat_app.
Qed.

Lemma elem_of_concat_lookup {A} (ls : list (list A)) i l x : ls !! i = Some l -> x ∈ l -> x ∈ concat ls.
Proof.
  intros Hl Hx. apply list_elem_of_In, in_concat. exists l.
  split; apply list_elem_of_In; [by apply (list_elem_of_lookup_2 _ i)|done].
Qed.

Lemma concat_disjoint {A} (ls : list (list A)) i j l lj x :
  NoDup (concat ls) -> ls !! i = Some l -> ls !! j = Some lj -> i <> j -> x ∈ lj -> x ∉ l.
Proof.
  intros Hnd Hi Hj Hne Hx Hxl. destruct (concat_split ls i l Hi) as (B & C & HC & HC').
  assert (HxI : x ∈ concat (<[i := []]> ls)).
  { apply (elem_of_concat_lookup _ j lj); [by rewrite list_lookup_insert_ne|done]. }
  rewrite HC' in HxI. rewrite HC in Hnd. apply NoDup_app in Hnd as (_ & H1 & Hnd).
  apply NoDup_app in Hnd as (_ & H2 & _). apply elem_of_app in HxI as [HxB|HxC].
  - apply (H1 x HxB). apply elem_of_app. by left.
  - by apply (H2 x Hxl).
Qed.

(** ** Searching a table *)

Section First.
Context {A : Type} (f : A -> bool).

(** The index of the first element that satisfies [f]. *)
Fixpoint first (l : list A) : option nat :=
  match l with
  | [] => None
  | x :: l' => if f x then Some O else S <$> first l'
  end.

Lemma first_Some l k :
  first l = Some k <-> exists x, l !! k = Some x /\ f x = true /\ forall j y, (j < k)%nat -> l !! j = Some y -> f y = false.
Proof.
  revert k. induction l as [|x l IH]; intros k; cbn [first].
  - split; [done|]. intros (x & Hx & _). by rewrite lookup_nil in Hx.
  - destruct (f x) eqn:Hf.
    + split.
      * intros [= <-]. exists x. split; [done|]. split; [done|]. lia.
      * intros (y & Hy & Hfy & Hj). destruct k; [done|]. by rewrite (Hj O x ltac:(lia) eq_refl) in Hf.
    + rewrite fmap_Some. setoid_rewrite IH. split.
      * intros (k' & (y & Hy & Hfy & Hj) & ->). exists y. split; [done|]. split; [done|].
        intros [|j] z Hlt Hz; [by injection Hz as <-|]. apply (Hj j); [lia|done].
      * intros (y & Hy & Hfy & Hj). destruct k as [|k]; [injection Hy as <-; congruence|].
        exists k. split; [|done]. exists y. split; [done|]. split; [done|]. intros j z Hlt Hz. apply (Hj (S j)); [lia|done].
Qed.

Lemma first_None l : first l = None <-> Forall (fun x => f x = false) l.
Proof.
  induction l as [|x l IH]; cbn [first]; [by split|]. rewrite Forall_cons. destruct (f x); [by split; [|intros []]|].
  rewrite fmap_None, IH. tauto.
Qed.

Lemma first_lt l k : first l = Some k -> (k < length l)%nat.
Proof. intros (x & Hx & _)%first_Some. by apply lookup_lt_Some in Hx. Qed.

Lemma first_take_S l k x : l !! k = Some x -> first (take (S k) l) =
  match first (take k l) with Some a => Some a | None => if f x then Some k else None end.
Proof.
  revert k. induction l as [|y l IH]; intros k Hk; [by rewrite lookup_nil in Hk|]. destruct k as [|k].
  - injection Hk as ->. cbn. by destruct (f x).
  - cbn [take first]. destruct (f y); [done|]. rewrite (IH k Hk). destruct (first (take k l)); [done|]. by destruct (f x).
Qed.

Lemma first_take_here l k x : l !! k = Some x -> first (take k l) = None -> f x = true -> first l = Some k.
Proof.
  intros Hx Hn Hf. apply first_Some. exists x. split; [done|]. split; [done|]. intros j y Hj Hy.
  apply first_None in Hn. apply (proj1 (Forall_lookup _ _) Hn j). by rewrite lookup_take_lt.
Qed.
End First.
