(* ===== verification/Machine.v ===== *)
(** * The machine: constants, address arithmetic and byte memory

    The macros of kernel/riscv.h, kernel/memlayout.h, kernel/param.h and
    kernel/stat.h, and the physical memory the kernel runs on: a total map
    from physical addresses to bytes with little-endian loads and stores,
    as on RISC-V. *)

From S2P Require Import Prelude.

(** ** kernel/param.h *)

Definition NPROC : nat := 64.
Definition NOFILE : nat := 16.
Definition NFILE : nat := 100.
Definition NINODE : nat := 50.
Definition NDEV : Z := 10.
Definition ROOTDEV : Z := 1.
Definition MAXARG : nat := 32.
Definition MAXOPBLOCKS : Z := 10.
Definition LOGSIZE : Z := MAXOPBLOCKS * 3.
Definition NBUF : nat := 30.
Definition MAXPATH : Z := 128.
Definition TSTICKSHIGH : Z := 1.
Definition TSTICKSMEDIUM : Z := 50.
Definition TSTICKSLOW : Z := 200.
Definition NQUEUE : Z := 3.
Definition HIGH : Z := 0.
Definition MEDIUM : Z := 1.
Definition LOW : Z := 2.
Definition MLFQ : Z := 1.
Definition RR : Z := 0.
Definition MAX_MMR : nat := 10.

(** ** kernel/riscv.h *)

Definition PGSIZE : Z := 4096.
Definition PGSHIFT : Z := 12.
Definition PGROUNDUP (sz : Z) : Z := Z.land (u64 (sz + PGSIZE - 1)) (Z.lnot (PGSIZE - 1)).
Definition PGROUNDDOWN (a : Z) : Z := Z.land a (Z.lnot (PGSIZE - 1)).

Definition PTE_V : Z := 1.
Definition PTE_R : Z := 2.
Definition PTE_W : Z := 4.
Definition PTE_X : Z := 8.
Definition PTE_U : Z := 16.

Definition PA2PTE (pa : Z) : Z := u64 (Z.shiftl (Z.shiftr pa 12) 10).
Definition PTE2PA (pte : Z) : Z := u64 (Z.shiftl (Z.shiftr pte 10) 12).
Definition PTE_FLAGS (pte : Z) : Z := Z.land pte 0x3FF.

Definition PXMASK : Z := 0x1FF.
Definition PXSHIFT (level : Z) : Z := PGSHIFT + 9 * level.
Definition PX (level va : Z) : Z := Z.land (Z.shiftr va (PXSHIFT level)) PXMASK.
Definition MAXVA : Z := Z.shiftl 1 (9 + 9 + 9 + 12 - 1).

(** A flag test of the form [x & FLAG]. *)
Definition hasbit (x flag : Z) : bool := negb (Z.land x flag =? 0).

(** ** kernel/memlayout.h *)

Definition UART0 : Z := 0x10000000.
Definition UART0_IRQ : Z := 10.
Definition VIRTIO0 : Z := 0x10001000.
Definition VIRTIO0_IRQ : Z := 1.
Definition PLIC : Z := 0x0c000000.
Definition KERNBASE : Z := 0x80000000.
Definition PHYSTOP : Z := KERNBASE + 128 * 1024 * 1024.
Definition TRAMPOLINE : Z := MAXVA - PGSIZE.
Definition KSTACK (p : Z) : Z := TRAMPOLINE - (p + 1) * 2 * PGSIZE.
Definition TRAPFRAME : Z := TRAMPOLINE - PGSIZE.

(** ** kernel/stat.h and kernel/fcntl.h *)

Definition T_DIR : Z := 1.
Definition T_FILE : Z := 2.
Definition T_DEVICE : Z := 3.
Definition MAP_SHARED : Z := 0x01.
Definition MAP_PRIVATE : Z := 0x02.
Definition O_RDONLY : Z := 0x000.
Definition O_WRONLY : Z := 0x001.
Definition O_RDWR : Z := 0x002.
Definition O_CREATE : Z := 0x200.
Definition O_TRUNC : Z := 0x400.

(** ** Symbols placed by the linker (kernel/kernel.ld)

    The script only fixes where the kernel starts and that text, including
    the trampoline page, precedes [etext], which precedes [end]; the
    addresses themselves come from the build. *)

Class Layout := {
  kend : Z;             (* [end]: first address after the kernel *)
  etext : Z;            (* end of kernel text *)
  trampoline : Z;       (* the trampoline page *)
  uservec_addr : Z;     (* entry points in the trampoline page *)
  userret_addr : Z;
  usertrap_addr : Z;    (* functions whose address the kernel stores *)
  forkret_addr : Z;
  layout_ok : KERNBASE <= trampoline < etext /\ etext <= kend < PHYSTOP;
  etext_aligned : etext mod PGSIZE = 0;
  trampoline_aligned : trampoline mod PGSIZE = 0
}.

(** The addresses of one build of the repository (kernel/kernel.sym). *)
Definition sym_layout : Layout.
Proof.
  refine {| kend := 0x80038000; etext := 0x80009000; trampoline := 0x80008000;
            uservec_addr := 0x80008000; userret_addr := 0x80008090; usertrap_addr := 0x80003338; forkret_addr := 0x80001df4 |};
    vm_compute; repeat split; congruence.
Defined.

(** ** Byte memory *)

Definition memory : Type := Z -> Z.

(** [n]-byte little-endian load and store. *)
Fixpoint ld (n : nat) (m : memory) (a : Z) : Z :=
  match n with
  | O => 0
  | S n' => u8 (m a) + 256 * ld n' m (a + 1)
  end.

Definition st (n : nat) (m : memory) (a v : Z) : memory :=
  fun x => if (a <=? x) && (x <? a + Z.of_nat n)
           then u8 (v / 256 ^ (x - a)) else m x.

Definition ld64 (m : memory) (a : Z) : Z := ld 8 m a.
Definition st64 (m : memory) (a v : Z) : memory := st 8 m a v.
Definition ld32 (m : memory) (a : Z) : Z := ld 4 m a.
Definition st32 (m : memory) (a v : Z) : memory := st 4 m a v.

(** The effect of filling and of copying a range, as one update. *)
Definition fill (m : memory) (a c n : Z) : memory :=
  fun x => if (a <=? x) && (x <? a + n) then u8 c else m x.

Definition copy (m : memory) (dst src n : Z) : memory :=
  fun x => if (dst <=? x) && (x <? dst + n) then u8 (m (x - dst + src)) else m x.

(** Bytes in and out of memory. *)
Definition rdbytes (m : memory) (a : Z) (n : nat) : list Z :=
  map (fun i => u8 (m (a + Z.of_nat i))) (seq 0 n).

Definition wrbytes (m : memory) (a : Z) (l : list Z) : memory :=
  fun x => if (a <=? x) && (x <? a + Z.of_nat (length l))
           then nth (Z.to_nat (x - a)) l 0 else m x.

(** ** Facts about widths and pages *)

Lemma u64_small x : 0 <= x < 2 ^ 64 -> u64 x = x.
Proof. intros. unfold u64. now apply Z.mod_small. Qed.

Lemma u64_range x : 0 <= u64 x < 2 ^ 64.
Proof. unfold u64. apply Z.mod_pos_bound. reflexivity. Qed.

Lemma u8_range x : 0 <= u8 x < 256.
Proof. unfold u8. apply Z.mod_pos_bound. reflexivity. Qed.

Lemma u8_small x : 0 <= x < 256 -> u8 x = x.
Proof. intros. unfold u8. now apply Z.mod_small. Qed.

Lemma u8_u8 x : u8 (u8 x) = u8 x.
Proof. apply u8_small, u8_range. Qed.

Lemma u32_small x : 0 <= x < 2 ^ 32 -> u32 x = x.
Proof. intros. unfold u32. now apply Z.mod_small. Qed.

Lemma u32_range x : 0 <= u32 x < 2 ^ 32.
Proof. unfold u32. apply Z.mod_pos_bound. reflexivity. Qed.

Lemma i32_small x : - 2 ^ 31 <= x < 2 ^ 31 -> i32 x = x.
Proof. intros. unfold i32. rewrite Z.mod_small; lia. Qed.

Lemma land_lnot_mask a k :
  0 <= k -> Z.land a (Z.lnot (2 ^ k - 1)) = a - a mod 2 ^ k.
Proof.
  intros Hk.
  replace (2 ^ k - 1) with (Z.ones k) by (rewrite Z.ones_equiv; lia).
  rewrite <- Z.ldiff_land, Z.ldiff_ones_r, Z.shiftr_div_pow2, Z.shiftl_mul_pow2 by lia.
  pose proof (Z.div_mod a (2 ^ k) ltac:(lia)). lia.
Qed.

Lemma PGROUNDDOWN_eq a : PGROUNDDOWN a = a - a mod PGSIZE.
Proof. exact (land_lnot_mask a 12 ltac:(lia)). Qed.

Lemma PGROUNDUP_eq sz :
  0 <= sz < 2 ^ 64 - PGSIZE -> PGROUNDUP sz = sz + (- sz) mod PGSIZE.
Proof.
  intros H. unfold PGROUNDUP. unfold PGSIZE in *. rewrite u64_small by lia.
  rewrite (land_lnot_mask _ 12 ltac:(lia)). change (2 ^ 12) with 4096.
  Z.div_mod_to_equations. lia.
Qed.

Lemma PGROUNDDOWN_aligned a : PGROUNDDOWN a mod PGSIZE = 0.
Proof. rewrite PGROUNDDOWN_eq. unfold PGSIZE. Z.div_mod_to_equations. lia. Qed.

Lemma PGROUNDDOWN_id a : a mod PGSIZE = 0 -> PGROUNDDOWN a = a.
Proof. rewrite PGROUNDDOWN_eq. lia. Qed.

Lemma PGROUNDDOWN_le a : PGROUNDDOWN a <= a < PGROUNDDOWN a + PGSIZE.
Proof. rewrite PGROUNDDOWN_eq. unfold PGSIZE. Z.div_mod_to_equations. lia. Qed.

Lemma PGROUNDUP_aligned sz : 0 <= sz < 2 ^ 64 - PGSIZE -> PGROUNDUP sz mod PGSIZE = 0.
Proof. intros. rewrite PGROUNDUP_eq by done. unfold PGSIZE in *. Z.div_mod_to_equations. lia. Qed.

Lemma PGROUNDUP_bounds sz :
  0 <= sz < 2 ^ 64 - PGSIZE -> sz <= PGROUNDUP sz < sz + PGSIZE.
Proof. intros. rewrite PGROUNDUP_eq by done. unfold PGSIZE in *. Z.div_mod_to_equations. lia. Qed.

Lemma PGROUNDUP_id sz :
  0 <= sz < 2 ^ 64 - PGSIZE -> sz mod PGSIZE = 0 -> PGROUNDUP sz = sz.
Proof. intros. rewrite PGROUNDUP_eq by done. unfold PGSIZE in *. Z.div_mod_to_equations. lia. Qed.

Lemma PX_eq level va : 0 <= level -> PX level va = va / 2 ^ (12 + 9 * level) mod 512.
Proof.
  intros H. unfold PX, PXMASK, PXSHIFT, PGSHIFT.
  change 0x1FF with (Z.ones 9). rewrite Z.land_ones by lia.
  rewrite Z.shiftr_div_pow2 by lia. reflexivity.
Qed.

Lemma PX_range level va : 0 <= level -> 0 <= PX level va < 512.
Proof. intros. rewrite PX_eq by done. apply Z.mod_pos_bound. lia. Qed.

(** The three indices determine the page of a virtual address below MAXVA. *)
Lemma PX_inj va va' :
  0 <= va < MAXVA -> 0 <= va' < MAXVA ->
  PX 2 va = PX 2 va' -> PX 1 va = PX 1 va' -> PX 0 va = PX 0 va' ->
  va / PGSIZE = va' / PGSIZE.
Proof.
  rewrite !PX_eq by lia. unfold PGSIZE, MAXVA.
  change (Z.shiftl 1 _) with 274877906944.
  change (2 ^ (12 + 9 * 2)) with (4096 * 512 * 512).
  change (2 ^ (12 + 9 * 1)) with (4096 * 512).
  change (2 ^ (12 + 9 * 0)) with 4096.
  rewrite <- !Z.div_div by lia. intros.
  assert (va / 4096 < 512 * 512 * 256) by (apply Z.div_lt_upper_bound; lia).
  assert (va' / 4096 < 512 * 512 * 256) by (apply Z.div_lt_upper_bound; lia).
  pose proof (Z.div_pos va 4096). pose proof (Z.div_pos va' 4096).
  generalize dependent (va / 4096). generalize dependent (va' / 4096). intros.
  Z.div_mod_to_equations. lia.
Qed.

(** ** Page-table entries *)

Lemma shiftr_small x k : 0 <= k -> 0 <= x < 2 ^ k -> Z.shiftr x k = 0.
Proof. intros. rewrite Z.shiftr_div_pow2 by lia. now apply Z.div_small. Qed.

(** An entry as the kernel builds it, [PA2PTE(pa) | flags]. *)
Definition mkpte (pa flags : Z) : Z := Z.lor (PA2PTE pa) flags.

Lemma PA2PTE_no_wrap pa :
  0 <= pa < 2 ^ 56 -> PA2PTE pa = Z.shiftl (Z.shiftr pa 12) 10.
Proof.
  intros. apply u64_small. rewrite Z.shiftr_div_pow2, Z.shiftl_mul_pow2 by lia.
  change (2 ^ 12) with 4096. change (2 ^ 10) with 1024. Z.div_mod_to_equations. lia.
Qed.

Lemma PA2PTE_eq pa : 0 <= pa < 2 ^ 56 -> PA2PTE pa = pa / 4096 * 1024.
Proof.
  intros. rewrite PA2PTE_no_wrap, Z.shiftr_div_pow2, Z.shiftl_mul_pow2 by lia. reflexivity.
Qed.

Lemma PTE2PA_mkpte pa flags :
  0 <= pa < 2 ^ 56 -> pa mod PGSIZE = 0 -> 0 <= flags < 1024 ->
  PTE2PA (mkpte pa flags) = pa.
Proof.
  intros Hpa Hal Hf. unfold mkpte, PTE2PA. rewrite PA2PTE_no_wrap by done.
  rewrite Z.shiftr_lor, (shiftr_small flags 10), Z.lor_0_r by lia.
  rewrite Z.shiftr_shiftl_l by lia. simpl Z.sub. rewrite Z.shiftl_0_r.
  rewrite Z.shiftr_div_pow2, Z.shiftl_mul_pow2 by lia.
  unfold PGSIZE in Hal. change (2 ^ 12) with 4096.
  rewrite u64_small; Z.div_mod_to_equations; lia.
Qed.

Lemma land_shifted x y k : 0 <= k -> 0 <= y < 2 ^ k -> Z.land (Z.shiftl x k) y = 0.
Proof.
  intros Hk Hy. apply Z.bits_inj'. intros n Hn.
  rewrite Z.land_spec, Z.bits_0. destruct (decide (n < k)).
  - rewrite Z.shiftl_spec_low by lia. reflexivity.
  - destruct (decide (y = 0)) as [->|]; [rewrite Z.bits_0; apply andb_false_r|].
    rewrite (Z.bits_above_log2 y n); [apply andb_false_r|lia|].
    assert (Z.log2 y < k) by (apply Z.log2_lt_pow2; lia). lia.
Qed.

Lemma PA2PTE_land pa x : 0 <= pa < 2 ^ 56 -> 0 <= x < 1024 -> Z.land (PA2PTE pa) x = 0.
Proof.
  intros Hpa Hx. rewrite PA2PTE_no_wrap by done. now apply land_shifted.
Qed.

Lemma mkpte_land pa flags x :
  0 <= pa < 2 ^ 56 -> 0 <= x < 1024 -> Z.land (mkpte pa flags) x = Z.land flags x.
Proof.
  intros. unfold mkpte. rewrite Z.land_lor_distr_l, PA2PTE_land by done. reflexivity.
Qed.

Lemma mkpte_flags pa flags :
  0 <= pa < 2 ^ 56 -> 0 <= flags < 1024 -> PTE_FLAGS (mkpte pa flags) = flags.
Proof.
  intros. unfold PTE_FLAGS. rewrite mkpte_land by lia.
  change 0x3FF with (Z.ones 10). rewrite Z.land_ones by lia. apply Z.mod_small. lia.
Qed.

Lemma mkpte_range pa flags :
  0 <= pa < 2 ^ 56 -> 0 <= flags < 1024 -> 0 <= mkpte pa flags < 2 ^ 64.
Proof.
  intros Hpa Hf. unfold mkpte.
  pose proof (PA2PTE_eq pa Hpa). pose proof (Z.add_lor_land (PA2PTE pa) flags).
  rewrite PA2PTE_land in H0 by lia. Z.div_mod_to_equations. lia.
Qed.

(** ** Facts about memory *)

Lemma ld_range n m a : 0 <= ld n m a < 256 ^ Z.of_nat n.
Proof.
  revert a. induction n as [|n IH]; intros a.
  - simpl. lia.
  - cbn [ld]. pose proof (u8_range (m a)). specialize (IH (a + 1)).
    rewrite Nat2Z.inj_succ, Z.pow_succ_r by lia. lia.
Qed.

Lemma ld64_range m a : 0 <= ld64 m a < 2 ^ 64.
Proof. exact (ld_range 8 m a). Qed.

Lemma ld32_range m a : 0 <= ld32 m a < 2 ^ 32.
Proof. exact (ld_range 4 m a). Qed.

Lemma ld_ext n m m' a :
  (forall x, a <= x < a + Z.of_nat n -> m' x = m x) -> ld n m' a = ld n m a.
Proof.
  revert a. induction n as [|n IH]; intros a H; [reflexivity|].
  cbn [ld]. rewrite (H a) by lia. rewrite IH; [reflexivity|].
  intros x Hx. apply H. lia.
Qed.

Lemma ld_st_other n k m a b v :
  b + Z.of_nat k <= a \/ a + Z.of_nat n <= b ->
  ld k (st n m a v) b = ld k m b.
Proof.
  intros H. apply ld_ext. intros x Hx. unfold st.
  destruct (Z.leb_spec a x), (Z.ltb_spec x (a + Z.of_nat n)); try reflexivity. lia.
Qed.

Lemma ld_st_aux n k m a v :
  (k <= n)%nat ->
  ld k (st n m a v) (a + Z.of_nat (n - k)) = (v / 256 ^ Z.of_nat (n - k)) mod 256 ^ Z.of_nat k.
Proof.
  intros Hk. revert n Hk. induction k as [|k IH]; intros n Hk.
  - simpl. now rewrite Z.mod_1_r.
  - cbn [ld].
    replace (a + Z.of_nat (n - S k) + 1) with (a + Z.of_nat (n - k)) by lia.
    rewrite IH by lia. unfold st at 1.
    destruct (Z.leb_spec a (a + Z.of_nat (n - S k))); [|lia].
    destruct (Z.ltb_spec (a + Z.of_nat (n - S k)) (a + Z.of_nat n)); [|lia].
    cbn [andb]. rewrite u8_u8.
    replace (a + Z.of_nat (n - S k) - a) with (Z.of_nat (n - S k)) by lia.
    replace (Z.of_nat (n - k)) with (Z.of_nat (n - S k) + 1) by lia.
    rewrite Z.pow_add_r, <- Z.div_div by lia.
    set (w := v / 256 ^ Z.of_nat (n - S k)).
    rewrite Nat2Z.inj_succ, Z.pow_succ_r by lia.
    rewrite Z.rem_mul_r by lia. unfold u8. reflexivity.
Qed.

Lemma ld_st_same n m a v : ld n (st n m a v) a = v mod 256 ^ Z.of_nat n.
Proof.
  pose proof (ld_st_aux n n m a v ltac:(lia)) as H.
  rewrite Nat.sub_diag in H. simpl in H. rewrite Z.add_0_r, Z.div_1_r in H. exact H.
Qed.

Lemma ld64_st64_same m a v : 0 <= v < 2 ^ 64 -> ld64 (st64 m a v) a = v.
Proof. intros. unfold ld64, st64. rewrite ld_st_same. now apply Z.mod_small. Qed.

Lemma ld64_st64_other m a b v :
  b + 8 <= a \/ a + 8 <= b -> ld64 (st64 m a v) b = ld64 m b.
Proof. intros. apply ld_st_other. simpl. lia. Qed.

Lemma st_outside n m a v x : x < a \/ a + Z.of_nat n <= x -> st n m a v x = m x.
Proof.
  intros. unfold st. destruct (Z.leb_spec a x), (Z.ltb_spec x (a + Z.of_nat n)); try reflexivity. lia.
Qed.

Lemma fill_inside m a c n x : a <= x < a + n -> fill m a c n x = u8 c.
Proof.
  intros. unfold fill. destruct (Z.leb_spec a x), (Z.ltb_spec x (a + n)); try reflexivity; lia.
Qed.

Lemma fill_outside m a c n x : x < a \/ a + n <= x -> fill m a c n x = m x.
Proof.
  intros. unfold fill. destruct (Z.leb_spec a x), (Z.ltb_spec x (a + n)); try reflexivity; lia.
Qed.

Lemma ld_fill_other k m a c n b :
  b + Z.of_nat k <= a \/ a + n <= b -> ld k (fill m a c n) b = ld k m b.
Proof. intros. apply ld_ext. intros. apply fill_outside. lia. Qed.

Lemma ld_fill_zero k m a n b :
  a <= b -> b + Z.of_nat k <= a + n -> ld k (fill m a 0 n) b = 0.
Proof.
  revert b. induction k as [|k IH]; intros b H1 H2; [reflexivity|].
  cbn [ld]. rewrite fill_inside, IH by lia. reflexivity.
Qed.

Lemma copy_inside m d s n x : d <= x < d + n -> copy m d s n x = u8 (m (x - d + s)).
Proof.
  intros. unfold copy. destruct (Z.leb_spec d x), (Z.ltb_spec x (d + n)); try reflexivity; lia.
Qed.

Lemma copy_outside m d s n x : x < d \/ d + n <= x -> copy m d s n x = m x.
Proof.
  intros. unfold copy. destruct (Z.leb_spec d x), (Z.ltb_spec x (d + n)); try reflexivity; lia.
Qed.

Lemma wrbytes_outside m a l x :
  x < a \/ a + Z.of_nat (length l) <= x -> wrbytes m a l x = m x.
Proof.
  intros. unfold wrbytes.
  destruct (Z.leb_spec a x), (Z.ltb_spec x (a + Z.of_nat (length l))); try reflexivity; lia.
Qed.

Lemma wrbytes_inside m a l x :
  a <= x < a + Z.of_nat (length l) -> wrbytes m a l x = nth (Z.to_nat (x - a)) l 0.
Proof.
  intros. unfold wrbytes.
  destruct (Z.leb_spec a x), (Z.ltb_spec x (a + Z.of_nat (length l))); try reflexivity; lia.
Qed.

Lemma length_rdbytes m a n : length (rdbytes m a n) = n.
Proof. unfold rdbytes. now rewrite length_map, length_seq. Qed.

Lemma lor_range a b k :
  0 <= k -> 0 <= a < 2 ^ k -> 0 <= b < 2 ^ k -> 0 <= Z.lor a b < 2 ^ k.
Proof.
  intros Hk Ha Hb. assert (0 <= Z.lor a b) by (apply Z.lor_nonneg; lia). split; [done|].
  destruct (decide (Z.lor a b = 0)) as [->|Hne]; [lia|].
  apply Z.log2_lt_pow2; [lia|]. rewrite Z.log2_lor by lia.
  assert (H2 : forall x, 0 <= x < 2 ^ k -> x <> 0 -> Z.log2 x < k).
  { intros x Hx Hx0. apply Z.log2_lt_pow2; lia. }
  destruct (decide (a = 0)) as [->|]; destruct (decide (b = 0)) as [->|].
  - now rewrite Z.lor_0_r in Hne.
  - pose proof (H2 b Hb ltac:(lia)). pose proof (Z.log2_nonneg b). simpl (Z.log2 0). lia.
  - pose proof (H2 a Ha ltac:(lia)). pose proof (Z.log2_nonneg a). simpl (Z.log2 0). lia.
  - pose proof (H2 a Ha ltac:(lia)). pose proof (H2 b Hb ltac:(lia)). lia.
Qed.

Lemma PGROUNDDOWN_div a : PGROUNDDOWN a = a / PGSIZE * PGSIZE.
Proof. rewrite PGROUNDDOWN_eq. unfold PGSIZE. Z.div_mod_to_equations. lia. Qed.

(** The page-table indices do not depend on the offset in the page. *)
Lemma PX_page level va : 0 <= level -> PX level (va / PGSIZE * PGSIZE) = PX level va.
Proof.
  intros H. rewrite !PX_eq by done. f_equal.
  rewrite Z.pow_add_r by lia. change (2 ^ 12) with PGSIZE.
  rewrite <- !Z.div_div; unfold PGSIZE; try lia. now rewrite Z.div_mul.
Qed.

(** The bytes of a char array up to its NUL. *)
Fixpoint upto_nul (l : list Z) : list Z :=
  match l with
  | c :: l' => if c =? 0 then [] else c :: upto_nul l'
  | [] => []
  end.

Lemma upto_nul_id l : Forall (fun c => c <> 0) l -> upto_nul l = l.
Proof. induction 1 as [|c l Hc _ IH]; cbn; [done|]. destruct (Z.eqb_spec c 0); congruence. Qed.

Lemma upto_nul_app l l' : Forall (fun c => c <> 0) l -> upto_nul (l ++ 0 :: l') = l.
Proof. induction 1 as [|c l Hc _ IH]; cbn; [done|]. destruct (Z.eqb_spec c 0); congruence. Qed.

Lemma upto_nul_bytes l : Forall (fun c => 0 <= c < 256) l -> Forall (fun c => 0 <= c < 256) (upto_nul l).
Proof. induction 1 as [|c l Hc _ IH]; cbn [upto_nul]; [done|]. destruct (c =? 0); [done|]. by apply Forall_cons. Qed.
