(* ===== verification/State.v ===== *)
(** * Kernel data structures and global variables

    The structs of kernel/proc.h, kernel/file.h, kernel/buf.h,
    kernel/sleeplock.h, kernel/fs.h and kernel/log.c as records, the kernel's
    global variables as the fields of [kstate], and the primitives every
    component uses: spinlocks as one hart sees them, the current process,
    and access to memory.

    A pointer into a static table (proc, file, inode, buf, mmr) is the index
    of the entry, [None] for a null pointer; a pointer to a page obtained
    from [kalloc] is its physical address. *)

From S2P Require Import Prelude Machine.

(** Spinlocks, by the variable that holds them. *)
Inductive lock :=
| Lk_kmem | Lk_proc (p : nat) | Lk_wait | Lk_pid | Lk_queue (q : nat)
| Lk_listid | Lk_mmrlist (l : Z) | Lk_ticks | Lk_ftable | Lk_itable | Lk_log
| Lk_bcache | Lk_pipe (pi : Z) | Lk_cons | Lk_uart | Lk_vdisk | Lk_pr
| Lk_sleepbuf (b : nat) | Lk_sleepinode (i : nat).

#[global] Instance lock_eq_dec : EqDecision lock.
Proof. solve_decision. Defined.

(** Sleep channels, by the address used as channel. *)
Inductive chan :=
| Ch_ticks | Ch_proc (p : nat) | Ch_pipe_read (pi : Z) | Ch_pipe_write (pi : Z)
| Ch_log | Ch_sleepbuf (b : nat) | Ch_sleepinode (i : nat) | Ch_buf (b : nat)
| Ch_vdisk_free | Ch_cons | Ch_uart.

#[global] Instance chan_eq_dec : EqDecision chan.
Proof. solve_decision. Defined.

(** ** kernel/param.h, kernel/proc.h *)

Inductive procstate := UNUSED | USED | SLEEPING | RUNNABLE | RUNNING | ZOMBIE.

#[global] Instance procstate_eq_dec : EqDecision procstate.
Proof. solve_decision. Defined.

(** Saved registers for kernel context switches. *)
Record context := mkContext {
  ctx_ra : Z;
  ctx_sp : Z;
  ctx_s : list Z  (* s0 .. s11 *)
}.

Definition set_ctx_ra (v : Z) (r : context) : context :=
  mkContext v (ctx_sp r) (ctx_s r).
Definition set_ctx_sp (v : Z) (r : context) : context :=
  mkContext (ctx_ra r) v (ctx_s r).
Definition set_ctx_s (v : list Z) (r : context) : context :=
  mkContext (ctx_ra r) (ctx_sp r) v.

(** A node of the ring of processes sharing a region: process and region index. *)
Abbreviation node := (nat * nat)%type.

Record mmr_node := mkMmrNode {
  mn_listid : Z;
  mn_proc : option nat;
  mn_next : option node;
  mn_prev : option node
}.

Definition set_mn_listid (v : Z) (r : mmr_node) : mmr_node :=
  mkMmrNode v (mn_proc r) (mn_next r) (mn_prev r).
Definition set_mn_proc (v : option nat) (r : mmr_node) : mmr_node :=
  mkMmrNode (mn_listid r) v (mn_next r) (mn_prev r).
Definition set_mn_next (v : option node) (r : mmr_node) : mmr_node :=
  mkMmrNode (mn_listid r) (mn_proc r) v (mn_prev r).
Definition set_mn_prev (v : option node) (r : mmr_node) : mmr_node :=
  mkMmrNode (mn_listid r) (mn_proc r) (mn_next r) v.

(** A memory-mapped region; its file and fd fields are unused in the source. *)
Record mmr := mkMmr {
  mr_addr : Z;  (* uint64 *)
  mr_length : Z;  (* int *)
  mr_prot : Z;  (* int *)
  mr_flags : Z;  (* int *)
  mr_valid : Z;  (* int *)
  mr_family : mmr_node
}.

Definition set_mr_addr (v : Z) (r : mmr) : mmr :=
  mkMmr v (mr_length r) (mr_prot r) (mr_flags r) (mr_valid r) (mr_family r).
Definition set_mr_length (v : Z) (r : mmr) : mmr :=
  mkMmr (mr_addr r) v (mr_prot r) (mr_flags r) (mr_valid r) (mr_family r).
Definition set_mr_prot (v : Z) (r : mmr) : mmr :=
  mkMmr (mr_addr r) (mr_length r) v (mr_flags r) (mr_valid r) (mr_family r).
Definition set_mr_flags (v : Z) (r : mmr) : mmr :=
  mkMmr (mr_addr r) (mr_length r) (mr_prot r) v (mr_valid r) (mr_family r).
Definition set_mr_valid (v : Z) (r : mmr) : mmr :=
  mkMmr (mr_addr r) (mr_length r) (mr_prot r) (mr_flags r) v (mr_family r).
Definition set_mr_family (v : mmr_node) (r : mmr) : mmr :=
  mkMmr (mr_addr r) (mr_length r) (mr_prot r) (mr_flags r) (mr_valid r) v.

(** Per-process state. *)
Record proc := mkProc {
  p_state : procstate;
  p_chan : option chan;
  p_killed : Z;
  p_xstate : Z;
  p_pid : Z;
  p_cputime : Z;  (* uint64 *)
  p_tsticks : Z;  (* uint *)
  p_priority : Z;  (* int *)
  p_timeslice : Z;  (* uint *)
  p_yielded : Z;
  p_next : option nat;
  p_parent : option nat;
  p_kstack : Z;
  p_sz : Z;  (* uint64 *)
  p_pagetable : Z;
  p_trapframe : Z;
  p_context : context;
  p_ofile : list (option nat);  (* NOFILE entries *)
  p_cwd : option nat;
  p_name : list Z;  (* 16 bytes *)
  p_mmr : list mmr;  (* MAX_MMR entries *)
  p_cur_max : Z  (* uint64 *)
}.

Definition set_p_state (v : procstate) (r : proc) : proc :=
  mkProc v (p_chan r) (p_killed r) (p_xstate r) (p_pid r) (p_cputime r) (p_tsticks r) (p_priority r) (p_timeslice r) (p_yielded r) (p_next r) (p_parent r) (p_kstack r) (p_sz r) (p_pagetable r) (p_trapframe r) (p_context r) (p_ofile r) (p_cwd r) (p_name r) (p_mmr r) (p_cur_max r).
Definition set_p_chan (v : option chan) (r : proc) : proc :=
  mkProc (p_state r) v (p_killed r) (p_xstate r) (p_pid r) (p_cputime r) (p_tsticks r) (p_priority r) (p_timeslice r) (p_yielded r) (p_next r) (p_parent r) (p_kstack r) (p_sz r) (p_pagetable r) (p_trapframe r) (p_context r) (p_ofile r) (p_cwd r) (p_name r) (p_mmr r) (p_cur_max r).
Definition set_p_killed (v : Z) (r : proc) : proc :=
  mkProc (p_state r) (p_chan r) v (p_xstate r) (p_pid r) (p_cputime r) (p_tsticks r) (p_priority r) (p_timeslice r) (p_yielded r) (p_next r) (p_parent r) (p_kstack r) (p_sz r) (p_pagetable r) (p_trapframe r) (p_context r) (p_ofile r) (p_cwd r) (p_name r) (p_mmr r) (p_cur_max r).
Definition set_p_xstate (v : Z) (r : proc) : proc :=
  mkProc (p_state r) (p_chan r) (p_killed r) v (p_pid r) (p_cputime r) (p_tsticks r) (p_priority r) (p_timeslice r) (p_yielded r) (p_next r) (p_parent r) (p_kstack r) (p_sz r) (p_pagetable r) (p_trapframe r) (p_context r) (p_ofile r) (p_cwd r) (p_name r) (p_mmr r) (p_cur_max r).
Definition set_p_pid (v : Z) (r : proc) : proc :=
  mkProc (p_state r) (p_chan r) (p_killed r) (p_xstate r) v (p_cputime r) (p_tsticks r) (p_priority r) (p_timeslice r) (p_yielded r) (p_next r) (p_parent r) (p_kstack r) (p_sz r) (p_pagetable r) (p_trapframe r) (p_context r) (p_ofile r) (p_cwd r) (p_name r) (p_mmr r) (p_cur_max r).
Definition set_p_cputime (v : Z) (r : proc) : proc :=
  mkProc (p_state r) (p_chan r) (p_killed r) (p_xstate r) (p_pid r) v (p_tsticks r) (p_priority r) (p_timeslice r) (p_yielded r) (p_next r) (p_parent r) (p_kstack r) (p_sz r) (p_pagetable r) (p_trapframe r) (p_context r) (p_ofile r) (p_cwd r) (p_name r) (p_mmr r) (p_cur_max r).
Definition set_p_tsticks (v : Z) (r : proc) : proc :=
  mkProc (p_state r) (p_chan r) (p_killed r) (p_xstate r) (p_pid r) (p_cputime r) v (p_priority r) (p_timeslice r) (p_yielded r) (p_next r) (p_parent r) (p_kstack r) (p_sz r) (p_pagetable r) (p_trapframe r) (p_context r) (p_ofile r) (p_cwd r) (p_name r) (p_mmr r) (p_cur_max r).
Definition set_p_priority (v : Z) (r : proc) : proc :=
  mkProc (p_state r) (p_chan r) (p_killed r) (p_xstate r) (p_pid r) (p_cputime r) (p_tsticks r) v (p_timeslice r) (p_yielded r) (p_next r) (p_parent r) (p_kstack r) (p_sz r) (p_pagetable r) (p_trapframe r) (p_context r) (p_ofile r) (p_cwd r) (p_name r) (p_mmr r) (p_cur_max r).
Definition set_p_timeslice (v : Z) (r : proc) : proc :=
  mkProc (p_state r) (p_chan r) (p_killed r) (p_xstate r) (p_pid r) (p_cputime r) (p_tsticks r) (p_priority r) v (p_yielded r) (p_next r) (p_parent r) (p_kstack r) (p_sz r) (p_pagetable r) (p_trapframe r) (p_context r) (p_ofile r) (p_cwd r) (p_name r) (p_mmr r) (p_cur_max r).
Definition set_p_yielded (v : Z) (r : proc) : proc :=
  mkProc (p_state r) (p_chan r) (p_killed r) (p_xstate r) (p_pid r) (p_cputime r) (p_tsticks r) (p_priority r) (p_timeslice r) v (p_next r) (p_parent r) (p_kstack r) (p_sz r) (p_pagetable r) (p_trapframe r) (p_context r) (p_ofile r) (p_cwd r) (p_name r) (p_mmr r) (p_cur_max r).
Definition set_p_next (v : option nat) (r : proc) : proc :=
  mkProc (p_state r) (p_chan r) (p_killed r) (p_xstate r) (p_pid r) (p_cputime r) (p_tsticks r) (p_priority r) (p_timeslice r) (p_yielded r) v (p_parent r) (p_kstack r) (p_sz r) (p_pagetable r) (p_trapframe r) (p_context r) (p_ofile r) (p_cwd r) (p_name r) (p_mmr r) (p_cur_max r).
Definition set_p_parent (v : option nat) (r : proc) : proc :=
  mkProc (p_state r) (p_chan r) (p_killed r) (p_xstate r) (p_pid r) (p_cputime r) (p_tsticks r) (p_priority r) (p_timeslice r) (p_yielded r) (p_next r) v (p_kstack r) (p_sz r) (p_pagetable r) (p_trapframe r) (p_context r) (p_ofile r) (p_cwd r) (p_name r) (p_mmr r) (p_cur_max r).
Definition set_p_kstack (v : Z) (r : proc) : proc :=
  mkProc (p_state r) (p_chan r) (p_killed r) (p_xstate r) (p_pid r) (p_cputime r) (p_tsticks r) (p_priority r) (p_timeslice r) (p_yielded r) (p_next r) (p_parent r) v (p_sz r) (p_pagetable r) (p_trapframe r) (p_context r) (p_ofile r) (p_cwd r) (p_name r) (p_mmr r) (p_cur_max r).
Definition set_p_sz (v : Z) (r : proc) : proc :=
  mkProc (p_state r) (p_chan r) (p_killed r) (p_xstate r) (p_pid r) (p_cputime r) (p_tsticks r) (p_priority r) (p_timeslice r) (p_yielded r) (p_next r) (p_parent r) (p_kstack r) v (p_pagetable r) (p_trapframe r) (p_context r) (p_ofile r) (p_cwd r) (p_name r) (p_mmr r) (p_cur_max r).
Definition set_p_pagetable (v : Z) (r : proc) : proc :=
  mkProc (p_state r) (p_chan r) (p_killed r) (p_xstate r) (p_pid r) (p_cputime r) (p_tsticks r) (p_priority r) (p_timeslice r) (p_yielded r) (p_next r) (p_parent r) (p_kstack r) (p_sz r) v (p_trapframe r) (p_context r) (p_ofile r) (p_cwd r) (p_name r) (p_mmr r) (p_cur_max r).
Definition set_p_trapframe (v : Z) (r : proc) : proc :=
  mkProc (p_state r) (p_chan r) (p_killed r) (p_xstate r) (p_pid r) (p_cputime r) (p_tsticks r) (p_priority r) (p_timeslice r) (p_yielded r) (p_next r) (p_parent r) (p_kstack r) (p_sz r) (p_pagetable r) v (p_context r) (p_ofile r) (p_cwd r) (p_name r) (p_mmr r) (p_cur_max r).
Definition set_p_context (v : context) (r : proc) : proc :=
  mkProc (p_state r) (p_chan r) (p_killed r) (p_xstate r) (p_pid r) (p_cputime r) (p_tsticks r) (p_priority r) (p_timeslice r) (p_yielded r) (p_next r) (p_parent r) (p_kstack r) (p_sz r) (p_pagetable r) (p_trapframe r) v (p_ofile r) (p_cwd r) (p_name r) (p_mmr r) (p_cur_max r).
Definition set_p_ofile (v : list (option nat)) (r : proc) : proc :=
  mkProc (p_state r) (p_chan r) (p_killed r) (p_xstate r) (p_pid r) (p_cputime r) (p_tsticks r) (p_priority r) (p_timeslice r) (p_yielded r) (p_next r) (p_parent r) (p_kstack r) (p_sz r) (p_pagetable r) (p_trapframe r) (p_context r) v (p_cwd r) (p_name r) (p_mmr r) (p_cur_max r).
Definition set_p_cwd (v : option nat) (r : proc) : proc :=
  mkProc (p_state r) (p_chan r) (p_killed r) (p_xstate r) (p_pid r) (p_cputime r) (p_tsticks r) (p_priority r) (p_timeslice r) (p_yielded r) (p_next r) (p_parent r) (p_kstack r) (p_sz r) (p_pagetable r) (p_trapframe r) (p_context r) (p_ofile r) v (p_name r) (p_mmr r) (p_cur_max r).
Definition set_p_name (v : list Z) (r : proc) : proc :=
  mkProc (p_state r) (p_chan r) (p_killed r) (p_xstate r) (p_pid r) (p_cputime r) (p_tsticks r) (p_priority r) (p_timeslice r) (p_yielded r) (p_next r) (p_parent r) (p_kstack r) (p_sz r) (p_pagetable r) (p_trapframe r) (p_context r) (p_ofile r) (p_cwd r) v (p_mmr r) (p_cur_max r).
Definition set_p_mmr (v : list mmr) (r : proc) : proc :=
  mkProc (p_state r) (p_chan r) (p_killed r) (p_xstate r) (p_pid r) (p_cputime r) (p_tsticks r) (p_priority r) (p_timeslice r) (p_yielded r) (p_next r) (p_parent r) (p_kstack r) (p_sz r) (p_pagetable r) (p_trapframe r) (p_context r) (p_ofile r) (p_cwd r) (p_name r) v (p_cur_max r).
Definition set_p_cur_max (v : Z) (r : proc) : proc :=
  mkProc (p_state r) (p_chan r) (p_killed r) (p_xstate r) (p_pid r) (p_cputime r) (p_tsticks r) (p_priority r) (p_timeslice r) (p_yielded r) (p_next r) (p_parent r) (p_kstack r) (p_sz r) (p_pagetable r) (p_trapframe r) (p_context r) (p_ofile r) (p_cwd r) (p_name r) (p_mmr r) v.

(** A scheduling queue (its lock is [Lk_queue]). *)
Record queue := mkQueue {
  q_timeslice : Z;  (* uint *)
  q_head : option nat;
  q_tail : option nat
}.

Definition set_q_timeslice (v : Z) (r : queue) : queue :=
  mkQueue v (q_head r) (q_tail r).
Definition set_q_head (v : option nat) (r : queue) : queue :=
  mkQueue (q_timeslice r) v (q_tail r).
Definition set_q_tail (v : option nat) (r : queue) : queue :=
  mkQueue (q_timeslice r) (q_head r) v.

(** ** kernel/file.h, kernel/sleeplock.h *)

Inductive filetype := FD_NONE | FD_PIPE | FD_INODE | FD_DEVICE.

#[global] Instance filetype_eq_dec : EqDecision filetype.
Proof. solve_decision. Defined.

Record file := mkFile {
  f_type : filetype;
  f_ref : Z;  (* int *)
  f_readable : Z;  (* char *)
  f_writable : Z;  (* char *)
  f_pipe : Z;
  f_ip : option nat;
  f_off : Z;  (* uint *)
  f_major : Z  (* short *)
}.

Definition set_f_type (v : filetype) (r : file) : file :=
  mkFile v (f_ref r) (f_readable r) (f_writable r) (f_pipe r) (f_ip r) (f_off r) (f_major r).
Definition set_f_ref (v : Z) (r : file) : file :=
  mkFile (f_type r) v (f_readable r) (f_writable r) (f_pipe r) (f_ip r) (f_off r) (f_major r).
Definition set_f_readable (v : Z) (r : file) : file :=
  mkFile (f_type r) (f_ref r) v (f_writable r) (f_pipe r) (f_ip r) (f_off r) (f_major r).
Definition set_f_writable (v : Z) (r : file) : file :=
  mkFile (f_type r) (f_ref r) (f_readable r) v (f_pipe r) (f_ip r) (f_off r) (f_major r).
Definition set_f_pipe (v : Z) (r : file) : file :=
  mkFile (f_type r) (f_ref r) (f_readable r) (f_writable r) v (f_ip r) (f_off r) (f_major r).
Definition set_f_ip (v : option nat) (r : file) : file :=
  mkFile (f_type r) (f_ref r) (f_readable r) (f_writable r) (f_pipe r) v (f_off r) (f_major r).
Definition set_f_off (v : Z) (r : file) : file :=
  mkFile (f_type r) (f_ref r) (f_readable r) (f_writable r) (f_pipe r) (f_ip r) v (f_major r).
Definition set_f_major (v : Z) (r : file) : file :=
  mkFile (f_type r) (f_ref r) (f_readable r) (f_writable r) (f_pipe r) (f_ip r) (f_off r) v.

(** A long-term lock; its spinlock is a [lock]. *)
Record sleeplock := mkSleeplock {
  sl_locked : Z;  (* uint *)
  sl_pid : Z  (* int *)
}.

Definition set_sl_locked (v : Z) (r : sleeplock) : sleeplock :=
  mkSleeplock v (sl_pid r).
Definition set_sl_pid (v : Z) (r : sleeplock) : sleeplock :=
  mkSleeplock (sl_locked r) v.

(** ** kernel/buf.h, kernel/fs.h, kernel/log.c *)

(** A cached disk block. *)
Record buf := mkBuf {
  b_valid : Z;  (* int *)
  b_disk : Z;  (* int *)
  b_dev : Z;  (* uint *)
  b_blockno : Z;  (* uint *)
  b_lock : sleeplock;
  b_refcnt : Z;  (* uint *)
  b_prev : option nat;  (* [None] is [&bcache.head] *)
  b_next : option nat;
  b_data : list Z  (* BSIZE bytes *)
}.

Definition set_b_valid (v : Z) (r : buf) : buf :=
  mkBuf v (b_disk r) (b_dev r) (b_blockno r) (b_lock r) (b_refcnt r) (b_prev r) (b_next r) (b_data r).
Definition set_b_disk (v : Z) (r : buf) : buf :=
  mkBuf (b_valid r) v (b_dev r) (b_blockno r) (b_lock r) (b_refcnt r) (b_prev r) (b_next r) (b_data r).
Definition set_b_dev (v : Z) (r : buf) : buf :=
  mkBuf (b_valid r) (b_disk r) v (b_blockno r) (b_lock r) (b_refcnt r) (b_prev r) (b_next r) (b_data r).
Definition set_b_blockno (v : Z) (r : buf) : buf :=
  mkBuf (b_valid r) (b_disk r) (b_dev r) v (b_lock r) (b_refcnt r) (b_prev r) (b_next r) (b_data r).
Definition set_b_lock (v : sleeplock) (r : buf) : buf :=
  mkBuf (b_valid r) (b_disk r) (b_dev r) (b_blockno r) v (b_refcnt r) (b_prev r) (b_next r) (b_data r).
Definition set_b_refcnt (v : Z) (r : buf) : buf :=
  mkBuf (b_valid r) (b_disk r) (b_dev r) (b_blockno r) (b_lock r) v (b_prev r) (b_next r) (b_data r).
Definition set_b_prev (v : option nat) (r : buf) : buf :=
  mkBuf (b_valid r) (b_disk r) (b_dev r) (b_blockno r) (b_lock r) (b_refcnt r) v (b_next r) (b_data r).
Definition set_b_next (v : option nat) (r : buf) : buf :=
  mkBuf (b_valid r) (b_disk r) (b_dev r) (b_blockno r) (b_lock r) (b_refcnt r) (b_prev r) v (b_data r).
Definition set_b_data (v : list Z) (r : buf) : buf :=
  mkBuf (b_valid r) (b_disk r) (b_dev r) (b_blockno r) (b_lock r) (b_refcnt r) (b_prev r) (b_next r) v.

Record superblock := mkSuperblock {
  sb_magic : Z;
  sb_size : Z;
  sb_nblocks : Z;
  sb_ninodes : Z;
  sb_nlog : Z;
  sb_logstart : Z;
  sb_inodestart : Z;
  sb_bmapstart : Z
}.

Definition set_sb_magic (v : Z) (r : superblock) : superblock :=
  mkSuperblock v (sb_size r) (sb_nblocks r) (sb_ninodes r) (sb_nlog r) (sb_logstart r) (sb_inodestart r) (sb_bmapstart r).
Definition set_sb_size (v : Z) (r : superblock) : superblock :=
  mkSuperblock (sb_magic r) v (sb_nblocks r) (sb_ninodes r) (sb_nlog r) (sb_logstart r) (sb_inodestart r) (sb_bmapstart r).
Definition set_sb_nblocks (v : Z) (r : superblock) : superblock :=
  mkSuperblock (sb_magic r) (sb_size r) v (sb_ninodes r) (sb_nlog r) (sb_logstart r) (sb_inodestart r) (sb_bmapstart r).
Definition set_sb_ninodes (v : Z) (r : superblock) : superblock :=
  mkSuperblock (sb_magic r) (sb_size r) (sb_nblocks r) v (sb_nlog r) (sb_logstart r) (sb_inodestart r) (sb_bmapstart r).
Definition set_sb_nlog (v : Z) (r : superblock) : superblock :=
  mkSuperblock (sb_magic r) (sb_size r) (sb_nblocks r) (sb_ninodes r) v (sb_logstart r) (sb_inodestart r) (sb_bmapstart r).
Definition set_sb_logstart (v : Z) (r : superblock) : superblock :=
  mkSuperblock (sb_magic r) (sb_size r) (sb_nblocks r) (sb_ninodes r) (sb_nlog r) v (sb_inodestart r) (sb_bmapstart r).
Definition set_sb_inodestart (v : Z) (r : superblock) : superblock :=
  mkSuperblock (sb_magic r) (sb_size r) (sb_nblocks r) (sb_ninodes r) (sb_nlog r) (sb_logstart r) v (sb_bmapstart r).
Definition set_sb_bmapstart (v : Z) (r : superblock) : superblock :=
  mkSuperblock (sb_magic r) (sb_size r) (sb_nblocks r) (sb_ninodes r) (sb_nlog r) (sb_logstart r) (sb_inodestart r) v.

(** An in-memory inode. *)
Record inode := mkInode {
  i_dev : Z;  (* uint *)
  i_inum : Z;  (* uint *)
  i_ref : Z;  (* int *)
  i_lock : sleeplock;
  i_valid : Z;  (* int *)
  i_type : Z;  (* short *)
  i_major : Z;  (* short *)
  i_minor : Z;  (* short *)
  i_nlink : Z;  (* short *)
  i_size : Z;  (* uint *)
  i_addrs : list Z  (* NDIRECT+1 block numbers *)
}.

Definition set_i_dev (v : Z) (r : inode) : inode :=
  mkInode v (i_inum r) (i_ref r) (i_lock r) (i_valid r) (i_type r) (i_major r) (i_minor r) (i_nlink r) (i_size r) (i_addrs r).
Definition set_i_inum (v : Z) (r : inode) : inode :=
  mkInode (i_dev r) v (i_ref r) (i_lock r) (i_valid r) (i_type r) (i_major r) (i_minor r) (i_nlink r) (i_size r) (i_addrs r).
Definition set_i_ref (v : Z) (r : inode) : inode :=
  mkInode (i_dev r) (i_inum r) v (i_lock r) (i_valid r) (i_type r) (i_major r) (i_minor r) (i_nlink r) (i_size r) (i_addrs r).
Definition set_i_lock (v : sleeplock) (r : inode) : inode :=
  mkInode (i_dev r) (i_inum r) (i_ref r) v (i_valid r) (i_type r) (i_major r) (i_minor r) (i_nlink r) (i_size r) (i_addrs r).
Definition set_i_valid (v : Z) (r : inode) : inode :=
  mkInode (i_dev r) (i_inum r) (i_ref r) (i_lock r) v (i_type r) (i_major r) (i_minor r) (i_nlink r) (i_size r) (i_addrs r).
Definition set_i_type (v : Z) (r : inode) : inode :=
  mkInode (i_dev r) (i_inum r) (i_ref r) (i_lock r) (i_valid r) v (i_major r) (i_minor r) (i_nlink r) (i_size r) (i_addrs r).
Definition set_i_major (v : Z) (r : inode) : inode :=
  mkInode (i_dev r) (i_inum r) (i_ref r) (i_lock r) (i_valid r) (i_type r) v (i_minor r) (i_nlink r) (i_size r) (i_addrs r).
Definition set_i_minor (v : Z) (r : inode) : inode :=
  mkInode (i_dev r) (i_inum r) (i_ref r) (i_lock r) (i_valid r) (i_type r) (i_major r) v (i_nlink r) (i_size r) (i_addrs r).
Definition set_i_nlink (v : Z) (r : inode) : inode :=
  mkInode (i_dev r) (i_inum r) (i_ref r) (i_lock r) (i_valid r) (i_type r) (i_major r) (i_minor r) v (i_size r) (i_addrs r).
Definition set_i_size (v : Z) (r : inode) : inode :=
  mkInode (i_dev r) (i_inum r) (i_ref r) (i_lock r) (i_valid r) (i_type r) (i_major r) (i_minor r) (i_nlink r) v (i_addrs r).
Definition set_i_addrs (v : list Z) (r : inode) : inode :=
  mkInode (i_dev r) (i_inum r) (i_ref r) (i_lock r) (i_valid r) (i_type r) (i_major r) (i_minor r) (i_nlink r) (i_size r) v.

(** The log; [lh] is inlined. *)
Record log := mkLog {
  l_start : Z;  (* int *)
  l_size : Z;  (* int *)
  l_outstanding : Z;  (* int *)
  l_committing : Z;  (* int *)
  l_dev : Z;  (* int *)
  l_n : Z;  (* lh.n *)
  l_block : list Z  (* lh.block[LOGSIZE] *)
}.

Definition set_l_start (v : Z) (r : log) : log :=
  mkLog v (l_size r) (l_outstanding r) (l_committing r) (l_dev r) (l_n r) (l_block r).
Definition set_l_size (v : Z) (r : log) : log :=
  mkLog (l_start r) v (l_outstanding r) (l_committing r) (l_dev r) (l_n r) (l_block r).
Definition set_l_outstanding (v : Z) (r : log) : log :=
  mkLog (l_start r) (l_size r) v (l_committing r) (l_dev r) (l_n r) (l_block r).
Definition set_l_committing (v : Z) (r : log) : log :=
  mkLog (l_start r) (l_size r) (l_outstanding r) v (l_dev r) (l_n r) (l_block r).
Definition set_l_dev (v : Z) (r : log) : log :=
  mkLog (l_start r) (l_size r) (l_outstanding r) (l_committing r) v (l_n r) (l_block r).
Definition set_l_n (v : Z) (r : log) : log :=
  mkLog (l_start r) (l_size r) (l_outstanding r) (l_committing r) (l_dev r) v (l_block r).
Definition set_l_block (v : list Z) (r : log) : log :=
  mkLog (l_start r) (l_size r) (l_outstanding r) (l_committing r) (l_dev r) (l_n r) v.

(** The file system's globals and the disk. *)
Record fsstate := mkFs {
  fs_buf : list buf;  (* bcache.buf[NBUF] *)
  fs_head_prev : option nat;  (* bcache.head.prev *)
  fs_head_next : option nat;  (* bcache.head.next *)
  fs_inode : list inode;  (* itable.inode[NINODE] *)
  fs_log : log;
  fs_sb : superblock;
  fs_disk : Z -> list Z;  (* the disk: block number to contents *)
  fs_writes : list (Z * list Z)  (* block writes the disk has done, latest first *)
}.

Definition set_fs_buf (v : list buf) (r : fsstate) : fsstate :=
  mkFs v (fs_head_prev r) (fs_head_next r) (fs_inode r) (fs_log r) (fs_sb r) (fs_disk r) (fs_writes r).
Definition set_fs_head_prev (v : option nat) (r : fsstate) : fsstate :=
  mkFs (fs_buf r) v (fs_head_next r) (fs_inode r) (fs_log r) (fs_sb r) (fs_disk r) (fs_writes r).
Definition set_fs_head_next (v : option nat) (r : fsstate) : fsstate :=
  mkFs (fs_buf r) (fs_head_prev r) v (fs_inode r) (fs_log r) (fs_sb r) (fs_disk r) (fs_writes r).
Definition set_fs_inode (v : list inode) (r : fsstate) : fsstate :=
  mkFs (fs_buf r) (fs_head_prev r) (fs_head_next r) v (fs_log r) (fs_sb r) (fs_disk r) (fs_writes r).
Definition set_fs_log (v : log) (r : fsstate) : fsstate :=
  mkFs (fs_buf r) (fs_head_prev r) (fs_head_next r) (fs_inode r) v (fs_sb r) (fs_disk r) (fs_writes r).
Definition set_fs_sb (v : superblock) (r : fsstate) : fsstate :=
  mkFs (fs_buf r) (fs_head_prev r) (fs_head_next r) (fs_inode r) (fs_log r) v (fs_disk r) (fs_writes r).
Definition set_fs_disk (v : Z -> list Z) (r : fsstate) : fsstate :=
  mkFs (fs_buf r) (fs_head_prev r) (fs_head_next r) (fs_inode r) (fs_log r) (fs_sb r) v (fs_writes r).
Definition set_fs_writes (v : list (Z * list Z)) (r : fsstate) : fsstate :=
  mkFs (fs_buf r) (fs_head_prev r) (fs_head_next r) (fs_inode r) (fs_log r) (fs_sb r) (fs_disk r) v.

(** ** kernel/console.c, kernel/uart.c, kernel/printf.c *)

Record console := mkCons {
  c_buf : list Z;  (* buf[INPUT_BUF] *)
  c_r : Z;  (* uint *)
  c_w : Z;  (* uint *)
  c_e : Z  (* uint *)
}.

Definition set_c_buf (v : list Z) (r : console) : console :=
  mkCons v (c_r r) (c_w r) (c_e r).
Definition set_c_r (v : Z) (r : console) : console :=
  mkCons (c_buf r) v (c_w r) (c_e r).
Definition set_c_w (v : Z) (r : console) : console :=
  mkCons (c_buf r) (c_r r) v (c_e r).
Definition set_c_e (v : Z) (r : console) : console :=
  mkCons (c_buf r) (c_r r) (c_w r) v.

(** Console state and the UART. *)
Record iostate := mkIo {
  io_cons : console;  (* cons *)
  io_tx_buf : list Z;  (* uart_tx_buf *)
  io_tx_w : Z;  (* uint64 *)
  io_tx_r : Z;  (* uint64 *)
  io_locking : Z;  (* pr.locking *)
  io_panicked : Z;  (* panicked *)
  io_out : list Z;  (* bytes the UART has sent, latest first *)
  io_in : list Z;  (* bytes waiting in the UART *)
  io_idle : list bool  (* what the next reads of LSR say of the transmitter *)
}.

Definition set_io_cons (v : console) (r : iostate) : iostate :=
  mkIo v (io_tx_buf r) (io_tx_w r) (io_tx_r r) (io_locking r) (io_panicked r) (io_out r) (io_in r) (io_idle r).
Definition set_io_tx_buf (v : list Z) (r : iostate) : iostate :=
  mkIo (io_cons r) v (io_tx_w r) (io_tx_r r) (io_locking r) (io_panicked r) (io_out r) (io_in r) (io_idle r).
Definition set_io_tx_w (v : Z) (r : iostate) : iostate :=
  mkIo (io_cons r) (io_tx_buf r) v (io_tx_r r) (io_locking r) (io_panicked r) (io_out r) (io_in r) (io_idle r).
Definition set_io_tx_r (v : Z) (r : iostate) : iostate :=
  mkIo (io_cons r) (io_tx_buf r) (io_tx_w r) v (io_locking r) (io_panicked r) (io_out r) (io_in r) (io_idle r).
Definition set_io_locking (v : Z) (r : iostate) : iostate :=
  mkIo (io_cons r) (io_tx_buf r) (io_tx_w r) (io_tx_r r) v (io_panicked r) (io_out r) (io_in r) (io_idle r).
Definition set_io_panicked (v : Z) (r : iostate) : iostate :=
  mkIo (io_cons r) (io_tx_buf r) (io_tx_w r) (io_tx_r r) (io_locking r) v (io_out r) (io_in r) (io_idle r).
Definition set_io_out (v : list Z) (r : iostate) : iostate :=
  mkIo (io_cons r) (io_tx_buf r) (io_tx_w r) (io_tx_r r) (io_locking r) (io_panicked r) v (io_in r) (io_idle r).
Definition set_io_in (v : list Z) (r : iostate) : iostate :=
  mkIo (io_cons r) (io_tx_buf r) (io_tx_w r) (io_tx_r r) (io_locking r) (io_panicked r) (io_out r) v (io_idle r).
Definition set_io_idle (v : list bool) (r : iostate) : iostate :=
  mkIo (io_cons r) (io_tx_buf r) (io_tx_w r) (io_tx_r r) (io_locking r) (io_panicked r) (io_out r) (io_in r) v.

(** ** kernel/virtio.h, kernel/virtio_disk.c *)

(** What a descriptor points to: [&disk.ops[i]], [b->data],
    [&disk.info[i].status]. *)
Inductive dma := Dma_null | Dma_op (i : Z) | Dma_data (b : nat) | Dma_status (i : Z).

(** A descriptor. *)
Record virtq_desc := mkDesc {
  d_addr : dma;  (* uint64 *)
  d_len : Z;  (* uint32 *)
  d_flags : Z;  (* uint16 *)
  d_next : Z  (* uint16 *)
}.

Definition set_d_addr (v : dma) (r : virtq_desc) : virtq_desc :=
  mkDesc v (d_len r) (d_flags r) (d_next r).
Definition set_d_len (v : Z) (r : virtq_desc) : virtq_desc :=
  mkDesc (d_addr r) v (d_flags r) (d_next r).
Definition set_d_flags (v : Z) (r : virtq_desc) : virtq_desc :=
  mkDesc (d_addr r) (d_len r) v (d_next r).
Definition set_d_next (v : Z) (r : virtq_desc) : virtq_desc :=
  mkDesc (d_addr r) (d_len r) (d_flags r) v.

(** The header of a disk request. *)
Record virtio_blk_req := mkReq {
  r_type : Z;  (* uint32 *)
  r_reserved : Z;  (* uint32 *)
  r_sector : Z  (* uint64 *)
}.

Definition set_r_type (v : Z) (r : virtio_blk_req) : virtio_blk_req :=
  mkReq v (r_reserved r) (r_sector r).
Definition set_r_reserved (v : Z) (r : virtio_blk_req) : virtio_blk_req :=
  mkReq (r_type r) v (r_sector r).
Definition set_r_sector (v : Z) (r : virtio_blk_req) : virtio_blk_req :=
  mkReq (r_type r) (r_reserved r) v.

(** [disk.info[]]. *)
Record vdinfo := mkInfo {
  in_b : option nat;
  in_status : Z  (* char *)
}.

Definition set_in_b (v : option nat) (r : vdinfo) : vdinfo :=
  mkInfo v (in_status r).
Definition set_in_status (v : Z) (r : vdinfo) : vdinfo :=
  mkInfo (in_b r) v.

(** The driver and the memory it shares with the device. *)
Record vdisk := mkVd {
  vd_desc : list virtq_desc;  (* desc[NUM] *)
  vd_avail_idx : Z;  (* avail->idx, uint16 *)
  vd_avail : list Z;  (* avail->ring[NUM] *)
  vd_usedi : Z;  (* used->idx, uint16 *)
  vd_used : list Z;  (* used->ring[NUM].id *)
  vd_free : list Z;  (* free[NUM] *)
  vd_used_idx : Z;  (* used_idx, uint16 *)
  vd_info : list vdinfo;  (* info[NUM] *)
  vd_ops : list virtio_blk_req;  (* ops[NUM] *)
  vd_regs : Z -> Z;  (* what the registers read *)
  vd_wrote : list (Z * Z)  (* register writes, latest first *)
}.

Definition set_vd_desc (v : list virtq_desc) (r : vdisk) : vdisk :=
  mkVd v (vd_avail_idx r) (vd_avail r) (vd_usedi r) (vd_used r) (vd_free r) (vd_used_idx r) (vd_info r) (vd_ops r) (vd_regs r) (vd_wrote r).
Definition set_vd_avail_idx (v : Z) (r : vdisk) : vdisk :=
  mkVd (vd_desc r) v (vd_avail r) (vd_usedi r) (vd_used r) (vd_free r) (vd_used_idx r) (vd_info r) (vd_ops r) (vd_regs r) (vd_wrote r).
Definition set_vd_avail (v : list Z) (r : vdisk) : vdisk :=
  mkVd (vd_desc r) (vd_avail_idx r) v (vd_usedi r) (vd_used r) (vd_free r) (vd_used_idx r) (vd_info r) (vd_ops r) (vd_regs r) (vd_wrote r).
Definition set_vd_usedi (v : Z) (r : vdisk) : vdisk :=
  mkVd (vd_desc r) (vd_avail_idx r) (vd_avail r) v (vd_used r) (vd_free r) (vd_used_idx r) (vd_info r) (vd_ops r) (vd_regs r) (vd_wrote r).
Definition set_vd_used (v : list Z) (r : vdisk) : vdisk :=
  mkVd (vd_desc r) (vd_avail_idx r) (vd_avail r) (vd_usedi r) v (vd_free r) (vd_used_idx r) (vd_info r) (vd_ops r) (vd_regs r) (vd_wrote r).
Definition set_vd_free (v : list Z) (r : vdisk) : vdisk :=
  mkVd (vd_desc r) (vd_avail_idx r) (vd_avail r) (vd_usedi r) (vd_used r) v (vd_used_idx r) (vd_info r) (vd_ops r) (vd_regs r) (vd_wrote r).
Definition set_vd_used_idx (v : Z) (r : vdisk) : vdisk :=
  mkVd (vd_desc r) (vd_avail_idx r) (vd_avail r) (vd_usedi r) (vd_used r) (vd_free r) v (vd_info r) (vd_ops r) (vd_regs r) (vd_wrote r).
Definition set_vd_info (v : list vdinfo) (r : vdisk) : vdisk :=
  mkVd (vd_desc r) (vd_avail_idx r) (vd_avail r) (vd_usedi r) (vd_used r) (vd_free r) (vd_used_idx r) v (vd_ops r) (vd_regs r) (vd_wrote r).
Definition set_vd_ops (v : list virtio_blk_req) (r : vdisk) : vdisk :=
  mkVd (vd_desc r) (vd_avail_idx r) (vd_avail r) (vd_usedi r) (vd_used r) (vd_free r) (vd_used_idx r) (vd_info r) v (vd_regs r) (vd_wrote r).
Definition set_vd_regs (v : Z -> Z) (r : vdisk) : vdisk :=
  mkVd (vd_desc r) (vd_avail_idx r) (vd_avail r) (vd_usedi r) (vd_used r) (vd_free r) (vd_used_idx r) (vd_info r) (vd_ops r) v (vd_wrote r).
Definition set_vd_wrote (v : list (Z * Z)) (r : vdisk) : vdisk :=
  mkVd (vd_desc r) (vd_avail_idx r) (vd_avail r) (vd_usedi r) (vd_used r) (vd_free r) (vd_used_idx r) (vd_info r) (vd_ops r) (vd_regs r) v.

(** ** The kernel state *)
Record kstate := mkK {
  k_held : list lock;  (* spinlocks this hart holds *)
  k_mem : memory;  (* physical memory *)
  k_freelist : Z;  (* kmem.freelist *)
  k_cur : option nat;  (* mycpu()->proc *)
  k_proc : list proc;  (* proc[NPROC] *)
  k_initproc : option nat;
  k_nextpid : Z;
  k_first : Z;  (* forkret's first *)
  k_queue : list queue;  (* queue[NQUEUE] *)
  k_sched_policy : Z;
  k_mmr_list : list Z;  (* mmr_list[].valid *)
  k_ticks : Z;  (* uint *)
  k_tempsticks : Z;  (* uint *)
  k_ftable : list file;  (* ftable.file[NFILE] *)
  k_fs : fsstate;
  k_io : iostate;
  k_vd : vdisk  (* disk *)
}.

Definition set_k_held (v : list lock) (r : kstate) : kstate :=
  mkK v (k_mem r) (k_freelist r) (k_cur r) (k_proc r) (k_initproc r) (k_nextpid r) (k_first r) (k_queue r) (k_sched_policy r) (k_mmr_list r) (k_ticks r) (k_tempsticks r) (k_ftable r) (k_fs r) (k_io r) (k_vd r).
Definition set_k_mem (v : memory) (r : kstate) : kstate :=
  mkK (k_held r) v (k_freelist r) (k_cur r) (k_proc r) (k_initproc r) (k_nextpid r) (k_first r) (k_queue r) (k_sched_policy r) (k_mmr_list r) (k_ticks r) (k_tempsticks r) (k_ftable r) (k_fs r) (k_io r) (k_vd r).
Definition set_k_freelist (v : Z) (r : kstate) : kstate :=
  mkK (k_held r) (k_mem r) v (k_cur r) (k_proc r) (k_initproc r) (k_nextpid r) (k_first r) (k_queue r) (k_sched_policy r) (k_mmr_list r) (k_ticks r) (k_tempsticks r) (k_ftable r) (k_fs r) (k_io r) (k_vd r).
Definition set_k_cur (v : option nat) (r : kstate) : kstate :=
  mkK (k_held r) (k_mem r) (k_freelist r) v (k_proc r) (k_initproc r) (k_nextpid r) (k_first r) (k_queue r) (k_sched_policy r) (k_mmr_list r) (k_ticks r) (k_tempsticks r) (k_ftable r) (k_fs r) (k_io r) (k_vd r).
Definition set_k_proc (v : list proc) (r : kstate) : kstate :=
  mkK (k_held r) (k_mem r) (k_freelist r) (k_cur r) v (k_initproc r) (k_nextpid r) (k_first r) (k_queue r) (k_sched_policy r) (k_mmr_list r) (k_ticks r) (k_tempsticks r) (k_ftable r) (k_fs r) (k_io r) (k_vd r).
Definition set_k_initproc (v : option nat) (r : kstate) : kstate :=
  mkK (k_held r) (k_mem r) (k_freelist r) (k_cur r) (k_proc r) v (k_nextpid r) (k_first r) (k_queue r) (k_sched_policy r) (k_mmr_list r) (k_ticks r) (k_tempsticks r) (k_ftable r) (k_fs r) (k_io r) (k_vd r).
Definition set_k_nextpid (v : Z) (r : kstate) : kstate :=
  mkK (k_held r) (k_mem r) (k_freelist r) (k_cur r) (k_proc r) (k_initproc r) v (k_first r) (k_queue r) (k_sched_policy r) (k_mmr_list r) (k_ticks r) (k_tempsticks r) (k_ftable r) (k_fs r) (k_io r) (k_vd r).
Definition set_k_first (v : Z) (r : kstate) : kstate :=
  mkK (k_held r) (k_mem r) (k_freelist r) (k_cur r) (k_proc r) (k_initproc r) (k_nextpid r) v (k_queue r) (k_sched_policy r) (k_mmr_list r) (k_ticks r) (k_tempsticks r) (k_ftable r) (k_fs r) (k_io r) (k_vd r).
Definition set_k_queue (v : list queue) (r : kstate) : kstate :=
  mkK (k_held r) (k_mem r) (k_freelist r) (k_cur r) (k_proc r) (k_initproc r) (k_nextpid r) (k_first r) v (k_sched_policy r) (k_mmr_list r) (k_ticks r) (k_tempsticks r) (k_ftable r) (k_fs r) (k_io r) (k_vd r).
Definition set_k_sched_policy (v : Z) (r : kstate) : kstate :=
  mkK (k_held r) (k_mem r) (k_freelist r) (k_cur r) (k_proc r) (k_initproc r) (k_nextpid r) (k_first r) (k_queue r) v (k_mmr_list r) (k_ticks r) (k_tempsticks r) (k_ftable r) (k_fs r) (k_io r) (k_vd r).
Definition set_k_mmr_list (v : list Z) (r : kstate) : kstate :=
  mkK (k_held r) (k_mem r) (k_freelist r) (k_cur r) (k_proc r) (k_initproc r) (k_nextpid r) (k_first r) (k_queue r) (k_sched_policy r) v (k_ticks r) (k_tempsticks r) (k_ftable r) (k_fs r) (k_io r) (k_vd r).
Definition set_k_ticks (v : Z) (r : kstate) : kstate :=
  mkK (k_held r) (k_mem r) (k_freelist r) (k_cur r) (k_proc r) (k_initproc r) (k_nextpid r) (k_first r) (k_queue r) (k_sched_policy r) (k_mmr_list r) v (k_tempsticks r) (k_ftable r) (k_fs r) (k_io r) (k_vd r).
Definition set_k_tempsticks (v : Z) (r : kstate) : kstate :=
  mkK (k_held r) (k_mem r) (k_freelist r) (k_cur r) (k_proc r) (k_initproc r) (k_nextpid r) (k_first r) (k_queue r) (k_sched_policy r) (k_mmr_list r) (k_ticks r) v (k_ftable r) (k_fs r) (k_io r) (k_vd r).
Definition set_k_ftable (v : list file) (r : kstate) : kstate :=
  mkK (k_held r) (k_mem r) (k_freelist r) (k_cur r) (k_proc r) (k_initproc r) (k_nextpid r) (k_first r) (k_queue r) (k_sched_policy r) (k_mmr_list r) (k_ticks r) (k_tempsticks r) v (k_fs r) (k_io r) (k_vd r).
Definition set_k_fs (v : fsstate) (r : kstate) : kstate :=
  mkK (k_held r) (k_mem r) (k_freelist r) (k_cur r) (k_proc r) (k_initproc r) (k_nextpid r) (k_first r) (k_queue r) (k_sched_policy r) (k_mmr_list r) (k_ticks r) (k_tempsticks r) (k_ftable r) v (k_io r) (k_vd r).
Definition set_k_io (v : iostate) (r : kstate) : kstate :=
  mkK (k_held r) (k_mem r) (k_freelist r) (k_cur r) (k_proc r) (k_initproc r) (k_nextpid r) (k_first r) (k_queue r) (k_sched_policy r) (k_mmr_list r) (k_ticks r) (k_tempsticks r) (k_ftable r) (k_fs r) v (k_vd r).
Definition set_k_vd (v : vdisk) (r : kstate) : kstate :=
  mkK (k_held r) (k_mem r) (k_freelist r) (k_cur r) (k_proc r) (k_initproc r) (k_nextpid r) (k_first r) (k_queue r) (k_sched_policy r) (k_mmr_list r) (k_ticks r) (k_tempsticks r) (k_ftable r) (k_fs r) (k_io r) v.

(** Kernel code: a computation on the kernel state. *)
Abbreviation K := (M kstate).

(** Compute field accesses of updated states, leaving updates folded. *)
Ltac keval t :=
  eval cbn [k_held k_mem k_freelist k_cur k_proc k_initproc k_nextpid k_first k_queue k_sched_policy k_mmr_list k_ticks k_tempsticks k_ftable k_fs k_io k_vd
            set_k_held set_k_mem set_k_freelist set_k_cur set_k_proc set_k_initproc set_k_nextpid set_k_first set_k_queue set_k_sched_policy set_k_mmr_list set_k_ticks set_k_tempsticks set_k_ftable set_k_fs set_k_io set_k_vd] in t.

Ltac kred_step t :=
  let t' := keval t in
  lazymatch t' with
  | context [mkK] => fail
  | _ => progress change t with t' in *
  end.

Ltac kred :=
  repeat match goal with
  | |- context [?p (set_k_held ?v ?s)] => kred_step (p (set_k_held v s))
  | |- context [?p (set_k_mem ?v ?s)] => kred_step (p (set_k_mem v s))
  | |- context [?p (set_k_freelist ?v ?s)] => kred_step (p (set_k_freelist v s))
  | |- context [?p (set_k_cur ?v ?s)] => kred_step (p (set_k_cur v s))
  | |- context [?p (set_k_proc ?v ?s)] => kred_step (p (set_k_proc v s))
  | |- context [?p (set_k_initproc ?v ?s)] => kred_step (p (set_k_initproc v s))
  | |- context [?p (set_k_nextpid ?v ?s)] => kred_step (p (set_k_nextpid v s))
  | |- context [?p (set_k_first ?v ?s)] => kred_step (p (set_k_first v s))
  | |- context [?p (set_k_queue ?v ?s)] => kred_step (p (set_k_queue v s))
  | |- context [?p (set_k_sched_policy ?v ?s)] => kred_step (p (set_k_sched_policy v s))
  | |- context [?p (set_k_mmr_list ?v ?s)] => kred_step (p (set_k_mmr_list v s))
  | |- context [?p (set_k_ticks ?v ?s)] => kred_step (p (set_k_ticks v s))
  | |- context [?p (set_k_tempsticks ?v ?s)] => kred_step (p (set_k_tempsticks v s))
  | |- context [?p (set_k_ftable ?v ?s)] => kred_step (p (set_k_ftable v s))
  | |- context [?p (set_k_fs ?v ?s)] => kred_step (p (set_k_fs v s))
  | |- context [?p (set_k_io ?v ?s)] => kred_step (p (set_k_io v s))
  | |- context [?p (set_k_vd ?v ?s)] => kred_step (p (set_k_vd v s))
  | _ : context [?p (set_k_held ?v ?s)] |- _ => kred_step (p (set_k_held v s))
  | _ : context [?p (set_k_mem ?v ?s)] |- _ => kred_step (p (set_k_mem v s))
  | _ : context [?p (set_k_freelist ?v ?s)] |- _ => kred_step (p (set_k_freelist v s))
  | _ : context [?p (set_k_cur ?v ?s)] |- _ => kred_step (p (set_k_cur v s))
  | _ : context [?p (set_k_proc ?v ?s)] |- _ => kred_step (p (set_k_proc v s))
  | _ : context [?p (set_k_initproc ?v ?s)] |- _ => kred_step (p (set_k_initproc v s))
  | _ : context [?p (set_k_nextpid ?v ?s)] |- _ => kred_step (p (set_k_nextpid v s))
  | _ : context [?p (set_k_first ?v ?s)] |- _ => kred_step (p (set_k_first v s))
  | _ : context [?p (set_k_queue ?v ?s)] |- _ => kred_step (p (set_k_queue v s))
  | _ : context [?p (set_k_sched_policy ?v ?s)] |- _ => kred_step (p (set_k_sched_policy v s))
  | _ : context [?p (set_k_mmr_list ?v ?s)] |- _ => kred_step (p (set_k_mmr_list v s))
  | _ : context [?p (set_k_ticks ?v ?s)] |- _ => kred_step (p (set_k_ticks v s))
  | _ : context [?p (set_k_tempsticks ?v ?s)] |- _ => kred_step (p (set_k_tempsticks v s))
  | _ : context [?p (set_k_ftable ?v ?s)] |- _ => kred_step (p (set_k_ftable v s))
  | _ : context [?p (set_k_fs ?v ?s)] |- _ => kred_step (p (set_k_fs v s))
  | _ : context [?p (set_k_io ?v ?s)] |- _ => kred_step (p (set_k_io v s))
  | _ : context [?p (set_k_vd ?v ?s)] |- _ => kred_step (p (set_k_vd v s))
  end.

(** ** Spinlocks, as seen by the hart that runs the code

    [acquire] panics when this hart already holds the lock and [release]
    when it does not ([holding], kernel/spinlock.c); between the two no
    other hart holds the lock. [Spinlock.v] shows that the code of
    kernel/spinlock.c gives the locks this behaviour and that the number of
    held locks is the nesting depth [noff]. *)

Definition holding (lk : lock) (s : kstate) : bool := bool_decide (lk ∈ k_held s).

Definition acquire (lk : lock) : K unit := fun s =>
  if holding lk s then Panic "acquire" s
  else Ret tt (set_k_held (lk :: k_held s) s).

Fixpoint remove_lock (lk : lock) (l : list lock) : list lock :=
  match l with
  | [] => []
  | x :: l' => if decide (x = lk) then l' else x :: remove_lock lk l'
  end.

Definition release (lk : lock) : K unit := fun s =>
  if holding lk s then Ret tt (set_k_held (remove_lock lk (k_held s)) s)
  else Panic "release" s.

(** ** Memory access from kernel code *)

Definition load64 (a : Z) : K Z := gets (fun s => ld64 (k_mem s) a).
Definition store64 (a v : Z) : K unit := modify (fun s => set_k_mem (st64 (k_mem s) a v) s).
Definition load32 (a : Z) : K Z := gets (fun s => ld32 (k_mem s) a).
Definition store32 (a v : Z) : K unit := modify (fun s => set_k_mem (st32 (k_mem s) a v) s).

(** ** The process table *)

(** [&proc[i]] for an index the code has obtained from the table; an index
    outside it is a wild pointer, which the kernel's own page faults end
    ([kerneltrap]). *)
Definition get_proc (i : nat) : K proc := fun s =>
  match k_proc s !! i with
  | Some p => Ret p s
  | None => Panic "kerneltrap" s
  end.

Definition upd_proc (i : nat) (f : proc -> proc) : K unit :=
  modify (fun s => set_k_proc (alter f i (k_proc s)) s).

(** [myproc()], null when the hart runs the scheduler. *)
Definition myproc : K (option nat) := gets k_cur.

(** [myproc()] where the code dereferences it at once. *)
Definition curproc : K nat := fun s =>
  match k_cur s with
  | Some i => Ret i s
  | None => Panic "kerneltrap" s
  end.

(** ** Facts *)

Lemma set_k_held_id s : set_k_held (k_held s) s = s.
Proof. now destruct s. Qed.

Lemma set_k_held_held l l' s : set_k_held l (set_k_held l' s) = set_k_held l s.
Proof. reflexivity. Qed.

Lemma acquire_free lk s :
  lk ∉ k_held s -> acquire lk s = Ret tt (set_k_held (lk :: k_held s) s).
Proof. intros H. unfold acquire, holding. now rewrite bool_decide_false. Qed.

Lemma release_head lk l s :
  k_held s = lk :: l -> release lk s = Ret tt (set_k_held l s).
Proof.
  intros H. unfold release, holding. rewrite bool_decide_true; rewrite H.
  - simpl. now rewrite decide_True.
  - apply elem_of_cons. now left.
Qed.

(** ** Symbolic execution of kernel code *)

(** Side condition: a lock is not held. *)
Ltac klock :=
  kred; repeat (apply not_elem_of_cons; split; [discriminate|]);
  first
  [ assumption
  | apply not_elem_of_nil
  | match goal with
    | H : k_held ?s = _ |- _ ∉ k_held ?s => rewrite H; klock
    | H : forall x, _ ∉ k_held ?s |- _ ∉ k_held ?s => apply H
    end ].

(** One step at the point of execution. *)
Ltac kstep :=
  match goal with
  | |- context [bindO (Ret ?a ?s) ?f] => change (bindO (Ret a s) f) with (f a s)
  | |- context [bindO (Panic ?a ?s) ?f] => change (bindO (Panic a s) f) with (@Panic kstate _ a s)
  | |- context [bindO (ret ?a ?s) ?f] => change (bindO (ret a s) f) with (f a s)
  | |- context [bindO (modify ?g ?s) ?f] => change (bindO (modify g s) f) with (f tt (g s))
  | |- context [bind (bind ?m ?g) ?f ?s] => change (bind (bind m g) f s) with (bindO (bind m g s) f)
  | |- context [bind (ret ?a) ?f ?s] => change (bind (ret a) f s) with (f a s)
  | |- context [bind get ?f ?s] => change (bind get f s) with (f s s)
  | |- context [bind (gets ?g) ?f ?s] => change (bind (gets g) f s) with (f (g s) s)
  | |- context [bind (modify ?g) ?f ?s] => change (bind (modify g) f s) with (f tt (g s))
  | |- context [bind (load64 ?a) ?f ?s] => change (bind (load64 a) f s) with (f (ld64 (k_mem s) a) s)
  | |- context [bind (store64 ?a ?v) ?f ?s] =>
      change (bind (store64 a v) f s) with (f tt (set_k_mem (st64 (k_mem s) a v) s))
  | |- context [bind (load32 ?a) ?f ?s] => change (bind (load32 a) f s) with (f (ld32 (k_mem s) a) s)
  | |- context [bind (store32 ?a ?v) ?f ?s] =>
      change (bind (store32 a v) f s) with (f tt (set_k_mem (st32 (k_mem s) a v) s))
  | |- context [bind (panic ?a) ?f ?s] => change (bind (panic a) f s) with (@Panic kstate _ a s)
  | |- context [bind myproc ?f ?s] => change (bind myproc f s) with (f (k_cur s) s)
  | |- context [bind (acquire ?lk) ?f ?s] =>
      rewrite (bind_Ret (acquire lk) f s tt _ (acquire_free lk s ltac:(klock)))
  | |- context [bind (release ?lk) ?f ?s] =>
      erewrite (bind_Ret (release lk) f s tt _ (release_head lk _ s eq_refl))
  | |- context [release ?lk ?s] => erewrite (release_head lk _ s eq_refl)
  | |- context [bind ?m ?f ?s] =>
      let E := fresh in
      lazymatch goal with
      | H : m s = Ret ?a ?s' |- _ => rewrite (bind_Ret m f s a s' H)
      | H : m s = Panic ?a ?s' |- _ => rewrite (bind_Panic m f s a s' H)
      | H : m s = Swtch ?s' ?k |- _ => rewrite (bind_Swtch m f s s' k H)
      end
  | |- context [bindO (?m ?s) ?f] => lazymatch goal with H : m s = _ |- _ => rewrite H end
  end; cbv beta.

(** Run as far as possible, computing field accesses on the way. *)
Ltac krun := repeat (kstep; kred).

(** Two updates of the same state are equal field by field; [kflat] computes
    the fields of a long chain of updates. *)
Ltac kflat :=
  cbv [k_held k_mem k_freelist k_cur k_proc k_initproc k_nextpid k_first k_queue k_sched_policy k_mmr_list k_ticks k_tempsticks k_ftable k_fs k_io k_vd
       set_k_held set_k_mem set_k_freelist set_k_cur set_k_proc set_k_initproc set_k_nextpid set_k_first set_k_queue set_k_sched_policy set_k_mmr_list set_k_ticks set_k_tempsticks set_k_ftable set_k_fs set_k_io set_k_vd].

Ltac kdone := match goal with s : kstate |- _ => destruct s; reflexivity end.

(** ** The state at boot: zero-initialised globals *)

Definition proc0 : proc :=
  mkProc UNUSED None 0 0 0 0 0 0 0 0 None None 0 0 0 0 (mkContext 0 0 (replicate 12 0))
    (replicate NOFILE None) None (replicate 16 0)
    (replicate MAX_MMR (mkMmr 0 0 0 0 0 (mkMmrNode 0 None None None))) 0.

Definition buf0 : buf := mkBuf 0 0 0 0 (mkSleeplock 0 0) 0 None None (replicate 1024 0).

Definition inode0 : inode := mkInode 0 0 0 (mkSleeplock 0 0) 0 0 0 0 0 0 (replicate 13 0).

Definition fs0 : fsstate :=
  mkFs (replicate NBUF buf0) None None (replicate NINODE inode0)
    (mkLog 0 0 0 0 0 0 (replicate 30 0)) (mkSuperblock 0 0 0 0 0 0 0 0) (fun _ => replicate 1024 0) [].

Definition io0 : iostate :=
  mkIo (mkCons (replicate 128 0) 0 0 0) (replicate 32 0) 0 0 0 0 [] [] [].

Definition vd0 : vdisk :=
  mkVd (replicate 8 (mkDesc Dma_null 0 0 0)) 0 (replicate 8 0) 0 (replicate 8 0) (replicate 8 0) 0
    (replicate 8 (mkInfo None 0)) (replicate 8 (mkReq 0 0 0)) (fun _ => 0) [].

Definition boot : kstate :=
  mkK [] (fun _ => 0) 0 None (replicate NPROC proc0) None 1 1
    (replicate 3 (mkQueue 0 None None)) RR (replicate (NPROC * MAX_MMR) 0) 0 0
    (replicate NFILE (mkFile FD_NONE 0 0 0 0 None 0 0)) fs0 io0 vd0.
