(* ===== verification/CString.v ===== *)
(** * kernel/string.c

    The memory and string routines as loops over byte memory, and what
    they compute: [memset] is [fill], [memmove] copies as if through a
    temporary buffer whatever the overlap, the string routines agree with
    their list descriptions. The rest of the kernel model uses the
    one-update forms [fill] and [copy], justified here. *)

From S2P Require Import Prelude Machine.

Abbreviation Mem := (M memory).

Definition rd8 (a : Z) : Mem Z := gets (fun m => u8 (m a)).
Definition wr8 (a v : Z) : Mem unit := modify (fun m x => if x =? a then u8 v else m x).

(** ** Code *)

(** [for(i = 0; i < n; i++) cdst[i] = c;] *)
Definition memset (dst c n : Z) : Mem Z :=
  loop (fun i =>
    if u32 i <? n
    then wr8 (dst + i) c ;;; ret (inl (i32 (i + 1)))
    else ret (inr tt)) 0 ;;;
  ret dst.

(** [while(n-- > 0)] comparing [*s1] with [*s2]. *)
Definition memcmp (v1 v2 n : Z) : Mem Z :=
  loop (fun '(s1, s2, n) =>
    if n >? 0
    then a <- rd8 s1 ;; b <- rd8 s2 ;;
         if a =? b then ret (inl (s1 + 1, s2 + 1, u32 (n - 1)))
         else ret (inr (a - b))
    else ret (inr 0)) (v1, v2, n).

Definition memmove (dst src n : Z) : Mem Z :=
  if n =? 0 then ret dst
  else
    (if (src <? dst) && (src + n >? dst)
     then loop (fun '(s, d, n) =>
            if n >? 0
            then v <- rd8 (s - 1) ;; wr8 (d - 1) v ;;;
                 ret (inl (s - 1, d - 1, u32 (n - 1)))
            else ret (inr tt)) (src + n, dst + n, n)
     else loop (fun '(s, d, n) =>
            if n >? 0
            then v <- rd8 s ;; wr8 d v ;;; ret (inl (s + 1, d + 1, u32 (n - 1)))
            else ret (inr tt)) (src, dst, n)) ;;;
    ret dst.

Definition memcpy (dst src n : Z) : Mem Z := memmove dst src n.

Definition strncmp (p q n : Z) : Mem Z :=
  loop (fun '(p, q, n) =>
    a <- rd8 p ;; b <- rd8 q ;;
    if (n >? 0) && negb (a =? 0) && (a =? b)
    then ret (inl (p + 1, q + 1, u32 (n - 1)))
    else if n =? 0 then ret (inr 0) else ret (inr (a - b))) (p, q, n).

(** [while(n-- > 0 && ( *s++ = *t++ ) != 0);] then pad with NULs. *)
Definition strncpy (s t n : Z) : Mem Z :=
  '(s1, n1) <- loop (fun '(s, t, n) =>
      if n >? 0
      then c <- rd8 t ;; wr8 s c ;;;
           if c =? 0 then ret (inr (s + 1, n - 1))
           else ret (inl (s + 1, t + 1, n - 1))
      else ret (inr (s, n - 1))) (s, t, n) ;;
  loop (fun '(s, n) =>
      if n >? 0 then wr8 s 0 ;;; ret (inl (s + 1, n - 1)) else ret (inr tt)) (s1, n1) ;;;
  ret s.

Definition safestrcpy (s t n : Z) : Mem Z :=
  if n <=? 0 then ret s
  else
    s1 <- loop (fun '(s, t, n) =>
        if n - 1 >? 0
        then c <- rd8 t ;; wr8 s c ;;;
             if c =? 0 then ret (inr (s + 1)) else ret (inl (s + 1, t + 1, n - 1))
        else ret (inr s)) (s, t, n) ;;
    wr8 s1 0 ;;;
    ret s.

Definition strlen (s : Z) : Mem Z :=
  loop (fun n =>
    c <- rd8 (s + n) ;;
    if c =? 0 then ret (inr n) else ret (inl (i32 (n + 1)))) 0.

(** ** What the routines compute *)

(** The bytes of the C string at [a], at most [k] of them, without the NUL. *)
Fixpoint cstr (m : memory) (a : Z) (k : nat) : list Z :=
  match k with
  | O => []
  | S k' => if u8 (m a) =? 0 then [] else u8 (m a) :: cstr m (a + 1) k'
  end.

Lemma wr8_eq a v m x : (if x =? a then u8 v else m x) = fill m a v 1 x.
Proof.
  unfold fill. destruct (Z.eqb_spec x a), (Z.leb_spec a x), (Z.ltb_spec x (a + 1));
    simpl; reflexivity || lia.
Qed.

(** One-step evaluation of a loop body built from [rd8] and [wr8]. *)
Ltac mem_step :=
  unfold bind, rd8, wr8, gets, modify, ret; simpl bindO.

(** [memset(dst, c, n)] returns [dst], fills exactly the [n] bytes at
    [dst] with the low byte of [c] and changes nothing else. *)
Theorem memset_correct dst c n m :
  0 <= n <= 2 ^ 31 - 1 ->
  exists m', memset dst c n m = Ret dst m' /\ forall x, m' x = fill m dst c n x.
Proof.
  intros Hn. unfold memset.
  match goal with |- context [loop ?b 0] => set (body := b) end.
  assert (H : exists m', loop body 0 m = Ret tt m' /\ forall x, m' x = fill m dst c n x).
  { apply (loop_measure body
      (fun i m1 => 0 <= i <= n /\ forall x, m1 x = fill m dst c i x)
      (fun i _ => Z.to_nat (n - i))
      (fun o => exists m', o = Ret tt m' /\ forall x, m' x = fill m dst c n x)).
    - intros i m1 [Hi Hm]. unfold body.
      rewrite u32_small by lia. destruct (Z.ltb_spec i n).
      + left. mem_step. rewrite i32_small by lia. do 2 eexists. split; [reflexivity|].
        split; [|lia]. split; [lia|]. intros x. rewrite Hm. unfold fill.
        destruct (Z.eqb_spec x (dst + i)), (Z.leb_spec dst x), (Z.ltb_spec x (dst + i)),
          (Z.ltb_spec x (dst + (i + 1))); simpl; reflexivity || lia.
      + right; left. exists tt, m1. split; [reflexivity|]. exists m1. split; [reflexivity|].
        assert (i = n) as -> by lia. exact Hm.
    - split; [lia|]. intros x. unfold fill.
      destruct (Z.leb_spec dst x), (Z.ltb_spec x (dst + 0)); simpl; reflexivity || lia.
    - lia. }
  destruct H as (m' & H & Hm). exists m'. now rewrite (bind_Ret _ _ _ _ _ H).
Qed.

(** The two copying loops, whatever the width of the counter. *)
Section CopyLoops.
Context (dec : Z -> Z) (dst src n : Z) (m : memory).
Hypothesis Hdec : forall k, 0 < k <= n -> dec k = k - 1.
Hypothesis Hn : 0 <= n < 2 ^ 32.

Lemma copy_down :
  src <= dst ->
  exists m', loop (fun '(s, d, n) =>
      if n >? 0
      then v <- rd8 (s - 1) ;; wr8 (d - 1) v ;;; ret (inl (s - 1, d - 1, dec n))
      else ret (inr tt)) (src + n, dst + n, n) m = Ret tt m' /\
    forall x, m' x = copy m dst src n x.
Proof.
  intros Hdir. apply (loop_measure _
      (fun '(s, d, k) m1 => 0 <= k <= n /\ s = src + k /\ d = dst + k /\
         forall x, m1 x = copy m (dst + k) (src + k) (n - k) x)
      (fun '(s, d, k) _ => Z.to_nat k)
      (fun o => exists m', o = Ret tt m' /\ forall x, m' x = copy m dst src n x)).
  - intros [[s d] k] m1 (Hk & -> & -> & Hm). destruct (Z.gtb_spec k 0).
    + left. mem_step. rewrite Hdec by lia. do 2 eexists. split; [reflexivity|].
      split; [|lia]. split; [lia|]. split; [lia|]. split; [lia|]. intros x.
      rewrite !Hm. rewrite (copy_outside _ _ _ _ (src + k - 1)) by lia. unfold copy.
      replace (dst + k - 1) with (dst + (k - 1)) by lia.
      destruct (Z.eqb_spec x (dst + (k - 1))), (Z.leb_spec (dst + (k - 1)) x), (Z.leb_spec (dst + k) x),
        (Z.ltb_spec x (dst + (k - 1) + (n - (k - 1)))), (Z.ltb_spec x (dst + k + (n - k)));
        simpl; try lia; try reflexivity.
      * rewrite u8_u8. do 2 f_equal. lia.
      * do 2 f_equal. lia.
    + right; left. exists tt, m1. split; [reflexivity|]. exists m1. split; [reflexivity|].
      assert (k = 0) as -> by lia. intros x. rewrite Hm. unfold copy.
      rewrite !Z.add_0_r, Z.sub_0_r. reflexivity.
  - split; [lia|]. split; [lia|]. split; [lia|]. intros x. rewrite copy_outside by lia. reflexivity.
  - lia.
Qed.

Lemma copy_up :
  dst <= src \/ src + n <= dst ->
  exists m', loop (fun '(s, d, n) =>
      if n >? 0
      then v <- rd8 s ;; wr8 d v ;;; ret (inl (s + 1, d + 1, dec n))
      else ret (inr tt)) (src, dst, n) m = Ret tt m' /\
    forall x, m' x = copy m dst src n x.
Proof.
  intros Hdir. apply (loop_measure _
      (fun '(s, d, k) m1 => 0 <= k <= n /\ s = src + (n - k) /\ d = dst + (n - k) /\
         forall x, m1 x = copy m dst src (n - k) x)
      (fun '(s, d, k) _ => Z.to_nat k)
      (fun o => exists m', o = Ret tt m' /\ forall x, m' x = copy m dst src n x)).
  - intros [[s d] k] m1 (Hk & -> & -> & Hm). destruct (Z.gtb_spec k 0).
    + left. mem_step. rewrite Hdec by lia. do 2 eexists. split; [reflexivity|].
      split; [|lia]. split; [lia|]. split; [lia|]. split; [lia|]. intros x.
      rewrite !Hm. rewrite (copy_outside _ _ _ _ (src + (n - k))) by lia. unfold copy.
      destruct (Z.eqb_spec x (dst + (n - k))), (Z.leb_spec dst x),
        (Z.ltb_spec x (dst + (n - k))), (Z.ltb_spec x (dst + (n - (k - 1))));
        simpl; try lia; try reflexivity.
      rewrite u8_u8. do 2 f_equal. lia.
    + right; left. exists tt, m1. split; [reflexivity|]. exists m1. split; [reflexivity|].
      assert (k = 0) as -> by lia. intros x. rewrite Hm. now rewrite Z.sub_0_r.
  - split; [lia|]. split; [lia|]. split; [lia|]. intros x. rewrite copy_outside by lia. reflexivity.
  - lia.
Qed.
End CopyLoops.

(** [memmove(dst, src, n)] copies the [n] bytes at [src] to [dst] as if
    through a temporary buffer, whether or not the ranges overlap, and
    changes nothing else. *)
Theorem memmove_correct dst src n m :
  0 <= n < 2 ^ 32 ->
  exists m', memmove dst src n m = Ret dst m' /\ forall x, m' x = copy m dst src n x.
Proof.
  intros Hn. unfold memmove. destruct (Z.eqb_spec n 0) as [->|Hn0].
  { exists m. split; [reflexivity|]. intros x. rewrite copy_outside by lia. reflexivity. }
  assert (Hdec : forall k, 0 < k <= n -> u32 (k - 1) = k - 1) by (intros; apply u32_small; lia).
  destruct ((src <? dst) && (src + n >? dst)) eqn:Hdir.
  - destruct (copy_down (fun k => u32 (k - 1)) dst src n m Hdec Hn) as (m' & E & Hm); [lia|].
    rewrite (bind_Ret _ _ _ _ _ E). by exists m'.
  - destruct (copy_up (fun k => u32 (k - 1)) dst src n m Hdec Hn) as (m' & E & Hm); [lia|].
    rewrite (bind_Ret _ _ _ _ _ E). by exists m'.
Qed.

Lemma cstr_ext m m' a k :
  (forall x, a <= x < a + Z.of_nat k -> m' x = m x) -> cstr m' a k = cstr m a k.
Proof.
  revert a. induction k as [|k IH]; intros a H; [reflexivity|].
  cbn [cstr]. rewrite (H a) by lia. rewrite IH; [reflexivity|]. intros. apply H. lia.
Qed.

Lemma length_cstr m a k : (length (cstr m a k) <= k)%nat.
Proof.
  revert a. induction k as [|k IH]; intros a; cbn [cstr]; [simpl; lia|].
  destruct (_ =? 0); simpl; [lia|]. specialize (IH (a + 1)). lia.
Qed.

(** The string of at most [k] bytes at [a] with its first [i] bytes dropped. *)
Lemma cstr_drop m a k i :
  (forall j, 0 <= j < Z.of_nat i -> u8 (m (a + j)) <> 0) -> (i <= k)%nat ->
  cstr m a k = map (fun j => u8 (m (a + Z.of_nat j))) (seq 0 i) ++ cstr m (a + Z.of_nat i) (k - i).
Proof.
  revert k. induction i as [|i IH]; intros k Hnz Hi.
  - simpl. now rewrite Z.add_0_r, Nat.sub_0_r.
  - rewrite IH by (intros; try apply Hnz; lia).
    rewrite seq_S, map_app, <- app_assoc. f_equal. simpl.
    destruct (k - i)%nat as [|k'] eqn:E; [lia|]. cbn [cstr].
    destruct (Z.eqb_spec (u8 (m (a + Z.of_nat i))) 0) as [E0|_].
    { exfalso. apply (Hnz (Z.of_nat i)); [lia|exact E0]. }
    f_equal. replace (k - S i)%nat with k' by lia. f_equal. lia.
Qed.

Lemma strlen_loop s n m :
  0 <= n < 2 ^ 31 - 1 ->
  (forall i, 0 <= i < n -> u8 (m (s + i)) <> 0) -> u8 (m (s + n)) = 0 ->
  loop (fun n => c <- rd8 (s + n) ;; if c =? 0 then ret (inr n) else ret (inl (i32 (n + 1)))) 0 m = Ret n m.
Proof.
  intros Hn Hnz Hz.
  apply (loop_measure _ (fun i m1 => 0 <= i <= n /\ m1 = m) (fun i _ => Z.to_nat (n - i))
           (fun o => o = Ret n m)); [|split; [lia|done]|lia].
  intros i m1 [Hi ->]. mem_step. destruct (Z.eqb_spec (u8 (m (s + i))) 0) as [E|E].
  - right; left. exists i, m. split; [reflexivity|].
    destruct (decide (i = n)) as [->|]; [reflexivity|]. exfalso. apply (Hnz i); [lia|exact E].
  - left. rewrite i32_small by lia. do 2 eexists. split; [reflexivity|].
    assert (i <> n) by (intros ->; congruence). split; [split; [lia|done]|lia].
Qed.

(** [strlen(s)] returns the number of bytes before the first NUL, for
    every string shorter than [INT_MAX], and only reads memory. *)
Theorem strlen_correct s n m :
  0 <= n < 2 ^ 31 - 1 ->
  (forall i, 0 <= i < n -> u8 (m (s + i)) <> 0) -> u8 (m (s + n)) = 0 ->
  strlen s m = Ret n m.
Proof. intros. unfold strlen. by apply strlen_loop. Qed.

Lemma cstr_same_head m p q k :
  u8 (m p) = u8 (m q) -> u8 (m p) <> 0 ->
  (cstr m p (S k) = cstr m q (S k) <-> cstr m (p + 1) k = cstr m (q + 1) k).
Proof.
  intros He Hnz. cbn [cstr]. rewrite <- He.
  destruct (Z.eqb_spec (u8 (m p)) 0); [done|]. split; congruence.
Qed.

(** [strncmp(p, q, n)] returns 0 exactly when the two strings, cut at
    [n] bytes, are equal; otherwise the difference of the first bytes that
    differ, taken as unsigned. It only reads memory. *)
Theorem strncmp_correct p q n m :
  0 <= n < 2 ^ 32 ->
  exists r, strncmp p q n m = Ret r m /\ -255 <= r <= 255 /\
    (r = 0 <-> cstr m p (Z.to_nat n) = cstr m q (Z.to_nat n)).
Proof.
  intros Hn. unfold strncmp.
  apply (loop_measure _
    (fun '(p1, q1, k) m1 => m1 = m /\ 0 <= k <= n /\
       (cstr m p (Z.to_nat n) = cstr m q (Z.to_nat n) <->
        cstr m p1 (Z.to_nat k) = cstr m q1 (Z.to_nat k)))
    (fun '(_, _, k) _ => Z.to_nat k)
    (fun o => exists r, o = Ret r m /\ -255 <= r <= 255 /\
       (r = 0 <-> cstr m p (Z.to_nat n) = cstr m q (Z.to_nat n)))); [|by split_and!; try lia|lia].
  intros [[p1 q1] k] m1 (-> & Hk & Heq). mem_step.
  pose proof (u8_range (m p1)). pose proof (u8_range (m q1)).
  destruct (Z.gtb_spec k 0); simpl.
  - destruct (Z.eqb_spec (u8 (m p1)) 0) as [E0|E0]; simpl.
    + right; left. destruct (Z.eqb_spec k 0); [lia|].
      do 2 eexists. split; [reflexivity|]. eexists. split; [reflexivity|]. split; [lia|].
      rewrite Heq. replace (Z.to_nat k) with (S (Z.to_nat (k - 1))) by lia. cbn [cstr].
      rewrite E0. simpl. destruct (Z.eqb_spec (u8 (m q1)) 0).
      * split; [done|lia].
      * split; [lia|done].
    + destruct (Z.eqb_spec (u8 (m p1)) (u8 (m q1))) as [E|E].
      * left. rewrite u32_small by lia. do 2 eexists. split; [reflexivity|].
        split; [|lia]. split; [done|]. split; [lia|]. rewrite Heq.
        replace (Z.to_nat k) with (S (Z.to_nat (k - 1))) by lia. now apply cstr_same_head.
      * right; left. destruct (Z.eqb_spec k 0); [lia|].
        do 2 eexists. split; [reflexivity|]. eexists. split; [reflexivity|]. split; [lia|].
        rewrite Heq. replace (Z.to_nat k) with (S (Z.to_nat (k - 1))) by lia. cbn [cstr].
        destruct (Z.eqb_spec (u8 (m p1)) 0); [lia|].
        destruct (Z.eqb_spec (u8 (m q1)) 0); split; try lia; congruence.
  - assert (k = 0) as -> by lia. right; left. simpl.
    do 2 eexists. split; [reflexivity|]. eexists. split; [reflexivity|]. split; [lia|].
    rewrite Heq. simpl. tauto.
Qed.

(** The first [i] bytes at [t] in [m], none of them NUL, are at [s] in [m1]. *)
Definition copied (m m1 : memory) (s t i : Z) : Prop :=
  forall j, 0 <= j < i -> u8 (m (t + j)) <> 0 /\ u8 (m1 (s + j)) = u8 (m (t + j)).

Lemma cstr_copied m m1 s t i k1 k2 :
  copied m m1 s t i -> 0 <= i -> u8 (m1 (s + i)) = 0 -> (Z.to_nat i < k1)%nat ->
  k2 = Z.to_nat i \/ (u8 (m (t + i)) = 0 /\ (Z.to_nat i < k2)%nat) ->
  cstr m1 s k1 = cstr m t k2.
Proof.
  intros Hc Hi Hz Hk1 Hk2.
  rewrite (cstr_drop m1 s k1 (Z.to_nat i)) by (intros; try lia; destruct (Hc j ltac:(lia)) as [? ->]; done).
  rewrite (cstr_drop m t k2 (Z.to_nat i)) by (intros; try lia; apply Hc; lia).
  f_equal.
  - apply map_ext_in. intros j Hj%in_seq. apply Hc. lia.
  - replace (k1 - Z.to_nat i)%nat with (S (k1 - Z.to_nat i - 1)) by lia.
    cbn [cstr]. rewrite !Z2Nat.id by lia. rewrite Hz. simpl.
    destruct Hk2 as [->|[Ht Hk2]]; [now rewrite Nat.sub_diag|].
    replace (k2 - Z.to_nat i)%nat with (S (k2 - Z.to_nat i - 1)) by lia.
    cbn [cstr]. now rewrite Ht.
Qed.

Lemma copied_snoc m m1 s t i :
  copied m m1 s t i -> 0 <= i -> u8 (m (t + i)) <> 0 ->
  copied m (fun x => if x =? s + i then u8 (u8 (m (t + i))) else m1 x) s t (i + 1).
Proof.
  intros Hc Hi Hnz j Hj. destruct (Z.eqb_spec (s + j) (s + i)).
  - assert (j = i) as -> by lia. now rewrite !u8_u8.
  - apply Hc. lia.
Qed.

Lemma copied_other m m1 s t i e v :
  copied m m1 s t i -> s + i <= e -> copied m (fun x => if x =? e then v else m1 x) s t i.
Proof. intros Hc He j Hj. destruct (Z.eqb_spec (s + j) e); [lia|]. now apply Hc. Qed.

(** The copying loop of [safestrcpy]: it stops after [n-1] bytes or behind
    the NUL it has copied. *)
Lemma safestrcpy_loop s t n m :
  0 < n < 2 ^ 31 -> s + n <= t \/ t + n <= s ->
  exists e m1 i,
    loop (fun '(s, t, n) =>
        if n - 1 >? 0
        then c <- rd8 t ;; wr8 s c ;;;
             if c =? 0 then ret (inr (s + 1)) else ret (inl (s + 1, t + 1, n - 1))
        else ret (inr s)) (s, t, n) m = Ret e m1 /\
    copied m m1 s t i /\ (forall x, x < s \/ s + n <= x -> m1 x = m x) /\
    ((0 <= i /\ i = n - 1 /\ e = s + i) \/
     (0 <= i < n - 1 /\ e = s + i + 1 /\ u8 (m1 (s + i)) = 0 /\ u8 (m (t + i)) = 0)).
Proof.
  intros Hn Hdis.
  apply (loop_measure _
      (fun '(s1, t1, k) m1 => exists i, 0 <= i <= n - 1 /\ s1 = s + i /\ t1 = t + i /\ k = n - i /\
         copied m m1 s t i /\ forall x, x < s \/ s + i <= x -> m1 x = m x)
      (fun '(_, _, k) _ => Z.to_nat k)
      (fun o => exists e m1 i, o = Ret e m1 /\ _)).
  - intros [[s1 t1] k] m1 (i & Hi & -> & -> & -> & Hc & Hu).
    destruct (Z.gtb_spec (n - i - 1) 0).
    + mem_step. rewrite (Hu (t + i)) by lia.
      destruct (Z.eqb_spec (u8 (m (t + i))) 0) as [E|E].
      * right; left. do 2 eexists. split; [reflexivity|].
        do 2 eexists. exists i. split; [reflexivity|].
        split; [apply copied_other; [done|lia]|]. split.
        -- intros x Hx. destruct (Z.eqb_spec x (s + i)); [lia|]. apply Hu. lia.
        -- right. rewrite Z.eqb_refl, E. split; [lia|]. split; [lia|done].
      * left. do 2 eexists. split; [reflexivity|]. split; [|lia].
        exists (i + 1). do 4 (split; [lia|]). split; [now apply copied_snoc; try lia|].
        intros x Hx. destruct (Z.eqb_spec x (s + i)); [lia|]. apply Hu. lia.
    + right; left. do 2 eexists. split; [reflexivity|]. do 2 eexists. exists i.
      split; [reflexivity|]. split; [done|]. split; [intros; apply Hu; lia|]. left. lia.
  - exists 0. do 4 (split; [lia|]). split; intros ?; [lia|done].
  - lia.
Qed.

(** [safestrcpy(s, t, n)] stores the string at [t], cut at [n-1] bytes,
    at [s], always NUL-terminated, and writes nothing outside the [n]
    bytes at [s]. *)
Theorem safestrcpy_correct s t n m :
  0 < n < 2 ^ 31 -> s + n <= t \/ t + n <= s ->
  exists m', safestrcpy s t n m = Ret s m' /\
    cstr m' s (Z.to_nat n) = cstr m t (Z.to_nat (n - 1)) /\
    forall x, x < s \/ s + n <= x -> m' x = m x.
Proof.
  intros Hn Hdis. unfold safestrcpy. destruct (Z.leb_spec n 0); [lia|].
  destruct (safestrcpy_loop s t n m Hn Hdis) as (e & m1 & i & Hl & Hc & Hu & Hend).
  rewrite (bind_Ret _ _ _ _ _ Hl). mem_step. eexists. split; [reflexivity|]. split.
  - destruct Hend as [(Hi & Hin & ->)|(Hi & -> & Hz & Ht)].
    + apply (cstr_copied _ _ _ _ i); [apply copied_other; [done|lia]|lia| |lia|lia].
      now rewrite Z.eqb_refl.
    + apply (cstr_copied _ _ _ _ i); [apply copied_other; [done|lia]|lia| |lia|].
      * destruct (Z.eqb_spec (s + i) (s + i + 1)); [lia|exact Hz].
      * right. split; [exact Ht|lia].
  - intros x Hx. destruct (Z.eqb_spec x e); [lia|]. apply Hu. lia.
Qed.
