(* ===== verification/Kalloc.v ===== *)
(** * kernel/kalloc.c: the physical page allocator

    Free pages form a linked list through their first eight bytes. The code
    works on byte memory; the abstract allocator is the list of free pages
    in the order they will be handed out, and the theorems show that each
    routine implements the corresponding operation on that list. *)

From S2P Require Import Prelude Machine State.

Section Kalloc.
Context `{LAY : Layout}.

(** ** Code *)

(** [memset(dst, c, n)] from kernel code ([CString.memset_correct]). *)
Definition kmemset (dst c n : Z) : K unit :=
  modify (fun s => set_k_mem (fill (k_mem s) dst c n) s).

(** [initlock]: the lock is free. *)
Definition initlock (lk : lock) : K unit :=
  modify (fun s => set_k_held (remove_lock lk (k_held s)) s).

Definition kfree (pa : Z) : K unit :=
  if negb (pa mod PGSIZE =? 0) || (pa <? kend) || (pa >=? PHYSTOP)
  then panic "kfree"
  else
    kmemset pa 1 PGSIZE ;;;
    acquire Lk_kmem ;;;
    next <- gets k_freelist ;;
    store64 pa next ;;;
    modify (set_k_freelist pa) ;;;
    release Lk_kmem.

Definition kalloc : K Z :=
  acquire Lk_kmem ;;;
  r <- gets k_freelist ;;
  (if r =? 0 then ret tt
   else next <- load64 r ;; modify (set_k_freelist next)) ;;;
  release Lk_kmem ;;;
  (if r =? 0 then ret tt else kmemset r 5 PGSIZE) ;;;
  ret r.

Definition freerange (pa_start pa_end : Z) : K unit :=
  loop (fun p =>
    if p + PGSIZE <=? pa_end
    then kfree p ;;; ret (inl (p + PGSIZE))
    else ret (inr tt)) (PGROUNDUP pa_start).

Definition kinit : K unit :=
  initlock Lk_kmem ;;;
  freerange kend PHYSTOP.

Definition kfreepagecount : K Z :=
  acquire Lk_kmem ;;;
  r0 <- gets k_freelist ;;
  count <- loop (fun '(r, count) =>
      if r =? 0 then ret (inr count)
      else next <- load64 r ;; ret (inl (next, i32 (count + 1)))) (r0, 0) ;;
  release Lk_kmem ;;;
  ret (u64 count).

(** ** The free list as a list of pages *)

(** A page [kfree] accepts. *)
Definition page_ok (p : Z) : Prop := p mod PGSIZE = 0 /\ kend <= p < PHYSTOP.

(** The chain of [next] pointers from [p] visits exactly [l]. *)
Fixpoint chain (m : memory) (p : Z) (l : list Z) : Prop :=
  match l with
  | [] => p = 0
  | x :: l' => p = x /\ chain m (ld64 m x) l'
  end.

(** The allocator's state represents the free pages [l]. *)
Definition free_pages (s : kstate) (l : list Z) : Prop :=
  chain (k_mem s) (k_freelist s) l /\ NoDup l /\ Forall page_ok l.

Lemma page_ok_range p : page_ok p -> KERNBASE < p /\ p + PGSIZE <= PHYSTOP /\ p mod PGSIZE = 0.
Proof.
  intros [Hal Hr]. pose proof layout_ok.
  unfold PGSIZE, PHYSTOP, KERNBASE in *. split; [lia|]. split; [|done].
  Z.div_mod_to_equations. lia.
Qed.

Lemma page_ok_nonzero p : page_ok p -> p <> 0.
Proof. intros H%page_ok_range. unfold KERNBASE in H. lia. Qed.

Lemma aligned_disjoint p q :
  p mod PGSIZE = 0 -> q mod PGSIZE = 0 -> p <> q -> p + PGSIZE <= q \/ q + PGSIZE <= p.
Proof. unfold PGSIZE. intros. Z.div_mod_to_equations. lia. Qed.

(** Only the pages of the list matter. *)
Lemma chain_frame m m' p l :
  (forall x a, x ∈ l -> x <= a < x + PGSIZE -> m' a = m a) ->
  chain m p l -> chain m' p l.
Proof.
  revert p. induction l as [|x l IH]; intros p H; [done|]. intros [-> Hc].
  split; [done|]. unfold ld64. rewrite (ld_ext 8 m m').
  - apply IH; [|done]. intros y a Hy. apply H. now apply elem_of_cons; right.
  - intros a Ha. apply (H x); [now apply elem_of_cons; left|].
    unfold PGSIZE. simpl in Ha. lia.
Qed.

Lemma free_pages_frame s s' l :
  free_pages s l -> k_freelist s' = k_freelist s ->
  (forall x a, x ∈ l -> x <= a < x + PGSIZE -> k_mem s' a = k_mem s a) ->
  free_pages s' l.
Proof.
  intros (Hc & Hnd & Hok) Hf Hm. split; [|done]. rewrite Hf. now apply chain_frame with (k_mem s).
Qed.

(** The state determines the free pages. *)
Lemma chain_unique m p l l' :
  Forall page_ok l -> Forall page_ok l' -> chain m p l -> chain m p l' -> l = l'.
Proof.
  revert p l'. induction l as [|x l IH]; intros p l' H H' Hc Hc'.
  - destruct l' as [|y l']; [done|]. simpl in *. destruct Hc' as [-> _]. inversion H' as [|? ? Hy _]; subst.
    by apply page_ok_nonzero in Hy.
  - inversion H as [|? ? Hx Hl]; subst. destruct Hc as [-> Hc]. destruct l' as [|y l'].
    + simpl in Hc'. by apply page_ok_nonzero in Hx.
    + destruct Hc' as [-> Hc']. inversion H'; subst. f_equal. by apply (IH (ld64 m y)).
Qed.

Lemma free_pages_unique s l l' : free_pages s l -> free_pages s l' -> l = l'.
Proof.
  intros (Hc & _ & Hok) (Hc' & _ & Hok'). by apply (chain_unique (k_mem s) (k_freelist s)).
Qed.

(** ** The routines, as updates of the state *)

Definition kfree_state (pa : Z) (s : kstate) : kstate :=
  set_k_freelist pa (set_k_mem (st64 (fill (k_mem s) pa 1 PGSIZE) pa (k_freelist s)) s).

Definition kalloc_state (r : Z) (s : kstate) : kstate :=
  set_k_mem (fill (k_mem s) r 5 PGSIZE) (set_k_freelist (ld64 (k_mem s) r) s).

Lemma kfree_run pa s :
  page_ok pa -> Lk_kmem ∉ k_held s -> kfree pa s = Ret tt (kfree_state pa s).
Proof.
  intros [Hal [Hlo Hhi]] Hlk. unfold kfree, kmemset, kfree_state.
  rewrite Hal. destruct (Z.ltb_spec pa kend); [lia|]. rewrite Z.geb_leb.
  destruct (Z.leb_spec PHYSTOP pa); [lia|]. cbn [negb Z.eqb orb]. krun. kdone.
Qed.

Lemma kfree_panic pa s :
  ~ page_ok pa -> kfree pa s = Panic "kfree" s.
Proof.
  intros Hbad. unfold kfree, panic. rewrite Z.geb_leb.
  destruct (Z.eqb_spec (pa mod PGSIZE) 0), (Z.ltb_spec pa kend), (Z.leb_spec PHYSTOP pa);
    try reflexivity. exfalso. apply Hbad. split; [done|lia].
Qed.

Lemma kalloc_run s :
  k_freelist s <> 0 -> Lk_kmem ∉ k_held s ->
  kalloc s = Ret (k_freelist s) (kalloc_state (k_freelist s) s).
Proof.
  intros Hne Hlk. unfold kalloc, kmemset, kalloc_state. krun.
  destruct (Z.eqb_spec (k_freelist s) 0) as [|_]; [done|]. krun. kdone.
Qed.

Lemma kalloc_run_empty s :
  k_freelist s = 0 -> Lk_kmem ∉ k_held s -> kalloc s = Ret 0 s.
Proof.
  intros He Hlk. unfold kalloc. krun. rewrite He. cbn [Z.eqb]. krun. kdone.
Qed.

(** ** Correctness *)

Lemma free_pages_alloc s x l :
  free_pages s (x :: l) -> free_pages (kalloc_state x s) l.
Proof.
  intros ([Hx Hc] & Hnd & Hok). unfold kalloc_state. split; [|split].
  - kred. apply chain_frame with (k_mem s); [|exact Hc].
    intros y a Hy Ha. apply fill_outside.
    inversion Hok as [|? ? Hpx Hpl]; subst. inversion Hnd as [|? ? Hnx Hnl]; subst.
    rewrite Forall_forall in Hpl. destruct (Hpl y Hy) as [Hay _]. destruct Hpx as [Hax _].
    assert (y <> k_freelist s) by (intros ->; contradiction).
    destruct (aligned_disjoint y (k_freelist s)); try done; lia.
  - now inversion Hnd.
  - now inversion Hok.
Qed.

Lemma free_pages_free s pa l :
  free_pages s l -> page_ok pa -> pa ∉ l -> free_pages (kfree_state pa s) (pa :: l).
Proof.
  intros (Hc & Hnd & Hok) Hpa Hni. unfold kfree_state.
  assert (Hfl : 0 <= k_freelist s < 2 ^ 64).
  { destruct l as [|x l]; simpl in Hc; [rewrite Hc; lia|]. destruct Hc as [-> _].
    inversion Hok as [|? ? Hx _]; subst. apply page_ok_range in Hx.
    unfold KERNBASE, PHYSTOP, PGSIZE in *. unfold KERNBASE in *. lia. }
  split; [|split; [now constructor|now constructor]].
  kred. split; [done|]. rewrite ld64_st64_same by done.
  apply chain_frame with (k_mem s); [|exact Hc]. intros y a Hy Ha.
  rewrite Forall_forall in Hok. destruct (Hok y Hy) as [Hay _]. destruct Hpa as [Hap _].
  assert (y <> pa) by (intros ->; contradiction).
  unfold st64. destruct (aligned_disjoint y pa); try done; unfold PGSIZE in *;
    rewrite st_outside, fill_outside by lia; reflexivity.
Qed.

(** With at least one free page, [kalloc] returns the page at the head of
    the free list, non-null and page-aligned, filled with 5s; the
    remaining free pages are exactly the others, and the rest of the
    kernel state, other pages included, is untouched. *)
Theorem kalloc_correct s x l :
  free_pages s (x :: l) -> Lk_kmem ∉ k_held s ->
  exists s', kalloc s = Ret x s' /\ x <> 0 /\ page_ok x /\ free_pages s' l /\ (x ∉ l) /\
    (forall a, x <= a < x + PGSIZE -> k_mem s' a = 5) /\
    (forall a, a < x \/ x + PGSIZE <= a -> k_mem s' a = k_mem s a) /\
    s' = set_k_mem (k_mem s') (set_k_freelist (k_freelist s') s).
Proof.
  intros Hfp Hlk. pose proof Hfp as ([Hx _] & Hnd & Hok).
  inversion Hok as [|? ? Hpx Hpl]; subst. inversion Hnd; subst.
  exists (kalloc_state (k_freelist s) s). pose proof (page_ok_nonzero _ Hpx).
  rewrite kalloc_run by done. split_and!; try done.
  - now apply free_pages_alloc.
  - intros a Ha. unfold kalloc_state. kred. now apply fill_inside.
  - intros a Ha. unfold kalloc_state. kred. now apply fill_outside.
Qed.

(** With no free page, [kalloc] returns null and changes nothing. *)
Theorem kalloc_empty s :
  free_pages s [] -> Lk_kmem ∉ k_held s -> kalloc s = Ret 0 s.
Proof. intros (Hc & _) Hlk. now apply kalloc_run_empty. Qed.

(** [kfree] of a page that is not already free puts it at the head of
    the free list, and panics on every address that is not page-aligned
    or lies outside the memory it manages. *)
Theorem kfree_correct s pa l :
  free_pages s l -> Lk_kmem ∉ k_held s ->
  (page_ok pa -> pa ∉ l ->
     exists s', kfree pa s = Ret tt s' /\ free_pages s' (pa :: l) /\
       (forall a, a < pa \/ pa + PGSIZE <= a -> k_mem s' a = k_mem s a) /\
       s' = set_k_mem (k_mem s') (set_k_freelist pa s)) /\
  (~ page_ok pa -> kfree pa s = Panic "kfree" s).
Proof.
  intros Hfp Hlk. split; [|apply kfree_panic]. intros Hpa Hni.
  exists (kfree_state pa s). rewrite kfree_run by done. split_and!; try done.
  - now apply free_pages_free.
  - intros a Ha. unfold kfree_state, PGSIZE in *. kred. unfold st64.
    rewrite st_outside, fill_outside by lia. done.
Qed.

(** A page just freed is the next one allocated (the list is a stack). *)
Theorem kfree_kalloc s pa l :
  free_pages s l -> Lk_kmem ∉ k_held s -> page_ok pa -> pa ∉ l ->
  exists s', (bind (kfree pa) (fun _ => kalloc)) s = Ret pa s' /\ free_pages s' l.
Proof.
  intros Hfp Hlk Hpa Hni. rewrite (bind_Ret _ _ _ _ _ (kfree_run pa s Hpa Hlk)).
  rewrite (kalloc_run (kfree_state pa s)); [|exact (page_ok_nonzero pa Hpa)|exact Hlk].
  eexists. split; [reflexivity|]. now apply free_pages_alloc, free_pages_free.
Qed.

Lemma chain_count m l : forall p c,
  chain m p l -> Forall page_ok l -> 0 <= c -> c + Z.of_nat (length l) < 2 ^ 31 ->
  forall s, k_mem s = m ->
  runs (fun '(r, count) =>
      if r =? 0 then ret (inr count)
      else next <- load64 r ;; ret (inl (next, i32 (count + 1)))) (S (length l)) (p, c) s
    (Ret (c + Z.of_nat (length l)) s).
Proof.
  induction l as [|x l IH]; intros p c Hc Hok H0 Hlt s Hs.
  - simpl in *. subst p. apply runs_done. simpl. now rewrite Z.add_0_r.
  - destruct Hc as [-> Hc]. inversion Hok as [|? ? Hx Hl]; subst.
    apply page_ok_nonzero in Hx. eapply runs_step.
    + destruct (Z.eqb_spec x 0); [done|]. krun. rewrite i32_small by (simpl in Hlt; lia).
      reflexivity.
    + simpl length in *. replace (c + Z.of_nat (S (length l))) with (c + 1 + Z.of_nat (length l)) by lia.
      apply IH; try done; lia.
Qed.

Lemma NoDup_bounded_length lo hi l :
  NoDup l -> Forall (fun x => lo <= x < hi) l -> Z.of_nat (length l) <= Z.max 0 (hi - lo).
Proof.
  intros Hnd Hall.
  assert (Hincl : incl l (map (fun i => lo + Z.of_nat i) (seq 0 (Z.to_nat (hi - lo))))).
  { intros x Hx%list_elem_of_In. rewrite Forall_forall in Hall. specialize (Hall x Hx).
    apply in_map_iff. exists (Z.to_nat (x - lo)). split; [lia|]. apply in_seq. lia. }
  apply NoDup_ListNoDup in Hnd. pose proof (NoDup_incl_length Hnd Hincl) as Hl.
  rewrite length_map, length_seq in Hl. lia.
Qed.

Lemma free_pages_length s l : free_pages s l -> Z.of_nat (length l) <= PHYSTOP - KERNBASE.
Proof.
  intros (_ & Hnd & Hok).
  assert (H : Forall (fun x => KERNBASE <= x < PHYSTOP) l).
  { eapply Forall_impl; [exact Hok|]. intros x Hx%page_ok_range.
    unfold PGSIZE in Hx. lia. }
  pose proof (NoDup_bounded_length _ _ _ Hnd H). unfold PHYSTOP in *. lia.
Qed.

(** [kfreepagecount] terminates and returns the number of free pages;
    it leaves the kernel state as it found it. *)
Theorem kfreepagecount_correct s l :
  free_pages s l -> Lk_kmem ∉ k_held s ->
  kfreepagecount s = Ret (Z.of_nat (length l)) s.
Proof.
  intros Hfp Hlk. pose proof (free_pages_length s l Hfp) as Hlen.
  destruct Hfp as (Hc & Hnd & Hok).
  assert (Hb : PHYSTOP - KERNBASE < 2 ^ 31 - 1) by reflexivity.
  unfold kfreepagecount. krun.
  pose proof (chain_count (k_mem s) l (k_freelist s) 0 Hc Hok ltac:(lia) ltac:(lia)
    (set_k_held (Lk_kmem :: k_held s) s) eq_refl) as Hr.
  apply loop_runs in Hr; [|lia]. rewrite Z.add_0_l in Hr. krun.
  rewrite u64_small by lia. kdone.
Qed.

(** The [n] pages from [a] on, highest first. *)
Definition pages_down (a : Z) (n : nat) : list Z :=
  rev (map (fun i => a + Z.of_nat i * PGSIZE) (seq 0 n)).

Lemma pages_down_S a n : pages_down a (S n) = (a + Z.of_nat n * PGSIZE) :: pages_down a n.
Proof. unfold pages_down. now rewrite seq_S, map_app, rev_app_distr. Qed.

Lemma elem_of_pages_down a n x :
  x ∈ pages_down a n -> exists i, 0 <= i < Z.of_nat n /\ x = a + i * PGSIZE.
Proof.
  unfold pages_down. rewrite list_elem_of_In, <- in_rev, in_map_iff.
  intros (i & <- & Hi%in_seq). exists (Z.of_nat i). lia.
Qed.

Lemma freerange_loop a e s :
  a mod PGSIZE = 0 -> kend <= a -> a <= e <= PHYSTOP ->
  free_pages s [] -> Lk_kmem ∉ k_held s ->
  exists s', loop (fun p =>
      if p + PGSIZE <=? e then kfree p ;;; ret (inl (p + PGSIZE)) else ret (inr tt)) a s = Ret tt s' /\
    free_pages s' (pages_down a (Z.to_nat ((e - a) / PGSIZE))) /\ s' = set_k_mem (k_mem s') (set_k_freelist (k_freelist s') s).
Proof.
  intros Hal Hlo He Hfp Hlk.
  apply (loop_measure _
    (fun p s1 => exists n, p = a + Z.of_nat n * PGSIZE /\ p <= e /\
       free_pages s1 (pages_down a n) /\ s1 = set_k_mem (k_mem s1) (set_k_freelist (k_freelist s1) s))
    (fun p _ => Z.to_nat (e - p))
    (fun o => exists s', o = Ret tt s' /\
       free_pages s' (pages_down a (Z.to_nat ((e - a) / PGSIZE))) /\ s' = set_k_mem (k_mem s') (set_k_freelist (k_freelist s') s))).
  - intros p s1 (n & Hp & Hpe & Hf1 & Hh1).
    assert (Hpal : p mod PGSIZE = 0) by (rewrite Hp; unfold PGSIZE in *; Z.div_mod_to_equations; lia).
    destruct (Z.leb_spec (p + PGSIZE) e) as [Hle|Hgt].
    + left. assert (Hok : page_ok p) by (split; [done|unfold PGSIZE in *; lia]).
      assert (Hni : p ∉ pages_down a n).
      { intros (i & Hi & Heq)%elem_of_pages_down. unfold PGSIZE in *. lia. }
      pose proof (kfree_run p s1 Hok ltac:(now rewrite Hh1)) as Hk. krun.
      do 2 eexists. split; [reflexivity|]. split; [|unfold PGSIZE in *; lia].
      exists (S n). split; [unfold PGSIZE in *; lia|]. split; [done|]. split; [|unfold kfree_state; rewrite Hh1; now destruct s].
      rewrite pages_down_S, <- Hp. now apply free_pages_free.
    + right; left. exists tt, s1. split; [reflexivity|]. exists s1. split; [done|].
      split; [|done]. replace (Z.to_nat ((e - a) / PGSIZE)) with n; [done|].
      unfold PGSIZE in *. Z.div_mod_to_equations. lia.
  - exists 0%nat. simpl. split; [lia|]. split; [lia|]. split; [done|]. now destruct s.
  - unfold PHYSTOP, KERNBASE in *. pose proof layout_ok. unfold KERNBASE in *. lia.
Qed.

(** At boot [kinit] terminates and makes every page between the end of
    the kernel and the end of memory available, each exactly once; it changes nothing
    but memory and the free list. *)
Theorem kinit_correct s :
  k_freelist s = 0 -> k_held s = [] ->
  exists s', kinit s = Ret tt s' /\ k_held s' = [] /\
    free_pages s' (pages_down (PGROUNDUP kend) (Z.to_nat ((PHYSTOP - PGROUNDUP kend) / PGSIZE))) /\
    s' = set_k_mem (k_mem s') (set_k_freelist (k_freelist s') s).
Proof.
  intros Hf Hh. pose proof layout_ok as Hlay. unfold kinit, initlock, freerange. krun.
  assert (Hb : 0 <= kend < 2 ^ 64 - PGSIZE) by (unfold PHYSTOP, KERNBASE, PGSIZE in *; lia).
  pose proof (PGROUNDUP_bounds kend Hb). pose proof (PGROUNDUP_aligned kend Hb).
  destruct (freerange_loop (PGROUNDUP kend) PHYSTOP
    (set_k_held (remove_lock Lk_kmem (k_held s)) s)) as (s' & Hs' & Hfp & Hh'); kred;
    rewrite ?Hh; try done; try lia.
  - unfold PHYSTOP, KERNBASE, PGSIZE in *. Z.div_mod_to_equations. lia.
  - repeat split; [exact Hf|constructor|constructor].
  - set_solver.
  - exists s'. rewrite Hh in Hs'. rewrite Hs'. split; [done|]. split; [rewrite Hh'; kred; now rewrite Hh|]. split; [done|].
    rewrite Hh'. rewrite Hh. kflat. destruct s. cbn in Hh. now subst.
Qed.
End Kalloc.

(** ** The theorems at a concrete allocator: two free pages above the kernel *)

Module KallocWitness.
Definition pgA : Z := 0x80040000.
Definition pgB : Z := 0x80041000.
Definition pgC : Z := 0x80042000.

(** [pgA] then [pgB] are free. *)
Definition two_free : kstate :=
  set_k_freelist pgA (set_k_mem (st64 (fun _ => 0) pgA pgB) boot).

Lemma two_free_pages : @free_pages sym_layout two_free [pgA; pgB].
Proof.
  split_and!.
  - split; [reflexivity|]. split; reflexivity.
  - apply NoDup_cons. split; [|apply NoDup_singleton]. by intros ?%list_elem_of_singleton.
  - repeat constructor; vm_compute; congruence.
Qed.

Lemma pgC_ok : @page_ok sym_layout pgC.
Proof. repeat split; vm_compute; congruence. Qed.

Lemma pgC_not_free : pgC ∉ [pgA; pgB].
Proof. rewrite !not_elem_of_cons. split_and!; [discriminate|discriminate|apply not_elem_of_nil]. Qed.

Lemma no_lock_held : Lk_kmem ∉ k_held two_free.
Proof. apply not_elem_of_nil. Qed.

Lemma kalloc_correct_witness :
  exists s', @kalloc two_free = Ret pgA s' /\ @free_pages sym_layout s' [pgB].
Proof.
  destruct (@kalloc_correct sym_layout two_free pgA [pgB] two_free_pages no_lock_held)
    as (s' & H & _ & _ & Hf & _).
  exists s'. split; [exact H|exact Hf].
Defined.

Lemma kalloc_empty_witness : kalloc boot = Ret 0 boot.
Proof.
  apply (@kalloc_empty sym_layout boot).
  - repeat split; constructor.
  - apply not_elem_of_nil.
Defined.

Lemma kfree_correct_witness :
  (exists s', @kfree sym_layout pgC two_free = Ret tt s' /\
              @free_pages sym_layout s' [pgC; pgA; pgB]) /\
  @kfree sym_layout 12 two_free = Panic "kfree" two_free.
Proof.
  split.
  - destruct (proj1 (@kfree_correct sym_layout two_free pgC _ two_free_pages no_lock_held)
                pgC_ok pgC_not_free) as (s' & H & Hf & _).
    exists s'. split; [exact H|exact Hf].
  - apply (proj2 (@kfree_correct sym_layout two_free 12 _ two_free_pages no_lock_held)).
    intros [H _]. vm_compute in H. discriminate H.
Defined.

Lemma kfree_kalloc_witness :
  exists s', bind (@kfree sym_layout pgC) (fun _ => kalloc) two_free = Ret pgC s'.
Proof.
  destruct (@kfree_kalloc sym_layout two_free pgC _ two_free_pages no_lock_held pgC_ok pgC_not_free)
    as (s' & H & _).
  exists s'. exact H.
Defined.

Lemma kfreepagecount_correct_witness : kfreepagecount two_free = Ret 2 two_free.
Proof.
  exact (@kfreepagecount_correct sym_layout two_free _ two_free_pages no_lock_held).
Defined.

Lemma kinit_correct_witness :
  exists s', @kinit sym_layout boot = Ret tt s' /\ k_held s' = [].
Proof.
  destruct (@kinit_correct sym_layout boot eq_refl eq_refl) as (s' & H & Hh & _).
  exists s'. split; [exact H|exact Hh].
Defined.
End KallocWitness.
