(* ===== verification/Vm.v ===== *)
(** * kernel/vm.c: page tables and user memory

    Page tables live in byte memory: a page of 512 little-endian 64-bit
    entries per node of a three-level tree, pages from [kalloc]. This file
    is the code; [VmFacts.v] has the theorems about it.

    A kernel buffer passed by address (a local variable, a string, a
    struct to copy out) is the list of its bytes. *)

From S2P Require Import Prelude Machine State Kalloc.

Section Vm.
Context `{LAY : Layout}.

(** [memmove(dst, src, n)] between addresses ([CString.memmove_correct]),
    and from a buffer. *)
Definition kmemmove (dst src n : Z) : K unit :=
  modify (fun s => set_k_mem (copy (k_mem s) dst src n) s).

Definition kmemmove_from (dst : Z) (src : list Z) : K unit :=
  modify (fun s => set_k_mem (wrbytes (k_mem s) dst src) s).

(** The loop of [walk]: [for(int level = 2; level > 0; level--)]. *)
Fixpoint walk_levels (level : nat) (pagetable va : Z) (alloc : bool) : K Z :=
  match level with
  | O => ret (pagetable + 8 * PX 0 va)
  | S l =>
      let pte := pagetable + 8 * PX (Z.of_nat level) va in
      v <- load64 pte ;;
      if hasbit v PTE_V then walk_levels l (PTE2PA v) va alloc
      else if negb alloc then ret 0
      else
        pt <- kalloc ;;
        if pt =? 0 then ret 0
        else
          kmemset pt 0 PGSIZE ;;;
          store64 pte (Z.lor (PA2PTE pt) PTE_V) ;;;
          walk_levels l pt va alloc
  end.

Definition walk (pagetable va : Z) (alloc : bool) : K Z :=
  if va >=? MAXVA then panic "walk" else walk_levels 2 pagetable va alloc.

Definition walkaddr (pagetable va : Z) : K Z :=
  if va >=? MAXVA then ret 0
  else
    pte <- walk pagetable va false ;;
    if pte =? 0 then ret 0
    else
      v <- load64 pte ;;
      if negb (hasbit v PTE_V) then ret 0
      else if negb (hasbit v PTE_U) then ret 0
      else ret (PTE2PA v).

Definition mappages (pagetable va size pa perm : Z) : K Z :=
  if size =? 0 then panic "mappages: size"
  else
    let last := PGROUNDDOWN (u64 (va + size - 1)) in
    loop (fun '(a, pa) =>
      pte <- walk pagetable a true ;;
      if pte =? 0 then ret (inr (-1))
      else
        v <- load64 pte ;;
        if hasbit v PTE_V then panic "mappages: remap"
        else
          store64 pte (Z.lor (Z.lor (PA2PTE pa) (u64 perm)) PTE_V) ;;;
          if a =? last then ret (inr 0)
          else ret (inl (u64 (a + PGSIZE), u64 (pa + PGSIZE)))) (PGROUNDDOWN va, pa).

Definition kvmmap (kpgtbl va pa sz perm : Z) : K unit :=
  r <- mappages kpgtbl va sz pa perm ;;
  if negb (r =? 0) then panic "kvmmap" else ret tt.

(** [proc_mapstacks] (kernel/proc.c). *)
Definition proc_mapstacks (kpgtbl : Z) : K unit :=
  for_all (seq 0 NPROC) (fun i =>
    pa <- kalloc ;;
    if pa =? 0 then panic "kalloc"
    else kvmmap kpgtbl (KSTACK (Z.of_nat i)) pa PGSIZE (Z.lor PTE_R PTE_W)).

Definition kvmmake : K Z :=
  kpgtbl <- kalloc ;;
  kmemset kpgtbl 0 PGSIZE ;;;
  kvmmap kpgtbl UART0 UART0 PGSIZE (Z.lor PTE_R PTE_W) ;;;
  kvmmap kpgtbl VIRTIO0 VIRTIO0 PGSIZE (Z.lor PTE_R PTE_W) ;;;
  kvmmap kpgtbl PLIC PLIC 0x400000 (Z.lor PTE_R PTE_W) ;;;
  kvmmap kpgtbl KERNBASE KERNBASE (u64 (etext - KERNBASE)) (Z.lor PTE_R PTE_X) ;;;
  kvmmap kpgtbl etext etext (u64 (PHYSTOP - etext)) (Z.lor PTE_R PTE_W) ;;;
  kvmmap kpgtbl TRAMPOLINE trampoline PGSIZE (Z.lor PTE_R PTE_X) ;;;
  proc_mapstacks kpgtbl ;;;
  ret kpgtbl.

Definition uvmunmap (pagetable va npages : Z) (do_free : bool) : K unit :=
  if negb (va mod PGSIZE =? 0) then panic "uvmunmap: not aligned"
  else
    loop (fun a =>
      if a <? u64 (va + npages * PGSIZE)
      then
        pte <- walk pagetable a false ;;
        if pte =? 0 then panic "uvmunmap: walk"
        else
          v <- load64 pte ;;
          if negb (hasbit v PTE_V) then panic "uvmunmap: not mapped"
          else if PTE_FLAGS v =? PTE_V then panic "uvmunmap: not a leaf"
          else
            when do_free (kfree (PTE2PA v)) ;;;
            store64 pte 0 ;;;
            ret (inl (u64 (a + PGSIZE)))
      else ret (inr tt)) va.

Definition uvmcreate : K Z :=
  pagetable <- kalloc ;;
  if pagetable =? 0 then ret 0
  else kmemset pagetable 0 PGSIZE ;;; ret pagetable.

(** [sz] is the length of the initcode [src]. *)
Definition uvminit (pagetable : Z) (src : list Z) : K unit :=
  if Z.of_nat (length src) >=? PGSIZE then panic "inituvm: more than a page"
  else
    mem <- kalloc ;;
    kmemset mem 0 PGSIZE ;;;
    mappages pagetable 0 PGSIZE mem (Z.lor (Z.lor (Z.lor PTE_W PTE_R) PTE_X) PTE_U) ;;;
    kmemmove_from mem src.

Definition uvmdealloc (pagetable oldsz newsz : Z) : K Z :=
  if newsz >=? oldsz then ret oldsz
  else
    (if PGROUNDUP newsz <? PGROUNDUP oldsz
     then
       let npages := i32 ((PGROUNDUP oldsz - PGROUNDUP newsz) / PGSIZE) in
       uvmunmap pagetable (PGROUNDUP newsz) (u64 npages) true
     else ret tt) ;;;
    ret newsz.

Definition uvmalloc (pagetable oldsz newsz : Z) : K Z :=
  if newsz <? oldsz then ret oldsz
  else
    let oldsz := PGROUNDUP oldsz in
    loop (fun a =>
      if a <? newsz
      then
        mem <- kalloc ;;
        if mem =? 0
        then uvmdealloc pagetable a oldsz ;;; ret (inr 0)
        else
          kmemset mem 0 PGSIZE ;;;
          r <- mappages pagetable a PGSIZE mem (Z.lor (Z.lor (Z.lor PTE_W PTE_X) PTE_R) PTE_U) ;;
          if negb (r =? 0)
          then kfree mem ;;; uvmdealloc pagetable a oldsz ;;; ret (inr 0)
          else ret (inl (u64 (a + PGSIZE)))
      else ret (inr newsz)) oldsz.

(** [freewalk] recurses into the tables below; [depth] bounds the
    recursion, [Fuel] reports a table nested deeper than that. *)
Fixpoint freewalk_rec (depth : nat) (pagetable : Z) : K unit :=
  match depth with
  | O => fun s => Fuel s
  | S d =>
      for_all (seq 0 512) (fun i =>
        let ptea := pagetable + 8 * Z.of_nat i in
        pte <- load64 ptea ;;
        if hasbit pte PTE_V && (Z.land pte (Z.lor (Z.lor PTE_R PTE_W) PTE_X) =? 0)
        then freewalk_rec d (PTE2PA pte) ;;; store64 ptea 0
        else if hasbit pte PTE_V then panic "freewalk: leaf"
        else ret tt) ;;;
      kfree pagetable
  end.

Definition freewalk (pagetable : Z) : K unit := freewalk_rec 64 pagetable.

Definition uvmfree (pagetable sz : Z) : K unit :=
  when (sz >? 0) (uvmunmap pagetable 0 (PGROUNDUP sz / PGSIZE) true) ;;;
  freewalk pagetable.

(** In both copies [inr (Some i)] is the jump to [err] at address [i]. *)
Definition uvmcopy (old new start end_ : Z) : K Z :=
  r <- loop (fun i =>
    if i <? end_
    then
      pte <- walk old i false ;;
      if pte =? 0 then panic "uvmcopy: pte should exist"
      else
        v <- load64 pte ;;
        if negb (hasbit v PTE_V) then panic "uvmcopy: page not present"
        else
          let pa := PTE2PA v in
          let flags := PTE_FLAGS v in
          mem <- kalloc ;;
          if mem =? 0 then ret (inr (Some i))
          else
            kmemmove mem pa PGSIZE ;;;
            r <- mappages new i PGSIZE mem flags ;;
            if negb (r =? 0) then kfree mem ;;; ret (inr (Some i))
            else ret (inl (u64 (i + PGSIZE)))
    else ret (inr None)) start ;;
  match r with
  | None => ret 0
  | Some i => uvmunmap new 0 (i / PGSIZE) true ;;; ret (-1)
  end.

Definition uvmcopyshared (old new start end_ : Z) : K Z :=
  r <- loop (fun i =>
    if i <? end_
    then
      pte <- walk old i false ;;
      if pte =? 0 then panic "uvmcopy: pte should exist"
      else
        v <- load64 pte ;;
        if negb (hasbit v PTE_V) then panic "uvmcopy: page not present"
        else
          let pa := PTE2PA v in
          let flags := PTE_FLAGS v in
          r <- mappages new i PGSIZE pa flags ;;
          if negb (r =? 0) then ret (inr (Some i))
          else ret (inl (u64 (i + PGSIZE)))
    else ret (inr None)) start ;;
  match r with
  | None => ret 0
  | Some i => uvmunmap new 0 (i / PGSIZE) true ;;; ret (-1)
  end.

Definition uvmclear (pagetable va : Z) : K unit :=
  pte <- walk pagetable va false ;;
  if pte =? 0 then panic "uvmclear"
  else v <- load64 pte ;; store64 pte (Z.land v (Z.lnot PTE_U)).

Definition copyout (pagetable dstva : Z) (src : list Z) : K Z :=
  loop (fun '(dstva, src) =>
    let len := Z.of_nat (length src) in
    if len >? 0
    then
      let va0 := PGROUNDDOWN dstva in
      pa0 <- walkaddr pagetable va0 ;;
      if pa0 =? 0 then ret (inr (-1))
      else
        let n0 := PGSIZE - (dstva - va0) in
        let n := if n0 >? len then len else n0 in
        kmemmove_from (pa0 + (dstva - va0)) (take (Z.to_nat n) src) ;;;
        ret (inl (u64 (va0 + PGSIZE), drop (Z.to_nat n) src))
    else ret (inr 0)) (dstva, src).

(** [copyin] yields its result and the bytes it has put at [dst]. *)
Definition copyin (pagetable srcva len : Z) : K (Z * list Z) :=
  loop (fun '(srcva, len, dst) =>
    if len >? 0
    then
      let va0 := PGROUNDDOWN srcva in
      pa0 <- walkaddr pagetable va0 ;;
      if pa0 =? 0 then ret (inr (-1, dst))
      else
        let n0 := PGSIZE - (srcva - va0) in
        let n := if n0 >? len then len else n0 in
        bytes <- gets (fun s => rdbytes (k_mem s) (pa0 + (srcva - va0)) (Z.to_nat n)) ;;
        ret (inl (u64 (va0 + PGSIZE), len - n, dst ++ bytes))
    else ret (inr (0, dst))) (srcva, len, []).

(** The inner loop of [copyinstr] over the [n] bytes at [p]: it yields
    whether a NUL was found, how much of [max] is left, and the bytes
    stored so far. *)
Definition copyinstr_page (p n max : Z) (dst : list Z) : K (bool * Z * list Z) :=
  loop (fun '(p, n, max, dst) =>
    if n >? 0
    then
      c <- gets (fun s => u8 (k_mem s p)) ;;
      if c =? 0 then ret (inr (true, max, dst ++ [0]))
      else ret (inl (p + 1, n - 1, max - 1, dst ++ [c]))
    else ret (inr (false, max, dst))) (p, n, max, dst).

Definition copyinstr (pagetable srcva max : Z) : K (Z * list Z) :=
  loop (fun '(got_null, srcva, max, dst) =>
    if negb got_null && (max >? 0)
    then
      let va0 := PGROUNDDOWN srcva in
      pa0 <- walkaddr pagetable va0 ;;
      if pa0 =? 0 then ret (inr (-1, dst))
      else
        let n0 := PGSIZE - (srcva - va0) in
        let n := if n0 >? max then max else n0 in
        '(got, max', dst') <- copyinstr_page (pa0 + (srcva - va0)) n max dst ;;
        ret (inl (got, u64 (va0 + PGSIZE), max', dst'))
    else ret (inr (if got_null then 0 else -1, dst))) (false, srcva, max, []).

Definition mapvpages (pagetable va size : Z) : K Z :=
  if size =? 0 then panic "mappages: size"
  else
    let last := PGROUNDDOWN (u64 (va + size - 1)) in
    loop (fun a =>
      pte <- walk pagetable a true ;;
      if pte =? 0 then ret (inr (-1))
      else
        v <- load64 pte ;;
        if hasbit v PTE_V then panic "mappages: remap"
        else if a =? last then ret (inr 0)
        else ret (inl (u64 (a + PGSIZE)))) (PGROUNDDOWN va).
End Vm.
