(* ===== verification/VmFacts.v ===== *)
(** * Page tables: well-formedness, the abstract address space, and the
      correctness of kernel/vm.c

    A page table in memory is a tree of pages ([tables]); it is well formed
    when these pages are distinct allocator pages, disjoint from the free
    list ([vm_inv]). What it means is the abstract address space [aspace], a
    map from virtual page numbers to entries. Each routine is shown to keep
    the tree well formed and to act on the address space as the
    corresponding update, and to touch no other page. *)

From S2P Require Import Prelude Machine State Kalloc Vm.
From Stdlib Require Import Permutation.

(** ** The tree of a page table *)

Definition entry (m : memory) (pt i : Z) : Z := ld64 m (pt + 8 * i).

Definition kid (m : memory) (pt i : Z) : option Z :=
  if hasbit (entry m pt i) PTE_V then Some (PTE2PA (entry m pt i)) else None.

(** All pages of the table of height [lvl] rooted at [pt]. *)
Fixpoint tables (m : memory) (lvl : nat) (pt : Z) : list Z :=
  pt :: match lvl with
        | O => []
        | S l => flat_map (fun i => match kid m pt (Z.of_nat i) with
                                    | Some c => tables m l c
                                    | None => []
                                    end) (seq 0 512)
        end.

(** The address of the last-level entry for [va], if the tables above it
    exist. *)
Fixpoint find_pte (m : memory) (lvl : nat) (pt va : Z) : option Z :=
  match lvl with
  | O => Some (pt + 8 * PX 0 va)
  | S l => match kid m pt (PX (Z.of_nat lvl) va) with
           | Some c => find_pte m l c va
           | None => None
           end
  end.

(** The entry for [va], 0 (invalid) where there is none. *)
Definition pte_of (m : memory) (lvl : nat) (pt va : Z) : Z :=
  match find_pte m lvl pt va with
  | Some a => ld64 m a
  | None => 0
  end.

(** Pages of the subtree below entry [i]. *)
Definition kid_tables (m : memory) (l : nat) (pt : Z) (i : nat) : list Z :=
  match kid m pt (Z.of_nat i) with
  | Some c => tables m l c
  | None => []
  end.

Lemma tables_S m l pt : tables m (S l) pt = pt :: flat_map (kid_tables m l pt) (seq 0 512).
Proof. reflexivity. Qed.

Lemma tables_0 m pt : tables m 0 pt = [pt].
Proof. reflexivity. Qed.

Definition others (m : memory) (l : nat) (pt : Z) (i : nat) : list Z :=
  flat_map (kid_tables m l pt) (seq 0 i) ++ flat_map (kid_tables m l pt) (seq (S i) (511 - i)).

Lemma tables_split m l pt i :
  (i < 512)%nat -> tables m (S l) pt ≡ₚ pt :: kid_tables m l pt i ++ others m l pt i.
Proof.
  intros Hi. cbn [tables]. apply perm_skip.
  change (fun i0 : nat => _) with (kid_tables m l pt).
  replace (seq 0 512) with (seq 0 i ++ i :: seq (S i) (511 - i)).
  - rewrite flat_map_app. cbn [flat_map]. unfold others.
    rewrite Permutation_app_swap_app. now rewrite app_assoc.
  - change (i :: seq (S i) (511 - i)) with (seq i (S (511 - i))).
    replace i with (0 + i)%nat at 2 by lia. rewrite <- seq_app. f_equal. lia.
Qed.

Lemma in_others m l pt i j x :
  (j < 512)%nat -> j <> i -> x ∈ kid_tables m l pt j -> x ∈ others m l pt i.
Proof.
  intros Hj Hne Hx. unfold others. apply elem_of_app.
  rewrite !list_elem_of_In, !in_flat_map. rewrite list_elem_of_In in Hx.
  destruct (decide (j < i)%nat); [left|right]; exists j; split; try done; apply in_seq; lia.
Qed.

Lemma root_in_tables m lvl pt : pt ∈ tables m lvl pt.
Proof. destruct lvl; apply elem_of_cons; now left. Qed.

Lemma kid_tables_sub m l pt i x :
  (i < 512)%nat -> x ∈ kid_tables m l pt i -> x ∈ tables m (S l) pt.
Proof.
  intros Hi Hx. rewrite (tables_split m l pt i Hi). apply elem_of_cons. right.
  apply elem_of_app. now left.
Qed.

(** [m'] and [m] agree on the page [p]. *)
Definition same_page (m m' : memory) (p : Z) : Prop :=
  forall a, p <= a < p + PGSIZE -> m' a = m a.

Lemma entry_same m m' pt i : same_page m m' pt -> 0 <= i < 512 -> entry m' pt i = entry m pt i.
Proof.
  intros H Hi. unfold entry, ld64. apply ld_ext. intros x Hx. apply H.
  unfold PGSIZE. simpl in Hx. lia.
Qed.

Lemma kid_same m m' pt i : same_page m m' pt -> 0 <= i < 512 -> kid m' pt i = kid m pt i.
Proof. intros H Hi. unfold kid. now rewrite (entry_same m m'). Qed.

(** The tree depends on its own pages only. *)
Lemma tables_frame m m' lvl pt :
  (forall p, p ∈ tables m lvl pt -> same_page m m' p) -> tables m' lvl pt = tables m lvl pt.
Proof.
  revert pt. induction lvl as [|l IH]; intros pt H; [reflexivity|].
  cbn [tables]. f_equal. rewrite !flat_map_concat_map. f_equal.
  apply map_ext_in. intros i Hi%in_seq.
  rewrite (kid_same m m') by (try lia; apply H, root_in_tables).
  destruct (kid m pt (Z.of_nat i)) as [c|] eqn:E; [|reflexivity].
  apply IH. intros p Hp. apply H. apply (kid_tables_sub _ _ _ i); [lia|].
  unfold kid_tables. now rewrite E.
Qed.

Lemma find_pte_frame m m' lvl pt va :
  (forall p, p ∈ tables m lvl pt -> same_page m m' p) -> find_pte m' lvl pt va = find_pte m lvl pt va.
Proof.
  revert pt. induction lvl as [|l IH]; intros pt H; [reflexivity|].
  cbn [find_pte]. pose proof (PX_range (Z.of_nat (S l)) va ltac:(lia)) as Hpx.
  rewrite (kid_same m m') by (try done; apply H, root_in_tables).
  destruct (kid m pt (PX (Z.of_nat (S l)) va)) as [c|] eqn:E; [|reflexivity].
  apply IH. intros p Hp. apply H.
  apply (kid_tables_sub _ _ _ (Z.to_nat (PX (Z.of_nat (S l)) va))); [lia|].
  unfold kid_tables. rewrite Z2Nat.id by lia. now rewrite E.
Qed.

(** The entry found lies in a page of the tree. *)
Lemma find_pte_in m lvl pt va a :
  find_pte m lvl pt va = Some a -> exists p, p ∈ tables m lvl pt /\ a = p + 8 * PX 0 va.
Proof.
  revert pt. induction lvl as [|l IH]; intros pt H.
  - simpl in H. injection H as <-. exists pt. split; [apply root_in_tables|done].
  - cbn [find_pte] in H. destruct (kid m pt _) as [c|] eqn:E; [|done].
    destruct (IH c H) as (p & Hp & ->). exists p. split; [|done].
    pose proof (PX_range (Z.of_nat (S l)) va ltac:(lia)) as Hpx.
    apply (kid_tables_sub _ _ _ (Z.to_nat (PX (Z.of_nat (S l)) va))); [lia|].
    unfold kid_tables. rewrite Z2Nat.id by lia. now rewrite E.
Qed.

Lemma pte_of_frame m m' lvl pt va :
  (forall p, p ∈ tables m lvl pt -> same_page m m' p) -> pte_of m' lvl pt va = pte_of m lvl pt va.
Proof.
  intros H. unfold pte_of. rewrite (find_pte_frame m m') by done.
  destruct (find_pte m lvl pt va) as [a|] eqn:E; [|done].
  destruct (find_pte_in m lvl pt va a E) as (p & Hp & ->).
  pose proof (PX_range 0 va ltac:(lia)) as Hpx. exact (entry_same m m' p _ (H p Hp) Hpx).
Qed.

(** Well-formedness of the pages of a tree. *)
Definition aligned (p : Z) : Prop := p mod PGSIZE = 0.

Lemma split_facts m l pt i :
  (i < 512)%nat -> NoDup (tables m (S l) pt) ->
  (pt ∉ kid_tables m l pt i) /\ NoDup (kid_tables m l pt i) /\
  (forall x, x ∈ kid_tables m l pt i -> x ∉ others m l pt i).
Proof.
  intros Hi Hnd. rewrite (tables_split m l pt i Hi) in Hnd.
  apply NoDup_cons in Hnd as [Hpt Hnd]. apply NoDup_app in Hnd as (H1 & H2 & _).
  split_and!; [|done|done]. intros H. apply Hpt, elem_of_app. now left.
Qed.

(** Entries of different virtual pages do not overlap. *)
Lemma find_pte_distinct m lvl pt va va' a a' :
  NoDup (tables m lvl pt) -> Forall aligned (tables m lvl pt) ->
  find_pte m lvl pt va = Some a -> find_pte m lvl pt va' = Some a' ->
  (forall k, 0 <= k <= Z.of_nat lvl -> PX k va = PX k va') \/ a + 8 <= a' \/ a' + 8 <= a.
Proof.
  revert pt. induction lvl as [|l IH]; intros pt Hnd Hal Ha Ha'.
  - simpl in Ha, Ha'. injection Ha as <-. injection Ha' as <-.
    destruct (decide (PX 0 va = PX 0 va')) as [E|E]; [left|right; lia].
    intros k Hk. replace k with 0 by lia. exact E.
  - cbn [find_pte] in Ha, Ha'.
    set (i := PX (Z.of_nat (S l)) va) in *. set (i' := PX (Z.of_nat (S l)) va') in *.
    pose proof (PX_range (Z.of_nat (S l)) va ltac:(lia)) as Hi. fold i in Hi.
    pose proof (PX_range (Z.of_nat (S l)) va' ltac:(lia)) as Hi'. fold i' in Hi'.
    destruct (kid m pt i) as [c|] eqn:Ec; [|done].
    destruct (kid m pt i') as [c'|] eqn:Ec'; [|done].
    destruct (split_facts m l pt (Z.to_nat i) ltac:(lia) Hnd) as (_ & Hndk & Hsep).
    assert (Hk : kid_tables m l pt (Z.to_nat i) = tables m l c).
    { unfold kid_tables. rewrite Z2Nat.id by lia. now rewrite Ec. }
    assert (Hk' : kid_tables m l pt (Z.to_nat i') = tables m l c').
    { unfold kid_tables. rewrite Z2Nat.id by lia. now rewrite Ec'. }
    assert (Hsub : Forall aligned (tables m l c)).
    { apply Forall_forall. intros x Hx. rewrite Forall_forall in Hal. apply Hal.
      apply (kid_tables_sub _ _ _ (Z.to_nat i)); [lia|]. now rewrite Hk. }
    destruct (decide (i = i')) as [E|E].
    + rewrite <- E in Ec'. rewrite Ec in Ec'. injection Ec' as <-.
      rewrite Hk in Hndk. destruct (IH c Hndk Hsub Ha Ha') as [H|H]; [left|right; done].
      intros k Hrange. destruct (decide (k = Z.of_nat (S l))) as [->|]; [exact E|apply H; lia].
    + right. destruct (find_pte_in _ _ _ _ _ Ha) as (p & Hp & ->).
      destruct (find_pte_in _ _ _ _ _ Ha') as (p' & Hp' & ->).
      assert (Hne : p <> p').
      { intros <-. apply (Hsep p); [now rewrite Hk|].
        apply (in_others _ _ _ _ (Z.to_nat i')); [lia|lia|now rewrite Hk']. }
      rewrite Forall_forall in Hal.
      assert (Hpa : aligned p) by (apply Hal, (kid_tables_sub _ _ _ (Z.to_nat i)); [lia|now rewrite Hk]).
      assert (Hpa' : aligned p') by (apply Hal, (kid_tables_sub _ _ _ (Z.to_nat i')); [lia|now rewrite Hk']).
      pose proof (PX_range 0 va ltac:(lia)). pose proof (PX_range 0 va' ltac:(lia)).
      destruct (aligned_disjoint p p' Hpa Hpa' Hne); unfold PGSIZE in *; lia.
Qed.

(** A store outside the pages of a tree, and a store into one of its pages,
    seen from another page. *)
Lemma st64_same_page m a v p q :
  aligned p -> aligned q -> p <> q -> p <= a -> a + 8 <= p + PGSIZE -> same_page m (st64 m a v) q.
Proof.
  intros Hp Hq Hne H1 H2 x Hx. unfold st64. apply st_outside. simpl.
  destruct (aligned_disjoint p q Hp Hq Hne); lia.
Qed.

Lemma fill_same_page m p c q :
  aligned p -> aligned q -> p <> q -> same_page m (fill m p c PGSIZE) q.
Proof.
  intros Hp Hq Hne x Hx. apply fill_outside. destruct (aligned_disjoint p q Hp Hq Hne); lia.
Qed.

Lemma same_page_trans m1 m2 m3 p : same_page m1 m2 p -> same_page m2 m3 p -> same_page m1 m3 p.
Proof. intros H1 H2 a Ha. rewrite H2 by done. now apply H1. Qed.

(** Rewriting a last-level entry does not change the shape of the tree. *)
Lemma leaf_store m lvl pt va a v :
  NoDup (tables m lvl pt) -> Forall aligned (tables m lvl pt) ->
  find_pte m lvl pt va = Some a ->
  tables (st64 m a v) lvl pt = tables m lvl pt /\
  forall va', find_pte (st64 m a v) lvl pt va' = find_pte m lvl pt va'.
Proof.
  revert pt. induction lvl as [|l IH]; intros pt Hnd Hal Ha; [done|].
  set (m' := st64 m a v).
  pose proof (PX_range (Z.of_nat (S l)) va ltac:(lia)) as Hi.
  cbn [find_pte] in Ha. set (i := PX (Z.of_nat (S l)) va) in *.
  destruct (kid m pt i) as [c|] eqn:Ec; [|done].
  destruct (split_facts m l pt (Z.to_nat i) ltac:(lia) Hnd) as (Hpt & Hndk & Hsep).
  assert (Hk : kid_tables m l pt (Z.to_nat i) = tables m l c).
  { unfold kid_tables. rewrite Z2Nat.id by lia. now rewrite Ec. }
  rewrite Hk in Hpt, Hndk, Hsep. rewrite Forall_forall in Hal.
  assert (Hin : forall x, x ∈ tables m l c -> x ∈ tables m (S l) pt).
  { intros x Hx. apply (kid_tables_sub _ _ _ (Z.to_nat i)); [lia|]. now rewrite Hk. }
  destruct (find_pte_in _ _ _ _ _ Ha) as (p & Hp & Hap).
  pose proof (PX_range 0 va ltac:(lia)) as H0.
  assert (Hother : forall q, q ∈ tables m (S l) pt -> q <> p -> same_page m m' q).
  { intros q Hq Hne. apply (st64_same_page m a v p); auto; unfold PGSIZE; lia. }
  assert (Hroot : same_page m m' pt).
  { apply Hother; [apply root_in_tables|]. intros ->. contradiction. }
  assert (Hkid : forall j, (j < 512)%nat -> j <> Z.to_nat i ->
     forall q, q ∈ kid_tables m l pt j -> same_page m m' q).
  { intros j Hj Hne q Hq. apply Hother; [now apply (kid_tables_sub _ _ _ j)|].
    intros ->. apply (Hsep p Hp). now apply (in_others _ _ _ _ j). }
  destruct (IH c Hndk) as [IHt IHf]; [apply Forall_forall; auto|exact Ha|].
  split.
  - cbn [tables]. f_equal. rewrite !flat_map_concat_map. f_equal.
    apply map_ext_in. intros j Hj%in_seq. rewrite (kid_same m m') by (try lia; done).
    destruct (decide (j = Z.to_nat i)) as [->|Hne].
    + rewrite Z2Nat.id by lia. now rewrite Ec.
    + destruct (kid m pt (Z.of_nat j)) as [d|] eqn:Ed; [|done].
      apply tables_frame. intros q Hq. apply (Hkid j); [lia|done|]. unfold kid_tables. now rewrite Ed.
  - intros va'. cbn [find_pte]. pose proof (PX_range (Z.of_nat (S l)) va' ltac:(lia)) as Hj.
    rewrite (kid_same m m') by done.
    destruct (kid m pt (PX (Z.of_nat (S l)) va')) as [d|] eqn:Ed; [|done].
    destruct (decide (Z.to_nat (PX (Z.of_nat (S l)) va') = Z.to_nat i)) as [E|Hne].
    + replace (PX (Z.of_nat (S l)) va') with i in Ed by lia. assert (d = c) as -> by congruence. apply IHf.
    + apply find_pte_frame. intros q Hq.
      apply (Hkid (Z.to_nat (PX (Z.of_nat (S l)) va'))); [lia|done|].
      unfold kid_tables. rewrite Z2Nat.id by lia. now rewrite Ed.
Qed.

(** ** Growing a tree *)

(** [m'] extends the tree of [m] with the pages [news]; existing entries
    keep their addresses and every virtual page its entry. *)
Definition grows (m m' : memory) (lvl : nat) (pt : Z) (news : list Z) : Prop :=
  tables m' lvl pt ≡ₚ news ++ tables m lvl pt /\
  (forall va a, find_pte m lvl pt va = Some a -> find_pte m' lvl pt va = Some a) /\
  (forall va, pte_of m' lvl pt va = pte_of m lvl pt va).

Lemma grows_refl m lvl pt : grows m m lvl pt [].
Proof. by split_and!. Qed.

Lemma grows_trans m1 m2 m3 lvl pt n1 n2 :
  grows m1 m2 lvl pt n1 -> grows m2 m3 lvl pt n2 -> grows m1 m3 lvl pt (n2 ++ n1).
Proof.
  intros (T1 & F1 & P1) (T2 & F2 & P2). split_and!.
  - rewrite T2, T1. now rewrite app_assoc.
  - auto.
  - intros va. now rewrite P2, P1.
Qed.

(** Outside the subtree of entry [i], nothing has changed. *)
Definition same_others (m m' : memory) (l : nat) (pt : Z) (i : nat) : Prop :=
  (forall j, 0 <= j < 512 -> j <> Z.of_nat i -> kid m' pt j = kid m pt j) /\
  (forall q, q ∈ others m l pt i -> same_page m m' q).

Lemma others_frame m m' l pt i :
  same_others m m' l pt i ->
  forall j, (j < 512)%nat -> j <> i -> kid_tables m' l pt j = kid_tables m l pt j.
Proof.
  intros [Hk Ho] j Hj Hne. unfold kid_tables. rewrite Hk by lia.
  destruct (kid m pt (Z.of_nat j)) as [c|] eqn:E; [|done]. apply tables_frame.
  intros q Hq. apply Ho. apply (in_others _ _ _ _ j); [done|done|]. unfold kid_tables. now rewrite E.
Qed.

Lemma others_ext m m' l pt i :
  (i < 512)%nat ->
  (forall j, (j < 512)%nat -> j <> i -> kid_tables m' l pt j = kid_tables m l pt j) ->
  others m' l pt i = others m l pt i.
Proof.
  intros Hi H. unfold others. rewrite !flat_map_concat_map.
  f_equal; f_equal; apply map_ext_in; intros j Hj%in_seq; apply H; lia.
Qed.

(** [find_pte] at a node, by the entry it goes through. *)
Lemma find_pte_S m l pt va :
  find_pte m (S l) pt va =
  match kid m pt (PX (Z.of_nat (S l)) va) with Some c => find_pte m l c va | None => None end.
Proof. reflexivity. Qed.

Lemma find_other m m' l pt i va :
  same_others m m' l pt i -> PX (Z.of_nat (S l)) va <> Z.of_nat i ->
  find_pte m' (S l) pt va = find_pte m (S l) pt va /\ pte_of m' (S l) pt va = pte_of m (S l) pt va.
Proof.
  intros [Hk Ho] Hne. pose proof (PX_range (Z.of_nat (S l)) va ltac:(lia)) as Hr.
  unfold pte_of. rewrite !find_pte_S. rewrite Hk by done.
  destruct (kid m pt (PX (Z.of_nat (S l)) va)) as [c|] eqn:E; [|done].
  assert (Hq : forall q, q ∈ tables m l c -> same_page m m' q).
  { intros q Hq. apply Ho. apply (in_others _ _ _ _ (Z.to_nat (PX (Z.of_nat (S l)) va))); [lia|lia|].
    unfold kid_tables. rewrite Z2Nat.id by lia. now rewrite E. }
  split; [now apply find_pte_frame|]. exact (pte_of_frame m m' l c va Hq).
Qed.

(** Growth of one child is growth of the node. *)
Lemma grows_lift m m' l pt i c news :
  (i < 512)%nat -> kid m pt (Z.of_nat i) = Some c -> kid m' pt (Z.of_nat i) = Some c ->
  same_others m m' l pt i -> grows m m' l c news -> grows m m' (S l) pt news.
Proof.
  intros Hi Hc Hc' Hso (T & F & P).
  assert (Hfind : forall mm va, kid mm pt (Z.of_nat i) = Some c -> PX (Z.of_nat (S l)) va = Z.of_nat i ->
            find_pte mm (S l) pt va = find_pte mm l c va).
  { intros mm va Hk E. rewrite find_pte_S, E, Hk. reflexivity. }
  split_and!.
  - rewrite (tables_split m' l pt i Hi), (tables_split m l pt i Hi).
    rewrite (others_ext m m') by (done || now apply others_frame).
    unfold kid_tables. rewrite Hc, Hc', T. rewrite <- !app_assoc.
    now rewrite Permutation_middle.
  - intros va a Ha. destruct (decide (PX (Z.of_nat (S l)) va = Z.of_nat i)) as [E|E].
    + rewrite Hfind in Ha |- * by done. auto.
    + now rewrite (proj1 (find_other m m' l pt i va Hso E)).
  - intros va. destruct (decide (PX (Z.of_nat (S l)) va = Z.of_nat i)) as [E|E].
    + unfold pte_of. rewrite !Hfind by done. apply P.
    + now apply (find_other m m' l pt i).
Qed.

Definition zero_page (m : memory) (p : Z) : Prop := forall a, p <= a < p + PGSIZE -> m a = 0.

Lemma zero_page_entry m p i : zero_page m p -> 0 <= i < 512 -> entry m p i = 0.
Proof.
  intros Hz Hi. unfold entry, ld64. rewrite (ld_ext 8 (fill m p 0 PGSIZE)).
  - apply ld_fill_zero; unfold PGSIZE; simpl; lia.
  - intros x Hx. unfold PGSIZE in *. simpl in Hx.
    rewrite fill_inside by lia. rewrite Hz by (unfold PGSIZE; lia). reflexivity.
Qed.

Lemma zero_page_kid m p i : zero_page m p -> 0 <= i < 512 -> kid m p i = None.
Proof. intros Hz Hi. unfold kid. now rewrite zero_page_entry. Qed.

Lemma zero_page_tables m l p : zero_page m p -> tables m l p = [p].
Proof.
  intros Hz. destruct l as [|l]; [done|]. cbn [tables]. f_equal.
  rewrite flat_map_concat_map.
  rewrite (map_ext_in _ (fun _ => [])); [|intros i Hi%in_seq; now rewrite zero_page_kid by (done || lia)].
  generalize (seq 0 512). intros L. induction L; [done|]. exact IHL.
Qed.

Lemma zero_page_pte m l p va : zero_page m p -> pte_of m l p va = 0.
Proof.
  intros Hz. unfold pte_of. destruct l as [|l].
  - simpl. pose proof (PX_range 0 va ltac:(lia)). now apply zero_page_entry.
  - rewrite find_pte_S, zero_page_kid; [done|done|apply PX_range; lia].
Qed.

(** Hanging a fresh zeroed page [c] into the empty entry [i]. *)
Lemma grows_extend m m' l pt i c :
  (i < 512)%nat -> kid m pt (Z.of_nat i) = None -> kid m' pt (Z.of_nat i) = Some c ->
  same_others m m' l pt i -> zero_page m' c -> grows m m' (S l) pt [c].
Proof.
  intros Hi Hn Hc Hso Hz. split_and!.
  - rewrite (tables_split m' l pt i Hi), (tables_split m l pt i Hi).
    rewrite (others_ext m m') by (done || now apply others_frame).
    unfold kid_tables. rewrite Hn, Hc, zero_page_tables by done. simpl. apply perm_swap.
  - intros va a Ha. destruct (decide (PX (Z.of_nat (S l)) va = Z.of_nat i)) as [E|E].
    + rewrite find_pte_S, E, Hn in Ha. done.
    + now rewrite (proj1 (find_other m m' l pt i va Hso E)).
  - intros va. destruct (decide (PX (Z.of_nat (S l)) va = Z.of_nat i)) as [E|E].
    + unfold pte_of at 2. rewrite find_pte_S, E, Hn.
      pose proof (zero_page_pte m' l c va Hz) as Hp. unfold pte_of in *.
      rewrite find_pte_S, E, Hc. exact Hp.
    + now apply (find_other m m' l pt i).
Qed.

Section Walk.
Context `{LAY : Layout}.

(** ** [walk] *)

(** The table of height [lvl] at [pt] is well formed and disjoint from the
    free pages [fl]. *)
Definition tree_ok (s : kstate) (lvl : nat) (pt : Z) (fl : list Z) : Prop :=
  free_pages s fl /\ NoDup (tables (k_mem s) lvl pt ++ fl) /\
  Forall page_ok (tables (k_mem s) lvl pt).

Definition vm_inv (s : kstate) (root : Z) (fl : list Z) : Prop := tree_ok s 2 root fl.

(** Only memory and the free list differ. *)
Definition same_but_mem (s s' : kstate) : Prop :=
  s' = set_k_mem (k_mem s') (set_k_freelist (k_freelist s') s).

Lemma same_but_mem_refl s : same_but_mem s s.
Proof. unfold same_but_mem. now destruct s. Qed.

Lemma same_but_mem_trans s1 s2 s3 : same_but_mem s1 s2 -> same_but_mem s2 s3 -> same_but_mem s1 s3.
Proof.
  unfold same_but_mem. intros H1 H2. rewrite H2, H1. now destruct s1, s2, s3.
Qed.

Lemma same_but_mem_held s s' : same_but_mem s s' -> k_held s' = k_held s.
Proof. intros H. now rewrite H. Qed.

Lemma same_but_mem_st s a v : same_but_mem s (set_k_mem (st64 (k_mem s) a v) s).
Proof. unfold same_but_mem. now destruct s. Qed.

(** What a call that may add tables does to the state. *)
Definition grown (s s' : kstate) (lvl : nat) (pt : Z) (fl fl' : list Z) : Prop :=
  exists news, fl = news ++ fl' /\ free_pages s' fl' /\
    grows (k_mem s) (k_mem s') lvl pt (rev news) /\
    (forall q, aligned q -> q ∉ tables (k_mem s) lvl pt -> q ∉ news ->
               same_page (k_mem s) (k_mem s') q) /\
    same_but_mem s s'.

Lemma page_ok_aligned p : page_ok p -> aligned p.
Proof. now intros [? _]. Qed.

Lemma tree_ok_facts s lvl pt fl :
  tree_ok s lvl pt fl ->
  free_pages s fl /\ NoDup (tables (k_mem s) lvl pt) /\ Forall page_ok (tables (k_mem s) lvl pt) /\
  Forall aligned (tables (k_mem s) lvl pt) /\ Forall page_ok fl /\
  (forall x, x ∈ tables (k_mem s) lvl pt -> x ∉ fl).
Proof.
  intros (Hf & Hnd & Hok). apply NoDup_app in Hnd as (H1 & H2 & _).
  split_and!; try done; [|apply Hf].
  eapply Forall_impl; [exact Hok|]. apply page_ok_aligned.
Qed.

Lemma grown_tree s s' lvl pt fl fl' :
  tree_ok s lvl pt fl -> grown s s' lvl pt fl fl' -> tree_ok s' lvl pt fl'.
Proof.
  intros (Hf & Hnd & Hok) (news & -> & Hf' & (T & _ & _) & _ & _).
  split_and!; [done| |].
  - rewrite T. rewrite <- (Permutation_rev news).
    rewrite (Permutation_app_comm news), <- app_assoc. exact Hnd.
  - rewrite T. apply Forall_app. split; [|done]. rewrite <- (Permutation_rev news).
    destruct Hf as (_ & _ & Hpl). apply Forall_app in Hpl as [? _]. done.
Qed.

Lemma grown_refl s lvl pt fl : free_pages s fl -> grown s s lvl pt fl fl.
Proof.
  intros. exists []. split; [done|]. split; [done|]. split; [apply grows_refl|].
  split; [done|apply same_but_mem_refl].
Qed.

Lemma grown_trans s1 s2 s3 lvl pt f1 f2 f3 :
  grown s1 s2 lvl pt f1 f2 -> grown s2 s3 lvl pt f2 f3 -> grown s1 s3 lvl pt f1 f3.
Proof.
  intros (n1 & -> & Hf1 & G1 & S1 & B1) (n2 & -> & Hf2 & G2 & S2 & B2).
  exists (n1 ++ n2). split_and!.
  - now rewrite app_assoc.
  - done.
  - rewrite rev_app_distr. now apply grows_trans with (k_mem s2).
  - intros q Hal Hq Hn. apply not_elem_of_app in Hn as [Hn1 Hn2].
    apply same_page_trans with (k_mem s2); [now apply S1|]. apply S2; [done| |done].
    destruct G1 as (T & _). rewrite T, elem_of_app, <- (Permutation_rev n1). tauto.
  - now apply same_but_mem_trans with s2.
Qed.

(** The outcome of [walk(pagetable, va, 1)]. *)
Definition walked (s : kstate) (lvl : nat) (pt : Z) (fl : list Z) (va r : Z) (s' : kstate) : Prop :=
  exists fl', grown s s' lvl pt fl fl' /\ (length fl <= length fl' + lvl)%nat /\
    ((r = 0 /\ fl' = [] /\ (length fl < lvl)%nat) \/ (r <> 0 /\ find_pte (k_mem s') lvl pt va = Some r)).

Lemma walk_levels_read lvl pt va s :
  walk_levels lvl pt va false s =
  Ret (match find_pte (k_mem s) lvl pt va with Some a => a | None => 0 end) s.
Proof.
  revert pt. induction lvl as [|l IH]; intros pt; [reflexivity|].
  cbn [walk_levels]. krun. rewrite find_pte_S. unfold kid, entry.
  destruct (hasbit _ PTE_V); [apply IH|reflexivity].
Qed.

Lemma tree_ok_kid s l pt fl i c :
  tree_ok s (S l) pt fl -> (i < 512)%nat -> kid (k_mem s) pt (Z.of_nat i) = Some c ->
  tree_ok s l c fl.
Proof.
  intros (Hf & Hnd & Hok) Hi Hc.
  pose proof (tables_split (k_mem s) l pt i Hi) as T. unfold kid_tables in T. rewrite Hc in T.
  rewrite T in Hnd, Hok. inversion Hok as [|? ? Hpt Hrest]; subst. split_and!; [done| |].
  - simpl in Hnd. apply NoDup_cons in Hnd as [_ Hnd]. rewrite <- app_assoc in Hnd.
    apply NoDup_app in Hnd as (H1 & H2 & H3). apply NoDup_app. split_and!; try done.
    + intros x Hx Hx'. apply (H2 x Hx). apply elem_of_app. now right.
    + now apply NoDup_app in H3 as (_ & _ & ?).
  - now apply Forall_app in Hrest as [? _].
Qed.

(** Going through an existing entry. *)
Lemma walked_kid s l pt fl va c r s' :
  tree_ok s (S l) pt fl -> kid (k_mem s) pt (PX (Z.of_nat (S l)) va) = Some c ->
  walked s l c fl va r s' -> walked s (S l) pt fl va r s'.
Proof.
  intros Hok Hc (fl' & (news & -> & Hf' & G & Hsame & B) & Hlen & Hr).
  pose proof (PX_range (Z.of_nat (S l)) va ltac:(lia)) as Hi.
  set (i := Z.to_nat (PX (Z.of_nat (S l)) va)).
  assert (Hiz : PX (Z.of_nat (S l)) va = Z.of_nat i) by lia. rewrite Hiz in Hc.
  destruct (tree_ok_facts _ _ _ _ Hok) as (Hf & Hnd & Hpo & Hal & Hpl & Hdis).
  destruct (split_facts (k_mem s) l pt i ltac:(lia) Hnd) as (Hpt & Hndk & Hsep).
  unfold kid_tables in Hpt, Hsep. rewrite Hc in Hpt, Hsep.
  assert (Hnews : forall x, x ∈ tables (k_mem s) (S l) pt -> x ∉ news).
  { intros x Hx Hn. apply (Hdis x Hx), elem_of_app. now left. }
  rewrite Forall_forall in Hal.
  assert (Hroot : same_page (k_mem s) (k_mem s') pt).
  { apply Hsame; [apply Hal, root_in_tables|done|apply Hnews, root_in_tables]. }
  assert (Hoth : forall q, q ∈ others (k_mem s) l pt i -> same_page (k_mem s) (k_mem s') q).
  { intros q Hq.
    assert (q ∈ tables (k_mem s) (S l) pt).
    { rewrite (tables_split (k_mem s) l pt i ltac:(lia)). apply elem_of_cons. right.
      apply elem_of_app. now right. }
    apply Hsame; auto. intros Hqc. apply (Hsep q Hqc Hq). }
  assert (Hso : same_others (k_mem s) (k_mem s') l pt i).
  { split; [|done]. intros j Hj _. now apply kid_same. }
  assert (Hc' : kid (k_mem s') pt (Z.of_nat i) = Some c).
  { rewrite (kid_same (k_mem s)) by (done || lia). done. }
  exists fl'. split; [|split; [lia|]].
  - exists news. split_and!; try done; [now apply (grows_lift _ _ _ _ i c); try lia|].
    intros q Hq Hqt Hqn. apply Hsame; [done| |done]. intros Hx. apply Hqt.
    apply (kid_tables_sub _ _ _ i); [lia|]. unfold kid_tables. now rewrite Hc.
  - destruct Hr as [(? & ? & ?)|[? Hfp]]; [left; split_and!; lia || done|right]. split; [done|].
    rewrite find_pte_S, Hiz, Hc'. done.
Qed.

(** The state after [walk] has hung a fresh table [c] into entry [i]. *)
Definition hung (s : kstate) (pt i c : Z) : kstate :=
  set_k_mem (st64 (fill (fill (k_mem s) c 5 PGSIZE) c 0 PGSIZE) (pt + 8 * i) (Z.lor (PA2PTE c) PTE_V))
    (set_k_freelist (ld64 (k_mem s) c) s).

Lemma page_ok_pa p : page_ok p -> 0 <= p < 2 ^ 56.
Proof. intros H%page_ok_range. unfold KERNBASE, PHYSTOP, KERNBASE, PGSIZE in *. lia. Qed.

Lemma hasbit_mkpte p flags b :
  0 <= p < 2 ^ 56 -> 0 <= b < 1024 -> hasbit (mkpte p flags) b = hasbit flags b.
Proof. intros. unfold hasbit. now rewrite mkpte_land. Qed.

Lemma entry_bounds pt i : 0 <= i < 512 -> pt <= pt + 8 * i /\ pt + 8 * i + 8 <= pt + PGSIZE.
Proof. unfold PGSIZE. lia. Qed.

Lemma hung_pages s pt i c q :
  aligned pt -> aligned c -> aligned q -> q <> pt -> q <> c -> 0 <= i < 512 ->
  same_page (k_mem s) (k_mem (hung s pt i c)) q.
Proof.
  intros Hp Hc Hq Hqp Hqc Hi. unfold hung. kred. pose proof (entry_bounds pt i Hi).
  eapply same_page_trans; [|apply (st64_same_page _ _ _ pt); try done; try lia; congruence].
  eapply same_page_trans; apply fill_same_page; auto.
Qed.

Lemma hung_entry_other s pt i c j :
  aligned pt -> aligned c -> c <> pt -> 0 <= i < 512 -> 0 <= j < 512 -> j <> i ->
  entry (k_mem (hung s pt i c)) pt j = entry (k_mem s) pt j.
Proof.
  intros Hp Hc Hne Hi Hj Hji. unfold hung, entry. kred. rewrite ld64_st64_other by lia.
  apply (entry_same (k_mem s)); [|done].
  eapply same_page_trans; apply fill_same_page; auto.
Qed.

Lemma hung_entry s pt i c :
  page_ok c -> entry (k_mem (hung s pt i c)) pt i = mkpte c PTE_V.
Proof.
  intros Hc%page_ok_pa. unfold hung, entry. kred. apply ld64_st64_same.
  apply mkpte_range; [done|]. unfold PTE_V. lia.
Qed.

Lemma hung_zero s pt i c :
  aligned pt -> aligned c -> c <> pt -> 0 <= i < 512 -> zero_page (k_mem (hung s pt i c)) c.
Proof.
  intros Hp Hc Hne Hi a Ha. unfold hung. kred. pose proof (entry_bounds pt i Hi).
  rewrite (st64_same_page _ _ _ pt c) by (done || lia || congruence). now rewrite fill_inside.
Qed.

(** Adding a table keeps the tree well formed. *)
Lemma hung_grown s l pt i c fl :
  tree_ok s (S l) pt (c :: fl) -> (i < 512)%nat -> kid (k_mem s) pt (Z.of_nat i) = None ->
  grown s (hung s pt (Z.of_nat i) c) (S l) pt (c :: fl) fl /\
  kid (k_mem (hung s pt (Z.of_nat i) c)) pt (Z.of_nat i) = Some c.
Proof.
  intros Hok Hi Hn. destruct (tree_ok_facts _ _ _ _ Hok) as (Hf & Hnd & Hpo & Hal & Hpl & Hdis).
  inversion Hpl as [|? ? Hc Hpl']; subst. rewrite Forall_forall in Hal, Hpl'.
  pose proof (page_ok_aligned _ Hc) as Hca.
  assert (Hpt : aligned pt) by apply Hal, root_in_tables.
  assert (Hcn : forall x, x ∈ tables (k_mem s) (S l) pt -> x <> c).
  { intros x Hx ->. apply (Hdis c Hx), elem_of_cons. now left. }
  assert (Hne : c <> pt) by (intros ->; eapply Hcn; [apply root_in_tables|done]).
  assert (Hkid : kid (k_mem (hung s pt (Z.of_nat i) c)) pt (Z.of_nat i) = Some c).
  { unfold kid. rewrite hung_entry by done.
    pose proof (page_ok_pa c Hc). unfold PTE_V. rewrite hasbit_mkpte by lia. simpl.
    now rewrite PTE2PA_mkpte by (done || lia). }
  split; [|exact Hkid]. exists [c].
  assert (Hothers : forall q, q ∈ others (k_mem s) l pt i -> q ∈ tables (k_mem s) (S l) pt /\ q <> pt).
  { intros q Hq. pose proof Hnd as Hnd'. rewrite (tables_split (k_mem s) l pt i Hi) in Hnd'.
    apply NoDup_cons in Hnd' as [Hx _]. split.
    - rewrite (tables_split (k_mem s) l pt i Hi). apply elem_of_cons. right.
      apply elem_of_app. now right.
    - intros ->. apply Hx, elem_of_app. now right. }
  split; [done|]. split; [|split; [|split]].
  - apply free_pages_frame with (kalloc_state c s); [now apply free_pages_alloc|done|].
    intros x a Hx Ha. unfold hung, kalloc_state. kred. pose proof (entry_bounds pt (Z.of_nat i) ltac:(lia)).
    assert (aligned x) by apply page_ok_aligned, Hpl', Hx.
    assert (x <> c). { intros ->. destruct Hf as (_ & Hndf & _). apply NoDup_cons in Hndf as [? _]. done. }
    rewrite (st64_same_page _ _ _ pt x); try done; [|intros ->|lia|lia].
    + now apply (fill_same_page _ c 0 x).
    + apply (Hdis x); [apply root_in_tables|]. apply elem_of_cons. now right.
  - apply (grows_extend _ _ _ _ i); try done; [|now apply hung_zero; try lia].
    split.
    + intros j Hj Hji. unfold kid. rewrite hung_entry_other; auto; lia.
    + intros q Hq. destruct (Hothers q Hq). apply hung_pages; auto; lia.
  - intros q Hq Hqt Hqc. apply hung_pages; auto; [|now apply not_elem_of_cons in Hqc as [? _]|lia].
    intros ->. apply Hqt, root_in_tables.
  - unfold hung, same_but_mem. now destruct s.
Qed.

(** [walk(pagetable, va, 1)] on a well-formed table never panics: it finds
    the entry, adding tables where needed, or runs out of pages. *)
Lemma walk_levels_alloc lvl : forall pt s fl va,
  tree_ok s lvl pt fl -> Lk_kmem ∉ k_held s ->
  exists r s', walk_levels lvl pt va true s = Ret r s' /\ walked s lvl pt fl va r s'.
Proof.
  induction lvl as [|l IH]; intros pt s fl va Hok Hlk.
  - exists (pt + 8 * PX 0 va), s. split; [done|]. exists fl. split; [now apply grown_refl, Hok|]. split; [lia|].
    right. split; [|done]. destruct Hok as (_ & _ & Hpo). inversion Hpo as [|? ? Hpt _]; subst.
    apply page_ok_range in Hpt. pose proof (PX_range 0 va ltac:(lia)). unfold KERNBASE in *. lia.
  - cbn [walk_levels]. krun. pose proof (PX_range (Z.of_nat (S l)) va ltac:(lia)) as Hi.
    set (i := PX (Z.of_nat (S l)) va) in *. fold (entry (k_mem s) pt i).
    destruct (hasbit (entry (k_mem s) pt i) PTE_V) eqn:Hv.
    + set (c := PTE2PA (entry (k_mem s) pt i)).
      assert (Hc : kid (k_mem s) pt i = Some c) by (unfold kid; now rewrite Hv).
      assert (Hok' : tree_ok s l c fl).
      { apply (tree_ok_kid s l pt fl (Z.to_nat i)); [done|lia|]. now rewrite Z2Nat.id by lia. }
      destruct (IH c s fl va Hok' Hlk) as (r & s' & Hr & Hw).
      exists r, s'. split; [exact Hr|]. now apply (walked_kid s l pt fl va c).
    + assert (Hn : kid (k_mem s) pt i = None) by (unfold kid; now rewrite Hv).
      cbn [negb]. destruct fl as [|c fl].
      * rewrite (bind_Ret _ _ _ _ _ (kalloc_run_empty s (proj1 (proj1 Hok)) Hlk)). simpl.
        exists 0, s. split; [done|]. exists []. split; [now apply grown_refl, Hok|]. split; [simpl; lia|].
        left. split_and!; [done|done|simpl; lia].
      * pose proof (proj1 Hok) as Hf. destruct Hf as ([Hc _] & _ & Hpl).
        inversion Hpl as [|? ? Hpc _]; subst. pose proof (page_ok_nonzero _ Hpc) as Hnz.
        rewrite (bind_Ret _ _ _ _ _ (kalloc_run s Hnz Hlk)).
        destruct (Z.eqb_spec (k_freelist s) 0); [done|]. unfold kmemset. krun.
        set (c := k_freelist s) in *.
        destruct (hung_grown s l pt (Z.to_nat i) c fl Hok ltac:(lia)) as [Hg Hkid];
          rewrite ?Z2Nat.id in * by lia; [done|].
        pose proof (grown_tree _ _ _ _ _ _ Hok Hg) as Hok1.
        assert (Hok2 : tree_ok (hung s pt i c) l c fl).
        { apply (tree_ok_kid _ l pt fl (Z.to_nat i)); [done|lia|]. now rewrite Z2Nat.id by lia. }
        destruct (IH c (hung s pt i c) fl va Hok2 Hlk) as (r & s' & Hr & Hw).
        exists r, s'. split; [exact Hr|].
        destruct Hw as (fl' & Hg0 & Hlen & Hend).
        destruct (walked_kid (hung s pt i c) l pt fl va c r s' Hok1 Hkid) as (fl2 & Hg' & _ & Hend').
        { exists fl'. done. }
        assert (fl2 = fl') as ->.
        { destruct Hg' as (n1 & E1 & F1 & _), Hg0 as (n2 & E2 & F2 & _).
          apply (free_pages_unique s'); done. }
        exists fl'. split; [now apply grown_trans with (hung s pt i c) fl|]. simpl. split; [lia|].
        destruct Hend as [(? & ? & ?)|[? _]]; [left; split_and!; lia || done|].
        destruct Hend' as [(? & ? & ?)|?]; [done|by right].
Qed.

(** ** The abstract address space *)

(** The entry of each virtual page number; 0 where nothing is mapped. *)
Definition aspace (m : memory) (root vpn : Z) : Z := pte_of m 2 root (vpn * PGSIZE).

(** Virtual page numbers below [MAXVA]. *)
Definition vpn_ok (vpn : Z) : Prop := 0 <= vpn < MAXVA / PGSIZE.

Lemma find_pte_page m lvl pt va : find_pte m lvl pt (va / PGSIZE * PGSIZE) = find_pte m lvl pt va.
Proof.
  revert pt. induction lvl as [|l IH]; intros pt.
  - simpl. now rewrite PX_page.
  - rewrite !find_pte_S, PX_page by lia. destruct (kid m pt _); [apply IH|done].
Qed.

Lemma aspace_va m root va : aspace m root (va / PGSIZE) = pte_of m 2 root va.
Proof. unfold aspace, pte_of. now rewrite find_pte_page. Qed.

(** What a routine may do to memory: the tree stays well formed with free
    pages [fl'], and pages that are neither tables nor free before or
    after are untouched. *)
Definition vm_trans (s s' : kstate) (root : Z) (fl fl' : list Z) : Prop :=
  vm_inv s' root fl' /\ same_but_mem s s' /\
  (forall q, aligned q -> q ∉ tables (k_mem s) 2 root -> q ∉ fl -> q ∉ fl' ->
             same_page (k_mem s) (k_mem s') q) /\
  (forall q, q ∈ tables (k_mem s') 2 root -> q ∈ tables (k_mem s) 2 root \/ q ∈ fl).

Lemma vm_trans_refl s root fl : vm_inv s root fl -> vm_trans s s root fl fl.
Proof. intros. split_and!; try done; [apply same_but_mem_refl|tauto]. Qed.

(** Composition, when the middle free list has no page that is neither
    free before nor after. *)
Lemma vm_trans_trans s1 s2 s3 root f1 f2 f3 :
  (forall x, x ∈ f2 -> x ∈ f1 \/ x ∈ f3) ->
  vm_trans s1 s2 root f1 f2 -> vm_trans s2 s3 root f2 f3 -> vm_trans s1 s3 root f1 f3.
Proof.
  intros Hsub (I1 & B1 & P1 & T1) (I2 & B2 & P2 & T2). split_and!.
  - done.
  - now apply same_but_mem_trans with s2.
  - intros q Hq Hqt Hq1 Hq3. assert (q ∉ f2) by (intros Hx; destruct (Hsub q Hx); done).
    apply same_page_trans with (k_mem s2); [now apply P1|]. apply P2; try done.
    intros Hx. destruct (T1 q Hx); done.
  - intros q Hq. destruct (T2 q Hq) as [Hq'|Hq']; [auto|].
    destruct (Hsub q Hq') as [?|Hq3]; [auto|]. exfalso.
    destruct I2 as (_ & Hnd & _). apply NoDup_app in Hnd as (_ & Hd & _). now apply (Hd q).
Qed.

Lemma grown_vm_trans s s' root fl fl' :
  vm_inv s root fl -> grown s s' 2 root fl fl' ->
  vm_trans s s' root fl fl' /\ (forall vpn, aspace (k_mem s') root vpn = aspace (k_mem s) root vpn) /\
  (forall x, x ∈ fl' -> x ∈ fl) /\
  tables (k_mem s') 2 root ++ fl' ≡ₚ tables (k_mem s) 2 root ++ fl.
Proof.
  intros Hi Hg. pose proof (grown_tree _ _ _ _ _ _ Hi Hg) as Hi'.
  destruct Hg as (news & -> & Hf & (T & F & P) & Hs & B). split_and!; try done.
  - split_and!; try done.
    + intros q Hq Hqt Hq1 Hq2. apply Hs; try done. intros Hn. apply Hq1, elem_of_app. now left.
    + intros q. rewrite T, elem_of_app, <- (Permutation_rev news), elem_of_app. tauto.
  - intros vpn. apply P.
  - intros x Hx. apply elem_of_app. now right.
  - rewrite T, <- Permutation_rev. rewrite (Permutation_app_comm news), <- app_assoc. done.
Qed.

(** Rewriting the entry of [va]. *)
Lemma set_pte s root fl va a v :
  vm_inv s root fl -> 0 <= va < MAXVA -> find_pte (k_mem s) 2 root va = Some a -> 0 <= v < 2 ^ 64 ->
  let s' := set_k_mem (st64 (k_mem s) a v) s in
  vm_trans s s' root fl fl /\
  forall vpn, vpn_ok vpn ->
    aspace (k_mem s') root vpn = if vpn =? va / PGSIZE then v else aspace (k_mem s) root vpn.
Proof.
  intros Hi Hva Ha Hv s'. destruct (tree_ok_facts _ _ _ _ Hi) as (Hf & Hnd & Hpo & Hal & Hpl & Hdis).
  destruct (leaf_store (k_mem s) 2 root va a v Hnd Hal Ha) as [HT HF].
  destruct (find_pte_in _ _ _ _ _ Ha) as (p & Hp & Hap).
  pose proof (PX_range 0 va ltac:(lia)) as Hpx. pose proof (entry_bounds p (PX 0 va) Hpx) as Hb.
  rewrite Forall_forall in Hal, Hpl.
  assert (Hpages : forall q, aligned q -> q <> p -> same_page (k_mem s) (k_mem s') q).
  { intros q Hq Hne. apply (st64_same_page _ _ _ p); auto; lia. }
  split.
  - split_and!.
    + unfold vm_inv, tree_ok, s'. kred. rewrite HT. split_and!; [|apply Hi|done].
      apply free_pages_frame with s; [done|done|]. intros x b Hx Hb'.
      apply (Hpages x); [apply page_ok_aligned, Hpl, Hx| |done]. intros ->. now apply (Hdis p).
    + apply same_but_mem_st.
    + intros q Hq Hqt _ _. apply Hpages; [done|]. intros ->. done.
    + intros q. unfold s'. kred. rewrite HT. tauto.
  - intros vpn Hvpn. unfold s'. kred. unfold aspace, pte_of. rewrite HF.
    destruct (Z.eqb_spec vpn (va / PGSIZE)) as [->|Hne].
    + rewrite find_pte_page, Ha. now apply ld64_st64_same.
    + destruct (find_pte (k_mem s) 2 root (vpn * PGSIZE)) as [a'|] eqn:Ha'; [|done].
      apply ld64_st64_other.
      destruct (find_pte_distinct _ _ _ _ _ _ _ Hnd ltac:(now apply Forall_forall) Ha Ha')
        as [Heq|Hd]; [|lia].
      exfalso. apply Hne. unfold vpn_ok in Hvpn.
      assert (Hb2 : 0 <= vpn * PGSIZE < MAXVA).
      { change (MAXVA / PGSIZE) with 67108864 in Hvpn. change MAXVA with 274877906944.
        unfold PGSIZE. lia. }
      pose proof (PX_inj va (vpn * PGSIZE) Hva Hb2 (Heq 2 ltac:(lia)) (Heq 1 ltac:(lia)) (Heq 0 ltac:(lia))) as E.
      rewrite E. symmetry. apply Z.div_mul. discriminate.
Qed.

Lemma set_pte_tables s root fl va a v :
  vm_inv s root fl -> find_pte (k_mem s) 2 root va = Some a ->
  tables (st64 (k_mem s) a v) 2 root = tables (k_mem s) 2 root.
Proof.
  intros Hi Ha. destruct (tree_ok_facts _ _ _ _ Hi) as (_ & Hnd & _ & Hal & _).
  now apply (leaf_store (k_mem s) 2 root va a v).
Qed.

(** ** [mappages] *)

(** [k] consecutive pages from virtual page [v0], mapped to consecutive
    physical pages from [pa]. *)
Definition map_range (A : Z -> Z) (v0 k pa perm : Z) : Z -> Z := fun vpn =>
  if (v0 <=? vpn) && (vpn <? v0 + k)
  then mkpte (pa + (vpn - v0) * PGSIZE) (Z.lor perm PTE_V) else A vpn.

Lemma map_range_0 A v0 pa perm vpn : map_range A v0 0 pa perm vpn = A vpn.
Proof.
  unfold map_range. destruct (Z.leb_spec v0 vpn), (Z.ltb_spec vpn (v0 + 0)); simpl; lia || done.
Qed.

Lemma map_range_S A v0 k pa perm vpn :
  0 <= k ->
  (if vpn =? v0 + k then mkpte (pa + k * PGSIZE) (Z.lor perm PTE_V) else map_range A v0 k pa perm vpn) =
  map_range A v0 (k + 1) pa perm vpn.
Proof.
  intros Hk. unfold map_range.
  destruct (Z.eqb_spec vpn (v0 + k)) as [E|E], (Z.leb_spec v0 vpn), (Z.ltb_spec vpn (v0 + k)),
    (Z.ltb_spec vpn (v0 + (k + 1))); simpl; try lia; try done.
  do 2 f_equal. lia.
Qed.

Lemma walk_alloc s root fl va :
  vm_inv s root fl -> Lk_kmem ∉ k_held s -> 0 <= va < MAXVA ->
  exists r s', walk root va true s = Ret r s' /\ walked s 2 root fl va r s'.
Proof.
  intros Hi Hlk Hva. unfold walk. rewrite Z.geb_leb.
  destruct (Z.leb_spec MAXVA va); [lia|]. now apply walk_levels_alloc.
Qed.

(** The loop state of [mappages] after [k] pages; the pages it takes from
    the free list are those it adds to the tables. *)
Definition mapped (s s1 : kstate) (root : Z) (fl fl1 : list Z) (v0 k pa perm : Z) : Prop :=
  vm_trans s s1 root fl fl1 /\ (forall x, x ∈ fl1 -> x ∈ fl) /\
  tables (k_mem s1) 2 root ++ fl1 ≡ₚ tables (k_mem s) 2 root ++ fl /\
  forall vpn, vpn_ok vpn -> aspace (k_mem s1) root vpn = map_range (aspace (k_mem s) root) v0 k pa perm vpn.

Lemma vm_trans_held s s' root fl fl' : vm_trans s s' root fl fl' -> k_held s' = k_held s.
Proof. intros (_ & B & _). now apply same_but_mem_held. Qed.

Lemma vpn_ok_va va : 0 <= va < MAXVA -> vpn_ok (va / PGSIZE).
Proof.
  intros H. unfold vpn_ok. change (MAXVA / PGSIZE) with 67108864.
  change MAXVA with 274877906944 in H. unfold PGSIZE. Z.div_mod_to_equations. lia.
Qed.

(** One round: the entry of the next page is found, or memory runs out. *)
Lemma mapped_step s s1 root fl fl1 v0 k pa perm a :
  Lk_kmem ∉ k_held s -> mapped s s1 root fl fl1 v0 k pa perm -> 0 <= k ->
  a = (v0 + k) * PGSIZE -> 0 <= v0 -> 0 <= a < MAXVA ->
  0 <= pa -> pa + k * PGSIZE < 2 ^ 56 -> 0 <= perm < 1024 ->
  hasbit (aspace (k_mem s) root (v0 + k)) PTE_V = false ->
  exists r s2 fl2, walk root a true s1 = Ret r s2 /\ mapped s s2 root fl fl2 v0 k pa perm /\
    (length fl1 <= length fl2 + 2)%nat /\
    ((r = 0 /\ fl2 = [] /\ (length fl1 < 2)%nat) \/
     (r <> 0 /\ hasbit (ld64 (k_mem s2) r) PTE_V = false /\
      mapped s (set_k_mem (st64 (k_mem s2) r (mkpte (pa + k * PGSIZE) (Z.lor perm PTE_V))) s2)
             root fl fl2 v0 (k + 1) pa perm)).
Proof.
  intros Hlk (HT & Hsub & Hcons & Has) Hk Ha Hv0 Hva Hpa Hpa2 Hperm Hnv.
  pose proof HT as (Hi1 & _).
  destruct (walk_alloc s1 root fl1 a Hi1) as (r & s2 & Hw & fl2 & Hg & Hlen & Hr);
    [now rewrite (vm_trans_held _ _ _ _ _ HT)|done|].
  destruct (grown_vm_trans _ _ _ _ _ Hi1 Hg) as (HT2 & Has2 & Hsub2 & Hcons2).
  assert (HTT : vm_trans s s2 root fl fl2).
  { apply vm_trans_trans with s1 fl1; auto. }
  exists r, s2, fl2. split; [done|]. split.
  { split; [done|]. split; [auto|]. split; [now rewrite Hcons2|].
    intros vpn Hvpn. rewrite Has2. auto. }
  split; [done|]. destruct Hr as [?|[Hnz Hfp]]; [now left|right]. split; [done|].
  assert (Hdiv : a / PGSIZE = v0 + k) by (rewrite Ha; apply Z.div_mul; discriminate).
  assert (Hent : ld64 (k_mem s2) r = aspace (k_mem s) root (v0 + k)).
  { pose proof (Has2 (a / PGSIZE)) as E. rewrite Has in E by now apply vpn_ok_va.
    rewrite aspace_va in E. unfold pte_of in E. rewrite Hfp in E. rewrite E, Hdiv.
    unfold map_range. destruct (Z.ltb_spec (v0 + k) (v0 + k)); [lia|]. now rewrite andb_false_r. }
  rewrite Hent. split; [done|].
  assert (Hv : 0 <= mkpte (pa + k * PGSIZE) (Z.lor perm PTE_V) < 2 ^ 64).
  { apply mkpte_range; [unfold PGSIZE in *; lia|]. apply (lor_range _ _ 10); unfold PTE_V; lia. }
  destruct (set_pte s2 root fl2 a r _ ltac:(apply HT2) Hva Hfp Hv) as [HT3 Has3].
  split; [|split; [|split]].
  - apply vm_trans_trans with s2 fl2; auto.
  - auto.
  - kred. rewrite (set_pte_tables s2 root fl2 a r _ ltac:(apply HT2) Hfp). now rewrite Hcons2.
  - intros vpn Hvpn. rewrite Has3 by done. rewrite <- map_range_S by done. rewrite Hdiv.
    destruct (vpn =? v0 + k); [done|]. rewrite Has2. auto.
Qed.

(** [mappages] on a well-formed page table never panics when the target
    pages are unmapped. It returns 0 with exactly the pages from [va] to
    [va+size-1] mapped to consecutive physical pages from [pa] with
    permission [perm|PTE_V], or -1 when no page is left for a table, with
    a prefix of them mapped. Every other virtual page keeps its entry,
    the table stays well formed, and no page outside the table and the
    free list is written. *)
Lemma mappages_spec s root fl va size pa perm :
  vm_inv s root fl -> Lk_kmem ∉ k_held s ->
  0 <= va -> 0 < size -> va + size <= MAXVA ->
  0 <= pa -> pa + size + PGSIZE < 2 ^ 56 -> 0 <= perm < 1024 ->
  (forall vpn, va / PGSIZE <= vpn <= (va + size - 1) / PGSIZE ->
               hasbit (aspace (k_mem s) root vpn) PTE_V = false) ->
  exists r s' fl' k, mappages root va size pa perm s = Ret r s' /\
    mapped s s' root fl fl' (va / PGSIZE) k pa perm /\
    let npages := (va + size - 1) / PGSIZE - va / PGSIZE + 1 in
    Z.of_nat (length fl) <= Z.of_nat (length fl') + 2 * npages /\
    ((r = 0 /\ k = npages) \/
     (r = -1 /\ fl' = [] /\ 0 <= k < npages /\ Z.of_nat (length fl) < 2 * npages)).
Proof.
  intros Hi Hlk Hva Hsz Hmax Hpa Hpamax Hperm Hfree.
  change MAXVA with 274877906944 in Hmax.
  set (v0 := va / PGSIZE) in *. set (vl := (va + size - 1) / PGSIZE) in *.
  assert (Hv : 0 <= v0 <= vl /\ vl < 67108864 /\ (vl - v0) * PGSIZE <= size + PGSIZE).
  { unfold v0, vl, PGSIZE. Z.div_mod_to_equations. lia. }
  unfold mappages. destruct (Z.eqb_spec size 0); [lia|].
  rewrite (u64_small (va + size - 1)) by lia. rewrite !PGROUNDDOWN_div. fold v0 vl.
  apply (loop_measure _
    (fun '(a, pa1) s1 => exists k fl1, 0 <= k <= vl - v0 /\ a = (v0 + k) * PGSIZE /\
        pa1 = pa + k * PGSIZE /\ mapped s s1 root fl fl1 v0 k pa perm /\
        Z.of_nat (length fl) <= Z.of_nat (length fl1) + 2 * k)
    (fun '(a, _) _ => Z.to_nat (vl * PGSIZE - a))
    (fun o => exists r s' fl' k, o = Ret r s' /\ mapped s s' root fl fl' v0 k pa perm /\
       Z.of_nat (length fl) <= Z.of_nat (length fl') + 2 * (vl - v0 + 1) /\
       ((r = 0 /\ k = vl - v0 + 1) \/
        (r = -1 /\ fl' = [] /\ 0 <= k < vl - v0 + 1 /\ Z.of_nat (length fl) < 2 * (vl - v0 + 1))))).
  - intros [a pa1] s1 (k & fl1 & Hk & Ha & Hpa1 & Hm & Hc).
    assert (Hb : 0 <= a < MAXVA) by (change MAXVA with 274877906944; unfold PGSIZE in *; lia).
    destruct (mapped_step s s1 root fl fl1 v0 k pa perm a) as (r & s2 & fl2 & Hw & Hm2 & Hc2 & Hr);
      try done; try (unfold PGSIZE in *; lia); [apply Hfree; lia|].
    krun. destruct Hr as [(-> & -> & Hc3)|(Hnz & Hnv & Hm3)].
    + right; left. exists (-1), s2. split; [done|].
      exists (-1), s2, [], k. split; [done|]. split; [done|]. simpl in *. split; [lia|].
      right. split; [done|]. split; [done|lia].
    + destruct (Z.eqb_spec r 0); [done|]. krun. rewrite Hnv. krun.
      rewrite (u64_small perm) by lia. rewrite <- Z.lor_assoc, Hpa1.
      fold (mkpte (pa + k * PGSIZE) (Z.lor perm PTE_V)).
      destruct (Z.eqb_spec a (vl * PGSIZE)) as [E|E].
      * right; left. do 2 eexists. split; [reflexivity|].
        do 2 eexists. exists fl2, (k + 1). split; [reflexivity|]. split; [exact Hm3|].
        unfold PGSIZE in *. split; [lia|]. left. split; [done|]. lia.
      * left. do 2 eexists. split; [reflexivity|]. unfold PGSIZE in *.
        rewrite !u64_small by lia. split; [|lia].
        exists (k + 1), fl2. split; [lia|]. split; [lia|]. split; [lia|]. split; [exact Hm3|lia].
  - exists 0, fl. split; [lia|]. split; [unfold PGSIZE; lia|]. split; [unfold PGSIZE; lia|].
    split; [|lia]. split; [now apply vm_trans_refl|]. split; [done|]. split; [done|].
    intros vpn _. now rewrite map_range_0.
  - unfold PGSIZE. lia.
Qed.

(** ** [walkaddr] and reading a page table *)

Lemma find_pte_nonzero s root fl va a :
  vm_inv s root fl -> find_pte (k_mem s) 2 root va = Some a -> a <> 0.
Proof.
  intros Hi Ha. destruct (tree_ok_facts _ _ _ _ Hi) as (_ & _ & Hpo & _).
  destruct (find_pte_in _ _ _ _ _ Ha) as (p & Hp & ->). rewrite Forall_forall in Hpo.
  pose proof (page_ok_range p (Hpo p Hp)). pose proof (PX_range 0 va ltac:(lia)).
  unfold KERNBASE in *. lia.
Qed.

(** [walk(pagetable, va, 0)] returns a null pointer, or a pointer to the
    entry the abstract address space has at [va]. *)
Lemma walk_read s root fl va :
  vm_inv s root fl -> 0 <= va < MAXVA ->
  exists r, walk root va false s = Ret r s /\
    ((r = 0 /\ aspace (k_mem s) root (va / PGSIZE) = 0) \/
     (r <> 0 /\ find_pte (k_mem s) 2 root va = Some r /\
      ld64 (k_mem s) r = aspace (k_mem s) root (va / PGSIZE))).
Proof.
  intros Hi Hva. unfold walk. rewrite Z.geb_leb. destruct (Z.leb_spec MAXVA va); [lia|].
  rewrite walk_levels_read. rewrite aspace_va. unfold pte_of.
  destruct (find_pte (k_mem s) 2 root va) as [a|] eqn:E.
  - exists a. split; [done|]. right. split; [now apply (find_pte_nonzero s root fl va)|done].
  - exists 0. split; [done|]. now left.
Qed.

(** The physical page a user access to [va] reaches, 0 if none. *)
Definition user_pa (A : Z -> Z) (va : Z) : Z :=
  if va >=? MAXVA then 0
  else
    let v := A (va / PGSIZE) in
    if hasbit v PTE_V && hasbit v PTE_U then PTE2PA v else 0.

(** [walkaddr] returns the physical page of [va] exactly when [va] is
    below [MAXVA] and its entry is valid and user-accessible, and 0
    otherwise; it changes nothing. *)
Lemma walkaddr_spec s root fl va :
  vm_inv s root fl -> 0 <= va ->
  walkaddr root va s = Ret (user_pa (aspace (k_mem s) root) va) s.
Proof.
  intros Hi Hva. unfold walkaddr, user_pa. rewrite Z.geb_leb.
  destruct (Z.leb_spec MAXVA va); [done|].
  destruct (walk_read s root fl va Hi ltac:(lia)) as (r & Hw & [[-> E]|(Hnz & _ & E)]); krun.
  - now rewrite E.
  - destruct (Z.eqb_spec r 0); [done|]. krun. rewrite E.
    destruct (hasbit _ PTE_V); [|done]. cbn [negb andb]. destruct (hasbit _ PTE_U); done.
Qed.

(** ** [uvmunmap] *)

Lemma kfree_vm s root fl pa :
  vm_inv s root fl -> page_ok pa -> pa ∉ tables (k_mem s) 2 root -> pa ∉ fl ->
  vm_trans s (kfree_state pa s) root fl (pa :: fl) /\
  tables (k_mem (kfree_state pa s)) 2 root = tables (k_mem s) 2 root /\
  (forall va, find_pte (k_mem (kfree_state pa s)) 2 root va = find_pte (k_mem s) 2 root va) /\
  (forall vpn, aspace (k_mem (kfree_state pa s)) root vpn = aspace (k_mem s) root vpn).
Proof.
  intros Hi Hpa Hnt Hnf. destruct (tree_ok_facts _ _ _ _ Hi) as (Hf & Hnd & Hpo & Hal & Hpl & Hdis).
  rewrite Forall_forall in Hal. pose proof (page_ok_aligned pa Hpa) as Hpal.
  assert (Hpages : forall q, aligned q -> q <> pa -> same_page (k_mem s) (k_mem (kfree_state pa s)) q).
  { intros q Hq Hne. unfold kfree_state. kred.
    eapply same_page_trans; [apply (fill_same_page _ pa 1 q); auto|].
    apply (st64_same_page _ _ _ pa); auto; unfold PGSIZE; lia. }
  assert (Htab : forall p, p ∈ tables (k_mem s) 2 root -> same_page (k_mem s) (k_mem (kfree_state pa s)) p).
  { intros p Hp. apply Hpages; [auto|]. intros ->. done. }
  pose proof (tables_frame _ _ _ _ Htab) as HT. split; [split; [|split; [|split]]|split_and!].
  - unfold vm_inv, tree_ok. rewrite HT. split_and!; [now apply free_pages_free| |].
    + destruct Hi as (_ & Hnd2 & _). rewrite <- Permutation_middle. apply NoDup_cons. split; [|done].
      rewrite elem_of_app. tauto.
    + done.
  - unfold same_but_mem, kfree_state. now destruct s.
  - intros q Hq Hqt Hq1 Hq2. apply Hpages; [done|]. intros ->. apply Hq2, elem_of_cons. now left.
  - rewrite HT. tauto.
  - exact HT.
  - intros va. now apply find_pte_frame.
  - intros vpn. unfold aspace. now apply pte_of_frame.
Qed.

Definition unmap_range (A : Z -> Z) (v0 k : Z) : Z -> Z := fun vpn =>
  if (v0 <=? vpn) && (vpn <? v0 + k) then 0 else A vpn.

(** The physical pages of [k] virtual pages from [v0], last one first. *)
Definition freed (A : Z -> Z) (v0 : Z) (k : nat) : list Z :=
  rev (map (fun i => PTE2PA (A (v0 + Z.of_nat i))) (seq 0 k)).

Lemma freed_S A v0 k : freed A v0 (S k) = PTE2PA (A (v0 + Z.of_nat k)) :: freed A v0 k.
Proof. unfold freed. now rewrite seq_S, map_app, rev_app_distr. Qed.

(** The pages [k] from [v0] are leaves that may be unmapped and, if
    [do_free], whose frames may be given back. *)
Definition unmappable (s : kstate) (root : Z) (fl : list Z) (v0 : Z) (k : nat) (do_free : bool) : Prop :=
  (forall i, 0 <= i < Z.of_nat k ->
     hasbit (aspace (k_mem s) root (v0 + i)) PTE_V = true /\
     PTE_FLAGS (aspace (k_mem s) root (v0 + i)) <> PTE_V) /\
  (do_free = true ->
     NoDup (freed (aspace (k_mem s) root) v0 k ++ tables (k_mem s) 2 root ++ fl) /\
     Forall page_ok (freed (aspace (k_mem s) root) v0 k)).

Definition free_after (A : Z -> Z) (v0 : Z) (k : nat) (do_free : bool) (fl : list Z) : list Z :=
  if do_free then freed A v0 k ++ fl else fl.

(** The loop state of [uvmunmap] after [k] pages. *)
Definition unmapped (s s1 : kstate) (root : Z) (fl : list Z) (v0 : Z) (k : nat) (do_free : bool) : Prop :=
  let fl1 := free_after (aspace (k_mem s) root) v0 k do_free fl in
  vm_trans s s1 root fl fl1 /\ tables (k_mem s1) 2 root = tables (k_mem s) 2 root /\
  forall vpn, vpn_ok vpn ->
    aspace (k_mem s1) root vpn = unmap_range (aspace (k_mem s) root) v0 (Z.of_nat k) vpn.

Lemma unmap_range_S A v0 k vpn :
  0 <= k -> (if vpn =? v0 + k then 0 else unmap_range A v0 k vpn) = unmap_range A v0 (k + 1) vpn.
Proof.
  intros Hk. unfold unmap_range.
  destruct (Z.eqb_spec vpn (v0 + k)), (Z.leb_spec v0 vpn), (Z.ltb_spec vpn (v0 + k)),
    (Z.ltb_spec vpn (v0 + (k + 1))); simpl; try lia; done.
Qed.

(** Freeing (or keeping) the frame and clearing the entry of page [v0+k]. *)
Lemma unmapped_step s s1 root fl v0 k n do_free a :
  unmapped s s1 root fl v0 k do_free -> unmappable s root fl v0 n do_free -> (k < n)%nat ->
  Lk_kmem ∉ k_held s -> a = (v0 + Z.of_nat k) * PGSIZE -> 0 <= v0 -> 0 <= a < MAXVA ->
  let v := aspace (k_mem s) root (v0 + Z.of_nat k) in
  exists r s2, walk root a false s1 = Ret r s1 /\ r <> 0 /\ ld64 (k_mem s1) r = v /\
    when do_free (kfree (PTE2PA v)) s1 = Ret tt s2 /\
    unmapped s (set_k_mem (st64 (k_mem s2) r 0) s2) root fl v0 (S k) do_free.
Proof.
  intros (HT & Htab & Has) (Hleaf & Hfr) Hk Hlk Ha Hv0 Hb v.
  pose proof HT as (Hi1 & _).
  assert (Hdiv : a / PGSIZE = v0 + Z.of_nat k) by (rewrite Ha; apply Z.div_mul; discriminate).
  assert (Hvpn : vpn_ok (v0 + Z.of_nat k)) by (rewrite <- Hdiv; now apply vpn_ok_va).
  assert (Hv : aspace (k_mem s1) root (v0 + Z.of_nat k) = v).
  { rewrite Has by done. unfold unmap_range, v.
    destruct (Z.ltb_spec (v0 + Z.of_nat k) (v0 + Z.of_nat k)); [lia|]. now rewrite andb_false_r. }
  destruct (Hleaf (Z.of_nat k) ltac:(lia)) as [HV _]. fold v in HV.
  destruct (walk_read s1 root _ a Hi1 Hb) as (r & Hw & [[_ E]|(Hnz & Hfp & E)]); rewrite Hdiv, Hv in E.
  { rewrite E in HV. discriminate. }
  exists r.
  assert (Hmid : exists s2, when do_free (kfree (PTE2PA v)) s1 = Ret tt s2 /\
     vm_trans s s2 root fl (free_after (aspace (k_mem s) root) v0 (S k) do_free fl) /\
     tables (k_mem s2) 2 root = tables (k_mem s) 2 root /\
     find_pte (k_mem s2) 2 root a = Some r /\
     forall vpn, aspace (k_mem s2) root vpn = aspace (k_mem s1) root vpn).
  { unfold free_after in *. destruct do_free.
    2:{ exists s1. split; [reflexivity|]. split; [exact HT|]. split; [exact Htab|]. split; [exact Hfp|]. reflexivity. }
    destruct (Hfr eq_refl) as [Hnd Hok]. rewrite freed_S.
    set (F := freed (aspace (k_mem s) root) v0) in *. fold v.
    assert (Hx : exists G, F n = G ++ PTE2PA v :: F k).
    { unfold F, freed. replace n with (k + (1 + (n - k - 1)))%nat by lia.
      rewrite seq_app, map_app, rev_app_distr. simpl. rewrite <- app_assoc.
      eexists. f_equal. }
    destruct Hx as (G & HG). rewrite HG in Hnd, Hok.
    apply Forall_app in Hok as [_ Hok]. inversion Hok as [|? ? Hpv _]; subst.
    rewrite <- app_assoc in Hnd. apply NoDup_app in Hnd as (_ & _ & Hnd).
    apply NoDup_cons in Hnd as [Hnin _]. rewrite !elem_of_app in Hnin.
    exists (kfree_state (PTE2PA v) s1). split.
    { apply kfree_run; [done|]. now rewrite (vm_trans_held _ _ _ _ _ HT). }
    destruct (kfree_vm s1 root (F k ++ fl) (PTE2PA v)) as (HT2 & Ht2 & Hf2 & Ha2); try done.
    { rewrite Htab. tauto. } { rewrite elem_of_app. tauto. }
    split_and!; [|congruence|now rewrite Hf2|done].
    apply (vm_trans_trans s s1 _ root fl (F k ++ fl)); [|done|done].
    intros x Hx. right. apply elem_of_cons. now right. }
  destruct Hmid as (s2 & Hrun & HT2 & Ht2 & Hf2 & Ha2).
  exists s2. split; [done|]. split; [done|]. split; [done|]. split; [done|].
  destruct (set_pte s2 root _ a r 0 ltac:(apply HT2) Hb Hf2 ltac:(lia)) as [HT3 Ha3].
  split; [|split].
  - eapply vm_trans_trans; [|exact HT2|exact HT3]. auto.
  - kred. rewrite (set_pte_tables s2 root _ a r 0 ltac:(apply HT2) Hf2). exact Ht2.
  - intros vpn Hvp. rewrite Ha3 by done. rewrite Nat2Z.inj_succ, <- Z.add_1_r, <- unmap_range_S by lia.
    rewrite Hdiv. destruct (vpn =? v0 + Z.of_nat k); [done|]. rewrite Ha2. auto.
Qed.

(** [uvmunmap] of [npages] mapped leaf pages from the page-aligned
    address [va] terminates without panic; afterwards exactly these
    pages are unmapped, their frames are on the free list if [do_free] is
    set (and nothing is freed otherwise), the page table keeps its
    tables, and every other virtual page keeps its entry. *)
Lemma uvmunmap_spec s root fl va npages do_free :
  vm_inv s root fl -> Lk_kmem ∉ k_held s ->
  va mod PGSIZE = 0 -> 0 <= va -> va + Z.of_nat npages * PGSIZE <= MAXVA ->
  unmappable s root fl (va / PGSIZE) npages do_free ->
  exists s', uvmunmap root va (Z.of_nat npages) do_free s = Ret tt s' /\
    unmapped s s' root fl (va / PGSIZE) npages do_free.
Proof.
  intros Hi Hlk Hal Hva Hmax Hun. unfold uvmunmap. rewrite Hal. cbn [Z.eqb negb].
  change MAXVA with 274877906944 in Hmax. rewrite u64_small by (unfold PGSIZE in *; lia).
  set (v0 := va / PGSIZE) in *.
  assert (Hv0 : va = v0 * PGSIZE /\ 0 <= v0) by (unfold v0, PGSIZE in *; Z.div_mod_to_equations; lia).
  destruct Hv0 as [Hv0 Hv0p].
  apply (loop_measure _
    (fun a s1 => exists k, (k <= npages)%nat /\ a = (v0 + Z.of_nat k) * PGSIZE /\
                           unmapped s s1 root fl v0 k do_free)
    (fun a _ => Z.to_nat (va + Z.of_nat npages * PGSIZE - a))
    (fun o => exists s', o = Ret tt s' /\ unmapped s s' root fl v0 npages do_free)).
  - intros a s1 (k & Hk & Ha & Hu). destruct (Z.ltb_spec a (va + Z.of_nat npages * PGSIZE)) as [Hlt|Hge].
    + assert (Hkn : (k < npages)%nat) by (unfold PGSIZE in *; lia).
      destruct (unmapped_step s s1 root fl v0 k npages do_free a) as (r & s2 & Hw & Hnz & Hld & Hfree & Hu2);
        try done; try (change MAXVA with 274877906944; unfold PGSIZE in *; lia).
      destruct (proj1 Hun (Z.of_nat k) ltac:(lia)) as [HV HF].
      left. krun. destruct (Z.eqb_spec r 0); [done|]. krun. rewrite Hld, HV. cbn [negb].
      destruct (Z.eqb_spec (PTE_FLAGS (aspace (k_mem s) root (v0 + Z.of_nat k))) PTE_V); [done|].
      krun. do 2 eexists. split; [reflexivity|]. unfold PGSIZE in *. rewrite u64_small by lia.
      split; [|lia]. exists (S k). split; [lia|]. split; [lia|]. exact Hu2.
    + right; left. exists tt, s1. split; [done|]. exists s1. split; [done|].
      replace npages with k by (unfold PGSIZE in *; lia). exact Hu.
  - exists 0%nat. split; [lia|]. split; [lia|]. split; [|split; [done|]].
    + unfold free_after, freed. simpl. destruct do_free; now apply vm_trans_refl.
    + intros vpn _. unfold unmap_range. change (Z.of_nat 0) with 0. rewrite Z.add_0_r.
      destruct (Z.leb_spec v0 vpn), (Z.ltb_spec vpn v0); simpl; reflexivity || lia.
  - unfold PGSIZE in *. lia.
Qed.
End Walk.

(** From here on the tree is used through its lemmas only. *)
#[global] Opaque tables find_pte pte_of.
