(* ===== verification/VmUser.v ===== *)
(** * User memory: growing, shrinking, copying and freeing address spaces

    The theorems on [uvmalloc], [uvmdealloc], [copyin], [copyout],
    [freewalk], [uvmfree], [uvmcopy] and [uvmcopyshared] of kernel/vm.c,
    over the page-table theory of [VmFacts]. *)

From S2P Require Import Prelude Machine State Kalloc Vm VmFacts.
From Stdlib Require Import Permutation.

Section VmUser.
Context {LAY : Layout}.

(** ** Taking a page for user memory *)

(** The head of the free list is taken and only its contents change. *)
Definition taken (s : kstate) (x : Z) (m : memory) : kstate :=
  set_k_mem m (set_k_freelist (ld64 (k_mem s) x) s).

Lemma take_page s root x fl m :
  vm_inv s root (x :: fl) ->
  (forall q, aligned q -> q <> x -> same_page (k_mem s) m q) ->
  let s' := taken s x m in
  vm_trans s s' root (x :: fl) fl /\
  tables m 2 root = tables (k_mem s) 2 root /\
  (forall vpn, aspace m root vpn = aspace (k_mem s) root vpn).
Proof.
  intros Hi Hm s'. destruct (tree_ok_facts _ _ _ _ Hi) as (Hf & Hnd & Hpo & Hal & Hpl & Hdis).
  rewrite Forall_forall in Hal.
  assert (Hx : forall p, p ∈ tables (k_mem s) 2 root -> p <> x).
  { intros p Hp ->. apply (Hdis x Hp), elem_of_cons. by left. }
  assert (Htab : forall p, p ∈ tables (k_mem s) 2 root -> same_page (k_mem s) m p) by auto.
  pose proof (tables_frame _ _ _ _ Htab) as HT.
  split; [split; [|split; [|split]]|split].
  - unfold vm_inv, tree_ok, s', taken. kred. rewrite HT. split_and!; [| |done].
    + destruct Hf as ([Hx0 Hc] & Hndf & Hokf). apply NoDup_cons in Hndf as [Hxn Hndf].
      inversion Hokf as [|? ? _ Hokl]; subst. split; [|done]. kred.
      apply chain_frame with (k_mem s); [|exact Hc]. intros y a Hy Ha.
      rewrite Forall_forall in Hokl. apply (Hm y); [by apply page_ok_aligned, Hokl| |done].
      intros ->. done.
    + destruct Hi as (_ & Hnd2 & _). rewrite <- Permutation_middle in Hnd2. apply NoDup_cons in Hnd2. apply Hnd2.
  - unfold same_but_mem, s', taken. by destruct s.
  - intros q Hq _ Hq1 _. apply Hm; [done|]. intros ->. apply Hq1, elem_of_cons. by left.
  - unfold s', taken. kred. rewrite HT. tauto.
  - exact HT.
  - intros vpn. unfold aspace. by apply pte_of_frame.
Qed.

(** ** [uvmdealloc] *)

(** Number of pages from [lo] up to [hi], both rounded up. *)
Definition pages_between (lo hi : Z) : nat := Z.to_nat ((PGROUNDUP hi - PGROUNDUP lo) / PGSIZE).

Lemma uvmdealloc_spec s root fl oldsz newsz :
  vm_inv s root fl -> Lk_kmem ∉ k_held s -> 0 <= newsz <= MAXVA -> 0 <= oldsz <= MAXVA ->
  unmappable s root fl (PGROUNDUP newsz / PGSIZE) (pages_between newsz oldsz) true ->
  exists s', uvmdealloc root oldsz newsz s = Ret (Z.min oldsz newsz) s' /\
    unmapped s s' root fl (PGROUNDUP newsz / PGSIZE) (pages_between newsz oldsz) true.
Proof.
  intros Hi Hlk Hn Hmax Hun. unfold uvmdealloc. rewrite Z.geb_leb.
  assert (Hnone : pages_between newsz oldsz = 0%nat ->
     unmapped s s root fl (PGROUNDUP newsz / PGSIZE) (pages_between newsz oldsz) true).
  { intros ->. split; [|split; [done|]]; [by apply vm_trans_refl|].
    intros vpn _. unfold unmap_range. change (Z.of_nat 0) with 0. rewrite Z.add_0_r.
    destruct (Z.leb_spec (PGROUNDUP newsz / PGSIZE) vpn), (Z.ltb_spec vpn (PGROUNDUP newsz / PGSIZE));
      simpl; reflexivity || lia. }
  change MAXVA with 274877906944 in Hn, Hmax.
  assert (Hb : forall z, 0 <= z <= 274877906944 ->
            z <= PGROUNDUP z < z + PGSIZE /\ PGROUNDUP z mod PGSIZE = 0).
  { intros. split; [apply PGROUNDUP_bounds|apply PGROUNDUP_aligned]; unfold PGSIZE; lia. }
  destruct (Hb newsz ltac:(lia)) as [Hn1 Hn2]. destruct (Hb oldsz ltac:(lia)) as [Ho1 Ho2].
  destruct (Z.leb_spec oldsz newsz) as [Hle|Hgt].
  - exists s. rewrite Z.min_l by lia. split; [done|]. apply Hnone. unfold pages_between.
    set (lo := PGROUNDUP newsz) in *. set (hi := PGROUNDUP oldsz) in *.
    enough (hi - lo <= 0) by (unfold PGSIZE in *; Z.div_mod_to_equations; lia).
    unfold PGSIZE in *. Z.div_mod_to_equations. lia.
  - rewrite Z.min_r by lia.
    set (lo := PGROUNDUP newsz) in *. set (hi := PGROUNDUP oldsz) in *.
    destruct (Z.ltb_spec lo hi) as [Hlt|Hge].
    + assert (Hnp : (hi - lo) / PGSIZE = Z.of_nat (pages_between newsz oldsz)).
      { unfold pages_between. fold lo hi. rewrite Z2Nat.id; [done|]. apply Z.div_pos; unfold PGSIZE; lia. }
      assert (Hnb : Z.of_nat (pages_between newsz oldsz) * PGSIZE <= hi - lo).
      { rewrite <- Hnp. unfold PGSIZE. Z.div_mod_to_equations. lia. }
      rewrite Hnp, i32_small, u64_small by (unfold PGSIZE in *; lia).
      destruct (uvmunmap_spec s root fl lo (pages_between newsz oldsz) true) as (s' & Hr & Hu); try done.
      { lia. } { change MAXVA with 274877906944. unfold PGSIZE in *. Z.div_mod_to_equations. lia. }
      exists s'. krun. split; [done|exact Hu].
    + exists s. split; [done|]. apply Hnone. unfold pages_between. fold lo hi.
      replace hi with lo; [by rewrite Z.sub_diag|].
      unfold PGSIZE in *. Z.div_mod_to_equations. lia.
Qed.
(** ** [uvmalloc] *)

(** The permissions [uvmalloc] gives, with the valid bit. *)
Definition USER_RWX : Z := Z.lor (Z.lor (Z.lor PTE_W PTE_X) PTE_R) PTE_U.

(** Pages [us] mapped from virtual page [v0] on. *)
Definition alloc_range (A : Z -> Z) (v0 : Z) (us : list Z) : Z -> Z := fun vpn =>
  if v0 <=? vpn
  then match us !! Z.to_nat (vpn - v0) with
       | Some p => mkpte p (Z.lor USER_RWX PTE_V)
       | None => A vpn
       end
  else A vpn.

(** The loop state of [uvmalloc]: the zeroed pages [us], taken from the free
    list, are mapped from [v0]; every page taken is one of them or a new
    table. *)
Definition alloced (s s1 : kstate) (root : Z) (fl fl1 : list Z) (v0 : Z) (us : list Z) : Prop :=
  vm_trans s s1 root fl fl1 /\ (forall x, x ∈ us \/ x ∈ fl1 -> x ∈ fl) /\
  us ++ tables (k_mem s1) 2 root ++ fl1 ≡ₚ tables (k_mem s) 2 root ++ fl /\
  Forall (zero_page (k_mem s1)) us /\
  forall vpn, vpn_ok vpn ->
    aspace (k_mem s1) root vpn = alloc_range (aspace (k_mem s) root) v0 us vpn.

Lemma alloc_range_nil A v0 vpn : alloc_range A v0 [] vpn = A vpn.
Proof. unfold alloc_range. destruct (v0 <=? vpn); [|done]. by rewrite lookup_nil. Qed.

Lemma alloc_range_next A v0 us :
  alloc_range A v0 us (v0 + Z.of_nat (length us)) = A (v0 + Z.of_nat (length us)).
Proof.
  unfold alloc_range. destruct (v0 <=? _); [|done].
  rewrite lookup_ge_None_2; [done|lia].
Qed.

Lemma alloc_range_snoc A v0 us x vpn :
  map_range (alloc_range A v0 us) (v0 + Z.of_nat (length us)) 1 x USER_RWX vpn =
  alloc_range A v0 (us ++ [x]) vpn.
Proof.
  unfold map_range, alloc_range. set (n := Z.of_nat (length us)).
  destruct (Z.leb_spec (v0 + n) vpn), (Z.ltb_spec vpn (v0 + n + 1)), (Z.leb_spec v0 vpn);
    cbn [andb]; try lia; try done.
  - assert (vpn = v0 + n) as -> by lia. replace (Z.to_nat (v0 + n - v0)) with (length us) by lia.
    rewrite list_lookup_middle by done. do 2 f_equal. lia.
  - rewrite !lookup_ge_None_2; [done| |lia]. rewrite length_app. simpl. lia.
  - rewrite lookup_app_l by lia. done.
Qed.

(** The frames of a well-formed loop state are pages of their own. *)
Lemma alloced_frames s s1 root fl fl1 v0 us :
  vm_inv s root fl -> alloced s s1 root fl fl1 v0 us ->
  NoDup (us ++ tables (k_mem s1) 2 root ++ fl1) /\ Forall page_ok us.
Proof.
  intros Hi (_ & Hsub & HP & _). destruct (tree_ok_facts _ _ _ _ Hi) as (_ & _ & _ & _ & Hpl & _).
  rewrite Forall_forall in Hpl. split; [rewrite HP; apply Hi|].
  apply Forall_forall. intros x Hx. apply Hpl, Hsub. by left.
Qed.

(** The page just allocated and zeroed. *)
Definition zeroed (s : kstate) (x : Z) : kstate :=
  taken s x (fill (fill (k_mem s) x 5 PGSIZE) x 0 PGSIZE).

Lemma alloc_zeroed s x fl :
  free_pages s (x :: fl) -> Lk_kmem ∉ k_held s ->
  kalloc s = Ret x (kalloc_state x s) /\ x <> 0 /\
  kmemset x 0 PGSIZE (kalloc_state x s) = Ret tt (zeroed s x).
Proof.
  intros ([<- _] & _ & Hok) Hlk. inversion Hok as [|? ? Hpx _]; subst.
  pose proof (page_ok_nonzero _ Hpx) as Hnz. split; [by apply kalloc_run|].
  split; [done|]. by destruct s.
Qed.

Lemma zeroed_pages s x : aligned x ->
  (forall q, aligned q -> q <> x -> same_page (k_mem s) (k_mem (zeroed s x)) q) /\
  zero_page (k_mem (zeroed s x)) x.
Proof.
  intros Hx. split.
  - intros q Hq Hne. unfold zeroed, taken. kred.
    eapply same_page_trans; apply fill_same_page; auto.
  - intros a Ha. unfold zeroed, taken. kred. rewrite fill_inside by done. reflexivity.
Qed.

(** Pages no longer in the page table's reach keep their zeros. *)
Lemma zero_page_same m m' p : zero_page m p -> same_page m m' p -> zero_page m' p.
Proof. intros Hz Hs a Ha. rewrite Hs by done. by apply Hz. Qed.

Lemma alloced_zero_kept s s1 s2 root fl fl1 fl2 v0 us :
  vm_inv s root fl -> alloced s s1 root fl fl1 v0 us ->
  vm_trans s1 s2 root fl1 fl2 -> (forall x, x ∈ fl2 -> x ∈ fl1) ->
  Forall (zero_page (k_mem s2)) us.
Proof.
  intros Hi Hal (_ & _ & Hpg & _) Hsub. destruct (alloced_frames _ _ _ _ _ _ _ Hi Hal) as [HND Hok].
  destruct Hal as (_ & _ & _ & Hz & _). rewrite Forall_forall in Hz, Hok.
  apply NoDup_app in HND as (_ & HD & _). apply Forall_forall. intros p Hp.
  apply (zero_page_same (k_mem s1)); [by apply Hz|]. specialize (HD p Hp). rewrite elem_of_app in HD.
  apply Hpg; [by apply page_ok_aligned, Hok|tauto|tauto|]. intros H%Hsub. tauto.
Qed.

(** One page: the allocated page is mapped next, or is given back. *)
Lemma alloced_step s s1 root fl x fl2 v0 us a :
  vm_inv s root fl -> Lk_kmem ∉ k_held s -> alloced s s1 root fl (x :: fl2) v0 us ->
  a = (v0 + Z.of_nat (length us)) * PGSIZE -> 0 <= v0 -> a + PGSIZE <= MAXVA ->
  aspace (k_mem s) root (v0 + Z.of_nat (length us)) = 0 ->
  exists r s4 fl4, mappages root a PGSIZE x USER_RWX (zeroed s1 x) = Ret r s4 /\
    ((r = 0 /\ alloced s s4 root fl fl4 v0 (us ++ [x]) /\ (length fl2 <= length fl4 + 2)%nat) \/
     (r = -1 /\ (length fl2 < 2)%nat /\ page_ok x /\ (Lk_kmem ∉ k_held s4) /\
      alloced s (kfree_state x s4) root fl [x] v0 us)).
Proof.
  intros Hi Hlk Hal Ha Hv0 Hmax Hfree. destruct (alloced_frames _ _ _ _ _ _ _ Hi Hal) as [HND Hokus].
  pose proof Hal as (HT1 & Hsub & HP & Hz & Has). pose proof HT1 as (Hi1 & _).
  destruct (tree_ok_facts _ _ _ _ Hi1) as (Hf1 & _ & _ & _ & Hpl & Hdis).
  inversion Hpl as [|? ? Hpx Hpl2]; subst.
  destruct (zeroed_pages s1 x (page_ok_aligned x Hpx)) as [Hzp Hzx].
  destruct (take_page s1 root x fl2 _ Hi1 Hzp) as (HT3 & Ht3 & Ha3). change (taken s1 x _) with (zeroed s1 x) in HT3.
  pose proof HT3 as (Hi3 & _). set (k := Z.of_nat (length us)) in *.
  assert (Hdiv : (v0 + k) * PGSIZE / PGSIZE = v0 + k) by (apply Z.div_mul; discriminate).
  assert (Hdiv2 : ((v0 + k) * PGSIZE + PGSIZE - 1) / PGSIZE = v0 + k).
  { unfold PGSIZE. Z.div_mod_to_equations. lia. }
  assert (Hvpn : vpn_ok (v0 + k)).
  { unfold vpn_ok. change (MAXVA / PGSIZE) with 67108864. change MAXVA with 274877906944 in Hmax.
    unfold PGSIZE in Hmax. lia. }
  assert (Hlk3 : Lk_kmem ∉ k_held (zeroed s1 x)).
  { rewrite (vm_trans_held _ _ _ _ _ HT3), (vm_trans_held _ _ _ _ _ HT1). done. }
  pose proof (page_ok_pa x Hpx) as Hxr.
  destruct (mappages_spec (zeroed s1 x) root fl2 ((v0 + k) * PGSIZE) PGSIZE x USER_RWX)
    as (r & s4 & fl4 & k4 & Hmp & (HT4 & Hsub4 & Hcons4 & Has4) & Hlen4 & Hres); try done;
    try (apply page_ok_range in Hpx; unfold KERNBASE, PHYSTOP, KERNBASE, PGSIZE in *; lia).
  { intros vpn. rewrite Hdiv, Hdiv2. intros Hv. assert (vpn = v0 + k) as -> by lia.
    unfold zeroed, taken. kred. rewrite Ha3, Has by done. unfold k. rewrite alloc_range_next. fold k.
    by rewrite Hfree. }
  rewrite Hdiv in *. rewrite Hdiv2 in *. cbv zeta in Hlen4, Hres.
  exists r, s4, fl4. split; [done|].
  assert (HT14 : vm_trans s1 s4 root (x :: fl2) fl4).
  { apply vm_trans_trans with (zeroed s1 x) fl2; try done. intros y Hy. left. by apply elem_of_cons; right. }
  assert (HT04 : vm_trans s s4 root fl fl4) by (apply vm_trans_trans with s1 (x :: fl2); auto).
  assert (Hx4 : (x ∉ tables (k_mem s1) 2 root) /\ (x ∉ fl2)).
  { apply NoDup_app in HND as (_ & _ & HND). rewrite <- Permutation_middle in HND.
    apply NoDup_cons in HND as [HND _]. rewrite elem_of_app in HND. tauto. }
  assert (Hz4 : forall q, q ∈ fl4 -> q ∈ x :: fl2).
  { intros q Hq. apply elem_of_cons. right. auto. }
  pose proof (alloced_zero_kept _ _ _ _ _ _ _ _ _ Hi Hal HT14 Hz4) as Hus4.
  assert (HP4 : (us ++ [x]) ++ tables (k_mem s4) 2 root ++ fl4 ≡ₚ tables (k_mem s) 2 root ++ fl).
  { rewrite Hcons4, Ht3, <- HP, <- app_assoc. simpl. f_equiv. by rewrite <- Permutation_middle. }
  destruct Hres as [[-> ->]|(-> & -> & Hk4 & Hlen)].
  - left. split; [done|]. split; [|lia]. split; [done|]. split; [|split; [exact HP4|split]].
    + intros y [Hy|Hy]; [|apply Hsub; right; auto]. apply elem_of_app in Hy as [Hy|Hy]; [auto|].
      apply list_elem_of_singleton in Hy as ->. apply Hsub. right. by apply elem_of_cons; left.
    + apply Forall_app. split; [done|]. apply Forall_singleton.
      apply (zero_page_same (k_mem (zeroed s1 x))); [done|]. apply HT4; try tauto.
      * by apply page_ok_aligned.
      * rewrite Ht3. tauto.
      * intros Hy%Hsub4. tauto.
    + intros vpn Hv. rewrite Has4 by done. replace (v0 + k - (v0 + k) + 1) with 1 by lia.
      rewrite <- alloc_range_snoc. fold k. unfold map_range. rewrite Ha3, Has by done. done.
  - assert (k4 = 0) as -> by lia.
    right. split; [done|]. split; [lia|]. split; [done|].
    split; [by rewrite (vm_trans_held _ _ _ _ _ HT04)|].
    assert (Hxt : x ∉ tables (k_mem s4) 2 root).
    { intros Hx. destruct HT4 as (_ & _ & _ & HTx). apply HTx in Hx. rewrite Ht3 in Hx. tauto. }
    destruct (kfree_vm s4 root [] x (proj1 HT4) Hpx Hxt (not_elem_of_nil x)) as (HT5 & Ht5 & _ & Ha5).
    assert (Hin : forall y, y ∈ [x] -> y ∈ x :: fl2).
    { intros y ->%list_elem_of_singleton. by apply elem_of_cons; left. }
    assert (HT15 : vm_trans s1 (kfree_state x s4) root (x :: fl2) [x]).
    { apply vm_trans_trans with s4 []; [|exact HT14|exact HT5]. intros y []%elem_of_nil. }
    split; [|split; [|split; [|split]]].
    + apply vm_trans_trans with s1 (x :: fl2); auto.
    + intros y [Hy|Hy]; apply Hsub; [by left|right; auto].
    + rewrite Ht5, <- HP4, app_nil_r, <- app_assoc. f_equiv. by rewrite Permutation_app_comm.
    + by apply (alloced_zero_kept s s1 _ root fl (x :: fl2) [x] v0).
    + intros vpn Hv. rewrite Ha5, Has4 by done. rewrite map_range_0, Ha3. auto.
Qed.

Lemma alloc_range_in A v0 us i p :
  0 <= i -> us !! Z.to_nat i = Some p -> alloc_range A v0 us (v0 + i) = mkpte p (Z.lor USER_RWX PTE_V).
Proof.
  intros Hi Hp. unfold alloc_range. destruct (Z.leb_spec v0 (v0 + i)); [|lia].
  by replace (v0 + i - v0) with i by lia; rewrite Hp.
Qed.

(** Frames mapped by [alloc_range], read back from the entries. *)
Lemma freed_alloced B A v0 us :
  (forall i, 0 <= i < Z.of_nat (length us) -> B (v0 + i) = alloc_range A v0 us (v0 + i)) ->
  Forall page_ok us -> freed B v0 (length us) = rev us.
Proof.
  intros HB Hok. unfold freed. f_equal. apply list_eq. intros i.
  rewrite list_lookup_fmap. destruct (decide (i < length us)%nat) as [Hi|Hi].
  - rewrite lookup_seq_lt by done. destruct (lookup_lt_is_Some_2 us i Hi) as [p Hp].
    simpl. rewrite HB by lia. rewrite (alloc_range_in _ _ _ _ p) by (lia || by rewrite Nat2Z.id).
    rewrite Hp. f_equal. rewrite Forall_forall in Hok.
    pose proof (Hok p (list_elem_of_lookup_2 _ _ _ Hp)) as Hpk.
    apply PTE2PA_mkpte; [by apply page_ok_pa|by apply page_ok_aligned|vm_compute; intuition congruence].
  - rewrite lookup_seq_ge by lia. symmetry. apply lookup_ge_None_2. lia.
Qed.

(** Undoing a partial allocation gives every page back. *)
Lemma alloced_undo s s1 root fl fl1 v0 us :
  vm_inv s root fl -> Lk_kmem ∉ k_held s -> alloced s s1 root fl fl1 v0 us -> 0 <= v0 ->
  (v0 + Z.of_nat (length us)) * PGSIZE <= MAXVA ->
  (forall i, 0 <= i < Z.of_nat (length us) -> aspace (k_mem s) root (v0 + i) = 0) ->
  exists r s2 fl2, uvmdealloc root ((v0 + Z.of_nat (length us)) * PGSIZE) (v0 * PGSIZE) s1 = Ret r s2 /\
    vm_trans s s2 root fl fl2 /\ tables (k_mem s2) 2 root ++ fl2 ≡ₚ tables (k_mem s) 2 root ++ fl /\
    forall vpn, vpn_ok vpn -> aspace (k_mem s2) root vpn = aspace (k_mem s) root vpn.
Proof.
  intros Hi Hlk Hal Hv0 Hmax Hz. destruct (alloced_frames _ _ _ _ _ _ _ Hi Hal) as [HND Hok].
  destruct Hal as (HT & Hsub & HP & _ & Has). change MAXVA with 274877906944 in Hmax.
  assert (Hru : forall z, 0 <= z <= v0 + Z.of_nat (length us) -> PGROUNDUP (z * PGSIZE) = z * PGSIZE).
  { intros z ?. apply PGROUNDUP_id; [unfold PGSIZE in *; lia|apply Z.mod_mul; discriminate]. }
  assert (Hn : pages_between (v0 * PGSIZE) ((v0 + Z.of_nat (length us)) * PGSIZE) = length us).
  { unfold pages_between. rewrite !Hru by lia. rewrite <- Z.mul_sub_distr_r, Z.div_mul by discriminate. lia. }
  assert (Hd : PGROUNDUP (v0 * PGSIZE) / PGSIZE = v0) by (rewrite Hru by lia; apply Z.div_mul; discriminate).
  assert (HB : forall i, 0 <= i < Z.of_nat (length us) ->
            aspace (k_mem s1) root (v0 + i) = alloc_range (aspace (k_mem s) root) v0 us (v0 + i)).
  { intros i Hir. apply Has. unfold vpn_ok. change (MAXVA / PGSIZE) with 67108864. unfold PGSIZE in Hmax. lia. }
  pose proof (freed_alloced _ _ _ _ HB Hok) as Hfr.
  destruct (uvmdealloc_spec s1 root fl1 ((v0 + Z.of_nat (length us)) * PGSIZE) (v0 * PGSIZE))
    as (s2 & Hr & Hu); rewrite ?Hn, ?Hd.
  - apply HT.
  - by rewrite (vm_trans_held _ _ _ _ _ HT).
  - change MAXVA with 274877906944. unfold PGSIZE in *. lia.
  - change MAXVA with 274877906944. unfold PGSIZE in *. lia.
  - split.
    + intros i Hir. rewrite HB by done. destruct (lookup_lt_is_Some_2 us (Z.to_nat i)) as [p Hp]; [lia|].
      rewrite (alloc_range_in _ _ _ _ p) by (lia || done). rewrite Forall_forall in Hok.
      pose proof (page_ok_pa p (Hok p (list_elem_of_lookup_2 _ _ _ Hp))) as Hpr.
      rewrite hasbit_mkpte, mkpte_flags by (done || vm_compute; intuition congruence).
      split; [done|discriminate].
    + intros _. rewrite Hfr, <- (Permutation_rev us). done.
  - rewrite Hn, Hd in Hu. destruct Hu as (HT2 & Ht2 & Ha2). unfold free_after in HT2. rewrite Hfr in HT2.
    exists (Z.min ((v0 + Z.of_nat (length us)) * PGSIZE) (v0 * PGSIZE)), s2, (rev us ++ fl1).
    split; [done|]. split; [|split].
    + eapply vm_trans_trans; [|exact HT|exact HT2]. intros x Hx. left. auto.
    + rewrite Ht2, <- HP, <- (Permutation_rev us). by rewrite !app_assoc, (Permutation_app_comm us).
    + intros vpn Hv. rewrite Ha2 by done. unfold unmap_range. rewrite Has by done.
      destruct (Z.leb_spec v0 vpn), (Z.ltb_spec vpn (v0 + Z.of_nat (length us))); cbn [andb].
      * symmetry. replace vpn with (v0 + (vpn - v0)) by lia. apply Hz. lia.
      * unfold alloc_range. destruct (v0 <=? vpn); [|done]. rewrite lookup_ge_None_2 by lia. done.
      * unfold alloc_range. destruct (Z.leb_spec v0 vpn); [lia|done].
      * unfold alloc_range. destruct (Z.leb_spec v0 vpn); [lia|done].
Qed.

(** What [uvmalloc] of [n] pages from [v0] returns: [newsz] with the pages
    mapped; or 0 with everything given back, for want of memory. *)
Definition uvmalloc_post (s : kstate) (root : Z) (fl : list Z) (v0 : Z) (n : nat) (newsz r : Z)
    (s' : kstate) : Prop :=
  exists fl',
    (r = newsz /\ exists us, length us = n /\ alloced s s' root fl fl' v0 us) \/
    (r = 0 /\ (length fl < 3 * n)%nat /\ vm_trans s s' root fl fl' /\
     tables (k_mem s') 2 root ++ fl' ≡ₚ tables (k_mem s) 2 root ++ fl /\
     forall vpn, vpn_ok vpn -> aspace (k_mem s') root vpn = aspace (k_mem s) root vpn).

(** The loop of [uvmalloc] from [v0] to [newsz], all [n] pages unmapped. *)
Lemma uvmalloc_loop s root fl v0 (n : nat) newsz :
  vm_inv s root fl -> Lk_kmem ∉ k_held s -> 0 <= v0 -> (v0 + Z.of_nat n) * PGSIZE <= MAXVA ->
  (v0 + Z.of_nat n) * PGSIZE - PGSIZE < newsz <= (v0 + Z.of_nat n) * PGSIZE ->
  (forall i, 0 <= i < Z.of_nat n -> aspace (k_mem s) root (v0 + i) = 0) ->
  exists r s', loop (fun a =>
      if a <? newsz
      then
        mem <- kalloc ;;
        if mem =? 0
        then uvmdealloc root a (v0 * PGSIZE) ;;; ret (inr 0)
        else
          kmemset mem 0 PGSIZE ;;;
          r <- mappages root a PGSIZE mem USER_RWX ;;
          if negb (r =? 0)
          then kfree mem ;;; uvmdealloc root a (v0 * PGSIZE) ;;; ret (inr 0)
          else ret (inl (u64 (a + PGSIZE)))
      else ret (inr newsz)) (v0 * PGSIZE) s = Ret r s' /\
    uvmalloc_post s root fl v0 n newsz r s'.
Proof.
  intros Hi Hlk Hv0 Hmax Hnew Hz. change MAXVA with 274877906944 in Hmax.
  apply (loop_measure _
    (fun a s1 => exists us fl1, alloced s s1 root fl fl1 v0 us /\ (length us <= n)%nat /\
       a = (v0 + Z.of_nat (length us)) * PGSIZE /\ (length fl <= length fl1 + 3 * length us)%nat)
    (fun a _ => Z.to_nat ((v0 + Z.of_nat n) * PGSIZE - a))
    (fun o => exists r s', o = Ret r s' /\ uvmalloc_post s root fl v0 n newsz r s')).
  - intros a s1 (us & fl1 & Hal & Hus & Ha & Hcost).
    destruct (Z.ltb_spec a newsz) as [Hlt|Hge].
    2:{ right; left. do 2 eexists. split; [done|]. do 2 eexists. split; [done|]. exists fl1. left.
        split; [done|]. exists us. split; [unfold PGSIZE in *; lia|done]. }
    assert (Hk : (length us < n)%nat) by (unfold PGSIZE in *; lia).
    assert (Hmx : (v0 + Z.of_nat (length us)) * PGSIZE + PGSIZE <= MAXVA).
    { change MAXVA with 274877906944. unfold PGSIZE in *. lia. }
    assert (Hlk1 : Lk_kmem ∉ k_held s1).
    { destruct Hal as (HT & _). by rewrite (vm_trans_held _ _ _ _ _ HT). }
    pose proof (proj1 (proj1 Hal)) as Hi1.
    destruct fl1 as [|x fl2].
    + destruct (alloced_undo s s1 root fl [] v0 us) as (r & s2 & fl2 & Hr & HT2 & HP2 & Ha2);
        [done|done|done|done|lia|intros; apply Hz; lia|].
      rewrite <- Ha in Hr. pose proof (kalloc_run_empty s1 (proj1 (proj1 Hi1)) Hlk1) as Hka.
      right; left. krun. cbn [Z.eqb]. krun. do 2 eexists. split; [done|]. do 2 eexists. split; [done|].
      exists fl2. right.
      split; [done|]. split; [simpl in Hcost; lia|]. done.
    + destruct (alloced_step s s1 root fl x fl2 v0 us a) as (r & s4 & fl4 & Hmp & Hres);
        [done|done|done|done|done|lia|apply Hz; lia|].
      destruct (alloc_zeroed s1 x fl2 (proj1 Hi1) Hlk1) as (Hka & Hnz & Hms).
      krun. destruct (Z.eqb_spec x 0); [done|]. krun.
      destruct Hres as [(-> & Hal4 & Hc4)|(-> & Hc4 & Hpx & Hlk4 & Hal5)]; cbn [negb Z.eqb].
      * left. do 2 eexists. split; [done|]. rewrite u64_small by (unfold PGSIZE in *; lia).
        split; [|unfold PGSIZE in *; lia]. exists (us ++ [x]), fl4. rewrite length_app. simpl in *.
        split; [done|]. split; [lia|]. split; [unfold PGSIZE in *; lia|lia].
      * pose proof (kfree_run x s4 Hpx Hlk4) as Hkf.
        destruct (alloced_undo s _ root fl [x] v0 us Hi Hlk Hal5 Hv0) as (r & s6 & fl6 & Hr & HT6 & HP6 & Ha6);
          [lia|intros; apply Hz; lia|].
        rewrite <- Ha in Hr. right; left. krun. do 2 eexists. split; [done|]. do 2 eexists. split; [done|].
        exists fl6. right. split; [done|]. split; [simpl in Hcost; lia|]. done.
  - exists [], fl. split; [|simpl; split; [lia|split; [lia|lia]]].
    split; [by apply vm_trans_refl|]. split; [|split; [done|split; [done|]]].
    + intros x [Hx|Hx]; [by apply elem_of_nil in Hx|done].
    + intros vpn _. by rewrite alloc_range_nil.
  - unfold PGSIZE in *. lia.
Qed.

(** C28: [uvmalloc] on a well-formed page table whose pages between the two
    (rounded) sizes are unmapped never panics. Either it returns [newsz]
    and exactly these pages are mapped user-accessible to distinct, zeroed
    pages taken from the free list; or it returns 0, every page is back on
    the free list or in a page-table node, and no mapping has changed.
    With three free pages per page requested it succeeds. *)
Theorem uvmalloc_correct s root fl oldsz newsz :
  vm_inv s root fl -> Lk_kmem ∉ k_held s -> 0 <= oldsz <= newsz -> newsz <= MAXVA ->
  (forall vpn, PGROUNDUP oldsz / PGSIZE <= vpn < PGROUNDUP newsz / PGSIZE ->
               aspace (k_mem s) root vpn = 0) ->
  exists r s', uvmalloc root oldsz newsz s = Ret r s' /\
    uvmalloc_post s root fl (PGROUNDUP oldsz / PGSIZE) (pages_between oldsz newsz) newsz r s'.
Proof.
  intros Hi Hlk Hsz Hmax Hz. unfold uvmalloc. destruct (Z.ltb_spec newsz oldsz); [lia|].
  change MAXVA with 274877906944 in Hmax.
  assert (Hb : forall z, 0 <= z <= 274877906944 ->
            z <= PGROUNDUP z < z + PGSIZE /\ PGROUNDUP z = PGROUNDUP z / PGSIZE * PGSIZE).
  { intros z Hzr. split; [apply PGROUNDUP_bounds; unfold PGSIZE; lia|].
    pose proof (PGROUNDUP_aligned z ltac:(unfold PGSIZE; lia)). unfold PGSIZE in *.
    Z.div_mod_to_equations. lia. }
  destruct (Hb oldsz ltac:(lia)) as [Ho1 Ho2]. destruct (Hb newsz ltac:(lia)) as [Hn1 Hn2].
  set (v0 := PGROUNDUP oldsz / PGSIZE) in *. set (vn := PGROUNDUP newsz / PGSIZE) in *.
  assert (Hnv : pages_between oldsz newsz = Z.to_nat (vn - v0)).
  { unfold pages_between. rewrite Ho2, Hn2. rewrite <- Z.mul_sub_distr_r, Z.div_mul by discriminate. done. }
  assert (Hv : 0 <= v0 <= vn /\ vn * PGSIZE <= 274877906944).
  { unfold v0, PGSIZE in *. Z.div_mod_to_equations. lia. }
  rewrite Hnv, Ho2.
  apply uvmalloc_loop; rewrite ?Z2Nat.id by lia; [done|done|lia| | |].
  - change MAXVA with 274877906944. unfold PGSIZE in *. lia.
  - unfold PGSIZE in *. lia.
  - intros i Hir. apply Hz. lia.
Qed.

(** ** [copyin] and [copyout] *)

(** Where a user access to [va] lands in physical memory. *)
Definition phys (A : Z -> Z) (va : Z) : Z := user_pa A va + va mod PGSIZE.

(** The bytes a user read of [n] bytes at [va] sees. *)
Definition uread (m : memory) (root va : Z) (n : nat) : list Z :=
  map (fun i => u8 (m (phys (aspace m root) (va + Z.of_nat i)))) (seq 0 n).

(** Every byte of the range is mapped user-accessible. *)
Definition accessible (A : Z -> Z) (va : Z) (n : nat) : Prop :=
  forall i, 0 <= i < Z.of_nat n -> user_pa A (va + i) <> 0.

Lemma user_pa_page A va i :
  0 <= va -> 0 <= i -> va mod PGSIZE + i < PGSIZE -> user_pa A (va + i) = user_pa A va.
Proof.
  intros Hva Hi Ho. unfold user_pa. rewrite !Z.geb_leb.
  assert ((va + i) / PGSIZE = va / PGSIZE) as -> by (unfold PGSIZE in *; Z.div_mod_to_equations; lia).
  change MAXVA with 274877906944.
  destruct (Z.leb_spec 274877906944 (va + i)), (Z.leb_spec 274877906944 va); try done;
    unfold PGSIZE in *; Z.div_mod_to_equations; lia.
Qed.

Lemma user_pa_down A va : 0 <= va -> user_pa A (PGROUNDDOWN va) = user_pa A va.
Proof.
  intros Hva. pose proof (PGROUNDDOWN_le va). pose proof (PGROUNDDOWN_aligned va) as Hal.
  replace va with (PGROUNDDOWN va + (va - PGROUNDDOWN va)) at 2 by lia. symmetry. apply user_pa_page.
  - rewrite PGROUNDDOWN_div. unfold PGSIZE. Z.div_mod_to_equations. lia.
  - lia.
  - rewrite Hal. lia.
Qed.

Lemma phys_page A va i :
  0 <= va -> 0 <= i -> va mod PGSIZE + i < PGSIZE -> phys A (va + i) = phys A va + i.
Proof.
  intros Hva Hi Ho. unfold phys. rewrite user_pa_page by done.
  rewrite <- Z.add_assoc. f_equal. unfold PGSIZE in *. Z.div_mod_to_equations. lia.
Qed.

Lemma length_uread m root va n : length (uread m root va n) = n.
Proof. unfold uread. by rewrite length_map, length_seq. Qed.

Lemma uread_app m root va n1 n2 :
  uread m root va (n1 + n2) = uread m root va n1 ++ uread m root (va + Z.of_nat n1) n2.
Proof.
  unfold uread. rewrite seq_app, map_app. f_equal. rewrite map_seq_shift.
  apply map_ext. intros i. do 3 f_equal. lia.
Qed.

(** Within one page the bytes are contiguous. *)
Lemma uread_page m root va n :
  0 <= va -> va mod PGSIZE + Z.of_nat n <= PGSIZE ->
  rdbytes m (phys (aspace m root) va) n = uread m root va n.
Proof.
  intros Hva Hn. unfold rdbytes, uread. apply map_ext_in. intros i Hi%in_seq.
  by rewrite phys_page by lia.
Qed.

Definition chunk (va len : Z) : Z :=
  let n0 := PGSIZE - (va - PGROUNDDOWN va) in if n0 >? len then len else n0.

Lemma chunk_bounds va len : 0 < len ->
  0 < chunk va len <= len /\ va mod PGSIZE + chunk va len <= PGSIZE /\
  (chunk va len < len -> PGROUNDDOWN va + PGSIZE = va + chunk va len).
Proof.
  intros Hl. unfold chunk. pose proof (PGROUNDDOWN_le va). rewrite PGROUNDDOWN_eq in *.
  rewrite Z.gtb_ltb. destruct (Z.ltb_spec len (PGSIZE - (va - (va - va mod PGSIZE)))); unfold PGSIZE in *; lia.
Qed.

Lemma accessible_app A va n1 n2 :
  accessible A va n1 -> accessible A (va + Z.of_nat n1) n2 -> accessible A va (n1 + n2).
Proof.
  intros H1 H2 i Hi. destruct (decide (i < Z.of_nat n1)); [apply H1; lia|].
  replace (va + i) with (va + Z.of_nat n1 + (i - Z.of_nat n1)) by lia. apply H2. lia.
Qed.

Lemma accessible_page A va n :
  0 <= va -> va mod PGSIZE + Z.of_nat n <= PGSIZE -> user_pa A va <> 0 -> accessible A va n.
Proof. intros Hva Hn Hp i Hi. rewrite user_pa_page; [done|lia|lia|lia]. Qed.

(** [copyin] reads exactly the bytes user code would read, or fails on a
    range that is not accessible; it changes nothing. *)
Lemma copyin_spec s root fl va n :
  vm_inv s root fl -> 0 <= va -> va + Z.of_nat n + PGSIZE <= 2 ^ 64 ->
  exists r l, copyin root va (Z.of_nat n) s = Ret (r, l) s /\
    ((r = 0 /\ accessible (aspace (k_mem s) root) va n /\ l = uread (k_mem s) root va n) \/
     (r = -1 /\ ~ accessible (aspace (k_mem s) root) va n)).
Proof.
  intros Hi Hva Hmax. set (A := aspace (k_mem s) root).
  apply (loop_measure _
    (fun '(va1, len, dst) s1 => s1 = s /\ exists k, (k <= n)%nat /\ len = Z.of_nat (n - k) /\
       dst = uread (k_mem s) root va k /\ accessible A va k /\ (0 < len -> va1 = va + Z.of_nat k))
    (fun '(_, len, _) _ => Z.to_nat len)
    (fun o => exists r l, o = Ret (r, l) s /\
       ((r = 0 /\ accessible A va n /\ l = uread (k_mem s) root va n) \/ (r = -1 /\ ~ accessible A va n)))).
  - intros [[va1 len] dst] s1 (-> & k & Hk & Hlen & Hdst & Hacc & Hva1). rewrite Z.gtb_ltb.
    destruct (Z.ltb_spec 0 len) as [Hpos|Hz].
    2:{ right; left. do 2 eexists. split; [done|]. do 2 eexists. split; [done|]. left.
        assert (k = n) as -> by lia. done. }
    specialize (Hva1 Hpos). cbv zeta. fold (chunk va1 len).
    destruct (chunk_bounds va1 len Hpos) as (Hc1 & Hc2 & Hc3).
    assert (Hd0 : 0 <= PGROUNDDOWN va1).
    { rewrite PGROUNDDOWN_div. unfold PGSIZE. Z.div_mod_to_equations. lia. }
    pose proof (walkaddr_spec s root fl (PGROUNDDOWN va1) Hi Hd0) as Hw. fold A in Hw.
    rewrite user_pa_down in Hw by lia. krun.
    destruct (Z.eqb_spec (user_pa A va1) 0) as [E|E].
    + right; left. do 2 eexists. split; [done|]. do 2 eexists. split; [done|]. right. split; [done|].
      intros H. apply (H (Z.of_nat k)); [lia|]. by rewrite <- Hva1.
    + left. krun. do 2 eexists. split; [done|]. split; [|lia]. split; [done|].
      exists (k + Z.to_nat (chunk va1 len))%nat. split; [lia|]. split; [lia|]. split_and!.
      * rewrite Hdst, uread_app, <- Hva1. f_equal. rewrite <- uread_page by lia. fold A. f_equal.
        unfold phys. rewrite PGROUNDDOWN_eq. lia.
      * apply accessible_app; [done|]. rewrite <- Hva1. apply accessible_page; lia || done.
      * intros Hl. rewrite Hc3 by lia. rewrite u64_small by (unfold PGSIZE in *; lia). lia.
  - split; [done|]. exists 0%nat. split; [lia|]. split; [lia|]. split; [done|]. split; [intros i; lia|lia].
  - unfold PGSIZE in *. lia.
Qed.

(** Memory writes that spare the tables and the free pages. *)
Lemma vm_frame s root fl m :
  vm_inv s root fl ->
  (forall q, q ∈ tables (k_mem s) 2 root \/ q ∈ fl -> same_page (k_mem s) m q) ->
  vm_inv (set_k_mem m s) root fl /\ tables m 2 root = tables (k_mem s) 2 root /\
  forall vpn, aspace m root vpn = aspace (k_mem s) root vpn.
Proof.
  intros Hi Hm.
  assert (Htab : forall p, p ∈ tables (k_mem s) 2 root -> same_page (k_mem s) m p) by auto.
  pose proof (tables_frame _ _ _ _ Htab) as HT. split; [|split; [done|]].
  - unfold vm_inv, tree_ok. kred. rewrite HT. destruct Hi as (Hf & Hnd & Hok). split; [|done].
    apply free_pages_frame with s; [done|done|]. intros x a Hx Ha. apply (Hm x); auto.
  - intros vpn. unfold aspace. by apply pte_of_frame.
Qed.

(** Writes inside a page [x] that is neither a table nor free. *)
Lemma vm_frame_page s root fl x m :
  vm_inv s root fl -> aligned x -> (x ∉ tables (k_mem s) 2 root) -> (x ∉ fl) ->
  (forall a, a < x \/ x + PGSIZE <= a -> m a = k_mem s a) ->
  vm_inv (set_k_mem m s) root fl /\ tables m 2 root = tables (k_mem s) 2 root /\
  forall vpn, aspace m root vpn = aspace (k_mem s) root vpn.
Proof.
  intros Hi Hal Ht Hf Hm. apply vm_frame; [done|].
  destruct (tree_ok_facts _ _ _ _ Hi) as (_ & _ & _ & Halt & Hpl & _). rewrite Forall_forall in Halt, Hpl.
  intros q Hq. assert (Hqa : aligned q) by (destruct Hq; [by apply Halt|by apply page_ok_aligned, Hpl]).
  assert (Hne : q <> x) by (intros ->; tauto).
  intros a Ha. apply Hm. destruct (aligned_disjoint q x) as [?|?]; [done|done|done|lia|lia].
Qed.

Definition uvalid (v : Z) : bool := hasbit v PTE_V && hasbit v PTE_U.

(** The frames of user-accessible pages are neither tables nor free, and no
    frame is mapped twice. *)
Definition user_ok (s : kstate) (root : Z) (fl : list Z) : Prop :=
  (forall vpn, vpn_ok vpn -> uvalid (aspace (k_mem s) root vpn) = true ->
     (PTE2PA (aspace (k_mem s) root vpn) ∉ tables (k_mem s) 2 root) /\
     (PTE2PA (aspace (k_mem s) root vpn) ∉ fl)) /\
  (forall vpn vpn', vpn_ok vpn -> vpn_ok vpn' ->
     uvalid (aspace (k_mem s) root vpn) = true -> uvalid (aspace (k_mem s) root vpn') = true ->
     PTE2PA (aspace (k_mem s) root vpn) = PTE2PA (aspace (k_mem s) root vpn') -> vpn = vpn').

Lemma user_pa_inv A va :
  0 <= va -> user_pa A va <> 0 ->
  vpn_ok (va / PGSIZE) /\ uvalid (A (va / PGSIZE)) = true /\ user_pa A va = PTE2PA (A (va / PGSIZE)).
Proof.
  intros Hva. unfold user_pa, uvalid. rewrite Z.geb_leb. destruct (Z.leb_spec MAXVA va); [done|].
  destruct (hasbit _ PTE_V && _); [|done]. intros _. split; [by apply vpn_ok_va|done].
Qed.

Lemma PTE2PA_aligned v : PTE2PA v mod PGSIZE = 0.
Proof.
  unfold PTE2PA, u64, PGSIZE. rewrite Z.shiftl_mul_pow2 by lia. change (2 ^ 12) with 4096.
  generalize (Z.shiftr v 10). intros x. change (2 ^ 64) with 18446744073709551616.
  Z.div_mod_to_equations. lia.
Qed.

Lemma user_pa_aligned A va : user_pa A va mod PGSIZE = 0.
Proof.
  unfold user_pa. destruct (va >=? MAXVA); [done|]. destruct (_ && _); [apply PTE2PA_aligned|done].
Qed.

Lemma phys_inj s root fl va va' :
  user_ok s root fl -> 0 <= va -> 0 <= va' ->
  user_pa (aspace (k_mem s) root) va <> 0 -> user_pa (aspace (k_mem s) root) va' <> 0 ->
  phys (aspace (k_mem s) root) va = phys (aspace (k_mem s) root) va' -> va = va'.
Proof.
  set (A := aspace (k_mem s) root). intros [_ Hinj] Hva Hva' H H' E. fold A in Hinj.
  pose proof (user_pa_aligned A va) as Ha. pose proof (user_pa_aligned A va') as Ha'.
  destruct (user_pa_inv A va Hva H) as (Hv & Hu & Hp). destruct (user_pa_inv A va' Hva' H') as (Hv' & Hu' & Hp').
  unfold phys in E.
  assert (Eo : va mod PGSIZE = va' mod PGSIZE /\ user_pa A va = user_pa A va').
  { unfold PGSIZE in *. Z.div_mod_to_equations. lia. }
  destruct Eo as [Eo Ef]. rewrite Hp, Hp' in Ef. specialize (Hinj _ _ Hv Hv' Hu Hu' Ef).
  unfold PGSIZE in *. Z.div_mod_to_equations. lia.
Qed.

(** The first [k] bytes of [src] have been stored at user address [va], and
    nothing else has changed. *)
Definition stored (s s1 : kstate) (root : Z) (fl : list Z) (va : Z) (src : list Z) (k : nat) : Prop :=
  s1 = set_k_mem (k_mem s1) s /\ vm_inv s1 root fl /\
  tables (k_mem s1) 2 root = tables (k_mem s) 2 root /\
  (forall vpn, aspace (k_mem s1) root vpn = aspace (k_mem s) root vpn) /\
  (forall j, 0 <= j < Z.of_nat k ->
     k_mem s1 (phys (aspace (k_mem s) root) (va + j)) = nth (Z.to_nat j) src 0) /\
  (forall x, (forall j, 0 <= j < Z.of_nat k -> x <> phys (aspace (k_mem s) root) (va + j)) ->
     k_mem s1 x = k_mem s x).

Lemma stored_chunk s s1 root fl va src k c :
  user_ok s root fl -> 0 <= va -> stored s s1 root fl va src k ->
  let A := aspace (k_mem s) root in
  let va1 := va + Z.of_nat k in
  accessible A va (k + c) -> va1 mod PGSIZE + Z.of_nat c <= PGSIZE -> (0 < c)%nat ->
  (k + c <= length src)%nat ->
  stored s (set_k_mem (wrbytes (k_mem s1) (phys A va1) (take c (drop k src))) s1) root fl va src (k + c).
Proof.
  intros Hu Hva (E1 & Hi1 & Ht1 & Ha1 & Hin & Hout) A va1 Hacc Hc Hc0 Hlen.
  assert (Hl : length (take c (drop k src)) = c) by (rewrite length_take, length_drop; lia).
  assert (Hp : user_pa A va1 <> 0) by (apply Hacc; lia).
  destruct (user_pa_inv A va1 ltac:(lia) Hp) as (Hv & Huv & Hpa).
  destruct (proj1 Hu _ Hv Huv) as [Hnt Hnf]. fold A in Hnt, Hnf. rewrite <- Hpa in Hnt, Hnf.
  pose proof (user_pa_aligned A va1) as Hpal.
  assert (Hph : forall j, 0 <= j < Z.of_nat c -> phys A (va1 + j) = phys A va1 + j).
  { intros j Hj. apply phys_page; lia. }
  set (m2 := wrbytes _ _ _).
  assert (Hpages : forall q, aligned q -> q <> user_pa A va1 -> same_page (k_mem s1) m2 q).
  { intros q Hq Hne a Ha. unfold m2. apply wrbytes_outside. rewrite Hl. unfold phys.
    pose proof (Z.mod_pos_bound va1 PGSIZE ltac:(done)).
    destruct (aligned_disjoint q (user_pa A va1) Hq Hpal Hne); unfold PGSIZE in *; lia. }
  destruct (vm_frame s1 root fl m2 Hi1) as (Hi2 & Ht2 & Ha2).
  { destruct (tree_ok_facts _ _ _ _ Hi1) as (_ & _ & _ & Hal & Hpl & _).
    rewrite Forall_forall in Hal, Hpl. rewrite Ht1 in Hal |- *.
    intros q [Hq|Hq]; (apply Hpages; [|by intros ->]); [by apply Hal|by apply page_ok_aligned, Hpl]. }
  split; [|split; [exact Hi2|split; [|split; [|split]]]]; kred.
  - rewrite E1. by destruct s.
  - by rewrite Ht2.
  - intros vpn. by rewrite Ha2.
  - intros j Hj. fold A. destruct (decide (j < Z.of_nat k)) as [Hjk|Hjk].
    + unfold m2. rewrite wrbytes_outside; [apply Hin; lia|]. rewrite Hl.
      destruct (decide (phys A va1 <= phys A (va + j) < phys A va1 + Z.of_nat c)) as [Hr|Hr]; [exfalso|lia].
      set (i := phys A (va + j) - phys A va1) in *.
      assert (Heq : va + j = va1 + i).
      { apply (phys_inj s root fl _ _ Hu); [lia|lia|apply Hacc; lia| |].
        - unfold va1. rewrite <- Z.add_assoc. apply Hacc. lia.
        - fold A. rewrite Hph by lia. lia. }
      lia.
    + replace (va + j) with (va1 + (j - Z.of_nat k)) by lia. rewrite Hph by lia. unfold m2.
      rewrite wrbytes_inside by lia. replace (phys A va1 + (j - Z.of_nat k) - phys A va1) with (j - Z.of_nat k) by lia.
      rewrite !nth_lookup, lookup_take_lt, lookup_drop by lia. do 2 f_equal. lia.
  - intros x Hx. fold A in Hx. unfold m2. rewrite wrbytes_outside; [apply Hout; intros j Hj; apply Hx; lia|].
    rewrite Hl. destruct (decide (phys A va1 <= x < phys A va1 + Z.of_nat c)) as [Hr|Hr]; [exfalso|lia].
    apply (Hx (Z.of_nat k + (x - phys A va1))); [lia|]. rewrite Z.add_assoc. fold va1. rewrite Hph; lia.
Qed.

Lemma stored_nil s root fl va src : vm_inv s root fl -> stored s s root fl va src 0.
Proof.
  intros Hi. split; [by destruct s|]. split; [exact Hi|]. split; [reflexivity|].
  split; [reflexivity|]. split; [intros j Hj; lia|]. reflexivity.
Qed.

Lemma copyout_spec s root fl va src :
  vm_inv s root fl -> user_ok s root fl -> 0 <= va -> va + Z.of_nat (length src) + PGSIZE <= 2 ^ 64 ->
  exists r s' k, copyout root va src s = Ret r s' /\ stored s s' root fl va src k /\
    ((r = 0 /\ k = length src /\ accessible (aspace (k_mem s) root) va (length src)) \/
     (r = -1 /\ (k < length src)%nat /\ ~ accessible (aspace (k_mem s) root) va (length src))).
Proof.
  intros Hi Hu Hva Hmax. set (A := aspace (k_mem s) root). set (n := length src).
  apply (loop_measure _
    (fun '(va1, rest) s1 => exists k, (k <= n)%nat /\ rest = drop k src /\ stored s s1 root fl va src k /\
       accessible A va k /\ ((k < n)%nat -> va1 = va + Z.of_nat k))
    (fun '(_, rest) _ => length rest)
    (fun o => exists r s' k, o = Ret r s' /\ stored s s' root fl va src k /\
       ((r = 0 /\ k = n /\ accessible A va n) \/ (r = -1 /\ (k < n)%nat /\ ~ accessible A va n)))).
  - intros [va1 rest] s1 (k & Hk & Hrest & Hst & Hacc & Hva1).
    assert (Hlen : length rest = (n - k)%nat) by (rewrite Hrest, length_drop; done).
    cbv zeta. rewrite Hlen, (Z.gtb_ltb _ 0). destruct (Z.ltb_spec 0 (Z.of_nat (n - k))) as [Hpos|Hz].
    2:{ right; left. do 2 eexists. split; [done|]. do 3 eexists. split; [done|]. split; [exact Hst|]. left.
        assert (k = n) as -> by lia. done. }
    specialize (Hva1 ltac:(lia)). cbv zeta. fold (chunk va1 (Z.of_nat (n - k))).
    destruct (chunk_bounds va1 _ Hpos) as (Hc1 & Hc2 & Hc3). set (c := chunk va1 (Z.of_nat (n - k))) in *.
    assert (Hd0 : 0 <= PGROUNDDOWN va1).
    { rewrite PGROUNDDOWN_div. unfold PGSIZE. Z.div_mod_to_equations. lia. }
    pose proof Hst as (_ & Hi1 & _ & Ha1 & _).
    pose proof (walkaddr_spec s1 root fl (PGROUNDDOWN va1) Hi1 Hd0) as Hw.
    rewrite user_pa_down in Hw by lia.
    replace (user_pa (aspace (k_mem s1) root) va1) with (user_pa A va1) in Hw
      by (unfold user_pa; rewrite Ha1; done).
    unfold kmemmove_from. krun. destruct (Z.eqb_spec (user_pa A va1) 0) as [E|E].
    + right; left. do 2 eexists. split; [done|]. do 3 eexists. split; [done|]. split; [exact Hst|]. right.
      split; [done|]. split; [lia|]. intros H. apply (H (Z.of_nat k)); [lia|]. by rewrite <- Hva1.
    + assert (Hacc2 : accessible A va (k + Z.to_nat c)).
      { apply accessible_app; [done|]. rewrite <- Hva1. apply accessible_page; lia || done. }
      left. krun. do 2 eexists. split; [done|].
      split; [|rewrite length_drop, Hlen; lia].
      exists (k + Z.to_nat c)%nat. split; [lia|]. split; [by rewrite Hrest, drop_drop|].
      split; [|split; [done|]].
      * pose proof (stored_chunk s s1 root fl va src k (Z.to_nat c) Hu Hva Hst Hacc2) as HS.
        rewrite <- Hva1, <- Hrest in HS. unfold phys in HS. fold A in HS.
        replace (va1 - PGROUNDDOWN va1) with (va1 mod PGSIZE) by (rewrite PGROUNDDOWN_eq; lia).
        apply HS; lia.
      * intros Hl. rewrite Hc3 by lia. rewrite u64_small by (unfold PGSIZE in *; lia). lia.
  - exists 0%nat. split; [lia|]. split; [done|]. split; [by apply stored_nil|]. split; [intros i; lia|lia].
  - unfold PGSIZE in *. lia.
Qed.

(** C27: [copyout] then [copyin] at the same user address. On a page table
    whose user frames are private, [copyout] returns 0 exactly when every
    byte of the range is mapped user-accessible; it then has stored the
    bytes at the frames the page table gives for the range and changed
    nothing else, and [copyin] of the same range returns these bytes. If
    some byte is not accessible it returns -1 and what it has changed is
    a prefix of the accessible part of the range. *)
Theorem copyout_copyin s root fl va src :
  vm_inv s root fl -> user_ok s root fl -> 0 <= va -> va + Z.of_nat (length src) + PGSIZE <= 2 ^ 64 ->
  Forall (fun b => 0 <= b < 256) src ->
  (accessible (aspace (k_mem s) root) va (length src) ->
     exists s', copyout root va src s = Ret 0 s' /\ stored s s' root fl va src (length src) /\
       copyin root va (Z.of_nat (length src)) s' = Ret (0, src) s') /\
  (~ accessible (aspace (k_mem s) root) va (length src) ->
     exists s' k, copyout root va src s = Ret (-1) s' /\ (k < length src)%nat /\
       stored s s' root fl va src k).
Proof.
  intros Hi Hu Hva Hmax Hb. destruct (copyout_spec s root fl va src Hi Hu Hva Hmax)
    as (r & s' & k & Hr & Hst & [(-> & -> & Hacc)|(-> & Hk & Hna)]).
  - split; [|by intros H]. intros _. exists s'. split; [done|]. split; [done|].
    pose proof Hst as (_ & Hi' & _ & Ha' & Hin & _).
    assert (Hup : forall v, user_pa (aspace (k_mem s') root) v = user_pa (aspace (k_mem s) root) v).
    { intros v. unfold user_pa. by rewrite Ha'. }
    destruct (copyin_spec s' root fl va (length src) Hi' Hva Hmax) as (r & l & Hc & [(-> & _ & ->)|(-> & Hna)]).
    + rewrite Hc. do 2 f_equal. apply list_eq. intros i. unfold uread. rewrite list_lookup_fmap.
      destruct (decide (i < length src)%nat) as [Hil|Hil].
      * rewrite lookup_seq_lt by done. destruct (lookup_lt_is_Some_2 src i Hil) as [b Hbi]. rewrite Hbi. simpl.
        unfold phys. rewrite Hup. fold (phys (aspace (k_mem s) root) (va + Z.of_nat i)).
        rewrite Hin by lia. rewrite nth_lookup, Nat2Z.id, Hbi. simpl. f_equal. apply u8_small.
        rewrite Forall_forall in Hb. apply Hb. by apply (list_elem_of_lookup_2 _ i).
      * rewrite lookup_seq_ge by lia. symmetry. apply lookup_ge_None_2. lia.
    + exfalso. apply Hna. intros i Hir. rewrite Hup. by apply Hacc.
  - split; [by intros H|]. intros _. exists s', k. done.
Qed.

(** ** [freewalk] *)

(** No entry of the table is a leaf: interior entries point to tables, the
    last level is empty. *)
Fixpoint no_leaf (m : memory) (lvl : nat) (pt : Z) : Prop :=
  forall i, 0 <= i < 512 -> hasbit (entry m pt i) PTE_V = true ->
    match lvl with
    | O => False
    | S l => Z.land (entry m pt i) (Z.lor (Z.lor PTE_R PTE_W) PTE_X) = 0 /\
             no_leaf m l (PTE2PA (entry m pt i))
    end.

Lemma no_leaf_frame m m' lvl pt :
  (forall p, p ∈ tables m lvl pt -> same_page m m' p) -> no_leaf m lvl pt -> no_leaf m' lvl pt.
Proof.
  revert pt. induction lvl as [|l IH]; intros pt Hp H i Hi Hv;
    rewrite (entry_same m m') in * by (done || apply Hp, root_in_tables); specialize (H i Hi Hv); [done|].
  destruct H as [H1 H2]. split; [done|]. apply IH; [|done]. intros p Hpt. apply Hp.
  apply (kid_tables_sub _ _ _ (Z.to_nat i)); [lia|]. unfold kid_tables, kid. rewrite Z2Nat.id by lia.
  by rewrite Hv.
Qed.

(** The pages [pages] have been freed, in the order [new]; pages other than
    these and those in [ex] are untouched. *)
Definition gone (s s' : kstate) (fl pages new ex : list Z) : Prop :=
  free_pages s' (new ++ fl) /\ new ≡ₚ pages /\ same_but_mem s s' /\
  forall q, aligned q -> q ∉ pages -> q ∉ ex -> same_page (k_mem s) (k_mem s') q.

Lemma gone_refl s fl ex : free_pages s fl -> gone s s fl [] [] ex.
Proof. intros Hf. split; [exact Hf|]. split; [done|]. split; [apply same_but_mem_refl|]. by intros q _ _ _ a. Qed.

Lemma gone_free s s1 fl pages new pt :
  gone s s1 fl pages new [pt] -> page_ok pt -> pt ∉ pages -> pt ∉ fl ->
  gone s (kfree_state pt s1) fl (pt :: pages) (pt :: new) [].
Proof.
  intros (Hf & HP & HB & HS) Hpt Hn1 Hn2. split; [|split; [|split]].
  - apply free_pages_free; [done|done|]. rewrite elem_of_app, HP. tauto.
  - by constructor.
  - apply same_but_mem_trans with s1; [done|]. unfold same_but_mem, kfree_state. by destruct s1.
  - intros q Hq [Hne Hnp]%not_elem_of_cons _. apply same_page_trans with (k_mem s1).
    { apply HS; [done|done|]. by rewrite list_elem_of_singleton. }
    unfold kfree_state. kred. pose proof (page_ok_aligned pt Hpt).
    eapply same_page_trans; [apply (fill_same_page _ pt 1 q); auto|].
    apply (st64_same_page _ _ _ pt); auto; unfold PGSIZE; lia.
Qed.

(** A subtree freed, then its entry in [pt] cleared. *)
Lemma gone_kid s s1 s2 fl p1 p2 n1 n2 pt i :
  gone s s1 fl p1 n1 [pt] -> gone s1 s2 (n1 ++ fl) p2 n2 [] ->
  page_ok pt -> pt ∉ p1 -> pt ∉ p2 -> pt ∉ fl -> 0 <= i < 512 ->
  let s3 := set_k_mem (st64 (k_mem s2) (pt + 8 * i) 0) s2 in
  gone s s3 fl (p1 ++ p2) (n2 ++ n1) [pt] /\
  forall j, 0 <= j < 512 -> j <> i -> entry (k_mem s3) pt j = entry (k_mem s1) pt j.
Proof.
  intros (Hf & HP & HB & HS) (Hf2 & HP2 & HB2 & HS2) Hpt Hn1 Hn2 Hnf Hi s3.
  pose proof (page_ok_aligned pt Hpt) as Hal. pose proof (entry_bounds pt i Hi) as Hb.
  assert (Hpages : forall q, aligned q -> q <> pt -> same_page (k_mem s2) (k_mem s3) q).
  { intros q Hq Hne. apply (st64_same_page _ _ _ pt); auto; lia. }
  split; [split; [|split; [|split]]|].
  - rewrite <- app_assoc. apply free_pages_frame with s2; [done|done|]. intros x a Hx Ha.
    apply (Hpages x); [| |done].
    + destruct Hf2 as (_ & _ & Hok). rewrite Forall_forall in Hok. by apply page_ok_aligned, Hok.
    + intros ->. rewrite !elem_of_app, HP, HP2 in Hx. tauto.
  - rewrite HP, HP2. apply Permutation_app_comm.
  - apply same_but_mem_trans with s1; [done|]. apply same_but_mem_trans with s2; [done|]. apply same_but_mem_st.
  - intros q Hq [Hq1 Hq2]%not_elem_of_app Hqp. rewrite list_elem_of_singleton in Hqp.
    apply same_page_trans with (k_mem s1); [apply HS; try done; by rewrite list_elem_of_singleton|].
    apply same_page_trans with (k_mem s2); [|by apply Hpages]. apply HS2; [done|done|apply not_elem_of_nil].
  - intros j Hj Hji. unfold s3, entry. kred. rewrite ld64_st64_other by lia.
    apply (entry_same (k_mem s1)); [|done]. apply HS2; [done|done|apply not_elem_of_nil].
Qed.

(** The body of [freewalk]'s loop. *)
Definition freewalk_body (d : nat) (pagetable : Z) (i : nat) : K unit :=
  let ptea := pagetable + 8 * Z.of_nat i in
  pte <- load64 ptea ;;
  if hasbit pte PTE_V && (Z.land pte (Z.lor (Z.lor PTE_R PTE_W) PTE_X) =? 0)
  then freewalk_rec d (PTE2PA pte) ;;; store64 ptea 0
  else if hasbit pte PTE_V then panic "freewalk: leaf"
  else ret tt.

(** What freeing a table of height [lvl] achieves. *)
Definition freewalk_ok (d lvl : nat) : Prop := forall pt s fl,
  tree_ok s lvl pt fl -> no_leaf (k_mem s) lvl pt -> Lk_kmem ∉ k_held s ->
  exists s' new, freewalk_rec d pt s = Ret tt s' /\ gone s s' fl (tables (k_mem s) lvl pt) new [].

(** The subtree below entry [i] is still intact after those before it
    have been freed. *)
Lemma kid_intact s s1 l pt fl i c n1 :
  tree_ok s (S l) pt fl -> no_leaf (k_mem s) (S l) pt -> (i < 512)%nat ->
  gone s s1 fl (flat_map (kid_tables (k_mem s) l pt) (seq 0 i)) n1 [pt] ->
  kid (k_mem s) pt (Z.of_nat i) = Some c ->
  tree_ok s1 l c (n1 ++ fl) /\ no_leaf (k_mem s1) l c /\
  tables (k_mem s1) l c = kid_tables (k_mem s) l pt i /\ (pt ∉ kid_tables (k_mem s) l pt i).
Proof.
  intros Hok Hnl Hi (Hf & HP & HB & HS) Hc. set (KT := kid_tables (k_mem s) l pt) in *.
  destruct (tree_ok_facts _ _ _ _ Hok) as (_ & _ & _ & Hal & _ & _). rewrite Forall_forall in Hal.
  pose proof (proj1 (proj2 Hok)) as HND. pose proof (proj2 (proj2 Hok)) as Hpo. rewrite tables_S in HND, Hpo.
  fold KT in HND, Hpo.
  assert (Hsplit : seq 0 512 = seq 0 i ++ i :: seq (S i) (511 - i)).
  { change (i :: seq (S i) (511 - i)) with (seq i (S (511 - i))).
    replace (seq i (S (511 - i))) with (seq (0 + i) (S (511 - i))) by (f_equal; lia).
    rewrite <- seq_app. f_equal. lia. }
  rewrite Hsplit, flat_map_app in HND, Hpo. cbn [flat_map] in HND, Hpo.
  set (F := flat_map KT (seq 0 i)) in *. set (G := flat_map KT (seq (S i) (511 - i))) in *.
  assert (HKT : KT i = tables (k_mem s) l c) by (unfold KT, kid_tables; by rewrite Hc).
  rewrite <- !app_comm_cons, <- !app_assoc in HND. apply NoDup_cons in HND as [Hptn HND].
  rewrite !elem_of_app in Hptn. inversion Hpo as [|? ? _ Hpo2]; subst.
  apply Forall_app in Hpo2 as [_ Hpo2]. apply Forall_app in Hpo2 as [Hpo2 _].
  assert (Hsame : forall p, p ∈ KT i -> same_page (k_mem s) (k_mem s1) p).
  { intros p Hp. apply HS.
    - apply Hal. apply (kid_tables_sub _ _ _ i); done.
    - intros HF. apply NoDup_app in HND as (_ & HD & _). apply (HD p HF). rewrite !elem_of_app. tauto.
    - rewrite list_elem_of_singleton. intros ->. tauto. }
  rewrite HKT in Hsame, Hpo2. pose proof (tables_frame _ _ _ _ Hsame) as HT.
  split; [split; [exact Hf|split]|split_and!].
  - rewrite HT, HP, <- HKT. by apply NoDup_drop_mid in HND.
  - by rewrite HT.
  - apply (no_leaf_frame (k_mem s)); [done|]. cbn [no_leaf] in Hnl. unfold kid in Hc.
    destruct (hasbit (entry (k_mem s) pt (Z.of_nat i)) PTE_V) eqn:Hv; [|discriminate].
    injection Hc as <-. apply (Hnl (Z.of_nat i)); [lia|done].
  - by rewrite HT, HKT.
  - tauto.
Qed.

Lemma freewalk_loop d l s pt fl :
  freewalk_ok d l -> tree_ok s (S l) pt fl -> no_leaf (k_mem s) (S l) pt -> Lk_kmem ∉ k_held s ->
  forall N k i s1 n1, (i + k = N)%nat -> (N <= 512)%nat ->
  gone s s1 fl (flat_map (kid_tables (k_mem s) l pt) (seq 0 i)) n1 [pt] ->
  (forall j, Z.of_nat i <= j < Z.of_nat N -> entry (k_mem s1) pt j = entry (k_mem s) pt j) ->
  exists s' new, for_all (seq i k) (freewalk_body d pt) s1 = Ret tt s' /\
    gone s s' fl (flat_map (kid_tables (k_mem s) l pt) (seq 0 N)) new [pt].
Proof.
  intros Hrec Hok Hnl Hlk N. induction k as [|k IH]; intros i s1 n1 Hik HN Hg He.
  { replace i with N in Hg by lia. by exists s1, n1. }
  cbn [seq for_all]. unfold freewalk_body at 1. krun. fold (entry (k_mem s1) pt (Z.of_nat i)).
  rewrite He by lia. set (e := entry (k_mem s) pt (Z.of_nat i)).
  assert (Hseq : flat_map (kid_tables (k_mem s) l pt) (seq 0 (S i)) =
                 flat_map (kid_tables (k_mem s) l pt) (seq 0 i) ++ kid_tables (k_mem s) l pt i).
  { rewrite seq_S, flat_map_app. simpl. by rewrite app_nil_r. }
  destruct (hasbit e PTE_V) eqn:Hv.
  - pose proof (Hnl (Z.of_nat i) ltac:(lia) Hv) as [Hrwx _]. fold e in Hrwx. rewrite Hrwx. cbn [andb Z.eqb].
    assert (Hc : kid (k_mem s) pt (Z.of_nat i) = Some (PTE2PA e)) by (unfold kid; fold e; by rewrite Hv).
    destruct (kid_intact s s1 l pt fl i _ n1 Hok Hnl ltac:(lia) Hg Hc) as (Hok1 & Hnl1 & Ht1 & Hpt1).
    assert (Hlk1 : Lk_kmem ∉ k_held s1).
    { destruct Hg as (_ & _ & HB & _). by rewrite (same_but_mem_held _ _ HB). }
    destruct (Hrec _ s1 _ Hok1 Hnl1 Hlk1) as (s2 & n2 & Hr & Hg2). rewrite Ht1 in Hg2.
    destruct (tree_ok_facts _ _ _ _ Hok) as (_ & Hnd & Hpo & _ & _ & Hdis).
    rewrite Forall_forall in Hpo. pose proof (root_in_tables (k_mem s) (S l) pt) as Hroot.
    assert (Hpf : pt ∉ flat_map (kid_tables (k_mem s) l pt) (seq 0 i)).
    { rewrite tables_S in Hnd. apply NoDup_cons in Hnd as [Hn _]. intros Hx. apply Hn.
      replace 512%nat with (i + (512 - i))%nat by lia. rewrite seq_app, flat_map_app. apply elem_of_app. by left. }
    destruct (gone_kid s s1 s2 fl _ _ n1 n2 pt (Z.of_nat i) Hg Hg2 (Hpo _ Hroot) Hpf Hpt1 (Hdis _ Hroot) ltac:(lia))
      as [Hg3 He3].
    rewrite <- Hseq in Hg3. krun. apply (IH (S i) _ (n2 ++ n1)); [lia|lia|exact Hg3|].
    intros j Hj. rewrite He3 by lia. apply He. lia.
  - cbn [andb]. krun. apply (IH (S i) s1 n1); [lia|lia| |].
    + rewrite Hseq. unfold kid_tables at 2, kid. fold e. rewrite Hv, app_nil_r. done.
    + intros j Hj. apply He. lia.
Qed.

Lemma freewalk_levels lvl : forall d, (lvl < d)%nat -> freewalk_ok d lvl.
Proof.
  induction lvl as [|l IH]; intros [|d] Hd pt s fl Hok Hnl Hlk; try lia.
  all: destruct (tree_ok_facts _ _ _ _ Hok) as (Hf & Hnd & Hpo & _ & _ & Hdis);
    rewrite Forall_forall in Hpo; cbn [freewalk_rec]; fold (freewalk_body d pt).
  all: pose proof (Hpo pt (root_in_tables _ _ _)) as Hpt; pose proof (Hdis pt (root_in_tables _ _ _)) as Hptf.
  - assert (Hempty : forall k i, (i + k = 512)%nat -> for_all (seq i k) (freewalk_body d pt) s = Ret tt s).
    { induction k as [|k IH]; intros i Hik; [done|]. cbn [seq for_all]. unfold freewalk_body at 1. krun.
      fold (entry (k_mem s) pt (Z.of_nat i)).
      destruct (hasbit (entry (k_mem s) pt (Z.of_nat i)) PTE_V) eqn:Hv.
      - by destruct (Hnl (Z.of_nat i) ltac:(lia) Hv).
      - cbn [andb]. krun. apply IH. lia. }
    specialize (Hempty 512%nat 0%nat eq_refl). pose proof (kfree_run pt s Hpt Hlk) as Hk. krun. rewrite Hk.
    exists (kfree_state pt s), [pt]. split; [done|]. rewrite tables_0.
    apply gone_free; [by apply gone_refl|done|apply not_elem_of_nil|done].
  - destruct (freewalk_loop d l s pt fl (IH d ltac:(lia)) Hok Hnl Hlk 512 512 0 s []) as (s1 & n1 & Hl & Hg);
      [done|lia|by apply gone_refl|done|].
    assert (Hlk1 : Lk_kmem ∉ k_held s1).
    { destruct Hg as (_ & _ & HB & _). by rewrite (same_but_mem_held _ _ HB). }
    pose proof (kfree_run pt s1 Hpt Hlk1) as Hk. krun. rewrite Hk.
    exists (kfree_state pt s1), (pt :: n1). split; [done|]. rewrite tables_S in Hnd |- *.
    apply NoDup_cons in Hnd as [Hn _]. by apply gone_free.
Qed.

(** C35: [freewalk] on a well-formed page table without leaf mappings
    terminates without panic, gives every page of the table back to the
    allocator exactly once, and touches no other page. *)
Theorem freewalk_correct s root fl :
  vm_inv s root fl -> no_leaf (k_mem s) 2 root -> Lk_kmem ∉ k_held s ->
  exists s' new, freewalk root s = Ret tt s' /\ free_pages s' (new ++ fl) /\
    new ≡ₚ tables (k_mem s) 2 root /\ same_but_mem s s' /\
    forall q, aligned q -> q ∉ tables (k_mem s) 2 root -> same_page (k_mem s) (k_mem s') q.
Proof.
  intros Hi Hnl Hlk. destruct (freewalk_levels 2 64 ltac:(lia) root s fl Hi Hnl Hlk)
    as (s' & new & Hr & Hf & HP & HB & HS).
  exists s', new. split_and!; try done. intros q Hq Hqt. apply HS; [done|done|apply not_elem_of_nil].
Qed.

(** ** Mapping, looking up, unmapping *)

(** The address space after [n] pages have been mapped for the user from
    page [v0], as [walkaddr] sees it. *)
Lemma mapped_walkaddr s s' root fl fl' v0 n pa perm a :
  mapped s s' root fl fl' v0 n pa perm -> 0 <= v0 -> (v0 + n) * PGSIZE <= MAXVA ->
  0 <= pa -> pa + n * PGSIZE <= 2 ^ 56 -> pa mod PGSIZE = 0 -> 0 <= perm < 1024 -> hasbit perm PTE_U = true -> 0 <= a ->
  walkaddr root a s' =
  Ret (if (v0 <=? a / PGSIZE) && (a / PGSIZE <? v0 + n) then pa + (a / PGSIZE - v0) * PGSIZE
       else user_pa (aspace (k_mem s) root) a) s'.
Proof.
  intros (HT & _ & _ & Has) Hv0 Hmax Hpa Hpam Hpal Hperm HU Ha.
  rewrite (walkaddr_spec s' root fl' a (proj1 HT) Ha). f_equal. unfold user_pa. rewrite Z.geb_leb.
  change MAXVA with 274877906944 in *. destruct (Z.leb_spec 274877906944 a) as [Hbig|Hsm].
  - destruct (Z.ltb_spec (a / PGSIZE) (v0 + n)) as [Hle|]; [|by rewrite andb_false_r].
    exfalso. unfold PGSIZE in *. Z.div_mod_to_equations. lia.
  - rewrite Has by (apply vpn_ok_va; change MAXVA with 274877906944; lia). unfold map_range.
    destruct (Z.leb_spec v0 (a / PGSIZE)), (Z.ltb_spec (a / PGSIZE) (v0 + n)); cbn [andb]; try lia; try done.
    set (p := pa + _). assert (Hp : 0 <= p < 2 ^ 56 /\ p mod PGSIZE = 0).
    { unfold p, PGSIZE in *. Z.div_mod_to_equations. lia. }
    assert (Hfl : 0 <= Z.lor perm PTE_V < 1024) by (apply (lor_range _ _ 10); unfold PTE_V; lia).
    rewrite !hasbit_mkpte, PTE2PA_mkpte by (done || tauto || (unfold PTE_V, PTE_U; lia)).
    unfold hasbit in *. rewrite !Z.land_lor_distr_l.
    change (Z.land PTE_V PTE_U) with 0. rewrite Z.lor_0_r, HU.
    destruct (Z.eqb_spec (Z.lor (Z.land perm PTE_V) (Z.land PTE_V PTE_V)) 0) as [E|]; [|done].
    apply Z.lor_eq_0_iff in E as [_ E]. discriminate E.
Qed.

(** [mappages] then [walkaddr]. On a well-formed page table, mapping an
    unmapped range user-accessibly never panics; with two free pages per
    page mapped it succeeds, and when it does, [walkaddr] of an address in
    the range gives the corresponding physical page, [walkaddr] of every
    other address gives what it gave before, the table is well formed and
    the pages it took from the free list are exactly its new nodes. *)
Theorem mappages_walkaddr s root fl va size pa perm :
  vm_inv s root fl -> Lk_kmem ∉ k_held s ->
  0 <= va -> 0 < size -> va + size <= MAXVA ->
  0 <= pa -> pa + size + PGSIZE < 2 ^ 56 -> pa mod PGSIZE = 0 ->
  0 <= perm < 1024 -> hasbit perm PTE_U = true ->
  (forall vpn, va / PGSIZE <= vpn <= (va + size - 1) / PGSIZE ->
               hasbit (aspace (k_mem s) root vpn) PTE_V = false) ->
  let npages := (va + size - 1) / PGSIZE - va / PGSIZE + 1 in
  exists r s' fl', mappages root va size pa perm s = Ret r s' /\ (r = 0 \/ r = -1) /\
    (2 * npages <= Z.of_nat (length fl) -> r = 0) /\ vm_inv s' root fl' /\
    tables (k_mem s') 2 root ++ fl' ≡ₚ tables (k_mem s) 2 root ++ fl /\
    (r = 0 -> forall a, 0 <= a ->
       walkaddr root a s' =
       Ret (if (va / PGSIZE <=? a / PGSIZE) && (a / PGSIZE <=? (va + size - 1) / PGSIZE)
            then pa + (a / PGSIZE - va / PGSIZE) * PGSIZE
            else user_pa (aspace (k_mem s) root) a) s').
Proof.
  intros Hi Hlk Hva Hsz Hmax Hpa Hpam Hpal Hperm HU Hfree npages.
  destruct (mappages_spec s root fl va size pa perm Hi Hlk Hva Hsz Hmax Hpa Hpam Hperm Hfree)
    as (r & s' & fl' & k & Hr & Hm & _ & Hres). cbv zeta in Hres. fold npages in Hres.
  exists r, s', fl'. split; [done|]. split; [tauto|]. split; [lia|]. split; [apply Hm|]. split; [apply Hm|].
  intros ->. destruct Hres as [[_ ->]|?]; [|lia]. intros a Ha. change MAXVA with 274877906944 in *.
  rewrite (mapped_walkaddr _ _ _ _ _ _ _ _ _ a Hm); try done;
    try (change MAXVA with 274877906944; unfold npages, PGSIZE in *; Z.div_mod_to_equations; lia).
  f_equal. unfold npages. destruct (Z.leb_spec (va / PGSIZE) (a / PGSIZE)); [|done]. cbn [andb].
  destruct (Z.leb_spec (a / PGSIZE) ((va + size - 1) / PGSIZE));
    destruct (Z.ltb_spec (a / PGSIZE) (va / PGSIZE + ((va + size - 1) / PGSIZE - va / PGSIZE + 1))); done || lia.
Qed.

End VmUser.
