(* ===== verification/VmKernel.v ===== *)
(** * The kernel's page table

    [kvmmake] of kernel/vm.c: how many pages the tables of a range take, and
    the address space that the kernel ends up with. *)

From S2P Require Import Prelude Machine State Kalloc Vm VmFacts VmUser.

Section VmKernel.
Context {LAY : Layout}.

(** ** Walking where a table is *)

Lemma walk_levels_found lvl va s a : forall pt, find_pte (k_mem s) lvl pt va = Some a -> walk_levels lvl pt va true s = Ret a s.
Proof.
  induction lvl as [|l IH]; intros pt H; [by injection H as <-|]. cbn [walk_levels]. krun. rewrite find_pte_S in H. unfold kid, entry in H.
  destruct (hasbit _ PTE_V); [by apply IH|done].
Qed.

Lemma walk_found root va s a : 0 <= va < MAXVA -> find_pte (k_mem s) 2 root va = Some a -> walk root va true s = Ret a s.
Proof. intros Hva H. unfold walk. rewrite Z.geb_leb. destruct (Z.leb_spec MAXVA va); [lia|]. by apply walk_levels_found. Qed.

(** Pages of one block of 512 have their entries in one table. *)
Lemma find_pte_block m root va va' a : 0 <= va -> 0 <= va' -> va / 2 ^ 21 = va' / 2 ^ 21 -> find_pte m 2 root va = Some a -> is_Some (find_pte m 2 root va').
Proof.
  intros H0 H0' Hb H. assert (E2 : PX 2 va' = PX 2 va).
  { rewrite !PX_eq by lia. change (2 ^ (12 + 9 * 2)) with (2 ^ 21 * 512). rewrite <- !Z.div_div by lia. by rewrite Hb. }
  assert (E1 : PX 1 va' = PX 1 va) by (rewrite !PX_eq by lia; change (2 ^ (12 + 9 * 1)) with (2 ^ 21); by rewrite Hb).
  cbn [find_pte] in *. change (Z.of_nat 2) with 2 in *. change (Z.of_nat 1) with 1 in *. rewrite E2, E1.
  destruct (kid m root (PX 2 va)) as [c|]; [|discriminate H]. destruct (kid m c (PX 1 va)); [by eexists|discriminate H].
Qed.

(** ** Enough pages for the tables *)

(** Blocks of 512 pages that [k] pages from [v0] touch. *)
Definition blocks (v0 k : Z) : Z := if k =? 0 then 0 else (v0 + k - 1) / 512 - v0 / 512 + 1.

Lemma blocks_next v0 k : 0 <= v0 -> 0 <= k -> blocks v0 k <= blocks v0 (k + 1) /\ (0 < k -> (v0 + k) / 512 <> (v0 + k - 1) / 512 -> blocks v0 (k + 1) = blocks v0 k + 1) /\ (k = 0 -> blocks v0 (k + 1) = 1).
Proof.
  intros Hv Hk. unfold blocks. destruct (Z.eqb_spec k 0), (Z.eqb_spec (k + 1) 0); try lia.
  - subst k. replace (v0 + (0 + 1) - 1) with v0 by lia. lia.
  - replace (v0 + (k + 1) - 1) with (v0 + k) by lia. Z.div_mod_to_equations. lia.
Qed.

Lemma blocks_le v0 k n : 0 <= v0 -> 0 <= k -> k <= n -> blocks v0 k <= blocks v0 n.
Proof. intros Hv Hk Hn. unfold blocks. destruct (Z.eqb_spec k 0), (Z.eqb_spec n 0); try lia; Z.div_mod_to_equations; lia. Qed.

(** One round, with the tables it takes: none in a block that has one. *)
Lemma mapped_round s s1 root fl fl1 v0 k pa perm a :
  Lk_kmem ∉ k_held s -> mapped s s1 root fl fl1 v0 k pa perm -> 0 <= k -> a = (v0 + k) * PGSIZE -> 0 <= v0 -> 0 <= a < MAXVA ->
  0 <= pa -> pa + k * PGSIZE < 2 ^ 56 -> 0 <= perm < 1024 -> hasbit (aspace (k_mem s) root (v0 + k)) PTE_V = false ->
  (0 < k -> is_Some (find_pte (k_mem s1) 2 root ((v0 + k - 1) * PGSIZE))) ->
  let need := if (0 <? k) && ((v0 + k) / 512 =? (v0 + k - 1) / 512) then 0%nat else 2%nat in
  (need <= length fl1)%nat ->
  exists r s2 fl2, walk root a true s1 = Ret r s2 /\ (length fl1 <= length fl2 + need)%nat /\ r <> 0 /\ hasbit (ld64 (k_mem s2) r) PTE_V = false /\
    let s3 := set_k_mem (st64 (k_mem s2) r (mkpte (pa + k * PGSIZE) (Z.lor perm PTE_V))) s2 in
    mapped s s3 root fl fl2 v0 (k + 1) pa perm /\ is_Some (find_pte (k_mem s3) 2 root a).
Proof.
  intros Hlk Hm Hk Ha Hv0 Hva Hpa Hpa2 Hperm Hnv Hprev need Hlen.
  destruct (mapped_step s s1 root fl fl1 v0 k pa perm a Hlk Hm Hk Ha Hv0 Hva Hpa Hpa2 Hperm Hnv) as (r & s2 & fl2 & Ew & Hm2 & Hl & Hr).
  pose proof (proj1 Hm) as HT1. pose proof (proj1 HT1) as Hi1. assert (Hlk1 : Lk_kmem ∉ k_held s1) by by rewrite (vm_trans_held _ _ _ _ _ HT1).
  assert (Hsame : need = 0%nat -> r <> 0 /\ fl1 = fl2).
  { unfold need. destruct (Z.ltb_spec 0 k) as [Hk0|]; [|done]. destruct (Z.eqb_spec ((v0 + k) / 512) ((v0 + k - 1) / 512)) as [Eb|]; [|done]. intros _.
    destruct (Hprev Hk0) as [c Hc]. destruct (find_pte_block (k_mem s1) root ((v0 + k - 1) * PGSIZE) a c) as [d Hd]; [unfold PGSIZE; lia|lia|subst a; unfold PGSIZE; Z.div_mod_to_equations; lia|done|].
    pose proof (walk_found _ _ _ _ Hva Hd) as Ew2. rewrite Ew in Ew2. injection Ew2 as -> ->. split; [by eapply find_pte_nonzero|].
    apply (free_pages_unique s1); [apply Hi1|]. apply (proj1 (proj1 Hm2)). }
  destruct Hr as [(-> & _ & ?)|(Hnz & Hv & Hm3)].
  { unfold need in *. destruct (_ && _); [by destruct (Hsame eq_refl)|lia]. }
  exists r, s2, fl2. split; [done|].
  assert (Hfound : find_pte (k_mem s2) 2 root a = Some r).
  { destruct (walk_alloc s1 root fl1 a Hi1 Hlk1 Hva) as (r' & s2' & Ew' & fl' & _ & _ & Hr'). rewrite Ew in Ew'. injection Ew' as <- <-. destruct Hr' as [(? & _)|[_ ?]]; done. }
  split; [|split; [done|split; [done|split; [done|]]]].
  - unfold need in *. destruct (_ && _); [|lia]. destruct (Hsame eq_refl) as [_ ->]. lia.
  - destruct (tree_ok_facts _ _ _ _ (proj1 (proj1 Hm2))) as (_ & Hnd & _ & Hal & _). kred.
    rewrite (proj2 (leaf_store _ _ _ _ _ _ Hnd Hal Hfound)). by eexists.
Qed.

(** [mappages] succeeds when there are two pages for each block. *)
Lemma mappages_enough s root fl va size pa perm :
  vm_inv s root fl -> Lk_kmem ∉ k_held s -> 0 <= va -> 0 < size -> va + size <= MAXVA ->
  0 <= pa -> pa + size + PGSIZE < 2 ^ 56 -> 0 <= perm < 1024 ->
  let v0 := va / PGSIZE in
  let n := (va + size - 1) / PGSIZE - v0 + 1 in
  (forall vpn, v0 <= vpn < v0 + n -> hasbit (aspace (k_mem s) root vpn) PTE_V = false) -> 2 * blocks v0 n <= Z.of_nat (length fl) ->
  exists s' fl', mappages root va size pa perm s = Ret 0 s' /\ mapped s s' root fl fl' v0 n pa perm /\ Z.of_nat (length fl) <= Z.of_nat (length fl') + 2 * blocks v0 n.
Proof.
  intros Hi Hlk Hva Hsz Hmax Hpa Hpamax Hperm v0 n Hfree Henough. change MAXVA with 274877906944 in Hmax.
  set (vl := (va + size - 1) / PGSIZE) in *.
  assert (Hv : 0 <= v0 <= vl /\ vl < 67108864 /\ (vl - v0) * PGSIZE <= size + PGSIZE) by (unfold v0, vl, PGSIZE; Z.div_mod_to_equations; lia).
  unfold mappages. destruct (Z.eqb_spec size 0); [lia|]. rewrite (u64_small (va + size - 1)) by lia. rewrite !PGROUNDDOWN_div. fold v0 vl.
  apply (loop_measure _
    (fun '(a, pa1) s1 => exists k fl1, 0 <= k <= vl - v0 /\ a = (v0 + k) * PGSIZE /\ pa1 = pa + k * PGSIZE /\ mapped s s1 root fl fl1 v0 k pa perm /\
        Z.of_nat (length fl) <= Z.of_nat (length fl1) + 2 * blocks v0 k /\ (0 < k -> is_Some (find_pte (k_mem s1) 2 root ((v0 + k - 1) * PGSIZE))))
    (fun '(a, _) _ => Z.to_nat (vl * PGSIZE - a))
    (fun o => exists s' fl', o = Ret 0 s' /\ mapped s s' root fl fl' v0 n pa perm /\ Z.of_nat (length fl) <= Z.of_nat (length fl') + 2 * blocks v0 n)).
  - intros [a pa1] s1 (k & fl1 & Hk & Ha & Hpa1 & Hm & Hc & Hprev).
    assert (Hb : 0 <= a < MAXVA) by (change MAXVA with 274877906944; unfold PGSIZE in *; lia).
    destruct (blocks_next v0 k ltac:(lia) ltac:(lia)) as (B1 & B2 & B3). pose proof (blocks_le v0 (k + 1) n ltac:(lia) ltac:(lia) ltac:(unfold n; lia)) as B4.
    set (need := if (0 <? k) && ((v0 + k) / 512 =? (v0 + k - 1) / 512) then 0%nat else 2%nat).
    assert (Hneed : Z.of_nat need <= 2 * (blocks v0 (k + 1) - blocks v0 k)).
    { unfold need. destruct (Z.ltb_spec 0 k), (Z.eqb_spec ((v0 + k) / 512) ((v0 + k - 1) / 512)); cbn [andb]; try lia.
      all: rewrite B3 by lia; replace k with 0 by lia; cbn; lia. }
    destruct (mapped_round s s1 root fl fl1 v0 k pa perm a) as (r & s2 & fl2 & Hw & Hl & Hnz & Hnv & Hm3 & Hf3); try done; try (unfold PGSIZE in *; lia).
    { apply Hfree. unfold n. lia. }
    fold need in Hl. krun. destruct (Z.eqb_spec r 0); [done|]. krun. rewrite Hnv. krun.
    rewrite (u64_small perm) by lia. rewrite <- Z.lor_assoc, Hpa1. fold (mkpte (pa + k * PGSIZE) (Z.lor perm PTE_V)).
    destruct (Z.eqb_spec a (vl * PGSIZE)) as [E|E].
    + right; left. do 2 eexists. split; [reflexivity|]. eexists. exists fl2. split; [reflexivity|]. replace n with (k + 1) by (unfold n, PGSIZE in *; lia). split; [exact Hm3|lia].
    + left. do 2 eexists. split; [reflexivity|]. unfold PGSIZE in *. rewrite !u64_small by lia. split; [|lia].
      exists (k + 1), fl2. split; [lia|]. split; [lia|]. split; [lia|]. split; [exact Hm3|]. split; [lia|]. intros _. replace (v0 + (k + 1) - 1) with (v0 + k) by lia. rewrite <- Ha. exact Hf3.
  - exists 0, fl. split; [lia|]. split; [unfold PGSIZE; lia|]. split; [unfold PGSIZE; lia|]. split; [|split; [cbn; lia|lia]].
    split; [by apply vm_trans_refl|]. split; [done|]. split; [done|]. intros vpn _. by rewrite map_range_0.
  - unfold PGSIZE. lia.
Qed.

(** ** The kernel's address space *)

(** From the memory [m0] with the free pages [fl0] the kernel has come to [s],
    with a page table at [root] that implements [A]; it has written to pages of
    [fl0] only, and has the pages [xs] in use. *)
Record kspace (m0 : memory) (s : kstate) (root : Z) (fl0 fl : list Z) (A : Z -> Z) (xs : list Z) : Prop := {
  ks_inv : vm_inv s root fl;
  ks_sub : forall x, x ∈ fl -> x ∈ fl0;
  ks_tables : forall x, x ∈ tables (k_mem s) 2 root -> x ∈ fl0;
  ks_map : forall vpn, vpn_ok vpn -> aspace (k_mem s) root vpn = A vpn;
  ks_pages : (forall q, aligned q -> q ∉ fl0 -> same_page m0 (k_mem s) q);
  ks_xs : (NoDup xs /\ Forall (fun x => x ∈ fl0 /\ (x ∉ fl) /\ x ∉ tables (k_mem s) 2 root) xs)
}.

Lemma kspace_trans m0 s s' root fl0 fl fl' A A' xs :
  kspace m0 s root fl0 fl A xs -> vm_trans s s' root fl fl' -> (forall x, x ∈ fl' -> x ∈ fl) ->
  (forall vpn, vpn_ok vpn -> aspace (k_mem s') root vpn = A' vpn) -> kspace m0 s' root fl0 fl' A' xs.
Proof.
  intros [K1 K3 K4 K5 K6 K7] (I & B & P & T) Hsub HA. split; [done|auto| |done| |].
  - intros x Hx. destruct (T x Hx); auto.
  - intros q Hq Hn. eapply same_page_trans; [by apply K6|]. apply P; [done|intros Hx; by apply Hn, K4|intros Hx; by apply Hn, K3|intros Hx; by apply Hn, K3, Hsub].
  - destruct K7 as [Hnd Hxs]. split; [done|]. eapply Forall_impl; [exact Hxs|]. intros x (X1 & X2 & X3). split; [done|]. split; [auto|]. intros Hx. by destruct (T x Hx).
Qed.

Lemma kspace_ext m0 s root fl0 fl A B xs : kspace m0 s root fl0 fl A xs -> (forall vpn, vpn_ok vpn -> A vpn = B vpn) -> kspace m0 s root fl0 fl B xs.
Proof. intros [K1 K3 K4 K5 K6 K7] H. split; try done. intros vpn Hv. rewrite K5 by done. by apply H. Qed.

Lemma kspace_mappages m0 s root fl0 fl A xs va pa size perm :
  kspace m0 s root fl0 fl A xs -> Lk_kmem ∉ k_held s -> 0 <= va -> 0 < size -> va + size <= MAXVA ->
  0 <= pa -> pa + size + PGSIZE < 2 ^ 56 -> 0 <= perm < 1024 ->
  let v0 := va / PGSIZE in
  let n := (va + size - 1) / PGSIZE - v0 + 1 in
  (forall vpn, v0 <= vpn < v0 + n -> A vpn = 0) -> 2 * blocks v0 n <= Z.of_nat (length fl) ->
  exists s' fl', mappages root va size pa perm s = Ret 0 s' /\ same_but_mem s s' /\ kspace m0 s' root fl0 fl' (map_range A v0 n pa perm) xs /\
    Z.of_nat (length fl) <= Z.of_nat (length fl') + 2 * blocks v0 n.
Proof.
  intros K Hlk Hva Hsz Hmax Hpa Hpa2 Hperm v0 n Hfree Henough.
  assert (Hok : forall vpn, v0 <= vpn < v0 + n -> vpn_ok vpn).
  { intros vpn Hv. unfold v0, n, vpn_ok in *. change (MAXVA / PGSIZE) with 67108864. change MAXVA with 274877906944 in Hmax. unfold PGSIZE in *. Z.div_mod_to_equations. lia. }
  destruct (mappages_enough s root fl va size pa perm (ks_inv _ _ _ _ _ _ _ K) Hlk Hva Hsz Hmax Hpa Hpa2 Hperm) as (s' & fl' & E & (HT & Hsub & _ & Has) & Hl); [|done|].
  { fold v0 n. intros vpn Hv. rewrite (ks_map _ _ _ _ _ _ _ K) by auto. by rewrite Hfree. }
  exists s', fl'. split; [done|]. split; [apply HT|]. split; [|done]. eapply kspace_trans; [exact K|exact HT|exact Hsub|].
  intros vpn Hv. rewrite Has by done. unfold map_range. by rewrite (ks_map _ _ _ _ _ _ _ K).
Qed.

(** The same for a region of [n] pages, with a bound on the tables. *)
Lemma mappages_pages m0 s root fl0 fl A xs v0 n pa va size perm c :
  kspace m0 s root fl0 fl A xs -> Lk_kmem ∉ k_held s -> va = v0 * PGSIZE -> size = n * PGSIZE -> 0 <= v0 -> 0 < n -> v0 + n <= 67108864 ->
  0 <= pa -> pa + size + PGSIZE < 2 ^ 56 -> 0 <= perm < 1024 -> (forall vpn, v0 <= vpn < v0 + n -> A vpn = 0) -> blocks v0 n <= c -> 2 * c <= Z.of_nat (length fl) ->
  exists s' fl', mappages root va size pa perm s = Ret 0 s' /\ same_but_mem s s' /\ kspace m0 s' root fl0 fl' (map_range A v0 n pa perm) xs /\
    Z.of_nat (length fl) - 2 * c <= Z.of_nat (length fl').
Proof.
  intros K Hlk -> -> Hv Hn Hmax Hpa Hpa2 Hperm HA Hc Hl. assert (E1 : v0 * PGSIZE / PGSIZE = v0) by by apply Z.div_mul.
  assert (E2 : (v0 * PGSIZE + n * PGSIZE - 1) / PGSIZE - v0 + 1 = n) by (unfold PGSIZE; Z.div_mod_to_equations; lia).
  destruct (kspace_mappages m0 s root fl0 fl A xs (v0 * PGSIZE) pa (n * PGSIZE) perm K Hlk) as (s' & fl' & E & B & K' & Hl'); rewrite ?E1, ?E2; try done;
    try (change MAXVA with (67108864 * PGSIZE); unfold PGSIZE in *; lia).
  rewrite E1, E2 in *. exists s', fl'. split; [done|]. split; [done|]. split; [done|lia].
Qed.

Lemma kvmmap_pages m0 s root fl0 fl A xs v0 n pa va size perm c :
  kspace m0 s root fl0 fl A xs -> Lk_kmem ∉ k_held s -> va = v0 * PGSIZE -> size = n * PGSIZE -> 0 <= v0 -> 0 < n -> v0 + n <= 67108864 ->
  0 <= pa -> pa + size + PGSIZE < 2 ^ 56 -> 0 <= perm < 1024 -> (forall vpn, v0 <= vpn < v0 + n -> A vpn = 0) -> blocks v0 n <= c -> 2 * c <= Z.of_nat (length fl) ->
  exists s' fl', kvmmap root va pa size perm s = Ret tt s' /\ same_but_mem s s' /\ kspace m0 s' root fl0 fl' (map_range A v0 n pa perm) xs /\
    Z.of_nat (length fl) - 2 * c <= Z.of_nat (length fl').
Proof.
  intros K Hlk Hva Hs Hv Hn Hmax Hpa Hpa2 Hperm HA Hc Hl.
  destruct (mappages_pages m0 s root fl0 fl A xs v0 n pa va size perm c K Hlk Hva Hs Hv Hn Hmax Hpa Hpa2 Hperm HA Hc Hl) as (s' & fl' & E & R).
  exists s', fl'. split; [unfold kvmmap; by rewrite (bind_Ret _ _ _ _ _ E)|done].
Qed.

Lemma blocks_bound v0 n c : 0 < n -> n <= (c - 1) * 512 -> 0 <= v0 -> blocks v0 n <= c.
Proof. intros Hn Hc Hv. unfold blocks. destruct (Z.eqb_spec n 0); [lia|]. Z.div_mod_to_equations. lia. Qed.

Lemma blocks_1 v0 : blocks v0 1 = 1.
Proof. unfold blocks. cbn [Z.eqb]. rewrite Z.add_simpl_r. lia. Qed.

Lemma kspace_start s x fl : free_pages s (x :: fl) -> Lk_kmem ∉ k_held s ->
  exists s1 s2, kalloc s = Ret x s1 /\ kmemset x 0 PGSIZE s1 = Ret tt s2 /\ same_but_mem s s2 /\ kspace (k_mem s) s2 x (x :: fl) fl (fun _ => 0) [].
Proof.
  intros Hf Hlk. destruct (alloc_zeroed s x fl Hf Hlk) as (E1 & Hnz & E2). exists (kalloc_state x s), (zeroed s x). split; [done|]. split; [done|].
  split; [unfold same_but_mem, zeroed, taken; by destruct s|].
  pose proof Hf as ([Hx Hc] & Hnd & Hok). apply Forall_cons in Hok as [Hpx Hok]. apply NoDup_cons in Hnd as [Hxn Hnd]. pose proof (page_ok_aligned _ Hpx) as Hal.
  destruct (zeroed_pages s x Hal) as [Hz1 Hz2]. pose proof (zero_page_tables (k_mem (zeroed s x)) 2 x Hz2) as HT.
  assert (Hfl : free_pages (zeroed s x) fl).
  { split; [|done]. apply chain_frame with (k_mem s); [|exact Hc]. intros y a Hy Ha. rewrite Forall_forall in Hok. apply (Hz1 y); [by apply page_ok_aligned, Hok| |done]. intros ->. done. }
  split.
  - split; [done|]. rewrite HT. split; [by apply NoDup_cons|by apply Forall_singleton].
  - intros y Hy. apply elem_of_cons. by right.
  - intros y Hy. rewrite HT in Hy. apply list_elem_of_singleton in Hy as ->. apply elem_of_cons. by left.
  - intros vpn _. unfold aspace. by apply zero_page_pte.
  - intros q Hq Hn. apply Hz1; [done|]. intros ->. apply Hn, elem_of_cons. by left.
  - split; [constructor|by apply Forall_nil].
Qed.

(** A page is taken. *)
Lemma kspace_take m0 s root fl0 x fl A xs : kspace m0 s root fl0 (x :: fl) A xs -> Lk_kmem ∉ k_held s ->
  exists s1, kalloc s = Ret x s1 /\ same_but_mem s s1 /\ x <> 0 /\ page_ok x /\ kspace m0 s1 root fl0 fl A (xs ++ [x]).
Proof.
  intros K Hlk. pose proof (ks_inv _ _ _ _ _ _ _ K) as Hi.
  pose proof (proj1 Hi) as ([Hx _] & Hnd & Hok). apply Forall_cons in Hok as [Hpx _]. pose proof (page_ok_nonzero _ Hpx) as Hnz. pose proof (page_ok_aligned _ Hpx) as Hal.
  destruct (take_page s root x fl (fill (k_mem s) x 5 PGSIZE) Hi) as (HT & Htab & Has); [intros q Hq Hne; by apply fill_same_page|].
  exists (taken s x (fill (k_mem s) x 5 PGSIZE)). split; [exact (proj1 (alloc_zeroed s x fl (proj1 Hi) Hlk))|]. split; [apply HT|]. split; [done|]. split; [done|].
  assert (K1 : kspace m0 (taken s x (fill (k_mem s) x 5 PGSIZE)) root fl0 fl A xs).
  { eapply kspace_trans; [exact K|exact HT|intros y Hy; apply elem_of_cons; by right|]. intros vpn Hv. unfold taken. kred. rewrite Has. by apply (ks_map _ _ _ _ _ _ _ K). }
  apply NoDup_cons in Hnd as [Hxn _]. destruct (ks_xs _ _ _ _ _ _ _ K) as [Hnx Hxs].
  assert (Hxt : x ∉ tables (k_mem s) 2 root).
  { intros Hin. destruct (tree_ok_facts _ _ _ _ Hi) as (_ & _ & _ & _ & _ & Hdis). apply (Hdis x Hin), elem_of_cons. by left. }
  destruct K1 as [J1 J3 J4 J5 J6 [_ J7]]. split; try done. split.
  - apply NoDup_app. split; [done|]. split; [|apply NoDup_singleton]. intros y Hy Hy2. apply list_elem_of_singleton in Hy2 as ->. rewrite Forall_forall in Hxs. destruct (Hxs x Hy) as (_ & Hn & _). apply Hn, elem_of_cons. by left.
  - apply Forall_app. split; [done|]. apply Forall_singleton. split; [apply (ks_sub _ _ _ _ _ _ _ K), elem_of_cons; by left|]. split; [done|]. unfold taken. kred. by rewrite Htab.
Qed.

(** *** The stacks *)

(** The stack that the page at [vpn] is, with its guard page one below. *)
Definition stack_of (xs : list Z) (vpn : Z) : option Z :=
  let d := TRAMPOLINE / PGSIZE - vpn in
  if (d mod 2 =? 0) && (2 <=? d) then xs !! Z.to_nat (d / 2 - 1) else None.

Definition with_stacks (A : Z -> Z) (xs : list Z) (vpn : Z) : Z :=
  match stack_of xs vpn with
  | Some x => mkpte x (Z.lor (Z.lor PTE_R PTE_W) PTE_V)
  | None => A vpn
  end.

Lemma KSTACK_page i : 0 <= i < 64 -> KSTACK i = (67108863 - 2 * (i + 1)) * PGSIZE.
Proof. unfold KSTACK, TRAMPOLINE. change MAXVA with (67108864 * PGSIZE). lia. Qed.

Lemma with_stacks_snoc A xs x vpn : (length xs < 64)%nat ->
  map_range (with_stacks A xs) (KSTACK (Z.of_nat (length xs)) / PGSIZE) 1 x (Z.lor PTE_R PTE_W) vpn = with_stacks A (xs ++ [x]) vpn.
Proof.
  intros Hl. rewrite KSTACK_page by lia. rewrite Z.div_mul by done. unfold map_range, with_stacks, stack_of. change (TRAMPOLINE / PGSIZE) with 67108863.
  set (v := 67108863 - 2 * (Z.of_nat (length xs) + 1)). set (d := 67108863 - vpn).
  destruct (decide (vpn = v)) as [->|Hne].
  - destruct (Z.leb_spec v v), (Z.ltb_spec v (v + 1)); try lia. cbn [andb]. assert (Hd : d = (Z.of_nat (length xs) + 1) * 2) by (unfold d, v; lia).
    rewrite Hd, Z.mod_mul, Z.div_mul by lia. destruct (Z.leb_spec 2 ((Z.of_nat (length xs) + 1) * 2)); [|lia]. cbn [andb Z.eqb].
    rewrite lookup_app_r by lia. replace (Z.to_nat _ - length xs)%nat with 0%nat by lia. simpl. f_equal. lia.
  - replace ((v <=? vpn) && (vpn <? v + 1)) with false by (symmetry; destruct (Z.leb_spec v vpn), (Z.ltb_spec vpn (v + 1)); simpl; lia || done).
    destruct (Z.eqb_spec (d mod 2) 0), (Z.leb_spec 2 d); try done. cbn [andb]. f_equal.
    destruct (decide (Z.to_nat (d / 2 - 1) < length xs)%nat) as [Hlt|Hge]; [by rewrite lookup_app_l|].
    rewrite lookup_ge_None_2 by lia. rewrite lookup_ge_None_2; [done|]. rewrite length_app. simpl. unfold v, d in *. Z.div_mod_to_equations. lia.
Qed.

Lemma stacks_run m0 root fl0 A n : (forall i, 0 <= i < 64 -> A (67108863 - 2 * (i + 1)) = 0) ->
  forall xs s fl, Lk_kmem ∉ k_held s -> kspace m0 s root fl0 fl (with_stacks A xs) xs -> (length xs + n = 64)%nat -> (3 * n <= length fl)%nat ->
  exists s' fl' xs', for_all (seq (length xs) n) (fun i =>
      pa <- kalloc ;;
      if pa =? 0 then panic "kalloc"
      else kvmmap root (KSTACK (Z.of_nat i)) pa PGSIZE (Z.lor PTE_R PTE_W)) s = Ret tt s' /\ same_but_mem s s' /\
    kspace m0 s' root fl0 fl' (with_stacks A xs') xs' /\ length xs' = 64%nat /\ (length fl <= length fl' + 3 * n)%nat.
Proof.
  intros HA. induction n as [|n IH]; intros xs s fl Hlk K Hn Hl; [exists s, fl, xs; split; [done|]; split; [apply same_but_mem_refl|]; split; [done|lia]|].
  destruct fl as [|x fl]; [simpl in Hl; lia|]. destruct (kspace_take _ _ _ _ _ _ _ _ K Hlk) as (s1 & E1 & B1 & Hnz & Hpx & K1).
  cbn [seq for_all]. set (i := Z.of_nat (length xs)). pose proof (KSTACK_page i ltac:(unfold i; lia)) as Hk.
  destruct Hpx as (Hpx1 & Hpx2). pose proof layout_ok as Hlay. assert (Hlk1 : Lk_kmem ∉ k_held s1) by by rewrite (same_but_mem_held _ _ B1).
  destruct (kvmmap_pages m0 s1 root fl0 fl (with_stacks A xs) (xs ++ [x]) (67108863 - 2 * (i + 1)) 1 x (KSTACK i) PGSIZE (Z.lor PTE_R PTE_W) 1 K1 Hlk1) as (s2 & fl2 & E2 & B2 & K2 & Hl2);
    try done; try (unfold PGSIZE, PHYSTOP, KERNBASE, i in *; simpl in Hl; lia); try (by rewrite blocks_1).
  { intros vpn Hvp. replace vpn with (67108863 - 2 * (i + 1)) by lia. unfold with_stacks, stack_of. change (TRAMPOLINE / PGSIZE) with 67108863.
    replace (67108863 - (67108863 - 2 * (i + 1))) with ((i + 1) * 2) by lia. rewrite Z.mod_mul, Z.div_mul by lia. rewrite lookup_ge_None_2 by (unfold i; lia). destruct (_ && _); apply HA; unfold i; lia. }
  destruct (IH (xs ++ [x]) s2 fl2) as (s3 & fl3 & xs3 & E3 & B3 & K3 & H3 & L3); [by rewrite (same_but_mem_held _ _ B2)| |rewrite length_app; simpl; lia|simpl in Hl; lia|].
  { eapply kspace_ext; [exact K2|]. intros vpn _. rewrite <- with_stacks_snoc by lia. fold i. rewrite Hk, Z.div_mul by done. done. }
  exists s3, fl3, xs3. split; [|split; [by eapply same_but_mem_trans; [exact B1|]; eapply same_but_mem_trans|split; [done|split; [done|simpl in *; lia]]]].
  rewrite (bind_Ret _ _ s tt s2); [|rewrite (bind_Ret _ _ _ _ _ E1); destruct (Z.eqb_spec x 0); done].
  rewrite length_app in E3. simpl in E3. rewrite Nat.add_1_r in E3. exact E3.
Qed.

(** *** The whole table *)

(** The address space that vm.c and memlayout.h describe: devices, kernel text
    and memory at their own addresses, the trampoline at the top and below it
    a stack for each process. *)
Definition kernel_map (xs : list Z) (vpn : Z) : Z :=
  let a := vpn * PGSIZE in
  let here perm := mkpte a (Z.lor perm PTE_V) in
  if (a =? UART0) || (a =? VIRTIO0) || ((PLIC <=? a) && (a <? PLIC + 0x400000)) then here (Z.lor PTE_R PTE_W)
  else if (KERNBASE <=? a) && (a <? etext) then here (Z.lor PTE_R PTE_X)
  else if (etext <=? a) && (a <? PHYSTOP) then here (Z.lor PTE_R PTE_W)
  else if a =? TRAMPOLINE then mkpte trampoline (Z.lor (Z.lor PTE_R PTE_X) PTE_V)
  else match stack_of xs vpn with
       | Some x => mkpte x (Z.lor (Z.lor PTE_R PTE_W) PTE_V)
       | None => 0
       end.

(** The same, in the order in which [kvmmake] maps the regions. *)
Definition kernel_regions : Z -> Z :=
  let t := etext / PGSIZE in
  let rw := Z.lor PTE_R PTE_W in
  let rx := Z.lor PTE_R PTE_X in
  map_range (map_range (map_range (map_range (map_range (map_range (fun _ => 0)
    0x10000 1 UART0 rw) 0x10001 1 VIRTIO0 rw) 0xc000 1024 PLIC rw)
    0x80000 (t - 0x80000) KERNBASE rx) t (0x88000 - t) etext rw) 67108863 1 trampoline rx.

Lemma etext_page : etext = etext / PGSIZE * PGSIZE /\ 0x80000 < etext / PGSIZE < 0x88000.
Proof.
  pose proof layout_ok as Hlay. pose proof etext_aligned as He. pose proof trampoline_aligned as Ht. unfold PHYSTOP, KERNBASE, PGSIZE in *. Z.div_mod_to_equations. lia.
Qed.

Lemma stack_of_high xs vpn : (length xs <= 64)%nat -> is_Some (stack_of xs vpn) -> 67108735 <= vpn < 67108863.
Proof.
  intros Hl. unfold stack_of. change (TRAMPOLINE / PGSIZE) with 67108863. destruct (Z.leb_spec 2 (67108863 - vpn)); [|by rewrite andb_false_r; intros [? ?]].
  destruct (Z.eqb_spec ((67108863 - vpn) mod 2) 0); cbn [andb]; [|by intros [? ?]]. intros H1%lookup_lt_is_Some. Z.div_mod_to_equations. lia.
Qed.

Lemma kernel_regions_map xs vpn : (length xs <= 64)%nat -> with_stacks kernel_regions xs vpn = kernel_map xs vpn.
Proof.
  intros Hl. destruct etext_page as [He Ht]. set (t := etext / PGSIZE) in *. unfold with_stacks, kernel_map, kernel_regions, map_range. fold t. rewrite He.
  assert (Hs : is_Some (stack_of xs vpn) -> 67108735 <= vpn < 67108863) by by apply stack_of_high.
  change UART0 with (0x10000 * PGSIZE). change VIRTIO0 with (0x10001 * PGSIZE). change PLIC with (0xc000 * PGSIZE). change KERNBASE with (0x80000 * PGSIZE).
  change PHYSTOP with (0x88000 * PGSIZE). change TRAMPOLINE with (67108863 * PGSIZE). change 0x400000 with (1024 * PGSIZE). unfold PGSIZE in *.
  destruct (stack_of xs vpn) as [x|].
  { pose proof (Hs ltac:(by eexists)). repeat (case_match; try lia); done. }
  clear Hs. destruct (Z.eqb_spec vpn 67108863) as [->|H1].
  { repeat (case_match; try lia). f_equal. lia. }
  repeat (case_match; try lia); f_equal; lia.
Qed.

(** The regions before the stacks. *)
Lemma regions_run s x fl rest : free_pages s (x :: fl) -> Lk_kmem ∉ k_held s -> 500 <= Z.of_nat (length fl) ->
  exists s' fl', same_but_mem s s' /\ (bind kalloc (fun kpgtbl =>
      kmemset kpgtbl 0 PGSIZE ;;;
      kvmmap kpgtbl UART0 UART0 PGSIZE (Z.lor PTE_R PTE_W) ;;;
      kvmmap kpgtbl VIRTIO0 VIRTIO0 PGSIZE (Z.lor PTE_R PTE_W) ;;;
      kvmmap kpgtbl PLIC PLIC 0x400000 (Z.lor PTE_R PTE_W) ;;;
      kvmmap kpgtbl KERNBASE KERNBASE (u64 (etext - KERNBASE)) (Z.lor PTE_R PTE_X) ;;;
      kvmmap kpgtbl etext etext (u64 (PHYSTOP - etext)) (Z.lor PTE_R PTE_W) ;;;
      kvmmap kpgtbl TRAMPOLINE trampoline PGSIZE (Z.lor PTE_R PTE_X) ;;;
      (rest kpgtbl : K Z))) s = rest x s' /\
    kspace (k_mem s) s' x (x :: fl) fl' kernel_regions [] /\ Z.of_nat (length fl) <= Z.of_nat (length fl') + 270.
Proof.
  intros Hf Hlk Hl. destruct etext_page as [He Ht]. pose proof layout_ok as Hlay. destruct (kspace_start s x fl Hf Hlk) as (s1 & s2 & E1 & E2 & B2 & K). assert (Hl2 : Lk_kmem ∉ k_held s2) by by rewrite (same_but_mem_held _ _ B2).
  unfold kernel_regions. set (t := etext / PGSIZE) in *. clearbody t. assert (Hz1 : u64 (etext - KERNBASE) = (t - 0x80000) * PGSIZE) by (rewrite u64_small; unfold PHYSTOP, KERNBASE, PGSIZE in *; lia).
  assert (Hz2 : u64 (PHYSTOP - etext) = (0x88000 - t) * PGSIZE) by (rewrite u64_small; unfold PHYSTOP, KERNBASE, PGSIZE in *; lia).
  rewrite Hz1, Hz2.
  assert (Hperm : 0 <= Z.lor PTE_R PTE_W < 1024 /\ 0 <= Z.lor PTE_R PTE_X < 1024) by (vm_compute; intuition congruence).
  destruct (kvmmap_pages _ _ _ _ _ _ _ 0x10000 1 UART0 UART0 PGSIZE (Z.lor PTE_R PTE_W) 1 K Hl2) as (s3 & fl3 & E3 & B3 & K3 & L3); try done; try tauto; try lia.
  assert (Hl3 : Lk_kmem ∉ k_held s3) by by rewrite (same_but_mem_held _ _ B3).
  destruct (kvmmap_pages _ _ _ _ _ _ _ 0x10001 1 VIRTIO0 VIRTIO0 PGSIZE (Z.lor PTE_R PTE_W) 1 K3 Hl3) as (s4 & fl4 & E4 & B4 & K4 & L4); try done; try tauto; try lia.
  { intros vpn Hv. unfold map_range. repeat (case_match; try lia); done. }
  assert (Hl4 : Lk_kmem ∉ k_held s4) by by rewrite (same_but_mem_held _ _ B4).
  destruct (kvmmap_pages _ _ _ _ _ _ _ 0xc000 1024 PLIC PLIC 0x400000 (Z.lor PTE_R PTE_W) 2 K4 Hl4) as (s5 & fl5 & E5 & B5 & K5 & L5); try done; try tauto; try lia.
  { intros vpn Hv. unfold map_range. repeat (case_match; try lia); done. }
  assert (Hl5 : Lk_kmem ∉ k_held s5) by by rewrite (same_but_mem_held _ _ B5).
  destruct (kvmmap_pages _ _ _ _ _ _ _ 0x80000 (t - 0x80000) KERNBASE KERNBASE ((t - 0x80000) * PGSIZE) (Z.lor PTE_R PTE_X) 65 K5 Hl5) as (s6 & fl6 & E6 & B6 & K6 & L6); try done; try tauto; try lia.
  { unfold KERNBASE, PGSIZE. lia. }
  { intros vpn Hv. unfold map_range. repeat (case_match; try lia); done. }
  { apply blocks_bound; lia. }
  assert (Hl6 : Lk_kmem ∉ k_held s6) by by rewrite (same_but_mem_held _ _ B6).
  destruct (kvmmap_pages _ _ _ _ _ _ _ t (0x88000 - t) etext etext ((0x88000 - t) * PGSIZE) (Z.lor PTE_R PTE_W) 65 K6 Hl6) as (s7 & fl7 & E7 & B7 & K7 & L7); try done; try tauto; try lia.
  { unfold PHYSTOP, KERNBASE, PGSIZE in *. lia. }
  { unfold PHYSTOP, KERNBASE, PGSIZE in *. lia. }
  { intros vpn Hv. unfold map_range. repeat (case_match; try lia); done. }
  { apply blocks_bound; lia. }
  assert (Hl7 : Lk_kmem ∉ k_held s7) by by rewrite (same_but_mem_held _ _ B7).
  destruct (kvmmap_pages _ _ _ _ _ _ _ 67108863 1 trampoline TRAMPOLINE PGSIZE (Z.lor PTE_R PTE_X) 1 K7 Hl7) as (s8 & fl8 & E8 & B8 & K8 & L8); try done; try tauto; try lia.
  { unfold PHYSTOP, KERNBASE, PGSIZE in *. lia. }
  { unfold PHYSTOP, KERNBASE, PGSIZE in *. lia. }
  { intros vpn Hv. unfold map_range. repeat (case_match; try lia); done. }
  exists s8, fl8. split; [repeat (eapply same_but_mem_trans; [eassumption|]); apply same_but_mem_refl|]. split; [|split; [exact K8|lia]].
  rewrite (bind_Ret _ _ _ _ _ E1), (bind_Ret _ _ _ _ _ E2), (bind_Ret _ _ _ _ _ E3), (bind_Ret _ _ _ _ _ E4), (bind_Ret _ _ _ _ _ E5), (bind_Ret _ _ _ _ _ E6), (bind_Ret _ _ _ _ _ E7). exact (bind_Ret _ _ _ _ _ E8).
Qed.

Lemma kvmmake_run s fl :
  free_pages s fl -> Lk_kmem ∉ k_held s -> 501 <= Z.of_nat (length fl) ->
  exists root s' fl' stacks, kvmmake s = Ret root s' /\ same_but_mem s s' /\ kspace (k_mem s) s' root fl fl' (kernel_map stacks) stacks /\
    length stacks = 64%nat /\ Z.of_nat (length fl) <= Z.of_nat (length fl') + 463.
Proof.
  intros Hf Hlk Hl. destruct fl as [|x fl]; [simpl in Hl; lia|].
  destruct (regions_run s x fl (fun kpgtbl => proc_mapstacks kpgtbl ;;; ret kpgtbl) Hf Hlk) as (s1 & fl1 & B1 & E1 & K1 & L1); [simpl in Hl; lia|].
  destruct (stacks_run (k_mem s) x (x :: fl) kernel_regions 64) with (xs := @nil Z) (s := s1) (fl := fl1) as (s2 & fl2 & xs & E2 & B2 & K2 & Hx & L2); [| | |done|simpl in Hl; lia|].
  { intros i Hi. destruct etext_page as [_ Ht]. unfold kernel_regions, map_range. repeat (case_match; try lia); done. }
  { by rewrite (same_but_mem_held _ _ B1). }
  { eapply kspace_ext; [exact K1|]. intros vpn _. unfold with_stacks, stack_of. rewrite lookup_nil. by destruct (_ && _). }
  exists x, s2, fl2, xs. split; [unfold kvmmake; rewrite E1; exact (bind_Ret _ _ _ _ _ E2)|]. split; [by eapply same_but_mem_trans|].
  split; [eapply kspace_ext; [exact K2|]; intros vpn _; apply kernel_regions_map; lia|]. split; [done|simpl in *; lia].
Qed.

(** C7: [kvmmake], given 501 free pages, returns the root of a well-formed page
    table that implements exactly the kernel's address space: the devices,
    the kernel's text (not writable) and the rest of memory (not executable)
    at their own addresses, the trampoline at the top, one writable stack for
    each of the 64 processes with an unmapped guard page below it, and nothing
    else. The stacks are distinct pages that are neither free nor part of the
    table, and no page but free ones has been written. *)
Theorem kvmmake_correct s fl :
  free_pages s fl -> Lk_kmem ∉ k_held s -> 501 <= Z.of_nat (length fl) ->
  exists root s' fl' stacks, kvmmake s = Ret root s' /\ vm_inv s' root fl' /\ same_but_mem s s' /\
    (forall vpn, vpn_ok vpn -> aspace (k_mem s') root vpn = kernel_map stacks vpn) /\
    length stacks = 64%nat /\ NoDup stacks /\
    Forall (fun x => x ∈ fl /\ (x ∉ fl') /\ x ∉ tables (k_mem s') 2 root) stacks /\
    (forall x, x ∈ fl' -> x ∈ fl) /\ (forall q, aligned q -> q ∉ fl -> same_page (k_mem s) (k_mem s') q).
Proof.
  intros Hf Hlk Hl. destruct (kvmmake_run s fl Hf Hlk Hl) as (root & s' & fl' & xs & E & B & [J1 J2 J3 J4 J5 [J6 J7]] & Hx & _).
  exists root, s', fl', xs. split_and!; done.
Qed.
End VmKernel.

Module VmKernelWitness.
(** The free list after [kinit] at boot. *)
Lemma kvmmake_correct_witness : exists (s1 : kstate) (root : Z) (s' : kstate) (stacks : list Z), @kinit sym_layout boot = Ret tt s1 /\
  @kvmmake sym_layout s1 = Ret root s' /\ length stacks = 64%nat /\
  aspace (k_mem s') root (KERNBASE / PGSIZE) = mkpte KERNBASE (Z.lor (Z.lor PTE_R PTE_X) PTE_V).
Proof.
  destruct (@kinit_correct sym_layout boot eq_refl eq_refl) as (s1 & E & Hh & Hf & _). exists s1.
  destruct (@kvmmake_correct sym_layout s1 _ Hf) as (root & s' & fl' & stacks & E2 & _ & _ & Hm & Hl & _).
  - rewrite Hh. by apply not_elem_of_nil.
  - unfold pages_down. rewrite length_rev, length_map, length_seq, Z2Nat.id by (vm_compute; intros H; discriminate H). vm_compute. intros H; discriminate H.
  - exists root, s', stacks. split; [exact E|]. split; [exact E2|]. split; [exact Hl|]. rewrite Hm; [reflexivity|]. vm_compute. split; [intros H; discriminate H|reflexivity].
Defined.
End VmKernelWitness.
