(* ===== verification/VmWitness.v ===== *)
(** * The page-table theorems at a concrete machine state

    An address space with one user page at virtual address 0 and eight free
    pages, on which the hypotheses of the theorems of [VmUser] hold. *)

From S2P Require Import Prelude Machine State Kalloc Vm VmFacts VmUser.

Module VmWitness.
#[local] Existing Instance sym_layout.
#[local] Transparent tables find_pte pte_of.

Definition rootP : Z := 0x80050000.
Definition l1P : Z := 0x80051000.
Definition l0P : Z := 0x80052000.
Definition userP : Z := 0x80053000.
Definition freeP : list Z :=
  [0x80054000; 0x80055000; 0x80056000; 0x80057000; 0x80058000; 0x80059000; 0x8005a000; 0x8005b000].

(** The free list in memory. *)
Fixpoint link (l : list Z) (m : memory) : memory :=
  match l with
  | [] => m
  | x :: l' => st64 (link l' m) x (match l' with [] => 0 | y :: _ => y end)
  end.

Definition demo_mem (leaf : Z) : memory :=
  st64 (st64 (st64 (link freeP (fun _ => 0)) rootP (mkpte l1P PTE_V)) l1P (mkpte l0P PTE_V)) l0P leaf.

Definition demo (leaf : Z) : kstate := set_k_freelist 0x80054000 (set_k_mem (demo_mem leaf) boot).

(** Virtual page 0 mapped read-write for the user. *)
Definition leafU : Z := mkpte userP (Z.lor USER_RWX PTE_V).

Lemma demo_inv leaf : leaf = 0 \/ leaf = leafU -> vm_inv (demo leaf) rootP freeP.
Proof.
  intros H. assert (HT : tables (demo_mem leaf) 2 rootP = [rootP; l1P; l0P]).
  { destruct H as [->| ->]; vm_compute; reflexivity. }
  unfold vm_inv, tree_ok. change (k_mem (demo leaf)) with (demo_mem leaf). rewrite HT.
  split; [|split].
  - split; [|split].
    + destruct H as [->| ->]; vm_compute; intuition reflexivity.
    + apply (bool_decide_unpack _). vm_compute. exact I.
    + repeat constructor; vm_compute; congruence.
  - apply (bool_decide_unpack _). vm_compute. exact I.
  - repeat constructor; vm_compute; congruence.
Qed.

Lemma demo_unlocked leaf : Lk_kmem ∉ k_held (demo leaf).
Proof. apply not_elem_of_nil. Qed.

Lemma mappages_walkaddr_witness :
  exists s', mappages rootP 0x1000 4096 0x80060000 (Z.lor PTE_R PTE_U) (demo leafU) = Ret 0 s' /\
    walkaddr rootP 0x1abc s' = Ret 0x80060000 s' /\ walkaddr rootP 0xabc s' = Ret userP s'.
Proof.
  destruct (mappages_walkaddr (demo leafU) rootP freeP 0x1000 4096 0x80060000 (Z.lor PTE_R PTE_U))
    as (r & s' & fl' & Hr & _ & H0 & _ & _ & Hw).
  - apply demo_inv. by right.
  - apply demo_unlocked.
  - lia.
  - lia.
  - vm_compute. congruence.
  - lia.
  - unfold PGSIZE. lia.
  - reflexivity.
  - vm_compute. intuition congruence.
  - reflexivity.
  - intros vpn Hv. change (0x1000 / PGSIZE) with 1 in Hv.
    change ((0x1000 + 4096 - 1) / PGSIZE) with 1 in Hv. assert (vpn = 1) as -> by lia.
    vm_compute. reflexivity.
  - assert (r = 0) as -> by (apply H0; vm_compute; congruence).
    exists s'. split; [exact Hr|]. split.
    + exact (Hw eq_refl 0x1abc ltac:(lia)).
    + exact (Hw eq_refl 0xabc ltac:(lia)).
Defined.

Lemma uvmalloc_correct_witness :
  exists s', uvmalloc rootP 4096 8000 (demo leafU) = Ret 8000 s'.
Proof.
  destruct (uvmalloc_correct (demo leafU) rootP freeP 4096 8000) as (r & s' & Hr & fl' & Hp).
  - apply demo_inv. by right.
  - apply demo_unlocked.
  - lia.
  - vm_compute. congruence.
  - intros vpn Hv. change (PGROUNDUP 4096 / PGSIZE) with 1 in Hv. change (PGROUNDUP 8000 / PGSIZE) with 2 in Hv.
    assert (vpn = 1) as -> by lia. vm_compute. reflexivity.
  - destruct Hp as [[-> _]|(_ & Hl & _)].
    + by exists s'.
    + vm_compute in Hl. lia.
Defined.

(** Entries other than the first of each table are empty. *)
Lemma demo_entry leaf p i :
  leaf = 0 \/ leaf = leafU -> p = rootP \/ p = l1P \/ p = l0P -> 0 <= i < 512 ->
  entry (demo_mem leaf) p i = if i =? 0 then entry (demo_mem leaf) p 0 else 0.
Proof.
  intros Hl Hp Hi.
  assert (HB : forallb (fun n => entry (demo_mem leaf) p (Z.of_nat n) =?
    (if Z.of_nat n =? 0 then entry (demo_mem leaf) p 0 else 0)) (seq 0 512) = true).
  { destruct Hl as [->| ->], Hp as [->|[->| ->]]; vm_compute; reflexivity. }
  rewrite forallb_forall in HB. specialize (HB (Z.to_nat i)). rewrite Z2Nat.id in HB by lia.
  apply Z.eqb_eq, HB, in_seq. lia.
Qed.

(** Only virtual page 0 is mapped. *)
Lemma demo_aspace vpn : vpn_ok vpn -> aspace (demo_mem leafU) rootP vpn = if vpn =? 0 then leafU else 0.
Proof.
  intros Hv. unfold aspace, pte_of, find_pte. set (va := vpn * PGSIZE).
  change (Z.of_nat 2) with 2. change (Z.of_nat 1) with 1.
  pose proof (PX_range 2 va ltac:(lia)). pose proof (PX_range 1 va ltac:(lia)). pose proof (PX_range 0 va ltac:(lia)).
  assert (Hva : 0 <= va < MAXVA).
  { unfold va, vpn_ok in *. change (MAXVA / PGSIZE) with 67108864 in Hv. change MAXVA with 274877906944.
    unfold PGSIZE. lia. }
  destruct (Z.eqb_spec vpn 0) as [->|Hne]; [vm_compute; reflexivity|].
  unfold kid at 1. rewrite (demo_entry leafU rootP) by tauto.
  destruct (Z.eqb_spec (PX 2 va) 0) as [E2|]; [|reflexivity].
  change (hasbit (entry (demo_mem leafU) rootP 0) PTE_V) with true. cbv iota.
  change (PTE2PA (entry (demo_mem leafU) rootP 0)) with l1P.
  unfold kid. rewrite (demo_entry leafU l1P) by tauto.
  destruct (Z.eqb_spec (PX 1 va) 0) as [E1|]; [|reflexivity].
  change (hasbit (entry (demo_mem leafU) l1P 0) PTE_V) with true. cbv iota.
  change (PTE2PA (entry (demo_mem leafU) l1P 0)) with l0P.
  fold (entry (demo_mem leafU) l0P (PX 0 va)). rewrite (demo_entry leafU l0P) by tauto.
  destruct (Z.eqb_spec (PX 0 va) 0) as [E0|]; [|reflexivity].
  exfalso. apply Hne. pose proof (PX_inj va 0 Hva ltac:(vm_compute; intuition congruence) E2 E1 E0) as E.
  change (0 / PGSIZE) with 0 in E. unfold va in E. rewrite Z.div_mul in E by discriminate. exact E.
Qed.

Lemma demo_user_ok : user_ok (demo leafU) rootP freeP.
Proof.
  change (k_mem (demo leafU)) with (demo_mem leafU).
  assert (H0 : forall vpn, vpn_ok vpn -> uvalid (aspace (demo_mem leafU) rootP vpn) = true -> vpn = 0).
  { intros vpn Hv. rewrite demo_aspace by done. by destruct (Z.eqb_spec vpn 0). }
  split; change (k_mem (demo leafU)) with (demo_mem leafU).
  - intros vpn Hv Hu. rewrite (H0 vpn Hv Hu), demo_aspace by (vm_compute; intuition congruence).
    change (PTE2PA (if 0 =? 0 then leafU else 0)) with userP.
    split; apply (bool_decide_unpack _); vm_compute; exact I.
  - intros v v' Hv Hv' Hu Hu' _. by rewrite (H0 v Hv Hu), (H0 v' Hv' Hu').
Qed.

Lemma copyout_copyin_witness :
  (exists s', copyout rootP 4090 [104; 105] (demo leafU) = Ret 0 s' /\ copyin rootP 4090 2 s' = Ret (0, [104; 105]) s') /\ (exists s', copyout rootP 4095 [104; 105] (demo leafU) = Ret (-1) s').
Proof.
  split.
  - destruct (proj1 (copyout_copyin (demo leafU) rootP freeP 4090 [104; 105]
      (demo_inv _ ltac:(by right)) demo_user_ok ltac:(lia) ltac:(simpl; unfold PGSIZE; lia)
      ltac:(repeat constructor; lia))) as (s' & Hr & _ & Hc).
    + intros i Hi. simpl in Hi. assert (i = 0 \/ i = 1) as [-> | ->] by lia; vm_compute; discriminate.
    + exists s'. split; [exact Hr|exact Hc].
  - destruct (proj2 (copyout_copyin (demo leafU) rootP freeP 4095 [104; 105]
      (demo_inv _ ltac:(by right)) demo_user_ok ltac:(lia) ltac:(simpl; unfold PGSIZE; lia)
      ltac:(repeat constructor; lia))) as (s' & k & Hr & _).
    + intros H. apply (H 1); [simpl; lia|]. vm_compute. reflexivity.
    + exists s'. exact Hr.
Defined.

Lemma freewalk_correct_witness :
  exists s' new, freewalk rootP (demo 0) = Ret tt s' /\ free_pages s' (new ++ freeP) /\
    new ≡ₚ [rootP; l1P; l0P].
Proof.
  destruct (freewalk_correct (demo 0) rootP freeP) as (s' & new & Hr & Hf & HP & _).
  - apply demo_inv. by left.
  - change (k_mem (demo 0)) with (demo_mem 0).
    intros i Hi. rewrite (demo_entry 0 rootP) by tauto. destruct (Z.eqb_spec i 0); [intros _|discriminate].
    split; [reflexivity|]. change (PTE2PA (entry (demo_mem 0) rootP 0)) with l1P.
    intros j Hj. rewrite (demo_entry 0 l1P) by tauto. destruct (Z.eqb_spec j 0); [intros _|discriminate].
    split; [reflexivity|]. change (PTE2PA (entry (demo_mem 0) l1P 0)) with l0P.
    intros k Hk. rewrite (demo_entry 0 l0P) by tauto. destruct (Z.eqb_spec k 0); intros H; vm_compute in H; discriminate H.
  - apply demo_unlocked.
  - exists s', new. split; [exact Hr|]. split; [exact Hf|]. rewrite HP. vm_compute. done.
Defined.
End VmWitness.
