(* ===== verification/Printf.v ===== *)
(** * kernel/printf.c, and the synchronous output path of kernel/uart.c

    [printf] down to the bytes it hands to the UART, and the proof that
    these bytes are the formatted string: numbers are rendered most
    significant digit first with no leading zero, and reading the digits
    back gives the number. *)

From S2P Require Import Prelude Machine State.

(** Behaviour the C standard leaves undefined (a missing or mistyped
    variadic argument, an index outside an array). *)
Definition undefined {A} : K A := panic "undefined behaviour".

(** [for(;;);] *)
Definition spin {A} : K A := fun s => Fuel s.

Definition upd_io (f : iostate -> iostate) : K unit := modify (fun s => set_k_io (f (k_io s)) s).

(** ** kernel/uart.c: the device and [uartputc_sync] *)

Definition LSR_RX_READY : Z := 1.
Definition LSR_TX_IDLE : Z := 32.

(** [ReadReg(LSR)]: the device says whether input waits and whether its
    transmitter is idle. *)
Definition ReadLSR : K Z := fun s =>
  let io := k_io s in
  let idle := match io_idle io with [] => true | b :: _ => b end in
  Ret (match io_in io with [] => 0 | _ => LSR_RX_READY end + (if idle then LSR_TX_IDLE else 0))
      (set_k_io (set_io_idle (tail (io_idle io)) io) s).

(** [WriteReg(THR, c)] *)
Definition WriteTHR (c : Z) : K unit := upd_io (fun io => set_io_out (u8 c :: io_out io) io).

(** [push_off]/[pop_off] keep interrupts off around it, which one hart's
    sequence of steps does not show. *)
Definition uartputc_sync (c : Z) : K unit :=
  io <- gets k_io ;;
  if negb (io_panicked io =? 0) then spin
  else
    loop (fun _ : unit =>
      lsr <- ReadLSR ;;
      if Z.land lsr LSR_TX_IDLE =? 0 then ret (inl tt) else ret (inr tt)) tt ;;;
    WriteTHR c.

(** ** kernel/console.c: [consputc] *)

Definition BACKSPACE : Z := 0x100.

Definition consputc (c : Z) : K unit :=
  if c =? BACKSPACE
  then uartputc_sync 8 ;;; uartputc_sync 32 ;;; uartputc_sync 8
  else uartputc_sync c.

(** ** kernel/printf.c *)

(** ["0123456789abcdef"] *)
Definition digits : list Z := [48; 49; 50; 51; 52; 53; 54; 55; 56; 57; 97; 98; 99; 100; 101; 102].

Definition digit (x : Z) : Z := nth (Z.to_nat x) digits 0.

(** The digits of [x], last first, as the [do ... while] fills [buf]. *)
Definition printint_digits (x base : Z) (buf : list Z) : K (list Z) :=
  loop (fun '(x, buf) =>
    let buf := buf ++ [digit (x mod base)] in
    let x := x / base in
    if negb (x =? 0) then ret (inl (x, buf)) else ret (inr buf)) (x, buf).

Definition printint (xx base : Z) (sign : bool) : K unit :=
  let neg := sign && (xx <? 0) in
  let x := if neg then u32 (i32 (- xx)) else u32 xx in
  buf <- printint_digits x base [] ;;
  let buf := if neg then buf ++ [45] else buf in
  for_all (rev buf) consputc.

Definition printptr (x : Z) : K unit :=
  consputc 48 ;;; consputc 120 ;;;
  loop (fun '(i, x) =>
    if i <? 16
    then consputc (digit (Z.shiftr x 60)) ;;; ret (inl (i + 1, u64 (Z.shiftl x 4)))
    else ret (inr tt)) (0, x).

(** The variadic arguments. *)
Inductive arg := AInt (z : Z) | APtr (z : Z) | AStr (s : option (list Z)).

(** ["(null)"] *)
Definition null_str : list Z := [40; 110; 117; 108; 108; 41].

(** The loop over the format [fmt] (its bytes up to the NUL). *)
Fixpoint printf_loop (fmt : list Z) (ap : list arg) : K unit :=
  match fmt with
  | [] => ret tt
  | c :: fmt' =>
      if negb (c =? 37) then consputc c ;;; printf_loop fmt' ap
      else
        match fmt' with
        | [] => ret tt
        | c :: fmt'' =>
            if c =? 100 then
              match ap with
              | AInt z :: ap' => printint z 10 true ;;; printf_loop fmt'' ap'
              | _ => undefined
              end
            else if c =? 120 then
              match ap with
              | AInt z :: ap' => printint z 16 true ;;; printf_loop fmt'' ap'
              | _ => undefined
              end
            else if c =? 112 then
              match ap with
              | APtr z :: ap' => printptr z ;;; printf_loop fmt'' ap'
              | _ => undefined
              end
            else if c =? 115 then
              match ap with
              | AStr s :: ap' =>
                  for_all (match s with Some l => l | None => null_str end) consputc ;;;
                  printf_loop fmt'' ap'
              | _ => undefined
              end
            else if c =? 37 then consputc 37 ;;; printf_loop fmt'' ap
            else consputc 37 ;;; consputc c ;;; printf_loop fmt'' ap
        end
  end.

(** [fmt] is [None] for a null pointer. *)
Definition printf (fmt : option (list Z)) (ap : list arg) : K unit :=
  io <- gets k_io ;;
  let locking := negb (io_locking io =? 0) in
  when locking (acquire Lk_pr) ;;;
  match fmt with
  | None => panic "null fmt"
  | Some fmt => printf_loop fmt ap ;;; when locking (release Lk_pr)
  end.

Definition printfinit : K unit := upd_io (set_io_locking 1).

(** Format strings written as Rocq strings. *)
Fixpoint bytes (s : string) : list Z :=
  match s with
  | EmptyString => []
  | String c s' => Z.of_N (Ascii.N_of_ascii c) :: bytes s'
  end.

Lemma bytes_byte s : Forall (fun c => 0 <= c < 256) (bytes s).
Proof.
  induction s as [|c s IH]; cbn; [apply Forall_nil_2|]. apply Forall_cons. split; [|done].
  pose proof (Ascii.N_ascii_bounded c). lia.
Qed.

(** ** What is printed *)

(** The UART accepts output: no hart has panicked, and it is not busy for
    more polls than a counter can count. *)
Definition uart_ready (s : kstate) : Prop :=
  io_panicked (k_io s) = 0 /\ Z.of_nat (length (io_idle (k_io s))) < 2 ^ 64.

(** [s'] is [s] after the UART has sent [l]. *)
Definition sent (l : list Z) (s s' : kstate) : Prop :=
  exists idle, (length idle <= length (io_idle (k_io s)))%nat /\
    s' = set_k_io (set_io_out (rev l ++ io_out (k_io s)) (set_io_idle idle (k_io s))) s.

(** [m] sends [l] and does nothing else. *)
Definition prints (l : list Z) (m : K unit) : Prop :=
  forall s, uart_ready s -> exists s', m s = Ret tt s' /\ sent l s s'.

Lemma sent_ready l s s' : uart_ready s -> sent l s s' -> uart_ready s'.
Proof. intros [H1 H2] (idle & Hl & ->). split; [exact H1|]. kred. cbn. lia. Qed.

Lemma sent_app l1 l2 s1 s2 s3 : sent l1 s1 s2 -> sent l2 s2 s3 -> sent (l1 ++ l2) s1 s3.
Proof.
  intros (i1 & H1 & ->) (i2 & H2 & ->). exists i2. split; [kred; cbn in *; lia|].
  rewrite rev_app_distr, <- app_assoc. by destruct s1.
Qed.

Lemma prints_ret : prints [] (ret tt).
Proof.
  intros s _. exists s. split; [done|]. exists (io_idle (k_io s)). split; [lia|].
  destruct s as [? ? ? ? ? ? ? ? ? ? ? ? ? ? ? io]. by destruct io.
Qed.

Lemma prints_bind l1 l2 m1 m2 : prints l1 m1 -> prints l2 m2 -> prints (l1 ++ l2) (m1 ;;; m2).
Proof.
  intros H1 H2 s Hs. destruct (H1 s Hs) as (s1 & E1 & S1).
  destruct (H2 s1 (sent_ready _ _ _ Hs S1)) as (s2 & E2 & S2).
  exists s2. rewrite (bind_Ret _ _ _ _ _ E1). split; [exact E2|]. by apply (sent_app l1 l2 s s1).
Qed.

Lemma uartputc_sync_prints c : prints [u8 c] (uartputc_sync c).
Proof.
  intros s [Hp Hi]. unfold uartputc_sync. krun. rewrite Hp. cbn [Z.eqb negb].
  set (body := fun _ : unit => _).
  assert (HL : exists idle, (length idle <= length (io_idle (k_io s)))%nat /\
            loop body tt s = Ret tt (set_k_io (set_io_idle idle (k_io s)) s)).
  { apply (loop_measure body
      (fun _ s1 => exists idle, (length idle <= length (io_idle (k_io s)))%nat /\
         s1 = set_k_io (set_io_idle idle (k_io s)) s)
      (fun _ s1 => length (io_idle (k_io s1)))
      (fun o => exists idle, (length idle <= length (io_idle (k_io s)))%nat /\
         o = Ret tt (set_k_io (set_io_idle idle (k_io s)) s))).
    - intros [] s1 (idle & Hl & ->). unfold body, ReadLSR. unfold bind. cbn.
      destruct idle as [|[|] idle]; cbn in *.
      + right; left. exists tt, (set_k_io (set_io_idle [] (k_io s)) s).
        split; [by destruct (io_in (k_io s))|]. exists []. split; [simpl; lia|done].
      + right; left. exists tt, (set_k_io (set_io_idle idle (k_io s)) s).
        split; [by destruct (io_in (k_io s))|]. exists idle. split; [lia|done].
      + left. exists tt, (set_k_io (set_io_idle idle (k_io s)) s).
        split; [by destruct (io_in (k_io s))|]. split; [|simpl; lia]. exists idle. split; [lia|done].
    - exists (io_idle (k_io s)). split; [lia|]. destruct s as [? ? ? ? ? ? ? ? ? ? ? ? ? ? ? io]. by destruct io.
    - exact Hi. }
  destruct HL as (idle & Hl & HL). rewrite (bind_Ret _ _ _ _ _ HL).
  eexists. split; [reflexivity|]. exists idle. split; [done|]. done.
Qed.

Lemma consputc_prints c : c <> BACKSPACE -> prints [u8 c] (consputc c).
Proof. intros H. unfold consputc. destruct (Z.eqb_spec c BACKSPACE); [done|]. apply uartputc_sync_prints. Qed.

Lemma consputc_all_prints l : Forall (fun c => 0 <= c < 256) l -> prints l (for_all l consputc).
Proof.
  induction 1 as [|c l Hc Hl IH]; [apply prints_ret|].
  cbn [for_all]. change (c :: l) with ([c] ++ l). apply prints_bind; [|done].
  replace c with (u8 c) at 1 by (apply u8_small; lia). apply consputc_prints. unfold BACKSPACE. lia.
Qed.

(** ** Numerals *)

(** The digits of [x] in base [base], last digit first; [fuel] bounds their
    number. *)
Fixpoint numeral_le (fuel : nat) (base x : Z) : list Z :=
  digit (x mod base) ::
  (if x / base =? 0 then []
   else match fuel with O => [] | S f => numeral_le f base (x / base) end).

Definition digit_val (c : Z) : Z := if c <=? 57 then c - 48 else c - 87.

(** Reading a numeral, most significant digit first. *)
Definition value (base : Z) (l : list Z) : Z := fold_left (fun acc c => acc * base + digit_val c) l 0.

(** What [printint] prints for the [int] [xx]. *)
Definition render (base xx : Z) : list Z :=
  if xx <? 0 then 45 :: rev (numeral_le 32 base (- xx)) else rev (numeral_le 32 base xx).

(** Reading it back. *)
Definition read_int (base : Z) (l : list Z) : Z :=
  match l with
  | 45 :: l' => - value base l'
  | _ => value base l
  end.

Lemma digit_cases d : 0 <= d < 16 ->
  digit d = d + 48 /\ d < 10 \/ digit d = d + 87 /\ 10 <= d.
Proof.
  intros H. assert (Hd : d ∈ seqZ 0 16) by (apply elem_of_seqZ; lia).
  repeat (apply elem_of_cons in Hd as [->|Hd]; [vm_compute; intuition congruence|]). by apply elem_of_nil in Hd.
Qed.

Lemma digit_val_digit d : 0 <= d < 16 -> digit_val (digit d) = d.
Proof.
  intros H. unfold digit_val. destruct (digit_cases d H) as [[-> ?]|[-> ?]];
    destruct (Z.leb_spec (d + 48) 57), (Z.leb_spec (d + 87) 57); lia.
Qed.

Lemma digit_byte d : 0 <= d < 16 -> 48 <= digit d < 103.
Proof. intros H. destruct (digit_cases d H) as [[-> ?]|[-> ?]]; lia. Qed.

Lemma value_snoc base l c : value base (l ++ [c]) = value base l * base + digit_val c.
Proof. unfold value. by rewrite fold_left_app. Qed.

Lemma numeral_facts fuel base x :
  2 <= base <= 16 -> 0 <= x < 2 ^ Z.of_nat (S fuel) ->
  value base (rev (numeral_le fuel base x)) = x /\
  Forall (fun c => 48 <= c < 103) (numeral_le fuel base x) /\
  (0 < x -> exists d, last (numeral_le fuel base x) = Some (digit d) /\ 0 < d < 16).
Proof.
  intros Hb. revert x. induction fuel as [|f IH]; intros x Hx; cbn [numeral_le rev];
    pose proof (Z.mod_pos_bound x base ltac:(lia)) as Hm; rewrite value_snoc, digit_val_digit by lia.
  - change (2 ^ Z.of_nat 1) with 2 in Hx. rewrite Z.div_small, Z.mod_small by lia. cbn [Z.eqb rev value fold_left].
    split; [cbn; lia|]. split; [constructor; [apply digit_byte; lia|constructor]|].
    intros. exists x. split; [done|lia].
  - rewrite Nat2Z.inj_succ, Z.pow_succ_r in Hx by lia.
    destruct (Z.eqb_spec (x / base) 0) as [E|E].
    + assert (Hs : 0 <= x < base) by (split; [lia|]; apply Z.div_small_iff in E; lia).
      rewrite Z.mod_small in * by lia. cbn [rev value fold_left]. split; [cbn; lia|].
      split; [constructor; [apply digit_byte; lia|constructor]|]. intros. exists x. split; [done|lia].
    + assert (Hq : 0 <= x / base < 2 ^ Z.of_nat (S f)).
      { split; [apply Z.div_pos; lia|]. apply Z.div_lt_upper_bound; [lia|]. nia. }
      destruct (IH (x / base) Hq) as (Hv & Hf & Hl). rewrite Hv. split; [rewrite (Z.div_mod x base) at 3 by lia; lia|].
      split; [constructor; [apply digit_byte; lia|done]|].
      intros _. destruct (Hl ltac:(lia)) as (d & Hd & Hr). exists d. split; [|done].
      destruct (numeral_le f base (x / base)); [discriminate Hd|exact Hd].
Qed.

Lemma printint_digits_spec base x buf s :
  2 <= base <= 16 -> 0 <= x < 2 ^ 33 ->
  printint_digits x base buf s = Ret (buf ++ numeral_le 32 base x) s.
Proof.
  intros Hb Hx. unfold printint_digits.
  apply (loop_measure _
    (fun '(x1, buf1) s1 => s1 = s /\ exists f, 0 <= x1 < 2 ^ Z.of_nat (S f) /\
       buf ++ numeral_le 32 base x = buf1 ++ numeral_le f base x1)
    (fun '(x1, _) _ => Z.to_nat x1) (fun o => o = Ret (buf ++ numeral_le 32 base x) s)).
  - intros [x1 buf1] s1 (-> & f & Hx1 & HE). cbv zeta.
    destruct (Z.eqb_spec (x1 / base) 0) as [E|E]; cbn [negb].
    + right; left. do 2 eexists. split; [done|]. rewrite HE. destruct f; cbn [numeral_le]; by rewrite E.
    + left. do 2 eexists. split; [done|].
      assert (Hlt : 0 < x1 / base < x1).
      { assert (0 < x1 / base) by (pose proof (Z.div_pos x1 base ltac:(lia) ltac:(lia)); lia).
        assert (x1 <> 0) by (intros ->; by rewrite Z.div_0_l in E by lia).
        split; [done|]. apply Z.div_lt; lia. }
      split; [|lia]. split; [done|]. destruct f as [|f].
      { change (2 ^ Z.of_nat 1) with 2 in Hx1. lia. }
      exists f. split.
      * split; [lia|]. rewrite Nat2Z.inj_succ, Z.pow_succ_r in Hx1 by lia.
        apply Z.div_lt_upper_bound; [lia|]. nia.
      * rewrite HE. cbn [numeral_le]. destruct (Z.eqb_spec (x1 / base) 0); [done|].
        by rewrite <- app_assoc.
  - split; [done|]. exists 32%nat. split; [change (2 ^ Z.of_nat 33) with (2 ^ 33); lia|done].
  - lia.
Qed.

Lemma render_bytes base xx :
  2 <= base <= 16 -> - 2 ^ 31 <= xx < 2 ^ 31 -> Forall (fun c => 0 <= c < 256) (render base xx).
Proof.
  intros Hb Hx. unfold render. destruct (Z.ltb_spec xx 0).
  - constructor; [lia|]. apply Forall_rev.
    destruct (numeral_facts 32 base (- xx) Hb) as (_ & Hf & _); [change (2 ^ Z.of_nat 33) with (2 ^ 33); lia|].
    eapply Forall_impl; [exact Hf|]. simpl. lia.
  - apply Forall_rev.
    destruct (numeral_facts 32 base xx Hb) as (_ & Hf & _); [change (2 ^ Z.of_nat 33) with (2 ^ 33); lia|].
    eapply Forall_impl; [exact Hf|]. simpl. lia.
Qed.

Lemma printint_prints base xx :
  2 <= base <= 16 -> - 2 ^ 31 <= xx < 2 ^ 31 -> prints (render base xx) (printint xx base true).
Proof.
  intros Hb Hx s Hs. unfold printint. cbn [andb].
  pose proof (consputc_all_prints _ (render_bytes base xx Hb Hx) s Hs) as HP. unfold render in *.
  destruct (Z.ltb_spec xx 0) as [Hn|Hn].
  - assert (Hu : u32 (i32 (- xx)) = - xx).
    { destruct (decide (xx = - 2 ^ 31)) as [->|]; [reflexivity|]. rewrite i32_small, u32_small by lia. done. }
    rewrite Hu. rewrite (bind_Ret _ _ _ _ _ (printint_digits_spec base (- xx) [] s Hb ltac:(lia))).
    rewrite app_nil_l, rev_app_distr. exact HP.
  - rewrite u32_small by lia.
    rewrite (bind_Ret _ _ _ _ _ (printint_digits_spec base xx [] s Hb ltac:(lia))). exact HP.
Qed.

(** ** Formats *)

(** The sixteen hexadecimal digits of a 64-bit pointer. *)
Definition render_ptr (x : Z) : list Z :=
  48 :: 120 :: map (fun i => digit (x / 16 ^ (15 - Z.of_nat i) mod 16)) (seq 0 16).

(** The loop of [printptr]: the digit at the top, and the shift to the next. *)
Lemma top_digit x i : 0 <= i < 16 -> Z.shiftr (u64 (x * 16 ^ i)) 60 = x / 16 ^ (15 - i) mod 16.
Proof.
  intros Hi. pose proof (Z.pow_pos_nonneg 16 i ltac:(lia) ltac:(lia)) as Hp.
  rewrite Z.shiftr_div_pow2 by lia. unfold u64. change (2 ^ 64) with (16 ^ 16). change (2 ^ 60) with (16 ^ 15).
  assert (E16 : 16 ^ 16 = 16 ^ i * 16 ^ (16 - i)) by (rewrite <- Z.pow_add_r by lia; f_equal; lia).
  assert (E15 : 16 ^ 15 = 16 ^ i * 16 ^ (15 - i)) by (rewrite <- Z.pow_add_r by lia; f_equal; lia).
  assert (E1 : 16 ^ (16 - i) = 16 ^ (15 - i) * 16)
    by (replace (16 - i) with (15 - i + 1) by lia; rewrite Z.pow_add_r by lia; lia).
  pose proof (Z.pow_pos_nonneg 16 (15 - i) ltac:(lia) ltac:(lia)).
  rewrite E16, E15, (Z.mul_comm x), Z.mul_mod_distr_l, Z.div_mul_cancel_l by lia.
  rewrite E1. rewrite Z.rem_mul_r by lia. rewrite (Z.mul_comm (16 ^ (15 - i)) (_ mod 16)).
  rewrite Z.div_add by lia. rewrite Z.div_small by (apply Z.mod_pos_bound; lia). lia.
Qed.

Lemma shift_digit x i : 0 <= i -> u64 (Z.shiftl (u64 (x * 16 ^ i)) 4) = u64 (x * 16 ^ (i + 1)).
Proof.
  intros Hi. rewrite Z.shiftl_mul_pow2 by lia. change (2 ^ 4) with 16. unfold u64.
  rewrite Z.mul_mod_idemp_l by lia. f_equal. rewrite Z.pow_add_r by lia. lia.
Qed.

Lemma printptr_loop x n k :
  (k + n = 16)%nat -> 0 <= x < 2 ^ 64 ->
  prints (map (fun i => digit (x / 16 ^ (15 - Z.of_nat i) mod 16)) (seq k n))
    (loop (fun '(i, x) =>
      if i <? 16
      then consputc (digit (Z.shiftr x 60)) ;;; ret (inl (i + 1, u64 (Z.shiftl x 4)))
      else ret (inr tt)) (Z.of_nat k, u64 (x * 16 ^ Z.of_nat k))).
Proof.
  intros Hkn Hx s Hs. set (D := fun i => digit (x / 16 ^ (15 - Z.of_nat i) mod 16)).
  apply (loop_measure _
    (fun '(i, y) s1 => exists j, (j <= n)%nat /\ i = Z.of_nat (k + j) /\ y = u64 (x * 16 ^ i) /\
       sent (map D (seq k j)) s s1)
    (fun '(i, _) _ => Z.to_nat (16 - i))
    (fun o => exists s', o = Ret tt s' /\ sent (map D (seq k n)) s s')).
  - intros [i y] s1 (j & Hj & -> & -> & HS). destruct (Z.ltb_spec (Z.of_nat (k + j)) 16) as [Hlt|Hge].
    2:{ right; left. do 2 eexists. split; [done|]. exists s1. split; [done|].
        by replace n with j by lia. }
    left. set (i := Z.of_nat (k + j)) in *.
    assert (Hd : Z.shiftr (u64 (x * 16 ^ i)) 60 = x / 16 ^ (15 - i) mod 16) by (apply top_digit; lia).
    rewrite Hd. pose proof (Z.mod_pos_bound (x / 16 ^ (15 - i)) 16 ltac:(lia)) as Hm.
    pose proof (digit_byte _ Hm) as Hb.
    destruct (consputc_prints (digit (x / 16 ^ (15 - i) mod 16)) ltac:(unfold BACKSPACE; lia) s1
                (sent_ready _ _ _ Hs HS)) as (s2 & E2 & S2).
    rewrite u8_small in S2 by lia. krun. do 2 eexists. split; [done|]. split; [|lia].
    exists (S j). split; [lia|]. split; [lia|]. split.
    + rewrite shift_digit by lia. by replace (Z.of_nat (k + S j)) with (i + 1) by lia.
    + rewrite seq_S, map_app. by apply (sent_app _ _ s s1).
  - exists 0%nat. split; [lia|]. split; [lia|]. split; [done|].
    destruct (prints_ret s Hs) as (s' & E & S'). injection E as <-. exact S'.
  - lia.
Qed.

Lemma printptr_prints x : 0 <= x < 2 ^ 64 -> prints (render_ptr x) (printptr x).
Proof.
  intros Hx. unfold printptr, render_ptr.
  apply (prints_bind [48]); [by apply (consputc_prints 48)|].
  apply (prints_bind [120]); [by apply (consputc_prints 120)|].
  pose proof (printptr_loop x 16 0 eq_refl Hx) as H.
  rewrite Z.mul_1_r in H. unfold u64 in H. by rewrite Z.mod_small in H.
Qed.

(** The text a format and its arguments denote; [None] when the arguments
    do not fit. *)
Fixpoint format (fmt : list Z) (ap : list arg) : option (list Z) :=
  match fmt with
  | [] => Some []
  | c :: fmt' =>
      if negb (c =? 37) then app [c] <$> format fmt' ap
      else
        match fmt' with
        | [] => Some []
        | c :: fmt'' =>
            if c =? 100 then
              match ap with AInt z :: ap' => app (render 10 z) <$> format fmt'' ap' | _ => None end
            else if c =? 120 then
              match ap with AInt z :: ap' => app (render 16 z) <$> format fmt'' ap' | _ => None end
            else if c =? 112 then
              match ap with APtr z :: ap' => app (render_ptr z) <$> format fmt'' ap' | _ => None end
            else if c =? 115 then
              match ap with
              | AStr s :: ap' => app (match s with Some l => l | None => null_str end) <$> format fmt'' ap'
              | _ => None
              end
            else if c =? 37 then app [37] <$> format fmt'' ap
            else app [37; c] <$> format fmt'' ap
        end
  end.

(** Values of the C types the arguments have. *)
Definition arg_ok (a : arg) : Prop :=
  match a with
  | AInt z => - 2 ^ 31 <= z < 2 ^ 31
  | APtr z => 0 <= z < 2 ^ 64
  | AStr (Some l) => Forall (fun c => 0 <= c < 256) l
  | AStr None => True
  end.

Lemma printf_loop_prints n : forall fmt ap out,
  (length fmt <= n)%nat -> Forall (fun c => 0 <= c < 256) fmt -> Forall arg_ok ap ->
  format fmt ap = Some out -> prints out (printf_loop fmt ap).
Proof.
  induction n as [|n IH]; intros fmt ap out Hn Hf Ha HF.
  { destruct fmt; [|simpl in Hn; lia]. injection HF as <-. apply prints_ret. }
  destruct fmt as [|c fmt]; [injection HF as <-; apply prints_ret|].
  apply Forall_cons in Hf as [Hc Hf]. cbn [printf_loop format] in *. simpl in Hn.
  destruct (Z.eqb_spec c 37) as [_|Hne]; cbn [negb] in *.
  2:{ apply fmap_Some in HF as (out' & HF & ->). apply prints_bind.
      - replace [c] with [u8 c] by (rewrite u8_small by lia; done). apply consputc_prints. unfold BACKSPACE. lia.
      - apply (IH fmt ap); auto; lia. }
  destruct fmt as [|d fmt]; [injection HF as <-; apply prints_ret|].
  apply Forall_cons in Hf as [Hd Hf]. simpl in Hn.
  destruct (Z.eqb_spec d 100).
  { destruct ap as [|[z|z|s] ap]; try discriminate. apply Forall_cons in Ha as [Hz Ha].
    apply fmap_Some in HF as (out' & HF & ->). apply prints_bind; [apply printint_prints; [lia|done]|].
    apply (IH fmt ap); auto; lia. }
  destruct (Z.eqb_spec d 120).
  { destruct ap as [|[z|z|s] ap]; try discriminate. apply Forall_cons in Ha as [Hz Ha].
    apply fmap_Some in HF as (out' & HF & ->). apply prints_bind; [apply printint_prints; [lia|done]|].
    apply (IH fmt ap); auto; lia. }
  destruct (Z.eqb_spec d 112).
  { destruct ap as [|[z|z|s] ap]; try discriminate. apply Forall_cons in Ha as [Hz Ha].
    apply fmap_Some in HF as (out' & HF & ->). apply prints_bind; [by apply printptr_prints|].
    apply (IH fmt ap); auto; lia. }
  destruct (Z.eqb_spec d 115).
  { destruct ap as [|[z|z|s] ap]; try discriminate. apply Forall_cons in Ha as [Hz Ha].
    apply fmap_Some in HF as (out' & HF & ->). apply prints_bind; [apply consputc_all_prints|apply (IH fmt ap); auto; lia].
    destruct s as [l|]; [exact Hz|repeat constructor; lia]. }
  destruct (Z.eqb_spec d 37).
  { apply fmap_Some in HF as (out' & HF & ->). apply prints_bind; [by apply (consputc_prints 37)|].
    apply (IH fmt ap); auto; lia. }
  apply fmap_Some in HF as (out' & HF & ->). change [37; d] with ([37] ++ [d]). rewrite <- app_assoc.
  apply prints_bind; [by apply (consputc_prints 37)|]. apply prints_bind; [|apply (IH fmt ap); auto; lia].
  replace [d] with [u8 d] by (rewrite u8_small by lia; done). apply consputc_prints. unfold BACKSPACE. lia.
Qed.

Lemma printf_run fmt ap out s :
  Forall (fun c => 0 <= c < 256) fmt -> Forall arg_ok ap -> format fmt ap = Some out ->
  uart_ready s -> Lk_pr ∉ k_held s ->
  exists s', printf (Some fmt) ap s = Ret tt s' /\ sent out s s'.
Proof.
  intros Hf Ha HF Hs Hlk. pose proof (printf_loop_prints (length fmt) fmt ap out (le_n _) Hf Ha HF) as HP.
  unfold printf. krun. destruct (Z.eqb_spec (io_locking (k_io s)) 0) as [E|E]; cbn [negb when].
  - destruct (HP s Hs) as (s1 & E1 & S1). krun. exists s1. done.
  - destruct (HP (set_k_held (Lk_pr :: k_held s) s) Hs) as (s1 & E1 & idle & Hl & ->). krun.
    eexists. split; [reflexivity|]. exists idle. split; [exact Hl|]. kdone.
Qed.

(** [printf] of a format with fitting arguments sends exactly the text
    the format denotes ([%d], [%x], [%p], [%s], [%%], unknown sequences
    copied), takes and releases its lock when locking is on, and changes
    nothing else. *)
Theorem printf_correct fmt ap out s :
  Forall (fun c => 0 <= c < 256) fmt -> Forall arg_ok ap -> format fmt ap = Some out ->
  uart_ready s -> Lk_pr ∉ k_held s ->
  exists s', printf (Some fmt) ap s = Ret tt s' /\ sent out s s'.
Proof. apply printf_run. Qed.

Lemma numeral_length base n : forall fuel x,
  2 <= base -> 0 <= x < base ^ Z.of_nat (S n) -> (length (numeral_le fuel base x) <= S n)%nat.
Proof.
  induction n as [|n IH]; intros fuel x Hb Hx.
  - change (Z.of_nat 1) with 1 in Hx. rewrite Z.pow_1_r in Hx.
    destruct fuel; cbn [numeral_le length]; rewrite (Z.div_small x base) by lia; simpl; lia.
  - rewrite Nat2Z.inj_succ, Z.pow_succ_r in Hx by lia.
    assert (Hq : 0 <= x / base < base ^ Z.of_nat (S n)).
    { split; [apply Z.div_pos; lia|]. apply Z.div_lt_upper_bound; lia. }
    destruct fuel as [|f]; cbn [numeral_le length]; destruct (x / base =? 0); simpl; try lia.
    specialize (IH f (x / base) Hb Hq). lia.
Qed.

#[global] Arguments numeral_le : simpl never.

Lemma render_canonical base xx :
  base = 10 \/ base = 16 -> - 2 ^ 31 <= xx <= 2 ^ 31 ->
  read_int base (render base xx) = xx /\ (length (render base xx) <= 16)%nat /\
  (0 < xx -> head (render base xx) <> Some 48).
Proof.
  intros Hb Hx. assert (Hb' : 2 <= base <= 16) by lia.
  assert (HN : forall y, 0 <= y <= 2 ^ 31 ->
    value base (rev (numeral_le 32 base y)) = y /\ (length (numeral_le 32 base y) <= 15)%nat /\
    Forall (fun c => 48 <= c < 103) (rev (numeral_le 32 base y)) /\
    (0 < y -> head (rev (numeral_le 32 base y)) <> Some 48)).
  { intros y Hy. destruct (numeral_facts 32 base y Hb') as (Hv & Hf & Hl);
      [change (2 ^ Z.of_nat 33) with (2 ^ 33); lia|].
    split; [done|]. split; [|split; [by apply Forall_rev|]].
    - apply numeral_length; [lia|]. change (Z.of_nat 15) with 15. destruct Hb as [-> | ->]; lia.
    - intros Hp. destruct (Hl Hp) as (d & Hd & Hr). apply last_Some in Hd as (l & ->).
      rewrite rev_app_distr. simpl. intros [= E].
      destruct (digit_cases d ltac:(lia)) as [[E' ?]|[E' ?]]; lia. }
  unfold render. destruct (Z.ltb_spec xx 0).
  - destruct (HN (- xx) ltac:(lia)) as (Hv & Hl & _ & _). split; [cbn [read_int]; rewrite Hv; lia|].
    split; [cbn [length]; rewrite length_rev; lia|lia].
  - destruct (HN xx ltac:(lia)) as (Hv & Hl & Hf & Hh). split; [|split; [rewrite length_rev; lia|done]].
    rewrite <- Hv at 2. unfold read_int. destruct (rev (numeral_le 32 base xx)) as [|c l]; [done|].
    apply Forall_cons in Hf as [Hc _].
    destruct (Z.eq_dec c 45) as [->|Hne]; [lia|].
    destruct c as [|c|c]; try done. do 7 (destruct c as [c|c|]; try done).
Qed.

(** [%d] and [%x] print a canonical numeral: reading it back gives the
    number, for every [int] including the most negative one; a positive
    number has no leading zero, a negative one is a minus sign and the
    numeral of its absolute value, and both fit the 16-byte buffer. *)
Theorem printint_correct base xx s :
  base = 10 \/ base = 16 -> - 2 ^ 31 <= xx < 2 ^ 31 -> uart_ready s ->
  exists s', printint xx base true s = Ret tt s' /\ sent (render base xx) s s' /\
    read_int base (render base xx) = xx /\ (length (render base xx) <= 16)%nat /\
    (0 < xx -> head (render base xx) <> Some 48) /\
    (xx < 0 -> render base xx = 45 :: render base (- xx)).
Proof.
  intros Hb Hx Hs. assert (Hb' : 2 <= base <= 16) by lia.
  destruct (printint_prints base xx Hb' Hx s Hs) as (s' & E & S').
  destruct (render_canonical base xx Hb ltac:(lia)) as (H1 & H2 & H3).
  exists s'. split_and!; try done. intros Hn. unfold render.
  destruct (Z.ltb_spec xx 0), (Z.ltb_spec (- xx) 0); try lia. done.
Qed.

Module PrintfWitness.

Lemma boot_ready : uart_ready boot.
Proof. split; [reflexivity|simpl; lia]. Qed.

(** [printf("pid %d %s\n", -42, "sh")] *)
Lemma printf_correct_witness :
  exists s', printf (Some (bytes "pid %d %s" ++ [10])) [AInt (-42); AStr (Some (bytes "sh"))] boot = Ret tt s' /\
    sent (bytes "pid -42 sh" ++ [10]) boot s'.
Proof.
  apply printf_correct.
  - repeat constructor; simpl; lia.
  - constructor; [simpl; lia|]. constructor; [repeat constructor; simpl; lia|constructor].
  - vm_compute. reflexivity.
  - apply boot_ready.
  - apply not_elem_of_nil.
Defined.

Lemma printint_correct_witness :
  exists s', printint (- 2 ^ 31) 10 true boot = Ret tt s' /\ sent (bytes "-2147483648") boot s'.
Proof.
  destruct (printint_correct 10 (- 2 ^ 31) boot) as (s' & E & S' & _).
  - by left.
  - lia.
  - apply boot_ready.
  - exists s'. split; [exact E|]. exact S'.
Defined.
End PrintfWitness.
