(* ===== verification/Sched.v ===== *)
(** * The scheduler of kernel/proc.c

    The three priority queues of the multi-level feedback scheduler, the
    context switch points [sched], [yield], [sleep], [wakeup], and one round
    of [scheduler]. A queue is a list linked through [p->next]; the theorems
    show that the queue routines implement lists ([queues_ok] relates the
    linked queues to three lists of processes), that [scheduler] takes the
    first process of the first non-empty queue, and that [wakeup] makes
    exactly the sleepers on the channel runnable. *)

From S2P Require Import Prelude Machine State Printf.

(** ** Queues *)

(** [queue[priority]]; an index outside the array is undefined. *)
Definition get_queue (priority : Z) : K queue := fun s =>
  if (0 <=? priority) && (priority <? NQUEUE)
  then match k_queue s !! Z.to_nat priority with
       | Some q => Ret q s
       | None => undefined s
       end
  else undefined s.

Definition upd_queue (priority : Z) (f : queue -> queue) : K unit :=
  modify (fun s => set_k_queue (alter f (Z.to_nat priority) (k_queue s)) s).

Definition Lk_q (priority : Z) : lock := Lk_queue (Z.to_nat priority).

Definition is_null {A} (p : option A) : bool := match p with None => true | Some _ => false end.

Definition queueinit : K unit :=
  for_all (seq 0 (Z.to_nat NQUEUE)) (fun i =>
    let ts := if Nat.eqb i 0 then TSTICKSHIGH else if Nat.eqb i 1 then TSTICKSMEDIUM else TSTICKSLOW in
    upd_queue (Z.of_nat i) (fun _ => mkQueue ts None None)).

Definition timeslice (priority : Z) : K Z :=
  if priority =? HIGH then ret TSTICKSHIGH
  else if priority =? MEDIUM then ret TSTICKSMEDIUM
  else if priority =? LOW then ret TSTICKSLOW
  else printf (Some (bytes "timeslive: invalid priority %d" ++ [10])) [AInt priority] ;;; ret (-1).

Definition queue_empty (priority : Z) : K Z :=
  q <- get_queue priority ;;
  if is_null (q_head q) then ret 1 else ret 0.

(** [!(priority >= 0) && (priority < NQUEUE)], as the code has it. *)
Definition bad_priority (priority : Z) : bool := negb (priority >=? 0) && (priority <? NQUEUE).

Definition enqueue_at_tail (p : nat) (priority : Z) : K Z :=
  if negb (Nat.ltb p NPROC) then panic "enqueue_at_tail"
  else if bad_priority priority then panic "enqueue_at_tail"
  else
    get_queue priority ;;;
    acquire (Lk_q priority) ;;;
    q <- get_queue priority ;;
    if is_null (q_head q) && is_null (q_tail q)
    then
      upd_queue priority (fun q => set_q_tail (Some p) (set_q_head (Some p) q)) ;;;
      release (Lk_q priority) ;;; ret 0
    else
      match q_tail q with
      | None => release (Lk_q priority) ;;; panic "enqueue_at_tail"
      | Some t =>
          upd_proc t (set_p_next (Some p)) ;;;
          upd_queue priority (set_q_tail (Some p)) ;;;
          release (Lk_q priority) ;;; ret 0
      end.

Definition enqueue_at_head (p : nat) (priority : Z) : K Z :=
  if negb (Nat.ltb p NPROC) then panic "enqueue_at_head"
  else if bad_priority priority then panic "enqueue_at_head"
  else
    get_queue priority ;;;
    acquire (Lk_q priority) ;;;
    q <- get_queue priority ;;
    if is_null (q_head q) && is_null (q_tail q)
    then
      upd_queue priority (fun q => set_q_tail (Some p) (set_q_head (Some p) q)) ;;;
      release (Lk_q priority) ;;; ret 0
    else if is_null (q_head q)
    then release (Lk_q priority) ;;; panic "enqueue_at_head"
    else
      upd_proc p (set_p_next (q_head q)) ;;;
      upd_queue priority (set_q_head (Some p)) ;;;
      release (Lk_q priority) ;;; ret 0.

Definition dequeue (priority : Z) : K (option nat) :=
  if bad_priority priority
  then printf (Some (bytes "dequeue: invalid argument %d" ++ [10])) [AInt priority] ;;; ret None
  else
    get_queue priority ;;;
    acquire (Lk_q priority) ;;;
    q <- get_queue priority ;;
    if is_null (q_head q) && is_null (q_tail q)
    then release (Lk_q priority) ;;; ret None
    else
      match q_head q with
      | None => release (Lk_q priority) ;;; panic "dequeue"
      | Some p =>
          acquire (Lk_proc p) ;;;
          pr <- get_proc p ;;
          upd_queue priority (set_q_head (p_next pr)) ;;;
          upd_proc p (set_p_next None) ;;;
          release (Lk_proc p) ;;;
          q' <- get_queue priority ;;
          when (is_null (q_head q')) (upd_queue priority (set_q_tail None)) ;;;
          release (Lk_q priority) ;;;
          ret (Some p)
      end.

(** ** Giving up and getting the processor *)

(** [swtch] to the scheduler; the continuation runs when the scheduler
    switches back. The checks that interrupts are off and the saving of
    [intena] concern the hart's interrupt state (see [Spinlock]); with a
    lock held they are off. *)
Definition sched : K unit :=
  p <- curproc ;;
  h <- gets (holding (Lk_proc p)) ;;
  if negb h then panic "sched p->lock"
  else
    noff <- gets (fun s => length (k_held s)) ;;
    if negb (Nat.eqb noff 1) then panic "sched locks"
    else
      pr <- get_proc p ;;
      if decide (p_state pr = RUNNING) then panic "sched running"
      else swtch.

Definition yield : K unit :=
  p <- curproc ;;
  acquire (Lk_proc p) ;;;
  upd_proc p (set_p_state RUNNABLE) ;;;
  pr <- get_proc p ;;
  enqueue_at_tail p (p_priority pr) ;;;
  sched ;;;
  release (Lk_proc p).

(** [sleep] and the loop body of [wakeup] are given as the list of their
    statements, so that the same text can be run on its own ([in_order]) and
    interleaved with the statements of other harts ([SleepWakeup]): taking a
    lock, or any other statement. *)
Inductive act := Acq (l : lock) | Do (f : K unit).

Definition act_run (a : act) : K unit :=
  match a with Acq l => acquire l | Do f => f end.

Fixpoint in_order (l : list act) : K unit :=
  match l with
  | [] => ret tt
  | [a] => act_run a
  | a :: l' => act_run a ;;; in_order l'
  end.

Definition sleep_code (ch : chan) (lk : lock) (p : nat) : list act :=
  [ Acq (Lk_proc p);
    Do (release lk);
    Do (upd_proc p (set_p_chan (Some ch)));
    Do (upd_proc p (set_p_state SLEEPING));
    Do sched;
    Do (upd_proc p (set_p_chan None));
    Do (release (Lk_proc p));
    Acq lk ].

Definition sleep (ch : chan) (lk : lock) : K unit :=
  p <- curproc ;; in_order (sleep_code ch lk p).

Definition wake_one (ch : chan) (p : nat) : K unit :=
  pr <- get_proc p ;;
  if decide (p_state pr = SLEEPING /\ p_chan pr = Some ch)
  then
    upd_proc p (set_p_state RUNNABLE) ;;;
    enqueue_at_head p (p_priority pr) ;;; ret tt
  else ret tt.

Definition wake_code (ch : chan) (p : nat) : list act :=
  [ Acq (Lk_proc p); Do (wake_one ch p); Do (release (Lk_proc p)) ].

Definition wakeup_body (ch : chan) (p : nat) : K unit :=
  me <- myproc ;;
  if decide (me = Some p) then ret tt else in_order (wake_code ch p).

Definition wakeup (ch : chan) : K unit := for_all (seq 0 NPROC) (wakeup_body ch).

(** ** One round of the scheduler's endless loop *)

(** Run process [p], whose lock is held, until it switches back. *)
Definition run_proc (p : nat) : K unit :=
  pr <- get_proc p ;;
  if decide (p_state pr = RUNNABLE)
  then
    upd_proc p (set_p_state RUNNING) ;;;
    modify (set_k_cur (Some p)) ;;;
    swtch ;;;
    modify (set_k_cur None)
  else ret tt.

Definition scheduler_rr : K unit :=
  for_all (seq 0 NPROC) (fun p =>
    acquire (Lk_proc p) ;;; run_proc p ;;; release (Lk_proc p)).

(** [p = dequeue(HIGH); if(!p) p = dequeue(MEDIUM); if(!p) p = dequeue(LOW);] *)
Definition pick_mlfq : K (option nat) :=
  p <- dequeue HIGH ;;
  match p with
  | Some _ => ret p
  | None =>
      p <- dequeue MEDIUM ;;
      match p with
      | Some _ => ret p
      | None => dequeue LOW
      end
  end.

Definition scheduler_mlfq : K unit :=
  p <- pick_mlfq ;;
  match p with
  | None => ret tt
  | Some p => acquire (Lk_proc p) ;;; run_proc p ;;; release (Lk_proc p)
  end.

Definition scheduler_round : K unit :=
  pol <- gets k_sched_policy ;;
  if pol =? RR then scheduler_rr
  else if pol =? MLFQ then scheduler_mlfq
  else ret tt.

(** [scheduler] itself: [c->proc = 0], then rounds for ever; [fuel] is the
    number of rounds looked at. *)
Fixpoint scheduler_rounds (fuel : nat) : K unit :=
  match fuel with
  | O => spin
  | S f => scheduler_round ;;; scheduler_rounds f
  end.

Definition scheduler (fuel : nat) : K unit := modify (set_k_cur None) ;;; scheduler_rounds fuel.

(** ** Queues as lists *)

(** The processes reached from [h] through [next] are [l]. *)
Fixpoint qchain (ps : list proc) (h : option nat) (l : list nat) : Prop :=
  match l with
  | [] => h = None
  | x :: l' => h = Some x /\ exists nx, p_next <$> ps !! x = Some nx /\ qchain ps nx l'
  end.

Definition queue_repr (ps : list proc) (q : queue) (l : list nat) : Prop :=
  qchain ps (q_head q) l /\ q_tail q = last l.

(** The three queues hold the lists [qs]; no process is queued twice, and one
    that is not queued has a null [next]. *)
Definition queues_ok (s : kstate) (qs : list (list nat)) : Prop :=
  Forall2 (queue_repr (k_proc s)) (k_queue s) qs /\ length qs = 3%nat /\
  NoDup (concat qs) /\ length (k_proc s) = NPROC /\
  forall p pr, k_proc s !! p = Some pr -> p ∉ concat qs -> p_next pr = None.

Lemma qchain_frame ps ps' h l :
  (forall x, x ∈ l -> p_next <$> ps' !! x = p_next <$> ps !! x) -> qchain ps h l -> qchain ps' h l.
Proof.
  revert h. induction l as [|x l IH]; intros h Hf; [done|]. intros [-> (nx & Hx & Hc)].
  split; [done|]. exists nx. rewrite Hf by (apply elem_of_cons; by left). split; [done|].
  apply IH; [|done]. intros y Hy. apply Hf, elem_of_cons. by right.
Qed.

Lemma queue_repr_frame ps ps' q l :
  (forall x, x ∈ l -> p_next <$> ps' !! x = p_next <$> ps !! x) -> queue_repr ps q l -> queue_repr ps' q l.
Proof. intros Hf [Hc Ht]. split; [by apply (qchain_frame ps)|done]. Qed.

Lemma qchain_head ps h l : qchain ps h l -> h = head l.
Proof. destruct l; simpl; [done|by intros [-> _]]. Qed.

Lemma next_alter f (ps : list proc) (x y : nat) : (forall pr, p_next (f pr) = p_next pr) ->
  p_next <$> alter f x ps !! y = p_next <$> ps !! y.
Proof.
  intros Hf. destruct (decide (x = y)) as [->|Hne].
  - rewrite list_lookup_alter_eq. destruct (ps !! y); [|done]. simpl. by rewrite Hf.
  - by rewrite list_lookup_alter_ne.
Qed.

Lemma next_set (ps : list proc) (x y : nat) v :
  y <> x -> p_next <$> alter (set_p_next v) x ps !! y = p_next <$> ps !! y.
Proof. intros Hne. by rewrite list_lookup_alter_ne. Qed.

(** Appending through the tail. *)
Lemma qchain_snoc (ps : list proc) h l (t p : nat) pr :
  qchain ps h l -> NoDup l -> last l = Some t -> p ∉ l -> ps !! p = Some pr -> p_next pr = None ->
  qchain (alter (set_p_next (Some p)) t ps) h (l ++ [p]).
Proof.
  revert h. induction l as [|x l IH]; intros h Hc Hnd Hl Hp Hpr Hn; [discriminate|].
  destruct Hc as [-> (nx & Hx & Hc)]. apply NoDup_cons in Hnd as [Hxl Hnd].
  apply not_elem_of_cons in Hp as [Hpx Hp]. split; [done|]. destruct l as [|y l].
  - injection Hl as ->. simpl in *. subst nx. exists (Some p). rewrite list_lookup_alter_eq.
    destruct (ps !! t); [|discriminate]. split; [done|]. split; [done|]. exists None.
    rewrite list_lookup_alter_ne by done. rewrite Hpr. simpl. by rewrite Hn.
  - exists nx. rewrite next_set.
    + split; [done|]. by apply IH.
    + intros ->. apply Hxl. change (last (y :: l) = Some t) in Hl.
      apply last_Some in Hl as (l' & ->). apply elem_of_app. right. by apply elem_of_cons; left.
Qed.

(** Replacing one queue. *)
Lemma queues_ok_update s qs i l q' l' ps' :
  queues_ok s qs -> qs !! i = Some l -> queue_repr ps' q' l' ->
  (forall x, x ∈ concat qs -> x ∉ l -> p_next <$> ps' !! x = p_next <$> k_proc s !! x) ->
  length ps' = NPROC -> NoDup l' -> (forall x, x ∈ l' -> x ∈ l \/ x ∉ concat qs) ->
  (forall p pr, ps' !! p = Some pr -> p ∉ concat (<[i := l']> qs) -> p_next pr = None) ->
  queues_ok (set_k_queue (<[i := q']> (k_queue s)) (set_k_proc ps' s)) (<[i := l']> qs).
Proof.
  intros (HF & Hlen & Hnd & Hps & Hnx) Hi Hr Hfr Hps' Hnd' Hsub Hnx'.
  pose proof (lookup_lt_Some _ _ _ Hi) as Hil. pose proof (Forall2_length _ _ _ HF) as HLQ.
  split; [|split; [|split; [|split]]]; kred; [| | |done|done].
  - apply Forall2_same_length_lookup_2; [by rewrite !length_insert|].
    intros j q lj Hq Hj. destruct (decide (i = j)) as [->|Hne].
    + rewrite list_lookup_insert_eq in Hq by lia. rewrite list_lookup_insert_eq in Hj by lia. by simplify_eq.
    + rewrite list_lookup_insert_ne in Hq by done. rewrite list_lookup_insert_ne in Hj by done.
      apply (queue_repr_frame (k_proc s)); [|by apply (Forall2_lookup_lr _ _ _ j _ _ HF)].
      intros x Hx. apply Hfr; [by apply (elem_of_concat_lookup _ j lj)|by apply (concat_disjoint qs i j l lj)].
  - by rewrite length_insert.
  - destruct (concat_split qs i l Hi) as (A & B & HC & HC'). rewrite HC'. rewrite HC in *.
    apply NoDup_app in Hnd as (HA & HAx & Hnd). apply NoDup_app in Hnd as (Hl & Hlx & HB).
    assert (Hx : forall x, x ∈ l' -> (x ∉ A) /\ (x ∉ B)).
    { intros x Hx. destruct (Hsub x Hx) as [Hxl|Hxn]; [|rewrite !elem_of_app in Hxn; tauto].
      split; [|by apply Hlx]. intros HxA. apply (HAx x HxA). apply elem_of_app. by left. }
    apply NoDup_app. split; [done|]. split; [|apply NoDup_app; split_and!; try done; intros x Hx'; by apply Hx].
    intros x HxA [Hxl|HxB]%elem_of_app; [by apply (proj1 (Hx x Hxl))|].
    apply (HAx x HxA). rewrite !elem_of_app. tauto.
Qed.

Lemma get_queue_run s qs priority l :
  queues_ok s qs -> 0 <= priority -> qs !! Z.to_nat priority = Some l ->
  exists q, k_queue s !! Z.to_nat priority = Some q /\ queue_repr (k_proc s) q l /\ get_queue priority s = Ret q s.
Proof.
  intros (HF & Hlen & _) Hp Hl. pose proof (lookup_lt_Some _ _ _ Hl) as Hlt.
  destruct (Forall2_lookup_r _ _ _ _ _ HF Hl) as (q & Hq & Hr). exists q. split; [done|]. split; [done|].
  unfold get_queue. destruct (Z.leb_spec 0 priority); [|lia].
  destruct (Z.ltb_spec priority NQUEUE); [|unfold NQUEUE in *; lia]. cbn [andb]. by rewrite Hq.
Qed.

Lemma bad_priority_ok priority : 0 <= priority -> bad_priority priority = false.
Proof. intros. unfold bad_priority. rewrite Z.geb_leb. by destruct (Z.leb_spec 0 priority); [|lia]. Qed.

(** [get_queue] of a state that has the same queues. *)
Lemma get_queue_same s s' q priority :
  k_queue s' = k_queue s -> get_queue priority s = Ret q s -> get_queue priority s' = Ret q s'.
Proof.
  intros Hq. unfold get_queue. rewrite Hq. destruct (_ && _); [|discriminate].
  destruct (k_queue s !! Z.to_nat priority); [|discriminate]. by intros [= ->].
Qed.

(** The process tables agree on everything but [next]. *)
Definition same_but_next (ps ps' : list proc) : Prop :=
  forall i, set_p_next None <$> ps' !! i = set_p_next None <$> ps !! i.

(** A queue operation: the queues become [qs'], the only other changes being
    [next] fields. *)
Definition requeued (s s' : kstate) (qs' : list (list nat)) : Prop :=
  queues_ok s' qs' /\ s' = set_k_queue (k_queue s') (set_k_proc (k_proc s') s) /\
  same_but_next (k_proc s) (k_proc s').

Lemma same_but_next_alter ps i v : same_but_next ps (alter (set_p_next v) i ps).
Proof.
  intros j. destruct (decide (i = j)) as [->|Hne].
  - rewrite list_lookup_alter_eq. by destruct (ps !! j).
  - by rewrite list_lookup_alter_ne.
Qed.

Lemma proc_in_table s qs p pr : queues_ok s qs -> k_proc s !! p = Some pr -> Nat.ltb p NPROC = true.
Proof.
  intros (_ & _ & _ & Hlen & _) Hp. apply Nat.ltb_lt. rewrite <- Hlen. by apply (lookup_lt_Some _ _ pr).
Qed.

Lemma enqueue_tail_run s qs priority l p pr :
  queues_ok s qs -> 0 <= priority -> qs !! Z.to_nat priority = Some l ->
  p ∉ concat qs -> k_proc s !! p = Some pr -> Lk_q priority ∉ k_held s ->
  exists s', enqueue_at_tail p priority s = Ret 0 s' /\
    requeued s s' (<[Z.to_nat priority := l ++ [p]]> qs).
Proof.
  intros Hok Hp Hl Hpn Hpr Hlk. destruct (get_queue_run s qs priority l Hok Hp Hl) as (q & Hq & [Hc Ht] & Hg).
  unfold enqueue_at_tail. rewrite (proc_in_table _ _ _ _ Hok Hpr), bad_priority_ok by done. cbn [negb].
  pose proof (get_queue_same s (set_k_held (Lk_q priority :: k_held s) s) q priority eq_refl Hg) as Hg'.
  krun. pose proof (qchain_head _ _ _ Hc) as Hh. pose proof Hok as (_ & _ & Hnd & Hlen & Hnx).
  assert (Hndl : NoDup l).
  { destruct (concat_split qs _ l Hl) as (A & B & E & _). rewrite E in Hnd.
    apply NoDup_app in Hnd as (_ & _ & Hnd). by apply NoDup_app in Hnd as (? & _). }
  assert (Hpl : p ∉ l) by (intros Hx; apply Hpn; by apply (elem_of_concat_lookup _ (Z.to_nat priority) l)).
  pose proof (Hnx p pr Hpr Hpn) as Hpx. unfold upd_queue, upd_proc. destruct l as [|x l].
  - rewrite Hh, Ht. cbn [is_null andb head last]. krun. rewrite (alter_insert_eq _ _ _ q Hq).
    eexists. split; [reflexivity|]. split; [|split; [by destruct s|by intros i]].
    apply (queues_ok_update s qs _ [] _ [p] (k_proc s)); try done.
    + split; [|done]. split; [done|]. exists None. rewrite Hpr. simpl. by rewrite Hpx.
    + by apply NoDup_singleton.
    + intros y ->%list_elem_of_singleton. by right.
    + intros y yr Hy Hny. apply (Hnx y yr Hy). intros Hin. apply Hny.
      destruct (concat_split qs _ [] Hl) as (A & B & E & E'). rewrite E', !elem_of_app.
      rewrite E, !elem_of_app, elem_of_nil in Hin. tauto.
  - rewrite Hh. cbn [head is_null andb]. destruct (last (x :: l)) as [t|] eqn:Hlast; [|by rewrite last_None in Hlast].
    rewrite Ht. krun. rewrite (alter_insert_eq _ _ _ q Hq).
    eexists. split; [reflexivity|]. split; [|split; [by destruct s|apply same_but_next_alter]].
    assert (Htl : t ∈ x :: l).
    { apply last_Some in Hlast as (l' & ->). apply elem_of_app. right. by apply elem_of_cons; left. }
    apply (queues_ok_update s qs _ (x :: l) _ _ (alter (set_p_next (Some p)) t (k_proc s))); try done.
    + split; [|by rewrite last_snoc]. by apply (qchain_snoc _ _ _ t p pr).
    + intros y _ Hy. apply next_set. by intros ->.
    + by rewrite length_alter.
    + apply NoDup_app. split; [done|]. split; [|by apply NoDup_singleton].
      intros y Hy ->%list_elem_of_singleton. done.
    + intros y [Hy|Hy]%elem_of_app; [by left|]. apply list_elem_of_singleton in Hy as ->. by right.
    + intros y yr Hy Hny. destruct (concat_split qs _ (x :: l) Hl) as (A & B & E & E'). rewrite E' in Hny.
      assert (Hyt : t <> y) by (intros ->; apply Hny; rewrite !elem_of_app; tauto).
      rewrite list_lookup_alter_ne in Hy by done. apply (Hnx y yr Hy). rewrite E.
      rewrite !elem_of_app in *. tauto.
Qed.

Lemma enqueue_head_run s qs priority l p pr :
  queues_ok s qs -> 0 <= priority -> qs !! Z.to_nat priority = Some l ->
  p ∉ concat qs -> k_proc s !! p = Some pr -> Lk_q priority ∉ k_held s ->
  exists s', enqueue_at_head p priority s = Ret 0 s' /\
    requeued s s' (<[Z.to_nat priority := p :: l]> qs).
Proof.
  intros Hok Hp Hl Hpn Hpr Hlk. destruct (get_queue_run s qs priority l Hok Hp Hl) as (q & Hq & [Hc Ht] & Hg).
  unfold enqueue_at_head. rewrite (proc_in_table _ _ _ _ Hok Hpr), bad_priority_ok by done. cbn [negb].
  pose proof (get_queue_same s (set_k_held (Lk_q priority :: k_held s) s) q priority eq_refl Hg) as Hg'.
  krun. pose proof (qchain_head _ _ _ Hc) as Hh. pose proof Hok as (_ & _ & Hnd & Hlen & Hnx).
  assert (Hndl : NoDup l).
  { destruct (concat_split qs _ l Hl) as (A & B & E & _). rewrite E in Hnd.
    apply NoDup_app in Hnd as (_ & _ & Hnd). by apply NoDup_app in Hnd as (? & _). }
  assert (Hpl : p ∉ l) by (intros Hx; apply Hpn; by apply (elem_of_concat_lookup _ (Z.to_nat priority) l)).
  pose proof (Hnx p pr Hpr Hpn) as Hpx. unfold upd_queue, upd_proc.
  assert (Hcov : forall y yr, k_proc s !! y = Some yr -> y ∉ concat (<[Z.to_nat priority := p :: l]> qs) ->
            y <> p /\ p_next yr = None).
  { intros y yr Hy Hny. destruct (concat_split qs _ l Hl) as (A & B & E & E'). rewrite E' in Hny.
    rewrite !elem_of_app, elem_of_cons in Hny. split; [intros ->; tauto|].
    apply (Hnx y yr Hy). rewrite E, !elem_of_app. tauto. }
  assert (Hnew : forall x, x ∈ p :: l -> x ∈ l \/ x ∉ concat qs).
  { intros x [-> |Hx]%elem_of_cons; [by right|by left]. }
  destruct l as [|x l].
  - rewrite Hh, Ht. cbn [is_null andb head last]. krun. rewrite (alter_insert_eq _ _ _ q Hq).
    eexists. split; [reflexivity|]. split; [|split; [by destruct s|by intros i]].
    apply (queues_ok_update s qs _ [] _ [p] (k_proc s)); try done; [| |intros y yr Hy Hny; by apply (Hcov y yr)].
    + split; [|done]. split; [done|]. exists None. rewrite Hpr. simpl. by rewrite Hpx.
    + by apply NoDup_singleton.
  - rewrite Hh. cbn [head is_null andb]. krun. rewrite (alter_insert_eq _ _ _ q Hq).
    eexists. split; [reflexivity|]. split; [|split; [by destruct s|apply same_but_next_alter]].
    apply (queues_ok_update s qs _ (x :: l) _ _ (alter (set_p_next (Some x)) p (k_proc s))); try done.
    + split; [|exact Ht]. split; [done|]. exists (Some x). rewrite list_lookup_alter_eq, Hpr.
      split; [done|]. rewrite Hh in Hc. apply (qchain_frame (k_proc s)); [|done].
      intros y Hy. apply next_set. by intros ->.
    + intros y Hy _. apply next_set. by intros ->.
    + by rewrite length_alter.
    + by apply NoDup_cons.
    + intros y yr Hy Hny. destruct (decide (y = p)) as [->|Hyp].
      * exfalso. apply Hny. apply (elem_of_concat_lookup _ (Z.to_nat priority) (p :: x :: l)).
        -- apply list_lookup_insert_eq. by apply (lookup_lt_Some _ _ _ Hl).
        -- by apply elem_of_cons; left.
      * rewrite list_lookup_alter_ne in Hy by done. by apply (Hcov y yr).
Qed.

(** What [dequeue] leaves in the queues. *)
Definition dequeued (qs : list (list nat)) (i : nat) : list (list nat) :=
  match qs !! i with
  | Some l => <[i := tail l]> qs
  | None => qs
  end.

Lemma dequeue_run s qs priority l :
  queues_ok s qs -> 0 <= priority -> qs !! Z.to_nat priority = Some l ->
  Lk_q priority ∉ k_held s -> (forall p, Lk_proc p ∉ k_held s) ->
  exists s', dequeue priority s = Ret (head l) s' /\ requeued s s' (dequeued qs (Z.to_nat priority)).
Proof.
  intros Hok Hp Hl Hlk Hlkp. destruct (get_queue_run s qs priority l Hok Hp Hl) as (q & Hq & [Hc Ht] & Hg).
  unfold dequeue, dequeued. rewrite bad_priority_ok, Hl by done.
  pose proof (get_queue_same s (set_k_held (Lk_q priority :: k_held s) s) q priority eq_refl Hg) as Hg'.
  krun. pose proof (qchain_head _ _ _ Hc) as Hh. pose proof Hok as (_ & _ & Hnd & Hlen & Hnx).
  destruct l as [|x l].
  { rewrite Hh, Ht. cbn [is_null andb head last]. krun. eexists. split; [reflexivity|].
    rewrite list_insert_id by done. split; [|split; [by destruct s|by intros i]]. exact Hok. }
  rewrite Hh. cbn [head is_null andb]. destruct Hc as [_ (nx & Hx & Hc)].
  destruct (k_proc s !! x) as [pr|] eqn:Hpr; [|discriminate]. injection Hx as Hnxx.
  set (s1 := set_k_held (Lk_proc x :: Lk_q priority :: k_held s) s).
  assert (Hgp : get_proc x s1 = Ret pr s1) by (unfold get_proc, s1; kred; by rewrite Hpr).
  rewrite (bind_Ret (acquire (Lk_proc x)) _ _ tt s1); [|rewrite acquire_free; [done|apply not_elem_of_cons; by split]].
  krun. unfold upd_queue, upd_proc. krun. rewrite (alter_insert_eq _ _ _ q Hq), Hnxx.
  set (s2 := set_k_held _ _).
  assert (Hg2 : get_queue priority s2 = Ret (set_q_head nx q) s2).
  { unfold get_queue, s2. kred. unfold s1. kred. pose proof (lookup_lt_Some _ _ _ Hq).
    rewrite list_lookup_insert_eq by done. unfold get_queue in Hg.
    destruct (_ && _); [done|]. discriminate Hg. }
  krun. cbn [q_head set_q_head]. pose proof (qchain_head _ _ _ Hc) as Hhl.
  assert (Hnl : NoDup (x :: l)).
  { destruct (concat_split qs _ _ Hl) as (A & B & E & _). rewrite E in Hnd.
    apply NoDup_app in Hnd as (_ & _ & Hnd). by apply NoDup_app in Hnd as (? & _). }
  apply NoDup_cons in Hnl as [Hxl Hnl].
  assert (HU : forall q', q_head q' = nx -> q_tail q' = last l ->
    queues_ok (set_k_queue (<[Z.to_nat priority := q']> (k_queue s))
                (set_k_proc (alter (set_p_next None) x (k_proc s)) s)) (<[Z.to_nat priority := l]> qs)).
  { intros q' Hq1 Hq2. apply (queues_ok_update s qs _ (x :: l)); try done.
    - split; [|done]. rewrite Hq1. apply (qchain_frame (k_proc s)); [|done].
      intros y Hy. apply next_set. by intros ->.
    - intros y _ Hy. apply next_set. intros ->. apply Hy. by apply elem_of_cons; left.
    - by rewrite length_alter.
    - intros y Hy. left. by apply elem_of_cons; right.
    - intros y yr Hy Hny. destruct (decide (y = x)) as [->|Hne].
      + rewrite list_lookup_alter_eq, Hpr in Hy. by injection Hy as <-.
      + rewrite list_lookup_alter_ne in Hy by done. apply (Hnx y yr Hy).
        destruct (concat_split qs _ _ Hl) as (A & B & E & E'). rewrite E' in Hny. rewrite E.
        rewrite !elem_of_app, elem_of_cons in *. tauto. }
  destruct nx as [y|]; cbn [is_null when]; krun.
  - eexists. split; [reflexivity|]. split; [|split; [by destruct s|apply same_but_next_alter]].
    apply HU; [done|]. destruct l as [|z l]; [discriminate|]. exact Ht.
  - destruct l as [|z l]; [|discriminate]. rewrite (alter_insert_eq _ _ _ (set_q_head None q)); unfold s2, s1; kred.
    2:{ apply list_lookup_insert_eq. by apply (lookup_lt_Some _ _ _ Hq). }
    rewrite list_insert_insert_eq.
    eexists. split; [reflexivity|]. split; [|split; [by destruct s|apply same_but_next_alter]].
    by apply HU.
Qed.

Lemma queues_ok_ext s s' qs :
  k_queue s' = k_queue s -> k_proc s' = k_proc s -> queues_ok s qs -> queues_ok s' qs.
Proof. unfold queues_ok. by intros -> ->. Qed.

(** Changing other fields of a process keeps the queues. *)
Lemma queues_ok_alter s qs f p :
  (forall pr, p_next (f pr) = p_next pr) -> queues_ok s qs ->
  queues_ok (set_k_proc (alter f p (k_proc s)) s) qs.
Proof.
  intros Hf (HF & Hlen & Hnd & Hps & Hnx). split; [|split; [done|split; [done|split]]]; kred.
  - eapply Forall2_impl; [exact HF|]. intros q l. apply queue_repr_frame. intros x _. by apply next_alter.
  - by rewrite length_alter.
  - intros x pr Hx Hn. destruct (decide (p = x)) as [->|Hne].
    + rewrite list_lookup_alter_eq in Hx. destruct (k_proc s !! x) as [pr'|] eqn:E; [|discriminate].
      injection Hx as <-. rewrite Hf. by apply (Hnx x).
    + rewrite list_lookup_alter_ne in Hx by done. by apply (Hnx x).
Qed.

Lemma same_but_next_refl ps : same_but_next ps ps.
Proof. by intros i. Qed.

Lemma same_but_next_trans ps1 ps2 ps3 : same_but_next ps1 ps2 -> same_but_next ps2 ps3 -> same_but_next ps1 ps3.
Proof. intros H1 H2 i. rewrite H2. apply H1. Qed.

Lemma same_but_next_lookup ps ps' i pr :
  same_but_next ps ps' -> ps !! i = Some pr ->
  exists pr', ps' !! i = Some pr' /\ set_p_next None pr' = set_p_next None pr.
Proof.
  intros H Hi. specialize (H i). rewrite Hi in H. destruct (ps' !! i) as [pr'|]; [|discriminate].
  exists pr'. split; [done|]. by apply (inj Some) in H.
Qed.

Lemma requeued_trans s1 s2 s3 q2 q3 : requeued s1 s2 q2 -> requeued s2 s3 q3 -> requeued s1 s3 q3.
Proof.
  intros (_ & E1 & N1) (H2 & E2 & N2). split; [done|]. split.
  - rewrite E2, E1. by destruct s1, s2, s3.
  - by apply same_but_next_trans with (k_proc s2).
Qed.

Lemma requeued_refl s qs : queues_ok s qs -> requeued s s qs.
Proof. intros H. split; [done|]. split; [by destruct s|apply same_but_next_refl]. Qed.

Lemma requeued_held s s' qs : requeued s s' qs -> k_held s' = k_held s.
Proof. by intros (_ & -> & _). Qed.

(** One choice of the multi-level scheduler ([dequeue(HIGH)], then
    [MEDIUM], then [LOW]) takes the first process of the highest non-empty
    queue: the head of the three queues joined in priority order. It is
    removed and the order of the others is kept; with all queues empty it
    returns null. *)
Lemma pick_mlfq_run s qs :
  queues_ok s qs -> (forall i, Lk_queue i ∉ k_held s) -> (forall p, Lk_proc p ∉ k_held s) ->
  exists s' qs', pick_mlfq s = Ret (head (concat qs)) s' /\ requeued s s' qs' /\
    concat qs' = tail (concat qs).
Proof.
  intros Hok Hlq Hlp. pose proof Hok as (_ & Hlen & _).
  destruct qs as [|a [|b [|c [|]]]]; try discriminate. unfold pick_mlfq.
  destruct (dequeue_run s [a; b; c] HIGH a Hok ltac:(done) eq_refl (Hlq _) Hlp) as (s1 & E1 & R1). krun.
  destruct a as [|x a]; cbn [head].
  2:{ exists s1. eexists. split; [reflexivity|]. split; [exact R1|done]. }
  assert (Hok1 : queues_ok s1 [[]; b; c]) by apply R1.
  pose proof (requeued_held _ _ _ R1) as Hh1.
  destruct (dequeue_run s1 [[]; b; c] MEDIUM b Hok1 ltac:(done) eq_refl) as (s2 & E2 & R2);
    [rewrite Hh1; apply Hlq|rewrite Hh1; done|]. krun.
  destruct b as [|x b]; cbn [head].
  2:{ exists s2. eexists. split; [reflexivity|]. split; [exact (requeued_trans _ _ _ _ _ R1 R2)|done]. }
  assert (Hok2 : queues_ok s2 [[]; []; c]) by apply R2.
  pose proof (requeued_held _ _ _ R2) as Hh2. rewrite Hh1 in Hh2.
  destruct (dequeue_run s2 [[]; []; c] LOW c Hok2 ltac:(done) eq_refl) as (s3 & E3 & R3);
    [rewrite Hh2; apply Hlq|rewrite Hh2; done|].
  exists s3. eexists. split; [|split; [exact (requeued_trans _ _ _ _ _ (requeued_trans _ _ _ _ _ R1 R2) R3)|]].
  - rewrite E3. simpl. by rewrite app_nil_r.
  - simpl. by rewrite !app_nil_r.
Qed.

(** ** The scheduling invariant

    Under the multi-level policy a process is in a queue exactly when it is
    runnable; its priority names a queue. *)
Definition sched_inv (s : kstate) (qs : list (list nat)) : Prop :=
  queues_ok s qs /\
  forall p pr, k_proc s !! p = Some pr ->
    0 <= p_priority pr < NQUEUE /\ (p ∈ concat qs <-> p_state pr = RUNNABLE).

Lemma same_but_next_alter_comm f ps ps' i :
  (forall pr, set_p_next None (f pr) = f (set_p_next None pr)) ->
  same_but_next ps ps' -> same_but_next (alter f i ps) (alter f i ps').
Proof.
  intros Hf H j. destruct (decide (i = j)) as [->|Hne].
  - rewrite !list_lookup_alter_eq. specialize (H j).
    destruct (ps !! j), (ps' !! j); simpl in *; try discriminate; [|done].
    rewrite !Hf. apply (inj Some) in H. by rewrite H.
  - by rewrite !list_lookup_alter_ne.
Qed.

Lemma same_but_next_inv ps ps' i pr' :
  same_but_next ps ps' -> ps' !! i = Some pr' ->
  exists pr, ps !! i = Some pr /\ set_p_next None pr' = set_p_next None pr.
Proof.
  intros H Hi. specialize (H i). rewrite Hi in H. destruct (ps !! i) as [pr|]; [|discriminate].
  exists pr. split; [done|]. by apply (inj Some) in H.
Qed.

(** The fields other than [next] of processes that agree on them. *)
Lemma but_next_fields pr pr' :
  set_p_next None pr' = set_p_next None pr ->
  p_state pr' = p_state pr /\ p_chan pr' = p_chan pr /\ p_priority pr' = p_priority pr.
Proof.
  intros E. split_and!.
  - change (p_state (set_p_next None pr') = p_state pr). by rewrite E.
  - change (p_chan (set_p_next None pr') = p_chan pr). by rewrite E.
  - change (p_priority (set_p_next None pr') = p_priority pr). by rewrite E.
Qed.

(** The invariant after the state of [p] has changed by [f] and [p] has
    been queued or not accordingly. *)
Lemma sched_inv_requeue s s1 qs qs' p f :
  sched_inv s qs -> queues_ok s1 qs' -> same_but_next (alter f p (k_proc s)) (k_proc s1) ->
  (forall pr, p_priority (f pr) = p_priority pr) ->
  (forall x, x <> p -> x ∈ concat qs' <-> x ∈ concat qs) ->
  (forall pr, k_proc s !! p = Some pr -> p ∈ concat qs' <-> p_state (f pr) = RUNNABLE) ->
  sched_inv s1 qs'.
Proof.
  intros [Hok Hinv] Hok1 Hn1 Hf Hoth Hp. split; [done|]. intros x xr Hx.
  destruct (same_but_next_inv _ _ _ _ Hn1 Hx) as (xr0 & Hx0 & Ex).
  destruct (but_next_fields _ _ Ex) as (Es & _ & Ep). rewrite Es, Ep in *.
  destruct (decide (x = p)) as [->|Hne].
  - rewrite list_lookup_alter_eq in Hx0. destruct (k_proc s !! p) as [pr|] eqn:Epr; [|discriminate].
    injection Hx0 as <-. rewrite Hf. destruct (Hinv p pr Epr) as [H1 _]. split; [done|]. by apply Hp.
  - rewrite list_lookup_alter_ne in Hx0 by done. destruct (Hinv x xr0 Hx0) as [H1 H2].
    split; [done|]. by rewrite Hoth.
Qed.

(** Giving up the processor: what [sched] sees and does. *)
Lemma sched_run s p pr :
  k_cur s = Some p -> k_held s = [Lk_proc p] -> k_proc s !! p = Some pr -> p_state pr <> RUNNING ->
  sched s = Swtch s (fun s' => Ret tt s').
Proof.
  intros Hc Hh Hp Hst. unfold sched.
  assert (Hcp : curproc s = Ret p s) by (unfold curproc; by rewrite Hc).
  assert (Hgp : get_proc p s = Ret pr s) by (unfold get_proc; by rewrite Hp).
  krun. unfold holding. rewrite Hh, bool_decide_true by (apply elem_of_cons; by left). cbn [negb].
  krun. rewrite Hh. cbn [negb length Nat.eqb]. krun. by rewrite decide_False.
Qed.

(** [yield] puts the process at the tail of its priority's queue, marks
    it runnable and switches away holding only its own lock, with the
    scheduling invariant established; when switched back to it releases the
    lock and returns. *)
Theorem yield_correct s qs p pr l :
  sched_inv s qs -> k_cur s = Some p -> k_held s = [] ->
  k_proc s !! p = Some pr -> p_state pr = RUNNING -> qs !! Z.to_nat (p_priority pr) = Some l ->
  exists s1 k, yield s = Swtch s1 k /\
    sched_inv s1 (<[Z.to_nat (p_priority pr) := l ++ [p]]> qs) /\
    k_cur s1 = Some p /\ k_held s1 = [Lk_proc p] /\
    same_but_next (alter (set_p_state RUNNABLE) p (k_proc s)) (k_proc s1) /\
    (forall s', k_held s' = [Lk_proc p] -> k s' = Ret tt (set_k_held [] s')).
Proof.
  intros [Hok Hinv] Hc Hh Hp Hst Hl. destruct (Hinv p pr Hp) as [Hprio Hq].
  assert (Hcp : curproc s = Ret p s) by (unfold curproc; by rewrite Hc).
  unfold yield, upd_proc. krun. rewrite Hh.
  set (s0 := set_k_proc _ _).
  assert (Hp0 : k_proc s0 !! p = Some (set_p_state RUNNABLE pr)).
  { unfold s0. kred. by rewrite list_lookup_alter_eq, Hp. }
  assert (Hgp : get_proc p s0 = Ret (set_p_state RUNNABLE pr) s0) by (unfold get_proc; by rewrite Hp0).
  assert (Hok0 : queues_ok s0 qs).
  { apply (queues_ok_ext (set_k_proc (alter (set_p_state RUNNABLE) p (k_proc s)) s)); [done|done|].
    by apply queues_ok_alter. }
  assert (Hpq : p ∉ concat qs) by (rewrite Hq, Hst; discriminate).
  destruct (enqueue_tail_run s0 qs (p_priority pr) l p _ Hok0 ltac:(lia) Hl Hpq Hp0) as (s1 & E1 & R1).
  { unfold s0. kred. apply not_elem_of_cons. split; [discriminate|apply not_elem_of_nil]. }
  krun. cbn [p_priority set_p_state]. krun. pose proof R1 as (Hok1 & Es1 & Hn1).
  destruct (same_but_next_lookup _ _ _ _ Hn1 Hp0) as (pr1 & Hp1 & Epr1).
  assert (Hst1 : p_state pr1 = RUNNABLE) by (change (p_state (set_p_next None pr1) = RUNNABLE); by rewrite Epr1).
  assert (Hh1 : k_held s1 = [Lk_proc p]) by (by rewrite (requeued_held _ _ _ R1)).
  assert (Hc1 : k_cur s1 = Some p) by (rewrite Es1; exact Hc).
  pose proof (sched_run s1 p pr1 Hc1 Hh1 Hp1 ltac:(congruence)) as Hsc. krun.
  do 2 eexists. split; [reflexivity|]. split; [|split; [done|split; [done|split; [exact Hn1|]]]].
  - destruct (concat_split qs _ l Hl) as (A & B & E & E').
    apply (sched_inv_requeue s s1 qs _ p (set_p_state RUNNABLE)); try done.
    + intros x Hx. rewrite E, E', !elem_of_app, list_elem_of_singleton. tauto.
    + intros pr' _. split; [done|]. intros _. rewrite E', !elem_of_app, list_elem_of_singleton. tauto.
  - intros s' Hs'. cbn [bindO]. by rewrite (release_head _ [] s' Hs').
Qed.

(** ** What holds under either policy

    Under the round-robin policy, which the kernel is built with, processes
    are queued and never dequeued, and the queues represent no list
    ([enqueue_twice_circular]). What [yield], [sleep] and [wakeup] need, and
    keep, under both policies: the tables have their lengths, a queue has a
    head exactly when it has a tail, and priorities name a queue. *)
Definition sched_ok (s : kstate) : Prop :=
  length (k_proc s) = NPROC /\ length (k_queue s) = 3%nat /\
  (forall q, q ∈ k_queue s -> is_null (q_head q) = is_null (q_tail q)) /\
  forall p pr, k_proc s !! p = Some pr -> 0 <= p_priority pr < NQUEUE.

Lemma queues_sched_ok s qs :
  queues_ok s qs -> (forall p pr, k_proc s !! p = Some pr -> 0 <= p_priority pr < NQUEUE) -> sched_ok s.
Proof.
  intros (HF & Hlen & _ & Hn & _) Hi. split; [done|]. split; [by rewrite (Forall2_length _ _ _ HF)|]. split.
  - intros q [i Hq]%list_elem_of_lookup. destruct (Forall2_lookup_l _ _ _ _ _ HF Hq) as (l & _ & Hc & Ht).
    rewrite Ht, (qchain_head _ _ _ Hc). destruct l as [|x l] using rev_ind; [done|]. rewrite last_snoc. by destruct l.
  - exact Hi.
Qed.

Lemma sched_ok_frame s s' :
  sched_ok s -> k_queue s' = k_queue s -> length (k_proc s') = length (k_proc s) ->
  (forall p pr', k_proc s' !! p = Some pr' -> exists pr, k_proc s !! p = Some pr /\ p_priority pr' = p_priority pr) ->
  sched_ok s'.
Proof.
  intros (Hl & Hq & Hh & Hp) Eq El Ep. split; [congruence|]. rewrite Eq. split; [done|]. split; [done|].
  intros p pr' H. destruct (Ep p pr' H) as (pr & H' & ->). by apply (Hp p).
Qed.

Lemma sched_ok_ext s s' : sched_ok s -> k_queue s' = k_queue s -> k_proc s' = k_proc s -> sched_ok s'.
Proof. intros H Eq Ep. apply (sched_ok_frame s); rewrite ?Ep; eauto. Qed.

Lemma lookup_alter_cases {A} (f : A -> A) (l : list A) (i j : nat) y :
  alter f i l !! j = Some y -> (i = j /\ exists x, l !! i = Some x /\ y = f x) \/ (i <> j /\ l !! j = Some y).
Proof.
  destruct (decide (i = j)) as [->|Hne]; [|rewrite list_lookup_alter_ne by done; tauto].
  rewrite list_lookup_alter_eq. destruct (l !! j) as [x|]; [|discriminate]. intros [= <-]. left. eauto.
Qed.

Lemma sched_ok_alter s s' p f :
  sched_ok s -> k_queue s' = k_queue s -> k_proc s' = alter f p (k_proc s) ->
  (forall pr, p_priority (f pr) = p_priority pr) -> sched_ok s'.
Proof.
  intros H Eq Ep Hf. apply (sched_ok_frame s); [done|done|by rewrite Ep, length_alter|].
  rewrite Ep. intros x xr [(<- & y & E & ->)|[_ Hx]]%lookup_alter_cases; eauto.
Qed.

(** A queue operation as the rest of the kernel sees it. *)
Definition queueing (s s' : kstate) : Prop :=
  s' = set_k_queue (k_queue s') (set_k_proc (k_proc s') s) /\ same_but_next (k_proc s) (k_proc s') /\ sched_ok s'.

Lemma queueing_intro s s' i f ps' :
  sched_ok s -> s' = set_k_queue (alter f i (k_queue s)) (set_k_proc ps' s) ->
  (forall q, k_queue s !! i = Some q -> is_null (q_head (f q)) = is_null (q_tail (f q))) ->
  same_but_next (k_proc s) ps' -> length ps' = length (k_proc s) -> queueing s s'.
Proof.
  intros (Hl & Hq & Hh & Hp) -> Hf Hn Hlen. split; [by destruct s|]. split; [done|]. split; [kred; congruence|]. kred.
  split; [by rewrite length_alter|]. split.
  - intros q [x [(<- & q0 & E & ->)|[_ E]]%lookup_alter_cases]%list_elem_of_lookup; [by apply Hf|].
    apply Hh. by apply list_elem_of_lookup_2 in E.
  - intros p pr Hpr. destruct (same_but_next_inv _ _ _ _ Hn Hpr) as (pr0 & Hpr0 & E).
    destruct (but_next_fields _ _ E) as (_ & _ & ->). by apply (Hp p).
Qed.

Lemma sched_ok_queue s priority :
  sched_ok s -> 0 <= priority < NQUEUE ->
  exists q, k_queue s !! Z.to_nat priority = Some q /\ get_queue priority s = Ret q s /\ is_null (q_head q) = is_null (q_tail q).
Proof.
  intros (_ & Hq & Hh & _) Hp. destruct (lookup_lt_is_Some_2 (k_queue s) (Z.to_nat priority)) as [q E];
    [unfold NQUEUE in Hp; lia|].
  exists q. split; [done|]. split; [|apply Hh; by apply list_elem_of_lookup_2 in E]. unfold get_queue.
  destruct (Z.leb_spec 0 priority); [|lia]. destruct (Z.ltb_spec priority NQUEUE); [|lia]. cbn [andb]. by rewrite E.
Qed.

Lemma enqueue_head_ok s p priority pr :
  sched_ok s -> k_proc s !! p = Some pr -> 0 <= priority < NQUEUE -> Lk_q priority ∉ k_held s ->
  exists s', enqueue_at_head p priority s = Ret 0 s' /\ queueing s s'.
Proof.
  intros HI Hpr Hp Hlk. destruct (sched_ok_queue s priority HI Hp) as (q & Hin & Hg & Hnull).
  assert (Hlt : Nat.ltb p NPROC = true).
  { apply Nat.ltb_lt. destruct HI as (<- & _). by apply (lookup_lt_Some _ _ _ Hpr). }
  unfold enqueue_at_head. rewrite Hlt, bad_priority_ok by lia. cbn [negb].
  pose proof (get_queue_same s (set_k_held (Lk_q priority :: k_held s) s) q priority eq_refl Hg) as Hg'. krun.
  rewrite <- Hnull. destruct (is_null (q_head q)) eqn:Eh; cbn [andb]; unfold upd_queue, upd_proc; krun.
  - eexists. split; [reflexivity|]. apply (queueing_intro s _ (Z.to_nat priority) (fun q => set_q_tail (Some p) (set_q_head (Some p) q)) (k_proc s) HI);
      [by destruct s|done|apply same_but_next_refl|done].
  - eexists. split; [reflexivity|].
    apply (queueing_intro s _ (Z.to_nat priority) (set_q_head (Some p)) (alter (set_p_next (q_head q)) p (k_proc s)) HI);
      [by destruct s| |apply same_but_next_alter|apply length_alter].
    intros q0 Hq0. simplify_eq. cbn [set_q_head q_head q_tail is_null]. congruence.
Qed.

Lemma enqueue_tail_ok s p priority pr :
  sched_ok s -> k_proc s !! p = Some pr -> 0 <= priority < NQUEUE -> Lk_q priority ∉ k_held s ->
  exists s', enqueue_at_tail p priority s = Ret 0 s' /\ queueing s s'.
Proof.
  intros HI Hpr Hp Hlk. destruct (sched_ok_queue s priority HI Hp) as (q & Hin & Hg & Hnull).
  assert (Hlt : Nat.ltb p NPROC = true).
  { apply Nat.ltb_lt. destruct HI as (<- & _). by apply (lookup_lt_Some _ _ _ Hpr). }
  unfold enqueue_at_tail. rewrite Hlt, bad_priority_ok by lia. cbn [negb].
  pose proof (get_queue_same s (set_k_held (Lk_q priority :: k_held s) s) q priority eq_refl Hg) as Hg'. krun.
  rewrite Hnull. destruct (q_tail q) as [t|] eqn:Et; cbn [is_null andb] in *; unfold upd_queue, upd_proc; krun.
  - eexists. split; [reflexivity|].
    apply (queueing_intro s _ (Z.to_nat priority) (set_q_tail (Some p)) (alter (set_p_next (Some p)) t (k_proc s)) HI);
      [by destruct s| |apply same_but_next_alter|apply length_alter].
    intros q0 Hq0. simplify_eq. cbn [set_q_tail q_head q_tail is_null]. exact Hnull.
  - eexists. split; [reflexivity|]. apply (queueing_intro s _ (Z.to_nat priority) (fun q => set_q_tail (Some p) (set_q_head (Some p) q)) (k_proc s) HI);
      [by destruct s|done|apply same_but_next_refl|done].
Qed.

(** [yield] under either policy. *)
Lemma yield_ok s p pr :
  sched_ok s -> k_cur s = Some p -> k_held s = [] -> k_proc s !! p = Some pr ->
  exists s1 k, yield s = Swtch s1 k /\ sched_ok s1 /\ k_cur s1 = Some p /\ k_held s1 = [Lk_proc p] /\
    same_but_next (alter (set_p_state RUNNABLE) p (k_proc s)) (k_proc s1) /\
    (forall s', k_held s' = [Lk_proc p] -> k s' = Ret tt (set_k_held [] s')).
Proof.
  intros HI Hc Hh Hp. pose proof HI as (_ & _ & _ & Hprio). specialize (Hprio p pr Hp).
  assert (Hcp : curproc s = Ret p s) by (unfold curproc; by rewrite Hc).
  unfold yield, upd_proc. krun. rewrite Hh. set (s0 := set_k_proc _ _).
  assert (Hp0 : k_proc s0 !! p = Some (set_p_state RUNNABLE pr)).
  { unfold s0. kred. by rewrite list_lookup_alter_eq, Hp. }
  assert (Hgp : get_proc p s0 = Ret (set_p_state RUNNABLE pr) s0) by (unfold get_proc; by rewrite Hp0).
  assert (HI0 : sched_ok s0) by (by apply (sched_ok_alter s s0 p (set_p_state RUNNABLE))).
  destruct (enqueue_tail_ok s0 p (p_priority pr) _ HI0 Hp0 Hprio) as (s1 & E1 & Es1 & Hn1 & HI1).
  { unfold s0. kred. apply not_elem_of_cons. split; [discriminate|apply not_elem_of_nil]. }
  krun. cbn [p_priority set_p_state]. krun.
  destruct (same_but_next_lookup _ _ _ _ Hn1 Hp0) as (pr1 & Hp1 & Epr1).
  assert (Hst1 : p_state pr1 = RUNNABLE) by (by rewrite (proj1 (but_next_fields _ _ Epr1))).
  assert (Hh1 : k_held s1 = [Lk_proc p]) by (by rewrite Es1).
  assert (Hc1 : k_cur s1 = Some p) by (rewrite Es1; exact Hc).
  pose proof (sched_run s1 p pr1 Hc1 Hh1 Hp1 ltac:(congruence)) as Hsc. krun.
  do 2 eexists. split; [reflexivity|]. split; [done|]. split; [done|]. split; [done|]. split; [exact Hn1|].
  intros s' Hs'. cbn [bindO]. by rewrite (release_head _ [] s' Hs').
Qed.

(** ** [wakeup] *)

(** What [wakeup] makes of a process. *)
Definition wakes (ch : chan) (s : kstate) (p : nat) (pr : proc) : proc :=
  if decide (k_cur s <> Some p /\ p_state pr = SLEEPING /\ p_chan pr = Some ch)
  then set_p_state RUNNABLE pr else pr.

(** The state in which the loop of [wakeup] queues process [p]. *)
Definition waking (p : nat) (s : kstate) : kstate :=
  set_k_proc (alter (set_p_state RUNNABLE) p (k_proc s)) (set_k_held (Lk_proc p :: k_held s) s).

Lemma wake_one_skip ch p s pr :
  k_proc s !! p = Some pr -> ~ (p_state pr = SLEEPING /\ p_chan pr = Some ch) -> wake_one ch p s = Ret tt s.
Proof.
  intros Hp Hn. unfold wake_one. assert (Hg : get_proc p s = Ret pr s) by (unfold get_proc; by rewrite Hp).
  krun. by rewrite decide_False.
Qed.

Lemma wake_one_wake ch p s pr r s2 :
  k_proc s !! p = Some pr -> p_state pr = SLEEPING -> p_chan pr = Some ch ->
  enqueue_at_head p (p_priority pr) (set_k_proc (alter (set_p_state RUNNABLE) p (k_proc s)) s) = Ret r s2 ->
  wake_one ch p s = Ret tt s2.
Proof.
  intros Hp Hs Hc E. unfold wake_one, upd_proc. assert (Hg : get_proc p s = Ret pr s) by (unfold get_proc; by rewrite Hp).
  krun. rewrite decide_True by done. by krun.
Qed.

(** The loop of [wakeup] keeps any invariant of the scheduler's data that
    making a sleeping process runnable and queueing it keeps. *)
Section Wakeup.
Context (Inv : kstate -> Prop).
Hypothesis Inv_length : forall s, Inv s -> length (k_proc s) = NPROC.
Hypothesis Inv_wake : forall s p pr,
  Inv s -> k_proc s !! p = Some pr -> p_state pr = SLEEPING -> (forall i, Lk_queue i ∉ k_held s) ->
  exists s2, enqueue_at_head p (p_priority pr) (waking p s) = Ret 0 s2 /\
    s2 = set_k_queue (k_queue s2) (set_k_proc (k_proc s2) (waking p s)) /\
    same_but_next (k_proc (waking p s)) (k_proc s2) /\ Inv (set_k_held (k_held s) s2).

(** After the first [k] processes. *)
Definition woken (ch : chan) (s s1 : kstate) (k : nat) : Prop :=
  Inv s1 /\ s1 = set_k_queue (k_queue s1) (set_k_proc (k_proc s1) s) /\
  forall p pr, k_proc s !! p = Some pr -> exists pr1, k_proc s1 !! p = Some pr1 /\
    set_p_next None pr1 = set_p_next None (if decide (p < k)%nat then wakes ch s p pr else pr).

(** A process that stays as it is. *)
Lemma woken_skip ch s s1 p pr :
  woken ch s s1 p -> k_proc s !! p = Some pr -> wakes ch s p pr = pr -> woken ch s s1 (S p).
Proof.
  intros (Hi & E & Hp) Hpr Hw. split; [done|]. split; [done|]. intros x xr Hx.
  destruct (Hp x xr Hx) as (xr1 & Hx1 & Ex). exists xr1. split; [done|]. rewrite Ex.
  destruct (decide (x = p)) as [->|Hne].
  - simplify_eq. rewrite Hw. by destruct (decide _), (decide _).
  - by destruct (decide (x < p)%nat), (decide (x < S p)%nat); try lia.
Qed.

(** A process that is woken up. *)
Lemma woken_wake ch s s1 s2 p pr pr1 :
  woken ch s s1 p -> k_proc s !! p = Some pr -> k_proc s1 !! p = Some pr1 ->
  wakes ch s p pr = set_p_state RUNNABLE pr ->
  s2 = set_k_queue (k_queue s2) (set_k_proc (k_proc s2) (waking p s1)) ->
  same_but_next (k_proc (waking p s1)) (k_proc s2) -> Inv (set_k_held (k_held s1) s2) ->
  woken ch s (set_k_held (k_held s1) s2) (S p).
Proof.
  intros (Hi & E & Hp) Hpr Hpr1 Hw Es2 Hn2 HI. split; [done|]. split.
  { rewrite Es2, E. unfold waking. kred. by destruct s. }
  intros x xr Hx. kred. destruct (Hp x xr Hx) as (xr1 & Hx1 & Ex1). destruct (decide (x = p)) as [->|Hne].
  - assert (xr = pr) as -> by congruence. assert (xr1 = pr1) as -> by congruence.
    destruct (same_but_next_lookup _ _ p (set_p_state RUNNABLE pr1) Hn2) as (xr2 & Hx2 & Ex2).
    { unfold waking. kred. by rewrite list_lookup_alter_eq, Hpr1. }
    exists xr2. split; [done|]. rewrite Ex2. destruct (decide (p < S p)%nat); [|lia].
    destruct (decide (p < p)%nat); [lia|]. rewrite Hw.
    change (set_p_state RUNNABLE (set_p_next None pr1) = set_p_state RUNNABLE (set_p_next None pr)). by rewrite Ex1.
  - destruct (same_but_next_lookup _ _ x xr1 Hn2) as (xr2 & Hx2 & Ex2).
    { unfold waking. kred. by rewrite list_lookup_alter_ne. }
    exists xr2. split; [done|]. rewrite Ex2, Ex1.
    by destruct (decide (x < p)%nat), (decide (x < S p)%nat); try lia.
Qed.

Lemma wakeup_step ch s s1 p pr :
  woken ch s s1 p -> k_proc s !! p = Some pr ->
  (forall i, Lk_queue i ∉ k_held s) -> (forall i, Lk_proc i ∉ k_held s) ->
  exists s2, wakeup_body ch p s1 = Ret tt s2 /\ woken ch s s2 (S p).
Proof.
  intros Hw Hpr Hlq Hlp. pose proof Hw as (Hinv1 & E1 & Hp1).
  destruct (Hp1 p pr Hpr) as (pr1 & Hpr1 & Epr1). destruct (decide (p < p)%nat); [lia|].
  destruct (but_next_fields _ _ Epr1) as (Est & Ech & Epri).
  assert (Hcur : k_cur s1 = k_cur s) by (by rewrite E1).
  assert (Hheld : k_held s1 = k_held s) by (by rewrite E1).
  unfold wakeup_body. krun. rewrite Hcur. destruct (decide (k_cur s = Some p)) as [Hme|Hme].
  { exists s1. split; [done|]. apply (woken_skip ch s s1 p pr); [done|done|].
    unfold wakes. by rewrite decide_False by tauto. }
  rewrite <- Hheld in Hlq, Hlp. cbn [wake_code in_order act_run]. krun.
  destruct (decide (p_state pr = SLEEPING /\ p_chan pr = Some ch)) as [[Hs Hc]|Hn].
  2:{ pose proof (wake_one_skip ch p (set_k_held (Lk_proc p :: k_held s1) s1) pr1 Hpr1 ltac:(rewrite Est, Ech; exact Hn)). krun.
      exists s1. split; [by destruct s1|]. apply (woken_skip ch s s1 p pr); [done|done|].
      unfold wakes. by rewrite decide_False by tauto. }
  destruct (Inv_wake s1 p pr1 Hinv1 Hpr1 ltac:(congruence) Hlq) as (s2 & E2 & Es2 & Hn2 & HI2).
  pose proof (wake_one_wake ch p (set_k_held (Lk_proc p :: k_held s1) s1) pr1 0 s2 Hpr1 ltac:(congruence) ltac:(congruence) E2). krun.
  assert (Hh2 : k_held s2 = Lk_proc p :: k_held s1) by (by rewrite Es2).
  rewrite (release_head _ _ _ Hh2). eexists. split; [reflexivity|].
  apply (woken_wake ch s s1 s2 p pr pr1); try done. unfold wakes. by rewrite decide_True by tauto.
Qed.

Lemma wakeup_keeps ch s :
  Inv s -> (forall i, Lk_queue i ∉ k_held s) -> (forall i, Lk_proc i ∉ k_held s) ->
  exists s', wakeup ch s = Ret tt s' /\ Inv s' /\
    s' = set_k_queue (k_queue s') (set_k_proc (k_proc s') s) /\
    forall p pr, k_proc s !! p = Some pr -> exists pr', k_proc s' !! p = Some pr' /\
      set_p_next None pr' = set_p_next None (wakes ch s p pr).
Proof.
  intros Hinv Hlq Hlp. pose proof (Inv_length s Hinv) as Hlen.
  assert (HL : forall n k s1, (k + n = NPROC)%nat -> woken ch s s1 k ->
    exists s', for_all (seq k n) (wakeup_body ch) s1 = Ret tt s' /\ woken ch s s' NPROC).
  { induction n as [|n IH]; intros k s1 Hk Hw.
    - exists s1. split; [done|]. by replace NPROC with k by lia.
    - destruct (lookup_lt_is_Some_2 (k_proc s) k) as [pr Hpr]; [lia|].
      destruct (wakeup_step ch s s1 k pr Hw Hpr Hlq Hlp) as (s2 & E2 & Hw2).
      cbn [seq for_all]. krun. apply (IH (S k) s2); [lia|done]. }
  destruct (HL NPROC 0%nat s eq_refl) as (s' & E & HI & Es & Hp).
  { split; [done|]. split; [by destruct s|]. intros p pr Hpr. exists pr. split; [done|]. by destruct (decide (p < 0)%nat); [lia|]. }
  exists s'. split; [exact E|]. split; [done|]. split; [done|].
  intros p pr Hpr. destruct (Hp p pr Hpr) as (pr' & Hpr' & Epr). exists pr'. split; [done|].
  rewrite Epr. destruct (decide (p < NPROC)%nat) as [_|Hge]; [done|]. apply lookup_lt_Some in Hpr. lia.
Qed.
End Wakeup.

(** Nobody to wake up. *)
Lemma wakeup_skip ch q s qr :
  k_proc s !! q = Some qr -> Lk_proc q ∉ k_held s -> p_chan qr <> Some ch -> wakeup_body ch q s = Ret tt s.
Proof.
  intros Hqr Hl Hno. unfold wakeup_body. krun. destruct (decide (k_cur s = Some q)); [done|].
  cbn [wake_code in_order act_run]. krun.
  pose proof (wake_one_skip ch q (set_k_held (Lk_proc q :: k_held s) s) qr Hqr ltac:(tauto)). krun. by destruct s.
Qed.

Lemma wakeup_none ch s :
  length (k_proc s) = NPROC -> (forall i, Lk_proc i ∉ k_held s) ->
  (forall q qr, k_proc s !! q = Some qr -> p_chan qr <> Some ch) ->
  wakeup ch s = Ret tt s.
Proof.
  intros Hlen Hlp Hno. apply for_all_id. intros q Hq%elem_of_seq.
  destruct (lookup_lt_is_Some_2 (k_proc s) q) as [qr Hqr]; [lia|]. apply (wakeup_skip ch q s qr); eauto.
Qed.

(** Exactly one process to wake up, which gets to the head of its queue. *)
Lemma wakeup_single ch s p pr r qs :
  length (k_proc s) = NPROC -> (forall i, Lk_proc i ∉ k_held s) -> k_cur s <> Some p ->
  k_proc s !! p = Some pr -> p_state pr = SLEEPING -> p_chan pr = Some ch ->
  (forall q qr, q <> p -> k_proc s !! q = Some qr -> p_chan qr <> Some ch) ->
  let s1 := set_k_held (Lk_proc p :: k_held s) (set_k_proc (<[p := set_p_state RUNNABLE pr]> (k_proc s)) s) in
  enqueue_at_head p (p_priority pr) s1 = Ret r (set_k_queue qs s1) ->
  wakeup ch s = Ret tt (set_k_queue qs (set_k_proc (<[p := set_p_state RUNNABLE pr]> (k_proc s)) s)).
Proof.
  intros Hlen Hlp Hcur Hp Hst Hch Hno s1 Eq. pose proof (lookup_lt_Some _ _ _ Hp) as Hlt.
  unfold wakeup.
  rewrite (seq_around NPROC p) by lia. rewrite for_all_skip.
  2:{ intros q Hq%elem_of_seq. destruct (lookup_lt_is_Some_2 (k_proc s) q) as [qr Hqr]; [lia|].
      apply (wakeup_skip ch q s qr Hqr); [apply Hlp|]. apply (Hno q qr); [lia|done]. }
  set (s2 := set_k_queue qs (set_k_proc _ s)). cbn [for_all].
  assert (E : wakeup_body ch p s = Ret tt s2).
  { unfold wakeup_body. krun. rewrite decide_False by done. cbn [wake_code in_order act_run]. krun.
    assert (H : wake_one ch p (set_k_held (Lk_proc p :: k_held s) s) = Ret tt (set_k_queue qs s1)).
    { apply (wake_one_wake ch p _ pr r); [done..|]. kred. rewrite (alter_insert_eq _ _ _ pr Hp). exact Eq. }
    krun. unfold s1, s2. by destruct s. }
  krun. apply for_all_id. intros q Hq%elem_of_seq.
  destruct (lookup_lt_is_Some_2 (k_proc s) q) as [qr Hqr]; [lia|].
  apply (wakeup_skip ch q s2 qr); [|apply Hlp|apply (Hno q qr); [lia|done]].
  unfold s2. kred. by rewrite list_lookup_insert_ne by lia.
Qed.

(** [wakeup(chan)] makes exactly the processes sleeping on [chan], other
    than the caller, runnable; no other process changes (but for queue links),
    and no lock is left held. *)
Lemma wakeup_run ch s :
  sched_ok s -> (forall i, Lk_queue i ∉ k_held s) -> (forall i, Lk_proc i ∉ k_held s) ->
  exists s', wakeup ch s = Ret tt s' /\ sched_ok s' /\
    s' = set_k_queue (k_queue s') (set_k_proc (k_proc s') s) /\
    forall p pr, k_proc s !! p = Some pr -> exists pr', k_proc s' !! p = Some pr' /\
      set_p_next None pr' = set_p_next None (wakes ch s p pr).
Proof.
  apply wakeup_keeps; [by intros s0 []|]. clear ch s. intros s p pr HI Hpr Hst Hlq.
  pose proof HI as (_ & _ & _ & Hprio). specialize (Hprio p pr Hpr).
  assert (HI0 : sched_ok (waking p s)) by (by apply (sched_ok_alter s _ p (set_p_state RUNNABLE))).
  assert (Hp0 : k_proc (waking p s) !! p = Some (set_p_state RUNNABLE pr)).
  { unfold waking. kred. by rewrite list_lookup_alter_eq, Hpr. }
  destruct (enqueue_head_ok (waking p s) p (p_priority pr) _ HI0 Hp0 Hprio) as (s2 & E2 & Es2 & Hn2 & HI2).
  { unfold waking. kred. apply not_elem_of_cons. split; [discriminate|]. apply Hlq. }
  exists s2. split; [done|]. split; [done|]. split; [done|]. by apply (sched_ok_ext s2).
Qed.

(** Under the multi-level policy [wakeup] moreover puts each process it makes
    runnable at the head of its priority's queue and keeps the invariant. *)
Theorem wakeup_correct ch s qs :
  sched_inv s qs -> (forall i, Lk_queue i ∉ k_held s) -> (forall i, Lk_proc i ∉ k_held s) ->
  exists s' qs', wakeup ch s = Ret tt s' /\ sched_inv s' qs' /\
    s' = set_k_queue (k_queue s') (set_k_proc (k_proc s') s) /\
    (forall i l, qs !! i = Some l -> exists w, qs' !! i = Some (w ++ l)) /\
    forall p pr, k_proc s !! p = Some pr -> exists pr', k_proc s' !! p = Some pr' /\
      set_p_next None pr' = set_p_next None (wakes ch s p pr).
Proof.
  intros Hinv Hlq Hlp.
  destruct (wakeup_keeps (fun s1 => exists qs1, sched_inv s1 qs1 /\
    forall i l, qs !! i = Some l -> exists w, qs1 !! i = Some (w ++ l))) with (ch := ch) (s := s)
    as (s' & E & (qs' & HI & Hq) & Es & Hp); [| |exists qs; split; [done|]; intros i l Hl; by exists []|done|done|by exists s', qs'].
  { intros s1 (qs1 & [(_ & _ & _ & Hlen & _) _] & _). exact Hlen. }
  clear s Hinv Hlq Hlp. intros s p pr (qs1 & [Hok1 Hin1] & Hqs) Hpr Hst Hlq.
  destruct (Hin1 p pr Hpr) as [Hprio Hq1].
  destruct (lookup_lt_is_Some_2 qs1 (Z.to_nat (p_priority pr))) as [l Hl].
  { destruct Hok1 as (_ & -> & _). unfold NQUEUE in Hprio. lia. }
  assert (Hok0 : queues_ok (waking p s) qs1).
  { apply (queues_ok_ext (set_k_proc (alter (set_p_state RUNNABLE) p (k_proc s)) s)); [done|done|].
    by apply queues_ok_alter. }
  assert (Hpq : p ∉ concat qs1) by (rewrite Hq1, Hst; discriminate).
  assert (Hp0 : k_proc (waking p s) !! p = Some (set_p_state RUNNABLE pr)).
  { unfold waking. kred. by rewrite list_lookup_alter_eq, Hpr. }
  destruct (enqueue_head_run (waking p s) qs1 (p_priority pr) l p _ Hok0 ltac:(lia) Hl Hpq Hp0) as (s2 & E2 & Hok2 & Es2 & Hn2).
  { unfold waking. kred. apply not_elem_of_cons. split; [discriminate|]. apply Hlq. }
  exists s2. split; [done|]. split; [done|]. split; [done|].
  exists (<[Z.to_nat (p_priority pr) := p :: l]> qs1). split.
  - destruct (concat_split qs1 _ l Hl) as (A & B & E & E').
    assert (HI : sched_inv s2 (<[Z.to_nat (p_priority pr) := p :: l]> qs1)).
    { apply (sched_inv_requeue s s2 qs1 _ p (set_p_state RUNNABLE)); try done.
      - intros x Hx. rewrite E, E', !elem_of_app, elem_of_cons. tauto.
      - intros pr' _. split; [done|]. intros _. rewrite E', !elem_of_app, elem_of_cons. tauto. }
    destruct HI as [HI1 HI2]. split; [by apply (queues_ok_ext s2)|exact HI2].
  - intros i li Hi. destruct (Hqs i li Hi) as [w Hw']. destruct (decide (i = Z.to_nat (p_priority pr))) as [->|Hne].
    + rewrite Hl in Hw'. injection Hw' as ->. exists (p :: w). rewrite list_lookup_insert_eq; [done|].
      by apply (lookup_lt_Some _ _ _ Hl).
    + exists w. by rewrite list_lookup_insert_ne.
Qed.

(** The state in which [p] is switched away in [sleep], and what it makes of
    the state it is resumed in. *)
Definition asleep (ch : chan) (p : nat) (pr : proc) (s : kstate) : kstate :=
  set_k_held [Lk_proc p]
    (set_k_proc (<[p := set_p_state SLEEPING (set_p_chan (Some ch) pr)]> (k_proc s)) s).

Definition awake (lk : lock) (p : nat) (s : kstate) : kstate :=
  set_k_held [lk] (set_k_proc (alter (set_p_chan None) p (k_proc s)) s).

Lemma sleep_swtch ch lk s p pr :
  k_cur s = Some p -> k_held s = [lk] -> lk <> Lk_proc p -> k_proc s !! p = Some pr -> p_state pr = RUNNING ->
  exists k, sleep ch lk s = Swtch (asleep ch p pr s) k /\
    forall s', k_held s' = [Lk_proc p] -> k s' = Ret tt (awake lk p s').
Proof.
  intros Hc Hh Hlk Hp Hst.
  assert (Hcp : curproc s = Ret p s) by (unfold curproc; by rewrite Hc).
  unfold sleep, upd_proc. krun. cbn [sleep_code in_order act_run].
  rewrite (bind_Ret (acquire (Lk_proc p)) _ _ tt (set_k_held [Lk_proc p; lk] s)).
  2:{ rewrite acquire_free, Hh; [done|]. rewrite Hh. apply not_elem_of_cons. split; [congruence|apply not_elem_of_nil]. }
  rewrite (bind_Ret (release lk) _ _ tt (set_k_held [Lk_proc p] s)).
  2:{ unfold release, holding. kred. rewrite bool_decide_true by (apply elem_of_cons; right; apply elem_of_cons; by left).
      cbn [remove_lock]. rewrite decide_False by congruence. by rewrite decide_True. }
  unfold upd_proc. krun. rewrite alter_alter, (alter_insert_eq _ _ _ pr Hp). set (pr1 := set_p_state _ _). set (s1 := set_k_proc _ _).
  assert (Hp1 : k_proc s1 !! p = Some pr1).
  { unfold s1. kred. apply list_lookup_insert_eq. by apply (lookup_lt_Some _ _ _ Hp). }
  pose proof (sched_run s1 p pr1 Hc eq_refl Hp1 ltac:(discriminate)) as Hsc. krun.
  replace (asleep ch p pr s) with s1 by (by destruct s).
  eexists. split; [reflexivity|]. cbv beta. intros s' Hs'. krun.
  rewrite (bind_Ret (release (Lk_proc p)) _ _ tt _ (release_head _ [] (set_k_proc _ s') Hs')).
  rewrite acquire_free by (kred; apply not_elem_of_nil). done.
Qed.

Lemma sched_ok_asleep ch p pr s : sched_ok s -> k_proc s !! p = Some pr -> sched_ok (asleep ch p pr s).
Proof.
  intros HI Hp. apply (sched_ok_alter s _ p (fun pr => set_p_state SLEEPING (set_p_chan (Some ch) pr))); try done.
  unfold asleep. kred. by rewrite (alter_insert_eq _ _ _ pr Hp).
Qed.

Lemma okay_sleep n (R : nat -> kstate -> kstate -> Prop) Q ch lk s p pr :
  k_cur s = Some p -> k_held s = [lk] -> lk <> Lk_proc p ->
  k_proc s !! p = Some pr -> p_state pr = RUNNING ->
  (forall n' s', n = S n' -> R n' (asleep ch p pr s) s' -> k_held s' = [Lk_proc p] /\ Q n' tt (awake lk p s')) ->
  okay n R Q (sleep ch lk s).
Proof.
  intros Hc Hh Hlk Hp Hst HQ. destruct (sleep_swtch ch lk s p pr Hc Hh Hlk Hp Hst) as (k & -> & Hk).
  simpl. destruct n as [|n]; [done|]. intros s' HR. destruct (HQ n s' eq_refl HR) as [Hh' Hq].
  by rewrite (Hk s' Hh').
Qed.

(** [sleep(chan, lk)] releases [lk] and switches away asleep on [chan],
    holding only its own lock. Switched back to, it clears the channel, takes
    [lk] again and returns. Under the multi-level policy the scheduling
    invariant holds at the switch. That no [wakeup] can fall between the
    release of [lk] and the switch is [no_lost_wakeup] of [SleepWakeup]. *)
Theorem sleep_correct ch lk s qs p pr :
  sched_inv s qs -> k_cur s = Some p -> k_held s = [lk] -> lk <> Lk_proc p ->
  k_proc s !! p = Some pr -> p_state pr = RUNNING ->
  exists k, sleep ch lk s = Swtch (asleep ch p pr s) k /\ sched_inv (asleep ch p pr s) qs /\
    forall s', k_held s' = [Lk_proc p] -> k s' = Ret tt (awake lk p s').
Proof.
  intros [Hok Hinv] Hc Hh Hlk Hp Hst. destruct (Hinv p pr Hp) as [Hprio Hq].
  destruct (sleep_swtch ch lk s p pr Hc Hh Hlk Hp Hst) as (k & E & Hk).
  exists k. split; [done|]. split; [|done]. set (s1 := asleep ch p pr s).
  assert (Hps : k_proc s1 = alter (fun pr => set_p_state SLEEPING (set_p_chan (Some ch) pr)) p (k_proc s)).
  { unfold s1, asleep. kred. by rewrite (alter_insert_eq _ _ _ pr Hp). }
  apply (sched_inv_requeue s s1 qs qs p (fun pr => set_p_state SLEEPING (set_p_chan (Some ch) pr))); try done.
  - apply (queues_ok_ext (set_k_proc (alter (fun pr => set_p_state SLEEPING (set_p_chan (Some ch) pr)) p (k_proc s)) s));
      [done|done|by apply queues_ok_alter].
  - rewrite Hps. apply same_but_next_refl.
  - intros pr' _. by rewrite Hq, Hst.
Qed.

Lemma queued_proc s qs p : queues_ok s qs -> p ∈ concat qs -> exists pr, k_proc s !! p = Some pr.
Proof.
  intros (HF & _) Hp. apply list_elem_of_In, in_concat in Hp as (l & Hl & Hp).
  apply list_elem_of_In, list_elem_of_lookup in Hl as (i & Hi). apply list_elem_of_In in Hp.
  destruct (Forall2_lookup_r _ _ _ _ _ HF Hi) as (q & _ & [Hc _]). revert Hc. generalize (q_head q).
  clear -Hp. induction l as [|x l IH]; intros h Hc; [by apply elem_of_nil in Hp|].
  destruct Hc as [_ (nx & Hx & Hc)]. apply elem_of_cons in Hp as [->|Hp]; [|by apply (IH Hp nx)].
  destruct (k_proc s !! x) as [pr|]; [by exists pr|discriminate].
Qed.

(** C30: One round of the multi-level scheduler on an idle hart. With no
    runnable process it does nothing; otherwise it takes the first process
    of the highest non-empty queue, marks it running and switches to it
    with only its lock held and the scheduling invariant kept. Switched
    back to, it clears [c->proc] and releases the lock. *)
Theorem scheduler_mlfq_correct s qs :
  sched_inv s qs -> k_held s = [] ->
  match concat qs with
  | [] => exists s' qs1, scheduler_mlfq s = Ret tt s' /\ requeued s s' qs1 /\ concat qs1 = []
  | p :: rest => exists s1 k qs1, scheduler_mlfq s = Swtch s1 k /\ sched_inv s1 qs1 /\ concat qs1 = rest /\
      k_cur s1 = Some p /\ k_held s1 = [Lk_proc p] /\
      same_but_next (alter (set_p_state RUNNING) p (k_proc s)) (k_proc s1) /\
      forall s', k_held s' = [Lk_proc p] -> k s' = Ret tt (set_k_held [] (set_k_cur None s'))
  end.
Proof.
  intros HI Hh. pose proof HI as [Hok Hinv]. destruct (pick_mlfq_run s qs Hok) as (s1 & qs1 & E1 & R1 & Hc1).
  { intros i. rewrite Hh. apply not_elem_of_nil. } { intros i. rewrite Hh. apply not_elem_of_nil. }
  pose proof (requeued_held _ _ _ R1) as Hh1. rewrite Hh in Hh1. unfold scheduler_mlfq, run_proc.
  destruct (concat qs) as [|p rest] eqn:Hq; cbn [head] in E1.
  { krun. exists s1, qs1. done. }
  pose proof Hok as (_ & _ & Hnd & Hlen & _). rewrite Hq in Hnd. apply NoDup_cons in Hnd as [Hpr Hnd].
  pose proof R1 as (Hok1 & Es1 & Hn1).
  destruct (queued_proc s qs p Hok) as [pr Hp]; [rewrite Hq; by apply elem_of_cons; left|].
  destruct (Hinv p pr Hp) as [Hprio Hst]. rewrite elem_of_cons in Hst.
  destruct (same_but_next_lookup _ _ _ _ Hn1 Hp) as (pr1 & Hp1 & Epr1).
  destruct (but_next_fields _ _ Epr1) as (Est1 & _ & _).
  assert (Hrun : p_state pr = RUNNABLE) by (apply Hst; by left).
  krun. assert (Hgp : get_proc p (set_k_held [Lk_proc p] s1) = Ret pr1 (set_k_held [Lk_proc p] s1)).
  { unfold get_proc. kred. by rewrite Hp1. }
  rewrite Hh1. krun. rewrite decide_True by congruence. unfold upd_proc. krun.
  set (s2 := set_k_cur _ _).
  assert (Hsw : swtch s2 = Swtch s2 (fun s' => Ret tt s')) by reflexivity. krun. cbn [bindO].
  do 3 eexists. split; [reflexivity|].
  assert (Hps : same_but_next (alter (set_p_state RUNNING) p (k_proc s)) (k_proc s2)).
  { unfold s2. kred. by apply same_but_next_alter_comm. }
  assert (HI2 : sched_inv s2 qs1).
  { apply (sched_inv_requeue s s2 qs qs1 p (set_p_state RUNNING)); try done.
    - apply (queues_ok_ext (set_k_proc (alter (set_p_state RUNNING) p (k_proc s1)) s1));
        [reflexivity|reflexivity|by apply queues_ok_alter].
    - intros x Hx. rewrite Hc1, Hq, elem_of_cons. simpl. tauto.
    - intros pr' _. split; [|discriminate]. rewrite Hc1. simpl. intros Hin. by destruct (Hpr Hin). }
  split; [exact HI2|]. split; [done|]. split; [done|]. split; [done|]. split; [done|].
  intros s' Hs'. cbn [bindO]. krun. by rewrite (release_head _ [] (set_k_cur None s') Hs').
Qed.

(** C40: Queueing a process that is already the tail of the queue links it
    to itself: no list is represented any more. Under the default policy
    [RR] no process is ever dequeued, so the second [yield] of a process
    does this. *)
Theorem enqueue_twice_circular s qs priority l p pr :
  queues_ok s qs -> 0 <= priority -> qs !! Z.to_nat priority = Some l ->
  p ∉ concat qs -> k_proc s !! p = Some pr -> Lk_q priority ∉ k_held s ->
  exists s', (enqueue_at_tail p priority ;;; enqueue_at_tail p priority) s = Ret 0 s' /\
    (exists q, k_queue s' !! Z.to_nat priority = Some q /\ q_tail q = Some p) /\
    forall l', ~ qchain (k_proc s') (Some p) l'.
Proof.
  intros Hok Hp Hl Hpn Hpr Hlk.
  destruct (enqueue_tail_run s qs priority l p pr Hok Hp Hl Hpn Hpr Hlk) as (s1 & E1 & R1). krun.
  pose proof R1 as (Hok1 & Es1 & Hn1). destruct (same_but_next_lookup _ _ _ _ Hn1 Hpr) as (pr1 & Hpr1 & _).
  assert (Hl1 : <[Z.to_nat priority := l ++ [p]]> qs !! Z.to_nat priority = Some (l ++ [p])).
  { apply list_lookup_insert_eq. by apply (lookup_lt_Some _ _ _ Hl). }
  destruct (get_queue_run s1 _ priority _ Hok1 Hp Hl1) as (q & Hq & [Hc Ht] & Hg).
  unfold enqueue_at_tail. rewrite (proc_in_table _ _ _ _ Hok Hpr), bad_priority_ok by done. cbn [negb].
  pose proof (get_queue_same s1 (set_k_held (Lk_q priority :: k_held s1) s1) q priority eq_refl Hg) as Hg'.
  rewrite <- (requeued_held _ _ _ R1) in Hlk. krun. rewrite Ht, last_snoc. cbn [is_null]. rewrite andb_false_r.
  unfold upd_proc, upd_queue. krun. eexists. split; [reflexivity|]. kred. split.
  - exists (set_q_tail (Some p) q). split; [|done]. by rewrite list_lookup_alter_eq, Hq.
  - induction l' as [|x l' IH]; [discriminate|]. cbn [qchain]. intros [[= <-] (nx & Hx & Hc')].
    rewrite list_lookup_alter_eq, Hpr1 in Hx. injection Hx as <-. by apply IH.
Qed.

(** ** The theorems at a concrete process table: process 0 running,
    process 1 asleep on the tick counter, process 2 queued *)

Module SchedWitness.

Definition procs : list proc :=
  <[0%nat := set_p_state RUNNING proc0]>
    (<[1%nat := set_p_chan (Some Ch_ticks) (set_p_state SLEEPING proc0)]>
      (<[2%nat := set_p_state RUNNABLE proc0]> (replicate NPROC proc0))).

Definition table (cur : option nat) (h : list lock) : kstate :=
  set_k_held h (set_k_cur cur (set_k_queue [mkQueue 1 (Some 2%nat) (Some 2%nat); mkQueue 50 None None; mkQueue 200 None None]
    (set_k_proc procs boot))).

Lemma procs_next p pr : procs !! p = Some pr ->
  p_next pr = None /\ p_priority pr = 0 /\ (p_state pr = RUNNABLE <-> p = 2%nat).
Proof.
  unfold procs. intros H.
  apply list_lookup_insert_Some in H as [(<- & <- & _)|[H0 H]]; [by split_and!|].
  apply list_lookup_insert_Some in H as [(<- & <- & _)|[H1 H]]; [by split_and!|].
  apply list_lookup_insert_Some in H as [(<- & <- & _)|[H2 H]]; [by split_and!|].
  apply lookup_replicate in H as [-> _]. split; [done|]. split; [done|]. split; [discriminate|congruence].
Qed.

Lemma table_inv cur h : sched_inv (table cur h) [[2%nat]; []; []].
Proof.
  split.
  - split; [|split; [done|split; [by apply NoDup_singleton|split; [done|]]]].
    + repeat constructor. exists None. split; reflexivity.
    + intros p pr Hp _. by apply (procs_next p pr).
  - intros p pr Hp. destruct (procs_next p pr Hp) as (_ & -> & ->). split; [unfold NQUEUE; lia|].
    change (concat [[2%nat]; []; []]) with [2%nat]. by rewrite list_elem_of_singleton.
Qed.

(** A table of the round-robin kernel: processes 2 and 0 have been queued by
    their [yield] and are queued still, 0 being the one that runs. *)
Definition rr_table (cur : option nat) (h : list lock) : kstate :=
  set_k_held h (set_k_cur cur (set_k_queue [mkQueue 1 (Some 2%nat) (Some 0%nat); mkQueue 50 None None; mkQueue 200 None None]
    (set_k_proc (alter (set_p_next (Some 0%nat)) 2%nat procs) boot))).

Lemma rr_table_ok cur h : sched_ok (rr_table cur h).
Proof.
  apply (sched_ok_alter (set_k_proc procs (rr_table cur h)) _ 2 (set_p_next (Some 0%nat))); [|done..].
  split; [done|]. split; [done|]. split.
  - intros q Hq. repeat (apply elem_of_cons in Hq as [->|Hq]; [done|]). by apply elem_of_nil in Hq.
  - intros p pr Hp. destruct (procs_next p pr Hp) as (_ & -> & _). unfold NQUEUE. lia.
Qed.

Lemma yield_correct_witness :
  exists s1 k, yield (table (Some 0%nat) []) = Swtch s1 k /\ sched_inv s1 [[2%nat; 0%nat]; []; []].
Proof.
  destruct (yield_correct (table (Some 0%nat) []) [[2%nat]; []; []] 0 (set_p_state RUNNING proc0) [2%nat])
    as (s1 & k & E & HI & _); [apply table_inv|reflexivity..|].
  exists s1, k. split; [exact E|exact HI].
Defined.

Lemma wakeup_correct_witness :
  exists s' pr', wakeup Ch_ticks (table (Some 0%nat) [Lk_ticks]) = Ret tt s' /\
    k_proc s' !! 1%nat = Some pr' /\ p_state pr' = RUNNABLE.
Proof.
  destruct (wakeup_correct Ch_ticks (table (Some 0%nat) [Lk_ticks]) [[2%nat]; []; []])
    as (s' & qs' & E & _ & _ & _ & Hp).
  - apply table_inv.
  - intros i. apply not_elem_of_cons. split; [discriminate|apply not_elem_of_nil].
  - intros i. apply not_elem_of_cons. split; [discriminate|apply not_elem_of_nil].
  - destruct (Hp 1%nat (set_p_chan (Some Ch_ticks) (set_p_state SLEEPING proc0)) eq_refl) as (pr' & Hpr' & Epr).
    exists s', pr'. split; [exact E|]. split; [exact Hpr'|].
    exact (f_equal p_state Epr).
Defined.

Lemma scheduler_mlfq_correct_witness :
  exists s1 k, scheduler_mlfq (table None []) = Swtch s1 k /\ k_cur s1 = Some 2%nat.
Proof.
  destruct (scheduler_mlfq_correct (table None []) [[2%nat]; []; []]) as (s1 & k & qs1 & E & _ & _ & Hc & _);
    [apply table_inv|reflexivity|].
  exists s1, k. split; [exact E|exact Hc].
Defined.

Lemma enqueue_twice_circular_witness :
  exists s', (enqueue_at_tail 0 HIGH ;;; enqueue_at_tail 0 HIGH) (table (Some 0%nat) []) = Ret 0 s' /\
    forall l', ~ qchain (k_proc s') (Some 0%nat) l'.
Proof.
  destruct (enqueue_twice_circular (table (Some 0%nat) []) [[2%nat]; []; []] HIGH [2%nat] 0 (set_p_state RUNNING proc0))
    as (s' & E & _ & H); [apply table_inv|done|reflexivity| |reflexivity|apply not_elem_of_nil|].
  - apply not_elem_of_cons. split; [discriminate|apply not_elem_of_nil].
  - exists s'. split; [exact E|exact H].
Defined.
End SchedWitness.
