(* ===== verification/Spinlock.v ===== *)
(** * kernel/spinlock.c on several harts

    Every hart runs [acquire] and [release] instruction by instruction,
    interleaved with the others; between calls it may do anything that does
    not touch the locks. The theorems show mutual exclusion, that [holding]
    and the nesting counter [noff] say what the rest of the kernel model
    assumes of them ([State.holding], [State.acquire], [State.release]), and
    that the only panics are a second [acquire] by the holder and a
    [release] by a hart that does not hold the lock. *)

From stdpp Require Import functions.
From S2P Require Import Prelude.

Module Spinlock.

(** [struct spinlock], without its name. *)
Record spinlock := mkLock { lk_locked : Z; lk_cpu : option nat }.

(** Where a hart is: outside the lock routines, or before an instruction of
    [acquire] or [release], or stopped in [panic]. *)
Inductive pc :=
| Run
| AcqLocked (lk : nat)   (* holding: read lk->locked *)
| AcqCpu (lk : nat)      (* holding: read lk->cpu *)
| AcqSwap (lk : nat)     (* the test-and-set loop *)
| AcqSet (lk : nat)      (* lk->cpu = mycpu() *)
| RelLocked (lk : nat)   (* holding: read lk->locked *)
| RelCpu (lk : nat)      (* holding: read lk->cpu *)
| RelClear (lk : nat)    (* lk->cpu = 0 *)
| RelSwap (lk : nat)     (* __sync_lock_release *)
| RelPop                 (* pop_off() *)
| PanicAcquire (lk : nat)
| PanicRelease (lk : nat)
| PanicPop.

(** [struct cpu]'s lock fields and the interrupt-enable bit of [sstatus];
    [h_held] and [h_off] record for the proofs which locks the hart's code
    holds and how many [push_off]s of its own are outstanding. *)
Record hart := mkHart {
  h_sie : bool;
  h_noff : Z;
  h_intena : bool;
  h_pc : pc;
  h_held : list nat;
  h_off : nat
}.

Definition at_pc (p : pc) (c : hart) : hart :=
  mkHart (h_sie c) (h_noff c) (h_intena c) p (h_held c) (h_off c).
Definition with_held (l : list nat) (c : hart) : hart :=
  mkHart (h_sie c) (h_noff c) (h_intena c) (h_pc c) l (h_off c).
Definition with_off (n : nat) (c : hart) : hart :=
  mkHart (h_sie c) (h_noff c) (h_intena c) (h_pc c) (h_held c) n.

Record sys := mkSys { harts : nat -> hart; locks : nat -> spinlock }.

(** ** Code *)

Definition initlock (s : sys) (lk : nat) : sys := mkSys (harts s) (<[lk := mkLock 0 None]> (locks s)).

Definition push_off (c : hart) : hart :=
  let old := h_sie c in
  mkHart false (h_noff c + 1) (if h_noff c =? 0 then old else h_intena c) (h_pc c) (h_held c) (h_off c).

(** [None] is a panic. *)
Definition pop_off (c : hart) : option hart :=
  if h_sie c then None
  else if h_noff c <? 1 then None
  else
    let n := h_noff c - 1 in
    Some (mkHart (if (n =? 0) && h_intena c then true else h_sie c) n (h_intena c)
            (h_pc c) (h_held c) (h_off c)).

Definition holding (s : sys) (h lk : nat) : bool :=
  negb (lk_locked (locks s lk) =? 0) && bool_decide (lk_cpu (locks s lk) = Some h).

(** Hart [h] executes the instruction it is at; [None] outside the routines
    and after a panic. *)
Definition exec (s : sys) (h : nat) : option sys :=
  let c := harts s h in
  let goto p := mkSys (<[h := at_pc p c]> (harts s)) (locks s) in
  match h_pc c with
  | AcqLocked lk =>
      Some (goto (if lk_locked (locks s lk) =? 0 then AcqSwap lk else AcqCpu lk))
  | AcqCpu lk =>
      Some (goto (if bool_decide (lk_cpu (locks s lk) = Some h) then PanicAcquire lk else AcqSwap lk))
  | AcqSwap lk =>
      let old := lk_locked (locks s lk) in
      Some (mkSys (<[h := at_pc (if old =? 0 then AcqSet lk else AcqSwap lk) c]> (harts s))
                  (<[lk := mkLock 1 (lk_cpu (locks s lk))]> (locks s)))
  | AcqSet lk =>
      Some (mkSys (<[h := with_held (lk :: h_held c) (at_pc Run c)]> (harts s))
                  (<[lk := mkLock (lk_locked (locks s lk)) (Some h)]> (locks s)))
  | RelLocked lk =>
      Some (goto (if lk_locked (locks s lk) =? 0 then PanicRelease lk else RelCpu lk))
  | RelCpu lk =>
      if bool_decide (lk_cpu (locks s lk) = Some h)
      then Some (mkSys (<[h := with_held (remove Nat.eq_dec lk (h_held c)) (at_pc (RelClear lk) c)]> (harts s)) (locks s))
      else Some (goto (PanicRelease lk))
  | RelClear lk =>
      Some (mkSys (<[h := at_pc (RelSwap lk) c]> (harts s))
                  (<[lk := mkLock (lk_locked (locks s lk)) None]> (locks s)))
  | RelSwap lk =>
      Some (mkSys (<[h := at_pc RelPop c]> (harts s))
                  (<[lk := mkLock 0 (lk_cpu (locks s lk))]> (locks s)))
  | RelPop =>
      match pop_off c with
      | Some c' => Some (mkSys (<[h := at_pc Run c']> (harts s)) (locks s))
      | None => Some (goto PanicPop)
      end
  | Run | PanicAcquire _ | PanicRelease _ | PanicPop => None
  end.

(** Steps of the system: an instruction of a lock routine, or what the code
    of a hart may do between calls: call [acquire] or [release] on any
    lock, use [push_off] and [pop_off] in pairs, and switch interrupts on
    and off itself while [noff] is 0. *)
Inductive step : sys -> sys -> Prop :=
| Step_exec s h s' : exec s h = Some s' -> step s s'
| Step_acquire s h lk :
    h_pc (harts s h) = Run ->
    step s (mkSys (<[h := at_pc (AcqLocked lk) (push_off (harts s h))]> (harts s)) (locks s))
| Step_release s h lk :
    h_pc (harts s h) = Run ->
    step s (mkSys (<[h := at_pc (RelLocked lk) (harts s h)]> (harts s)) (locks s))
| Step_push s h :
    h_pc (harts s h) = Run ->
    step s (mkSys (<[h := with_off (S (h_off (harts s h))) (push_off (harts s h))]> (harts s)) (locks s))
| Step_pop s h n c :
    h_pc (harts s h) = Run -> h_off (harts s h) = S n -> pop_off (harts s h) = Some c ->
    step s (mkSys (<[h := with_off n c]> (harts s)) (locks s))
| Step_intr s h b :
    h_pc (harts s h) = Run -> h_noff (harts s h) = 0 ->
    step s (mkSys (<[h := mkHart b 0 (h_intena (harts s h)) Run (h_held (harts s h)) (h_off (harts s h))]> (harts s)) (locks s)).

(** At boot: no lock is held, no hart has called [push_off]. *)
Definition init (s : sys) : Prop :=
  (forall lk, locks s lk = mkLock 0 None) /\
  forall h, h_pc (harts s h) = Run /\ h_noff (harts s h) = 0 /\ h_held (harts s h) = [] /\ h_off (harts s h) = 0%nat.

Inductive reachable : sys -> Prop :=
| reach_init s : init s -> reachable s
| reach_step s s' : reachable s -> step s s' -> reachable s'.

(** ** The invariant *)

(** The hart is inside [lk]: it holds it, or is between the atomic swap that
    took it and the one that gives it back. *)
Definition insideh (c : hart) (lk : nat) : Prop :=
  lk ∈ h_held c \/ h_pc c = AcqSet lk \/ h_pc c = RelClear lk \/ h_pc c = RelSwap lk.

Definition inside (s : sys) (h lk : nat) : Prop := insideh (harts s h) lk.

(** [lk->cpu] names this hart. *)
Definition namedh (c : hart) (lk : nat) : Prop := lk ∈ h_held c \/ h_pc c = RelClear lk.

Definition named (s : sys) (h lk : nat) : Prop := namedh (harts s h) lk.

(** Levels of [push_off] due to the routine the hart is in. *)
Definition pc_depth (p : pc) : Z :=
  match p with
  | AcqLocked _ | AcqCpu _ | AcqSwap _ | AcqSet _ | RelClear _ | RelSwap _ | RelPop | PanicAcquire _ => 1
  | _ => 0
  end.

(** What is known of a hart at its program point. *)
Definition hart_ok (c : hart) : Prop :=
  NoDup (h_held c) /\
  h_noff c = Z.of_nat (length (h_held c)) + Z.of_nat (h_off c) + pc_depth (h_pc c) /\
  (0 < h_noff c -> h_sie c = false) /\
  match h_pc c with
  | AcqSwap lk | AcqSet lk | RelClear lk | RelSwap lk => lk ∉ h_held c
  | PanicAcquire lk => lk ∈ h_held c
  | PanicRelease lk => lk ∉ h_held c
  | PanicPop => False
  | _ => True
  end.

(** A lock's word is set exactly when a hart is inside, at most one is. *)
Definition lock_ok (s : sys) (lk : nat) : Prop :=
  (lk_locked (locks s lk) = 0 /\ forall h, ~ inside s h lk) \/
  (lk_locked (locks s lk) = 1 /\ exists h, inside s h lk /\ forall h', inside s h' lk -> h' = h).

Definition Inv (s : sys) : Prop :=
  (forall h, hart_ok (harts s h)) /\ (forall lk, lock_ok s lk) /\
  (forall h lk, lk_cpu (locks s lk) = Some h <-> named s h lk).

(** A step of hart [h] that touches at most lock [L]. *)
Lemma inv_update s s' h c' L :
  Inv s -> hart_ok c' ->
  harts s' h = c' -> (forall x, x <> h -> harts s' x = harts s x) ->
  (forall lk, lk <> L -> locks s' lk = locks s lk) ->
  (forall lk, lk <> L -> insideh c' lk <-> inside s h lk) ->
  (forall lk, lk <> L -> namedh c' lk <-> named s h lk) ->
  lock_ok s' L -> (forall x, lk_cpu (locks s' L) = Some x <-> named s' x L) ->
  Inv s'.
Proof.
  intros (Hh & Hl & Hn) Hok Hc' Hoth Hlk Hin Hnm HL HN.
  assert (Hins : forall x lk, lk <> L -> inside s' x lk <-> inside s x lk).
  { intros x lk Hne. unfold inside at 1. destruct (decide (x = h)) as [->|Hx]; [rewrite Hc'; by apply Hin|].
    by rewrite Hoth. }
  split; [|split].
  - intros x. destruct (decide (x = h)) as [->|Hx]; [by rewrite Hc'|by rewrite Hoth].
  - intros lk. destruct (decide (lk = L)) as [->|Hne]; [done|]. unfold lock_ok. rewrite Hlk by done.
    destruct (Hl lk) as [[H0 H1]|[H0 (x & Hx & Hu)]]; [left|right]; (split; [done|]).
    + intros x Hx. apply (H1 x). by apply Hins.
    + exists x. split; [by apply Hins|]. intros y Hy. apply Hu. by apply Hins.
  - intros x lk. destruct (decide (lk = L)) as [->|Hne]; [done|]. rewrite Hlk by done. rewrite Hn.
    unfold named at 2. destruct (decide (x = h)) as [->|Hx]; [rewrite Hc'; symmetry; by apply Hnm|].
    by rewrite Hoth.
Qed.

(** A step that leaves the locks, and what the hart is inside of, alone. *)
Lemma inv_local s s' h c' :
  Inv s -> hart_ok c' -> harts s' h = c' -> (forall x, x <> h -> harts s' x = harts s x) ->
  (forall lk, locks s' lk = locks s lk) ->
  (forall lk, insideh c' lk <-> inside s h lk) -> (forall lk, namedh c' lk <-> named s h lk) -> Inv s'.
Proof.
  intros HI Hok Hc' Hoth Hlk Hin Hnm.
  assert (Hins : forall x lk, inside s' x lk <-> inside s x lk).
  { intros x lk. unfold inside at 1. destruct (decide (x = h)) as [->|Hx]; [rewrite Hc'; by apply Hin|].
    by rewrite Hoth. }
  apply (inv_update s s' h c' 0); try done; [auto..| |].
  - destruct HI as (_ & Hl & _). unfold lock_ok. rewrite Hlk.
    destruct (Hl 0%nat) as [[H0 H1]|[H0 (x & Hx & Hu)]]; [left|right]; (split; [done|]).
    + intros x Hx. apply (H1 x). by apply Hins.
    + exists x. split; [by apply Hins|]. intros y Hy. apply Hu. by apply Hins.
  - intros x. rewrite Hlk. destruct HI as (_ & _ & Hn). rewrite Hn. unfold named at 2.
    destruct (decide (x = h)) as [->|Hx]; [rewrite Hc'; symmetry; by apply Hnm|]. by rewrite Hoth.
Qed.

Lemma remove_facts lk l :
  NoDup l -> NoDup (remove Nat.eq_dec lk l) /\
  (forall y, y ∈ remove Nat.eq_dec lk l <-> y ∈ l /\ y <> lk) /\
  (lk ∈ l -> length l = S (length (remove Nat.eq_dec lk l))).
Proof.
  induction l as [|x l IH]; intros Hnd.
  { split; [done|]. split; [intros y; simpl; rewrite elem_of_nil; tauto|by intros []%elem_of_nil]. }
  apply NoDup_cons in Hnd as [Hx Hnd]. destruct (IH Hnd) as (H1 & H2 & H3). simpl.
  destruct (Nat.eq_dec lk x) as [->|Hne].
  - assert (Hy : forall y, y ∈ remove Nat.eq_dec x l <-> y ∈ l).
    { intros y. rewrite H2. split; [tauto|]. intros Hy. split; [done|]. by intros ->. }
    split; [done|]. split; [intros y; rewrite H2, elem_of_cons; tauto|]. intros _. f_equal.
    clear -Hx Hnd. induction l as [|z l IH]; [done|]. apply not_elem_of_cons in Hx as [Hz Hx].
    apply NoDup_cons in Hnd as [_ Hnd]. simpl. destruct (Nat.eq_dec x z); [done|]. simpl. f_equal. by apply IH.
  - split; [apply NoDup_cons; split; [rewrite H2; tauto|done]|].
    split; [intros y; rewrite !elem_of_cons, H2; split; [intros [->|?]; [by split; [left|]|tauto]|tauto]|].
    intros [->|Hl]%elem_of_cons; [done|]. simpl. f_equal. by apply H3.
Qed.

(** Program points where a hart is inside [lk] only by holding it. *)
Definition plain (p : pc) : bool :=
  match p with AcqSet _ | RelClear _ | RelSwap _ => false | _ => true end.

Lemma insideh_plain c lk : plain (h_pc c) = true -> insideh c lk <-> lk ∈ h_held c.
Proof. unfold insideh. destruct (h_pc c); intros H; try discriminate; split; intuition discriminate. Qed.

Lemma namedh_plain c lk : plain (h_pc c) = true -> namedh c lk <-> lk ∈ h_held c.
Proof. unfold namedh. destruct (h_pc c); intros H; try discriminate; split; intuition discriminate. Qed.

(** A hart moving between plain program points with the same locks. *)
Lemma inv_plain s h c' :
  Inv s -> hart_ok c' -> plain (h_pc (harts s h)) = true -> plain (h_pc c') = true ->
  h_held c' = h_held (harts s h) -> Inv (mkSys (<[h := c']> (harts s)) (locks s)).
Proof.
  intros HI Hok Hp Hp' Hh. apply (inv_local s _ h c'); try done.
  - apply fn_lookup_insert.
  - intros x Hx. by apply fn_lookup_insert_ne.
  - intros lk. unfold inside. rewrite !insideh_plain by done. by rewrite Hh.
  - intros lk. unfold named. rewrite !namedh_plain by done. by rewrite Hh.
Qed.

(** ** The invariant is kept by each instruction *)

Ltac hart_facts s h :=
  match goal with HI : Inv s |- _ => destruct (proj1 HI h) as (Hnd & Hno & Hsie & Hpt) end.

Lemma inv_AcqLocked s h lk :
  Inv s -> h_pc (harts s h) = AcqLocked lk ->
  Inv (mkSys (<[h := at_pc (if lk_locked (locks s lk) =? 0 then AcqSwap lk else AcqCpu lk) (harts s h)]> (harts s)) (locks s)).
Proof.
  intros HI Hpc. hart_facts s h. rewrite Hpc in *. cbn in Hno.
  destruct (Z.eqb_spec (lk_locked (locks s lk)) 0) as [E|E]; apply inv_plain; try done;
    try (by rewrite Hpc); unfold hart_ok; cbn; split_and!; try done.
  destruct HI as (_ & Hl & _). destruct (Hl lk) as [[_ H0]|[H1 _]]; [|lia].
  intros Hin. apply (H0 h). by left.
Qed.

Lemma inv_AcqCpu s h lk :
  Inv s -> h_pc (harts s h) = AcqCpu lk ->
  Inv (mkSys (<[h := at_pc (if bool_decide (lk_cpu (locks s lk) = Some h) then PanicAcquire lk else AcqSwap lk) (harts s h)]> (harts s)) (locks s)).
Proof.
  intros HI Hpc. hart_facts s h. rewrite Hpc in *. cbn in Hno.
  pose proof (proj2 (proj2 HI) h lk) as Hn. unfold named in Hn. rewrite namedh_plain in Hn by (by rewrite Hpc).
  case_bool_decide as E; apply inv_plain; try done; try (by rewrite Hpc); unfold hart_ok; cbn;
    split_and!; try done; tauto.
Qed.

Lemma inv_AcqSwap s h lk :
  Inv s -> h_pc (harts s h) = AcqSwap lk ->
  Inv (mkSys (<[h := at_pc (if lk_locked (locks s lk) =? 0 then AcqSet lk else AcqSwap lk) (harts s h)]> (harts s))
             (<[lk := mkLock 1 (lk_cpu (locks s lk))]> (locks s))).
Proof.
  intros HI Hpc. hart_facts s h. rewrite Hpc in *. cbn in Hno.
  match goal with |- context [at_pc ?q (harts s h)] => set (p := q) end.
  assert (Hoth : forall x, x <> h -> (<[h := at_pc p (harts s h)]> (harts s)) x = harts s x).
  { intros x Hx. by apply fn_lookup_insert_ne. }
  assert (Hp : p = AcqSet lk \/ p = AcqSwap lk) by (unfold p; destruct (_ =? _); auto).
  assert (Hnm : forall l, namedh (at_pc p (harts s h)) l <-> named s h l).
  { intros l. unfold named, namedh. cbn. rewrite Hpc. destruct Hp as [-> | ->]; intuition discriminate. }
  apply (inv_update s _ h (at_pc p (harts s h)) lk HI); try done; try apply fn_lookup_insert.
  - unfold hart_ok. cbn. destruct Hp as [-> | ->]; done.
  - intros l Hl. by apply fn_lookup_insert_ne.
  - intros l Hl. unfold inside, insideh. cbn. rewrite Hpc. destruct Hp as [-> | ->]; intuition congruence.
  - destruct HI as (_ & Hlk & _). right. unfold inside. cbn. rewrite fn_lookup_insert. split; [done|].
    destruct (Hlk lk) as [[H0 H1]|[H1 (x & Hx & Hu)]]; unfold p in *.
    + rewrite H0. exists h. rewrite fn_lookup_insert. split; [right; by left|]. intros y Hy.
      destruct (decide (y = h)) as [|Hne]; [done|]. rewrite fn_lookup_insert_ne in Hy by done.
      by destruct (H1 y).
    + rewrite H1. cbn. exists x. split.
      * destruct (decide (x = h)) as [->|Hne].
        { exfalso. revert Hx. unfold inside, insideh. rewrite Hpc. intuition discriminate. }
        by rewrite fn_lookup_insert_ne.
      * intros y Hy. destruct (decide (y = h)) as [->|Hne]; [|rewrite fn_lookup_insert_ne in Hy by done; by apply Hu].
        exfalso. rewrite fn_lookup_insert in Hy. revert Hy. unfold insideh. cbn. intuition discriminate.
  - intros x. cbn. rewrite fn_lookup_insert. cbn. rewrite (proj2 (proj2 HI)). unfold named at 2. cbn.
    destruct (decide (x = h)) as [->|Hne]; [rewrite fn_lookup_insert; symmetry; apply Hnm|].
    by rewrite fn_lookup_insert_ne.
Qed.

(** A lock whose insiders stay the same keeps its word. *)
Lemma lock_ok_same s s' lk :
  lock_ok s lk -> lk_locked (locks s' lk) = lk_locked (locks s lk) ->
  (forall x, inside s' x lk <-> inside s x lk) -> lock_ok s' lk.
Proof.
  intros [[H0 H1]|[H0 (x & Hx & Hu)]] Hl Hin; [left|right]; rewrite Hl; (split; [done|]).
  - intros x Hx. apply (H1 x). by apply Hin.
  - exists x. split; [by apply Hin|]. intros y Hy. apply Hu. by apply Hin.
Qed.

(** Who is inside [lk] when only hart [h] changes. *)
Lemma inside_upd s s' h c' lk :
  harts s' h = c' -> (forall x, x <> h -> harts s' x = harts s x) ->
  (insideh c' lk <-> inside s h lk) -> forall x, inside s' x lk <-> inside s x lk.
Proof.
  intros Hc Hoth Hin x. unfold inside at 1. destruct (decide (x = h)) as [->|Hx]; [by rewrite Hc|by rewrite Hoth].
Qed.

(** The hart at [AcqSet] or [RelClear] is the only one inside. *)
Lemma sole s h lk : Inv s -> inside s h lk ->
  lk_locked (locks s lk) = 1 /\ forall x, inside s x lk -> x = h.
Proof.
  intros (_ & Hl & _) Hin. destruct (Hl lk) as [[_ H]|[H (x & Hx & Hu)]]; [by destruct (H h)|].
  split; [done|]. intros y Hy. by rewrite (Hu y Hy), (Hu h Hin).
Qed.

Lemma named_inside s h lk : named s h lk -> inside s h lk.
Proof. unfold named, inside, namedh, insideh. tauto. Qed.

Lemma inv_AcqSet s h lk :
  Inv s -> h_pc (harts s h) = AcqSet lk ->
  Inv (mkSys (<[h := with_held (lk :: h_held (harts s h)) (at_pc Run (harts s h))]> (harts s))
             (<[lk := mkLock (lk_locked (locks s lk)) (Some h)]> (locks s))).
Proof.
  intros HI Hpc. hart_facts s h. rewrite Hpc in *. cbn in Hno. set (c' := with_held _ _). set (s' := mkSys _ _).
  assert (Hc' : harts s' h = c') by apply fn_lookup_insert.
  assert (Hoth : forall x, x <> h -> harts s' x = harts s x) by (intros x Hx; by apply fn_lookup_insert_ne).
  assert (Hins : forall l, insideh c' l <-> inside s h l).
  { intros l. unfold inside, insideh, c'. cbn. rewrite Hpc, elem_of_cons. intuition (try discriminate; congruence). }
  destruct (sole s h lk HI ltac:(right; left; done)) as [_ Hu].
  apply (inv_update s s' h c' lk HI); try done.
  - unfold hart_ok, c'. cbn. split; [by apply NoDup_cons|]. split; [lia|done].
  - intros l Hl. by apply fn_lookup_insert_ne.
  - intros l Hl. unfold named, namedh, c'. cbn. rewrite Hpc, elem_of_cons. intuition (try discriminate; congruence).
  - apply (lock_ok_same s); [apply HI| |by apply (inside_upd s s' h c')]. cbn. by rewrite fn_lookup_insert.
  - intros x. cbn. rewrite fn_lookup_insert. cbn. split.
    + intros [= <-]. left. rewrite Hc'. by apply elem_of_cons; left.
    + intros Hx%named_inside. apply (inside_upd s s' h c' lk Hc' Hoth (Hins lk)) in Hx. by rewrite (Hu x Hx).
Qed.

Lemma inv_RelLocked s h lk :
  Inv s -> h_pc (harts s h) = RelLocked lk ->
  Inv (mkSys (<[h := at_pc (if lk_locked (locks s lk) =? 0 then PanicRelease lk else RelCpu lk) (harts s h)]> (harts s)) (locks s)).
Proof.
  intros HI Hpc. hart_facts s h. rewrite Hpc in *. cbn in Hno.
  destruct (Z.eqb_spec (lk_locked (locks s lk)) 0) as [E|E]; apply inv_plain; try done;
    try (by rewrite Hpc); unfold hart_ok; cbn; split_and!; try done.
  destruct HI as (_ & Hl & _). destruct (Hl lk) as [[_ H0]|[H1 _]]; [|lia].
  intros Hin. apply (H0 h). by left.
Qed.

Lemma inv_RelCpu s h lk :
  Inv s -> h_pc (harts s h) = RelCpu lk ->
  Inv (if bool_decide (lk_cpu (locks s lk) = Some h)
       then mkSys (<[h := with_held (remove Nat.eq_dec lk (h_held (harts s h))) (at_pc (RelClear lk) (harts s h))]> (harts s)) (locks s)
       else mkSys (<[h := at_pc (PanicRelease lk) (harts s h)]> (harts s)) (locks s)).
Proof.
  intros HI Hpc. hart_facts s h. rewrite Hpc in *. cbn in Hno.
  pose proof (proj2 (proj2 HI) h lk) as Hn. unfold named in Hn. rewrite namedh_plain in Hn by (by rewrite Hpc).
  case_bool_decide as E.
  2:{ apply inv_plain; try done; try (by rewrite Hpc); unfold hart_ok; cbn; split_and!; try done. tauto. }
  apply Hn in E. destruct (remove_facts lk _ Hnd) as (H1 & H2 & H3). specialize (H3 E).
  apply (inv_local s _ h (with_held (remove Nat.eq_dec lk (h_held (harts s h))) (at_pc (RelClear lk) (harts s h)))); try done.
  - unfold hart_ok. cbn. split; [done|]. split; [lia|]. split; [done|]. rewrite H2. tauto.
  - apply fn_lookup_insert.
  - intros x Hx. by apply fn_lookup_insert_ne.
  - intros l. unfold inside, insideh. cbn. rewrite H2, Hpc. destruct (decide (l = lk)) as [->|Hne]; [tauto|].
    intuition (try discriminate; congruence).
  - intros l. unfold named, namedh. cbn. rewrite H2, Hpc. destruct (decide (l = lk)) as [->|Hne]; [tauto|].
    intuition (try discriminate; congruence).
Qed.

Lemma inv_RelClear s h lk :
  Inv s -> h_pc (harts s h) = RelClear lk ->
  Inv (mkSys (<[h := at_pc (RelSwap lk) (harts s h)]> (harts s))
             (<[lk := mkLock (lk_locked (locks s lk)) None]> (locks s))).
Proof.
  intros HI Hpc. hart_facts s h. rewrite Hpc in *. cbn in Hno. set (c' := at_pc _ _). set (s' := mkSys _ _).
  assert (Hc' : harts s' h = c') by apply fn_lookup_insert.
  assert (Hoth : forall x, x <> h -> harts s' x = harts s x) by (intros x Hx; by apply fn_lookup_insert_ne).
  assert (Hins : forall l, insideh c' l <-> inside s h l).
  { intros l. unfold inside, insideh, c'. cbn. rewrite Hpc. intuition (try discriminate; congruence). }
  destruct (sole s h lk HI ltac:(right; right; left; done)) as [_ Hu].
  apply (inv_update s s' h c' lk HI); try done.
  - intros l Hl. by apply fn_lookup_insert_ne.
  - intros l Hl. unfold named, namedh, c'. cbn. rewrite Hpc. intuition (try discriminate; congruence).
  - apply (lock_ok_same s); [apply HI| |by apply (inside_upd s s' h c')]. cbn. by rewrite fn_lookup_insert.
  - intros x. cbn. rewrite fn_lookup_insert. cbn. split; [discriminate|]. intros Hx. exfalso.
    pose proof (named_inside _ _ _ Hx) as Hx'. apply (inside_upd s s' h c' lk Hc' Hoth (Hins lk)) in Hx'.
    rewrite (Hu x Hx') in Hx. unfold named in Hx. rewrite Hc' in Hx. destruct Hx as [Hx|Hx]; [done|discriminate].
Qed.

Lemma inv_RelSwap s h lk :
  Inv s -> h_pc (harts s h) = RelSwap lk ->
  Inv (mkSys (<[h := at_pc RelPop (harts s h)]> (harts s))
             (<[lk := mkLock 0 (lk_cpu (locks s lk))]> (locks s))).
Proof.
  intros HI Hpc. hart_facts s h. rewrite Hpc in *. cbn in Hno. set (c' := at_pc _ _). set (s' := mkSys _ _).
  assert (Hc' : harts s' h = c') by apply fn_lookup_insert.
  assert (Hoth : forall x, x <> h -> harts s' x = harts s x) by (intros x Hx; by apply fn_lookup_insert_ne).
  destruct (sole s h lk HI ltac:(right; right; right; done)) as [_ Hu].
  assert (Hnm : forall l, namedh c' l <-> named s h l).
  { intros l. unfold named, namedh, c'. cbn. rewrite Hpc. intuition discriminate. }
  apply (inv_update s s' h c' lk HI); try done.
  - intros l Hl. by apply fn_lookup_insert_ne.
  - intros l Hl. unfold inside, insideh, c'. cbn. rewrite Hpc. intuition (try discriminate; congruence).
  - left. cbn. rewrite fn_lookup_insert. split; [done|]. intros x Hx. unfold inside in Hx.
    destruct (decide (x = h)) as [->|Hne].
    + rewrite Hc' in Hx. revert Hx. unfold insideh, c'. cbn. intuition discriminate.
    + rewrite Hoth in Hx by done. by apply Hne, Hu.
  - intros x. cbn. rewrite fn_lookup_insert. cbn. rewrite (proj2 (proj2 HI)). unfold named at 2.
    destruct (decide (x = h)) as [->|Hne]; [rewrite Hc'; symmetry; apply Hnm|]. by rewrite Hoth.
Qed.

Lemma pop_off_ok c :
  hart_ok c -> 0 < h_noff c ->
  exists c', pop_off c = Some c' /\ h_noff c' = h_noff c - 1 /\ h_held c' = h_held c /\ h_off c' = h_off c /\
    h_pc c' = h_pc c /\ (0 < h_noff c' -> h_sie c' = false).
Proof.
  intros (_ & _ & Hsie & _) Hn. unfold pop_off. rewrite (Hsie Hn). destruct (Z.ltb_spec (h_noff c) 1); [lia|].
  eexists. split; [done|]. cbn. split_and!; try done. intros Hp.
  destruct (Z.eqb_spec (h_noff c - 1) 0); [lia|]. done.
Qed.

Lemma inv_RelPop s h :
  Inv s -> h_pc (harts s h) = RelPop ->
  Inv (match pop_off (harts s h) with
       | Some c' => mkSys (<[h := at_pc Run c']> (harts s)) (locks s)
       | None => mkSys (<[h := at_pc PanicPop (harts s h)]> (harts s)) (locks s)
       end).
Proof.
  intros HI Hpc. hart_facts s h. rewrite Hpc in *. cbn in Hno.
  destruct (pop_off_ok (harts s h) (proj1 HI h) ltac:(lia)) as (c' & -> & Hn & Hh & Ho & _ & Hs).
  apply inv_plain; try done; [|by rewrite Hpc]. unfold hart_ok. cbn. rewrite Hh, Ho. split; [done|].
  split; [lia|done].
Qed.

Lemma inv_exec s h s' : Inv s -> exec s h = Some s' -> Inv s'.
Proof.
  intros HI He. unfold exec in He. destruct (h_pc (harts s h)) eqn:Hpc; try discriminate.
  - injection He as <-. by apply inv_AcqLocked.
  - injection He as <-. by apply inv_AcqCpu.
  - injection He as <-. by apply inv_AcqSwap.
  - injection He as <-. by apply inv_AcqSet.
  - injection He as <-. by apply inv_RelLocked.
  - pose proof (inv_RelCpu s h lk HI Hpc) as H. destruct (bool_decide _); by injection He as <-.
  - injection He as <-. by apply inv_RelClear.
  - injection He as <-. by apply inv_RelSwap.
  - pose proof (inv_RelPop s h HI Hpc) as H. destruct (pop_off _); by injection He as <-.
Qed.

Lemma inv_step s s' : Inv s -> step s s' -> Inv s'.
Proof.
  intros HI Hst. destruct Hst as [s h s' He|s h lk Hpc|s h lk Hpc|s h Hpc|s h n c Hpc Ho Hp|s h b Hpc Hn0];
    [by apply (inv_exec s h)|..]; hart_facts s h; rewrite Hpc in *; cbn in Hno;
    (apply inv_plain; [done| |by rewrite Hpc| |]).
  - unfold hart_ok. cbn. split; [done|]. split; [lia|done].
  - done.
  - done.
  - unfold hart_ok. cbn. split; [done|]. split; [lia|done].
  - done.
  - done.
  - unfold hart_ok. cbn. rewrite Hpc. cbn. split; [done|]. split; [lia|done].
  - cbn. by rewrite Hpc.
  - done.
  - destruct (pop_off_ok _ (proj1 HI h) ltac:(lia)) as (c0 & E & Hn & Hh & Hoo & Hcp & Hs).
    rewrite Hp in E. injection E as <-. unfold hart_ok. cbn. rewrite Hcp, Hpc, Hh. cbn.
    split; [done|]. split; [lia|done].
  - destruct (pop_off_ok _ (proj1 HI h) ltac:(lia)) as (c0 & E & Hn & Hh & Hoo & Hcp & Hs).
    rewrite Hp in E. injection E as <-. cbn. by rewrite Hcp, Hpc.
  - destruct (pop_off_ok _ (proj1 HI h) ltac:(lia)) as (c0 & E & Hn & Hh & _).
    rewrite Hp in E. by injection E as <-.
  - unfold hart_ok. cbn. split; [done|]. split; [lia|]. split; [lia|done].
  - done.
  - done.
Qed.

Lemma inv_init s : init s -> Inv s.
Proof.
  intros [Hl Hh]. split; [|split].
  - intros h. destruct (Hh h) as (Hpc & Hn & He & Ho). unfold hart_ok. rewrite Hpc, Hn, He, Ho.
    split; [apply NoDup_nil_2|]. split; [done|]. split; [lia|done].
  - intros lk. left. rewrite Hl. split; [done|]. intros h. destruct (Hh h) as (Hpc & _ & He & _).
    unfold inside, insideh. rewrite Hpc, He, elem_of_nil. intuition discriminate.
  - intros h lk. rewrite Hl. destruct (Hh h) as (Hpc & _ & He & _). unfold named, namedh.
    rewrite Hpc, He, elem_of_nil. cbn. intuition discriminate.
Qed.

Lemma inv_reachable s : reachable s -> Inv s.
Proof. induction 1 as [s Hs|s s' _ IH Hst]; [by apply inv_init|by apply (inv_step s)]. Qed.

(** ** What the locks guarantee *)

(** C25: Mutual exclusion: in every reachable state of any number of harts,
    however their instructions are interleaved, no two harts are inside the
    same lock (from the atomic swap that takes it to the one that releases
    it). *)
Theorem spinlock_mutex s lk h h' :
  reachable s -> inside s h lk -> inside s h' lk -> h = h'.
Proof.
  intros Hr H H'. destruct (sole s h lk (inv_reachable s Hr) H) as [_ Hu]. symmetry. by apply Hu.
Qed.

(** Between calls, a hart's view of its locks is exact: [holding] answers
    whether this hart holds the lock, [noff] is the number of locks it
    holds plus its own outstanding [push_off]s, and interrupts are off
    whenever that is not zero. *)
Theorem spinlock_view s h lk :
  reachable s -> h_pc (harts s h) = Run ->
  (holding s h lk = true <-> lk ∈ h_held (harts s h)) /\ NoDup (h_held (harts s h)) /\
  h_noff (harts s h) = Z.of_nat (length (h_held (harts s h)) + h_off (harts s h)) /\
  (0 < h_noff (harts s h) -> h_sie (harts s h) = false).
Proof.
  intros Hr Hpc. pose proof (inv_reachable s Hr) as HI. hart_facts s h. rewrite Hpc in Hno. cbn in Hno.
  split; [|split; [done|split; [lia|done]]].
  pose proof (proj2 (proj2 HI) h lk) as Hn. unfold named in Hn. rewrite namedh_plain in Hn by (by rewrite Hpc).
  unfold holding. rewrite <- Hn. case_bool_decide as E; [|rewrite andb_false_r; by split; intros].
  rewrite andb_true_r. split; [done|]. intros _.
  destruct (sole s h lk HI) as [-> _]; [left; by apply Hn|done].
Qed.

(** The only panics of the lock routines: [acquire] stops exactly the
    hart that already holds the lock, [release] a hart that does not hold
    it, and the checks of [pop_off] never fail. *)
Theorem spinlock_panics s h :
  reachable s ->
  match h_pc (harts s h) with
  | PanicAcquire lk => lk ∈ h_held (harts s h)
  | PanicRelease lk => lk ∉ h_held (harts s h)
  | PanicPop => False
  | _ => True
  end.
Proof.
  intros Hr. pose proof (inv_reachable s Hr) as HI. hart_facts s h. by destruct (h_pc (harts s h)).
Qed.

(** ** The theorems on two harts, hart 0 holding lock 5 and hart 1 spinning *)

Module SpinlockWitness.

Definition boot : sys := mkSys (fun _ => mkHart true 0 false Run [] 0) (fun _ => mkLock 0 None).

Lemma boot_reachable : reachable boot.
Proof. apply reach_init. split; [done|]. intros h. done. Qed.

(** Hart [h] runs [n] instructions of the lock routine it is in. *)
Lemma run_exec n : forall s h s', reachable s ->
  (fix go n s := match n with O => Some s | S n => match exec s h with Some s => go n s | None => None end end) n s = Some s' ->
  reachable s'.
Proof.
  induction n as [|n IH]; intros s h s' Hr E; [by injection E as <-|].
  destruct (exec s h) as [s1|] eqn:E1; [|discriminate]. apply (IH s1 h); [|done].
  apply (reach_step s); [done|]. by apply (Step_exec s h).
Qed.

Definition start (h lk : nat) (s : sys) : sys :=
  mkSys (<[h := at_pc (AcqLocked lk) (push_off (harts s h))]> (harts s)) (locks s).

Definition held_state : sys :=
  match exec (start 0 5 boot) 0 with
  | Some s1 => match exec s1 0 with
               | Some s2 => match exec s2 0 with Some s3 => s3 | None => boot end
               | None => boot
               end
  | None => boot
  end.

Lemma held_reachable : reachable held_state.
Proof.
  apply (run_exec 3 (start 0 5 boot) 0); [|reflexivity].
  apply (reach_step boot); [apply boot_reachable|]. by apply (Step_acquire boot 0 5).
Qed.

Lemma spinlock_mutex_witness : inside held_state 0 5 /\ ~ inside held_state 1 5.
Proof.
  assert (H0 : inside held_state 0 5) by (left; vm_compute; left).
  split; [exact H0|]. intros H1.
  pose proof (spinlock_mutex held_state 5 0 1 held_reachable H0 H1) as E. discriminate E.
Defined.

Lemma spinlock_view_witness : holding held_state 0 5 = true /\ h_noff (harts held_state 0) = 1.
Proof.
  destruct (spinlock_view held_state 0 5 held_reachable eq_refl) as ([_ H] & _ & Hn & _).
  split; [apply H; vm_compute; left|exact Hn].
Defined.

(** Hart 0 acquiring lock 5 a second time panics. *)
Definition again : sys :=
  match exec (start 0 5 held_state) 0 with
  | Some s1 => match exec s1 0 with Some s2 => s2 | None => boot end
  | None => boot
  end.

Lemma spinlock_panics_witness : h_pc (harts again 0) = PanicAcquire 5 /\ 5%nat ∈ h_held (harts again 0).
Proof.
  split; [reflexivity|].
  apply (spinlock_panics again 0). apply (run_exec 2 (start 0 5 held_state) 0); [|reflexivity].
  apply (reach_step held_state); [apply held_reachable|]. by apply (Step_acquire held_state 0 5).
Defined.
End SpinlockWitness.
End Spinlock.
