(* ===== verification/Sleeplock.v ===== *)
(** * kernel/sleeplock.c: long-term locks

    A sleeplock guards a cached block or an in-memory inode; a process that
    finds it taken sleeps. The theorems say what a process may rely on
    whatever the other processes do while it sleeps: [acquiresleep] takes
    the lock in a state in which it is free, [releasesleep] frees it and
    makes every process waiting for it runnable. *)

From S2P Require Import Prelude Machine State Printf Sched.

(** ** The sleeplocks of the kernel: [b->lock] and [ip->lock] *)

Inductive slk := SL_buf (b : nat) | SL_inode (i : nat).

#[global] Instance slk_eq_dec : EqDecision slk.
Proof. solve_decision. Defined.

(** [&lk->lk] and [lk] as a channel. *)
Definition slk_lk (lk : slk) : lock :=
  match lk with SL_buf b => Lk_sleepbuf b | SL_inode i => Lk_sleepinode i end.

Definition slk_chan (lk : slk) : chan :=
  match lk with SL_buf b => Ch_sleepbuf b | SL_inode i => Ch_sleepinode i end.

Definition slk_of (lk : slk) (fs : fsstate) : option sleeplock :=
  match lk with
  | SL_buf b => b_lock <$> fs_buf fs !! b
  | SL_inode i => i_lock <$> fs_inode fs !! i
  end.

Definition set_slk (f : sleeplock -> sleeplock) (lk : slk) (fs : fsstate) : fsstate :=
  match lk with
  | SL_buf b => set_fs_buf (alter (fun bf => set_b_lock (f (b_lock bf)) bf) b (fs_buf fs)) fs
  | SL_inode i => set_fs_inode (alter (fun ip => set_i_lock (f (i_lock ip)) ip) i (fs_inode fs)) fs
  end.

Definition get_slk (lk : slk) : K sleeplock := fun s =>
  match slk_of lk (k_fs s) with
  | Some l => Ret l s
  | None => undefined s
  end.

Definition upd_slk (f : sleeplock -> sleeplock) (lk : slk) : K unit :=
  modify (fun s => set_k_fs (set_slk f lk (k_fs s)) s).

(** ** The operations *)

Definition initsleeplock (lk : slk) : K unit :=
  upd_slk (fun l => set_sl_pid 0 (set_sl_locked 0 l)) lk.

Definition acquiresleep (lk : slk) : K unit :=
  acquire (slk_lk lk) ;;;
  loop (fun _ =>
    l <- get_slk lk ;;
    if negb (sl_locked l =? 0)
    then sleep (slk_chan lk) (slk_lk lk) ;;; ret (inl tt)
    else ret (inr tt)) tt ;;;
  upd_slk (set_sl_locked 1) lk ;;;
  p <- curproc ;;
  pr <- get_proc p ;;
  upd_slk (set_sl_pid (p_pid pr)) lk ;;;
  release (slk_lk lk).

Definition releasesleep (lk : slk) : K unit :=
  acquire (slk_lk lk) ;;;
  upd_slk (set_sl_locked 0) lk ;;;
  upd_slk (set_sl_pid 0) lk ;;;
  wakeup (slk_chan lk) ;;;
  release (slk_lk lk).

Definition holdingsleep (lk : slk) : K Z :=
  acquire (slk_lk lk) ;;;
  l <- get_slk lk ;;
  r <- (if sl_locked l =? 0 then ret 0
        else
          p <- curproc ;;
          pr <- get_proc p ;;
          ret (if sl_pid l =? p_pid pr then 1 else 0)) ;;
  release (slk_lk lk) ;;;
  ret r.

(** ** What a process may rely on *)

(** Process [p] running in the kernel, the scheduler's data being well formed
    (under either policy). *)
Definition running (p : nat) (s : kstate) : Prop :=
  sched_ok s /\ k_cur s = Some p /\
  exists pr, k_proc s !! p = Some pr /\ p_state pr = RUNNING.

(** [p] has been switched away in [s] and is resumed in [s']: it holds its own
    lock again and is still the same process. *)
Definition resumed (p : nat) (s s' : kstate) : Prop :=
  running p s' /\ k_held s' = [Lk_proc p] /\
  p_pid <$> k_proc s' !! p = p_pid <$> k_proc s !! p.

Lemma slk_lk_proc lk p : slk_lk lk <> Lk_proc p.
Proof. by destruct lk. Qed.

Lemma slk_lk_queue lk q : slk_lk lk <> Lk_queue q.
Proof. by destruct lk. Qed.

Lemma slk_of_set f lk fs : slk_of lk (set_slk f lk fs) = f <$> slk_of lk fs.
Proof.
  destruct lk as [b|i]; simpl; rewrite list_lookup_alter_eq; by destruct (_ !! _).
Qed.

Lemma slk_of_set_ne f lk lk' fs : lk <> lk' -> slk_of lk' (set_slk f lk fs) = slk_of lk' fs.
Proof.
  intros Hne. destruct lk as [b|i], lk' as [b'|i']; simpl; try done;
    rewrite list_lookup_alter_ne by congruence; done.
Qed.

Lemma get_slk_run lk l s : slk_of lk (k_fs s) = Some l -> get_slk lk s = Ret l s.
Proof. intros H. unfold get_slk. by rewrite H. Qed.

Lemma set_slk_compose f g lk fs : set_slk f lk (set_slk g lk fs) = set_slk (fun l => f (g l)) lk fs.
Proof.
  destruct lk as [b|i]; cbn [set_slk fs_buf fs_inode set_fs_buf set_fs_inode]; by rewrite alter_alter.
Qed.

(** The chain of events in [sleep] keeps what [running] needs. *)
Lemma running_awake lk p s : running p s -> running p (awake lk p s).
Proof.
  intros (HI & Hc & pr & Hpr & Hst). split; [|split; [done|]].
  - by apply (sched_ok_alter s _ p (set_p_chan None)).
  - exists (set_p_chan None pr). split; [|done]. unfold awake. kred. by rewrite list_lookup_alter_eq, Hpr.
Qed.

(** The processor is given up with the lock's owner waiting on its channel. *)
Definition own (lk : slk) (pid : Z) (fs : fsstate) : fsstate :=
  set_slk (fun _ => mkSleeplock 1 pid) lk fs.

Lemma acquiresleep_take lk l s p pr :
  slk_of lk (k_fs s) = Some l -> k_cur s = Some p -> k_proc s !! p = Some pr -> k_held s = [slk_lk lk] ->
  (upd_slk (set_sl_locked 1) lk ;;; p <- curproc ;; pr <- get_proc p ;;
   upd_slk (set_sl_pid (p_pid pr)) lk ;;; release (slk_lk lk)) s
  = Ret tt (set_k_held [] (set_k_fs (own lk (p_pid pr) (k_fs s)) s)).
Proof.
  intros Hl Hc Hp Hh. unfold upd_slk. krun. set (s1 := set_k_fs _ s).
  assert (Hcp : curproc s1 = Ret p s1) by (unfold curproc, s1; kred; by rewrite Hc).
  assert (Hgp : get_proc p s1 = Ret pr s1) by (unfold get_proc, s1; kred; by rewrite Hp).
  krun. erewrite (release_head _ []) by exact Hh. unfold s1. kred. rewrite set_slk_compose. done.
Qed.

(** [acquiresleep] called without locks returns, however often the other
    processes keep it waiting (up to 2^64 times), holding no spinlock and
    owning the sleeplock, which it took in a state in which it was free:
    either the state of the call or a state the process was resumed in ([P]
    stands for any property of these states); nothing else of the file
    system's state is touched. It never panics. *)
Theorem acquiresleep_correct n lk s p pr (P : fsstate -> Prop) :
  running p s -> k_held s = [] -> k_proc s !! p = Some pr -> is_Some (slk_of lk (k_fs s)) -> P (k_fs s) ->
  Z.of_nat n < 2 ^ 64 - 1 ->
  okay n (fun _ s s' => resumed p s s' /\ P (k_fs s') /\ is_Some (slk_of lk (k_fs s')))
    (fun _ _ s' => exists fs l, P fs /\ slk_of lk fs = Some l /\ sl_locked l = 0 /\
       k_held s' = [] /\ k_fs s' = own lk (p_pid pr) fs)
    (acquiresleep lk s).
Proof.
  intros Hrun Hh Hpr Hl HP Hn. unfold acquiresleep. krun. rewrite Hh. apply okay_bind.
  set (I := fun (_ : nat) (_ : unit) s => running p s /\ k_held s = [slk_lk lk] /\ P (k_fs s) /\
              is_Some (slk_of lk (k_fs s)) /\ exists pr', k_proc s !! p = Some pr' /\ p_pid pr' = p_pid pr).
  apply (okay_loop _ _ I (fun _ _ => 0%nat)); [|split_and!; eauto; by rewrite Hh|lia].
  clear s Hrun Hh Hpr Hl HP Hn n. intros n [] s (Hrun & Hh & HP & [l Hl] & pr' & Hpr & Hpid).
  rewrite (bind_Ret _ _ _ _ _ (get_slk_run lk l s Hl)). destruct (Z.eqb_spec (sl_locked l) 0) as [Hz|Hz]; cbn [negb].
  - apply (okay_Ret _ _ _ _ (inr tt) s); [done|]. pose proof (proj1 (proj2 Hrun)) as Hc.
    eapply okay_Ret; [by apply (acquiresleep_take lk l s p pr')|]. cbv beta.
    exists (k_fs s), l. by rewrite Hpid.
  - apply okay_bind. destruct Hrun as (Hqs & Hc & pr2 & Hpr2 & Hst).
    assert (pr2 = pr') as -> by congruence.
    apply (okay_sleep _ _ _ _ _ s p pr'); try done; [apply slk_lk_proc|].
    intros n' s' -> [(Hrun' & Hh' & Hp') [HP' Hl']]. split; [done|]. cbn. split; [|lia].
    split; [by apply running_awake|]. split; [done|]. split; [done|]. split; [done|].
    unfold asleep in Hp'. kred. rewrite list_lookup_insert_eq in Hp' by (by apply (lookup_lt_Some _ _ _ Hpr)).
    destruct (k_proc s' !! p) as [pr3|] eqn:E3; [|discriminate]. injection Hp' as Hp'.
    exists (set_p_chan None pr3). split; [|cbn; congruence]. unfold awake. kred. by rewrite list_lookup_alter_eq, E3.
Qed.

(** [releasesleep] as one step: needed by the code that releases buffers and
    inodes. *)
Lemma releasesleep_run lk s :
  sched_ok s -> slk_lk lk ∉ k_held s -> (forall i, Lk_queue i ∉ k_held s) -> (forall i, Lk_proc i ∉ k_held s) ->
  exists s', releasesleep lk s = Ret tt s' /\ sched_ok s' /\
    k_fs s' = set_slk (fun _ => mkSleeplock 0 0) lk (k_fs s) /\
    s' = set_k_fs (k_fs s') (set_k_queue (k_queue s') (set_k_proc (k_proc s') s)) /\
    forall p pr, k_proc s !! p = Some pr -> exists pr', k_proc s' !! p = Some pr' /\
      set_p_next None pr' = set_p_next None (wakes (slk_chan lk) s p pr).
Proof.
  intros HI Hlk Hlq Hlp. unfold releasesleep, upd_slk. krun. rewrite set_slk_compose.
  set (s1 := set_k_fs _ _). assert (HI1 : sched_ok s1) by (by apply (sched_ok_ext s)).
  destruct (wakeup_run (slk_chan lk) s1 HI1) as (s2 & E2 & HI2 & Es2 & Hp2).
  { intros i. apply not_elem_of_cons. split; [intros H; symmetry in H; by apply slk_lk_queue in H|apply Hlq]. }
  { intros i. apply not_elem_of_cons. split; [intros H; symmetry in H; by apply slk_lk_proc in H|apply Hlp]. }
  krun. rewrite (release_head _ (k_held s) s2) by (by rewrite Es2).
  exists (set_k_held (k_held s) s2). split; [done|]. split; [by apply (sched_ok_ext s2)|].
  kred. split; [by rewrite Es2|]. split; [rewrite Es2; by destruct s|exact Hp2].
Qed.

(** [releasesleep] frees the sleeplock, makes every process asleep on it
    runnable and changes nothing else; a process that called it with no
    spinlock held has none afterwards. *)
Theorem releasesleep_correct lk s p l :
  running p s -> k_held s = [] -> slk_of lk (k_fs s) = Some l ->
  exists s', releasesleep lk s = Ret tt s' /\ running p s' /\ k_held s' = [] /\
    slk_of lk (k_fs s') = Some (mkSleeplock 0 0) /\
    (forall lk', lk' <> lk -> slk_of lk' (k_fs s') = slk_of lk' (k_fs s)) /\
    (forall q pr, k_proc s !! q = Some pr -> p_state pr = SLEEPING -> p_chan pr = Some (slk_chan lk) ->
       exists pr', k_proc s' !! q = Some pr' /\ p_state pr' = RUNNABLE) /\
    (forall q pr, k_proc s !! q = Some pr -> p_state pr <> SLEEPING \/ p_chan pr <> Some (slk_chan lk) ->
       exists pr', k_proc s' !! q = Some pr' /\ set_p_next None pr' = set_p_next None pr).
Proof.
  intros (HI & Hc & pr & Hpr & Hst) Hh Hl.
  destruct (releasesleep_run lk s HI) as (s' & E & HI' & Hfs & Es & Hp);
    [rewrite Hh; apply not_elem_of_nil|intros i; rewrite Hh; apply not_elem_of_nil..|].
  exists s'. split; [done|]. assert (Hw : wakes (slk_chan lk) s p pr = pr).
  { unfold wakes. rewrite decide_False by (rewrite Hst; intros (_ & ? & _); discriminate). done. }
  split_and!.
  - split; [done|]. split; [by rewrite Es|]. destruct (Hp p pr Hpr) as (pr' & Hpr' & Epr).
    exists pr'. split; [done|]. rewrite Hw in Epr. by rewrite (proj1 (but_next_fields _ _ Epr)).
  - by rewrite Es.
  - by rewrite Hfs, slk_of_set, Hl.
  - intros lk' Hne. rewrite Hfs. by apply slk_of_set_ne.
  - intros q qr Hq Hs Hch. destruct (Hp q qr Hq) as (pr' & Hpr' & Epr). exists pr'. split; [done|].
    rewrite (proj1 (but_next_fields _ _ Epr)). unfold wakes. rewrite decide_True; [done|].
    split; [|done]. intros Hcq. rewrite Hc in Hcq. injection Hcq as <-. congruence.
  - intros q qr Hq Hs. destruct (Hp q qr Hq) as (pr' & Hpr' & Epr). exists pr'. split; [done|].
    rewrite Epr. unfold wakes. rewrite decide_False; [done|]. tauto.
Qed.

Lemma holdingsleep_run lk l s p pr :
  slk_of lk (k_fs s) = Some l -> slk_lk lk ∉ k_held s -> k_cur s = Some p -> k_proc s !! p = Some pr ->
  holdingsleep lk s = Ret (if negb (sl_locked l =? 0) && (sl_pid l =? p_pid pr) then 1 else 0) s.
Proof.
  intros Hl Hlk Hc Hp. unfold holdingsleep. krun. set (s1 := set_k_held _ s).
  assert (Hg : get_slk lk s1 = Ret l s1) by (by apply get_slk_run). krun.
  assert (Hcp : curproc s1 = Ret p s1) by (unfold curproc, s1; kred; by rewrite Hc).
  assert (Hgp : get_proc p s1 = Ret pr s1) by (unfold get_proc, s1; kred; by rewrite Hp).
  destruct (sl_locked l =? 0); cbn [negb andb]; krun; unfold s1; by destruct s.
Qed.

(** Without contention [acquiresleep] takes the lock at once. *)
Lemma acquiresleep_run lk l s p pr :
  slk_of lk (k_fs s) = Some l -> sl_locked l = 0 -> k_held s = [] -> k_cur s = Some p -> k_proc s !! p = Some pr ->
  acquiresleep lk s = Ret tt (set_k_fs (own lk (p_pid pr) (k_fs s)) s).
Proof.
  intros Hl Hz Hh Hc Hp. unfold acquiresleep. krun. rewrite Hh. set (s1 := set_k_held _ s).
  rewrite (bind_Ret _ _ s1 tt s1).
  - rewrite (acquiresleep_take lk l s1 p pr Hl Hc Hp eq_refl). unfold s1. kred. rewrite <- Hh. by destruct s.
  - apply (loop_runs _ 1); [|done]. constructor.
    rewrite (bind_Ret _ _ _ _ _ (get_slk_run lk l s1 Hl)). by rewrite Hz.
Qed.

(** ** The theorems on a buffer for which two processes compete *)

Module SleeplockWitness.
Import SchedWitness.

(** Process 0 runs; process 1 is to wait for buffer 3, which process 7 holds. *)
Definition busy : kstate :=
  set_k_fs (set_slk (fun _ => mkSleeplock 1 7) (SL_buf 3) (k_fs (rr_table (Some 0%nat) []))) (rr_table (Some 0%nat) []).

Lemma busy_running : running 0 busy.
Proof.
  split; [|split; [done|by exists (set_p_state RUNNING proc0)]].
  apply (sched_ok_ext (rr_table (Some 0%nat) [])); [apply rr_table_ok|done..].
Qed.

Lemma acquiresleep_correct_witness :
  okay 5 (fun _ s s' => resumed 0 s s' /\ True /\ is_Some (slk_of (SL_buf 3) (k_fs s')))
    (fun _ _ s' => exists fs l, True /\ slk_of (SL_buf 3) fs = Some l /\ sl_locked l = 0 /\
       k_held s' = [] /\ k_fs s' = own (SL_buf 3) 0 fs)
    (acquiresleep (SL_buf 3) busy).
Proof.
  apply (acquiresleep_correct 5 (SL_buf 3) busy 0 (set_p_state RUNNING proc0) (fun _ => True));
    [apply busy_running|reflexivity|reflexivity|by eexists|done|done].
Defined.

Lemma releasesleep_correct_witness :
  exists s', releasesleep (SL_buf 3) busy = Ret tt s' /\ slk_of (SL_buf 3) (k_fs s') = Some (mkSleeplock 0 0).
Proof.
  destruct (releasesleep_correct (SL_buf 3) busy 0 (mkSleeplock 1 7) busy_running eq_refl eq_refl)
    as (s' & E & _ & _ & Hl & _).
  exists s'. split; [exact E|exact Hl].
Defined.
End SleeplockWitness.
