(* ===== verification/SleepWakeup.v ===== *)
(** * No wakeup is lost

    [sleep] and [wakeup] of kernel/proc.c on several harts. Every process of
    the table may, any number of times, run one of the two pieces of code the
    kernel is made of wherever it waits for something:

      acquire(lk); while(!ready) sleep(chan, lk); body; release(lk);
      acquire(lk); produce; wakeup(chan); release(lk);

    ([acquiresleep] and [releasesleep], [piperead] and [pipewrite], [begin_op]
    and [end_op], ...). The statements of different processes are interleaved;
    a statement that takes a spinlock waits while another hart holds it. A
    process that has switched away is resumed by some hart's scheduler. The
    theorem says that no wakeup is lost: whenever [lk] is free and the
    condition holds, no process is asleep on the channel; and that no
    statement ever panics. *)

From S2P Require Import Prelude Machine State Printf Sched Sleeplock.

(** ** Processes and harts *)

(** A piece of code: a statement, or a loop that runs its body until a
    condition holds. *)
Inductive item := Atom (a : act) | Until (cond : kstate -> bool) (body : list act).

(** A process is outside the code looked at, or runs on a hart ([ks] is what
    the scheduler of that hart does when the process comes back to it), or has
    just switched to the scheduler, or is off the processor ([kp] is what it
    does when it is resumed). *)
Inductive mode :=
| Outside
| On (ks : kstate -> outcome kstate unit)
| Leaving (ks kp : kstate -> outcome kstate unit)
| Off (kp : kstate -> outcome kstate unit).

Record thread := mkThread {
  t_mode : mode;
  t_held : list lock;      (* the spinlocks held on its behalf *)
  t_code : list item       (* what it has still to do *)
}.

(** The kernel's data, shared; [k_cur] and [k_held] of it are those of the hart
    that made the last step. *)
Record config := mkConfig { c_k : kstate; c_threads : list thread }.

(** The kernel as the hart sees it that runs process [p]. *)
Definition view (p : nat) (h : list lock) (s : kstate) : kstate := set_k_held h (set_k_cur (Some p) s).

(** No process but [p] has spinlock [l]. *)
Definition lock_free (p : nat) (l : lock) (ts : list thread) : bool :=
  forallb (fun q => Nat.eqb q p || match ts !! q with
                                   | Some t => negb (bool_decide (l ∈ t_held t))
                                   | None => true
                                   end) (seq 0 (length ts)).

(** One turn of the scheduler's loop, for process [p]. *)
Definition turn (p : nat) : K unit := acquire (Lk_proc p) ;;; run_proc p ;;; release (Lk_proc p).

Lemma scheduler_turns : scheduler_rr = for_all (seq 0 NPROC) turn.
Proof. reflexivity. Qed.

(** What a scheduler that has switched to [p] does when [p] comes back. *)
Definition come_back (p : nat) : kstate -> outcome kstate unit := modify (set_k_cur None) ;;; release (Lk_proc p).

Definition put (p : nat) (t : thread) (s : kstate) (c : config) : config := mkConfig s (<[p := t]> (c_threads c)).

(** One step of process [p]. *)
Definition run (p : nat) (c : config) : option config :=
  match c_threads c !! p with
  | None => None
  | Some t =>
      match t_mode t with
      | Outside => None
      | On ks =>
          match t_code t with
          | [] => Some (put p (mkThread Outside (t_held t) []) (c_k c) c)
          | Until cond body :: rest =>
              let code := if cond (c_k c) then rest else map Atom body ++ t_code t in
              Some (put p (mkThread (On ks) (t_held t) code) (c_k c) c)
          | Atom a :: rest =>
              if match a with Acq l => lock_free p l (c_threads c) | Do _ => true end
              then
                match act_run a (view p (t_held t) (c_k c)) with
                | Ret _ s => Some (put p (mkThread (On ks) (k_held s) rest) s c)
                | Swtch s kp => Some (put p (mkThread (Leaving ks kp) (k_held s) rest) s c)
                | _ => None
                end
              else None
          end
      | Leaving ks kp =>
          match ks (view p (t_held t) (c_k c)) with
          | Ret _ s => Some (put p (mkThread (Off kp) (k_held s) (t_code t)) s c)
          | _ => None
          end
      | Off kp =>
          if lock_free p (Lk_proc p) (c_threads c)
          then
            match turn p (set_k_held [] (set_k_cur None (c_k c))) with
            | Ret _ s => Some (put p t s c)
            | Swtch s ks =>
                match kp s with
                | Ret _ s' => Some (put p (mkThread (On ks) (k_held s') (t_code t)) s' c)
                | _ => None
                end
            | _ => None
            end
          else None
      end
  end.

(** Process [p], running elsewhere in the kernel, comes to a piece of code. *)
Definition start (p : nat) (code : list item) (c : config) : option config :=
  match c_threads c !! p, k_proc (c_k c) !! p with
  | Some t, Some pr =>
      match t_mode t with
      | Outside =>
          if decide (p_state pr = RUNNING)
          then Some (put p (mkThread (On (come_back p)) [] code) (c_k c) c) else None
      | _ => None
      end
  | _, _ => None
  end.

(** [p] waits for a spinlock. *)
Definition blocked (p : nat) (t : thread) (c : config) : Prop :=
  (exists ks l rest, t_mode t = On ks /\ t_code t = Atom (Acq l) :: rest /\ lock_free p l (c_threads c) = false) \/
  (exists kp, t_mode t = Off kp /\ lock_free p (Lk_proc p) (c_threads c) = false).

Section SleepWakeup.

(** The channel, the lock, the condition waited for, what a waiter does when
    it holds, and what makes it hold. *)
Context (ch : chan) (lk : lock) (ready : kstate -> bool) (body produce : K unit).

Definition wait_code (p : nat) : list item :=
  [Atom (Acq lk); Until ready (sleep_code ch lk p); Atom (Do body); Atom (Do (release lk))].

Definition wakes_code (qs : list nat) : list act := flat_map (wake_code ch) qs.

(** [wakeup(ch)] by [p]. *)
Definition wakeup_code (p : nat) : list act := wakes_code (filter (fun q => q <> p) (seq 0 NPROC)).

Definition signal_code (p : nat) : list item :=
  Atom (Acq lk) :: Atom (Do produce) :: map Atom (wakeup_code p) ++ [Atom (Do (release lk))].

Definition is_asleep (pr : proc) : Prop := p_state pr = SLEEPING /\ p_chan pr = Some ch.

(** What the rest of the kernel may do meanwhile: anything, as long as it keeps
    the scheduler's data well formed, does not touch the condition, does not
    put a process to sleep on this channel by other means, and changes a
    process that is in the code looked at at most by making it runnable when it
    sleeps, with its lock ([kill]). *)
Definition environment (c : config) (s : kstate) : Prop :=
  sched_ok s /\ ready s = ready (c_k c) /\
  forall p t pr, c_threads c !! p = Some t -> k_proc (c_k c) !! p = Some pr ->
    exists pr', k_proc s !! p = Some pr' /\
      match t_mode t with
      | Outside => ~ is_asleep pr'
      | _ => p_chan pr' = p_chan pr /\
             (p_state pr' = p_state pr \/
              (p_state pr = SLEEPING /\ p_state pr' = RUNNABLE /\ forall t', t' ∈ c_threads c -> Lk_proc p ∉ t_held t'))
      end.

Inductive event := Run (p : nat) | Wait (p : nat) | Signal (p : nat).

Definition fire (e : event) (c : config) : option config :=
  match e with
  | Run p => run p c
  | Wait p => start p (wait_code p) c
  | Signal p => start p (signal_code p) c
  end.

Inductive step (c : config) : config -> Prop :=
| step_fire e c' : fire e c = Some c' -> step c c'
| step_env s : environment c s -> step c (mkConfig s (c_threads c)).

(** Nobody in the code looked at, nobody asleep on the channel. *)
Definition initial (c : config) : Prop :=
  sched_ok (c_k c) /\ c_threads c = replicate NPROC (mkThread Outside [] []) /\
  forall p pr, k_proc (c_k c) !! p = Some pr -> ~ is_asleep pr.

(** ** Where a process is

    [Sl k]: the first [k] statements of [sleep] are done; [KA qs]: in the loop
    of [wakeup] with the processes [qs] still to be looked at; [KB q qs] and
    [KC q qs]: with the lock of [q], before and after it has been looked at. *)
Inductive phase :=
| Out | W0 | Test | Sl (k : nat) | Lv | Of | Body | Rel | Done
| K0 | K1 | KA (qs : list nat) | KB (q : nat) (qs : list nat) | KC (q : nat) (qs : list nat).

#[local] Instance phase_eq_dec : EqDecision phase.
Proof. solve_decision. Defined.

Definition phase_held (p : nat) (ph : phase) : list lock :=
  match ph with
  | Test | Sl 0 | Body | Rel | K1 | KA _ => [lk]
  | Sl 1 => [Lk_proc p; lk]
  | Sl 7 => []
  | Sl _ | Lv => [Lk_proc p]
  | KB q _ | KC q _ => [Lk_proc q; lk]
  | _ => []
  end.

Definition phase_code (p : nat) (ph : phase) : list item :=
  let signalled := [Atom (Do (release lk))] in
  let looking qs := map Atom (wakes_code qs) ++ signalled in
  match ph with
  | Out | Done => []
  | W0 => wait_code p
  | Test => drop 1 (wait_code p)
  | Sl k => map Atom (drop k (sleep_code ch lk p)) ++ drop 1 (wait_code p)
  | Lv | Of => map Atom (drop 5 (sleep_code ch lk p)) ++ drop 1 (wait_code p)
  | Body => drop 2 (wait_code p)
  | Rel => signalled
  | K0 => signal_code p
  | K1 => drop 1 (signal_code p)
  | KA qs => looking qs
  | KB q qs => Atom (Do (wake_one ch q)) :: Atom (Do (release (Lk_proc q))) :: looking qs
  | KC q qs => Atom (Do (release (Lk_proc q))) :: looking qs
  end.

(** The scheduler and the process, when they are continued. *)
Definition back (p : nat) (ks : kstate -> outcome kstate unit) : Prop :=
  forall s, k_held s = [Lk_proc p] -> ks s = Ret tt (set_k_held [] (set_k_cur None s)).
Definition resumes (kp : kstate -> outcome kstate unit) : Prop := forall s, kp s = Ret tt s.

Definition phase_mode (p : nat) (ph : phase) (m : mode) : Prop :=
  match ph with
  | Out => m = Outside
  | Lv => exists ks kp, m = Leaving ks kp /\ back p ks /\ resumes kp
  | Of => exists kp, m = Off kp /\ resumes kp
  | _ => exists ks, m = On ks /\ back p ks
  end.

(** The process's entry in the table. *)
Definition phase_proc (rd : bool) (ph : phase) (pr : proc) : Prop :=
  match ph with
  | Out => ~ is_asleep pr
  | Sl 3 => p_state pr = RUNNING /\ p_chan pr = Some ch
  | Sl 4 | Lv => is_asleep pr
  | Of => (p_state pr = SLEEPING \/ p_state pr = RUNNABLE) /\ p_chan pr = Some ch
  | Body => p_state pr = RUNNING /\ rd = true
  | KA qs => p_state pr = RUNNING /\ Forall (fun q => q < NPROC)%nat qs
  | KB q qs => p_state pr = RUNNING /\ Forall (fun q => q < NPROC)%nat (q :: qs)
  | KC q qs => p_state pr = RUNNING /\ Forall (fun q => q < NPROC)%nat qs
  | Sl k => p_state pr = RUNNING /\ (k < 8)%nat
  | _ => p_state pr = RUNNING
  end.

(** A process that has found the condition false and will be asleep, or is. *)
Definition committed (ph : phase) (pr : proc) : Prop :=
  match ph with
  | Sl k => (k <= 4)%nat
  | Lv => True
  | Of => p_state pr = SLEEPING
  | _ => False
  end.

(** A process whose [wakeup] has not come past [q]. *)
Definition pending (ph : phase) (q : nat) : Prop :=
  match ph with
  | KA qs => q ∈ qs
  | KB q' qs => q = q' \/ q ∈ qs
  | KC _ qs => q ∈ qs
  | _ => False
  end.

Definition excluded (P : list phase) : Prop :=
  forall p q php phq l, p <> q -> P !! p = Some php -> P !! q = Some phq -> l ∈ phase_held p php -> l ∉ phase_held q phq.

Definition promised (P : list phase) (s : kstate) : Prop :=
  ready s = true -> forall q ph pr, P !! q = Some ph -> k_proc s !! q = Some pr -> committed ph pr ->
    exists p php, P !! p = Some php /\ pending php q.

Definition thread_ok (p : nat) (t : thread) (ph : phase) : Prop :=
  t_held t = phase_held p ph /\ t_code t = phase_code p ph /\ phase_mode p ph (t_mode t).

Definition invariant (P : list phase) (c : config) : Prop :=
  sched_ok (c_k c) /\ length P = NPROC /\ length (c_threads c) = NPROC /\
  (forall p t ph, c_threads c !! p = Some t -> P !! p = Some ph -> thread_ok p t ph) /\
  (forall p ph pr, P !! p = Some ph -> k_proc (c_k c) !! p = Some pr -> phase_proc (ready (c_k c)) ph pr) /\
  excluded P /\ promised P (c_k c).

(** ** The invariant is kept *)

Hypothesis lk_proc : forall q, lk <> Lk_proc q.
Hypothesis lk_queue : forall i, lk <> Lk_queue i.

(** The condition is about other data than the scheduler's and the hart's. *)
Hypothesis ready_law : forall s h c q ps, ready (set_k_held h (set_k_cur c (set_k_queue q (set_k_proc ps s)))) = ready s.

(** What is done under the lock returns, and touches neither. *)
Definition data_only (m : K unit) : Prop := forall s p pr, k_cur s = Some p -> k_proc s !! p = Some pr ->
  exists s', m s = Ret tt s' /\ k_proc s' = k_proc s /\ k_queue s' = k_queue s /\ k_held s' = k_held s.
Hypothesis body_law : data_only body.
Hypothesis produce_law : data_only produce.

Lemma ready_same s s' :
  s' = set_k_held (k_held s') (set_k_cur (k_cur s') (set_k_queue (k_queue s') (set_k_proc (k_proc s') s))) -> ready s' = ready s.
Proof. intros ->. apply ready_law. Qed.

Lemma lock_free_spec p l ts :
  lock_free p l ts = true <-> forall q t, q <> p -> ts !! q = Some t -> l ∉ t_held t.
Proof.
  unfold lock_free. rewrite forallb_forall. split.
  - intros H q t Hne Hq. specialize (H q). rewrite in_seq, Hq in H. pose proof (lookup_lt_Some _ _ _ Hq).
    destruct (Nat.eqb_spec q p); [done|]. cbn in H. specialize (H ltac:(lia)).
    by apply negb_true_iff, bool_decide_eq_false in H.
  - intros H q _. destruct (Nat.eqb_spec q p) as [|Hne]; [done|]. cbn. destruct (ts !! q) as [t|] eqn:Hq; [|done].
    apply negb_true_iff, bool_decide_eq_false. by apply (H q).
Qed.

Lemma invariant_other P c p q ph t l :
  invariant P c -> P !! q = Some ph -> q <> p -> lock_free p l (c_threads c) = true -> c_threads c !! q = Some t ->
  l ∉ phase_held q ph.
Proof.
  intros (_ & _ & _ & Ht & _) Hq Hne Hl Hqt. destruct (Ht q t ph Hqt Hq) as (<- & _).
  by apply (proj1 (lock_free_spec p l _) Hl q).
Qed.

Lemma advance P c p ph ph' m s :
  invariant P c -> P !! p = Some ph -> phase_mode p ph' m -> sched_ok s ->
  (forall q phq pr, q <> p -> P !! q = Some phq -> k_proc s !! q = Some pr -> phase_proc (ready s) phq pr) ->
  (forall pr, k_proc s !! p = Some pr -> phase_proc (ready s) ph' pr) ->
  (forall l, l ∈ phase_held p ph' -> l ∈ phase_held p ph \/ lock_free p l (c_threads c) = true) ->
  promised (<[p := ph']> P) s ->
  invariant (<[p := ph']> P) (put p (mkThread m (phase_held p ph') (phase_code p ph')) s c).
Proof.
  intros HI Hp Hm Hok Hoth Hown Hl Hpr. pose proof HI as (_ & HlP & HlT & Ht & _ & Hex & _).
  pose proof (lookup_lt_Some _ _ _ Hp) as Hlt.
  split; [done|]. cbn [put c_k c_threads]. split; [by rewrite length_insert|]. split; [by rewrite length_insert|]. split; [|split; [|split; [|done]]].
  - intros q t phq Hqt Hq. destruct (decide (q = p)) as [->|Hne].
    + rewrite list_lookup_insert_eq in Hqt by lia. rewrite list_lookup_insert_eq in Hq by lia. by simplify_eq.
    + rewrite list_lookup_insert_ne in Hqt by done. rewrite list_lookup_insert_ne in Hq by done. by apply Ht.
  - intros q phq pr Hq. destruct (decide (q = p)) as [->|Hne].
    + rewrite list_lookup_insert_eq in Hq by lia. simplify_eq. apply Hown.
    + rewrite list_lookup_insert_ne in Hq by done. by apply Hoth.
  - assert (Hx : forall q phq l, q <> p -> P !! q = Some phq -> l ∈ phase_held p ph' -> l ∉ phase_held q phq).
    { intros q phq l Hne Hq Hin. destruct (Hl l Hin) as [H|H]; [by apply (Hex p q ph phq)|].
      destruct (lookup_lt_is_Some_2 (c_threads c) q) as [t Hqt]; [apply lookup_lt_Some in Hq; lia|].
      by apply (invariant_other P c p q phq t). }
    intros a b pa pb l Hne Ha Hb Hin. destruct (decide (a = p)) as [->|Hna].
    + rewrite list_lookup_insert_eq in Ha by lia. rewrite list_lookup_insert_ne in Hb by done. simplify_eq. by apply Hx.
    + rewrite list_lookup_insert_ne in Ha by done. destruct (decide (b = p)) as [->|Hnb].
      * rewrite list_lookup_insert_eq in Hb by lia. simplify_eq. intros H. by apply (Hx a pa l).
      * rewrite list_lookup_insert_ne in Hb by done. by apply (Hex a b pa pb).
Qed.

(** A step that touches only the process's own entry, and not the condition. *)
Lemma quiet P c p ph ph' m s :
  invariant P c -> P !! p = Some ph -> phase_mode p ph' m -> sched_ok s -> ready s = ready (c_k c) ->
  (forall q, q <> p -> k_proc s !! q = k_proc (c_k c) !! q) ->
  (forall pr, k_proc s !! p = Some pr -> exists pr0, k_proc (c_k c) !! p = Some pr0 /\
     (phase_proc (ready s) ph pr0 -> phase_proc (ready s) ph' pr /\ (committed ph' pr -> ready s = true -> committed ph pr0))) ->
  (forall l, l ∈ phase_held p ph' -> l ∈ phase_held p ph \/ lock_free p l (c_threads c) = true) ->
  (forall q, pending ph q -> pending ph' q) ->
  invariant (<[p := ph']> P) (put p (mkThread m (phase_held p ph') (phase_code p ph')) s c).
Proof.
  intros HI Hp Hm Hok Hrd Hoth Hown Hl Hpend. pose proof HI as (_ & HlP & HlT & Ht & Hph & Hex & Hpr).
  pose proof (lookup_lt_Some _ _ _ Hp) as Hlt. apply (advance P c p ph ph' m s); try done.
  - intros q phq pr Hne Hq Hpq. rewrite Hrd. apply (Hph q); [done|]. by rewrite <- Hoth.
  - intros pr Hpp. destruct (Hown pr Hpp) as (pr0 & Hp0 & H). apply H. rewrite Hrd. by apply (Hph p).
  - intros Hr q phq pr Hq Hpq Hc.
    assert (HP : exists a pa, P !! a = Some pa /\ pending pa q).
    { rewrite Hrd in Hr. destruct (decide (q = p)) as [->|Hne].
      - rewrite list_lookup_insert_eq in Hq by lia. simplify_eq. destruct (Hown pr Hpq) as (pr0 & Hp0 & H).
        apply (Hpr Hr p ph pr0); [done|done|]. apply H; [rewrite Hrd; by apply (Hph p)|done|by rewrite Hrd].
      - rewrite list_lookup_insert_ne in Hq by done. rewrite Hoth in Hpq by done. by apply (Hpr Hr q phq pr). }
    destruct HP as (a & pa & Ha & Hpa). destruct (decide (a = p)) as [->|Hne].
    + exists p, ph'. split; [apply list_lookup_insert_eq; lia|]. apply Hpend. by simplify_eq.
    + exists a, pa. split; [by rewrite list_lookup_insert_ne|done].
Qed.

(** An entry of the table matters to the phase only through its state and
    channel, and the condition only to one phase. *)
Lemma phase_proc_same rd ph pr pr' :
  p_state pr' = p_state pr -> p_chan pr' = p_chan pr -> phase_proc rd ph pr -> phase_proc rd ph pr'.
Proof.
  intros Es Ec. destruct ph as [| | |[|[|[|[|[|k]]]]]| | | | | | | | | |]; cbn; unfold is_asleep; by rewrite ?Es, ?Ec.
Qed.

Lemma phase_proc_ready rd rd' ph pr : ph <> Body -> phase_proc rd ph pr -> phase_proc rd' ph pr.
Proof. intros Hne. by destruct ph as [| | |[|[|[|[|[|k]]]]]| | | | | | | | | |]. Qed.

#[local] Instance is_asleep_dec pr : Decision (is_asleep pr).
Proof. unfold is_asleep. apply _. Defined.

(** ** One step *)

Section Step.
Context (P : list phase) (c : config) (p : nat) (t : thread) (ph : phase).
Hypothesis HI : invariant P c.
Hypothesis Hp : P !! p = Some ph.
Hypothesis Ht : c_threads c !! p = Some t.

(** [p] waits for a lock, or makes a step after which the invariant holds. *)
Definition goes : Prop := blocked p t c \/ exists c' P', run p c = Some c' /\ invariant P' c'.

Definition running_phase (ph' : phase) : Prop := forall ks, back p ks -> phase_mode p ph' (On ks).

Lemma own_thread : thread_ok p t ph.
Proof. destruct HI as (_ & _ & _ & H & _). by apply (H p). Qed.

Lemma own_proc : exists pr, k_proc (c_k c) !! p = Some pr /\ phase_proc (ready (c_k c)) ph pr.
Proof.
  destruct HI as ((Hlen & _) & HlP & _ & _ & H & _).
  destruct (lookup_lt_is_Some_2 (k_proc (c_k c)) p) as [pr Hpr]; [apply lookup_lt_Some in Hp; lia|].
  exists pr. split; [done|]. by apply (H p).
Qed.

Lemma sched_ok_view h : sched_ok (view p h (c_k c)).
Proof. destruct HI as (H & _). by apply (sched_ok_ext (c_k c)). Qed.

Lemma ready_view h h' : ready (set_k_held h (view p h' (c_k c))) = ready (c_k c).
Proof. apply ready_same. by destruct (c_k c). Qed.

(** Taking a lock. *)
Lemma step_acq l ph' :
  phase_code p ph = Atom (Acq l) :: phase_code p ph' -> phase_held p ph' = l :: phase_held p ph -> (l ∉ phase_held p ph) ->
  (exists ks, t_mode t = On ks /\ back p ks) -> running_phase ph' ->
  (forall pr, phase_proc (ready (c_k c)) ph pr -> phase_proc (ready (c_k c)) ph' pr /\ (committed ph' pr -> committed ph pr)) ->
  (forall q, pending ph q -> pending ph' q) -> goes.
Proof.
  intros Hc Hh Hl (ks & Hm & Hb) Hr Hpp Hpend. destruct own_thread as (Eh & Ec & _).
  destruct (lock_free p l (c_threads c)) eqn:Hf; [right|left; left; exists ks, l, (phase_code p ph'); by rewrite Ec].
  set (s' := set_k_held (l :: phase_held p ph) (view p (phase_held p ph) (c_k c))).
  exists (put p (mkThread (On ks) (phase_held p ph') (phase_code p ph')) s' c), (<[p := ph']> P). split.
  { unfold run. rewrite Ht, Hm, Ec, Hc, Hf, Eh. cbn [act_run]. by rewrite acquire_free, Hh. }
  apply (quiet P c p ph ph' (On ks) s'); try done.
  - by apply Hr.
  - by apply (sched_ok_ext (c_k c)); [apply HI|..].
  - apply ready_view.
  - intros pr Hpr. exists pr. split; [exact Hpr|]. unfold s'. rewrite ready_view. intros H. destruct (Hpp pr H). tauto.
  - rewrite Hh. intros l' [->|H]%elem_of_cons; tauto.
Qed.

(** Any other statement that returns. *)
Lemma step_do f ph' ks s' :
  phase_code p ph = Atom (Do f) :: phase_code p ph' -> t_mode t = On ks ->
  f (view p (phase_held p ph) (c_k c)) = Ret tt s' -> k_held s' = phase_held p ph' ->
  run p c = Some (put p (mkThread (On ks) (phase_held p ph') (phase_code p ph')) s' c).
Proof.
  intros Hc Hm Hf Hh. destruct own_thread as (Eh & Ec & _).
  unfold run. rewrite Ht, Hm, Ec, Hc, Eh. cbn [act_run]. by rewrite Hf, Hh.
Qed.

(** Releasing a lock. *)
Lemma step_release l ph' :
  phase_code p ph = Atom (Do (release l)) :: phase_code p ph' -> (l ∈ phase_held p ph) ->
  remove_lock l (phase_held p ph) = phase_held p ph' -> (forall x, x ∈ phase_held p ph' -> x ∈ phase_held p ph) ->
  (exists ks, t_mode t = On ks /\ back p ks) -> running_phase ph' ->
  (forall pr, phase_proc (ready (c_k c)) ph pr -> phase_proc (ready (c_k c)) ph' pr /\ (committed ph' pr -> committed ph pr)) ->
  (forall q, pending ph q -> pending ph' q) -> goes.
Proof.
  intros Hc Hl Hh Hsub (ks & Hm & Hb) Hr Hpp Hpend. right.
  set (s' := set_k_held (phase_held p ph') (view p (phase_held p ph) (c_k c))).
  eexists _, (<[p := ph']> P). split.
  { apply (step_do (release l) ph' ks s' Hc Hm); [|done]. unfold release, holding.
    change (k_held (view p (phase_held p ph) (c_k c))) with (phase_held p ph). by rewrite bool_decide_true, Hh. }
  apply (quiet P c p ph ph' (On ks) s'); try done.
  - by apply Hr.
  - by apply (sched_ok_ext (c_k c)); [apply HI|..].
  - apply ready_view.
  - intros pr Hpr. exists pr. split; [exact Hpr|]. unfold s'. rewrite ready_view. intros H. destruct (Hpp pr H). tauto.
  - intros x Hx. left. by apply Hsub.
Qed.

(** A store to the process's own entry. *)
Lemma step_upd f ph' :
  phase_code p ph = Atom (Do (upd_proc p f)) :: phase_code p ph' -> phase_held p ph' = phase_held p ph ->
  (exists ks, t_mode t = On ks /\ back p ks) -> running_phase ph' -> (forall pr, p_priority (f pr) = p_priority pr) ->
  (forall pr, phase_proc (ready (c_k c)) ph pr -> phase_proc (ready (c_k c)) ph' (f pr) /\ (committed ph' (f pr) -> committed ph pr)) ->
  (forall q, pending ph q -> pending ph' q) -> goes.
Proof.
  intros Hc Hh (ks & Hm & Hb) Hr Hf Hpp Hpend. right.
  set (s' := set_k_proc (alter f p (k_proc (c_k c))) (view p (phase_held p ph) (c_k c))).
  assert (Hrd : ready s' = ready (c_k c)) by (apply ready_same; unfold s', view; by destruct (c_k c)).
  eexists _, (<[p := ph']> P). split; [by apply (step_do (upd_proc p f) ph' ks s' Hc Hm)|].
  apply (quiet P c p ph ph' (On ks) s'); try done.
  - by apply Hr.
  - apply (sched_ok_alter (c_k c) s' p f); [apply HI|done..].
  - intros q Hne. unfold s'. kred. by rewrite list_lookup_alter_ne.
  - unfold s' at 1. kred. rewrite list_lookup_alter_eq. intros pr Hpr. destruct (k_proc (c_k c) !! p) as [pr0|]; [|done].
    injection Hpr as <-. exists pr0. split; [done|]. rewrite Hrd. intros H. destruct (Hpp pr0 H). tauto.
  - rewrite Hh. tauto.
Qed.

(** The test of the waiting loop. *)
Lemma step_test : ph = Test -> goes.
Proof.
  destruct own_proc as (pr & Hpr & Hpp). pose proof own_thread as Hown. intros ->. destruct Hown as (Eh & Ec & ks & Hm & Hb). right.
  set (ph' := if ready (c_k c) then Body else Sl 0).
  assert (Hh : phase_held p ph' = [lk]) by (unfold ph'; by destruct (ready (c_k c))).
  exists (put p (mkThread (On ks) (phase_held p ph') (phase_code p ph')) (c_k c) c), (<[p := ph']> P). split.
  { unfold run. rewrite Ht, Hm, Ec, Eh, Hh. unfold ph'. cbn [phase_code wait_code drop]. by destruct (ready (c_k c)). }
  apply (quiet P c p Test ph' (On ks) (c_k c)); try done.
  - unfold ph'. destruct (ready (c_k c)); by exists ks.
  - apply HI.
  - intros pr' Hpr'. exists pr'. split; [done|]. intros H. unfold ph'. destruct (ready (c_k c)); [done|].
    split; [split; [exact H|lia]|]. done.
  - rewrite Hh. by left.
Qed.

(** Switching to the scheduler in [sleep]. *)
Lemma step_sched : ph = Sl 4 -> goes.
Proof.
  destruct own_proc as (pr & Hpr & Hpp). pose proof own_thread as Hown. intros ->. destruct Hown as (Eh & Ec & ks & Hm & Hb). destruct Hpp as [Hst Hch]. right.
  set (s' := view p [Lk_proc p] (c_k c)).
  exists (put p (mkThread (Leaving ks (fun s => Ret tt s)) (phase_held p Lv) (phase_code p Lv)) s' c), (<[p := Lv]> P). split.
  { unfold run. rewrite Ht, Hm, Ec, Eh. cbn [phase_code phase_held sleep_code drop map app act_run].
    change (view p [Lk_proc p] (c_k c)) with s'. rewrite (sched_run s' p pr); [done|done|done|exact Hpr|congruence]. }
  apply (quiet P c p (Sl 4) Lv _ s'); try done.
  - by exists ks, (fun s => Ret tt s).
  - apply sched_ok_view.
  - unfold s', view. apply ready_view.
  - intros pr' Hpr'. exists pr'. split; [exact Hpr'|]. intros H. split; [exact H|]. intros _ _. cbn. lia.
  - tauto.
Qed.

(** The scheduler releases the lock of the process that has left. *)
Lemma step_leave : ph = Lv -> goes.
Proof.
  destruct own_proc as (pr & Hpr & Hpp). pose proof own_thread as Hown. intros ->. destruct Hown as (Eh & Ec & ks & kp & Hm & Hb & Hk). right.
  set (s' := set_k_held [] (set_k_cur None (view p [Lk_proc p] (c_k c)))).
  assert (Hrd : ready s' = ready (c_k c)) by (apply ready_same; unfold s', view; by destruct (c_k c)).
  exists (put p (mkThread (Off kp) (phase_held p Of) (phase_code p Of)) s' c), (<[p := Of]> P). split.
  { unfold run. rewrite Ht, Hm, Ec, Eh. by rewrite (Hb (view p (phase_held p Lv) (c_k c)) eq_refl). }
  apply (quiet P c p Lv Of _ s'); try done.
  - by exists kp.
  - by apply (sched_ok_ext (c_k c)); [apply HI|..].
  - intros pr' Hpr'. exists pr'. split; [exact Hpr'|]. intros [H1 H2]. by split; [split; [left|]|].
  - intros l Hl. by apply elem_of_nil in Hl.
Qed.

(** A scheduler's turn for a process that is off the processor: nothing happens
    when it is not runnable, otherwise it is resumed. *)
Lemma turn_run s pr :
  k_held s = [] -> k_proc s !! p = Some pr ->
  if decide (p_state pr = RUNNABLE)
  then exists ks, turn p s = Swtch (set_k_cur (Some p) (set_k_proc (alter (set_p_state RUNNING) p (k_proc s)) (set_k_held [Lk_proc p] s))) ks /\ back p ks
  else turn p s = Ret tt s.
Proof.
  intros Hh Hpr. unfold turn, run_proc. assert (Hl : Lk_proc p ∉ k_held s) by (rewrite Hh; apply not_elem_of_nil).
  rewrite (bind_Ret _ _ _ _ _ (acquire_free _ _ Hl)), Hh. set (s1 := set_k_held _ s).
  assert (Hg : get_proc p s1 = Ret pr s1) by (unfold get_proc, s1; kred; by rewrite Hpr).
  destruct (decide (p_state pr = RUNNABLE)) as [Hr|Hr].
  - unfold upd_proc. krun. rewrite decide_True by done. krun. eexists. split; [reflexivity|]. intros s' Hs'. cbn. by rewrite (release_head _ [] (set_k_cur None s') Hs').
  - unfold bind, ret. rewrite Hg. cbn [bindO]. rewrite decide_False by done. cbn [bindO]. rewrite (release_head _ [] s1 eq_refl). unfold s1. rewrite <- Hh. by destruct s.
Qed.

Lemma step_off : ph = Of -> goes.
Proof.
  destruct own_proc as (pr & Hpr & Hpp). pose proof own_thread as Hown. intros ->. destruct Hown as (Eh & Ec & kp & Hm & Hk). destruct Hpp as [Hst Hch].
  destruct (lock_free p (Lk_proc p) (c_threads c)) eqn:Hf; [right|left; right; by exists kp].
  set (s0 := set_k_held [] (set_k_cur None (c_k c))).
  assert (Hrd0 : ready s0 = ready (c_k c)) by (apply ready_same; unfold s0; by destruct (c_k c)).
  pose proof (turn_run s0 pr eq_refl Hpr) as Hturn. destruct (decide (p_state pr = RUNNABLE)) as [Hrun|Hrun].
  - destruct Hturn as (ks & Et & Hb).
    set (s' := set_k_cur (Some p) (set_k_proc (alter (set_p_state RUNNING) p (k_proc s0)) (set_k_held [Lk_proc p] s0))).
    assert (Hrd : ready s' = ready (c_k c)) by (apply ready_same; unfold s', s0; by destruct (c_k c)).
    exists (put p (mkThread (On ks) (phase_held p (Sl 5)) (phase_code p (Sl 5))) s' c), (<[p := Sl 5]> P). split.
    { unfold run. rewrite Ht, Hm, Hf. fold s0. rewrite Et, Hk, Ec. done. }
    apply (quiet P c p Of (Sl 5) (On ks) s'); try done.
    + by exists ks.
    + apply (sched_ok_alter (c_k c) s' p (set_p_state RUNNING)); [apply HI|done..].
    + intros q Hne. unfold s', s0. kred. by rewrite list_lookup_alter_ne.
    + intros pr' Hpr'. exists pr. split; [done|]. intros _. unfold s', s0 in Hpr'. kred.
      rewrite list_lookup_alter_eq, Hpr in Hpr'. injection Hpr' as <-. split; [split; [done|lia]|]. cbn. lia.
    + intros l Hl. right. by apply list_elem_of_singleton in Hl as ->.
  - exists (put p (mkThread (Off kp) (phase_held p Of) (phase_code p Of)) s0 c), (<[p := Of]> P). split.
    { unfold run. rewrite Ht, Hm, Hf. fold s0. rewrite Hturn. do 3 f_equal. destruct t; cbn in *. by subst. }
    apply (quiet P c p Of Of _ s0); try done.
    + by exists kp.
    + by apply (sched_ok_ext (c_k c)); [apply HI|..].
    + intros pr' Hpr'. exists pr'. split; [exact Hpr'|]. done.
    + tauto.
Qed.

(** The end of the code. *)
Lemma step_done : ph = Done -> goes.
Proof.
  destruct own_proc as (pr & Hpr & Hpp). pose proof own_thread as Hown. intros ->. destruct Hown as (Eh & Ec & ks & Hm & Hb). right.
  exists (put p (mkThread Outside (phase_held p Out) (phase_code p Out)) (c_k c) c), (<[p := Out]> P). split.
  { unfold run. by rewrite Ht, Hm, Ec, Eh. }
  apply (quiet P c p Done Out _ (c_k c)); try done.
  - apply HI.
  - intros pr' Hpr'. exists pr'. split; [done|]. cbn. unfold is_asleep. intros H. split; [intros [? _]; congruence|done].
  - tauto.
Qed.

(** What is done under the lock: nobody else is in a phase that depends on the
    condition. *)
Lemma step_data f ph' :
  phase_code p ph = Atom (Do f) :: phase_code p ph' -> phase_held p ph = [lk] -> phase_held p ph' = [lk] -> data_only f ->
  (exists ks, t_mode t = On ks /\ back p ks) -> running_phase ph' ->
  (forall rd pr, phase_proc (ready (c_k c)) ph pr -> phase_proc rd ph' pr /\ ~ committed ph' pr) ->
  (forall s q phq pr, ready s = true -> k_proc s = k_proc (c_k c) -> q <> p -> P !! q = Some phq -> k_proc s !! q = Some pr ->
     committed phq pr -> exists a pa, <[p := ph']> P !! a = Some pa /\ pending pa q) -> goes.
Proof.
  intros Hc Hh Hh' Hf (ks & Hm & Hb) Hr Hpp Hpend. right. destruct own_proc as (pr & Hpr & Hpro).
  destruct (Hf (view p [lk] (c_k c)) p pr eq_refl Hpr) as (s' & E & Ep & Eq & Eh).
  change (k_proc (view p [lk] (c_k c))) with (k_proc (c_k c)) in Ep.
  pose proof HI as (Hok & HlP & _ & _ & Hph & Hex & _). pose proof (lookup_lt_Some _ _ _ Hp) as Hlt.
  eexists _, (<[p := ph']> P). split; [apply (step_do f ph' ks s' Hc Hm); [by rewrite Hh|by rewrite Eh, Hh']|].
  apply (advance P c p ph ph' (On ks) s'); try done.
  - by apply Hr.
  - by apply (sched_ok_ext (c_k c)).
  - intros q phq prq Hne Hq Hpq. rewrite Ep in Hpq. apply (phase_proc_ready (ready (c_k c))); [|by apply (Hph q)].
    intros ->. apply (Hex p q ph Body lk); [done|done|done|rewrite Hh|]; apply list_elem_of_singleton; done.
  - intros pr' Hpr'. rewrite Ep, Hpr in Hpr'. injection Hpr' as <-. by apply Hpp.
  - rewrite Hh, Hh'. by left.
  - intros Hrd q phq prq Hq Hpq Hcm. destruct (decide (q = p)) as [->|Hne].
    + rewrite list_lookup_insert_eq in Hq by lia. injection Hq as <-. rewrite Ep, Hpr in Hpq. injection Hpq as <-.
      by destruct (proj2 (Hpp true pr Hpro)).
    + rewrite list_lookup_insert_ne in Hq by done. by apply (Hpend s' q phq prq).
Qed.

Lemma step_body : ph = Body -> goes.
Proof.
  intros E. apply (step_data body Rel).
  - by rewrite E.
  - by rewrite E.
  - done.
  - done.
  - pose proof own_thread as (_ & _ & H). by rewrite E in H.
  - intros ks Hb. by exists ks.
  - rewrite E. intros rd pr [H _]. split; [exact H|tauto].
  - destruct own_proc as (pr0 & _ & H). rewrite E in H. destruct H as [_ Hrd].
    intros s q phq pr _ Ep Hne Hq Hpq Hcm. rewrite Ep in Hpq. destruct HI as (_ & _ & _ & _ & _ & _ & Hpr).
    destruct (Hpr Hrd q phq pr Hq Hpq Hcm) as (a & pa & Ha & Hpa). exists a, pa. split; [|done].
    rewrite list_lookup_insert_ne; [done|]. intros ->. rewrite Hp, E in Ha. injection Ha as <-. done.
Qed.

Lemma step_produce : ph = K1 -> goes.
Proof.
  intros E. apply (step_data produce (KA (filter (fun q => q <> p) (seq 0 NPROC)))).
  - by rewrite E.
  - by rewrite E.
  - done.
  - done.
  - pose proof own_thread as (_ & _ & H). by rewrite E in H.
  - intros ks Hb. by exists ks.
  - rewrite E. intros rd pr H. split; [|tauto]. split; [exact H|]. apply Forall_forall. intros q Hq.
    apply list_elem_of_filter in Hq as [_ Hq%elem_of_seq]. lia.
  - intros s q phq pr _ Ep Hne Hq Hpq _. exists p, (KA (filter (fun q => q <> p) (seq 0 NPROC))). destruct HI as (_ & HlP & _).
    split; [apply list_lookup_insert_eq; by apply (lookup_lt_Some _ _ _ Hp)|]. unfold pending. apply list_elem_of_filter. split; [done|].
    apply elem_of_seq. apply lookup_lt_Some in Hq. lia.
Qed.

(** Looking at process [q] in [wakeup]. *)
Lemma wake_one_effect q s :
  sched_ok s -> (q < NPROC)%nat -> (forall i, Lk_queue i ∉ k_held s) ->
  exists s', wake_one ch q s = Ret tt s' /\ sched_ok s' /\ k_held s' = k_held s /\ ready s' = ready s /\
    forall x pr', k_proc s' !! x = Some pr' -> exists pr, k_proc s !! x = Some pr /\ p_chan pr' = p_chan pr /\
      if decide (x = q /\ is_asleep pr) then p_state pr' = RUNNABLE else p_state pr' = p_state pr.
Proof.
  intros Hok Hq Hlq. pose proof Hok as (Hlen & _ & _ & Hprio). destruct (lookup_lt_is_Some_2 (k_proc s) q) as [qr Hqr]; [lia|].
  destruct (decide (is_asleep qr)) as [[Hs Hc]|Hn].
  2:{ exists s. split; [by apply (wake_one_skip ch q s qr)|]. do 3 (split; [done|]). intros x pr' Hx. exists pr'. split; [done|].
      split; [done|]. destruct (decide _) as [[-> Ha]|]; [|done]. destruct Hn. by simplify_eq. }
  set (s1 := set_k_proc (alter (set_p_state RUNNABLE) q (k_proc s)) s).
  assert (Hok1 : sched_ok s1) by (by apply (sched_ok_alter s s1 q (set_p_state RUNNABLE))).
  assert (Hq1 : k_proc s1 !! q = Some (set_p_state RUNNABLE qr)) by (unfold s1; kred; by rewrite list_lookup_alter_eq, Hqr).
  destruct (enqueue_head_ok s1 q (p_priority qr) _ Hok1 Hq1 (Hprio q qr Hqr) (Hlq _)) as (s2 & E2 & Es2 & Hn2 & Hok2).
  exists s2. split; [by apply (wake_one_wake ch q s qr 0)|]. split; [done|]. split; [by rewrite Es2|]. split.
  { apply ready_same. rewrite Es2. unfold s1. by destruct s. }
  intros x pr' Hx. destruct (same_but_next_inv _ _ _ _ Hn2 Hx) as (pr1 & Hx1 & Ex). destruct (but_next_fields _ _ Ex) as (Est & Ech & _).
  unfold s1 in Hx1. kred. apply lookup_alter_cases in Hx1 as [(-> & pr & Hpr & ->)|[Hne Hpr]].
  - exists pr. split; [done|]. split; [done|]. rewrite decide_True; [done|]. by simplify_eq.
  - exists pr1. split; [done|]. split; [done|]. rewrite decide_False; [done|]. intros [Heq _]. congruence.
Qed.

(** A process that is asleep, or will be, has its own lock or [lk], or is off
    the processor. *)
Lemma committed_where q phq pr :
  phase_proc (ready (c_k c)) phq pr -> committed phq pr ->
  (Lk_proc q ∈ phase_held q phq) \/ (lk ∈ phase_held q phq) \/ (phq = Of /\ p_state pr = SLEEPING).
Proof.
  destruct phq as [| | |[|[|[|[|[|k]]]]]| | | | | | | | | |]; cbn [phase_held committed]; intros Hpp Hc; try tauto; try lia;
    [right; left|left|left|left|left|left]; apply elem_of_cons; by left.
Qed.

Lemma step_wake q qs : ph = KB q qs -> goes.
Proof.
  intros E. pose proof own_thread as (Eh & Ec & Hm). rewrite E in Eh, Ec, Hm. destruct Hm as (ks & Hm & Hb).
  destruct own_proc as (pr & Hpr & Hpp). rewrite E in Hpp. destruct Hpp as [Hst Hqs].
  destruct (wake_one_effect q (view p (phase_held p ph) (c_k c)) (sched_ok_view _)) as (s' & Ew & Hok' & Hh' & Hrd & Heff).
  { by apply Forall_cons in Hqs as [? _]. }
  { intros i. rewrite E. cbn. rewrite !not_elem_of_cons. split; [done|]. split; [intros H; by apply (lk_queue i)|apply not_elem_of_nil]. }
  assert (Hrd' : ready s' = ready (c_k c)) by (rewrite Hrd; apply ready_view).
  change (k_proc (view p (phase_held p ph) (c_k c))) with (k_proc (c_k c)) in Heff.
  pose proof HI as (_ & HlP & _ & _ & Hph & Hex & Hprom). pose proof (lookup_lt_Some _ _ _ Hp) as Hlt.
  assert (Hlk : forall x phx, x <> p -> P !! x = Some phx -> (lk ∉ phase_held x phx) /\ (Lk_proc q ∉ phase_held x phx)).
  { intros x phx Hne Hx. split; apply (Hex p x ph phx); try done; rewrite E; apply elem_of_cons; [right; by apply list_elem_of_singleton|by left]. }
  right. eexists _, (<[p := KC q qs]> P). split.
  { apply (step_do (wake_one ch q) (KC q qs) ks s'); [by rewrite E|done|exact Ew|]. by rewrite Hh', E. }
  apply (advance P c p ph (KC q qs) (On ks) s'); try done.
  - by exists ks.
  - intros x phx xr' Hne Hx Hx'. rewrite Hrd'. destruct (Heff x xr' Hx') as (xr & Hxr & Ech & Est).
    pose proof (Hph x phx xr Hx Hxr) as Hpx. destruct (decide (x = q /\ is_asleep xr)) as [[-> Ha]|_]; [|by apply (phase_proc_same _ _ xr)].
    destruct (Hlk q phx Hne Hx) as [Hl1 Hl2].
    assert (phx = Of) as ->.
    { destruct phx as [| | |[|[|[|[|[|k]]]]]| | | | | | | | | |]; cbn in Hpx, Hl2; try done; destruct Ha as [Ha _];
        try (destruct Hpx; congruence); try congruence; destruct Hl2; apply elem_of_cons; by left. }
    split; [by right|]. rewrite Ech. apply Ha.
  - intros xr' Hx'. destruct (Heff p xr' Hx') as (xr & Hxr & Ech & Est). assert (xr = pr) as -> by congruence.
    split; [|by apply Forall_cons in Hqs as [_ ?]]. rewrite decide_False in Est; [congruence|]. intros [_ [? _]]. congruence.
  - rewrite E. by left.
  - intros Hr x phx xr' Hx Hx' Hcm. destruct (decide (x = p)) as [->|Hne].
    { rewrite list_lookup_insert_eq in Hx by lia. by injection Hx as <-. }
    rewrite list_lookup_insert_ne in Hx by done. destruct (Heff x xr' Hx') as (xr & Hxr & Ech & Est). rewrite Hrd' in Hr.
    pose proof (Hph x phx xr Hx Hxr) as Hpx.
    assert (Hcm' : committed phx xr /\ ~ (x = q /\ is_asleep xr)).
    { destruct (decide (x = q /\ is_asleep xr)) as [Ha|Ha].
      - exfalso. destruct Ha as [-> Ha]. destruct (Hlk q phx Hne Hx) as [Hl1 Hl2].
        destruct phx as [| | |[|[|[|[|[|k]]]]]| | | | | | | | | |]; cbn in Hcm, Hl1, Hl2; try done; try lia; try congruence;
          first [destruct Hl1; apply elem_of_cons; by left|destruct Hl2; apply elem_of_cons; by left].
      - split; [|done]. destruct phx; try done. cbn in *. congruence. }
    destruct Hcm' as [Hcm' Hna]. destruct (Hprom Hr x phx xr Hx Hxr Hcm') as (a & pa & Ha & Hpa).
    destruct (decide (a = p)) as [->|Hnp]; [|exists a, pa; split; [by rewrite list_lookup_insert_ne|done]].
    exists p, (KC q qs). split; [apply list_lookup_insert_eq; lia|]. rewrite Hp, E in Ha. injection Ha as <-.
    destruct Hpa as [->|Hpa]; [|exact Hpa]. exfalso. destruct (Hlk q phx Hne Hx) as [Hl1 Hl2].
    destruct (committed_where q phx xr Hpx Hcm') as [H|[H|[-> H]]]; [done|done|]. apply Hna. split; [done|]. split; [done|apply Hpx].
Qed.

Lemma lk_not_proc q : lk ∉ [Lk_proc q].
Proof. apply not_elem_of_cons. split; [apply lk_proc|apply not_elem_of_nil]. Qed.

Lemma proc_not_lk q : Lk_proc q ∉ [lk].
Proof. apply not_elem_of_cons. split; [intros H; by apply (lk_proc q)|apply not_elem_of_nil]. Qed.

Lemma remove_first l h : remove_lock l (l :: h) = h.
Proof. cbn. by rewrite decide_True. Qed.

Lemma remove_second q : remove_lock lk [Lk_proc q; lk] = [Lk_proc q].
Proof. cbn [remove_lock]. rewrite decide_False by (intros H; by apply (lk_proc q)). by rewrite decide_True. Qed.

(** The side conditions of [step_acq], [step_release] and [step_upd] at a
    given phase [E : ph = ...]. *)
Ltac at_phase E :=
  try rewrite E; cbn [phase_held]; lazymatch goal with
  | |- exists ks, t_mode t = On ks /\ back p ks => pose proof own_thread as (_ & _ & Hm); rewrite E in Hm; exact Hm
  | |- running_phase _ => intros ks Hb; by exists ks
  | |- forall pr, phase_proc _ _ pr -> _ => let pr := fresh in let H := fresh in cbn; unfold is_asleep; intros pr H; split; [intuition (cbn; congruence || lia)|cbn; lia || tauto]
  | |- forall q, pending _ q -> _ => cbn; try tauto
  | |- lk ∉ [] => apply not_elem_of_nil
  | |- Lk_proc _ ∉ [lk] => apply proc_not_lk
  | |- _ ∈ _ => cbn; rewrite !elem_of_cons; tauto
  | |- forall x, x ∈ _ -> x ∈ _ => intros x; cbn; rewrite ?elem_of_cons; tauto
  | |- remove_lock _ _ = _ => first [apply remove_first|apply remove_second]
  | |- _ => reflexivity || idtac
  end.

Lemma step_sleep k : ph = Sl k -> goes.
Proof.
  intros E. destruct own_proc as (pr & _ & Hpp). rewrite E in Hpp.
  destruct k as [|[|[|[|[|[|[|[|k]]]]]]]].
  - apply (step_acq (Lk_proc p) (Sl 1)); at_phase E.
  - apply (step_release lk (Sl 2)); at_phase E.
  - apply (step_upd (set_p_chan (Some ch)) (Sl 3)); at_phase E.
  - apply (step_upd (set_p_state SLEEPING) (Sl 4)); at_phase E.
  - by apply step_sched.
  - apply (step_upd (set_p_chan None) (Sl 6)); at_phase E.
  - apply (step_release (Lk_proc p) (Sl 7)); at_phase E.
  - apply (step_acq lk Test); at_phase E.
  - cbn in Hpp. lia.
Qed.

Lemma step_all : ph <> Out -> goes.
Proof.
  intros Hout. destruct own_proc as (pr & _ & Hpp).
  assert (H : exists x, ph = x) by eauto. destruct H as [x E]. rewrite E in Hout, Hpp.
  destruct x as [| | |k| | | | | | | |[|q qs]|q qs|q qs]; try done.
  - apply (step_acq lk Test); at_phase E.
  - by apply step_test.
  - by apply (step_sleep k).
  - by apply step_leave.
  - by apply step_off.
  - by apply step_body.
  - apply (step_release lk Done); at_phase E.
  - by apply step_done.
  - apply (step_acq lk K1); at_phase E.
  - by apply step_produce.
  - apply (step_release lk Done); at_phase E. cbn. intros q H. by apply elem_of_nil in H.
  - apply (step_acq (Lk_proc q) (KB q qs)); at_phase E.
    cbn. intros x Hx. apply elem_of_cons in Hx. tauto.
  - by apply (step_wake q qs).
  - apply (step_release (Lk_proc q) (KA qs)); at_phase E.
Qed.

End Step.

Lemma come_back_back p : back p (come_back p).
Proof. intros s Hs. unfold come_back. krun. by rewrite (release_head _ [] (set_k_cur None s) Hs). Qed.

Lemma outside_phase P c p t ph :
  invariant P c -> P !! p = Some ph -> c_threads c !! p = Some t -> t_mode t = Outside <-> ph = Out.
Proof.
  intros HI Hp Ht. destruct (own_thread P c p t ph HI Hp Ht) as (_ & _ & Hm). split; [|by intros ->].
  intros E. rewrite E in Hm. destruct ph as [| | |k| | | | | | | | | |]; cbn in Hm; try done;
    (destruct Hm as (? & ? & [? _]) || destruct Hm as (? & ? & _)); congruence.
Qed.

(** Coming to one of the two pieces of code. *)
Lemma start_invariant P c p ph' c' :
  invariant P c -> (forall ks, back p ks -> phase_mode p ph' (On ks)) -> phase_held p ph' = [] ->
  (forall rd pr, p_state pr = RUNNING -> phase_proc rd ph' pr) -> (forall pr, ~ committed ph' pr) ->
  start p (phase_code p ph') c = Some c' -> exists P', invariant P' c'.
Proof.
  intros HI Hm Hh Hpp Hcm. unfold start. destruct (c_threads c !! p) as [t|] eqn:Ht; [|done].
  destruct (k_proc (c_k c) !! p) as [pr|] eqn:Hpr; [|done]. destruct (t_mode t) eqn:Em; try done.
  destruct (decide (p_state pr = RUNNING)) as [Hst|]; [|done]. intros [= <-]. pose proof HI as (Hok & HlP & HlT & _).
  destruct (lookup_lt_is_Some_2 P p) as [ph Hp]; [apply lookup_lt_Some in Ht; lia|].
  assert (ph = Out) as -> by (by apply (outside_phase P c p t ph)).
  exists (<[p := ph']> P). rewrite <- Hh at 1. apply (quiet P c p Out ph' _ (c_k c)); try done.
  - apply Hm, come_back_back.
  - intros pr' Hpr'. assert (pr' = pr) as -> by congruence. exists pr. split; [done|]. intros _. split; [by apply Hpp|].
    intros H. by apply Hcm in H.
  - rewrite Hh. intros l Hl. by apply elem_of_nil in Hl.
Qed.

(** The rest of the kernel. *)
Lemma environment_proc P c s p ph t pr pr' :
  invariant P c -> P !! p = Some ph -> c_threads c !! p = Some t -> k_proc (c_k c) !! p = Some pr ->
  ready s = ready (c_k c) ->
  match t_mode t with
  | Outside => ~ is_asleep pr'
  | _ => p_chan pr' = p_chan pr /\
         (p_state pr' = p_state pr \/
          (p_state pr = SLEEPING /\ p_state pr' = RUNNABLE /\ forall t', t' ∈ c_threads c -> Lk_proc p ∉ t_held t'))
  end ->
  phase_proc (ready s) ph pr' /\ (committed ph pr' -> committed ph pr).
Proof.
  intros HI Hp Ht Hpr Hrd He. rewrite Hrd. destruct (own_thread P c p t ph HI Hp Ht) as (Eh & _).
  pose proof HI as (_ & _ & _ & _ & Hph & _). specialize (Hph p ph pr Hp Hpr).
  destruct (decide (ph = Out)) as [->|Hne].
  { assert (E : t_mode t = Outside) by (by apply (outside_phase P c p t Out)). rewrite E in He. by split. }
  assert (He' : p_chan pr' = p_chan pr /\ (p_state pr' = p_state pr \/
    (p_state pr = SLEEPING /\ p_state pr' = RUNNABLE /\ (Lk_proc p ∉ t_held t)))).
  { apply list_elem_of_lookup_2 in Ht as Hin. pose proof (outside_phase P c p t ph HI Hp Ht).
    destruct (t_mode t); [tauto|destruct He as [? [?|(? & ? & H1)]]; eauto 10..]. }
  clear He. destruct He' as [Ech [Est|(Hs & Hs' & Hl)]].
  - split; [by apply (phase_proc_same _ _ pr)|]. destruct ph; try done. cbn. congruence.
  - rewrite Eh in Hl. assert (ph = Of) as ->.
    { destruct ph as [| | |[|[|[|[|[|k]]]]]| | | | | | | | | |]; cbn in Hph, Hl; try done; unfold is_asleep in *;
        try (destruct Hph; congruence); try congruence; destruct Hl; apply elem_of_cons; by left. }
    cbn. split; [|congruence]. split; [by right|]. rewrite Ech. apply Hph.
Qed.

Lemma environment_invariant P c s : invariant P c -> environment c s -> invariant P (mkConfig s (c_threads c)).
Proof.
  intros HI (Hok & Hrd & He). pose proof HI as (Hok0 & HlP & HlT & Hth & Hph & Hex & Hprom).
  assert (HH : forall p ph pr', P !! p = Some ph -> k_proc s !! p = Some pr' ->
    phase_proc (ready s) ph pr' /\ exists pr, k_proc (c_k c) !! p = Some pr /\ (committed ph pr' -> committed ph pr)).
  { intros p ph pr' Hp Hpr'. pose proof (lookup_lt_Some _ _ _ Hp) as Hlt.
    destruct (lookup_lt_is_Some_2 (c_threads c) p) as [t Ht]; [lia|].
    destruct (lookup_lt_is_Some_2 (k_proc (c_k c)) p) as [pr Hpr]; [destruct Hok0 as (-> & _); lia|].
    destruct (He p t pr Ht Hpr) as (pr2 & Hpr2 & Hm). assert (pr2 = pr') as -> by congruence.
    destruct (environment_proc P c s p ph t pr pr' HI Hp Ht Hpr Hrd Hm) as [H1 H2]. split; [done|]. by exists pr. }
  split; [done|]. cbn [c_k c_threads]. split; [done|]. split; [done|]. split; [done|]. split; [|split; [done|]].
  - intros p ph pr Hp Hpr. by apply (HH p).
  - unfold promised in *. rewrite Hrd. intros Hr q ph pr Hq Hpr Hc.
    destruct (HH q ph pr Hq Hpr) as (_ & pr0 & Hpr0 & H). by apply (Hprom Hr q ph pr0); [| |apply H].
Qed.

Lemma initial_invariant c : initial c -> invariant (replicate NPROC Out) c.
Proof.
  intros (Hok & Ht & Ha). split; [done|]. rewrite Ht, !length_replicate. split; [done|]. split; [done|].
  assert (HO : forall p ph, replicate NPROC Out !! p = Some ph -> ph = Out) by (intros p ph H; by apply lookup_replicate in H as [-> _]).
  split; [|split; [|split]].
  - intros p t ph Hpt Hp. apply HO in Hp as ->. by apply lookup_replicate in Hpt as [-> _].
  - intros p ph pr Hp Hpr. apply HO in Hp as ->. by apply (Ha p).
  - intros p q php phq l _ Hp _ Hl. apply HO in Hp as ->. by apply elem_of_nil in Hl.
  - intros _ q ph pr Hq _ Hc. by apply HO in Hq as ->.
Qed.

Lemma step_invariant P c c' : invariant P c -> step c c' -> exists P', invariant P' c'.
Proof.
  intros HI [e c'' Hf|s He]; [|exists P; by apply environment_invariant]. destruct e as [p|p|p]; cbn [fire] in Hf.
  - unfold run in Hf. destruct (c_threads c !! p) as [t|] eqn:Ht; [|done].
    pose proof HI as (_ & HlP & HlT & _). destruct (lookup_lt_is_Some_2 P p) as [ph Hp]; [apply lookup_lt_Some in Ht; lia|].
    destruct (decide (ph = Out)) as [->|Hne].
    { assert (E : t_mode t = Outside) by (by apply (outside_phase P c p t Out)). by rewrite E in Hf. }
    destruct (step_all P c p t ph HI Hp Ht Hne) as [[(ks & l & rest & Hm & Hc & Hl)|(kp & Hm & Hl)]|(c1 & P1 & E1 & HI1)].
    + by rewrite Hm, Hc, Hl in Hf.
    + by rewrite Hm, Hl in Hf.
    + unfold run in E1. rewrite Ht in E1. exists P1. congruence.
  - apply (start_invariant P c p W0 c''); try done; [by intros ks Hb; exists ks|by intros pr []].
  - apply (start_invariant P c p K0 c''); try done; [by intros ks Hb; exists ks|by intros pr []].
Qed.

Lemma reachable_invariant c0 c : initial c0 -> rtc step c0 c -> exists P, invariant P c.
Proof.
  intros H0 Hr. apply initial_invariant in H0 as HI. clear H0. revert HI. generalize (replicate NPROC Out).
  induction Hr as [c|c c1 c2 Hs Hr IH]; intros P HI; [by exists P|].
  destruct (step_invariant P c c1 HI Hs) as [P1 HI1]. by apply (IH P1).
Qed.

(** Asleep, or about to be: [lk] is held, or the condition is false. *)
Lemma pending_holds p ph q : pending ph q -> lk ∈ phase_held p ph.
Proof. destruct ph; cbn; try done; intros _; rewrite !elem_of_cons; tauto. Qed.

(** C33: No wakeup is lost, and nothing panics. Whatever the interleaving of
    processes that wait for a condition with [sleep], of processes that make
    it hold and call [wakeup], and of the rest of the kernel: in every
    reachable state in which the lock is free and the condition holds, no
    process is asleep on the channel. And every process in the code looked at
    waits for a spinlock another one holds or can make a step, so no [acquire],
    [release], [sched] or queue operation in it panics. *)
Theorem no_lost_wakeup c0 c :
  initial c0 -> rtc step c0 c ->
  ((forall t, t ∈ c_threads c -> lk ∉ t_held t) -> ready (c_k c) = true ->
   forall p pr, k_proc (c_k c) !! p = Some pr -> ~ (p_state pr = SLEEPING /\ p_chan pr = Some ch)) /\
  (forall p t, c_threads c !! p = Some t -> t_mode t <> Outside -> blocked p t c \/ is_Some (run p c)).
Proof.
  intros H0 Hr. destruct (reachable_invariant c0 c H0 Hr) as [P HI].
  pose proof HI as (Hok & HlP & HlT & Hth & Hph & _ & Hprom). split.
  - intros Hfree Hrd p pr Hpr Ha. destruct (lookup_lt_is_Some_2 P p) as [ph Hp].
    { destruct Hok as (Hlen & _). apply lookup_lt_Some in Hpr. lia. }
    pose proof (Hph p ph pr Hp Hpr) as Hpp. assert (Hc : committed ph pr).
    { destruct Ha as [Ha Hch]. destruct ph as [| | |[|[|[|[|[|k]]]]]| | | | | | | | | |]; cbn in *; try lia; try done; try congruence;
        try (destruct Hpp; congruence). by destruct Hpp. }
    destruct (Hprom Hrd p ph pr Hp Hpr Hc) as (a & pa & Ha' & Hpa). destruct (lookup_lt_is_Some_2 (c_threads c) a) as [t Ht].
    { apply lookup_lt_Some in Ha'. lia. }
    destruct (Hth a t pa Ht Ha') as (Eh & _). apply (Hfree t); [by apply list_elem_of_lookup_2 in Ht|]. rewrite Eh. by apply (pending_holds a pa p).
  - intros p t Ht Hm. destruct (lookup_lt_is_Some_2 P p) as [ph Hp]; [apply lookup_lt_Some in Ht; lia|].
    destruct (step_all P c p t ph HI Hp Ht) as [H|(c' & _ & E & _)]; [|by left|right; by exists c'].
    intros ->. apply Hm. by apply (outside_phase P c p t Out).
Qed.

End SleepWakeup.

(** ** The theorem for a sleeplock two processes compete for

    The condition is [lk->locked == 0], the code that of [acquiresleep] and
    [releasesleep]. *)

Module SleepWakeupWitness.

Definition slk_ready (lk : slk) (s : kstate) : bool :=
  match slk_of lk (k_fs s) with Some l => sl_locked l =? 0 | None => false end.

Definition slk_take (lk : slk) : K unit :=
  upd_slk (set_sl_locked 1) lk ;;; p <- curproc ;; pr <- get_proc p ;; upd_slk (set_sl_pid (p_pid pr)) lk.

Definition slk_give (lk : slk) : K unit := upd_slk (set_sl_locked 0) lk ;;; upd_slk (set_sl_pid 0) lk.

Lemma slk_take_law lk : data_only (slk_take lk).
Proof.
  intros s p pr Hc Hp. unfold slk_take, upd_slk. krun. set (s1 := set_k_fs _ s).
  assert (Hcp : curproc s1 = Ret p s1) by (unfold curproc, s1; kred; by rewrite Hc).
  assert (Hgp : get_proc p s1 = Ret pr s1) by (unfold get_proc, s1; kred; by rewrite Hp).
  krun. eexists. split; [reflexivity|]. done.
Qed.

Lemma slk_give_law lk : data_only (slk_give lk).
Proof. intros s p pr Hc Hp. unfold slk_give, upd_slk. krun. eexists. split; [reflexivity|]. done. Qed.

Definition b3 : slk := SL_buf 3.

(** Processes 0 and 1 run, each on a hart; process 7 has buffer 3. *)
Definition two_procs : kstate :=
  let ps := <[0%nat := set_p_state RUNNING proc0]> (<[1%nat := set_p_state RUNNING proc0]> (replicate NPROC proc0)) in
  let s := set_k_queue [mkQueue 1 (Some 0%nat) (Some 1%nat); mkQueue 50 None None; mkQueue 200 None None] (set_k_proc ps boot) in
  set_k_fs (set_slk (fun _ => mkSleeplock 1 7) b3 (k_fs s)) s.

Lemma two_proc p pr : k_proc two_procs !! p = Some pr -> p_state pr <> SLEEPING /\ p_priority pr = 0.
Proof.
  unfold two_procs. kred. intros H.
  apply list_lookup_insert_Some in H as [(<- & <- & _)|[_ H]]; [by split|].
  apply list_lookup_insert_Some in H as [(<- & <- & _)|[_ H]]; [by split|].
  by apply lookup_replicate in H as [-> _].
Qed.

Definition c0 : config := mkConfig two_procs (replicate NPROC (mkThread Outside [] [])).

Lemma c0_initial : initial (slk_chan b3) c0.
Proof.
  split; [|split; [done|]].
  - split; [done|]. split; [done|]. split.
    + intros q Hq. repeat (apply elem_of_cons in Hq as [->|Hq]; [done|]). by apply elem_of_nil in Hq.
    + intros p pr Hp. destruct (two_proc p pr Hp) as [_ ->]. unfold NQUEUE. lia.
  - intros p pr Hp [H _]. by apply (two_proc p pr) in Hp as [? _].
Qed.

Definition fires (l : list event) (c : config) : option config :=
  foldl (fun o e => o ≫= fire (slk_chan b3) (slk_lk b3) (slk_ready b3) (slk_take b3) (slk_give b3) e) (Some c) l.

Lemma fires_reachable l c c' :
  fires l c = Some c' -> rtc (step (slk_chan b3) (slk_lk b3) (slk_ready b3) (slk_take b3) (slk_give b3)) c c'.
Proof.
  unfold fires. revert c'. induction l as [|e l IH] using rev_ind; intros c' H; [injection H as <-; apply rtc_refl|].
  rewrite foldl_app in H. cbn in H. destruct (foldl _ _ l) as [c1|]; [|done]. cbn in H.
  apply rtc_r with c1; [by apply IH|]. by apply (step_fire _ _ _ _ _ c1 e).
Qed.

(** Process 0 goes to sleep; process 1 releases the buffer. *)
Definition schedule : list event :=
  Wait 0 :: replicate 8 (Run 0) ++ Signal 1 :: replicate (3 * 63 + 3) (Run 1).

Definition state_of (o : option config) (p : nat) : option (procstate * bool) :=
  c ← o; pr ← k_proc (c_k c) !! p; Some (p_state pr, slk_ready b3 (c_k c)).

Lemma no_lost_wakeup_witness :
  state_of (fires (take 9 schedule) c0) 0 = Some (SLEEPING, false) /\
  exists c, fires schedule c0 = Some c /\ slk_ready b3 (c_k c) = true /\
    forall p pr, k_proc (c_k c) !! p = Some pr -> ~ (p_state pr = SLEEPING /\ p_chan pr = Some (slk_chan b3)).
Proof.
  split; [vm_compute; reflexivity|].
  assert (E : match fires schedule c0 with
              | Some c => slk_ready b3 (c_k c) && forallb (fun t => negb (bool_decide (slk_lk b3 ∈ t_held t))) (c_threads c)
              | None => false
              end = true) by (vm_compute; reflexivity).
  destruct (fires schedule c0) as [c|] eqn:Ef; [|discriminate]. apply andb_true_iff in E as [Hr Hl].
  exists c. split; [reflexivity|]. split; [exact Hr|].
  apply (no_lost_wakeup (slk_chan b3) (slk_lk b3) (slk_ready b3) (slk_take b3) (slk_give b3)) with (c0 := c0).
  - discriminate.
  - discriminate.
  - intros. reflexivity.
  - apply slk_take_law.
  - apply slk_give_law.
  - apply c0_initial.
  - by apply (fires_reachable schedule).
  - intros t Ht Hin. rewrite forallb_forall in Hl. specialize (Hl t ltac:(by apply list_elem_of_In)).
    by rewrite bool_decide_true in Hl.
  - exact Hr.
Defined.
End SleepWakeupWitness.
