(* ===== verification/Block.v ===== *)
(** * Little-endian fields of a disk block

    The kernel overlays structs on [b->data]; here a block is a list of bytes
    and [rd]/[wr] access an [n]-byte field at an offset. *)

From S2P Require Import Prelude Machine.

Fixpoint rd (n : nat) (d : list Z) (off : nat) : Z :=
  match n with
  | O => 0
  | S n' => nth off d 0 + 256 * rd n' d (S off)
  end.

Fixpoint wr (n : nat) (d : list Z) (off : nat) (v : Z) : list Z :=
  match n with
  | O => d
  | S n' => <[off := v mod 256]> (wr n' d (S off) (v / 256))
  end.

Lemma length_wr n d off v : length (wr n d off v) = length d.
Proof. revert off v. induction n as [|n IH]; intros off v; [done|]. cbn [wr]. by rewrite length_insert. Qed.

Lemma nth_insert_eq (d : list Z) i x : (i < length d)%nat -> nth i (<[i := x]> d) 0 = x.
Proof. intros H. apply nth_lookup_Some. by apply list_lookup_insert_eq. Qed.

Lemma nth_insert_ne (d : list Z) i j x : i <> j -> nth j (<[i := x]> d) 0 = nth j d 0.
Proof. intros H. rewrite !nth_lookup. by rewrite list_lookup_insert_ne. Qed.

Lemma nth_wr_other n d off v j : (j < off \/ off + n <= j)%nat -> nth j (wr n d off v) 0 = nth j d 0.
Proof.
  revert off v. induction n as [|n IH]; intros off v H; [done|]. cbn [wr].
  rewrite nth_insert_ne by lia. apply IH. lia.
Qed.

Lemma rd_ext n d d' off : (forall j, (off <= j < off + n)%nat -> nth j d' 0 = nth j d 0) -> rd n d' off = rd n d off.
Proof.
  revert off. induction n as [|n IH]; intros off H; [done|]. cbn [rd]. rewrite (H off) by lia. f_equal. f_equal.
  apply IH. intros j Hj. apply H. lia.
Qed.

Lemma rd_wr_other n m d off off' v :
  (off' + m <= off \/ off + n <= off')%nat -> rd m (wr n d off v) off' = rd m d off'.
Proof. intros H. apply rd_ext. intros j Hj. apply nth_wr_other. lia. Qed.

Lemma rd_wr_same n d off v : (off + n <= length d)%nat -> rd n (wr n d off v) off = v mod 256 ^ Z.of_nat n.
Proof.
  revert off v. induction n as [|n IH]; intros off v H.
  - cbn. by rewrite Z.mod_1_r.
  - cbn [rd wr]. rewrite nth_insert_eq by (rewrite length_wr; lia).
    rewrite (rd_ext n (wr n d (S off) (v / 256))) by (intros j Hj; apply nth_insert_ne; lia).
    rewrite IH by lia. rewrite Nat2Z.inj_succ, Z.pow_succ_r by lia. rewrite Z.rem_mul_r by lia. done.
Qed.

(** Bytes are below 256. *)
Definition bytes_ok (d : list Z) : Prop := Forall (fun x => 0 <= x < 256) d.

Lemma rd_range n d off : bytes_ok d -> 0 <= rd n d off < 256 ^ Z.of_nat n.
Proof.
  intros Hd. revert off. induction n as [|n IH]; intros off; [cbn; lia|]. cbn [rd].
  assert (0 <= nth off d 0 < 256).
  { rewrite nth_lookup. destruct (d !! off) eqn:E; cbn; [|lia]. unfold bytes_ok in Hd. rewrite Forall_lookup in Hd. by apply (Hd off). }
  specialize (IH (S off)). rewrite Nat2Z.inj_succ, Z.pow_succ_r by lia. lia.
Qed.

Lemma bytes_ok_wr n d off v : bytes_ok d -> bytes_ok (wr n d off v).
Proof.
  intros Hd. revert off v. induction n as [|n IH]; intros off v; [done|]. cbn [wr].
  apply Forall_insert; [apply IH|]. apply Z.mod_pos_bound. lia.
Qed.

(** Overwriting a range of bytes. *)
Definition splice (d : list Z) (off : nat) (l : list Z) : list Z := take off d ++ l ++ drop (off + length l) d.

Lemma length_splice d off l : (off + length l <= length d)%nat -> length (splice d off l) = length d.
Proof. intros H. unfold splice. rewrite !length_app, length_take, length_drop. lia. Qed.

Lemma splice_inside d off l i : (off + length l <= length d)%nat -> (i < length l)%nat ->
  splice d off l !! (off + i)%nat = l !! i.
Proof.
  intros H Hi. unfold splice. rewrite lookup_app_r by (rewrite length_take; lia). rewrite length_take.
  rewrite lookup_app_l by lia. f_equal. lia.
Qed.

Lemma splice_outside d off l i : (off + length l <= length d)%nat -> (i < off \/ off + length l <= i)%nat ->
  splice d off l !! i = d !! i.
Proof.
  intros H Hi. unfold splice. destruct (decide (i < off)%nat).
  - rewrite lookup_app_l by (rewrite length_take; lia). apply lookup_take_lt. lia.
  - rewrite lookup_app_r by (rewrite length_take; lia). rewrite length_take.
    rewrite lookup_app_r by lia. rewrite lookup_drop. f_equal. lia.
Qed.
