(* ===== verification/Bio.v ===== *)
(** * kernel/bio.c: the buffer cache

    The buffers form a ring through [prev] and [next], most recently used
    first; a pointer to [bcache.head] is [None]. The disk driver is an
    interface: the class [DiskDriver] gives [virtio_disk_rw] and what its
    callers rely on.

    The theorems present the cache to its clients as a store of blocks:
    [view] is what a reader of a block sees, [binv s P L] the invariant of a
    cache in which the blocks [P] are pinned and the buffers [L] are locked by
    the running process. *)

From stdpp Require Import functions.
From S2P Require Import Prelude Machine State Printf Sched Sleeplock.

Definition BSIZE : Z := 1024.

(** ** Pointers to buffers *)

Definition get_buf (b : nat) : K buf := fun s =>
  match fs_buf (k_fs s) !! b with
  | Some bf => Ret bf s
  | None => undefined s
  end.

Definition upd_fs (f : fsstate -> fsstate) : K unit := modify (fun s => set_k_fs (f (k_fs s)) s).

Definition fbuf (b : nat) (f : buf -> buf) (fs : fsstate) : fsstate := set_fs_buf (alter f b (fs_buf fs)) fs.

Definition upd_buf (b : nat) (f : buf -> buf) : K unit := upd_fs (fbuf b f).

(** [x->next], [x->prev] where [x] may be [&bcache.head]. *)
Definition nx (fs : fsstate) (x : option nat) : option nat :=
  match x with
  | None => fs_head_next fs
  | Some b => match fs_buf fs !! b with Some bf => b_next bf | None => None end
  end.

Definition pv (fs : fsstate) (x : option nat) : option nat :=
  match x with
  | None => fs_head_prev fs
  | Some b => match fs_buf fs !! b with Some bf => b_prev bf | None => None end
  end.

Definition set_nx (x v : option nat) (fs : fsstate) : fsstate :=
  match x with
  | None => set_fs_head_next v fs
  | Some b => fbuf b (set_b_next v) fs
  end.

Definition set_pv (x v : option nat) (fs : fsstate) : fsstate :=
  match x with
  | None => set_fs_head_prev v fs
  | Some b => fbuf b (set_b_prev v) fs
  end.

(** ** The disk driver, as its callers see it *)

(** A transfer of buffer [b]: to the disk, which remembers the write, or from
    it. *)
Definition xfer (b : nat) (bf : buf) (write : bool) (fs : fsstate) : fsstate :=
  if write
  then set_fs_writes ((b_blockno bf, b_data bf) :: fs_writes fs)
         (set_fs_disk (<[b_blockno bf := b_data bf]> (fs_disk fs)) fs)
  else fbuf b (set_b_data (fs_disk fs (b_blockno bf))) fs.

(** A process that runs alone: no spinlock held and nobody waiting on the
    file system's channels. *)
Definition fs_chan (ch : chan) : bool :=
  match ch with
  | Ch_log | Ch_sleepbuf _ | Ch_sleepinode _ | Ch_buf _ | Ch_vdisk_free => true
  | _ => false
  end.

Definition alone (p : nat) (pr : proc) (s : kstate) : Prop :=
  k_held s = [] /\ k_cur s = Some p /\ k_proc s !! p = Some pr /\ p_state pr = RUNNING /\ p_chan pr = None /\
  length (k_proc s) = NPROC /\
  forall q qr ch, k_proc s !! q = Some qr -> p_chan qr = Some ch -> fs_chan ch = false.

(** The block numbers whose first sector the driver can name: a sector is
    computed as [b->blockno * 2] in 32 bits. *)
Definition disk_block (blk : Z) : Prop := 0 <= blk < 2 ^ 31.

Ltac blk_ok := unfold disk_block in *; lia.

Class DiskDriver := {
  virtio_disk_rw : nat -> bool -> K unit;
  disk_idle : kstate -> Prop;
  disk_idle_ext : forall s s', k_vd s' = k_vd s -> k_proc s' = k_proc s -> k_queue s' = k_queue s ->
    k_cur s' = k_cur s -> k_sched_policy s' = k_sched_policy s -> disk_idle s -> disk_idle s';
  disk_rw_law : forall p pr s b bf write,
    alone p pr s -> disk_idle s -> fs_buf (k_fs s) !! b = Some bf -> b_disk bf = 0 -> disk_block (b_blockno bf) ->
    exists vd, virtio_disk_rw b write s = Ret tt (set_k_vd vd (set_k_fs (xfer b bf write (k_fs s)) s)) /\
      disk_idle (set_k_vd vd s)
}.

Section Bio.
Context `{DD : DiskDriver}.

(** ** The operations *)

Definition binit : K unit :=
  upd_fs (set_pv None None) ;;;
  upd_fs (set_nx None None) ;;;
  for_all (seq 0 NBUF) (fun b =>
    h <- gets (fun s => nx (k_fs s) None) ;;
    upd_fs (set_nx (Some b) h) ;;;
    upd_fs (set_pv (Some b) None) ;;;
    initsleeplock (SL_buf b) ;;;
    h <- gets (fun s => nx (k_fs s) None) ;;
    upd_fs (set_pv h (Some b)) ;;;
    upd_fs (set_nx None (Some b))).

(** The body of a loop over the ring,
    [for(b = ..; b != &bcache.head; b = b->link) if(test) { .. return b; }]. *)
Definition scan (link : buf -> option nat) (test : buf -> bool) (hit : nat -> K (option nat))
    (b : option nat) : K (option nat + option nat) :=
  match b with
  | None => ret (inr None)
  | Some i =>
      bf <- get_buf i ;;
      if test bf then r <- hit i ;; ret (inr r) else ret (inl (link bf))
  end.

Definition bget (dev blockno : Z) : K nat :=
  acquire Lk_bcache ;;;
  h <- gets (fun s => nx (k_fs s) None) ;;
  r <- loop (scan b_next (fun bf => (b_dev bf =? dev) && (b_blockno bf =? blockno)) (fun b =>
         upd_buf b (fun bf => set_b_refcnt (u32 (b_refcnt bf + 1)) bf) ;;;
         release Lk_bcache ;;;
         acquiresleep (SL_buf b) ;;;
         ret (Some b))) h ;;
  match r with
  | Some b => ret b
  | None =>
      t <- gets (fun s => pv (k_fs s) None) ;;
      r <- loop (scan b_prev (fun bf => b_refcnt bf =? 0) (fun b =>
             upd_buf b (fun bf => set_b_refcnt 1 (set_b_valid 0 (set_b_blockno blockno (set_b_dev dev bf)))) ;;;
             release Lk_bcache ;;;
             acquiresleep (SL_buf b) ;;;
             ret (Some b))) t ;;
      match r with
      | Some b => ret b
      | None => panic "bget: no buffers"
      end
  end.

Definition bread (dev blockno : Z) : K nat :=
  b <- bget dev blockno ;;
  bf <- get_buf b ;;
  (if b_valid bf =? 0
   then virtio_disk_rw b false ;;; upd_buf b (set_b_valid 1)
   else ret tt) ;;;
  ret b.

Definition bwrite (b : nat) : K unit :=
  h <- holdingsleep (SL_buf b) ;;
  if h =? 0 then panic "bwrite" else virtio_disk_rw b true.

Definition brelse (b : nat) : K unit :=
  h <- holdingsleep (SL_buf b) ;;
  if h =? 0 then panic "brelse"
  else
    releasesleep (SL_buf b) ;;;
    acquire Lk_bcache ;;;
    upd_buf b (fun bf => set_b_refcnt (u32 (b_refcnt bf - 1)) bf) ;;;
    bf <- get_buf b ;;
    (if b_refcnt bf =? 0
     then
       (* b->next->prev = b->prev; b->prev->next = b->next; *)
       upd_fs (fun fs => set_pv (nx fs (Some b)) (pv fs (Some b)) fs) ;;;
       upd_fs (fun fs => set_nx (pv fs (Some b)) (nx fs (Some b)) fs) ;;;
       (* b->next = bcache.head.next; b->prev = &bcache.head; *)
       upd_fs (fun fs => set_nx (Some b) (nx fs None) fs) ;;;
       upd_fs (set_pv (Some b) None) ;;;
       (* bcache.head.next->prev = b; bcache.head.next = b; *)
       upd_fs (fun fs => set_pv (nx fs None) (Some b) fs) ;;;
       upd_fs (set_nx None (Some b))
     else ret tt) ;;;
    release Lk_bcache.

Definition bpin (b : nat) : K unit :=
  acquire Lk_bcache ;;;
  upd_buf b (fun bf => set_b_refcnt (u32 (b_refcnt bf + 1)) bf) ;;;
  release Lk_bcache.

Definition bunpin (b : nat) : K unit :=
  acquire Lk_bcache ;;;
  upd_buf b (fun bf => set_b_refcnt (u32 (b_refcnt bf - 1)) bf) ;;;
  release Lk_bcache.

(** ** The ring of buffers as a list *)

(** [x], the buffers of [l] and [y] follow each other in the ring. *)
Fixpoint seg (fs : fsstate) (x : option nat) (l : list nat) (y : option nat) : Prop :=
  match l with
  | [] => nx fs x = y /\ pv fs y = x
  | z :: l' => nx fs x = Some z /\ pv fs (Some z) = x /\ seg fs (Some z) l' y
  end.

(** The ring holds every buffer once, in the order [order]. *)
Definition lru (fs : fsstate) (order : list nat) : Prop :=
  seg fs None order None /\ Permutation order (seq 0 NBUF) /\ length (fs_buf fs) = NBUF.

Lemma seg_app fs x A z C y : seg fs x (A ++ z :: C) y <-> seg fs x A (Some z) /\ seg fs (Some z) C y.
Proof.
  revert x. induction A as [|a A IH]; intros x; cbn [seg app]; [tauto|]. rewrite IH. tauto.
Qed.

Lemma seg_frame fs fs' x l y :
  (forall z, z = x \/ z ∈ map Some l -> nx fs' z = nx fs z) ->
  (forall z, z = y \/ z ∈ map Some l -> pv fs' z = pv fs z) ->
  seg fs x l y -> seg fs' x l y.
Proof.
  revert x. induction l as [|z l IH]; intros x Hn Hp; cbn [seg].
  - intros [E1 E2]. rewrite Hn, Hp by (by left). done.
  - intros (H1 & H2 & H3). rewrite Hn by (by left). rewrite (Hp (Some z)) by (right; by apply elem_of_cons; left).
    split; [done|]. split; [done|]. apply IH; [| |done].
    + intros w [->|Hw]; apply Hn; right; apply elem_of_cons; [by left|by right].
    + intros w [->|Hw]; apply Hp; [by left|right; apply elem_of_cons; by right].
Qed.

(** [x->next] after an assignment to [y->next], for pointers into the table. *)
Definition bptr (fs : fsstate) (x : option nat) : Prop :=
  match x with None => True | Some b => (b < length (fs_buf fs))%nat end.

Lemma nx_set_nx fs x v : bptr fs x -> nx (set_nx x v fs) x = v.
Proof.
  destruct x as [b|]; simpl; [|done]. intros Hb. rewrite list_lookup_alter_eq.
  destruct (lookup_lt_is_Some_2 _ _ Hb) as [bf ->]. done.
Qed.

Lemma nx_set_nx_ne fs x y v : y <> x -> nx (set_nx x v fs) y = nx fs y.
Proof.
  destruct x as [b|], y as [c|]; simpl; try done. intros Hne. by rewrite list_lookup_alter_ne by congruence.
Qed.

Lemma pv_set_nx fs x y v : pv (set_nx x v fs) y = pv fs y.
Proof.
  destruct x as [b|], y as [c|]; simpl; try done. destruct (decide (b = c)) as [->|Hne].
  - rewrite list_lookup_alter_eq. by destruct (fs_buf fs !! c).
  - by rewrite list_lookup_alter_ne.
Qed.

Lemma pv_set_pv fs x v : bptr fs x -> pv (set_pv x v fs) x = v.
Proof.
  destruct x as [b|]; simpl; [|done]. intros Hb. rewrite list_lookup_alter_eq.
  destruct (lookup_lt_is_Some_2 _ _ Hb) as [bf ->]. done.
Qed.

Lemma pv_set_pv_ne fs x y v : y <> x -> pv (set_pv x v fs) y = pv fs y.
Proof.
  destruct x as [b|], y as [c|]; simpl; try done. intros Hne. by rewrite list_lookup_alter_ne by congruence.
Qed.

Lemma nx_set_pv fs x y v : nx (set_pv x v fs) y = nx fs y.
Proof.
  destruct x as [b|], y as [c|]; simpl; try done. destruct (decide (b = c)) as [->|Hne].
  - rewrite list_lookup_alter_eq. by destruct (fs_buf fs !! c).
  - by rewrite list_lookup_alter_ne.
Qed.

Lemma bptr_set_nx fs x v y : bptr (set_nx x v fs) y <-> bptr fs y.
Proof. destruct x, y; simpl; try done. by rewrite length_alter. Qed.

Lemma bptr_set_pv fs x v y : bptr (set_pv x v fs) y <-> bptr fs y.
Proof. destruct x, y; simpl; try done. by rewrite length_alter. Qed.

Create Rewrite HintDb ringdb.
#[local] Hint Rewrite nx_set_pv pv_set_nx bptr_set_nx bptr_set_pv : ringdb.

Lemma seg_last fs x A y : seg fs x A y -> pv fs y = x /\ A = [] \/ pv fs y ∈ map Some A.
Proof.
  revert x. induction A as [|a A IH]; intros x; cbn [seg]; [intros [_ <-]; by left|].
  intros (_ & _ & H). right. destruct (IH _ H) as [[-> _]|Hin]; cbn [map]; apply elem_of_cons; [by left|by right].
Qed.

Lemma seg_head fs x A y : seg fs x A y -> nx fs x = y /\ A = [] \/ nx fs x ∈ map Some A.
Proof.
  destruct A as [|a A]; cbn [seg]; [intros [<- _]; by left|].
  intros (-> & _). right. cbn [map]. by apply elem_of_cons; left.
Qed.

(** [b->next->prev = b->prev; b->prev->next = b->next] *)
Definition unlink (b : nat) (fs : fsstate) : fsstate :=
  let fs1 := set_pv (nx fs (Some b)) (pv fs (Some b)) fs in
  set_nx (pv fs1 (Some b)) (nx fs1 (Some b)) fs1.

Lemma unlink_eq b fs : nx fs (Some b) <> Some b ->
  unlink b fs = set_nx (pv fs (Some b)) (nx fs (Some b)) (set_pv (nx fs (Some b)) (pv fs (Some b)) fs).
Proof. intros H. unfold unlink. by rewrite pv_set_pv_ne, nx_set_pv by done. Qed.

Lemma unlink_seg fs b A C y : forall x,
  seg fs x (A ++ b :: C) y -> NoDup (x :: map Some (A ++ b :: C)) -> y ∉ map Some (A ++ b :: C) ->
  Forall (bptr fs) (x :: y :: map Some (A ++ b :: C)) ->
  seg (unlink b fs) x (A ++ C) y.
Proof.
  intros x Hs Hnd Hy Hb. rewrite unlink_eq.
  2:{ apply seg_app in Hs as [_ Hs]. rewrite map_app in Hy. cbn [map] in Hy.
      rewrite elem_of_app, elem_of_cons in Hy.
      apply NoDup_cons in Hnd as [_ Hnd]. rewrite map_app in Hnd. cbn [map] in Hnd.
      apply NoDup_app in Hnd as (_ & _ & Hnd). apply NoDup_cons in Hnd as [Hnd _].
      destruct (seg_head _ _ _ _ Hs) as [[-> _]|Hin]; [intros ->; tauto|]. intros E. by rewrite E in Hin. }
  revert x Hs Hnd Hb.
  induction A as [|a A IH]; intros x Hs Hnd Hb.
  - cbn [app map seg] in *. destruct Hs as (Hx & Hbx & Hs). rewrite Hbx.
    apply NoDup_cons in Hnd as [Hxn Hnd]. apply NoDup_cons in Hnd as [Hbn Hnd].
    rewrite !Forall_cons in Hb. destruct Hb as (Bx & By & Bb & BC). rewrite !not_elem_of_cons in *.
    destruct C as [|c C]; cbn [seg map] in *.
    + destruct Hs as [-> _]. rewrite nx_set_nx, pv_set_nx, pv_set_pv by (autorewrite with ringdb; done). done.
    + destruct Hs as (-> & _ & Hs). rewrite Forall_cons in BC. destruct BC as [Bc BC].
      apply NoDup_cons in Hnd as [Hcn Hnd]. rewrite !not_elem_of_cons in *.
      rewrite nx_set_nx, pv_set_nx, pv_set_pv by (autorewrite with ringdb; done).
      split; [done|]. split; [done|]. apply (seg_frame fs); [| |done].
      * intros z Hz. rewrite nx_set_nx_ne, nx_set_pv; [done|]. intros ->. destruct Hz as [Hz|Hz]; [subst|]; tauto.
      * intros z Hz. rewrite pv_set_nx, pv_set_pv_ne; [done|]. intros ->. destruct Hz as [Hz|Hz]; [subst|]; tauto.
  - cbn [app map seg] in Hs, Hnd, Hb, Hy |- *. destruct Hs as (Hx & Hax & Hs).
    apply NoDup_cons in Hnd as [Hxn Hnd]. rewrite !Forall_cons in Hb. destruct Hb as (Bx & By & Ba & BC).
    rewrite not_elem_of_cons in Hxn. rewrite not_elem_of_cons in Hy.
    specialize (IH ltac:(tauto) (Some a) Hs Hnd ltac:(by rewrite !Forall_cons)).
    pose proof Hs as [H1 H2]%seg_app. rewrite map_app in *. cbn [map] in *. rewrite elem_of_app, elem_of_cons in *.
    apply NoDup_cons in Hnd as [Han Hnd]. rewrite elem_of_app, elem_of_cons in Han.
    split; [|split; [|done]].
    + rewrite nx_set_nx_ne, nx_set_pv; [done|]. intros Ex. destruct (seg_last _ _ _ _ H1) as [[E _]|Hin].
      * rewrite E in Ex. tauto.
      * rewrite <- Ex in Hin. tauto.
    + rewrite pv_set_nx, pv_set_pv_ne; [done|]. intros Ex. destruct (seg_head _ _ _ _ H2) as [[E _]|Hin].
      * rewrite E in Ex. subst y. tauto.
      * rewrite <- Ex in Hin. tauto.
Qed.

(** [b->next = head.next; b->prev = &head; head.next->prev = b; head.next = b] *)
Definition push_front (b : nat) (fs : fsstate) : fsstate :=
  let fs1 := set_pv (Some b) None (set_nx (Some b) (nx fs None) fs) in
  set_nx None (Some b) (set_pv (nx fs1 None) (Some b) fs1).

Lemma push_front_seg fs b O :
  seg fs None O None -> NoDup (b :: O) -> Forall (bptr fs) (map Some (b :: O)) ->
  seg (push_front b fs) None (b :: O) None.
Proof.
  intros Hs Hnd Hb. unfold push_front. rewrite nx_set_pv, nx_set_nx_ne by done. set (h := nx fs None).
  apply NoDup_cons in Hnd as [HbO Hnd]. cbn [map] in Hb. apply Forall_cons in Hb as [Bb BO].
  assert (Hbm : Some b ∉ map Some O) by (rewrite list_elem_of_fmap; intros (x & [= <-] & Hx); done).
  assert (Hh : h = None /\ O = [] \/ h ∈ map Some O) by (by apply seg_head).
  assert (Hhb : h <> Some b) by (destruct Hh as [[-> _]|Hh]; [done|by intros ->]).
  assert (Bh : bptr fs h).
  { destruct Hh as [[-> _]|Hh]; [done|]. rewrite Forall_forall in BO. by apply BO. }
  cbn [seg]. split; [by rewrite nx_set_nx|]. split.
  { rewrite pv_set_nx, pv_set_pv_ne, pv_set_pv by (autorewrite with ringdb; congruence). done. }
  destruct O as [|o O]; cbn [seg map] in *.
  - destruct Hs as [Hs1 Hs2]. assert (h = None) as -> by done.
    rewrite nx_set_nx_ne, !nx_set_pv, nx_set_nx, pv_set_nx, pv_set_pv by (autorewrite with ringdb; done). done.
  - destruct Hs as (Hs1 & Hs2 & Hs). assert (h = Some o) as -> by done. rewrite not_elem_of_cons in Hbm.
    rewrite nx_set_nx_ne, !nx_set_pv, nx_set_nx, pv_set_nx, pv_set_pv by (autorewrite with ringdb; done).
    split; [done|]. split; [done|]. apply (seg_frame fs); [| |done].
    + intros z Hz. destruct (decide (z = None)) as [->|Hz0].
      { destruct Hz as [Hz|Hz]; [done|]. apply list_elem_of_fmap in Hz as (? & ? & _). done. }
      rewrite nx_set_nx_ne, !nx_set_pv by done. apply nx_set_nx_ne. intros ->. tauto.
    + apply NoDup_cons in Hnd as [HoO _]. intros z Hz. rewrite pv_set_nx, pv_set_pv_ne.
      * rewrite pv_set_pv_ne, pv_set_nx; [done|]. intros ->. destruct Hz; [done|tauto].
      * intros ->. destruct Hz as [|Hz]; [done|]. apply list_elem_of_fmap in Hz as (? & [= <-] & ?). done.
Qed.


(** ** The cache as a store of blocks *)

(** [bf] holds the contents of block [blk]. *)
Definition caches (blk : Z) (bf : buf) : bool :=
  (b_dev bf =? ROOTDEV) && (b_blockno bf =? blk) && negb (b_valid bf =? 0).

(** What a reader of block [blk] sees. *)
Definition view (fs : fsstate) (blk : Z) : list Z :=
  match List.find (caches blk) (fs_buf fs) with
  | Some bf => b_data bf
  | None => fs_disk fs blk
  end.

(** The references to buffer [b] when the blocks [P] are pinned and the
    buffers [L] (with their block numbers) locked. *)
Definition refs (P : list Z) (L : list (nat * Z)) (b : nat) (bf : buf) : Z :=
  (if decide (b ∈ L.*1) then 1 else 0) + (if decide (b_dev bf = ROOTDEV /\ b_blockno bf ∈ P) then 1 else 0).

(** What holds of each buffer: who locks it, how often it is referenced, and
    that one without references agrees with the disk. *)
Record buf_ok (pid : Z) (disk : Z -> list Z) (P : list Z) (L : list (nat * Z)) (b : nat) (bf : buf) : Prop := {
  bo_len : length (b_data bf) = Z.to_nat BSIZE;
  bo_disk : b_disk bf = 0;
  bo_lock : b_lock bf = if decide (b ∈ L.*1) then mkSleeplock 1 pid else mkSleeplock 0 0;
  bo_refcnt : b_refcnt bf = refs P L b bf;
  bo_clean : b_refcnt bf = 0 -> b_dev bf = ROOTDEV -> b_valid bf <> 0 -> b_data bf = disk (b_blockno bf)
}.

Record binv (pid : Z) (fs : fsstate) (P : list Z) (L : list (nat * Z)) : Prop := {
  bi_lru : exists order, lru fs order;
  bi_disk : forall blk, length (fs_disk fs blk) = Z.to_nat BSIZE;
  bi_uniq : forall b c bf cf, fs_buf fs !! b = Some bf -> fs_buf fs !! c = Some cf ->
    b_dev bf = ROOTDEV -> b_dev cf = ROOTDEV -> b_blockno bf = b_blockno cf -> b = c;
  bi_buf : forall b bf, fs_buf fs !! b = Some bf -> buf_ok pid (fs_disk fs) P L b bf;
  bi_held : forall b blk, (b, blk) ∈ L -> exists bf, fs_buf fs !! b = Some bf /\ caches blk bf = true;
  bi_pinned : forall blk, blk ∈ P -> exists b bf, fs_buf fs !! b = Some bf /\ caches blk bf = true;
  bi_L : NoDup (L.*1);
  bi_P : NoDup P
}.

Lemma caches_true blk bf : caches blk bf = true <-> b_dev bf = ROOTDEV /\ b_blockno bf = blk /\ b_valid bf <> 0.
Proof.
  unfold caches. rewrite !andb_true_iff, negb_true_iff, !Z.eqb_eq, Z.eqb_neq. tauto.
Qed.

Lemma view_hit pid fs P L b bf blk :
  binv pid fs P L -> fs_buf fs !! b = Some bf -> caches blk bf = true -> view fs blk = b_data bf.
Proof.
  intros HI Hb Hc. unfold view. destruct (List.find _ _) as [cf|] eqn:E.
  - apply find_some in E as [Hin Hcf]. apply list_elem_of_In, list_elem_of_lookup in Hin as [c Hcl].
    apply caches_true in Hc as (H1 & H2 & _). apply caches_true in Hcf as (H3 & H4 & _).
    assert (b = c) as <- by (apply (bi_uniq _ _ _ _ HI b c bf cf); congruence). congruence.
  - apply (find_none _ _ ) with (x := bf) in E; [congruence|].
    apply list_elem_of_In. by apply (list_elem_of_lookup_2 _ b).
Qed.

Lemma view_miss fs blk :
  (forall b bf, fs_buf fs !! b = Some bf -> caches blk bf = false) -> view fs blk = fs_disk fs blk.
Proof.
  intros H. unfold view. destruct (List.find _ _) as [cf|] eqn:E; [|done].
  apply find_some in E as [Hin Hcf]. apply list_elem_of_In, list_elem_of_lookup in Hin as [c Hcl].
  by rewrite (H c cf Hcl) in Hcf.
Qed.

Lemma view_cases fs blk :
  (exists b bf, fs_buf fs !! b = Some bf /\ caches blk bf = true /\ view fs blk = b_data bf) \/
  (view fs blk = fs_disk fs blk /\ forall b bf, fs_buf fs !! b = Some bf -> caches blk bf = false).
Proof.
  unfold view. destruct (List.find _ _) as [cf|] eqn:E.
  - apply find_some in E as [Hin Hcf]. apply list_elem_of_In, list_elem_of_lookup in Hin as [c Hcl]. left. eauto.
  - right. split; [done|]. intros b bf Hb. apply (find_none _ _ E).
    apply list_elem_of_In. by apply (list_elem_of_lookup_2 _ b).
Qed.

(** Replacing the record of one buffer. *)
Definition put (b : nat) (bf : buf) (fs : fsstate) : fsstate := set_fs_buf (<[b := bf]> (fs_buf fs)) fs.

Lemma fbuf_put b bf f fs : fs_buf fs !! b = Some bf -> fbuf b f fs = put b (f bf) fs.
Proof. intros H. unfold fbuf, put. by rewrite (alter_insert_eq _ _ _ bf H). Qed.

Lemma put_lookup b bf fs bf0 : fs_buf fs !! b = Some bf0 -> fs_buf (put b bf fs) !! b = Some bf.
Proof. intros H. apply list_lookup_insert_eq. by apply (lookup_lt_Some _ _ _ H). Qed.

Lemma put_lookup_ne b c bf fs : c <> b -> fs_buf (put b bf fs) !! c = fs_buf fs !! c.
Proof. intros H. by apply list_lookup_insert_ne. Qed.

Lemma put_put b bf bf' fs : put b bf (put b bf' fs) = put b bf fs.
Proof. unfold put. cbn. by rewrite list_insert_insert_eq. Qed.

Lemma put_id b bf fs : fs_buf fs !! b = Some bf -> put b bf fs = fs.
Proof. intros H. unfold put. rewrite list_insert_id by done. by destruct fs. Qed.

Lemma put_links b bf bf' fs x :
  fs_buf fs !! b = Some bf -> b_next bf' = b_next bf -> b_prev bf' = b_prev bf ->
  nx (put b bf' fs) x = nx fs x /\ pv (put b bf' fs) x = pv fs x.
Proof.
  intros Hb Hn Hp. destruct x as [c|]; [|done]. unfold nx, pv. destruct (decide (c = b)) as [->|Hne].
  - by rewrite (put_lookup b bf' fs bf Hb), Hb.
  - by rewrite put_lookup_ne.
Qed.

Lemma lru_put b bf bf' fs order :
  fs_buf fs !! b = Some bf -> b_next bf' = b_next bf -> b_prev bf' = b_prev bf ->
  lru fs order -> lru (put b bf' fs) order.
Proof.
  intros Hb Hn Hp (Hs & HP & Hl). split; [|split; [done|]].
  - apply (seg_frame fs); [| |done]; intros z _; by apply (put_links b bf bf' fs z).
  - unfold put. cbn. by rewrite length_insert.
Qed.


(** The invariant when buffer [b] becomes [bf'] and the pins and locks [P'], [L']. *)
Lemma binv_put pid fs P L b bf bf' P' L' :
  binv pid fs P L -> fs_buf fs !! b = Some bf -> b_next bf' = b_next bf -> b_prev bf' = b_prev bf ->
  buf_ok pid (fs_disk fs) P' L' b bf' ->
  (forall c cf, c <> b -> fs_buf fs !! c = Some cf -> b_dev cf = ROOTDEV -> b_dev bf' = ROOTDEV ->
     b_blockno cf <> b_blockno bf') ->
  (forall c, c <> b -> c ∈ L'.*1 <-> c ∈ L.*1) ->
  (forall c cf, c <> b -> fs_buf fs !! c = Some cf -> b_dev cf = ROOTDEV -> b_blockno cf ∈ P' <-> b_blockno cf ∈ P) ->
  (forall c blk, (c, blk) ∈ L' -> if decide (c = b) then caches blk bf' = true else (c, blk) ∈ L) ->
  (forall blk, blk ∈ P' -> caches blk bf' = true \/ (blk ∈ P /\ caches blk bf = false)) ->
  NoDup (L'.*1) -> NoDup P' ->
  binv pid (put b bf' fs) P' L'.
Proof.
  intros HI Hb Hn Hp Hok Hu HL HP HLh HPh HLd HPd. destruct HI as [[order Hlru] Hdisk Huniq Hbuf Hheld Hpin _ _].
  constructor.
  - exists order. by apply (lru_put b bf).
  - done.
  - intros c d cf df Hc Hd Hc1 Hd1 He. destruct (decide (c = b)) as [->|Hcb], (decide (d = b)) as [->|Hdb]; [done| | |].
    + rewrite (put_lookup b bf' fs bf Hb) in Hc. rewrite put_lookup_ne in Hd by done. injection Hc as <-.
      exfalso. by apply (Hu d df Hdb Hd Hd1 Hc1).
    + rewrite (put_lookup b bf' fs bf Hb) in Hd. rewrite put_lookup_ne in Hc by done. injection Hd as <-.
      exfalso. by apply (Hu c cf Hcb Hc Hc1 Hd1).
    + rewrite put_lookup_ne in Hc by done. rewrite put_lookup_ne in Hd by done. by apply (Huniq c d cf df).
  - intros c cf Hc. destruct (decide (c = b)) as [->|Hcb].
    + rewrite (put_lookup b bf' fs bf Hb) in Hc. by injection Hc as <-.
    + rewrite put_lookup_ne in Hc by done. destruct (Hbuf c cf Hc) as [H1 H2 H3 H4 H5]. constructor; [done|done| | |done].
      * rewrite H3. by destruct (decide (c ∈ L.*1)), (decide (c ∈ L'.*1)); rewrite ?HL in *.
      * rewrite H4. unfold refs. f_equal.
        -- by destruct (decide (c ∈ L.*1)), (decide (c ∈ L'.*1)); rewrite ?HL in *.
        -- destruct (decide (b_dev cf = ROOTDEV /\ b_blockno cf ∈ P)) as [[? ?]|Hn1],
             (decide (b_dev cf = ROOTDEV /\ b_blockno cf ∈ P')) as [[? ?]|Hn2]; try done.
           ++ exfalso. apply Hn2. split; [done|]. by apply (HP c cf).
           ++ exfalso. apply Hn1. split; [done|]. by apply (HP c cf).
  - intros c blk Hin. specialize (HLh c blk Hin). destruct (decide (c = b)) as [->|Hcb].
    + exists bf'. by rewrite (put_lookup b bf' fs bf Hb).
    + rewrite put_lookup_ne by done. by apply Hheld.
  - intros blk Hin. destruct (HPh blk Hin) as [H|[H1 H2]].
    + exists b, bf'. by rewrite (put_lookup b bf' fs bf Hb).
    + destruct (Hpin blk H1) as (c & cf & Hc & Hcc). exists c, cf. split; [|done].
      rewrite put_lookup_ne; [done|]. intros ->. congruence.
  - done.
  - done.
Qed.

(** What readers see after such a replacement. *)
Lemma view_put pid fs P L b bf bf' P' L' blk :
  binv pid fs P L -> binv pid (put b bf' fs) P' L' -> fs_buf fs !! b = Some bf ->
  view (put b bf' fs) blk =
    if caches blk bf' then b_data bf' else if caches blk bf then fs_disk fs blk else view fs blk.
Proof.
  intros HI HI' Hb. pose proof (put_lookup b bf' fs bf Hb) as Hb'.
  destruct (caches blk bf') eqn:E'; [by apply (view_hit _ _ _ _ _ _ _ HI' Hb')|].
  assert (Hothers : forall c cf, c <> b -> fs_buf fs !! c = Some cf -> caches blk cf = true -> view (put b bf' fs) blk = b_data cf).
  { intros c cf Hc Hcl Hcc. apply (view_hit pid _ P' L' c); [done| |done]. by rewrite put_lookup_ne. }
  destruct (caches blk bf) eqn:E.
  - apply (view_miss (put b bf' fs)). intros c cf Hc. destruct (decide (c = b)) as [->|Hcb].
    + rewrite Hb' in Hc. by injection Hc as <-.
    + rewrite put_lookup_ne in Hc by done. destruct (caches blk cf) eqn:Ec; [|done]. exfalso. apply Hcb.
      apply caches_true in E as (? & ? & _). apply caches_true in Ec as (? & ? & _).
      apply (bi_uniq _ _ _ _ HI c b cf bf); congruence.
  - destruct (view_cases fs blk) as [(c & cf & Hc & Hcc & Hv)|[Hv Hno]].
    + rewrite Hv. apply (Hothers c cf); [|done|done]. intros ->. congruence.
    + rewrite Hv. apply (view_miss (put b bf' fs)). intros c cf Hc. destruct (decide (c = b)) as [->|Hcb].
      * rewrite Hb' in Hc. by injection Hc as <-.
      * rewrite put_lookup_ne in Hc by done. by apply (Hno c cf).
Qed.

(** With fewer than NBUF pins and locks some buffer is unused. *)
Lemma unused_buffer pid fs P L :
  binv pid fs P L -> (length L + length P < NBUF)%nat ->
  exists b bf, fs_buf fs !! b = Some bf /\ b_refcnt bf = 0.
Proof.
  intros HI Hlt.
  assert (Hs : exists Bs, length Bs = length P /\
    forall b bf, fs_buf fs !! b = Some bf -> b_dev bf = ROOTDEV -> b_blockno bf ∈ P -> b ∈ Bs).
  { pose proof (bi_pinned _ _ _ _ HI) as Hp. pose proof (bi_uniq _ _ _ _ HI) as Hu. clear -Hp Hu.
    induction P as [|blk P IH]; [exists []; split; [done|]; intros b bf _ _ Hin; by apply elem_of_nil in Hin|].
    destruct IH as (Bs & Hl & HB); [intros x Hx; apply Hp; by apply elem_of_cons; right|].
    destruct (Hp blk) as (b & bf & Hb & Hc); [by apply elem_of_cons; left|].
    exists (b :: Bs). split; [simpl; lia|]. intros c cf Hcl Hd [He|Hin]%elem_of_cons.
    - apply caches_true in Hc as (? & ? & _). apply elem_of_cons. left. apply (Hu c b cf bf); congruence.
    - apply elem_of_cons. right. by apply (HB c cf). }
  destruct Hs as (Bs & Hl & HB). destruct (bi_lru _ _ _ _ HI) as (order & _ & _ & Hlen).
  destruct (decide (Forall (fun b => b ∈ L.*1 ++ Bs) (seq 0 NBUF))) as [HF|HF].
  - exfalso. assert (Hsub : (length (seq 0 NBUF) <= length (L.*1 ++ Bs))%nat).
    { apply NoDup_incl_length; [apply seq_NoDup|]. intros x Hx. apply list_elem_of_In.
      rewrite Forall_forall in HF. apply HF. by apply list_elem_of_In. }
    rewrite length_seq, length_app, length_map in Hsub. lia.
  - apply not_Forall_Exists in HF; [|intros x; apply _]. apply Exists_exists in HF as (b & Hb & Hn).
    apply list_elem_of_In, in_seq in Hb. destruct (lookup_lt_is_Some_2 (fs_buf fs) b) as [bf Hbf]; [lia|].
    exists b, bf. split; [done|]. rewrite (bo_refcnt _ _ _ _ _ _ (bi_buf _ _ _ _ HI b bf Hbf)). unfold refs.
    cbn in Hn. rewrite elem_of_app in Hn. rewrite !decide_False; [done| |tauto].
    intros [? ?]. apply Hn. right. by apply (HB b bf).
Qed.

(** ** Scanning the ring *)

(** Following [link] from [x] visits [l]. *)
Fixpoint lchain (link : buf -> option nat) (fs : fsstate) (x : option nat) (l : list nat) : Prop :=
  match l with
  | [] => x = None
  | z :: l' => x = Some z /\ exists bf, fs_buf fs !! z = Some bf /\ lchain link fs (link bf) l'
  end.

Lemma seg_lchain_next fs x l : (forall z, z ∈ l -> (z < length (fs_buf fs))%nat) -> seg fs x l None ->
  lchain b_next fs (nx fs x) l.
Proof.
  revert x. induction l as [|z l IH]; intros x Hl; cbn [seg lchain]; [by intros [-> _]|].
  intros (-> & _ & Hs). split; [done|].
  destruct (lookup_lt_is_Some_2 (fs_buf fs) z) as [bf Hb]; [apply Hl; by apply elem_of_cons; left|].
  exists bf. split; [done|]. replace (b_next bf) with (nx fs (Some z)) by (cbn; by rewrite Hb).
  apply IH; [|done]. intros w Hw. apply Hl, elem_of_cons. by right.
Qed.

Lemma lchain_app link fs x l z l' : lchain link fs x (l ++ z :: l') ->
  exists bf, fs_buf fs !! z = Some bf /\ lchain link fs (link bf) l'.
Proof.
  revert x. induction l as [|y l IH]; intros x; cbn [app lchain]; [by intros [_ H]|].
  intros [_ (bf & _ & H)]. by apply (IH (link bf)).
Qed.

Lemma seg_lchain_prev fs y l : (forall z, z ∈ l -> (z < length (fs_buf fs))%nat) -> seg fs None l y ->
  lchain b_prev fs (pv fs y) (rev l).
Proof.
  revert y. induction l as [|z l IH] using rev_ind; intros y Hl; cbn [seg rev]; [by intros [_ ->]|].
  intros [H1 H2]%seg_app. rewrite rev_app_distr. cbn [rev app lchain]. destruct H2 as [_ ->]. split; [done|].
  destruct (lookup_lt_is_Some_2 (fs_buf fs) z) as [bf Hb].
  { apply Hl, elem_of_app. right. by apply elem_of_cons; left. }
  exists bf. split; [done|]. replace (b_prev bf) with (pv fs (Some z)) by (cbn; by rewrite Hb).
  apply IH; [|done]. intros w Hw. apply Hl, elem_of_app. by left.
Qed.

Lemma scan_run link test hit s : forall l x, lchain link (k_fs s) x l ->
  (exists l1 z l2 bf, l = l1 ++ z :: l2 /\ fs_buf (k_fs s) !! z = Some bf /\ test bf = true /\
     (forall y yf, y ∈ l1 -> fs_buf (k_fs s) !! y = Some yf -> test yf = false) /\
     forall r s', hit z s = Ret r s' -> runs (scan link test hit) (S (length l1)) x s (Ret r s')) \/
  ((forall y yf, y ∈ l -> fs_buf (k_fs s) !! y = Some yf -> test yf = false) /\
   runs (scan link test hit) (S (length l)) x s (Ret None s)).
Proof.
  induction l as [|z l IH]; intros x; cbn [lchain].
  - intros ->. right. split; [intros y yf Hy; by apply elem_of_nil in Hy|]. by constructor.
  - intros [-> (bf & Hb & Hc)].
    assert (Hg : get_buf z s = Ret bf s) by (unfold get_buf; by rewrite Hb).
    destruct (test bf) eqn:Et.
    + left. exists [], z, l, bf. split; [done|]. split; [done|]. split; [done|].
      split; [intros y yf Hy; by apply elem_of_nil in Hy|]. intros r s' Hh. constructor. unfold scan. krun. rewrite Et.
      by krun.
    + assert (Hstep : scan link test hit (Some z) s = Ret (inl (link bf)) s).
      { unfold scan. krun. by rewrite Et. }
      destruct (IH (link bf) Hc) as [(l1 & w & l2 & wf & -> & Hw & Htw & Hno & Hr)|[Hno Hr]].
      * left. exists (z :: l1), w, l2, wf. split; [done|]. split; [done|]. split; [done|]. split.
        -- intros y yf [->|Hy]%elem_of_cons Hyf; [congruence|by apply (Hno y yf)].
        -- intros r s' Hh. cbn [length]. apply (runs_step _ _ _ _ _ _ _ Hstep). by apply Hr.
      * right. split.
        -- intros y yf [->|Hy]%elem_of_cons Hyf; [congruence|by apply (Hno y yf)].
        -- cbn [length]. by apply (runs_step _ _ _ _ _ _ _ Hstep).
Qed.

Lemma lru_range fs order z : lru fs order -> z ∈ order -> (z < length (fs_buf fs))%nat.
Proof.
  intros (_ & HP & Hl) Hz. rewrite Hl. rewrite HP in Hz. apply list_elem_of_In, in_seq in Hz. lia.
Qed.

Lemma lru_length fs order : lru fs order -> length order = NBUF.
Proof. intros (_ & HP & _). by rewrite HP, length_seq. Qed.

Lemma lru_in fs order b bf : lru fs order -> fs_buf fs !! b = Some bf -> b ∈ order.
Proof.
  intros (_ & HP & Hl) Hb. rewrite HP. apply list_elem_of_In, in_seq. apply lookup_lt_Some in Hb. lia.
Qed.

(** ** [bget] and [bread] *)

(** The buffer as [bget] hands it out. *)
Definition locked_by (pid : Z) (bf : buf) : buf := set_b_lock (mkSleeplock 1 pid) bf.

Lemma own_put b bf pid fs : fs_buf fs !! b = Some bf -> own (SL_buf b) pid fs = put b (locked_by pid bf) fs.
Proof. intros Hb. exact (fbuf_put b bf (set_b_lock (mkSleeplock 1 pid)) fs Hb). Qed.

(** The end of both branches of [bget]. *)
Lemma bget_hit p pr s b bf f :
  alone p pr s -> fs_buf (k_fs s) !! b = Some bf -> b_lock bf = mkSleeplock 0 0 -> b_lock (f bf) = b_lock bf ->
  (upd_buf b f ;;; release Lk_bcache ;;; acquiresleep (SL_buf b) ;;; ret (Some b)) (set_k_held [Lk_bcache] s)
  = Ret (Some b) (set_k_fs (put b (locked_by (p_pid pr) (f bf)) (k_fs s)) s).
Proof.
  intros (Hh & Hc & Hpr & _) Hb Hl Hf. unfold upd_buf, upd_fs. krun. rewrite (fbuf_put b bf f _ Hb).
  set (s1 := set_k_held [] _).
  pose proof (put_lookup b (f bf) (k_fs s) bf Hb) as Hb1.
  assert (E : acquiresleep (SL_buf b) s1 = Ret tt (set_k_fs (own (SL_buf b) (p_pid pr) (k_fs s1)) s1)).
  { apply (acquiresleep_run _ (mkSleeplock 0 0) _ p); [|done|done|done|done].
    unfold s1. kred. cbn [slk_of]. rewrite Hb1. cbn. by rewrite Hf, Hl. }
  krun. unfold s1. kred. f_equal. rewrite (own_put b (f bf) _ _ Hb1), put_put, <- Hh. by destruct s.
Qed.

(** What [bget] returns: the buffer that has the block, or else the least
    recently used of the unused ones. *)
Lemma bget_run p pr s P L blk :
  alone p pr s -> binv (p_pid pr) (k_fs s) P L -> blk ∉ L.*2 ->
  blk ∈ P \/ (length L + length P < NBUF)%nat ->
  exists b bf bf', fs_buf (k_fs s) !! b = Some bf /\
    bget ROOTDEV blk s = Ret b (set_k_fs (put b (locked_by (p_pid pr) bf') (k_fs s)) s) /\ (b ∉ L.*1) /\
    ((b_dev bf = ROOTDEV /\ b_blockno bf = blk /\ bf' = set_b_refcnt (b_refcnt bf + 1) bf) \/
     (b_refcnt bf = 0 /\
      (forall c cf, fs_buf (k_fs s) !! c = Some cf -> ~ (b_dev cf = ROOTDEV /\ b_blockno cf = blk)) /\
      bf' = set_b_refcnt 1 (set_b_valid 0 (set_b_blockno blk (set_b_dev ROOTDEV bf))))).
Proof.
  intros Hal HI Hblk Hroom. pose proof Hal as (Hh & Hc & Hpr & _).
  destruct (bi_lru _ _ _ _ HI) as (order & Hlru).
  assert (Hrange : forall z, z ∈ order -> (z < length (fs_buf (k_fs s)))%nat) by (intros z; by apply lru_range).
  pose proof (lru_length _ _ Hlru) as Hlen.
  unfold bget. krun. rewrite Hh. set (s1 := set_k_held [Lk_bcache] s).
  assert (Hnl : forall z zf, fs_buf (k_fs s) !! z = Some zf ->
            (b_dev zf = ROOTDEV /\ b_blockno zf = blk) \/ b_refcnt zf = 0 -> z ∉ L.*1).
  { intros z zf Hz Hor Hin. apply list_elem_of_fmap in Hin as ([z' bz] & -> & Hin). cbn [fst] in *.
    destruct Hor as [[H1 H2]|Hr].
    - destruct (bi_held _ _ _ _ HI z' bz Hin) as (zf' & Hz' & Hc'). rewrite Hz in Hz'. injection Hz' as <-.
      apply caches_true in Hc' as (_ & Hbz & _). apply Hblk. apply list_elem_of_fmap. exists (z', bz). split; [cbn; congruence|done].
    - rewrite (bo_refcnt _ _ _ _ _ _ (bi_buf _ _ _ _ HI z' zf Hz)) in Hr. unfold refs in Hr.
      rewrite decide_True in Hr by (apply list_elem_of_fmap; by exists (z', bz)). destruct (decide _); lia. }
  assert (Hfree : forall z zf, fs_buf (k_fs s) !! z = Some zf -> z ∉ L.*1 -> b_lock zf = mkSleeplock 0 0).
  { intros z zf Hz Hn. rewrite (bo_lock _ _ _ _ _ _ (bi_buf _ _ _ _ HI z zf Hz)). by rewrite decide_False. }
  pose proof (seg_lchain_next (k_fs s) None order Hrange (proj1 Hlru)) as Hnext.
  match goal with |- context [loop (scan b_next ?test ?hit) _] =>
    destruct (scan_run b_next test hit s1 order (nx (k_fs s) None) Hnext)
      as [(l1 & z & l2 & zf & -> & Hz & Ht & _ & Hr)|[Hno Hr]] end.
  - apply andb_true_iff in Ht as [Hd%Z.eqb_eq Hbn%Z.eqb_eq]. change (k_fs s1) with (k_fs s) in Hz.
    pose proof (Hnl z zf Hz (or_introl (conj Hd Hbn))) as HzL.
    specialize (Hr _ _ (bget_hit p pr s z zf (fun bf => set_b_refcnt (u32 (b_refcnt bf + 1)) bf) Hal Hz (Hfree z zf Hz HzL) eq_refl)).
    apply loop_runs in Hr; [|rewrite length_app in Hlen; simpl in *; unfold NBUF in *; lia].
    krun. exists z, zf. eexists. split; [done|]. split; [done|]. split; [done|]. left. split; [done|]. split; [done|].
    f_equal. rewrite u32_small; [done|].
    rewrite (bo_refcnt _ _ _ _ _ _ (bi_buf _ _ _ _ HI z zf Hz)). unfold refs. destruct (decide _), (decide _); lia.
  - apply loop_runs in Hr; [|rewrite Hlen; unfold NBUF; lia]. krun.
    assert (Hno' : forall c cf, fs_buf (k_fs s) !! c = Some cf -> ~ (b_dev cf = ROOTDEV /\ b_blockno cf = blk)).
    { intros c cf Hcf [H1 H2]. specialize (Hno c cf (lru_in _ _ _ _ Hlru Hcf) Hcf). cbn in Hno.
      rewrite H1, H2, !Z.eqb_refl in Hno. discriminate. }
    pose proof (seg_lchain_prev (k_fs s) None order Hrange (proj1 Hlru)) as Hprev. clear Hr.
    match goal with |- context [loop (scan b_prev ?test ?hit) _] =>
      destruct (scan_run b_prev test hit s1 (rev order) (pv (k_fs s) None) Hprev)
        as [(l1 & z & l2 & zf & Hrev & Hz & Ht & _ & Hr)|[Hno2 _]] end.
    + apply Z.eqb_eq in Ht. change (k_fs s1) with (k_fs s) in Hz. pose proof (Hnl z zf Hz (or_intror Ht)) as HzL.
      specialize (Hr _ _ (bget_hit p pr s z zf
        (fun bf => set_b_refcnt 1 (set_b_valid 0 (set_b_blockno blk (set_b_dev ROOTDEV bf)))) Hal Hz (Hfree z zf Hz HzL) eq_refl)).
      apply loop_runs in Hr.
      2:{ rewrite <- length_rev, Hrev, length_app in Hlen. simpl in *. unfold NBUF in *. lia. }
      change (k_fs s1) with (k_fs s). krun. exists z, zf. eexists. split; [done|]. split; [done|]. split; [done|]. by right.
    + exfalso. destruct Hroom as [HbP|Hroom].
      { destruct (bi_pinned _ _ _ _ HI blk HbP) as (c & cf & Hcf & (? & ? & _)%caches_true). by apply (Hno' c cf Hcf). }
      destruct (unused_buffer _ _ _ _ HI Hroom) as (b & bf & Hb & Hz).
      assert (Hx : (b_refcnt bf =? 0) = false).
      { apply (Hno2 b bf); [|done]. rewrite <- (Permutation_rev order). by apply (lru_in _ _ _ _ Hlru Hb). }
      by rewrite Hz in Hx.
Qed.

(** A buffer that has been found or recycled for block [blk]. *)
Definition obtained (fs : fsstate) (blk : Z) (bf bf' : buf) : Prop :=
  (b_dev bf = ROOTDEV /\ b_blockno bf = blk /\ b_refcnt bf' = b_refcnt bf + 1) \/
  (b_refcnt bf = 0 /\
   (forall c cf, fs_buf fs !! c = Some cf -> ~ (b_dev cf = ROOTDEV /\ b_blockno cf = blk)) /\ b_refcnt bf' = 1).

Lemma length_view pid fs P L blk : binv pid fs P L -> length (view fs blk) = Z.to_nat BSIZE.
Proof.
  intros HI. destruct (view_cases fs blk) as [(b & bf & Hb & _ & ->)|[-> _]].
  - apply (bo_len _ _ _ _ _ _ (bi_buf _ _ _ _ HI b bf Hb)).
  - apply (bi_disk _ _ _ _ HI).
Qed.

Lemma obtained_binv pid fs P L b bf bf' blk :
  binv pid fs P L -> fs_buf fs !! b = Some bf -> b ∉ L.*1 ->
  obtained fs blk bf bf' -> caches blk bf' = true -> b_data bf' = view fs blk ->
  b_lock bf' = mkSleeplock 1 pid -> b_next bf' = b_next bf -> b_prev bf' = b_prev bf -> b_disk bf' = 0 ->
  binv pid (put b bf' fs) P ((b, blk) :: L).
Proof.
  intros HI Hb HbL Hob Hc Hdata Hlock Hn Hp Hdisk. pose proof Hc as (Hd & Hbn & Hv)%caches_true.
  pose proof (bo_refcnt _ _ _ _ _ _ (bi_buf _ _ _ _ HI b bf Hb)) as Hrefs. unfold refs in Hrefs.
  rewrite (decide_False (P := b ∈ L.*1)) in Hrefs by done.
  assert (Hr : b_refcnt bf' = refs P ((b, blk) :: L) b bf').
  { unfold refs. rewrite decide_True by (by apply elem_of_cons; left). rewrite Hd, Hbn.
    destruct Hob as [(H1 & H2 & ->)|(H1 & H2 & ->)].
    - rewrite Hrefs, H1, H2. lia.
    - rewrite decide_False; [done|]. intros [_ Hin]. destruct (bi_pinned _ _ _ _ HI blk Hin) as (c & cf & Hcl & Hcc).
      apply caches_true in Hcc as (? & ? & _). by apply (H2 c cf Hcl). }
  apply (binv_put pid fs P L b bf); try done.
  - constructor; [rewrite Hdata; by apply (length_view pid fs P L)|done| |done|].
    + rewrite decide_True by (by apply elem_of_cons; left). done.
    + intros Hz. rewrite Hr in Hz. unfold refs in Hz. rewrite decide_True in Hz by (by apply elem_of_cons; left).
      destruct (decide (b_dev bf' = ROOTDEV /\ b_blockno bf' ∈ P)) in Hz; lia.
  - intros c cf Hcb Hcl Hcd _ He. destruct Hob as [(H1 & H2 & _)|(_ & H2 & _)].
    + apply Hcb. apply (bi_uniq _ _ _ _ HI c b cf bf); congruence.
    + apply (H2 c cf Hcl). split; congruence.
  - intros c Hcb. cbn. rewrite elem_of_cons. split; [by intros [?|?]|by right].
  - intros c k Hin. apply elem_of_cons in Hin as [[= -> ->]|Hin].
    + by rewrite decide_True.
    + rewrite decide_False; [done|]. intros ->. apply HbL. apply list_elem_of_fmap. by exists (b, k).
  - intros k Hk. destruct (caches k bf') eqn:Ek; [by left|]. right. split; [done|].
    destruct (caches k bf) eqn:Ekb; [|done]. apply caches_true in Ekb as (E1 & E2 & E3). exfalso.
    destruct Hob as [(H1 & H2 & _)|(H1 & _ & _)]; [|].
    + assert (k = blk) as -> by congruence. congruence.
    + rewrite H1, E1, E2 in Hrefs. rewrite decide_True in Hrefs by done. lia.
  - cbn. apply NoDup_cons. split; [done|]. apply (bi_L _ _ _ _ HI).
  - apply (bi_P _ _ _ _ HI).
Qed.

Lemma obtained_view pid fs P L b bf bf' blk k :
  binv pid fs P L -> binv pid (put b bf' fs) P ((b, blk) :: L) -> fs_buf fs !! b = Some bf ->
  obtained fs blk bf bf' -> caches blk bf' = true -> b_data bf' = view fs blk ->
  view (put b bf' fs) k = view fs k.
Proof.
  intros HI HI' Hb Hob Hc Hdata. pose proof Hc as (Hd & Hbn & Hv)%caches_true.
  rewrite (view_put pid fs P L b bf bf' _ _ k HI HI' Hb). destruct (caches k bf') eqn:Ek.
  - apply caches_true in Ek as (_ & <- & _). by rewrite Hdata, Hbn.
  - destruct (caches k bf) eqn:Ekb; [|done]. rewrite (view_hit _ _ _ _ _ _ _ HI Hb Ekb).
    apply caches_true in Ekb as (E1 & E2 & E3). destruct Hob as [(_ & H2 & _)|(H1 & _ & _)].
    + assert (k = blk) as -> by congruence. congruence.
    + rewrite <- E2. symmetry. by apply (bo_clean _ _ _ _ _ _ (bi_buf _ _ _ _ HI b bf Hb)).
Qed.

(** An operation that changes only the file system's state and the driver's. *)
Definition fsto (s : kstate) (fs : fsstate) (s' : kstate) : Prop :=
  exists vd, s' = set_k_vd vd (set_k_fs fs s) /\ disk_idle s'.

Lemma fsto_fs s fs s' : fsto s fs s' -> k_fs s' = fs.
Proof. intros (vd & -> & _). done. Qed.

Lemma fsto_trans s s1 s2 f1 f2 : fsto s f1 s1 -> fsto s1 f2 s2 -> fsto s f2 s2.
Proof. intros (v1 & -> & _) (v2 & -> & H2). by exists v2. Qed.

Lemma fsto_idle s fs s' : fsto s fs s' -> disk_idle s'.
Proof. by intros (vd & _ & H). Qed.

Lemma fsto_upd s fs : disk_idle s -> fsto s fs (set_k_fs fs s).
Proof. intros H. exists (k_vd s). split; [by destruct s|]. by apply (disk_idle_ext s). Qed.

Lemma alone_fsto p pr s fs s' : fsto s fs s' -> alone p pr s -> alone p pr s'.
Proof. by intros (vd & -> & _). Qed.

(** Reading a block gives a locked buffer with what readers see of it, and
    changes nothing that readers see. *)
Lemma bread_run p pr s P L blk :
  alone p pr s -> disk_idle s -> binv (p_pid pr) (k_fs s) P L -> blk ∉ L.*2 ->
  blk ∈ P \/ (length L + length P < NBUF)%nat -> disk_block blk ->
  exists b bf bf' s', fs_buf (k_fs s) !! b = Some bf /\ bread ROOTDEV blk s = Ret b s' /\
    fsto s (put b bf' (k_fs s)) s' /\ caches blk bf' = true /\ b_data bf' = view (k_fs s) blk /\
    binv (p_pid pr) (put b bf' (k_fs s)) P ((b, blk) :: L) /\
    (forall k, view (put b bf' (k_fs s)) k = view (k_fs s) k).
Proof.
  intros Hal Hidle HI Hblk Hroom Hdb.
  destruct (bget_run p pr s P L blk Hal HI Hblk Hroom) as (b & bf & bf1 & Hb & Eg & HbL & Hcase).
  set (bf2 := locked_by (p_pid pr) bf1) in *. set (s1 := set_k_fs (put b bf2 (k_fs s)) s) in *.
  pose proof (put_lookup b bf2 (k_fs s) bf Hb) as Hb2.
  assert (Hg : get_buf b s1 = Ret bf2 s1) by (unfold get_buf, s1; kred; by rewrite Hb2).
  assert (Hob : forall bf', b_refcnt bf' = b_refcnt bf2 -> obtained (k_fs s) blk bf bf').
  { intros bf' Hr. destruct Hcase as [(H1 & H2 & ->)|(H1 & H2 & ->)]; [left|right]; by rewrite Hr. }
  assert (Hdev : b_dev bf2 = ROOTDEV /\ b_blockno bf2 = blk).
  { destruct Hcase as [(H1 & H2 & ->)|(H1 & H2 & ->)]; done. }
  assert (Hlinks : b_next bf2 = b_next bf /\ b_prev bf2 = b_prev bf /\ b_disk bf2 = 0).
  { pose proof (bo_disk _ _ _ _ _ _ (bi_buf _ _ _ _ HI b bf Hb)).
    destruct Hcase as [(H1 & H2 & ->)|(H1 & H2 & ->)]; done. }
  destruct Hdev as [Hd Hbn], Hlinks as (Hn & Hp & Hdk).
  unfold bread. krun. destruct (Z.eqb_spec (b_valid bf2) 0) as [Hv|Hv].
  - set (bf3 := set_b_valid 1 (set_b_data (fs_disk (k_fs s) blk) bf2)).
    assert (Hal1 : alone p pr s1) by exact Hal.
    destruct (disk_rw_law p pr s1 b bf2 false Hal1) as (vd & Erw & Hid); [by apply (disk_idle_ext s)|exact Hb2|done|by rewrite Hbn|].
    krun. unfold upd_buf, upd_fs. krun.
    assert (Hf : fbuf b (set_b_valid 1) (xfer b bf2 false (k_fs s1)) = put b bf3 (k_fs s)).
    { unfold s1, xfer. kred. rewrite Hbn. change (fs_disk (put b bf2 (k_fs s)) blk) with (fs_disk (k_fs s) blk).
      rewrite (fbuf_put b bf2 _ _ Hb2), put_put. erewrite (fbuf_put b) by (by apply (put_lookup b _ _ bf)). by rewrite put_put. }
    rewrite Hf. assert (Hc3 : caches blk bf3 = true) by (by apply caches_true).
    assert (Hview : b_data bf3 = view (k_fs s) blk).
    { symmetry. apply view_miss. intros c cf Hcl. destruct (caches blk cf) eqn:Ec; [|done].
      apply caches_true in Ec as (E1 & E2 & E3). exfalso. destruct Hcase as [(H1 & H2 & E)|(_ & H2 & _)].
      - assert (c = b) as -> by (apply (bi_uniq _ _ _ _ HI c b cf bf); congruence).
        assert (cf = bf) as -> by congruence. apply E3. rewrite <- Hv. unfold bf2. by rewrite E.
      - by apply (H2 c cf Hcl). }
    assert (HI3 : binv (p_pid pr) (put b bf3 (k_fs s)) P ((b, blk) :: L)).
    { apply (obtained_binv _ _ _ _ b bf); try done. by apply Hob. }
    exists b, bf, bf3. eexists. split; [done|]. split; [done|]. split; [|split; [done|split; [done|split; [done|]]]].
    + exists vd. split; [by destruct s|]. by apply (disk_idle_ext (set_k_vd vd s1)).
    + intros k. apply (obtained_view (p_pid pr) (k_fs s) P L b bf bf3 blk k); try done. by apply Hob.
  - krun. assert (Hc2 : caches blk bf2 = true) by (by apply caches_true).
    assert (Hview : b_data bf2 = view (k_fs s) blk).
    { destruct Hcase as [(H1 & H2 & E)|(H1 & H2 & E)]; [|exfalso; apply Hv; unfold bf2; by rewrite E].
      rewrite (view_hit _ _ _ _ b bf blk HI Hb); [unfold bf2; by rewrite E|]. apply caches_true. split; [done|]. split; [done|].
      intros Hz. apply Hv. unfold bf2. by rewrite E. }
    assert (HI2 : binv (p_pid pr) (put b bf2 (k_fs s)) P ((b, blk) :: L)).
    { apply (obtained_binv _ _ _ _ b bf); try done. by apply Hob. }
    exists b, bf, bf2. eexists. split; [done|]. split; [done|]. split; [by apply fsto_upd|].
    split; [done|]. split; [done|]. split; [done|].
    intros k. apply (obtained_view (p_pid pr) (k_fs s) P L b bf bf2 blk k); try done. by apply Hob.
Qed.

(** ** Releasing, writing, pinning *)

(** Everything of a buffer but its links. *)
Definition nolinks (bf : buf) : buf := set_b_next None (set_b_prev None bf).

Definition relinked (fs fs' : fsstate) : Prop :=
  map nolinks (fs_buf fs') = map nolinks (fs_buf fs) /\
  exists bs h t, fs' = set_fs_head_next h (set_fs_head_prev t (set_fs_buf bs fs)).

Lemma relinked_refl fs : relinked fs fs.
Proof. split; [done|]. exists (fs_buf fs), (fs_head_next fs), (fs_head_prev fs). by destruct fs. Qed.

Lemma relinked_trans f1 f2 f3 : relinked f1 f2 -> relinked f2 f3 -> relinked f1 f3.
Proof.
  intros [H1 (b1 & h1 & t1 & E1)] [H2 (b2 & h2 & t2 & E2)]. split; [congruence|]. exists b2, h2, t2.
  rewrite E2, E1. by destruct f1.
Qed.

Lemma map_nolinks_alter f b l : (forall bf, nolinks (f bf) = nolinks bf) -> map nolinks (alter f b l) = map nolinks l.
Proof.
  intros Hf. revert b. induction l as [|x l IH]; intros [|b]; simpl; try done; f_equal; [by apply Hf|apply IH].
Qed.

Lemma relinked_nx fs x v : relinked fs (set_nx x v fs).
Proof.
  destruct x as [b|]; split; try done; try by apply map_nolinks_alter.
  - exists (alter (set_b_next v) b (fs_buf fs)), (fs_head_next fs), (fs_head_prev fs). by destruct fs.
  - exists (fs_buf fs), v, (fs_head_prev fs). by destruct fs.
Qed.

Lemma relinked_pv fs x v : relinked fs (set_pv x v fs).
Proof.
  destruct x as [b|]; split; try done; try by apply map_nolinks_alter.
  - exists (alter (set_b_prev v) b (fs_buf fs)), (fs_head_next fs), (fs_head_prev fs). by destruct fs.
  - exists (fs_buf fs), (fs_head_next fs), v. by destruct fs.
Qed.

Lemma relinked_relink b fs : relinked fs (push_front b (unlink b fs)).
Proof.
  unfold push_front, unlink. cbv zeta. repeat (eapply relinked_trans; [|first [apply relinked_nx|apply relinked_pv]]).
  apply relinked_refl.
Qed.

Lemma relinked_lookup fs fs' b bf' : relinked fs fs' -> fs_buf fs' !! b = Some bf' ->
  exists bf, fs_buf fs !! b = Some bf /\ nolinks bf' = nolinks bf.
Proof.
  intros [Hm _] Hb. assert (H : map nolinks (fs_buf fs) !! b = Some (nolinks bf')).
  { rewrite <- Hm, list_lookup_fmap, Hb. done. }
  rewrite list_lookup_fmap in H. destruct (fs_buf fs !! b) as [bf|]; [|done]. exists bf. split; [done|].
  by apply (inj Some) in H.
Qed.

Lemma relinked_sym fs fs' : relinked fs fs' -> relinked fs' fs.
Proof.
  intros [H (b & h & t & E)]. split; [done|]. exists (fs_buf fs), (fs_head_next fs), (fs_head_prev fs).
  rewrite E. by destruct fs.
Qed.

(** The fields of buffers that differ in their links at most. *)
Lemma nolinks_fields bf bf' : nolinks bf' = nolinks bf ->
  b_data bf' = b_data bf /\ b_disk bf' = b_disk bf /\ b_lock bf' = b_lock bf /\ b_refcnt bf' = b_refcnt bf /\
  b_dev bf' = b_dev bf /\ b_blockno bf' = b_blockno bf /\ b_valid bf' = b_valid bf.
Proof. destruct bf, bf'. unfold nolinks. cbn. intros E. by simplify_eq. Qed.

Lemma nolinks_caches blk bf bf' : nolinks bf' = nolinks bf -> caches blk bf' = caches blk bf.
Proof. intros (_ & _ & _ & _ & E1 & E2 & E3)%nolinks_fields. unfold caches. by rewrite E1, E2, E3. Qed.

Lemma relinked_disk fs fs' : relinked fs fs' -> fs_disk fs' = fs_disk fs.
Proof. intros [_ (b & h & t & ->)]. done. Qed.

Lemma binv_relinked pid fs fs' P L order :
  binv pid fs P L -> relinked fs fs' -> lru fs' order -> binv pid fs' P L.
Proof.
  intros [_ Hdisk Huniq Hbuf Hheld Hpin HL HP] Hr Hl. pose proof (relinked_disk _ _ Hr) as Hd.
  constructor; [by exists order|by rewrite Hd| | | | |done|done].
  - intros b c bf cf Hb Hc. destruct (relinked_lookup _ _ _ _ Hr Hb) as (bf0 & Hb0 & Eb).
    destruct (relinked_lookup _ _ _ _ Hr Hc) as (cf0 & Hc0 & Ec).
    apply nolinks_fields in Eb as (_ & _ & _ & _ & -> & -> & _). apply nolinks_fields in Ec as (_ & _ & _ & _ & -> & -> & _).
    by apply Huniq.
  - intros b bf Hb. destruct (relinked_lookup _ _ _ _ Hr Hb) as (bf0 & Hb0 & Eb).
    destruct (Hbuf b bf0 Hb0) as [H1 H2 H3 H4 H5]. apply nolinks_fields in Eb as (E1 & E2 & E3 & E4 & E5 & E6 & E7).
    constructor; rewrite ?Hd, ?E1, ?E2, ?E3, ?E4, ?E5, ?E6, ?E7; try done. unfold refs. by rewrite E5, E6.
  - intros b blk Hin. destruct (Hheld b blk Hin) as (bf & Hb & Hc).
    destruct (relinked_lookup _ _ _ _ (relinked_sym _ _ Hr) Hb) as (bf' & Hb' & E).
    exists bf'. split; [done|]. by rewrite <- (nolinks_caches blk _ _ E).
  - intros blk Hin. destruct (Hpin blk Hin) as (b & bf & Hb & Hc).
    destruct (relinked_lookup _ _ _ _ (relinked_sym _ _ Hr) Hb) as (bf' & Hb' & E).
    exists b, bf'. split; [done|]. by rewrite <- (nolinks_caches blk _ _ E).
Qed.

Lemma view_relinked pid fs fs' P L P' L' blk :
  binv pid fs P L -> binv pid fs' P' L' -> relinked fs fs' -> view fs' blk = view fs blk.
Proof.
  intros HI HI' Hr. destruct (view_cases fs' blk) as [(b & bf' & Hb' & Hc' & ->)|[-> Hno]].
  - destruct (relinked_lookup _ _ _ _ Hr Hb') as (bf & Hb & E).
    rewrite (view_hit _ _ _ _ _ _ _ HI Hb) by (by rewrite <- (nolinks_caches blk _ _ E)).
    by apply nolinks_fields in E as (-> & _).
  - rewrite (relinked_disk _ _ Hr). symmetry. apply view_miss. intros b bf Hb.
    destruct (relinked_lookup _ _ _ _ (relinked_sym _ _ Hr) Hb) as (bf' & Hb' & E).
    rewrite (nolinks_caches blk _ _ E). by apply (Hno b bf').
Qed.

(** Moving a buffer to the front of the ring. *)
Lemma lru_relink fs order b bf :
  lru fs order -> fs_buf fs !! b = Some bf -> exists order', lru (push_front b (unlink b fs)) (b :: order').
Proof.
  intros Hl Hb. pose proof (lru_in _ _ _ _ Hl Hb) as Hin. apply list_elem_of_split in Hin as (A & C & ->).
  pose proof Hl as (Hs & HP & Hlen). exists (A ++ C).
  assert (Hnd : NoDup (A ++ b :: C)) by (rewrite HP; apply NoDup_seq).
  assert (Hr : forall z, z ∈ A ++ b :: C -> bptr fs (Some z)) by (intros z; by apply (lru_range fs _ z)).
  assert (HF : Forall (bptr fs) (map Some (A ++ b :: C))).
  { apply Forall_forall. intros x (z & -> & Hz)%list_elem_of_fmap. by apply Hr. }
  assert (Hrl : relinked fs (unlink b fs)).
  { unfold unlink. cbv zeta. eapply relinked_trans; [apply relinked_pv|apply relinked_nx]. }
  assert (Hlb : forall fs', relinked fs fs' -> length (fs_buf fs') = length (fs_buf fs)).
  { intros fs' [Hm _]. apply (f_equal length) in Hm. by rewrite !length_map in Hm. }
  assert (Hperm : Permutation (b :: A ++ C) (seq 0 NBUF)) by (rewrite <- HP; apply Permutation_middle).
  split; [|split; [done|rewrite (Hlb _ (relinked_relink b fs)); done]].
  apply push_front_seg.
  - apply unlink_seg; [done| | |by rewrite !Forall_cons].
    + apply NoDup_cons. split; [|by apply (NoDup_fmap_2 Some)].
      intros (z & Hz & _)%list_elem_of_fmap. discriminate.
    + intros (z & Hz & _)%list_elem_of_fmap. discriminate.
  - rewrite Hperm. apply NoDup_seq.
  - apply Forall_forall. intros x (z & -> & Hz)%list_elem_of_fmap. unfold bptr. rewrite (Hlb _ Hrl).
    apply (Hr z). revert Hz. rewrite elem_of_cons, !elem_of_app, elem_of_cons. tauto.
Qed.

Lemma releasesleep_alone p pr s lk :
  alone p pr s -> releasesleep lk s = Ret tt (set_k_fs (set_slk (fun _ => mkSleeplock 0 0) lk (k_fs s)) s).
Proof.
  intros (Hh & Hc & Hpr & Hst & Hch & Hlen & Hq). unfold releasesleep, upd_slk. krun.
  rewrite set_slk_compose, Hh. set (s1 := set_k_fs _ _).
  assert (E : wakeup (slk_chan lk) s1 = Ret tt s1).
  { apply wakeup_none; [done| |].
    - intros i. apply not_elem_of_cons. split; [destruct lk; discriminate|apply not_elem_of_nil].
    - intros q qr Hqr Hcq. specialize (Hq q qr _ Hqr Hcq). by destruct lk. }
  krun. unfold s1. krun. rewrite <- Hh. by destruct s.
Qed.

Lemma holdingsleep_held p pr s b bf :
  alone p pr s -> fs_buf (k_fs s) !! b = Some bf -> b_lock bf = mkSleeplock 1 (p_pid pr) ->
  holdingsleep (SL_buf b) s = Ret 1 s.
Proof.
  intros (Hh & Hc & Hpr & _) Hb Hl. rewrite (holdingsleep_run _ (mkSleeplock 1 (p_pid pr)) s p pr); [|cbn|..|done].
  - cbn [sl_locked sl_pid]. by rewrite Z.eqb_refl.
  - by rewrite Hb, <- Hl.
  - rewrite Hh. apply not_elem_of_nil.
  - done.
Qed.

(** The facts about a buffer the process has locked. *)
Lemma held_buffer pid fs P L b blk :
  binv pid fs P L -> (b, blk) ∈ L ->
  exists bf, fs_buf fs !! b = Some bf /\ caches blk bf = true /\ b_lock bf = mkSleeplock 1 pid /\ b_disk bf = 0 /\
    b_data bf = view fs blk /\ b_refcnt bf = 1 + (if decide (blk ∈ P) then 1 else 0).
Proof.
  intros HI Hin. destruct (bi_held _ _ _ _ HI b blk Hin) as (bf & Hb & Hc). exists bf.
  assert (HbL : b ∈ L.*1) by (apply list_elem_of_fmap; by exists (b, blk)).
  destruct (bi_buf _ _ _ _ HI b bf Hb) as [H1 H2 H3 H4 H5]. rewrite decide_True in H3 by done.
  split; [done|]. split; [done|]. split; [done|]. split; [done|]. split; [symmetry; by apply (view_hit _ _ _ _ _ _ _ HI Hb)|].
  rewrite H4. unfold refs. rewrite decide_True by done. f_equal. apply caches_true in Hc as (-> & -> & _).
  by destruct (decide (blk ∈ P)), (decide (ROOTDEV = ROOTDEV /\ blk ∈ P)); try tauto.
Qed.

(** Dropping the lock and the reference that goes with it. *)
Lemma binv_drop pid fs P L b blk bf :
  binv pid fs P ((b, blk) :: L) -> fs_buf fs !! b = Some bf -> blk ∈ P \/ view fs blk = fs_disk fs blk ->
  let bf' := set_b_refcnt (u32 (b_refcnt bf - 1)) (set_b_lock (mkSleeplock 0 0) bf) in
  binv pid (put b bf' fs) P L /\ (forall k, view (put b bf' fs) k = view fs k).
Proof.
  intros HI Hb Hcl bf'.
  destruct (held_buffer _ _ _ _ b blk HI) as (bf0 & Hb0 & Hc & _ & Hdk & Hdata & Hr); [by apply elem_of_cons; left|].
  assert (bf0 = bf) as -> by congruence. clear Hb0. pose proof Hc as (Hd & Hbn & Hv)%caches_true.
  pose proof (bi_L _ _ _ _ HI) as HndL. cbn in HndL. apply NoDup_cons in HndL as [HbL HndL].
  assert (Hr' : b_refcnt bf' = if decide (blk ∈ P) then 1 else 0).
  { unfold bf'. cbn. rewrite Hr. rewrite u32_small; destruct (decide _); lia. }
  assert (HI' : binv pid (put b bf' fs) P L).
  { apply (binv_put pid fs P ((b, blk) :: L) b bf); try done.
    - constructor; try done.
      + by apply (bo_len _ _ _ _ _ _ (bi_buf _ _ _ _ HI b bf Hb)).
      + by rewrite decide_False.
      + rewrite Hr'. unfold refs. rewrite (decide_False (P := b ∈ L.*1)) by done. cbn. rewrite Hd, Hbn.
        by destruct (decide (blk ∈ P)), (decide (ROOTDEV = ROOTDEV /\ blk ∈ P)); try tauto.
      + intros Hz _ _. rewrite Hr' in Hz. destruct (decide (blk ∈ P)) as [|HnP]; [done|].
        change (b_data bf = fs_disk fs (b_blockno bf)). rewrite Hbn, Hdata. destruct Hcl; [done|done].
    - intros c cf Hcb Hcf Hcd _ He. apply Hcb. apply (bi_uniq _ _ _ _ HI c b cf bf); [done|done|done|done|exact He].
    - intros c Hcb. cbn. rewrite elem_of_cons. split; [by right|by intros [?|?]].
    - intros c k Hin. destruct (decide (c = b)) as [->|Hcb]; [|by apply elem_of_cons; right].
      exfalso. apply HbL. apply list_elem_of_fmap. by exists (b, k).
    - intros k Hk. destruct (caches k bf') eqn:E; [by left|right; by split].
    - apply (bi_P _ _ _ _ HI). }
  split; [done|]. intros k. rewrite (view_put pid fs _ _ b bf bf' _ _ k HI HI' Hb).
  change (caches k bf') with (caches k bf). destruct (caches k bf) eqn:E; [|done].
  symmetry. by apply (view_hit _ _ _ _ _ _ _ HI Hb).
Qed.

(** [brelse] of a buffer that is pinned or whose contents are on disk. *)
Lemma brelse_run p pr s P L b blk :
  alone p pr s -> disk_idle s -> binv (p_pid pr) (k_fs s) P ((b, blk) :: L) ->
  blk ∈ P \/ view (k_fs s) blk = fs_disk (k_fs s) blk ->
  exists s' fs', brelse b s = Ret tt s' /\ fsto s fs' s' /\ binv (p_pid pr) fs' P L /\
    (forall k, view fs' k = view (k_fs s) k) /\
    exists bs h t, fs' = set_fs_head_next h (set_fs_head_prev t (set_fs_buf bs (k_fs s))).
Proof.
  intros Hal Hidle HI Hcl.
  destruct (held_buffer _ _ _ _ b blk HI) as (bf & Hb & Hc & Hlk & _); [by apply elem_of_cons; left|].
  pose proof (holdingsleep_held p pr s b bf Hal Hb Hlk) as Eh.
  pose proof (releasesleep_alone p pr s (SL_buf b) Hal) as Er.
  unfold brelse. krun. cbn [Z.eqb]. krun.
  change (set_slk (fun _ => mkSleeplock 0 0) (SL_buf b) (k_fs s)) with (fbuf b (set_b_lock (mkSleeplock 0 0)) (k_fs s)).
  rewrite (fbuf_put b bf _ _ Hb). set (bf1 := set_b_lock _ bf).
  pose proof Hal as (Hh & _). rewrite (bind_Ret (acquire Lk_bcache) _ _ tt (set_k_held [Lk_bcache] (set_k_fs (put b bf1 (k_fs s)) s))).
  2:{ rewrite acquire_free; kred; rewrite Hh; [done|apply not_elem_of_nil]. }
  unfold upd_buf, upd_fs. krun. rewrite (fbuf_put b bf1) by (by apply (put_lookup b _ _ bf)). rewrite put_put.
  set (bf2 := set_b_refcnt _ bf1). destruct (binv_drop _ _ _ _ b blk bf HI Hb Hcl) as [HI2 Hv2].
  change (set_b_refcnt (u32 (b_refcnt bf - 1)) (set_b_lock (mkSleeplock 0 0) bf)) with bf2 in HI2, Hv2.
  set (s2 := set_k_fs (put b bf2 (k_fs s)) (set_k_held _ _)).
  pose proof (put_lookup b bf2 (k_fs s) bf Hb) as Hb2.
  assert (Hg : get_buf b s2 = Ret bf2 s2) by (unfold get_buf, s2; kred; by rewrite Hb2). krun.
  destruct (b_refcnt bf2 =? 0).
  - krun. destruct (bi_lru _ _ _ _ HI2) as [order Hl]. destruct (lru_relink _ order b bf2 Hl Hb2) as [o' Hl'].
    set (fs' := push_front b (unlink b (put b bf2 (k_fs s)))).
    assert (HI3 : binv (p_pid pr) fs' P L) by (by apply (binv_relinked _ _ fs' _ _ _ HI2 (relinked_relink b _) Hl')).
    eexists _, fs'. split; [reflexivity|]. split; [|split; [done|split]].
    + exists (k_vd s). split; [unfold s2; rewrite <- Hh; by destruct s|].
      by apply (disk_idle_ext s).
    + intros k. rewrite <- Hv2. by apply (view_relinked (p_pid pr) _ fs' _ _ _ _ k HI2 HI3), relinked_relink.
    + destruct (relinked_relink b (put b bf2 (k_fs s))) as [_ (bs & h & t & E)]. exists bs, h, t.
      unfold fs'. rewrite E. by destruct (k_fs s).
  - krun. unfold s2. krun. eexists _, (put b bf2 (k_fs s)). split; [reflexivity|].
    split; [|split; [done|split; [done|]]].
    + exists (k_vd s). split; [rewrite <- Hh; by destruct s|]. by apply (disk_idle_ext s).
    + exists (<[b := bf2]> (fs_buf (k_fs s))), (fs_head_next (k_fs s)), (fs_head_prev (k_fs s)). by destruct (k_fs s).
Qed.

Lemma binv_perm pid fs P P' L L' : Permutation P P' -> Permutation L L' -> binv pid fs P L -> binv pid fs P' L'.
Proof.
  intros HP HL [H1 H2 H3 H4 H5 H6 H7 H8].
  assert (HL1 : forall b, b ∈ L'.*1 <-> b ∈ L.*1) by (intros b; by rewrite HL).
  constructor; try done.
  - intros b bf Hb. destruct (H4 b bf Hb) as [G1 G2 G3 G4 G5]. constructor; try done.
    + rewrite G3. by destruct (decide (b ∈ L.*1)), (decide (b ∈ L'.*1)); rewrite ?HL1 in *.
    + rewrite G4. unfold refs. f_equal.
      * by destruct (decide (b ∈ L.*1)), (decide (b ∈ L'.*1)); rewrite ?HL1 in *.
      * destruct (decide (b_dev bf = ROOTDEV /\ b_blockno bf ∈ P)) as [[? Hx]|Hn],
          (decide (b_dev bf = ROOTDEV /\ b_blockno bf ∈ P')) as [[? Hy]|Hn']; try done.
        -- exfalso. apply Hn'. by rewrite <- HP.
        -- exfalso. apply Hn. by rewrite HP.
  - intros b blk Hin. apply H5. by rewrite HL.
  - intros blk Hin. apply H6. by rewrite HP.
  - by rewrite <- HL.
  - by rewrite <- HP.
Qed.

(** [bwrite] puts on disk what readers see. *)
Lemma bwrite_run p pr s P L b blk :
  alone p pr s -> disk_idle s -> binv (p_pid pr) (k_fs s) P L -> (b, blk) ∈ L -> disk_block blk ->
  exists s' fs', bwrite b s = Ret tt s' /\ fsto s fs' s' /\ binv (p_pid pr) fs' P L /\
    (forall k, view fs' k = view (k_fs s) k) /\
    fs' = set_fs_writes ((blk, view (k_fs s) blk) :: fs_writes (k_fs s))
            (set_fs_disk (<[blk := view (k_fs s) blk]> (fs_disk (k_fs s))) (k_fs s)).
Proof.
  intros Hal Hidle HI Hin Hdb. destruct (held_buffer _ _ _ _ b blk HI Hin) as (bf & Hb & Hc & Hlk & Hdk & Hdata & _).
  pose proof (holdingsleep_held p pr s b bf Hal Hb Hlk) as Eh. pose proof Hc as (Hd & Hbn & Hv)%caches_true.
  rewrite <- Hbn in Hdb. destruct (disk_rw_law p pr s b bf true Hal Hidle Hb Hdk Hdb) as (vd & E & Hid).
  unfold bwrite. krun. cbn [Z.eqb]. exists (set_k_vd vd (set_k_fs (xfer b bf true (k_fs s)) s)), (xfer b bf true (k_fs s)).
  split; [done|]. split; [exists vd; split; [done|by apply (disk_idle_ext (set_k_vd vd s))]|].
  unfold xfer. rewrite Hbn, Hdata. set (fs' := set_fs_writes _ _).
  assert (Hdisk : forall k, fs_disk fs' k = if decide (k = blk) then view (k_fs s) blk else fs_disk (k_fs s) k).
  { intros k. unfold fs'. cbn. destruct (decide (k = blk)) as [->|Hne]; [by rewrite fn_lookup_insert|].
    by rewrite fn_lookup_insert_ne. }
  pose proof HI as [H1 H2 H3 H4 H5 H6 H7 H8].
  assert (HI' : binv (p_pid pr) fs' P L).
  { constructor; try done.
    - destruct H1 as [order (Hs & ? & ?)]. exists order. split; [|done]. by apply (seg_frame (k_fs s)).
    - intros k. rewrite Hdisk. destruct (decide (k = blk)); [by apply (length_view (p_pid pr) _ P L)|done].
    - intros c cf Hcf. change (fs_buf (k_fs s) !! c = Some cf) in Hcf.
      destruct (H4 c cf Hcf) as [G1 G2 G3 G4 G5]. constructor; try done.
      intros Hr Hcd Hcv. rewrite Hdisk. destruct (decide (b_blockno cf = blk)) as [He|Hne]; [|by apply G5].
      assert (c = b) as -> by (apply (H3 c b cf bf); congruence). congruence. }
  split; [done|]. split; [|done]. intros k. destruct (view_cases (k_fs s) k) as [(c & cf & Hcf & Hcc & ->)|[-> Hno]].
  - by apply (view_hit (p_pid pr) fs' P L c).
  - rewrite (view_miss fs') by exact Hno. rewrite Hdisk. destruct (decide (k = blk)) as [->|]; [|done].
    by rewrite (Hno b bf Hb) in Hc.
Qed.

(** Storing into the data of a locked buffer. *)
Lemma set_data_run pid fs P L b blk d bf :
  binv pid fs P L -> (b, blk) ∈ L -> fs_buf fs !! b = Some bf -> length d = Z.to_nat BSIZE ->
  let fs' := put b (set_b_data d bf) fs in
  binv pid fs' P L /\ (forall k, view fs' k = if decide (k = blk) then d else view fs k).
Proof.
  intros HI Hin Hb Hlen fs'. destruct (held_buffer _ _ _ _ b blk HI Hin) as (bf0 & Hb0 & Hc & Hlk & Hdk & Hdata & Hr).
  assert (bf0 = bf) as -> by congruence. clear Hb0. pose proof Hc as (Hd & Hbn & Hv)%caches_true.
  assert (HbL : b ∈ L.*1) by (apply list_elem_of_fmap; by exists (b, blk)).
  assert (HI' : binv pid fs' P L).
  { apply (binv_put pid fs P L b bf); try done.
    - destruct (bi_buf _ _ _ _ HI b bf Hb) as [G1 G2 G3 G4 G5]. constructor; try done.
      intros Hz. exfalso. cbn in Hz. rewrite Hr in Hz. destruct (decide (blk ∈ P)); lia.
    - intros c cf Hcb Hcf Hcd _ He. apply Hcb. apply (bi_uniq _ _ _ _ HI c b cf bf); [done|done|done|done|exact He].
    - intros c k Hck. destruct (decide (c = b)) as [->|]; [|done].
      destruct (bi_held _ _ _ _ HI b k Hck) as (bf1 & Hb1 & Hc1). rewrite Hb in Hb1. by injection Hb1 as <-.
    - intros k Hk. destruct (caches k bf) eqn:E; [by left|right; by split].
    - apply (bi_L _ _ _ _ HI).
    - apply (bi_P _ _ _ _ HI). }
  split; [done|]. intros k. unfold fs'. rewrite (view_put pid fs P L b bf _ P L k HI HI' Hb).
  change (caches k (set_b_data d bf)) with (caches k bf). destruct (caches k bf) eqn:E.
  - apply caches_true in E as (_ & <- & _). by rewrite decide_True.
  - rewrite decide_False; [done|]. intros ->. congruence.
Qed.

(** Pinning and unpinning a locked buffer. *)
Lemma binv_refcnt pid fs P P' L b blk bf r :
  binv pid fs P L -> (b, blk) ∈ L -> fs_buf fs !! b = Some bf ->
  (forall k, k <> blk -> k ∈ P' <-> k ∈ P) -> NoDup P' -> r = 1 + (if decide (blk ∈ P') then 1 else 0) ->
  let fs' := put b (set_b_refcnt r bf) fs in
  binv pid fs' P' L /\ (forall k, view fs' k = view fs k).
Proof.
  intros HI Hin Hb HP Hnd Hr fs'.
  destruct (held_buffer _ _ _ _ b blk HI Hin) as (bf0 & Hb0 & Hc & Hlk & Hdk & Hdata & Hr0).
  assert (bf0 = bf) as -> by congruence. clear Hb0. pose proof Hc as (Hd & Hbn & Hv)%caches_true.
  assert (HbL : b ∈ L.*1) by (apply list_elem_of_fmap; by exists (b, blk)).
  assert (HI' : binv pid fs' P' L).
  { apply (binv_put pid fs P L b bf); try done.
    - destruct (bi_buf _ _ _ _ HI b bf Hb) as [G1 G2 G3 G4 G5]. constructor; try done.
      + unfold refs. cbn. rewrite Hd, Hbn, (decide_True (P := b ∈ L.*1)) by done. rewrite Hr. f_equal.
        by destruct (decide (blk ∈ P')), (decide (ROOTDEV = ROOTDEV /\ blk ∈ P')); try tauto.
      + intros Hz. exfalso. cbn in Hz. rewrite Hr in Hz. destruct (decide (blk ∈ P')); lia.
    - intros c cf Hcb Hcf Hcd _ He. apply Hcb. apply (bi_uniq _ _ _ _ HI c b cf bf); [done|done|done|done|exact He].
    - intros c cf Hcb Hcf Hcd. apply HP. intros He. apply Hcb. apply (bi_uniq _ _ _ _ HI c b cf bf); congruence.
    - intros c k Hck. destruct (decide (c = b)) as [->|]; [|done].
      destruct (bi_held _ _ _ _ HI b k Hck) as (bf1 & Hb1 & Hc1). rewrite Hb in Hb1. by injection Hb1 as <-.
    - intros k Hk. destruct (caches k bf) eqn:E; [by left|right]. split; [|done]. apply HP; [|done].
      intros ->. congruence.
    - apply (bi_L _ _ _ _ HI). }
  split; [done|]. intros k. unfold fs'. rewrite (view_put pid fs P L b bf _ P' L k HI HI' Hb).
  change (caches k (set_b_refcnt r bf)) with (caches k bf). destruct (caches k bf) eqn:E; [|done].
  symmetry. by apply (view_hit _ _ _ _ _ _ _ HI Hb).
Qed.

Lemma bpin_run p pr s P L b blk :
  alone p pr s -> disk_idle s -> binv (p_pid pr) (k_fs s) P L -> (b, blk) ∈ L -> blk ∉ P -> 
  exists s' fs' bf, bpin b s = Ret tt s' /\ fsto s fs' s' /\ binv (p_pid pr) fs' (blk :: P) L /\
    (forall k, view fs' k = view (k_fs s) k) /\ fs' = put b bf (k_fs s).
Proof.
  intros Hal Hidle HI Hin HnP. destruct (held_buffer _ _ _ _ b blk HI Hin) as (bf & Hb & Hc & _ & _ & _ & Hr).
  pose proof Hal as (Hh & _). rewrite decide_False in Hr by done.
  destruct (binv_refcnt (p_pid pr) (k_fs s) P (blk :: P) L b blk bf 2 HI Hin Hb) as [HI' Hv].
  { intros k Hk. rewrite elem_of_cons. split; [by intros [?|?]|by right]. }
  { apply NoDup_cons. split; [done|apply (bi_P _ _ _ _ HI)]. }
  { rewrite decide_True by (by apply elem_of_cons; left). done. }
  exists (set_k_fs (put b (set_b_refcnt 2 bf) (k_fs s)) s), (put b (set_b_refcnt 2 bf) (k_fs s)). eexists.
  split; [|split; [by apply fsto_upd|done]].
  unfold bpin, upd_buf, upd_fs. krun. rewrite (fbuf_put b bf _ _ Hb), Hr. by destruct s.
Qed.

Lemma bunpin_run p pr s P L b blk :
  alone p pr s -> disk_idle s -> binv (p_pid pr) (k_fs s) (blk :: P) L -> (b, blk) ∈ L ->
  exists s' fs' bf, bunpin b s = Ret tt s' /\ fsto s fs' s' /\ binv (p_pid pr) fs' P L /\
    (forall k, view fs' k = view (k_fs s) k) /\ fs' = put b bf (k_fs s).
Proof.
  intros Hal Hidle HI Hin. destruct (held_buffer _ _ _ _ b blk HI Hin) as (bf & Hb & Hc & _ & _ & _ & Hr).
  pose proof Hal as (Hh & _). rewrite decide_True in Hr by (by apply elem_of_cons; left).
  pose proof (bi_P _ _ _ _ HI) as Hnd. apply NoDup_cons in Hnd as [HnP Hnd].
  destruct (binv_refcnt (p_pid pr) (k_fs s) (blk :: P) P L b blk bf 1 HI Hin Hb) as [HI' Hv].
  { intros k Hk. rewrite elem_of_cons. split; [by right|by intros [?|?]]. }
  { done. }
  { by rewrite decide_False. }
  exists (set_k_fs (put b (set_b_refcnt 1 bf) (k_fs s)) s), (put b (set_b_refcnt 1 bf) (k_fs s)). eexists.
  split; [|split; [by apply fsto_upd|done]].
  unfold bunpin, upd_buf, upd_fs. krun. rewrite (fbuf_put b bf _ _ Hb), Hr. by destruct s.
Qed.

(** ** [binit] *)

Lemma slk_nx f b x v fs : set_slk f (SL_buf b) (set_nx x v fs) = set_nx x v (set_slk f (SL_buf b) fs).
Proof.
  destruct x as [c|]; [|done]. cbn [set_slk set_nx]. unfold fbuf. cbn [fs_buf set_fs_buf].
  by rewrite (alter_comm _ (set_b_next v)) by done.
Qed.

Lemma slk_pv f b x v fs : set_slk f (SL_buf b) (set_pv x v fs) = set_pv x v (set_slk f (SL_buf b) fs).
Proof.
  destruct x as [c|]; [|done]. cbn [set_slk set_pv]. unfold fbuf. cbn [fs_buf set_fs_buf].
  by rewrite (alter_comm _ (set_b_prev v)) by done.
Qed.

Lemma slk_links f b fs x : nx (set_slk f (SL_buf b) fs) x = nx fs x /\ pv (set_slk f (SL_buf b) fs) x = pv fs x.
Proof.
  destruct x as [c|]; [|done]. unfold nx, pv. cbn [set_slk fs_buf set_fs_buf]. destruct (decide (b = c)) as [->|Hne].
  - rewrite list_lookup_alter_eq. by destruct (fs_buf fs !! c).
  - by rewrite list_lookup_alter_ne.
Qed.

Definition init_slk (l : sleeplock) : sleeplock := set_sl_pid 0 (set_sl_locked 0 l).

(** One round of [binit]. *)
Definition binit_body (b : nat) : K unit :=
  h <- gets (fun s => nx (k_fs s) None) ;;
  upd_fs (set_nx (Some b) h) ;;;
  upd_fs (set_pv (Some b) None) ;;;
  initsleeplock (SL_buf b) ;;;
  h <- gets (fun s => nx (k_fs s) None) ;;
  upd_fs (set_pv h (Some b)) ;;;
  upd_fs (set_nx None (Some b)).

Lemma binit_round b s :
  binit_body b s = Ret tt (set_k_fs (push_front b (set_slk init_slk (SL_buf b) (k_fs s))) s).
Proof.
  unfold binit_body, upd_fs, initsleeplock, upd_slk. krun. unfold modify. kred. f_equal.
  unfold push_front. cbv zeta.
  change (fun l => set_sl_pid 0 (set_sl_locked 0 l)) with init_slk.
  rewrite slk_pv, slk_nx. rewrite (proj1 (slk_links init_slk b (k_fs s) None)). by destruct s.
Qed.

(** The buffers before [binit]: zeroed memory. *)
Definition fresh (bf : buf) : Prop :=
  b_valid bf = 0 /\ b_disk bf = 0 /\ b_dev bf = 0 /\ b_refcnt bf = 0 /\ b_lock bf = mkSleeplock 0 0 /\
  length (b_data bf) = Z.to_nat BSIZE.

Lemma fresh_nolinks bf bf' : nolinks bf' = nolinks bf -> fresh bf -> fresh bf'.
Proof.
  intros (E1 & E2 & E3 & E4 & E5 & E6 & E7)%nolinks_fields. unfold fresh. by rewrite E1, E2, E3, E4, E5, E7.
Qed.

Lemma relinked_init b fs : Forall fresh (fs_buf fs) -> relinked fs (set_slk init_slk (SL_buf b) fs).
Proof.
  intros HF. cbn [set_slk].
  assert (E : alter (fun bf => set_b_lock (init_slk (b_lock bf)) bf) b (fs_buf fs) = fs_buf fs).
  { destruct (fs_buf fs !! b) as [bf|] eqn:Hb.
    - rewrite (alter_insert_eq _ _ _ bf Hb). apply list_insert_id. rewrite Hb. f_equal.
      rewrite Forall_lookup in HF. destruct (HF b bf Hb) as (_ & _ & _ & _ & Hl & _).
      destruct bf. cbn in Hl. subst. reflexivity.
    - clear HF. revert Hb. generalize (fs_buf fs) b. intros l. induction l as [|x l IH]; intros [|i] Hi; simpl in *; try done.
      f_equal. by apply IH. }
  rewrite E. split; [done|]. exists (fs_buf fs), (fs_head_next fs), (fs_head_prev fs). by destruct fs.
Qed.

(** After [k] rounds the ring holds the first [k] buffers, latest first. *)
Lemma binit_rounds s : forall n k fs,
  (k + n = NBUF)%nat -> relinked (k_fs s) fs -> Forall fresh (fs_buf fs) -> length (fs_buf fs) = NBUF ->
  seg fs None (rev (seq 0 k)) None ->
  exists fs', for_all (seq k n) binit_body (set_k_fs fs s) = Ret tt (set_k_fs fs' s) /\
    relinked (k_fs s) fs' /\ lru fs' (rev (seq 0 NBUF)).
Proof.
  induction n as [|n IH]; intros k fs Hk Hr HF Hlen Hs.
  - exists fs. split; [done|]. split; [done|]. assert (k = NBUF) as -> by lia.
    split; [done|]. split; [|done]. symmetry. apply Permutation_rev.
  - cbn [seq for_all]. rewrite (bind_Ret _ _ _ _ _ (binit_round k _)). kred.
    set (fs1 := push_front k (set_slk init_slk (SL_buf k) fs)).
    pose proof (relinked_init k fs HF) as Hr0.
    assert (Hlen0 : length (fs_buf (set_slk init_slk (SL_buf k) fs)) = NBUF) by (cbn; by rewrite length_alter).
    assert (Hr1 : relinked fs fs1).
    { eapply relinked_trans; [exact Hr0|]. unfold fs1, push_front. cbv zeta.
      repeat (eapply relinked_trans; [|first [apply relinked_nx|apply relinked_pv]]). apply relinked_refl. }
    destruct (IH (S k) fs1) as (fs' & E & Hr' & Hl').
    + lia.
    + by apply (relinked_trans _ fs).
    + apply Forall_lookup. intros b bf Hb. destruct (relinked_lookup _ _ _ _ Hr1 Hb) as (bf0 & Hb0 & E0).
      apply (fresh_nolinks bf0); [done|]. rewrite Forall_lookup in HF. by apply (HF b).
    + destruct Hr1 as [Hm _]. apply (f_equal length) in Hm. rewrite !length_map in Hm. congruence.
    + rewrite seq_S, rev_app_distr. cbn [rev app plus]. apply push_front_seg.
      * apply (seg_frame fs); [| |done]; intros z _; by apply slk_links.
      * apply NoDup_cons. split; [rewrite list_elem_of_In, <- in_rev, in_seq; lia|]. rewrite <- Permutation_rev. apply NoDup_seq.
      * apply Forall_forall. intros x (z & -> & Hz)%list_elem_of_fmap. unfold bptr. rewrite Hlen0.
        apply elem_of_cons in Hz as [->|Hz]; [lia|]. apply list_elem_of_In, in_rev, in_seq in Hz. lia.
    + exists fs'. split; [exact E|done].
Qed.

Lemma binit_run s :
  length (fs_buf (k_fs s)) = NBUF -> Forall fresh (fs_buf (k_fs s)) ->
  (forall blk, length (fs_disk (k_fs s) blk) = Z.to_nat BSIZE) ->
  exists fs', binit s = Ret tt (set_k_fs fs' s) /\ lru fs' (rev (seq 0 NBUF)) /\
    (forall pid, binv pid fs' [] []) /\ (forall blk, view fs' blk = fs_disk (k_fs s) blk) /\ relinked (k_fs s) fs'.
Proof.
  intros Hlen HF Hdisk. set (fs0 := set_nx None None (set_pv None None (k_fs s))).
  assert (Hr0 : relinked (k_fs s) fs0).
  { eapply relinked_trans; [apply (relinked_pv _ None None)|apply (relinked_nx _ None None)]. }
  destruct (binit_rounds s NBUF 0 fs0 eq_refl Hr0 HF Hlen) as (fs' & E & Hr & Hl); [done|].
  exists fs'. split; [|split; [done|]].
  { unfold binit, upd_fs. krun. rewrite <- E. by destruct s. }
  assert (Hfr : forall b bf, fs_buf fs' !! b = Some bf -> fresh bf).
  { intros b bf Hb. destruct (relinked_lookup _ _ _ _ Hr Hb) as (bf0 & Hb0 & E0).
    apply (fresh_nolinks bf0); [done|]. rewrite Forall_lookup in HF. by apply (HF b). }
  pose proof (relinked_disk _ _ Hr) as Hd. split; [|split; [|exact Hr]].
  - intros pid. constructor; [..|apply NoDup_nil_2|apply NoDup_nil_2].
    + by exists (rev (seq 0 NBUF)).
    + by rewrite Hd.
    + intros b c bf cf Hb Hc Hbd. destruct (Hfr b bf Hb) as (_ & _ & Hz & _). rewrite Hz in Hbd. discriminate.
    + intros b bf Hb. destruct (Hfr b bf Hb) as (Hv & Hdk & Hz & Hrc & Hlk & Hln).
      constructor; [exact Hln|exact Hdk| | |by rewrite Hz].
      * by rewrite decide_False by apply not_elem_of_nil.
      * rewrite Hrc. unfold refs. rewrite !decide_False; [done|intros [_ Hx]; by apply elem_of_nil in Hx|apply not_elem_of_nil].
    + intros b blk Hin. destruct (not_elem_of_nil _ Hin).
    + intros blk Hin. destruct (not_elem_of_nil _ Hin).
  - intros blk. rewrite <- Hd. apply view_miss. intros b bf Hb. destruct (Hfr b bf Hb) as (_ & _ & Hz & _).
    unfold caches. by rewrite Hz.
Qed.

(** [binit] on zeroed buffers links all of them into the ring, unlocked,
    unused, each block read from the disk the first time: the invariant of
    the buffer cache with nothing pinned or locked holds, for whichever
    process comes first. *)
Theorem binit_correct s :
  length (fs_buf (k_fs s)) = NBUF -> Forall fresh (fs_buf (k_fs s)) ->
  (forall blk, length (fs_disk (k_fs s) blk) = Z.to_nat BSIZE) ->
  exists fs', binit s = Ret tt (set_k_fs fs' s) /\ lru fs' (rev (seq 0 NBUF)) /\
    (forall pid, binv pid fs' [] []) /\ forall blk, view fs' blk = fs_disk (k_fs s) blk.
Proof. intros H1 H2 H3. destruct (binit_run s H1 H2 H3) as (fs' & E & Hl & Hb & Hv & _). exists fs'. exact (conj E (conj Hl (conj Hb Hv))). Qed.

(** [bread] returns a buffer locked by the caller that holds what readers
    see of the block (the cached contents, or else the disk's), leaves every
    other block as readers see it, and keeps the invariant of the cache: no
    block is ever cached twice. The block must be pinned in the cache, or
    fewer than NBUF buffers in use. *)
Theorem bread_correct p pr s P L blk :
  alone p pr s -> disk_idle s -> binv (p_pid pr) (k_fs s) P L -> blk ∉ L.*2 ->
  blk ∈ P \/ (length L + length P < NBUF)%nat -> disk_block blk ->
  exists b bf s', bread ROOTDEV blk s = Ret b s' /\ alone p pr s' /\ binv (p_pid pr) (k_fs s') P ((b, blk) :: L) /\
    fs_buf (k_fs s') !! b = Some bf /\ b_lock bf = mkSleeplock 1 (p_pid pr) /\
    b_data bf = view (k_fs s) blk /\ (forall k, view (k_fs s') k = view (k_fs s) k) /\
    fs_disk (k_fs s') = fs_disk (k_fs s).
Proof.
  intros Hal Hidle HI Hblk Hroom Hdb.
  destruct (bread_run p pr s P L blk Hal Hidle HI Hblk Hroom Hdb) as (b & bf & bf' & s' & Hb & E & Hto & Hc & Hd & HI' & Hv).
  exists b, bf', s'. rewrite (fsto_fs _ _ _ Hto). split; [done|]. split; [by apply (alone_fsto p pr s _ s' Hto)|].
  split; [done|]. split; [by apply (put_lookup b _ _ bf)|].
  destruct (held_buffer _ _ _ _ b blk HI') as (bf0 & Hb0 & _ & Hl & _); [by apply elem_of_cons; left|].
  rewrite (put_lookup b bf' _ bf Hb) in Hb0. injection Hb0 as <-. done.
Qed.

(** Overwriting a block: the pattern of the log's and the tools' writes. *)
Definition write_block (blk : Z) (d : list Z) : K unit :=
  b <- bread ROOTDEV blk ;;
  upd_buf b (set_b_data d) ;;;
  bwrite b ;;;
  brelse b.

Lemma write_block_run p pr s P L blk d :
  alone p pr s -> disk_idle s -> binv (p_pid pr) (k_fs s) P L -> blk ∉ L.*2 -> (length L + length P < NBUF)%nat ->
  length d = Z.to_nat BSIZE -> disk_block blk ->
  exists s' fs', write_block blk d s = Ret tt s' /\ fsto s fs' s' /\ binv (p_pid pr) fs' P L /\
    (forall k, view fs' k = if decide (k = blk) then d else view (k_fs s) k) /\
    fs_disk fs' = <[blk := d]> (fs_disk (k_fs s)) /\ fs_writes fs' = (blk, d) :: fs_writes (k_fs s).
Proof.
  intros Hal Hidle HI Hblk Hroom Hd Hdb. unfold write_block, upd_buf, upd_fs.
  destruct (bread_run p pr s P L blk Hal Hidle HI Hblk (or_intror Hroom) Hdb) as (b & bf & bf1 & s1 & Hb & E1 & T1 & _ & _ & I1 & V1).
  krun. pose proof (fsto_fs _ _ _ T1) as F1. pose proof (put_lookup b bf1 _ bf Hb) as Hb1.
  assert (Hin : (b, blk) ∈ (b, blk) :: L) by (by apply elem_of_cons; left).
  destruct (set_data_run _ _ _ _ b blk d bf1 I1 Hin Hb1 Hd) as [I2 V2]. rewrite put_put in I2, V2.
  rewrite F1, (fbuf_put b bf1 _ _ Hb1), put_put. set (fs2 := put b (set_b_data d bf1) (k_fs s)) in *.
  assert (T2 : fsto s fs2 (set_k_fs fs2 s1)).
  { apply (fsto_trans s s1 _ _ _ T1), fsto_upd. by apply (fsto_idle _ _ _ T1). }
  pose proof (alone_fsto _ _ _ _ _ T2 Hal) as A2.
  destruct (bwrite_run p pr (set_k_fs fs2 s1) P _ b blk A2 (fsto_idle _ _ _ T2) I2 Hin Hdb) as (s3 & fs3 & E3 & T3 & I3 & V3 & F3).
  krun. kred. pose proof (fsto_trans _ _ _ _ _ T2 T3) as T13.
  assert (Hview : view fs3 blk = fs_disk fs3 blk).
  { rewrite V3. rewrite F3. cbn [fs_disk set_fs_disk set_fs_writes]. by rewrite fn_lookup_insert. }
  rewrite <- (fsto_fs _ _ _ T3) in I3, Hview.
  destruct (brelse_run p pr s3 P L b blk (alone_fsto _ _ _ _ _ T13 Hal) (fsto_idle _ _ _ T3) I3 (or_intror Hview))
    as (s4 & fs4 & E4 & T4 & I4 & V4 & bs & h & t & F4).
  exists s4, fs4. rewrite (fsto_fs _ _ _ T3) in V4, F4. split; [done|].
  split; [by apply (fsto_trans _ _ _ _ _ T13)|]. split; [done|].
  assert (Hvd : view fs2 blk = d) by (by rewrite V2, decide_True).
  split; [|rewrite F4; cbn; rewrite F3; cbn; rewrite Hvd; done].
  intros k. rewrite V4, V3, V2. destruct (decide (k = blk)); [done|apply V1].
Qed.

(** What is written to a block is what a later [bread] of it returns, and
    what the disk holds; no other block changes, on disk or as readers see
    it. *)
Theorem write_then_bread p pr s P blk d :
  alone p pr s -> disk_idle s -> binv (p_pid pr) (k_fs s) P [] -> (length P < NBUF)%nat -> length d = Z.to_nat BSIZE -> disk_block blk ->
  exists b bf s', (write_block blk d ;;; bread ROOTDEV blk) s = Ret b s' /\
    fs_buf (k_fs s') !! b = Some bf /\ b_data bf = d /\ b_lock bf = mkSleeplock 1 (p_pid pr) /\
    fs_disk (k_fs s') = <[blk := d]> (fs_disk (k_fs s)) /\
    forall k, k <> blk -> view (k_fs s') k = view (k_fs s) k.
Proof.
  intros Hal Hidle HI Hroom Hd Hdb.
  destruct (write_block_run p pr s P [] blk d Hal Hidle HI (not_elem_of_nil _) Hroom Hd Hdb)
    as (s1 & fs1 & E1 & T1 & I1 & V1 & D1 & _). krun.
  rewrite <- (fsto_fs _ _ _ T1) in I1, V1, D1.
  destruct (bread_run p pr s1 P [] blk (alone_fsto _ _ _ _ _ T1 Hal) (fsto_idle _ _ _ T1) I1 (not_elem_of_nil _) (or_intror Hroom) Hdb)
    as (b & bf & bf' & s2 & Hb & E2 & T2 & Hc & Hda & I2 & V2).
  exists b, bf', s2. rewrite (fsto_fs _ _ _ T2). split; [done|]. split; [by apply (put_lookup b _ _ bf)|].
  split; [by rewrite Hda, V1, decide_True|].
  destruct (held_buffer _ _ _ _ b blk I2) as (bf0 & Hb0 & _ & Hl & _); [by apply elem_of_cons; left|].
  rewrite (put_lookup b bf' _ bf Hb) in Hb0. injection Hb0 as <-. split; [done|]. split; [exact D1|].
  intros k Hk. by rewrite V2, V1, decide_False.
Qed.
End Bio.

(** ** The theorems on a small cache, with a driver that transfers at once *)

Module BioWitness.

#[local] Instance now_driver : DiskDriver.
Proof.
  refine {| virtio_disk_rw := fun b write s =>
              match fs_buf (k_fs s) !! b with
              | Some bf => Ret tt (set_k_fs (xfer b bf write (k_fs s)) s)
              | None => Fuel s
              end;
            disk_idle := fun _ => True |}.
  - done.
  - intros p pr s b bf write _ _ Hb _ _. exists (k_vd s). rewrite Hb. split; [by destruct s|done].
Defined.

Definition pr0 : proc := set_p_pid 3 (set_p_state RUNNING proc0).

(** Process 0 alone after [binit]. *)
Definition start : kstate := set_k_cur (Some 0%nat) (set_k_proc (<[0%nat := pr0]> (k_proc boot)) boot).

Definition cold : kstate := match binit start with Ret _ s => s | _ => start end.

Lemma start_alone s : k_held s = [] -> k_cur s = Some 0%nat -> k_proc s = k_proc start -> alone 0 pr0 s.
Proof.
  intros Hh Hc Hp. unfold alone. rewrite Hh, Hc, Hp. split_and!; try done. intros q qr ch Hq Hch.
  destruct (decide (q = 0%nat)) as [->|Hne]; [by injection Hq as <-|].
  change (k_proc start) with (<[0%nat := pr0]> (replicate NPROC proc0)) in Hq.
  rewrite list_lookup_insert_ne in Hq by done. apply lookup_replicate in Hq as [-> _]. discriminate.
Qed.

Lemma start_fresh : length (fs_buf (k_fs start)) = NBUF /\ Forall fresh (fs_buf (k_fs start)) /\
  forall blk, length (fs_disk (k_fs start) blk) = Z.to_nat BSIZE.
Proof.
  split; [done|]. split.
  - change (fs_buf (k_fs start)) with (replicate NBUF buf0). apply Forall_replicate. by repeat split.
  - intros blk. reflexivity.
Qed.

Lemma binit_correct_witness : exists fs', binit start = Ret tt (set_k_fs fs' start) /\ lru fs' (rev (seq 0 NBUF)).
Proof.
  destruct start_fresh as (H1 & H2 & H3).
  destruct (binit_correct start H1 H2 H3) as (fs' & E & Hl & _).
  exists fs'. split; [exact E|exact Hl].
Defined.

Lemma cold_binv : binv 3 (k_fs cold) [] [].
Proof.
  destruct start_fresh as (H1 & H2 & H3). destruct (binit_run start H1 H2 H3) as (fs' & E & _ & Hb & _).
  unfold cold. rewrite E. apply Hb.
Qed.

Lemma cold_alone : alone 0 pr0 cold.
Proof.
  destruct start_fresh as (H1 & H2 & H3). destruct (binit_run start H1 H2 H3) as (fs' & E & _).
  unfold cold. rewrite E. apply start_alone; reflexivity.
Qed.

Lemma bread_correct_witness : exists b bf s', bread ROOTDEV 7 cold = Ret b s' /\
  fs_buf (k_fs s') !! b = Some bf /\ b_data bf = view (k_fs cold) 7.
Proof.
  destruct (bread_correct (DD := now_driver) 0 pr0 cold [] [] 7 cold_alone I cold_binv (not_elem_of_nil _))
    as (b & bf & s' & E & _ & _ & Hb & _ & Hd & _); [right; vm_compute; lia|blk_ok|].
  exists b, bf, s'. split; [exact E|]. split; [exact Hb|exact Hd].
Defined.

Lemma write_then_bread_witness : exists b bf s',
  (write_block 7 (replicate 1024 9) ;;; bread ROOTDEV 7) cold = Ret b s' /\
  fs_buf (k_fs s') !! b = Some bf /\ b_data bf = replicate 1024 9.
Proof.
  destruct (write_then_bread (DD := now_driver) 0 pr0 cold [] 7 (replicate 1024 9) cold_alone I cold_binv)
    as (b & bf & s' & E & Hb & Hd & _); [vm_compute; lia|reflexivity|blk_ok|].
  exists b, bf, s'. split; [exact E|]. split; [exact Hb|exact Hd].
Defined.
End BioWitness.
