(* ===== verification/Store.v ===== *)
(** * The buffer cache as its clients use it

    [store s P L v d w r] describes a state of the file system: blocks [P] are
    pinned, the buffers [L] are locked by the running process, a reader of
    block [k] sees [v k], the disk holds [d] and has done the writes [w]
    (latest first); [r] is the rest of the file system's state (log, inodes,
    superblock). One rule per operation of the cache; the log, the inode
    layer and the directories are proved with these rules alone. *)

From stdpp Require Import functions.
From S2P Require Import Prelude Machine State Printf Sched Sleeplock Block Bio.

Record rest := mkRest { r_log : log; r_inode : list inode; r_sb : superblock }.

Definition rest_of (fs : fsstate) : rest := mkRest (fs_log fs) (fs_inode fs) (fs_sb fs).

Section Store.
Context `{DD : DiskDriver}.
Context (p : nat) (pr : proc) (s0 : kstate).

Record store (s : kstate) (P : list Z) (L : list (nat * Z)) (v : Z -> list Z) (d : Z -> list Z)
    (w : list (Z * list Z)) (r : rest) : Prop := {
  st_alone : alone p pr s;
  st_idle : disk_idle s;
  st_binv : binv (p_pid pr) (k_fs s) P L;
  st_view : forall k, view (k_fs s) k = v k;
  st_disk : fs_disk (k_fs s) = d;
  st_writes : fs_writes (k_fs s) = w;
  st_rest : rest_of (k_fs s) = r;
  st_same : exists vd, s = set_k_vd vd (set_k_fs (k_fs s) s0)
}.

Lemma store_fsto s s' fs P P' L L' v v' d d' w w' r r' :
  store s P L v d w r -> fsto s fs s' -> binv (p_pid pr) fs P' L' -> (forall k, view fs k = v' k) ->
  fs_disk fs = d' -> fs_writes fs = w' -> rest_of fs = r' -> store s' P' L' v' d' w' r'.
Proof.
  intros [H1 H2 H3 H4 H5 H6 H7 H8] T HI Hv Hd Hw Hr. pose proof (fsto_fs _ _ _ T) as F.
  constructor; rewrite ?F; try done.
  - by apply (alone_fsto p pr s fs).
  - by apply (fsto_idle s fs).
  - destruct H8 as [vd E], T as (vd' & -> & _). exists vd'. rewrite E. by destruct s0.
Qed.

Lemma store_ext s P L v v' d w r : (forall k, v k = v' k) -> store s P L v d w r -> store s P L v' d w r.
Proof. intros E [H1 H2 H3 H4 H5 H6 H7 H8]. constructor; try done. intros k. by rewrite H4. Qed.

Lemma store_perm s P P' L L' v d w r : Permutation P P' -> Permutation L L' -> store s P L v d w r -> store s P' L' v d w r.
Proof. intros HP HL [H1 H2 H3 H4 H5 H6 H7 H8]. constructor; try done. by apply (binv_perm _ _ P P' L L'). Qed.

Lemma store_bread s P L v d w r blk :
  store s P L v d w r -> blk ∉ L.*2 -> blk ∈ P \/ (length L + length P < NBUF)%nat -> disk_block blk ->
  exists b s', bread ROOTDEV blk s = Ret b s' /\ store s' P ((b, blk) :: L) v d w r /\ b ∉ L.*1.
Proof.
  intros H Hblk Hroom Hdb. pose proof H as [H1 H2 H3 H4 H5 H6 H7 H8].
  destruct (bread_run p pr s P L blk H1 H2 H3 Hblk Hroom Hdb) as (b & bf & bf' & s' & Hb & E & T & _ & _ & HI & Hv).
  exists b, s'. split; [done|]. split.
  - apply (store_fsto s s' _ P P L _ v v d d w w r r H T HI); [intros k; by rewrite Hv|done..].
  - pose proof (bi_L _ _ _ _ HI) as Hn. cbn in Hn. by apply NoDup_cons in Hn as [? _].
Qed.

Lemma store_held s P L v d w r b blk : store s P L v d w r -> (b, blk) ∈ L ->
  exists bf, fs_buf (k_fs s) !! b = Some bf /\ b_data bf = v blk /\ b_blockno bf = blk.
Proof.
  intros [H1 H2 H3 H4 H5 H6 H7 H8] Hin. destruct (held_buffer _ _ _ _ b blk H3 Hin) as (bf & Hb & Hc & _ & _ & Hd & _).
  exists bf. rewrite <- H4. by apply caches_true in Hc as (_ & -> & _).
Qed.

Lemma store_get s P L v d w r b blk : store s P L v d w r -> (b, blk) ∈ L ->
  exists bf, get_buf b s = Ret bf s /\ b_data bf = v blk /\ b_blockno bf = blk.
Proof.
  intros H Hin. destruct (store_held _ _ _ _ _ _ _ b blk H Hin) as (bf & Hb & Hd & Hbn).
  exists bf. unfold get_buf. by rewrite Hb.
Qed.

Lemma store_length s P L v d w r k : store s P L v d w r -> length (v k) = Z.to_nat BSIZE.
Proof. intros [H1 H2 H3 H4 H5 H6 H7 H8]. rewrite <- H4. by apply (length_view (p_pid pr) _ P L). Qed.

Lemma store_disk_length s P L v d w r k : store s P L v d w r -> length (d k) = Z.to_nat BSIZE.
Proof. intros [H1 H2 H3 H4 H5 H6 H7 H8]. rewrite <- H5. by apply (bi_disk _ _ _ _ H3). Qed.

(** [f] computes the new contents of a locked buffer from the old. *)
Lemma store_upd s P L v d w r b blk (f : list Z -> list Z) :
  store s P L v d w r -> (b, blk) ∈ L -> length (f (v blk)) = Z.to_nat BSIZE ->
  exists s', upd_buf b (fun bf => set_b_data (f (b_data bf)) bf) s = Ret tt s' /\
    store s' P L (<[blk := f (v blk)]> v) d w r.
Proof.
  intros H Hin Hlen. pose proof H as [H1 H2 H3 H4 H5 H6 H7 H8].
  destruct (store_held _ _ _ _ _ _ _ b blk H Hin) as (bf & Hb & Hd & _).
  destruct (set_data_run _ _ _ _ b blk (f (v blk)) bf H3 Hin Hb Hlen) as [HI Hv].
  eexists. unfold upd_buf, upd_fs. split; [reflexivity|]. rewrite (fbuf_put b bf _ _ Hb), Hd.
  eapply (store_fsto s _ _ P P L L v _ d d w w r r H); [by apply fsto_upd|done| |done..].
  intros k. rewrite Hv, H4. destruct (decide (k = blk)) as [->|Hne]; [by rewrite fn_lookup_insert|].
  by rewrite fn_lookup_insert_ne.
Qed.

Lemma store_set s P L v d w r b blk x :
  store s P L v d w r -> (b, blk) ∈ L -> length x = Z.to_nat BSIZE ->
  exists s', upd_buf b (set_b_data x) s = Ret tt s' /\ store s' P L (<[blk := x]> v) d w r.
Proof. intros H Hin Hlen. by apply (store_upd s P L v d w r b blk (fun _ => x)). Qed.

Lemma store_bwrite s P L v d w r b blk :
  store s P L v d w r -> (b, blk) ∈ L -> disk_block blk ->
  exists s', bwrite b s = Ret tt s' /\ store s' P L v (<[blk := v blk]> d) ((blk, v blk) :: w) r.
Proof.
  intros H Hin Hdb. pose proof H as [H1 H2 H3 H4 H5 H6 H7 H8].
  destruct (bwrite_run p pr s P L b blk H1 H2 H3 Hin Hdb) as (s' & fs' & E & T & HI & Hv & Ef).
  exists s'. split; [done|]. apply (store_fsto s s' _ P P L L v v _ _ _ _ _ _ H T HI); [|by rewrite Ef; cbn; rewrite ?H4, ?H5, ?H6..].
  intros k. by rewrite Hv.
Qed.

Lemma store_brelse s P L v d w r b blk :
  store s P ((b, blk) :: L) v d w r -> blk ∈ P \/ v blk = d blk ->
  exists s', brelse b s = Ret tt s' /\ store s' P L v d w r.
Proof.
  intros H Hc. pose proof H as [H1 H2 H3 H4 H5 H6 H7 H8].
  destruct (brelse_run p pr s P L b blk H1 H2 H3) as (s' & fs' & E & T & HI & Hv & bs & h & t & Ef).
  { rewrite H4, H5. done. }
  exists s'. split; [done|]. apply (store_fsto s s' _ P P _ L v v _ _ _ _ _ _ H T HI); [|by rewrite Ef..].
  intros k. by rewrite Hv.
Qed.

Lemma store_bpin s P L v d w r b blk :
  store s P L v d w r -> (b, blk) ∈ L -> blk ∉ P ->
  exists s', bpin b s = Ret tt s' /\ store s' (blk :: P) L v d w r.
Proof.
  intros H Hin HnP. pose proof H as [H1 H2 H3 H4 H5 H6 H7 H8].
  destruct (bpin_run p pr s P L b blk H1 H2 H3 Hin HnP) as (s' & fs' & bf & E & T & HI & Hv & Ef).
  exists s'. split; [done|]. apply (store_fsto s s' _ P _ _ L v v _ _ _ _ _ _ H T HI); [|by rewrite Ef..].
  intros k. by rewrite Hv.
Qed.

Lemma store_bunpin s P L v d w r b blk :
  store s (blk :: P) L v d w r -> (b, blk) ∈ L ->
  exists s', bunpin b s = Ret tt s' /\ store s' P L v d w r.
Proof.
  intros H Hin. pose proof H as [H1 H2 H3 H4 H5 H6 H7 H8].
  destruct (bunpin_run p pr s P L b blk H1 H2 H3 Hin) as (s' & fs' & bf & E & T & HI & Hv & Ef).
  exists s'. split; [done|]. apply (store_fsto s s' _ _ _ _ L v v _ _ _ _ _ _ H T HI); [|by rewrite Ef..].
  intros k. by rewrite Hv.
Qed.

(** A change of the rest of the file system's state. *)
Lemma store_rest s P L v d w r f :
  store s P L v d w r ->
  (forall fs, fs_buf (f fs) = fs_buf fs /\ fs_head_next (f fs) = fs_head_next fs /\ fs_head_prev (f fs) = fs_head_prev fs /\
     fs_disk (f fs) = fs_disk fs /\ fs_writes (f fs) = fs_writes fs) ->
  exists s', upd_fs f s = Ret tt s' /\ store s' P L v d w (rest_of (f (k_fs s))).
Proof.
  intros H Hf. pose proof H as [H1 H2 H3 H4 H5 H6 H7 H8]. destruct (Hf (k_fs s)) as (F1 & F2 & F3 & F4 & F5).
  assert (Hn : forall x, nx (f (k_fs s)) x = nx (k_fs s) x) by (intros [b|]; cbn; by rewrite ?F1).
  assert (Hp : forall x, pv (f (k_fs s)) x = pv (k_fs s) x) by (intros [b|]; cbn; by rewrite ?F1).
  eexists. split; [reflexivity|]. eapply (store_fsto s _ _ P P L L v v d d w w r _ H); [by apply fsto_upd| | |congruence..].
  - destruct H3 as [[o (G1 & G2 & G3)] Hd Hu Hb Hh Hpi HL HP]. constructor; rewrite ?F1, ?F4; try done.
    exists o. split; [|by rewrite F1]. by apply (seg_frame (k_fs s)).
  - intros k. rewrite <- H4. unfold view. by rewrite F1, F4.
Qed.
End Store.

(** The store at the beginning of an operation. *)
Lemma store_start `{DD : DiskDriver} p pr s P L :
  alone p pr s -> disk_idle s -> binv (p_pid pr) (k_fs s) P L ->
  store p pr s s P L (view (k_fs s)) (fs_disk (k_fs s)) (fs_writes (k_fs s)) (rest_of (k_fs s)).
Proof. intros H1 H2 H3. constructor; try done. exists (k_vd s). by destruct s. Qed.
