(* ===== verification/Virtio.v ===== *)
(** * kernel/virtio_disk.c: the disk driver

    The driver of the virtio disk. The memory it shares with the device is
    part of the state; a register of the device is read through [vd_regs] and
    a write to one is recorded in [vd_wrote]. *)

From stdpp Require Import functions.
From S2P Require Import Prelude Machine State Printf Sched Sleeplock Bio.

(** ** kernel/virtio.h *)

Definition VIRTIO_MMIO_MAGIC_VALUE : Z := 0x000.
Definition VIRTIO_MMIO_VERSION : Z := 0x004.
Definition VIRTIO_MMIO_DEVICE_ID : Z := 0x008.
Definition VIRTIO_MMIO_VENDOR_ID : Z := 0x00c.
Definition VIRTIO_MMIO_DEVICE_FEATURES : Z := 0x010.
Definition VIRTIO_MMIO_DRIVER_FEATURES : Z := 0x020.
Definition VIRTIO_MMIO_GUEST_PAGE_SIZE : Z := 0x028.
Definition VIRTIO_MMIO_QUEUE_SEL : Z := 0x030.
Definition VIRTIO_MMIO_QUEUE_NUM_MAX : Z := 0x034.
Definition VIRTIO_MMIO_QUEUE_NUM : Z := 0x038.
Definition VIRTIO_MMIO_QUEUE_PFN : Z := 0x040.
Definition VIRTIO_MMIO_QUEUE_NOTIFY : Z := 0x050.
Definition VIRTIO_MMIO_INTERRUPT_STATUS : Z := 0x060.
Definition VIRTIO_MMIO_INTERRUPT_ACK : Z := 0x064.
Definition VIRTIO_MMIO_STATUS : Z := 0x070.
Definition VIRTIO_CONFIG_S_ACKNOWLEDGE : Z := 1.
Definition VIRTIO_CONFIG_S_DRIVER : Z := 2.
Definition VIRTIO_CONFIG_S_DRIVER_OK : Z := 4.
Definition VIRTIO_CONFIG_S_FEATURES_OK : Z := 8.
Definition VIRTIO_BLK_F_RO : Z := 5.
Definition VIRTIO_BLK_F_SCSI : Z := 7.
Definition VIRTIO_BLK_F_CONFIG_WCE : Z := 11.
Definition VIRTIO_BLK_F_MQ : Z := 12.
Definition VIRTIO_F_ANY_LAYOUT : Z := 27.
Definition VIRTIO_RING_F_INDIRECT_DESC : Z := 28.
Definition VIRTIO_RING_F_EVENT_IDX : Z := 29.
Definition NUM : Z := 8.
Definition VRING_DESC_F_NEXT : Z := 1.
Definition VRING_DESC_F_WRITE : Z := 2.
Definition VIRTIO_BLK_T_IN : Z := 0.
Definition VIRTIO_BLK_T_OUT : Z := 1.
Definition SIZEOF_BLK_REQ : Z := 16.

(** ** Access to the state *)

Definition get_vd : K vdisk := gets k_vd.
Definition upd_vd (f : vdisk -> vdisk) : K unit := modify (fun s => set_k_vd (f (k_vd s)) s).

(** [*R(r)] and [*R(r) = v]. *)
Definition ReadR (r : Z) : K Z := vd <- get_vd ;; ret (u32 (vd_regs vd r)).
Definition WriteR (r v : Z) : K unit := upd_vd (fun vd => set_vd_wrote ((r, u32 v) :: vd_wrote vd) vd).

(** An index into one of the arrays of [NUM] entries. *)
Definition num_index (i : Z) : K nat :=
  if (0 <=? i) && (i <? NUM) then ret (Z.to_nat i) else undefined.

Definition get_desc (i : Z) : K virtq_desc :=
  k <- num_index i ;;
  vd <- get_vd ;;
  match vd_desc vd !! k with Some d => ret d | None => undefined end.

Definition upd_desc (i : Z) (f : virtq_desc -> virtq_desc) : K unit :=
  k <- num_index i ;;
  upd_vd (fun vd => set_vd_desc (alter f k (vd_desc vd)) vd).

Definition get_info (i : Z) : K vdinfo :=
  k <- num_index i ;;
  vd <- get_vd ;;
  match vd_info vd !! k with Some d => ret d | None => undefined end.

Definition upd_info (i : Z) (f : vdinfo -> vdinfo) : K unit :=
  k <- num_index i ;;
  upd_vd (fun vd => set_vd_info (alter f k (vd_info vd)) vd).

Definition get_free (i : Z) : K Z :=
  k <- num_index i ;;
  vd <- get_vd ;;
  match vd_free vd !! k with Some v => ret v | None => undefined end.

Definition set_free (i v : Z) : K unit :=
  k <- num_index i ;;
  upd_vd (fun vd => set_vd_free (<[k := v]> (vd_free vd)) vd).

(** ** The driver *)

Definition clear_feature (f features : Z) : Z := Z.land features (Z.lnot (Z.shiftl 1 f)).

(** [disk_pages] is the address of [disk.pages]. *)
Definition virtio_disk_init (disk_pages : Z) : K unit :=
  magic <- ReadR VIRTIO_MMIO_MAGIC_VALUE ;;
  version <- ReadR VIRTIO_MMIO_VERSION ;;
  device <- ReadR VIRTIO_MMIO_DEVICE_ID ;;
  vendor <- ReadR VIRTIO_MMIO_VENDOR_ID ;;
  if negb (magic =? 0x74726976) || negb (version =? 1) || negb (device =? 2) || negb (vendor =? 0x554d4551)
  then panic "could not find virtio disk"
  else
    let status := VIRTIO_CONFIG_S_ACKNOWLEDGE in
    WriteR VIRTIO_MMIO_STATUS status ;;;
    let status := Z.lor status VIRTIO_CONFIG_S_DRIVER in
    WriteR VIRTIO_MMIO_STATUS status ;;;
    features <- ReadR VIRTIO_MMIO_DEVICE_FEATURES ;;
    let features := clear_feature VIRTIO_BLK_F_RO features in
    let features := clear_feature VIRTIO_BLK_F_SCSI features in
    let features := clear_feature VIRTIO_BLK_F_CONFIG_WCE features in
    let features := clear_feature VIRTIO_BLK_F_MQ features in
    let features := clear_feature VIRTIO_F_ANY_LAYOUT features in
    let features := clear_feature VIRTIO_RING_F_EVENT_IDX features in
    let features := clear_feature VIRTIO_RING_F_INDIRECT_DESC features in
    WriteR VIRTIO_MMIO_DRIVER_FEATURES features ;;;
    let status := Z.lor status VIRTIO_CONFIG_S_FEATURES_OK in
    WriteR VIRTIO_MMIO_STATUS status ;;;
    let status := Z.lor status VIRTIO_CONFIG_S_DRIVER_OK in
    WriteR VIRTIO_MMIO_STATUS status ;;;
    WriteR VIRTIO_MMIO_GUEST_PAGE_SIZE PGSIZE ;;;
    WriteR VIRTIO_MMIO_QUEUE_SEL 0 ;;;
    max <- ReadR VIRTIO_MMIO_QUEUE_NUM_MAX ;;
    if max =? 0 then panic "virtio disk has no queue 0"
    else if max <? NUM then panic "virtio disk max queue too short"
    else
      WriteR VIRTIO_MMIO_QUEUE_NUM NUM ;;;
      (* memset(disk.pages, 0, sizeof(disk.pages)) *)
      upd_vd (fun vd =>
        set_vd_used (replicate (Z.to_nat NUM) 0) (set_vd_usedi 0
          (set_vd_avail (replicate (Z.to_nat NUM) 0) (set_vd_avail_idx 0
            (set_vd_desc (replicate (Z.to_nat NUM) (mkDesc Dma_null 0 0 0)) vd))))) ;;;
      WriteR VIRTIO_MMIO_QUEUE_PFN (Z.shiftr disk_pages PGSHIFT) ;;;
      upd_vd (fun vd => set_vd_free (replicate (Z.to_nat NUM) 1) vd).

Definition alloc_desc : K Z :=
  r <- for_each (seq 0 (Z.to_nat NUM)) (fun i =>
    f <- get_free (Z.of_nat i) ;;
    if negb (f =? 0) then set_free (Z.of_nat i) 0 ;;; ret (Some (Z.of_nat i)) else ret None) ;;
  ret (match r with Some i => i | None => -1 end).

Definition free_desc (i : Z) : K unit :=
  if i >=? NUM then panic "free_desc 1"
  else
    f <- get_free i ;;
    if negb (f =? 0) then panic "free_desc 2"
    else
      upd_desc i (fun _ => mkDesc Dma_null 0 0 0) ;;;
      set_free i 1 ;;;
      wakeup Ch_vdisk_free.

Definition free_chain (i : Z) : K unit :=
  loop (fun i =>
    d <- get_desc i ;;
    free_desc i ;;;
    if hasbit (d_flags d) VRING_DESC_F_NEXT then ret (inl (d_next d)) else ret (inr tt)) i.

(** The three descriptors, or [None] for -1. *)
Definition alloc3_desc : K (option (Z * Z * Z)) :=
  i0 <- alloc_desc ;;
  if i0 <? 0 then ret None
  else
    i1 <- alloc_desc ;;
    if i1 <? 0 then free_desc i0 ;;; ret None
    else
      i2 <- alloc_desc ;;
      if i2 <? 0 then free_desc i0 ;;; free_desc i1 ;;; ret None
      else ret (Some (i0, i1, i2)).

(** The part of [virtio_disk_rw] that fills in the descriptors. *)
Definition format_desc (b : nat) (write : bool) (sector i0 i1 i2 : Z) : K unit :=
  k0 <- num_index i0 ;;
  upd_vd (fun vd => set_vd_ops (alter (fun _ =>
    mkReq (if write then VIRTIO_BLK_T_OUT else VIRTIO_BLK_T_IN) 0 sector) k0 (vd_ops vd)) vd) ;;;
  upd_desc i0 (fun _ => mkDesc (Dma_op i0) SIZEOF_BLK_REQ VRING_DESC_F_NEXT i1) ;;;
  upd_desc i1 (fun _ => mkDesc (Dma_data b) BSIZE
    (Z.lor (if write then 0 else VRING_DESC_F_WRITE) VRING_DESC_F_NEXT) i2) ;;;
  upd_info i0 (set_in_status 0xff) ;;;
  upd_desc i2 (fun _ => mkDesc (Dma_status i0) 1 VRING_DESC_F_WRITE 0).

Module Driver.
Definition virtio_disk_rw (b : nat) (write : bool) : K unit :=
  bf <- get_buf b ;;
  let sector := u32 (b_blockno bf * (BSIZE / 512)) in
  acquire Lk_vdisk ;;;
  '(i0, i1, i2) <- loop (fun _ : unit =>
    r <- alloc3_desc ;;
    match r with
    | Some idx => ret (inr idx)
    | None => sleep Ch_vdisk_free Lk_vdisk ;;; ret (inl tt)
    end) tt ;;
  format_desc b write sector i0 i1 i2 ;;;
  upd_buf b (set_b_disk 1) ;;;
  upd_info i0 (set_in_b (Some b)) ;;;
  upd_vd (fun vd => set_vd_avail (<[Z.to_nat (vd_avail_idx vd mod NUM) := i0]> (vd_avail vd)) vd) ;;;
  upd_vd (fun vd => set_vd_avail_idx (u16 (vd_avail_idx vd + 1)) vd) ;;;
  WriteR VIRTIO_MMIO_QUEUE_NOTIFY 0 ;;;
  loop (fun _ : unit =>
    bf <- get_buf b ;;
    if b_disk bf =? 1 then sleep (Ch_buf b) Lk_vdisk ;;; ret (inl tt) else ret (inr tt)) tt ;;;
  upd_info i0 (set_in_b None) ;;;
  free_chain i0 ;;;
  release Lk_vdisk.
End Driver.

Definition virtio_disk_intr : K unit :=
  acquire Lk_vdisk ;;;
  st <- ReadR VIRTIO_MMIO_INTERRUPT_STATUS ;;
  WriteR VIRTIO_MMIO_INTERRUPT_ACK (Z.land st 3) ;;;
  loop (fun _ : unit =>
    vd <- get_vd ;;
    if negb (vd_used_idx vd =? vd_usedi vd)
    then
      let id := nth (Z.to_nat (vd_used_idx vd mod NUM)) (vd_used vd) 0 in
      info <- get_info id ;;
      if negb (in_status info =? 0) then panic "virtio_disk_intr status"
      else
        match in_b info with
        | None => undefined
        | Some b =>
            upd_buf b (set_b_disk 0) ;;;
            wakeup (Ch_buf b) ;;;
            upd_vd (fun vd => set_vd_used_idx (u16 (vd_used_idx vd + 1)) vd) ;;;
            ret (inl tt)
        end
    else ret (inr tt)) tt ;;;
  release Lk_vdisk.
