(* ===== verification/VirtioFacts.v ===== *)
(** * The disk driver does what its callers assume

    [virtio_disk_rw] of kernel/virtio_disk.c in a closed system: the process
    that waits for the disk sleeps, the scheduler lets the device work and
    takes its interrupt, [virtio_disk_intr] wakes the process up and the
    scheduler switches back to it. The outcome is the transfer that
    [DiskDriver] promises, so that [DiskDriver] has the driver's own code as
    an instance. The device itself is a parameter, of which only what the
    virtio specification says is assumed. *)

From stdpp Require Import functions.
From S2P Require Import Prelude Machine State Printf Sched Sleeplock Bio Virtio.

(** ** A process that waits while no other can run *)

Record lone (s : kstate) (p : nat) (pr : proc) : Prop := {
  ln_p : k_proc s !! p = Some pr;
  ln_running : p_state pr = RUNNING;
  ln_chan : p_chan pr = None;
  ln_prio : 0 <= p_priority pr < NQUEUE;
  ln_nproc : length (k_proc s) = NPROC;
  ln_nqueue : length (k_queue s) = Z.to_nat NQUEUE;
  ln_others : forall q qr, q <> p -> k_proc s !! q = Some qr -> p_state qr <> RUNNABLE;
  (* under RR nothing leaves a queue, and the process is already at the head
     of its own; under MLFQ the queues are empty *)
  ln_queue :
    (k_sched_policy s = RR /\ p_next pr = Some p /\
     exists q t, k_queue s !! Z.to_nat (p_priority pr) = Some q /\ q_head q = Some p /\ q_tail q = Some t) \/
    (k_sched_policy s = MLFQ /\ p_next pr = None /\
     forall i q, k_queue s !! i = Some q -> q_head q = None /\ q_tail q = None)
}.

(** The process as it changes while it waits. *)
Definition in_state (st : procstate) (ch : option chan) (p : nat) (pr : proc) (s : kstate) : kstate :=
  set_k_proc (<[p := set_p_state st (set_p_chan ch pr)]> (k_proc s)) s.

(** The queues once the process is at the head of its own. *)
Definition woken_queues (p : nat) (pr : proc) (s : kstate) : list queue :=
  if k_sched_policy s =? RR then k_queue s
  else alter (fun q => set_q_tail (Some p) (set_q_head (Some p) q)) (Z.to_nat (p_priority pr)) (k_queue s).

Section Lone.
Context (s : kstate) (p : nat) (pr : proc) (ch : chan).
Hypothesis HL : lone s p pr.

Lemma lone_queue : exists q, k_queue s !! Z.to_nat (p_priority pr) = Some q.
Proof.
  destruct HL. apply lookup_lt_is_Some_2. rewrite ln_nqueue0. change NQUEUE with 3 in *. lia.
Qed.

Lemma get_queue_at t i q : k_queue t !! Z.to_nat i = Some q -> 0 <= i < NQUEUE -> get_queue i t = Ret q t.
Proof. intros H Hi. unfold get_queue. rewrite H. by replace ((0 <=? i) && (i <? NQUEUE)) with true by lia. Qed.

Lemma lone_lt : (p < NPROC)%nat.
Proof. destruct HL. rewrite <- ln_nproc0. by apply (lookup_lt_Some _ _ _ ln_p0). Qed.

(** The wake-up puts the process at the head of its queue. *)
Lemma lone_enqueue t :
  k_queue t = k_queue s -> k_proc t !! p = Some (set_p_state RUNNABLE (set_p_chan (Some ch) pr)) ->
  Lk_q (p_priority pr) ∉ k_held t ->
  enqueue_at_head p (p_priority pr) t = Ret 0 (set_k_queue (woken_queues p pr s) t).
Proof.
  intros Hq Hp Hl. destruct lone_queue as [q Eq]. pose proof (ln_prio _ _ _ HL) as Hprio. pose proof lone_lt as Hlt.
  unfold enqueue_at_head, bad_priority, upd_queue, upd_proc.
  replace (Nat.ltb p NPROC) with true by (symmetry; by apply Nat.ltb_lt). cbn [negb].
  replace (p_priority pr >=? 0) with true by lia. cbn [negb andb].
  assert (Hg : get_queue (p_priority pr) t = Ret q t) by (apply get_queue_at; [by rewrite Hq|done]).
  assert (Hg' : get_queue (p_priority pr) (set_k_held (Lk_q (p_priority pr) :: k_held t) t)
                = Ret q (set_k_held (Lk_q (p_priority pr) :: k_held t) t)) by (apply get_queue_at; [kred; by rewrite Hq|done]).
  krun. unfold woken_queues. destruct (ln_queue _ _ _ HL) as [(Hpol & Hn & q' & tl & Eq' & Hh & Ht)|(Hpol & Hn & He)].
  - assert (q' = q) as -> by congruence. rewrite Hh, Ht, Hpol. cbn [is_null andb Z.eqb RR].
    krun. f_equal. rewrite (alter_insert_eq _ _ _ _ Hp).
    replace (<[p:=set_p_next (Some p) (set_p_state RUNNABLE (set_p_chan (Some ch) pr))]> (k_proc t)) with (k_proc t).
    2:{ symmetry. apply list_insert_id. rewrite Hp. f_equal. destruct pr; simpl in *. by subst. }
    rewrite Hq, (alter_insert_eq _ _ _ _ Eq), list_insert_id by (rewrite Eq; destruct q; simpl in *; by subst).
    by destruct t.
  - destruct (He _ _ Eq) as [Hh Ht]. rewrite Hh, Ht, Hpol. cbn [is_null andb]. krun. rewrite Hq. by destruct t.
Qed.

Lemma lone_wakeup t lk :
  k_queue t = k_queue s -> k_proc t = <[p := set_p_state SLEEPING (set_p_chan (Some ch) pr)]> (k_proc s) ->
  k_cur t = None -> k_held t = [lk] -> (forall i, lk <> Lk_proc i) -> (forall i, lk <> Lk_queue i) ->
  (forall q qr, q <> p -> k_proc s !! q = Some qr -> p_chan qr <> Some ch) ->
  wakeup ch t = Ret tt (set_k_queue (woken_queues p pr s)
                  (set_k_proc (<[p := set_p_state RUNNABLE (set_p_chan (Some ch) pr)]> (k_proc s)) t)).
Proof.
  intros Hq Hps Hc Hh Hlk1 Hlk2 Hno. pose proof HL as [Hp _ _ _ Hn _ _ _]. pose proof (lookup_lt_Some _ _ _ Hp) as Hlt.
  set (pr1 := set_p_state SLEEPING (set_p_chan (Some ch) pr)) in *.
  assert (E : <[p := set_p_state RUNNABLE (set_p_chan (Some ch) pr)]> (k_proc s) = <[p := set_p_state RUNNABLE pr1]> (k_proc t)).
  { rewrite Hps. by rewrite list_insert_insert_eq. }
  rewrite E. apply (wakeup_single ch t p pr1 0).
  - by rewrite Hps, length_insert.
  - intros i. rewrite Hh. apply not_elem_of_cons. split; [by apply not_eq_sym|apply not_elem_of_nil].
  - by rewrite Hc.
  - rewrite Hps. by apply list_lookup_insert_eq.
  - done.
  - done.
  - intros q qr Hne. rewrite Hps, list_lookup_insert_ne by done. by apply Hno.
  - rewrite (lone_enqueue (set_k_held _ _)); [done|done| |].
    + kred. rewrite list_lookup_insert_eq; [done|]. by rewrite Hps, length_insert.
    + kred. rewrite Hh. apply not_elem_of_cons. split; [discriminate|]. apply not_elem_of_cons.
      split; [by apply not_eq_sym, Hlk2|apply not_elem_of_nil].
Qed.

(** ** The scheduler switches back to it *)

Lemma dequeue_none t i q :
  k_queue t !! Z.to_nat i = Some q -> q_head q = None -> q_tail q = None -> 0 <= i < NQUEUE -> k_held t = [] ->
  dequeue i t = Ret None t.
Proof.
  intros Hq Hh Ht Hi Hl. unfold dequeue, bad_priority.
  replace (i >=? 0) with true by lia. cbn [negb andb].
  pose proof (get_queue_at t i q Hq Hi) as Hg.
  assert (Hg' : get_queue i (set_k_held (Lk_q i :: k_held t) t) = Ret q (set_k_held (Lk_q i :: k_held t) t)) by by apply get_queue_at.
  krun. rewrite Hh, Ht. cbn [is_null andb]. krun. by destruct t.
Qed.

Definition dispatched (u : kstate) : kstate :=
  set_k_held [Lk_proc p] (set_k_cur (Some p) (set_k_queue (k_queue s)
    (set_k_proc (<[p := set_p_state RUNNING (set_p_chan (Some ch) pr)]> (k_proc s)) u))).

Lemma run_proc_swtch u pr1 :
  k_proc u !! p = Some pr1 -> p_state pr1 = RUNNABLE ->
  exists k, (run_proc p ;;; release (Lk_proc p)) u = Swtch (set_k_cur (Some p) (set_k_proc (<[p := set_p_state RUNNING pr1]> (k_proc u)) u)) k.
Proof.
  intros Hp Hst. unfold run_proc, upd_proc. assert (Hg : get_proc p u = Ret pr1 u) by (unfold get_proc; by rewrite Hp).
  krun. rewrite decide_True by done. krun. rewrite (alter_insert_eq _ _ _ _ Hp).
  eexists. reflexivity.
Qed.

Lemma scheduler_rr_lone u :
  k_proc u = <[p := set_p_state RUNNABLE (set_p_chan (Some ch) pr)]> (k_proc s) -> k_held u = [] -> k_queue u = k_queue s ->
  exists k, scheduler_rr u = Swtch (dispatched u) k.
Proof.
  intros Hps Hh Hq. pose proof HL as [Hp _ _ _ Hn _ Ho _]. pose proof (lookup_lt_Some _ _ _ Hp) as Hlt.
  unfold scheduler_rr. rewrite (seq_around NPROC p) by (rewrite <- Hn; done). rewrite for_all_skip.
  2:{ intros q Hi%elem_of_seq. destruct (lookup_lt_is_Some_2 (k_proc s) q) as [qr Hqr]; [lia|]. krun.
      unfold run_proc. assert (Hg : get_proc q (set_k_held (Lk_proc q :: k_held u) u) = Ret qr (set_k_held (Lk_proc q :: k_held u) u)).
      { unfold get_proc. kred. rewrite Hps, list_lookup_insert_ne by lia. by rewrite Hqr. }
      krun. rewrite decide_False by (apply (Ho q qr); [lia|done]). krun. by destruct u. }
  cbn [for_all].
  destruct (run_proc_swtch (set_k_held (Lk_proc p :: k_held u) u) (set_p_state RUNNABLE (set_p_chan (Some ch) pr))) as [k Ek];
    [kred; rewrite Hps; by apply list_lookup_insert_eq|done|].
  assert (E : (acquire (Lk_proc p) ;;; run_proc p ;;; release (Lk_proc p)) u = Swtch (dispatched u) k).
  { krun. rewrite Ek. f_equal. unfold dispatched. kred. rewrite Hps, list_insert_insert_eq, Hh, <- Hq. by destruct u. }
  rewrite (bind_Swtch _ _ _ _ _ E). eexists. reflexivity.
Qed.

(** The queue after its only process has been taken off. *)
Lemma alter_alter_empty q i (qs : list queue) :
  qs !! i = Some q -> q_head q = None -> q_tail q = None ->
  alter (set_q_tail None) i (alter (set_q_head None) i (alter (fun q => set_q_tail (Some p) (set_q_head (Some p) q)) i qs)) = qs.
Proof.
  intros Hq Hh Ht. rewrite !alter_alter, (alter_insert_eq _ _ _ q Hq). apply list_insert_id. rewrite Hq.
  destruct q; simpl in *. by subst.
Qed.

Lemma dequeue_lone u q :
  k_sched_policy s = MLFQ -> p_next pr = None -> k_queue s !! Z.to_nat (p_priority pr) = Some q -> q_head q = None -> q_tail q = None ->
  k_proc u = <[p := set_p_state RUNNABLE (set_p_chan (Some ch) pr)]> (k_proc s) -> k_held u = [] -> k_queue u = woken_queues p pr s ->
  dequeue (p_priority pr) u = Ret (Some p) (set_k_queue (k_queue s) u).
Proof.
  intros Hpol Hnx Hq Hqh Hqt Hps Hh Hqs. pose proof HL as [Hp _ _ Hprio Hn _ _ _]. pose proof (lookup_lt_Some _ _ _ Hp) as Hlt.
  unfold woken_queues in Hqs. rewrite Hpol in Hqs. cbn [Z.eqb RR MLFQ] in Hqs.
  unfold dequeue, bad_priority, upd_queue, upd_proc. replace (p_priority pr >=? 0) with true by lia. cbn [negb andb].
  set (q1 := set_q_tail (Some p) (set_q_head (Some p) q)).
  assert (Hq1 : k_queue u !! Z.to_nat (p_priority pr) = Some q1) by (by rewrite Hqs, list_lookup_alter_eq, Hq).
  pose proof (get_queue_at u _ q1 Hq1 Hprio) as Hg.
  assert (Hg' : get_queue (p_priority pr) (set_k_held (Lk_q (p_priority pr) :: k_held u) u) = Ret q1 (set_k_held (Lk_q (p_priority pr) :: k_held u) u))
    by by apply get_queue_at.
  krun. change (q_head q1) with (Some p). change (q_tail q1) with (Some p). cbn [is_null andb].
  set (pr1 := set_p_state RUNNABLE (set_p_chan (Some ch) pr)) in *.
  assert (Hp1 : k_proc u !! p = Some pr1) by (rewrite Hps; by apply list_lookup_insert_eq).
  assert (Hgp : forall l, get_proc p (set_k_held l u) = Ret pr1 (set_k_held l u)) by (intros l; unfold get_proc; kred; by rewrite Hp1).
  krun. rewrite set_k_held_held. rewrite (bind_Ret _ _ _ _ _ (Hgp _)). krun.
  replace (p_next pr1) with (@None nat) by done.
  replace (alter (set_p_next None) p (k_proc u)) with (k_proc u).
  2:{ rewrite (alter_insert_eq _ _ _ _ Hp1), list_insert_id; [done|]. rewrite Hp1. f_equal. unfold pr1. destruct pr; simpl in *. by subst. }
  rewrite Hqs. erewrite bind_Ret; [|apply get_queue_at; [kred; by rewrite !list_lookup_alter_eq, Hq|done]].
  cbn [set_q_head set_q_tail q_head is_null when]. krun. rewrite (alter_alter_empty q) by done. by destruct u.
Qed.

Lemma lone_pick u :
  k_sched_policy s = MLFQ -> p_next pr = None -> (forall i q, k_queue s !! i = Some q -> q_head q = None /\ q_tail q = None) ->
  k_proc u = <[p := set_p_state RUNNABLE (set_p_chan (Some ch) pr)]> (k_proc s) -> k_held u = [] -> k_queue u = woken_queues p pr s ->
  pick_mlfq u = Ret (Some p) (set_k_queue (k_queue s) u).
Proof.
  intros Hpol Hnx He Hps Hh Hqs. destruct lone_queue as [q Hq]. destruct (He _ _ Hq) as [Hqh Hqt].
  pose proof (dequeue_lone u q Hpol Hnx Hq Hqh Hqt Hps Hh Hqs) as Ed. pose proof HL as [_ _ _ Hprio _ Hnq _ _].
  change NQUEUE with 3 in Hprio. change (Z.to_nat NQUEUE) with 3%nat in Hnq.
  assert (Hnone : forall i, 0 <= i < 3 -> i <> p_priority pr -> dequeue i u = Ret None u).
  { intros i Hi Hne. destruct (lookup_lt_is_Some_2 (k_queue s) (Z.to_nat i)) as [q' Hq']; [lia|]. destruct (He _ _ Hq') as [Hh' Ht'].
    apply (dequeue_none u i q'); try done. rewrite Hqs. unfold woken_queues. rewrite Hpol. cbn [Z.eqb RR MLFQ].
    rewrite list_lookup_alter_ne by lia. done. }
  unfold pick_mlfq, HIGH, MEDIUM, LOW in *.
  destruct (decide (p_priority pr = 0)) as [E|H0]; [rewrite E in Ed; by rewrite (bind_Ret _ _ _ _ _ Ed)|].
  rewrite (bind_Ret _ _ _ _ _ (Hnone 0 ltac:(lia) ltac:(lia))).
  destruct (decide (p_priority pr = 1)) as [E|H1]; [rewrite E in Ed; by rewrite (bind_Ret _ _ _ _ _ Ed)|].
  rewrite (bind_Ret _ _ _ _ _ (Hnone 1 ltac:(lia) ltac:(lia))). by replace 2 with (p_priority pr) by lia.
Qed.

Lemma lone_dispatch u :
  k_proc u = <[p := set_p_state RUNNABLE (set_p_chan (Some ch) pr)]> (k_proc s) -> k_held u = [] ->
  k_queue u = woken_queues p pr s -> k_sched_policy u = k_sched_policy s ->
  exists k, scheduler_round u = Swtch (dispatched u) k.
Proof.
  intros Hps Hh Hqs Hpol. pose proof HL as [Hp _ _ _ _ _ _ Hcase]. pose proof (lookup_lt_Some _ _ _ Hp) as Hlt.
  unfold scheduler_round. krun. rewrite Hpol.
  destruct Hcase as [(Ep & _)|(Ep & Hnx & He)]; rewrite Ep.
  - apply scheduler_rr_lone; [done|done|]. rewrite Hqs. unfold woken_queues. by rewrite Ep.
  - change (MLFQ =? RR) with false. change (MLFQ =? MLFQ) with true. cbv iota.
    unfold scheduler_mlfq. rewrite (bind_Ret _ _ _ _ _ (lone_pick u Ep Hnx He Hps Hh Hqs)). krun.
    destruct (run_proc_swtch (set_k_held (Lk_proc p :: k_held u) (set_k_queue (k_queue s) u))
                (set_p_state RUNNABLE (set_p_chan (Some ch) pr))) as [k Ek];
      [kred; rewrite Hps; by apply list_lookup_insert_eq|done|].
    rewrite Ek. eexists. f_equal. unfold dispatched. kred. rewrite Hps, list_insert_insert_eq, Hh. by destruct u.
Qed.
End Lone.

(** ** The device *)

(** The transfer between buffer [b] and block [blk]. *)
Definition transfer (b : nat) (bf : buf) (write : bool) (blk : Z) (fs : fsstate) : fsstate :=
  if write
  then set_fs_writes ((blk, b_data bf) :: fs_writes fs) (set_fs_disk (<[blk := b_data bf]> (fs_disk fs)) fs)
  else fbuf b (set_b_data (fs_disk fs blk)) fs.

(** The rings and the status byte once the request with first descriptor [h]
    is done; the registers may read anything. *)
Definition used_up (h : Z) (regs : Z -> Z) (vd : vdisk) : vdisk :=
  set_vd_regs regs (set_vd_usedi (u16 (vd_usedi vd + 1))
    (set_vd_used (<[Z.to_nat (vd_usedi vd mod NUM) := h]> (vd_used vd))
      (set_vd_info (alter (set_in_status 0) (Z.to_nat h) (vd_info vd)) vd))).

(** One request on the available ring that is not on the used ring: a chain
    of a request header, the data of buffer [b] and a status byte (virtio 1.1,
    sections 2.6 and 5.2). *)
Record pending (vd : vdisk) (h i1 i2 : Z) (b : nat) (write : bool) (sector : Z) : Prop := {
  pd_idx : vd_avail_idx vd = u16 (vd_usedi vd + 1);
  pd_head : vd_avail vd !! Z.to_nat (vd_usedi vd mod NUM) = Some h;
  pd_range : 0 <= h < NUM /\ 0 <= i1 < NUM /\ 0 <= i2 < NUM;
  pd_op : vd_ops vd !! Z.to_nat h = Some (mkReq (if write then VIRTIO_BLK_T_OUT else VIRTIO_BLK_T_IN) 0 sector);
  pd_desc0 : vd_desc vd !! Z.to_nat h = Some (mkDesc (Dma_op h) SIZEOF_BLK_REQ VRING_DESC_F_NEXT i1);
  pd_desc1 : vd_desc vd !! Z.to_nat i1 = Some (mkDesc (Dma_data b) BSIZE
               (Z.lor (if write then 0 else VRING_DESC_F_WRITE) VRING_DESC_F_NEXT) i2);
  pd_desc2 : vd_desc vd !! Z.to_nat i2 = Some (mkDesc (Dma_status h) 1 VRING_DESC_F_WRITE 0);
  pd_info : is_Some (vd_info vd !! Z.to_nat h)
}.

(** What is assumed of the device: it serves such a request, reading or
    writing the two sectors of a block, reports success and puts the request
    on the used ring. *)
Class VirtioDevice := {
  device : kstate -> kstate;
  device_serves : forall s h i1 i2 b bf write blk,
    pending (k_vd s) h i1 i2 b write (2 * blk) -> fs_buf (k_fs s) !! b = Some bf -> 0 <= blk < 2 ^ 31 ->
    exists regs, device s = set_k_vd (used_up h regs (k_vd s)) (set_k_fs (transfer b bf write blk (k_fs s)) s)
}.

(** While a process waits for the disk: the scheduler, which it has switched
    to, lets go of it and enables interrupts; the device works and interrupts;
    then comes the scheduler's next round. *)
Definition disk_wait `{VirtioDevice} : K unit := fun s =>
  match (p <- curproc ;;
         modify (set_k_cur None) ;;;
         release (Lk_proc p) ;;;
         modify device ;;;
         virtio_disk_intr ;;;
         scheduler_round) s with
  | Swtch s' _ => Ret tt s'
  | Ret _ s' | Fuel s' => Fuel s'
  | Panic msg s' => Panic msg s'
  end.

(** ** The interrupt handler *)

Lemma u16_next i : 0 <= i < 2 ^ 16 -> u16 (i + 1) <> i.
Proof. intros Hi. unfold u16. destruct (decide (i = 2 ^ 16 - 1)) as [->|Hne]; [done|]. rewrite Z.mod_small; lia. Qed.

Lemma nth_lookup_Z (l : list Z) i x : l !! i = Some x -> nth i l 0 = x.
Proof. revert i. induction l as [|y l IH]; intros [|i] H; simpl in *; try done; [congruence|by apply IH]. Qed.

Definition acked (vd : vdisk) : vdisk :=
  set_vd_wrote ((VIRTIO_MMIO_INTERRUPT_ACK, u32 (Z.land (u32 (vd_regs vd VIRTIO_MMIO_INTERRUPT_STATUS)) 3)) :: vd_wrote vd) vd.

Definition handled (vd : vdisk) : vdisk := set_vd_used_idx (u16 (vd_used_idx vd + 1)) (acked vd).

Lemma intr_run v v2 h b ps qs :
  let vd := k_vd v in
  k_held v = [] -> 0 <= vd_used_idx vd < 2 ^ 16 -> vd_usedi vd = u16 (vd_used_idx vd + 1) ->
  vd_used vd !! Z.to_nat (vd_used_idx vd mod NUM) = Some h -> 0 <= h < NUM ->
  vd_info vd !! Z.to_nat h = Some (mkInfo (Some b) 0) ->
  wakeup (Ch_buf b) (set_k_fs (fbuf b (set_b_disk 0) (k_fs v)) (set_k_vd (acked vd) (set_k_held [Lk_vdisk] v))) = Ret tt v2 ->
  v2 = set_k_queue qs (set_k_proc ps (set_k_fs (fbuf b (set_b_disk 0) (k_fs v)) (set_k_vd (acked vd) (set_k_held [Lk_vdisk] v)))) ->
  virtio_disk_intr v = Ret tt (set_k_held [] (set_k_vd (handled vd) v2)).
Proof.
  intros vd Hh Hi Hu Hused Hr Hinfo Ew Ev2. unfold virtio_disk_intr, ReadR, WriteR, get_vd, upd_vd, upd_buf, upd_fs. krun.
  set (vd1 := set_vd_wrote _ _). change vd1 with (acked vd). clear vd1. rewrite Hh.
  set (s1 := set_k_vd (acked vd) (set_k_held [Lk_vdisk] v)) in *.
  set (s2 := set_k_vd (handled vd) v2).
  match goal with |- context [loop ?f tt] => set (body := f) end.
  assert (E1 : body tt s1 = Ret (inl tt) s2).
  { unfold body, get_info, num_index. krun.
    change (k_vd s1) with (acked vd). change (vd_used_idx (acked vd)) with (vd_used_idx vd). change (vd_usedi (acked vd)) with (vd_usedi vd).
    change (vd_used (acked vd)) with (vd_used vd). rewrite Hu. pose proof (u16_next _ Hi).
    replace (vd_used_idx vd =? u16 (vd_used_idx vd + 1)) with false by (symmetry; by apply Z.eqb_neq, not_eq_sym). cbn [negb].
    rewrite (nth_lookup_Z _ _ _ Hused). replace ((0 <=? h) && (h <? NUM)) with true by lia. krun.
    unfold get_vd. krun. change (vd_info (k_vd s1)) with (vd_info vd). rewrite Hinfo. krun. cbn [in_status in_b Z.eqb negb].
    unfold upd_buf, upd_fs. krun. change (k_fs s1) with (k_fs v). krun. unfold s2. rewrite Ev2. reflexivity. }
  assert (E2 : body tt s2 = Ret (inr tt) s2).
  { unfold body, get_vd. krun. change (k_vd s2) with (handled vd). change (vd_used_idx (handled vd)) with (u16 (vd_used_idx vd + 1)).
    change (vd_usedi (handled vd)) with (vd_usedi vd). rewrite Hu, Z.eqb_refl. done. }
  rewrite (bind_Ret (loop body tt) _ s1 tt s2).
  2:{ apply (loop_runs body 2); [|done]. eapply runs_step; [exact E1|]. by apply runs_done. }
  rewrite (release_head _ []); [done|]. unfold s2. rewrite Ev2. done.
Qed.

(** ** The wait *)

Section Wait.
Context `{VD : VirtioDevice}.

Definition after_io (h : Z) (regs : Z -> Z) (b : nat) (bf : buf) (write : bool) (blk : Z) (s : kstate) : kstate :=
  set_k_vd (handled (used_up h regs (k_vd s))) (set_k_fs (fbuf b (set_b_disk 0) (transfer b bf write blk (k_fs s))) s).

Lemma disk_wait_run s p pr h i1 i2 b bf write blk st :
  lone s p pr -> k_cur s = Some p -> k_held s = [Lk_vdisk] -> (forall q qr, q <> p -> k_proc s !! q = Some qr -> p_chan qr <> Some (Ch_buf b)) ->
  pending (k_vd s) h i1 i2 b write (2 * blk) -> fs_buf (k_fs s) !! b = Some bf -> 0 <= blk < 2 ^ 31 ->
  vd_used_idx (k_vd s) = vd_usedi (k_vd s) -> 0 <= vd_usedi (k_vd s) < 2 ^ 16 -> length (vd_used (k_vd s)) = Z.to_nat NUM ->
  vd_info (k_vd s) !! Z.to_nat h = Some (mkInfo (Some b) st) ->
  exists regs, disk_wait (asleep (Ch_buf b) p pr s) =
    Ret tt (set_k_held [Lk_proc p] (in_state RUNNING (Some (Ch_buf b)) p pr (after_io h regs b bf write blk s))).
Proof.
  intros HL Hc Hh Hno Hpd Hb Hblk Hidx Hu Hlen Hinfo. unfold disk_wait, asleep.
  set (ps1 := <[p := _]> (k_proc s)).
  assert (Hcp : forall l ps, curproc (set_k_held l (set_k_proc ps s)) = Ret p (set_k_held l (set_k_proc ps s)))
    by (intros; unfold curproc; kred; by rewrite Hc).
  rewrite (bind_Ret _ _ _ _ _ (Hcp _ _)). krun.
  set (t := set_k_held [] _).
  destruct (device_serves t h i1 i2 b bf write blk Hpd Hb Hblk) as [regs Ed]. exists regs. rewrite Ed.
  set (u := set_k_vd (used_up h regs (k_vd t)) _).
  set (u1 := set_k_fs (fbuf b (set_b_disk 0) (k_fs u)) (set_k_vd (acked (k_vd u)) (set_k_held [Lk_vdisk] u))).
  pose proof (lone_wakeup s p pr (Ch_buf b) HL u1 Lk_vdisk eq_refl eq_refl eq_refl eq_refl ltac:(done) ltac:(done) Hno) as Ew.
  assert (Hr : 0 <= h < NUM) by apply Hpd.
  assert (Ei : virtio_disk_intr u = Ret tt (set_k_held [] (set_k_vd (handled (k_vd u)) (set_k_queue (woken_queues p pr s)
            (set_k_proc (<[p:=set_p_state RUNNABLE (set_p_chan (Some (Ch_buf b)) pr)]> (k_proc s)) u1))))).
  { eapply (intr_run u _ h b); [done| | | | | |exact Ew|done].
    - change (0 <= vd_used_idx (k_vd s) < 2 ^ 16). by rewrite Hidx.
    - change (u16 (vd_usedi (k_vd s) + 1) = u16 (vd_used_idx (k_vd s) + 1)). by rewrite Hidx.
    - change (<[Z.to_nat (vd_usedi (k_vd s) mod NUM) := h]> (vd_used (k_vd s)) !! Z.to_nat (vd_used_idx (k_vd s) mod NUM) = Some h).
      rewrite Hidx. apply list_lookup_insert_eq. rewrite Hlen. pose proof (Z.mod_pos_bound (vd_usedi (k_vd s)) NUM eq_refl). lia.
    - done.
    - change (alter (set_in_status 0) (Z.to_nat h) (vd_info (k_vd s)) !! Z.to_nat h = Some (mkInfo (Some b) 0)).
      by rewrite list_lookup_alter_eq, Hinfo. }
  rewrite (bind_Ret _ _ _ _ _ Ei). set (w := set_k_held [] _).
  destruct (lone_dispatch s p pr (Ch_buf b) HL w eq_refl eq_refl eq_refl eq_refl) as [k Ek].
  rewrite Ek. f_equal. unfold dispatched, w, in_state, after_io. kred.
  unfold u1, u, t. kred. rewrite <- Hc. clear. destruct s. by kflat.
Qed.

Lemma sleep_closed s p pr h i1 i2 b bf write blk st :
  lone s p pr -> k_cur s = Some p -> k_held s = [Lk_vdisk] -> (forall q qr, q <> p -> k_proc s !! q = Some qr -> p_chan qr <> Some (Ch_buf b)) ->
  pending (k_vd s) h i1 i2 b write (2 * blk) -> fs_buf (k_fs s) !! b = Some bf -> 0 <= blk < 2 ^ 31 ->
  vd_used_idx (k_vd s) = vd_usedi (k_vd s) -> 0 <= vd_usedi (k_vd s) < 2 ^ 16 -> length (vd_used (k_vd s)) = Z.to_nat NUM ->
  vd_info (k_vd s) !! Z.to_nat h = Some (mkInfo (Some b) st) ->
  exists regs, closed disk_wait (sleep (Ch_buf b) Lk_vdisk) s = Ret tt (after_io h regs b bf write blk s).
Proof.
  intros HL Hc Hh Hno Hpd Hb Hblk Hidx Hu Hlen Hinfo. pose proof HL as [Hp Hst Hch _ _ _ _ _].
  destruct (sleep_swtch (Ch_buf b) Lk_vdisk s p pr Hc Hh ltac:(done) Hp Hst) as (k & Es & Hk).
  destruct (disk_wait_run s p pr h i1 i2 b bf write blk st HL Hc Hh Hno Hpd Hb Hblk Hidx Hu Hlen Hinfo) as [regs Ew].
  exists regs. unfold closed. rewrite Es. cbn [settle]. rewrite Ew, Hk by done. cbn [settle]. f_equal.
  unfold awake, in_state, after_io. kred. pose proof (lookup_lt_Some _ _ _ Hp) as Hlt.
  rewrite (alter_insert_eq _ _ _ _ (list_lookup_insert_eq _ _ _ Hlt)), list_insert_insert_eq, list_insert_id.
  2:{ rewrite Hp. f_equal. destruct pr; simpl in *. by subst. }
  rewrite <- Hh. by destruct s.
Qed.

Definition wait_body (b : nat) (_ : unit) : K (unit + unit) :=
  bf <- get_buf b ;;
  if b_disk bf =? 1 then sleep (Ch_buf b) Lk_vdisk ;;; ret (inl tt) else ret (inr tt).

Lemma wait_closed s p pr h i1 i2 b bf write blk st :
  lone s p pr -> k_cur s = Some p -> k_held s = [Lk_vdisk] -> (forall q qr, q <> p -> k_proc s !! q = Some qr -> p_chan qr <> Some (Ch_buf b)) ->
  pending (k_vd s) h i1 i2 b write (2 * blk) -> fs_buf (k_fs s) !! b = Some bf -> b_disk bf = 1 -> 0 <= blk < 2 ^ 31 ->
  vd_used_idx (k_vd s) = vd_usedi (k_vd s) -> 0 <= vd_usedi (k_vd s) < 2 ^ 16 -> length (vd_used (k_vd s)) = Z.to_nat NUM ->
  vd_info (k_vd s) !! Z.to_nat h = Some (mkInfo (Some b) st) ->
  exists regs, closed disk_wait (loop (wait_body b) tt) s = Ret tt (after_io h regs b bf write blk s).
Proof.
  intros HL Hc Hh Hno Hpd Hb Hbd Hblk Hidx Hu Hlen Hinfo.
  destruct (sleep_closed s p pr h i1 i2 b bf write blk st HL Hc Hh Hno Hpd Hb Hblk Hidx Hu Hlen Hinfo) as [regs Es].
  exists regs. rewrite closed_loop. set (s' := after_io h regs b bf write blk s) in *.
  assert (Hg : get_buf b s = Ret bf s) by (unfold get_buf; by rewrite Hb).
  apply (loop_runs _ 2); [|done]. apply (runs_step _ 1 tt s tt s').
  - unfold wait_body. rewrite (closed_bind_Ret _ _ _ _ _ _ (closed_Ret _ _ _ _ _ Hg)), Hbd. cbn [Z.eqb Pos.eqb].
    by rewrite (closed_bind_Ret _ _ _ _ _ _ Es).
  - apply runs_done. assert (exists bf', fs_buf (k_fs s') !! b = Some bf' /\ b_disk bf' = 0) as (bf' & Hb' & Hd').
    { unfold s', after_io, fbuf. kred. cbn [set_fs_buf fs_buf]. rewrite list_lookup_alter_eq. unfold transfer, fbuf.
      destruct write; cbn [set_fs_writes set_fs_disk set_fs_buf fs_buf]; rewrite ?list_lookup_alter_eq, Hb; by eexists. }
    assert (Hg' : get_buf b s' = Ret bf' s') by (unfold get_buf; by rewrite Hb').
    unfold wait_body. by rewrite (closed_bind_Ret _ _ _ _ _ _ (closed_Ret _ _ _ _ _ Hg')), Hd'.
Qed.
End Wait.

(** ** The driver between two requests *)

Record vd_idle (vd : vdisk) : Prop := {
  vi_free : vd_free vd = replicate (Z.to_nat NUM) 1;
  vi_desc : length (vd_desc vd) = Z.to_nat NUM;
  vi_info : length (vd_info vd) = Z.to_nat NUM;
  vi_ops : length (vd_ops vd) = Z.to_nat NUM;
  vi_avail : length (vd_avail vd) = Z.to_nat NUM;
  vi_used : length (vd_used vd) = Z.to_nat NUM;
  vi_used_idx : vd_used_idx vd = vd_usedi vd;
  vi_avail_idx : vd_avail_idx vd = vd_usedi vd;
  vi_range : 0 <= vd_usedi vd < 2 ^ 16
}.

(** A list of [NUM] elements, spelled out. *)
Ltac spell l :=
  do 8 (destruct l as [|? l]; [discriminate|]); destruct l; [|discriminate].

(** What [virtio_disk_rw] leaves in the shared memory when it starts to wait:
    descriptors 0, 1, 2 taken, the request on the available ring. *)
Record submitted (b : nat) (write : bool) (sector : Z) (vd vd1 : vdisk) : Prop := {
  sm_pending : pending vd1 0 1 2 b write sector;
  sm_free : vd_free vd1 = [0; 0; 0; 1; 1; 1; 1; 1];
  sm_info : vd_info vd1 !! 0%nat = Some (mkInfo (Some b) 0xff);
  sm_lengths : length (vd_desc vd1) = Z.to_nat NUM /\ length (vd_info vd1) = Z.to_nat NUM /\ length (vd_ops vd1) = Z.to_nat NUM /\
               length (vd_avail vd1) = Z.to_nat NUM /\ vd_used vd1 = vd_used vd;
  sm_idx : vd_used_idx vd1 = vd_used_idx vd /\ vd_usedi vd1 = vd_usedi vd
}.

Definition rw_finish : K unit := upd_info 0 (set_in_b None) ;;; free_chain 0 ;;; release Lk_vdisk.

Lemma alloc3_run s : vd_free (k_vd s) = replicate (Z.to_nat NUM) 1 ->
  alloc3_desc s = Ret (Some (0, 1, 2)) (set_k_vd (set_vd_free [0; 0; 0; 1; 1; 1; 1; 1] (k_vd s)) s).
Proof. intros H. destruct s as [? ? ? ? ? ? ? ? ? ? ? ? ? ? ? ? vd]. destruct vd. simpl in H. subst. reflexivity. Qed.

Definition formatted (b : nat) (write : bool) (sector : Z) (vd : vdisk) : vdisk :=
  set_vd_desc
    (alter (fun _ => mkDesc (Dma_status 0) 1 VRING_DESC_F_WRITE 0) 2%nat
      (alter (fun _ => mkDesc (Dma_data b) BSIZE (Z.lor (if write then 0 else VRING_DESC_F_WRITE) VRING_DESC_F_NEXT) 2) 1%nat
        (alter (fun _ => mkDesc (Dma_op 0) SIZEOF_BLK_REQ VRING_DESC_F_NEXT 1) 0%nat (vd_desc vd))))
    (set_vd_info (alter (set_in_status 0xff) 0%nat (vd_info vd))
      (set_vd_ops (alter (fun _ => mkReq (if write then VIRTIO_BLK_T_OUT else VIRTIO_BLK_T_IN) 0 sector) 0%nat (vd_ops vd)) vd)).

Lemma format_run s b write sector : format_desc b write sector 0 1 2 s = Ret tt (set_k_vd (formatted b write sector (k_vd s)) s).
Proof. by destruct s as [? ? ? ? ? ? ? ? ? ? ? ? ? ? ? ? []]. Qed.

Definition posted (b : nat) (vd : vdisk) : vdisk :=
  set_vd_wrote ((VIRTIO_MMIO_QUEUE_NOTIFY, 0) :: vd_wrote vd)
    (set_vd_avail_idx (u16 (vd_avail_idx vd + 1))
      (set_vd_avail (<[Z.to_nat (vd_avail_idx vd mod NUM) := 0]> (vd_avail vd))
        (set_vd_info (alter (set_in_b (Some b)) 0%nat (vd_info vd)) vd))).

Lemma post_run {A} (m : K A) s b :
  (upd_buf b (set_b_disk 1) ;;;
   upd_info 0 (set_in_b (Some b)) ;;;
   upd_vd (fun vd => set_vd_avail (<[Z.to_nat (vd_avail_idx vd mod NUM) := 0]> (vd_avail vd)) vd) ;;;
   upd_vd (fun vd => set_vd_avail_idx (u16 (vd_avail_idx vd + 1)) vd) ;;;
   WriteR VIRTIO_MMIO_QUEUE_NOTIFY 0 ;;;
   m) s = m (set_k_vd (posted b (k_vd s)) (set_k_fs (fbuf b (set_b_disk 1) (k_fs s)) s)).
Proof. by destruct s as [? ? ? ? ? ? ? ? ? ? ? ? ? ? ? ? []]. Qed.

Lemma submitted_posted b write sector vd :
  vd_idle vd -> submitted b write sector vd (posted b (formatted b write sector (set_vd_free [0; 0; 0; 1; 1; 1; 1; 1] vd))).
Proof.
  intros [Hfree Hd Hin Ho Ha Hu Hi1 Hi2 Hr].
  destruct vd as [desc ai avail ui used free ui2 info ops regs wrote]. simpl in *. subst.
  spell desc. spell info. spell ops. split; cbn; try done; [|by rewrite length_insert].
  split; cbn; try done. apply list_lookup_insert_eq. rewrite Ha. pose proof (Z.mod_pos_bound ui NUM eq_refl). lia.
Qed.

Lemma rw_submit s b bf write :
  vd_idle (k_vd s) -> k_held s = [] -> fs_buf (k_fs s) !! b = Some bf -> 0 <= b_blockno bf < 2 ^ 31 ->
  exists vd1, submitted b write (2 * b_blockno bf) (k_vd s) vd1 /\
    Driver.virtio_disk_rw b write s =
    (loop (wait_body b) tt ;;; rw_finish) (set_k_vd vd1 (set_k_fs (fbuf b (set_b_disk 1) (k_fs s)) (set_k_held [Lk_vdisk] s))).
Proof.
  intros Hidle Hh Hb Hblk. eexists. split; [by apply submitted_posted|]. unfold Driver.virtio_disk_rw.
  assert (Hg : get_buf b s = Ret bf s) by (unfold get_buf; by rewrite Hb).
  krun. rewrite Hh. change (BSIZE / 512) with 2.
  replace (u32 (b_blockno bf * 2)) with (2 * b_blockno bf) by (unfold u32; rewrite Z.mod_small; lia).
  set (s1 := set_k_held [Lk_vdisk] s).
  erewrite bind_Ret; [|apply (loop_runs _ 1); [apply runs_done; by rewrite (bind_Ret _ _ _ _ _ (alloc3_run s1 (vi_free _ Hidle)))|done]].
  cbv beta iota. rewrite (bind_Ret _ _ _ _ _ (format_run _ _ _ _)), post_run.
  unfold wait_body, rw_finish. refine (f_equal (bind _ _) _). unfold s1. kred. by destruct s.
Qed.

(** ** Giving the descriptors back *)

Definition freed (i : nat) (vd : vdisk) : vdisk :=
  set_vd_free (<[i := 1]> (vd_free vd)) (set_vd_desc (alter (fun _ => mkDesc Dma_null 0 0 0) i (vd_desc vd)) vd).

Section Finish.
Context (s : kstate).
Hypothesis Hw : forall vd, wakeup Ch_vdisk_free (set_k_vd vd s) = Ret tt (set_k_vd vd s).

Lemma num_index_run i (t : kstate) : 0 <= i < NUM -> num_index i t = Ret (Z.to_nat i) t.
Proof. intros Hi. unfold num_index. by replace ((0 <=? i) && (i <? NUM)) with true by lia. Qed.

Lemma free_desc_run i vd :
  0 <= i < NUM -> vd_free vd !! Z.to_nat i = Some 0 -> free_desc i (set_k_vd vd s) = Ret tt (set_k_vd (freed (Z.to_nat i) vd) s).
Proof.
  intros Hi Hf. unfold free_desc. replace (i >=? NUM) with false by lia. unfold get_free, upd_desc, set_free, get_vd, upd_vd.
  pose proof (fun t => num_index_run i t Hi) as Hn.
  assert (Hg : (k <- num_index i ;; vd <- gets k_vd ;; match vd_free vd !! k with Some v => ret v | None => undefined end) (set_k_vd vd s)
               = Ret 0 (set_k_vd vd s)) by (rewrite (bind_Ret _ _ _ _ _ (Hn _)); krun; by rewrite Hf).
  rewrite (bind_Ret _ _ _ _ _ Hg). cbn [Z.eqb negb]. krun. rewrite (bind_Ret _ _ _ _ _ (Hn _)). krun.
  rewrite (bind_Ret _ _ _ _ _ (Hn _)). krun. apply Hw.
Qed.

Lemma chain_step i vd d :
  0 <= i < NUM -> vd_free vd !! Z.to_nat i = Some 0 -> vd_desc vd !! Z.to_nat i = Some d ->
  (d <- get_desc i ;; free_desc i ;;; if hasbit (d_flags d) VRING_DESC_F_NEXT then ret (inl (d_next d)) else ret (inr tt)) (set_k_vd vd s)
  = Ret (if hasbit (d_flags d) VRING_DESC_F_NEXT then inl (d_next d) else inr tt) (set_k_vd (freed (Z.to_nat i) vd) s).
Proof.
  intros Hi Hf Hd. unfold get_desc, get_vd.
  assert (Hg : (k <- num_index i ;; vd <- gets k_vd ;; match vd_desc vd !! k with Some d => ret d | None => undefined end) (set_k_vd vd s)
               = Ret d (set_k_vd vd s)) by (rewrite (bind_Ret _ _ _ _ _ (num_index_run i _ Hi)); krun; by rewrite Hd).
  rewrite (bind_Ret _ _ _ _ _ Hg), (bind_Ret _ _ _ _ _ (free_desc_run i vd Hi Hf)). by destruct (hasbit _ _).
Qed.

Lemma free_chain_run vd d0 d1 d2 :
  vd_free vd = [0; 0; 0; 1; 1; 1; 1; 1] -> vd_desc vd !! 0%nat = Some d0 -> vd_desc vd !! 1%nat = Some d1 -> vd_desc vd !! 2%nat = Some d2 ->
  hasbit (d_flags d0) VRING_DESC_F_NEXT = true -> d_next d0 = 1 -> hasbit (d_flags d1) VRING_DESC_F_NEXT = true -> d_next d1 = 2 ->
  hasbit (d_flags d2) VRING_DESC_F_NEXT = false ->
  free_chain 0 (set_k_vd vd s) = Ret tt (set_k_vd (freed 2 (freed 1 (freed 0 vd))) s).
Proof.
  intros Hf H0 H1 H2 F0 N0 F1 N1 F2. unfold free_chain. apply (loop_runs _ 3); [|done].
  apply (runs_step _ 2 _ _ 1 (set_k_vd (freed 0 vd) s)).
  { rewrite (chain_step 0 vd d0); [by rewrite F0, N0|done|by rewrite Hf|done]. }
  apply (runs_step _ 1 _ _ 2 (set_k_vd (freed 1 (freed 0 vd)) s)).
  { rewrite (chain_step 1 (freed 0 vd) d1); [by rewrite F1, N1|done| |].
    - cbn [freed set_vd_free set_vd_desc vd_free]. by rewrite Hf.
    - cbn [freed set_vd_free set_vd_desc vd_desc]. by rewrite list_lookup_alter_ne. }
  apply runs_done. rewrite (chain_step 2 (freed 1 (freed 0 vd)) d2); [by rewrite F2|done| |].
  - cbn [freed set_vd_free set_vd_desc vd_free]. by rewrite Hf.
  - cbn [freed set_vd_free set_vd_desc vd_desc]. by rewrite !list_lookup_alter_ne.
Qed.

Lemma rw_finish_run vd d0 d1 d2 :
  k_held s = [Lk_vdisk] ->
  vd_free vd = [0; 0; 0; 1; 1; 1; 1; 1] -> vd_desc vd !! 0%nat = Some d0 -> vd_desc vd !! 1%nat = Some d1 -> vd_desc vd !! 2%nat = Some d2 ->
  hasbit (d_flags d0) VRING_DESC_F_NEXT = true -> d_next d0 = 1 -> hasbit (d_flags d1) VRING_DESC_F_NEXT = true -> d_next d1 = 2 ->
  hasbit (d_flags d2) VRING_DESC_F_NEXT = false ->
  rw_finish (set_k_vd vd s) =
  Ret tt (set_k_held [] (set_k_vd (freed 2 (freed 1 (freed 0 (set_vd_info (alter (set_in_b None) 0%nat (vd_info vd)) vd)))) s)).
Proof.
  intros Hh Hf H0 H1 H2 F0 N0 F1 N1 F2. unfold rw_finish, upd_info, upd_vd. krun.
  rewrite (bind_Ret _ _ _ _ _ (num_index_run 0 _ ltac:(done))). krun.
  set (vd1 := set_vd_info _ vd).
  rewrite (bind_Ret _ _ _ _ _ (free_chain_run vd1 d0 d1 d2 Hf H0 H1 H2 F0 N0 F1 N1 F2)).
  by rewrite (release_head _ []).
Qed.
End Finish.

(** ** The driver implements [DiskDriver] *)

Lemma lone_ext s s' p pr :
  k_proc s' = k_proc s -> k_queue s' = k_queue s -> k_sched_policy s' = k_sched_policy s -> lone s p pr -> lone s' p pr.
Proof. intros H1 H2 H3 [? ? ? ? ? ? ? ?]. split; rewrite ?H1, ?H2, ?H3; done. Qed.

(** Between requests, with the process that does file-system work the only
    one that can run. *)
Definition disk_ready (s : kstate) : Prop :=
  vd_idle (k_vd s) /\ exists p pr, k_cur s = Some p /\ lone s p pr.

Lemma disk_ready_ext s s' :
  k_vd s' = k_vd s -> k_proc s' = k_proc s -> k_queue s' = k_queue s -> k_cur s' = k_cur s ->
  k_sched_policy s' = k_sched_policy s -> disk_ready s -> disk_ready s'.
Proof.
  intros H1 H2 H3 H4 H5 (Hv & p & pr & Hc & HL). unfold disk_ready. rewrite H1, H4. split; [done|].
  exists p, pr. split; [done|]. by apply (lone_ext s).
Qed.

Lemma transfer_xfer b bf write fs :
  fs_buf fs !! b = Some bf -> b_disk bf = 0 ->
  fbuf b (set_b_disk 0) (transfer b (set_b_disk 1 bf) write (b_blockno bf) (fbuf b (set_b_disk 1) fs)) = xfer b bf write fs.
Proof.
  intros Hb Hd. unfold transfer, xfer, fbuf. destruct write.
  - cbn [set_fs_writes set_fs_disk set_fs_buf fs_writes fs_disk fs_buf b_data set_b_disk]. rewrite alter_alter.
    rewrite (alter_insert_eq _ _ _ bf Hb), list_insert_id by (rewrite Hb; destruct bf; simpl in *; by subst). by destruct fs.
  - cbn [set_fs_buf fs_disk fs_buf]. rewrite !alter_alter. rewrite !(alter_insert_eq _ _ _ bf Hb).
    replace (set_b_disk 0 (set_b_data (fs_disk fs (b_blockno bf)) (set_b_disk 1 bf))) with (set_b_data (fs_disk fs (b_blockno bf)) bf)
      by (destruct bf; simpl in *; by subst). by destruct fs.
Qed.

(** The shared memory after the request. *)
Lemma idle_again b write sector vd vd1 regs :
  vd_idle vd -> submitted b write sector vd vd1 ->
  let vd2 := handled (used_up 0 regs vd1) in
  vd_idle (freed 2 (freed 1 (freed 0 (set_vd_info (alter (set_in_b None) 0%nat (vd_info vd2)) vd2)))).
Proof.
  intros [Hfree Hd Hin Ho Ha Hu Hi1 Hi2 Hr] [Hpd Hf Hi (L1 & L2 & L3 & L4 & L5) [I1 I2]]. pose proof (pd_idx _ _ _ _ _ _ _ Hpd) as Hai.
  destruct vd1 as [desc ai avail ui used free ui2 info ops rg wrote].
  cbn [vd_free vd_desc vd_info vd_ops vd_avail vd_used vd_used_idx vd_usedi vd_avail_idx] in *. subst.
  split; cbn -[u16]; rewrite ?length_alter, ?length_insert; try done.
  - by rewrite Hi1.
  - unfold u16. apply Z.mod_pos_bound. lia.
Qed.

Lemma virtio_rw_run `{VirtioDevice} p pr s b bf write :
  alone p pr s -> disk_ready s -> fs_buf (k_fs s) !! b = Some bf -> b_disk bf = 0 -> 0 <= b_blockno bf < 2 ^ 31 ->
  exists vd, closed disk_wait (Driver.virtio_disk_rw b write) s = Ret tt (set_k_vd vd (set_k_fs (xfer b bf write (k_fs s)) s)) /\
    disk_ready (set_k_vd vd s).
Proof.
  intros (Hh & Hc & Hp & Hst & Hch & Hlen & Hno) (Hidle & p' & pr' & Hc' & HL) Hb Hd Hblk.
  assert (p' = p) as -> by congruence. pose proof (ln_p _ _ _ HL) as Hp'. assert (pr' = pr) as -> by congruence. clear Hp' Hc'.
  destruct (rw_submit s b bf write Hidle Hh Hb Hblk) as (vd1 & Hsub & Erw). pose proof Hsub as [Hpd Hf Hi (L1 & L2 & L3 & L4 & L5) [I1 I2]].
  set (t := set_k_vd vd1 _) in *.
  assert (Hbt : fs_buf (k_fs t) !! b = Some (set_b_disk 1 bf)).
  { unfold t, fbuf. kred. cbn [set_fs_buf fs_buf]. by rewrite list_lookup_alter_eq, Hb. }
  destruct (wait_closed t p pr 0 1 2 b (set_b_disk 1 bf) write (b_blockno bf) 0xff) as [regs Ew]; try done.
  { by apply (lone_ext s). }
  { intros q qr Hne Hq Hqc. by discriminate (Hno q qr _ Hq Hqc). }
  { change (vd_used_idx vd1 = vd_usedi vd1). by rewrite I1, I2, (vi_used_idx _ Hidle). }
  { change (0 <= vd_usedi vd1 < 2 ^ 16). rewrite I2. apply Hidle. }
  { change (length (vd_used vd1) = Z.to_nat NUM). rewrite L5. apply Hidle. }
  eexists. split; [|split; [|exists p, pr; split; [done|by apply (lone_ext s)]]].
  2:{ apply (idle_again b write (2 * b_blockno bf) (k_vd s) vd1 regs Hidle Hsub). }
  rewrite (closed_eq _ _ _ _ _ Erw), (closed_bind_Ret _ _ _ _ _ _ Ew). unfold after_io.
  set (s2 := set_k_fs _ t). set (vd2 := handled _).
  assert (Hw : forall vd, wakeup Ch_vdisk_free (set_k_vd vd s2) = Ret tt (set_k_vd vd s2)).
  { intros vd. apply wakeup_none; [done|intros i; apply not_elem_of_cons; split; [done|apply not_elem_of_nil]|].
    intros q qr Hq Hqc. by discriminate (Hno q qr _ Hq Hqc). }
  erewrite closed_Ret; [|eapply (rw_finish_run s2 Hw vd2); [done|exact Hf|apply Hpd|apply Hpd|apply Hpd|done|done|by destruct write|done|done]].
  f_equal. unfold s2, t. kred. rewrite (transfer_xfer b bf write (k_fs s) Hb Hd). rewrite <- Hh. by destruct s.
Qed.

(** [DiskDriver] with the code of kernel/virtio_disk.c. *)
Definition virtio_driver `{VirtioDevice} : DiskDriver := {|
  virtio_disk_rw := fun b write => closed disk_wait (Driver.virtio_disk_rw b write);
  disk_idle := disk_ready;
  disk_idle_ext := disk_ready_ext;
  disk_rw_law := virtio_rw_run
|}.

(** C3: the disk driver keeps the promise its callers rely on. In a closed
    system, [virtio_disk_rw] of a buffer whose block the disk has takes three
    descriptors, posts the request, sleeps, is woken by the interrupt handler
    once the device has served it, and returns with the block transferred in
    the direction asked for; all descriptors are free again, and neither the
    process table nor the scheduler's queues have changed. *)
Theorem virtio_disk_rw_correct `{VirtioDevice} p pr s b bf write :
  alone p pr s -> disk_ready s -> fs_buf (k_fs s) !! b = Some bf -> b_disk bf = 0 -> 0 <= b_blockno bf < 2 ^ 31 ->
  exists vd, closed disk_wait (Driver.virtio_disk_rw b write) s = Ret tt (set_k_vd vd (set_k_fs (xfer b bf write (k_fs s)) s)) /\
    disk_ready (set_k_vd vd s).
Proof. apply virtio_rw_run. Qed.

(** ** A device, and the driver at work *)

Module VirtioWitness.

(** A device that serves the request at once. *)
Definition serve (s : kstate) : kstate :=
  let vd := k_vd s in
  let h := nth (Z.to_nat (vd_usedi vd mod NUM)) (vd_avail vd) 0 in
  match vd_ops vd !! Z.to_nat h, vd_desc vd !! Z.to_nat h with
  | Some op, Some d0 =>
      match vd_desc vd !! Z.to_nat (d_next d0) with
      | Some (mkDesc (Dma_data b) _ _ _) =>
          match fs_buf (k_fs s) !! b with
          | Some bf =>
              set_k_vd (used_up h (fun _ => 1) vd)
                (set_k_fs (transfer b bf (r_type op =? VIRTIO_BLK_T_OUT) (r_sector op / 2) (k_fs s)) s)
          | None => s
          end
      | _ => s
      end
  | _, _ => s
  end.

#[local] Instance serve_device : VirtioDevice.
Proof.
  refine {| device := serve |}. intros s h i1 i2 b bf write blk [_ Hh _ Ho H0 H1 _ _] Hb _. exists (fun _ => 1).
  unfold serve. rewrite (nth_lookup_Z _ _ _ Hh), Ho, H0. cbn [d_next]. rewrite H1, Hb. cbn [r_type r_sector].
  replace (2 * blk / 2) with blk by (symmetry; rewrite Z.mul_comm; apply Z.div_mul; lia). by destruct write.
Defined.

Definition pr1 : proc := set_p_next (Some 0%nat) BioWitness.pr0.

(** Process 0 runs alone, at the head of its queue, and the disk is idle;
    buffer 0 is to be read from block 7, which holds nines. *)
Definition s1 : kstate :=
  set_k_cur (Some 0%nat) (set_k_proc (<[0%nat := pr1]> (k_proc boot))
    (set_k_queue [mkQueue 1 (Some 0%nat) (Some 0%nat); mkQueue 50 None None; mkQueue 200 None None]
      (set_k_vd (set_vd_free (replicate 8 1) vd0)
        (set_k_fs (fbuf 0 (set_b_blockno 7) (set_fs_disk (<[7 := replicate 1024 9]> (fs_disk fs0)) fs0)) boot)))).

Lemma virtio_disk_rw_correct_witness : exists vd,
  closed disk_wait (Driver.virtio_disk_rw 0 false) s1 =
    Ret tt (set_k_vd vd (set_k_fs (fbuf 0 (set_b_data (replicate 1024 9)) (k_fs s1)) s1)).
Proof.
  destruct (virtio_disk_rw_correct 0 pr1 s1 0 (set_b_blockno 7 buf0) false) as (vd & E & _).
  - split; [reflexivity|]. split; [reflexivity|]. split; [reflexivity|]. split; [reflexivity|]. split; [reflexivity|]. split; [reflexivity|].
    intros q qr ch Hq Hch. change (k_proc s1) with (<[0%nat := pr1]> (replicate NPROC proc0)) in Hq.
    destruct q as [|q]; [injection Hq as <-; discriminate Hch|].
    rewrite list_lookup_insert_ne in Hq by discriminate. apply lookup_replicate in Hq as [-> _]. discriminate Hch.
  - split; [constructor; vm_compute; first [reflexivity|split; congruence]|]. exists 0%nat, pr1. split; [reflexivity|].
    constructor; try reflexivity; [vm_compute; split; congruence| |].
    + intros q qr Hne Hq. change (k_proc s1) with (<[0%nat := pr1]> (replicate NPROC proc0)) in Hq.
      rewrite list_lookup_insert_ne in Hq by (apply not_eq_sym; exact Hne). apply lookup_replicate in Hq as [-> _]. discriminate.
    + left. split; [reflexivity|]. split; [reflexivity|]. do 2 eexists. split; [reflexivity|]. split; reflexivity.
  - reflexivity.
  - reflexivity.
  - cbn. lia.
  - exists vd. exact E.
Defined.
End VirtioWitness.
