(* ===== verification/LogFacts.v ===== *)
(** * The log commits atomically

    [write_log], [write_head], [install_trans] and [commit] run on the block
    store of [Store.v]; [commit_crash_safe] cuts the sequence of writes of a
    commit anywhere and recovers. *)

From stdpp Require Import functions.
From S2P Require Import Prelude Machine State Printf Sched Sleeplock Block Bio Store Log.

(** ** Sequences of block writes *)

Definition upds (d : Z -> list Z) (ws : list (Z * list Z)) : Z -> list Z :=
  fold_left (fun d w => <[w.1 := w.2]> d) ws d.

Lemma upds_app d ws ws' : upds d (ws ++ ws') = upds (upds d ws) ws'.
Proof. apply fold_left_app. Qed.

Lemma upds_notin d ws k : k ∉ ws.*1 -> upds d ws k = d k.
Proof.
  revert d. induction ws as [|[a x] ws IH]; intros d Hk; [done|]. cbn in *. apply not_elem_of_cons in Hk as [Hne Hk].
  change (upds (<[a := x]> d) ws k = d k). rewrite IH by done. by rewrite fn_lookup_insert_ne.
Qed.

Lemma upds_in d ws k x : NoDup (ws.*1) -> (k, x) ∈ ws -> upds d ws k = x.
Proof.
  revert d. induction ws as [|[a y] ws IH]; intros d Hnd Hin; [by apply elem_of_nil in Hin|].
  cbn in Hnd. apply NoDup_cons in Hnd as [Ha Hnd]. change (upds (<[a := y]> d) ws k = x).
  apply elem_of_cons in Hin as [[= -> ->]|Hin]; [|by apply IH].
  rewrite upds_notin by done. by rewrite fn_lookup_insert.
Qed.

Lemma upds_ext d d' ws : (forall k, d k = d' k) -> forall k, upds d ws k = upds d' ws k.
Proof.
  revert d d'. induction ws as [|[a x] ws IH]; intros d d' H k; [done|]. cbn. apply IH. intros j. cbn.
  destruct (decide (j = a)) as [->|Hne]; [by rewrite !fn_lookup_insert|by rewrite !fn_lookup_insert_ne].
Qed.

(** ** The header *)

(** The header as [write_head] leaves it in a block that held [x]. *)
Definition hdr_fill (bs : list Z) (x : list Z) : list Z :=
  fold_left (fun x ib => set_hdr_block (Z.of_nat ib.1) ib.2 x) (imap pair bs) (set_hdr_n (Z.of_nat (length bs)) x).

Definition hdr_upto (bs : list Z) (k : nat) (x : list Z) : list Z :=
  fold_left (fun x ib => set_hdr_block (Z.of_nat ib.1) ib.2 x) (take k (imap pair bs))
    (set_hdr_n (Z.of_nat (length bs)) x).

Lemma length_hdr_upto bs k x : length (hdr_upto bs k x) = length x.
Proof.
  unfold hdr_upto. assert (H : length (set_hdr_n (Z.of_nat (length bs)) x) = length x) by apply length_wr.
  revert H. generalize (set_hdr_n (Z.of_nat (length bs)) x). induction (take k (imap pair bs)) as [|[i b] l IH]; intros y Hy; [done|].
  cbn [fold_left]. apply IH. rewrite <- Hy. apply length_wr.
Qed.

Lemma hdr_upto_S bs k x b : bs !! k = Some b ->
  hdr_upto bs (S k) x = set_hdr_block (Z.of_nat k) b (hdr_upto bs k x).
Proof.
  intros H. unfold hdr_upto. rewrite (take_S_r _ _ (k, b)); [|by rewrite list_lookup_imap, H].
  by rewrite fold_left_app.
Qed.

Lemma hdr_upto_all bs x : hdr_upto bs (length bs) x = hdr_fill bs x.
Proof. unfold hdr_upto, hdr_fill. by rewrite take_ge by (rewrite length_imap; lia). Qed.

Lemma rd4_small v : 0 <= v < 2 ^ 31 -> i32 (v mod 256 ^ 4) = v.
Proof. intros H. change (256 ^ 4) with (2 ^ 32). rewrite Z.mod_small by lia. apply i32_small. lia. Qed.

Lemma hdr_upto_n bs k x : (length bs <= Z.to_nat LOGSIZE)%nat -> length x = Z.to_nat BSIZE ->
  hdr_n (hdr_upto bs k x) = Z.of_nat (length bs).
Proof.
  intros Hl Hx. unfold hdr_n. assert (E : rd 4 (hdr_upto bs k x) 0 = Z.of_nat (length bs) mod 256 ^ 4).
  { induction k as [|k IH].
    - change (rd 4 (wr 4 x 0 (Z.of_nat (length bs))) 0 = Z.of_nat (length bs) mod 256 ^ 4).
      rewrite rd_wr_same; [done|]. rewrite Hx. unfold BSIZE. lia.
    - destruct (bs !! k) as [b|] eqn:Hb.
      + rewrite (hdr_upto_S _ _ _ b Hb). unfold set_hdr_block. rewrite rd_wr_other by lia. exact IH.
      + unfold hdr_upto in *. apply lookup_ge_None in Hb.
        rewrite take_ge in * by (rewrite length_imap; lia). exact IH. }
  rewrite E. apply rd4_small. unfold LOGSIZE, MAXOPBLOCKS in Hl. lia.
Qed.

Lemma hdr_upto_block bs k x i b : (length bs <= Z.to_nat LOGSIZE)%nat -> length x = Z.to_nat BSIZE ->
  Forall (fun b => 0 <= b < 2 ^ 31) bs -> bs !! i = Some b -> (i < k)%nat -> hdr_block (hdr_upto bs k x) (Z.of_nat i) = b.
Proof.
  intros Hl Hx HF Hb Hik. unfold hdr_block. pose proof (lookup_lt_Some _ _ _ Hb) as Hi.
  assert (E : rd 4 (hdr_upto bs k x) (Z.to_nat (4 + 4 * Z.of_nat i)) = b mod 256 ^ 4).
  { induction k as [|k IH]; [lia|]. destruct (bs !! k) as [c|] eqn:Hc.
    - rewrite (hdr_upto_S _ _ _ c Hc). unfold set_hdr_block. destruct (decide (i = k)) as [->|Hne].
      + assert (c = b) as -> by congruence. rewrite rd_wr_same; [done|]. rewrite length_hdr_upto, Hx.
        unfold LOGSIZE, MAXOPBLOCKS, BSIZE in *. lia.
      + rewrite rd_wr_other by lia. apply IH. lia.
    - unfold hdr_upto in *. apply lookup_ge_None in Hc. rewrite take_ge in * by (rewrite length_imap; lia).
      apply IH. lia. }
  rewrite E. apply rd4_small. rewrite Forall_lookup in HF. by apply (HF i).
Qed.

(** ** Transactions *)

(** The in-memory log [lg] describes a transaction on the blocks [bs], the log
    area being [size] blocks from [S]. *)
Record txn (lg : log) (st size : Z) (bs : list Z) : Prop := {
  tx_start : l_start lg = st;
  tx_dev : l_dev lg = ROOTDEV;
  tx_n : l_n lg = Z.of_nat (length bs);
  tx_block : forall i b, bs !! i = Some b -> l_block lg !! i = Some b;
  tx_area : 0 <= st /\ st + size < 2 ^ 31;
  tx_len : Z.of_nat (length bs) < size;
  tx_max : (length bs < NBUF)%nat;
  tx_nodup : NoDup bs;
  tx_home : Forall (fun b => 0 <= b < 2 ^ 31 /\ ~ (st <= b < st + size)) bs
}.

Lemma lh_block_run lg st size bs i b s :
  txn lg st size bs -> fs_log (k_fs s) = lg -> bs !! i = Some b -> lh_block (Z.of_nat i) s = Ret b s.
Proof.
  intros H Hl Hb. unfold lh_block, get_log. krun. rewrite Hl.
  pose proof (lookup_lt_Some _ _ _ Hb) as Hi. pose proof (tx_max _ _ _ _ H) as Hm.
  destruct (Z.leb_spec 0 (Z.of_nat i)); [|lia].
  destruct (Z.ltb_spec (Z.of_nat i) LOGSIZE); [|unfold LOGSIZE, MAXOPBLOCKS, NBUF in *; lia]. cbn [andb].
  by rewrite Nat2Z.id, (tx_block _ _ _ _ H i b Hb).
Qed.

Lemma txn_home lg st size bs i b : txn lg st size bs -> bs !! i = Some b ->
  0 <= b < 2 ^ 31 /\ ~ (st <= b < st + size).
Proof. intros H Hb. pose proof (tx_home _ _ _ _ H) as HF. rewrite Forall_lookup in HF. by apply (HF i). Qed.

(** The writes of [write_log] and of [install_trans], in order. *)
Definition log_writes (st : Z) (bs : list Z) (v : Z -> list Z) : list (Z * list Z) :=
  imap (fun i b => (st + 1 + Z.of_nat i, v b)) bs.

Definition home_writes (st : Z) (bs : list Z) (v : Z -> list Z) : list (Z * list Z) :=
  imap (fun i b => (b, v (st + 1 + Z.of_nat i))) bs.

Lemma log_writes_keys st bs v k x : (k, x) ∈ log_writes st bs v ->
  exists i b, bs !! i = Some b /\ k = st + 1 + Z.of_nat i /\ x = v b.
Proof.
  intros (i & Hi)%list_elem_of_lookup. unfold log_writes in Hi. rewrite list_lookup_imap in Hi.
  destruct (bs !! i) as [b|] eqn:Hb; [|done]. injection Hi as <- <-. by exists i, b.
Qed.

Lemma home_writes_fst st bs v : (home_writes st bs v).*1 = bs.
Proof.
  apply list_eq. intros i. unfold home_writes. rewrite list_lookup_fmap, list_lookup_imap. by destruct (bs !! i).
Qed.

Lemma log_writes_fst st bs v : (log_writes st bs v).*1 = map (fun i => st + 1 + Z.of_nat i) (seq 0 (length bs)).
Proof.
  apply list_eq. intros i. unfold log_writes. rewrite list_lookup_fmap, list_lookup_imap.
  change (map ?f ?l) with (f <$> l). rewrite list_lookup_fmap. destruct (decide (i < length bs)%nat).
  - rewrite lookup_seq_lt by lia. destruct (lookup_lt_is_Some_2 bs i) as [b ->]; [lia|]. done.
  - rewrite lookup_seq_ge by lia. by rewrite lookup_ge_None_2 by lia.
Qed.

Lemma log_writes_nodup st bs v : NoDup ((log_writes st bs v).*1).
Proof.
  rewrite log_writes_fst. apply NoDup_fmap_2; [intros a b; lia|apply NoDup_seq].
Qed.

Lemma take_writes_fst {A} (l : list (Z * A)) k i : i ∈ (take k l).*1 -> i ∈ l.*1.
Proof.
  rewrite !list_elem_of_fmap. intros (x & -> & Hx). exists x. split; [done|].
  apply list_elem_of_lookup in Hx as [j Hj]. apply (list_elem_of_lookup_2 _ j). by apply lookup_take_Some in Hj as [? _].
Qed.

Section LogFacts.
Context `{DD : DiskDriver}.
Context (p : nat) (pr : proc) (s0 : kstate).
Abbreviation store := (store p pr s0).

(** Block [b] of the transaction is not in the log area. *)
Lemma log_writes_home lg st size bs v k i b : txn lg st size bs -> bs !! i = Some b ->
  b ∉ (take k (log_writes st bs v)).*1.
Proof.
  intros H Hb Hin. apply take_writes_fst in Hin. apply list_elem_of_fmap in Hin as ([k' x] & Hk & Hin).
  apply log_writes_keys in Hin as (j & c & Hc & -> & _). cbn in Hk.
  destruct (txn_home _ _ _ _ _ _ H Hb) as [_ Hn]. apply Hn. pose proof (lookup_lt_Some _ _ _ Hc).
  pose proof (tx_len _ _ _ _ H). lia.
Qed.

Lemma write_log_run s P v d w r st size bs :
  store s P [] v d w r -> txn (r_log r) st size bs -> Permutation P bs -> 
  exists s', write_log s = Ret tt s' /\
    store s' P [] (upds v (log_writes st bs v)) (upds d (log_writes st bs v)) (rev (log_writes st bs v) ++ w) r.
Proof.
  intros Hst Ht HP. set (lw := log_writes st bs v).
  set (I := fun (t : Z) (s : kstate) => store s P [] (upds v (take (Z.to_nat t) lw)) (upds d (take (Z.to_nat t) lw))
              (rev (take (Z.to_nat t) lw) ++ w) r).
  assert (Hlen : length lw = length bs) by apply length_imap.
  assert (HPl : length P = length bs) by (by rewrite HP).
  pose proof (tx_area _ _ _ _ Ht) as [Hs0 Hs1]. pose proof (tx_len _ _ _ _ Ht) as Hl. pose proof (tx_max _ _ _ _ Ht) as Hmax.
  unfold write_log. apply (loop_for _ I (Z.of_nat (length bs))
    (fun o => exists s', o = Ret tt s' /\ store s' P [] (upds v lw) (upds d lw) (rev lw ++ w) r));
    [| |lia|lia|exact Hst].
  - intros i s1 [Hi0 Hi] HI. set (n := Z.to_nat i). assert (Hn : i = Z.of_nat n) by lia.
    destruct (lookup_lt_is_Some_2 bs n) as [b Hb]; [lia|].
    pose proof (st_rest _ _ _ _ _ _ _ _ _ _ HI) as Hr. assert (Hlg : fs_log (k_fs s1) = r_log r) by (by rewrite <- Hr).
    unfold get_log. krun. rewrite Hlg, (tx_n _ _ _ _ Ht), (tx_dev _ _ _ _ Ht), (tx_start _ _ _ _ Ht).
    destruct (Z.ltb_spec i (Z.of_nat (length bs))); [|lia].
    change (u32 ROOTDEV) with ROOTDEV. rewrite (u32_small (st + i + 1)) by lia.
    destruct (txn_home _ _ _ _ _ _ Ht Hb) as [Hb0 Hbn].
    destruct (store_bread p pr s0 s1 _ _ _ _ _ _ (st + i + 1) HI (not_elem_of_nil _)) as (to & s2 & E2 & H2 & _);
      [right; simpl; lia|blk_ok|]. krun.
    pose proof (st_rest _ _ _ _ _ _ _ _ _ _ H2) as Hr2.
    pose proof (lh_block_run _ st size bs n b s2 Ht ltac:(by rewrite <- Hr2) Hb) as E3. rewrite <- Hn in E3. krun.
    rewrite (u32_small b) by lia.
    assert (Hne : b ∉ [(to, st + i + 1)].*2).
    { cbn. apply not_elem_of_cons. split; [lia|apply not_elem_of_nil]. }
    destruct (store_bread p pr s0 s2 _ _ _ _ _ _ b H2 Hne) as (from & s3 & E4 & H3 & _);
      [left; rewrite HP; by apply (list_elem_of_lookup_2 _ n)|blk_ok|]. krun.
    destruct (store_get _ _ _ _ _ _ _ _ _ _ from b H3) as (fb & E5 & Hfb & _); [by apply elem_of_cons; left|]. krun.
    assert (Hdata : b_data fb = v b).
    { rewrite Hfb. apply upds_notin. by apply (log_writes_home _ _ _ _ v _ n b Ht). }
    rewrite Hdata.
    destruct (store_set p pr s0 s3 _ _ _ _ _ _ to (st + i + 1) (v b) H3) as (s4 & E6 & H4).
    { apply elem_of_cons. right. by apply elem_of_cons; left. }
    { by apply (store_length p pr s0 s _ _ _ _ _ _ b Hst). }
    krun.
    destruct (store_bwrite p pr s0 s4 _ _ _ _ _ _ to (st + i + 1) H4) as (s5 & E7 & H5).
    { apply elem_of_cons. right. by apply elem_of_cons; left. }
    { blk_ok. }
    krun. rewrite fn_lookup_insert in H5.
    destruct (store_brelse p pr s0 s5 _ _ _ _ _ _ from b H5) as (s6 & E8 & H6).
    { left. rewrite HP. by apply (list_elem_of_lookup_2 _ n). }
    krun.
    destruct (store_brelse p pr s0 s6 _ _ _ _ _ _ to (st + i + 1) H6) as (s7 & E9 & H7).
    { right. by rewrite !fn_lookup_insert. }
    krun. exists s7. split; [done|]. unfold I. replace (Z.to_nat (i + 1)) with (S n) by lia.
    rewrite (take_S_r lw n (st + 1 + i, v b)); [|unfold lw, log_writes; rewrite list_lookup_imap, Hb, Hn; done].
    rewrite !upds_app, rev_app_distr. cbn [rev app upds fold_left fst snd].
    replace (st + i + 1) with (st + 1 + i) in H7 by lia. exact H7.
  - intros s1 HI. unfold I in HI. rewrite Nat2Z.id, take_ge in HI by lia.
    pose proof (st_rest _ _ _ _ _ _ _ _ _ _ HI) as Hr. exists tt, s1. split; [|by exists s1].
    unfold get_log. krun. replace (fs_log (k_fs s1)) with (r_log r) by (by rewrite <- Hr). rewrite (tx_n _ _ _ _ Ht).
    by rewrite Z.ltb_irrefl.
Qed.

Lemma store_log s P L v d w r : store s P L v d w r -> fs_log (k_fs s) = r_log r.
Proof. intros H. by rewrite <- (st_rest _ _ _ _ _ _ _ _ _ _ H). Qed.

Lemma write_head_run s P v d w r st size bs :
  store s P [] v d w r -> txn (r_log r) st size bs -> st ∉ P -> (length P < NBUF)%nat ->
  let h := hdr_fill bs (v st) in
  exists s', write_head s = Ret tt s' /\ store s' P [] (<[st := h]> v) (<[st := h]> d) ((st, h) :: w) r.
Proof.
  intros Hst Ht HnP Hroom h.
  pose proof (tx_area _ _ _ _ Ht) as [Hs0 Hs1]. pose proof (tx_len _ _ _ _ Ht) as Hl. pose proof (tx_max _ _ _ _ Ht) as Hmax.
  unfold write_head, get_log. krun. rewrite (store_log _ _ _ _ _ _ _ Hst), (tx_n _ _ _ _ Ht), (tx_dev _ _ _ _ Ht), (tx_start _ _ _ _ Ht).
  change (u32 ROOTDEV) with ROOTDEV. rewrite (u32_small st) by lia.
  destruct (store_bread p pr s0 s _ _ _ _ _ _ st Hst (not_elem_of_nil _)) as (buf & s1 & E1 & H1 & _); [by right|blk_ok|]. krun.
  assert (Hin : (buf, st) ∈ [(buf, st)]) by (by apply elem_of_cons; left).
  destruct (store_upd p pr s0 s1 _ _ _ _ _ _ buf st (set_hdr_n (Z.of_nat (length bs))) H1 Hin) as (s2 & E2 & H2).
  { unfold set_hdr_n. rewrite length_wr. by apply (store_length p pr s0 s _ _ _ _ _ _ st Hst). }
  krun.
  set (I := fun (t : Z) (s : kstate) => store s P [(buf, st)] (<[st := hdr_upto bs (Z.to_nat t) (v st)]> v) d w r).
  match goal with |- context [bind (loop ?body 0) ?k s2] =>
    assert (EL : exists s3, loop body 0 s2 = Ret tt s3 /\ store s3 P [(buf, st)] (<[st := h]> v) d w r) end.
  { apply (loop_for _ I (Z.of_nat (length bs)) (fun o => exists s3, o = Ret tt s3 /\ store s3 P [(buf, st)] (<[st := h]> v) d w r));
      [| |lia|lia|exact H2].
    - intros i s3 [Hi0 Hi] HI. set (n := Z.to_nat i). assert (Hn : i = Z.of_nat n) by lia.
      destruct (lookup_lt_is_Some_2 bs n) as [b Hb]; [lia|].
      pose proof (store_log _ _ _ _ _ _ _ HI) as Hlg. krun. rewrite Hlg, (tx_n _ _ _ _ Ht).
      destruct (Z.ltb_spec i (Z.of_nat (length bs))); [|lia].
      pose proof (lh_block_run _ st size bs n b s3 Ht Hlg Hb) as E3. rewrite <- Hn in E3. krun.
      destruct (store_upd p pr s0 s3 _ _ _ _ _ _ buf st (set_hdr_block i b) HI Hin) as (s4 & E4 & H4).
      { unfold set_hdr_block. rewrite length_wr, fn_lookup_insert, length_hdr_upto. by apply (store_length p pr s0 s _ _ _ _ _ _ st Hst). }
      krun. exists s4. split; [done|]. rewrite fn_lookup_insert in H4. unfold I.
      replace (Z.to_nat (i + 1)) with (S n) by lia. rewrite (hdr_upto_S _ _ _ b Hb), <- Hn.
      eapply store_ext; [|exact H4]. intros k. cbv beta. destruct (decide (k = st)) as [->|Hk];
        [by rewrite !fn_lookup_insert|by rewrite !fn_lookup_insert_ne].
    - intros s3 HI. unfold I in HI. rewrite Nat2Z.id, hdr_upto_all in HI. exists tt, s3. split; [|by exists s3].
      krun. rewrite (store_log _ _ _ _ _ _ _ HI), (tx_n _ _ _ _ Ht). by rewrite Z.ltb_irrefl. }
  destruct EL as (s3 & E3 & H3). krun.
  destruct (store_bwrite p pr s0 s3 _ _ _ _ _ _ buf st H3 Hin ltac:(blk_ok)) as (s4 & E4 & H4). rewrite fn_lookup_insert in H4. krun.
  destruct (store_brelse p pr s0 s4 _ _ _ _ _ _ buf st H4) as (s5 & E5 & H5); [right; by rewrite !fn_lookup_insert|].
  by exists s5.
Qed.

(** [install_trans]: during a commit the blocks are pinned, and each is
    unpinned once it is home; during recovery nothing is pinned. *)
Lemma install_run (recovering : bool) s v d w r st size bs :
  store s (if recovering then [] else bs) [] v d w r -> txn (r_log r) st size bs ->
  (forall i, (i < length bs)%nat -> v (st + 1 + Z.of_nat i) = d (st + 1 + Z.of_nat i)) ->
  exists s', install_trans recovering s = Ret tt s' /\
    store s' [] [] (upds v (home_writes st bs v)) (upds d (home_writes st bs v)) (rev (home_writes st bs v) ++ w) r.
Proof.
  intros Hst Ht Hclean. set (hw := home_writes st bs v).
  set (I := fun (t : Z) (s : kstate) => store s (if recovering then [] else drop (Z.to_nat t) bs) []
              (upds v (take (Z.to_nat t) hw)) (upds d (take (Z.to_nat t) hw)) (rev (take (Z.to_nat t) hw) ++ w) r).
  assert (Hlen : length hw = length bs) by apply length_imap.
  pose proof (tx_area _ _ _ _ Ht) as [Hs0 Hs1]. pose proof (tx_len _ _ _ _ Ht) as Hl. pose proof (tx_max _ _ _ _ Ht) as Hmax.
  assert (Hlog : forall k n (f : Z -> list Z), (n < length bs)%nat -> upds f (take k hw) (st + 1 + Z.of_nat n) = f (st + 1 + Z.of_nat n)).
  { intros k n f Hn. apply upds_notin. intros Hin%take_writes_fst. unfold hw in Hin. rewrite home_writes_fst in Hin.
    apply list_elem_of_lookup in Hin as [j Hj]. destruct (txn_home _ _ _ _ _ _ Ht Hj) as [_ Hx]. apply Hx. lia. }
  unfold install_trans. apply (loop_for _ I (Z.of_nat (length bs))
    (fun o => exists s', o = Ret tt s' /\ store s' [] [] (upds v hw) (upds d hw) (rev hw ++ w) r));
    [| |lia|lia|exact Hst].
  - intros i s1 [Hi0 Hi] HI. set (n := Z.to_nat i) in *. assert (Hn : i = Z.of_nat n) by lia.
    destruct (lookup_lt_is_Some_2 bs n) as [b Hb]; [lia|]. unfold I in HI. fold n in HI.
    set (P := if recovering then [] else drop n bs) in *.
    assert (HPl : (length P <= length bs)%nat) by (unfold P; destruct recovering; [cbn; lia|rewrite length_drop; lia]).
    unfold get_log. krun. rewrite (store_log _ _ _ _ _ _ _ HI), (tx_n _ _ _ _ Ht), (tx_dev _ _ _ _ Ht), (tx_start _ _ _ _ Ht).
    destruct (Z.ltb_spec i (Z.of_nat (length bs))); [|lia].
    change (u32 ROOTDEV) with ROOTDEV. rewrite (u32_small (st + i + 1)) by lia.
    destruct (txn_home _ _ _ _ _ _ Ht Hb) as [Hb0 Hbn].
    destruct (store_bread p pr s0 s1 _ _ _ _ _ _ (st + i + 1) HI (not_elem_of_nil _)) as (lbuf & s2 & E2 & H2 & _);
      [right; simpl; lia|blk_ok|]. krun.
    pose proof (lh_block_run _ st size bs n b s2 Ht (store_log _ _ _ _ _ _ _ H2) Hb) as E3. rewrite <- Hn in E3. krun.
    rewrite (u32_small b) by lia.
    assert (Hne : b ∉ [(lbuf, st + i + 1)].*2).
    { cbn. apply not_elem_of_cons. split; [lia|apply not_elem_of_nil]. }
    destruct (store_bread p pr s0 s2 _ _ _ _ _ _ b H2 Hne) as (dbuf & s3 & E4 & H3 & _).
    { unfold P. destruct recovering; [right; cbn; unfold NBUF; lia|left]. rewrite (drop_S bs b n Hb). by apply elem_of_cons; left. }
    { blk_ok. }
    krun.
    destruct (store_get _ _ _ _ _ _ _ _ _ _ lbuf (st + i + 1) H3) as (lb & E5 & Hlb & _);
      [apply elem_of_cons; right; by apply elem_of_cons; left|]. krun.
    assert (Hdata : b_data lb = v (st + 1 + i)).
    { rewrite Hlb. replace (st + i + 1) with (st + 1 + Z.of_nat n) by lia. rewrite Hlog by lia. f_equal. lia. }
    rewrite Hdata.
    destruct (store_set p pr s0 s3 _ _ _ _ _ _ dbuf b (v (st + 1 + i)) H3) as (s4 & E6 & H4).
    { by apply elem_of_cons; left. }
    { by apply (store_length p pr s0 s _ _ _ _ _ _ _ Hst). }
    krun.
    destruct (store_bwrite p pr s0 s4 _ _ _ _ _ _ dbuf b H4) as (s5 & E7 & H5); [by apply elem_of_cons; left|blk_ok|].
    krun. rewrite fn_lookup_insert in H5.
    assert (EU : exists s6, (if recovering then ret tt else bunpin dbuf) s5 = Ret tt s6 /\
              store s6 (if recovering then [] else drop (S n) bs) [(dbuf, b); (lbuf, st + i + 1)]
                (<[b := v (st + 1 + i)]> (upds v (take n hw))) (<[b := v (st + 1 + i)]> (upds d (take n hw)))
                ((b, v (st + 1 + i)) :: rev (take n hw) ++ w) r).
    { unfold P in H5. destruct recovering; [by exists s5|]. rewrite (drop_S bs b n Hb) in H5.
      apply (store_bunpin p pr s0 s5 _ _ _ _ _ _ dbuf b H5). by apply elem_of_cons; left. }
    destruct EU as (s6 & E8 & H6). krun.
    apply (store_perm p pr s0 s6 _ _ _ [(lbuf, st + i + 1); (dbuf, b)] _ _ _ _ (Permutation_refl _) ltac:(apply perm_swap)) in H6.
    destruct (store_brelse p pr s0 s6 _ _ _ _ _ _ lbuf (st + i + 1) H6) as (s7 & E9 & H7).
    { right. rewrite !fn_lookup_insert_ne by lia. replace (st + i + 1) with (st + 1 + Z.of_nat n) by lia.
      rewrite !Hlog by lia. apply Hclean. lia. }
    krun.
    destruct (store_brelse p pr s0 s7 _ _ _ _ _ _ dbuf b H7) as (s8 & E10 & H8); [right; by rewrite !fn_lookup_insert|].
    krun. exists s8. split; [done|]. unfold I. replace (Z.to_nat (i + 1)) with (S n) by lia.
    rewrite (take_S_r hw n (b, v (st + 1 + i))); [|unfold hw, home_writes; rewrite list_lookup_imap, Hb, Hn; done].
    rewrite !upds_app, rev_app_distr. exact H8.
  - intros s1 HI. unfold I in HI. rewrite Nat2Z.id, take_ge in HI by lia. exists tt, s1. split.
    + unfold get_log. krun. rewrite (store_log _ _ _ _ _ _ _ HI), (tx_n _ _ _ _ Ht). by rewrite Z.ltb_irrefl.
    + exists s1. split; [done|]. rewrite drop_ge in HI by lia. by destruct recovering.
Qed.

(** The blocks of the transaction with their new contents. *)
Definition new_writes (bs : list Z) (v : Z -> list Z) : list (Z * list Z) := map (fun b => (b, v b)) bs.

Lemma new_writes_fst bs v : (new_writes bs v).*1 = bs.
Proof.
  unfold new_writes. change (map ?g ?l) with (g <$> l). rewrite <- list_fmap_compose. apply list_fmap_id.
Qed.

Lemma new_writes_lookup bs v f k : NoDup bs -> upds f (new_writes bs v) k = if decide (k ∈ bs) then v k else f k.
Proof.
  intros Hnd. destruct (decide (k ∈ bs)) as [Hin|Hnin].
  - apply upds_in; [by rewrite new_writes_fst|]. apply list_elem_of_fmap. by exists k.
  - apply upds_notin. by rewrite new_writes_fst.
Qed.

(** All writes of a commit, in order. *)
Definition commit_writes (st : Z) (bs : list Z) (v : Z -> list Z) : list (Z * list Z) :=
  log_writes st bs v ++ [(st, hdr_fill bs (v st))] ++ new_writes bs v ++ [(st, hdr_fill [] (hdr_fill bs (v st)))].

Lemma log_writes_st st bs v : st ∉ (log_writes st bs v).*1.
Proof.
  rewrite log_writes_fst. intros (i & Hi & _)%list_elem_of_fmap. lia.
Qed.

Lemma log_writes_lookup st bs v (f : Z -> list Z) i b : bs !! i = Some b ->
  upds f (log_writes st bs v) (st + 1 + Z.of_nat i) = v b.
Proof.
  intros Hb. apply upds_in; [apply log_writes_nodup|]. apply (list_elem_of_lookup_2 _ i).
  unfold log_writes. by rewrite list_lookup_imap, Hb.
Qed.

Lemma home_writes_new st bs v f : (forall i b, bs !! i = Some b -> f (st + 1 + Z.of_nat i) = v b) ->
  home_writes st bs f = new_writes bs v.
Proof.
  intros H. apply list_eq. intros i. unfold home_writes, new_writes. rewrite list_lookup_imap.
  change (map ?g ?l) with (g <$> l). rewrite list_lookup_fmap. destruct (bs !! i) as [b|] eqn:Hb; [|done].
  cbn. by rewrite (H i b Hb).
Qed.

Lemma txn_clear lg st size bs : txn lg st size bs -> txn (set_l_n 0 lg) st size [].
Proof.
  intros [H1 H2 H3 H4 H5 H6 H7 H8 H9]. constructor; try done; cbn;
    first [lia|unfold NBUF; lia|apply NoDup_nil_2|apply Forall_nil_2].
Qed.

Lemma commit_run s P v d w r st size bs :
  store s P [] v d w r -> txn (r_log r) st size bs -> Permutation P bs -> bs <> [] ->
  exists s' v', commit s = Ret tt s' /\
    store s' [] [] v' (upds d (commit_writes st bs v)) (rev (commit_writes st bs v) ++ w)
      (mkRest (set_l_n 0 (r_log r)) (r_inode r) (r_sb r)) /\
    forall k, ~ (st <= k < st + size) -> v' k = v k.
Proof.
  intros Hst Ht HP Hne. pose proof (tx_len _ _ _ _ Ht) as Hl. pose proof (tx_max _ _ _ _ Ht) as Hm.
  unfold commit, get_log. krun. rewrite (store_log _ _ _ _ _ _ _ Hst), (tx_n _ _ _ _ Ht).
  destruct (Z.gtb_spec (Z.of_nat (length bs)) 0); [|destruct bs; [done|cbn in *; lia]].
  assert (HnP : st ∉ P).
  { rewrite HP. intros [i Hi]%list_elem_of_lookup. destruct (txn_home _ _ _ _ _ _ Ht Hi) as [_ Hx]. lia. }
  destruct (write_log_run s P v d w r st size bs Hst Ht HP) as (s1 & E1 & H1). krun.
  set (lw := log_writes st bs v) in *.
  assert (Hv1 : upds v lw st = v st) by (apply upds_notin, log_writes_st).
  destruct (write_head_run s1 P _ _ _ r st size bs H1 Ht HnP) as (s2 & E2 & H2); [by rewrite HP|]. krun.
  rewrite Hv1 in H2. set (h1 := hdr_fill bs (v st)) in *.
  assert (Hlogv : forall (f : Z -> list Z) i b, bs !! i = Some b -> (<[st := h1]> (upds f lw)) (st + 1 + Z.of_nat i) = v b).
  { intros f i b Hb. rewrite fn_lookup_insert_ne by lia. by apply log_writes_lookup. }
  destruct (install_run false s2 (<[st := h1]> (upds v lw)) (<[st := h1]> (upds d lw)) ((st, h1) :: rev lw ++ w) r st size bs)
    as (s3 & E3 & H3).
  { by apply (store_perm p pr s0 s2 P bs [] []). }
  { done. }
  { intros i Hi. destruct (lookup_lt_is_Some_2 bs i Hi) as [b Hb]. by rewrite !(Hlogv _ i b Hb). }
  krun. rewrite (home_writes_new st bs v) in H3 by (intros i b; apply Hlogv). set (nw := new_writes bs v) in *.
  destruct (store_rest p pr s0 s3 _ _ _ _ _ _ (fun fs => set_fs_log (set_l_n 0 (fs_log fs)) fs) H3 ltac:(done)) as (s4 & E4 & H4).
  unfold upd_log. krun.
  assert (Hr4 : rest_of (set_fs_log (set_l_n 0 (fs_log (k_fs s3))) (k_fs s3)) = mkRest (set_l_n 0 (r_log r)) (r_inode r) (r_sb r)).
  { pose proof (st_rest _ _ _ _ _ _ _ _ _ _ H3) as <-. done. }
  rewrite Hr4 in H4.
  destruct (write_head_run s4 [] _ _ _ _ st size [] H4 (txn_clear _ _ _ _ Ht) (not_elem_of_nil _)) as (s5 & E5 & H5);
    [cbn; unfold NBUF; lia|].
  assert (Hst4 : upds (<[st := h1]> (upds v lw)) nw st = h1).
  { rewrite upds_notin; [by rewrite fn_lookup_insert|]. unfold nw. by rewrite new_writes_fst, <- HP. }
  rewrite Hst4 in H5. exists s5. eexists. split; [done|]. split.
  - unfold commit_writes. fold lw h1 nw. rewrite !upds_app. cbn [upds fold_left fst snd] in *.
    rewrite !rev_app_distr. cbn [rev app]. rewrite <- !app_assoc. cbn [app]. exact H5.
  - intros k Hk. cbv beta. rewrite fn_lookup_insert_ne by lia. unfold nw.
    rewrite new_writes_lookup by apply (tx_nodup _ _ _ _ Ht). destruct (decide (k ∈ bs)); [done|].
    rewrite fn_lookup_insert_ne by lia. apply upds_notin. unfold lw. rewrite log_writes_fst.
    intros (i & -> & Hi)%list_elem_of_fmap. apply list_elem_of_In, in_seq in Hi. lia.
Qed.

(** ** Crashes *)

(** The blocks a header names, and the disk that recovery makes of [d]. *)
Definition hdr_blocks (h : list Z) : list Z :=
  map (fun i => hdr_block h (Z.of_nat i)) (seq 0 (Z.to_nat (hdr_n h))).

Definition recover (st : Z) (d : Z -> list Z) : Z -> list Z :=
  upds d (home_writes st (hdr_blocks (d st)) d).

Lemma hdr_blocks_fill bs x :
  (length bs <= Z.to_nat LOGSIZE)%nat -> length x = Z.to_nat BSIZE -> Forall (fun b => 0 <= b < 2 ^ 31) bs ->
  hdr_blocks (hdr_fill bs x) = bs.
Proof.
  intros Hl Hx HF. unfold hdr_blocks. rewrite <- hdr_upto_all, hdr_upto_n by done. rewrite Nat2Z.id.
  apply list_eq. intros i. change (map ?f ?l) with (f <$> l). rewrite list_lookup_fmap.
  destruct (decide (i < length bs)%nat) as [Hi|Hi].
  - rewrite lookup_seq_lt by lia. cbn. destruct (lookup_lt_is_Some_2 bs i Hi) as [b Hb]. rewrite Hb.
    by rewrite (hdr_upto_block bs _ x i b).
  - rewrite lookup_seq_ge by lia. by rewrite lookup_ge_None_2 by lia.
Qed.

Lemma hdr_blocks_clean h : hdr_n h = 0 -> hdr_blocks h = [].
Proof. intros H. unfold hdr_blocks. by rewrite H. Qed.

(** Recovery of a disk whose header and log blocks are those of the
    transaction installs it, whatever of it is already home. *)
Lemma recover_committed st size bs v d f :
  NoDup bs -> Forall (fun b => 0 <= b < 2 ^ 31 /\ ~ (st <= b < st + size)) bs ->
  hdr_blocks (f st) = bs -> (forall i b, bs !! i = Some b -> f (st + 1 + Z.of_nat i) = v b) ->
  (forall k, ~ (st <= k < st + size) -> k ∉ bs -> f k = d k) ->
  forall k, ~ (st <= k < st + size) -> recover st f k = if decide (k ∈ bs) then v k else d k.
Proof.
  intros Hnd HF Hh Hlog Hf k Hk. unfold recover. rewrite Hh, (home_writes_new st bs v) by done.
  rewrite new_writes_lookup by done. destruct (decide (k ∈ bs)); [done|by apply Hf].
Qed.

(** The disk after the first [n] writes of a commit. *)
Lemma crash_cases st size bs v d n :
  NoDup bs -> Forall (fun b => 0 <= b < 2 ^ 31 /\ ~ (st <= b < st + size)) bs ->
  Z.of_nat (length bs) < size -> (length bs <= Z.to_nat LOGSIZE)%nat -> length (v st) = Z.to_nat BSIZE ->
  hdr_n (d st) = 0 ->
  let d' := upds d (take n (commit_writes st bs v)) in
  ((n <= length bs)%nat /\ forall k, ~ (st <= k < st + size) -> recover st d' k = d k) \/
  ((length bs < n)%nat /\ forall k, ~ (st <= k < st + size) -> recover st d' k = if decide (k ∈ bs) then v k else d k).
Proof.
  intros Hnd HF Hsz Hl Hx Hclean d'.
  assert (Hlw : length (log_writes st bs v) = length bs) by apply length_imap.
  assert (Hnw : length (new_writes bs v) = length bs) by apply length_map.
  assert (HF0 : Forall (fun b => 0 <= b < 2 ^ 31) bs) by (apply (Forall_impl _ _ _ HF); tauto).
  assert (Hbs : forall k, k ∈ bs -> ~ (st <= k < st + size)).
  { intros k Hk. rewrite Forall_forall in HF. by apply HF. }
  assert (Hout : forall k j, ~ (st <= k < st + size) -> k ∉ (take j (log_writes st bs v)).*1).
  { intros k j Hk Hin%take_writes_fst. rewrite log_writes_fst in Hin. apply list_elem_of_fmap in Hin as (i & -> & Hi).
    apply list_elem_of_In, in_seq in Hi. lia. }
  destruct (decide (n <= length bs)%nat) as [Hn|Hn].
  - left. split; [done|]. intros k Hk. unfold d', commit_writes. rewrite take_app_le by lia. unfold recover.
    rewrite (upds_notin d (take n (log_writes st bs v)) st).
    + rewrite hdr_blocks_clean by done. cbn. apply upds_notin. by apply Hout.
    + intros Hin%take_writes_fst. by apply (log_writes_st st bs v).
  - right. split; [lia|]. set (h1 := hdr_fill bs (v st)). set (d1 := <[st := h1]> (upds d (log_writes st bs v))).
    assert (Hd1 : forall k, ~ (st <= k < st + size) -> d1 k = d k).
    { intros k Hk. unfold d1. rewrite fn_lookup_insert_ne by lia. apply upds_notin.
      rewrite <- (take_ge (log_writes st bs v) (length (log_writes st bs v))) by lia. by apply Hout. }
    assert (Hd1l : forall i b, bs !! i = Some b -> d1 (st + 1 + Z.of_nat i) = v b).
    { intros i b Hb. unfold d1. rewrite fn_lookup_insert_ne by lia. by apply log_writes_lookup. }
    destruct (decide (n <= 2 * length bs + 1)%nat) as [Hn2|Hn2].
    + assert (Ed : d' = upds d1 (take (n - length bs - 1) (new_writes bs v))).
      { unfold d', commit_writes. rewrite take_app_ge by lia. rewrite Hlw.
        rewrite (take_app_ge [(st, hdr_fill bs (v st))]) by (cbn; lia). cbn [length].
        rewrite (take_app_le (new_writes bs v)) by lia. rewrite !upds_app. done. }
      assert (Hkeep : forall k, k ∉ bs -> d' k = d1 k).
      { intros k Hk. rewrite Ed. apply upds_notin. intros Hin%take_writes_fst. by rewrite new_writes_fst in Hin. }
      assert (Hst : st ∉ bs) by (intros Hin; apply (Hbs st Hin); lia).
      apply (recover_committed st size bs v d d'); [done|done| | |].
      * rewrite Hkeep by done. unfold d1. rewrite fn_lookup_insert. by apply hdr_blocks_fill.
      * intros i b Hb. rewrite Hkeep; [by apply Hd1l|]. intros Hin. apply (Hbs _ Hin).
        pose proof (lookup_lt_Some _ _ _ Hb). lia.
      * intros k Hk Hkn. rewrite Hkeep by done. by apply Hd1.
    + assert (Ed : d' = <[st := hdr_fill [] h1]> (upds d1 (new_writes bs v))).
      { unfold d'. rewrite take_ge.
        - unfold commit_writes. rewrite !upds_app. done.
        - unfold commit_writes. rewrite !length_app, Hlw, Hnw. cbn. lia. }
      intros k Hk. unfold recover. rewrite Ed, fn_lookup_insert.
      assert (Hh1 : length h1 = Z.to_nat BSIZE) by (unfold h1; by rewrite <- hdr_upto_all, length_hdr_upto).
      rewrite (hdr_blocks_fill [] h1 ltac:(cbn [length]; lia) Hh1 ltac:(apply Forall_nil_2)).
      cbn. rewrite fn_lookup_insert_ne by lia. rewrite new_writes_lookup by done.
      destruct (decide (k ∈ bs)); [done|by apply Hd1].
Qed.

(** C1: A commit is atomic across a crash. With the blocks [bs] in the
    transaction, readers seeing [v] and the disk [d] having an empty log,
    [commit] returns and performs a sequence of block writes; cut that
    sequence anywhere ([n] writes done) and recover: outside the log area
    the disk is the old one, or the old one with every block of the
    transaction in its new contents, the latter for good once the header is
    written. When [commit] returns, every block has its new contents. *)
Theorem commit_crash_safe s P v d w r st size bs :
  store s P [] v d w r -> txn (r_log r) st size bs -> Permutation P bs -> bs <> [] -> hdr_n (d st) = 0 ->
  exists s' ws, commit s = Ret tt s' /\ fs_writes (k_fs s') = rev ws ++ fs_writes (k_fs s) /\
    fs_disk (k_fs s') = upds d ws /\
    (forall k, ~ (st <= k < st + size) -> fs_disk (k_fs s') k = if decide (k ∈ bs) then v k else d k) /\
    forall n k, ~ (st <= k < st + size) ->
      recover st (upds d (take n ws)) k = if decide (n <= length bs)%nat then d k else if decide (k ∈ bs) then v k else d k.
Proof.
  intros Hst Ht HP Hne Hclean. destruct (commit_run s P v d w r st size bs Hst Ht HP Hne) as (s' & v' & E & H' & _).
  assert (Hcr : forall n, _) by (intros n; exact (crash_cases st size bs v d n (tx_nodup _ _ _ _ Ht) (tx_home _ _ _ _ Ht)
    (tx_len _ _ _ _ Ht) ltac:(pose proof (tx_max _ _ _ _ Ht) as Hm; unfold NBUF, LOGSIZE, MAXOPBLOCKS in *; lia)
    (store_length p pr s0 s _ _ _ _ _ _ st Hst) Hclean)).
  exists s', (commit_writes st bs v). split; [done|]. rewrite (st_writes _ _ _ _ _ _ _ _ _ _ H').
  split; [by rewrite (st_writes _ _ _ _ _ _ _ _ _ _ Hst)|]. rewrite (st_disk _ _ _ _ _ _ _ _ _ _ H'). split; [done|].
  assert (Hsafe : forall n k, ~ (st <= k < st + size) -> recover st (upds d (take n (commit_writes st bs v))) k =
            if decide (n <= length bs)%nat then d k else if decide (k ∈ bs) then v k else d k).
  { intros n k Hk. destruct (Hcr n) as [[Hn H]|[Hn H]]; destruct (decide (n <= length bs)%nat); try lia; by apply H. }
  split; [|done]. intros k Hk. pose proof (Hsafe (length (commit_writes st bs v)) k Hk) as Hall.
  rewrite take_ge in Hall by lia. rewrite decide_False in Hall.
  2:{ unfold commit_writes, log_writes. rewrite !length_app, length_imap. cbn. lia. }
  rewrite <- Hall. unfold recover, commit_writes. rewrite !upds_app. cbn [upds fold_left fst snd].
  rewrite fn_lookup_insert. rewrite (hdr_blocks_fill [] _); [done|cbn [length]; lia| |apply Forall_nil_2].
  rewrite <- hdr_upto_all, length_hdr_upto. by apply (store_length p pr s0 s _ _ _ _ _ _ st Hst).
Qed.

(** ** Recovery *)

Lemma set_lh_block_run s P L v d w r i x :
  store s P L v d w r -> 0 <= i < LOGSIZE ->
  exists s', set_lh_block i x s = Ret tt s' /\
    store s' P L v d w (mkRest (set_l_block (<[Z.to_nat i := x]> (l_block (r_log r))) (r_log r)) (r_inode r) (r_sb r)).
Proof.
  intros H Hi. unfold set_lh_block, upd_log.
  destruct (Z.leb_spec 0 i); [|lia]. destruct (Z.ltb_spec i LOGSIZE); [|lia]. cbn [andb].
  destruct (store_rest p pr s0 s _ _ _ _ _ _
    (fun fs => set_fs_log (set_l_block (<[Z.to_nat i := x]> (l_block (fs_log fs))) (fs_log fs)) fs) H ltac:(done)) as (s' & E & H').
  exists s'. split; [exact E|]. pose proof (st_rest _ _ _ _ _ _ _ _ _ _ H) as <-. exact H'.
Qed.

(** The log after [read_head] has copied the header [h]. *)
Definition read_log (h : list Z) (k : nat) (lg : log) : log :=
  set_l_block (fold_left (fun l i => <[i := hdr_block h (Z.of_nat i)]> l) (seq 0 k) (l_block lg)) (set_l_n (hdr_n h) lg).

Lemma read_log_S h k lg :
  read_log h (S k) lg = set_l_block (<[k := hdr_block h (Z.of_nat k)]> (l_block (read_log h k lg))) (read_log h k lg).
Proof. unfold read_log. rewrite seq_S, fold_left_app. by destruct lg. Qed.

Lemma read_log_lookup h k lg i : (i < k)%nat -> (i < length (l_block lg))%nat ->
  l_block (read_log h k lg) !! i = Some (hdr_block h (Z.of_nat i)).
Proof.
  intros Hi Hl. assert (Hlen : length (l_block (read_log h k lg)) = length (l_block lg)).
  { clear Hi Hl. induction k as [|k IH]; [done|]. rewrite read_log_S. cbn [l_block set_l_block]. by rewrite length_insert. }
  induction k as [|k IH]; [lia|]. rewrite read_log_S. cbn [l_block set_l_block].
  assert (Hlk : length (l_block (read_log h k lg)) = length (l_block lg)).
  { rewrite read_log_S in Hlen. cbn [l_block set_l_block] in Hlen. by rewrite length_insert in Hlen. }
  destruct (decide (i = k)) as [->|Hne]; [by rewrite list_lookup_insert_eq by lia|].
  rewrite list_lookup_insert_ne by done. apply IH; [lia|done].
Qed.

Lemma read_head_run s v d w r st :
  store s [] [] v d w r -> l_start (r_log r) = st -> l_dev (r_log r) = ROOTDEV -> 0 <= st < 2 ^ 31 ->
  v st = d st -> 0 <= hdr_n (d st) <= LOGSIZE ->
  exists s', read_head s = Ret tt s' /\
    store s' [] [] v d w (mkRest (read_log (d st) (Z.to_nat (hdr_n (d st))) (r_log r)) (r_inode r) (r_sb r)).
Proof.
  intros Hst Hs Hdev Hs0 Hv Hn. set (h := d st) in *. unfold read_head, get_log. krun.
  rewrite (store_log _ _ _ _ _ _ _ Hst), Hs, Hdev. change (u32 ROOTDEV) with ROOTDEV. rewrite (u32_small st) by lia.
  destruct (store_bread p pr s0 s _ _ _ _ _ _ st Hst (not_elem_of_nil _)) as (buf & s1 & E1 & H1 & _);
    [right; cbn; unfold NBUF; lia|blk_ok|]. krun.
  assert (Hin : (buf, st) ∈ [(buf, st)]) by (by apply elem_of_cons; left).
  destruct (store_get _ _ _ _ _ _ _ _ _ _ buf st H1 Hin) as (b & E2 & Hb & _). krun. rewrite Hb, Hv.
  destruct (store_rest p pr s0 s1 _ _ _ _ _ _ (fun fs => set_fs_log (set_l_n (hdr_n h) (fs_log fs)) fs) H1 ltac:(done)) as (s2 & E3 & H2).
  unfold upd_log. krun.
  set (R := fun k => mkRest (read_log h k (r_log r)) (r_inode r) (r_sb r)).
  assert (Hr2 : rest_of (set_fs_log (set_l_n (hdr_n h) (fs_log (k_fs s1))) (k_fs s1)) = R 0%nat).
  { pose proof (st_rest _ _ _ _ _ _ _ _ _ _ H1) as <-. unfold R, read_log, rest_of. cbn. by destruct (fs_log (k_fs s1)). }
  rewrite Hr2 in H2.
  match goal with |- context [bind (loop ?body 0) ?k s2] =>
    assert (EL : exists s3, loop body 0 s2 = Ret tt s3 /\ store s3 [] [(buf, st)] v d w (R (Z.to_nat (hdr_n h)))) end.
  { apply (loop_for _ (fun t s => store s [] [(buf, st)] v d w (R (Z.to_nat t))) (hdr_n h)
      (fun o => exists s3, o = Ret tt s3 /\ store s3 [] [(buf, st)] v d w (R (Z.to_nat (hdr_n h)))));
      [| |lia|unfold LOGSIZE, MAXOPBLOCKS in *; lia|exact H2].
    - intros i s3 Hi HI. krun. rewrite (store_log _ _ _ _ _ _ _ HI). change (l_n (r_log (R (Z.to_nat i)))) with (hdr_n h).
      destruct (Z.ltb_spec i (hdr_n h)); [|lia].
      destruct (store_get _ _ _ _ _ _ _ _ _ _ buf st HI Hin) as (b' & E4 & Hb' & _). krun. rewrite Hb', Hv.
      destruct (set_lh_block_run s3 _ _ _ _ _ _ i (hdr_block h i) HI ltac:(lia)) as (s4 & E5 & H4). krun.
      exists s4. split; [done|]. replace (Z.to_nat (i + 1)) with (S (Z.to_nat i)) by lia. unfold R at 1.
      rewrite read_log_S. replace (Z.of_nat (Z.to_nat i)) with i by lia. exact H4.
    - intros s3 HI. exists tt, s3. split; [|by exists s3]. krun. rewrite (store_log _ _ _ _ _ _ _ HI).
      change (l_n (r_log (R (Z.to_nat (hdr_n h))))) with (hdr_n h). by rewrite Z.ltb_irrefl. }
  destruct EL as (s3 & E4 & H3). krun.
  destruct (store_brelse p pr s0 s3 _ _ _ _ _ _ buf st H3) as (s4 & E5 & H4); [by right|]. by exists s4.
Qed.

(** The header on disk describes a transaction on home blocks. *)
Definition hdr_ok (st size : Z) (h : list Z) : Prop :=
  0 <= hdr_n h < size /\ hdr_n h < Z.of_nat NBUF /\ NoDup (hdr_blocks h) /\
  Forall (fun b => 0 <= b < 2 ^ 31 /\ ~ (st <= b < st + size)) (hdr_blocks h).

Lemma length_hdr_blocks h : length (hdr_blocks h) = Z.to_nat (hdr_n h).
Proof. unfold hdr_blocks. by rewrite length_map, length_seq. Qed.

(** C26: [recover_from_log] on a disk that a crash left behind, nothing cached
    yet: it installs the committed transaction of the header (or nothing
    when the header is empty) and clears the header; every block outside the
    header then holds, on disk and for readers, what [recover] says. *)
Theorem recover_correct s v d w r st size :
  store s [] [] v d w r -> (forall k, v k = d k) -> l_start (r_log r) = st -> l_dev (r_log r) = ROOTDEV ->
  length (l_block (r_log r)) = Z.to_nat LOGSIZE -> 0 <= st -> st + size < 2 ^ 31 -> hdr_ok st size (d st) ->
  exists s', recover_from_log s = Ret tt s' /\ alone p pr s' /\ binv (p_pid pr) (k_fs s') [] [] /\
    l_n (fs_log (k_fs s')) = 0 /\ hdr_n (fs_disk (k_fs s') st) = 0 /\
    forall k, k <> st -> fs_disk (k_fs s') k = recover st d k /\ view (k_fs s') k = recover st d k.
Proof.
  intros Hst Hv Hs Hdev Hlb H0 H1 (Hn & HN & Hnd & HF). set (bs := hdr_blocks (d st)) in *.
  pose proof (length_hdr_blocks (d st)) as Hlen. fold bs in Hlen.
  unfold recover_from_log. destruct (read_head_run s v d w r st Hst Hs Hdev) as (s1 & E1 & S1);
    [lia|done|unfold LOGSIZE, MAXOPBLOCKS, NBUF in *; lia|]. krun.
  set (R1 := mkRest _ _ _) in S1.
  assert (Ht : txn (r_log R1) st size bs).
  { constructor; try done; try lia.
    - cbn. rewrite Hlen. lia.
    - intros i b Hb. pose proof (lookup_lt_Some _ _ _ Hb) as Hi. cbn [R1 r_log].
      rewrite read_log_lookup by (rewrite ?Hlb; unfold LOGSIZE, MAXOPBLOCKS, NBUF in *; lia).
      unfold bs, hdr_blocks in Hb. change (map ?f ?l) with (f <$> l) in Hb.
      rewrite list_lookup_fmap, lookup_seq_lt in Hb by lia. exact Hb. }
  destruct (install_run true s1 v d w R1 st size bs S1 Ht) as (s2 & E2 & S2); [intros i Hi; apply Hv|]. krun.
  destruct (store_rest p pr s0 s2 _ _ _ _ _ _ (fun fs => set_fs_log (set_l_n 0 (fs_log fs)) fs) S2 ltac:(done)) as (s3 & E3 & S3).
  unfold upd_log. krun.
  assert (Ht3 : txn (r_log (rest_of (set_fs_log (set_l_n 0 (fs_log (k_fs s2))) (k_fs s2)))) st size []).
  { cbn. rewrite (store_log _ _ _ _ _ _ _ S2). by apply (txn_clear _ _ _ bs). }
  destruct (write_head_run s3 [] _ _ _ _ st size [] S3 Ht3 (not_elem_of_nil _)) as (s4 & E4 & S4); [cbn; unfold NBUF; lia|].
  pose proof S4 as [A1 A2 A3 A4 A5 A6 A7 A8]. exists s4. split; [done|]. split; [done|]. split; [done|].
  split; [by rewrite (store_log _ _ _ _ _ _ _ S4)|]. rewrite A5. split.
  - rewrite fn_lookup_insert, <- hdr_upto_all, hdr_upto_n; [done|cbn [length]; lia|].
    by apply (store_length p pr s0 s3 _ _ _ _ _ _ st S3).
  - intros k Hk. rewrite A4. rewrite !fn_lookup_insert_ne by done.
    assert (Hw : home_writes st bs v = home_writes st bs d).
    { apply list_eq. intros i. unfold home_writes. rewrite !list_lookup_imap. destruct (bs !! i); [|done]. cbn. by rewrite Hv. }
    rewrite Hw. split; [done|]. by rewrite (upds_ext v d).
Qed.

(** ** Recording a block in the transaction *)

(** The search of [log_write] for a block it has already recorded. *)
Lemma log_search lg st size bs s blk :
  txn lg st size bs -> fs_log (k_fs s) = lg -> 0 <= blk < 2 ^ 31 ->
  exists i, loop (fun i =>
      lg <- get_log ;;
      if i <? l_n lg
      then c <- lh_block i ;; if u32 c =? blk then ret (inr i) else ret (inl (i + 1))
      else ret (inr i)) 0 s = Ret (Z.of_nat i) s /\ (i <= length bs)%nat /\
    (if decide (blk ∈ bs) then bs !! i = Some blk else i = length bs).
Proof.
  intros Ht Hlg Hblk. pose proof (tx_max _ _ _ _ Ht) as Hm.
  apply (loop_measure _ (fun i s1 => s1 = s /\ 0 <= i <= Z.of_nat (length bs) /\ forall j, (j < Z.to_nat i)%nat -> bs !! j <> Some blk)
    (fun i _ => Z.to_nat (Z.of_nat (length bs) - i))
    (fun o => exists i, o = Ret (Z.of_nat i) s /\ (i <= length bs)%nat /\
       (if decide (blk ∈ bs) then bs !! i = Some blk else i = length bs))).
  - intros i s1 (-> & Hi & Hno). unfold get_log. krun. rewrite Hlg, (tx_n _ _ _ _ Ht).
    destruct (Z.ltb_spec i (Z.of_nat (length bs))) as [Hlt|Hge].
    + set (n := Z.to_nat i). assert (Hn : i = Z.of_nat n) by lia. destruct (lookup_lt_is_Some_2 bs n) as [b Hb]; [lia|].
      pose proof (lh_block_run lg st size bs n b s Ht Hlg Hb) as E. rewrite <- Hn in E. krun.
      destruct (txn_home _ _ _ _ _ _ Ht Hb) as [Hb0 _]. rewrite u32_small by lia.
      destruct (Z.eqb_spec b blk) as [->|Hne].
      * right. left. exists i, s. split; [done|]. exists n. rewrite Hn. split; [done|]. split; [lia|].
        rewrite decide_True by (by apply (list_elem_of_lookup_2 _ n)). done.
      * left. exists (i + 1), s. split; [done|]. split; [|lia]. split; [done|]. split; [lia|]. intros j Hj.
        destruct (decide (j = n)) as [->|Hjn]; [congruence|]. apply Hno. lia.
    + right. left. exists i, s. split; [done|]. exists (length bs). assert (i = Z.of_nat (length bs)) as -> by lia.
      split; [done|]. split; [lia|]. rewrite decide_False; [done|]. intros [j Hj]%list_elem_of_lookup.
      apply (Hno j); [|done]. apply lookup_lt_Some in Hj. lia.
  - split; [done|]. split; [lia|]. intros j Hj. lia.
  - unfold NBUF in Hm. lia.
Qed.

Lemma bpin_eq b s : Lk_bcache ∉ k_held s ->
  bpin b s = Ret tt (set_k_fs (fbuf b (fun bf => set_b_refcnt (u32 (b_refcnt bf + 1)) bf) (k_fs s)) s).
Proof. intros H. unfold bpin, upd_buf, upd_fs. krun. by destruct s. Qed.

(** The transaction with one more block. *)
Definition absorb (bs : list Z) (blk : Z) : list Z := if decide (blk ∈ bs) then bs else bs ++ [blk].

Lemma log_write_run s P L v d w r st size bs b blk :
  store s P L v d w r -> (b, blk) ∈ L -> txn (r_log r) st size bs -> Permutation P bs ->
  length (l_block (r_log r)) = Z.to_nat LOGSIZE -> l_size (r_log r) = size -> 1 <= l_outstanding (r_log r) ->
  Z.of_nat (length bs) < size - 1 -> Z.of_nat (length bs) < LOGSIZE - 1 ->
  0 <= blk < 2 ^ 31 -> ~ (st <= blk < st + size) ->
  exists s' lg', log_write b s = Ret tt s' /\
    store s' (if decide (blk ∈ bs) then P else blk :: P) L v d w (mkRest lg' (r_inode r) (r_sb r)) /\
    txn lg' st size (absorb bs blk) /\ l_outstanding lg' = l_outstanding (r_log r) /\
    l_committing lg' = l_committing (r_log r) /\ l_size lg' = size /\ length (l_block lg') = Z.to_nat LOGSIZE.
Proof.
  intros Hst Hin Ht HP Hlb Hsz Hout Hn1 Hn2 Hblk Hhome.
  pose proof (store_log _ _ _ _ _ _ _ Hst) as Hlg. pose proof (st_alone _ _ _ _ _ _ _ _ _ _ Hst) as (Hh & _).
  destruct (store_get _ _ _ _ _ _ _ _ _ _ b blk Hst Hin) as (bf & Eg & _ & Hbn).
  unfold log_write, get_log. krun. rewrite Hh, Hlg, (tx_n _ _ _ _ Ht), Hsz.
  assert (Ebig : (Z.of_nat (length bs) >=? LOGSIZE) || (Z.of_nat (length bs) >=? size - 1) = false).
  { rewrite !Z.geb_leb. apply orb_false_iff. split; apply Z.leb_gt; lia. }
  rewrite Ebig. destruct (Z.ltb_spec (l_outstanding (r_log r)) 1); [lia|].
  set (s1 := set_k_held [Lk_log] s).
  assert (Eg1 : get_buf b s1 = Ret bf s1).
  { unfold get_buf in *. change (fs_buf (k_fs s1)) with (fs_buf (k_fs s)). destruct (fs_buf (k_fs s) !! b); [|discriminate].
    by injection Eg as ->. }
  krun. destruct (log_search (r_log r) st size bs s1 blk Ht Hlg Hblk) as (i & Ei & Hi & Hcase).
  rewrite <- Hbn in Ei. unfold get_log in Ei. krun. rewrite Hbn, (i32_small blk) by lia.
  unfold set_lh_block. destruct (Z.leb_spec 0 (Z.of_nat i)); [|lia]. destruct (Z.ltb_spec (Z.of_nat i) LOGSIZE); [|lia].
  cbn [andb]. unfold upd_log, upd_fs. krun. rewrite Nat2Z.id.
  change (k_fs s1) with (k_fs s). rewrite Hlg.
  set (lg1 := set_l_block (<[i := blk]> (l_block (r_log r))) (r_log r)).
  change (l_n (fs_log (set_fs_log lg1 (k_fs s)))) with (l_n (r_log r)). rewrite (tx_n _ _ _ _ Ht).
  unfold absorb. destruct (decide (blk ∈ bs)) as [Habs|Hnew].
  - pose proof (lookup_lt_Some _ _ _ Hcase) as Hlt. destruct (Z.eqb_spec (Z.of_nat i) (Z.of_nat (length bs))); [lia|].
    unfold s1. krun.
    destruct (store_rest p pr s0 s _ _ _ _ _ _ (fun fs => set_fs_log lg1 fs) Hst ltac:(done)) as (s2 & E2 & H2).
    injection E2 as <-. exists (set_k_fs (set_fs_log lg1 (k_fs s)) s), lg1.
    split; [rewrite <- Hh; by destruct s|]. split; [by rewrite <- (st_rest _ _ _ _ _ _ _ _ _ _ Hst)|].
    split; [|split; [done|split; [done|split; [done|]]]].
    + destruct Ht as [T1 T2 T3 T4 T5 T6 T7 T8 T9]. constructor; try done. intros j c Hj. cbn [lg1 l_block set_l_block].
      destruct (decide (i = j)) as [->|Hne]; [|rewrite list_lookup_insert_ne by done; by apply T4].
      rewrite list_lookup_insert_eq; [congruence|]. rewrite Hlb. unfold LOGSIZE, MAXOPBLOCKS in *. lia.
    + cbn. by rewrite length_insert.
  - subst i. rewrite Z.eqb_refl. set (lg2 := set_l_n (Z.of_nat (length bs) + 1) lg1).
    assert (HnP : blk ∉ P) by (by rewrite HP).
    destruct (store_bpin p pr s0 s _ _ _ _ _ _ b blk Hst Hin HnP) as (s2 & E2 & H2).
    rewrite bpin_eq in E2 by (rewrite Hh; apply not_elem_of_nil). injection E2 as E2. set (fs2 := fbuf b _ (k_fs s)) in E2.
    pose proof (bpin_eq b (set_k_fs (set_fs_log lg1 (k_fs s)) s1) ltac:(unfold s1; klock)) as EB. krun. unfold s1. krun.
    change (l_n (fs_log (fbuf b _ _))) with (l_n (r_log r)). rewrite (tx_n _ _ _ _ Ht).
    rewrite (i32_small (Z.of_nat (length bs) + 1)) by (unfold LOGSIZE, MAXOPBLOCKS in *; lia).
    destruct (store_rest p pr s0 s2 _ _ _ _ _ _ (fun fs => set_fs_log lg2 fs) H2 ltac:(done)) as (s3 & E3 & H3).
    injection E3 as <-. rewrite <- E2 in H3. kred.
    exists (set_k_fs (set_fs_log lg2 fs2) s), lg2.
    split; [rewrite <- Hh; by destruct s|]. split; [by rewrite <- (st_rest _ _ _ _ _ _ _ _ _ _ Hst)|].
    split; [|split; [done|split; [done|cbn; by rewrite length_insert]]].
    destruct Ht as [T1 T2 T3 T4 T5 T6 T7 T8 T9]. constructor; try done.
    + rewrite length_app. cbn. lia.
    + intros j c Hj. cbn [lg2 lg1 l_block set_l_block set_l_n]. destruct (decide (length bs = j)) as [<-|Hne].
      * rewrite list_lookup_insert_eq by (rewrite Hlb; unfold LOGSIZE, MAXOPBLOCKS in *; lia).
        by rewrite lookup_app_r, Nat.sub_diag in Hj by lia.
      * rewrite list_lookup_insert_ne by done. apply T4. pose proof (lookup_lt_Some _ _ _ Hj) as Hjl.
        rewrite length_app in Hjl. cbn in Hjl. by rewrite lookup_app_l in Hj by lia.
    + rewrite length_app. cbn. lia.
    + rewrite length_app. cbn. unfold LOGSIZE, MAXOPBLOCKS, NBUF in *. lia.
    + apply NoDup_app. split; [done|]. split; [|by apply NoDup_singleton]. intros x Hx ->%list_elem_of_singleton. done.
    + apply Forall_app. split; [done|]. by apply Forall_singleton.
Qed.

(** [log_write] of a locked buffer inside a file-system call adds its block
    to the transaction unless it is already there (absorption), pinning the
    buffer so that it stays cached until the commit; it changes neither what
    readers see nor the disk. *)
Theorem log_write_correct s P L v d w r st size bs b blk :
  store s P L v d w r -> (b, blk) ∈ L -> txn (r_log r) st size bs -> Permutation P bs ->
  length (l_block (r_log r)) = Z.to_nat LOGSIZE -> l_size (r_log r) = size -> 1 <= l_outstanding (r_log r) ->
  Z.of_nat (length bs) < size - 1 -> Z.of_nat (length bs) < LOGSIZE - 1 ->
  0 <= blk < 2 ^ 31 -> ~ (st <= blk < st + size) ->
  exists s', log_write b s = Ret tt s' /\ txn (fs_log (k_fs s')) st size (absorb bs blk) /\
    binv (p_pid pr) (k_fs s') (if decide (blk ∈ bs) then P else blk :: P) L /\
    (forall k, view (k_fs s') k = v k) /\ fs_disk (k_fs s') = d /\ k_held s' = [].
Proof.
  intros Hst Hin Ht HP Hlb Hsz Hout Hn1 Hn2 Hblk Hhome.
  destruct (log_write_run s P L v d w r st size bs b blk Hst Hin Ht HP Hlb Hsz Hout Hn1 Hn2 Hblk Hhome)
    as (s' & lg' & E & H' & Ht' & _).
  exists s'. split; [done|]. rewrite (store_log _ _ _ _ _ _ _ H'). split; [done|].
  destruct H' as [[Hh _] H2 H3 H4 H5 H6 H7 H8]. done.
Qed.

(** [log_write] refuses to run outside a file-system call and to record
    more blocks than the log area can hold: it panics. *)
Theorem log_write_panics s b :
  Lk_log ∉ k_held s ->
  let lg := fs_log (k_fs s) in
  (LOGSIZE <= l_n lg \/ l_size lg - 1 <= l_n lg ->
     exists s', log_write b s = Panic "too big a transaction" s') /\
  (l_n lg < LOGSIZE -> l_n lg < l_size lg - 1 -> l_outstanding lg < 1 ->
     exists s', log_write b s = Panic "log_write outside of trans" s').
Proof.
  intros Hlk lg. unfold log_write, get_log. unfold lg; clear lg. split.
  - intros Hbig. krun. assert (E : (l_n (fs_log (k_fs s)) >=? LOGSIZE) || (l_n (fs_log (k_fs s)) >=? l_size (fs_log (k_fs s)) - 1) = true).
    { rewrite !Z.geb_leb. apply orb_true_iff. rewrite !Z.leb_le. lia. }
    rewrite E. by eexists.
  - intros H1 H2 H3. krun. assert (E : (l_n (fs_log (k_fs s)) >=? LOGSIZE) || (l_n (fs_log (k_fs s)) >=? l_size (fs_log (k_fs s)) - 1) = false).
    { rewrite !Z.geb_leb. apply orb_false_iff. rewrite !Z.leb_gt. lia. }
    rewrite E. destruct (Z.ltb_spec (l_outstanding (fs_log (k_fs s))) 1); [|lia]. by eexists.
Qed.

(** ** Beginning and ending a file-system call *)

(** One more call. *)
Definition enter_op (fs : fsstate) : fsstate :=
  set_fs_log (set_l_outstanding (i32 (l_outstanding (fs_log fs) + 1)) (fs_log fs)) fs.

(** C34: [begin_op] admits a call only while no commit is in progress and the
    log has room for MAXOPBLOCKS more blocks per call, this one included;
    otherwise it sleeps, however often it is woken. It returns without locks
    and never panics. [P] is any property of the states it may be admitted
    in. *)
Theorem begin_op_correct n s q (P : fsstate -> Prop) :
  running q s -> k_held s = [] -> P (k_fs s) -> Z.of_nat n < 2 ^ 64 - 1 ->
  okay n (fun _ s s' => resumed q s s' /\ P (k_fs s'))
    (fun _ _ s' => exists fs, P fs /\ l_committing (fs_log fs) = 0 /\
       l_n (fs_log fs) + (l_outstanding (fs_log fs) + 1) * MAXOPBLOCKS <= LOGSIZE /\
       k_held s' = [] /\ k_fs s' = enter_op fs)
    (begin_op s).
Proof.
  intros Hrun Hh HP Hn. unfold begin_op. krun. rewrite Hh.
  set (I := fun (_ : nat) (_ : unit) s => running q s /\ k_held s = [Lk_log] /\ P (k_fs s)).
  apply (okay_loop _ _ I (fun _ _ => 0%nat)); [|by split_and!|lia].
  clear s Hrun Hh HP Hn n. intros n [] s (Hrun & Hh & HP). unfold get_log. krun.
  assert (Hsleep : okay n (fun _ s s' => resumed q s s' /\ P (k_fs s'))
    (fun n' (r : unit + unit) s' => match r with
      | inl x' => I n' x' s' /\ (n' + 0 < n + 0)%nat
      | inr v => exists fs, P fs /\ l_committing (fs_log fs) = 0 /\
          l_n (fs_log fs) + (l_outstanding (fs_log fs) + 1) * MAXOPBLOCKS <= LOGSIZE /\
          k_held s' = [] /\ k_fs s' = enter_op fs end)
    ((sleep Ch_log Lk_log ;;; ret (inl tt)) s)).
  { apply okay_bind. destruct Hrun as (Hqs & Hc & prq & Hprq & Hstq).
    apply (okay_sleep _ _ _ _ _ s q prq); try done.
    intros n' s' -> [(Hrun' & Hh' & _) HP']. split; [done|]. cbn. split; [|lia].
    split; [by apply running_awake|]. by split. }
  destruct (Z.eqb_spec (l_committing (fs_log (k_fs s))) 0) as [Hz|Hz]; cbn [negb]; [|exact Hsleep].
  rewrite Z.gtb_ltb. destruct (Z.ltb_spec LOGSIZE (l_n (fs_log (k_fs s)) + (l_outstanding (fs_log (k_fs s)) + 1) * MAXOPBLOCKS));
    [exact Hsleep|].
  unfold upd_log, upd_fs. krun. erewrite (bind_Ret (release Lk_log)) by (apply (release_head _ []); exact Hh).
  cbn. by exists (k_fs s).
Qed.

Lemma wakeup_alone s ch : alone p pr s -> fs_chan ch = true ->
  forall s', k_proc s' = k_proc s -> (forall i, Lk_proc i ∉ k_held s') -> wakeup ch s' = Ret tt s'.
Proof.
  intros (_ & _ & _ & _ & _ & Hlen & Hq) Hch s' Hp Hl. apply wakeup_none; [by rewrite Hp|done|].
  intros q qr Hqr Hcq. rewrite Hp in Hqr. by rewrite (Hq q qr ch Hqr Hcq) in Hch.
Qed.

(** The log when no call is in progress and nothing is to be committed. *)
Definition idle_log (lg : log) : log := set_l_committing 0 (set_l_n 0 (set_l_committing 1 (set_l_outstanding 0 lg))).

Lemma end_op_run s P v d w r st size bs :
  store s P [] v d w r -> txn (r_log r) st size bs -> Permutation P bs ->
  l_outstanding (r_log r) = 1 -> l_committing (r_log r) = 0 ->
  let ws := match bs with [] => [] | _ => commit_writes st bs v end in
  exists s' v', end_op s = Ret tt s' /\
    store s' [] [] v' (upds d ws) (rev ws ++ w) (mkRest (idle_log (r_log r)) (r_inode r) (r_sb r)) /\
    forall k, ~ (st <= k < st + size) -> v' k = v k.
Proof.
  intros Hst Ht HP Hout Hcom ws. pose proof (st_alone _ _ _ _ _ _ _ _ _ _ Hst) as Hal. pose proof Hal as (Hh & _).
  unfold end_op, upd_log, upd_fs, get_log. krun. rewrite Hh, (store_log _ _ _ _ _ _ _ Hst), Hout.
  cbn [fs_log set_fs_log l_committing l_outstanding set_l_outstanding]. rewrite Hcom. cbn [Z.eqb negb].
  change (i32 (1 - 1) =? 0) with true. cbv iota. krun. change (i32 (1 - 1)) with 0.
  set (lg1 := set_l_committing 1 (set_l_outstanding 0 (r_log r))).
  set (s1 := set_k_held [] _).
  destruct (store_rest p pr s0 s _ _ _ _ _ _ (set_fs_log lg1) Hst ltac:(done)) as (s1' & E1 & H1).
  injection E1 as <-.
  assert (Es1 : s1 = set_k_fs (set_fs_log lg1 (k_fs s)) s).
  { unfold s1. rewrite <- Hh. by destruct s. }
  rewrite <- Es1 in H1.
  assert (Hr1 : rest_of (set_fs_log lg1 (k_fs s)) = mkRest lg1 (r_inode r) (r_sb r)).
  { by rewrite <- (st_rest _ _ _ _ _ _ _ _ _ _ Hst). }
  rewrite Hr1 in H1.
  assert (Ht1 : txn lg1 st size bs) by (destruct Ht; by constructor).
  assert (EC : exists s2 v', commit s1 = Ret tt s2 /\
            store s2 [] [] v' (upds d ws) (rev ws ++ w) (mkRest (set_l_n 0 lg1) (r_inode r) (r_sb r)) /\
            forall k, ~ (st <= k < st + size) -> v' k = v k).
  { destruct bs as [|b bs].
    - exists s1, v. split.
      + unfold commit, get_log. krun. rewrite (store_log _ _ _ _ _ _ _ H1). cbn [r_log]. by rewrite (tx_n _ _ _ _ Ht1).
      + split; [|done]. apply Permutation_nil_r in HP as ->. pose proof (tx_n _ _ _ _ Ht1) as Hn0.
        replace (set_l_n 0 lg1) with lg1; [exact H1|]. unfold lg1 in *. destruct (r_log r). cbn in *. by rewrite Hn0.
    - apply (commit_run s1 P v d w _ st size (b :: bs) H1 Ht1 HP). done. }
  destruct EC as (s2 & v' & E2 & H2 & Hv'). krun.
  pose proof (st_alone _ _ _ _ _ _ _ _ _ _ H2) as Hal2. pose proof Hal2 as (Hh2 & _).
  rewrite (bind_Ret (acquire Lk_log) _ s2 tt (set_k_held [Lk_log] s2))
    by (rewrite acquire_free; rewrite Hh2; [done|apply not_elem_of_nil]).
  krun. match goal with |- context [wakeup Ch_log] => idtac end.
  set (s3 := set_k_fs _ (set_k_held [Lk_log] s2)).
  assert (E3 : wakeup Ch_log s3 = Ret tt s3).
  { apply (wakeup_alone s2 Ch_log Hal2 eq_refl s3 eq_refl). intros i. unfold s3. klock. }
  krun. unfold s3. krun.
  destruct (store_rest p pr s0 s2 _ _ _ _ _ _ (fun fs => set_fs_log (set_l_committing 0 (fs_log fs)) fs) H2 ltac:(done)) as (s4 & E4 & H4).
  injection E4 as <-. eexists _, v'. split; [reflexivity|]. split; [|done].
  match type of H4 with store ?a _ _ _ _ _ _ => match goal with |- store ?b _ _ _ _ _ _ => assert (a = b) as <- end end.
  { rewrite <- Hh2. by destruct s2. }
  pose proof (st_rest _ _ _ _ _ _ _ _ _ _ H2) as Hr2. unfold rest_of in Hr2.
  injection Hr2 as R1 R2 R3. unfold rest_of in H4. cbn [fs_log set_fs_log fs_inode fs_sb] in H4.
  rewrite R2, R3, R1 in H4. rewrite R1. exact H4.
Qed.
End LogFacts.

(** ** The theorems on a log at block 2 with one block in the transaction *)

Module LogWitness.
Import BioWitness.
#[local] Existing Instance now_driver.

Definition lg0 : log := mkLog 2 30 1 0 1 0 (replicate 30 0).

Definition zero : Z -> list Z := fun _ => replicate 1024 0.
Definition nines : list Z := replicate 1024 9.
Definition rest0 : rest := mkRest lg0 (fs_inode (k_fs start)) (fs_sb (k_fs start)).

Abbreviation wstore := (store (DD := now_driver) 0 pr0 cold).

(** A file-system call has begun; nothing is cached. *)
Lemma begun : exists s, wstore s [] [] zero zero [] rest0.
Proof.
  destruct start_fresh as (H1 & H2 & H3). destruct (binit_run start H1 H2 H3) as (fs' & E & _ & _ & Hv & _).
  pose proof (store_start (DD := now_driver) 0 pr0 cold [] [] cold_alone I cold_binv) as Hs.
  destruct (store_rest 0 pr0 cold cold _ _ _ _ _ _ (set_fs_log lg0) Hs
    (fun _ => conj eq_refl (conj eq_refl (conj eq_refl (conj eq_refl eq_refl))))) as (s & _ & H).
  exists s. assert (Hc : k_fs cold = fs') by (unfold cold; rewrite E; reflexivity).
  replace (fs_disk (k_fs cold)) with zero in H by (vm_compute; reflexivity).
  replace (fs_writes (k_fs cold)) with (@nil (Z * list Z)) in H by (vm_compute; reflexivity).
  replace (rest_of (set_fs_log lg0 (k_fs cold))) with rest0 in H by (vm_compute; reflexivity).
  eapply store_ext; [|exact H]. intros k. rewrite Hc, Hv. reflexivity.
Qed.

Lemma txn0 : txn lg0 2 30 [].
Proof. constructor; cbn; first [done|lia|apply NoDup_nil_2|apply Forall_nil_2|unfold NBUF; lia]. Qed.

(** Block 40 is locked, and has new contents. *)
Lemma locked40 : exists b s, wstore s [] [(b, 40)] (<[40 := nines]> zero) zero [] rest0.
Proof.
  destruct begun as (s & H).
  destruct (store_bread 0 pr0 cold s [] [] zero zero [] rest0 40 H (not_elem_of_nil _)) as (b & s1 & _ & H1 & _);
    [right; cbn; unfold NBUF; lia|blk_ok|].
  destruct (store_set 0 pr0 cold s1 _ _ _ _ _ _ b 40 nines H1) as (s2 & _ & H2);
    [by apply elem_of_cons; left|reflexivity|]. by exists b, s2.
Qed.

Lemma log_write_correct_witness : exists b s s', log_write b s = Ret tt s' /\ txn (fs_log (k_fs s')) 2 30 [40].
Proof.
  destruct locked40 as (b & s & H).
  destruct (log_write_correct 0 pr0 cold s [] [(b, 40)] _ zero [] rest0 2 30 [] b 40 H) as (s' & E & Ht & _);
    [by apply elem_of_cons; left|exact txn0|reflexivity|reflexivity|reflexivity|cbn; lia|cbn; lia|reflexivity|lia|lia|].
  exists b, s, s'. split; [exact E|exact Ht].
Defined.

Lemma log_write_panics_witness : exists s', log_write 0 (set_k_fs (set_fs_log (set_l_outstanding 0 lg0) (k_fs boot)) boot)
  = Panic "log_write outside of trans" s'.
Proof.
  destruct (log_write_panics (set_k_fs (set_fs_log (set_l_outstanding 0 lg0) (k_fs boot)) boot) 0 (not_elem_of_nil _)) as [_ H].
  apply H; cbn; unfold LOGSIZE, MAXOPBLOCKS; lia.
Defined.

(** The block has been recorded and released. *)
Lemma logged40 : exists s lg', wstore s [40] [] (<[40 := nines]> zero) zero [] (mkRest lg' (r_inode rest0) (r_sb rest0)) /\
  txn lg' 2 30 [40].
Proof.
  destruct locked40 as (b & s & H).
  destruct (log_write_run 0 pr0 cold s [] [(b, 40)] _ zero [] rest0 2 30 [] b 40 H) as (s' & lg' & _ & H' & Ht & _);
    [by apply elem_of_cons; left|exact txn0|reflexivity|reflexivity|reflexivity|cbn; lia|cbn; lia|reflexivity|lia|lia|].
  destruct (store_brelse 0 pr0 cold s' _ _ _ _ _ _ b 40 H') as (s2 & _ & H2); [left; by apply elem_of_cons; left|].
  exists s2, lg'. split; [exact H2|exact Ht].
Qed.

Lemma commit_crash_safe_witness : exists s s' ws, commit s = Ret tt s' /\
  recover 2 (upds zero (take 1 ws)) 40 = zero 40 /\ recover 2 (upds zero (take 2 ws)) 40 = nines.
Proof.
  destruct logged40 as (s & lg' & H & Ht).
  destruct (commit_crash_safe 0 pr0 cold s [40] _ zero [] _ 2 30 [40] H Ht) as (s' & ws & E & _ & _ & _ & Hc);
    [reflexivity|discriminate|reflexivity|].
  exists s, s', ws. split; [exact E|]. split; [exact (Hc 1%nat 40 ltac:(lia))|exact (Hc 2%nat 40 ltac:(lia))].
Defined.

Lemma recover_correct_witness : exists s s', recover_from_log s = Ret tt s' /\ hdr_n (fs_disk (k_fs s') 2) = 0.
Proof.
  destruct begun as (s & H).
  destruct (recover_correct 0 pr0 cold s zero zero [] rest0 2 30 H) as (s' & E & _ & _ & _ & Hn & _);
    [reflexivity|reflexivity|reflexivity|reflexivity|lia|lia| |exists s, s'; split; [exact E|exact Hn]].
  split; [vm_compute; split; congruence|]. split; [vm_compute; reflexivity|]. split; [apply NoDup_nil_2|apply Forall_nil_2].
Defined.

Lemma begin_op_correct_witness :
  okay 7 (fun _ s s' => resumed 0 s s' /\ True)
    (fun _ _ s' => exists fs, True /\ l_committing (fs_log fs) = 0 /\
       l_n (fs_log fs) + (l_outstanding (fs_log fs) + 1) * MAXOPBLOCKS <= LOGSIZE /\
       k_held s' = [] /\ k_fs s' = enter_op fs)
    (begin_op SleeplockWitness.busy).
Proof.
  apply (begin_op_correct 7 SleeplockWitness.busy 0 (fun _ => True));
    [apply SleeplockWitness.busy_running|reflexivity|exact I|lia].
Defined.
End LogWitness.
