(* ===== verification/Uio.v ===== *)
(** * Moving data between the kernel and a process

    [either_copyout] and [either_copyin] of kernel/proc.c, and the routines of
    kernel/syscall.c that fetch the arguments of a system call. *)

From S2P Require Import Prelude Machine State CString Kalloc Vm Printf.

(** ** Buffers in kernel variables

    The string routines of kernel/string.c work on memory; a kernel variable
    is the list of its bytes. [on_bufs] runs a routine on a memory that holds
    the variables it is given. *)
Definition on_bufs {A} (m : Mem A) (mem : memory) : K (A * memory) := fun s =>
  match m mem with
  | Ret a mem' => Ret (a, mem') s
  | Panic msg _ => Panic msg s
  | Swtch _ _ => Fuel s
  | Fuel _ => Fuel s
  end.

(** One variable at address 0; two variables at 0 and at [VAR2]. *)
Definition VAR2 : Z := 4096.
Definition at0 (l : list Z) : memory := fun a => nth (Z.to_nat a) l 0.
Definition at02 (l1 l2 : list Z) : memory := fun a =>
  if a <? VAR2 then nth (Z.to_nat a) l1 0 else nth (Z.to_nat (a - VAR2)) l2 0.

(** Where [readi] and [writei] move data: a user virtual address, an address
    in the kernel's direct mapping, or a kernel variable. A variable that is
    read from is its bytes; one that is written to is what the routine that
    fills it returns. *)
Inductive place := User (va : Z) | Kernel (pa : Z) | Var (bytes : list Z).

(** [dst += m]. *)
Definition advance (pl : place) (m : Z) : place :=
  match pl with
  | User va => User (u64 (va + m))
  | Kernel pa => Kernel (u64 (pa + m))
  | Var l => Var (drop (Z.to_nat m) l)
  end.

Section Uio.
Context `{LAY : Layout}.

Definition either_copyout (dst : place) (src : list Z) : K Z :=
  match dst with
  | User va => p <- curproc ;; pr <- get_proc p ;; copyout (p_pagetable pr) va src
  | Kernel pa => kmemmove_from pa src ;;; ret 0
  | Var _ => ret 0
  end.

(** The result and the bytes put at the destination. *)
Definition either_copyin (src : place) (len : Z) : K (Z * list Z) :=
  match src with
  | User va => p <- curproc ;; pr <- get_proc p ;; copyin (p_pagetable pr) va len
  | Kernel pa => b <- gets (fun s => rdbytes (k_mem s) pa (Z.to_nat len)) ;; ret (0, b)
  | Var l => ret (0, take (Z.to_nat len) l)
  end.

(** ** kernel/syscall.c: arguments *)

(** [*(uint64 * )l]. *)
Definition le64 (l : list Z) : Z := ld64 (at0 l) 0.

Definition fetchaddr (addr : Z) : K (Z * Z) :=
  p <- curproc ;; pr <- get_proc p ;;
  if (addr >=? p_sz pr) || (u64 (addr + 8) >? p_sz pr) then ret (-1, 0)
  else
    '(r, bytes) <- copyin (p_pagetable pr) addr 8 ;;
    if negb (r =? 0) then ret (-1, 0) else ret (0, le64 bytes).

(** The result and the bytes stored in [buf]. *)
Definition fetchstr (addr max : Z) : K (Z * list Z) :=
  p <- curproc ;; pr <- get_proc p ;;
  '(err, buf) <- copyinstr (p_pagetable pr) addr max ;;
  if err <? 0 then ret (err, buf)
  else '(n, _) <- on_bufs (strlen 0) (at0 buf) ;; ret (n, buf).

(** Offsets in [struct trapframe]. *)
Definition TF_kernel_satp : Z := 0.
Definition TF_kernel_sp : Z := 8.
Definition TF_kernel_trap : Z := 16.
Definition TF_epc : Z := 24.
Definition TF_kernel_hartid : Z := 32.
Definition TF_sp : Z := 48.
Definition TF_a0 : Z := 112.
Definition TF_a1 : Z := 120.
Definition TF_a7 : Z := 168.
Definition SIZEOF_TRAPFRAME : Z := 288.

Definition argraw (n : Z) : K Z :=
  p <- curproc ;; pr <- get_proc p ;;
  if (0 <=? n) && (n <? 6) then load64 (p_trapframe pr + TF_a0 + 8 * n)
  else panic "argraw".

(** [argint] and [argaddr] always succeed; the value they store. *)
Definition argint (n : Z) : K (Z * Z) := v <- argraw n ;; ret (0, i32 v).
Definition argaddr (n : Z) : K (Z * Z) := v <- argraw n ;; ret (0, v).

Definition argstr (n max : Z) : K (Z * list Z) :=
  '(r, addr) <- argaddr n ;;
  if r <? 0 then ret (-1, []) else fetchstr addr max.
End Uio.
