(* ===== verification/Fs.v ===== *)
(** * kernel/fs.c: blocks, inodes, directories and path names

    The code of the file system above the log. This file is the code;
    [FsFacts.v] has the theorems. An inode pointer is an index of
    [itable.inode], a path or a name a list of bytes whose end stands for the
    terminating NUL. *)

From stdpp Require Import functions.
From S2P Require Import Prelude Machine State CString Kalloc Vm Printf Sched Sleeplock Block Bio Log Uio.

(** ** On-disk format (kernel/fs.h) *)

Definition ROOTINO : Z := 1.
Definition FSMAGIC : Z := 0x10203040.
Definition NDIRECT : nat := 12.
Definition NINDIRECT : Z := BSIZE / 4.
Definition MAXFILE : Z := Z.of_nat NDIRECT + NINDIRECT.
Definition SIZEOF_DINODE : Z := 64.
Definition IPB : Z := BSIZE / SIZEOF_DINODE.
Definition IBLOCK (i : Z) (sb : superblock) : Z := u32 (i / IPB + sb_inodestart sb).
Definition BPB : Z := BSIZE * 8.
Definition BBLOCK (b : Z) (sb : superblock) : Z := u32 (Z.quot b BPB + sb_bmapstart sb).
Definition DIRSIZ : Z := 14.
Definition SIZEOF_DIRENT : Z := 16.

(** [struct superblock] at the start of a block. *)
Definition sb_of (d : list Z) : superblock :=
  mkSuperblock (rd 4 d 0) (rd 4 d 4) (rd 4 d 8) (rd 4 d 12) (rd 4 d 16) (rd 4 d 20) (rd 4 d 24) (rd 4 d 28).

(** Offset of [(struct dinode* )bp->data + inum%IPB], and the fields there. *)
Definition dip_off (inum : Z) : nat := Z.to_nat (SIZEOF_DINODE * (inum mod IPB)).

Record dinode := mkDinode {
  di_type : Z;
  di_major : Z;
  di_minor : Z;
  di_nlink : Z;
  di_size : Z;
  di_addrs : list Z
}.

Definition rd_addrs (d : list Z) (o : nat) : list Z :=
  map (fun k => rd 4 d (o + 12 + 4 * k)) (seq 0 (NDIRECT + 1)).

Fixpoint wr_addrs (d : list Z) (o : nat) (l : list Z) : list Z :=
  match l with
  | [] => d
  | a :: l' => wr_addrs (wr 4 d o a) (o + 4) l'
  end.

Definition rd_dinode (d : list Z) (o : nat) : dinode :=
  mkDinode (i16 (rd 2 d o)) (i16 (rd 2 d (o + 2))) (i16 (rd 2 d (o + 4))) (i16 (rd 2 d (o + 6)))
    (rd 4 d (o + 8)) (rd_addrs d o).

(** The assignments to the fields of [*dip], in the order of [iupdate]. *)
Definition wr_dinode (d : list Z) (o : nat) (di : dinode) : list Z :=
  let d := wr 2 d o (di_type di) in
  let d := wr 2 d (o + 2) (di_major di) in
  let d := wr 2 d (o + 4) (di_minor di) in
  let d := wr 2 d (o + 6) (di_nlink di) in
  let d := wr 4 d (o + 8) (di_size di) in
  wr_addrs d (o + 12) (di_addrs di).

(** [struct dirent]. *)
Definition de_inum (d : list Z) : Z := rd 2 d 0.
Definition de_name (d : list Z) : list Z := take (Z.to_nat DIRSIZ) (drop 2 d).

(** [struct stat] (kernel/stat.h). *)
Record stat := mkStat { st_dev : Z; st_ino : Z; st_type : Z; st_nlink : Z; st_size : Z }.

(** ** Globals *)

Definition get_sb : K superblock := gets (fun s => fs_sb (k_fs s)).

Definition get_inode (ip : nat) : K inode := fun s =>
  match fs_inode (k_fs s) !! ip with
  | Some i => Ret i s
  | None => undefined s
  end.

Definition upd_inode (ip : nat) (f : inode -> inode) : K unit :=
  upd_fs (fun fs => set_fs_inode (alter f ip (fs_inode fs)) fs).

(** [ip->addrs[i] = v]. *)
Definition set_addr (ip : nat) (i : nat) (v : Z) : K unit :=
  upd_inode ip (fun ino => set_i_addrs (<[i := v]> (i_addrs ino)) ino).

(** [bp->data], and an assignment that changes it. *)
Definition buf_data (b : nat) : K (list Z) := bf <- get_buf b ;; ret (b_data bf).
Definition upd_data (b : nat) (f : list Z -> list Z) : K unit :=
  upd_buf b (fun bf => set_b_data (f (b_data bf)) bf).

Section Fs.
Context `{LAY : Layout} `{DD : DiskDriver}.

(** ** Blocks *)

Definition readsb (dev : Z) : K superblock :=
  bp <- bread dev 1 ;;
  d <- buf_data bp ;;
  upd_fs (set_fs_sb (sb_of d)) ;;;
  brelse bp ;;;
  get_sb.

Definition fsinit (dev : Z) : K unit :=
  sb <- readsb dev ;;
  if negb (sb_magic sb =? FSMAGIC) then panic "invalid file system"
  else initlog dev sb.

Definition bzero (dev bno : Z) : K unit :=
  bp <- bread dev (u32 bno) ;;
  upd_data bp (fun _ => replicate (Z.to_nat BSIZE) 0) ;;;
  log_write bp ;;;
  brelse bp.

(** Bit [bi] of a bitmap block: [data[bi/8] & (1 << (bi % 8))]. *)
Definition bit_at (d : list Z) (bi : Z) : Z := Z.land (nth (Z.to_nat (bi / 8)) d 0) (Z.shiftl 1 (bi mod 8)).
Definition set_bit (bi : Z) (d : list Z) : list Z :=
  <[Z.to_nat (bi / 8) := Z.lor (nth (Z.to_nat (bi / 8)) d 0) (Z.shiftl 1 (bi mod 8))]> d.
Definition clear_bit (bi : Z) (d : list Z) : list Z :=
  <[Z.to_nat (bi / 8) := Z.land (nth (Z.to_nat (bi / 8)) d 0) (Z.lnot (Z.shiftl 1 (bi mod 8)))]> d.

(** The inner loop of [balloc] over the bits of the bitmap block in [bp]; the
    block allocated, if any. *)
Definition balloc_bits (dev b : Z) (bp : nat) : K (option Z) :=
  loop (fun bi =>
    sb <- get_sb ;;
    if (bi <? BPB) && (u32 (b + bi) <? sb_size sb)
    then
      d <- buf_data bp ;;
      if bit_at d bi =? 0
      then
        upd_data bp (set_bit bi) ;;;
        log_write bp ;;;
        brelse bp ;;;
        bzero dev (i32 (b + bi)) ;;;
        ret (inr (Some (u32 (b + bi))))
      else ret (inl (bi + 1))
    else ret (inr None)) 0.

Definition balloc (dev : Z) : K Z :=
  loop (fun b =>
    sb <- get_sb ;;
    if u32 b <? sb_size sb
    then
      bp <- bread dev (BBLOCK b sb) ;;
      r <- balloc_bits dev b bp ;;
      match r with
      | Some x => ret (inr x)
      | None => brelse bp ;;; ret (inl (i32 (b + BPB)))
      end
    else panic "balloc: out of blocks") 0.

Definition bfree (dev b : Z) : K unit :=
  sb <- get_sb ;;
  bp <- bread dev (BBLOCK b sb) ;;
  let bi := b mod BPB in
  d <- buf_data bp ;;
  if bit_at d bi =? 0 then panic "freeing free block"
  else
    upd_data bp (clear_bit bi) ;;;
    log_write bp ;;;
    brelse bp.

(** ** Inodes *)

Definition iinit : K unit :=
  for_all (seq 0 NINODE) (fun i => initsleeplock (SL_inode i)).

(** The loop of [iget] over the table, which remembers the first empty entry. *)
Definition iget_scan (dev inum : Z) : K (option nat * option nat) :=
  loop (fun '(ip, empty) =>
    if Nat.ltb ip NINODE
    then
      i <- get_inode ip ;;
      if (i_ref i >? 0) && (i_dev i =? dev) && (i_inum i =? inum) then ret (inr (Some ip, empty))
      else
        let empty := if is_null empty && (i_ref i =? 0) then Some ip else empty in
        ret (inl (S ip, empty))
    else ret (inr (None, empty))) (0%nat, None).

Definition iget (dev inum : Z) : K nat :=
  acquire Lk_itable ;;;
  '(found, empty) <- iget_scan dev inum ;;
  match found with
  | Some ip =>
      upd_inode ip (fun i => set_i_ref (i32 (i_ref i + 1)) i) ;;;
      release Lk_itable ;;;
      ret ip
  | None =>
      match empty with
      | None => panic "iget: no inodes"
      | Some ip =>
          upd_inode ip (fun i => set_i_valid 0 (set_i_ref 1 (set_i_inum inum (set_i_dev dev i)))) ;;;
          release Lk_itable ;;;
          ret ip
      end
  end.

Definition ialloc (dev type : Z) : K nat :=
  loop (fun inum =>
    sb <- get_sb ;;
    if u32 inum <? sb_ninodes sb
    then
      bp <- bread dev (IBLOCK inum sb) ;;
      let o := dip_off inum in
      d <- buf_data bp ;;
      if di_type (rd_dinode d o) =? 0
      then
        upd_data bp (fun d => splice d o (replicate (Z.to_nat SIZEOF_DINODE) 0)) ;;;
        upd_data bp (fun d => wr 2 d o type) ;;;
        log_write bp ;;;
        brelse bp ;;;
        ip <- iget dev (u32 inum) ;;
        ret (inr ip)
      else
        brelse bp ;;;
        ret (inl (i32 (inum + 1)))
    else panic "ialloc: no inodes") 1.

(** The fields of [*ip] that live on disk. *)
Definition dinode_of (i : inode) : dinode :=
  mkDinode (i_type i) (i_major i) (i_minor i) (i_nlink i) (i_size i) (i_addrs i).

Definition load_dinode (di : dinode) (i : inode) : inode :=
  set_i_addrs (di_addrs di) (set_i_size (di_size di) (set_i_nlink (di_nlink di)
    (set_i_minor (di_minor di) (set_i_major (di_major di) (set_i_type (di_type di) i))))).

Definition iupdate (ip : nat) : K unit :=
  sb <- get_sb ;;
  i <- get_inode ip ;;
  bp <- bread (i_dev i) (IBLOCK (i_inum i) sb) ;;
  i <- get_inode ip ;;
  upd_data bp (fun d => wr_dinode d (dip_off (i_inum i)) (dinode_of i)) ;;;
  log_write bp ;;;
  brelse bp.

Definition idup (ip : nat) : K nat :=
  acquire Lk_itable ;;;
  upd_inode ip (fun i => set_i_ref (i32 (i_ref i + 1)) i) ;;;
  release Lk_itable ;;;
  ret ip.

Definition ilock (ip : option nat) : K unit :=
  match ip with
  | None => panic "ilock"
  | Some ip =>
      i <- get_inode ip ;;
      if i_ref i <? 1 then panic "ilock"
      else
        acquiresleep (SL_inode ip) ;;;
        i <- get_inode ip ;;
        if i_valid i =? 0
        then
          sb <- get_sb ;;
          bp <- bread (i_dev i) (IBLOCK (i_inum i) sb) ;;
          d <- buf_data bp ;;
          upd_inode ip (fun i => load_dinode (rd_dinode d (dip_off (i_inum i))) i) ;;;
          brelse bp ;;;
          upd_inode ip (set_i_valid 1) ;;;
          i <- get_inode ip ;;
          if i_type i =? 0 then panic "ilock: no type" else ret tt
        else ret tt
  end.

Definition iunlock (ip : option nat) : K unit :=
  match ip with
  | None => panic "iunlock"
  | Some ip =>
      h <- holdingsleep (SL_inode ip) ;;
      i <- get_inode ip ;;
      if (h =? 0) || (i_ref i <? 1) then panic "iunlock"
      else releasesleep (SL_inode ip)
  end.

(** ** Inode content *)

Definition bmap (ip : nat) (bn : Z) : K Z :=
  i <- get_inode ip ;;
  if bn <? Z.of_nat NDIRECT
  then
    let addr := nth (Z.to_nat bn) (i_addrs i) 0 in
    if addr =? 0
    then addr <- balloc (i_dev i) ;; set_addr ip (Z.to_nat bn) addr ;;; ret addr
    else ret addr
  else
    let bn := bn - Z.of_nat NDIRECT in
    if bn <? NINDIRECT
    then
      let addr := nth NDIRECT (i_addrs i) 0 in
      addr <- (if addr =? 0
               then addr <- balloc (i_dev i) ;; set_addr ip NDIRECT addr ;;; ret addr
               else ret addr) ;;
      bp <- bread (i_dev i) addr ;;
      d <- buf_data bp ;;
      let addr := rd 4 d (Z.to_nat (4 * bn)) in
      addr <- (if addr =? 0
               then
                 addr <- balloc (i_dev i) ;;
                 upd_data bp (fun d => wr 4 d (Z.to_nat (4 * bn)) addr) ;;;
                 log_write bp ;;;
                 ret addr
               else ret addr) ;;
      brelse bp ;;;
      ret addr
    else panic "bmap: out of range".

Definition itrunc (ip : nat) : K unit :=
  for_all (seq 0 NDIRECT) (fun k =>
    i <- get_inode ip ;;
    let a := nth k (i_addrs i) 0 in
    if negb (a =? 0) then bfree (i_dev i) a ;;; set_addr ip k 0 else ret tt) ;;;
  i <- get_inode ip ;;
  let a := nth NDIRECT (i_addrs i) 0 in
  (if negb (a =? 0)
   then
     bp <- bread (i_dev i) a ;;
     for_all (seq 0 (Z.to_nat NINDIRECT)) (fun j =>
       d <- buf_data bp ;;
       let aj := rd 4 d (4 * j) in
       if negb (aj =? 0) then bfree (i_dev i) aj else ret tt) ;;;
     brelse bp ;;;
     bfree (i_dev i) a ;;;
     set_addr ip NDIRECT 0
   else ret tt) ;;;
  upd_inode ip (set_i_size 0) ;;;
  iupdate ip.

Definition iput (ip : nat) : K unit :=
  acquire Lk_itable ;;;
  i <- get_inode ip ;;
  (if (i_ref i =? 1) && negb (i_valid i =? 0) && (i_nlink i =? 0)
   then
     acquiresleep (SL_inode ip) ;;;
     release Lk_itable ;;;
     itrunc ip ;;;
     upd_inode ip (set_i_type 0) ;;;
     iupdate ip ;;;
     upd_inode ip (set_i_valid 0) ;;;
     releasesleep (SL_inode ip) ;;;
     acquire Lk_itable
   else ret tt) ;;;
  upd_inode ip (fun i => set_i_ref (i32 (i_ref i - 1)) i) ;;;
  release Lk_itable.

Definition iunlockput (ip : nat) : K unit := iunlock (Some ip) ;;; iput ip.

Definition stati (ip : nat) : K stat :=
  i <- get_inode ip ;;
  ret (mkStat (i32 (i_dev i)) (i_inum i) (i_type i) (i_nlink i) (i_size i)).

(** The result of [readi] and the bytes it has copied out: the contents of
    the destination where that is a kernel variable. *)
Definition readi (ip : nat) (dst : place) (off n : Z) : K (Z * list Z) :=
  i <- get_inode ip ;;
  if (off >? i_size i) || (u32 (off + n) <? off) then ret (0, [])
  else
    let n := if u32 (off + n) >? i_size i then u32 (i_size i - off) else n in
    loop (fun '(tot, off, dst, out) =>
      if tot <? n
      then
        blk <- bmap ip (off / BSIZE) ;;
        bp <- bread (i_dev i) blk ;;
        let m := Z.min (n - tot) (BSIZE - off mod BSIZE) in
        d <- buf_data bp ;;
        let src := take (Z.to_nat m) (drop (Z.to_nat (off mod BSIZE)) d) in
        r <- either_copyout dst src ;;
        if r =? -1
        then brelse bp ;;; ret (inr (-1, out))
        else brelse bp ;;; ret (inl (u32 (tot + m), u32 (off + m), advance dst m, out ++ src))
      else ret (inr (i32 tot, out))) (0, off, dst, []).

Definition writei (ip : nat) (src : place) (off n : Z) : K Z :=
  i <- get_inode ip ;;
  if (off >? i_size i) || (u32 (off + n) <? off) then ret (-1)
  else if u32 (off + n) >? MAXFILE * BSIZE then ret (-1)
  else
    '(tot, off) <- loop (fun '(tot, off, src) =>
      if tot <? n
      then
        blk <- bmap ip (off / BSIZE) ;;
        bp <- bread (i_dev i) blk ;;
        let m := Z.min (n - tot) (BSIZE - off mod BSIZE) in
        '(r, bytes) <- either_copyin src m ;;
        upd_data bp (fun d => splice d (Z.to_nat (off mod BSIZE)) bytes) ;;;
        if r =? -1
        then brelse bp ;;; ret (inr (tot, off))
        else log_write bp ;;; brelse bp ;;; ret (inl (u32 (tot + m), u32 (off + m), advance src m))
      else ret (inr (tot, off))) (0, off, src) ;;
    i <- get_inode ip ;;
    (if off >? i_size i then upd_inode ip (set_i_size off) else ret tt) ;;;
    iupdate ip ;;;
    ret (i32 tot).

(** ** Directories *)

Definition namecmp (s t : list Z) : K Z :=
  '(r, _) <- on_bufs (strncmp 0 VAR2 DIRSIZ) (at02 s t) ;; ret r.

(** The inode found and the value stored in [*poff]. *)
Definition dirlookup (dp : nat) (name : list Z) : K (option (nat * Z)) :=
  i <- get_inode dp ;;
  if negb (i_type i =? T_DIR) then panic "dirlookup not DIR"
  else
    loop (fun off =>
      i <- get_inode dp ;;
      if off <? i_size i
      then
        '(r, de) <- readi dp (Var []) off SIZEOF_DIRENT ;;
        if negb (r =? SIZEOF_DIRENT) then panic "dirlookup read"
        else if de_inum de =? 0 then ret (inl (u32 (off + SIZEOF_DIRENT)))
        else
          c <- namecmp name (de_name de) ;;
          if c =? 0
          then ip <- iget (i_dev i) (de_inum de) ;; ret (inr (Some (ip, off)))
          else ret (inl (u32 (off + SIZEOF_DIRENT)))
      else ret (inr None)) 0.

(** [strncpy(de.name, name, DIRSIZ)], and the entry it goes in. *)
Definition mk_dirent (name : list Z) (inum : Z) : K (list Z) :=
  '(_, m) <- on_bufs (strncpy 0 VAR2 DIRSIZ) (at02 [] name) ;;
  ret (wr 2 [0; 0] 0 inum ++ rdbytes m 0 (Z.to_nat DIRSIZ)).

Definition dirlink (dp : nat) (name : list Z) (inum : Z) : K Z :=
  r <- dirlookup dp name ;;
  match r with
  | Some (ip, _) => iput ip ;;; ret (-1)
  | None =>
      off <- loop (fun off =>
        i <- get_inode dp ;;
        if u32 off <? i_size i
        then
          '(r, de) <- readi dp (Var []) (u32 off) SIZEOF_DIRENT ;;
          if negb (r =? SIZEOF_DIRENT) then panic "dirlink read"
          else if de_inum de =? 0 then ret (inr off)
          else ret (inl (i32 (off + SIZEOF_DIRENT)))
        else ret (inr off)) 0 ;;
      de <- mk_dirent name inum ;;
      r <- writei dp (Var de) (u32 off) SIZEOF_DIRENT ;;
      if negb (r =? SIZEOF_DIRENT) then panic "dirlink" else ret 0
  end.

(** ** Paths *)

Definition SLASH : Z := 47.

(** [while( *path == '/' ) path++;] *)
Fixpoint skip_slashes (path : list Z) : list Z :=
  match path with
  | c :: path' => if c =? SLASH then skip_slashes path' else path
  | [] => []
  end.

(** [while( *path != '/' && *path != 0 ) path++;]: what is passed and the rest. *)
Fixpoint take_elem (path : list Z) : list Z * list Z :=
  match path with
  | c :: path' =>
      if negb (c =? SLASH) && negb (c =? 0)
      then let '(e, r) := take_elem path' in (c :: e, r)
      else ([], path)
  | [] => ([], [])
  end.

(** The rest of the path, null when there is no element, and the new contents
    of [name]. *)
Definition skipelem (path name : list Z) : option (list Z) * list Z :=
  let path := skip_slashes path in
  if nth 0 path 0 =? 0 then (None, name)
  else
    let '(s, path) := take_elem path in
    let len := Z.of_nat (length s) in
    let name :=
      if len >=? DIRSIZ then splice name 0 (take (Z.to_nat DIRSIZ) s)
      else splice (splice name 0 s) (Z.to_nat len) [0] in
    (Some (skip_slashes path), name).

(** The inode and the new contents of [name]. *)
Definition namex (path : list Z) (nameiparent : bool) (name : list Z) : K (option nat * list Z) :=
  ip <- (if nth 0 path 0 =? SLASH then iget ROOTDEV ROOTINO
         else
           p <- curproc ;; pr <- get_proc p ;;
           match p_cwd pr with
           | Some cwd => idup cwd
           | None => undefined
           end) ;;
  loop (fun '(ip, path, name) =>
    match skipelem path name with
    | (Some path, name) =>
        ilock (Some ip) ;;;
        i <- get_inode ip ;;
        if negb (i_type i =? T_DIR) then iunlockput ip ;;; ret (inr (None, name))
        else if nameiparent && (nth 0 path 0 =? 0) then iunlock (Some ip) ;;; ret (inr (Some ip, name))
        else
          next <- dirlookup ip name ;;
          match next with
          | None => iunlockput ip ;;; ret (inr (None, name))
          | Some (next, _) => iunlockput ip ;;; ret (inl (next, path, name))
          end
    | (None, name) =>
        if nameiparent then iput ip ;;; ret (inr (None, name))
        else ret (inr (Some ip, name))
    end) (ip, path, name).

(** [name] is not initialised by the callers: its bytes are [junk]. *)
Definition namei (junk path : list Z) : K (option nat) :=
  '(ip, _) <- namex path false junk ;; ret ip.

Definition nameiparent (path name : list Z) : K (option nat * list Z) := namex path true name.
End Fs.
