(* ===== verification/Trans.v ===== *)
(** * A file-system call as its code sees it

    Inside [begin_op] .. [end_op] the layers above the log read and write
    blocks; [trans s L v ino] describes such a state: the buffers [L] are
    locked, a reader of block [k] sees [v k], the inode table is [ino], and
    the blocks recorded so far are among [B], the blocks the call may change.
    A block that is not recorded is as the disk has it, so that the commit at
    the end writes all of [v] ([trans_commit]). *)

From stdpp Require Import functions.
From S2P Require Import Prelude Machine State Kalloc Vm Printf Sched Sleeplock Block Bio Store Log LogFacts Uio Fs.

Section Trans.
Context `{DD : DiskDriver}.
Context (p : nat) (pr : proc) (s0 : kstate) (st size : Z) (sb : superblock) (B : list Z).

(** A block outside the log area, which [log_write] may record. *)
Definition home (blk : Z) : Prop := 0 <= blk < 2 ^ 31 /\ ~ (st <= blk < st + size).

Record trans (s : kstate) (L : list (nat * Z)) (v : Z -> list Z) (ino : list inode) : Prop := {
  tr_store : exists P d w lg bs, store p pr s0 s P L v d w (mkRest lg ino sb) /\ Permutation P bs /\
    txn lg st size bs /\ length (l_block lg) = Z.to_nat LOGSIZE /\ l_size lg = size /\
    l_outstanding lg = 1 /\ l_committing lg = 0 /\ (forall k, k ∉ bs -> v k = d k) /\ bs ⊆ B;
  tr_home : Forall home B;
  tr_room : (length B + 8 <= NBUF)%nat /\ Z.of_nat (length B) + 1 < size
}.

Lemma trans_alone s L v ino : trans s L v ino -> alone p pr s.
Proof. intros [(P & d & w & lg & bs & H & _) _ _]. apply H. Qed.

Lemma trans_fs s L v ino : trans s L v ino -> fs_inode (k_fs s) = ino /\ fs_sb (k_fs s) = sb.
Proof.
  intros [(P & d & w & lg & bs & H & _) _ _]. pose proof (st_rest _ _ _ _ _ _ _ _ _ _ H) as E. by injection E.
Qed.

Lemma trans_length s L v ino k : trans s L v ino -> length (v k) = Z.to_nat BSIZE.
Proof. intros [(P & d & w & lg & bs & H & _) _ _]. by apply (store_length _ _ _ _ _ _ _ _ _ _ k H). Qed.

Lemma trans_ext s L v v' ino : (forall k, v k = v' k) -> trans s L v ino -> trans s L v' ino.
Proof.
  intros E [(P & d & w & lg & bs & H & HP & Ht & H1 & H2 & H3 & H4 & Hc & HB) Hr Hs]. constructor; [|done..].
  exists P, d, w, lg, bs. split; [by apply (store_ext _ _ _ _ _ _ v)|]. do 6 (split; [done|]).
  split; [|done]. intros k Hk. rewrite <- E. by apply Hc.
Qed.

Lemma trans_get_sb s L v ino : trans s L v ino -> get_sb s = Ret sb s.
Proof. intros H. unfold get_sb, gets. by rewrite (proj2 (trans_fs _ _ _ _ H)). Qed.

Lemma trans_get_inode s L v ino ip i : trans s L v ino -> ino !! ip = Some i -> get_inode ip s = Ret i s.
Proof. intros H Hi. unfold get_inode. by rewrite (proj1 (trans_fs _ _ _ _ H)), Hi. Qed.

Lemma trans_data s L v ino b blk : trans s L v ino -> (b, blk) ∈ L -> buf_data b s = Ret (v blk) s.
Proof.
  intros [(P & d & w & lg & bs & H & _) _ _] Hin. destruct (store_get _ _ _ _ _ _ _ _ _ _ b blk H Hin) as (bf & E & <- & _).
  unfold buf_data. by krun.
Qed.

Lemma absorb_elem bs blk k : k ∈ absorb bs blk <-> k = blk \/ k ∈ bs.
Proof.
  unfold absorb. destruct (decide (blk ∈ bs)).
  - split; [by right|]. by intros [->|?].
  - rewrite elem_of_app, list_elem_of_singleton. tauto.
Qed.

(** The log has room for every block of [B]. *)
Lemma trans_bound s L v ino : trans s L v ino ->
  forall P d w lg bs, store p pr s0 s P L v d w (mkRest lg ino sb) -> txn lg st size bs -> bs ⊆ B ->
  (length bs + 8 <= NBUF)%nat /\ Z.of_nat (length bs) + 1 < size.
Proof.
  intros [_ _ [H1 H2]] P d w lg bs _ Ht Hb. pose proof (NoDup_incl_length (l := bs) (l' := B)) as Hl.
  assert (length bs <= length B)%nat; [|lia]. apply Hl; [apply NoDup_ListNoDup, Ht|].
  intros x Hx%list_elem_of_In. by apply list_elem_of_In, Hb.
Qed.

Lemma trans_block s L v ino blk : trans s L v ino -> blk ∈ B -> disk_block blk.
Proof. intros [_ Hr _] HB. rewrite Forall_forall in Hr. by destruct (Hr blk HB). Qed.

Lemma trans_bread s L v ino blk : trans s L v ino -> blk ∉ L.*2 -> (length L < 8)%nat -> disk_block blk ->
  exists b s', bread ROOTDEV blk s = Ret b s' /\ trans s' ((b, blk) :: L) v ino /\ b ∉ L.*1.
Proof.
  intros Htr Hblk HL Hdb. pose proof (trans_bound _ _ _ _ Htr) as Hbd. destruct Htr as [(P & d & w & lg & bs & H & HP & Ht & Hrest) Hr Hs].
  destruct (store_bread _ _ _ _ _ _ _ _ _ _ blk H Hblk) as (b & s' & E & H' & Hb).
  { right. rewrite (Permutation_length HP). destruct (Hbd P d w lg bs H Ht); [apply Hrest|lia]. }
  { done. }
  exists b, s'. split; [done|]. split; [|done]. constructor; [|done..]. by exists P, d, w, lg, bs.
Qed.

Lemma trans_brelse s L v ino b blk : trans s ((b, blk) :: L) v ino ->
  exists s', brelse b s = Ret tt s' /\ trans s' L v ino.
Proof.
  intros [(P & d & w & lg & bs & H & HP & Ht & H1 & H2 & H3 & H4 & Hc & HB) Hr Hs].
  destruct (store_brelse _ _ _ _ _ _ _ _ _ _ b blk H) as (s' & E & H').
  { destruct (decide (blk ∈ bs)); [left; by rewrite HP|right; by apply Hc]. }
  exists s'. split; [done|]. constructor; [|done..]. by exists P, d, w, lg, bs.
Qed.

(** A change to a locked buffer, recorded in the log. *)
Lemma trans_write s L v ino b blk f :
  trans s L v ino -> (b, blk) ∈ L -> length (f (v blk)) = Z.to_nat BSIZE -> blk ∈ B ->
  exists s', (upd_data b f ;;; log_write b) s = Ret tt s' /\ trans s' L (<[blk := f (v blk)]> v) ino.
Proof.
  intros Htr Hin Hlen HB. pose proof (trans_bound _ _ _ _ Htr) as Hbound.
  destruct Htr as [(P & d & w & lg & bs & H & HP & Ht & H1 & H2 & H3 & H4 & Hc & HbB) Hh Hs].
  assert (home blk) as [Hh1 Hh2] by (by apply (proj1 (Forall_forall _ _) Hh)).
  destruct (Hbound P d w lg bs H Ht HbB) as [Hb1 Hb2].
  destruct (store_upd _ _ _ _ _ _ _ _ _ _ b blk f H Hin Hlen) as (s1 & E1 & Hs1).
  destruct (log_write_run _ _ _ _ _ _ _ _ _ _ st size bs b blk Hs1 Hin Ht HP H1 H2)
    as (s2 & lg' & E2 & Hs2 & Ht2 & Ho & Hc2 & Hsz & Hl); cbn [r_log]; [lia|lia| |done|done|].
  { unfold LOGSIZE, MAXOPBLOCKS, NBUF in *. lia. }
  exists s2. split; [unfold upd_data; by krun|]. constructor; [|done..].
  eexists _, d, w, lg', (absorb bs blk). split; [exact Hs2|]. split.
  { unfold absorb. destruct (decide (blk ∈ bs)); [done|]. rewrite HP. apply Permutation_cons_append. }
  cbn [r_log] in *. do 3 (split; [done|]). split; [congruence|]. split; [congruence|]. split.
  - intros k Hk. rewrite absorb_elem in Hk. rewrite fn_lookup_insert_ne by (intros ->; apply Hk; by left). apply Hc. intros Hk2. apply Hk. by right.
  - intros k. rewrite absorb_elem. intros [->|Hk]; [done|by apply HbB].
Qed.

(** A change of the inode table. *)
Lemma trans_inodes s L v ino g :
  trans s L v ino ->
  trans (set_k_fs (set_fs_inode (g ino) (k_fs s)) s) L v (g ino).
Proof.
  intros Htr. pose proof (trans_fs _ _ _ _ Htr) as [Hi Hsb].
  destruct Htr as [(P & d & w & lg & bs & H & Hrest) Hr Hs].
  destruct (store_rest _ _ _ _ _ _ _ _ _ _ (fun fs => set_fs_inode (g ino) fs) H ltac:(done)) as (s1 & E1 & Hs1).
  injection E1 as <-. constructor; [|done..]. exists P, d, w, lg, bs. split; [|exact Hrest].
  pose proof (st_rest _ _ _ _ _ _ _ _ _ _ H) as E. unfold rest_of in E. injection E as E1 E2 E3.
  unfold rest_of in Hs1. cbn [fs_log set_fs_inode fs_inode fs_sb] in Hs1. by rewrite E1, E3 in Hs1.
Qed.

Lemma trans_upd_inode s L v ino ip f :
  trans s L v ino ->
  exists s', upd_inode ip f s = Ret tt s' /\ trans s' L v (alter f ip ino).
Proof.
  intros Htr. pose proof (trans_fs _ _ _ _ Htr) as [Hi _]. eexists. unfold upd_inode, upd_fs.
  split; [reflexivity|]. rewrite Hi. by apply (trans_inodes _ _ _ _ (alter f ip)).
Qed.

Lemma commit_writes_lookup bs v d k : NoDup bs -> Z.of_nat (length bs) < size -> ~ (st <= k < st + size) ->
  upds d (commit_writes st bs v) k = if decide (k ∈ bs) then v k else d k.
Proof.
  intros Hnd Hl Hk. unfold commit_writes. rewrite !upds_app. cbn [upds fold_left fst snd].
  rewrite fn_lookup_insert_ne by lia. rewrite new_writes_lookup by done. destruct (decide (k ∈ bs)); [done|].
  rewrite fn_lookup_insert_ne by lia. apply upds_notin. rewrite log_writes_fst.
  intros (i & -> & Hi)%list_elem_of_fmap. apply list_elem_of_In, in_seq in Hi. lia.
Qed.

(** The end of the call writes what its code has seen to the disk. *)
Lemma trans_commit s v ino :
  trans s [] v ino ->
  exists s', end_op s = Ret tt s' /\ (forall k, ~ (st <= k < st + size) -> fs_disk (k_fs s') k = v k) /\
    fs_inode (k_fs s') = ino /\ alone p pr s'.
Proof.
  intros [(P & d & w & lg & bs & H & HP & Ht & H1 & H2 & H3 & H4 & Hc & HB) Hr Hs].
  destruct (end_op_run _ _ _ s P v d w _ st size bs H Ht HP H3 H4) as (s' & v' & E & Hst & Hv).
  exists s'. split; [done|]. split; [|split].
  - intros k Hk. pose proof (st_disk _ _ _ _ _ _ _ _ _ _ Hst) as ->.
    destruct bs as [|b0 bs0]; [symmetry; apply Hc, not_elem_of_nil|].
    rewrite (commit_writes_lookup (b0 :: bs0)) by first [done|apply Ht]. destruct (decide (k ∈ b0 :: bs0)); [done|].
    symmetry. by apply Hc.
  - pose proof (st_rest _ _ _ _ _ _ _ _ _ _ Hst) as Er. by injection Er.
  - apply Hst.
Qed.
End Trans.
