(* ===== verification/FsFacts.v ===== *)
(** * Blocks and inodes

    What the block allocator, the inode operations and the directory code of
    [Fs.v] do inside a file-system call, on the view of [Trans.v]. *)

From stdpp Require Import functions.
From S2P Require Import Prelude Machine State CString Kalloc Vm Printf Sched Sleeplock Block Bio Store Log LogFacts Uio Fs Trans.

(** ** The bitmap *)

Definition bit (d : list Z) (bi : Z) : bool := Z.testbit (nth (Z.to_nat (bi / 8)) d 0) (bi mod 8).

Lemma land_pow2 x k : 0 <= k -> (Z.land x (Z.shiftl 1 k) =? 0) = negb (Z.testbit x k).
Proof.
  intros Hk. rewrite Z.shiftl_1_l. destruct (Z.eqb_spec (Z.land x (2 ^ k)) 0) as [E|E].
  - apply (f_equal (fun z => Z.testbit z k)) in E. rewrite Z.land_spec, Z.pow2_bits_true, Z.bits_0 in E by done.
    by rewrite andb_true_r in E; rewrite E.
  - destruct (Z.testbit x k) eqn:T; [done|]. destruct E. apply Z.bits_inj'. intros n Hn.
    rewrite Z.land_spec, Z.bits_0. destruct (Z.eq_dec n k) as [->|Hne]; [by rewrite T|].
    rewrite Z.pow2_bits_false by done. apply andb_false_r.
Qed.

Lemma bit_at_zero d bi : (bit_at d bi =? 0) = negb (bit d bi).
Proof. unfold bit_at, bit. apply land_pow2, Z.mod_pos_bound. lia. Qed.

Lemma byte_index bi bj : 0 <= bi -> 0 <= bj -> bi <> bj ->
  Z.to_nat (bi / 8) <> Z.to_nat (bj / 8) \/ (Z.to_nat (bi / 8) = Z.to_nat (bj / 8) /\ bi mod 8 <> bj mod 8).
Proof.
  intros Hi Hj Hne. pose proof (Z.div_mod bi 8) as E1. pose proof (Z.div_mod bj 8) as E2.
  pose proof (Z.div_pos bi 8). pose proof (Z.div_pos bj 8).
  destruct (decide (Z.to_nat (bi / 8) = Z.to_nat (bj / 8))); [|by left]. right. lia.
Qed.

Lemma byte_bound (d : list Z) bi : 0 <= bi < 8 * Z.of_nat (length d) -> (Z.to_nat (bi / 8) < length d)%nat.
Proof.
  intros H. pose proof (Z.div_pos bi 8). assert (bi / 8 < Z.of_nat (length d)); [|lia].
  apply Z.div_lt_upper_bound; lia.
Qed.

Lemma bit_set_eq d bi : 0 <= bi < 8 * Z.of_nat (length d) -> bit (set_bit bi d) bi = true.
Proof.
  intros H. unfold bit, set_bit. rewrite nth_insert_eq by by apply byte_bound.
  rewrite Z.lor_spec, Z.shiftl_1_l, Z.pow2_bits_true by (apply Z.mod_pos_bound; lia). apply orb_true_r.
Qed.

Lemma bit_set_ne d bi bj : 0 <= bi < 8 * Z.of_nat (length d) -> 0 <= bj -> bi <> bj -> bit (set_bit bi d) bj = bit d bj.
Proof.
  intros H Hj Hne. unfold bit, set_bit. destruct (byte_index bi bj ltac:(lia) Hj Hne) as [E|[<- E]].
  - by rewrite nth_insert_ne.
  - rewrite nth_insert_eq by by apply byte_bound. rewrite Z.lor_spec, Z.shiftl_1_l, Z.pow2_bits_false by done.
    apply orb_false_r.
Qed.

Lemma bit_clear_eq d bi : 0 <= bi < 8 * Z.of_nat (length d) -> bit (clear_bit bi d) bi = false.
Proof.
  intros H. unfold bit, clear_bit. rewrite nth_insert_eq by by apply byte_bound.
  rewrite Z.land_spec, Z.lnot_spec, Z.shiftl_1_l, Z.pow2_bits_true by (apply Z.mod_pos_bound; lia). apply andb_false_r.
Qed.

Lemma bit_clear_ne d bi bj : 0 <= bi < 8 * Z.of_nat (length d) -> 0 <= bj -> bi <> bj -> bit (clear_bit bi d) bj = bit d bj.
Proof.
  intros H Hj Hne. unfold bit, clear_bit. destruct (byte_index bi bj ltac:(lia) Hj Hne) as [E|[<- E]].
  - by rewrite nth_insert_ne.
  - rewrite nth_insert_eq by by apply byte_bound.
    rewrite Z.land_spec, Z.lnot_spec, Z.shiftl_1_l, Z.pow2_bits_false by (first [done|apply Z.mod_pos_bound; lia]).
    apply andb_true_r.
Qed.

Lemma length_set_bit bi d : length (set_bit bi d) = length d.
Proof. apply length_insert. Qed.
Lemma length_clear_bit bi d : length (clear_bit bi d) = length d.
Proof. apply length_insert. Qed.

(** Clearing a bit that was set restores the block. *)
Lemma clear_set_bit bi d : 0 <= bi < 8 * Z.of_nat (length d) -> bit d bi = false -> clear_bit bi (set_bit bi d) = d.
Proof.
  intros H Hb. unfold clear_bit, set_bit. rewrite list_insert_insert_eq, nth_insert_eq by by apply byte_bound.
  destruct (lookup_lt_is_Some_2 d (Z.to_nat (bi / 8))) as [x Hx]; [by apply byte_bound|].
  unfold bit in Hb. rewrite (nth_lookup_Some _ _ _ _ Hx) in Hb |- *. rewrite <- (list_insert_id d _ x Hx) at 2. f_equal.
  apply Z.bits_inj'. intros n Hn. pose proof (Z.mod_pos_bound bi 8 ltac:(lia)).
  rewrite Z.land_spec, Z.lor_spec, Z.lnot_spec, Z.shiftl_1_l by done.
  destruct (Z.eq_dec n (bi mod 8)) as [->|Hne]; [rewrite Hb, Z.pow2_bits_true by lia; done|].
  rewrite Z.pow2_bits_false by done. by rewrite orb_false_r, andb_true_r.
Qed.

(** ** The layout of a file system *)

Section FsFacts.
Context `{LAY : Layout} `{DD : DiskDriver}.
Context (p : nat) (pr : proc) (s0 : kstate) (st size : Z) (sb : superblock) (B : list Z).

Abbreviation trans := (trans p pr s0 st size sb B).

(** Boot block, superblock, log, inodes, bitmap, then data from block [ds]
    (mkfs/mkfs.c). *)
Record fs_layout (ds : Z) : Prop := {
  ly_log : 1 < st /\ 0 < size /\ st + size <= sb_inodestart sb;
  ly_inodes : 0 <= sb_ninodes sb < 2 ^ 31 /\ sb_inodestart sb + sb_ninodes sb / IPB < sb_bmapstart sb;
  ly_bmap : sb_bmapstart sb + sb_size sb / BPB < ds;
  ly_size : 0 < ds <= sb_size sb /\ sb_size sb < 2 ^ 30
}.

(** Block [b] is marked in use. *)
Definition used (v : Z -> list Z) (b : Z) : bool := bit (v (BBLOCK b sb)) (b mod BPB).

(** The bitmap blocks are not locked. *)
Definition bmap_unlocked (L : list (nat * Z)) : Prop :=
  forall b, 0 <= b < sb_size sb -> BBLOCK b sb ∉ L.*2.

Lemma BBLOCK_eq ds b : fs_layout ds -> 0 <= b < sb_size sb -> BBLOCK b sb = b / BPB + sb_bmapstart sb.
Proof.
  intros [H1 H2 H3 H4] Hb. unfold BBLOCK. rewrite Z.quot_div_nonneg by (unfold BPB, BSIZE; lia).
  pose proof (Z.div_pos b BPB ltac:(lia) eq_refl).
  pose proof (Z.div_le_mono b (sb_size sb) BPB eq_refl ltac:(lia)).
  pose proof (Z.div_pos (sb_ninodes sb) IPB ltac:(lia) eq_refl).
  apply u32_small. lia.
Qed.

Lemma BBLOCK_block ds b : fs_layout ds -> 0 <= b < sb_size sb -> disk_block (BBLOCK b sb).
Proof.
  intros Hl Hb. rewrite (BBLOCK_eq ds) by done. destruct Hl as [H1 H2 H3 H4].
  pose proof (Z.div_pos b BPB ltac:(lia) eq_refl). pose proof (Z.div_pos (sb_ninodes sb) IPB ltac:(lia) eq_refl).
  pose proof (Z.div_le_mono b (sb_size sb) BPB eq_refl ltac:(lia)). blk_ok.
Qed.

Lemma BBLOCK_below ds b : fs_layout ds -> 0 <= b < sb_size sb -> BBLOCK b sb < ds.
Proof.
  intros Hl Hb. rewrite (BBLOCK_eq ds) by done. destruct Hl as [H1 H2 H3 H4].
  pose proof (Z.div_le_mono b (sb_size sb) BPB eq_refl ltac:(lia)). lia.
Qed.

Lemma bit_range v b s L ino blk : trans s L v ino -> 0 <= b mod BPB < 8 * Z.of_nat (length (v blk)).
Proof.
  intros H. rewrite (trans_length _ _ _ _ _ _ _ _ _ _ _ blk H).
  pose proof (Z.mod_pos_bound b BPB eq_refl). unfold BPB, BSIZE in *. lia.
Qed.

(** A change to a block that nobody has locked, recorded in the log. *)
Lemma trans_modify s L v ino blk f :
  trans s L v ino -> blk ∉ L.*2 -> (length L < 8)%nat -> length (f (v blk)) = Z.to_nat BSIZE -> blk ∈ B ->
  exists b s1 s2 s3, bread ROOTDEV blk s = Ret b s1 /\ buf_data b s1 = Ret (v blk) s1 /\ trans s1 ((b, blk) :: L) v ino /\
    (upd_data b f ;;; log_write b) s1 = Ret tt s2 /\ brelse b s2 = Ret tt s3 /\ trans s3 L (<[blk := f (v blk)]> v) ino.
Proof.
  intros H Hblk HL Hlen HB. destruct (trans_bread _ _ _ _ _ _ _ _ _ _ _ blk H Hblk HL (trans_block _ _ _ _ _ _ _ _ _ _ _ blk H HB)) as (b & s1 & E1 & H1 & _).
  assert (Hin : (b, blk) ∈ (b, blk) :: L) by (by apply elem_of_cons; left).
  destruct (trans_write _ _ _ _ _ _ _ _ _ _ _ b blk f H1 Hin Hlen HB) as (s2 & E2 & H2).
  destruct (trans_brelse _ _ _ _ _ _ _ _ _ _ _ b blk H2) as (s3 & E3 & H3).
  exists b, s1, s2, s3. split; [done|]. split; [by apply (trans_data _ _ _ _ _ _ _ _ _ _ _ b blk H1)|]. done.
Qed.

Lemma write_steps {A} b f (k : K A) s s1 :
  (upd_data b f ;;; log_write b) s = Ret tt s1 -> (upd_data b f ;;; log_write b ;;; k) s = k s1.
Proof.
  unfold bind at 1. unfold bind at 1. destruct (upd_data b f s) eqn:E; cbn [bindO]; intros H; try discriminate.
  unfold bind. rewrite H. done.
Qed.

Lemma nth_zeros n o : nth o (replicate n 0) 0 = 0.
Proof.
  rewrite nth_lookup. destruct (replicate n 0 !! o) as [x|] eqn:E; [|done]. by apply lookup_replicate in E as [-> _].
Qed.

Lemma rd_zeros n m o : rd n (replicate m 0) o = 0.
Proof. revert o. induction n as [|n IH]; intros o; [done|]. cbn [rd]. rewrite IH, nth_zeros. done. Qed.

Definition zeros : list Z := replicate (Z.to_nat BSIZE) 0.

Lemma bzero_run s L v ino b :
  trans s L v ino -> b ∉ L.*2 -> (length L < 8)%nat -> b ∈ B -> 0 <= b < 2 ^ 31 ->
  exists s', bzero ROOTDEV b s = Ret tt s' /\ trans s' L (<[b := zeros]> v) ino.
Proof.
  intros H Hb HL HB Hr. destruct (trans_modify s L v ino b (fun _ => zeros) H Hb HL eq_refl HB)
    as (bp & s1 & s2 & s3 & E1 & _ & _ & E2 & E3 & H3).
  exists s3. split; [|done]. unfold bzero. rewrite u32_small by lia. krun. by rewrite (write_steps bp _ _ _ _ E2).
Qed.

(** The bits [0, k) of the bitmap block of [b] that concern blocks are set. *)
Definition all_used (v : Z -> list Z) (b k : Z) : Prop :=
  forall i, 0 <= i < k -> b + i < sb_size sb -> used v (b + i) = true.

Lemma bblock_split b i : b mod BPB = 0 -> 0 <= b -> 0 <= i < BPB ->
  BBLOCK (b + i) sb = BBLOCK b sb /\ (b + i) mod BPB = i.
Proof.
  intros Hb Hb0 Hi. unfold BBLOCK. apply Z.div_exact in Hb; [|done].
  assert (E : (b + i) / BPB = b / BPB).
  { rewrite Hb at 1. rewrite Z.mul_comm, Z.div_add_l, (Z.div_small i) by (unfold BPB, BSIZE in *; lia). lia. }
  rewrite !Z.quot_div_nonneg by (unfold BPB, BSIZE in *; lia). rewrite E. split; [done|].
  rewrite Hb, Z.mul_comm, Z.add_comm, Z.mod_add, Z.mod_small by (unfold BPB, BSIZE in *; lia). done.
Qed.

Lemma used_block v b i : b mod BPB = 0 -> 0 <= b -> 0 <= i < BPB ->
  used v (b + i) = bit (v (BBLOCK b sb)) i.
Proof.
  intros Hb Hb0 Hi. unfold used. by destruct (bblock_split b i Hb Hb0 Hi) as [-> ->].
Qed.

Lemma balloc_bits_none s L v ino b bp :
  trans s L v ino -> (bp, BBLOCK b sb) ∈ L -> b mod BPB = 0 -> 0 <= b < sb_size sb -> sb_size sb < 2 ^ 31 ->
  all_used v b BPB -> balloc_bits ROOTDEV b bp s = Ret None s.
Proof.
  intros H Hin Hm Hb Hs Hu. unfold balloc_bits.
  set (n := Z.min BPB (sb_size sb - b)).
  apply (loop_for _ (fun _ s1 => s1 = s) n (fun o => o = Ret None s)); [| |unfold n, BPB, BSIZE; lia|unfold n, BPB, BSIZE; lia|done].
  - intros i s1 Hi ->. exists s. split; [|done]. rewrite (bind_Ret _ _ _ _ _ (trans_get_sb _ _ _ _ _ _ _ _ _ _ _ H)).
    destruct (Z.ltb_spec i BPB); [|lia]. rewrite u32_small by lia. destruct (Z.ltb_spec (b + i) (sb_size sb)); [|lia].
    cbn [andb]. rewrite (bind_Ret _ _ _ _ _ (trans_data _ _ _ _ _ _ _ _ _ _ _ bp _ H Hin)), bit_at_zero.
    rewrite <- used_block by first [done|lia]. by rewrite Hu by lia.
  - intros s1 ->. exists None, s. split; [|done]. rewrite (bind_Ret _ _ _ _ _ (trans_get_sb _ _ _ _ _ _ _ _ _ _ _ H)).
    destruct (Z.ltb_spec n BPB); [|done]. unfold BPB, BSIZE in *. rewrite u32_small by lia.
    destruct (Z.ltb_spec (b + n) (sb_size sb)); [lia|done].
Qed.

(** What [balloc] does to the blocks: mark [b] in use and clear it. *)
Definition allocated (v : Z -> list Z) (b : Z) : Z -> list Z :=
  <[b := zeros]> (<[BBLOCK b sb := set_bit (b mod BPB) (v (BBLOCK b sb))]> v).

Lemma balloc_bits_some s L v ino b i bp :
  trans s ((bp, BBLOCK b sb) :: L) v ino -> b mod BPB = 0 -> 0 <= b -> 0 <= i < BPB -> b + i < sb_size sb < 2 ^ 31 ->
  all_used v b i -> used v (b + i) = false -> (length L < 8)%nat -> b + i ∉ L.*2 -> BBLOCK b sb ∈ B -> b + i ∈ B ->
  exists s', balloc_bits ROOTDEV b bp s = Ret (Some (b + i)) s' /\ trans s' L (allocated v (b + i)) ino.
Proof.
  intros H Hm Hb Hi Hs Hu Hf HL HbL HB1 HB2. assert (Hin : (bp, BBLOCK b sb) ∈ (bp, BBLOCK b sb) :: L) by (by apply elem_of_cons; left).
  pose proof (trans_get_sb _ _ _ _ _ _ _ _ _ _ _ H) as Esb. pose proof (trans_data _ _ _ _ _ _ _ _ _ _ _ bp _ H Hin) as Ed.
  unfold balloc_bits. apply (loop_for _ (fun _ s1 => s1 = s) i
    (fun o => exists s', o = Ret (Some (b + i)) s' /\ trans s' L (allocated v (b + i)) ino)); [| |lia|unfold BPB, BSIZE in *; lia|done].
  - intros j s1 Hj ->. exists s. split; [|done]. krun. destruct (Z.ltb_spec j BPB); [|lia].
    rewrite u32_small by lia. destruct (Z.ltb_spec (b + j) (sb_size sb)); [|lia].
    cbn [andb]. krun. rewrite bit_at_zero, <- used_block by first [done|lia]. by rewrite Hu by lia.
  - intros s1 ->. pose proof (bit_range v (b + i) s _ ino (BBLOCK b sb) H) as Hrng.
    destruct (trans_write _ _ _ _ _ _ _ _ _ _ _ bp _ (set_bit i) H Hin) as (s2 & E2 & H2);
      [rewrite length_set_bit; by apply (trans_length _ _ _ _ _ _ _ _ _ _ _ _ H)|done|].
    destruct (trans_brelse _ _ _ _ _ _ _ _ _ _ _ bp _ H2) as (s3 & E3 & H3).
    destruct (bzero_run s3 L _ ino (b + i) H3 HbL HL HB2 ltac:(lia)) as (s4 & E4 & H4).
    exists (Some (b + i)), s4. split.
    + krun. destruct (Z.ltb_spec i BPB); [|lia]. rewrite u32_small by lia. destruct (Z.ltb_spec (b + i) (sb_size sb)); [|lia].
      cbn [andb]. krun. rewrite bit_at_zero, <- used_block, Hf by first [done|lia]. cbn [negb].
      rewrite (write_steps bp _ _ _ _ E2). rewrite i32_small by lia. krun. done.
    + exists s4. split; [done|]. unfold allocated.
      by destruct (bblock_split b i Hm Hb Hi) as [-> ->].
Qed.
Lemma next_bitmap b : b mod BPB = 0 -> (b + BPB) mod BPB = 0.
Proof. intros H. rewrite <- Z.add_mod_idemp_r, Z.mod_same by done. by rewrite Z.add_0_r. Qed.

Lemma balloc_run s L v ino ds b0 :
  trans s L v ino -> fs_layout ds -> 0 <= b0 < sb_size sb -> (forall b, 0 <= b < b0 -> used v b = true) ->
  used v b0 = false -> (length L < 7)%nat -> bmap_unlocked L -> b0 ∉ L.*2 -> BBLOCK b0 sb ∈ B -> b0 ∈ B ->
  exists s', balloc ROOTDEV s = Ret b0 s' /\ trans s' L (allocated v b0) ino.
Proof.
  intros H Hly Hb0 Hu Hf HL Hun HbL HB1 HB2. pose proof (ly_size _ Hly) as Hsz. unfold balloc.
  apply (loop_measure _ (fun b s1 => b mod BPB = 0 /\ 0 <= b <= b0 /\ trans s1 L v ino) (fun b _ => Z.to_nat (b0 - b))
    (fun o => exists s', o = Ret b0 s' /\ trans s' L (allocated v b0) ino)); [|split; [done|split; [lia|done]]|lia].
  intros b s1 (Hm & Hb & H1). rewrite (bind_Ret _ _ _ _ _ (trans_get_sb _ _ _ _ _ _ _ _ _ _ _ H1)).
  rewrite u32_small by lia. destruct (Z.ltb_spec b (sb_size sb)); [|lia].
  destruct (trans_bread _ _ _ _ _ _ _ _ _ _ _ (BBLOCK b sb) H1) as (bp & s2 & E2 & H2 & _); [apply Hun; lia|lia|by apply (BBLOCK_block ds); [|lia]|].
  rewrite (bind_Ret _ _ _ _ _ E2). destruct (decide (b0 < b + BPB)) as [Hlast|Hmore].
  - right. left. destruct (balloc_bits_some s2 L v ino b (b0 - b) bp H2 Hm) as (s3 & E3 & H3);
      replace (b + (b0 - b)) with b0 in * by lia; try first [done|lia].
    { intros i Hi Hi2. apply Hu. lia. }
    { rewrite <- (proj1 (bblock_split b (b0 - b) Hm ltac:(lia) ltac:(lia))). by replace (b + (b0 - b)) with b0 by lia. }
    exists b0, s3. split; [by krun|]. by exists s3.
  - left. assert (Hin : (bp, BBLOCK b sb) ∈ (bp, BBLOCK b sb) :: L) by (by apply elem_of_cons; left).
    pose proof (balloc_bits_none s2 _ v ino b bp H2 Hin Hm ltac:(lia) ltac:(lia)) as E3.
    destruct (trans_brelse _ _ _ _ _ _ _ _ _ _ _ bp _ H2) as (s4 & E4 & H4).
    exists (b + BPB), s4. split; [|split; [|unfold BPB, BSIZE in *; lia]].
    + rewrite (bind_Ret _ _ _ _ _ (E3 ltac:(intros i Hi Hi2; apply Hu; lia))). krun.
      by rewrite i32_small by (unfold BPB, BSIZE in *; lia).
    + split; [by apply next_bitmap|]. split; [unfold BPB, BSIZE in *; lia|done].
Qed.

(** Exactly [b0] is in use that was not. *)
Lemma used_allocated v ds b0 b :
  fs_layout ds -> (forall k, length (v k) = Z.to_nat BSIZE) -> ds <= b0 < sb_size sb -> 0 <= b < sb_size sb ->
  used (allocated v b0) b = bool_decide (b = b0) || used v b.
Proof.
  intros Hly Hlen Hb0 Hb. pose proof (ly_size _ Hly) as Hsz. unfold used, allocated.
  pose proof (BBLOCK_below ds b Hly Hb) as Hlt. rewrite fn_lookup_insert_ne by lia.
  assert (Hr : forall x blk, 0 <= x mod BPB < 8 * Z.of_nat (length (v blk))).
  { intros x blk. rewrite Hlen. pose proof (Z.mod_pos_bound x BPB eq_refl). unfold BPB, BSIZE in *. lia. }
  destruct (decide (BBLOCK b0 sb = BBLOCK b sb)) as [Eb|Eb].
  - rewrite Eb, fn_lookup_insert. destruct (bool_decide_reflect (b = b0)) as [->|Hne].
    + by rewrite bit_set_eq by done.
    + rewrite bit_set_ne; [done|done|apply Hr with (blk := 0)|].
      rewrite !(BBLOCK_eq ds) in Eb by first [done|lia]. intros Em. apply Hne.
      rewrite (Z.div_mod b BPB), (Z.div_mod b0 BPB) by done. rewrite Em. f_equal. f_equal. lia.
  - rewrite fn_lookup_insert_ne by done. rewrite bool_decide_false; [done|]. intros ->. done.
Qed.

(** [balloc] returns the least block that the bitmap marks free, marks it
    in use, clears its contents, and changes no other block a reader can
    see. *)
Theorem balloc_correct s L v ino ds b0 :
  trans s L v ino -> fs_layout ds -> ds <= b0 < sb_size sb -> (forall b, 0 <= b < b0 -> used v b = true) ->
  used v b0 = false -> (length L < 7)%nat -> bmap_unlocked L -> b0 ∉ L.*2 -> BBLOCK b0 sb ∈ B -> b0 ∈ B ->
  exists s' v', balloc ROOTDEV s = Ret b0 s' /\ trans s' L v' ino /\
    v' b0 = zeros /\ (forall b, 0 <= b < sb_size sb -> used v' b = bool_decide (b = b0) || used v b) /\
    (forall k, k <> b0 -> k <> BBLOCK b0 sb -> v' k = v k).
Proof.
  intros H Hly Hb0 Hu Hf HL Hun HbL HB1 HB2.
  pose proof (ly_size _ Hly) as Hsz.
  destruct (balloc_run s L v ino ds b0 H Hly ltac:(lia) Hu Hf HL Hun HbL HB1 HB2) as (s' & E & H').
  exists s', (allocated v b0). split; [done|]. split; [done|].
  split; [unfold allocated; by rewrite fn_lookup_insert|]. split.
  - intros b Hb. apply (used_allocated v ds); try done. intros k. by apply (trans_length _ _ _ _ _ _ _ _ _ _ _ k H).
  - intros k Hk1 Hk2. unfold allocated. by rewrite !fn_lookup_insert_ne by done.
Qed.

(** when the bitmap marks every block in use, [balloc] panics. *)
Theorem balloc_full s L v ino ds :
  trans s L v ino -> fs_layout ds -> (forall b, 0 <= b < sb_size sb -> used v b = true) ->
  (length L < 7)%nat -> bmap_unlocked L ->
  exists s', balloc ROOTDEV s = Panic "balloc: out of blocks" s'.
Proof.
  intros H Hly Hu HL Hun. pose proof (ly_size _ Hly) as Hsz. unfold balloc.
  apply (loop_measure _ (fun b s1 => b mod BPB = 0 /\ 0 <= b <= sb_size sb + BPB /\ trans s1 L v ino) (fun b _ => Z.to_nat (sb_size sb + BPB - b))
    (fun o => exists s', o = Panic "balloc: out of blocks" s')); [|split; [done|split; [unfold BPB, BSIZE; lia|done]]|unfold BPB, BSIZE; lia].
  intros b s1 (Hm & Hb & H1). rewrite (bind_Ret _ _ _ _ _ (trans_get_sb _ _ _ _ _ _ _ _ _ _ _ H1)).
  assert (E8 : BPB = 8192) by done. rewrite E8 in Hb.
  rewrite u32_small by lia. destruct (Z.ltb_spec b (sb_size sb)); [left|right; right; by eexists _, s1; eauto].
  destruct (trans_bread _ _ _ _ _ _ _ _ _ _ _ (BBLOCK b sb) H1) as (bp & s2 & E2 & H2 & _); [apply Hun; lia|lia|by apply (BBLOCK_block ds); [|lia]|].
  rewrite (bind_Ret _ _ _ _ _ E2).
  assert (Hin : (bp, BBLOCK b sb) ∈ (bp, BBLOCK b sb) :: L) by (by apply elem_of_cons; left).
  pose proof (balloc_bits_none s2 _ v ino b bp H2 Hin Hm ltac:(lia) ltac:(lia)) as E3.
  destruct (trans_brelse _ _ _ _ _ _ _ _ _ _ _ bp _ H2) as (s4 & E4 & H4).
  exists (b + BPB), s4. split; [|split; [|lia]].
  - rewrite (bind_Ret _ _ _ _ _ (E3 ltac:(intros i Hi Hi2; apply Hu; lia))). krun. by rewrite i32_small by lia.
  - split; [by apply next_bitmap|]. split; [lia|done].
Qed.

(** [bfree] of a block in use marks that block free and changes nothing
    else a reader can see; [bfree] of a free block panics. *)
Theorem bfree_correct s L v ino ds b :
  trans s L v ino -> fs_layout ds -> 0 <= b < sb_size sb -> (length L < 8)%nat -> bmap_unlocked L -> BBLOCK b sb ∈ B ->
  if used v b
  then exists s' v', bfree ROOTDEV b s = Ret tt s' /\ trans s' L v' ino /\
         (forall c, 0 <= c < sb_size sb -> used v' c = negb (bool_decide (c = b)) && used v c) /\
         (forall k, k <> BBLOCK b sb -> v' k = v k)
  else exists s', bfree ROOTDEV b s = Panic "freeing free block" s'.
Proof.
  intros H Hly Hb HL Hun HB. pose proof (bit_range v b s L ino (BBLOCK b sb) H) as Hr.
  destruct (trans_modify s L v ino (BBLOCK b sb) (clear_bit (b mod BPB)) H (Hun b Hb) HL) as (bp & s1 & s2 & s3 & E1 & Ed & H1 & E2 & E3 & H3);
    [rewrite length_clear_bit; by apply (trans_length _ _ _ _ _ _ _ _ _ _ _ _ H)|done|].
  unfold bfree. rewrite !(bind_Ret _ _ _ _ _ (trans_get_sb _ _ _ _ _ _ _ _ _ _ _ H)). krun.
  rewrite bit_at_zero. fold (used v b). destruct (used v b) eqn:Hu; cbn [negb]; [|by eexists].
  exists s3. eexists. split; [by rewrite (write_steps bp _ _ _ _ E2)|]. split; [exact H3|]. split.
  - intros c Hc. unfold used. destruct (decide (BBLOCK b sb = BBLOCK c sb)) as [Eb|Eb].
    + rewrite Eb, fn_lookup_insert. rewrite Eb in Hr. destruct (bool_decide_reflect (c = b)) as [->|Hne].
      * by rewrite bit_clear_eq.
      * rewrite bit_clear_ne; [done|done|apply Z.mod_pos_bound; done|]. intros Em. apply Hne.
        rewrite !(BBLOCK_eq ds) in Eb by done.
        rewrite (Z.div_mod c BPB), (Z.div_mod b BPB) by done. rewrite Em. f_equal. f_equal. lia.
    + rewrite fn_lookup_insert_ne by done. rewrite bool_decide_false; [done|]. by intros ->.
  - intros k Hk. by rewrite fn_lookup_insert_ne.
Qed.
End FsFacts.

(** ** The inode table *)

Definition holds (dev inum : Z) (i : inode) : bool := (i_ref i >? 0) && (i_dev i =? dev) && (i_inum i =? inum).

(** An entry in use is the only one for its inode. *)
Definition itable_ok (ino : list inode) : Prop :=
  length ino = NINODE /\ Forall (fun i => 0 <= i_ref i) ino /\
  forall a b i j, ino !! a = Some i -> ino !! b = Some j -> i_ref i > 0 -> i_ref j > 0 ->
    i_dev i = i_dev j -> i_inum i = i_inum j -> a = b.

Lemma iget_scan_run dev inum s ino : fs_inode (k_fs s) = ino -> length ino = NINODE ->
  iget_scan dev inum s =
    Ret (first (holds dev inum) ino,
         first (fun i => i_ref i =? 0) (match first (holds dev inum) ino with Some k => take k ino | None => ino end)) s.
Proof.
  intros Hino Hlen. unfold iget_scan.
  apply (loop_measure _ (fun '(k, e) s1 => s1 = s /\ (k <= NINODE)%nat /\ first (holds dev inum) (take k ino) = None /\
      e = first (fun i => i_ref i =? 0) (take k ino)) (fun '(k, _) _ => NINODE - k)%nat (fun o => o = _));
    [|split; [done|]; split; [lia|]; done|unfold NINODE; lia].
  intros [k e] s1 (-> & Hk & Hn & ->). destruct (Nat.ltb_spec k NINODE) as [Hlt|Hge].
  - destruct (lookup_lt_is_Some_2 ino k ltac:(lia)) as [i Hi].
    assert (Eg : get_inode k s = Ret i s) by (unfold get_inode; by rewrite Hino, Hi). krun.
    fold (holds dev inum i). pose proof (first_take_S (holds dev inum) ino k i Hi) as HS. rewrite Hn in HS.
    destruct (holds dev inum i) eqn:Hh.
    + right. left. rewrite (first_take_here _ ino k i Hi Hn Hh). by eexists _, s.
    + left. eexists _, s. split; [reflexivity|]. split; [|lia]. split; [done|]. split; [lia|]. split; [done|].
      rewrite (first_take_S _ ino k i Hi). destruct (first (fun i => i_ref i =? 0) (take k ino)); cbn; [done|]. by destruct (i_ref i =? 0).
  - right. left. rewrite take_ge in Hn by lia. rewrite take_ge, Hn by lia. by eexists _, s.
Qed.

Definition with_inodes (ino : list inode) (s : kstate) : kstate := set_k_fs (set_fs_inode ino (k_fs s)) s.

(** [iget] as a function on the table. *)
Definition iget_tab (dev inum : Z) (ino : list inode) : option (nat * list inode) :=
  match first (holds dev inum) ino with
  | Some ip => Some (ip, alter (fun i => set_i_ref (i32 (i_ref i + 1)) i) ip ino)
  | None =>
      match first (fun i => i_ref i =? 0) ino with
      | Some ip => Some (ip, alter (fun i => set_i_valid 0 (set_i_ref 1 (set_i_inum inum (set_i_dev dev i)))) ip ino)
      | None => None
      end
  end.

Lemma iget_run dev inum s ino : fs_inode (k_fs s) = ino -> length ino = NINODE -> Lk_itable ∉ k_held s ->
  iget dev inum s =
    match iget_tab dev inum ino with
    | Some (ip, ino') => Ret ip (with_inodes ino' s)
    | None => Panic "iget: no inodes" (set_k_held (Lk_itable :: k_held s) s)
    end.
Proof.
  intros Hino Hlen Hlk. unfold iget. krun. set (s1 := set_k_held (Lk_itable :: k_held s) s).
  rewrite (bind_Ret _ _ _ _ _ (iget_scan_run dev inum s1 ino Hino Hlen)). unfold iget_tab.
  destruct (first (holds dev inum) ino) as [ip|].
  - unfold upd_inode, upd_fs, s1. krun. rewrite Hino. unfold with_inodes. by destruct s.
  - destruct (first _ ino) as [ip|]; [|done]. unfold upd_inode, upd_fs, s1. krun. rewrite Hino.
    unfold with_inodes. by destruct s.
Qed.

Lemma alter_itable_ok (ino : list inode) ip f i dev inum :
  itable_ok ino -> ino !! ip = Some i -> i_ref (f i) > 0 -> i_dev (f i) = dev -> i_inum (f i) = inum ->
  (forall k j, ino !! k = Some j -> holds dev inum j = true -> k = ip) -> itable_ok (alter f ip ino).
Proof.
  intros (Hl & Hr & Hu) Hi Hf Hd Hn Hone. split; [by rewrite length_alter|]. split.
  { apply Forall_lookup. intros k j Hk. destruct (decide (k = ip)) as [->|Hne].
    - rewrite list_lookup_alter_eq, Hi in Hk. injection Hk as <-. lia.
    - rewrite list_lookup_alter_ne in Hk by done. by apply (proj1 (Forall_lookup _ _) Hr k). }
  assert (Hother : forall k j, k <> ip -> ino !! k = Some j -> i_ref j > 0 -> i_dev j = dev -> i_inum j = inum -> False).
  { intros k j Hne Hk H1 H2 H3. apply Hne, (Hone k j Hk). unfold holds. rewrite H2, H3, !Z.eqb_refl.
    destruct (Z.gtb_spec (i_ref j) 0); [done|lia]. }
  intros a b x y Ha Hb Hx Hy E1 E2. destruct (decide (a = ip)) as [->|Hna]; destruct (decide (b = ip)) as [->|Hnb]; [done| | |].
  - rewrite list_lookup_alter_eq, Hi in Ha. injection Ha as <-. rewrite list_lookup_alter_ne in Hb by done.
    destruct (Hother b y Hnb Hb Hy); congruence.
  - rewrite list_lookup_alter_eq, Hi in Hb. injection Hb as <-. rewrite list_lookup_alter_ne in Ha by done.
    destruct (Hother a x Hna Ha Hx); congruence.
  - rewrite !list_lookup_alter_ne in * by done. by apply (Hu a b x y).
Qed.

(** [iget] gives every caller that asks for the same inode the same table
    entry: when the inode is in the table its entry gets one more reference and
    nothing else changes, otherwise a free entry is recycled and marked not yet
    read from disk; the table keeps one entry per inode in use. With no entry
    left it panics. *)
Theorem iget_correct dev inum s :
  let ino := fs_inode (k_fs s) in
  itable_ok ino -> Forall (fun i => i_ref i < 2 ^ 31 - 1) ino -> Lk_itable ∉ k_held s ->
  (exists ip i f, iget dev inum s = Ret ip (with_inodes (alter f ip ino) s) /\ ino !! ip = Some i /\
     itable_ok (alter f ip ino) /\ i_dev (f i) = dev /\ i_inum (f i) = inum /\
     (if holds dev inum i then f i = set_i_ref (i_ref i + 1) i
      else (forall k j, ino !! k = Some j -> holds dev inum j = false) /\ i_ref i = 0 /\ i_ref (f i) = 1 /\ i_valid (f i) = 0)) \/
  ((forall k j, ino !! k = Some j -> holds dev inum j = false /\ i_ref j <> 0) /\
   exists s', iget dev inum s = Panic "iget: no inodes" s').
Proof.
  intros ino Hok Hlt Hlk. rewrite (iget_run dev inum s ino eq_refl (proj1 Hok) Hlk). unfold iget_tab.
  destruct (first (holds dev inum) ino) as [ip|] eqn:E.
  - left. apply first_Some in E as (i & Hi & Hh & _). eexists ip, i, _. split; [reflexivity|]. split; [done|].
    pose proof Hh as Hh'. unfold holds in Hh'. rewrite !andb_true_iff, !Z.eqb_eq, Z.gtb_gt in Hh'. destruct Hh' as [[H1 H2] H3].
    pose proof (proj1 (Forall_lookup _ _) Hlt ip i Hi) as Hm. cbn in Hm.
    split; [|split; [done|split; [done|rewrite Hh; by rewrite i32_small by lia]]].
    apply (alter_itable_ok ino ip _ i dev inum Hok Hi); cbn; [rewrite i32_small by lia; lia|done|done|].
    intros k j Hk Hj. unfold holds in Hj. rewrite !andb_true_iff, !Z.eqb_eq, Z.gtb_gt in Hj.
    destruct Hok as (_ & _ & Hu). apply (Hu k ip j i); try done; [lia|lia|destruct Hj as [[? ?] ?]; congruence..].
  - apply first_None in E. pose proof (proj1 (Forall_lookup _ _) E) as Hno. cbn in Hno.
    destruct (first (fun i => i_ref i =? 0) ino) as [ip|] eqn:E2.
    + left. apply first_Some in E2 as (i & Hi & Hz & _). eexists ip, i, _. split; [reflexivity|]. split; [done|].
      rewrite (Hno ip i Hi). apply Z.eqb_eq in Hz. split; [|done].
      apply (alter_itable_ok ino ip _ i dev inum Hok Hi); cbn; [lia|done|done|].
      intros k j Hk Hj. by rewrite (Hno k j Hk) in Hj.
    + right. apply first_None in E2. split; [|by eexists]. intros k j Hk. split; [by apply (Hno k)|].
      pose proof (proj1 (Forall_lookup _ _) E2 k j Hk) as Hz. cbn in Hz. by apply Z.eqb_neq in Hz.
Qed.

(** ** Inodes on disk *)

Definition dinode_ok (di : dinode) : Prop :=
  (forall x, x ∈ [di_type di; di_major di; di_minor di; di_nlink di] -> - 2 ^ 15 <= x < 2 ^ 15) /\
  0 <= di_size di < 2 ^ 32 /\ length (di_addrs di) = (NDIRECT + 1)%nat /\ Forall (fun a => 0 <= a < 2 ^ 32) (di_addrs di).

Lemma length_wr_addrs d o l : length (wr_addrs d o l) = length d.
Proof. revert d o. induction l as [|a l IH]; intros d o; [done|]. cbn [wr_addrs]. by rewrite IH, length_wr. Qed.

Lemma nth_wr_addrs_other d o l j : (j < o \/ o + 4 * length l <= j)%nat -> nth j (wr_addrs d o l) 0 = nth j d 0.
Proof.
  revert d o. induction l as [|a l IH]; intros d o H; [done|]. cbn [wr_addrs length] in *.
  rewrite IH by lia. apply nth_wr_other. lia.
Qed.

Lemma rd_wr_addrs d o l k a : l !! k = Some a -> 0 <= a < 2 ^ 32 -> (o + 4 * length l <= length d)%nat ->
  rd 4 (wr_addrs d o l) (o + 4 * k) = a.
Proof.
  revert d o k. induction l as [|b l IH]; intros d o k Hk Ha Hl; [by rewrite lookup_nil in Hk|].
  cbn [wr_addrs length] in *. destruct k as [|k].
  - injection Hk as ->. rewrite (rd_ext 4 (wr 4 d o a)) by (intros j Hj; apply nth_wr_addrs_other; lia).
    replace (o + 4 * 0)%nat with o by lia. rewrite rd_wr_same by lia. apply Z.mod_small.
    change (256 ^ Z.of_nat 4) with (2 ^ 32). lia.
  - replace (o + 4 * S k)%nat with (o + 4 + 4 * k)%nat by lia. apply IH; [done|done|]. rewrite length_wr. lia.
Qed.

Lemma length_wr_dinode d o di : length (wr_dinode d o di) = length d.
Proof. unfold wr_dinode. by rewrite length_wr_addrs, !length_wr. Qed.

Lemma i16_mod x : - 2 ^ 15 <= x < 2 ^ 15 -> i16 (x mod 256 ^ Z.of_nat 2) = x.
Proof.
  intros H. unfold i16. change (256 ^ Z.of_nat 2) with (2 ^ 16).
  rewrite Z.add_mod_idemp_l by lia. rewrite Z.mod_small by lia. lia.
Qed.

(** A dinode that has been written is read back. *)
Lemma rd_wr_dinode d o di : dinode_ok di -> (o + 64 <= length d)%nat -> rd_dinode (wr_dinode d o di) o = di.
Proof.
  intros (H1 & H2 & H3 & H4) Hl. unfold rd_dinode, wr_dinode. cbv zeta.
  set (d5 := wr 4 _ _ (di_size di)).
  assert (Ha : forall n j, (j + n <= o + 12)%nat -> rd n (wr_addrs d5 (o + 12) (di_addrs di)) j = rd n d5 j).
  { intros n j Hj. apply rd_ext. intros k Hk. apply nth_wr_addrs_other. lia. }
  assert (Hr : rd_addrs (wr_addrs d5 (o + 12) (di_addrs di)) o = di_addrs di).
  { unfold rd_addrs. apply list_eq. intros k. change (map ?g ?l) with (g <$> l). rewrite list_lookup_fmap.
    destruct (decide (k < NDIRECT + 1)%nat) as [Hk|Hk].
    - rewrite lookup_seq_lt by done. cbn [fmap option_fmap option_map Nat.add]. destruct (lookup_lt_is_Some_2 (di_addrs di) k ltac:(lia)) as [a Ha'].
      rewrite Ha'. f_equal. apply rd_wr_addrs; [done|by apply (proj1 (Forall_lookup _ _) H4 k)|].
      unfold d5. rewrite !length_wr, H3. unfold NDIRECT. lia.
    - rewrite lookup_seq_ge by lia. rewrite lookup_ge_None_2 by lia. done. }
  rewrite Hr, !Ha by lia. unfold d5.
  rewrite !(rd_wr_other 4 2) by lia. rewrite (rd_wr_same 4) by (rewrite !length_wr; lia).
  rewrite (rd_wr_same 2 _ (o + 6)) by (rewrite !length_wr; lia).
  rewrite !(rd_wr_other 2 2 _ (o + 6)) by lia. rewrite (rd_wr_same 2 _ (o + 4)) by (rewrite !length_wr; lia).
  rewrite !(rd_wr_other 2 2 _ (o + 4)) by lia. rewrite (rd_wr_same 2 _ (o + 2)) by (rewrite !length_wr; lia).
  rewrite !(rd_wr_other 2 2 _ (o + 2)) by lia. rewrite (rd_wr_same 2 _ o) by lia.
  rewrite !i16_mod by (apply H1; rewrite !elem_of_cons; tauto).
  rewrite Z.mod_small by (change (256 ^ Z.of_nat 4) with (2 ^ 32); lia). by destruct di.
Qed.

(** Writing one dinode leaves the others of the block alone. *)
Lemma nth_wr_dinode_other d o di j : length (di_addrs di) = (NDIRECT + 1)%nat ->
  (j < o \/ o + 64 <= j)%nat -> nth j (wr_dinode d o di) 0 = nth j d 0.
Proof.
  intros Hl Hj. unfold wr_dinode. cbv zeta. rewrite nth_wr_addrs_other by (rewrite Hl; unfold NDIRECT; lia).
  by rewrite !nth_wr_other by lia.
Qed.

Lemma rd_dinode_ext d d' o : (forall j, (o <= j < o + 64)%nat -> nth j d' 0 = nth j d 0) -> rd_dinode d' o = rd_dinode d o.
Proof.
  intros H. unfold rd_dinode. f_equal; try (f_equal; apply rd_ext; intros j Hj; apply H; lia).
  - apply rd_ext. intros j Hj. apply H. lia.
  - unfold rd_addrs. apply map_ext_in. intros k Hk%in_seq. apply rd_ext. intros j Hj. apply H. unfold NDIRECT in *. lia.
Qed.

Lemma dip_off_bound inum : (dip_off inum + 64 <= Z.to_nat BSIZE)%nat.
Proof. unfold dip_off. pose proof (Z.mod_pos_bound inum IPB eq_refl). unfold IPB, BSIZE, SIZEOF_DINODE in *. change (1024 / 64) with 16 in *. lia. Qed.

Lemma dip_off_other a b : a mod IPB <> b mod IPB -> (dip_off a + 64 <= dip_off b \/ dip_off b + 64 <= dip_off a)%nat.
Proof.
  intros H. unfold dip_off. pose proof (Z.mod_pos_bound a IPB eq_refl). pose proof (Z.mod_pos_bound b IPB eq_refl).
  unfold SIZEOF_DINODE. lia.
Qed.

Section InodeFacts.
Context `{LAY : Layout} `{DD : DiskDriver}.
Context (p : nat) (pr : proc) (s0 : kstate) (st size : Z) (sb : superblock) (B : list Z).

Abbreviation trans := (trans p pr s0 st size sb B).

(** Inode [inum] as readers of the disk see it. *)
Definition on_disk (v : Z -> list Z) (inum : Z) : dinode := rd_dinode (v (IBLOCK inum sb)) (dip_off inum).

Lemma iupdate_run s L v ino ip i :
  trans s L v ino -> ino !! ip = Some i -> i_dev i = ROOTDEV -> (length L < 8)%nat ->
  IBLOCK (i_inum i) sb ∉ L.*2 -> IBLOCK (i_inum i) sb ∈ B ->
  let blk := IBLOCK (i_inum i) sb in
  exists s', iupdate ip s = Ret tt s' /\
    trans s' L (<[blk := wr_dinode (v blk) (dip_off (i_inum i)) (dinode_of i)]> v) ino.
Proof.
  intros H Hi Hd HL Hun HB blk.
  destruct (trans_modify p pr s0 st size sb B s L v ino blk (fun d => wr_dinode d (dip_off (i_inum i)) (dinode_of i)) H Hun HL)
    as (bp & s1 & s2 & s3 & E1 & _ & H1 & E2 & E3 & H3); [rewrite length_wr_dinode; by apply (trans_length _ _ _ _ _ _ _ _ _ _ _ _ H)|done|].
  exists s3. split; [|done]. unfold iupdate.
  rewrite (bind_Ret _ _ _ _ _ (trans_get_sb _ _ _ _ _ _ _ _ _ _ _ H)).
  rewrite (bind_Ret _ _ _ _ _ (trans_get_inode _ _ _ _ _ _ _ _ _ _ _ ip i H Hi)).
  rewrite Hd. rewrite (bind_Ret _ _ _ _ _ E1).
  rewrite (bind_Ret _ _ _ _ _ (trans_get_inode _ _ _ _ _ _ _ _ _ _ _ ip i H1 Hi)).
  by rewrite (write_steps bp _ _ _ _ E2).
Qed.

(** [iupdate] writes the in-memory inode to its place on disk, where the
    next reader finds exactly its fields, and leaves every other inode and
    every other block alone. *)
Theorem iupdate_correct s L v ino ip i :
  trans s L v ino -> ino !! ip = Some i -> i_dev i = ROOTDEV -> (length L < 8)%nat ->
  IBLOCK (i_inum i) sb ∉ L.*2 -> IBLOCK (i_inum i) sb ∈ B -> dinode_ok (dinode_of i) ->
  exists s' v', iupdate ip s = Ret tt s' /\ trans s' L v' ino /\ on_disk v' (i_inum i) = dinode_of i /\
    (forall inum, inum mod IPB <> i_inum i mod IPB \/ IBLOCK inum sb <> IBLOCK (i_inum i) sb -> on_disk v' inum = on_disk v inum) /\
    (forall k, k <> IBLOCK (i_inum i) sb -> v' k = v k).
Proof.
  intros H Hi Hd HL Hun HB Hok. destruct (iupdate_run s L v ino ip i H Hi Hd HL Hun HB) as (s' & E & H').
  exists s'. eexists. split; [exact E|]. split; [exact H'|]. unfold on_disk. split; [|split].
  - rewrite fn_lookup_insert. apply rd_wr_dinode; [done|].
    rewrite (trans_length _ _ _ _ _ _ _ _ _ _ _ _ H). apply dip_off_bound.
  - intros inum Hne. destruct (decide (IBLOCK inum sb = IBLOCK (i_inum i) sb)) as [Eb|Eb].
    + rewrite Eb, fn_lookup_insert. destruct Hne as [Hne|Hne]; [|by destruct Hne].
      apply rd_dinode_ext. intros j Hj. apply nth_wr_dinode_other; [apply Hok|].
      destruct (dip_off_other inum (i_inum i) Hne); lia.
    + by rewrite fn_lookup_insert_ne.
  - intros k Hk. by rewrite fn_lookup_insert_ne.
Qed.

(** The entry as [ilock] leaves it: locked by the running process, and read
    from disk unless it was. *)
Definition locked_inode (v : Z -> list Z) (i : inode) : inode :=
  let i1 := set_i_lock (mkSleeplock 1 (p_pid pr)) i in
  if i_valid i =? 0 then set_i_valid 1 (load_dinode (on_disk v (i_inum i)) i1) else i1.

Lemma acquiresleep_inode s L v ino ip i :
  trans s L v ino -> ino !! ip = Some i -> sl_locked (i_lock i) = 0 ->
  exists s', acquiresleep (SL_inode ip) s = Ret tt s' /\
    trans s' L v (alter (set_i_lock (mkSleeplock 1 (p_pid pr))) ip ino).
Proof.
  intros H Hi Hl. destruct (trans_alone _ _ _ _ _ _ _ _ _ _ _ H) as (Hh & Hc & Hp & _).
  destruct (trans_fs _ _ _ _ _ _ _ _ _ _ _ H) as [Hino _].
  eexists. split; [apply (acquiresleep_run (SL_inode ip) (i_lock i) s p pr); try done; cbn; by rewrite Hino, Hi|].
  unfold own. cbn [set_slk]. rewrite Hino.
  pose proof (trans_inodes p pr s0 st size sb B s L v ino (alter (set_i_lock (mkSleeplock 1 (p_pid pr))) ip) H) as H'.
  match goal with |- context [alter ?g ip ino] => replace (alter g ip ino) with (alter (set_i_lock (mkSleeplock 1 (p_pid pr))) ip ino) end; [exact H'|].
  apply list_alter_ext; [|done]. intros x _. by destruct x as [? ? ? []].
Qed.

Lemma ilock_run s L v ino ip i :
  trans s L v ino -> ino !! ip = Some i -> 1 <= i_ref i -> sl_locked (i_lock i) = 0 -> i_dev i = ROOTDEV ->
  (length L < 8)%nat -> (i_valid i = 0 -> (IBLOCK (i_inum i) sb ∉ L.*2) /\ disk_block (IBLOCK (i_inum i) sb)) ->
  exists s', trans s' L v (alter (locked_inode v) ip ino) /\
    ilock (Some ip) s = if (i_valid i =? 0) && (di_type (on_disk v (i_inum i)) =? 0) then Panic "ilock: no type" s' else Ret tt s'.
Proof.
  intros H Hi Href Hl Hd HL Hun.
  destruct (acquiresleep_inode s L v ino ip i H Hi Hl) as (s1 & E1 & H1).
  set (i1 := set_i_lock (mkSleeplock 1 (p_pid pr)) i) in *. set (ino1 := alter _ ip ino) in *.
  assert (Hi1 : ino1 !! ip = Some i1) by (unfold ino1; by rewrite list_lookup_alter_eq, Hi).
  unfold ilock. rewrite (bind_Ret _ _ _ _ _ (trans_get_inode _ _ _ _ _ _ _ _ _ _ _ ip i H Hi)).
  destruct (Z.ltb_spec (i_ref i) 1); [lia|]. krun.
  rewrite (bind_Ret _ _ _ _ _ (trans_get_inode _ _ _ _ _ _ _ _ _ _ _ ip i1 H1 Hi1)).
  change (i_valid i1) with (i_valid i). change (i_dev i1) with (i_dev i). change (i_inum i1) with (i_inum i). rewrite Hd.
  destruct (Z.eqb_spec (i_valid i) 0) as [Hv|Hv]; cbn [andb].
  - rewrite (bind_Ret _ _ _ _ _ (trans_get_sb _ _ _ _ _ _ _ _ _ _ _ H1)).
    destruct (trans_bread _ _ _ _ _ _ _ _ _ _ _ _ H1 (proj1 (Hun Hv)) HL (proj2 (Hun Hv))) as (bp & s2 & E2 & H2 & _). krun.
    assert (Hin : (bp, IBLOCK (i_inum i) sb) ∈ (bp, IBLOCK (i_inum i) sb) :: L) by (by apply elem_of_cons; left).
    rewrite (bind_Ret _ _ _ _ _ (trans_data _ _ _ _ _ _ _ _ _ _ _ bp _ H2 Hin)).
    set (g := fun x : inode => load_dinode (rd_dinode (v (IBLOCK (i_inum i) sb)) (dip_off (i_inum x))) x).
    destruct (trans_upd_inode _ _ _ _ _ _ _ _ _ _ _ ip g H2) as (s3 & E3 & H3). krun.
    destruct (trans_brelse _ _ _ _ _ _ _ _ _ _ _ bp _ H3) as (s4 & E4 & H4). krun.
    destruct (trans_upd_inode _ _ _ _ _ _ _ _ _ _ _ ip (set_i_valid 1) H4) as (s5 & E5 & H5). krun.
    assert (Ef : alter (set_i_valid 1) ip (alter g ip ino1) = alter (locked_inode v) ip ino).
    { unfold ino1. rewrite !alter_alter. apply list_alter_ext; [|done]. intros x Hx. rewrite Hi in Hx. injection Hx as <-.
      unfold locked_inode. by rewrite Hv. }
    rewrite Ef in H5. exists s5. split; [done|].
    assert (Hl5 : alter (locked_inode v) ip ino !! ip = Some (locked_inode v i)) by (by rewrite list_lookup_alter_eq, Hi).
    rewrite (bind_Ret _ _ _ _ _ (trans_get_inode _ _ _ _ _ _ _ _ _ _ _ ip _ H5 Hl5)).
    unfold locked_inode. rewrite Hv. cbn [Z.eqb i_type set_i_valid load_dinode set_i_addrs set_i_size set_i_nlink set_i_minor set_i_major set_i_type].
    by destruct (di_type (on_disk v (i_inum i)) =? 0).
  - exists s1. split; [|done]. replace (alter (locked_inode v) ip ino) with ino1; [done|].
    apply list_alter_ext; [|done]. intros x Hx. rewrite Hi in Hx. injection Hx as <-. unfold locked_inode.
    destruct (Z.eqb_spec (i_valid i) 0); [done|]. done.
Qed.

(** [ilock] of an inode nobody has locked gives the running process the
    lock and the inode's fields: those on disk when the entry had not been read
    yet, the cached ones otherwise; an entry whose inode is free on disk is an
    error (panic). *)
Theorem ilock_correct s L v ino ip i :
  trans s L v ino -> ino !! ip = Some i -> 1 <= i_ref i -> sl_locked (i_lock i) = 0 -> i_dev i = ROOTDEV ->
  (length L < 8)%nat -> (i_valid i = 0 -> (IBLOCK (i_inum i) sb ∉ L.*2) /\ disk_block (IBLOCK (i_inum i) sb)) ->
  if (i_valid i =? 0) && (di_type (on_disk v (i_inum i)) =? 0)
  then exists s', ilock (Some ip) s = Panic "ilock: no type" s'
  else exists s' i', ilock (Some ip) s = Ret tt s' /\ trans s' L v (<[ip := i']> ino) /\
    i_lock i' = mkSleeplock 1 (p_pid pr) /\ i_valid i' <> 0 /\ i_ref i' = i_ref i /\ i_inum i' = i_inum i /\
    dinode_of i' = if i_valid i =? 0 then on_disk v (i_inum i) else dinode_of i.
Proof.
  intros H Hi Href Hl Hd HL Hun. destruct (ilock_run s L v ino ip i H Hi Href Hl Hd HL Hun) as (s' & H' & E).
  destruct ((i_valid i =? 0) && (di_type (on_disk v (i_inum i)) =? 0)); [by eexists|].
  exists s', (locked_inode v i). split; [done|]. split; [by rewrite <- (alter_insert_eq _ _ _ _ Hi)|].
  unfold locked_inode. destruct (Z.eqb_spec (i_valid i) 0); cbn; [|done]. do 4 (split; [done|]). by destruct (on_disk v (i_inum i)).
Qed.
End InodeFacts.
