(* ===== verification/FileFacts.v ===== *)
(** * The contents of files

    [readi] and [writei] against the sequence of bytes of a file, and the
    directory and path-name code on top of them. *)

From stdpp Require Import functions.
From S2P Require Import Prelude Machine State CString Kalloc Vm Printf Sched Sleeplock Block Bio Store Log LogFacts Uio Fs Trans FsFacts.

(** Block [bn] of inode [i]: a direct address, or an entry of the indirect
    block. *)
Definition indirect (i : inode) : Z := nth NDIRECT (i_addrs i) 0.

Definition blk_of (v : Z -> list Z) (i : inode) (bn : Z) : Z :=
  if bn <? Z.of_nat NDIRECT then nth (Z.to_nat bn) (i_addrs i) 0
  else rd 4 (v (indirect i)) (Z.to_nat (4 * (bn - Z.of_nat NDIRECT))).

Definition file_byte (v : Z -> list Z) (i : inode) (off : Z) : Z :=
  nth (Z.to_nat (off mod BSIZE)) (v (blk_of v i (off / BSIZE))) 0.

(** The bytes [off .. off + n) of a file. *)
Definition bytes_from (v : Z -> list Z) (i : inode) (off : Z) (n : nat) : list Z :=
  map (fun k => file_byte v i (off + Z.of_nat k)) (seq 0 n).

Lemma length_bytes_from v i off n : length (bytes_from v i off n) = n.
Proof. unfold bytes_from. by rewrite length_map, length_seq. Qed.

Lemma bytes_from_lookup v i off n k : (k < n)%nat -> bytes_from v i off n !! k = Some (file_byte v i (off + Z.of_nat k)).
Proof.
  intros H. unfold bytes_from. change (map ?g ?l) with (g <$> l). rewrite list_lookup_fmap, lookup_seq_lt by done. done.
Qed.

Lemma bytes_from_app v i off a b : bytes_from v i off (a + b) = bytes_from v i off a ++ bytes_from v i (off + Z.of_nat a) b.
Proof.
  apply list_eq. intros k. destruct (decide (k < a)%nat) as [Ha|Ha].
  - rewrite lookup_app_l by (rewrite length_bytes_from; done). by rewrite !bytes_from_lookup by lia.
  - rewrite lookup_app_r by (rewrite length_bytes_from; lia). rewrite length_bytes_from.
    destruct (decide (k < a + b)%nat) as [Hb|Hb].
    + rewrite !bytes_from_lookup by lia. do 2 f_equal. lia.
    + rewrite !lookup_ge_None_2; [done|rewrite length_bytes_from; lia..].
Qed.

(** The bytes of one block. *)
Lemma bytes_from_block v i off m : 0 <= off -> Z.of_nat m <= BSIZE - off mod BSIZE ->
  length (v (blk_of v i (off / BSIZE))) = Z.to_nat BSIZE ->
  take m (drop (Z.to_nat (off mod BSIZE)) (v (blk_of v i (off / BSIZE)))) = bytes_from v i off m.
Proof.
  intros H0 Hm Hl. pose proof (Z.mod_pos_bound off BSIZE eq_refl) as Hr. apply list_eq. intros k.
  destruct (decide (k < m)%nat) as [Hk|Hk].
  - rewrite lookup_take_lt, lookup_drop, bytes_from_lookup by done. unfold file_byte.
    assert ((off + Z.of_nat k) / BSIZE = off / BSIZE /\ (off + Z.of_nat k) mod BSIZE = off mod BSIZE + Z.of_nat k) as [-> ->].
    { pose proof (Z.div_mod off BSIZE ltac:(done)) as Ed.
      assert (Hq : off + Z.of_nat k = BSIZE * (off / BSIZE) + (off mod BSIZE + Z.of_nat k)) by lia.
      split; [symmetry; apply (Z.div_unique _ _ _ (off mod BSIZE + Z.of_nat k))|symmetry; apply (Z.mod_unique _ _ (off / BSIZE))]; lia. }
    rewrite (nth_lookup _ (Z.to_nat _)).
    destruct (lookup_lt_is_Some_2 (v (blk_of v i (off / BSIZE))) (Z.to_nat (off mod BSIZE) + k)) as [x Hx]; [unfold BSIZE in *; lia|].
    rewrite Hx. replace (Z.to_nat (off mod BSIZE + Z.of_nat k)) with (Z.to_nat (off mod BSIZE) + k)%nat by lia. by rewrite Hx.
  - rewrite lookup_take_ge by lia. symmetry. apply lookup_ge_None_2. rewrite length_bytes_from. lia.
Qed.

Section FileFacts.
Context `{LAY : Layout} `{DD : DiskDriver}.
Context (p : nat) (pr : proc) (s0 : kstate) (st size : Z) (sb : superblock) (B : list Z).

Abbreviation trans := (trans p pr s0 st size sb B).

(** Blocks [0 .. n) of the file are allocated blocks of the disk, and neither
    they nor the indirect block are locked. *)
Definition mapped (v : Z -> list Z) (L : list (nat * Z)) (i : inode) (n : Z) : Prop :=
  n <= MAXFILE /\ (Z.of_nat NDIRECT < n -> indirect i <> 0 /\ (indirect i ∉ L.*2) /\ disk_block (indirect i)) /\
  forall bn, 0 <= bn < n -> blk_of v i bn <> 0 /\ (blk_of v i bn ∉ L.*2) /\ disk_block (blk_of v i bn).

Lemma bmap_run s L v ino ip i bn n :
  trans s L v ino -> ino !! ip = Some i -> i_dev i = ROOTDEV -> (length L < 8)%nat -> mapped v L i n -> 0 <= bn < n ->
  exists s', bmap ip bn s = Ret (blk_of v i bn) s' /\ trans s' L v ino.
Proof.
  intros H Hi Hd HL (Hn & Hind & Hmap) Hbn. unfold bmap.
  rewrite (bind_Ret _ _ _ _ _ (trans_get_inode _ _ _ _ _ _ _ _ _ _ _ ip i H Hi)).
  destruct (Hmap bn Hbn) as [Hnz _]. unfold blk_of in *.
  destruct (Z.ltb_spec bn (Z.of_nat NDIRECT)) as [Hlt|Hge].
  - destruct (Z.eqb_spec (nth (Z.to_nat bn) (i_addrs i) 0) 0); [done|]. by exists s.
  - destruct (Z.ltb_spec (bn - Z.of_nat NDIRECT) NINDIRECT); [|unfold MAXFILE in *; lia].
    destruct (Hind ltac:(lia)) as (Hinz & HiL & Hdb). unfold indirect in *.
    destruct (Z.eqb_spec (nth NDIRECT (i_addrs i) 0) 0); [done|]. krun. rewrite Hd.
    destruct (trans_bread _ _ _ _ _ _ _ _ _ _ _ _ H HiL HL Hdb) as (bp & s1 & E1 & H1 & _). krun.
    assert (Hin : (bp, nth NDIRECT (i_addrs i) 0) ∈ (bp, nth NDIRECT (i_addrs i) 0) :: L) by (by apply elem_of_cons; left).
    rewrite (bind_Ret _ _ _ _ _ (trans_data _ _ _ _ _ _ _ _ _ _ _ bp _ H1 Hin)).
    destruct (Z.eqb_spec (rd 4 (v (nth NDIRECT (i_addrs i) 0)) (Z.to_nat (4 * (bn - Z.of_nat NDIRECT)))) 0); [done|]. krun.
    destruct (trans_brelse _ _ _ _ _ _ _ _ _ _ _ bp _ H1) as (s2 & E2 & H2). krun. by exists s2.
Qed.

(** Number of blocks that hold [n] bytes. *)
Definition nblocks (n : Z) : Z := (n + BSIZE - 1) / BSIZE.

Lemma block_in_file off n : 0 <= off < n -> 0 <= off / BSIZE < nblocks n.
Proof.
  intros H. split; [apply Z.div_pos; [lia|done]|]. unfold nblocks.
  apply Z.lt_le_trans with (off / BSIZE + 1); [lia|]. rewrite <- (Z.div_add off 1 BSIZE) by done.
  apply Z.div_le_mono; [done|]. unfold BSIZE. lia.
Qed.

(** The number of bytes [readi] moves. *)
Definition readable (i : inode) (off n : Z) : Z := Z.min n (i_size i - off).

Lemma readi_run s L v ino ip i off n :
  trans s L v ino -> ino !! ip = Some i -> i_dev i = ROOTDEV -> (length L < 7)%nat ->
  mapped v L i (nblocks (i_size i)) -> 0 <= off <= i_size i -> 0 <= n -> off + n < 2 ^ 32 -> i_size i < 2 ^ 31 ->
  exists s', readi ip (Var []) off n s =
      Ret (readable i off n, bytes_from v i off (Z.to_nat (readable i off n))) s' /\ trans s' L v ino.
Proof.
  intros H Hi Hd HL Hmap Hoff Hn Hwrap Hsz. unfold readi.
  rewrite (bind_Ret _ _ _ _ _ (trans_get_inode _ _ _ _ _ _ _ _ _ _ _ ip i H Hi)).
  rewrite (u32_small (off + n)) by lia.
  destruct (Z.gtb_spec off (i_size i)); [lia|]. destruct (Z.ltb_spec (off + n) off); [lia|]. cbn [orb].
  set (n' := if off + n >? i_size i then u32 (i_size i - off) else n).
  assert (En : n' = readable i off n).
  { unfold n', readable. destruct (Z.gtb_spec (off + n) (i_size i)); [rewrite u32_small by lia; lia|lia]. }
  rewrite <- En. assert (Hn' : 0 <= n' <= i_size i - off) by (rewrite En; unfold readable; lia). clearbody n'. clear En.
  apply (loop_measure _ (fun '(tot, o, dst, out) s1 => 0 <= tot <= n' /\ o = off + tot /\ (exists l, dst = Var l) /\
       out = bytes_from v i off (Z.to_nat tot) /\ trans s1 L v ino) (fun '(tot, _, _, _) _ => Z.to_nat (n' - tot))
     (fun o => exists s', o = Ret (n', bytes_from v i off (Z.to_nat n')) s' /\ trans s' L v ino));
    [|split; [lia|]; split; [lia|]; split; [by eexists|done]|lia].
  intros [[[tot o] dst] out] s1 (Ht & -> & [l ->] & -> & Htr1). destruct (Z.ltb_spec tot n') as [Hlt|Hge].
  - left. destruct (bmap_run s1 L v ino ip i ((off + tot) / BSIZE) _ Htr1 Hi Hd ltac:(lia) Hmap) as (s2 & E2 & H2);
      [apply block_in_file; lia|]. krun. rewrite Hd.
    destruct (proj2 (proj2 Hmap) ((off + tot) / BSIZE)) as (_ & HbL & Hdb); [apply block_in_file; lia|].
    destruct (trans_bread _ _ _ _ _ _ _ _ _ _ _ _ H2 HbL ltac:(lia) Hdb) as (bp & s3 & E3 & H3 & _). krun.
    assert (Hin : (bp, blk_of v i ((off + tot) / BSIZE)) ∈ (bp, blk_of v i ((off + tot) / BSIZE)) :: L) by (by apply elem_of_cons; left).
    rewrite (bind_Ret _ _ _ _ _ (trans_data _ _ _ _ _ _ _ _ _ _ _ bp _ H3 Hin)).
    destruct (trans_brelse _ _ _ _ _ _ _ _ _ _ _ bp _ H3) as (s4 & E4 & H4). cbn [either_copyout]. krun. change (0 =? -1) with false.
    cbv iota. krun. set (m := Z.min (n' - tot) (BSIZE - (off + tot) mod BSIZE)).
    pose proof (Z.mod_pos_bound (off + tot) BSIZE eq_refl) as Hr. assert (Hm : 0 < m <= n' - tot) by (unfold m; lia).
    eexists _, s4. split; [reflexivity|]. rewrite !u32_small by lia. split; [|lia].
    split; [lia|]. split; [lia|]. split; [by eexists|]. split; [|done].
    rewrite bytes_from_block; [|lia|unfold m; lia|by apply (trans_length _ _ _ _ _ _ _ _ _ _ _ _ Htr1)].
    rewrite Z2Nat.inj_add, bytes_from_app by lia. by rewrite Z2Nat.id by lia.
  - right. left. assert (tot = n') as -> by lia. eexists _, s1. split; [reflexivity|]. exists s1.
    by rewrite i32_small by lia.
Qed.

(** [readi] into kernel memory returns the bytes of the file from the
    given offset, as many as were asked for or as the file has left, and
    changes nothing; an offset beyond the end gives no bytes. *)
Theorem readi_correct s L v ino ip i off n :
  trans s L v ino -> ino !! ip = Some i -> i_dev i = ROOTDEV -> (length L < 7)%nat ->
  mapped v L i (nblocks (i_size i)) -> 0 <= off -> 0 <= n -> off + n < 2 ^ 32 -> i_size i < 2 ^ 31 ->
  let m := Z.max 0 (Z.min n (i_size i - off)) in
  exists s', readi ip (Var []) off n s = Ret (m, bytes_from v i off (Z.to_nat m)) s' /\ trans s' L v ino.
Proof.
  intros H Hi Hd HL Hmap Hoff Hn Hwrap Hsz m. destruct (decide (off <= i_size i)) as [Hle|Hgt].
  - replace m with (readable i off n) by (unfold m, readable; lia). apply (readi_run s L v ino ip i off n); try done; lia.
  - exists s. split; [|done]. unfold readi. rewrite (bind_Ret _ _ _ _ _ (trans_get_inode _ _ _ _ _ _ _ _ _ _ _ ip i H Hi)).
    destruct (Z.gtb_spec off (i_size i)); [|lia]. cbn [orb]. by replace m with 0 by lia.
Qed.

(** ** Writing *)

(** The first [nb] blocks of the file are allocated and distinct, different
    from the indirect block and from the block of the inode, and the call may
    change them. *)
Record writable (v : Z -> list Z) (L : list (nat * Z)) (i : inode) (nb : Z) : Prop := {
  wr_mapped : mapped v L i nb;
  wr_inj : forall a b, 0 <= a < nb -> 0 <= b < nb -> blk_of v i a = blk_of v i b -> a = b;
  wr_indirect : forall a, 0 <= a < nb -> blk_of v i a <> indirect i;
  wr_inode : forall a, 0 <= a < nb -> blk_of v i a <> IBLOCK (i_inum i) sb;
  wr_ino : indirect i <> IBLOCK (i_inum i) sb;
  wr_B : forall a, 0 <= a < nb -> blk_of v i a ∈ B
}.

Definition file_block (v : Z -> list Z) (i : inode) (nb k : Z) : Prop := exists bn, 0 <= bn < nb /\ k = blk_of v i bn.

(** [v1] is [v] with the first [tot] bytes of [src] stored in the file from
    offset [off]. *)
Definition stored (v v1 : Z -> list Z) (i : inode) (nb off : Z) (src : list Z) (tot : Z) : Prop :=
  (forall k, ~ file_block v i nb k -> v1 k = v k) /\
  (forall o, 0 <= o < nb * BSIZE -> nth (Z.to_nat (o mod BSIZE)) (v1 (blk_of v i (o / BSIZE))) 0 =
     if decide (off <= o < off + tot) then nth (Z.to_nat (o - off)) src 0 else file_byte v i o).

Lemma stored_blk_of v v1 i nb off src tot L bn : stored v v1 i nb off src tot -> writable v L i nb -> 0 <= bn < nb ->
  blk_of v1 i bn = blk_of v i bn.
Proof.
  intros [H1 _] Hw Hbn. unfold blk_of. destruct (bn <? Z.of_nat NDIRECT); [done|]. rewrite H1; [done|].
  intros (a & Ha & E). by apply (wr_indirect _ _ _ _ Hw a Ha).
Qed.

Lemma stored_mapped v v1 i nb off src tot L : stored v v1 i nb off src tot -> writable v L i nb -> mapped v1 L i nb.
Proof.
  intros Hs Hw. destruct (wr_mapped _ _ _ _ Hw) as (H1 & H2 & H3). split; [done|]. split; [done|].
  intros bn Hbn. rewrite (stored_blk_of v v1 i nb off src tot L bn Hs Hw Hbn). by apply H3.
Qed.

Lemma nth_splice d o l j : (o + length l <= length d)%nat ->
  nth j (splice d o l) 0 = if decide (o <= j < o + length l)%nat then nth (j - o) l 0 else nth j d 0.
Proof.
  intros H. rewrite !nth_lookup. destruct (decide _) as [Hj|Hj].
  - replace j with (o + (j - o))%nat at 1 by lia. by rewrite splice_inside by lia.
  - by rewrite splice_outside by lia.
Qed.

Lemma div_mod_same a b : 0 <= a -> a / BSIZE = b / BSIZE -> a - b = a mod BSIZE - b mod BSIZE.
Proof. intros H E. pose proof (Z.div_mod a BSIZE ltac:(done)). pose proof (Z.div_mod b BSIZE ltac:(done)). lia. Qed.

(** Storing one more chunk, inside one block. *)
Lemma stored_step v v1 i nb off src tot L m :
  stored v v1 i nb off src tot -> writable v L i nb -> 0 <= off -> 0 <= tot -> 0 < m -> tot + m <= Z.of_nat (length src) ->
  off + tot + m <= nb * BSIZE -> m <= BSIZE - (off + tot) mod BSIZE -> (forall k, length (v1 k) = Z.to_nat BSIZE) ->
  let blk := blk_of v i ((off + tot) / BSIZE) in
  stored v (<[blk := splice (v1 blk) (Z.to_nat ((off + tot) mod BSIZE)) (take (Z.to_nat m) (drop (Z.to_nat tot) src))]> v1)
    i nb off src (tot + m).
Proof.
  intros [H1 H2] Hw Hoff Ht Hm Hlen Hnb Hchunk Hl blk. pose proof (Z.mod_pos_bound (off + tot) BSIZE eq_refl) as Hr.
  assert (Hq : 0 <= (off + tot) / BSIZE < nb) by (split; [apply Z.div_pos; lia|apply Z.div_lt_upper_bound; lia]).
  assert (Hlc : length (take (Z.to_nat m) (drop (Z.to_nat tot) src)) = Z.to_nat m) by (rewrite length_take, length_drop; lia).
  split.
  - intros k Hk. rewrite fn_lookup_insert_ne; [by apply H1|]. intros <-. apply Hk. by exists ((off + tot) / BSIZE).
  - intros o Ho. assert (Hqo : 0 <= o / BSIZE < nb) by (split; [apply Z.div_pos; lia|apply Z.div_lt_upper_bound; lia]).
    pose proof (Z.mod_pos_bound o BSIZE eq_refl) as Hro.
    destruct (decide (o / BSIZE = (off + tot) / BSIZE)) as [Eq|Ne].
    + unfold blk. rewrite <- Eq, fn_lookup_insert. pose proof (div_mod_same o (off + tot) ltac:(lia) Eq) as Ed.
      rewrite nth_splice by (rewrite Hl, Hlc; unfold BSIZE in *; lia). rewrite Hlc. destruct (decide _) as [Hin|Hout].
      * rewrite decide_True by lia. rewrite nth_lookup, lookup_take_lt, lookup_drop, <- nth_lookup by lia. f_equal. lia.
      * rewrite H2 by done. destruct (decide (off <= o < off + tot)); [by rewrite decide_True by lia|by rewrite decide_False by lia].
    + rewrite fn_lookup_insert_ne by (intros E; apply Ne; symmetry; by apply (wr_inj _ _ _ _ Hw)).
      rewrite H2 by done.
      assert (~ (off + tot <= o < off + tot + m)).
      { intros Hin. apply Ne. pose proof (Z.div_mod (off + tot) BSIZE ltac:(done)) as Ed.
        symmetry. apply (Z.div_unique o BSIZE _ (o - BSIZE * ((off + tot) / BSIZE))); lia. }
      destruct (decide (off <= o < off + tot)); [by rewrite decide_True by lia|by rewrite decide_False by lia].
Qed.

Lemma writei_loop s L v ino ip i off src nb :
  trans s L v ino -> ino !! ip = Some i -> i_dev i = ROOTDEV -> (length L < 7)%nat -> writable v L i nb ->
  0 <= off -> off + Z.of_nat (length src) <= nb * BSIZE -> nb <= MAXFILE ->
  exists s' v', loop (fun '(tot, off, src0) =>
      if tot <? Z.of_nat (length src)
      then
        blk <- bmap ip (off / BSIZE) ;;
        bp <- bread (i_dev i) blk ;;
        let m := Z.min (Z.of_nat (length src) - tot) (BSIZE - off mod BSIZE) in
        '(r, bytes) <- either_copyin src0 m ;;
        upd_data bp (fun d => splice d (Z.to_nat (off mod BSIZE)) bytes) ;;;
        if r =? -1
        then brelse bp ;;; ret (inr (tot, off))
        else log_write bp ;;; brelse bp ;;; ret (inl (u32 (tot + m), u32 (off + m), advance src0 m))
      else ret (inr (tot, off))) (0, off, Var src) s = Ret (Z.of_nat (length src), off + Z.of_nat (length src)) s' /\
    trans s' L v' ino /\ stored v v' i nb off src (Z.of_nat (length src)).
Proof.
  intros H Hi Hd HL Hw Hoff Hnb Hmax. set (n := Z.of_nat (length src)) in *.
  assert (HB : nb * BSIZE < 2 ^ 31) by (change MAXFILE with 268 in Hmax; unfold BSIZE; lia).
  apply (loop_measure _ (fun '(tot, o, src0) s1 => 0 <= tot <= n /\ o = off + tot /\ src0 = Var (drop (Z.to_nat tot) src) /\
      exists v1, trans s1 L v1 ino /\ stored v v1 i nb off src tot) (fun '(tot, _, _) _ => Z.to_nat (n - tot))
    (fun o => exists s' v', o = Ret (n, off + n) s' /\ trans s' L v' ino /\ stored v v' i nb off src n));
   [|split; [lia|]; split; [lia|]; split; [done|]; exists v; split; [done|split; [done|]]; intros o Ho; by rewrite decide_False by lia|lia].
  intros [[tot o] src0] s1 (Ht & -> & -> & v1 & Htr & Hst). destruct (Z.ltb_spec tot n) as [Hlt|Hge].
  - left. assert (Hq : 0 <= (off + tot) / BSIZE < nb) by (split; [apply Z.div_pos; [lia|done]|apply Z.div_lt_upper_bound; [done|lia]]).
    pose proof (stored_blk_of _ _ _ _ _ _ _ _ _ Hst Hw Hq) as Eblk.
    destruct (bmap_run s1 L v1 ino ip i ((off + tot) / BSIZE) nb Htr Hi Hd ltac:(lia) (stored_mapped _ _ _ _ _ _ _ _ Hst Hw) Hq) as (s2 & E2 & H2).
    krun. rewrite Hd, Eblk in *. destruct (proj2 (proj2 (wr_mapped _ _ _ _ Hw)) _ Hq) as (_ & HbL & Hdb).
    set (blk := blk_of v i ((off + tot) / BSIZE)) in *.
    destruct (trans_bread _ _ _ _ _ _ _ _ _ _ _ blk H2 HbL ltac:(lia) Hdb) as (bp & s3 & E3 & H3 & _). krun. cbn [either_copyin]. krun.
    set (m := Z.min (n - tot) (BSIZE - (off + tot) mod BSIZE)).
    pose proof (Z.mod_pos_bound (off + tot) BSIZE eq_refl) as Hr. assert (Hm : 0 < m <= n - tot) by (unfold m; lia).
    set (chunk := take (Z.to_nat m) (drop (Z.to_nat tot) src)).
    assert (Hlv : forall k, length (v1 k) = Z.to_nat BSIZE) by (intros k; by apply (trans_length _ _ _ _ _ _ _ _ _ _ _ k Htr)).
    destruct (trans_write _ _ _ _ _ _ _ _ _ _ _ bp blk (fun d => splice d (Z.to_nat ((off + tot) mod BSIZE)) chunk) H3) as (s4 & E4 & H4);
      [by apply elem_of_cons; left| |by apply (wr_B _ _ _ _ Hw)|].
    { cbv beta. rewrite length_splice; [apply Hlv|]. unfold chunk. rewrite Hlv, length_take, length_drop. unfold BSIZE in *. lia. }
    destruct (trans_brelse _ _ _ _ _ _ _ _ _ _ _ bp _ H4) as (s5 & E5 & H5).
    exists (tot + m, off + tot + m, Var (drop (Z.to_nat (tot + m)) src)), s5. split.
    + change (0 =? -1) with false. cbv iota. rewrite (write_steps bp _ _ _ _ E4). krun. rewrite !u32_small by lia.
      cbn [advance]. rewrite drop_drop, (Z2Nat.inj_add tot m) by lia. reflexivity.
    + split; [|lia]. split; [lia|]. split; [lia|]. split; [done|]. eexists. split; [exact H5|].
      apply (stored_step v v1 i nb off src tot L m); try done; unfold m; lia.
  - right. left. assert (tot = n) as -> by lia. eexists _, s1. split; [reflexivity|]. by exists s1, v1.
Qed.

(** The inode after a write that ends at [e]. *)
Definition grown (e : Z) (i : inode) : inode := set_i_size (Z.max (i_size i) e) i.

(** [v'] is [v] with [src] stored at [off] and the inode written back. *)
Record written (v v' : Z -> list Z) (i i' : inode) (nb off : Z) (src : list Z) : Prop := {
  wt_frame : forall k, ~ file_block v i nb k -> k <> IBLOCK (i_inum i) sb -> v' k = v k;
  wt_bytes : forall o, 0 <= o < nb * BSIZE -> file_byte v' i' o =
    if decide (off <= o < off + Z.of_nat (length src)) then nth (Z.to_nat (o - off)) src 0 else file_byte v i o;
  wt_inode : on_disk sb v' (i_inum i) = dinode_of i';
  wt_blocks : forall bn, 0 <= bn < nb -> blk_of v' i' bn = blk_of v i bn
}.

Lemma writei_run s L v ino ip i off src nb :
  trans s L v ino -> ino !! ip = Some i -> i_dev i = ROOTDEV -> (length L < 7)%nat -> writable v L i nb ->
  0 <= off <= i_size i -> off + Z.of_nat (length src) <= nb * BSIZE -> dinode_ok (dinode_of i) ->
  IBLOCK (i_inum i) sb ∉ L.*2 -> IBLOCK (i_inum i) sb ∈ B ->
  let n := Z.of_nat (length src) in
  let i' := grown (off + n) i in
  exists s' v', writei ip (Var src) off n s = Ret n s' /\ trans s' L v' (<[ip := i']> ino) /\ written v v' i i' nb off src.
Proof.
  intros H Hi Hd HL Hw Hoff Hnb Hok HIL HIB n i'. unfold writei.
  assert (Hmax : nb <= MAXFILE) by apply (wr_mapped _ _ _ _ Hw).
  assert (HB : nb * BSIZE <= MAXFILE * BSIZE < 2 ^ 31) by (change MAXFILE with 268 in *; unfold BSIZE; lia).
  rewrite (bind_Ret _ _ _ _ _ (trans_get_inode _ _ _ _ _ _ _ _ _ _ _ ip i H Hi)).
  rewrite (u32_small (off + n)) by lia. destruct (Z.gtb_spec off (i_size i)); [lia|]. destruct (Z.ltb_spec (off + n) off); [lia|].
  cbn [orb]. destruct (Z.gtb_spec (off + n) (MAXFILE * BSIZE)); [lia|].
  destruct (writei_loop s L v ino ip i off src nb H Hi Hd HL Hw ltac:(lia) Hnb Hmax) as (s1 & v1 & E1 & Ht1 & Hst).
  rewrite (bind_Ret _ _ _ _ _ E1). clear E1. fold n.
  rewrite (bind_Ret _ _ _ _ _ (trans_get_inode _ _ _ _ _ _ _ _ _ _ _ ip i Ht1 Hi)).
  assert (exists s2, (if off + n >? i_size i then upd_inode ip (set_i_size (off + n)) else ret tt) s1 = Ret tt s2 /\
    trans s2 L v1 (<[ip := i']> ino)) as (s2 & E2 & Ht2).
  { destruct (Z.gtb_spec (off + n) (i_size i)).
    - destruct (trans_upd_inode _ _ _ _ _ _ _ _ _ _ _ ip (set_i_size (off + n)) Ht1) as (s2 & E2 & Ht2). exists s2. split; [done|].
      rewrite (alter_insert_eq _ _ _ _ Hi) in Ht2. unfold i', grown. by rewrite Z.max_r by lia.
    - exists s1. split; [done|]. rewrite list_insert_id; [done|]. rewrite Hi. f_equal. unfold i', grown. rewrite Z.max_l by lia.
      by destruct i. }
  rewrite (bind_Ret _ _ _ _ _ E2).
  assert (Hi' : <[ip := i']> ino !! ip = Some i') by (apply list_lookup_insert_eq; by apply lookup_lt_Some in Hi).
  destruct (iupdate_run p pr s0 st size sb B s2 L v1 _ ip i' Ht2 Hi' Hd ltac:(lia) HIL HIB) as (s3 & E3 & Ht3).
  rewrite (bind_Ret _ _ _ _ _ E3). rewrite i32_small by lia. eexists s3, _. split; [reflexivity|]. split; [exact Ht3|].
  assert (Hblk : forall bn x, 0 <= bn < nb -> blk_of (<[IBLOCK (i_inum i') sb := x]> v1) i' bn = blk_of v i bn).
  { intros bn x Hbn. rewrite <- (stored_blk_of v v1 i nb off src n L bn Hst Hw Hbn). unfold blk_of.
    change (indirect i') with (indirect i). by rewrite fn_lookup_insert_ne by apply (not_eq_sym (wr_ino _ _ _ _ Hw)). }
  destruct Hst as [Hs1 Hs2]. constructor.
  - intros k Hk1 Hk2. rewrite fn_lookup_insert_ne by (change (i_inum i') with (i_inum i); congruence). by apply Hs1.
  - intros o Ho. unfold file_byte at 1.
    assert (Hq : 0 <= o / BSIZE < nb) by (split; [apply Z.div_pos; [lia|done]|apply Z.div_lt_upper_bound; [done|lia]]).
    rewrite Hblk by done. rewrite fn_lookup_insert_ne by (apply not_eq_sym, (wr_inode _ _ _ _ Hw); done). by apply Hs2.
  - unfold on_disk. change (i_inum i') with (i_inum i). rewrite fn_lookup_insert. apply rd_wr_dinode.
    + destruct Hok as (K1 & K2 & K3). split; [exact K1|]. split; [|exact K3]. cbn in *. lia.
    + rewrite (trans_length _ _ _ _ _ _ _ _ _ _ _ _ Ht1). apply dip_off_bound.
  - intros bn Hbn. by apply Hblk.
Qed.

(** The contents of a file. *)
Definition contents (v : Z -> list Z) (i : inode) : list Z := bytes_from v i 0 (Z.to_nat (i_size i)).

Lemma splice_contents v v' i i' off src :
  0 <= off <= i_size i -> i_size i' = Z.max (i_size i) (off + Z.of_nat (length src)) ->
  (forall o, 0 <= o < i_size i' -> file_byte v' i' o =
    if decide (off <= o < off + Z.of_nat (length src)) then nth (Z.to_nat (o - off)) src 0 else file_byte v i o) ->
  (contents v' i' = splice (contents v i) (Z.to_nat off) src).
Proof.
  intros Hoff Hsz W. apply list_eq. intros k. unfold contents, splice.
  assert (Hl : length (bytes_from v i 0 (Z.to_nat (i_size i))) = Z.to_nat (i_size i)) by apply length_bytes_from.
  assert (Hi' : Z.to_nat (i_size i') = Nat.max (Z.to_nat (i_size i)) (Z.to_nat off + length src)) by lia.
  destruct (decide (k < Z.to_nat (i_size i'))%nat) as [Hk|Hk].
  - rewrite bytes_from_lookup, W by lia. destruct (decide (k < Z.to_nat off)%nat); [|destruct (decide (k < Z.to_nat off + length src)%nat)].
    + rewrite decide_False, lookup_app_l, lookup_take_lt by (rewrite ?length_take; lia). by rewrite bytes_from_lookup by lia.
    + rewrite decide_True, lookup_app_r by (rewrite ?length_take; lia). rewrite length_take, Hl, Nat.min_l, lookup_app_l by lia.
      destruct (lookup_lt_is_Some_2 src (k - Z.to_nat off) ltac:(lia)) as [x Hx]. rewrite Hx. f_equal. apply nth_lookup_Some.
      rewrite <- Hx. f_equal. lia.
    + rewrite decide_False, lookup_app_r by (rewrite ?length_take; lia). rewrite length_take, Hl, Nat.min_l, lookup_app_r by lia.
      rewrite lookup_drop, bytes_from_lookup by lia. do 2 f_equal. lia.
  - rewrite !lookup_ge_None_2; [done| |rewrite length_bytes_from; lia].
    rewrite !length_app, length_take, length_drop, Hl. lia.
Qed.

Lemma written_contents v v' i nb off src :
  written v v' i (grown (off + Z.of_nat (length src)) i) nb off src -> 0 <= off <= i_size i ->
  off + Z.of_nat (length src) <= nb * BSIZE -> i_size i <= nb * BSIZE ->
  (contents v' (grown (off + Z.of_nat (length src)) i) = splice (contents v i) (Z.to_nat off) src).
Proof.
  intros [_ W _ _] Hoff Hnb Hsz. apply splice_contents; [done|done|]. unfold grown at 1. cbn [i_size set_i_size].
  intros o Ho. apply W. lia.
Qed.

Lemma size_bound n nb : nblocks n <= nb -> n <= nb * BSIZE.
Proof.
  unfold nblocks. intros H. pose proof (Z.mod_pos_bound (n + BSIZE - 1) BSIZE eq_refl).
  pose proof (Z.div_mod (n + BSIZE - 1) BSIZE ltac:(done)). unfold BSIZE in *. lia.
Qed.

(** [writei] of [src] at an offset inside the file, into blocks the file
    has, replaces the contents from that offset by [src], extending the file
    when the write ends beyond it, and writes the inode back to disk; no block
    outside the file and the inode changes. *)
Theorem writei_correct s L v ino ip i off src nb :
  trans s L v ino -> ino !! ip = Some i -> i_dev i = ROOTDEV -> (length L < 7)%nat -> writable v L i nb ->
  0 <= off <= i_size i -> off + Z.of_nat (length src) <= nb * BSIZE -> nblocks (i_size i) <= nb -> dinode_ok (dinode_of i) ->
  IBLOCK (i_inum i) sb ∉ L.*2 -> IBLOCK (i_inum i) sb ∈ B ->
  let n := Z.of_nat (length src) in
  exists s' v' i', writei ip (Var src) off n s = Ret n s' /\ trans s' L v' (<[ip := i']> ino) /\
    (contents v' i' = splice (contents v i) (Z.to_nat off) src) /\ i_size i' = Z.max (i_size i) (off + n) /\
    on_disk sb v' (i_inum i) = dinode_of i' /\
    (forall k, ~ file_block v i nb k -> k <> IBLOCK (i_inum i) sb -> v' k = v k).
Proof.
  intros H Hi Hd HL Hw Hoff Hnb Hnb2 Hok HIL HIB n.
  destruct (writei_run s L v ino ip i off src nb H Hi Hd HL Hw Hoff Hnb Hok HIL HIB) as (s' & v' & E & H' & W).
  exists s', v'. eexists. split; [exact E|]. split; [exact H'|].
  split; [apply (written_contents v v' i nb); [done..|by apply size_bound]|]. split; [done|]. split; apply W.
Qed.

(** C31: what [writei] has stored [readi] returns. *)
Theorem writei_readi s L v ino ip i off src nb :
  trans s L v ino -> ino !! ip = Some i -> i_dev i = ROOTDEV -> (length L < 7)%nat -> writable v L i nb ->
  0 <= off <= i_size i -> off + Z.of_nat (length src) <= nb * BSIZE -> nblocks (i_size i) <= nb -> dinode_ok (dinode_of i) ->
  IBLOCK (i_inum i) sb ∉ L.*2 -> IBLOCK (i_inum i) sb ∈ B ->
  let n := Z.of_nat (length src) in
  exists s' s'', writei ip (Var src) off n s = Ret n s' /\ readi ip (Var []) off n s' = Ret (n, src) s''.
Proof.
  intros H Hi Hd HL Hw Hoff Hnb Hnb2 Hok HIL HIB n.
  destruct (writei_run s L v ino ip i off src nb H Hi Hd HL Hw Hoff Hnb Hok HIL HIB) as (s' & v' & E & H' & [W1 W2 W3 W4]).
  change (Z.of_nat (length src)) with n in Hnb, E, H', W2, W3, W4. set (i' := grown (off + n) i) in *.
  assert (Hmax : nb <= MAXFILE) by apply (wr_mapped _ _ _ _ Hw).
  assert (HB : nb * BSIZE <= MAXFILE * BSIZE < 2 ^ 31) by (change MAXFILE with 268 in *; unfold BSIZE; lia).
  assert (Hn1 : nblocks (off + n) <= nb).
  { unfold nblocks. apply Z.lt_succ_r, Z.div_lt_upper_bound; [done|]. unfold BSIZE in *. lia. }
  pose proof (size_bound _ _ Hnb2) as Hsz.
  assert (Hn2 : nblocks (i_size i') <= nb) by (unfold i', grown; cbn [i_size set_i_size]; destruct (Z.max_spec (i_size i) (off + n)) as [[_ ->]|[_ ->]]; done).
  destruct (readi_run s' L v' _ ip i' off n H') as (s'' & E2 & _).
  - apply list_lookup_insert_eq. by apply lookup_lt_Some in Hi.
  - done.
  - done.
  - destruct (wr_mapped _ _ _ _ Hw) as (M1 & M2 & M3). split; [lia|]. split; [intros; apply M2; lia|].
    intros bn Hbn. rewrite W4 by lia. apply M3. lia.
  - unfold i', grown. cbn [i_size set_i_size]. lia.
  - lia.
  - lia.
  - unfold i', grown. cbn [i_size set_i_size]. lia.
  - exists s', s''. split; [done|]. rewrite E2.
    assert (readable i' off n = n) as -> by (unfold readable, i', grown; cbn [i_size set_i_size]; lia). do 2 f_equal.
    apply list_eq. intros k. destruct (decide (k < length src)%nat) as [Hk|Hk].
    + rewrite bytes_from_lookup by lia. rewrite W2, decide_True by lia.
      destruct (lookup_lt_is_Some_2 src k Hk) as [x Hx]. rewrite Hx. f_equal. apply nth_lookup_Some. rewrite <- Hx. f_equal. lia.
    + rewrite !lookup_ge_None_2; [done|lia|rewrite length_bytes_from; lia].
Qed.

End FileFacts.
