(* ===== verification/WriteFacts.v ===== *)
(** * Writing to a file that grows

    [writei] in full: a write into the blocks a file has and into blocks that
    [bmap] allocates for it on the way, direct ones, the indirect block and
    its entries, from a kernel variable, kernel memory or the memory of the
    process; and what the disk holds at the end of the file-system call. *)

From stdpp Require Import functions.
From S2P Require Import Prelude Machine State CString Kalloc Vm VmFacts VmUser Printf Sched Sleeplock Block Bio Store Log LogFacts Uio Fs Trans FsFacts FileFacts.

(** ** The blocks of a file *)

(** The block that holds block [bn] of the file; 0 when it has none. *)
Definition addr (v : Z -> list Z) (i : inode) (bn : Z) : Z :=
  if bn <? Z.of_nat NDIRECT then nth (Z.to_nat bn) (i_addrs i) 0
  else if indirect i =? 0 then 0
  else rd 4 (v (indirect i)) (Z.to_nat (4 * (bn - Z.of_nat NDIRECT))).

(** Byte [o] of the file; a block it does not have reads as zeros. *)
Definition byte (v : Z -> list Z) (i : inode) (o : Z) : Z :=
  let a := addr v i (o / BSIZE) in if a =? 0 then 0 else nth (Z.to_nat (o mod BSIZE)) (v a) 0.

Lemma blk_of_addr v i bn : addr v i bn <> 0 -> blk_of v i bn = addr v i bn.
Proof. unfold addr, blk_of. destruct (bn <? _); [done|]. by destruct (indirect i =? 0). Qed.

Lemma byte_file_byte v i o : addr v i (o / BSIZE) <> 0 -> file_byte v i o = byte v i o.
Proof. intros H. unfold file_byte, byte. rewrite blk_of_addr by done. by destruct (Z.eqb_spec (addr v i (o / BSIZE)) 0). Qed.

Lemma filter_ext_in {A} (P Q : A -> Prop) {DP : forall x, Decision (P x)} {DQ : forall x, Decision (Q x)} (l : list A) :
  (forall x, x ∈ l -> P x <-> Q x) -> filter P l = filter Q l.
Proof.
  induction l as [|x l IH]; intros H; [done|]. rewrite !filter_cons, IH by (intros y Hy; apply H; by right).
  pose proof (H x ltac:(by left)) as Hx. destruct (decide (P x)), (decide (Q x)); tauto.
Qed.

Lemma filter_none {A} (P : A -> Prop) {DP : forall x, Decision (P x)} (l : list A) : (forall x, x ∈ l -> ~ P x) -> filter P l = [].
Proof.
  induction l as [|x l IH]; intros H; [done|]. rewrite filter_cons, decide_False by (apply H; by left).
  apply IH. intros y Hy. apply H. by right.
Qed.

Lemma filter_head {A} (P : A -> Prop) {DP : forall x, Decision (P x)} (l : list A) x F :
  filter P l = x :: F -> exists l1 l2, l = l1 ++ x :: l2 /\ Forall (fun y => ~ P y) l1 /\ P x /\ F = filter P l2.
Proof.
  induction l as [|y l IH]; intros H; [done|]. rewrite filter_cons in H. destruct (decide (P y)) as [Hy|Hy].
  - injection H as -> <-. exists [], l. by split_and!.
  - destruct (IH H) as (l1 & l2 & -> & H1 & H2 & H3). exists (y :: l1), l2. split_and!; try done. by apply Forall_cons.
Qed.

Section Grow.
Context (st size : Z) (sb : superblock) (ds : Z).
Hypothesis layout : fs_layout st size sb ds.

Abbreviation used := (used sb).

(** The free blocks, in the order [balloc] takes them. *)
Definition free (v : Z -> list Z) : list Z := filter (fun b => used v b = false) (seqZ 0 (sb_size sb)).

Lemma free_elem v b : b ∈ free v <-> 0 <= b < sb_size sb /\ used v b = false.
Proof. unfold free. rewrite list_elem_of_filter, elem_of_seqZ. split; intros [? ?]; split; try done; lia. Qed.

Lemma free_ext v v' : (forall b, 0 <= b < sb_size sb -> used v' b = used v b) -> free v' = free v.
Proof. intros H. apply filter_ext_in. intros b Hb%elem_of_seqZ. by rewrite H by lia. Qed.

Lemma free_head v b F : free v = b :: F -> 0 <= b < sb_size sb /\ used v b = false /\ forall c, 0 <= c < b -> used v c = true.
Proof.
  intros H. assert (Hb : b ∈ free v) by (rewrite H; by left). apply free_elem in Hb as [Hb Hu]. split; [done|]. split; [done|].
  intros c Hc. destruct (filter_head _ _ _ _ H) as (l1 & l2 & El & H1 & _). rewrite Forall_lookup in H1.
  assert (Hx : seqZ 0 (sb_size sb) !! length l1 = Some b) by (rewrite El; by apply list_lookup_middle).
  apply lookup_seqZ in Hx as [Hx _]. pose proof (lookup_seqZ_lt 0 (sb_size sb) (Z.to_nat c) ltac:(lia)) as Hy.
  rewrite El, lookup_app_l in Hy by lia. apply H1 in Hy. rewrite Z2Nat.id, Z.add_0_l in Hy by lia. by destruct (used v c).
Qed.

Lemma free_tail v v' b F : free v = b :: F ->
  (forall c, 0 <= c < sb_size sb -> used v' c = bool_decide (c = b) || used v c) -> free v' = F.
Proof.
  intros H Hu. destruct (filter_head _ _ _ _ H) as (l1 & l2 & El & H1 & H2 & ->).
  pose proof (NoDup_seqZ 0 (sb_size sb)) as Hnd. rewrite El in Hnd.
  assert (Hin : forall c, c ∈ l1 ++ b :: l2 -> 0 <= c < sb_size sb) by (intros c; rewrite <- El, elem_of_seqZ; lia).
  apply NoDup_app in Hnd as (_ & Hn1 & Hn2). apply NoDup_cons in Hn2 as [Hn2 _].
  unfold free. rewrite El, filter_app, filter_cons. rewrite decide_False.
  2:{ rewrite Hu, bool_decide_true by (try done; apply Hin; rewrite elem_of_app, elem_of_cons; tauto). done. }
  replace (filter (fun c => used v' c = false) l1) with (@nil Z).
  - cbn [app]. apply filter_ext_in. intros c Hc. rewrite Hu by (apply Hin; rewrite elem_of_app, elem_of_cons; tauto).
    rewrite bool_decide_false by (intros ->; done). done.
  - symmetry. apply filter_none. intros c Hc. rewrite Hu by (apply Hin; rewrite elem_of_app; tauto).
    rewrite Forall_forall in H1. specialize (H1 c Hc). destruct (bool_decide (c = b)), (used v c); done.
Qed.

(** The blocks of the file and its indirect block are distinct data blocks in
    use, and the blocks before the data are in use. *)
Record addrs_ok (v : Z -> list Z) (i : inode) : Prop := {
  ao_meta : forall b, 0 <= b < ds -> used v b = true;
  ao_data : forall bn, 0 <= bn < MAXFILE -> addr v i bn <> 0 -> ds <= addr v i bn < sb_size sb /\ used v (addr v i bn) = true;
  ao_ind : indirect i <> 0 -> ds <= indirect i < sb_size sb /\ used v (indirect i) = true;
  ao_inj : forall a b, 0 <= a < MAXFILE -> 0 <= b < MAXFILE -> addr v i a <> 0 -> addr v i a = addr v i b -> a = b;
  ao_ne : forall bn, 0 <= bn < MAXFILE -> addr v i bn <> 0 -> addr v i bn <> indirect i;
  ao_length : length (i_addrs i) = (NDIRECT + 1)%nat
}.

(** The number of blocks a write to the blocks [bns] of the file allocates. *)
Definition need (v : Z -> list Z) (i : inode) (bns : list Z) : nat :=
  let holes := length (filter (fun bn => addr v i bn = 0) bns) in
  if decide (indirect i = 0 /\ Exists (fun bn => Z.of_nat NDIRECT <= bn) bns) then S holes else holes.

(** The blocks such a write changes, apart from that of the inode: the blocks
    the file has there, the indirect block when it gets entries, the first
    free blocks, and their part of the bitmap. *)
Definition touches (v : Z -> list Z) (i : inode) (bns : list Z) (k : Z) : Prop :=
  (exists bn, bn ∈ bns /\ addr v i bn <> 0 /\ k = addr v i bn) \/
  (exists bn, bn ∈ bns /\ Z.of_nat NDIRECT <= bn /\ addr v i bn = 0 /\ indirect i <> 0 /\ k = indirect i) \/
  (exists b, b ∈ take (need v i bns) (free v) /\ (k = b \/ k = BBLOCK b sb)).

(** From [v] and [i], where the blocks [bns] are to be written, allocation has
    led to [v'] and [i'], where only [bns'] are left. *)
Record grew (v : Z -> list Z) (i : inode) (bns : list Z) (v' : Z -> list Z) (i' : inode) (bns' : list Z) : Prop := {
  gr_ok : addrs_ok v' i';
  gr_inode : i' = set_i_addrs (i_addrs i') i;
  gr_free : exists A, free v = A ++ free v' /\ need v i bns = (length A + need v' i' bns')%nat;
  gr_touch : forall k, touches v' i' bns' k -> touches v i bns k;
  gr_frame : forall k, ~ touches v i bns k -> v' k = v k;
  gr_keep : forall bn, 0 <= bn < MAXFILE -> addr v i bn <> 0 -> addr v' i' bn = addr v i bn;
  gr_done : forall bn, bn ∈ bns -> bn ∉ bns' -> addr v' i' bn <> 0
}.

Lemma grew_refl v i bns : addrs_ok v i -> grew v i bns v i bns.
Proof. intros H. constructor; try done; [by destruct i|by exists []]. Qed.

Lemma grew_trans v i bns v1 i1 bns1 v2 i2 bns2 : Forall (fun bn => 0 <= bn < MAXFILE) bns ->
  grew v i bns v1 i1 bns1 -> grew v1 i1 bns1 v2 i2 bns2 -> grew v i bns v2 i2 bns2.
Proof.
  intros Hr [H1 H2 (A1 & H3 & H3') H4 H5 H6 H7] [K1 K2 (A2 & K3 & K3') K4 K5 K6 K7]. constructor.
  - done.
  - transitivity (set_i_addrs (i_addrs i2) i1); [done|]. by rewrite H2.
  - exists (A1 ++ A2). rewrite H3, K3, app_assoc. split; [done|]. rewrite H3', K3', length_app. lia.
  - auto.
  - intros k Hk. rewrite K5 by auto. by apply H5.
  - intros bn Hbn Hz. rewrite K6; [by apply H6|done|by rewrite H6].
  - intros bn Hb Hb2. destruct (decide (bn ∈ bns1)); [by apply K7|].
    rewrite K6; [by apply H7|by apply (proj1 (Forall_forall _ _) Hr)|by apply H7].
Qed.

Lemma need_nz v i bn l : addr v i bn <> 0 -> (Z.of_nat NDIRECT <= bn -> indirect i <> 0) -> need v i (bn :: l) = need v i l.
Proof.
  intros H Hi. unfold need. rewrite filter_cons, (decide_False (P := addr v i bn = 0)) by done. cbv zeta.
  destruct (decide (indirect i = 0 /\ Exists _ l)) as [[E1 E2]|E]; [by rewrite decide_True by (split; [done|by right])|].
  rewrite decide_False; [done|]. intros [E1 E2%Exists_cons]. destruct E2 as [E2|E2]; [by apply Hi|tauto].
Qed.

Lemma addr_indirect v i bn : addr v i bn <> 0 -> Z.of_nat NDIRECT <= bn -> indirect i <> 0.
Proof. unfold addr. destruct (Z.ltb_spec bn (Z.of_nat NDIRECT)); [lia|]. by destruct (Z.eqb_spec (indirect i) 0). Qed.

Lemma touches_mono v i bns k A v' i' bns' : free v = A ++ free v' -> need v i bns = (length A + need v' i' bns')%nat ->
  (exists b, b ∈ take (need v' i' bns') (free v') /\ (k = b \/ k = BBLOCK b sb)) -> touches v i bns k.
Proof.
  intros HA Hn (b & Hb & Hk). right. right. exists b. split; [|done]. rewrite HA, Hn, take_app_add by done.
  rewrite elem_of_app. by right.
Qed.

(** A block that the file has. *)
Lemma grew_none v i bn l : addrs_ok v i -> addr v i bn <> 0 -> grew v i (bn :: l) v i l.
Proof.
  intros H Ha. pose proof (need_nz v i bn l Ha (addr_indirect v i bn Ha)) as Hn. constructor; try done.
  - by destruct i.
  - exists []. by rewrite Hn.
  - intros k [(b & Hb & Hk)|[(b & Hb & Hk)|Hk]].
    + left. exists b. split; [by right|done].
    + right. left. exists b. split; [by right|done].
    + apply (touches_mono v i (bn :: l) k [] v i l); [done|by rewrite Hn|done].
  - intros b [->|Hb]%elem_of_cons Hb2; done.
Qed.

Lemma fresh v i b F : addrs_ok v i -> free v = b :: F ->
  ds <= b < sb_size sb /\ used v b = false /\ indirect i <> b /\ forall bn, 0 <= bn < MAXFILE -> addr v i bn <> b.
Proof.
  intros H HF. destruct (free_head v b F HF) as (Hb & Hu & _). pose proof (ly_size _ _ _ _ layout) as Hsz.
  assert (Hds : ds <= b).
  { destruct (Z.lt_ge_cases b ds) as [Hlt|]; [|done]. rewrite (ao_meta _ _ H b) in Hu by lia. done. }
  split; [lia|]. split; [done|]. split.
  - intros E. destruct (ao_ind _ _ H) as [_ Hi]; [lia|]. by rewrite E, Hu in Hi.
  - intros bn Hbn E. destruct (ao_data _ _ H bn Hbn) as [_ Hi]; [lia|]. by rewrite E, Hu in Hi.
Qed.

Lemma used_more v v' b0 b : (forall c, 0 <= c < sb_size sb -> used v' c = bool_decide (c = b0) || used v c) ->
  0 <= b < sb_size sb -> used v b = true -> used v' b = true.
Proof. intros H Hb Hu. rewrite H, Hu by done. apply orb_true_r. Qed.

Lemma need_hole v i bn l v' i' : addr v i bn = 0 -> (Z.of_nat NDIRECT <= bn -> indirect i <> 0) -> indirect i' = indirect i ->
  (forall b, b ∈ l -> addr v' i' b = addr v i b) -> need v i (bn :: l) = S (need v' i' l).
Proof.
  intros Ha Hi Ei Hl. unfold need. rewrite filter_cons, (decide_True (P := addr v i bn = 0)) by done. cbv zeta. cbn [length].
  rewrite (filter_ext_in (fun b => addr v' i' b = 0) (fun b => addr v i b = 0)) by (intros b Hb; by rewrite Hl). rewrite Ei.
  destruct (decide (indirect i = 0 /\ Exists _ l)) as [[E1 E2]|E]; [by rewrite decide_True by (split; [done|by right])|].
  rewrite decide_False; [done|]. intros [E1 E2%Exists_cons]. destruct E2 as [E2|E2]; [by apply Hi|tauto].
Qed.

(** [b0] becomes block [bn] of the file. *)
Lemma addrs_ok_add v i v' i' bn b0 F :
  addrs_ok v i -> free v = b0 :: F -> (forall c, 0 <= c < sb_size sb -> used v' c = bool_decide (c = b0) || used v c) ->
  (forall b, 0 <= b < MAXFILE -> addr v' i' b = if decide (b = bn) then b0 else addr v i b) ->
  indirect i' = indirect i -> length (i_addrs i') = (NDIRECT + 1)%nat -> addrs_ok v' i'.
Proof.
  intros H HF Hu Ha Ei Hl. destruct (fresh v i b0 F H HF) as (Hb0 & _ & Hi0 & Ha0). pose proof (ly_size _ _ _ _ layout) as Hsz.
  constructor; rewrite ?Ei.
  - intros b Hb. apply (used_more v v' b0 b Hu); [lia|by apply (ao_meta _ _ H)].
  - intros b Hb. rewrite Ha by done. destruct (decide (b = bn)) as [->|Hne]; intros Hz.
    + split; [done|]. rewrite Hu, bool_decide_true by (try done; lia). done.
    + destruct (ao_data _ _ H b Hb Hz) as [H1 H2]. split; [done|]. apply (used_more v v' b0 _ Hu); [lia|done].
  - intros Hz. destruct (ao_ind _ _ H Hz) as [H1 H2]. split; [done|]. apply (used_more v v' b0 _ Hu); [lia|done].
  - intros a b H1 H2. rewrite !Ha by done. destruct (decide (a = bn)), (decide (b = bn)); intros Hz E; try congruence.
    + symmetry in E. by destruct (Ha0 b H2).
    + by destruct (Ha0 a H1).
    + by apply (ao_inj _ _ H).
  - intros b Hb. rewrite Ha by done. destruct (decide (b = bn)); intros Hz; [by apply not_eq_sym|by apply (ao_ne _ _ H)].
  - done.
Qed.

Lemma grew_add v i v' i' bn l b0 F :
  addrs_ok v i -> free v = b0 :: F -> (forall c, 0 <= c < sb_size sb -> used v' c = bool_decide (c = b0) || used v c) ->
  (forall b, 0 <= b < MAXFILE -> addr v' i' b = if decide (b = bn) then b0 else addr v i b) ->
  indirect i' = indirect i -> length (i_addrs i') = (NDIRECT + 1)%nat -> i' = set_i_addrs (i_addrs i') i ->
  addr v i bn = 0 -> (Z.of_nat NDIRECT <= bn -> indirect i <> 0) ->
  (forall k, k <> b0 -> k <> BBLOCK b0 sb -> (Z.of_nat NDIRECT <= bn -> k <> indirect i) -> v' k = v k) ->
  NoDup (bn :: l) -> Forall (fun b => 0 <= b < MAXFILE) (bn :: l) ->
  grew v i (bn :: l) v' i' l.
Proof.
  intros H HF Hu Ha Ei Hl Hi Hz Hbn Hfr [Hn _]%NoDup_cons [Hb0 Hr]%Forall_cons. rewrite Forall_forall in Hr.
  assert (Hsame : forall b, b ∈ l -> addr v' i' b = addr v i b).
  { intros b Hb. rewrite Ha by auto. rewrite decide_False; [done|]. intros ->. done. }
  pose proof (need_hole v i bn l v' i' Hz Hbn Ei Hsame) as HN. pose proof (free_tail v v' b0 F HF Hu) as HF'.
  destruct (fresh v i b0 F H HF) as (Hds & _ & _ & Ha0). pose proof (ly_size _ _ _ _ layout) as Hsz. constructor.
  - by apply (addrs_ok_add v i v' i' bn b0 F).
  - done.
  - exists [b0]. rewrite HF, HF'. done.
  - intros k [(b & Hb & Hk)|[(b & Hb & Hk)|Hk]].
    + left. exists b. rewrite Hsame in Hk by done. split; [by right|done].
    + right. left. exists b. rewrite Hsame, Ei in Hk by done. split; [by right|done].
    + apply (touches_mono v i (bn :: l) k [b0] v' i' l); [by rewrite HF, HF'|done|done].
  - intros k Hk. apply Hfr.
    + intros ->. apply Hk. right. right. exists b0. rewrite HF, HN. split; [by left|by left].
    + intros ->. apply Hk. right. right. exists b0. rewrite HF, HN. split; [by left|by right].
    + intros Hge ->. apply Hk. right. left. exists bn. split; [by left|]. split_and!; try done. by apply Hbn.
  - intros b Hb Hb2. rewrite Ha by done. rewrite decide_False; [done|]. intros ->. done.
  - intros b [->|Hb]%elem_of_cons Hb2; [|done]. rewrite Ha, decide_True by done. lia.
Qed.

(** [b0] becomes the indirect block. *)
Lemma grew_ind v i v' i' bn l b0 F :
  addrs_ok v i -> free v = b0 :: F -> (forall c, 0 <= c < sb_size sb -> used v' c = bool_decide (c = b0) || used v c) ->
  (forall b, 0 <= b < MAXFILE -> addr v' i' b = addr v i b) ->
  indirect i = 0 -> indirect i' = b0 -> length (i_addrs i') = (NDIRECT + 1)%nat -> i' = set_i_addrs (i_addrs i') i ->
  Z.of_nat NDIRECT <= bn -> (forall k, k <> b0 -> k <> BBLOCK b0 sb -> v' k = v k) ->
  Forall (fun b => 0 <= b < MAXFILE) (bn :: l) ->
  grew v i (bn :: l) v' i' (bn :: l).
Proof.
  intros H HF Hu Ha Ei Ei' Hl Hi Hbn Hfr Hr. rewrite Forall_forall in Hr.
  pose proof (free_tail v v' b0 F HF Hu) as HF'. pose proof (ly_size _ _ _ _ layout) as Hsz.
  destruct (fresh v i b0 F H HF) as (Hds & _ & _ & Ha0).
  assert (HN : need v i (bn :: l) = S (need v' i' (bn :: l))).
  { unfold need. rewrite (filter_ext_in (fun b => addr v' i' b = 0) (fun b => addr v i b = 0)) by (intros b Hb; by rewrite Ha by auto).
    cbv zeta. rewrite (decide_True (P := indirect i = 0 /\ _)) by (split; [done|by left]). rewrite decide_False; [done|]. lia. }
  constructor.
  - constructor; rewrite ?Ei'.
    + intros b Hb. apply (used_more v v' b0 b Hu); [lia|by apply (ao_meta _ _ H)].
    + intros b Hb. rewrite Ha by done. intros Hz. destruct (ao_data _ _ H b Hb Hz) as [H1 H2]. split; [done|].
      apply (used_more v v' b0 _ Hu); [lia|done].
    + intros _. split; [done|]. rewrite Hu, bool_decide_true by (try done; lia). done.
    + intros a b H1 H2. rewrite !Ha by done. by apply (ao_inj _ _ H).
    + intros b Hb _. rewrite Ha by done. by apply Ha0.
    + done.
  - done.
  - exists [b0]. rewrite HF, HF'. done.
  - intros k [(b & Hb & Hk)|[(b & Hb & Hk)|Hk]].
    + left. exists b. by rewrite Ha in Hk by auto.
    + right. right. exists b0. rewrite HF, HN. split; [by left|]. left. rewrite Ei' in Hk. tauto.
    + apply (touches_mono v i (bn :: l) k [b0] v' i' (bn :: l)); [by rewrite HF, HF'|done|done].
  - intros k Hk. apply Hfr; intros ->; apply Hk; right; right; exists b0; rewrite HF, HN; (split; [by left|tauto]).
  - intros b Hb _. by apply Ha.
  - done.
Qed.

Definition same_bytes (v : Z -> list Z) (i : inode) (v' : Z -> list Z) (i' : inode) : Prop :=
  forall o, 0 <= o < MAXFILE * BSIZE -> byte v' i' o = byte v i o.

Lemma block_of_byte o : 0 <= o < MAXFILE * BSIZE -> 0 <= o / BSIZE < MAXFILE.
Proof. intros H. split; [apply Z.div_pos; [lia|done]|apply Z.div_lt_upper_bound; [done|lia]]. Qed.

(** A block that is allocated changes no byte of the file. *)
Lemma bytes_alloc v i v' i' b0 F : addrs_ok v i -> free v = b0 :: F ->
  (forall k, k <> b0 -> k <> BBLOCK b0 sb -> k <> indirect i -> v' k = v k) ->
  (forall b, 0 <= b < MAXFILE -> addr v' i' b = addr v i b \/ (addr v i b = 0 /\ addr v' i' b = b0 /\ v' b0 = zeros)) ->
  same_bytes v i v' i'.
Proof.
  intros H HF Hfr Ha o Ho. pose proof (block_of_byte o Ho) as Hb. unfold byte.
  destruct (fresh v i b0 F H HF) as (Hds & _ & _ & Ha0). pose proof (ly_size _ _ _ _ layout) as Hsz.
  destruct (Ha _ Hb) as [->|(-> & -> & ->)].
  - destruct (Z.eqb_spec (addr v i (o / BSIZE)) 0) as [|Hz]; [done|]. destruct (ao_data _ _ H _ Hb Hz) as [Hd _].
    rewrite Hfr; [done|by apply Ha0| |by apply (ao_ne _ _ H)].
    pose proof (BBLOCK_below _ _ _ ds b0 layout ltac:(lia)). lia.
  - unfold zeros. rewrite nth_zeros. by destruct (b0 =? 0).
Qed.

Lemma indirect_insert i bn b0 : (bn < NDIRECT)%nat -> indirect (set_i_addrs (<[bn := b0]> (i_addrs i)) i) = indirect i.
Proof. intros H. unfold indirect. cbn [i_addrs set_i_addrs]. apply nth_insert_ne. lia. Qed.

(** [bmap] of a direct block the file does not have. *)
Lemma grow_direct v i bn l b0 F :
  addrs_ok v i -> (forall k, length (v k) = Z.to_nat BSIZE) -> free v = b0 :: F -> addr v i bn = 0 -> bn < Z.of_nat NDIRECT ->
  NoDup (bn :: l) -> Forall (fun b => 0 <= b < MAXFILE) (bn :: l) ->
  let v' := allocated sb v b0 in
  let i' := set_i_addrs (<[Z.to_nat bn := b0]> (i_addrs i)) i in
  grew v i (bn :: l) v' i' l /\ same_bytes v i v' i' /\ addr v' i' bn = b0.
Proof.
  intros H Hlen HF Hz Hbn Hnd Hr v' i'. assert (Hb : 0 <= bn < MAXFILE) by (by apply Forall_cons in Hr as [? _]).
  destruct (fresh v i b0 F H HF) as (Hds & _ & Hi0 & Ha0). pose proof (ly_size _ _ _ _ layout) as Hsz.
  assert (Ei : indirect i' = indirect i) by (apply indirect_insert; lia).
  assert (Hfr : forall k, k <> b0 -> k <> BBLOCK b0 sb -> v' k = v k).
  { intros k H1 H2. unfold v', allocated. by rewrite !fn_lookup_insert_ne by done. }
  assert (Ha : forall b, 0 <= b < MAXFILE -> addr v' i' b = if decide (b = bn) then b0 else addr v i b).
  { intros b Hb2. unfold addr. rewrite Ei. destruct (Z.ltb_spec b (Z.of_nat NDIRECT)) as [Hlt|Hge].
    - unfold i'. cbn [i_addrs set_i_addrs]. destruct (decide (b = bn)) as [->|Hne].
      + apply nth_insert_eq. rewrite (ao_length _ _ H). lia.
      + apply nth_insert_ne. lia.
    - rewrite decide_False by lia. destruct (Z.eqb_spec (indirect i) 0) as [|Hnz]; [done|]. destruct (ao_ind _ _ H Hnz) as [Hd _].
      rewrite Hfr; [done|done|]. pose proof (BBLOCK_below _ _ _ ds b0 layout ltac:(lia)). lia. }
  split; [|split].
  - apply (grew_add v i v' i' bn l b0 F); try done.
    + intros c Hc. by apply (used_allocated st size sb v ds).
    + unfold i'. cbn [i_addrs set_i_addrs]. rewrite length_insert. apply H.
    + lia.
    + intros k H1 H2 _. by apply Hfr.
  - apply (bytes_alloc v i v' i' b0 F H HF); [intros k H1 H2 _; by apply Hfr|]. intros b Hb2. rewrite Ha by done.
    destruct (decide (b = bn)) as [->|]; [right|by left]. split; [done|]. split; [done|]. unfold v', allocated. by rewrite fn_lookup_insert.
  - rewrite Ha by done. by rewrite decide_True.
Qed.

(** [bmap] of a block behind an indirect block that the file does not have
    first gets that one. *)
Lemma grow_indirect v i bn l b0 F :
  addrs_ok v i -> (forall k, length (v k) = Z.to_nat BSIZE) -> free v = b0 :: F -> indirect i = 0 -> Z.of_nat NDIRECT <= bn ->
  Forall (fun b => 0 <= b < MAXFILE) (bn :: l) ->
  let v' := allocated sb v b0 in
  let i' := set_i_addrs (<[NDIRECT := b0]> (i_addrs i)) i in
  grew v i (bn :: l) v' i' (bn :: l) /\ same_bytes v i v' i' /\ indirect i' = b0.
Proof.
  intros H Hlen HF Hz Hbn Hr v' i'.
  destruct (fresh v i b0 F H HF) as (Hds & _ & Hi0 & Ha0). pose proof (ly_size _ _ _ _ layout) as Hsz.
  assert (Ei : indirect i' = b0).
  { unfold indirect, i'. cbn [i_addrs set_i_addrs]. apply nth_insert_eq. rewrite (ao_length _ _ H). lia. }
  assert (Hfr : forall k, k <> b0 -> k <> BBLOCK b0 sb -> v' k = v k).
  { intros k H1 H2. unfold v', allocated. by rewrite !fn_lookup_insert_ne by done. }
  assert (Ha : forall b, 0 <= b < MAXFILE -> addr v' i' b = addr v i b).
  { intros b Hb2. unfold addr. rewrite Ei, Hz. destruct (Z.ltb_spec b (Z.of_nat NDIRECT)) as [Hlt|Hge].
    - unfold i'. cbn [i_addrs set_i_addrs]. apply nth_insert_ne. lia.
    - destruct (Z.eqb_spec b0 0); [done|]. cbn [Z.eqb]. unfold v', allocated. rewrite fn_lookup_insert. apply rd_zeros. }
  split; [|split; [|done]].
  - apply (grew_ind v i v' i' bn l b0 F); try done.
    + intros c Hc. by apply (used_allocated st size sb v ds).
    + unfold i'. cbn [i_addrs set_i_addrs]. rewrite length_insert. apply H.
  - apply (bytes_alloc v i v' i' b0 F H HF); [intros k H1 H2 _; by apply Hfr|]. intros b Hb2. left. by apply Ha.
Qed.

(** [bmap] of an entry that the indirect block does not have. *)
Lemma grow_entry v i bn l b0 F :
  addrs_ok v i -> (forall k, length (v k) = Z.to_nat BSIZE) -> free v = b0 :: F -> addr v i bn = 0 -> indirect i <> 0 ->
  Z.of_nat NDIRECT <= bn -> NoDup (bn :: l) -> Forall (fun b => 0 <= b < MAXFILE) (bn :: l) ->
  let v1 := allocated sb v b0 in
  let v' := <[indirect i := wr 4 (v1 (indirect i)) (Z.to_nat (4 * (bn - Z.of_nat NDIRECT))) b0]> v1 in
  grew v i (bn :: l) v' i l /\ same_bytes v i v' i /\ addr v' i bn = b0.
Proof.
  intros H Hlen HF Hz Hnz Hbn Hnd Hr v1 v'. assert (Hb : 0 <= bn < MAXFILE) by (by apply Forall_cons in Hr as [? _]).
  destruct (fresh v i b0 F H HF) as (Hds & _ & Hi0 & Ha0). pose proof (ly_size _ _ _ _ layout) as Hsz.
  destruct (ao_ind _ _ H Hnz) as [Hid _]. pose proof (BBLOCK_below _ _ _ ds b0 layout ltac:(lia)) as HBB.
  assert (Hfr : forall k, k <> b0 -> k <> BBLOCK b0 sb -> k <> indirect i -> v' k = v k).
  { intros k H1 H2 H3. unfold v', v1, allocated. by rewrite !fn_lookup_insert_ne by done. }
  assert (E1 : v1 (indirect i) = v (indirect i)).
  { unfold v1, allocated. by rewrite !fn_lookup_insert_ne by (try done; lia). }
  assert (Ha : forall b, 0 <= b < MAXFILE -> addr v' i b = if decide (b = bn) then b0 else addr v i b).
  { intros b Hb2. unfold addr. destruct (Z.ltb_spec b (Z.of_nat NDIRECT)) as [Hlt|Hge]; [by rewrite decide_False by lia|].
    destruct (Z.eqb_spec (indirect i) 0); [done|]. unfold v'. rewrite fn_lookup_insert, E1. change MAXFILE with 268 in *.
    destruct (decide (b = bn)) as [->|Hne].
    - rewrite rd_wr_same by (rewrite Hlen; unfold BSIZE, NDIRECT in *; lia). apply Z.mod_small. change (256 ^ Z.of_nat 4) with (2 ^ 32). lia.
    - apply rd_wr_other. lia. }
  split; [|split].
  - apply (grew_add v i v' i bn l b0 F); try done.
    + intros c Hc. rewrite <- (used_allocated _ _ _ v ds b0 c layout Hlen Hds Hc). unfold FsFacts.used, v'.
      pose proof (BBLOCK_below _ _ _ ds c layout Hc). by rewrite fn_lookup_insert_ne by lia.
    + apply H.
    + by destruct i.
    + intros k H1 H2 H3. apply Hfr; auto.
  - apply (bytes_alloc v i v' i b0 F H HF Hfr). intros b Hb2. rewrite Ha by done.
    destruct (decide (b = bn)) as [->|]; [right|by left]. split; [done|]. split; [done|]. unfold v', v1, allocated.
    rewrite fn_lookup_insert_ne by done. by rewrite fn_lookup_insert.
  - rewrite Ha by done. by rewrite decide_True.
Qed.

(** ** A change of data *)

(** The bitmap and the indirect block are the same. *)
Definition same_meta (v : Z -> list Z) (i : inode) (v' : Z -> list Z) : Prop :=
  (forall b, 0 <= b < sb_size sb -> v' (BBLOCK b sb) = v (BBLOCK b sb)) /\
  (indirect i <> 0 -> v' (indirect i) = v (indirect i)).

Lemma same_addr v i v' bn : same_meta v i v' -> addr v' i bn = addr v i bn.
Proof.
  intros [_ H]. unfold addr. destruct (bn <? _); [done|]. destruct (Z.eqb_spec (indirect i) 0); [done|]. by rewrite H.
Qed.

Lemma same_used v i v' b : same_meta v i v' -> 0 <= b < sb_size sb -> used v' b = used v b.
Proof. intros [H _] Hb. unfold FsFacts.used. by rewrite H. Qed.

Lemma same_free v i v' : same_meta v i v' -> free v' = free v.
Proof. intros H. apply free_ext. intros b Hb. by apply (same_used v i). Qed.

Lemma same_need v i v' bns : same_meta v i v' -> need v' i bns = need v i bns.
Proof.
  intros H. unfold need.
  by rewrite (filter_ext_in (fun b => addr v' i b = 0) (fun b => addr v i b = 0)) by (intros b _; by rewrite (same_addr v i v')).
Qed.

Lemma same_touches v i v' bns k : same_meta v i v' -> touches v' i bns k -> touches v i bns k.
Proof.
  intros H. unfold touches. rewrite (same_need v i v'), (same_free v i v') by done.
  intros [(b & Hb)|[(b & Hb)|?]]; [left|right; left|by right; right]; exists b; by rewrite (same_addr v i v') in Hb.
Qed.

Lemma same_ok v i v' : same_meta v i v' -> addrs_ok v i -> addrs_ok v' i.
Proof.
  intros H [H1 H2 H3 H4 H5 H6]. pose proof (ly_size _ _ _ _ layout) as Hsz.
  constructor; intros *; rewrite ?(same_addr v i v') by done.
  - intros Hb. rewrite (same_used v i) by (try done; lia). by apply H1.
  - intros Hb Hz. destruct (H2 _ Hb Hz) as [? ?]. rewrite (same_used v i) by (try done; lia). done.
  - intros Hz. destruct (H3 Hz) as [? ?]. rewrite (same_used v i) by (try done; lia). done.
  - apply H4.
  - apply H5.
  - done.
Qed.

Lemma store_same v i bn x : addrs_ok v i -> 0 <= bn < MAXFILE -> addr v i bn <> 0 -> same_meta v i (<[addr v i bn := x]> v).
Proof.
  intros H Hb Hz. destruct (ao_data _ _ H bn Hb Hz) as [Hd _]. split.
  - intros b Hb2. pose proof (BBLOCK_below _ _ _ ds b layout Hb2). by rewrite fn_lookup_insert_ne by lia.
  - intros _. rewrite fn_lookup_insert_ne; [done|]. by apply (ao_ne _ _ H).
Qed.

(** Data stored in a block of the file. *)
Lemma grew_store v i bns v1 i1 bns1 bn x : grew v i bns v1 i1 bns1 -> 0 <= bn < MAXFILE -> addr v1 i1 bn <> 0 ->
  touches v i bns (addr v1 i1 bn) -> grew v i bns (<[addr v1 i1 bn := x]> v1) i1 bns1.
Proof.
  intros [H1 H2 (A & H3 & H3') H4 H5 H6 H7] Hb Hz Ht. pose proof (store_same v1 i1 bn x H1 Hb Hz) as Hs.
  constructor; [by apply (same_ok v1)|done|..].
  - exists A. by rewrite (same_free v1 i1 _ Hs), (same_need v1 i1 _ _ Hs).
  - intros k Hk. by apply H4, (same_touches _ _ _ _ _ Hs).
  - intros k Hk. rewrite fn_lookup_insert_ne; [by apply H5|]. intros <-. done.
  - intros b Hb2 Hz2. rewrite (same_addr v1 i1 _ _ Hs). by apply H6.
  - intros b Hb2 Hb3. rewrite (same_addr v1 i1 _ _ Hs). by apply H7.
Qed.

(** The first [tot] bytes of [data] are in the file, from [off]. *)
Definition wrote (v : Z -> list Z) (i : inode) (v1 : Z -> list Z) (i1 : inode) (off : Z) (data : list Z) (tot : Z) : Prop :=
  forall o, 0 <= o < MAXFILE * BSIZE ->
    byte v1 i1 o = if decide (off <= o < off + tot) then nth (Z.to_nat (o - off)) data 0 else byte v i o.

Lemma wrote_step v i v1 i1 v2 i2 off data tot m :
  wrote v i v1 i1 off data tot -> same_bytes v1 i1 v2 i2 -> addrs_ok v2 i2 -> (forall k, length (v2 k) = Z.to_nat BSIZE) ->
  let q := (off + tot) / BSIZE in
  let a := addr v2 i2 q in
  a <> 0 -> 0 <= off -> 0 <= tot -> 0 < m -> tot + m <= Z.of_nat (length data) -> off + tot + m <= MAXFILE * BSIZE ->
  m <= BSIZE - (off + tot) mod BSIZE ->
  wrote v i (<[a := splice (v2 a) (Z.to_nat ((off + tot) mod BSIZE)) (take (Z.to_nat m) (drop (Z.to_nat tot) data))]> v2) i2 off data (tot + m).
Proof.
  intros Hw Hsb Hok Hlen q a Hz Hoff Ht Hm Hd Hmax Hch o Ho. pose proof (Z.mod_pos_bound (off + tot) BSIZE eq_refl) as Hr.
  assert (Hq : 0 <= q < MAXFILE) by (apply block_of_byte; lia). pose proof (block_of_byte o Ho) as Hqo.
  pose proof (Z.mod_pos_bound o BSIZE eq_refl) as Hro. pose proof (Hsb o Ho) as Eo. rewrite Hw in Eo by done.
  assert (Hlc : length (take (Z.to_nat m) (drop (Z.to_nat tot) data)) = Z.to_nat m) by (rewrite length_take, length_drop; lia).
  unfold byte at 1. rewrite (same_addr v2 i2) by (by apply store_same). unfold byte in Eo at 1.
  destruct (decide (o / BSIZE = q)) as [Eq|Ne].
  - rewrite Eq in Eo |- *. fold a in Eo |- *. destruct (Z.eqb_spec a 0); [done|]. rewrite fn_lookup_insert.
    unfold q in Eq. pose proof (div_mod_same o (off + tot) ltac:(lia) Eq) as Ed.
    rewrite nth_splice, Hlc by (rewrite Hlen, Hlc; unfold BSIZE in *; lia). match goal with |- (if ?d then _ else _) = _ => destruct d as [Hin|Hout] end.
    + rewrite decide_True by lia. rewrite nth_lookup, lookup_take_lt, lookup_drop, <- nth_lookup by lia. f_equal. lia.
    + rewrite Eo. destruct (decide (off <= o < off + tot)); [by rewrite decide_True by lia|by rewrite decide_False by lia].
  - transitivity (byte v2 i2 o).
    + unfold byte. destruct (Z.eqb_spec (addr v2 i2 (o / BSIZE)) 0) as [|Hnz]; [done|].
      rewrite fn_lookup_insert_ne; [done|]. intros E. apply Ne. symmetry. by apply (ao_inj _ _ Hok).
    + unfold byte. rewrite Eo.
      assert (~ (off + tot <= o < off + tot + m)).
      { intros Hin. apply Ne. pose proof (Z.div_mod (off + tot) BSIZE ltac:(done)) as Ed.
        symmetry. apply (Z.div_unique o BSIZE _ (o - BSIZE * q)); unfold q in *; lia. }
      destruct (decide (off <= o < off + tot)); [by rewrite decide_True by lia|by rewrite decide_False by lia].
Qed.
End Grow.

(** The blocks of the file that hold the bytes [off .. off + n). *)
Definition span (off n : Z) : list Z :=
  seqZ (off / BSIZE) (if n =? 0 then 0 else (off + n - 1) / BSIZE - off / BSIZE + 1).

Lemma span_step o k : 0 <= o -> 0 < k ->
  let m := Z.min k (BSIZE - o mod BSIZE) in span o k = o / BSIZE :: span (o + m) (k - m).
Proof.
  intros Ho Hk m. pose proof (Z.mod_pos_bound o BSIZE eq_refl) as Hr. pose proof (Z.div_mod o BSIZE ltac:(done)) as Ed.
  unfold span. destruct (Z.eqb_spec k 0); [lia|].
  pose proof (Z.div_le_mono o (o + k - 1) BSIZE eq_refl ltac:(lia)) as Hle. rewrite seqZ_cons by lia. f_equal.
  destruct (Z.eqb_spec (k - m) 0) as [E|E].
  - assert ((o + k - 1) / BSIZE = o / BSIZE) as ->.
    { symmetry. apply (Z.div_unique _ _ _ (o mod BSIZE + k - 1)); lia. }
    by replace (Z.pred _) with 0 by lia.
  - assert (Em : m = BSIZE - o mod BSIZE) by lia.
    assert ((o + m) / BSIZE = o / BSIZE + 1) as ->.
    { symmetry. apply (Z.div_unique _ _ _ 0); unfold BSIZE in *; lia. }
    replace (o + m + (k - m) - 1) with (o + k - 1) by lia. f_equal; lia.
Qed.

Lemma span_range off n : 0 <= off -> 0 <= n -> off + n <= MAXFILE * BSIZE -> Forall (fun b => 0 <= b < MAXFILE) (span off n).
Proof.
  intros H1 H2 H3. apply Forall_forall. intros b Hb%elem_of_seqZ. destruct (Z.eqb_spec n 0); [lia|].
  pose proof (Z.div_pos off BSIZE H1 eq_refl). pose proof (block_of_byte (off + n - 1) ltac:(lia)). lia.
Qed.

Section Writing.
Context `{LAY : Layout} `{DD : DiskDriver}.
Context (p : nat) (pr : proc) (s0 : kstate) (st size : Z) (sb : superblock) (B : list Z) (ds : Z).
Hypothesis layout : fs_layout st size sb ds.

Abbreviation trans := (trans p pr s0 st size sb B).
Abbreviation free := (free sb).
Abbreviation touches := (touches sb).
Abbreviation addrs_ok := (addrs_ok sb ds).
Abbreviation grew := (grew sb ds).

(** [balloc] when the write still needs a block. *)
Lemma balloc_next s L v ino i bns :
  trans s L v ino -> addrs_ok v i -> (0 < need v i bns <= length (free v))%nat -> (forall k, touches v i bns k -> k ∈ B) ->
  (length L < 7)%nat -> (forall k, k ∈ L.*2 -> indirect i <> 0 /\ k = indirect i) ->
  exists b0 F s', free v = b0 :: F /\ balloc ROOTDEV s = Ret b0 s' /\ trans s' L (allocated sb v b0) ino /\
    touches v i bns b0.
Proof.
  intros H Hok Hn HB HL Hun. destruct (free v) as [|b0 F] eqn:HF; [cbn in Hn; lia|].
  destruct (fresh _ _ _ _ layout v i b0 F Hok HF) as (Hds & Hu & Hi & _). pose proof (ly_size _ _ _ _ layout) as Hsz.
  destruct (free_head _ _ _ _ HF) as (Hb & _ & Hall).
  assert (Ht : forall k, k = b0 \/ k = BBLOCK b0 sb -> touches v i bns k).
  { intros k Hk. right. right. exists b0. split; [|done]. rewrite HF. destruct (need v i bns); [lia|by left]. }
  destruct (balloc_run p pr s0 st size sb B s L v ino ds b0 H layout Hb Hall Hu HL) as (s' & E & H').
  - intros b Hb2 Hin%Hun. destruct Hin as [Hnz Hin]. destruct (ao_ind _ _ _ _ Hok Hnz) as [Hd _].
    pose proof (BBLOCK_below _ _ _ ds b layout Hb2). lia.
  - intros [_ Hin]%Hun. done.
  - apply HB, Ht. by right.
  - apply HB, Ht. by left.
  - exists b0, F, s'. split_and!; try done. apply Ht. by left.
Qed.

Lemma need_pos v i bn l : addr v i bn = 0 -> (0 < need v i (bn :: l))%nat.
Proof.
  intros H. unfold need. rewrite filter_cons, (decide_True (P := addr v i bn = 0)) by done. cbv zeta. cbn [length].
  destruct (decide _); lia.
Qed.

Lemma need_indirect v i bn l : indirect i = 0 -> Z.of_nat NDIRECT <= bn -> (0 < need v i (bn :: l))%nat.
Proof. intros H Hb. apply need_pos. unfold addr. destruct (Z.ltb_spec bn (Z.of_nat NDIRECT)); [lia|]. by rewrite H. Qed.

(** The part of [bmap] that looks in the indirect block. *)
Lemma bmap_entry s v ino i bn l :
  trans s [] v ino -> addrs_ok v i -> NoDup (bn :: l) -> Forall (fun b => 0 <= b < MAXFILE) (bn :: l) ->
  (need v i (bn :: l) <= length (free v))%nat -> (forall k, touches v i (bn :: l) k -> k ∈ B) ->
  indirect i <> 0 -> Z.of_nat NDIRECT <= bn ->
  let o := Z.to_nat (4 * (bn - Z.of_nat NDIRECT)) in
  exists s' v', (bp <- bread ROOTDEV (indirect i) ;;
      d <- buf_data bp ;;
      let addr := rd 4 d o in
      addr <- (if addr =? 0
               then
                 addr <- balloc ROOTDEV ;;
                 upd_data bp (fun d => wr 4 d o addr) ;;;
                 log_write bp ;;;
                 ret addr
               else ret addr) ;;
      brelse bp ;;;
      ret addr) s = Ret (addr v' i bn) s' /\ trans s' [] v' ino /\ grew v i (bn :: l) v' i l /\ same_bytes v i v' i /\
    addr v' i bn <> 0 /\ touches v i (bn :: l) (addr v' i bn).
Proof.
  intros H Hok Hnd Hr Hn HB Hnz Hbn o. destruct (ao_ind _ _ _ _ Hok Hnz) as [Hd _]. pose proof (ly_size _ _ _ _ layout) as Hsz.
  destruct (trans_bread _ _ _ _ _ _ _ _ _ _ _ (indirect i) H (not_elem_of_nil _) ltac:(cbn; lia)) as (bp & s1 & E1 & H1 & _); [blk_ok|].
  assert (Hin : (bp, indirect i) ∈ [(bp, indirect i)]) by (by apply elem_of_cons; left).
  rewrite (bind_Ret _ _ _ _ _ E1), (bind_Ret _ _ _ _ _ (trans_data _ _ _ _ _ _ _ _ _ _ _ bp _ H1 Hin)).
  assert (Ea : addr v i bn = rd 4 (v (indirect i)) o).
  { unfold addr. destruct (Z.ltb_spec bn (Z.of_nat NDIRECT)); [lia|]. by destruct (Z.eqb_spec (indirect i) 0). }
  cbv zeta. rewrite <- Ea. destruct (Z.eqb_spec (addr v i bn) 0) as [Hz|Hz].
  - destruct (balloc_next s1 [(bp, indirect i)] v ino i (bn :: l) H1 Hok) as (b0 & F & s2 & HF & E2 & H2 & Ht);
      [split; [by apply need_pos|done]|done|cbn; lia|intros k Hk%list_elem_of_singleton; done|].
    assert (Hlen : forall k, length (v k) = Z.to_nat BSIZE) by (intros k; by apply (trans_length _ _ _ _ _ _ _ _ _ _ _ k H)).
    destruct (grow_entry st size sb ds layout v i bn l b0 F Hok Hlen HF Hz Hnz Hbn Hnd Hr) as (Hg & Hsb & Ha).
    destruct (trans_write _ _ _ _ _ _ _ _ _ _ _ bp _ (fun d => wr 4 d o b0) H2 Hin) as (s3 & E3 & H3).
    { cbv beta. rewrite length_wr. by apply (trans_length _ _ _ _ _ _ _ _ _ _ _ _ H2). }
    { apply HB. right. left. exists bn. split; [by left|done]. }
    destruct (trans_brelse _ _ _ _ _ _ _ _ _ _ _ bp _ H3) as (s4 & E4 & H4).
    eexists s4, _. split; [|split; [exact H4|]; split; [exact Hg|]; split; [exact Hsb|]; fold o in Ha; rewrite Ha].
    + fold o in Ha. rewrite Ha.
      assert (E : (addr <- balloc ROOTDEV ;; upd_data bp (fun d => wr 4 d o addr) ;;; log_write bp ;;; ret addr) s1 = Ret b0 s3).
      { rewrite (bind_Ret _ _ _ _ _ E2). by rewrite (write_steps bp _ _ _ _ E3). }
      by rewrite (bind_Ret _ _ _ _ _ E), (bind_Ret _ _ _ _ _ E4).
    + split; [|done]. destruct (fresh _ _ _ _ layout v i b0 F Hok HF). lia.
  - destruct (trans_brelse _ _ _ _ _ _ _ _ _ _ _ bp _ H1) as (s2 & E2 & H2). exists s2, v.
    split; [unfold ret at 1; unfold bind at 1; cbn [bindO]; by rewrite (bind_Ret _ _ _ _ _ E2)|].
    split; [done|]. split; [by apply grew_none|]. split; [done|]. split; [done|]. left. exists bn. split; [by left|done].
Qed.

(** [bmap] of block [bn] returns the block that holds it, allocating what the
    file does not have, and changes no byte of the file. *)
Lemma bmap_grow s v ino ip i bn l :
  trans s [] v ino -> ino !! ip = Some i -> i_dev i = ROOTDEV -> addrs_ok v i ->
  NoDup (bn :: l) -> Forall (fun b => 0 <= b < MAXFILE) (bn :: l) ->
  (need v i (bn :: l) <= length (free v))%nat -> (forall k, touches v i (bn :: l) k -> k ∈ B) ->
  exists s' v' i', bmap ip bn s = Ret (addr v' i' bn) s' /\ trans s' [] v' (<[ip := i']> ino) /\
    grew v i (bn :: l) v' i' l /\ same_bytes v i v' i' /\ addr v' i' bn <> 0 /\ touches v i (bn :: l) (addr v' i' bn).
Proof.
  intros H Hi Hd Hok Hnd Hr Hn HB. pose proof (ly_size _ _ _ _ layout) as Hsz.
  assert (Hb : 0 <= bn < MAXFILE) by (by apply Forall_cons in Hr as [? _]).
  assert (Hlen : forall k, length (v k) = Z.to_nat BSIZE) by (intros k; by apply (trans_length _ _ _ _ _ _ _ _ _ _ _ k H)).
  unfold bmap. rewrite (bind_Ret _ _ _ _ _ (trans_get_inode _ _ _ _ _ _ _ _ _ _ _ ip i H Hi)). rewrite Hd.
  destruct (Z.ltb_spec bn (Z.of_nat NDIRECT)) as [Hlt|Hge].
  - assert (Ea : addr v i bn = nth (Z.to_nat bn) (i_addrs i) 0) by (unfold addr; by destruct (Z.ltb_spec bn (Z.of_nat NDIRECT)); [|lia]).
    cbv zeta. rewrite <- Ea. destruct (Z.eqb_spec (addr v i bn) 0) as [Hz|Hz].
    + destruct (balloc_next s [] v ino i (bn :: l) H Hok) as (b0 & F & s1 & HF & E1 & H1 & Ht);
        [split; [by apply need_pos|done]|done|cbn; lia|intros k Hk; by apply not_elem_of_nil in Hk|].
      destruct (grow_direct st size sb ds layout v i bn l b0 F Hok Hlen HF Hz Hlt Hnd Hr) as (Hg & Hsb & Ha).
      destruct (trans_upd_inode _ _ _ _ _ _ _ _ _ _ _ ip (fun ino => set_i_addrs (<[Z.to_nat bn := b0]> (i_addrs ino)) ino) H1) as (s2 & E2 & H2).
      rewrite (alter_insert_eq _ _ _ _ Hi) in H2. eexists s2, _, _. rewrite Ha.
      split; [rewrite (bind_Ret _ _ _ _ _ E1); unfold set_addr; by rewrite (bind_Ret _ _ _ _ _ E2)|].
      split; [exact H2|]. split; [exact Hg|]. split; [exact Hsb|]. split; [|done].
      destruct (fresh _ _ _ _ layout v i b0 F Hok HF). lia.
    + exists s, v, i. rewrite list_insert_id by done. split; [done|]. split; [done|]. split; [by apply grew_none|].
      split; [done|]. split; [done|]. left. exists bn. split; [by left|done].
  - cbv zeta. destruct (Z.ltb_spec (bn - Z.of_nat NDIRECT) NINDIRECT); [|unfold MAXFILE in *; lia].
    change (nth NDIRECT (i_addrs i) 0) with (indirect i). destruct (Z.eqb_spec (indirect i) 0) as [Hz|Hz].
    + destruct (balloc_next s [] v ino i (bn :: l) H Hok) as (b0 & F & s1 & HF & E1 & H1 & Ht);
        [split; [by apply need_indirect|done]|done|cbn; lia|intros k Hk; by apply not_elem_of_nil in Hk|].
      destruct (grow_indirect st size sb ds layout v i bn l b0 F Hok Hlen HF Hz Hge Hr) as (Hg & Hsb & Ei).
      destruct (trans_upd_inode _ _ _ _ _ _ _ _ _ _ _ ip (fun ino => set_i_addrs (<[NDIRECT := b0]> (i_addrs ino)) ino) H1) as (s2 & E2 & H2).
      rewrite (alter_insert_eq _ _ _ _ Hi) in H2. set (i1 := set_i_addrs (<[NDIRECT := b0]> (i_addrs i)) i) in *.
      set (v1 := allocated sb v b0) in *.
      assert (E : (addr <- balloc ROOTDEV ;; set_addr ip NDIRECT addr ;;; ret addr) s = Ret b0 s2)
        by (rewrite (bind_Ret _ _ _ _ _ E1); unfold set_addr; by rewrite (bind_Ret _ _ _ _ _ E2)).
      rewrite (bind_Ret _ _ _ _ _ E). pose proof Hg as [Hok1 _ (A & HA & HA') Ht1 _ _ _].
      destruct (bmap_entry s2 v1 _ i1 bn l H2 Hok1 Hnd Hr) as (s3 & v3 & E3 & H3 & Hg3 & Hsb3 & Hz3 & Ht3); [..|done|].
      { rewrite HA, HA', length_app in Hn. lia. }
      { intros k Hk. by apply HB, Ht1. }
      { rewrite Ei. destruct (fresh _ _ _ _ layout v i b0 F Hok HF). lia. }
      rewrite Ei in E3. exists s3, v3, i1. split; [exact E3|]. split; [done|]. split; [by apply (grew_trans _ _ v i _ v1 i1 (bn :: l))|].
      split; [|split; [done|by apply Ht1]]. intros o Ho. rewrite Hsb3, Hsb by done. done.
    + destruct (bmap_entry s v ino i bn l H Hok Hnd Hr Hn HB Hz Hge) as (s3 & v3 & E3 & H3 & Hg3 & Hsb3 & Hz3 & Ht3).
      exists s3, v3, i. rewrite list_insert_id by done. split; [exact E3|]. done.
Qed.

(** ** The source of a write *)

(** The bytes [data] are at [src]. *)
Definition source (src : place) (data : list Z) : Prop :=
  let n := Z.of_nat (length data) in
  match src with
  | User va =>
      let root := p_pagetable pr in
      0 <= va /\ va + n + PGSIZE <= 2 ^ 64 /\ (exists fl, vm_inv s0 root fl) /\
      accessible (aspace (k_mem s0) root) va (length data) /\ uread (k_mem s0) root va (length data) = data
  | Kernel pa => 0 <= pa /\ pa + n < 2 ^ 64 /\ rdbytes (k_mem s0) pa (length data) = data
  | Var l => take (length data) l = data
  end.

Lemma trans_mem s L v ino : trans s L v ino -> k_mem s = k_mem s0 /\ k_freelist s = k_freelist s0.
Proof.
  intros [(P & d & w & lg & bs & H & _) _ _]. destruct (st_same _ _ _ _ _ _ _ _ _ _ H) as [vd E].
  split; [rewrite E; reflexivity|rewrite E; reflexivity].
Qed.

Lemma rdbytes_app m a n1 n2 : rdbytes m a (n1 + n2) = rdbytes m a n1 ++ rdbytes m (a + Z.of_nat n1) n2.
Proof.
  unfold rdbytes. rewrite seq_app, map_app. f_equal. rewrite map_seq_shift.
  apply map_ext. intros k. do 2 f_equal. lia.
Qed.

(** [either_copyin] of the next [m] bytes. *)
Lemma copy_next s L v ino src data m :
  trans s L v ino -> source src data -> 0 <= m <= Z.of_nat (length data) ->
  either_copyin src m s = Ret (0, take (Z.to_nat m) data) s /\ source (advance src m) (drop (Z.to_nat m) data).
Proof.
  intros H Hs Hm. assert (El : length data = (Z.to_nat m + length (drop (Z.to_nat m) data))%nat) by (rewrite length_drop; lia).
  destruct (trans_mem _ _ _ _ H) as [Em Ef]. unfold source in *. destruct src as [va|pa|l]; cbn [advance either_copyin].
  - destruct Hs as (Hva & Hmax & [fl Hvm] & Hacc & Hrd). rewrite El in Hacc, Hrd. rewrite uread_app in Hrd.
    rewrite Z2Nat.id in Hrd by lia.
    assert (Hl : length (uread (k_mem s0) (p_pagetable pr) va (Z.to_nat m)) = Z.to_nat m) by (unfold uread; by rewrite length_map, length_seq).
    assert (Et : uread (k_mem s0) (p_pagetable pr) va (Z.to_nat m) = take (Z.to_nat m) data).
    { rewrite <- Hrd at 1. by rewrite take_app_length'. }
    split.
    + destruct (trans_alone _ _ _ _ _ _ _ _ _ _ _ H) as (_ & Hc & Hp & _).
      assert (E1 : curproc s = Ret p s) by (unfold curproc; by rewrite Hc).
      assert (E2 : get_proc p s = Ret pr s) by (unfold get_proc; by rewrite Hp). rewrite (bind_Ret _ _ _ _ _ E1), (bind_Ret _ _ _ _ _ E2).
      assert (Hvm' : vm_inv s (p_pagetable pr) fl) by (revert Hvm; unfold vm_inv, tree_ok, free_pages; by rewrite Em, Ef).
      destruct (copyin_spec s (p_pagetable pr) fl va (Z.to_nat m) Hvm' Hva ltac:(lia)) as (r & b & E & Hr).
      rewrite Z2Nat.id in E by lia. rewrite E. rewrite Em in Hr. destruct Hr as [(-> & _ & ->)|[_ Hn]]; [by rewrite Et|].
      destruct Hn. intros k Hk. apply Hacc. lia.
    + rewrite u64_small by (unfold PGSIZE in *; lia). split; [lia|]. split; [lia|]. split; [by exists fl|]. split.
      * intros k Hk. rewrite <- Z.add_assoc. apply Hacc. lia.
      * assert (Ed : data = uread (k_mem s0) (p_pagetable pr) va (Z.to_nat m) ++
            uread (k_mem s0) (p_pagetable pr) (va + m) (length (drop (Z.to_nat m) data))) by done.
        rewrite Ed at 2. by rewrite drop_app_length'.
  - destruct Hs as (Hpa & Hmax & Hrd). rewrite El, rdbytes_app in Hrd. rewrite Z2Nat.id in Hrd by lia.
    assert (Hl : length (rdbytes (k_mem s0) pa (Z.to_nat m)) = Z.to_nat m) by (unfold rdbytes; by rewrite length_map, length_seq).
    split.
    + unfold gets, bind, bindO. rewrite Em. unfold ret. do 2 f_equal. rewrite <- Hrd at 1. by rewrite take_app_length'.
    + rewrite u64_small by lia. split; [lia|]. split; [lia|].
      assert (Ed : data = rdbytes (k_mem s0) pa (Z.to_nat m) ++ rdbytes (k_mem s0) (pa + m) (length (drop (Z.to_nat m) data))) by done.
      rewrite Ed at 2. by rewrite drop_app_length'.
  - assert (Hll : (length data <= length l)%nat) by (rewrite <- Hs at 1; rewrite length_take; lia). split.
    + unfold ret. do 2 f_equal. rewrite <- Hs, take_take. by rewrite Nat.min_l by lia.
    + rewrite <- Hs at 2. rewrite skipn_firstn_comm, length_drop. done.
Qed.

(** ** [writei] *)

(** One chunk of a write goes to block [a]. *)
Lemma write_chunk {X Y} (bad : Y) (next : X) s v ino a src data o m :
  trans s [] v ino -> a ∈ B -> source src data -> 0 < m <= Z.of_nat (length data) -> m <= BSIZE - o mod BSIZE ->
  exists s', (bp <- bread ROOTDEV a ;;
      '(r, bytes) <- either_copyin src m ;;
      upd_data bp (fun d => splice d (Z.to_nat (o mod BSIZE)) bytes) ;;;
      if r =? -1
      then brelse bp ;;; ret (inr bad)
      else log_write bp ;;; brelse bp ;;; ret (inl next)) s = Ret (inl next) s' /\
    trans s' [] (<[a := splice (v a) (Z.to_nat (o mod BSIZE)) (take (Z.to_nat m) data)]> v) ino.
Proof.
  intros H HB Hsrc Hm Ho. pose proof (Z.mod_pos_bound o BSIZE eq_refl) as Hr.
  destruct (trans_bread _ _ _ _ _ _ _ _ _ _ _ a H (not_elem_of_nil _) ltac:(cbn; lia)
    (trans_block _ _ _ _ _ _ _ _ _ _ _ a H HB)) as (bp & s1 & E1 & H1 & _).
  rewrite (bind_Ret _ _ _ _ _ E1). destruct (copy_next s1 _ _ _ src data m H1 Hsrc ltac:(lia)) as [E2 _].
  rewrite (bind_Ret _ _ _ _ _ E2). change (0 =? -1) with false. cbv iota.
  destruct (trans_write _ _ _ _ _ _ _ _ _ _ _ bp a (fun d => splice d (Z.to_nat (o mod BSIZE)) (take (Z.to_nat m) data)) H1) as (s2 & E3 & H2);
    [by apply elem_of_cons; left| |done|].
  { cbv beta. pose proof (trans_length _ _ _ _ _ _ _ _ _ _ _ a H) as Hl.
    rewrite length_splice; [done|]. rewrite Hl, length_take. unfold BSIZE in *. lia. }
  destruct (trans_brelse _ _ _ _ _ _ _ _ _ _ _ bp _ H2) as (s3 & E4 & H3).
  exists s3. split; [|done]. by rewrite (write_steps bp _ _ _ _ E3), (bind_Ret _ _ _ _ _ E4).
Qed.

Lemma writei_loop_grow s v ino ip i off src data :
  trans s [] v ino -> ino !! ip = Some i -> i_dev i = ROOTDEV -> addrs_ok v i -> source src data ->
  let n := Z.of_nat (length data) in
  0 <= off -> off + n <= MAXFILE * BSIZE ->
  (need v i (span off n) <= length (free v))%nat -> (forall k, touches v i (span off n) k -> k ∈ B) ->
  exists s' v' i', loop (fun '(tot, off, src0) =>
      if tot <? n
      then
        blk <- bmap ip (off / BSIZE) ;;
        bp <- bread (i_dev i) blk ;;
        let m := Z.min (n - tot) (BSIZE - off mod BSIZE) in
        '(r, bytes) <- either_copyin src0 m ;;
        upd_data bp (fun d => splice d (Z.to_nat (off mod BSIZE)) bytes) ;;;
        if r =? -1
        then brelse bp ;;; ret (inr (tot, off))
        else log_write bp ;;; brelse bp ;;; ret (inl (u32 (tot + m), u32 (off + m), advance src0 m))
      else ret (inr (tot, off))) (0, off, src) s = Ret (n, off + n) s' /\
    trans s' [] v' (<[ip := i']> ino) /\ grew v i (span off n) v' i' [] /\ wrote v i v' i' off data n.
Proof.
  intros H Hi Hd Hok Hsrc n Hoff Hmax Hn HB. assert (HM : MAXFILE * BSIZE < 2 ^ 31) by (change MAXFILE with 268; unfold BSIZE; lia).
  pose proof (span_range off n Hoff ltac:(lia) Hmax) as Hrange.
  apply (loop_measure _ (fun '(tot, o, src0) s1 => 0 <= tot <= n /\ o = off + tot /\ source src0 (drop (Z.to_nat tot) data) /\
      exists v1 i1, trans s1 [] v1 (<[ip := i1]> ino) /\ grew v i (span off n) v1 i1 (span (off + tot) (n - tot)) /\ wrote v i v1 i1 off data tot)
    (fun '(tot, _, _) _ => Z.to_nat (n - tot))
    (fun o => exists s' v' i', o = Ret (n, off + n) s' /\ trans s' [] v' (<[ip := i']> ino) /\ grew v i (span off n) v' i' [] /\
      wrote v i v' i' off data n)).
  2:{ split; [lia|]. split; [lia|]. split; [done|]. exists v, i. rewrite list_insert_id by done. split; [done|].
      rewrite Z.add_0_r, Z.sub_0_r. split; [by apply grew_refl|]. intros o Ho. by rewrite decide_False by lia. }
  2:{ lia. }
  intros [[tot o] src0] s1 (Ht & -> & Hs1 & v1 & i1 & Htr & Hg & Hw). destruct (Z.ltb_spec tot n) as [Hlt|Hge].
  2:{ right. left. assert (tot = n) as -> by lia. eexists _, s1. split; [reflexivity|]. exists s1, v1, i1.
      rewrite Z.sub_diag in Hg. done. }
  left. set (q := (off + tot) / BSIZE). set (m := Z.min (n - tot) (BSIZE - (off + tot) mod BSIZE)).
  pose proof (Z.mod_pos_bound (off + tot) BSIZE eq_refl) as Hr. assert (Hm : 0 < m <= n - tot) by (unfold m; lia).
  rewrite (span_step (off + tot) (n - tot)) in Hg by lia. fold q m in Hg. set (l := span (off + tot + m) (n - tot - m)) in Hg.
  assert (Hrl : Forall (fun b => 0 <= b < MAXFILE) (q :: l)).
  { unfold q, l, m. rewrite <- span_step by lia. apply span_range; lia. }
  assert (Hndl : NoDup (q :: l)) by (unfold q, l, m; rewrite <- span_step by lia; apply NoDup_seqZ).
  assert (Hi1 : <[ip := i1]> ino !! ip = Some i1) by (apply list_lookup_insert_eq; by apply lookup_lt_Some in Hi).
  assert (Hd1 : i_dev i1 = ROOTDEV) by (rewrite (gr_inode _ _ _ _ _ _ _ _ Hg); done).
  pose proof Hg as [Hok1 _ (A & HA & HA') Ht1 _ _ _].
  destruct (bmap_grow s1 v1 _ ip i1 q l Htr Hi1 Hd1 Hok1 Hndl Hrl) as (s2 & v2 & i2 & E2 & H2 & Hg2 & Hsb & Hz & Ht2).
  { rewrite HA, HA', length_app in Hn. lia. }
  { intros k Hk. by apply HB, Ht1. }
  rewrite list_insert_insert_eq in H2. rewrite (bind_Ret _ _ _ _ _ E2), Hd.
  assert (Hq : 0 <= q < MAXFILE) by (by apply Forall_cons in Hrl as [? _]). pose proof (gr_ok _ _ _ _ _ _ _ _ Hg2) as Hok2.
  destruct (write_chunk (tot, off + tot) (u32 (tot + m), u32 (off + tot + m), advance src0 m) s2 v2 _ (addr v2 i2 q) src0
    (drop (Z.to_nat tot) data) (off + tot) m H2) as (s3 & E3 & H3); [by apply HB, Ht1|done|rewrite length_drop; lia|unfold m; lia|].
  destruct (copy_next s2 _ _ _ src0 (drop (Z.to_nat tot) data) m H2 Hs1) as [_ Hs2]; [rewrite length_drop; lia|].
  rewrite !u32_small in E3 by lia. exists (tot + m, off + tot + m, advance src0 m), s3. split.
  - cbv zeta. rewrite !u32_small by (fold m; lia). exact E3.
  - split; [|lia]. split; [lia|]. split; [lia|]. split; [by rewrite Z2Nat.inj_add, <- drop_drop by lia|].
    eexists _, i2. split; [exact H3|]. replace (off + (tot + m)) with (off + tot + m) by lia.
    replace (n - (tot + m)) with (n - tot - m) by lia. split.
    + apply (grew_store st size sb ds layout v i _ v2 i2 l q); [by apply (grew_trans _ _ v i _ v1 i1 (q :: l))|done|done|by apply Ht1].
    + apply (wrote_step st size sb ds layout v i v1 i1 v2 i2 off data tot m); try done;
        [intros k; by apply (trans_length _ _ _ _ _ _ _ _ _ _ _ k H2)|unfold m; lia..].
Qed.

(** An inode of the file system, its file without holes. *)
Record file_ok (v : Z -> list Z) (i : inode) : Prop := {
  fo_dev : i_dev i = ROOTDEV;
  fo_inum : 0 <= i_inum i < sb_ninodes sb;
  fo_dinode : dinode_ok (dinode_of i);
  fo_addrs : addrs_ok v i;
  fo_full : i_size i <= MAXFILE * BSIZE /\ forall bn, 0 <= bn < nblocks (i_size i) -> addr v i bn <> 0
}.

Lemma IBLOCK_below i : 0 <= i < sb_ninodes sb -> sb_inodestart sb <= IBLOCK i sb < sb_bmapstart sb.
Proof.
  intros Hi. destruct layout as [H1 H2 H3 H4]. unfold IBLOCK.
  pose proof (Z.div_pos i IPB ltac:(lia) eq_refl). pose proof (Z.div_le_mono i (sb_ninodes sb) IPB eq_refl ltac:(lia)).
  pose proof (Z.div_pos (sb_size sb) BPB ltac:(lia) eq_refl). rewrite u32_small by lia. lia.
Qed.

(** Blocks from the bitmap on decide what a file is. *)
Lemma above_same v i v' : addrs_ok v i -> (forall k, sb_bmapstart sb <= k -> v' k = v k) ->
  same_meta sb v i v' /\ same_bytes v i v' i.
Proof.
  intros H Hv. pose proof layout as [H1 H2 H3 H4].
  assert (Hds : forall k, ds <= k -> v' k = v k).
  { intros k Hk. apply Hv. pose proof (Z.div_pos (sb_size sb) BPB ltac:(lia) eq_refl). lia. }
  assert (Hm : same_meta sb v i v').
  { split.
    - intros b Hb. apply Hv. rewrite (BBLOCK_eq _ _ _ ds) by done. pose proof (Z.div_pos b BPB ltac:(lia) eq_refl). lia.
    - intros Hz. apply Hds. by apply (ao_ind _ _ _ _ H). }
  split; [done|]. intros o Ho. unfold byte. rewrite (same_addr sb v i v') by done.
  destruct (Z.eqb_spec (addr v i (o / BSIZE)) 0) as [|Hz]; [done|]. rewrite Hds; [done|].
  apply (ao_data _ _ _ _ H); [by apply block_of_byte|done].
Qed.

Lemma grown_dinode v i v' i' bns e : grew v i bns v' i' [] -> dinode_ok (dinode_of i) -> 0 <= e < 2 ^ 32 ->
  dinode_ok (dinode_of (set_i_size e i')).
Proof.
  intros Hg (K1 & _ & _ & _) He. pose proof (gr_inode _ _ _ _ _ _ _ _ Hg) as Ei. pose proof (gr_ok _ _ _ _ _ _ _ _ Hg) as Hok.
  pose proof (ly_size _ _ _ _ layout) as Hsz. split; [by rewrite Ei|]. split; [exact He|]. split; [apply Hok|].
  apply Forall_lookup. intros k a Hk. change (i_addrs i' !! k = Some a) in Hk. pose proof (lookup_lt_Some _ _ _ Hk) as Hl.
  rewrite (ao_length _ _ _ _ Hok) in Hl. destruct (decide (a = 0)) as [->|Hz]; [lia|].
  pose proof (nth_lookup_Some _ _ 0 _ Hk) as Hn. destruct (decide (k = NDIRECT)) as [->|Hne].
  - destruct (ao_ind _ _ _ _ Hok) as [Hd _]; unfold indirect in *; rewrite Hn in *; [done|lia].
  - assert (Ea : addr v' i' (Z.of_nat k) = a).
    { unfold addr. destruct (Z.ltb_spec (Z.of_nat k) (Z.of_nat NDIRECT)); [by rewrite Nat2Z.id|lia]. }
    destruct (ao_data _ _ _ _ Hok (Z.of_nat k)) as [Hd _]; [change MAXFILE with 268; unfold NDIRECT in *; lia|congruence|lia].
Qed.

(** Every block of the file up to its new end is in the old file or in the
    part that is written. *)
Lemma in_span sz off n bn : 0 <= off <= sz -> 0 <= n -> 0 <= bn < nblocks (Z.max sz (off + n)) ->
  0 <= bn < nblocks sz \/ bn ∈ span off n.
Proof.
  intros Hoff Hn Hbn. destruct (Z.lt_ge_cases bn (nblocks sz)) as [|Hge]; [left; lia|right].
  destruct (Z.max_spec sz (off + n)) as [[Hlt E]|[Hle E]]; rewrite E in Hbn; [|lia].
  assert (Eb : nblocks (off + n) = (off + n - 1) / BSIZE + 1).
  { unfold nblocks. rewrite <- Z.div_add by done. f_equal. lia. }
  assert (off / BSIZE <= nblocks sz) by (unfold nblocks; apply Z.div_le_mono; [done|unfold BSIZE; lia]).
  apply elem_of_seqZ. destruct (Z.eqb_spec n 0); lia.
Qed.

(** The file after a write, for any reader who sees the blocks from the
    bitmap on. *)
Lemma write_done v i v1 i1 off data v' :
  let n := Z.of_nat (length data) in
  let i' := set_i_size (Z.max (i_size i) (off + n)) i1 in
  file_ok v i -> grew v i (span off n) v1 i1 [] -> wrote v i v1 i1 off data n -> 0 <= off <= i_size i ->
  off + n <= MAXFILE * BSIZE -> (forall k, sb_bmapstart sb <= k -> v' k = v1 k) ->
  file_ok v' i' /\ (contents v' i' = splice (contents v i) (Z.to_nat off) data) /\ free v' = drop (need v i (span off n)) (free v).
Proof.
  intros n i' [F1 F2 F3 F4 [F5 F6]] Hg Hw Hoff Hmax Hv. assert (HM : MAXFILE * BSIZE < 2 ^ 31) by (change MAXFILE with 268; unfold BSIZE; lia).
  pose proof Hg as [Hok Ei (A & HA & HA') _ _ Hkeep Hdone].
  destruct (above_same v1 i1 v' Hok Hv) as [Hm Hb].
  assert (Hnb : nblocks (Z.max (i_size i) (off + n)) <= MAXFILE).
  { unfold nblocks. apply Z.lt_succ_r, Z.div_lt_upper_bound; [done|]. change MAXFILE with 268 in *. unfold BSIZE in *. lia. }
  assert (Hfull : forall bn, 0 <= bn < nblocks (Z.max (i_size i) (off + n)) -> addr v' i1 bn <> 0).
  { intros bn Hbn. rewrite (same_addr sb v1 i1 v') by done. destruct (in_span (i_size i) off n bn Hoff ltac:(lia) Hbn) as [Hin|Hin].
    - rewrite Hkeep; [by apply F6|lia|by apply F6].
    - apply Hdone; [done|apply not_elem_of_nil]. }
  split; [|split].
  - constructor.
    + unfold i'. rewrite Ei. exact F1.
    + unfold i'. rewrite Ei. exact F2.
    + apply (grown_dinode v i v1 i1 (span off n)); [done|done|lia].
    + destruct (same_ok st size sb ds layout v1 i1 v' Hm Hok). by constructor.
    + split; [cbn [i_size i' set_i_size]; lia|exact Hfull].
  - apply splice_contents; [done|done|]. intros o Ho. cbn [i_size i' set_i_size] in Ho.
    rewrite byte_file_byte by (apply Hfull, block_in_file; lia). change (byte v' i' o) with (byte v' i1 o).
    rewrite Hb, Hw by lia. fold n. destruct (decide (off <= o < off + n)); [done|].
    symmetry. apply byte_file_byte, F6, block_in_file. lia.
  - rewrite (same_free sb v1 i1 v' Hm), HA, HA'. cbn [WriteFacts.need]. unfold need at 1. cbn [filter list_filter length].
    rewrite decide_False by (intros [_ Hx]; by apply Exists_nil in Hx). by rewrite Nat.add_0_r, drop_app_length.
Qed.

Lemma writei_grow s v ino ip i off src data :
  trans s [] v ino -> ino !! ip = Some i -> file_ok v i -> source src data ->
  let n := Z.of_nat (length data) in
  0 <= off <= i_size i -> off + n <= MAXFILE * BSIZE ->
  (need v i (span off n) <= length (free v))%nat -> (forall k, touches v i (span off n) k -> k ∈ B) ->
  let blk := IBLOCK (i_inum i) sb in
  blk ∈ B ->
  exists s' v1 i1, let i' := set_i_size (Z.max (i_size i) (off + n)) i1 in
    writei ip src off n s = Ret n s' /\ grew v i (span off n) v1 i1 [] /\ wrote v i v1 i1 off data n /\
    trans s' [] (<[blk := wr_dinode (v1 blk) (dip_off (i_inum i)) (dinode_of i')]> v1) (<[ip := i']> ino).
Proof.
  intros H Hi [F1 F2 F3 F4 [F5 F6]] Hsrc n Hoff Hmax Hn HB blk Hblk.
  assert (HM : MAXFILE * BSIZE < 2 ^ 31) by (change MAXFILE with 268; unfold BSIZE; lia). unfold writei.
  rewrite (bind_Ret _ _ _ _ _ (trans_get_inode _ _ _ _ _ _ _ _ _ _ _ ip i H Hi)).
  rewrite (u32_small (off + n)) by lia. destruct (Z.gtb_spec off (i_size i)) as [|_]; [lia|].
  destruct (Z.ltb_spec (off + n) off) as [|_]; [lia|]. cbn [orb]. destruct (Z.gtb_spec (off + n) (MAXFILE * BSIZE)) as [|_]; [lia|].
  destruct (writei_loop_grow s v ino ip i off src data H Hi F1 F4 Hsrc ltac:(lia) Hmax Hn HB) as (s1 & v1 & i1 & E1 & H1 & Hg & Hw).
  rewrite (bind_Ret _ _ _ _ _ E1). clear E1. fold n in Hg, Hw |- *. pose proof (gr_inode _ _ _ _ _ _ _ _ Hg) as Ei.
  assert (Hlt : (ip < length ino)%nat) by (by apply lookup_lt_Some in Hi).
  assert (Hi1 : forall j, <[ip := j]> ino !! ip = Some j) by (intros j; by apply list_lookup_insert_eq).
  rewrite (bind_Ret _ _ _ _ _ (trans_get_inode _ _ _ _ _ _ _ _ _ _ _ ip i1 H1 (Hi1 i1))).
  set (i' := set_i_size (Z.max (i_size i) (off + n)) i1).
  assert (Hsz : i_size i1 = i_size i) by (by rewrite Ei).
  assert (exists s2, (if off + n >? i_size i1 then upd_inode ip (set_i_size (off + n)) else ret tt) s1 = Ret tt s2 /\
    trans s2 [] v1 (<[ip := i']> ino)) as (s2 & E2 & H2).
  { rewrite Hsz. destruct (Z.gtb_spec (off + n) (i_size i)).
    - destruct (trans_upd_inode _ _ _ _ _ _ _ _ _ _ _ ip (set_i_size (off + n)) H1) as (s2 & E2 & H2). exists s2. split; [done|].
      rewrite (alter_insert_eq _ _ _ _ (Hi1 i1)), list_insert_insert_eq in H2. unfold i'. by rewrite Z.max_r by lia.
    - exists s1. split; [done|]. unfold i'. rewrite Z.max_l, <- Hsz by lia. by replace (set_i_size (i_size i1) i1) with i1 by (by destruct i1). }
  rewrite (bind_Ret _ _ _ _ _ E2).
  assert (En : i_inum i' = i_inum i) by (unfold i'; by rewrite Ei).
  destruct (iupdate_run p pr s0 st size sb B s2 [] v1 _ ip i' H2 (Hi1 i')) as (s3 & E3 & H3);
    [unfold i'; by rewrite Ei|cbn; lia|apply not_elem_of_nil|by rewrite En|].
  rewrite (bind_Ret _ _ _ _ _ E3), i32_small by lia. rewrite En in H3. exists s3, v1, i1. cbv zeta. fold i'. done.
Qed.

End Writing.
