(* ===== verification/Dir.v ===== *)
(** * Directories and path names

    Directory lookup against the list of entries of a directory, and the
    splitting of path names. *)

From stdpp Require Import functions.
From S2P Require Import Prelude Machine State CString Kalloc Vm Printf Sched Sleeplock Block Bio Store Log LogFacts Uio Fs Trans FsFacts FileFacts.

(** ** Names *)

(** The C string in a buffer of [k] bytes. *)
Fixpoint cut (k : nat) (l : list Z) : list Z :=
  match k, l with
  | S k', c :: l' => if u8 c =? 0 then [] else u8 c :: cut k' l'
  | _, _ => []
  end.

Lemma cstr_cut m a l k : (forall j, (j < k)%nat -> m (a + Z.of_nat j) = nth j l 0) -> cstr m a k = cut k l.
Proof.
  revert a l. induction k as [|k IH]; intros a l H; [by destruct l|]. cbn [cstr].
  pose proof (H O ltac:(lia)) as H0. rewrite Z.add_0_r in H0. rewrite H0. destruct l as [|c l]; [done|]. cbn [nth cut].
  destruct (u8 c =? 0); [done|]. f_equal. apply IH. intros j Hj. pose proof (H (S j) ltac:(lia)) as HS. cbn [nth] in HS. rewrite <- HS. f_equal. lia.
Qed.

Lemma namecmp_run s t st : exists r, namecmp s t st = Ret r st /\ (r = 0 <-> cut (Z.to_nat DIRSIZ) s = cut (Z.to_nat DIRSIZ) t).
Proof.
  destruct (strncmp_correct 0 VAR2 DIRSIZ (at02 s t)) as (r & E & _ & Hr); [unfold DIRSIZ; lia|].
  exists r. split; [unfold namecmp, on_bufs, bind; by rewrite E|]. rewrite Hr.
  rewrite (cstr_cut _ 0 s), (cstr_cut _ VAR2 t); [done|..]; intros j Hj; unfold at02, VAR2, DIRSIZ in *.
  - destruct (Z.ltb_spec (4096 + Z.of_nat j) 4096); [lia|]. f_equal. lia.
  - destruct (Z.ltb_spec (0 + Z.of_nat j) 4096); [|lia]. f_equal. lia.
Qed.

(** Entry [d] of a directory is in use and has the name [name]. *)
Definition matches (name d : list Z) : bool :=
  negb (de_inum d =? 0) && bool_decide (cut (Z.to_nat DIRSIZ) name = cut (Z.to_nat DIRSIZ) (de_name d)).

(** The entries of a directory, as readers of its file see them. *)
Definition entries (v : Z -> list Z) (i : inode) : list (list Z) :=
  map (fun k => bytes_from v i (SIZEOF_DIRENT * Z.of_nat k) (Z.to_nat SIZEOF_DIRENT)) (seq 0 (Z.to_nat (i_size i / SIZEOF_DIRENT))).

Section Dir.
Context `{LAY : Layout} `{DD : DiskDriver}.
Context (p : nat) (pr : proc) (s0 : kstate) (st size : Z) (sb : superblock) (B : list Z).

Abbreviation trans := (trans p pr s0 st size sb B).

Lemma entries_lookup v i k : (k < Z.to_nat (i_size i / SIZEOF_DIRENT))%nat ->
  entries v i !! k = Some (bytes_from v i (SIZEOF_DIRENT * Z.of_nat k) (Z.to_nat SIZEOF_DIRENT)).
Proof.
  intros H. unfold entries. change (map ?g ?l) with (g <$> l). rewrite list_lookup_fmap, lookup_seq_lt by done. done.
Qed.

Lemma length_entries v i : length (entries v i) = Z.to_nat (i_size i / SIZEOF_DIRENT).
Proof. unfold entries. by rewrite length_map, length_seq. Qed.

(** A directory whose blocks are readable. *)
Record dir_ok (v : Z -> list Z) (L : list (nat * Z)) (i : inode) : Prop := {
  dr_type : i_type i = T_DIR;
  dr_dev : i_dev i = ROOTDEV;
  dr_size : 0 <= i_size i < 2 ^ 31 - SIZEOF_DIRENT;
  dr_whole : i_size i mod SIZEOF_DIRENT = 0;
  dr_mapped : mapped v L i (nblocks (i_size i))
}.

Lemma read_entry s L v ino dp i k :
  trans s L v ino -> ino !! dp = Some i -> (length L < 7)%nat -> dir_ok v L i -> SIZEOF_DIRENT * Z.of_nat k < i_size i ->
  exists s', readi dp (Var []) (SIZEOF_DIRENT * Z.of_nat k) SIZEOF_DIRENT s =
     Ret (SIZEOF_DIRENT, bytes_from v i (SIZEOF_DIRENT * Z.of_nat k) (Z.to_nat SIZEOF_DIRENT)) s' /\ trans s' L v ino.
Proof.
  intros H Hi HL [D1 D2 D3 D4 D5] Hk. unfold SIZEOF_DIRENT in *.
  assert (Hfit : 16 * Z.of_nat k + 16 <= i_size i) by (pose proof (Z.div_mod (i_size i) 16); lia).
  destruct (readi_run p pr s0 st size sb B s L v ino dp i (16 * Z.of_nat k) 16 H Hi D2 HL D5) as (s' & E & H'); [lia..|].
  assert (Er : readable i (16 * Z.of_nat k) 16 = 16) by (unfold readable; lia). rewrite Er in E. by exists s'.
Qed.

Lemma entry_bound v i k d : entries v i !! k = Some d -> SIZEOF_DIRENT * Z.of_nat k < i_size i.
Proof.
  intros H%lookup_lt_Some. rewrite length_entries in H. pose proof (Z.div_mod (i_size i) SIZEOF_DIRENT ltac:(done)) as Ed.
  pose proof (Z.mod_pos_bound (i_size i) SIZEOF_DIRENT eq_refl). unfold SIZEOF_DIRENT in *. lia.
Qed.

(** What [dirlookup] is to do: find the first entry in use with the name, and
    get its inode. *)
Definition looked_up (name : list Z) (L : list (nat * Z)) (v : Z -> list Z) (ino : list inode) (i : inode)
    (o : outcome kstate (option (nat * Z))) : Prop :=
  match first (matches name) (entries v i) with
  | None => exists s', o = Ret None s' /\ trans s' L v ino
  | Some k => exists d, entries v i !! k = Some d /\
      match iget_tab ROOTDEV (de_inum d) ino with
      | Some (ip, ino') => exists s', o = Ret (Some (ip, SIZEOF_DIRENT * Z.of_nat k)) s' /\ trans s' L v ino'
      | None => exists s', o = Panic "iget: no inodes" s'
      end
  end.

Lemma iget_trans dev inum s L v ino : trans s L v ino -> length ino = NINODE ->
  match iget_tab dev inum ino with
  | Some (ip, ino') => exists s', iget dev inum s = Ret ip s' /\ trans s' L v ino'
  | None => exists s', iget dev inum s = Panic "iget: no inodes" s'
  end.
Proof.
  intros H Hlen. pose proof (trans_fs _ _ _ _ _ _ _ _ _ _ _ H) as [Hino _].
  pose proof (trans_alone _ _ _ _ _ _ _ _ _ _ _ H) as (Hh & _).
  rewrite (iget_run dev inum s ino Hino Hlen) by (rewrite Hh; apply not_elem_of_nil).
  destruct (iget_tab dev inum ino) as [[ip ino']|]; [|by eexists]. eexists. split; [reflexivity|].
  unfold with_inodes. by apply (trans_inodes _ _ _ _ _ _ _ _ _ _ ino (fun _ => ino')).
Qed.

(** One round of the loop of [dirlookup], at an entry that is not yet the one. *)
Definition dirlookup_body (dp : nat) (name : list Z) (off : Z) : K (Z + option (nat * Z)) :=
  i <- get_inode dp ;;
  if off <? i_size i
  then
    '(r, de) <- readi dp (Var []) off SIZEOF_DIRENT ;;
    if negb (r =? SIZEOF_DIRENT) then panic "dirlookup read"
    else if de_inum de =? 0 then ret (inl (u32 (off + SIZEOF_DIRENT)))
    else
      c <- namecmp name (de_name de) ;;
      if c =? 0
      then ip <- iget (i_dev i) (de_inum de) ;; ret (inr (Some (ip, off)))
      else ret (inl (u32 (off + SIZEOF_DIRENT)))
  else ret (inr None).

Lemma dirlookup_skip s L v ino dp i name k d :
  trans s L v ino -> ino !! dp = Some i -> (length L < 7)%nat -> dir_ok v L i -> entries v i !! k = Some d ->
  matches name d = false ->
  exists s', dirlookup_body dp name (SIZEOF_DIRENT * Z.of_nat k) s = Ret (inl (SIZEOF_DIRENT * Z.of_nat (S k))) s' /\ trans s' L v ino.
Proof.
  intros H Hi HL Hdir Hd Hm. pose proof (entry_bound _ _ _ _ Hd) as Hk. pose proof Hdir as [D1 D2 D3 D4 D5].
  destruct (read_entry s L v ino dp i k H Hi HL Hdir Hk) as (s2 & E2 & H2). exists s2. split; [|done]. unfold dirlookup_body.
  rewrite (bind_Ret _ _ _ _ _ (trans_get_inode _ _ _ _ _ _ _ _ _ _ _ dp i H Hi)).
  destruct (Z.ltb_spec (SIZEOF_DIRENT * Z.of_nat k) (i_size i)); [|lia]. krun.
  change (negb (SIZEOF_DIRENT =? SIZEOF_DIRENT)) with false. cbv iota. rewrite entries_lookup in Hd by (by apply lookup_lt_Some in Hd; rewrite length_entries in Hd).
  injection Hd as Hd. rewrite Hd. rewrite u32_small by (unfold SIZEOF_DIRENT in *; lia).
  replace (SIZEOF_DIRENT * Z.of_nat k + SIZEOF_DIRENT) with (SIZEOF_DIRENT * Z.of_nat (S k)) by lia.
  unfold matches in Hm. destruct (de_inum d =? 0); [done|].
  destruct (namecmp_run name (de_name d) s2) as (r & Er & Hr). krun. cbn [negb andb] in Hm. apply bool_decide_eq_false in Hm.
  destruct (Z.eqb_spec r 0); [tauto|done].
Qed.

Lemma dirlookup_hit s L v ino dp i name k d :
  trans s L v ino -> ino !! dp = Some i -> (length L < 7)%nat -> dir_ok v L i -> entries v i !! k = Some d ->
  matches name d = true -> length ino = NINODE ->
  match iget_tab ROOTDEV (de_inum d) ino with
  | Some (ip, ino') => exists s', dirlookup_body dp name (SIZEOF_DIRENT * Z.of_nat k) s =
      Ret (inr (Some (ip, SIZEOF_DIRENT * Z.of_nat k))) s' /\ trans s' L v ino'
  | None => exists s', dirlookup_body dp name (SIZEOF_DIRENT * Z.of_nat k) s = Panic "iget: no inodes" s'
  end.
Proof.
  intros H Hi HL Hdir Hd Hm Hlen. pose proof (entry_bound _ _ _ _ Hd) as Hk. pose proof Hdir as [D1 D2 D3 D4 D5].
  destruct (read_entry s L v ino dp i k H Hi HL Hdir Hk) as (s2 & E2 & H2). unfold dirlookup_body.
  rewrite (bind_Ret _ _ _ _ _ (trans_get_inode _ _ _ _ _ _ _ _ _ _ _ dp i H Hi)).
  destruct (Z.ltb_spec (SIZEOF_DIRENT * Z.of_nat k) (i_size i)); [|lia]. krun.
  change (negb (SIZEOF_DIRENT =? SIZEOF_DIRENT)) with false. cbv iota. rewrite entries_lookup in Hd by (by apply lookup_lt_Some in Hd; rewrite length_entries in Hd).
  injection Hd as Hd. rewrite Hd. unfold matches in Hm. destruct (de_inum d =? 0); [done|].
  destruct (namecmp_run name (de_name d) s2) as (r & Er & Hr). krun. cbn [negb andb] in Hm. apply bool_decide_eq_true in Hm.
  destruct (Z.eqb_spec r 0); [|tauto]. rewrite D2. pose proof (iget_trans ROOTDEV (de_inum d) s2 L v ino H2 Hlen) as Hg.
  destruct (iget_tab ROOTDEV (de_inum d) ino) as [[ip ino']|]; destruct Hg as (s3 & Hg); exists s3.
  - destruct Hg as [Eg Hg]. split; [by krun|done].
  - by krun.
Qed.

Lemma dirlookup_run s L v ino dp i name :
  trans s L v ino -> ino !! dp = Some i -> (length L < 7)%nat -> dir_ok v L i -> length ino = NINODE ->
  looked_up name L v ino i (dirlookup dp name s).
Proof.
  intros H Hi HL Hdir Hlen. pose proof Hdir as [D1 D2 D3 D4 D5]. unfold dirlookup.
  rewrite (bind_Ret _ _ _ _ _ (trans_get_inode _ _ _ _ _ _ _ _ _ _ _ dp i H Hi)). rewrite D1.
  change (negb (T_DIR =? T_DIR)) with false. cbv iota. fold (dirlookup_body dp name).
  apply (loop_measure _ (fun off s1 => exists k, off = SIZEOF_DIRENT * Z.of_nat k /\ (k <= length (entries v i))%nat /\
      first (matches name) (take k (entries v i)) = None /\ trans s1 L v ino) (fun off _ => Z.to_nat (i_size i - off)));
    [|exists O; split; [done|]; split; [lia|done]|unfold SIZEOF_DIRENT in *; lia].
  intros off s1 (k & -> & Hk & Hno & H1). destruct (decide (k < length (entries v i))%nat) as [Hlt|Hge].
  - destruct (lookup_lt_is_Some_2 (entries v i) k Hlt) as [d Hd]. destruct (matches name d) eqn:Hm.
    + right. pose proof (dirlookup_hit s1 L v ino dp i name k d H1 Hi HL Hdir Hd Hm Hlen) as Hh.
      unfold looked_up. rewrite (first_take_here _ _ k d Hd Hno Hm). destruct (iget_tab ROOTDEV (de_inum d) ino) as [[ip ino']|] eqn:Et.
      * left. destruct Hh as (s2 & E2 & H2). eexists _, s2. split; [exact E2|]. exists d. split; [done|]. rewrite Et. by exists s2.
      * right. destruct Hh as (s2 & E2). eexists _, s2. split; [exact E2|]. exists d. split; [done|]. rewrite Et. by exists s2.
    + left. destruct (dirlookup_skip s1 L v ino dp i name k d H1 Hi HL Hdir Hd Hm) as (s2 & E2 & H2). eexists _, s2. split; [exact E2|].
      pose proof (entry_bound _ _ _ _ Hd). split; [|unfold SIZEOF_DIRENT in *; lia]. exists (S k). split; [done|]. split; [lia|].
      split; [|done]. by rewrite (first_take_S _ _ k d Hd), Hno, Hm.
  - right. left. rewrite take_ge in Hno by lia. eexists None, s1. split; [|unfold looked_up; rewrite Hno; by exists s1].
    unfold dirlookup_body. rewrite (bind_Ret _ _ _ _ _ (trans_get_inode _ _ _ _ _ _ _ _ _ _ _ dp i H1 Hi)).
    rewrite length_entries in Hge. pose proof (Z.div_mod (i_size i) SIZEOF_DIRENT ltac:(done)) as Ed.
    destruct (Z.ltb_spec (SIZEOF_DIRENT * Z.of_nat k) (i_size i)); [|done]. unfold SIZEOF_DIRENT in *. lia.
Qed.

(** C32: [dirlookup] returns the inode and the offset of the first entry of
    the directory that is in use and has the name (compared over at most
    [DIRSIZ] bytes), or null when there is none. *)
Theorem dirlookup_correct s L v ino dp i name :
  trans s L v ino -> ino !! dp = Some i -> (length L < 7)%nat -> dir_ok v L i -> length ino = NINODE ->
  looked_up name L v ino i (dirlookup dp name s).
Proof. apply dirlookup_run. Qed.
End Dir.

(** ** Path names *)

Lemma skip_slashes_split path : exists a, path = replicate a SLASH ++ skip_slashes path /\ forall c r, skip_slashes path = c :: r -> c <> SLASH.
Proof.
  induction path as [|c path (a & E & Hh)]; [by exists O|]. cbn [skip_slashes]. destruct (Z.eqb_spec c SLASH) as [->|Hc].
  - exists (S a). split; [cbn; by rewrite <- E|done].
  - exists O. split; [done|]. intros c' r [= <- <-]. done.
Qed.

Lemma take_elem_split path e r : take_elem path = (e, r) -> path = e ++ r /\ (SLASH ∉ e) /\
  (r = [] \/ exists c r', r = c :: r' /\ (c = SLASH \/ c = 0)) /\ (forall c p, path = c :: p -> c <> SLASH -> c <> 0 -> e <> []).
Proof.
  revert e r. induction path as [|c path IH]; intros e r H; cbn [take_elem] in H.
  - injection H as <- <-. split; [done|]. split; [apply not_elem_of_nil|]. split; [by left|done].
  - destruct (Z.eqb_spec c SLASH) as [->|Hc]; cbn [negb andb] in H.
    + injection H as <- <-. split; [done|]. split; [apply not_elem_of_nil|]. split; [right; eauto|]. by intros c' p [= <- <-].
    + destruct (Z.eqb_spec c 0) as [->|Hz]; cbn [negb andb] in H.
      * injection H as <- <-. split; [done|]. split; [apply not_elem_of_nil|]. split; [right; eauto|]. by intros c' p [= <- <-].
      * destruct (take_elem path) as [e1 r1] eqn:E. injection H as <- <-. destruct (IH _ _ eq_refl) as (-> & Hn & Hr & _).
        split; [done|]. split; [by rewrite not_elem_of_cons|]. split; [done|]. done.
Qed.

Lemma cut_app k e l : Forall (fun c => 0 < c < 256) e -> cut k (e ++ l) = take k e ++ cut (k - length e) l.
Proof.
  revert k. induction e as [|c e IH]; intros k H; [cbn; by rewrite take_nil, Nat.sub_0_r|].
  apply Forall_cons in H as [Hc He]. destruct k as [|k]; [by destruct l|]. cbn [app cut length take Nat.sub].
  rewrite u8_small by lia. destruct (Z.eqb_spec c 0); [lia|]. cbn. f_equal. by apply IH.
Qed.

(** [skipelem] takes the next element off a path: it skips the slashes
    before it, stores the element, cut to [DIRSIZ] bytes, in [name] and returns
    the path after it and the slashes that follow; when only slashes are left it
    returns null and leaves [name] alone. *)
Theorem skipelem_correct path name :
  Forall (fun c => 0 < c < 256) path -> length name = Z.to_nat DIRSIZ ->
  match skipelem path name with
  | (None, name') => Forall (fun c => c = SLASH) path /\ name' = name
  | (Some rest, name') => exists a e b, path = replicate a SLASH ++ e ++ replicate b SLASH ++ rest /\
      e <> [] /\ (SLASH ∉ e) /\ (forall c r, rest = c :: r -> c <> SLASH) /\ (b = O -> rest = []) /\
      length name' = length name /\ cut (Z.to_nat DIRSIZ) name' = take (Z.to_nat DIRSIZ) e
  end.
Proof.
  intros Hp Hl. unfold skipelem. destruct (skip_slashes_split path) as (a & Ea & Hh). generalize dependent (skip_slashes path). intros q Ea Hh.
  assert (Hq : Forall (fun c => 0 < c < 256) q) by (rewrite Ea in Hp; by apply Forall_app in Hp as [_ ?]).
  destruct q as [|c q']; cbn [nth].
  { rewrite Ea, app_nil_r. split; [|done]. apply Forall_replicate. done. }
  destruct (Z.eqb_spec c 0) as [->|Hc]; [apply Forall_cons in Hq as [Hq _]; lia|]. set (q := c :: q') in *.
  destruct (take_elem q) as [e r] eqn:Et. destruct (take_elem_split q e r Et) as (Eer & Hn & Hr & Hne).
  destruct (skip_slashes_split r) as (b & Eb & Hhb). exists a, e, b.
  rewrite Eer in Hq. apply Forall_app in Hq as [He Hr2]. split; [by rewrite <- Eb, <- Eer|].
  split; [apply (Hne c q' eq_refl); [by apply (Hh c q')|done]|]. split; [done|]. split; [done|]. split.
  { intros ->. cbn in Eb. destruct Hr as [->|(c1 & r' & -> & Hc1)]; [done|]. apply Forall_cons in Hr2 as [Hr2 _].
    destruct Hc1 as [-> | ->]; [|lia]. exfalso. by apply (Hhb SLASH r'). }
  unfold DIRSIZ in *. destruct (Z.geb_spec (Z.of_nat (length e)) 14).
  - assert (Htl : length (take (Z.to_nat 14) e) = 14%nat) by (rewrite length_take; lia).
    unfold splice. rewrite Htl, take_0, app_nil_l, Nat.add_0_l. split; [rewrite length_app, length_drop; lia|].
    rewrite cut_app by (by apply Forall_take). rewrite Htl, take_take. cbn. by rewrite app_nil_r.
  - rewrite Nat2Z.id. assert (Hs1 : length (splice name 0 e) = length name) by (apply length_splice; lia).
    split; [rewrite length_splice; [done|rewrite Hs1; cbn; lia]|].
    unfold splice at 1. rewrite (app_assoc _ [0]). assert (Ht : take (length e) (splice name 0 e) = e).
    { unfold splice. rewrite take_0, app_nil_l. by rewrite take_app_length. }
    rewrite Ht, <- app_assoc, cut_app by done. rewrite take_ge by lia.
    destruct (Z.to_nat 14 - length e)%nat eqn:Ek; [lia|]. cbn. by rewrite app_nil_r.
Qed.
