(* ===== verification/FsWitness.v ===== *)
(** * A small file system

    A disk image with a log at block 2, inodes at 32, the bitmap at 45 and
    data from block 46, as mkfs lays it out, on which the theorems about the
    file system are applied. *)

From stdpp Require Import functions.
From S2P Require Import Prelude Machine State CString Kalloc Vm VmFacts VmUser VmWitness Printf Sched Sleeplock Block Bio Store Log LogFacts Uio Fs Trans FsFacts FileFacts WriteFacts Dir.

Module FsWitness.
Import BioWitness LogWitness VmWitness.
#[local] Existing Instance now_driver.
#[local] Existing Instance sym_layout.

(** A file-system call of process [pr] has begun on the disk image [img]. *)
Section Image.
Context (base : kstate) (pr : proc) (img : Z -> list Z) (ino : list inode) (sb : superblock) (B : list Z).
Hypothesis base_alone : forall fs, alone 0 pr (set_k_fs fs base).
Hypothesis img_length : forall k, length (img k) = 1024%nat.
Hypothesis B_home : Forall (home 2 30) B.
Hypothesis B_short : (length B <= 20)%nat.

Definition image : kstate :=
  set_k_fs (set_fs_disk img (set_fs_inode ino (set_fs_sb sb (set_fs_log lg0 (k_fs start))))) base.

Lemma image_begun : exists s, trans (DD := now_driver) 0 pr s 2 30 sb B s [] img ino /\
  k_mem s = k_mem base /\ k_freelist s = k_freelist base.
Proof.
  destruct (binit_run image) as (fs' & E & _ & Hb & Hv & Hrel & bs & h & t & Ef);
    [reflexivity|exact (proj1 (proj2 start_fresh))|exact img_length|].
  exists (set_k_fs fs' image). split; [|split; reflexivity]. constructor; [|exact B_home|split; [unfold NBUF; lia|lia]].
  exists [], img, (fs_writes (k_fs start)), lg0, []. split; [|].
  - eapply store_ext; [exact Hv|]. change (fs_disk (k_fs image)) with img in Hv.
    assert (Ed : fs_disk fs' = img) by (rewrite Ef; reflexivity).
    assert (Ew : fs_writes fs' = fs_writes (k_fs start)) by (rewrite Ef; reflexivity).
    assert (Er : rest_of fs' = mkRest lg0 ino sb) by (rewrite Ef; reflexivity).
    rewrite <- Ew, <- Er. pose proof (store_start (DD := now_driver) 0 pr (set_k_fs fs' image) [] []) as Hs.
    change (k_fs (set_k_fs fs' image)) with fs' in Hs. rewrite Ed in Hs. eapply store_ext; [|apply Hs; [|exact I|apply Hb]].
    + intros k. rewrite Hv. reflexivity.
    + exact (base_alone fs').
  - split; [reflexivity|]. split; [exact txn0|]. split; [reflexivity|]. split; [reflexivity|]. split; [reflexivity|].
    split; [reflexivity|]. split; [reflexivity|]. intros x Hx. destruct (not_elem_of_nil _ Hx).
Qed.
End Image.

Lemma image_trans img ino sb B : (forall k, length (img k) = 1024%nat) -> Forall (home 2 30) B -> (length B <= 20)%nat ->
  exists s, trans (DD := now_driver) 0 pr0 s 2 30 sb B s [] img ino.
Proof.
  intros H1 H2 H3. destruct (image_begun start pr0 img ino sb B) as (s & H & _); try done; [|by exists s].
  intros fs. by apply start_alone.
Qed.

(** ** The image *)

Definition sb1 : superblock := mkSuperblock FSMAGIC 200 154 200 30 2 32 45.

Definition pad (l : list Z) : list Z := l ++ replicate (1024 - length l) 0.

Definition di_root : dinode := mkDinode T_DIR 0 0 1 64 (46 :: replicate 12 0).
Definition di_file : dinode := mkDinode T_FILE 0 0 1 5 (47 :: replicate 12 0).

Definition inode_block : list Z := wr_dinode (wr_dinode (pad []) 64 di_root) 128 di_file.

(** A directory entry whose name is one character. *)
Definition entry1 (inum c : Z) : list Z := [inum; 0; c] ++ replicate 13 0.

Definition root_block : list Z := pad (entry1 1 46 ++ ([1; 0; 46; 46] ++ replicate 12 0) ++ entry1 2 97).

(** Blocks 0 to 47 are in use: root directory in 46, file [a] in 47. *)
Definition img1 (bitmap : list Z) : Z -> list Z := fun k =>
  if k =? 32 then inode_block
  else if k =? 45 then bitmap
  else if k =? 46 then root_block
  else if k =? 47 then pad [104; 101; 108; 108; 111]
  else pad [].

Definition map48 : list Z := pad (replicate 6 255).
Definition map_full : list Z := replicate 1024 255.

Lemma img1_length bitmap k : length bitmap = 1024%nat -> length (img1 bitmap k) = 1024%nat.
Proof.
  intros H. unfold img1. destruct (k =? 32); [vm_compute; reflexivity|]. destruct (k =? 45); [exact H|].
  destruct (k =? 46); [vm_compute; reflexivity|]. destruct (k =? 47); vm_compute; reflexivity.
Qed.

(** Entries 0 and 1 of the inode table hold the root and the file. *)
Definition in_mem (inum : Z) (di : dinode) : inode :=
  mkInode ROOTDEV inum 1 (mkSleeplock 0 0) 1 (di_type di) (di_major di) (di_minor di) (di_nlink di) (di_size di) (di_addrs di).
Definition ino1 : list inode := in_mem 1 di_root :: in_mem 2 di_file :: replicate 48 inode0.

Definition B1 : list Z := [32; 45; 46; 47; 48].

Lemma B1_home : Forall (home 2 30) B1.
Proof. repeat (apply Forall_cons; split; [unfold home; lia|]). apply Forall_nil_2. Qed.

Lemma trans1 : exists s, trans (DD := now_driver) 0 pr0 s 2 30 sb1 B1 s [] (img1 map48) ino1.
Proof.
  apply image_trans; [intros k; apply img1_length; reflexivity|exact B1_home|vm_compute; lia].
Qed.

Lemma layout1 : fs_layout 2 30 sb1 46.
Proof. constructor; vm_compute; split_and?; congruence. Qed.

(** A statement about all numbers below a bound, by computation. *)
Lemma upto (n : nat) (P : Z -> bool) : forallb P (map Z.of_nat (seq 0 n)) = true -> forall b, 0 <= b < Z.of_nat n -> P b = true.
Proof.
  intros H b Hb. rewrite forallb_forall in H. apply H, in_map_iff. exists (Z.to_nat b). split; [lia|]. apply in_seq. lia.
Qed.

Lemma nothing_locked : bmap_unlocked sb1 [].
Proof. intros b _ H. destruct (not_elem_of_nil _ H). Qed.

Lemma balloc_correct_witness : exists s s', balloc ROOTDEV s = Ret 48 s'.
Proof.
  destruct trans1 as (s & H).
  destruct (balloc_correct 0 pr0 s 2 30 sb1 B1 s [] _ ino1 46 48 H layout1) as (s' & v' & E & _);
    [vm_compute; split; congruence| |vm_compute; reflexivity|cbn; lia|exact nothing_locked|apply not_elem_of_nil|
     vm_compute; repeat constructor|vm_compute; repeat constructor|exists s, s'; exact E].
  apply (upto 48). vm_compute. reflexivity.
Defined.

Lemma balloc_full_witness : exists s s', balloc ROOTDEV s = Panic "balloc: out of blocks" s'.
Proof.
  destruct (image_trans (img1 map_full) ino1 sb1 B1) as (s & H);
    [intros k; apply img1_length; reflexivity|exact B1_home|vm_compute; lia|].
  destruct (balloc_full 0 pr0 s 2 30 sb1 B1 s [] _ ino1 46 H layout1) as (s' & E); [|cbn; lia|exact nothing_locked|exists s, s'; exact E].
  apply (upto 200). vm_compute. reflexivity.
Defined.

Lemma bfree_correct_witness : exists s s', bfree ROOTDEV 47 s = Ret tt s'.
Proof.
  destruct trans1 as (s & H).
  destruct (bfree_correct 0 pr0 s 2 30 sb1 B1 s [] _ ino1 46 47 H layout1) as (s' & v' & E & _);
    [cbn; lia|cbn; lia|exact nothing_locked|vm_compute; repeat constructor|exists s, s'; exact E].
Defined.

Lemma iget_correct_witness : exists s', iget ROOTDEV 2 (image start (img1 map48) ino1 sb1) = Ret 1%nat s'.
Proof.
  destruct (iget_correct ROOTDEV 2 (image start (img1 map48) ino1 sb1)) as [(ip & i & f & E & Hi & _ & _ & _ & Hf)|[Hno _]].
  - split; [reflexivity|]. split; [repeat (apply Forall_cons; split; [vm_compute; congruence|]); apply Forall_nil_2|].
    assert (Hcase : forall a i, ino1 !! a = Some i -> i_ref i > 0 -> i_inum i = 1 + Z.of_nat a).
    { intros a i Hi Hr. destruct a as [|[|a]]; [injection Hi as <-; reflexivity..|].
      change (replicate 48 inode0 !! a = Some i) in Hi. apply lookup_replicate in Hi as [-> _]. cbn in Hr. lia. }
    intros a b i j Ha Hb H1 H2 _ H3. rewrite (Hcase a i Ha H1), (Hcase b j Hb H2) in H3. lia.
  - apply (Forall_impl (fun i => i_ref i = 0 \/ i_ref i = 1)); [|intros i [->| ->]; lia].
    repeat (apply Forall_cons; split; [vm_compute; tauto|]). apply Forall_nil_2.
  - apply not_elem_of_nil.
  - eexists. vm_compute. reflexivity.
  - destruct (Hno 1%nat _ eq_refl) as [Hx _]. vm_compute in Hx. discriminate.
Defined.

Lemma ok_dinode di : forallb (fun x => (- 2 ^ 15 <=? x) && (x <? 2 ^ 15)) [di_type di; di_major di; di_minor di; di_nlink di] &&
    ((0 <=? di_size di) && (di_size di <? 2 ^ 32)) && Nat.eqb (length (di_addrs di)) 13 &&
    forallb (fun x => (0 <=? x) && (x <? 2 ^ 32)) (di_addrs di) = true -> dinode_ok di.
Proof.
  rewrite !andb_true_iff, Nat.eqb_eq, !forallb_forall. intros (((H1 & H2 & H3) & H4) & H5). split; [|split; [lia|split; [exact H4|]]].
  - intros x Hx%list_elem_of_In. specialize (H1 x Hx). lia.
  - apply Forall_forall. intros x Hx%list_elem_of_In. specialize (H5 x Hx). lia.
Qed.

Lemma iupdate_correct_witness : exists s s', iupdate 1 s = Ret tt s'.
Proof.
  destruct trans1 as (s & H).
  destruct (iupdate_correct 0 pr0 s 2 30 sb1 B1 s [] _ ino1 1 (in_mem 2 di_file) H) as (s' & v' & E & _);
    [reflexivity|reflexivity|cbn; lia|apply not_elem_of_nil|vm_compute; repeat constructor|apply ok_dinode; vm_compute; reflexivity|].
  exists s, s'. exact E.
Defined.

Lemma ilock_correct_witness : exists s s', ilock (Some 1%nat) s = Ret tt s'.
Proof.
  destruct trans1 as (s & H).
  destruct (ilock_correct 0 pr0 s 2 30 sb1 B1 s [] _ ino1 1 (in_mem 2 di_file) H) as (s' & i' & E & _);
    [reflexivity|cbn; lia|reflexivity|reflexivity|cbn; lia|intros _; split; [apply not_elem_of_nil|vm_compute; split; congruence]|].
  exists s, s'. exact E.
Defined.

(** The file has block 47 only. *)
Lemma file_mapped : mapped (img1 map48) [] (in_mem 2 di_file) 1.
Proof.
  split; [vm_compute; congruence|]. split; [intros Hx; vm_compute in Hx; discriminate|].
  intros bn Hbn. assert (bn = 0) as -> by lia. split; [vm_compute; congruence|]. split; [apply not_elem_of_nil|vm_compute; split; congruence].
Qed.

Lemma readi_correct_witness : exists s s', readi 1 (Var []) 1 10 s = Ret (4, [101; 108; 108; 111]) s'.
Proof.
  destruct trans1 as (s & H).
  destruct (readi_correct 0 pr0 s 2 30 sb1 B1 s [] _ ino1 1 (in_mem 2 di_file) 1 10 H) as (s' & E & _);
    [reflexivity|reflexivity|cbn; lia|exact file_mapped|lia|lia|lia|cbn; lia|].
  exists s, s'. rewrite E. vm_compute. reflexivity.
Defined.

Lemma file_writable : writable sb1 B1 (img1 map48) [] (in_mem 2 di_file) 1.
Proof.
  assert (Hone : forall a, 0 <= a < 1 -> a = 0) by lia. constructor; [exact file_mapped|..].
  - intros a b Ha Hb _. lia.
  - intros a ->%Hone. vm_compute. congruence.
  - intros a ->%Hone. vm_compute. congruence.
  - vm_compute. congruence.
  - intros a ->%Hone. vm_compute. repeat constructor.
Qed.

Lemma writei_correct_witness : exists s s', writei 1 (Var [1; 2; 3; 4; 5]) 2 5 s = Ret 5 s'.
Proof.
  destruct trans1 as (s & H).
  destruct (writei_correct 0 pr0 s 2 30 sb1 B1 s [] _ ino1 1 (in_mem 2 di_file) 2 [1; 2; 3; 4; 5] 1 H) as (s' & v' & i' & E & _);
    [reflexivity|reflexivity|cbn; lia|exact file_writable|cbn; lia|cbn; unfold BSIZE; lia|vm_compute; congruence|
     apply ok_dinode; vm_compute; reflexivity|apply not_elem_of_nil|vm_compute; repeat constructor|].
  exists s, s'. exact E.
Defined.

Lemma writei_readi_witness : exists s s' s'', writei 1 (Var [1; 2; 3; 4; 5]) 2 5 s = Ret 5 s' /\
  readi 1 (Var []) 2 5 s' = Ret (5, [1; 2; 3; 4; 5]) s''.
Proof.
  destruct trans1 as (s & H).
  destruct (writei_readi 0 pr0 s 2 30 sb1 B1 s [] _ ino1 1 (in_mem 2 di_file) 2 [1; 2; 3; 4; 5] 1 H) as (s' & s'' & E);
    [reflexivity|reflexivity|cbn; lia|exact file_writable|cbn; lia|cbn; unfold BSIZE; lia|vm_compute; congruence|
     apply ok_dinode; vm_compute; reflexivity|apply not_elem_of_nil|vm_compute; repeat constructor|].
  exists s, s', s''. exact E.
Defined.

Lemma root_dir : dir_ok (img1 map48) [] (in_mem 1 di_root).
Proof.
  constructor; [reflexivity|reflexivity|cbn; unfold SIZEOF_DIRENT; lia|reflexivity|].
  split; [vm_compute; congruence|]. split; [intros Hx; vm_compute in Hx; discriminate|].
  change (nblocks (i_size (in_mem 1 di_root))) with 1. intros bn Hbn. assert (bn = 0) as -> by lia.
  split; [vm_compute; congruence|]. split; [apply not_elem_of_nil|vm_compute; split; congruence].
Qed.

Lemma dirlookup_correct_witness : exists s s', dirlookup 0 [97] s = Ret (Some (1%nat, 32)) s'.
Proof.
  destruct trans1 as (s & H).
  pose proof (dirlookup_correct 0 pr0 s 2 30 sb1 B1 s [] _ ino1 0 (in_mem 1 di_root) [97] H eq_refl ltac:(cbn; lia) root_dir eq_refl) as Hl.
  unfold looked_up in Hl. replace (first (matches [97]) (entries (img1 map48) (in_mem 1 di_root))) with (Some 2%nat) in Hl by (vm_compute; reflexivity).
  destruct Hl as (d & Hd & Hl). replace (entries (img1 map48) (in_mem 1 di_root) !! 2%nat) with (Some (entry1 2 97)) in Hd by (vm_compute; reflexivity).
  injection Hd as <-. unfold iget_tab in Hl. replace (first (holds ROOTDEV (de_inum (entry1 2 97))) ino1) with (Some 1%nat) in Hl by (vm_compute; reflexivity).
  destruct Hl as (s' & E & _). exists s, s'. exact E.
Defined.

Lemma skipelem_correct_witness : exists rest name', skipelem [47; 97; 47; 47; 98] (replicate 14 7) = (Some rest, name') /\
  rest = [98] /\ cut 14 name' = [97].
Proof.
  assert (Hp : Forall (fun c => 0 < c < 256) [47; 97; 47; 47; 98]).
  { repeat (apply Forall_cons; split; [lia|]). apply Forall_nil_2. }
  pose proof (skipelem_correct [47; 97; 47; 47; 98] (replicate 14 7) Hp eq_refl) as H. vm_compute in H.
  destruct H as (a & e & b & E & _ & _ & _ & _ & _ & Hc). do 2 eexists. split; [vm_compute; reflexivity|]. split; reflexivity.
Defined.

(** ** A file that grows

    The file has twelve blocks, 47 to 58, the last one not full; the process
    has ten bytes at the start of its page. *)

Definition map59 : list Z := pad (replicate 7 255 ++ [7]).
Definition file12 : inode := in_mem 2 (mkDinode T_FILE 0 0 1 12283 (map Z.of_nat (seq 47 12) ++ [0])).
Definition ino12 : list inode := in_mem 1 di_root :: file12 :: replicate 48 inode0.
Definition ten : list Z := [1; 2; 3; 4; 5; 6; 7; 8; 9; 10].
Definition B12 : list Z := [32; 45; 58; 59; 60].

Definition pr_user : proc := set_p_pagetable rootP pr0.
Definition user_mem : memory := wrbytes (demo_mem leafU) userP ten.
Definition base : kstate :=
  set_k_freelist 0x80054000 (set_k_mem user_mem (set_k_proc (<[0%nat := pr_user]> (k_proc start)) start)).

Lemma base_alone fs : alone 0 pr_user (set_k_fs fs base).
Proof.
  destruct (start_alone start eq_refl eq_refl eq_refl) as (H1 & H2 & H3 & H4 & H5 & H6 & H7).
  split_and!; try done. intros q qr ch Hq Hch. destruct (decide (q = 0%nat)) as [->|Hne]; [by injection Hq as <-|].
  change (<[0%nat := pr_user]> (k_proc start) !! q = Some qr) in Hq. rewrite list_lookup_insert_ne in Hq by done. by apply (H7 q qr).
Qed.

Lemma base_vm : vm_inv base rootP freeP /\ forall vpn, aspace user_mem rootP vpn = aspace (demo_mem leafU) rootP vpn.
Proof.
  destruct (vm_frame_page (demo leafU) rootP freeP userP user_mem) as (H1 & _ & H2).
  - apply demo_inv. by right.
  - reflexivity.
  - apply (bool_decide_unpack _). vm_compute. exact I.
  - apply (bool_decide_unpack _). vm_compute. exact I.
  - intros a Ha. unfold user_mem. apply wrbytes_outside. cbn [length ten]. unfold PGSIZE in Ha. lia.
  - split; [exact H1|exact H2].
Qed.

Lemma base_source s : k_mem s = k_mem base -> k_freelist s = k_freelist base -> source pr_user s (User 0) ten.
Proof.
  intros Em Ef. destruct base_vm as [Hvm HA]. split; [lia|]. split; [vm_compute; congruence|].
  assert (HU : forall k, 0 <= k < 10 -> user_pa (aspace (k_mem s) rootP) (0 + k) = userP).
  { intros k Hk. rewrite Em. unfold user_pa. rewrite Z.geb_leb. destruct (Z.leb_spec MAXVA (0 + k)) as [Hx|_]; [change MAXVA with 274877906944 in Hx; lia|].
    rewrite (Z.div_small (0 + k)) by (unfold PGSIZE; lia). cbv zeta. change (k_mem base) with user_mem. rewrite HA. vm_compute. reflexivity. }
  split; [|split].
  - exists freeP. revert Hvm. unfold vm_inv, tree_ok, free_pages. change (p_pagetable pr_user) with rootP. by rewrite Em, Ef.
  - intros k Hk. change (p_pagetable pr_user) with rootP. rewrite HU by (cbn [length ten] in Hk; lia). discriminate.
  - unfold uread. change (p_pagetable pr_user) with rootP. transitivity (map (fun k => u8 (user_mem (userP + Z.of_nat k))) (seq 0 10)).
    + apply map_ext_in. intros k Hk%in_seq. unfold phys. rewrite HU by lia. rewrite Em. rewrite (Z.mod_small (0 + Z.of_nat k)) by (unfold PGSIZE; lia). done.
    + vm_compute. reflexivity.
Qed.

Lemma addr12 bn : 0 <= bn < MAXFILE -> addr (img1 map59) file12 bn = if bn <? 12 then 47 + bn else 0.
Proof.
  intros Hbn. apply Z.eqb_eq. revert bn Hbn. apply (upto 268 (fun bn => addr (img1 map59) file12 bn =? (if bn <? 12 then 47 + bn else 0))).
  vm_compute. reflexivity.
Qed.

Lemma used12 b : 0 <= b < 59 -> used sb1 (img1 map59) b = true.
Proof. apply (upto 59). vm_compute. reflexivity. Qed.

Lemma file12_ok : file_ok sb1 46 (img1 map59) file12.
Proof.
  constructor; [reflexivity|vm_compute; split; congruence|apply ok_dinode; vm_compute; reflexivity| |].
  - constructor.
    + intros b Hb. apply used12. lia.
    + intros bn Hbn. rewrite addr12 by done. destruct (Z.ltb_spec bn 12); [|done]. intros _.
      split; [cbn; lia|]. apply used12. lia.
    + done.
    + intros a b Ha Hb. rewrite !addr12 by done. destruct (Z.ltb_spec a 12), (Z.ltb_spec b 12); lia.
    + intros bn Hbn. by rewrite addr12.
    + reflexivity.
  - split; [vm_compute; congruence|]. change (nblocks (i_size file12)) with 12. intros bn Hbn.
    rewrite addr12 by (change MAXFILE with 268; lia). destruct (Z.ltb_spec bn 12); lia.
Qed.

(** Block 58 is filled, 59 becomes the indirect block, and 60 its first
    entry. *)
Lemma file12_touches k : touches sb1 (img1 map59) file12 (span 12283 10) k -> k ∈ B12.
Proof.
  replace (span 12283 10) with [11; 12] by (vm_compute; reflexivity). intros [(bn & Hbn & Hz & ->)|[(bn & _ & _ & _ & Hx & _)|(b & Hb & Hk)]].
  - rewrite !elem_of_cons in Hbn. destruct Hbn as [->|[->|Hbn]]; [vm_compute; repeat constructor|by destruct Hz|by apply not_elem_of_nil in Hbn].
  - by destruct Hx.
  - replace (take _ _) with [59; 60] in Hb by (vm_compute; reflexivity). rewrite !elem_of_cons in Hb.
    destruct Hb as [->|[->|Hb]]; [..|by apply not_elem_of_nil in Hb]; destruct Hk as [->| ->]; vm_compute; repeat constructor.
Qed.

End FsWitness.
