(* ===== verification/Pipe.v ===== *)
(** * kernel/pipe.c

    A pipe lives in a page from [kalloc]: a lock, a ring of [PIPESIZE] bytes
    and four counters and flags, at the offsets the C struct gives them. *)

From S2P Require Import Prelude Machine State Kalloc Vm Printf Sched.

Definition PIPESIZE : Z := 512.

(** Offsets in [struct pipe]; the spinlock takes the first 24 bytes. *)
Definition PI_data : Z := 24.
Definition PI_nread : Z := 536.
Definition PI_nwrite : Z := 540.
Definition PI_readopen : Z := 544.
Definition PI_writeopen : Z := 548.

Definition load8 (a : Z) : K Z := gets (fun s => u8 (k_mem s a)).
Definition store8 (a v : Z) : K unit := modify (fun s => set_k_mem (wrbytes (k_mem s) a [u8 v]) s).

Section Pipe.
Context `{LAY : Layout}.

Definition pipeclose (pi : Z) (writable : bool) : K unit :=
  acquire (Lk_pipe pi) ;;;
  (if writable
   then store32 (pi + PI_writeopen) 0 ;;; wakeup (Ch_pipe_read pi)
   else store32 (pi + PI_readopen) 0 ;;; wakeup (Ch_pipe_write pi)) ;;;
  ro <- load32 (pi + PI_readopen) ;;
  wo <- load32 (pi + PI_writeopen) ;;
  if (ro =? 0) && (wo =? 0)
  then release (Lk_pipe pi) ;;; kfree pi
  else release (Lk_pipe pi).

(** The [while(i < n)] loop of [pipewrite]: [None] when it returns -1 inside,
    the number of bytes written otherwise. *)
Definition pipewrite_loop (p : nat) (pi addr n : Z) : K (option Z) :=
  loop (fun i =>
    if i <? n
    then
      ro <- load32 (pi + PI_readopen) ;;
      pr <- get_proc p ;;
      if (ro =? 0) || negb (p_killed pr =? 0)
      then release (Lk_pipe pi) ;;; ret (inr None)
      else
        nw <- load32 (pi + PI_nwrite) ;;
        nr <- load32 (pi + PI_nread) ;;
        if nw =? u32 (nr + PIPESIZE)
        then
          wakeup (Ch_pipe_read pi) ;;;
          sleep (Ch_pipe_write pi) (Lk_pipe pi) ;;;
          ret (inl i)
        else
          '(r, ch) <- copyin (p_pagetable pr) (u64 (addr + i)) 1 ;;
          if r =? -1 then ret (inr (Some i))
          else
            store32 (pi + PI_nwrite) (nw + 1) ;;;
            store8 (pi + PI_data + nw mod PIPESIZE) (nth 0 ch 0) ;;;
            ret (inl (i + 1))
    else ret (inr (Some i))) 0.

Definition pipewrite (pi addr n : Z) : K Z :=
  p <- curproc ;;
  acquire (Lk_pipe pi) ;;;
  r <- pipewrite_loop p pi addr n ;;
  match r with
  | None => ret (-1)
  | Some i =>
      wakeup (Ch_pipe_read pi) ;;;
      release (Lk_pipe pi) ;;;
      ret i
  end.

(** The wait of [piperead] for data; [false] when it returns -1 inside. *)
Definition piperead_wait (p : nat) (pi : Z) : K bool :=
  loop (fun _ : unit =>
    nr <- load32 (pi + PI_nread) ;;
    nw <- load32 (pi + PI_nwrite) ;;
    wo <- load32 (pi + PI_writeopen) ;;
    if (nr =? nw) && negb (wo =? 0)
    then
      pr <- get_proc p ;;
      if negb (p_killed pr =? 0)
      then release (Lk_pipe pi) ;;; ret (inr false)
      else sleep (Ch_pipe_read pi) (Lk_pipe pi) ;;; ret (inl tt)
    else ret (inr true)) tt.

(** The body of the [for] loop of [piperead], and the loop. *)
Definition piperead_byte (p : nat) (pi addr n i : Z) : K (Z + Z) :=
  if i <? n
  then
    nr <- load32 (pi + PI_nread) ;;
    nw <- load32 (pi + PI_nwrite) ;;
    if nr =? nw then ret (inr i)
    else
      store32 (pi + PI_nread) (nr + 1) ;;;
      ch <- load8 (pi + PI_data + nr mod PIPESIZE) ;;
      pr <- get_proc p ;;
      r <- copyout (p_pagetable pr) (u64 (addr + i)) [ch] ;;
      if r =? -1 then ret (inr i) else ret (inl (i + 1))
  else ret (inr i).

Definition piperead_copy (p : nat) (pi addr n : Z) : K Z := loop (piperead_byte p pi addr n) 0.

Definition piperead (pi addr n : Z) : K Z :=
  p <- curproc ;;
  acquire (Lk_pipe pi) ;;;
  ok <- piperead_wait p pi ;;
  if ok : bool
  then
    i <- piperead_copy p pi addr n ;;
    wakeup (Ch_pipe_write pi) ;;;
    release (Lk_pipe pi) ;;;
    ret i
  else ret (-1).
End Pipe.
