(* ===== verification/Console.v ===== *)
(** * kernel/uart.c, kernel/console.c: the interrupt-driven console

    The transmit ring of the UART, the line discipline of the console and the
    two ends of the console device. [procdump] of kernel/proc.c, which the
    console calls on control-P, is here too. *)

From S2P Require Import Prelude Machine State Kalloc Vm Printf Sched Uio.

Definition UART_TX_BUF_SIZE : Z := 32.
Definition INPUT_BUF : Z := 128.

Definition get_io : K iostate := gets k_io.
Definition get_cons : K console := gets (fun s => io_cons (k_io s)).
Definition upd_cons (f : console -> console) : K unit := upd_io (fun io => set_io_cons (f (io_cons io)) io).

(** ** kernel/uart.c *)

Definition uartstart : K unit :=
  loop (fun _ : unit =>
    io <- get_io ;;
    if io_tx_w io =? io_tx_r io then ret (inr tt)
    else
      lsr <- ReadLSR ;;
      if Z.land lsr LSR_TX_IDLE =? 0 then ret (inr tt)
      else
        let c := nth (Z.to_nat (io_tx_r io mod UART_TX_BUF_SIZE)) (io_tx_buf io) 0 in
        upd_io (fun io => set_io_tx_r (u64 (io_tx_r io + 1)) io) ;;;
        wakeup Ch_uart ;;;
        WriteTHR c ;;;
        ret (inl tt)) tt.

Definition uartputc (c : Z) : K unit :=
  acquire Lk_uart ;;;
  io <- get_io ;;
  if negb (io_panicked io =? 0) then spin
  else
    loop (fun _ : unit =>
      io <- get_io ;;
      if io_tx_w io =? u64 (io_tx_r io + UART_TX_BUF_SIZE)
      then sleep Ch_uart Lk_uart ;;; ret (inl tt)
      else
        upd_io (fun io => set_io_tx_w (u64 (io_tx_w io + 1))
          (set_io_tx_buf (<[Z.to_nat (io_tx_w io mod UART_TX_BUF_SIZE) := u8 c]> (io_tx_buf io)) io)) ;;;
        uartstart ;;;
        release Lk_uart ;;;
        ret (inr tt)) tt.

(** [ReadReg(RHR)]: the device hands out the oldest waiting byte. *)
Definition ReadRHR : K Z := fun s =>
  match io_in (k_io s) with
  | c :: l => Ret (u8 c) (set_k_io (set_io_in l (k_io s)) s)
  | [] => Ret 0 s
  end.

Definition uartgetc : K Z :=
  lsr <- ReadLSR ;;
  if negb (Z.land lsr 1 =? 0) then ReadRHR else ret (-1).

(** ** kernel/proc.c: [procdump] *)

Definition str_newline : list Z := [10].
Definition fmt_proc : list Z := [37; 100; 32; 37; 115; 32; 37; 115].  (* "%d %s %s" *)

(** [states[]]; an entry the table leaves null prints as ["???"]. *)
Definition state_name (st : procstate) : list Z :=
  match st with
  | UNUSED => [117; 110; 117; 115; 101; 100]
  | USED => [63; 63; 63]
  | SLEEPING => [115; 108; 101; 101; 112; 32]
  | RUNNABLE => [114; 117; 110; 98; 108; 101]
  | RUNNING => [114; 117; 110; 32; 32; 32]
  | ZOMBIE => [122; 111; 109; 98; 105; 101]
  end.

Definition procdump : K unit :=
  printf (Some str_newline) [] ;;;
  for_all (seq 0 NPROC) (fun p =>
    pr <- get_proc p ;;
    if decide (p_state pr = UNUSED) then ret tt
    else
      printf (Some fmt_proc) [AInt (p_pid pr); AStr (Some (state_name (p_state pr))); AStr (Some (upto_nul (p_name pr)))] ;;;
      printf (Some str_newline) []).

(** ** kernel/console.c *)

(** [C(x)], control-x. *)
Definition CTRL (x : Z) : Z := x - 64.
Definition CTRL_P : Z := CTRL 80.
Definition CTRL_U : Z := CTRL 85.
Definition CTRL_H : Z := CTRL 72.
Definition CTRL_D : Z := CTRL 68.
Definition DEL : Z := 127.
Definition NL : Z := 10.
Definition CR : Z := 13.

Definition cons_at (c : console) (k : Z) : Z := nth (Z.to_nat (k mod INPUT_BUF)) (c_buf c) 0.

Definition consoleintr (c : Z) : K unit :=
  acquire Lk_cons ;;;
  (if c =? CTRL_P then procdump
   else if c =? CTRL_U then
     loop (fun _ : unit =>
       cs <- get_cons ;;
       if negb (c_e cs =? c_w cs) && negb (cons_at cs (u32 (c_e cs - 1)) =? NL)
       then upd_cons (fun cs => set_c_e (u32 (c_e cs - 1)) cs) ;;; consputc BACKSPACE ;;; ret (inl tt)
       else ret (inr tt)) tt
   else if (c =? CTRL_H) || (c =? DEL) then
     cs <- get_cons ;;
     if negb (c_e cs =? c_w cs)
     then upd_cons (fun cs => set_c_e (u32 (c_e cs - 1)) cs) ;;; consputc BACKSPACE
     else ret tt
   else
     cs <- get_cons ;;
     if negb (c =? 0) && (u32 (c_e cs - c_r cs) <? INPUT_BUF)
     then
       let c := if c =? CR then NL else c in
       consputc c ;;;
       upd_cons (fun cs => set_c_e (u32 (c_e cs + 1)) (set_c_buf (<[Z.to_nat (c_e cs mod INPUT_BUF) := u8 c]> (c_buf cs)) cs)) ;;;
       cs <- get_cons ;;
       if (c =? NL) || (c =? CTRL_D) || (c_e cs =? u32 (c_r cs + INPUT_BUF))
       then upd_cons (fun cs => set_c_w (c_e cs) cs) ;;; wakeup Ch_cons
       else ret tt
     else ret tt) ;;;
  release Lk_cons.

Definition uartintr : K unit :=
  loop (fun _ : unit =>
    c <- uartgetc ;;
    if c =? -1 then ret (inr tt) else consoleintr c ;;; ret (inl tt)) tt ;;;
  acquire Lk_uart ;;;
  uartstart ;;;
  release Lk_uart.

Section Console.
Context `{LAY : Layout}.

Definition consolewrite (src : place) (n : Z) : K Z :=
  loop (fun i =>
    if i <? n
    then
      '(r, c) <- either_copyin (advance src i) 1 ;;
      if r =? -1 then ret (inr i)
      else uartputc (nth 0 c 0) ;;; ret (inl (i + 1))
    else ret (inr i)) 0.

(** The wait of [consoleread] for input; [false] when it returns -1 inside. *)
Definition cons_wait : K bool :=
  loop (fun _ : unit =>
    cs <- get_cons ;;
    if c_r cs =? c_w cs
    then
      p <- curproc ;; pr <- get_proc p ;;
      if negb (p_killed pr =? 0) then release Lk_cons ;;; ret (inr false)
      else sleep Ch_cons Lk_cons ;;; ret (inl tt)
    else ret (inr true)) tt.

(** The outer loop; [None] when the wait gave up, else what is left of [n]. *)
Definition consoleread_loop (dst : place) (n target : Z) : K (option Z) :=
  loop (fun '(dst, n) =>
    if n >? 0
    then
      ok <- cons_wait ;;
      if negb ok then ret (inr None)
      else
        cs <- get_cons ;;
        let c := cons_at cs (c_r cs) in
        upd_cons (fun cs => set_c_r (u32 (c_r cs + 1)) cs) ;;;
        if c =? CTRL_D
        then
          (if u32 n <? target then upd_cons (fun cs => set_c_r (u32 (c_r cs - 1)) cs) else ret tt) ;;;
          ret (inr (Some n))
        else
          r <- either_copyout dst [u8 c] ;;
          if r =? -1 then ret (inr (Some n))
          else if c =? NL then ret (inr (Some (n - 1)))
          else ret (inl (advance dst 1, n - 1))
    else ret (inr (Some n))) (dst, n).

Definition consoleread (dst : place) (n : Z) : K Z :=
  let target := u32 n in
  acquire Lk_cons ;;;
  r <- consoleread_loop dst n target ;;
  match r with
  | None => ret (-1)
  | Some n' => release Lk_cons ;;; ret (i32 (target - n'))
  end.
End Console.
