(* ===== verification/File.v ===== *)
(** * kernel/file.c, and [pipealloc] of kernel/pipe.c

    The table of open files. [fileread], [filewrite] and [fileclose] dispatch
    to pipes, devices and inodes; the device switch holds what [consoleinit]
    puts there at boot. *)

From S2P Require Import Prelude Machine State Kalloc Vm Printf Sched Sleeplock Block Bio Log Uio Fs Pipe Console.

Definition CONSOLE : Z := 1.

(** ** Pointers into the table *)

Definition get_file (f : nat) : K file := fun s =>
  match k_ftable s !! f with
  | Some x => Ret x s
  | None => undefined s
  end.

Definition upd_file (f : nat) (g : file -> file) : K unit :=
  modify (fun s => set_k_ftable (alter g f (k_ftable s)) s).

Section File.
Context `{LAY : Layout} `{DD : DiskDriver}.

Definition filealloc : K (option nat) :=
  acquire Lk_ftable ;;;
  r <- for_each (seq 0 NFILE) (fun f =>
    x <- get_file f ;;
    if f_ref x =? 0
    then upd_file f (set_f_ref 1) ;;; release Lk_ftable ;;; ret (Some f)
    else ret None) ;;
  match r with
  | Some f => ret (Some f)
  | None => release Lk_ftable ;;; ret None
  end.

Definition filedup (f : nat) : K nat :=
  acquire Lk_ftable ;;;
  x <- get_file f ;;
  if f_ref x <? 1 then panic "filedup"
  else
    upd_file f (fun x => set_f_ref (i32 (f_ref x + 1)) x) ;;;
    release Lk_ftable ;;;
    ret f.

(** [ip] of a file of type [FD_INODE] or [FD_DEVICE]. *)
Definition file_ip (x : file) : K nat :=
  match f_ip x with Some ip => ret ip | None => undefined end.

Definition fileclose (f : nat) : K unit :=
  acquire Lk_ftable ;;;
  x <- get_file f ;;
  if f_ref x <? 1 then panic "fileclose"
  else
    upd_file f (fun x => set_f_ref (i32 (f_ref x - 1)) x) ;;;
    ff <- get_file f ;;
    if f_ref ff >? 0 then release Lk_ftable
    else
      upd_file f (fun x => set_f_type FD_NONE (set_f_ref 0 x)) ;;;
      release Lk_ftable ;;;
      match f_type ff with
      | FD_PIPE => pipeclose (f_pipe ff) (negb (f_writable ff =? 0))
      | FD_INODE | FD_DEVICE =>
          begin_op ;;;
          ip <- file_ip ff ;;
          iput ip ;;;
          end_op
      | FD_NONE => ret tt
      end.

(** [struct stat] as bytes; [junk] is what the stack held, which shows in the
    four bytes of padding before [size]. *)
Definition stat_bytes (junk : list Z) (st : stat) : list Z :=
  let b := wr 4 junk 0 (st_dev st) in
  let b := wr 4 b 4 (st_ino st) in
  let b := wr 2 b 8 (st_type st) in
  let b := wr 2 b 10 (st_nlink st) in
  wr 8 b 16 (st_size st).

Definition filestat (junk : list Z) (f : nat) (addr : Z) : K Z :=
  p <- curproc ;;
  x <- get_file f ;;
  match f_type x with
  | FD_INODE | FD_DEVICE =>
      ip <- file_ip x ;;
      ilock (Some ip) ;;;
      st <- stati ip ;;
      iunlock (Some ip) ;;;
      pr <- get_proc p ;;
      r <- copyout (p_pagetable pr) addr (stat_bytes junk st) ;;
      if r <? 0 then ret (-1) else ret 0
  | _ => ret (-1)
  end.

(** [devsw[major]], after [consoleinit]. *)
Definition devsw_read (major : Z) : option (place -> Z -> K Z) :=
  if (major <? 0) || (major >=? NDEV) then None
  else if major =? CONSOLE then Some consoleread else None.

Definition devsw_write (major : Z) : option (place -> Z -> K Z) :=
  if (major <? 0) || (major >=? NDEV) then None
  else if major =? CONSOLE then Some consolewrite else None.

Definition fileread (f : nat) (addr n : Z) : K Z :=
  x <- get_file f ;;
  if f_readable x =? 0 then ret (-1)
  else
    match f_type x with
    | FD_PIPE => piperead (f_pipe x) addr n
    | FD_DEVICE =>
        match devsw_read (f_major x) with
        | None => ret (-1)
        | Some read => read (User addr) n
        end
    | FD_INODE =>
        ip <- file_ip x ;;
        ilock (Some ip) ;;;
        x <- get_file f ;;
        '(r, _) <- readi ip (User addr) (f_off x) (u32 n) ;;
        (if r >? 0 then upd_file f (fun x => set_f_off (u32 (f_off x + r)) x) else ret tt) ;;;
        iunlock (Some ip) ;;;
        ret r
    | FD_NONE => panic "fileread"
    end.

(** Bytes per transaction of [filewrite]. *)
Definition WRITE_MAX : Z := (MAXOPBLOCKS - 1 - 1 - 2) / 2 * BSIZE.

Definition filewrite (f : nat) (addr n : Z) : K Z :=
  x <- get_file f ;;
  if f_writable x =? 0 then ret (-1)
  else
    match f_type x with
    | FD_PIPE => pipewrite (f_pipe x) addr n
    | FD_DEVICE =>
        match devsw_write (f_major x) with
        | None => ret (-1)
        | Some write => write (User addr) n
        end
    | FD_INODE =>
        ip <- file_ip x ;;
        i <- loop (fun i =>
          if i <? n
          then
            let n1 := if n - i >? WRITE_MAX then WRITE_MAX else n - i in
            begin_op ;;;
            ilock (Some ip) ;;;
            x <- get_file f ;;
            r <- writei ip (User (u64 (addr + i))) (f_off x) (u32 n1) ;;
            (if r >? 0 then upd_file f (fun x => set_f_off (u32 (f_off x + r)) x) else ret tt) ;;;
            iunlock (Some ip) ;;;
            end_op ;;;
            if negb (r =? n1) then ret (inr i) else ret (inl (i32 (i + r)))
          else ret (inr i)) 0 ;;
        ret (if i =? n then n else -1)
    | FD_NONE => panic "filewrite"
    end.

(** ** kernel/pipe.c: [pipealloc] *)

(** The [bad:] label: undo what has been allocated. *)
Definition pipealloc_bad (pi : Z) (f0 f1 : option nat) : K (option (nat * nat)) :=
  (if negb (pi =? 0) then kfree pi else ret tt) ;;;
  match f0 with Some f => fileclose f | None => ret tt end ;;;
  match f1 with Some f => fileclose f | None => ret tt end ;;;
  ret None.

(** The two ends, or [None] for -1. *)
Definition pipealloc : K (option (nat * nat)) :=
  f0 <- filealloc ;;
  match f0 with
  | None => pipealloc_bad 0 None None
  | Some r =>
      f1 <- filealloc ;;
      match f1 with
      | None => pipealloc_bad 0 (Some r) None
      | Some w =>
          pi <- kalloc ;;
          if pi =? 0 then pipealloc_bad 0 (Some r) (Some w)
          else
            store32 (pi + PI_readopen) 1 ;;;
            store32 (pi + PI_writeopen) 1 ;;;
            store32 (pi + PI_nwrite) 0 ;;;
            store32 (pi + PI_nread) 0 ;;;
            upd_file r (fun x => set_f_pipe pi (set_f_writable 0 (set_f_readable 1 (set_f_type FD_PIPE x)))) ;;;
            upd_file w (fun x => set_f_pipe pi (set_f_writable 1 (set_f_readable 0 (set_f_type FD_PIPE x)))) ;;;
            ret (Some (r, w))
      end
  end.
End File.
