(* ===== verification/Proc.v ===== *)
(** * kernel/proc.c: process creation and termination, mapped regions

    The life of a process: allocation of its slot, trapframe and page table,
    [fork], [exit], [wait]; the families of processes that share a mapped
    region. A node of a family is the pair of the process and the index of the
    region in its table. *)

From S2P Require Import Prelude Machine State CString Kalloc Vm Printf Sched Sleeplock Block Bio Log Uio Fs Pipe Console File.

(** ** Mapped regions *)

Definition get_mmr (p i : nat) : K mmr :=
  pr <- get_proc p ;;
  match p_mmr pr !! i with Some m => ret m | None => undefined end.

Definition upd_mmr (p i : nat) (f : mmr -> mmr) : K unit :=
  upd_proc p (fun pr => set_p_mmr (alter f i (p_mmr pr)) pr).

Definition upd_family (nd : node) (f : mmr_node -> mmr_node) : K unit :=
  upd_mmr nd.1 nd.2 (fun m => set_mr_family (f (mr_family m)) m).

(** A pointer to a family node that the code follows. *)
Definition deref (nd : option node) : K node :=
  match nd with Some n => ret n | None => undefined end.

Definition NMMRLIST : nat := NPROC * MAX_MMR.

Definition mmrlistinit : K unit :=
  for_all (seq 0 NMMRLIST) (fun i => modify (fun s => set_k_mmr_list (<[i := 0]> (k_mmr_list s)) s)).

(** [mmr_list[listid].valid] of an entry of the array. *)
Definition list_valid (listid : Z) : K Z := fun s =>
  if (0 <=? listid) && (listid <? Z.of_nat NMMRLIST)
  then match k_mmr_list s !! Z.to_nat listid with Some v => Ret v s | None => undefined s end
  else undefined s.

Definition set_list_valid (listid v : Z) : K unit :=
  if (0 <=? listid) && (listid <? Z.of_nat NMMRLIST)
  then modify (fun s => set_k_mmr_list (<[Z.to_nat listid := v]> (k_mmr_list s)) s)
  else undefined.

(** [&mmr_list[listid].lock]. *)
Definition acquire_list (listid : Z) : K unit :=
  if (0 <=? listid) && (listid <? Z.of_nat NMMRLIST) then acquire (Lk_mmrlist listid) else undefined.
Definition release_list (listid : Z) : K unit :=
  if (0 <=? listid) && (listid <? Z.of_nat NMMRLIST) then release (Lk_mmrlist listid) else undefined.

(** A pointer to an entry of [mmr_list], null when there is none. *)
Definition get_mmr_list (listid : Z) : K (option Z) :=
  acquire Lk_listid ;;;
  v <- (if (listid >=? 0) && (listid <? Z.of_nat NMMRLIST) then list_valid listid else ret 0) ;;
  release Lk_listid ;;;
  ret (if negb (v =? 0) then Some listid else None).

Definition dealloc_mmr_listid (listid : Z) : K unit :=
  acquire Lk_listid ;;;
  set_list_valid listid 0 ;;;
  release Lk_listid.

Definition alloc_mmr_listid : K Z :=
  acquire Lk_listid ;;;
  r <- for_each (seq 0 NMMRLIST) (fun i =>
    v <- list_valid (Z.of_nat i) ;;
    if v =? 0 then set_list_valid (Z.of_nat i) 1 ;;; ret (Some (Z.of_nat i)) else ret None) ;;
  release Lk_listid ;;;
  ret (match r with Some i => i | None => -1 end).

(** [for(uint64 addr = m.addr; addr < m.addr + m.length; addr += PGSIZE)];
    the body yields [Some] to leave the function. *)
Definition for_pages {R} (m : mmr) (body : Z -> K (option R)) : K (option R) :=
  loop (fun addr =>
    if addr <? u64 (mr_addr m + mr_length m)
    then
      r <- body addr ;;
      match r with
      | Some v => ret (inr (Some v))
      | None => ret (inl (u64 (addr + PGSIZE)))
      end
    else ret (inr None)) (mr_addr m).

(** ** Processes *)

Definition procinit : K unit :=
  queueinit ;;;
  for_all (seq 0 NPROC) (fun p => upd_proc p (set_p_kstack (KSTACK (Z.of_nat p)))).

Definition allocpid : K Z :=
  acquire Lk_pid ;;;
  pid <- gets k_nextpid ;;
  modify (fun s => set_k_nextpid (i32 (k_nextpid s + 1)) s) ;;;
  release Lk_pid ;;;
  ret pid.

Section Proc.
Context `{LAY : Layout} `{DD : DiskDriver}.

Definition proc_pagetable (p : nat) : K Z :=
  pagetable <- uvmcreate ;;
  if pagetable =? 0 then ret 0
  else
    r <- mappages pagetable TRAMPOLINE PGSIZE trampoline (Z.lor PTE_R PTE_X) ;;
    if r <? 0 then uvmfree pagetable 0 ;;; ret 0
    else
      pr <- get_proc p ;;
      r <- mappages pagetable TRAPFRAME PGSIZE (p_trapframe pr) (Z.lor PTE_R PTE_W) ;;
      if r <? 0
      then
        uvmunmap pagetable TRAMPOLINE 1 false ;;;
        uvmfree pagetable 0 ;;;
        ret 0
      else ret pagetable.

Definition proc_freepagetable (pagetable sz : Z) : K unit :=
  uvmunmap pagetable TRAMPOLINE 1 false ;;;
  uvmunmap pagetable TRAPFRAME 1 false ;;;
  uvmfree pagetable sz.

(** One region in [freeproc]: leave the family, then unmap the pages. *)
Definition free_mmr (p i : nat) : K unit :=
  m <- get_mmr p i ;;
  if mr_valid m =? 1
  then
    dofree <- (if hasbit (mr_flags m) MAP_PRIVATE then ret true
               else
                 let fam := mr_family m in
                 acquire_list (mn_listid fam) ;;;
                 if decide (mn_next fam = Some (p, i))
                 then
                   release_list (mn_listid fam) ;;;
                   dealloc_mmr_listid (mn_listid fam) ;;;
                   ret true
                 else
                   nx <- deref (mn_next fam) ;;
                   upd_family nx (set_mn_prev (mn_prev fam)) ;;;
                   m <- get_mmr p i ;;
                   pv <- deref (mn_prev (mr_family m)) ;;
                   upd_family pv (set_mn_next (mn_next (mr_family m))) ;;;
                   release_list (mn_listid fam) ;;;
                   ret false) ;;
    pr <- get_proc p ;;
    _ <- for_pages (R := unit) m (fun addr =>
      pa <- walkaddr (p_pagetable pr) addr ;;
      (if negb (pa =? 0) then uvmunmap (p_pagetable pr) addr 1 dofree else ret tt) ;;;
      ret None) ;;
    ret tt
  else ret tt.

Definition freeproc (p : nat) : K unit :=
  pr <- get_proc p ;;
  (if negb (p_trapframe pr =? 0) then kfree (p_trapframe pr) else ret tt) ;;;
  upd_proc p (set_p_trapframe 0) ;;;
  for_all (seq 0 MAX_MMR) (free_mmr p) ;;;
  pr <- get_proc p ;;
  (if negb (p_pagetable pr =? 0) then proc_freepagetable (p_pagetable pr) (p_sz pr) else ret tt) ;;;
  upd_proc p (fun pr =>
    set_p_state UNUSED (set_p_xstate 0 (set_p_killed 0 (set_p_chan None (set_p_name (<[0%nat := 0]> (p_name pr))
      (set_p_parent None (set_p_pid 0 (set_p_sz 0 (set_p_pagetable 0 pr))))))))).

(** The search of [allocproc]: the first unused slot, its lock held. *)
Definition find_unused : K (option nat) :=
  for_each (seq 0 NPROC) (fun p =>
    acquire (Lk_proc p) ;;;
    pr <- get_proc p ;;
    if decide (p_state pr = UNUSED) then ret (Some p)
    else release (Lk_proc p) ;;; ret None).

Definition allocproc : K (option nat) :=
  r <- find_unused ;;
  match r with
  | None => ret None
  | Some p =>
      pid <- allocpid ;;
      upd_proc p (fun pr => set_p_next None (set_p_yielded 0 (set_p_tsticks TSTICKSHIGH (set_p_timeslice TSTICKSHIGH
        (set_p_priority HIGH (set_p_cputime 0 (set_p_state USED (set_p_pid pid pr)))))))) ;;;
      tf <- kalloc ;;
      upd_proc p (set_p_trapframe tf) ;;;
      if tf =? 0 then freeproc p ;;; release (Lk_proc p) ;;; ret None
      else
        pt <- proc_pagetable p ;;
        upd_proc p (set_p_pagetable pt) ;;;
        if pt =? 0 then freeproc p ;;; release (Lk_proc p) ;;; ret None
        else
          upd_proc p (fun pr => set_p_context (mkContext forkret_addr (p_kstack pr + PGSIZE) (replicate 12 0)) pr) ;;;
          ret (Some p)
  end.

(** [safestrcpy(dst, src, n)] on buffers: the new contents of [dst]. *)
Definition safestrcpy_buf (dst src : list Z) (n : Z) : K (list Z) :=
  '(_, m) <- on_bufs (safestrcpy 0 VAR2 n) (at02 dst src) ;;
  ret (rdbytes m 0 (length dst)).

Definition initcode : list Z :=
  [0x17; 0x05; 0x00; 0x00; 0x13; 0x05; 0x45; 0x02;
   0x97; 0x05; 0x00; 0x00; 0x93; 0x85; 0x35; 0x02;
   0x93; 0x08; 0x70; 0x00; 0x73; 0x00; 0x00; 0x00;
   0x93; 0x08; 0x20; 0x00; 0x73; 0x00; 0x00; 0x00;
   0xef; 0xf0; 0x9f; 0xff; 0x2f; 0x69; 0x6e; 0x69;
   0x74; 0x00; 0x00; 0x24; 0x00; 0x00; 0x00; 0x00;
   0x00; 0x00; 0x00; 0x00].

Definition str_initcode : list Z := [105; 110; 105; 116; 99; 111; 100; 101].
Definition str_root : list Z := [SLASH].

Definition userinit (junk : list Z) : K unit :=
  r <- allocproc ;;
  modify (set_k_initproc r) ;;;
  match r with
  | None => undefined
  | Some p =>
      upd_proc p (set_p_cur_max (MAXVA - 2 * PGSIZE)) ;;;
      pr <- get_proc p ;;
      uvminit (p_pagetable pr) initcode ;;;
      upd_proc p (set_p_sz PGSIZE) ;;;
      store64 (p_trapframe pr + TF_epc) 0 ;;;
      store64 (p_trapframe pr + TF_sp) PGSIZE ;;;
      name <- safestrcpy_buf (p_name pr) str_initcode 16 ;;
      upd_proc p (set_p_name name) ;;;
      cwd <- namei junk str_root ;;
      upd_proc p (set_p_cwd cwd) ;;;
      upd_proc p (set_p_state RUNNABLE) ;;;
      pr <- get_proc p ;;
      enqueue_at_tail p (p_priority pr) ;;;
      release (Lk_proc p)
  end.

Definition growproc (n : Z) : K Z :=
  p <- curproc ;;
  pr <- get_proc p ;;
  let sz := u32 (p_sz pr) in
  if n >? 0
  then
    r <- uvmalloc (p_pagetable pr) sz (u32 (sz + n)) ;;
    let sz := u32 r in
    if sz =? 0 then ret (-1) else upd_proc p (set_p_sz sz) ;;; ret 0
  else if n <? 0
  then
    r <- uvmdealloc (p_pagetable pr) sz (u32 (sz + n)) ;;
    upd_proc p (set_p_sz (u32 r)) ;;; ret 0
  else upd_proc p (set_p_sz sz) ;;; ret 0.

(** ** [fork] *)

(** The pages of one region copied to the child, by [copy] ([uvmcopy] or
    [uvmcopyshared]); [true] when a copy failed. *)
Definition fork_pages (p np : nat) (m : mmr) (copy : Z -> Z -> Z -> Z -> K Z) : K bool :=
  r <- for_pages m (fun addr =>
    pr <- get_proc p ;;
    pa <- walkaddr (p_pagetable pr) addr ;;
    if negb (pa =? 0)
    then
      npr <- get_proc np ;;
      r <- copy (p_pagetable pr) (p_pagetable npr) addr (u64 (addr + PGSIZE)) ;;
      if r <? 0 then ret (Some tt) else ret None
    else ret None) ;;
  ret (match r with Some _ => true | None => false end).

(** The child joins the family of a shared region next to its parent. *)
Definition fork_join (p np i : nat) : K unit :=
  m <- get_mmr p i ;;
  let listid := mn_listid (mr_family m) in
  upd_family (np, i) (fun fam => set_mn_listid listid (set_mn_proc (Some np) fam)) ;;;
  acquire_list listid ;;;
  upd_family (np, i) (set_mn_next (mn_next (mr_family m))) ;;;
  upd_family (p, i) (set_mn_next (Some (np, i))) ;;;
  upd_family (np, i) (set_mn_prev (Some (p, i))) ;;;
  (if decide (mn_prev (mr_family m) = Some (p, i)) then upd_family (p, i) (set_mn_prev (Some (np, i))) else ret tt) ;;;
  release_list listid.

(** The loop over the regions; [Some tt] when the child has been given up. *)
Definition fork_mmrs (p np : nat) : K (option unit) :=
  for_each (seq 0 MAX_MMR) (fun i =>
    m <- get_mmr p i ;;
    if mr_valid m =? 1
    then
      if hasbit (mr_flags m) MAP_PRIVATE
      then
        failed <- fork_pages p np m uvmcopy ;;
        if failed : bool then freeproc np ;;; release (Lk_proc np) ;;; ret (Some tt)
        else
          upd_family (np, i) (fun fam => set_mn_prev (Some (np, i)) (set_mn_next (Some (np, i))
            (set_mn_listid (-1) (set_mn_proc (Some np) fam)))) ;;;
          ret None
      else
        failed <- fork_pages p np m uvmcopyshared ;;
        if failed : bool then freeproc np ;;; release (Lk_proc np) ;;; ret (Some tt)
        else fork_join p np i ;;; ret None
    else ret None).

Definition fork : K Z :=
  p <- curproc ;;
  r <- allocproc ;;
  match r with
  | None => ret (-1)
  | Some np =>
      pr <- get_proc p ;;
      npr <- get_proc np ;;
      r <- uvmcopy (p_pagetable pr) (p_pagetable npr) 0 (p_sz pr) ;;
      if r <? 0 then freeproc np ;;; release (Lk_proc np) ;;; ret (-1)
      else
        upd_proc np (fun x => set_p_cur_max (p_cur_max pr) (set_p_sz (p_sz pr) x)) ;;;
        kmemmove (p_trapframe npr) (p_trapframe pr) SIZEOF_TRAPFRAME ;;;
        store64 (p_trapframe npr + TF_a0) 0 ;;;
        for_all (seq 0 NOFILE) (fun i =>
          match p_ofile pr !! i with
          | Some (Some f) => f' <- filedup f ;; upd_proc np (fun x => set_p_ofile (<[i := Some f']> (p_ofile x)) x)
          | _ => ret tt
          end) ;;;
        cwd <- (match p_cwd pr with Some d => idup d | None => undefined end) ;;
        upd_proc np (set_p_cwd (Some cwd)) ;;;
        name <- safestrcpy_buf (p_name npr) (p_name pr) 16 ;;
        upd_proc np (set_p_name name) ;;;
        let pid := p_pid npr in
        upd_proc np (set_p_mmr (p_mmr pr)) ;;;
        r <- fork_mmrs p np ;;
        match r with
        | Some _ => ret (-1)
        | None =>
            release (Lk_proc np) ;;;
            acquire Lk_wait ;;;
            upd_proc np (set_p_parent (Some p)) ;;;
            release Lk_wait ;;;
            acquire (Lk_proc np) ;;;
            upd_proc np (set_p_state RUNNABLE) ;;;
            npr <- get_proc np ;;
            enqueue_at_tail np (p_priority npr) ;;;
            release (Lk_proc np) ;;;
            ret pid
        end
  end.

(** ** Termination *)

(** [wakeup(chan)] where [chan] is a pointer to a process that may be null. *)
Definition wakeup_proc (q : option nat) : K unit :=
  match q with
  | Some q => wakeup (Ch_proc q)
  | None =>
      for_all (seq 0 NPROC) (fun p =>
        me <- myproc ;;
        if decide (me = Some p) then ret tt
        else
          acquire (Lk_proc p) ;;;
          pr <- get_proc p ;;
          (if decide (p_state pr = SLEEPING /\ p_chan pr = None)
           then upd_proc p (set_p_state RUNNABLE) ;;; enqueue_at_head p (p_priority pr) ;;; ret tt
           else ret tt) ;;;
          release (Lk_proc p))
  end.

Definition reparent (p : nat) : K unit :=
  for_all (seq 0 NPROC) (fun pp =>
    pr <- get_proc pp ;;
    if decide (p_parent pr = Some p)
    then
      ini <- gets k_initproc ;;
      upd_proc pp (set_p_parent ini) ;;;
      wakeup_proc ini
    else ret tt).

Definition exit (status : Z) : K unit :=
  p <- curproc ;;
  ini <- gets k_initproc ;;
  if decide (ini = Some p) then panic "init exiting"
  else
    for_all (seq 0 NOFILE) (fun fd =>
      pr <- get_proc p ;;
      match p_ofile pr !! fd with
      | Some (Some f) =>
          fileclose f ;;;
          upd_proc p (fun x => set_p_ofile (<[fd := None]> (p_ofile x)) x)
      | _ => ret tt
      end) ;;;
    begin_op ;;;
    pr <- get_proc p ;;
    (match p_cwd pr with Some d => iput d | None => undefined end) ;;;
    end_op ;;;
    upd_proc p (set_p_cwd None) ;;;
    acquire Lk_wait ;;;
    reparent p ;;;
    pr <- get_proc p ;;
    wakeup_proc (p_parent pr) ;;;
    acquire (Lk_proc p) ;;;
    upd_proc p (fun x => set_p_state ZOMBIE (set_p_xstate status x)) ;;;
    release Lk_wait ;;;
    sched ;;;
    panic "zombie exit".

(** [n] bytes of a little-endian integer. *)
Definition le (n : nat) (v : Z) : list Z := wr n (replicate n 0) 0 v.

(** The scan for an exited child: whether there are children, and the result
    when the function returns. *)
Definition wait_scan (p : nat) (found : nat -> proc -> K Z) : K (bool * option Z) :=
  loop (fun '(np, havekids) =>
    if Nat.ltb np NPROC
    then
      npr <- get_proc np ;;
      if decide (p_parent npr = Some p)
      then
        acquire (Lk_proc np) ;;;
        npr <- get_proc np ;;
        if decide (p_state npr = ZOMBIE)
        then r <- found np npr ;; ret (inr (true, Some r))
        else release (Lk_proc np) ;;; ret (inl (S np, true))
      else ret (inl (S np, havekids))
    else ret (inr (havekids, None))) (0%nat, false).

Definition wait_loop (p : nat) (found : nat -> proc -> K Z) : K Z :=
  loop (fun _ : unit =>
    '(havekids, r) <- wait_scan p found ;;
    match r with
    | Some v => ret (inr v)
    | None =>
        pr <- get_proc p ;;
        if negb havekids || negb (p_killed pr =? 0)
        then release Lk_wait ;;; ret (inr (-1))
        else sleep (Ch_proc p) Lk_wait ;;; ret (inl tt)
    end) tt.

(** A zombie child has been found, its lock held: report and free it. *)
Definition wait_reap (np : nat) (pid r : Z) : K Z :=
  if r <? 0
  then release (Lk_proc np) ;;; release Lk_wait ;;; ret (-1)
  else
    freeproc np ;;;
    release (Lk_proc np) ;;;
    release Lk_wait ;;;
    ret pid.

Definition wait (addr : Z) : K Z :=
  p <- curproc ;;
  acquire Lk_wait ;;;
  wait_loop p (fun np npr =>
    pr <- get_proc p ;;
    r <- (if negb (addr =? 0) then copyout (p_pagetable pr) addr (le 4 (p_xstate npr)) else ret 0) ;;
    wait_reap np (p_pid npr) r).

Definition wait2 (addr raddr : Z) : K Z :=
  p <- curproc ;;
  acquire Lk_wait ;;;
  wait_loop p (fun np npr =>
    pr <- get_proc p ;;
    copyout (p_pagetable pr) raddr (le 8 (p_cputime npr)) ;;;
    r <- copyout (p_pagetable pr) addr (le 4 (p_xstate npr)) ;;
    wait_reap np (p_pid npr) r).

Definition kill (pid : Z) : K Z :=
  r <- for_each (seq 0 NPROC) (fun p =>
    acquire (Lk_proc p) ;;;
    pr <- get_proc p ;;
    if p_pid pr =? pid
    then
      upd_proc p (set_p_killed 1) ;;;
      (if decide (p_state pr = SLEEPING)
       then upd_proc p (set_p_state RUNNABLE) ;;; enqueue_at_tail p (p_priority pr) ;;; ret tt
       else ret tt) ;;;
      release (Lk_proc p) ;;;
      ret (Some tt)
    else release (Lk_proc p) ;;; ret None) ;;
  ret (match r with Some _ => 0 | None => -1 end).

(** The numbers of [enum procstate]. *)
Definition procstate_num (st : procstate) : Z :=
  match st with UNUSED => 0 | USED => 1 | SLEEPING => 2 | RUNNABLE => 3 | RUNNING => 4 | ZOMBIE => 5 end.

Definition SIZEOF_PSTAT : Z := 56.

(** One round of [procinfo]: [st] is the local struct, whose [arrivaltime] and
    padding no round assigns. *)
Definition pstat_fill (st : list Z) (pr : proc) (ppid : Z) : list Z :=
  let st := wr 4 st 0 (p_pid pr) in
  let st := wr 4 st 4 (procstate_num (p_state pr)) in
  let st := wr 8 st 8 (p_sz pr) in
  let st := wr 8 st 40 (p_cputime pr) in
  let st := wr 4 st 16 ppid in
  splice st 20 (p_name pr).

Definition procinfo (junk : list Z) (addr : Z) : K Z :=
  me <- curproc ;;
  loop (fun '(p, addr, st, nprocs) =>
    if Nat.ltb p NPROC
    then
      pr <- get_proc p ;;
      if decide (p_state pr = UNUSED) then ret (inl (S p, addr, st, nprocs))
      else
        ppid <- (match p_parent pr with Some q => qr <- get_proc q ;; ret (p_pid qr) | None => ret 0 end) ;;
        let st := pstat_fill st pr ppid in
        mr <- get_proc me ;;
        r <- copyout (p_pagetable mr) addr st ;;
        if r <? 0 then ret (inr (-1))
        else ret (inl (S p, u64 (addr + SIZEOF_PSTAT), st, nprocs + 1))
    else ret (inr nprocs)) (0%nat, addr, junk, 0).
End Proc.
