(* ===== verification/Exec.v ===== *)
(** * kernel/exec.c

    [exec] replaces the memory image of the running process by a program
    loaded from an ELF file. *)

From S2P Require Import Prelude Machine State CString Kalloc Vm Printf Sched Sleeplock Block Bio Log Uio Fs Pipe Console File Proc.

(** ** kernel/elf.h *)

Definition ELF_MAGIC : Z := 0x464C457F.
Definition ELF_PROG_LOAD : Z := 1.
Definition SIZEOF_ELFHDR : Z := 64.
Definition SIZEOF_PROGHDR : Z := 56.

Definition elf_magic (h : list Z) : Z := rd 4 h 0.
Definition elf_entry (h : list Z) : Z := rd 8 h 24.
Definition elf_phoff (h : list Z) : Z := rd 8 h 32.
Definition elf_phnum (h : list Z) : Z := rd 2 h 56.
Definition ph_type (h : list Z) : Z := rd 4 h 0.
Definition ph_off (h : list Z) : Z := rd 8 h 8.
Definition ph_vaddr (h : list Z) : Z := rd 8 h 16.
Definition ph_filesz (h : list Z) : Z := rd 8 h 32.
Definition ph_memsz (h : list Z) : Z := rd 8 h 40.

(** A string routine run on the kernel's memory. *)
Definition on_mem {A} (m : Mem A) : K A := fun s =>
  match m (k_mem s) with
  | Ret a mem' => Ret a (set_k_mem mem' s)
  | Panic msg mem' => Panic msg (set_k_mem mem' s)
  | Swtch mem' _ => Fuel (set_k_mem mem' s)
  | Fuel mem' => Fuel (set_k_mem mem' s)
  end.

(** [for(last=s=path; *s; s++) if( *s == '/' ) last = s+1;] *)
Fixpoint last_elem (s last : list Z) : list Z :=
  match s with
  | [] => last
  | c :: s' => if c =? 0 then last else last_elem s' (if c =? SLASH then s' else last)
  end.

Section Exec.
Context `{LAY : Layout} `{DD : DiskDriver}.

Definition loadseg (pagetable va : Z) (ip : nat) (offset sz : Z) : K Z :=
  loop (fun i =>
    if i <? sz
    then
      pa <- walkaddr pagetable (u64 (va + i)) ;;
      if pa =? 0 then panic "loadseg: address should exist"
      else
        let n := if u32 (sz - i) <? PGSIZE then u32 (sz - i) else PGSIZE in
        '(r, _) <- readi ip (Kernel pa) (u32 (offset + i)) n ;;
        if negb (u32 r =? n) then ret (inr (-1)) else ret (inl (u32 (i + PGSIZE)))
    else ret (inr 0)) 0.

(** The loop over the program headers: whether it ran to its end, and the size
    of the image so far. *)
Definition exec_load (ip : nat) (pagetable : Z) (elf : list Z) : K (bool * Z) :=
  loop (fun '(i, off, sz) =>
    if i <? elf_phnum elf
    then
      '(r, ph) <- readi ip (Var []) (u32 off) SIZEOF_PROGHDR ;;
      if negb (r =? SIZEOF_PROGHDR) then ret (inr (false, sz))
      else if negb (ph_type ph =? ELF_PROG_LOAD) then ret (inl (i + 1, i32 (off + SIZEOF_PROGHDR), sz))
      else if ph_memsz ph <? ph_filesz ph then ret (inr (false, sz))
      else if u64 (ph_vaddr ph + ph_memsz ph) <? ph_vaddr ph then ret (inr (false, sz))
      else
        sz1 <- uvmalloc pagetable sz (u64 (ph_vaddr ph + ph_memsz ph)) ;;
        if sz1 =? 0 then ret (inr (false, sz))
        else if negb (ph_vaddr ph mod PGSIZE =? 0) then ret (inr (false, sz1))
        else
          r <- loadseg pagetable (ph_vaddr ph) ip (u32 (ph_off ph)) (u32 (ph_filesz ph)) ;;
          if r <? 0 then ret (inr (false, sz1))
          else ret (inl (i + 1, i32 (off + SIZEOF_PROGHDR), sz1))
    else ret (inr (true, sz))) (0, i32 (elf_phoff elf), 0).

(** The argument strings pushed on the new stack: the stack pointer and the
    pointers to them, or [None] for [goto bad]. *)
Definition exec_args (pagetable stackbase : Z) (argv : list Z) (sp : Z) : K (option (Z * list Z)) :=
  loop (fun '(argc, sp, ustack) =>
    match argv !! argc with
    | None => undefined
    | Some a =>
        if a =? 0 then ret (inr (Some (sp, ustack)))
        else if Nat.leb MAXARG argc then ret (inr None)
        else
          n <- on_mem (strlen a) ;;
          let sp := u64 (sp - (n + 1)) in
          let sp := sp - sp mod 16 in
          if sp <? stackbase then ret (inr None)
          else
            bytes <- gets (fun s => rdbytes (k_mem s) a (Z.to_nat (n + 1))) ;;
            r <- copyout pagetable sp bytes ;;
            if r <? 0 then ret (inr None)
            else ret (inl (S argc, sp, ustack ++ [sp]))
    end) (0%nat, sp, []).

(** [goto bad]. *)
Definition exec_bad (pagetable sz : Z) (ip : option nat) : K Z :=
  (if negb (pagetable =? 0) then proc_freepagetable pagetable sz else ret tt) ;;;
  match ip with
  | Some ip => iunlockput ip ;;; end_op
  | None => ret tt
  end ;;;
  ret (-1).

(** From the loaded program to the return: stack, arguments, commit. *)
Definition exec_commit (path argv elf : list Z) (pagetable sz : Z) : K Z :=
  p <- curproc ;;
  pr <- get_proc p ;;
  let oldsz := p_sz pr in
  let sz := PGROUNDUP sz in
  sz1 <- uvmalloc pagetable sz (u64 (sz + 2 * PGSIZE)) ;;
  if sz1 =? 0 then exec_bad pagetable sz None
  else
    let sz := sz1 in
    uvmclear pagetable (u64 (sz - 2 * PGSIZE)) ;;;
    let stackbase := u64 (sz - PGSIZE) in
    r <- exec_args pagetable stackbase argv sz ;;
    match r with
    | None => exec_bad pagetable sz None
    | Some (sp, ustack) =>
        let argc := Z.of_nat (length ustack) in
        let sp := u64 (sp - (argc + 1) * 8) in
        let sp := sp - sp mod 16 in
        if sp <? stackbase then exec_bad pagetable sz None
        else
          r <- copyout pagetable sp (flat_map (le 8) (ustack ++ [0])) ;;
          if r <? 0 then exec_bad pagetable sz None
          else
            store64 (p_trapframe pr + TF_a1) sp ;;;
            name <- safestrcpy_buf (p_name pr) (last_elem path path) 16 ;;
            upd_proc p (set_p_name name) ;;;
            let oldpagetable := p_pagetable pr in
            upd_proc p (fun pr => set_p_sz sz (set_p_pagetable pagetable pr)) ;;;
            store64 (p_trapframe pr + TF_epc) (elf_entry elf) ;;;
            store64 (p_trapframe pr + TF_sp) sp ;;;
            proc_freepagetable oldpagetable oldsz ;;;
            ret (i32 argc)
    end.

(** [junk]: the bytes of [namei]'s uninitialised [name]. *)
Definition exec (junk path argv : list Z) : K Z :=
  p <- curproc ;;
  begin_op ;;;
  r <- namei junk path ;;
  match r with
  | None => end_op ;;; ret (-1)
  | Some ip =>
      ilock (Some ip) ;;;
      '(r, elf) <- readi ip (Var []) 0 SIZEOF_ELFHDR ;;
      if negb (r =? SIZEOF_ELFHDR) then exec_bad 0 0 (Some ip)
      else if negb (elf_magic elf =? ELF_MAGIC) then exec_bad 0 0 (Some ip)
      else
        pagetable <- proc_pagetable p ;;
        if pagetable =? 0 then exec_bad 0 0 (Some ip)
        else
          '(ok, sz) <- exec_load ip pagetable elf ;;
          if negb ok then exec_bad pagetable sz (Some ip)
          else
            iunlockput ip ;;;
            end_op ;;;
            exec_commit path argv elf pagetable sz
  end.
End Exec.
