(* ===== verification/Sysfile.v ===== *)
(** * kernel/sysfile.c: system calls on files, and mapped regions

    Mostly argument checking around file.c, fs.c and exec.c. A system call
    returns the value the dispatcher stores in [a0]. [junk] stands for the
    uninitialised bytes of a local buffer ([name], [struct stat]). *)

From S2P Require Import Prelude Machine State CString Kalloc Vm Printf Sched Sleeplock Block Bio Log Uio Fs Pipe Console File Proc Exec.

Definition str_dot : list Z := [46].
Definition str_dotdot : list Z := [46; 46].

Section Sysfile.
Context `{LAY : Layout} `{DD : DiskDriver}.
Context (junk : list Z).

(** The descriptor and the file, or [None] for -1. *)
Definition argfd (n : Z) : K (option (nat * nat)) :=
  '(r, fd) <- argint n ;;
  if r <? 0 then ret None
  else if (fd <? 0) || (fd >=? Z.of_nat NOFILE) then ret None
  else
    p <- curproc ;; pr <- get_proc p ;;
    match p_ofile pr !! Z.to_nat fd with
    | Some (Some f) => ret (Some (Z.to_nat fd, f))
    | _ => ret None
    end.

Definition set_ofile (p fd : nat) (f : option nat) : K unit :=
  upd_proc p (fun pr => set_p_ofile (<[fd := f]> (p_ofile pr)) pr).

(** The new descriptor, or [None] for -1. *)
Definition fdalloc (f : nat) : K (option nat) :=
  p <- curproc ;;
  for_each (seq 0 NOFILE) (fun fd =>
    pr <- get_proc p ;;
    match p_ofile pr !! fd with
    | Some None => set_ofile p fd (Some f) ;;; ret (Some fd)
    | _ => ret None
    end).

Definition sys_dup : K Z :=
  a <- argfd 0 ;;
  match a with
  | None => ret (-1)
  | Some (_, f) =>
      fd <- fdalloc f ;;
      match fd with
      | None => ret (-1)
      | Some fd => filedup f ;;; ret (Z.of_nat fd)
      end
  end.

Definition sys_read : K Z :=
  a <- argfd 0 ;;
  match a with
  | None => ret (-1)
  | Some (_, f) =>
      '(r, n) <- argint 2 ;;
      if r <? 0 then ret (-1)
      else
        '(r, p) <- argaddr 1 ;;
        if r <? 0 then ret (-1) else fileread f p n
  end.

Definition sys_write : K Z :=
  a <- argfd 0 ;;
  match a with
  | None => ret (-1)
  | Some (_, f) =>
      '(r, n) <- argint 2 ;;
      if r <? 0 then ret (-1)
      else
        '(r, p) <- argaddr 1 ;;
        if r <? 0 then ret (-1) else filewrite f p n
  end.

Definition sys_close : K Z :=
  a <- argfd 0 ;;
  match a with
  | None => ret (-1)
  | Some (fd, f) =>
      p <- curproc ;;
      set_ofile p fd None ;;;
      fileclose f ;;;
      ret 0
  end.

Definition sys_fstat : K Z :=
  a <- argfd 0 ;;
  match a with
  | None => ret (-1)
  | Some (_, f) =>
      '(r, st) <- argaddr 1 ;;
      if r <? 0 then ret (-1) else filestat junk f st
  end.

(** The [bad:] label of [sys_link]: take the new link back. *)
Definition link_bad (ip : nat) : K Z :=
  ilock (Some ip) ;;;
  upd_inode ip (fun i => set_i_nlink (i16 (i_nlink i - 1)) i) ;;;
  iupdate ip ;;;
  iunlockput ip ;;;
  end_op ;;;
  ret (-1).

Definition sys_link : K Z :=
  '(r, old) <- argstr 0 MAXPATH ;;
  if r <? 0 then ret (-1)
  else
    '(r, new) <- argstr 1 MAXPATH ;;
    if r <? 0 then ret (-1)
    else
      begin_op ;;;
      ip <- namei junk old ;;
      match ip with
      | None => end_op ;;; ret (-1)
      | Some ip =>
          ilock (Some ip) ;;;
          i <- get_inode ip ;;
          if i_type i =? T_DIR then iunlockput ip ;;; end_op ;;; ret (-1)
          else
            upd_inode ip (fun i => set_i_nlink (i16 (i_nlink i + 1)) i) ;;;
            iupdate ip ;;;
            iunlock (Some ip) ;;;
            '(dp, name) <- nameiparent new junk ;;
            match dp with
            | None => link_bad ip
            | Some dp =>
                ilock (Some dp) ;;;
                d <- get_inode dp ;;
                i <- get_inode ip ;;
                r <- (if negb (i_dev d =? i_dev i) then ret (-1) else dirlink dp name (i_inum i)) ;;
                if r <? 0 then iunlockput dp ;;; link_bad ip
                else
                  iunlockput dp ;;;
                  iput ip ;;;
                  end_op ;;;
                  ret 0
            end
      end.

Definition isdirempty (dp : nat) : K Z :=
  loop (fun off =>
    i <- get_inode dp ;;
    if u32 off <? i_size i
    then
      '(r, de) <- readi dp (Var []) (u32 off) SIZEOF_DIRENT ;;
      if negb (r =? SIZEOF_DIRENT) then panic "isdirempty: readi"
      else if negb (de_inum de =? 0) then ret (inr 0)
      else ret (inl (i32 (off + SIZEOF_DIRENT)))
    else ret (inr 1)) (2 * SIZEOF_DIRENT).

(** The [bad:] label of [sys_unlink]. *)
Definition unlink_bad (dp : nat) : K Z := iunlockput dp ;;; end_op ;;; ret (-1).

Definition sys_unlink : K Z :=
  '(r, path) <- argstr 0 MAXPATH ;;
  if r <? 0 then ret (-1)
  else
    begin_op ;;;
    '(dp, name) <- nameiparent path junk ;;
    match dp with
    | None => end_op ;;; ret (-1)
    | Some dp =>
        ilock (Some dp) ;;;
        c1 <- namecmp name str_dot ;;
        c2 <- (if c1 =? 0 then ret 0 else namecmp name str_dotdot) ;;
        if (c1 =? 0) || (c2 =? 0) then unlink_bad dp
        else
          r <- dirlookup dp name ;;
          match r with
          | None => unlink_bad dp
          | Some (ip, off) =>
              ilock (Some ip) ;;;
              i <- get_inode ip ;;
              if i_nlink i <? 1 then panic "unlink: nlink < 1"
              else
                empty <- (if i_type i =? T_DIR then isdirempty ip else ret 1) ;;
                if empty =? 0 then iunlockput ip ;;; unlink_bad dp
                else
                  r <- writei dp (Var (replicate (Z.to_nat SIZEOF_DIRENT) 0)) off SIZEOF_DIRENT ;;
                  if negb (r =? SIZEOF_DIRENT) then panic "unlink: writei"
                  else
                    i <- get_inode ip ;;
                    (if i_type i =? T_DIR
                     then upd_inode dp (fun d => set_i_nlink (i16 (i_nlink d - 1)) d) ;;; iupdate dp
                     else ret tt) ;;;
                    iunlockput dp ;;;
                    upd_inode ip (fun i => set_i_nlink (i16 (i_nlink i - 1)) i) ;;;
                    iupdate ip ;;;
                    iunlockput ip ;;;
                    end_op ;;;
                    ret 0
          end
    end.

Definition create (path : list Z) (type major minor : Z) : K (option nat) :=
  '(dp, name) <- nameiparent path junk ;;
  match dp with
  | None => ret None
  | Some dp =>
      ilock (Some dp) ;;;
      r <- dirlookup dp name ;;
      match r with
      | Some (ip, _) =>
          iunlockput dp ;;;
          ilock (Some ip) ;;;
          i <- get_inode ip ;;
          if (type =? T_FILE) && ((i_type i =? T_FILE) || (i_type i =? T_DEVICE)) then ret (Some ip)
          else iunlockput ip ;;; ret None
      | None =>
          d <- get_inode dp ;;
          ip <- ialloc (i_dev d) type ;;
          ilock (Some ip) ;;;
          upd_inode ip (fun i => set_i_nlink 1 (set_i_minor (i16 minor) (set_i_major (i16 major) i))) ;;;
          iupdate ip ;;;
          (if type =? T_DIR
           then
             upd_inode dp (fun d => set_i_nlink (i16 (i_nlink d + 1)) d) ;;;
             iupdate dp ;;;
             i <- get_inode ip ;;
             r1 <- dirlink ip str_dot (i_inum i) ;;
             if r1 <? 0 then panic "create dots"
             else
               d <- get_inode dp ;;
               r2 <- dirlink ip str_dotdot (i_inum d) ;;
               if r2 <? 0 then panic "create dots" else ret tt
           else ret tt) ;;;
          i <- get_inode ip ;;
          r <- dirlink dp name (i_inum i) ;;
          if r <? 0 then panic "create: dirlink"
          else
            iunlockput dp ;;;
            ret (Some ip)
      end
  end.

(** Give up an inode that [sys_open] has locked. *)
Definition open_fail (ip : nat) : K Z := iunlockput ip ;;; end_op ;;; ret (-1).

(** The first half of [sys_open]: the inode, locked, or [None] after -1. *)
Definition open_inode (path : list Z) (omode : Z) : K (option nat) :=
  if hasbit omode O_CREATE
  then
    ip <- create path T_FILE 0 0 ;;
    match ip with
    | None => end_op ;;; ret None
    | Some ip => ret (Some ip)
    end
  else
    ip <- namei junk path ;;
    match ip with
    | None => end_op ;;; ret None
    | Some ip =>
        ilock (Some ip) ;;;
        i <- get_inode ip ;;
        if (i_type i =? T_DIR) && negb (omode =? O_RDONLY) then open_fail ip ;;; ret None
        else ret (Some ip)
    end.

Definition sys_open : K Z :=
  '(r, path) <- argstr 0 MAXPATH ;;
  if r <? 0 then ret (-1)
  else
    '(r, omode) <- argint 1 ;;
    if r <? 0 then ret (-1)
    else
      begin_op ;;;
      ip <- open_inode path omode ;;
      match ip with
      | None => ret (-1)
      | Some ip =>
          i <- get_inode ip ;;
          if (i_type i =? T_DEVICE) && ((i_major i <? 0) || (i_major i >=? NDEV)) then open_fail ip
          else
            f <- filealloc ;;
            match f with
            | None => open_fail ip
            | Some f =>
                fd <- fdalloc f ;;
                match fd with
                | None => fileclose f ;;; open_fail ip
                | Some fd =>
                    (if i_type i =? T_DEVICE
                     then upd_file f (fun x => set_f_major (i_major i) (set_f_type FD_DEVICE x))
                     else upd_file f (fun x => set_f_off 0 (set_f_type FD_INODE x))) ;;;
                    upd_file f (fun x =>
                      set_f_writable (if hasbit omode O_WRONLY || hasbit omode O_RDWR then 1 else 0)
                        (set_f_readable (if hasbit omode O_WRONLY then 0 else 1) (set_f_ip (Some ip) x))) ;;;
                    (if hasbit omode O_TRUNC && (i_type i =? T_FILE) then itrunc ip else ret tt) ;;;
                    iunlock (Some ip) ;;;
                    end_op ;;;
                    ret (Z.of_nat fd)
                end
            end
      end.

Definition sys_mkdir : K Z :=
  begin_op ;;;
  '(r, path) <- argstr 0 MAXPATH ;;
  ip <- (if r <? 0 then ret None else create path T_DIR 0 0) ;;
  match ip with
  | None => end_op ;;; ret (-1)
  | Some ip => iunlockput ip ;;; end_op ;;; ret 0
  end.

Definition sys_mknod : K Z :=
  begin_op ;;;
  '(r, path) <- argstr 0 MAXPATH ;;
  ip <- (if r <? 0 then ret None
         else
           '(r, major) <- argint 1 ;;
           if r <? 0 then ret None
           else
             '(r, minor) <- argint 2 ;;
             if r <? 0 then ret None else create path T_DEVICE (i16 major) (i16 minor)) ;;
  match ip with
  | None => end_op ;;; ret (-1)
  | Some ip => iunlockput ip ;;; end_op ;;; ret 0
  end.

Definition sys_chdir : K Z :=
  p <- curproc ;;
  begin_op ;;;
  '(r, path) <- argstr 0 MAXPATH ;;
  ip <- (if r <? 0 then ret None else namei junk path) ;;
  match ip with
  | None => end_op ;;; ret (-1)
  | Some ip =>
      ilock (Some ip) ;;;
      i <- get_inode ip ;;
      if negb (i_type i =? T_DIR) then iunlockput ip ;;; end_op ;;; ret (-1)
      else
        iunlock (Some ip) ;;;
        pr <- get_proc p ;;
        (match p_cwd pr with Some d => iput d | None => undefined end) ;;;
        end_op ;;;
        upd_proc p (set_p_cwd (Some ip)) ;;;
        ret 0
  end.

(** The loop of [sys_exec] that fetches the arguments: whether it ran to the
    null pointer, and the pages allocated so far. *)
Definition exec_fetch (uargv : Z) : K (bool * list Z) :=
  loop (fun '(i, argv) =>
    if Nat.leb MAXARG i then ret (inr (false, argv))
    else
      '(r, uarg) <- fetchaddr (u64 (uargv + 8 * Z.of_nat i)) ;;
      if r <? 0 then ret (inr (false, argv))
      else if uarg =? 0 then ret (inr (true, argv))
      else
        page <- kalloc ;;
        if page =? 0 then ret (inr (false, argv))
        else
          '(r, bytes) <- fetchstr uarg PGSIZE ;;
          kmemmove_from page bytes ;;;
          if r <? 0 then ret (inr (false, argv ++ [page])) else ret (inl (S i, argv ++ [page]))) (0%nat, []).

(** The elements of [argv[MAXARG]], zero-filled by [memset]. *)
Definition argv_array (argv : list Z) : list Z := argv ++ replicate (MAXARG - length argv) 0.

Definition sys_exec : K Z :=
  '(r, path) <- argstr 0 MAXPATH ;;
  if r <? 0 then ret (-1)
  else
    '(r, uargv) <- argaddr 1 ;;
    if r <? 0 then ret (-1)
    else
      '(ok, argv) <- exec_fetch uargv ;;
      if ok : bool
      then
        r <- exec junk path (argv_array argv) ;;
        for_all argv kfree ;;;
        ret r
      else
        for_all argv kfree ;;;
        ret (-1).

Definition sys_pipe : K Z :=
  p <- curproc ;;
  '(r, fdarray) <- argaddr 0 ;;
  if r <? 0 then ret (-1)
  else
    ends <- pipealloc ;;
    match ends with
    | None => ret (-1)
    | Some (rf, wf) =>
        fd0 <- fdalloc rf ;;
        match fd0 with
        | None => fileclose rf ;;; fileclose wf ;;; ret (-1)
        | Some fd0 =>
            fd1 <- fdalloc wf ;;
            match fd1 with
            | None => set_ofile p fd0 None ;;; fileclose rf ;;; fileclose wf ;;; ret (-1)
            | Some fd1 =>
                pr <- get_proc p ;;
                r0 <- copyout (p_pagetable pr) fdarray (le 4 (Z.of_nat fd0)) ;;
                r1 <- (if r0 <? 0 then ret (-1)
                       else copyout (p_pagetable pr) (u64 (fdarray + 4)) (le 4 (Z.of_nat fd1))) ;;
                if r1 <? 0
                then
                  set_ofile p fd0 None ;;;
                  set_ofile p fd1 None ;;;
                  fileclose rf ;;;
                  fileclose wf ;;;
                  ret (-1)
                else ret 0
            end
        end
    end.

(** ** Mapped regions *)

(** The search for an unused entry of [p->mmr]. *)
Definition find_mmr (p : nat) (test : mmr -> bool) : K (option nat) :=
  for_each (seq 0 MAX_MMR) (fun i =>
    m <- get_mmr p i ;;
    ret (if test m then Some i else None)).

Definition sys_mmap : K Z :=
  p <- curproc ;;
  '(r, length) <- argaddr 1 ;;
  if r <? 0 then ret (-1)
  else
    '(r, prot) <- argint 2 ;;
    if r <? 0 then ret (-1)
    else
      '(r, flags) <- argint 3 ;;
      if r <? 0 then ret (-1)
      else
        newmmr <- find_mmr p (fun m => mr_valid m =? 0) ;;
        match newmmr with
        | None => ret (-1)
        | Some i =>
            pr <- get_proc p ;;
            let start_addr := PGROUNDDOWN (u64 (p_cur_max pr - length)) in
            upd_mmr p i (fun m =>
              set_mr_flags flags (set_mr_prot prot (set_mr_length (i32 (p_cur_max pr - start_addr))
                (set_mr_addr start_addr (set_mr_valid 1 m))))) ;;;
            upd_family (p, i) (fun fam => set_mn_prev (Some (p, i)) (set_mn_next (Some (p, i)) (set_mn_proc (Some p) fam))) ;;;
            m <- get_mmr p i ;;
            r <- mapvpages (p_pagetable pr) (mr_addr m) (u64 (mr_length m)) ;;
            if r <? 0 then upd_mmr p i (set_mr_valid 0) ;;; ret (-1)
            else
              (if hasbit flags MAP_SHARED
               then listid <- alloc_mmr_listid ;; upd_family (p, i) (set_mn_listid listid)
               else ret tt) ;;;
              upd_proc p (set_p_cur_max start_addr) ;;;
              ret start_addr
        end.

Definition munmap (addr length : Z) : K Z :=
  p <- curproc ;;
  r <- find_mmr p (fun m => (mr_valid m =? 1) && (addr =? mr_addr m) && (PGROUNDUP length =? u64 (mr_length m))) ;;
  match r with
  | None => ret (-1)
  | Some i =>
      upd_mmr p i (set_mr_valid 0) ;;;
      m <- get_mmr p i ;;
      dofree <- (if hasbit (mr_flags m) MAP_PRIVATE then ret true
                 else
                   let fam := mr_family m in
                   l <- get_mmr_list (mn_listid fam) ;;
                   match l with
                   | None => undefined
                   | Some l =>
                       acquire (Lk_mmrlist l) ;;;
                       if decide (mn_next fam = Some (p, i))
                       then
                         release (Lk_mmrlist l) ;;;
                         dealloc_mmr_listid (mn_listid fam) ;;;
                         ret true
                       else
                         nx <- deref (mn_next fam) ;;
                         upd_family nx (set_mn_prev (mn_prev fam)) ;;;
                         m <- get_mmr p i ;;
                         pv <- deref (mn_prev (mr_family m)) ;;
                         upd_family pv (set_mn_next (mn_next (mr_family m))) ;;;
                         release (Lk_mmrlist l) ;;;
                         ret false
                   end) ;;
      pr <- get_proc p ;;
      _ <- for_pages (R := unit) m (fun pageaddr =>
        pa <- walkaddr (p_pagetable pr) pageaddr ;;
        (if negb (pa =? 0) then uvmunmap (p_pagetable pr) pageaddr 1 dofree else ret tt) ;;;
        ret None) ;;
      ret 0
  end.

Definition sys_munmap : K Z :=
  '(r, addr) <- argaddr 0 ;;
  if r <? 0 then ret (-1)
  else
    '(r, length) <- argaddr 1 ;;
    if r <? 0 then ret (-1) else munmap addr length.
End Sysfile.
