(* ===== verification/Syscall.v ===== *)
(** * kernel/sysproc.c, kernel/syscall.c: process system calls and dispatch

    A system call's result is the 64-bit value the dispatcher stores in [a0];
    [-1] stands for its two's complement. *)

From S2P Require Import Prelude Machine State Kalloc Vm Printf Sched Bio Uio Fs Console Proc Exec Sysfile.

Section Syscall.
Context `{LAY : Layout} `{DD : DiskDriver}.

(** ** kernel/sysproc.c *)

Definition sys_exit : K Z :=
  '(r, n) <- argint 0 ;;
  if r <? 0 then ret (-1) else exit n ;;; ret 0.

Definition sys_getpid : K Z := p <- curproc ;; pr <- get_proc p ;; ret (p_pid pr).

Definition sys_fork : K Z := fork.

Definition sys_wait : K Z :=
  '(r, p) <- argaddr 0 ;;
  if r <? 0 then ret (-1) else wait p.

Definition sys_sbrk : K Z :=
  '(r, n) <- argint 0 ;;
  if r <? 0 then ret (-1)
  else
    p <- curproc ;; pr <- get_proc p ;;
    let addr := i32 (p_sz pr) in
    r <- growproc n ;;
    if r <? 0 then ret (-1) else ret addr.

(** [ticks - ticks0 < n] compares unsigned numbers: [n] is converted. *)
Definition sys_sleep : K Z :=
  '(r, n) <- argint 0 ;;
  if r <? 0 then ret (-1)
  else
    acquire Lk_ticks ;;;
    ticks0 <- gets k_ticks ;;
    loop (fun _ : unit =>
      ticks <- gets k_ticks ;;
      if u32 (ticks - ticks0) <? u32 n
      then
        p <- curproc ;; pr <- get_proc p ;;
        if negb (p_killed pr =? 0) then release Lk_ticks ;;; ret (inr (-1))
        else sleep Ch_ticks Lk_ticks ;;; ret (inl tt)
      else release Lk_ticks ;;; ret (inr 0)) tt.

Definition sys_kill : K Z :=
  '(r, pid) <- argint 0 ;;
  if r <? 0 then ret (-1) else kill pid.

Definition sys_uptime : K Z :=
  acquire Lk_ticks ;;;
  xticks <- gets k_ticks ;;
  release Lk_ticks ;;;
  ret xticks.

Definition sys_getprocs (junk : list Z) : K Z :=
  '(r, addr) <- argaddr 0 ;;
  if r <? 0 then ret (-1) else procinfo junk addr.

Definition sys_wait2 : K Z :=
  '(r, p1) <- argaddr 0 ;;
  if r <? 0 then ret (-1)
  else
    '(r, p2) <- argaddr 1 ;;
    if r <? 0 then ret (-1) else wait2 p1 p2.

Definition sys_freepmem : K Z := kfreepagecount.

Definition sys_sem_init : K Z := ret 1.
Definition sys_sem_destroy : K Z := ret 1.
Definition sys_sem_wait : K Z := ret 1.
Definition sys_sem_post : K Z := ret 1.

(** ** kernel/syscall.h *)

Definition SYS_fork : Z := 1.
Definition SYS_exit : Z := 2.
Definition SYS_wait : Z := 3.
Definition SYS_pipe : Z := 4.
Definition SYS_read : Z := 5.
Definition SYS_kill : Z := 6.
Definition SYS_exec : Z := 7.
Definition SYS_fstat : Z := 8.
Definition SYS_chdir : Z := 9.
Definition SYS_dup : Z := 10.
Definition SYS_getpid : Z := 11.
Definition SYS_sbrk : Z := 12.
Definition SYS_sleep : Z := 13.
Definition SYS_uptime : Z := 14.
Definition SYS_open : Z := 15.
Definition SYS_write : Z := 16.
Definition SYS_mknod : Z := 17.
Definition SYS_unlink : Z := 18.
Definition SYS_link : Z := 19.
Definition SYS_mkdir : Z := 20.
Definition SYS_close : Z := 21.
Definition SYS_getprocs : Z := 22.
Definition SYS_wait2 : Z := 23.
Definition SYS_freepmem : Z := 24.
Definition SYS_mmap : Z := 25.
Definition SYS_munmap : Z := 26.
Definition SYS_sem_init : Z := 27.
Definition SYS_sem_destroy : Z := 28.
Definition SYS_sem_wait : Z := 29.
Definition SYS_sem_post : Z := 30.

(** ** kernel/syscall.c *)

(** The table [syscalls[]]; [None] is a null entry or an index outside it.
    [junk] is what uninitialised locals of the calls hold. *)
Definition syscalls (junk : list Z) (num : Z) : option (K Z) :=
  if num =? SYS_fork then Some sys_fork
  else if num =? SYS_exit then Some sys_exit
  else if num =? SYS_wait then Some sys_wait
  else if num =? SYS_pipe then Some sys_pipe
  else if num =? SYS_read then Some sys_read
  else if num =? SYS_kill then Some sys_kill
  else if num =? SYS_exec then Some (sys_exec junk)
  else if num =? SYS_fstat then Some (sys_fstat junk)
  else if num =? SYS_chdir then Some (sys_chdir junk)
  else if num =? SYS_dup then Some sys_dup
  else if num =? SYS_getpid then Some sys_getpid
  else if num =? SYS_sbrk then Some sys_sbrk
  else if num =? SYS_sleep then Some sys_sleep
  else if num =? SYS_uptime then Some sys_uptime
  else if num =? SYS_open then Some (sys_open junk)
  else if num =? SYS_write then Some sys_write
  else if num =? SYS_mknod then Some (sys_mknod junk)
  else if num =? SYS_unlink then Some (sys_unlink junk)
  else if num =? SYS_link then Some (sys_link junk)
  else if num =? SYS_mkdir then Some (sys_mkdir junk)
  else if num =? SYS_close then Some sys_close
  else if num =? SYS_getprocs then Some (sys_getprocs junk)
  else if num =? SYS_wait2 then Some sys_wait2
  else if num =? SYS_freepmem then Some sys_freepmem
  else if num =? SYS_mmap then Some sys_mmap
  else if num =? SYS_munmap then Some sys_munmap
  else if num =? SYS_sem_init then Some sys_sem_init
  else if num =? SYS_sem_destroy then Some sys_sem_destroy
  else if num =? SYS_sem_wait then Some sys_sem_wait
  else if num =? SYS_sem_post then Some sys_sem_post
  else None.

Definition fmt_unknown : list Z := bytes "%d %s: unknown sys call %d" ++ [10].

Definition syscall (junk : list Z) : K unit :=
  p <- curproc ;; pr <- get_proc p ;;
  a7 <- load64 (p_trapframe pr + TF_a7) ;;
  let num := i32 a7 in
  match syscalls junk num with
  | Some f =>
      r <- f ;;
      pr <- get_proc p ;;
      store64 (p_trapframe pr + TF_a0) (u64 r)
  | None =>
      printf (Some fmt_unknown) [AInt (p_pid pr); AStr (Some (upto_nul (p_name pr))); AInt num] ;;;
      store64 (p_trapframe pr + TF_a0) (u64 (-1))
  end.
End Syscall.
