(* ===== verification/Trap.v ===== *)
(** * kernel/trap.c, kernel/plic.c: traps and interrupts

    The control and status registers of the hart are a record that the code
    reads and writes explicitly; the interrupt controller is a function from
    its register addresses to the values they read, and a list of the writes
    made to it. [forkret] of kernel/proc.c, which ends in [usertrapret], is
    here too. *)

From S2P Require Import Prelude Machine State Kalloc Vm Printf Sched Block Bio Virtio Log Uio Fs Console Proc Syscall.

(** ** kernel/riscv.h *)

Definition SSTATUS_SPP : Z := Z.shiftl 1 8.
Definition SSTATUS_SPIE : Z := Z.shiftl 1 5.
Definition SSTATUS_SIE : Z := Z.shiftl 1 1.
Definition SATP_SV39 : Z := Z.shiftl 8 60.
Definition MAKE_SATP (pagetable : Z) : Z := Z.lor SATP_SV39 (Z.shiftr pagetable 12).

(** ** kernel/memlayout.h *)

Definition PLIC_SENABLE (hart : Z) : Z := PLIC + 0x2080 + hart * 0x100.
Definition PLIC_SPRIORITY (hart : Z) : Z := PLIC + 0x201000 + hart * 0x2000.
Definition PLIC_SCLAIM (hart : Z) : Z := PLIC + 0x201004 + hart * 0x2000.

(** The registers of a hart that the trap code uses. *)
Record regs := mkRegs {
  r_sstatus : Z;
  r_scause : Z;
  r_sepc : Z;
  r_stval : Z;
  r_satp : Z;
  r_sip : Z;
  r_tp : Z;
  r_stvec : Z;
  plic_reads : Z -> Z;  (* what the PLIC's registers read *)
  plic_writes : list (Z * Z)  (* latest first *)
}.

Definition w_sstatus (v : Z) (r : regs) : regs :=
  mkRegs v (r_scause r) (r_sepc r) (r_stval r) (r_satp r) (r_sip r) (r_tp r) (r_stvec r) (plic_reads r) (plic_writes r).
Definition w_sepc (v : Z) (r : regs) : regs :=
  mkRegs (r_sstatus r) (r_scause r) v (r_stval r) (r_satp r) (r_sip r) (r_tp r) (r_stvec r) (plic_reads r) (plic_writes r).
Definition w_sip (v : Z) (r : regs) : regs :=
  mkRegs (r_sstatus r) (r_scause r) (r_sepc r) (r_stval r) (r_satp r) v (r_tp r) (r_stvec r) (plic_reads r) (plic_writes r).
Definition w_stvec (v : Z) (r : regs) : regs :=
  mkRegs (r_sstatus r) (r_scause r) (r_sepc r) (r_stval r) (r_satp r) (r_sip r) (r_tp r) v (plic_reads r) (plic_writes r).
Definition w_plic (a v : Z) (r : regs) : regs :=
  mkRegs (r_sstatus r) (r_scause r) (r_sepc r) (r_stval r) (r_satp r) (r_sip r) (r_tp r) (r_stvec r) (plic_reads r) ((a, u32 v) :: plic_writes r).

Definition intr_on (r : regs) : regs := w_sstatus (Z.lor (r_sstatus r) SSTATUS_SIE) r.
Definition intr_off (r : regs) : regs := w_sstatus (Z.land (r_sstatus r) (Z.lnot SSTATUS_SIE)) r.
Definition intr_get (r : regs) : bool := hasbit (r_sstatus r) SSTATUS_SIE.
Definition cpuid (r : regs) : Z := i32 (r_tp r).

(** ** kernel/plic.c *)

Definition plicinit (r : regs) : regs :=
  w_plic (PLIC + VIRTIO0_IRQ * 4) 1 (w_plic (PLIC + UART0_IRQ * 4) 1 r).

Definition plicinithart (r : regs) : regs :=
  let hart := cpuid r in
  w_plic (PLIC_SPRIORITY hart) 0
    (w_plic (PLIC_SENABLE hart) (Z.lor (Z.shiftl 1 UART0_IRQ) (Z.shiftl 1 VIRTIO0_IRQ)) r).

Definition plic_claim (r : regs) : Z := i32 (u32 (plic_reads r (PLIC_SCLAIM (cpuid r)))).

Definition plic_complete (irq : Z) (r : regs) : regs := w_plic (PLIC_SCLAIM (cpuid r)) irq r.

(** ** kernel/trap.c *)

(** [sched_policy_trap]: a variable of trap.c's own, never assigned. *)
Definition sched_policy_trap : Z := RR.

Definition trapinithart (kernelvec : Z) (r : regs) : regs := w_stvec kernelvec r.

Definition clockintr : K unit :=
  acquire Lk_ticks ;;;
  modify (fun s => set_k_ticks (u32 (k_ticks s + 1)) s) ;;;
  wakeup Ch_ticks ;;;
  release Lk_ticks.

Definition fmt_irq : list Z := bytes "unexpected interrupt irq=%d" ++ [10].

Definition devintr (r : regs) : K (Z * regs) :=
  let scause := r_scause r in
  if hasbit scause 0x8000000000000000 && (Z.land scause 0xff =? 9)
  then
    let irq := plic_claim r in
    (if irq =? UART0_IRQ then uartintr
     else if irq =? VIRTIO0_IRQ then virtio_disk_intr
     else if negb (irq =? 0) then printf (Some fmt_irq) [AInt irq]
     else ret tt) ;;;
    ret (1, if negb (irq =? 0) then plic_complete irq r else r)
  else if scause =? 0x8000000000000001
  then
    (if cpuid r =? 0 then clockintr else ret tt) ;;;
    ret (2, w_sip (Z.land (r_sip r) (Z.lnot 2)) r)
  else ret (0, r).

Definition set_tempsticks (v : Z) : K unit := modify (set_k_tempsticks v).

(** The demotion both trap handlers have after a time slice is used up. *)
Definition demote (p : nat) : K unit :=
  pr <- get_proc p ;;
  if p_priority pr >? LOW
  then
    upd_proc p (fun x => set_p_priority (i32 (p_priority x - 1)) x) ;;;
    pr <- get_proc p ;;
    (if p_priority pr =? MEDIUM
     then upd_proc p (fun x => set_p_tsticks TSTICKSMEDIUM (set_p_timeslice TSTICKSMEDIUM x)) ;;;
          set_tempsticks TSTICKSMEDIUM
     else ret tt) ;;;
    (if p_priority pr =? LOW
     then upd_proc p (fun x => set_p_tsticks TSTICKSLOW (set_p_timeslice TSTICKSLOW x)) ;;;
          set_tempsticks TSTICKSLOW
     else ret tt)
  else ret tt.

(** The cputime [p] is charged and the ticks its next slice gets. *)
Definition charge (p : nat) (cpu sticks : Z) : K unit :=
  upd_proc p (fun x => set_p_tsticks sticks (set_p_cputime (u64 (p_cputime x + cpu)) x)).

(** [--(p->tsticks) <= 0]: the counter is unsigned. *)
Definition count_tick (p : nat) : K bool :=
  upd_proc p (fun x => set_p_tsticks (u32 (p_tsticks x - 1)) x) ;;;
  pr <- get_proc p ;;
  ret (p_tsticks pr <=? 0).

(** The slice a process has used up, charged to it, and its next one. *)
Definition usercharge (p : nat) : K unit :=
  pr <- get_proc p ;;
  if p_priority pr =? LOW then charge p TSTICKSLOW TSTICKSLOW ;;; set_tempsticks TSTICKSLOW
  else if p_priority pr =? MEDIUM then charge p TSTICKSMEDIUM TSTICKSMEDIUM ;;; set_tempsticks TSTICKSMEDIUM
  else if p_priority pr =? HIGH then charge p TSTICKSHIGH TSTICKSHIGH ;;; set_tempsticks TSTICKSHIGH
  else ret tt.

(** The same in [kerneltrap], as the code has it. *)
Definition kernelcharge (p : nat) : K unit :=
  pr <- get_proc p ;;
  (if p_priority pr =? LOW then charge p TSTICKSLOW TSTICKSLOW ;;; set_tempsticks TSTICKSLOW
   else if p_priority pr =? MEDIUM then charge p TSTICKSMEDIUM TSTICKSMEDIUM ;;; set_tempsticks TSTICKSMEDIUM
   else if p_priority pr =? HIGH then charge p TSTICKSHIGH HIGH ;;; set_tempsticks TSTICKSLOW
   else ret tt) ;;;
  pr <- get_proc p ;;
  set_tempsticks (p_tsticks pr).

(** What the handlers do with a timer interrupt before they yield; [charged]
    is the code for a slice that is used up. *)
Definition tick (charged : nat -> K unit) (policy : Z) (p : nat) : K unit :=
  (if policy =? MLFQ
   then
     expired <- count_tick p ;;
     if expired : bool then charged p ;;; demote p else ret tt
   else ret tt) ;;;
  if policy =? RR then upd_proc p (fun x => set_p_cputime (u64 (p_cputime x + 1)) x) else ret tt.

Definition usertick : Z -> nat -> K unit := tick usercharge.
Definition kerneltick : Z -> nat -> K unit := tick kernelcharge.

Definition fmt_scause : list Z := bytes "usertrap(): unexpected scause %p pid=%d" ++ [10].
Definition fmt_sepc : list Z := bytes "            sepc=%p stval=%p" ++ [10].
Definition fmt_kscause : list Z := bytes "scause %p" ++ [10].
Definition fmt_ksepc : list Z := bytes "sepc=%p stval=%p" ++ [10].

Section Trap.
Context `{LAY : Layout} `{DD : DiskDriver}.
Context (kernelvec : Z) (junk : list Z).

(** Lazy allocation of one page of a mapped region; the result of [mappages]
    is ignored. *)
Definition fault_page (p : nat) (m : mmr) (va : Z) : K unit :=
  pa <- kalloc ;;
  pr <- get_proc p ;;
  _ <- mappages (p_pagetable pr) (PGROUNDDOWN va) PGSIZE pa (Z.lor (u64 (mr_prot m)) PTE_U) ;;
  ret tt.

(** The page-fault branch of [usertrap] ([scause] 13: load, 15: store). *)
Definition pagefault (p : nat) (scause va : Z) : K unit :=
  for_all (seq 0 MAX_MMR) (fun i =>
    m <- get_mmr p i ;;
    if (va >=? mr_addr m) && (va <? u64 (mr_addr m + mr_length m)) && negb (mr_valid m =? 0)
    then
      (if (scause =? 13) && hasbit (mr_prot m) PTE_R then fault_page p m va else ret tt) ;;;
      (if (scause =? 15) && hasbit (mr_prot m) PTE_W then fault_page p m va else ret tt)
    else ret tt).

(** [r] are the registers as the hart has them on entry. The result is what
    [userret] in the trampoline gets: the registers and its two arguments,
    the addresses of the trap frame and of the user page table. *)
Definition usertrapret (r : regs) : K (regs * Z * Z) :=
  p <- curproc ;;
  let r := intr_off r in
  let r := w_stvec (TRAMPOLINE + (uservec_addr - trampoline)) r in
  pr <- get_proc p ;;
  let tf := p_trapframe pr in
  store64 (tf + TF_kernel_satp) (r_satp r) ;;;
  store64 (tf + TF_kernel_sp) (u64 (p_kstack pr + PGSIZE)) ;;;
  store64 (tf + TF_kernel_trap) usertrap_addr ;;;
  store64 (tf + TF_kernel_hartid) (r_tp r) ;;;
  let x := r_sstatus r in
  let x := Z.land x (Z.lnot SSTATUS_SPP) in
  let x := Z.lor x SSTATUS_SPIE in
  let r := w_sstatus x r in
  epc <- load64 (tf + TF_epc) ;;
  let r := w_sepc epc r in
  ret (r, TRAPFRAME, MAKE_SATP (p_pagetable pr)).

(** [r'] are the registers of the hart that runs the end of the handler:
    the call, or another process after a yield, may have changed them. *)
Definition usertrap (r r' : regs) : K (regs * Z * Z) :=
  if hasbit (r_sstatus r) SSTATUS_SPP then panic "usertrap: not from user mode"
  else
    let r := w_stvec kernelvec r in
    p <- curproc ;;
    pr <- get_proc p ;;
    store64 (p_trapframe pr + TF_epc) (r_sepc r) ;;;
    which_dev <-
      (if r_scause r =? 8
       then
         (if negb (p_killed pr =? 0) then exit (-1) else ret tt) ;;;
         epc <- load64 (p_trapframe pr + TF_epc) ;;
         store64 (p_trapframe pr + TF_epc) (u64 (epc + 4)) ;;;
         syscall junk ;;;
         ret 0
       else
         '(which_dev, r) <- devintr r ;;
         if negb (which_dev =? 0) then ret which_dev
         else if (r_scause r =? 13) || (r_scause r =? 15)
         then pagefault p (r_scause r) (r_stval r) ;;; ret 0
         else
           printf (Some fmt_scause) [APtr (r_scause r); AInt (p_pid pr)] ;;;
           printf (Some fmt_sepc) [APtr (r_sepc r); APtr (r_stval r)] ;;;
           upd_proc p (set_p_killed 1) ;;;
           ret 0) ;;
    pr <- get_proc p ;;
    (if negb (p_killed pr =? 0) then exit (-1) else ret tt) ;;;
    (if which_dev =? 2 then usertick sched_policy_trap p ;;; yield else ret tt) ;;;
    usertrapret r'.

(** The registers are restored from the locals at the end. *)
Definition kerneltrap (r r' : regs) : K regs :=
  let sepc := r_sepc r in
  let sstatus := r_sstatus r in
  let scause := r_scause r in
  if negb (hasbit sstatus SSTATUS_SPP) then panic "kerneltrap: not from supervisor mode"
  else if intr_get r then panic "kerneltrap: interrupts enabled"
  else
    '(which_dev, r) <- devintr r ;;
    (if which_dev =? 0
     then
       printf (Some fmt_kscause) [APtr scause] ;;;
       printf (Some fmt_ksepc) [APtr (r_sepc r); APtr (r_stval r)] ;;;
       panic "kerneltrap"
     else ret tt) ;;;
    me <- myproc ;;
    (match me with
     | Some p =>
         if which_dev =? 2
         then
           pr <- get_proc p ;;
           if decide (p_state pr = RUNNING) then kerneltick sched_policy_trap p ;;; yield else ret tt
         else ret tt
     | None => ret tt
     end) ;;;
    ret (w_sstatus sstatus (w_sepc sepc r')).

(** ** kernel/proc.c: [forkret] *)

Definition forkret (r : regs) : K (regs * Z * Z) :=
  p <- curproc ;;
  release (Lk_proc p) ;;;
  first <- gets k_first ;;
  (if negb (first =? 0)
   then modify (set_k_first 0) ;;; fsinit ROOTDEV
   else ret tt) ;;;
  usertrapret r.
End Trap.
