(* ===== verification/TrapFacts.v ===== *)
(** * Traps: time slices, system calls from user space and back

    What a timer interrupt does to the time slice and the priority of the
    running process; the way of a system call from the trap to the return to
    user space; lazy allocation on a page fault. *)

From S2P Require Import Prelude Machine State Kalloc Vm VmFacts VmUser Printf Sched Sleeplock Block Bio Virtio Uio Fs Console Proc Syscall Trap.

(** ** Time slices *)

(** The ticks of a time slice. *)
Definition slice (priority : Z) : Z :=
  if priority =? HIGH then TSTICKSHIGH else if priority =? MEDIUM then TSTICKSMEDIUM else TSTICKSLOW.

(** The process after a timer interrupt: charged one tick under [RR]; under
    [MLFQ] charged a whole slice when its slice is used up. *)
Definition ticked (policy : Z) (pr : proc) : proc :=
  if policy =? RR then set_p_cputime (u64 (p_cputime pr + 1)) pr
  else
    let left := u32 (p_tsticks pr - 1) in
    if left =? 0
    then set_p_tsticks (slice (p_priority pr)) (set_p_cputime (u64 (p_cputime pr + slice (p_priority pr))) pr)
    else set_p_tsticks left pr.

Lemma upd_proc_run p f s pr : k_proc s !! p = Some pr -> upd_proc p f s = Ret tt (set_k_proc (<[p := f pr]> (k_proc s)) s).
Proof. intros H. unfold upd_proc, modify. by rewrite (alter_insert_eq _ _ _ _ H). Qed.

Lemma get_proc_run p s pr : k_proc s !! p = Some pr -> get_proc p s = Ret pr s.
Proof. intros H. unfold get_proc. by rewrite H. Qed.

(** [s] with process [p] and the tick counter of trap.c changed. *)
Definition with_proc (p : nat) (pr : proc) (t : Z) (s : kstate) : kstate :=
  set_k_tempsticks t (set_k_proc (<[p := pr]> (k_proc s)) s).

Section Ticks.
Context (p : nat) (s : kstate).
Hypothesis Hp : (p < length (k_proc s))%nat.

Lemma with_proc_lookup pr t : k_proc (with_proc p pr t s) !! p = Some pr.
Proof. unfold with_proc. kred. by apply list_lookup_insert_eq. Qed.

Lemma get_with_proc pr t : get_proc p (with_proc p pr t s) = Ret pr (with_proc p pr t s).
Proof. apply get_proc_run, with_proc_lookup. Qed.

Lemma upd_with_proc f pr t : upd_proc p f (with_proc p pr t s) = Ret tt (with_proc p (f pr) t s).
Proof.
  rewrite (upd_proc_run _ _ _ _ (with_proc_lookup pr t)). unfold with_proc. kred. by rewrite list_insert_insert_eq.
Qed.

Lemma set_tempsticks_run pr t t' : set_tempsticks t' (with_proc p pr t s) = Ret tt (with_proc p pr t' s).
Proof. done. Qed.

Lemma count_tick_run pr t :
  count_tick p (with_proc p pr t s) =
  let left := u32 (p_tsticks pr - 1) in Ret (left =? 0) (with_proc p (set_p_tsticks left pr) t s).
Proof.
  unfold count_tick. rewrite (bind_Ret _ _ _ _ _ (upd_with_proc _ _ _)), (bind_Ret _ _ _ _ _ (get_with_proc _ _)).
  cbn [set_p_tsticks p_tsticks ret]. pose proof (u32_range (p_tsticks pr - 1)). unfold ret. f_equal.
  destruct (Z.eqb_spec (u32 (p_tsticks pr - 1)) 0) as [->|]; [done|]. apply Z.leb_gt. lia.
Qed.

(** [priority > LOW] is never true of a priority that names a queue. *)
Lemma demote_run pr t : p_priority pr <= LOW -> demote p (with_proc p pr t s) = Ret tt (with_proc p pr t s).
Proof.
  intros H. unfold demote. rewrite (bind_Ret _ _ _ _ _ (get_with_proc _ _)). by destruct (Z.gtb_spec (p_priority pr) LOW); [lia|].
Qed.

Lemma charge_run cpu st pr t :
  charge p cpu st (with_proc p pr t s) = Ret tt (with_proc p (set_p_tsticks st (set_p_cputime (u64 (p_cputime pr + cpu)) pr)) t s).
Proof. unfold charge. by rewrite upd_with_proc. Qed.

Lemma tick_rr charged pr t :
  tick charged RR p (with_proc p pr t s) = Ret tt (with_proc p (set_p_cputime (u64 (p_cputime pr + 1)) pr) t s).
Proof. unfold tick. change (RR =? MLFQ) with false. change (RR =? RR) with true. cbv iota. krun. by rewrite upd_with_proc. Qed.

Lemma tick_mlfq charged pr t pr' t' :
  let left := u32 (p_tsticks pr - 1) in
  (left = 0 -> charged p (with_proc p (set_p_tsticks 0 pr) t s) = Ret tt (with_proc p pr' t' s) /\ p_priority pr' <= LOW) ->
  tick charged MLFQ p (with_proc p pr t s) =
  Ret tt (if left =? 0 then with_proc p pr' t' s else with_proc p (set_p_tsticks left pr) t s).
Proof.
  intros left H. unfold tick. change (MLFQ =? MLFQ) with true. change (MLFQ =? RR) with false. cbv iota.
  erewrite bind_Ret; [reflexivity|]. rewrite (bind_Ret _ _ _ _ _ (count_tick_run _ _)). cbv zeta. fold left.
  destruct (Z.eqb_spec left 0) as [E|]; [|done]. destruct (H E) as [Hc Hprio]. rewrite E, (bind_Ret _ _ _ _ _ Hc).
  by apply demote_run.
Qed.

Ltac by_priority pr :=
  match goal with H : 0 <= p_priority pr <= LOW |- _ =>
    let E := fresh "E" in
    assert (p_priority pr = 0 \/ p_priority pr = 1 \/ p_priority pr = 2) as [E|[E|E]] by (unfold LOW in H; lia);
    cbn [p_priority set_p_tsticks]; rewrite E; cbn [Z.eqb Pos.eqb]; unfold LOW, MEDIUM, HIGH; cbn [Z.eqb Pos.eqb]
  end.

Lemma usercharge_run pr t :
  0 <= p_priority pr <= LOW ->
  exists t', usercharge p (with_proc p (set_p_tsticks 0 pr) t s) =
    Ret tt (with_proc p (set_p_tsticks (slice (p_priority pr)) (set_p_cputime (u64 (p_cputime pr + slice (p_priority pr))) pr)) t' s).
Proof.
  intros H. unfold usercharge, slice. rewrite (bind_Ret _ _ _ _ _ (get_with_proc _ _)).
  by_priority pr; eexists; rewrite (bind_Ret _ _ _ _ _ (charge_run _ _ _ _)), set_tempsticks_run; reflexivity.
Qed.
End Ticks.

(** C38: a timer interrupt in user space charges the running process as its
    policy says (one tick under [RR]; under [MLFQ] the slice, once it is used
    up) and starts the next slice; it never changes the priority of a process:
    the demotion of the multi-level policy does not happen, as no priority is
    above [LOW]. *)
Theorem usertick_correct policy p s pr :
  policy = RR \/ policy = MLFQ -> k_proc s !! p = Some pr -> 0 <= p_priority pr <= LOW ->
  exists t, usertick policy p s = Ret tt (with_proc p (ticked policy pr) t s) /\
    p_priority (ticked policy pr) = p_priority pr.
Proof.
  intros Hpol Hp Hprio. pose proof (lookup_lt_Some _ _ _ Hp) as Hlt.
  assert (Es : s = with_proc p pr (k_tempsticks s) s) by (unfold with_proc; rewrite list_insert_id by done; by destruct s).
  replace (usertick policy p s) with (usertick policy p (with_proc p pr (k_tempsticks s) s)) by (by rewrite <- Es).
  destruct (usercharge_run p s Hlt pr (k_tempsticks s) Hprio) as [t Hc].
  unfold usertick, ticked. destruct Hpol as [-> | ->].
  - exists (k_tempsticks s). split; [|done]. by rewrite tick_rr.
  - change (MLFQ =? RR) with false. cbv iota zeta. erewrite tick_mlfq; [|done|intros _; split; [exact Hc|cbn; lia]].
    destruct (u32 (p_tsticks pr - 1) =? 0); [by exists t|by exists (k_tempsticks s)].
Qed.

(** C39: a timer interrupt that finds a process of the highest priority in the
    kernel at the end of its slice leaves it a slice of no ticks, so that the
    unsigned counter wraps at the next interrupt: the process is not charged
    again for 2^32 - 1 ticks. *)
Theorem kerneltick_wraps p s pr :
  k_proc s !! p = Some pr -> p_priority pr = HIGH -> p_tsticks pr = 1 ->
  exists t t', kerneltick MLFQ p s = Ret tt (with_proc p (set_p_tsticks 0 (set_p_cputime (u64 (p_cputime pr + 1)) pr)) t s) /\
    (kerneltick MLFQ p ;;; kerneltick MLFQ p) s =
    Ret tt (with_proc p (set_p_tsticks (2 ^ 32 - 1) (set_p_cputime (u64 (p_cputime pr + 1)) pr)) t' s).
Proof.
  intros Hp Hprio Ht. pose proof (lookup_lt_Some _ _ _ Hp) as Hlt.
  assert (Es : s = with_proc p pr (k_tempsticks s) s) by (unfold with_proc; rewrite list_insert_id by done; by destruct s).
  set (pr1 := set_p_tsticks 0 (set_p_cputime (u64 (p_cputime pr + 1)) pr)).
  assert (E1 : kerneltick MLFQ p s = Ret tt (with_proc p pr1 0 s)).
  { replace (kerneltick MLFQ p s) with (kerneltick MLFQ p (with_proc p pr (k_tempsticks s) s)) by (by rewrite <- Es). unfold kerneltick. erewrite (tick_mlfq p s Hlt _ _ _ pr1 0).
    - by rewrite Ht.
    - intros _. split; [|cbn; rewrite Hprio; unfold HIGH, LOW; lia]. unfold kernelcharge.
      rewrite (bind_Ret _ _ _ _ _ (get_with_proc p s Hlt _ _)). cbn [p_priority set_p_tsticks]. rewrite Hprio.
      change (HIGH =? LOW) with false. change (HIGH =? MEDIUM) with false. change (HIGH =? HIGH) with true. cbv iota.
      erewrite bind_Ret; [|rewrite (bind_Ret _ _ _ _ _ (charge_run p s Hlt _ _ _ _)); apply set_tempsticks_run].
      by rewrite (bind_Ret _ _ _ _ _ (get_with_proc p s Hlt _ _)). }
  exists 0, 0. split; [done|]. rewrite (bind_Ret _ _ _ _ _ E1). unfold kerneltick.
  rewrite (tick_mlfq p s Hlt _ _ _ pr1 0); [done|]. intros Hx. vm_compute in Hx. discriminate.
Qed.

(** ** Back to user space *)

Lemma hasbit_testbit x n : 0 <= n -> hasbit x (Z.shiftl 1 n) = Z.testbit x n.
Proof.
  intros Hn. unfold hasbit. rewrite Z.shiftl_1_l. destruct (Z.testbit x n) eqn:E.
  - destruct (Z.eqb_spec (Z.land x (2 ^ n)) 0) as [E0|]; [|done].
    apply (f_equal (fun y => Z.testbit y n)) in E0. rewrite Z.land_spec, E, Z.pow2_bits_true, Z.bits_0 in E0 by done. done.
  - replace (Z.land x (2 ^ n)) with 0; [done|]. symmetry. apply Z.bits_inj'. intros m Hm.
    rewrite Z.land_spec, Z.bits_0, Z.pow2_bits_eqb by done. destruct (Z.eqb_spec n m) as [<-|]; [by rewrite E|apply andb_false_r].
Qed.

(** [sstatus] on the way to user space: previous mode user, interrupts off
    now and on afterwards, all else as before. *)
Definition user_sstatus (x y : Z) : Prop :=
  hasbit y SSTATUS_SPP = false /\ hasbit y SSTATUS_SPIE = true /\ hasbit y SSTATUS_SIE = false /\
  forall n, 0 <= n -> n <> 1 -> n <> 5 -> n <> 8 -> Z.testbit y n = Z.testbit x n.

Lemma user_sstatus_run x :
  user_sstatus x (Z.lor (Z.land (Z.land x (Z.lnot SSTATUS_SIE)) (Z.lnot SSTATUS_SPP)) SSTATUS_SPIE).
Proof.
  unfold user_sstatus, SSTATUS_SPP, SSTATUS_SPIE, SSTATUS_SIE. rewrite !hasbit_testbit by done.
  rewrite !Z.shiftl_1_l. repeat split.
  all: try intros n H0 H1 H5 H8; rewrite !Z.lor_spec, !Z.land_spec, !Z.lnot_spec, !Z.pow2_bits_eqb by lia.
  1-3: rewrite ?andb_false_r, ?orb_true_r; done.
  replace (1 =? n) with false by lia. replace (8 =? n) with false by lia. replace (5 =? n) with false by lia.
  by rewrite !andb_true_r, orb_false_r.
Qed.

Section Return.
Context `{LAY : Layout} `{DD : DiskDriver}.

(** The trap frame's words for the next trap. *)
Definition frame_ready (r : regs) (pr : proc) (m m' : memory) : Prop :=
  let tf := p_trapframe pr in
  ld64 m' (tf + TF_kernel_satp) = u64 (r_satp r) /\ ld64 m' (tf + TF_kernel_sp) = u64 (p_kstack pr + PGSIZE) /\
  ld64 m' (tf + TF_kernel_trap) = u64 usertrap_addr /\ ld64 m' (tf + TF_kernel_hartid) = u64 (r_tp r) /\
  (forall x, x < tf \/ tf + TF_epc <= x < tf + TF_kernel_hartid \/ tf + TF_kernel_hartid + 8 <= x -> m' x = m x).

Lemma ld64_st64_at m a v : ld64 (st64 m a v) a = u64 v.
Proof. unfold ld64, st64. rewrite ld_st_same. done. Qed.

Lemma frame_ready_run r pr m :
  let tf := p_trapframe pr in
  frame_ready r pr m (st64 (st64 (st64 (st64 m (tf + TF_kernel_satp) (r_satp r)) (tf + TF_kernel_sp) (u64 (p_kstack pr + PGSIZE)))
    (tf + TF_kernel_trap) usertrap_addr) (tf + TF_kernel_hartid) (r_tp r)).
Proof.
  intros tf. unfold frame_ready. fold tf. unfold TF_kernel_satp, TF_kernel_sp, TF_kernel_trap, TF_kernel_hartid, TF_epc.
  repeat split.
  - rewrite !ld64_st64_other by lia. apply ld64_st64_at.
  - rewrite !ld64_st64_other by lia. rewrite ld64_st64_at. apply u64_small, u64_range.
  - rewrite !ld64_st64_other by lia. apply ld64_st64_at.
  - apply ld64_st64_at.
  - intros x Hx. unfold st64. rewrite !st_outside by lia. done.
Qed.

Lemma usertrapret_run r s p pr :
  k_cur s = Some p -> k_proc s !! p = Some pr ->
  exists r' m', usertrapret r s = Ret (r', TRAPFRAME, MAKE_SATP (p_pagetable pr)) (set_k_mem m' s) /\
    frame_ready r pr (k_mem s) m' /\ user_sstatus (r_sstatus r) (r_sstatus r') /\
    r_sepc r' = ld64 (k_mem s) (p_trapframe pr + TF_epc) /\ r_stvec r' = TRAMPOLINE + (uservec_addr - trampoline).
Proof.
  intros Hc Hp. unfold usertrapret. assert (Hcp : curproc s = Ret p s) by (unfold curproc; by rewrite Hc).
  pose proof (get_proc_run _ _ _ Hp) as Hg. krun. do 2 eexists. split; [reflexivity|]. split; [apply (frame_ready_run r)|].
  split; [apply user_sstatus_run|]. split; [|done]. cbn [r_sepc w_sepc].
  unfold TF_epc, TF_kernel_satp, TF_kernel_sp, TF_kernel_trap, TF_kernel_hartid. rewrite !ld64_st64_other by lia. done.
Qed.

(** ** A system call *)

Context (kernelvec : Z) (junk : list Z).

(** The state in which the call's own code starts: the saved program counter
    is that of the next instruction. *)
Definition at_syscall (r : regs) (pr : proc) (s : kstate) : kstate :=
  let tf := p_trapframe pr in
  set_k_mem (st64 (st64 (k_mem s) (tf + TF_epc) (r_sepc r)) (tf + TF_epc) (u64 (u64 (r_sepc r) + 4))) s.

(** the way of a system call. A trap from user space with cause 8, by a
    process that has not been killed, runs the function that the table has for
    the number in [a7], from a state in which the saved program counter is that
    of the next instruction; when it returns, its value is in the process's
    saved [a0], the trap frame is set up for the next trap, and the hart is
    ready to go to user mode at the saved program counter, with the process's
    page table. *)
Theorem usertrap_syscall r r' s p pr f v s2 pr2 :
  hasbit (r_sstatus r) SSTATUS_SPP = false -> r_scause r = 8 -> k_cur s = Some p -> k_proc s !! p = Some pr -> p_killed pr = 0 ->
  syscalls junk (i32 (ld64 (k_mem s) (p_trapframe pr + TF_a7))) = Some f ->
  f (at_syscall r pr s) = Ret v s2 -> k_cur s2 = Some p -> k_proc s2 !! p = Some pr2 -> p_killed pr2 = 0 ->
  let tf := p_trapframe pr2 in
  ld64 (k_mem (at_syscall r pr s)) (p_trapframe pr + TF_epc) = u64 (r_sepc r + 4) /\
  exists r1 m, usertrap kernelvec junk r r' s = Ret (r1, TRAPFRAME, MAKE_SATP (p_pagetable pr2)) (set_k_mem m s2) /\
    ld64 m (tf + TF_a0) = u64 v /\ r_sepc r1 = ld64 (k_mem s2) (tf + TF_epc) /\
    user_sstatus (r_sstatus r') (r_sstatus r1) /\ frame_ready r' pr2 (st64 (k_mem s2) (tf + TF_a0) (u64 v)) m.
Proof.
  intros Hspp Hcause Hc Hp Hk Hf Ef Hc2 Hp2 Hk2 tf. split.
  { unfold at_syscall. kred. rewrite ld64_st64_at, (u64_small (u64 _)) by apply u64_range. unfold u64. by rewrite Zplus_mod_idemp_l. }
  unfold usertrap. rewrite Hspp. assert (Hcp : curproc s = Ret p s) by (unfold curproc; by rewrite Hc).
  pose proof (get_proc_run _ _ _ Hp) as Hg. krun. change (r_scause (w_stvec kernelvec r)) with (r_scause r). rewrite Hcause.
  change (8 =? 8) with true. cbv iota. rewrite Hk. change (negb (0 =? 0)) with false. cbv iota. krun.
  change (r_sepc (w_stvec kernelvec r)) with (r_sepc r). rewrite ld64_st64_at.
  match goal with |- context [set_k_mem ?m (set_k_mem _ s)] => change (set_k_mem m (set_k_mem _ s)) with (at_syscall r pr s) end.
  set (s1 := at_syscall r pr s) in *.
  assert (Es : syscall junk s1 = Ret tt (set_k_mem (st64 (k_mem s2) (tf + TF_a0) (u64 v)) s2)).
  { unfold syscall. assert (Hcp1 : curproc s1 = Ret p s1) by (unfold curproc; change (k_cur s1) with (k_cur s); by rewrite Hc).
    assert (Hg1 : get_proc p s1 = Ret pr s1) by (apply get_proc_run; exact Hp).
    krun. replace (ld64 (k_mem s1) (p_trapframe pr + TF_a7)) with (ld64 (k_mem s) (p_trapframe pr + TF_a7)).
    2:{ unfold s1, at_syscall. kred. unfold TF_a7, TF_epc. by rewrite !ld64_st64_other by lia. }
    rewrite Hf. krun. pose proof (get_proc_run _ _ _ Hp2) as Hg2. krun. done. }
  krun. set (s3 := set_k_mem _ s2). assert (Hg3 : get_proc p s3 = Ret pr2 s3) by (apply get_proc_run; exact Hp2).
  krun. rewrite Hk2. change (negb (0 =? 0)) with false. change (0 =? 2) with false. cbv iota. krun.
  destruct (usertrapret_run r' s3 p pr2) as (r1 & m & E & Hfr & Hst & Hepc & _); [done|done|].
  exists r1, m. split; [exact E|]. split; [|split; [|split; [done|exact Hfr]]].
  - destruct Hfr as (_ & _ & _ & _ & Hx). unfold ld64. rewrite (ld_ext 8 (k_mem s3) m).
    + unfold s3. kred. fold (ld64 (st64 (k_mem s2) (tf + TF_a0) (u64 v)) (tf + TF_a0)). rewrite ld64_st64_at. apply u64_small, u64_range.
    + intros x Hx'. apply Hx. unfold TF_epc, TF_kernel_hartid, TF_a0 in *. fold tf. lia.
  - rewrite Hepc. unfold s3. kred. unfold TF_a0, TF_epc. by rewrite ld64_st64_other by lia.
Qed.

(** a system call number that the table does not have is reported on the
    console, with the process and the number, and the call returns -1. *)
Theorem syscall_unknown s p pr :
  k_cur s = Some p -> k_proc s !! p = Some pr -> - 2 ^ 31 <= p_pid pr < 2 ^ 31 -> Forall (fun c => 0 <= c < 256) (p_name pr) ->
  uart_ready s -> Lk_pr ∉ k_held s ->
  let num := i32 (ld64 (k_mem s) (p_trapframe pr + TF_a7)) in
  num <= 0 \/ 30 < num ->
  exists s1, syscall junk s = Ret tt (set_k_mem (st64 (k_mem s) (p_trapframe pr + TF_a0) (2 ^ 64 - 1)) s1) /\
    sent (render 10 (p_pid pr) ++ bytes " " ++ upto_nul (p_name pr) ++ bytes ": unknown sys call " ++ render 10 num ++ [10]) s s1.
Proof.
  intros Hc Hp Hpid Hname Hu Hl num Hnum. unfold syscall.
  assert (Hcp : curproc s = Ret p s) by (unfold curproc; by rewrite Hc). pose proof (get_proc_run _ _ _ Hp) as Hg. krun. fold num.
  assert (Hnone : syscalls junk num = None).
  { assert (Hne : forall k, 0 < k <= 30 -> (num =? k) = false) by (intros k Hk; apply Z.eqb_neq; lia).
    unfold syscalls. repeat (rewrite Hne by done). done. }
  rewrite Hnone.
  assert (Hr : - 2 ^ 31 <= num < 2 ^ 31).
  { unfold num, i32. pose proof (Z.mod_pos_bound (ld64 (k_mem s) (p_trapframe pr + TF_a7) + 2 ^ 31) (2 ^ 32) eq_refl). lia. }
  destruct (printf_run fmt_unknown [AInt (p_pid pr); AStr (Some (upto_nul (p_name pr))); AInt num]
    (render 10 (p_pid pr) ++ bytes " " ++ upto_nul (p_name pr) ++ bytes ": unknown sys call " ++ render 10 num ++ [10]) s) as (s1 & E1 & S1).
  - vm_compute. repeat (apply Forall_cons; split; [split; congruence|]). apply Forall_nil_2.
  - apply Forall_cons; split; [exact Hpid|]. apply Forall_cons; split; [by apply upto_nul_bytes|]. apply Forall_cons; split; [exact Hr|apply Forall_nil_2].
  - reflexivity.
  - exact Hu.
  - exact Hl.
  - exists s1. split; [|exact S1]. krun. destruct S1 as (idle & _ & ->). reflexivity.
Qed.
End Return.

Module TickWitness.
Definition pr0 : proc := set_p_tsticks 1 (set_p_state RUNNING proc0).
Definition s0 : kstate := set_k_proc (<[0%nat := pr0]> (k_proc boot)) boot.

Lemma usertick_correct_witness : exists t, usertick MLFQ 0 s0 = Ret tt (with_proc 0 (ticked MLFQ pr0) t s0) /\ p_cputime (ticked MLFQ pr0) = 1.
Proof.
  destruct (usertick_correct MLFQ 0 s0 pr0) as (t & E & _); [right; reflexivity|reflexivity|unfold LOW; cbn; lia|].
  exists t. split; [exact E|reflexivity].
Defined.

Lemma kerneltick_wraps_witness : exists s', (kerneltick MLFQ 0 ;;; kerneltick MLFQ 0) s0 = Ret tt s' /\
  match k_proc s' !! 0%nat with Some pr => p_tsticks pr = 4294967295 | None => False end.
Proof.
  destruct (kerneltick_wraps 0 s0 pr0) as (t & t' & _ & E); [reflexivity|reflexivity|reflexivity|].
  eexists. split; [exact E|]. reflexivity.
Defined.

(** The registers of a trap from user space, and a process with its trap
    frame at an address [tf] asking for system call [num]. *)
Definition regs0 : regs := mkRegs 0x20 8 100 0 0 0 0 0 (fun _ => 0) [].
Definition caller (num : Z) : kstate :=
  set_k_cur (Some 0%nat) (set_k_mem (st64 (fun _ => 0) (4096 + TF_a7) num)
    (set_k_proc (<[0%nat := set_p_pid 3 (set_p_trapframe 4096 (set_p_state RUNNING proc0))]> (k_proc boot)) boot)).

Lemma usertrap_syscall_witness : exists r1 m s2,
  usertrap (LAY := sym_layout) (DD := BioWitness.now_driver) 0 [] regs0 regs0 (caller SYS_getpid) = Ret (r1, TRAPFRAME, MAKE_SATP 0) (set_k_mem m s2) /\
  ld64 m (4096 + TF_a0) = 3 /\ r_sepc r1 = 104.
Proof.
  set (pr := set_p_pid 3 (set_p_trapframe 4096 (set_p_state RUNNING proc0))).
  destruct (usertrap_syscall (LAY := sym_layout) (DD := BioWitness.now_driver) 0 [] regs0 regs0 (caller SYS_getpid) 0 pr sys_getpid 3
    (at_syscall regs0 pr (caller SYS_getpid)) pr) as (_ & r1 & m & E & Ha & He & _);
    [reflexivity|reflexivity|reflexivity|reflexivity|reflexivity|vm_compute; reflexivity|reflexivity|reflexivity|reflexivity|reflexivity|].
  exists r1, m. eexists. split; [exact E|]. split; [exact Ha|]. rewrite He. vm_compute. reflexivity.
Defined.

Lemma syscall_unknown_witness : exists s1,
  syscall (LAY := sym_layout) (DD := BioWitness.now_driver) [] (caller 31) = Ret tt (set_k_mem (st64 (k_mem (caller 31)) (4096 + TF_a0) (2 ^ 64 - 1)) s1) /\
  io_out (k_io s1) = rev (bytes "3 : unknown sys call 31" ++ [10]).
Proof.
  set (pr := set_p_pid 3 (set_p_trapframe 4096 (set_p_state RUNNING proc0))).
  destruct (syscall_unknown (LAY := sym_layout) (DD := BioWitness.now_driver) [] (caller 31) 0 pr) as (s1 & E & S1).
  - reflexivity.
  - reflexivity.
  - cbn; lia.
  - cbn. repeat (apply Forall_cons; split; [lia|]). apply Forall_nil_2.
  - split; [reflexivity|vm_compute; reflexivity].
  - apply not_elem_of_nil.
  - right. vm_compute. reflexivity.
  - exists s1. split; [exact E|]. destruct S1 as (idle & _ & ->). vm_compute. reflexivity.
Defined.
End TickWitness.
