(* ===== verification/MmrFacts.v ===== *)
(** * Memory-mapped regions: lazy allocation and families

    What a page fault in user space does, from the trap to the return to user
    space, inside a mapped region and outside every one; the ring of processes
    that share a region, and what [fork] makes of it. *)

From S2P Require Import Prelude Machine State Kalloc Vm VmFacts VmUser VmWitness Printf Sched Sleeplock Block Bio Virtio Uio Fs Console File Proc Syscall Trap TrapFacts.
From Stdlib Require Import Permutation.

(** The region lets the access go ahead: it is valid, contains [va] and has
    the permission that the cause of the trap asks for. *)
Definition serves (scause va : Z) (m : mmr) : bool :=
  (va >=? mr_addr m) && (va <? u64 (mr_addr m + mr_length m)) && negb (mr_valid m =? 0) &&
  (((scause =? 13) && hasbit (mr_prot m) PTE_R) || ((scause =? 15) && hasbit (mr_prot m) PTE_W)).

Section Fault.
Context `{LAY : Layout}.

Lemma get_mmr_run p i s pr m : k_proc s !! p = Some pr -> p_mmr pr !! i = Some m -> get_mmr p i s = Ret m s.
Proof. intros Hp Hm. unfold get_mmr. rewrite (bind_Ret _ _ _ _ _ (get_proc_run _ _ _ Hp)), Hm. done. Qed.

(** One round of the loop over the regions. *)
Definition fault_round (p : nat) (scause va : Z) (i : nat) : K unit :=
  m <- get_mmr p i ;;
  if (va >=? mr_addr m) && (va <? u64 (mr_addr m + mr_length m)) && negb (mr_valid m =? 0)
  then
    (if (scause =? 13) && hasbit (mr_prot m) PTE_R then fault_page p m va else ret tt) ;;;
    (if (scause =? 15) && hasbit (mr_prot m) PTE_W then fault_page p m va else ret tt)
  else ret tt.

Lemma fault_round_no p scause va i s pr m :
  k_proc s !! p = Some pr -> p_mmr pr !! i = Some m -> serves scause va m = false -> fault_round p scause va i s = Ret tt s.
Proof.
  intros Hp Hm Hs. unfold fault_round. rewrite (bind_Ret _ _ _ _ _ (get_mmr_run _ _ _ _ _ Hp Hm)). unfold serves in Hs.
  destruct (_ && _ && negb _); [|done]. cbn [andb] in Hs. apply orb_false_iff in Hs as [-> ->]. done.
Qed.

Lemma fault_round_yes p scause va i s pr m s' :
  k_proc s !! p = Some pr -> p_mmr pr !! i = Some m -> serves scause va m = true ->
  fault_page p m va s = Ret tt s' -> fault_round p scause va i s = Ret tt s'.
Proof.
  intros Hp Hm Hs E. unfold fault_round. rewrite (bind_Ret _ _ _ _ _ (get_mmr_run _ _ _ _ _ Hp Hm)). unfold serves in Hs.
  destruct (_ && _ && negb _); [|done]. cbn [andb] in Hs.
  destruct (Z.eqb_spec scause 13) as [->|_]; cbn [andb] in *.
  - change (13 =? 15) with false in *. cbn [andb orb] in *. rewrite orb_false_r in Hs. rewrite Hs.
    by rewrite (bind_Ret _ _ _ _ _ E).
  - cbn [orb] in Hs. rewrite Hs. exact E.
Qed.

(** The regions of [pr] that serve the access are [i] at most. *)
Definition only_region (scause va : Z) (pr : proc) (i : nat) : Prop :=
  forall j m, p_mmr pr !! j = Some m -> j <> i -> serves scause va m = false.

Lemma pagefault_one p scause va i s pr m s' :
  k_proc s !! p = Some pr -> length (p_mmr pr) = MAX_MMR -> p_mmr pr !! i = Some m ->
  serves scause va m = true -> only_region scause va pr i ->
  fault_page p m va s = Ret tt s' -> k_proc s' = k_proc s -> pagefault p scause va s = Ret tt s'.
Proof.
  intros Hp Hlen Hm Hs Hone E Hproc. unfold pagefault. change (fun i => _) with (fault_round p scause va).
  pose proof (lookup_lt_Some _ _ _ Hm) as Hi. rewrite Hlen in Hi. rewrite (seq_around _ _ Hi).
  assert (Hno : forall j t, k_proc t = k_proc s -> (j < MAX_MMR)%nat -> j <> i -> fault_round p scause va j t = Ret tt t).
  { intros j t Ht Hj Hne. destruct (lookup_lt_is_Some_2 (p_mmr pr) j ltac:(lia)) as [mj Hmj].
    apply (fault_round_no _ _ _ _ _ pr mj); [by rewrite Ht|done|by apply (Hone j)]. }
  rewrite for_all_skip.
  - cbn [for_all]. rewrite (bind_Ret _ _ _ _ _ (fault_round_yes _ _ _ _ _ _ _ _ Hp Hm Hs E)).
    apply for_all_id. intros j Hj. apply elem_of_seq in Hj. apply Hno; [done|lia|lia].
  - intros j Hj. apply elem_of_seq in Hj. apply Hno; [done|lia|lia].
Qed.

Lemma pagefault_none p scause va s pr :
  k_proc s !! p = Some pr -> length (p_mmr pr) = MAX_MMR ->
  Forall (fun m => serves scause va m = false) (p_mmr pr) -> pagefault p scause va s = Ret tt s.
Proof.
  intros Hp Hlen Hno. unfold pagefault. change (fun i => _) with (fault_round p scause va). apply for_all_id.
  intros j Hj. apply elem_of_seq in Hj. destruct (lookup_lt_is_Some_2 (p_mmr pr) j ltac:(lia)) as [mj Hmj].
  rewrite Forall_lookup in Hno. by apply (fault_round_no _ _ _ _ _ pr mj); [| |apply (Hno j)].
Qed.

(** [va]'s page, unmapped before, is mapped to the page [x] taken from the
    free list, filled with the allocator's junk; every other user address and
    every other page is as before. *)
Definition faulted (s s' : kstate) (root x : Z) (fl fl' : list Z) (va perm : Z) : Prop :=
  vm_trans s s' root (x :: fl) fl' /\
  tables (k_mem s') 2 root ++ x :: fl' ≡ₚ tables (k_mem s) 2 root ++ x :: fl /\
  aspace (k_mem s') root (va / PGSIZE) = mkpte x (Z.lor perm PTE_V) /\
  (forall a, 0 <= a -> walkaddr root a s' = Ret (if a / PGSIZE =? va / PGSIZE then x else user_pa (aspace (k_mem s) root) a) s') /\
  (forall a, x <= a < x + PGSIZE -> k_mem s' a = 5).

Lemma page_of_down va : PGROUNDDOWN va / PGSIZE = va / PGSIZE /\ (PGROUNDDOWN va + PGSIZE - 1) / PGSIZE = va / PGSIZE.
Proof. rewrite PGROUNDDOWN_eq. unfold PGSIZE. split; Z.div_mod_to_equations; lia. Qed.

(** The allocator's junk in the page just taken. *)
Lemma kalloc_take s root x fl :
  vm_inv s root (x :: fl) -> Lk_kmem ∉ k_held s ->
  kalloc s = Ret x (kalloc_state x s) /\ vm_trans s (kalloc_state x s) root (x :: fl) fl /\
  tables (k_mem (kalloc_state x s)) 2 root = tables (k_mem s) 2 root /\
  (forall vpn, aspace (k_mem (kalloc_state x s)) root vpn = aspace (k_mem s) root vpn) /\
  (x ∉ tables (k_mem s) 2 root) /\ (x ∉ fl) /\ page_ok x.
Proof.
  intros Hi Hlk. destruct (tree_ok_facts _ _ _ _ Hi) as (([<- Hc] & Hndf & Hok) & _ & _ & _ & _ & Hdis).
  inversion Hok as [|? ? Hx _]; subst. apply NoDup_cons in Hndf as [Hxn _].
  pose proof (page_ok_nonzero _ Hx) as Hnz. split; [by apply kalloc_run|].
  change (kalloc_state (k_freelist s) s) with (taken s (k_freelist s) (fill (k_mem s) (k_freelist s) 5 PGSIZE)).
  destruct (take_page s root (k_freelist s) fl (fill (k_mem s) (k_freelist s) 5 PGSIZE) Hi) as (H1 & H2 & H3).
  { intros q Hq Hne. apply fill_same_page; [by apply page_ok_aligned|done|done]. }
  split; [exact H1|]. split; [exact H2|]. split; [exact H3|]. split; [|done].
  intros Hin. apply (Hdis _ Hin), elem_of_cons. by left.
Qed.

Lemma perm_of_prot prot : 0 <= prot < 1024 -> 0 <= Z.lor (u64 prot) PTE_U < 1024 /\ hasbit (Z.lor (u64 prot) PTE_U) PTE_U = true.
Proof.
  intros H. rewrite u64_small by lia. split; [apply (lor_range _ _ 10); unfold PTE_U; lia|].
  unfold hasbit. apply negb_true_iff, Z.eqb_neq. rewrite Z.land_lor_distr_l. intros [_ E]%Z.lor_eq_0_iff. discriminate E.
Qed.

Lemma fault_page_run p m va s pr x fl :
  let root := p_pagetable pr in
  vm_inv s root (x :: fl) -> Lk_kmem ∉ k_held s -> k_proc s !! p = Some pr -> 0 <= mr_prot m < 1024 ->
  0 <= va < MAXVA -> hasbit (aspace (k_mem s) root (va / PGSIZE)) PTE_V = false -> (2 <= length fl)%nat ->
  exists s' fl', fault_page p m va s = Ret tt s' /\ faulted s s' root x fl fl' va (Z.lor (mr_prot m) PTE_U).
Proof.
  intros root Hi Hlk Hp Hprot Hva Hfree Hlen.
  destruct (kalloc_take s root x fl Hi Hlk) as (E1 & T1 & HT1 & HA1 & Hxt & Hxf & Hx).
  set (s1 := kalloc_state x s) in *. destruct (perm_of_prot _ Hprot) as [Hperm HU]. pose proof (page_of_down va) as [D1 D2].
  pose proof (page_ok_range _ Hx) as Hxr. change MAXVA with 274877906944 in Hva.
  assert (Hb : 0 <= PGROUNDDOWN va /\ PGROUNDDOWN va + PGSIZE <= 274877906944).
  { rewrite PGROUNDDOWN_eq. unfold PGSIZE. Z.div_mod_to_equations. lia. }
  destruct (mappages_spec s1 root fl (PGROUNDDOWN va) PGSIZE x (Z.lor (u64 (mr_prot m)) PTE_U))
    as (r & s2 & fl' & k & E2 & HM & _ & Hres); [apply T1|exact Hlk|lia|done|exact (proj2 Hb)|..|exact Hperm| |].
  1-2: unfold PGSIZE, PHYSTOP, KERNBASE in *; lia.
  { rewrite D1, D2. intros vpn Hv. assert (vpn = va / PGSIZE) as -> by lia. by rewrite HA1. }
  rewrite D1, D2 in *. rewrite Z.sub_diag in Hres. change (0 + 1) with 1 in Hres. destruct Hres as [[-> ->]|?]; [|lia].
  exists s2, fl'. split.
  { unfold fault_page. rewrite (bind_Ret _ _ _ _ _ E1), (bind_Ret _ _ _ _ _ (get_proc_run p s1 pr Hp)), (bind_Ret _ _ _ _ _ E2). done. }
  pose proof HM as (T2 & Hsub & HP & Has). rewrite u64_small in * by lia. split; [|split; [|split; [|split]]].
  - eapply vm_trans_trans; [|exact T1|exact T2]. intros y Hy. left. apply elem_of_cons. by right.
  - rewrite <- HT1, <- !Permutation_middle. by rewrite HP.
  - rewrite Has by (apply vpn_ok_va; change MAXVA with 274877906944; lia). unfold map_range.
    rewrite Z.leb_refl. destruct (Z.ltb_spec (va / PGSIZE) (va / PGSIZE + 1)); [|lia]. cbn [andb]. f_equal. lia.
  - intros a Ha. rewrite (mapped_walkaddr _ _ _ _ _ _ _ _ _ a HM); try done;
      try (unfold PGSIZE, PHYSTOP, KERNBASE in *; change MAXVA with 274877906944; Z.div_mod_to_equations; lia).
    f_equal. destruct (Z.eqb_spec (a / PGSIZE) (va / PGSIZE)) as [->|].
    + rewrite Z.leb_refl. destruct (Z.ltb_spec (va / PGSIZE) (va / PGSIZE + 1)); [|lia]. cbn [andb]. lia.
    + destruct (Z.leb_spec (va / PGSIZE) (a / PGSIZE)), (Z.ltb_spec (a / PGSIZE) (va / PGSIZE + 1)); try lia; cbn [andb];
        unfold user_pa; by rewrite HA1.
  - intros a Ha. destruct T2 as (_ & _ & Hsp & _). rewrite (Hsp x); [|by apply page_ok_aligned|by rewrite HT1|done| |done].
    + unfold s1, kalloc_state. kred. by apply fill_inside.
    + intros Hx'. apply Hxf. by apply Hsub.
Qed.

(** ** From the trap to the return *)

Context `{DD : DiskDriver} (kernelvec : Z) (junk : list Z).

(** The state after the user's program counter has been saved. *)
Definition at_fault (r : regs) (pr : proc) (s : kstate) : kstate :=
  set_k_mem (st64 (k_mem s) (p_trapframe pr + TF_epc) (r_sepc r)) s.

Lemma usertrap_fault_run r r' s p pr s2 :
  hasbit (r_sstatus r) SSTATUS_SPP = false -> r_scause r = 13 \/ r_scause r = 15 ->
  k_cur s = Some p -> k_proc s !! p = Some pr -> p_killed pr = 0 ->
  pagefault p (r_scause r) (r_stval r) (at_fault r pr s) = Ret tt s2 -> k_cur s2 = k_cur s -> k_proc s2 = k_proc s ->
  exists r1 m, usertrap kernelvec junk r r' s = Ret (r1, TRAPFRAME, MAKE_SATP (p_pagetable pr)) (set_k_mem m s2) /\
    frame_ready r' pr (k_mem s2) m /\ user_sstatus (r_sstatus r') (r_sstatus r1) /\
    r_sepc r1 = ld64 (k_mem s2) (p_trapframe pr + TF_epc).
Proof.
  intros Hspp Hcause Hc Hp Hk E Hc2 Hp2. rewrite <- Hp2 in Hp at 1.
  assert (Hg2 : get_proc p s2 = Ret pr s2) by (by apply get_proc_run). rewrite Hp2 in Hp.
  destruct (usertrapret_run r' s2 p pr) as (r1 & m & Er & Hfr & Hst & Hepc & _); [by rewrite Hc2|by rewrite Hp2|].
  exists r1, m. split; [|done]. unfold usertrap. rewrite Hspp.
  assert (Hcp : curproc s = Ret p s) by (unfold curproc; by rewrite Hc). pose proof (get_proc_run _ _ _ Hp) as Hg. krun.
  change (r_scause (w_stvec kernelvec r)) with (r_scause r).
  change (set_k_mem _ s) with (at_fault r pr s).
  assert (Hd : devintr (w_stvec kernelvec r) (at_fault r pr s) = Ret (0, w_stvec kernelvec r) (at_fault r pr s)).
  { unfold devintr. change (r_scause (w_stvec kernelvec r)) with (r_scause r). by destruct Hcause as [-> | ->]. }
  erewrite bind_Ret; [|].
  2:{ replace (r_scause r =? 8) with false by (by destruct Hcause as [-> | ->]). cbv iota. rewrite (bind_Ret _ _ _ _ _ Hd).
      change (negb (0 =? 0)) with false. change (r_scause (w_stvec kernelvec r)) with (r_scause r).
      change (r_stval (w_stvec kernelvec r)) with (r_stval r).
      replace ((r_scause r =? 13) || (r_scause r =? 15)) with true by (by destruct Hcause as [-> | ->]).
      cbv iota. rewrite (bind_Ret _ _ _ _ _ E). reflexivity. }
  rewrite (bind_Ret _ _ _ _ _ Hg2). rewrite Hk. change (negb (0 =? 0)) with false. change (0 =? 2) with false. cbv iota.
  krun. exact Er.
Qed.

(** The trap frame's page is neither a page table nor free. *)
Definition frame_apart (s : kstate) (pr : proc) (root : Z) (fl : list Z) : Prop :=
  aligned (p_trapframe pr) /\ (p_trapframe pr ∉ tables (k_mem s) 2 root) /\ (p_trapframe pr ∉ fl).

(** Writes inside the trap frame are not seen by the page table. *)
Lemma frame_write s pr root fl m :
  vm_inv s root fl -> frame_apart s pr root fl ->
  (forall a, a < p_trapframe pr \/ p_trapframe pr + PGSIZE <= a -> m a = k_mem s a) ->
  vm_inv (set_k_mem m s) root fl /\ tables m 2 root = tables (k_mem s) 2 root /\
  forall vpn, aspace m root vpn = aspace (k_mem s) root vpn.
Proof.
  intros Hi (Hal & Ht & Hf) Hm. by apply (vm_frame_page s root fl (p_trapframe pr)).
Qed.

Lemma at_fault_outside r pr s a :
  a < p_trapframe pr \/ p_trapframe pr + PGSIZE <= a -> k_mem (at_fault r pr s) a = k_mem s a.
Proof. intros Ha. unfold at_fault. kred. unfold st64, TF_epc. apply st_outside. unfold PGSIZE in Ha. lia. Qed.

Lemma frame_ready_outside r pr m m' a :
  frame_ready r pr m m' -> a < p_trapframe pr \/ p_trapframe pr + PGSIZE <= a -> m' a = m a.
Proof. intros (_ & _ & _ & _ & H) Ha. apply H. unfold TF_epc, TF_kernel_hartid. unfold PGSIZE in Ha. lia. Qed.

(** Pages outside the table, the free list and the trap frame are left alone. *)
Lemma faulted_others s s' root x fl fl' va perm q :
  faulted s s' root x fl fl' va perm -> aligned q -> (q ∉ tables (k_mem s) 2 root) -> (q ∉ x :: fl) ->
  same_page (k_mem s) (k_mem s') q /\ (q ∉ tables (k_mem s') 2 root) /\ (q ∉ fl').
Proof.
  intros ((_ & _ & Hsp & _) & HP & _) Hq Ht Hf.
  assert (Hn : (q ∉ tables (k_mem s') 2 root ++ x :: fl')) by (rewrite HP, elem_of_app; tauto).
  rewrite elem_of_app, elem_of_cons in Hn. split; [apply Hsp; tauto|tauto].
Qed.

(** C15: a page fault in a mapped region. A load or store fault of the running
    process, at an address of one of its valid regions that has the permission
    for it, takes one page from the allocator and maps it at the faulting page
    with the region's protection; the process goes on at the same instruction,
    whose access the page table now allows; every other user address is
    translated as before, and no page but the page tables, free pages and the
    process's trap frame is written. *)
Theorem usertrap_pagefault r r' s p pr x fl i m :
  let root := p_pagetable pr in let va := r_stval r in
  hasbit (r_sstatus r) SSTATUS_SPP = false -> r_scause r = 13 \/ r_scause r = 15 -> 0 <= r_sepc r < 2 ^ 64 ->
  k_cur s = Some p -> k_proc s !! p = Some pr -> p_killed pr = 0 -> length (p_mmr pr) = MAX_MMR ->
  vm_inv s root (x :: fl) -> Lk_kmem ∉ k_held s -> frame_apart s pr root (x :: fl) ->
  p_mmr pr !! i = Some m -> serves (r_scause r) va m = true -> only_region (r_scause r) va pr i -> 0 <= mr_prot m < 1024 ->
  0 <= va < MAXVA -> hasbit (aspace (k_mem s) root (va / PGSIZE)) PTE_V = false -> (2 <= length fl)%nat ->
  exists r1 s' fl', usertrap kernelvec junk r r' s = Ret (r1, TRAPFRAME, MAKE_SATP root) s' /\
    r_sepc r1 = r_sepc r /\ user_sstatus (r_sstatus r') (r_sstatus r1) /\
    vm_inv s' root fl' /\ same_but_mem s s' /\
    aspace (k_mem s') root (va / PGSIZE) = mkpte x (Z.lor (Z.lor (mr_prot m) PTE_U) PTE_V) /\
    (forall a, 0 <= a -> walkaddr root a s' = Ret (if a / PGSIZE =? va / PGSIZE then x else user_pa (aspace (k_mem s) root) a) s') /\
    (forall q, aligned q -> (q ∉ tables (k_mem s) 2 root) -> (q ∉ x :: fl) -> q <> p_trapframe pr -> same_page (k_mem s) (k_mem s') q).
Proof.
  intros root va Hspp Hcause Hsepc Hc Hp Hk Hlen Hi Hlk Hap Hm Hs Hone Hprot Hva Hfree Hfl.
  destruct (frame_write s pr root (x :: fl) (k_mem (at_fault r pr s)) Hi Hap (at_fault_outside r pr s)) as (Hi1 & HT1 & HA1).
  change (set_k_mem _ s) with (at_fault r pr s) in Hi1. set (s1 := at_fault r pr s) in *.
  destruct (fault_page_run p m va s1 pr x fl) as (s2 & fl2 & E2 & HF); try done; [by rewrite HA1|]. fold root in HF.
  pose proof HF as ((Hi2 & HB2 & _ & _) & HP2 & Hpte & Hw & _).
  assert (Hpc : k_proc s2 = k_proc s /\ k_cur s2 = k_cur s) by (rewrite HB2; done).
  destruct (usertrap_fault_run r r' s p pr s2) as (r1 & m2 & E & Hfr & Hst & Hepc); try done; try tauto.
  { apply (pagefault_one _ _ _ i _ pr m); try done. apply Hpc. }
  destruct (faulted_others _ _ _ _ _ _ _ _ (p_trapframe pr) HF) as (Hsp & Ht2 & Hf2); [apply Hap|rewrite HT1; apply Hap|apply Hap|].
  destruct (frame_write s2 pr root fl2 m2 Hi2) as (Hi3 & HT3 & HA3);
    [split; [apply Hap|done]|intros a Ha; by apply (frame_ready_outside r' pr _ _ a Hfr)|].
  exists r1, (set_k_mem m2 s2), fl2. split; [exact E|]. split; [|split; [done|split; [done|split; [|split; [|split]]]]].
  - rewrite Hepc. unfold ld64. rewrite (ld_ext 8 (k_mem s1) (k_mem s2)).
    + change (ld64 (st64 (k_mem s) (p_trapframe pr + TF_epc) (r_sepc r)) (p_trapframe pr + TF_epc) = r_sepc r).
      rewrite ld64_st64_at. by apply u64_small.
    + intros a Ha. apply Hsp. unfold TF_epc, PGSIZE in *. lia.
  - unfold same_but_mem. kred. rewrite HB2. by destruct s.
  - kred. rewrite HA3. exact Hpte.
  - intros a Ha. rewrite (walkaddr_spec _ root fl2 a Hi3 Ha). f_equal.
    pose proof (Hw a Ha) as Hwa. rewrite (walkaddr_spec _ root fl2 a Hi2 Ha) in Hwa. injection Hwa as Hwa.
    transitivity (user_pa (aspace (k_mem s2) root) a); [unfold user_pa; kred; by rewrite HA3|]. rewrite Hwa.
    destruct (_ =? _); [done|]. unfold user_pa. by rewrite HA1.
  - intros q Hq Ht Hf Hne a Ha. destruct (aligned_disjoint q (p_trapframe pr)) as [Hd|Hd]; [done|apply Hap|done|..];
    (kred; rewrite (frame_ready_outside r' pr _ _ a Hfr) by lia;
     destruct (faulted_others _ _ _ _ _ _ _ _ q HF) as [Hq2 _]; [done|by rewrite HT1|done|];
     rewrite (Hq2 a Ha); apply at_fault_outside; lia).
Qed.

(** C37: a page fault outside every region, or without the permission for it.
    The process is neither killed nor given a page: nothing but its trap frame
    changes, and it goes on at the instruction that has faulted, to fault
    again. *)
Theorem usertrap_segfault r r' s p pr :
  hasbit (r_sstatus r) SSTATUS_SPP = false -> r_scause r = 13 \/ r_scause r = 15 -> 0 <= r_sepc r < 2 ^ 64 ->
  k_cur s = Some p -> k_proc s !! p = Some pr -> p_killed pr = 0 -> length (p_mmr pr) = MAX_MMR ->
  Forall (fun m => serves (r_scause r) (r_stval r) m = false) (p_mmr pr) ->
  exists r1 m, usertrap kernelvec junk r r' s = Ret (r1, TRAPFRAME, MAKE_SATP (p_pagetable pr)) (set_k_mem m s) /\
    r_sepc r1 = r_sepc r /\
    (forall a, a < p_trapframe pr \/ p_trapframe pr + TF_kernel_hartid + 8 <= a -> m a = k_mem s a).
Proof.
  intros Hspp Hcause Hsepc Hc Hp Hk Hlen Hno.
  destruct (usertrap_fault_run r r' s p pr (at_fault r pr s)) as (r1 & m & E & Hfr & _ & Hepc); try done.
  { by apply (pagefault_none _ _ _ _ pr). }
  exists r1, m. split; [exact E|]. split.
  - rewrite Hepc. unfold at_fault. kred. rewrite ld64_st64_at. by apply u64_small.
  - intros a Ha. destruct Hfr as (_ & _ & _ & _ & H). rewrite H by (unfold TF_kernel_hartid in *; lia).
    unfold at_fault. kred. unfold st64, TF_epc, TF_kernel_hartid in *. apply st_outside. lia.
Qed.
End Fault.

(** ** Families *)

(** The family node of a region. *)
Definition fam (s : kstate) (nd : node) : option mmr_node :=
  pr ← k_proc s !! nd.1; m ← p_mmr pr !! nd.2; Some (mr_family m).

Definition with_family (nd : node) (f : mmr_node -> mmr_node) (s : kstate) : kstate :=
  set_k_proc (alter (fun pr => set_p_mmr (alter (fun m => set_mr_family (f (mr_family m)) m) nd.2 (p_mmr pr)) pr) nd.1 (k_proc s)) s.

Lemma upd_family_run nd f s : upd_family nd f s = Ret tt (with_family nd f s).
Proof. done. Qed.

Lemma fam_with_family nd f s nd' :
  fam (with_family nd f s) nd' = if decide (nd' = nd) then f <$> fam s nd' else fam s nd'.
Proof.
  unfold fam, with_family. kred. destruct nd as [p i], nd' as [q j]. cbn [fst snd].
  destruct (decide (q = p)) as [->|Hq].
  - rewrite list_lookup_alter_eq. destruct (k_proc s !! p) as [pr|]; cbn; [|by destruct (decide _)].
    destruct (decide (j = i)) as [->|Hj].
    + rewrite list_lookup_alter_eq, decide_True by done. by destruct (p_mmr pr !! i).
    + rewrite list_lookup_alter_ne, decide_False by congruence. done.
  - rewrite list_lookup_alter_ne, decide_False by congruence. done.
Qed.

Definition nexts (s : kstate) (a b : node) : Prop := mn_next <$> fam s a = Some (Some b).
Definition prevs (s : kstate) (b a : node) : Prop := mn_prev <$> fam s b = Some (Some a).

(** The [next] pointers lead from [a] through [l] to [b]; the [prev] pointers
    lead back. *)
Fixpoint next_path (s : kstate) (a : node) (l : list node) (b : node) : Prop :=
  match l with [] => nexts s a b | c :: l' => nexts s a c /\ next_path s c l' b end.
Fixpoint prev_path (s : kstate) (a : node) (l : list node) (b : node) : Prop :=
  match l with [] => prevs s b a | c :: l' => prevs s c a /\ prev_path s c l' b end.

(** [a] and [l] are the members of a family, in the order of its ring. *)
Definition ring (s : kstate) (a : node) (l : list node) : Prop :=
  NoDup (a :: l) /\ next_path s a l a /\ prev_path s a l a.

Lemma next_path_ext s s' a l b :
  (forall n, n = a \/ n ∈ l -> fam s' n = fam s n) -> next_path s a l b -> next_path s' a l b.
Proof.
  revert a. induction l as [|c l IH]; intros a H; cbn; unfold nexts.
  - by rewrite H by (by left).
  - rewrite H by (by left). intros [H1 H2]. split; [done|]. apply IH; [|done].
    intros n Hn. apply H. right. apply elem_of_cons. tauto.
Qed.

(** The state [fork] leaves: the child [c] between the parent [a] and the
    parent's successor. *)
Definition joined (a c : node) (f : mmr_node) (s : kstate) : kstate :=
  let s := with_family c (fun g => set_mn_listid (mn_listid f) (set_mn_proc (Some c.1) g)) s in
  let s := with_family c (set_mn_next (mn_next f)) s in
  let s := with_family a (set_mn_next (Some c)) s in
  let s := with_family c (set_mn_prev (Some a)) s in
  if decide (mn_prev f = Some a) then with_family a (set_mn_prev (Some c)) s else s.

Lemma fork_join_run p np i s f :
  fam s (p, i) = Some f -> 0 <= mn_listid f < Z.of_nat NMMRLIST -> Lk_mmrlist (mn_listid f) ∉ k_held s ->
  fork_join p np i s = Ret tt (joined (p, i) (np, i) f s).
Proof.
  intros Hf Hid Hlk. unfold fork_join, fam in *. cbn [fst snd] in Hf.
  destruct (k_proc s !! p) as [pr|] eqn:Hp; [|done]. cbn in Hf. destruct (p_mmr pr !! i) as [m|] eqn:Hm; [|done].
  cbn in Hf. injection Hf as <-. rewrite (bind_Ret _ _ _ _ _ (get_mmr_run _ _ _ _ _ Hp Hm)). cbv zeta.
  unfold acquire_list, release_list. replace ((0 <=? _) && (_ <? _)) with true by (symmetry; apply andb_true_iff; lia).
  cbv iota. set (f := mr_family m) in *. rewrite (bind_Ret _ _ _ _ _ (upd_family_run _ _ _)).
  rewrite (bind_Ret _ _ _ _ _ (acquire_free _ (with_family _ _ s) Hlk)).
  rewrite (bind_Ret _ _ _ _ _ (upd_family_run _ _ _)), (bind_Ret _ _ _ _ _ (upd_family_run _ _ _)), (bind_Ret _ _ _ _ _ (upd_family_run _ _ _)).
  unfold joined. cbv zeta. destruct (decide _).
  - rewrite (bind_Ret _ _ _ _ _ (upd_family_run _ _ _)). erewrite release_head by reflexivity. by destruct s.
  - erewrite (bind_Ret (ret tt)) by reflexivity. erewrite release_head by reflexivity. by destruct s.
Qed.

(** The nodes after the child has joined. *)
Lemma joined_fam a c f g s n :
  a <> c -> fam s a = Some f -> fam s c = Some g ->
  fam (joined a c f s) n =
  if decide (n = c) then Some (mkMmrNode (mn_listid f) (Some c.1) (mn_next f) (Some a))
  else if decide (n = a)
  then Some (mkMmrNode (mn_listid f) (mn_proc f) (Some c) (if decide (mn_prev f = Some a) then Some c else mn_prev f))
  else fam s n.
Proof.
  intros Hne Ha Hc. unfold joined. cbv zeta.
  destruct (decide (mn_prev f = Some a)); rewrite !fam_with_family;
    (destruct (decide (n = c)) as [->|]; [rewrite ?(decide_False (P := c = a)) by congruence; by rewrite Hc|]);
    (destruct (decide (n = a)) as [->|]; [rewrite Ha; by destruct f|done]).
Qed.

(** C36: [fork] adds the child to the family of a shared region. When the
    parent is the region's only process the result is a ring of the two; with
    more processes in the family the [next] pointers make a ring with the child
    after its parent, but the [prev] pointers do not: that of the old successor
    still leads to the parent. *)
Theorem fork_join_ring p np i s l f g :
  ring s (p, i) l -> np <> p -> ((np, i) ∉ l) -> fam s (p, i) = Some f -> fam s (np, i) = Some g ->
  0 <= mn_listid f < Z.of_nat NMMRLIST -> Lk_mmrlist (mn_listid f) ∉ k_held s ->
  exists s', fork_join p np i s = Ret tt s' /\ next_path s' (p, i) ((np, i) :: l) (p, i) /\
    mn_listid <$> fam s' (np, i) = Some (mn_listid f) /\
    (ring s' (p, i) ((np, i) :: l) <-> l = []) /\ (forall c, head l = Some c -> prevs s' c (p, i)).
Proof.
  intros (Hnd & Hnx & Hpv) Hne Hout Hf Hg Hid Hlk. exists (joined (p, i) (np, i) f s). split; [by apply fork_join_run|].
  set (a := (p, i)) in *. set (c := (np, i)) in *. assert (Hac : a <> c) by (unfold a, c; congruence).
  apply NoDup_cons in Hnd as [Hal Hnd]. set (s' := joined a c f s).
  assert (Hfam : forall n, fam s' n = _) by (intros n; exact (joined_fam a c f g s n Hac Hf Hg)).
  assert (Hsame : forall n, n ∈ l -> fam s' n = fam s n).
  { intros n Hn. rewrite Hfam, !decide_False; [done|intros ->; done|intros ->; done]. }
  assert (Hn : next_path s' a (c :: l) a).
  { split; [unfold nexts; rewrite Hfam, decide_False, decide_True by done; done|].
    assert (Hc : fam s' c = Some (mkMmrNode (mn_listid f) (Some c.1) (mn_next f) (Some a))) by (by rewrite Hfam, decide_True).
    destruct l as [|d l]; cbn in Hnx |- *; unfold nexts in Hnx |- *; rewrite Hf in Hnx; rewrite Hc; [done|].
    destruct Hnx as [H1 H2]. split; [done|]. apply (next_path_ext s); [|done].
    intros n Hn. apply Hsame, elem_of_cons. tauto. }
  split; [done|]. split; [by rewrite Hfam, decide_True|].
  assert (Hpd : forall d, head l = Some d -> prevs s' d a).
  { intros d Hd. destruct l as [|d' l]; [done|]. injection Hd as ->. destruct Hpv as [Hd _]. unfold prevs in *.
    rewrite Hsame by (apply elem_of_cons; by left). done. }
  split; [|done]. split.
  - intros (_ & _ & Hpv'). destruct l as [|d l]; [done|]. destruct Hpv' as (_ & Hdc & _). exfalso.
    pose proof (Hpd d eq_refl) as Hda. unfold prevs in *. rewrite Hdc in Hda. congruence.
  - intros ->. split; [apply NoDup_cons; split; [by apply not_elem_of_cons; split; [|apply not_elem_of_nil]|apply NoDup_singleton]|]. split; [done|]. cbn in Hpv |- *. unfold prevs in *.
    rewrite Hf in Hpv. injection Hpv as Hpv. split; rewrite Hfam; [by rewrite decide_True|].
    rewrite decide_False, decide_True by done. cbn. by rewrite decide_True.
Qed.

Module MmrWitness.
Import VmWitness.
#[local] Existing Instance sym_layout.
#[local] Transparent tables find_pte pte_of.

(** One shared region of two pages from [0x10000]. *)
Definition region (prot : Z) (fam : mmr_node) : mmr := mkMmr 0x10000 8192 prot MAP_SHARED 1 fam.
Definition node_of (p : nat) (nx pv : nat) : mmr_node := mkMmrNode 7 (Some p) (Some (nx, 0%nat)) (Some (pv, 0%nat)).
Definition owner (fam : mmr_node) : proc :=
  set_p_pagetable rootP (set_p_trapframe 0x80060000 (set_p_state RUNNING
    (set_p_mmr (<[0%nat := region (Z.lor PTE_R PTE_W) fam]> (p_mmr proc0)) proc0))).
Definition s0 : kstate :=
  set_k_cur (Some 0%nat) (set_k_proc (<[0%nat := owner (node_of 0 0 0)]> (k_proc boot)) (demo leafU)).

(** A store to [va], by the instruction at [0x64]. *)
Definition store_trap (va : Z) : regs := mkRegs 0x20 15 0x64 va 0 0 0 0 (fun _ => 0) [].

Lemma s0_frame : frame_apart s0 (owner (node_of 0 0 0)) rootP freeP.
Proof. split; [reflexivity|]. split; apply (bool_decide_unpack _); vm_compute; exact I. Qed.

Lemma usertrap_pagefault_witness : exists r1 s',
  usertrap (DD := BioWitness.now_driver) 0 [] (store_trap 0x10abc) (store_trap 0x10abc) s0 = Ret (r1, TRAPFRAME, MAKE_SATP rootP) s' /\
  r_sepc r1 = 0x64 /\ walkaddr rootP 0x10abc s' = Ret 0x80054000 s' /\ walkaddr rootP 0xabc s' = Ret userP s'.
Proof.
  set (fam0 := node_of 0 0 0).
  destruct (usertrap_pagefault (DD := BioWitness.now_driver) 0 [] (store_trap 0x10abc) (store_trap 0x10abc) s0 0 (owner fam0)
    0x80054000 (tail freeP) 0 (region (Z.lor PTE_R PTE_W) fam0)) as (r1 & s' & fl' & E & Hpc & _ & _ & _ & _ & Hw & _).
  - reflexivity.
  - by right.
  - cbn; lia.
  - reflexivity.
  - reflexivity.
  - reflexivity.
  - reflexivity.
  - apply demo_inv. by right.
  - apply not_elem_of_nil.
  - exact s0_frame.
  - reflexivity.
  - reflexivity.
  - intros j mj Hj Hne. destruct j as [|j]; [done|]. change (replicate 9 (mkMmr 0 0 0 0 0 (mkMmrNode 0 None None None)) !! j = Some mj) in Hj.
    apply lookup_replicate in Hj as [-> _]. reflexivity.
  - vm_compute. intuition congruence.
  - vm_compute. intuition congruence.
  - vm_compute. reflexivity.
  - cbn. lia.
  - exists r1, s'. split; [exact E|]. split; [exact Hpc|]. split; [exact (Hw 0x10abc ltac:(lia))|exact (Hw 0xabc ltac:(lia))].
Defined.

Lemma usertrap_segfault_witness : exists r1 m,
  usertrap (DD := BioWitness.now_driver) 0 [] (store_trap 0x20000) (store_trap 0x20000) s0 = Ret (r1, TRAPFRAME, MAKE_SATP rootP) (set_k_mem m s0) /\
  r_sepc r1 = 0x64.
Proof.
  destruct (usertrap_segfault (DD := BioWitness.now_driver) 0 [] (store_trap 0x20000) (store_trap 0x20000) s0 0 (owner (node_of 0 0 0)))
    as (r1 & m & E & Hpc & _).
  - reflexivity.
  - by right.
  - cbn; lia.
  - reflexivity.
  - reflexivity.
  - reflexivity.
  - reflexivity.
  - apply (bool_decide_unpack _). vm_compute. exact I.
  - exists r1, m. split; [exact E|exact Hpc].
Defined.

(** Processes 0 and 1 share the region; process 2 is the child of process 0. *)
Definition s2 : kstate :=
  set_k_proc (<[0%nat := owner (node_of 0 1 1)]> (<[1%nat := owner (node_of 1 0 0)]> (k_proc boot))) boot.

Lemma fork_join_ring_witness : exists s', fork_join 0 2 0 s2 = Ret tt s' /\ ~ ring s' (0, 0)%nat [(2, 0)%nat; (1, 0)%nat] /\
  prevs s' (1, 0)%nat (0, 0)%nat.
Proof.
  destruct (fork_join_ring 0 2 0 s2 [(1, 0)%nat] (node_of 0 1 1) (mkMmrNode 0 None None None)) as (s' & E & _ & _ & [Hr _] & Hp).
  - split; [apply (bool_decide_unpack _); vm_compute; exact I|]. split; vm_compute; auto.
  - discriminate.
  - apply (bool_decide_unpack _). vm_compute. exact I.
  - reflexivity.
  - reflexivity.
  - vm_compute. intuition congruence.
  - apply not_elem_of_nil.
  - exists s'. split; [exact E|]. split; [intros H; discriminate (Hr H)|exact (Hp _ eq_refl)].
Defined.
End MmrWitness.
