(* ===== verification/PipeFacts.v ===== *)
(** * The pipe is a bounded queue of bytes

    The ring buffer of kernel/pipe.c refines a list of at most [PIPESIZE]
    bytes, through the wrap-around of the ring and of the two 32-bit counters;
    [pipewrite] adds the writer's bytes to it in order, however often it has
    to wait for a reader, and [piperead] takes them from its front. *)

From S2P Require Import Prelude Machine State Kalloc Vm VmFacts VmUser VmWitness Printf Sched Sleeplock Pipe.

(** ** The ring buffer *)

(** The counters and the bytes between them. *)
Definition pipe_nread (m : memory) (pi : Z) : Z := ld32 m (pi + PI_nread).
Definition pipe_nwrite (m : memory) (pi : Z) : Z := ld32 m (pi + PI_nwrite).
Definition pipe_count (m : memory) (pi : Z) : Z := u32 (pipe_nwrite m pi - pipe_nread m pi).
Definition pipe_byte (m : memory) (pi k : Z) : Z := u8 (m (pi + PI_data + u32 k mod PIPESIZE)).
Definition pipe_queue (m : memory) (pi : Z) : list Z :=
  map (fun i => pipe_byte m pi (pipe_nread m pi + Z.of_nat i)) (seq 0 (Z.to_nat (pipe_count m pi))).

(** No more bytes than the ring has room for. *)
Definition pipe_ok (m : memory) (pi : Z) : Prop := pipe_count m pi <= PIPESIZE.

Lemma pipe_count_range m pi : 0 <= pipe_count m pi.
Proof. apply u32_range. Qed.

Lemma length_pipe_queue m pi : Z.of_nat (length (pipe_queue m pi)) = pipe_count m pi.
Proof. unfold pipe_queue. rewrite length_map, length_seq. pose proof (pipe_count_range m pi). lia. Qed.

Lemma pipe_full m pi : pipe_ok m pi -> (pipe_nwrite m pi =? u32 (pipe_nread m pi + PIPESIZE)) = (pipe_count m pi =? PIPESIZE).
Proof.
  unfold pipe_ok, pipe_count, PIPESIZE, u32. pose proof (ld32_range m (pi + PI_nwrite)). pose proof (ld32_range m (pi + PI_nread)).
  fold (pipe_nwrite m pi) in *. fold (pipe_nread m pi) in *. intros Hok.
  apply eq_iff_eq_true. rewrite !Z.eqb_eq. Z.div_mod_to_equations. lia.
Qed.

Lemma pipe_empty m pi : (pipe_nread m pi =? pipe_nwrite m pi) = (pipe_count m pi =? 0).
Proof.
  unfold pipe_count, u32. pose proof (ld32_range m (pi + PI_nwrite)). pose proof (ld32_range m (pi + PI_nread)).
  fold (pipe_nwrite m pi) in *. fold (pipe_nread m pi) in *.
  apply eq_iff_eq_true. rewrite !Z.eqb_eq. Z.div_mod_to_equations. lia.
Qed.

Lemma ld32_st32_same m a v : ld32 (st32 m a v) a = u32 v.
Proof. unfold ld32, st32. rewrite ld_st_same. done. Qed.

Lemma ld32_st32_other m a b v : b + 4 <= a \/ a + 4 <= b -> ld32 (st32 m a v) b = ld32 m b.
Proof. intros. apply ld_st_other. simpl. lia. Qed.

(** Memory that agrees on the bytes of the pipe. *)
Lemma pipe_ext m m' pi :
  (forall a, pi + PI_data <= a < pi + PI_readopen -> m' a = m a) ->
  pipe_nread m' pi = pipe_nread m pi /\ pipe_nwrite m' pi = pipe_nwrite m pi /\ pipe_count m' pi = pipe_count m pi /\
  pipe_queue m' pi = pipe_queue m pi.
Proof.
  unfold PI_data, PI_readopen. intros H.
  assert (Er : pipe_nread m' pi = pipe_nread m pi) by (apply ld_ext; intros; apply H; unfold PI_nread in *; lia).
  assert (Ew : pipe_nwrite m' pi = pipe_nwrite m pi) by (apply ld_ext; intros; apply H; unfold PI_nwrite in *; lia).
  assert (Ec : pipe_count m' pi = pipe_count m pi) by (unfold pipe_count; by rewrite Er, Ew).
  split; [done|]. split; [done|]. split; [done|]. unfold pipe_queue. rewrite Ec, Er. apply map_ext. intros i. unfold pipe_byte.
  f_equal. apply H. unfold PI_data. pose proof (Z.mod_pos_bound (u32 (pipe_nread m pi + Z.of_nat i)) PIPESIZE eq_refl). unfold PIPESIZE in *. lia.
Qed.

(** [pi->data[pi->nwrite++ % PIPESIZE] = c]. *)
Definition pipe_push (m : memory) (pi c : Z) : memory :=
  wrbytes (st32 m (pi + PI_nwrite) (pipe_nwrite m pi + 1)) (pi + PI_data + pipe_nwrite m pi mod PIPESIZE) [u8 c].

(** [pi->nread++]. *)
Definition pipe_pop (m : memory) (pi : Z) : memory := st32 m (pi + PI_nread) (pipe_nread m pi + 1).

Lemma pipe_push_outside m pi c a :
  a < pi + PI_data \/ pi + PI_nwrite + 4 <= a -> pipe_push m pi c a = m a.
Proof.
  unfold pipe_push, PI_data, PI_nwrite. intros Ha. pose proof (Z.mod_pos_bound (pipe_nwrite m pi) PIPESIZE eq_refl). unfold PIPESIZE in *.
  rewrite wrbytes_outside by (cbn [length]; lia). apply st_outside. lia.
Qed.

Lemma pipe_pop_outside m pi a : a < pi + PI_nread \/ pi + PI_nread + 4 <= a -> pipe_pop m pi a = m a.
Proof. intros Ha. apply st_outside. lia. Qed.

Lemma pipe_push_counts m pi c :
  pipe_nread (pipe_push m pi c) pi = pipe_nread m pi /\ pipe_nwrite (pipe_push m pi c) pi = u32 (pipe_nwrite m pi + 1).
Proof.
  pose proof (Z.mod_pos_bound (pipe_nwrite m pi) PIPESIZE eq_refl). unfold PIPESIZE in *. split.
  - apply ld_ext. intros x Hx. unfold pipe_push, PIPESIZE, PI_nread, PI_data, PI_nwrite in *.
    rewrite wrbytes_outside by (cbn [length]; lia). apply st_outside. lia.
  - unfold pipe_nwrite at 1, pipe_push. rewrite <- (ld32_st32_same m (pi + PI_nwrite)). apply ld_ext. intros x Hx.
    unfold PIPESIZE, PI_nwrite, PI_data in *. apply wrbytes_outside. cbn [length]. lia.
Qed.

(** Adding a byte at the end of the queue. *)
Lemma pipe_push_queue m pi c :
  pipe_count m pi < PIPESIZE ->
  pipe_queue (pipe_push m pi c) pi = pipe_queue m pi ++ [u8 c] /\ pipe_ok (pipe_push m pi c) pi.
Proof.
  intros Hc. destruct (pipe_push_counts m pi c) as [Er Ew]. pose proof (pipe_count_range m pi) as Hc0.
  pose proof (ld32_range m (pi + PI_nwrite)) as Hw. pose proof (ld32_range m (pi + PI_nread)) as Hr.
  fold (pipe_nwrite m pi) in Hw. fold (pipe_nread m pi) in Hr.
  assert (Ec : pipe_count (pipe_push m pi c) pi = pipe_count m pi + 1).
  { unfold pipe_count in *. rewrite Er, Ew. unfold PIPESIZE, u32 in *. Z.div_mod_to_equations. lia. }
  split; [|unfold pipe_ok; rewrite Ec; lia].
  unfold pipe_queue. rewrite Ec, Er. replace (Z.to_nat (pipe_count m pi + 1)) with (Z.to_nat (pipe_count m pi) + 1)%nat by lia.
  rewrite seq_app, map_app. f_equal.
  - apply map_ext_in. intros i Hi%in_seq. unfold pipe_byte. f_equal. unfold pipe_push.
    rewrite wrbytes_outside; [apply st_outside; unfold PI_data, PI_nwrite;
      pose proof (Z.mod_pos_bound (u32 (pipe_nread m pi + Z.of_nat i)) PIPESIZE eq_refl); unfold PIPESIZE in *; lia|].
    cbn [length]. assert (u32 (pipe_nread m pi + Z.of_nat i) mod PIPESIZE <> pipe_nwrite m pi mod PIPESIZE); [|lia].
    unfold pipe_count in *. unfold PIPESIZE, u32 in *. Z.div_mod_to_equations. lia.
  - cbn [map seq]. f_equal. unfold pipe_byte.
    assert (E : u32 (pipe_nread m pi + Z.of_nat (0 + Z.to_nat (pipe_count m pi))) = pipe_nwrite m pi).
    { rewrite Nat.add_0_l, Z2Nat.id by lia. unfold pipe_count, u32 in *. Z.div_mod_to_equations. lia. }
    rewrite E. unfold pipe_push. rewrite wrbytes_inside by (cbn [length]; lia). rewrite Z.sub_diag. cbn. apply u8_small, u8_range.
Qed.

(** Taking the byte at the front. *)
Lemma pipe_pop_queue m pi :
  0 < pipe_count m pi -> pipe_ok m pi ->
  pipe_queue m pi = pipe_byte m pi (pipe_nread m pi) :: pipe_queue (pipe_pop m pi) pi /\ pipe_ok (pipe_pop m pi) pi.
Proof.
  intros Hc Hok. pose proof (ld32_range m (pi + PI_nwrite)) as Hw. pose proof (ld32_range m (pi + PI_nread)) as Hr.
  fold (pipe_nwrite m pi) in Hw. fold (pipe_nread m pi) in Hr.
  assert (Er : pipe_nread (pipe_pop m pi) pi = u32 (pipe_nread m pi + 1)) by apply ld32_st32_same.
  assert (Ew : pipe_nwrite (pipe_pop m pi) pi = pipe_nwrite m pi) by (apply ld32_st32_other; unfold PI_nwrite, PI_nread; lia).
  assert (Ec : pipe_count (pipe_pop m pi) pi = pipe_count m pi - 1).
  { unfold pipe_ok, pipe_count in *. rewrite Er, Ew. unfold PIPESIZE, u32 in *. Z.div_mod_to_equations. lia. }
  split; [|unfold pipe_ok in *; rewrite Ec; lia]. unfold pipe_queue. rewrite Ec, Er.
  replace (Z.to_nat (pipe_count m pi)) with (S (Z.to_nat (pipe_count m pi - 1))) by lia. cbn [seq map].
  f_equal; [f_equal; lia|]. rewrite map_seq_shift. apply map_ext. intros i. unfold pipe_byte.
  replace (u32 (u32 (pipe_nread m pi + 1) + Z.of_nat i)) with (u32 (pipe_nread m pi + Z.of_nat (1 + i)))
    by (unfold u32; rewrite Zplus_mod_idemp_l; f_equal; lia).
  f_equal. symmetry. apply pipe_pop_outside. unfold PI_data, PI_nread.
  pose proof (Z.mod_pos_bound (u32 (pipe_nread m pi + Z.of_nat (1 + i))) PIPESIZE eq_refl). unfold PIPESIZE in *. lia.
Qed.

(** ** Around [wakeup] and [sleep] *)

(** [wakeup] by a running process: it goes on running, and only the states of
    other processes and the queues change. *)
Lemma wakeup_running ch p s pr :
  running p s -> (forall i, Lk_queue i ∉ k_held s) -> (forall i, Lk_proc i ∉ k_held s) -> k_proc s !! p = Some pr ->
  exists s' pr', wakeup ch s = Ret tt s' /\ running p s' /\ s' = set_k_queue (k_queue s') (set_k_proc (k_proc s') s) /\
    k_proc s' !! p = Some pr' /\ set_p_next None pr' = set_p_next None pr.
Proof.
  intros (HI & Hc & pr0 & Hpr & Hst) Hlq Hlp Hp. assert (pr0 = pr) as -> by congruence.
  destruct (wakeup_run ch s HI Hlq Hlp) as (s' & E & HI' & Es & Hpp).
  destruct (Hpp p pr Hp) as (pr' & Hp' & Epr).
  assert (Hw : set_p_next None pr' = set_p_next None pr).
  { rewrite Epr. unfold wakes. by rewrite decide_False by tauto. }
  exists s', pr'. split; [done|]. split; [|done]. split; [done|]. split; [by rewrite Es|].
  exists pr'. split; [done|]. by rewrite (proj1 (but_next_fields _ _ Hw)).
Qed.

Lemma running_ext p s s' :
  k_proc s' = k_proc s -> k_queue s' = k_queue s -> k_cur s' = k_cur s -> running p s -> running p s'.
Proof.
  intros Ep Eq Ec (Hok & Hc & Hpr). split; [by apply (sched_ok_ext s)|by rewrite Ec, Ep].
Qed.

(** The page table of process [p]. *)
Definition table_of (p : nat) (root : Z) (s : kstate) : Prop := p_pagetable <$> k_proc s !! p = Some root.

Lemma table_of_inv p root s : table_of p root s -> exists pr, k_proc s !! p = Some pr /\ p_pagetable pr = root.
Proof. unfold table_of. destruct (k_proc s !! p) as [pr|]; [|done]. intros [=]. by exists pr. Qed.

Section PipeUser.
Context {LAY : Layout} (p : nat) (root pi : Z).

(** The pipe's page is neither a page table of the process nor free. *)
Definition pipe_apart (s : kstate) (fl : list Z) : Prop :=
  vm_inv s root fl /\ aligned pi /\ (pi ∉ tables (k_mem s) 2 root) /\ (pi ∉ fl).

(** Writes to the pipe are not seen by the page table. *)
Lemma pipe_apart_write s fl m :
  pipe_apart s fl -> (forall a, a < pi \/ pi + PGSIZE <= a -> m a = k_mem s a) ->
  pipe_apart (set_k_mem m s) fl /\ forall vpn, aspace m root vpn = aspace (k_mem s) root vpn.
Proof.
  intros (Hi & Hal & Ht & Hf) Hm. destruct (vm_frame_page s root fl pi m Hi Hal Ht Hf Hm) as (Hi' & HT & HA).
  split; [|done]. split; [done|]. split; [done|]. unfold pipe_apart. kred. by rewrite HT.
Qed.

Lemma pipe_apart_ext s s' fl : k_mem s' = k_mem s -> k_freelist s' = k_freelist s -> pipe_apart s fl -> pipe_apart s' fl.
Proof. unfold pipe_apart, vm_inv, tree_ok, free_pages. intros -> ->. done. Qed.
(** ** [pipewrite] *)

Section Write.
Context (addr n : Z) (data q0 : list Z).

(** The number of bytes the readers take while the writer waits, for each time
    it waits: [takes m'] when [m'] switches are left. What they have taken by
    the time [m'] of [m] switches are left. *)
Context (takes : nat -> nat).
Definition taken (m m' : nat) : nat := sum_list (map takes (seq m' (m - m'))).

Lemma taken_none m : taken m m = 0%nat.
Proof. unfold taken. by rewrite Nat.sub_diag. Qed.

Lemma taken_step m m' : (S m' <= m)%nat -> taken m m' = (taken m (S m') + takes m')%nat.
Proof. intros H. unfold taken. replace (m - m')%nat with (S (m - S m')) by lia. cbn. lia. Qed.

(** The writer's buffer: of the [n] bytes at user address [addr] the first
    [length data] are accessible and hold [data]. *)
Definition source (s : kstate) : Prop :=
  let A := aspace (k_mem s) root in
  (exists fl, pipe_apart s fl) /\ accessible A addr (length data) /\
  (Z.of_nat (length data) < n -> user_pa A (addr + Z.of_nat (length data)) = 0) /\
  uread (k_mem s) root addr (length data) = data /\
  (forall i, 0 <= i < Z.of_nat (length data) -> user_pa A (addr + i) <> pi).

Lemma source_ext s s' : k_mem s' = k_mem s -> k_freelist s' = k_freelist s -> source s -> source s'.
Proof.
  intros Em Ef ((fl & Hp) & H). split; [exists fl; by apply (pipe_apart_ext s)|]. by rewrite Em.
Qed.

Lemma source_write s m :
  source s -> (forall a, a < pi \/ pi + PGSIZE <= a -> m a = k_mem s a) -> source (set_k_mem m s).
Proof.
  intros ((fl & Hp) & Hacc & Hend & Hrd & Hne) Hm. destruct (pipe_apart_write s fl m Hp Hm) as [Hp' HA].
  assert (Hup : forall v, user_pa (aspace m root) v = user_pa (aspace (k_mem s) root) v) by (intros v; unfold user_pa; by rewrite HA).
  split; [by exists fl|]. kred. split; [intros i Hi; rewrite Hup; by apply Hacc|]. split; [by rewrite Hup|]. split.
  - rewrite <- Hrd at 2. unfold uread. apply map_ext_in. intros i Hi%in_seq. f_equal. unfold phys. rewrite Hup. apply Hm.
    pose proof (Z.mod_pos_bound (addr + Z.of_nat i) PGSIZE eq_refl). destruct Hp as (_ & Hal & _).
    destruct (aligned_disjoint (user_pa (aspace (k_mem s) root) (addr + Z.of_nat i)) pi) as [?|?];
      [apply user_pa_aligned|done|apply Hne; lia|lia|lia].
  - intros i Hi. rewrite Hup. by apply Hne.
Qed.

(** The byte [copyin] gets for index [i]. *)
Lemma source_copyin s i :
  source s -> 0 <= addr -> 0 <= i -> i < n -> i <= Z.of_nat (length data) -> addr + n + PGSIZE <= 2 ^ 64 ->
  exists l, copyin root (u64 (addr + i)) 1 s = Ret (if i <? Z.of_nat (length data) then 0 else -1, l) s /\
    (i < Z.of_nat (length data) -> l = [nth (Z.to_nat i) data 0] /\ u8 (nth (Z.to_nat i) data 0) = nth (Z.to_nat i) data 0).
Proof.
  intros ((fl & Hi & _) & Hacc & Hend & Hrd & _) Ha Hi0 Hin Hid Hmax. rewrite u64_small by (unfold PGSIZE in *; lia).
  destruct (copyin_spec s root fl (addr + i) 1 Hi) as (r & l & E & Hr); [lia|cbn; lia|].
  change (Z.of_nat 1) with 1 in E. exists l. destruct (Z.ltb_spec i (Z.of_nat (length data))) as [Hlt|Hge].
  - destruct Hr as [(-> & _ & ->)|(-> & Hn)].
    2:{ exfalso. apply Hn. intros j Hj. assert (j = 0) as -> by lia. rewrite Z.add_0_r. by apply Hacc. }
    split; [exact E|]. intros _. cbn [uread map seq]. rewrite Z.add_0_r.
    assert (Hd : nth (Z.to_nat i) data 0 = u8 (k_mem s (phys (aspace (k_mem s) root) (addr + i)))).
    { rewrite <- Hrd at 1. unfold uread. rewrite nth_lookup, list_lookup_fmap, lookup_seq_lt by lia. cbn. do 4 f_equal. lia. }
    rewrite Hd. split; [done|]. apply u8_small, u8_range.
  - split; [|lia]. assert (i = Z.of_nat (length data)) as -> by lia. destruct Hr as [(_ & Hac & _)|(-> & _)]; [|exact E].
    exfalso. apply (Hac 0 ltac:(lia)). rewrite Z.add_0_r. by apply Hend.
Qed.

(** What readers and the rest of the system may do while the writer waits:
    take bytes from the front of the queue. *)
Definition readers_only (m' : nat) (s s' : kstate) : Prop :=
  resumed p s s' /\ table_of p root s' /\ source s' /\ pipe_ok (k_mem s') pi /\
  (takes m' <= length (pipe_queue (k_mem s) pi))%nat /\
  pipe_queue (k_mem s') pi = drop (takes m') (pipe_queue (k_mem s) pi).

(** The queue holds the old bytes and the first [i] of [data], less what the
    readers have taken. *)
Definition holds (m m' i : nat) (s : kstate) : Prop :=
  (taken m m' <= length (q0 ++ take i data))%nat /\
  pipe_queue (k_mem s) pi = drop (taken m m') (q0 ++ take i data).

(** [i] bytes have been written, [m'] of [m] switches are left. *)
Definition wrote (m m' : nat) (i : Z) (s : kstate) : Prop :=
  running p s /\ table_of p root s /\ source s /\ pipe_ok (k_mem s) pi /\ 0 <= i <= Z.of_nat (length data) /\ i <= n /\
  (m' <= m)%nat /\ holds m m' (Z.to_nat i) s.

Lemma wrote_ext m m' i s s' :
  k_mem s' = k_mem s -> k_freelist s' = k_freelist s -> running p s' -> table_of p root s' -> wrote m m' i s -> wrote m m' i s'.
Proof.
  intros Em Ef Hr Ht (_ & _ & Hs & Hok & Hi & Hq). unfold wrote, holds in *. rewrite Em. split_and!; try tauto. by apply (source_ext s).
Qed.

(** One more byte in the pipe. *)
Lemma wrote_push m m' i s :
  let c := nth (Z.to_nat i) data 0 in
  wrote m m' i s -> i < Z.of_nat (length data) -> i < n -> pipe_count (k_mem s) pi < PIPESIZE -> u8 c = c ->
  wrote m m' (i + 1) (set_k_mem (pipe_push (k_mem s) pi c) s).
Proof.
  intros c (Hr & Ht & Hs & Hok & Hi & Hn & Hm & Hk & Hq) Hlt Hin Hc Hu8. destruct (pipe_push_queue (k_mem s) pi c Hc) as [Hq' Hok'].
  split; [by apply (running_ext p s)|]. split; [done|]. split.
  { apply source_write; [done|]. intros a Ha. apply pipe_push_outside. unfold PI_data, PI_nwrite, PGSIZE in *. lia. }
  split; [done|]. split; [lia|]. split; [lia|]. split; [done|]. unfold holds. kred. rewrite Hq', Hq, Hu8.
  replace (Z.to_nat (i + 1)) with (S (Z.to_nat i)) by lia.
  rewrite (take_S_r data (Z.to_nat i) c), app_assoc.
  2:{ unfold c. rewrite nth_lookup. destruct (lookup_lt_is_Some_2 data (Z.to_nat i) ltac:(lia)) as [x ->]. done. }
  split; [rewrite length_app; lia|]. by rewrite (drop_app_le (q0 ++ take (Z.to_nat i) data)) by done.
Qed.

(** Waiting for room. *)
Lemma wrote_wait m m' i s (Q : nat -> Z + option Z -> kstate -> Prop) :
  wrote m m' i s -> k_held s = [Lk_pipe pi] ->
  (forall m2 s', (m2 < m')%nat -> wrote m m2 i s' -> k_held s' = [Lk_pipe pi] -> Q m2 (inl i) s') ->
  okay m' readers_only Q ((wakeup (Ch_pipe_read pi) ;;; sleep (Ch_pipe_write pi) (Lk_pipe pi) ;;; ret (inl i)) s).
Proof.
  intros Hw Hh HQ. pose proof Hw as (Hr & Ht & _). destruct (table_of_inv _ _ _ Ht) as (pr & Hp & Hroot).
  destruct (wakeup_running (Ch_pipe_read pi) p s pr Hr) as (s1 & pr1 & E1 & Hr1 & Es1 & Hp1 & Epr1);
    [intros j; rewrite Hh; by apply not_elem_of_cons; split; [|apply not_elem_of_nil]..|done|].
  rewrite (bind_Ret _ _ _ _ _ E1). pose proof Hr1 as (HI & Hc & pr1' & Hp1' & Hst). assert (pr1' = pr1) as -> by congruence.
  apply okay_bind. apply (okay_sleep _ _ _ _ _ s1 p pr1); try done; [by rewrite Es1|].
  intros m2 s' -> ((Hr' & Hh' & _) & Ht' & Hs' & Hok' & Hk' & Hq'). split; [done|]. cbn.
  apply HQ; [lia| |done]. destruct Hw as (_ & _ & _ & _ & Hi & Hn & Hm & Hk & Hq).
  assert (Em : pipe_queue (k_mem (asleep (Ch_pipe_write pi) p pr1 s1)) pi = drop (taken m (S m2)) (q0 ++ take (Z.to_nat i) data)).
  { rewrite <- Hq. unfold asleep. kred. by rewrite Es1. }
  rewrite Em in Hk', Hq'. split; [by apply running_awake|]. split.
  { unfold table_of, awake. kred. rewrite list_lookup_alter_eq. destruct (table_of_inv _ _ _ Ht') as (pr2 & -> & <-). done. }
  split; [by apply (source_ext s')|]. split; [done|]. split; [done|]. split; [done|]. split; [lia|].
  unfold holds. rewrite taken_step by done. rewrite length_drop in Hk'. split; [lia|].
  change (k_mem (awake (Lk_pipe pi) p s')) with (k_mem s'). by rewrite Hq', drop_drop.
Qed.

(** The pipe is closed for reading or the writer has been killed. *)
Definition write_stopped (s : kstate) : Prop :=
  ld32 (k_mem s) (pi + PI_readopen) = 0 \/ exists pr, k_proc s !! p = Some pr /\ p_killed pr <> 0.

(** What [pipewrite] makes of the pipe when it returns [r] with [m'] of [m]
    switches left. *)
Definition written (m m' : nat) (r : Z) (s : kstate) : Prop :=
  k_held s = [] /\ running p s /\ pipe_ok (k_mem s) pi /\
  ((r = Z.of_nat (length data) /\ holds m m' (length data) s) \/
   (r = -1 /\ write_stopped s /\ exists i, (i <= length data)%nat /\ holds m m' i s)).

Lemma wrote_written m m' i r s :
  wrote m m' i s -> (r = Z.of_nat (length data) /\ i = r) \/ (r = -1 /\ write_stopped s) -> written m m' r (set_k_held [] s).
Proof.
  intros (Hr & _ & _ & Hok & Hi & _ & _ & Hq) Hres. split; [done|]. split; [by apply (running_ext p s)|]. split; [done|].
  destruct Hres as [[-> ->]|[-> Hst]]; [left; by rewrite Nat2Z.id in Hq|right].
  split; [done|]. split; [exact Hst|]. exists (Z.to_nat i). split; [lia|done].
Qed.

Lemma pipewrite_loop_okay m s :
  wrote m m 0 s -> k_held s = [Lk_pipe pi] -> 0 <= addr -> addr + n + PGSIZE <= 2 ^ 64 -> Z.of_nat (length data) <= n ->
  Z.of_nat m + n < 2 ^ 64 - 1 ->
  okay m readers_only (fun m' (r : option Z) s' => match r with
    | None => written m m' (-1) s'
    | Some j => wrote m m' j s' /\ j = Z.of_nat (length data) /\ k_held s' = [Lk_pipe pi] end)
    (pipewrite_loop p pi addr n s).
Proof.
  intros Hw Hh Ha Hmax Hlen Hm. set (m0 := m) in Hw |- * at 2 3.
  apply (okay_loop _ _ (fun m' i s => wrote m0 m' i s /\ k_held s = [Lk_pipe pi]) (fun i _ => Z.to_nat (n - i))); [|done|].
  2:{ destruct Hw as (_ & _ & _ & _ & Hi & Hn & _). lia. }
  clearbody m0. clear m s Hw Hh Hm. intros m i s (Hw & Hh).
  pose proof Hw as (Hr & Ht & Hs & Hok & Hi & Hn & _). destruct (Z.ltb_spec i n) as [Hin|Hin].
  2:{ apply (okay_Ret _ _ _ _ (inr (Some i)) s); [done|]. split; [done|]. split; [lia|done]. }
  destruct (table_of_inv _ _ _ Ht) as (pr & Hp & Hroot). assert (Hg : get_proc p s = Ret pr s) by (unfold get_proc; by rewrite Hp).
  unfold load32. krun. destruct ((ld32 (k_mem s) (pi + PI_readopen) =? 0) || negb (p_killed pr =? 0)) eqn:Est.
  { erewrite bind_Ret by (by apply release_head). cbn. apply (wrote_written m0 m i); [done|right]. split; [done|].
    apply orb_true_iff in Est as [Est|Est]; [left; by apply Z.eqb_eq|right]. exists pr. split; [done|].
    by apply negb_true_iff, Z.eqb_neq in Est. }
  krun. fold (pipe_nwrite (k_mem s) pi). fold (pipe_nread (k_mem s) pi). rewrite pipe_full by done.
  destruct (Z.eqb_spec (pipe_count (k_mem s) pi) PIPESIZE) as [Hfull|Hroom].
  { apply (wrote_wait m0); [done|done|]. intros m' s' Hlt Hw' Hh'. split; [done|lia]. }
  rewrite Hroot. destruct (source_copyin s i Hs Ha ltac:(lia) Hin ltac:(lia) Hmax) as (l & E & Hl).
  rewrite (bind_Ret _ _ _ _ _ E). destruct (Z.ltb_spec i (Z.of_nat (length data))) as [Hlt|Hge].
  - destruct (Hl Hlt) as [-> Hu8]. change (0 =? -1) with false. cbv iota. unfold store32, store8. krun. cbn [nth].
    fold (pipe_push (k_mem s) pi (nth (Z.to_nat i) data 0)).
    apply (okay_Ret _ _ _ _ (inl (i + 1)) (set_k_mem (pipe_push (k_mem s) pi (nth (Z.to_nat i) data 0)) s)); [done|].
    split; [|lia]. split; [|done]. apply wrote_push; try done. unfold pipe_ok in Hok. lia.
  - apply (okay_Ret _ _ _ _ (inr (Some i)) s); [done|]. split; [done|]. split; [lia|done].
Qed.

(** C13: [pipewrite] is a blocking write to a bounded queue. Called with a
    buffer whose accessible bytes are [data], it never panics; however often
    it has to wait for room, while others only take bytes from the front of
    the queue ([takes] of them each time), it returns with the queue the old
    bytes followed by [data], in order, less exactly the bytes the others have
    taken: none lost and none twice; and returns their number. Or it returns -1
    with a prefix of [data] written in that way, when the read end has been
    closed or the writer killed. The queue never holds more than [PIPESIZE]
    bytes and it returns without locks. This is so under either scheduling
    policy. *)
Theorem pipewrite_correct m s :
  running p s -> k_held s = [] -> table_of p root s -> source s -> pipe_ok (k_mem s) pi -> q0 = pipe_queue (k_mem s) pi ->
  0 <= addr -> addr + n + PGSIZE <= 2 ^ 64 -> Z.of_nat (length data) <= n -> Z.of_nat m + n < 2 ^ 64 - 1 ->
  okay m readers_only (fun m' r s' => written m m' r s') (pipewrite pi addr n s).
Proof.
  intros Hr Hh Ht Hs Hok Hq Ha Hmax Hlen Hm. unfold pipewrite.
  assert (Hcp : curproc s = Ret p s) by (unfold curproc; by rewrite (proj1 (proj2 Hr))).
  assert (Hl : Lk_pipe pi ∉ k_held s) by (rewrite Hh; apply not_elem_of_nil).
  rewrite (bind_Ret _ _ _ _ _ Hcp), (bind_Ret _ _ _ _ _ (acquire_free _ _ Hl)), Hh. apply okay_bind.
  eapply okay_weaken; [| |apply (pipewrite_loop_okay m)]; try done.
  - intros m' [j|] s'; [|by intros H].
    intros (Hw & -> & Hh'). pose proof Hw as (Hr' & Ht' & _). destruct (table_of_inv _ _ _ Ht') as (pr & Hp & Hroot).
    destruct (wakeup_running (Ch_pipe_read pi) p s' pr Hr') as (s1 & pr1 & E1 & Hr1 & Es1 & Hp1 & Epr1);
      [intros i; rewrite Hh'; by apply not_elem_of_cons; split; [|apply not_elem_of_nil]..|done|].
    rewrite (bind_Ret _ _ _ _ _ E1). erewrite bind_Ret; [|apply (release_head _ []); by rewrite Es1]. cbn.
    apply (wrote_written m m' (Z.of_nat (length data))); [|by left]. apply (wrote_ext _ _ _ s'); try done; [by rewrite Es1..|].
    unfold table_of. rewrite Hp1. cbn. f_equal. change (p_pagetable (set_p_next None pr1) = root). by rewrite Epr1.
  - split; [by apply (running_ext p s)|]. split; [done|]. split; [by apply (source_ext s)|]. split; [done|]. split; [lia|]. split; [lia|].
    split; [done|]. unfold holds. rewrite taken_none. split; [lia|]. kred. cbn [Z.to_nat]. by rewrite take_0, app_nil_r, drop_0.
Qed.
End Write.

(** ** [piperead] *)

Section Read.
Context (addr n : Z).

(** The bytes the writers add while the reader waits, for each time it waits:
    [adds m'] when [m'] switches are left. What they have added by the time
    [m'] of [m] switches are left, oldest first. *)
Context (adds : nat -> list Z).
Definition added (m m' : nat) : list Z := concat (map adds (rev (seq m' (m - m')))).

Lemma added_none m : added m m = [].
Proof. unfold added. by rewrite Nat.sub_diag. Qed.

Lemma added_step m m' : (S m' <= m)%nat -> added m m' = added m (S m') ++ adds m'.
Proof.
  intros H. unfold added. replace (m - m')%nat with (S (m - S m')) by lia. cbn [seq rev].
  rewrite map_app, concat_app. cbn [map concat]. by rewrite app_nil_r.
Qed.

(** The reader's address space: no two user pages share a frame, and the pipe
    is not mapped. *)
Definition target (s : kstate) : Prop :=
  let A := aspace (k_mem s) root in
  (exists fl, pipe_apart s fl /\ user_ok s root fl) /\ forall va, 0 <= va -> user_pa A va <> 0 -> user_pa A va <> pi.

Lemma target_ext s s' : k_mem s' = k_mem s -> k_freelist s' = k_freelist s -> target s -> target s'.
Proof.
  intros Em Ef ((fl & Hp & Hu) & H). split; [exists fl|by rewrite Em]. split; [by apply (pipe_apart_ext s)|].
  unfold user_ok. by rewrite Em.
Qed.

(** [user_ok] looks at the page table only. *)
Lemma user_ok_aspace s s' fl :
  tables (k_mem s') 2 root = tables (k_mem s) 2 root -> (forall vpn, aspace (k_mem s') root vpn = aspace (k_mem s) root vpn) ->
  user_ok s root fl -> user_ok s' root fl.
Proof.
  intros HT HA [H1 H2]. split.
  - intros vpn Hv. rewrite HA, HT. by apply H1.
  - intros vpn vpn' Hv Hv'. rewrite !HA. by apply H2.
Qed.

Lemma target_write s m :
  target s -> (forall a, a < pi \/ pi + PGSIZE <= a -> m a = k_mem s a) ->
  target (set_k_mem m s) /\ forall vpn, aspace m root vpn = aspace (k_mem s) root vpn.
Proof.
  intros ((fl & Hp & Hu) & Hne) Hm. pose proof Hp as (Hi & Hal & Ht & Hf).
  destruct (pipe_apart_write s fl m Hp Hm) as [Hp' HA]. destruct (vm_frame_page s root fl pi m Hi Hal Ht Hf Hm) as (_ & HT & _).
  split; [|done]. split.
  - exists fl. split; [done|]. by apply (user_ok_aspace s).
  - intros va Hva. kred. unfold user_pa. rewrite HA. by apply Hne.
Qed.

(** One byte into the reader's memory. *)
Lemma target_copyout s va c :
  target s -> 0 <= va -> va + 1 + PGSIZE <= 2 ^ 64 ->
  let A := aspace (k_mem s) root in
  exists s', copyout root va [c] s = Ret (if user_pa A va =? 0 then -1 else 0) s' /\ target s' /\
    s' = set_k_mem (k_mem s') s /\ (forall vpn, aspace (k_mem s') root vpn = A vpn) /\
    (user_pa A va <> 0 -> k_mem s' (phys A va) = c) /\
    (forall a, user_pa A va = 0 \/ a <> phys A va -> k_mem s' a = k_mem s a).
Proof.
  intros ((fl & Hp & Hu) & Hne) Hva Hmax A. pose proof Hp as (Hi & Hal & Ht & Hf).
  destruct (copyout_spec s root fl va [c] Hi Hu Hva) as (r & s' & k & E & (Es & Hi' & HT & HA & Hin & Hout) & Hr); [done|].
  fold A in HA, Hin, Hout, Hr. exists s'.
  assert (Htg : target s').
  { split; [exists fl; split; [|by apply (user_ok_aspace s)]|].
    - split; [done|]. split; [done|]. by rewrite HT.
    - intros v Hv. unfold user_pa. rewrite HA. by apply Hne. }
  assert (Hacc : accessible A va 1 <-> user_pa A va <> 0).
  { split; [intros H; rewrite <- (Z.add_0_r va); apply H; lia|]. intros H i Hx. assert (i = 0) as -> by lia. by rewrite Z.add_0_r. }
  change (length [c]) with 1%nat in Hr. destruct (Z.eqb_spec (user_pa A va) 0) as [Hz|Hz].
  - destruct Hr as [(_ & _ & Hx)|(-> & Hk & _)]; [by apply Hacc in Hx|]. assert (k = 0%nat) as -> by (cbn in Hk; lia).
    split; [exact E|]. split; [done|]. split; [done|]. split; [done|]. split; [done|]. intros a _. apply Hout. intros j Hj. lia.
  - destruct Hr as [(-> & -> & _)|(_ & _ & Hx)]; [|by destruct Hx; apply Hacc].
    split; [exact E|]. split; [done|]. split; [done|]. split; [done|]. split.
    + intros _. rewrite <- (Z.add_0_r va), Hin by (cbn; lia). done.
    + intros a [?|Ha]; [done|]. apply Hout. intros j Hj. assert (j = 0) as -> by (cbn in Hj; lia). by rewrite Z.add_0_r.
Qed.

Lemma uread_same m m' va k :
  (forall vpn, aspace m' root vpn = aspace m root vpn) ->
  (forall j, 0 <= j < Z.of_nat k -> m' (phys (aspace m root) (va + j)) = m (phys (aspace m root) (va + j))) ->
  uread m' root va k = uread m root va k.
Proof.
  intros HA Hm. unfold uread. apply map_ext_in. intros i Hi%in_seq. rewrite <- Hm by lia.
  unfold phys, user_pa. by rewrite HA.
Qed.

(** A user address is not in the pipe. *)
Lemma target_phys s va a :
  target s -> 0 <= va -> user_pa (aspace (k_mem s) root) va <> 0 -> pi <= a < pi + PGSIZE -> a <> phys (aspace (k_mem s) root) va.
Proof.
  intros ((fl & (_ & Hal & _) & _) & Hne) Hva Hz Ha. unfold phys. pose proof (Z.mod_pos_bound va PGSIZE eq_refl).
  destruct (aligned_disjoint (user_pa (aspace (k_mem s) root) va) pi) as [?|?]; [apply user_pa_aligned|done|by apply Hne|lia|lia].
Qed.

(** [pi->writeopen]. *)
Definition writeopen (s : kstate) : Z := ld32 (k_mem s) (pi + PI_writeopen).

(** [i] bytes of the queue [all] have been moved to the reader. *)
Definition reading (s0 : kstate) (all : list Z) (i : Z) (s : kstate) : Prop :=
  s = set_k_mem (k_mem s) s0 /\ target s /\ pipe_ok (k_mem s) pi /\ writeopen s = writeopen s0 /\
  (forall vpn, aspace (k_mem s) root vpn = aspace (k_mem s0) root vpn) /\
  0 <= i <= n /\ i <= Z.of_nat (length all) /\ pipe_queue (k_mem s) pi = drop (Z.to_nat i) all /\
  uread (k_mem s) root addr (Z.to_nat i) = take (Z.to_nat i) all /\ accessible (aspace (k_mem s0) root) addr (Z.to_nat i).

(** The front byte taken from the queue and copied out. *)
Lemma reading_pop s0 all i s :
  0 <= addr -> addr + n + PGSIZE <= 2 ^ 64 -> reading s0 all i s -> i < n -> pipe_count (k_mem s) pi <> 0 ->
  let A := aspace (k_mem s0) root in
  let m1 := pipe_pop (k_mem s) pi in
  exists s' c, copyout root (u64 (addr + i)) [u8 (m1 (pi + PI_data + pipe_nread (k_mem s) pi mod PIPESIZE))] (set_k_mem m1 s) =
      Ret (if user_pa A (addr + i) =? 0 then -1 else 0) s' /\ all !! Z.to_nat i = Some c /\ u8 c = c /\
    target s' /\ s' = set_k_mem (k_mem s') s0 /\ (forall vpn, aspace (k_mem s') root vpn = A vpn) /\
    pipe_queue (k_mem s') pi = drop (S (Z.to_nat i)) all /\ pipe_ok (k_mem s') pi /\
    (user_pa A (addr + i) <> 0 -> k_mem s' (phys A (addr + i)) = c) /\
    (forall a, a < pi + PI_data \/ pi + PI_readopen <= a -> user_pa A (addr + i) = 0 \/ a <> phys A (addr + i) -> k_mem s' a = k_mem s a) /\
    writeopen s' = writeopen s.
Proof.
  intros Ha Hmax (Es & Htg & Hok & _ & HA0 & Hi & Hlen & Hq & Hrd & Hacc) Hin Hc A m1.
  pose proof (pipe_count_range (k_mem s) pi) as Hc0. destruct (pipe_pop_queue (k_mem s) pi ltac:(lia) Hok) as [Hpop Hok1].
  assert (Hm1 : forall a, a < pi \/ pi + PGSIZE <= a -> m1 a = k_mem s a).
  { intros a Hx. apply pipe_pop_outside. unfold PI_nread, PGSIZE in *. lia. }
  destruct (target_write s m1 Htg Hm1) as [Htg1 HA1]. pose proof (ld32_range (k_mem s) (pi + PI_nread)) as Hnr.
  fold (pipe_nread (k_mem s) pi) in Hnr.
  assert (Ec : u8 (m1 (pi + PI_data + pipe_nread (k_mem s) pi mod PIPESIZE)) = pipe_byte (k_mem s) pi (pipe_nread (k_mem s) pi)).
  { unfold pipe_byte, m1. rewrite (u32_small (pipe_nread (k_mem s) pi)) by lia. f_equal. apply pipe_pop_outside. unfold PI_data, PI_nread.
    pose proof (Z.mod_pos_bound (pipe_nread (k_mem s) pi) PIPESIZE eq_refl). unfold PIPESIZE in *. lia. }
  rewrite Ec. set (c := pipe_byte _ _ _) in *. rewrite u64_small by (unfold PGSIZE in *; lia).
  assert (HA : forall va, user_pa (aspace m1 root) va = user_pa A va) by (intros va; unfold user_pa; rewrite HA1; by rewrite HA0).
  assert (HP : forall va, phys (aspace m1 root) va = phys A va) by (intros va; unfold phys; by rewrite HA).
  destruct (target_copyout (set_k_mem m1 s) (addr + i) c Htg1) as (s' & E & Htg' & Es' & HA' & Hc' & Hout); [lia|unfold PGSIZE in *; lia|].
  change (k_mem (set_k_mem m1 s)) with m1 in *. rewrite HA in E, Hc', Hout. rewrite HP in Hc', Hout.
  exists s', c. split; [exact E|]. rewrite Hq in Hpop.
  assert (Hci : all !! Z.to_nat i = Some c).
  { apply (f_equal head) in Hpop. rewrite <- (Nat.add_0_r (Z.to_nat i)), <- lookup_drop. by destruct (drop (Z.to_nat i) all). }
  split; [done|]. split; [apply u8_small, u8_range|]. split; [done|]. split; [rewrite Es', Es; by destruct s0|].
  split; [intros vpn; by rewrite HA', HA1, HA0|]. rewrite (drop_S all c (Z.to_nat i) Hci) in Hpop. injection Hpop as Hpop.
  fold m1 in Hpop, Hok1.
  assert (Htr : forall a, pi <= a < pi + PGSIZE -> user_pa A (addr + i) = 0 \/ a <> phys A (addr + i)).
  { intros a Hx. destruct (decide (user_pa A (addr + i) = 0)) as [?|Hz]; [by left|right]. rewrite <- HP.
    apply (target_phys (set_k_mem m1 s)); [done|lia|kred; by rewrite HA|done]. }
  destruct (pipe_ext m1 (k_mem s') pi) as (_ & _ & Ecnt & Eq).
  - intros a Hx. apply Hout, Htr. unfold PI_data, PI_readopen, PGSIZE in *. lia.
  - unfold pipe_ok. rewrite Ecnt, Eq. split; [done|]. split; [done|]. split; [done|].
    assert (Hm1' : forall a, a < pi + PI_data \/ pi + PI_readopen <= a -> m1 a = k_mem s a).
    { intros a Hx. apply pipe_pop_outside. unfold PI_nread, PI_data, PI_readopen in *. lia. }
    split; [intros a Hx Hy; by rewrite Hout, Hm1'|]. apply ld_ext. intros a Hx.
    unfold PI_writeopen in Hx. rewrite Hout, Hm1' by (unfold PI_readopen; lia) || (apply Htr; unfold PGSIZE; lia). done.
Qed.

Lemma reading_step s0 all i s :
  0 <= addr -> addr + n + PGSIZE <= 2 ^ 64 -> reading s0 all i s -> i < n -> pipe_count (k_mem s) pi <> 0 ->
  let A := aspace (k_mem s0) root in
  let m1 := pipe_pop (k_mem s) pi in
  exists s', copyout root (u64 (addr + i)) [u8 (m1 (pi + PI_data + pipe_nread (k_mem s) pi mod PIPESIZE))] (set_k_mem m1 s) =
      Ret (if user_pa A (addr + i) =? 0 then -1 else 0) s' /\ i < Z.of_nat (length all) /\
    if user_pa A (addr + i) =? 0
    then s' = set_k_mem (k_mem s') s0 /\ pipe_queue (k_mem s') pi = drop (S (Z.to_nat i)) all /\ pipe_ok (k_mem s') pi /\ writeopen s' = writeopen s0 /\
         (forall vpn, aspace (k_mem s') root vpn = A vpn) /\ uread (k_mem s') root addr (Z.to_nat i) = take (Z.to_nat i) all
    else reading s0 all (i + 1) s'.
Proof.
  intros Ha Hmax Hread Hin Hc A m1. destruct (reading_pop s0 all i s Ha Hmax Hread Hin Hc) as
    (s' & c & E & Hci & Hu8 & Htg' & Es' & HA' & Hq' & Hok' & Hmem & Hout & Hwo).
  destruct Hread as (_ & Htg & _ & Hwo0 & HA0 & Hi & _ & _ & Hrd & Hacc). fold A in E, HA', Hmem, Hout, HA0, Hacc. fold m1 in E.
  pose proof (lookup_lt_Some _ _ _ Hci) as Hlt. exists s'. split; [exact E|]. split; [lia|].
  assert (HP : forall va, phys (aspace (k_mem s) root) va = phys A va) by (intros va; unfold phys, user_pa; by rewrite HA0).
  assert (HU : forall va, user_pa (aspace (k_mem s) root) va = user_pa A va) by (intros va; unfold user_pa; by rewrite HA0).
  assert (Hrd' : uread (k_mem s') root addr (Z.to_nat i) = take (Z.to_nat i) all).
  { rewrite <- Hrd. apply uread_same; [intros vpn; by rewrite HA', HA0|]. intros j Hj. rewrite HP.
    assert (Hz : user_pa A (addr + j) <> 0) by (apply Hacc; lia). apply Hout.
    - rewrite <- HP. destruct (decide (pi <= phys (aspace (k_mem s) root) (addr + j) < pi + PGSIZE)) as [Hx|];
        [|unfold PI_data, PI_readopen, PGSIZE in *; lia].
      exfalso. apply (target_phys s (addr + j) (phys (aspace (k_mem s) root) (addr + j)) Htg); [lia|by rewrite HU|exact Hx|done].
    - destruct (decide (user_pa A (addr + i) = 0)) as [?|Hz']; [by left|right]. rewrite <- !HP. intros Ex.
      destruct Htg as ((fl & _ & Hu) & _). apply (phys_inj s root fl) in Ex; [lia|done|lia|lia|by rewrite HU|by rewrite HU]. }
  rewrite Hwo0 in Hwo. destruct (Z.eqb_spec (user_pa A (addr + i)) 0) as [Hz|Hz]; [done|]. unfold reading. fold A.
  replace (Z.to_nat (i + 1)) with (Z.to_nat i + 1)%nat by lia. split_and!; try done; try lia.
  - rewrite Hq'. f_equal. lia.
  - rewrite uread_app, Hrd', Nat.add_1_r, (take_S_r _ _ c) by done. f_equal. cbn [uread map seq].
    rewrite Z2Nat.id, Z.add_0_r by lia. replace (phys (aspace (k_mem s') root) (addr + i)) with (phys A (addr + i)).
    + by rewrite Hmem, Hu8.
    + unfold phys, user_pa. by rewrite HA'.
  - apply accessible_app; [done|]. intros j Hj. rewrite Z2Nat.id by lia. assert (j = 0) as -> by lia. by rewrite Z.add_0_r.
Qed.

(** The bytes moved when the copying ends: all that were asked for and there;
    or as many as the reader's memory took, and the next one is lost. *)
Definition copied (s0 : kstate) (all : list Z) (r : Z) (s : kstate) : Prop :=
  let len := Z.of_nat (length all) in
  s = set_k_mem (k_mem s) s0 /\ pipe_ok (k_mem s) pi /\ writeopen s = writeopen s0 /\ 0 <= r /\
  uread (k_mem s) root addr (Z.to_nat r) = take (Z.to_nat r) all /\
  ((r = Z.min n len /\ pipe_queue (k_mem s) pi = drop (Z.to_nat r) all) \/
   (r < Z.min n len /\ user_pa (aspace (k_mem s) root) (addr + r) = 0 /\ pipe_queue (k_mem s) pi = drop (S (Z.to_nat r)) all)).

Lemma piperead_byte_run s0 all i s :
  0 <= addr -> addr + n + PGSIZE <= 2 ^ 64 -> table_of p root s0 -> reading s0 all i s ->
  exists s', (piperead_byte p pi addr n i s = Ret (inr i) s' /\ copied s0 all i s') \/
    (piperead_byte p pi addr n i s = Ret (inl (i + 1)) s' /\ reading s0 all (i + 1) s').
Proof.
  intros Ha Hmax Ht Hrd. pose proof Hrd as (Es & _ & Hok' & Hwo & HA & Hi & Hlen & Hq & Hur & _). unfold piperead_byte.
  assert (Hend : i = n \/ i = Z.of_nat (length all) -> copied s0 all i s) by (intros; split_and!; try done; try lia; left; split; [lia|done]).
  destruct (Z.ltb_spec i n) as [Hin|Hin]; [|exists s; left; split; [done|apply Hend; lia]].
  assert (Hld : forall a, load32 a s = Ret (ld32 (k_mem s) a) s) by done.
  rewrite (bind_Ret _ _ _ _ _ (Hld _)), (bind_Ret _ _ _ _ _ (Hld _)).
  fold (pipe_nread (k_mem s) pi). fold (pipe_nwrite (k_mem s) pi). rewrite pipe_empty.
  destruct (Z.eqb_spec (pipe_count (k_mem s) pi) 0) as [Hz|Hz].
  { exists s. left. split; [done|]. apply Hend. right. rewrite <- length_pipe_queue, Hq, length_drop in Hz. lia. }
  destruct (reading_step s0 all i s Ha Hmax Hrd Hin Hz) as (s' & E & Hlt & Hres). exists s'.
  destruct (table_of_inv _ _ _ Ht) as (pr & Hp & Hroot). set (s1 := set_k_mem (pipe_pop (k_mem s) pi) s) in *.
  assert (Hst : store32 (pi + PI_nread) (pipe_nread (k_mem s) pi + 1) s = Ret tt s1) by done.
  assert (Hl8 : forall a, load8 a s1 = Ret (u8 (k_mem s1 a)) s1) by done.
  assert (Hg : get_proc p s1 = Ret pr s1) by (unfold get_proc, s1; kred; rewrite Es; kred; by rewrite Hp).
  rewrite (bind_Ret _ _ _ _ _ Hst), (bind_Ret _ _ _ _ _ (Hl8 _)), (bind_Ret _ _ _ _ _ Hg), Hroot, (bind_Ret _ _ _ _ _ E).
  destruct (user_pa (aspace (k_mem s0) root) (addr + i) =? 0) eqn:Hua; [left|right]; (split; [done|]); [|done].
  destruct Hres as (Es' & Hq' & Hok2 & Hwo' & HA' & Hur'). split_and!; try done; [lia|]. right. split; [lia|]. split; [|done].
  apply Z.eqb_eq in Hua. rewrite <- Hua. unfold user_pa. by rewrite HA'.
Qed.

Lemma piperead_copy_run s0 :
  0 <= addr -> 0 <= n < 2 ^ 31 -> addr + n + PGSIZE <= 2 ^ 64 -> target s0 -> pipe_ok (k_mem s0) pi -> table_of p root s0 ->
  exists r s', piperead_copy p pi addr n s0 = Ret r s' /\ copied s0 (pipe_queue (k_mem s0) pi) r s'.
Proof.
  intros Ha Hn Hmax Htg Hok Ht. set (all := pipe_queue (k_mem s0) pi).
  apply (loop_measure _ (reading s0 all) (fun i _ => Z.to_nat (n - i)) (fun o => exists r s', o = Ret r s' /\ copied s0 all r s')).
  - intros i s Hrd. destruct (piperead_byte_run s0 all i s Ha Hmax Ht Hrd) as (s' & [[E Hc]|[E Hr]]).
    + right. left. exists i, s'. split; [done|]. by exists i, s'.
    + left. exists (i + 1), s'. split; [done|]. split; [done|]. destruct Hr as (_ & _ & _ & _ & _ & Hi & _). lia.
  - split_and!; try done; try lia. + by destruct s0. + intros i Hx. cbn in Hx. lia.
  - lia.
Qed.

(** What writers and the rest of the system may do while the reader waits. *)
Definition writers_only (m' : nat) (s s' : kstate) : Prop :=
  resumed p s s' /\ table_of p root s' /\ target s' /\ pipe_ok (k_mem s') pi /\
  pipe_queue (k_mem s') pi = pipe_queue (k_mem s) pi ++ adds m'.

Definition waiting (m m' : nat) (q0 : list Z) (s : kstate) : Prop :=
  running p s /\ table_of p root s /\ target s /\ pipe_ok (k_mem s) pi /\ (m' <= m)%nat /\
  pipe_queue (k_mem s) pi = q0 ++ added m m'.

Lemma waiting_ext m m' q0 s s' :
  k_mem s' = k_mem s -> k_freelist s' = k_freelist s -> running p s' -> table_of p root s' ->
  waiting m m' q0 s -> waiting m m' q0 s'.
Proof.
  intros Em Ef Hr Ht (_ & _ & Hs & Hok & Hq). unfold waiting. rewrite Em. split_and!; try tauto. by apply (target_ext s).
Qed.

(** The reader has been killed while the pipe was empty. *)
Definition read_killed (s : kstate) : Prop := exists pr, k_proc s !! p = Some pr /\ p_killed pr <> 0.

Lemma piperead_wait_okay m q0 s :
  waiting m m q0 s -> k_held s = [Lk_pipe pi] -> Z.of_nat m < 2 ^ 64 - 1 ->
  okay m writers_only (fun m' (r : bool) s' =>
      waiting m m' q0 s' /\
      if r then k_held s' = [Lk_pipe pi] /\ (pipe_queue (k_mem s') pi <> [] \/ writeopen s' = 0)
      else k_held s' = [] /\ read_killed s')
    (piperead_wait p pi s).
Proof.
  intros Hw Hh Hm. unfold piperead_wait. set (m0 := m) in Hw |- * at 2.
  apply (okay_loop _ _ (fun m' _ s => waiting m0 m' q0 s /\ k_held s = [Lk_pipe pi]) (fun _ _ => 0%nat)); [|done|lia].
  clearbody m0. clear m s Hw Hh Hm. intros m [] s (Hw & Hh). pose proof Hw as (Hr & Ht & _ & _ & Hm & Hq). unfold load32. krun.
  fold (pipe_nread (k_mem s) pi). fold (pipe_nwrite (k_mem s) pi). rewrite pipe_empty.
  destruct ((pipe_count (k_mem s) pi =? 0) && negb (ld32 (k_mem s) (pi + PI_writeopen) =? 0)) eqn:Eb.
  2:{ apply (okay_Ret _ _ _ _ (inr true) s); [done|]. split; [done|]. split; [done|]. rewrite <- length_pipe_queue in Eb.
      apply andb_false_iff in Eb as [Eb|Eb]; [left|right].
      - apply Z.eqb_neq in Eb. intros E0. by rewrite E0 in Eb.
      - by apply negb_false_iff, Z.eqb_eq in Eb. }
  destruct (table_of_inv _ _ _ Ht) as (pr & Hp & Hroot). assert (Hg : get_proc p s = Ret pr s) by (unfold get_proc; by rewrite Hp).
  krun. destruct (Z.eqb_spec (p_killed pr) 0) as [Hk|Hk]; cbn [negb].
  - apply okay_bind. pose proof Hr as (HI & Hc & pr1 & Hp1 & Hst). assert (pr1 = pr) as -> by congruence.
    apply (okay_sleep _ _ _ _ _ s p pr); try done.
    intros m' s' -> ((Hr' & Hh' & _) & Ht' & Hs' & Hok' & Hq'). split; [done|]. cbn. split; [|lia]. split; [|done].
    split; [by apply running_awake|]. split.
    { unfold table_of, awake. kred. rewrite list_lookup_alter_eq. destruct (table_of_inv _ _ _ Ht') as (pr2 & -> & <-). done. }
    split; [by apply (target_ext s')|]. split; [done|]. split; [lia|]. unfold awake. kred. rewrite Hq'. unfold asleep. kred.
    by rewrite Hq, (added_step m0 m' Hm), app_assoc.
  - erewrite bind_Ret by (by apply release_head). cbn. split; [by apply (waiting_ext m0 m q0 s); [| |by apply (running_ext p s)| |]|].
    split; [done|]. by exists pr.
Qed.

(** What [piperead] makes of the pipe and of the reader's memory when it
    returns [r] with [m'] of [m] switches left. *)
Definition received (m m' : nat) (q0 : list Z) (r : Z) (s : kstate) : Prop :=
  let all := q0 ++ added m m' in
  k_held s = [] /\ running p s /\ pipe_ok (k_mem s) pi /\
    ((r = -1 /\ read_killed s /\ pipe_queue (k_mem s) pi = all) \/
    (0 <= r /\ uread (k_mem s) root addr (Z.to_nat r) = take (Z.to_nat r) all /\
     ((r = Z.min n (Z.of_nat (length all)) /\ pipe_queue (k_mem s) pi = drop (Z.to_nat r) all) \/
      (r < Z.min n (Z.of_nat (length all)) /\ user_pa (aspace (k_mem s) root) (addr + r) = 0 /\
       pipe_queue (k_mem s) pi = drop (S (Z.to_nat r)) all)) /\
     (all <> [] \/ writeopen s = 0))).

(** C14: [piperead] is a blocking read from the queue. It waits, however often
    it is woken, while the queue is empty and the write end open, others only
    adding bytes at the end ([adds] each time); then it returns the number of bytes it has moved
    from the front of the queue to the reader's buffer, in order: as many as
    asked for and present; 0 from an empty queue only when the write end is
    closed. When the buffer is not accessible it stops there, and the byte it
    could not deliver is gone from the queue. It returns -1 when the reader has
    been killed, the queue untouched. It never panics and returns without
    locks. This is so under either scheduling policy. *)
Theorem piperead_correct m s q0 :
  running p s -> k_held s = [] -> table_of p root s -> target s -> pipe_ok (k_mem s) pi -> q0 = pipe_queue (k_mem s) pi ->
  0 <= addr -> 0 <= n < 2 ^ 31 -> addr + n + PGSIZE <= 2 ^ 64 -> Z.of_nat m < 2 ^ 64 - 1 ->
  okay m writers_only (fun m' r s' => received m m' q0 r s') (piperead pi addr n s).
Proof.
  intros Hr Hh Ht Htg Hok Hq Ha Hn Hmax Hm. unfold piperead.
  assert (Hcp : curproc s = Ret p s) by (unfold curproc; by rewrite (proj1 (proj2 Hr))).
  assert (Hl : Lk_pipe pi ∉ k_held s) by (rewrite Hh; apply not_elem_of_nil).
  rewrite (bind_Ret _ _ _ _ _ Hcp), (bind_Ret _ _ _ _ _ (acquire_free _ _ Hl)), Hh. apply okay_bind.
  eapply okay_weaken; [| |apply (piperead_wait_okay m q0)]; try done.
  2:{ split; [by apply (running_ext p s)|]. split; [done|]. split; [by apply (target_ext s)|]. split; [done|].
      split; [done|]. by rewrite added_none, app_nil_r. }
  clear s Hr Hh Ht Htg Hok Hq Hcp Hl. intros m' [] s ((Hr & Ht & Htg & Hok & _ & Hq) & Hres).
  2:{ destruct Hres as [Hh Hk]. split; [done|]. split; [done|]. split; [done|]. left. done. }
  destruct Hres as [Hh Hne]. destruct (piperead_copy_run s Ha Hn Hmax Htg Hok Ht) as (r & s1 & E1 & Es1 & Hok1 & Hwo1 & Hr0 & Hrd1 & Hcase).
  rewrite (bind_Ret _ _ _ _ _ E1). destruct (table_of_inv _ _ _ Ht) as (pr & Hp & Hroot).
  assert (Hr1 : running p s1) by (apply (running_ext p s); [by rewrite Es1..|done]).
  destruct (wakeup_running (Ch_pipe_write pi) p s1 pr Hr1) as (s2 & pr2 & E2 & Hr2 & Es2 & _);
    [intros i; rewrite Es1; kred; rewrite Hh; by apply not_elem_of_cons; split; [|apply not_elem_of_nil]..|by rewrite Es1|].
  rewrite (bind_Ret _ _ _ _ _ E2). erewrite bind_Ret; [|apply (release_head _ []); by rewrite Es2, Es1]. cbn.
  assert (Em : k_mem s2 = k_mem s1) by (by rewrite Es2). split; [done|]. split; [by apply (running_ext p s2)|].
  kred. unfold writeopen in *. rewrite Em. split; [done|]. right. rewrite <- Hq. kred. rewrite Em, Hwo1. done.
Qed.
End Read.
End PipeUser.

Module PipeWitness.
Import VmWitness SchedWitness.
#[local] Existing Instance sym_layout.
#[local] Transparent tables find_pte pte_of.

(** A pipe in a page of its own, open at both ends, the counters about to
    wrap, with one byte in it; the user's page holds three bytes at 16. *)
Definition pipeP : Z := 0x80061000.
Definition pipe_mem : memory :=
  let m := wrbytes (demo_mem leafU) (userP + 16) [104; 105; 33] in
  let m := wrbytes m (pipeP + PI_data + 510) [65] in
  let m := st32 m (pipeP + PI_nread) (2 ^ 32 - 2) in
  let m := st32 m (pipeP + PI_nwrite) (2 ^ 32 - 1) in
  st32 (st32 m (pipeP + PI_readopen) 1) (pipeP + PI_writeopen) 1.

Definition sP : kstate :=
  set_k_freelist 0x80054000 (set_k_mem pipe_mem
    (set_k_proc (alter (set_p_pagetable rootP) 0%nat (k_proc (rr_table (Some 0%nat) []))) (rr_table (Some 0%nat) []))).

Lemma sP_running : running 0 sP.
Proof.
  split; [|split; [done|by exists (set_p_pagetable rootP (set_p_state RUNNING proc0))]].
  apply (sched_ok_alter (rr_table (Some 0%nat) []) _ 0 (set_p_pagetable rootP)); [apply rr_table_ok|done..].
Qed.

(** Only the user's page and the pipe differ from the demonstration state. *)
Lemma pipe_mem_page q : q ∈ tables (demo_mem leafU) 2 rootP \/ q ∈ freeP -> same_page (demo_mem leafU) pipe_mem q.
Proof.
  assert (HT : tables (demo_mem leafU) 2 rootP = [rootP; l1P; l0P]) by (vm_compute; reflexivity). rewrite HT.
  intros Hq a Ha. assert (Hb : a < userP \/ userP + 4096 <= a < pipeP).
  { rewrite <- elem_of_app in Hq. assert (HF : Forall (fun q => q + 4096 <= userP \/ userP + 4096 <= q /\ q + 4096 <= pipeP) ([rootP; l1P; l0P] ++ freeP)).
    { apply (bool_decide_unpack _). vm_compute. exact I. }
    rewrite Forall_forall in HF. specialize (HF q Hq). unfold PGSIZE in Ha. lia. }
  unfold pipe_mem, PI_data, PI_nread, PI_nwrite, PI_readopen, PI_writeopen, st32. unfold userP, pipeP in *.
  rewrite !st_outside by lia. rewrite !wrbytes_outside by (cbn [length]; lia). done.
Qed.

Lemma sP_vm : vm_inv sP rootP freeP /\ tables pipe_mem 2 rootP = tables (demo_mem leafU) 2 rootP /\
  forall vpn, aspace pipe_mem rootP vpn = aspace (demo_mem leafU) rootP vpn.
Proof. apply (vm_frame (demo leafU)); [apply demo_inv; by right|exact pipe_mem_page]. Qed.

Lemma sP_apart : pipe_apart rootP pipeP sP freeP.
Proof.
  split; [apply sP_vm|]. split; [reflexivity|]. split; apply (bool_decide_unpack _); vm_compute; exact I.
Qed.

Lemma sP_target : target rootP pipeP sP.
Proof.
  destruct sP_vm as (_ & HT & HA). split.
  - exists freeP. split; [apply sP_apart|]. apply (user_ok_aspace rootP (demo leafU)); [exact HT|exact HA|apply demo_user_ok].
  - intros va Hva Hz. change (k_mem sP) with pipe_mem in *. destruct (user_pa_inv _ _ Hva Hz) as (Hv & Hu & ->). rewrite HA, demo_aspace in * by done.
    by destruct (_ =? 0).
Qed.

Lemma sP_queue : pipe_queue (k_mem sP) pipeP = [65].
Proof. vm_compute. reflexivity. Qed.

Lemma sP_source : source rootP pipeP 16 3 [104; 105; 33] sP.
Proof.
  assert (HU : forall i, 0 <= i < 3 -> user_pa (aspace (k_mem sP) rootP) (16 + i) = userP).
  { intros i Hi. assert (i = 0 \/ i = 1 \/ i = 2) as [->|[->| ->]] by lia; vm_compute; reflexivity. }
  split; [exists freeP; apply sP_apart|]. split; [intros i Hi; cbn in Hi; rewrite HU by lia; discriminate|].
  split; [cbn; lia|]. split; [vm_compute; reflexivity|]. intros i Hi. cbn in Hi. rewrite HU by lia. discriminate.
Qed.

(** The readers take a byte each time the writer waits. *)
Lemma pipewrite_correct_witness :
  okay 4 (readers_only 0 rootP pipeP 16 3 [104; 105; 33] (fun _ => 1%nat))
    (fun m' r s' => written 0 pipeP [104; 105; 33] [65] (fun _ => 1%nat) 4 m' r s')
    (pipewrite pipeP 16 3 sP).
Proof.
  apply (pipewrite_correct 0 rootP pipeP 16 3 [104; 105; 33] [65] (fun _ => 1%nat) 4 sP);
    [apply sP_running|reflexivity|reflexivity|apply sP_source|vm_compute; discriminate|symmetry; apply sP_queue|lia|unfold PGSIZE; lia|cbn; lia|lia].
Defined.

Lemma piperead_correct_witness :
  okay 4 (writers_only 0 rootP pipeP (fun _ => [7])) (fun m' r s' => received 0 rootP pipeP 32 8 (fun _ => [7]) 4 m' [65] r s')
    (piperead pipeP 32 8 sP).
Proof.
  apply (piperead_correct 0 rootP pipeP 32 8 (fun _ => [7]) 4 sP [65]);
    [apply sP_running|reflexivity|reflexivity|apply sP_target|vm_compute; discriminate|symmetry; apply sP_queue|lia|lia|unfold PGSIZE; lia|lia].
Defined.
End PipeWitness.
