(* ===== verification/Riscv.v ===== *)
(** * The hart

    What the assembly files and kernel/riscv.h use of a RISC-V hart: its
    registers, its control and status registers, the instructions, and the
    accessors of riscv.h. Address translation is a parameter. *)

From stdpp Require Import functions.
From S2P Require Import Prelude Machine.

(** ** Registers *)

Inductive reg :=
| ra | sp | gp | tp | t0 | t1 | t2 | s0 | s1 | a0 | a1 | a2 | a3 | a4 | a5 | a6 | a7
| s2 | s3 | s4 | s5 | s6 | s7 | s8 | s9 | s10 | s11 | t3 | t4 | t5 | t6.

Inductive csr :=
| mhartid | mstatus | mepc | mie | medeleg | mideleg | mtvec | mscratch | pmpcfg0 | pmpaddr0 | mcounteren | time
| sstatus | sepc | sie | sip | stvec | sscratch | satp | scause | stval.

#[export] Instance reg_eq : EqDecision reg.
Proof. solve_decision. Defined.
#[export] Instance csr_eq : EqDecision csr.
Proof. solve_decision. Defined.

Inductive mode := User | Supervisor | Machine.

Record mach := mkMach { m_reg : reg -> Z; m_csr : csr -> Z; m_mem : memory; m_mode : mode }.

(** The hart's address translation: the physical address of a virtual one
    under a value of [satp]; [None] is a page fault. Zero turns it off. *)
Class Mmu := {
  translate : Z -> Z -> option Z;
  translate_off : forall va, translate 0 va = Some va
}.

Definition set_reg (r : reg) (v : Z) (m : mach) : mach := mkMach (<[r := v]> (m_reg m)) (m_csr m) (m_mem m) (m_mode m).
Definition set_csr (c : csr) (v : Z) (m : mach) : mach := mkMach (m_reg m) (<[c := v]> (m_csr m)) (m_mem m) (m_mode m).
Definition set_mem (f : memory) (m : mach) : mach := mkMach (m_reg m) (m_csr m) f (m_mode m).
Definition set_mode (d : mode) (m : mach) : mach := mkMach (m_reg m) (m_csr m) (m_mem m) d.
Definition set_regs (f : reg -> Z) (m : mach) : mach := mkMach f (m_csr m) (m_mem m) (m_mode m).

(** ** Instructions *)

Inductive instr :=
| SD (r : reg) (off : Z) (base : reg)
| LD (r : reg) (off : Z) (base : reg)
| CSRRW (rd : reg) (c : csr) (rs : reg)
| CSRR (rd : reg) (c : csr)
| CSRW (c : csr) (rs : reg)
| SFENCE
| ADDI (rd rs : reg) (imm : Z)
| ADD (rd r1 r2 : reg)
| MUL (rd r1 r2 : reg)
| LI (rd : reg) (v : Z).

Section Hart.
Context `{MMU : Mmu}.

(** Machine mode has no translation. *)
Definition phys (m : mach) (va : Z) : option Z :=
  match m_mode m with Machine => Some va | _ => translate (m_csr m satp) va end.

(** The physical address of [off(base)]. *)
Definition address (off : Z) (base : reg) : M mach Z := fun m =>
  match phys m (u64 (m_reg m base + off)) with Some pa => Ret pa m | None => Panic "page fault" m end.

Definition exec_instr (i : instr) : M mach unit :=
  match i with
  | SD r off base => pa <- address off base ;; modify (fun m => set_mem (st64 (m_mem m) pa (m_reg m r)) m)
  | LD r off base => pa <- address off base ;; modify (fun m => set_reg r (ld64 (m_mem m) pa) m)
  | CSRRW rd c rs => modify (fun m => set_reg rd (m_csr m c) (set_csr c (m_reg m rs) m))
  | CSRR rd c => modify (fun m => set_reg rd (m_csr m c) m)
  | CSRW c rs => modify (fun m => set_csr c (m_reg m rs) m)
  | SFENCE => ret tt
  | ADDI rd rs imm => modify (fun m => set_reg rd (u64 (m_reg m rs + imm)) m)
  | ADD rd r1 r2 => modify (fun m => set_reg rd (u64 (m_reg m r1 + m_reg m r2)) m)
  | MUL rd r1 r2 => modify (fun m => set_reg rd (u64 (m_reg m r1 * m_reg m r2)) m)
  | LI rd v => modify (fun m => set_reg rd (u64 v) m)
  end.

Definition block (l : list instr) : M mach unit := for_all l exec_instr.

(** Jumps give the new program counter. *)
Definition jr (r : reg) : M mach Z := gets (fun m => m_reg m r).

(** Returning from a trap: the program counter and the mode come back; what
    the status registers keep for the next trap is not modelled. *)
Definition sret : M mach Z :=
  modify (fun m => set_mode (if Z.testbit (m_csr m sstatus) 8 then Supervisor else User) m) ;;;
  gets (fun m => m_csr m sepc).

Definition mpp (x : Z) : mode :=
  let b := Z.land (Z.shiftr x 11) 3 in if b =? 3 then Machine else if b =? 1 then Supervisor else User.

Definition mret : M mach Z :=
  modify (fun m => set_mode (mpp (m_csr m mstatus)) m) ;;;
  gets (fun m => m_csr m mepc).

(** ** Saving and restoring registers *)

Definition saves (base : reg) (l : list (reg * Z)) : list instr := map (fun x => SD x.1 x.2 base) l.
Definition loads (base : reg) (l : list (reg * Z)) : list instr := map (fun x => LD x.1 x.2 base) l.

Definition regs_ok (m : mach) : Prop := forall r, 0 <= m_reg m r < 2 ^ 64.

(** Different multiples of 8. *)
Definition slots (l : list (reg * Z)) : Prop := NoDup l.*2 /\ Forall (fun o => o mod 8 = 0) l.*2.

Lemma slots_cons x l : slots (x :: l) -> slots l /\ forall y, y ∈ l -> x.2 + 8 <= y.2 \/ y.2 + 8 <= x.2.
Proof.
  intros [Hn Hm]. cbn in Hn, Hm. apply NoDup_cons in Hn as [Hx Hn]. apply Forall_cons in Hm as [Hx8 Hm]. split; [by split|].
  intros y Hy. assert (Hy2 : y.2 ∈ l.*2) by by apply list_elem_of_fmap_2. rewrite Forall_forall in Hm. specialize (Hm _ Hy2). cbn beta in Hm.
  assert (x.2 <> y.2) by (intros E; apply Hx; by rewrite E). Z.div_mod_to_equations. lia.
Qed.

Lemma saves_run base l pa : forall m, regs_ok m -> slots l ->
  (forall x, x ∈ l -> phys m (u64 (m_reg m base + x.2)) = Some (pa + x.2)) ->
  exists f, block (saves base l) m = Ret tt (set_mem f m) /\
    (forall x, x ∈ l -> ld64 f (pa + x.2) = m_reg m x.1) /\
    (forall a, (forall x, x ∈ l -> a < pa + x.2 \/ pa + x.2 + 8 <= a) -> f a = m_mem m a).
Proof.
  induction l as [|x l IH]; intros m Hr Hs Hp.
  - exists (m_mem m). split; [by destruct m|]. split; [intros x Hx; by apply not_elem_of_nil in Hx|done].
  - apply slots_cons in Hs as [Hs Hx]. set (m1 := set_mem (st64 (m_mem m) (pa + x.2) (m_reg m x.1)) m).
    destruct (IH m1 Hr Hs) as (f & E & Hf1 & Hf2); [intros y Hy; apply (Hp y); apply elem_of_cons; by right|].
    exists f. split; [|split].
    + unfold block, saves in *. cbn [map for_all exec_instr]. unfold address. unfold bind at 1. unfold bind at 1. rewrite Hp by (apply elem_of_cons; by left). exact E.
    + intros y [->|Hy]%elem_of_cons; [|by apply Hf1].
      transitivity (ld64 (m_mem m1) (pa + x.2)); [|by apply ld64_st64_same]. unfold ld64. apply ld_ext. intros a Ha. apply Hf2. intros y Hy. destruct (Hx y Hy); lia.
    + intros a Ha. rewrite Hf2 by (intros y Hy; apply Ha; apply elem_of_cons; by right). apply st_outside. apply (Ha x). apply elem_of_cons. by left.
Qed.

(** The base may be among the registers if its slot holds its own value. *)
Lemma loads_run base l pa : forall m, NoDup l.*1 ->
  (forall x, x ∈ l -> phys m (u64 (m_reg m base + x.2)) = Some (pa + x.2)) ->
  (forall o, (base, o) ∈ l -> ld64 (m_mem m) (pa + o) = m_reg m base) ->
  exists g, block (loads base l) m = Ret tt (set_regs g m) /\
    (forall x, x ∈ l -> g x.1 = ld64 (m_mem m) (pa + x.2)) /\ (forall r, r ∉ l.*1 -> g r = m_reg m r).
Proof.
  induction l as [|x l IH]; intros m Hn Hp Hb.
  - exists (m_reg m). split; [by destruct m|]. split; [intros x Hx; by apply not_elem_of_nil in Hx|done].
  - cbn in Hn. apply NoDup_cons in Hn as [Hx Hn]. set (m1 := set_reg x.1 (ld64 (m_mem m) (pa + x.2)) m).
    assert (Eb : m_reg m1 base = m_reg m base).
    { cbn. destruct (decide (x.1 = base)) as [E|Hne]; [|by rewrite fn_lookup_insert_ne]. rewrite E, fn_lookup_insert. apply Hb. apply elem_of_cons. left. destruct x. cbn in *. by subst. }
    destruct (IH m1 Hn) as (g & E & Hg1 & Hg2).
    { intros y Hy. rewrite Eb. apply (Hp y). apply elem_of_cons. by right. }
    { intros o Ho. rewrite Eb. apply Hb. apply elem_of_cons. by right. }
    exists g. split; [|split].
    + unfold block, loads in *. cbn [map for_all exec_instr]. unfold address. unfold bind at 1. unfold bind at 1. rewrite Hp by (apply elem_of_cons; by left). exact E.
    + intros y [->|Hy]%elem_of_cons; [|by apply Hg1]. rewrite Hg2 by done. cbn. by rewrite fn_lookup_insert.
    + intros r Hr. cbn in Hr. apply not_elem_of_cons in Hr as [Hr1 Hr2]. rewrite Hg2 by done. cbn. by rewrite fn_lookup_insert_ne.
Qed.

Lemma block_app l1 l2 m m1 : block l1 m = Ret tt m1 -> block (l1 ++ l2) m = block l2 m1.
Proof.
  unfold block. revert m. induction l1 as [|i l1 IH]; intros m H; [by injection H as <-|]. cbn [app for_all] in *.
  apply bind_inv_Ret in H as ([] & m2 & E1 & E2). rewrite (bind_Ret _ _ _ _ _ E1). by apply IH.
Qed.
End Hart.
