(* ===== verification/Asm.v ===== *)
(** * The assembly files of the kernel

    kernel/trampoline.S, kernel/swtch.S, kernel/kernelvec.S and kernel/entry.S,
    instruction by instruction, with what each routine does to the registers
    and to memory. *)

From stdpp Require Import functions.
From S2P Require Import Prelude Machine Riscv.

(** ** The code *)

Section Code.
Context `{MMU : Mmu}.

(** *** trampoline.S *)

Definition uservec : M mach Z :=
  block [CSRRW a0 sscratch a0;
    SD ra 40 a0; SD sp 48 a0; SD gp 56 a0; SD tp 64 a0; SD t0 72 a0; SD t1 80 a0; SD t2 88 a0; SD s0 96 a0; SD s1 104 a0;
    SD a1 120 a0; SD a2 128 a0; SD a3 136 a0; SD a4 144 a0; SD a5 152 a0; SD a6 160 a0; SD a7 168 a0;
    SD s2 176 a0; SD s3 184 a0; SD s4 192 a0; SD s5 200 a0; SD s6 208 a0; SD s7 216 a0; SD s8 224 a0; SD s9 232 a0; SD s10 240 a0; SD s11 248 a0;
    SD t3 256 a0; SD t4 264 a0; SD t5 272 a0; SD t6 280 a0;
    CSRR t0 sscratch; SD t0 112 a0;
    LD sp 8 a0; LD tp 32 a0; LD t0 16 a0; LD t1 0 a0;
    CSRW satp t1; SFENCE] ;;;
  jr t0.

Definition userret : M mach Z :=
  block [CSRW satp a1; SFENCE;
    LD t0 112 a0; CSRW sscratch t0;
    LD ra 40 a0; LD sp 48 a0; LD gp 56 a0; LD tp 64 a0; LD t0 72 a0; LD t1 80 a0; LD t2 88 a0; LD s0 96 a0; LD s1 104 a0;
    LD a1 120 a0; LD a2 128 a0; LD a3 136 a0; LD a4 144 a0; LD a5 152 a0; LD a6 160 a0; LD a7 168 a0;
    LD s2 176 a0; LD s3 184 a0; LD s4 192 a0; LD s5 200 a0; LD s6 208 a0; LD s7 216 a0; LD s8 224 a0; LD s9 232 a0; LD s10 240 a0; LD s11 248 a0;
    LD t3 256 a0; LD t4 264 a0; LD t5 272 a0; LD t6 280 a0;
    CSRRW a0 sscratch a0] ;;;
  sret.

(** *** swtch.S *)

Definition swtch : M mach Z :=
  block [SD ra 0 a0; SD sp 8 a0; SD s0 16 a0; SD s1 24 a0; SD s2 32 a0; SD s3 40 a0; SD s4 48 a0; SD s5 56 a0; SD s6 64 a0; SD s7 72 a0;
    SD s8 80 a0; SD s9 88 a0; SD s10 96 a0; SD s11 104 a0;
    LD ra 0 a1; LD sp 8 a1; LD s0 16 a1; LD s1 24 a1; LD s2 32 a1; LD s3 40 a1; LD s4 48 a1; LD s5 56 a1; LD s6 64 a1; LD s7 72 a1;
    LD s8 80 a1; LD s9 88 a1; LD s10 96 a1; LD s11 104 a1] ;;;
  jr ra.

(** *** kernelvec.S *)

(** [kerneltrap] is the C function of that name, with the return address that
    [call] leaves in [ra]. *)
Definition kernelvec (link : Z) (kerneltrap : M mach unit) : M mach Z :=
  block [ADDI sp sp (-256);
    SD ra 0 sp; SD sp 8 sp; SD gp 16 sp; SD tp 24 sp; SD t0 32 sp; SD t1 40 sp; SD t2 48 sp; SD s0 56 sp; SD s1 64 sp;
    SD a0 72 sp; SD a1 80 sp; SD a2 88 sp; SD a3 96 sp; SD a4 104 sp; SD a5 112 sp; SD a6 120 sp; SD a7 128 sp;
    SD s2 136 sp; SD s3 144 sp; SD s4 152 sp; SD s5 160 sp; SD s6 168 sp; SD s7 176 sp; SD s8 184 sp; SD s9 192 sp; SD s10 200 sp; SD s11 208 sp;
    SD t3 216 sp; SD t4 224 sp; SD t5 232 sp; SD t6 240 sp] ;;;
  modify (set_reg ra link) ;;;
  kerneltrap ;;;
  block [LD ra 0 sp; LD sp 8 sp; LD gp 16 sp; LD t0 32 sp; LD t1 40 sp; LD t2 48 sp; LD s0 56 sp; LD s1 64 sp;
    LD a0 72 sp; LD a1 80 sp; LD a2 88 sp; LD a3 96 sp; LD a4 104 sp; LD a5 112 sp; LD a6 120 sp; LD a7 128 sp;
    LD s2 136 sp; LD s3 144 sp; LD s4 152 sp; LD s5 160 sp; LD s6 168 sp; LD s7 176 sp; LD s8 184 sp; LD s9 192 sp; LD s10 200 sp; LD s11 208 sp;
    LD t3 216 sp; LD t4 224 sp; LD t5 232 sp; LD t6 240 sp;
    ADDI sp sp 256] ;;;
  sret.

Definition timervec : M mach Z :=
  block [CSRRW a0 mscratch a0;
    SD a1 0 a0; SD a2 8 a0; SD a3 16 a0;
    LD a1 24 a0; LD a2 32 a0; LD a3 0 a1; ADD a3 a3 a2; SD a3 0 a1;
    LI a1 2; CSRW sip a1;
    LD a3 16 a0; LD a2 8 a0; LD a1 0 a0;
    CSRRW a0 mscratch a0] ;;;
  mret.

(** *** entry.S *)

(** [stack0] is the address that the linker gives the array. *)
Definition _entry (stack0 : Z) : M mach unit :=
  block [LI sp stack0; LI a0 (1024 * 4); CSRR a1 mhartid; ADDI a1 a1 1; MUL a0 a0 a1; ADD sp sp a0].
End Code.

(** ** The trap frame *)

(** Offset of a user register in [struct trapframe]. *)
Definition tf_reg (r : reg) : Z :=
  match r with
  | ra => 40 | sp => 48 | gp => 56 | tp => 64 | t0 => 72 | t1 => 80 | t2 => 88 | s0 => 96 | s1 => 104
  | a0 => 112 | a1 => 120 | a2 => 128 | a3 => 136 | a4 => 144 | a5 => 152 | a6 => 160 | a7 => 168
  | s2 => 176 | s3 => 184 | s4 => 192 | s5 => 200 | s6 => 208 | s7 => 216 | s8 => 224 | s9 => 232 | s10 => 240 | s11 => 248
  | t3 => 256 | t4 => 264 | t5 => 272 | t6 => 280
  end.

(** Offset of a register in [struct context]. *)
Definition ctx_reg (r : reg) : option Z :=
  match r with
  | ra => Some 0 | sp => Some 8 | s0 => Some 16 | s1 => Some 24 | s2 => Some 32 | s3 => Some 40 | s4 => Some 48 | s5 => Some 56
  | s6 => Some 64 | s7 => Some 72 | s8 => Some 80 | s9 => Some 88 | s10 => Some 96 | s11 => Some 104
  | _ => None
  end.

(** ** Steps *)

Section Steps.
Context `{MMU : Mmu}.

Lemma block_cons i l m m1 : exec_instr i m = Ret tt m1 -> block (i :: l) m = block l m1.
Proof. intros E. unfold block. cbn [for_all]. by rewrite (bind_Ret _ _ _ _ _ E). Qed.

Lemma sd_run r off base m pa : phys m (u64 (m_reg m base + off)) = Some pa ->
  exec_instr (SD r off base) m = Ret tt (set_mem (st64 (m_mem m) pa (m_reg m r)) m).
Proof. intros E. unfold exec_instr, address, bind. by rewrite E. Qed.

Lemma ld_run r off base m pa : phys m (u64 (m_reg m base + off)) = Some pa ->
  exec_instr (LD r off base) m = Ret tt (set_reg r (ld64 (m_mem m) pa) m).
Proof. intros E. unfold exec_instr, address, bind. by rewrite E. Qed.
End Steps.

(** One instruction; with the translation of its address for [SD] and [LD]. *)
Ltac asm := refine (eq_trans (block_cons _ _ _ _ _) _); [reflexivity|].
Ltac asm_mem H := refine (eq_trans (block_cons _ _ _ _ _) _); [first [eapply sd_run | eapply ld_run]; exact H|].

(** Registers read back, after each instruction. *)
Ltac asm_red := cbn [set_reg set_csr set_mem set_mode m_reg m_csr m_mem m_mode]; rewrite ?fn_lookup_insert; repeat (rewrite fn_lookup_insert_ne by discriminate).

Definition user_regs : list reg :=
  [ra; sp; gp; tp; t0; t1; t2; s0; s1; a1; a2; a3; a4; a5; a6; a7; s2; s3; s4; s5; s6; s7; s8; s9; s10; s11; t3; t4; t5; t6].
Definition user_frame : list (reg * Z) := map (fun r => (r, tf_reg r)) user_regs.

Lemma user_frame_slots : slots user_frame.
Proof. split; [apply (bool_decide_unpack _); vm_compute; exact I|]. repeat constructor. Qed.

Lemma user_frame_elem r : r <> a0 -> (r, tf_reg r) ∈ user_frame.
Proof. intros H. apply (list_elem_of_fmap_2 (fun r => (r, tf_reg r))). apply (bool_decide_unpack _). destruct r; first [contradiction | vm_compute; exact I]. Qed.

Lemma user_frame_range x : x ∈ user_frame -> x.2 = tf_reg x.1 /\ x.1 <> a0 /\ 40 <= x.2 <= 280 /\ x.2 mod 8 = 0 /\ x.2 <> 112.
Proof.
  revert x. apply Forall_forall. unfold user_frame, user_regs. cbn [map]. repeat (apply Forall_cons; split; [done|]). by apply Forall_nil.
Qed.

Section Trampoline.
Context `{MMU : Mmu}.

(** [uservec] saves all registers in the trap frame, takes the kernel's stack
    pointer, hart number and page table from it and jumps to its handler. *)
Lemma uservec_run m tf : regs_ok m -> 0 <= m_csr m sscratch < 2 ^ 64 ->
  (forall o, 0 <= o < 288 -> phys m (u64 (m_csr m sscratch + o)) = Some (tf + o)) ->
  exists m', uservec m = Ret (ld64 (m_mem m) (tf + 16)) m' /\
    (forall r, ld64 (m_mem m') (tf + tf_reg r) = m_reg m r) /\
    (forall a, a < tf + 40 \/ tf + 288 <= a -> m_mem m' a = m_mem m a) /\
    m_reg m' sp = ld64 (m_mem m) (tf + 8) /\ m_reg m' tp = ld64 (m_mem m) (tf + 32) /\
    m_csr m' satp = ld64 (m_mem m) (tf + 0) /\ (forall c, c <> sscratch -> c <> satp -> m_csr m' c = m_csr m c) /\ m_mode m' = m_mode m.
Proof.
  intros Hr Hsc Htr. set (m1 := set_reg a0 (m_csr m sscratch) (set_csr sscratch (m_reg m a0) m)).
  assert (Hr1 : regs_ok m1).
  { intros r. cbn. destruct (decide (r = a0)) as [->|Hne]; [by rewrite fn_lookup_insert|rewrite fn_lookup_insert_ne by done; apply Hr]. }
  destruct (saves_run a0 user_frame tf m1 Hr1 user_frame_slots) as (f & Ef & Hf1 & Hf2).
  { intros x Hx. apply user_frame_range in Hx. apply (Htr x.2). lia. }
  set (f2 := st64 f (tf + 112) (m_reg m a0)).
  assert (Hold : forall o, o + 8 <= 40 -> ld64 f2 (tf + o) = ld64 (m_mem m) (tf + o)).
  { intros o Ho. unfold f2. rewrite ld64_st64_other by lia. unfold ld64. apply ld_ext. intros a Ha. apply Hf2. intros x Hx. apply user_frame_range in Hx. lia. }
  eexists. split; [|split; [|split]].
  - unfold uservec. erewrite bind_Ret; [|].
    2:{ asm. refine (eq_trans (block_app (saves a0 user_frame) [CSRR t0 sscratch; SD t0 112 a0; LD sp 8 a0; LD tp 32 a0; LD t0 16 a0; LD t1 0 a0; CSRW satp t1; SFENCE] m1 _ Ef) _).
        asm. asm_mem (Htr 112 ltac:(done)). asm_mem (Htr 8 ltac:(done)). asm_mem (Htr 32 ltac:(done)). asm_mem (Htr 16 ltac:(done)). asm_mem (Htr 0 ltac:(done)). asm. asm. reflexivity. }
    unfold jr, gets. f_equal. apply (Hold 16). lia.
  - intros r. change (ld64 f2 (tf + tf_reg r) = m_reg m r). destruct (decide (r = a0)) as [->|Hne].
    + apply ld64_st64_same. apply Hr.
    + pose proof (user_frame_elem r Hne) as Hx. pose proof (user_frame_range _ Hx) as (_ & _ & Hx1 & Hx2 & Hx3). cbn [snd] in *. unfold f2.
      rewrite ld64_st64_other by (Z.div_mod_to_equations; lia). etransitivity; [exact (Hf1 _ Hx)|]. cbn. by rewrite fn_lookup_insert_ne.
  - intros a Ha. change (f2 a = m_mem m a). unfold f2, st64. rewrite st_outside by lia. apply Hf2. intros x Hx. apply user_frame_range in Hx. lia.
  - split; [apply (Hold 8); lia|]. split; [apply (Hold 32); lia|]. split; [apply (Hold 0); lia|]. split; [|done].
    intros c Hc1 Hc2. cbn. rewrite !fn_lookup_insert_ne by congruence. done.
Qed.

(** [userret] loads all registers from the trap frame, under the page table it
    is given. *)
Lemma userret_run m tf :
  (forall o, 0 <= o < 288 -> phys (set_csr satp (m_reg m a1) m) (u64 (m_reg m a0 + o)) = Some (tf + o)) ->
  exists m', userret m = Ret (m_csr m sepc) m' /\ (forall r, m_reg m' r = ld64 (m_mem m) (tf + tf_reg r)) /\
    m_mem m' = m_mem m /\ m_csr m' satp = m_reg m a1 /\ m_csr m' sscratch = m_reg m a0 /\
    m_mode m' = if Z.testbit (m_csr m sstatus) 8 then Supervisor else User.
Proof.
  intros Htr. set (m1 := set_csr sscratch (ld64 (m_mem m) (tf + 112)) (set_reg t0 (ld64 (m_mem m) (tf + 112)) (set_csr satp (m_reg m a1) m))).
  destruct (loads_run a0 user_frame tf m1) as (g & Eg & Hg1 & Hg2).
  { apply (bool_decide_unpack _). vm_compute. exact I. }
  { intros x Hx. apply user_frame_range in Hx. apply (Htr x.2). lia. }
  { intros o Ho. apply user_frame_range in Ho as (_ & Ho & _). done. }
  eexists. split; [|split; [|split; [|split; [|split]]]].
  - unfold userret. erewrite bind_Ret; [|].
    2:{ asm. asm. asm_mem (Htr 112 ltac:(done)). asm.
        refine (eq_trans (block_app (loads a0 user_frame) [CSRRW a0 sscratch a0] m1 _ Eg) _). asm. reflexivity. }
    reflexivity.
  - intros r. cbn. destruct (decide (r = a0)) as [->|Hne]; [by rewrite fn_lookup_insert|]. rewrite fn_lookup_insert_ne by done. apply (Hg1 _ (user_frame_elem r Hne)).
  - done.
  - done.
  - cbn. rewrite fn_lookup_insert. apply (Hg2 a0). apply (bool_decide_unpack _). vm_compute. exact I.
  - done.
Qed.
End Trampoline.

(** ** The switch between threads *)

Definition context_frame : list (reg * Z) :=
  [(ra, 0); (sp, 8); (s0, 16); (s1, 24); (s2, 32); (s3, 40); (s4, 48); (s5, 56); (s6, 64); (s7, 72); (s8, 80); (s9, 88); (s10, 96); (s11, 104)].

Lemma context_frame_slots : slots context_frame.
Proof. split; [apply (bool_decide_unpack _); vm_compute; exact I|]. repeat constructor. Qed.

Lemma context_frame_range x : x ∈ context_frame -> ctx_reg x.1 = Some x.2 /\ x.1 <> a0 /\ x.1 <> a1 /\ 0 <= x.2 <= 104.
Proof. revert x. apply Forall_forall. unfold context_frame. repeat (apply Forall_cons; split; [done|]). by apply Forall_nil. Qed.

Lemma context_frame_elem r o : ctx_reg r = Some o -> (r, o) ∈ context_frame.
Proof. intros H. apply (bool_decide_unpack _). destruct r; try discriminate H; injection H as <-; vm_compute; exact I. Qed.

Lemma context_frame_not r : ctx_reg r = None -> r ∉ context_frame.*1.
Proof. intros H Hr. apply list_elem_of_fmap_1 in Hr as (x & -> & Hx). apply context_frame_range in Hx as [Hx _]. congruence. Qed.

Section Switch.
Context `{MMU : Mmu}.

Lemma swtch_run m old new : regs_ok m ->
  (forall o, 0 <= o < 112 -> phys m (u64 (m_reg m a0 + o)) = Some (old + o)) ->
  (forall o, 0 <= o < 112 -> phys m (u64 (m_reg m a1 + o)) = Some (new + o)) ->
  old + 112 <= new \/ new + 112 <= old ->
  exists m', swtch m = Ret (ld64 (m_mem m) (new + 0)) m' /\
    (forall r o, ctx_reg r = Some o -> ld64 (m_mem m') (old + o) = m_reg m r /\ m_reg m' r = ld64 (m_mem m) (new + o)) /\
    (forall r, ctx_reg r = None -> m_reg m' r = m_reg m r) /\
    (forall a, a < old \/ old + 112 <= a -> m_mem m' a = m_mem m a) /\ m_csr m' = m_csr m /\ m_mode m' = m_mode m.
Proof.
  intros Hr Ho Hn Hd. destruct (saves_run a0 context_frame old m Hr context_frame_slots) as (f & Ef & Hf1 & Hf2).
  { intros x Hx. apply context_frame_range in Hx. apply Ho. lia. }
  assert (Hnew : forall o, 0 <= o <= 104 -> ld64 f (new + o) = ld64 (m_mem m) (new + o)).
  { intros o Hor. apply ld_ext. intros a Ha. apply Hf2. intros x Hx. apply context_frame_range in Hx. lia. }
  destruct (loads_run a1 context_frame new (set_mem f m)) as (g & Eg & Hg1 & Hg2).
  { apply (bool_decide_unpack _). vm_compute. exact I. }
  { intros x Hx. apply context_frame_range in Hx. apply (Hn x.2). lia. }
  { intros o Hx. by apply context_frame_range in Hx as (_ & _ & Hx & _). }
  exists (set_regs g (set_mem f m)). split; [|split; [|split; [|split; [|done]]]].
  - unfold swtch. erewrite bind_Ret.
    2:{ refine (eq_trans (block_app (saves a0 context_frame) (loads a1 context_frame) m _ Ef) _). exact Eg. }
    unfold jr, gets. cbn [m_reg set_regs]. f_equal. etransitivity; [exact (Hg1 _ (context_frame_elem ra 0 eq_refl))|]. by apply (Hnew 0).
  - intros r o Hx. pose proof (context_frame_elem r o Hx) as He. pose proof (context_frame_range _ He) as (_ & _ & _ & Hrange). split; [exact (Hf1 _ He)|].
    etransitivity; [exact (Hg1 _ He)|]. apply (Hnew o). exact Hrange.
  - intros r Hx. apply (Hg2 r). by apply context_frame_not.
  - intros a Ha. apply Hf2. intros x Hx. apply context_frame_range in Hx. lia.
Qed.

(** C17: a thread that switches away with [swtch] resumes where it was. The
    switch saves the callee-saved registers, the stack pointer and the return
    address in the old context and goes on with those of the new one; a later
    switch to the old context, by any thread and on any hart, returns to the
    old thread's call of [swtch] with its registers, when its context has not
    been touched. *)
Theorem swtch_resumes m old new : regs_ok m ->
  (forall o, 0 <= o < 112 -> phys m (u64 (m_reg m a0 + o)) = Some (old + o)) ->
  (forall o, 0 <= o < 112 -> phys m (u64 (m_reg m a1 + o)) = Some (new + o)) ->
  old + 112 <= new \/ new + 112 <= old ->
  exists m1, swtch m = Ret (ld64 (m_mem m) (new + 0)) m1 /\
    (forall r o, ctx_reg r = Some o -> m_reg m1 r = ld64 (m_mem m) (new + o)) /\
    (forall a, a < old \/ old + 112 <= a -> m_mem m1 a = m_mem m a) /\
    forall m2 cur, regs_ok m2 ->
      (forall o, 0 <= o < 112 -> phys m2 (u64 (m_reg m2 a0 + o)) = Some (cur + o)) ->
      (forall o, 0 <= o < 112 -> phys m2 (u64 (m_reg m2 a1 + o)) = Some (old + o)) ->
      cur + 112 <= old \/ old + 112 <= cur -> (forall a, old <= a < old + 112 -> m_mem m2 a = m_mem m1 a) ->
      exists m3, swtch m2 = Ret (m_reg m ra) m3 /\ forall r o, ctx_reg r = Some o -> m_reg m3 r = m_reg m r.
Proof.
  intros Hr Ho Hn Hd. destruct (swtch_run m old new Hr Ho Hn Hd) as (m1 & E1 & H1 & _ & Hm1 & _). exists m1. split; [done|].
  split; [intros r o H; by apply H1|]. split; [done|]. intros m2 cur Hr2 Hc2 Ho2 Hd2 Hkeep.
  destruct (swtch_run m2 cur old Hr2 Hc2 Ho2 Hd2) as (m3 & E3 & H3 & _). exists m3.
  assert (Hctx : forall r o, ctx_reg r = Some o -> ld64 (m_mem m2) (old + o) = m_reg m r).
  { intros r o H. pose proof (context_frame_range _ (context_frame_elem r o H)) as (_ & _ & _ & Hrange). cbn [snd] in Hrange.
    rewrite <- (proj1 (H1 r o H)). apply ld_ext. intros a Ha. apply Hkeep. lia. }
  rewrite (Hctx ra 0 eq_refl) in E3. split; [done|]. intros r o H. rewrite (proj2 (H3 r o H)). by apply Hctx.
Qed.

(** ** Interrupts in the kernel *)

Definition kregs : list (reg * Z) :=
  [(ra, 0); (sp, 8); (gp, 16); (tp, 24); (t0, 32); (t1, 40); (t2, 48); (s0, 56); (s1, 64); (a0, 72); (a1, 80); (a2, 88); (a3, 96); (a4, 104); (a5, 112); (a6, 120); (a7, 128);
   (s2, 136); (s3, 144); (s4, 152); (s5, 160); (s6, 168); (s7, 176); (s8, 184); (s9, 192); (s10, 200); (s11, 208); (t3, 216); (t4, 224); (t5, 232); (t6, 240)].
Definition kregs_back : list (reg * Z) := filter (fun x => x.1 <> tp) kregs.

Lemma kregs_slots : slots kregs.
Proof. split; [apply (bool_decide_unpack _); vm_compute; exact I|]. repeat constructor. Qed.

Lemma kregs_range x : x ∈ kregs -> 0 <= x.2 <= 240 /\ (x.1 = sp -> x.2 = 8).
Proof. revert x. apply Forall_forall. unfold kregs. repeat (apply Forall_cons; split; [done|]). by apply Forall_nil. Qed.

Lemma kregs_elem r : exists o, (r, o) ∈ kregs /\ (r <> tp -> (r, o) ∈ kregs_back).
Proof.
  assert (H : (r, tf_reg r - 40) ∈ kregs) by (apply (bool_decide_unpack _); destruct r; vm_compute; exact I).
  exists (tf_reg r - 40). split; [done|]. intros Hr. by apply list_elem_of_filter.
Qed.

(** [kernelvec] returns to the interrupted code with all registers but [tp] as
    they were, when [kerneltrap] keeps the stack pointer, the stack above it
    and the page table of the stack, as compiled C code does. *)
Lemma kernelvec_run link kt m pa : regs_ok m ->
  let m0 := set_reg sp (u64 (m_reg m sp + -256)) m in
  (forall o, 0 <= o < 256 -> phys m (u64 (m_reg m0 sp + o)) = Some (pa + o)) ->
  (forall m1, m_reg m1 sp = m_reg m0 sp -> (forall va, phys m1 va = phys m va) -> exists m2, kt m1 = Ret tt m2 /\ m_reg m2 sp = m_reg m1 sp /\
     (forall a, pa <= a < pa + 256 -> m_mem m2 a = m_mem m1 a) /\ (forall va, phys m2 va = phys m1 va)) ->
  exists m1 m2 m', kt m1 = Ret tt m2 /\ m_reg m1 sp = m_reg m0 sp /\
    kernelvec link kt m = Ret (m_csr m2 sepc) m' /\ (forall r, r <> tp -> m_reg m' r = m_reg m r) /\ m_reg m' tp = m_reg m2 tp /\ m_mem m' = m_mem m2 /\ m_csr m' = m_csr m2.
Proof.
  intros Hr m0 Htr Hkt. assert (Hr0 : regs_ok m0).
  { intros r. cbn. destruct (decide (r = sp)) as [->|Hne]; [rewrite fn_lookup_insert; apply u64_range|rewrite fn_lookup_insert_ne by done; apply Hr]. }
  destruct (saves_run sp kregs pa m0 Hr0 kregs_slots) as (f & Ef & Hf1 & _).
  { intros x Hx. apply kregs_range in Hx as [Hx _]. apply (Htr x.2). lia. }
  set (m1 := set_reg ra link (set_mem f m0)). destruct (Hkt m1 eq_refl ltac:(done)) as (m2 & E2 & Hsp2 & Hm2 & Hp2).
  assert (Hslot : forall r o, (r, o) ∈ kregs -> ld64 (m_mem m2) (pa + o) = m_reg m0 r).
  { intros r o Hx. etransitivity; [|exact (Hf1 _ Hx)]. apply ld_ext. intros a Ha. pose proof (kregs_range _ Hx) as [Hrange _]. apply Hm2. cbn [snd] in *. lia. }
  destruct (loads_run sp kregs_back pa m2) as (g & Eg & Hg1 & Hg2).
  { apply (bool_decide_unpack _). vm_compute. exact I. }
  { intros x Hx. apply list_elem_of_filter in Hx as [_ Hx]. apply kregs_range in Hx as [Hx _]. rewrite Hsp2, Hp2. apply (Htr x.2). lia. }
  { intros o Hx. apply list_elem_of_filter in Hx as [_ Hx]. rewrite Hsp2. by apply Hslot. }
  assert (Hg : forall r, r <> tp -> g r = m_reg m0 r).
  { intros r Hne. destruct (kregs_elem r) as (o & Hx & Hxb). etransitivity; [exact (Hg1 _ (Hxb Hne))|]. by apply Hslot. }
  exists m1, m2. eexists. split; [exact E2|]. split; [done|]. split; [|split; [|split]].
  - unfold kernelvec. erewrite bind_Ret; [|asm; exact Ef]. erewrite bind_Ret; [|reflexivity]. erewrite bind_Ret; [|exact E2].
    erewrite bind_Ret; [|refine (eq_trans (block_app (loads sp kregs_back) [ADDI sp sp 256] m2 _ Eg) _); asm; reflexivity]. reflexivity.
  - intros r Hne. cbn. destruct (decide (r = sp)) as [->|Hns].
    + rewrite fn_lookup_insert, (Hg sp) by done. cbn. rewrite fn_lookup_insert. unfold u64. rewrite Zplus_mod_idemp_l. replace (m_reg m sp + -256 + 256) with (m_reg m sp) by lia.
      apply Z.mod_small. apply Hr.
    + rewrite fn_lookup_insert_ne by done. rewrite Hg by done. cbn. by rewrite fn_lookup_insert_ne.
  - cbn. apply (Hg2 tp). apply (bool_decide_unpack _). vm_compute. exact I.
  - done.
Qed.
End Switch.

(** ** The timer *)

Section Timer.
Context `{MMU : Mmu}.

(** [timervec] adds the interval to the comparison register of the timer,
    raises a supervisor software interrupt and keeps the registers. [sc] is
    the scratch area that [timerinit] set up. *)
Lemma timervec_run m : m_mode m = Machine -> regs_ok m ->
  let sc := m_csr m mscratch in
  let cmp := ld64 (m_mem m) (sc + 24) in
  0 <= sc -> sc + 40 <= 2 ^ 64 -> cmp + 8 <= 2 ^ 64 -> cmp + 8 <= sc \/ sc + 40 <= cmp ->
  exists m', timervec m = Ret (m_csr m mepc) m' /\ (forall r, m_reg m' r = m_reg m r) /\
    ld64 (m_mem m') cmp = u64 (ld64 (m_mem m) cmp + ld64 (m_mem m) (sc + 32)) /\
    (forall a, a < sc \/ sc + 24 <= a -> a < cmp \/ cmp + 8 <= a -> m_mem m' a = m_mem m a) /\
    m_csr m' sip = 2 /\ (forall c, c <> sip -> m_csr m' c = m_csr m c) /\ m_mode m' = mpp (m_csr m mstatus).
Proof.
  intros Hm Hr sc cmp Hsc0 Hsc Hcmp Hd.
  assert (Hcr : 0 <= cmp) by apply ld64_range.
  assert (Htr : forall va, 0 <= va < 2 ^ 64 -> phys m (u64 va) = Some va) by (intros va Hva; unfold phys; rewrite Hm, u64_small; done).
  assert (Ho : forall o, 0 <= o < 40 -> phys m (u64 (sc + o)) = Some (sc + o)) by (intros o Ho; apply Htr; lia).
  set (f := st64 (st64 (st64 (m_mem m) (sc + 0) (m_reg m a1)) (sc + 8) (m_reg m a2)) (sc + 16) (m_reg m a3)).
  assert (Hf : forall b, b + 8 <= sc \/ sc + 24 <= b -> ld64 f b = ld64 (m_mem m) b) by (intros b Hb; unfold f; rewrite !ld64_st64_other by lia; done).
  assert (Ec : ld64 f (sc + 24) = cmp) by (apply Hf; lia).
  assert (Hc : phys m (u64 (ld64 f (sc + 24) + 0)) = Some cmp) by (rewrite Ec, Z.add_0_r; apply Htr; lia).
  set (v := u64 (ld64 f cmp + ld64 f (sc + 32))). set (f2 := st64 f cmp v).
  assert (Hb : forall o, 0 <= o <= 16 -> ld64 f2 (sc + o) = ld64 f (sc + o)) by (intros o Hor; apply ld64_st64_other; lia).
  assert (Ev : v = u64 (ld64 (m_mem m) cmp + ld64 (m_mem m) (sc + 32))) by (unfold v; rewrite !Hf by lia; done).
  assert (E16 : ld64 f2 (sc + 16) = m_reg m a3) by (rewrite Hb by lia; unfold f; by apply ld64_st64_same).
  assert (E8 : ld64 f2 (sc + 8) = m_reg m a2) by (rewrite Hb by lia; unfold f; rewrite ld64_st64_other by lia; by apply ld64_st64_same).
  assert (E0 : ld64 f2 (sc + 0) = m_reg m a1) by (rewrite Hb by lia; unfold f; rewrite !ld64_st64_other by lia; by apply ld64_st64_same).
  eexists. split; [|split; [|split; [|split; [|split; [|split]]]]].
  - unfold timervec. erewrite bind_Ret.
    2:{ asm; asm_red. asm_mem (Ho 0 ltac:(lia)); asm_red. asm_mem (Ho 8 ltac:(lia)); asm_red. asm_mem (Ho 16 ltac:(lia)); asm_red. fold sc f.
        asm_mem (Ho 24 ltac:(lia)); asm_red. asm_mem (Ho 32 ltac:(lia)); asm_red. asm_mem Hc; asm_red. asm; asm_red. asm_mem Hc; asm_red. fold v f2. asm; asm_red. asm; asm_red.
        asm_mem (Ho 16 ltac:(lia)); asm_red. asm_mem (Ho 8 ltac:(lia)); asm_red. asm_mem (Ho 0 ltac:(lia)); asm_red. asm; asm_red. rewrite E16, E8, E0. reflexivity. }
    reflexivity.
  - intros r. asm_red. destruct (decide (r = a0)) as [->|]; [by asm_red|]. destruct (decide (r = a1)) as [->|]; [by asm_red|].
    destruct (decide (r = a2)) as [->|]; [by asm_red|]. destruct (decide (r = a3)) as [->|]; [by asm_red|]. rewrite !fn_lookup_insert_ne by congruence. done.
  - change (ld64 f2 cmp = u64 (ld64 (m_mem m) cmp + ld64 (m_mem m) (sc + 32))). rewrite <- Ev. apply ld64_st64_same. apply u64_range.
  - intros a Ha1 Ha2. change (f2 a = m_mem m a). unfold f2, f, st64. rewrite !st_outside by lia. done.
  - done.
  - intros c Hne. destruct (decide (c = mscratch)) as [->|]; [by asm_red|]. asm_red. rewrite !fn_lookup_insert_ne by congruence. done.
  - done.
Qed.

(** ** The first instructions *)

(** Each hart gets its own stack. *)
Lemma _entry_run stack0 m : 0 <= stack0 -> 0 <= m_csr m mhartid < 2 ^ 16 -> stack0 + 4096 * (m_csr m mhartid + 1) < 2 ^ 64 ->
  exists m', _entry stack0 m = Ret tt m' /\ m_reg m' sp = stack0 + 4096 * (m_csr m mhartid + 1) /\ m_csr m' = m_csr m /\ m_mem m' = m_mem m /\ m_mode m' = m_mode m.
Proof.
  intros H0 Hh Hs. eexists. split; [reflexivity|]. split; [|done]. asm_red. change (u64 (1024 * 4)) with 4096. rewrite (u64_small stack0), (u64_small (_ + 1)) by lia. rewrite (u64_small (4096 * _)) by lia.
  apply u64_small. lia.
Qed.
End Timer.

Module AsmWitness.
#[local] Instance no_mmu : Mmu := {| translate := fun _ va => Some va; translate_off := fun va => eq_refl |}.

(** A thread with its context at 0x1000 switches to the one at 0x2000, which
    switches back. *)
Definition reg_of (x y : Z) : reg -> Z := fun r => match r with a0 => x | a1 => y | ra => 0x8000 | sp => 0x9000 | _ => 5 end.
Definition thread : mach := mkMach (reg_of 0x1000 0x2000) (fun _ => 0) (fun _ => 0) Supervisor.

Lemma identity_phys m a : m_mode m = Supervisor -> forall o, 0 <= o < 112 -> 0 <= a < 2 ^ 32 -> phys m (u64 (a + o)) = Some (a + o).
Proof. intros Hm o Ho Ha. unfold phys. rewrite Hm. cbn. by rewrite u64_small by lia. Qed.

Lemma swtch_resumes_witness : exists m1, swtch thread = Ret 0 m1 /\
  exists m3, swtch (mkMach (reg_of 0x2000 0x1000) (fun _ => 0) (m_mem m1) Supervisor) = Ret 0x8000 m3 /\ m_reg m3 sp = 0x9000.
Proof.
  destruct (swtch_resumes thread 0x1000 0x2000) as (m1 & E1 & _ & _ & H).
  - intros r. destruct r; cbn; lia.
  - intros o Ho. exact (identity_phys thread 0x1000 eq_refl o Ho ltac:(lia)).
  - intros o Ho. exact (identity_phys thread 0x2000 eq_refl o Ho ltac:(lia)).
  - lia.
  - exists m1. split; [exact E1|]. destruct (H (mkMach (reg_of 0x2000 0x1000) (fun _ => 0) (m_mem m1) Supervisor) 0x2000) as (m3 & E3 & H3).
    + intros r. destruct r; cbn; lia.
    + intros o Ho. exact (identity_phys (mkMach (reg_of 0x2000 0x1000) (fun _ => 0) (m_mem m1) Supervisor) 0x2000 eq_refl o Ho ltac:(lia)).
    + intros o Ho. exact (identity_phys (mkMach (reg_of 0x2000 0x1000) (fun _ => 0) (m_mem m1) Supervisor) 0x1000 eq_refl o Ho ltac:(lia)).
    + lia.
    + intros a Ha. exact eq_refl.
    + exists m3. split; [exact E3|]. apply (H3 sp 8 eq_refl).
Defined.
End AsmWitness.
