(* ===== verification/Start.v ===== *)
(** * kernel/start.c and the registers of kernel/riscv.h

    What a hart does in machine mode before [main], and how the timer that it
    sets up goes on in kernelvec.S. *)

From stdpp Require Import functions.
From S2P Require Import Prelude Machine Riscv Asm.

(** ** kernel/riscv.h *)

Definition r_csr (c : csr) : M mach Z := gets (fun m => m_csr m c).
Definition w_csr (c : csr) (x : Z) : M mach unit := modify (set_csr c x).

Definition r_mhartid : M mach Z := r_csr mhartid.
Definition r_mstatus : M mach Z := r_csr mstatus.
Definition w_mstatus (x : Z) : M mach unit := w_csr mstatus x.
Definition w_mepc (x : Z) : M mach unit := w_csr mepc x.
Definition r_sie : M mach Z := r_csr sie.
Definition w_sie (x : Z) : M mach unit := w_csr sie x.
Definition r_mie : M mach Z := r_csr mie.
Definition w_mie (x : Z) : M mach unit := w_csr mie x.
Definition w_medeleg (x : Z) : M mach unit := w_csr medeleg x.
Definition w_mideleg (x : Z) : M mach unit := w_csr mideleg x.
Definition w_mtvec (x : Z) : M mach unit := w_csr mtvec x.
Definition w_pmpcfg0 (x : Z) : M mach unit := w_csr pmpcfg0 x.
Definition w_pmpaddr0 (x : Z) : M mach unit := w_csr pmpaddr0 x.
Definition w_satp (x : Z) : M mach unit := w_csr satp x.
Definition w_mscratch (x : Z) : M mach unit := w_csr mscratch x.
Definition w_tp (x : Z) : M mach unit := modify (set_reg tp x).

Definition MSTATUS_MPP_MASK : Z := Z.shiftl 3 11.
Definition MSTATUS_MPP_S : Z := Z.shiftl 1 11.
Definition MSTATUS_MIE : Z := Z.shiftl 1 3.
Definition SIE_SEIE : Z := Z.shiftl 1 9.
Definition SIE_STIE : Z := Z.shiftl 1 5.
Definition SIE_SSIE : Z := Z.shiftl 1 1.
Definition MIE_MTIE : Z := Z.shiftl 1 7.

Definition CLINT : Z := 0x2000000.
Definition CLINT_MTIMECMP (hartid : Z) : Z := CLINT + 0x4000 + 8 * hartid.
Definition CLINT_MTIME : Z := CLINT + 0xBFF8.

(** ** kernel/start.c *)

Section Start.
Context `{MMU : Mmu}.

(** Addresses that the linker chooses. *)
Context (main_addr timervec_addr timer_scratch : Z).

(** The code runs in machine mode, where addresses are physical. *)
Definition timerinit : M mach unit :=
  h <- r_mhartid ;;
  let id := i32 h in
  let interval := 1000000 in
  modify (fun m => set_mem (st64 (m_mem m) (CLINT_MTIMECMP id) (u64 (ld64 (m_mem m) CLINT_MTIME + interval))) m) ;;;
  let scratch := timer_scratch + 40 * id in
  modify (fun m => set_mem (st64 (m_mem m) (scratch + 24) (CLINT_MTIMECMP id)) m) ;;;
  modify (fun m => set_mem (st64 (m_mem m) (scratch + 32) interval) m) ;;;
  w_mscratch scratch ;;;
  w_mtvec timervec_addr ;;;
  x <- r_mstatus ;;
  w_mstatus (Z.lor x MSTATUS_MIE) ;;;
  x <- r_mie ;;
  w_mie (Z.lor x MIE_MTIE).

Definition start : M mach Z :=
  x <- r_mstatus ;;
  let x := Z.land x (Z.lnot MSTATUS_MPP_MASK) in
  let x := Z.lor x MSTATUS_MPP_S in
  w_mstatus x ;;;
  w_mepc main_addr ;;;
  w_satp 0 ;;;
  w_medeleg 0xffff ;;;
  w_mideleg 0xffff ;;;
  x <- r_sie ;;
  w_sie (Z.lor (Z.lor (Z.lor x SIE_SEIE) SIE_STIE) SIE_SSIE) ;;;
  w_pmpaddr0 0x3fffffffffffff ;;;
  w_pmpcfg0 0xf ;;;
  timerinit ;;;
  h <- r_mhartid ;;
  w_tp (u64 (i32 h)) ;;;
  mret.

(** ** What it leaves *)

Lemma mpp_supervisor x : mpp (Z.lor (Z.lor (Z.land x (Z.lnot MSTATUS_MPP_MASK)) MSTATUS_MPP_S) MSTATUS_MIE) = Supervisor.
Proof.
  unfold mpp. assert (E : Z.land (Z.shiftr (Z.lor (Z.lor (Z.land x (Z.lnot MSTATUS_MPP_MASK)) MSTATUS_MPP_S) MSTATUS_MIE) 11) 3 = 1); [|by rewrite E].
  apply Z.bits_inj'. intros n Hn. rewrite Z.land_spec, Z.shiftr_spec by done. rewrite !Z.lor_spec, Z.land_spec, Z.lnot_spec by lia.
  unfold MSTATUS_MPP_MASK, MSTATUS_MPP_S, MSTATUS_MIE. rewrite !Z.shiftl_spec by lia. replace (n + 11 - 11) with n by lia. replace (n + 11 - 3) with (n + 8) by lia.
  destruct (decide (n = 0)) as [->|]; [by rewrite orb_true_r|]. destruct (decide (n = 1)) as [->|]; [cbn; by rewrite !andb_false_r|].
  rewrite (Z.bits_above_log2 3 n), (Z.bits_above_log2 1 n) by (cbn; lia). by rewrite andb_false_r.
Qed.

(** The state in which hart [h] enters [main]. *)
Record started (h : Z) (m m' : mach) : Prop := {
  st_mode : m_mode m' = Supervisor;
  st_tp : m_reg m' tp = h;
  st_regs : forall r, r <> tp -> m_reg m' r = m_reg m r;
  st_satp : m_csr m' satp = 0;
  st_deleg : m_csr m' medeleg = 0xffff /\ m_csr m' mideleg = 0xffff;
  st_sie : forall n, n = 9 \/ n = 5 \/ n = 1 -> Z.testbit (m_csr m' sie) n = true;
  st_pmp : m_csr m' pmpaddr0 = 0x3fffffffffffff /\ m_csr m' pmpcfg0 = 0xf;
  st_timer : Z.testbit (m_csr m' mstatus) 3 = true /\ Z.testbit (m_csr m' mie) 7 = true /\ m_csr m' mtvec = timervec_addr;
  st_scratch : m_csr m' mscratch = timer_scratch + 40 * h;
  st_cmp : ld64 (m_mem m') (CLINT_MTIMECMP h) = u64 (ld64 (m_mem m) CLINT_MTIME + 1000000);
  st_words : ld64 (m_mem m') (timer_scratch + 40 * h + 24) = CLINT_MTIMECMP h /\ ld64 (m_mem m') (timer_scratch + 40 * h + 32) = 1000000
}.

Ltac fresh_csr := apply (bool_decide_unpack _); vm_compute; exact I.
Ltac mstep := refine (eq_trans (bind_Ret _ _ _ _ _ _) _); [reflexivity|]; asm_red.

Lemma timerinit_run m h : m_csr m mhartid = h -> 0 <= h < 8 ->
  exists m', timerinit m = Ret tt m' /\ m_reg m' = m_reg m /\ m_mode m' = m_mode m /\
    m_mem m' = st64 (st64 (st64 (m_mem m) (CLINT_MTIMECMP h) (u64 (ld64 (m_mem m) CLINT_MTIME + 1000000)))
      (timer_scratch + 40 * h + 24) (CLINT_MTIMECMP h)) (timer_scratch + 40 * h + 32) 1000000 /\
    m_csr m' mscratch = timer_scratch + 40 * h /\ m_csr m' mtvec = timervec_addr /\
    m_csr m' mstatus = Z.lor (m_csr m mstatus) MSTATUS_MIE /\ m_csr m' mie = Z.lor (m_csr m mie) MIE_MTIE /\
    (forall c, c ∉ [mscratch; mtvec; mstatus; mie] -> m_csr m' c = m_csr m c).
Proof.
  intros Hh Hr. destruct m as [R C F D]. cbn [m_csr m_reg m_mem m_mode] in *. eexists. split.
  - unfold timerinit, r_mhartid, r_csr, w_mscratch, w_mtvec, r_mstatus, w_mstatus, r_mie, w_mie, w_csr. mstep. rewrite Hh, (i32_small h) by lia.
    do 7 mstep. mstep. unfold modify. asm_red. reflexivity.
  - asm_red. split; [done|]. split; [done|]. split; [done|]. split; [done|]. split; [done|]. split; [done|]. split; [done|].
    intros c Hc. rewrite !not_elem_of_cons in Hc. destruct Hc as (? & ? & ? & ? & _). rewrite !fn_lookup_insert_ne by congruence. done.
Qed.

Lemma start_run m h : m_csr m mhartid = h -> 0 <= h < 8 ->
  CLINT_MTIME + 8 <= timer_scratch -> timer_scratch + 320 <= 2 ^ 64 ->
  exists m', start m = Ret main_addr m' /\ started h m m'.
Proof.
  intros Hh Hr Hts Hts2.
  assert (Hpre : exists m1, start m = (timerinit ;;; h <- r_mhartid ;; w_tp (u64 (i32 h)) ;;; mret) m1 /\
    m_reg m1 = m_reg m /\ m_mem m1 = m_mem m /\ m_csr m1 mstatus = Z.lor (Z.land (m_csr m mstatus) (Z.lnot MSTATUS_MPP_MASK)) MSTATUS_MPP_S /\
    m_csr m1 mepc = main_addr /\ m_csr m1 satp = 0 /\ m_csr m1 medeleg = 0xffff /\ m_csr m1 mideleg = 0xffff /\
    m_csr m1 sie = Z.lor (Z.lor (Z.lor (m_csr m sie) SIE_SEIE) SIE_STIE) SIE_SSIE /\ m_csr m1 pmpaddr0 = 0x3fffffffffffff /\ m_csr m1 pmpcfg0 = 0xf /\ m_csr m1 mhartid = h).
  { destruct m as [R C F D]. cbn [m_csr m_reg m_mem m_mode] in *. eexists. split.
    - unfold start at 1. unfold r_mstatus, w_mstatus, w_mepc, w_satp, w_medeleg, w_mideleg, r_sie, w_sie, w_pmpaddr0, w_pmpcfg0, r_csr, w_csr. do 10 mstep. reflexivity.
    - asm_red. done. }
  destruct Hpre as (m1 & E1 & K1 & K2 & K3 & K4 & K5 & K6 & K7 & K8 & K9 & K10 & K11).
  destruct (timerinit_run m1 h K11 Hr) as (m2 & E2 & L1 & L2 & L3 & L4 & L5 & L6 & L7 & L8).
  assert (Hh2 : m_csr m2 mhartid = h) by (rewrite L8; [done|fresh_csr]).
  eexists. split.
  - rewrite E1, (bind_Ret _ _ _ _ _ E2). refine (eq_trans (bind_Ret _ _ _ _ _ _) _); [reflexivity|]. refine (eq_trans (bind_Ret _ _ _ _ _ _) _); [reflexivity|].
    unfold mret. refine (eq_trans (bind_Ret _ _ _ _ _ _) _); [reflexivity|]. unfold gets. asm_red. rewrite L8 by fresh_csr. rewrite K4. reflexivity.
  - assert (Hms : m_csr m2 mstatus = Z.lor (Z.lor (Z.land (m_csr m mstatus) (Z.lnot MSTATUS_MPP_MASK)) MSTATUS_MPP_S) MSTATUS_MIE) by by rewrite L6, K3.
    assert (Hc : CLINT_MTIMECMP h + 8 <= CLINT_MTIME /\ 0 <= CLINT_MTIMECMP h) by (unfold CLINT_MTIMECMP, CLINT_MTIME, CLINT; lia).
    assert (Hm2 : CLINT_MTIME = 33603576) by reflexivity.
    split; asm_red.
    + rewrite Hms. apply mpp_supervisor.
    + rewrite Hh2, i32_small, u64_small by lia. done.
    + intros r Hne. rewrite fn_lookup_insert_ne by congruence. by rewrite L1, K1.
    + rewrite L8 by fresh_csr. done.
    + rewrite !L8 by fresh_csr. done.
    + intros n Hn. rewrite L8 by fresh_csr. rewrite K8, !Z.lor_spec. unfold SIE_SEIE, SIE_STIE, SIE_SSIE. destruct Hn as [-> | [-> | ->]]; by rewrite ?orb_true_r.
    + rewrite !L8 by fresh_csr. done.
    + rewrite Hms, L7, !Z.lor_spec, L5. split; [apply orb_true_r|]. split; [apply orb_true_r|done].
    + done.
    + rewrite L3, K2, !ld64_st64_other by lia. apply ld64_st64_same. apply u64_range.
    + rewrite L3. split; [rewrite ld64_st64_other by lia; apply ld64_st64_same; lia|apply ld64_st64_same; lia].
Qed.

(** C29: the timer. [start] takes a hart from machine mode to [main] in
    supervisor mode, with paging off, all traps delegated, its number in [tp]
    and the timer running; and from then on, whatever the hart does in between
    as long as the scratch area stays, the timer interrupt schedules the next
    one a fixed interval later, tells the kernel with a software interrupt and
    keeps all registers. *)
Theorem start_timer m h : m_csr m mhartid = h -> 0 <= h < 8 ->
  CLINT_MTIME + 8 <= timer_scratch -> timer_scratch + 320 <= 2 ^ 64 ->
  exists m1, start m = Ret main_addr m1 /\ started h m m1 /\
    forall m2, m_mode m2 = Machine -> regs_ok m2 -> m_csr m2 mscratch = m_csr m1 mscratch ->
      (forall a, m_csr m1 mscratch + 24 <= a < m_csr m1 mscratch + 40 -> m_mem m2 a = m_mem m1 a) ->
      exists m3, timervec m2 = Ret (m_csr m2 mepc) m3 /\ (forall r, m_reg m3 r = m_reg m2 r) /\
        ld64 (m_mem m3) (CLINT_MTIMECMP h) = u64 (ld64 (m_mem m2) (CLINT_MTIMECMP h) + 1000000) /\ m_csr m3 sip = 2 /\
        m_csr m3 mscratch = m_csr m1 mscratch /\ m_mode m3 = mpp (m_csr m2 mstatus).
Proof.
  intros Hh Hr Hts Hts2. destruct (start_run m h Hh Hr Hts Hts2) as (m1 & E1 & H1). exists m1. split; [done|]. split; [done|].
  intros m2 Hm2 Hr2 Hsc Hw. rewrite (st_scratch _ _ _ H1) in Hsc, Hw. destruct (st_words _ _ _ H1) as [W1 W2].
  assert (E24 : ld64 (m_mem m2) (timer_scratch + 40 * h + 24) = CLINT_MTIMECMP h) by (rewrite <- W1; apply ld_ext; intros a Ha; apply Hw; lia).
  assert (E32 : ld64 (m_mem m2) (timer_scratch + 40 * h + 32) = 1000000) by (rewrite <- W2; apply ld_ext; intros a Ha; apply Hw; lia).
  assert (Hc : CLINT_MTIMECMP h + 8 <= CLINT_MTIME /\ 0 <= CLINT_MTIMECMP h) by (unfold CLINT_MTIMECMP, CLINT_MTIME, CLINT; lia).
  assert (Hmt : CLINT_MTIME = 33603576) by reflexivity.
  destruct (timervec_run m2 Hm2 Hr2) as (m3 & E3 & T1 & T2 & _ & T4 & T5 & T6); rewrite ?Hsc, ?E24; [lia|lia|lia|lia|].
  exists m3. split; [done|]. split; [done|]. rewrite Hsc, E24, E32 in T2. split; [done|]. split; [done|]. split; [|done].
  rewrite T5 by done. by rewrite Hsc, (st_scratch _ _ _ H1).
Qed.
End Start.

Module StartWitness.
#[local] Instance no_mmu : Mmu := {| translate := fun _ va => Some va; translate_off := fun va => eq_refl |}.

(** Hart 3 at reset, with the timer at 77. *)
Definition reset : mach := mkMach (fun _ => 0) (fun c => match c with mhartid => 3 | _ => 0 end) (st64 (fun _ => 0) CLINT_MTIME 77) Machine.

Lemma start_timer_witness : exists m1, start 0x80000e00 0x80001000 0x80009000 reset = Ret 0x80000e00 m1 /\ started 0x80001000 0x80009000 3 reset m1 /\
  exists m3, timervec (set_mode Machine m1) = Ret (m_csr m1 mepc) m3 /\ m_csr m3 sip = 2.
Proof.
  destruct (start_timer 0x80000e00 0x80001000 0x80009000 reset 3 eq_refl ltac:(lia) ltac:(done) ltac:(done)) as (m1 & E1 & H1 & H2). exists m1. split; [exact E1|]. split; [exact H1|].
  destruct (H2 (set_mode Machine m1)) as (m3 & E3 & _ & _ & Hs & _); [done| |done|done|by exists m3].
  intros r. change (m_reg (set_mode Machine m1) r) with (m_reg m1 r). destruct (decide (r = tp)) as [->|Hne]; [rewrite (st_tp _ _ _ _ _ H1); lia|].
  rewrite (st_regs _ _ _ _ _ H1 r Hne). cbn. lia.
Defined.
End StartWitness.
