(* ===== verification/FirstProc.v ===== *)
(** * The first process

    [userinit] of kernel/proc.c with what it calls: [allocproc],
    [proc_pagetable], [uvminit], [namei], [enqueue_at_tail], from the state in
    which [main] calls it. *)

From S2P Require Import Prelude Machine State CString Kalloc Vm VmFacts VmUser VmKernel Printf Sched Block Bio Uio Fs FsFacts Proc.

Section FirstProc.
Context `{LAY : Layout} `{DD : DiskDriver}.

(** ** Page tables, as the rest of the state changes *)

Lemma kspace_same m0 s s' root fl0 fl A xs :
  kspace m0 s root fl0 fl A xs -> k_mem s' = k_mem s -> k_freelist s' = k_freelist s -> kspace m0 s' root fl0 fl A xs.
Proof.
  intros [K1 K2 K3 K4 K5 K6] Hm Hf. split; rewrite ?Hm; try done. unfold vm_inv, tree_ok, free_pages in *. by rewrite Hm, Hf.
Qed.

(** Seen from a memory before, with more pages free. *)
Lemma kspace_before m00 m0 s root fl00 fl0 fl A xs :
  kspace m0 s root fl0 fl A xs -> (forall x, x ∈ fl0 -> x ∈ fl00) -> (forall q, aligned q -> q ∉ fl00 -> same_page m00 m0 q) -> kspace m00 s root fl00 fl A xs.
Proof.
  intros [K1 K2 K3 K4 K5 [K6 K7]] Hs Hp. split; auto.
  - intros q Hq Hn. eapply same_page_trans; [by apply Hp|]. apply K5; [done|]. auto.
  - split; [done|]. eapply Forall_impl; [exact K7|]. intros x (X1 & X2). auto.
Qed.

Lemma kspace_add m0 s root fl0 fl A xs x : kspace m0 s root fl0 fl A xs -> x ∈ fl0 -> x ∉ fl -> x ∉ tables (k_mem s) 2 root -> x ∉ xs -> kspace m0 s root fl0 fl A (x :: xs).
Proof. intros [K1 K2 K3 K4 K5 [K6 K7]] H1 H2 H3 H4. split; try done. split; [by apply NoDup_cons|]. apply Forall_cons. done. Qed.

(** Writing to a page in use. *)
Lemma kspace_touch m0 s root fl0 fl A xs x m' : kspace m0 s root fl0 fl A xs -> x ∈ xs ->
  (forall q, aligned q -> q <> x -> same_page (k_mem s) m' q) -> kspace m0 (set_k_mem m' s) root fl0 fl A xs.
Proof.
  intros [K1 K2 K3 K4 K5 [K6 K7]] Hx Hm. destruct (proj1 (Forall_forall _ _) K7 x Hx) as (X1 & X2 & X3).
  destruct (tree_ok_facts _ _ _ _ K1) as (Hf & Hnd & Hpo & Hal & Hpl & Hdis). rewrite Forall_forall in Hal.
  assert (Htab : forall p, p ∈ tables (k_mem s) 2 root -> same_page (k_mem s) m' p) by (intros p Hp; apply Hm; [auto|by intros ->]).
  pose proof (tables_frame _ _ _ _ Htab) as HT. split; kred; rewrite ?HT; try done.
  - unfold vm_inv, tree_ok. kred. rewrite HT. destruct K1 as (_ & K1). split; [|done]. eapply free_pages_frame; [exact Hf|done|].
    intros y a Hy Ha. kred. destruct Hf as (_ & _ & Hok). rewrite Forall_forall in Hok. apply (Hm y); [by apply page_ok_aligned, Hok|by intros ->|done].
  - intros vpn Hv. rewrite <- (K4 vpn Hv). unfold aspace. by apply pte_of_frame.
  - intros q Hq Hn. eapply same_page_trans; [by apply K5|]. apply Hm; [done|by intros ->].
Qed.

(** A page table is kept when only free pages change. *)
Lemma kspace_keep m0 s root fl0 fl A xs m' : kspace m0 s root fl0 fl A xs -> (forall q, aligned q -> q ∉ fl -> same_page (k_mem s) m' q) ->
  forall vpn, vpn_ok vpn -> aspace m' root vpn = A vpn.
Proof.
  intros [K1 K2 K3 K4 K5 [K6 K7]] Hm vpn Hv. rewrite <- (K4 vpn Hv). destruct (tree_ok_facts _ _ _ _ K1) as (_ & _ & _ & Hal & _ & Hdis). rewrite Forall_forall in Hal.
  unfold aspace. apply pte_of_frame. intros q Hq. apply Hm; auto.
Qed.

(** ** [proc_pagetable] *)

(** The trampoline and, below it, the trap frame. *)
Definition proc_map (tf : Z) : Z -> Z :=
  map_range (map_range (fun _ => 0) 67108863 1 trampoline (Z.lor PTE_R PTE_X)) 67108862 1 tf (Z.lor PTE_R PTE_W).

Lemma perms_ok : 0 <= Z.lor PTE_R PTE_W < 1024 /\ 0 <= Z.lor PTE_R PTE_X < 1024 /\ 0 <= Z.lor (Z.lor (Z.lor PTE_W PTE_R) PTE_X) PTE_U < 1024.
Proof. vm_compute. intuition congruence. Qed.

Lemma proc_pagetable_run p pr s x fl :
  free_pages s (x :: fl) -> Lk_kmem ∉ k_held s -> k_proc s !! p = Some pr -> 0 <= p_trapframe pr < PHYSTOP -> (4 <= length fl)%nat ->
  exists s' fl', proc_pagetable p s = Ret x s' /\ x <> 0 /\ same_but_mem s s' /\ kspace (k_mem s) s' x (x :: fl) fl' (proc_map (p_trapframe pr)) [] /\ (length fl <= length fl' + 4)%nat.
Proof.
  intros Hf Hlk Hpr Htf Hl. pose proof layout_ok as Hlay. destruct perms_ok as (P1 & P2 & _). destruct (kspace_start s x fl Hf Hlk) as (s1 & s2 & E1 & E2 & B2 & K2).
  assert (Hnz : x <> 0) by (destruct Hf as (_ & _ & Hok); apply Forall_cons in Hok as [Hok _]; by apply page_ok_nonzero).
  assert (Hl2 : Lk_kmem ∉ k_held s2) by by rewrite (same_but_mem_held _ _ B2).
  destruct (mappages_pages _ _ _ _ _ _ _ 67108863 1 trampoline TRAMPOLINE PGSIZE (Z.lor PTE_R PTE_X) 1 K2 Hl2) as (s3 & fl3 & E3 & B3 & K3 & L3);
    try done; try (unfold PHYSTOP, KERNBASE, PGSIZE in *; lia).
  assert (Hl3 : Lk_kmem ∉ k_held s3) by by rewrite (same_but_mem_held _ _ B3).
  destruct (mappages_pages _ _ _ _ _ _ _ 67108862 1 (p_trapframe pr) TRAPFRAME PGSIZE (Z.lor PTE_R PTE_W) 1 K3 Hl3) as (s4 & fl4 & E4 & B4 & K4 & L4);
    try done; try (unfold PHYSTOP, KERNBASE, PGSIZE in *; lia).
  { intros vpn Hv. unfold map_range. repeat (case_match; try lia); done. }
  assert (B13 : same_but_mem s s3) by by eapply same_but_mem_trans.
  exists s4, fl4. split; [|split; [done|split; [by eapply same_but_mem_trans|split; [exact K4|lia]]]].
  assert (Eu : uvmcreate s = Ret x s2) by (unfold uvmcreate; rewrite (bind_Ret _ _ _ _ _ E1); destruct (Z.eqb_spec x 0); [done|]; by rewrite (bind_Ret _ _ _ _ _ E2)).
  assert (Eg : get_proc p s3 = Ret pr s3) by (unfold get_proc; rewrite B13; kred; by rewrite Hpr).
  unfold proc_pagetable. rewrite (bind_Ret _ _ _ _ _ Eu). destruct (Z.eqb_spec x 0); [done|]. rewrite (bind_Ret _ _ _ _ _ E3). cbn [Z.ltb Z.compare].
  rewrite (bind_Ret _ _ _ _ _ Eg), (bind_Ret _ _ _ _ _ E4). done.
Qed.

(** ** [allocproc] *)

(** The process that [allocproc] makes of an unused one. *)
Definition alloced_proc (pr : proc) (pid tf pt : Z) : proc :=
  set_p_context (mkContext forkret_addr (p_kstack pr + PGSIZE) (replicate 12 0)) (set_p_pagetable pt (set_p_trapframe tf
    (set_p_next None (set_p_yielded 0 (set_p_tsticks TSTICKSHIGH (set_p_timeslice TSTICKSHIGH
      (set_p_priority HIGH (set_p_cputime 0 (set_p_state USED (set_p_pid pid pr)))))))))).

Definition with_proc (p : proc) (ps : list proc) (s : kstate) : kstate :=
  set_k_held [Lk_proc 0] (set_k_nextpid (i32 (k_nextpid s + 1)) (set_k_proc (p :: ps) s)).

Lemma find_unused_run s pr ps : k_held s = [] -> k_proc s = pr :: ps -> p_state pr = UNUSED ->
  find_unused s = Ret (Some 0%nat) (set_k_held [Lk_proc 0] s).
Proof.
  intros Hh Hp Hu. unfold find_unused. change (seq 0 NPROC) with (0 :: seq 1 63)%nat. cbn [for_each].
  assert (E : (acquire (Lk_proc 0) ;;; pr0 <- get_proc 0 ;; if decide (p_state pr0 = UNUSED) then ret (Some 0%nat) else release (Lk_proc 0) ;;; ret None) s = Ret (Some 0%nat) (set_k_held [Lk_proc 0] s)).
  { assert (Hin : Lk_proc 0 ∉ k_held s) by (rewrite Hh; apply not_elem_of_nil). krun. rewrite Hh. unfold get_proc. unfold bind. kred. rewrite Hp. change ((pr :: ps) !! 0%nat) with (Some pr). cbv iota beta. cbn [bindO]. by destruct (decide (p_state pr = UNUSED)). }
  by rewrite (bind_Ret _ _ _ _ _ E).
Qed.

Lemma allocproc_run s pr ps tf x fl :
  k_held s = [] -> k_proc s = pr :: ps -> p_state pr = UNUSED -> free_pages s (tf :: x :: fl) -> (4 <= length fl)%nat ->
  exists s' fl', allocproc s = Ret (Some 0%nat) s' /\ same_but_mem (with_proc (alloced_proc pr (k_nextpid s) tf x) ps s) s' /\
    kspace (k_mem s) s' x (tf :: x :: fl) fl' (proc_map tf) [tf] /\ (length fl <= length fl' + 4)%nat.
Proof.
  intros Hh Hp Hu Hf Hl.
  set (pr1 := set_p_next None (set_p_yielded 0 (set_p_tsticks TSTICKSHIGH (set_p_timeslice TSTICKSHIGH
      (set_p_priority HIGH (set_p_cputime 0 (set_p_state USED (set_p_pid (k_nextpid s) pr)))))))).
  set (s1 := with_proc pr1 ps s).
  assert (Hf1 : free_pages s1 (tf :: x :: fl)) by exact Hf.
  assert (Hk1 : Lk_kmem ∉ k_held s1) by (intros Hin; by apply list_elem_of_singleton in Hin).
  destruct (alloc_zeroed s1 tf (x :: fl) Hf1 Hk1) as (Ea & Hnz & _). set (s2 := kalloc_state tf s1).
  assert (Hpt : page_ok tf) by (destruct Hf as (_ & _ & Hok); by apply Forall_cons in Hok as [Hok _]).
  set (pr2 := set_p_trapframe tf pr1). set (s3 := set_k_proc (pr2 :: ps) s2).
  assert (Hf3 : free_pages s3 (x :: fl)) by exact (free_pages_alloc s1 tf (x :: fl) Hf1).
  destruct (proc_pagetable_run 0 pr2 s3 x fl Hf3 Hk1 eq_refl) as (s4 & fl4 & E4 & Hx & B4 & K4 & L4); [|done|].
  { change (p_trapframe pr2) with tf. destruct Hpt as [_ Hpt]. pose proof layout_ok as Hlay. unfold PHYSTOP, KERNBASE in *. lia. }
  set (pr4 := alloced_proc pr (k_nextpid s) tf x). set (s5 := set_k_proc (pr4 :: ps) s4).
  exists s5, fl4. split; [|split; [|split; [|done]]].
  - unfold allocproc. rewrite (bind_Ret _ _ _ _ _ (find_unused_run s pr ps Hh Hp Hu)).
    assert (Eq : allocpid (set_k_held [Lk_proc 0] s) = Ret (k_nextpid s) (set_k_held [Lk_proc 0] (set_k_nextpid (i32 (k_nextpid s + 1)) s))).
    { unfold allocpid. krun. kdone. }
    rewrite (bind_Ret _ _ _ _ _ Eq). unfold upd_proc. krun. rewrite Hp. cbn [alter list_alter].
    match goal with |- bind kalloc _ ?t = _ => change t with s1 end. rewrite (bind_Ret _ _ _ _ _ Ea). krun.
    match goal with |- context [alter ?f 0%nat ?l] => change (alter f 0%nat l) with (pr2 :: ps) end.
    fold s2. fold s3. destruct (Z.eqb_spec tf 0); [done|]. rewrite (bind_Ret _ _ _ _ _ E4). krun. destruct (Z.eqb_spec x 0); [done|]. krun.
    assert (Hps : k_proc s4 = pr2 :: ps) by (rewrite B4; reflexivity). rewrite Hps.
    assert (Hk : p_kstack (set_p_pagetable x pr2) = p_kstack pr) by reflexivity. cbn [alter list_alter]. rewrite Hk. unfold s5, pr4, alloced_proc, pr2, pr1. reflexivity.
  - unfold s5, same_but_mem in *. rewrite B4. kflat. unfold s3, s2, s1, with_proc, kalloc_state. kflat. by destruct s.
  - apply kspace_same with s4; [|done|done]. apply kspace_add.
    + eapply kspace_before; [exact K4|intros y Hy; apply elem_of_cons; by right|]. intros q Hq Hn. apply (fill_same_page (k_mem s) tf 5 q); [by apply page_ok_aligned|done|]. intros ->. apply Hn, elem_of_cons. by left.
    + apply elem_of_cons. by left.
    + intros Hin. apply (ks_sub _ _ _ _ _ _ _ K4) in Hin. destruct Hf as (_ & Hnd & _). by apply NoDup_cons in Hnd as [? _].
    + intros Hin. apply (ks_tables _ _ _ _ _ _ _ K4) in Hin. destruct Hf as (_ & Hnd & _). by apply NoDup_cons in Hnd as [? _].
    + apply not_elem_of_nil.
Qed.

(** ** [uvminit] *)

Definition user_perm : Z := Z.lor (Z.lor (Z.lor PTE_W PTE_R) PTE_X) PTE_U.

(** The page holds [src] and zeros. *)
Definition page_holds (m : memory) (y : Z) (src : list Z) : Prop :=
  forall i, 0 <= i < PGSIZE -> m (y + i) = nth (Z.to_nat i) src 0.

Lemma kspace_restart m0 s root fl0 fl A xs : kspace m0 s root fl0 fl A xs -> kspace (k_mem s) s root (tables (k_mem s) 2 root ++ fl) fl A [].
Proof.
  intros [K1 K2 K3 K4 K5 [K6 K7]]. split; try done.
  - intros x Hx. apply elem_of_app. by right.
  - intros x Hx. apply elem_of_app. by left.
  - split; [constructor|by apply Forall_nil].
Qed.

Lemma kspace_xs m0 s root fl0 fl A xs x : kspace m0 s root fl0 fl A xs -> x ∈ xs -> x ∉ tables (k_mem s) 2 root ++ fl.
Proof. intros K Hx. destruct (ks_xs _ _ _ _ _ _ _ K) as [_ Hxs]. rewrite Forall_forall in Hxs. destruct (Hxs x Hx) as (_ & X2 & X3). intros [H|H]%elem_of_app; done. Qed.

Lemma wrbytes_page m y src q : page_ok y -> aligned q -> q <> y -> Z.of_nat (length src) <= PGSIZE -> same_page m (wrbytes m y src) q.
Proof.
  intros Hy Hq Hne Hl a Ha. apply wrbytes_outside. pose proof (page_ok_aligned _ Hy) as Hay. unfold aligned, PGSIZE in *. Z.div_mod_to_equations. lia.
Qed.

Lemma uvminit_run m0 s root fl0 y fl A xs src :
  kspace m0 s root fl0 (y :: fl) A xs -> Lk_kmem ∉ k_held s -> A 0 = 0 -> (2 <= length fl)%nat -> Z.of_nat (length src) < PGSIZE ->
  exists s' fl', uvminit root src s = Ret tt s' /\ same_but_mem s s' /\ page_ok y /\ kspace m0 s' root fl0 fl' (map_range A 0 1 y user_perm) (xs ++ [y]) /\
    page_holds (k_mem s') y src /\ (length fl <= length fl' + 2)%nat.
Proof.
  intros K Hlk HA Hl Hsrc. pose proof layout_ok as Hlay. destruct perms_ok as (_ & _ & P3). destruct (kspace_take _ _ _ _ _ _ _ _ K Hlk) as (s1 & E1 & B1 & Hnz & Hpy & K1).
  pose proof (page_ok_aligned _ Hpy) as Hay. set (s2 := set_k_mem (fill (k_mem s1) y 0 PGSIZE) s1).
  assert (Hyx : y ∈ xs ++ [y]) by (apply elem_of_app; right; by apply list_elem_of_singleton).
  assert (K2 : kspace m0 s2 root fl0 fl A (xs ++ [y])) by (apply (kspace_touch _ _ _ _ _ _ _ y); [done|done|intros q Hq Hne; by apply fill_same_page]).
  assert (B2 : same_but_mem s s2) by (eapply same_but_mem_trans; [exact B1|]; unfold same_but_mem, s2; by destruct s1).
  assert (Hk2 : Lk_kmem ∉ k_held s2) by by rewrite (same_but_mem_held _ _ B2).
  assert (Hpa : 0 <= y /\ y + PGSIZE + PGSIZE < 2 ^ 56) by (destruct Hpy; unfold PHYSTOP, KERNBASE, PGSIZE in *; lia).
  assert (HA0 : forall vpn, 0 <= vpn < 0 + 1 -> A vpn = 0) by (intros vpn Hv; by replace vpn with 0 by lia).
  destruct (mappages_pages _ _ _ _ _ _ _ 0 1 y 0 PGSIZE user_perm 1 K2 Hk2) as (s3 & fl3 & E3 & B3 & K3 & L3); try done; try lia.
  destruct (mappages_pages _ _ _ _ _ _ _ 0 1 y 0 PGSIZE user_perm 1 (kspace_restart _ _ _ _ _ _ _ K2) Hk2) as (s3' & fl3' & E3' & _ & K3' & _); try done; try lia.
  rewrite E3 in E3'. injection E3' as <-. set (s4 := set_k_mem (wrbytes (k_mem s3) y src) s3).
  exists s4, fl3. split; [|split; [|split; [done|split; [|split; [|lia]]]]].
  - unfold uvminit. destruct (Z.geb_spec (Z.of_nat (length src)) PGSIZE); [lia|]. rewrite (bind_Ret _ _ _ _ _ E1).
    assert (Em : kmemset y 0 PGSIZE s1 = Ret tt s2) by reflexivity. rewrite (bind_Ret _ _ _ _ _ Em). by rewrite (bind_Ret _ _ _ _ _ E3).
  - eapply same_but_mem_trans; [exact B2|]. eapply same_but_mem_trans; [exact B3|]. unfold same_but_mem, s4. by destruct s3.
  - apply (kspace_touch _ _ _ _ _ _ _ y); [done|done|]. intros q Hq Hne. apply wrbytes_page; [done..|lia].
  - intros i Hi. unfold s4. kred. destruct (decide (i < Z.of_nat (length src))) as [Hlt|Hge].
    + rewrite wrbytes_inside by lia. by replace (y + i - y) with i by lia.
    + rewrite wrbytes_outside by lia. rewrite nth_overflow by lia.
      rewrite (ks_pages _ _ _ _ _ _ _ K3' y Hay (kspace_xs _ _ _ _ _ _ _ _ K2 Hyx)) by lia. unfold s2. kred. rewrite fill_inside by lia. reflexivity.
Qed.

(** ** [userinit] *)

Lemma safestrcpy_initcode s : safestrcpy_buf (replicate 16 0) str_initcode 16 s = Ret (str_initcode ++ replicate 8 0) s.
Proof. reflexivity. Qed.

(** An empty inode table gives its first entry to the root directory. *)
Lemma namei_root junk s ino : fs_inode (k_fs s) = inode0 :: ino -> Forall (fun i => i_ref i = 0) ino -> length ino = 49%nat -> Lk_itable ∉ k_held s ->
  namei junk str_root s = Ret (Some 0%nat) (with_inodes (set_i_valid 0 (set_i_ref 1 (set_i_inum ROOTINO (set_i_dev ROOTDEV inode0))) :: ino) s).
Proof.
  intros Hi Hr Hlen Hlk.
  assert (Eg : iget ROOTDEV ROOTINO s = Ret 0%nat (with_inodes (set_i_valid 0 (set_i_ref 1 (set_i_inum ROOTINO (set_i_dev ROOTDEV inode0))) :: ino) s)).
  { rewrite (iget_run ROOTDEV ROOTINO s _ Hi); [|by cbn [length]; rewrite Hlen|done]. unfold iget_tab.
    assert (E : first (holds ROOTDEV ROOTINO) (inode0 :: ino) = None).
    { apply first_None. apply Forall_cons. split; [reflexivity|]. eapply Forall_impl; [exact Hr|]. intros i Hz. unfold holds. rewrite Hz. reflexivity. }
    rewrite E. reflexivity. }
  unfold namei, namex. change (nth 0 str_root 0 =? SLASH) with true. cbv iota.
  rewrite (bind_Ret _ _ _ (Some 0%nat, junk) (with_inodes (set_i_valid 0 (set_i_ref 1 (set_i_inum ROOTINO (set_i_dev ROOTDEV inode0))) :: ino) s)); [done|].
  refine (eq_trans (bind_Ret _ _ _ _ _ Eg) _). apply loop_runs with 1%nat; [|lia]. by apply runs_done.
Qed.

(** The first process before it is queued. *)
Definition first_proc (pr : proc) (pid tf pt : Z) : proc :=
  set_p_state RUNNABLE (set_p_cwd (Some 0%nat) (set_p_name (str_initcode ++ replicate 8 0)
    (set_p_sz PGSIZE (set_p_cur_max (MAXVA - 2 * PGSIZE) (alloced_proc pr pid tf pt))))).

(** The state in which [userinit] is called. *)
Record before_userinit (s : kstate) (pr : proc) (ps : list proc) (ino : list inode) : Prop := {
  bu_held : k_held s = [];
  bu_proc : k_proc s = pr :: ps;
  bu_len : length ps = 63%nat;
  bu_unused : p_state pr = UNUSED;
  bu_name : p_name pr = replicate 16 0;
  bu_next : Forall (fun p => p_next p = None) ps;
  bu_prio : Forall (fun p => p_priority p = 0) ps;
  bu_queue : exists a b c, k_queue s = [mkQueue a None None; mkQueue b None None; mkQueue c None None];
  bu_inode : fs_inode (k_fs s) = inode0 :: ino;
  bu_ino : length ino = 49%nat /\ Forall (fun i => i_ref i = 0) ino
}.

Lemma st64_page m tf o v q : page_ok tf -> 0 <= o <= PGSIZE - 8 -> aligned q -> q <> tf -> same_page m (st64 m (tf + o) v) q.
Proof. intros Hp Ho Hq Hne. pose proof (page_ok_aligned _ Hp). apply st64_same_page with tf; try done; unfold PGSIZE in *; lia. Qed.

(** What is called before the name is looked up. *)
Lemma userinit_memory s pr ps ino fl (rest : nat -> proc -> K unit) : before_userinit s pr ps ino -> free_pages s fl -> (9 <= length fl)%nat ->
  exists s' fl' tf pt y, (r <- allocproc ;;
    modify (set_k_initproc r) ;;;
    match r with
    | None => undefined
    | Some p =>
      upd_proc p (set_p_cur_max (MAXVA - 2 * PGSIZE)) ;;;
      pr <- get_proc p ;;
      uvminit (p_pagetable pr) initcode ;;;
      upd_proc p (set_p_sz PGSIZE) ;;;
      store64 (p_trapframe pr + TF_epc) 0 ;;;
      store64 (p_trapframe pr + TF_sp) PGSIZE ;;;
      rest p pr
    end) s = rest 0%nat (set_p_cur_max (MAXVA - 2 * PGSIZE) (alloced_proc pr (k_nextpid s) tf pt)) s' /\
    same_but_mem (set_k_initproc (Some 0%nat) (with_proc (set_p_sz PGSIZE (set_p_cur_max (MAXVA - 2 * PGSIZE) (alloced_proc pr (k_nextpid s) tf pt))) ps s)) s' /\
    kspace (k_mem s) s' pt fl fl' (map_range (proc_map tf) 0 1 y user_perm) [tf; y] /\
    ld64 (k_mem s') (tf + TF_epc) = 0 /\ ld64 (k_mem s') (tf + TF_sp) = PGSIZE /\ page_holds (k_mem s') y initcode /\ (length fl <= length fl' + 9)%nat.
Proof.
  intros [Hh Hp Hl Hu Hn _ _ _ _] Hf Hlen. destruct fl as [|tf [|x fl]]; [simpl in Hlen; lia..|].
  destruct (allocproc_run s pr ps tf x fl Hh Hp Hu Hf) as (s1 & fl1 & E1 & B1 & K1 & L1); [simpl in Hlen; lia|].
  assert (Htf : page_ok tf) by (destruct Hf as (_ & _ & Hok); by apply Forall_cons in Hok as [Hok _]).
  set (P := set_p_cur_max (MAXVA - 2 * PGSIZE) (alloced_proc pr (k_nextpid s) tf x)).
  set (s2 := set_k_proc (P :: ps) (set_k_initproc (Some 0%nat) s1)).
  assert (Hk2 : Lk_kmem ∉ k_held s2) by (unfold s2; kred; rewrite B1; intros Hin; by apply list_elem_of_singleton in Hin).
  assert (K2 : kspace (k_mem s) s2 x (tf :: x :: fl) fl1 (proc_map tf) [tf]) by by apply kspace_same with s1.
  destruct fl1 as [|y fl1]; [simpl in *; lia|].
  destruct (uvminit_run _ _ _ _ _ _ _ _ initcode K2 Hk2) as (s3 & fl3 & E3 & B3 & Hpy & K3 & Hy & L3); [|simpl in *; lia|by vm_compute|].
  { unfold proc_map, map_range. repeat (case_match; try lia); done. }
  set (P' := set_p_sz PGSIZE P). set (s4 := set_k_proc (P' :: ps) s3).
  set (m5 := st64 (st64 (k_mem s3) (tf + TF_epc) 0) (tf + TF_sp) PGSIZE). set (s5 := set_k_mem m5 s4).
  assert (Hyt : y <> tf).
  { destruct (ks_xs _ _ _ _ _ _ _ K3) as [Hnd _]. intros ->. apply NoDup_app in Hnd as (_ & Hnd & _). by apply (Hnd tf); apply list_elem_of_singleton. }
  assert (Hm5 : forall q, aligned q -> q <> tf -> same_page (k_mem s3) m5 q) by (intros q Hq Hne; eapply same_page_trans; apply st64_page; done).
  exists s5, fl3, tf, x, y. split; [|split; [|split; [|split; [|split; [|split]]]]].
  - refine (eq_trans (bind_Ret _ _ _ _ _ E1) _). cbv beta. unfold upd_proc at 1. krun.
    assert (Hps : k_proc s1 = alloced_proc pr (k_nextpid s) tf x :: ps) by (rewrite B1; reflexivity). rewrite Hps. cbn [alter list_alter]. fold P. fold s2.
    assert (Eg : get_proc 0 s2 = Ret P s2) by reflexivity. rewrite (bind_Ret _ _ _ _ _ Eg).
    assert (Ept : p_pagetable P = x) by reflexivity. assert (Etf : p_trapframe P = tf) by reflexivity. rewrite Ept, Etf, (bind_Ret _ _ _ _ _ E3).
    unfold upd_proc, store64. krun. assert (Hp3 : k_proc s3 = P :: ps) by (rewrite B3; reflexivity). rewrite Hp3. cbn [alter list_alter]. reflexivity.
  - unfold s5, s4, same_but_mem in *. kred. rewrite B3. kred. unfold s2. kred. rewrite B1. fold P'. unfold with_proc. kflat. by destruct s.
  - apply (kspace_touch _ s4 _ _ _ _ _ tf); [by apply kspace_same with s3|by apply elem_of_cons; left|exact Hm5].
  - unfold s5, m5. kred. rewrite ld64_st64_other by (unfold TF_epc, TF_sp; lia). by rewrite ld64_st64_same.
  - unfold s5, m5. kred. by rewrite ld64_st64_same.
  - intros i Hi. unfold s5. kred. rewrite (Hm5 y); [by apply Hy|by apply page_ok_aligned|done|lia].
  - simpl in *. lia.
Qed.

(** The first process is ready to run: its page table maps the page with its
    code, the trampoline and its trap frame, which starts it at address 0 with
    its stack at the end of the page; it is the only one in a queue. *)
Record after_userinit (s s' : kstate) (pr : proc) (fl fl' : list Z) (tf pt y : Z) : Prop := {
  au_held : k_held s' = [];
  au_proc : k_proc s' !! 0%nat = Some (first_proc pr (k_nextpid s) tf pt);
  au_init : k_initproc s' = Some 0%nat;
  au_queue : queues_ok s' [[0%nat]; []; []];
  au_sched : sched_ok s';
  au_space : kspace (k_mem s) s' pt fl fl' (map_range (proc_map tf) 0 1 y user_perm) [tf; y];
  au_epc : ld64 (k_mem s') (tf + TF_epc) = 0;
  au_sp : ld64 (k_mem s') (tf + TF_sp) = PGSIZE;
  au_code : page_holds (k_mem s') y initcode;
  au_dev : k_io s' = k_io s /\ k_vd s' = k_vd s /\ k_cur s' = k_cur s
}.

Lemma queues_empty s : length (k_proc s) = NPROC -> Forall (fun p => p_next p = None) (k_proc s) ->
  (exists a b c, k_queue s = [mkQueue a None None; mkQueue b None None; mkQueue c None None]) -> queues_ok s [[]; []; []].
Proof.
  intros Hl Hn (a & b & c & Hq). split; [rewrite Hq; by repeat constructor|]. split; [done|]. split; [constructor|]. split; [done|].
  intros p pr Hp _. by apply (proj1 (Forall_lookup _ _) Hn p).
Qed.

(** A process that is the whole of a queue has no next. *)
Lemma requeued_first s s' P ps qs : k_proc s = P :: ps -> p_next P = None -> requeued s s' ([0%nat] :: qs) -> k_proc s' !! 0%nat = Some P.
Proof.
  intros Hp Hn ((Hq & _) & _ & Hb). specialize (Hb 0%nat). rewrite Hp in Hb. change ((P :: ps) !! 0%nat) with (Some P) in Hb.
  destruct (k_proc s' !! 0%nat) as [P'|] eqn:E; [|discriminate Hb]. apply (inj Some (set_p_next None P') (set_p_next None P)) in Hb.
  apply Forall2_cons_inv_r in Hq as (q & ql & [Hc _] & _ & _). destruct Hc as (_ & nx & Hnx & ->). rewrite E in Hnx. injection Hnx as Hnx.
  f_equal. transitivity (set_p_next None P'); [destruct P'; cbn in Hnx; by subst|]. rewrite Hb. destruct P. cbn in Hn. by subst.
Qed.

Lemma userinit_run s pr ps ino fl junk : before_userinit s pr ps ino -> free_pages s fl -> (9 <= length fl)%nat ->
  exists s' fl' tf pt y, userinit junk s = Ret tt s' /\ after_userinit s s' pr fl fl' tf pt y.
Proof.
  intros Hb Hf Hl. set (rest := fun (p : nat) (pr : proc) =>
      name <- safestrcpy_buf (p_name pr) str_initcode 16 ;;
      upd_proc p (set_p_name name) ;;;
      cwd <- namei junk str_root ;;
      upd_proc p (set_p_cwd cwd) ;;;
      upd_proc p (set_p_state RUNNABLE) ;;;
      pr <- get_proc p ;;
      enqueue_at_tail p (p_priority pr) ;;;
      release (Lk_proc p)).
  destruct (userinit_memory s pr ps ino fl rest Hb Hf Hl) as (s1 & fl1 & tf & pt & y & E1 & B1 & K1 & H1 & H2 & H3 & _).
  destruct Hb as [Hh Hp Hlen Hu Hnm Hnext Hprio (a & b & c & Hq) Hi (Hil & Hir)].
  set (P1 := set_p_sz PGSIZE (set_p_cur_max (MAXVA - 2 * PGSIZE) (alloced_proc pr (k_nextpid s) tf pt))) in *.
  set (s2 := set_k_proc (set_p_name (str_initcode ++ replicate 8 0) P1 :: ps) s1).
  set (root := set_i_valid 0 (set_i_ref 1 (set_i_inum ROOTINO (set_i_dev ROOTDEV inode0)))). set (s3 := with_inodes (root :: ino) s2).
  assert (En : namei junk str_root s2 = Ret (Some 0%nat) s3).
  { apply namei_root; [unfold s2; kred; by rewrite B1|done|done|]. unfold s2. kred. rewrite B1. intros Hin. by apply list_elem_of_singleton in Hin. }
  set (P := first_proc pr (k_nextpid s) tf pt). set (s4 := set_k_proc (P :: ps) s3).
  assert (Hh4 : k_held s4 = [Lk_proc 0]) by (unfold s4, s3, s2, with_inodes; kred; by rewrite B1).
  destruct (enqueue_tail_run s4 [[]; []; []] HIGH [] 0 P) as (s5 & E5 & R5); [|done|done|apply not_elem_of_nil|done|rewrite Hh4; intros Hin; by apply list_elem_of_singleton in Hin|].
  { apply queues_empty; [cbn [k_proc set_k_proc s4 length]; by rewrite Hlen|apply Forall_cons; by split|]. exists a, b, c. unfold s4, s3, s2, with_inodes. kred. rewrite B1. exact Hq. }
  change (<[Z.to_nat HIGH := [] ++ [0%nat]]> [[]; []; []]) with [[0%nat]; []; []] in R5.
  pose proof (requeued_first s4 s5 P ps _ eq_refl eq_refl R5) as HP. pose proof R5 as (Hok & Hs5 & Hn5).
  assert (Hsok : sched_ok s5).
  { apply (queues_sched_ok s5 _ Hok). intros p pr0 Hp0. destruct (same_but_next_inv _ _ _ _ Hn5 Hp0) as (pr1 & Hp1 & E).
    destruct (but_next_fields _ _ E) as (_ & _ & ->). assert (HF : Forall (fun p => p_priority p = 0) (P :: ps)) by (by apply Forall_cons).
    change (k_proc s4) with (P :: ps) in Hp1. rewrite (proj1 (Forall_lookup _ _) HF p pr1 Hp1). unfold NQUEUE. lia. }
  assert (Hh5 : k_held s5 = [Lk_proc 0]) by (rewrite Hs5; kred; exact Hh4).
  assert (Em : k_mem s5 = k_mem s1) by (rewrite Hs5; reflexivity). assert (Ef : k_freelist s5 = k_freelist s1) by (rewrite Hs5; reflexivity).
  set (s6 := set_k_held [] s5). exists s6, fl1, tf, pt, y. split.
  - refine (eq_trans E1 _). unfold rest. assert (Ename : p_name (set_p_cur_max (MAXVA - 2 * PGSIZE) (alloced_proc pr (k_nextpid s) tf pt)) = replicate 16 0) by exact Hnm.
    rewrite Ename. rewrite (bind_Ret _ _ _ _ _ (safestrcpy_initcode s1)). unfold upd_proc at 1. krun.
    assert (Hp1 : k_proc s1 = P1 :: ps) by (rewrite B1; reflexivity). rewrite Hp1. cbn [alter list_alter]. fold s2. rewrite (bind_Ret _ _ _ _ _ En). unfold upd_proc. krun.
    assert (Hp3 : k_proc s3 = set_p_name (str_initcode ++ replicate 8 0) P1 :: ps) by reflexivity. rewrite Hp3. cbn [alter list_alter].
    assert (Hs4 : forall X l, set_k_proc X (set_k_proc l s3) = set_k_proc X s3) by reflexivity. rewrite Hs4. fold P1 in P. change (set_p_state RUNNABLE _) with P. fold s4.
    assert (Eg : get_proc 0 s4 = Ret P s4) by reflexivity. rewrite (bind_Ret _ _ _ _ _ Eg). change (p_priority P) with HIGH. rewrite (bind_Ret _ _ _ _ _ E5).
    unfold release, holding. rewrite Hh5. unfold s6. reflexivity.
  - split; try done; unfold s6; kred; rewrite ?Em; try done.
    + rewrite Hs5. unfold s4, s3, s2, with_inodes. kred. by rewrite B1.
    + by apply kspace_same with s1.
    + rewrite Hs5. unfold s4, s3, s2, with_inodes. kred. by rewrite B1.
Qed.
End FirstProc.
