(* ===== verification/Boot.v ===== *)
(** * kernel/main.c: starting the kernel

    [main] on every hart, with the parts of the initialisation that set device
    registers and tables of functions: [uartinit], [consoleinit], [kvminit],
    [kvminithart], [trapinit], [fileinit]. The harts run [main] interleaved,
    one call of an initialisation function at a time. *)

From stdpp Require Import functions.
From S2P Require Import Prelude Machine State Kalloc Vm VmFacts VmUser VmKernel Printf Sched Block Bio Virtio Uio Fs FsFacts Console File Proc Syscall Trap.

(** ** The UART

    The registers of a 16550: while bit 7 of the line control register is set,
    registers 0 and 1 are the divisor of the baud rate. *)

Definition IER : Z := 1.
Definition FCR : Z := 2.
Definition LCR : Z := 3.
Definition IER_RX_ENABLE : Z := Z.shiftl 1 0.
Definition IER_TX_ENABLE : Z := Z.shiftl 1 1.
Definition FCR_FIFO_ENABLE : Z := Z.shiftl 1 0.
Definition FCR_FIFO_CLEAR : Z := Z.shiftl 3 1.
Definition LCR_EIGHT_BITS : Z := Z.shiftl 3 0.
Definition LCR_BAUD_LATCH : Z := Z.shiftl 1 7.

Record uart16550 := mkUart {
  u_ier : Z;
  u_fcr : Z;
  u_lcr : Z;
  u_dll : Z;  (* divisor, low and high byte *)
  u_dlm : Z;
  u_thr : list Z  (* bytes given to the transmitter, latest first *)
}.

Definition uart_set (reg v : Z) (u : uart16550) : uart16550 :=
  let latch := hasbit (u_lcr u) LCR_BAUD_LATCH in
  if reg =? 0
  then if latch then mkUart (u_ier u) (u_fcr u) (u_lcr u) v (u_dlm u) (u_thr u)
       else mkUart (u_ier u) (u_fcr u) (u_lcr u) (u_dll u) (u_dlm u) (v :: u_thr u)
  else if reg =? IER
  then if latch then mkUart (u_ier u) (u_fcr u) (u_lcr u) (u_dll u) v (u_thr u)
       else mkUart v (u_fcr u) (u_lcr u) (u_dll u) (u_dlm u) (u_thr u)
  else if reg =? FCR then mkUart (u_ier u) v (u_lcr u) (u_dll u) (u_dlm u) (u_thr u)
  else if reg =? LCR then mkUart (u_ier u) (u_fcr u) v (u_dll u) (u_dlm u) (u_thr u)
  else u.

(** ** The state of the machine while it starts *)

(** An entry of [devsw]. *)
Record devsw_entry := mkDevsw {
  dv_read : option (place -> Z -> K Z);
  dv_write : option (place -> Z -> K Z)
}.

Record bstate := mkB {
  b_k : kstate;  (* the kernel's variables and memory *)
  b_hart : nat -> regs;
  b_uart : uart16550;
  b_devsw : list devsw_entry;
  b_kpt : Z;  (* kernel_pagetable *)
  b_started : Z
}.

Definition set_b_k (v : kstate) (b : bstate) : bstate := mkB v (b_hart b) (b_uart b) (b_devsw b) (b_kpt b) (b_started b).
Definition set_b_hart (v : nat -> regs) (b : bstate) : bstate := mkB (b_k b) v (b_uart b) (b_devsw b) (b_kpt b) (b_started b).
Definition set_b_uart (v : uart16550) (b : bstate) : bstate := mkB (b_k b) (b_hart b) v (b_devsw b) (b_kpt b) (b_started b).
Definition set_b_devsw (v : list devsw_entry) (b : bstate) : bstate := mkB (b_k b) (b_hart b) (b_uart b) v (b_kpt b) (b_started b).
Definition set_b_kpt (v : Z) (b : bstate) : bstate := mkB (b_k b) (b_hart b) (b_uart b) (b_devsw b) v (b_started b).
Definition set_b_started (v : Z) (b : bstate) : bstate := mkB (b_k b) (b_hart b) (b_uart b) (b_devsw b) (b_kpt b) v.

(** Kernel code, on the whole state. *)
Fixpoint lift {A} (b : bstate) (o : outcome kstate A) : outcome bstate A :=
  match o with
  | Ret a s => Ret a (set_b_k s b)
  | Panic msg s => Panic msg (set_b_k s b)
  | Swtch s k => Swtch (set_b_k s b) (fun b' => lift b' (k (b_k b')))
  | Fuel s => Fuel (set_b_k s b)
  end.

Definition kern {A} (m : K A) : M bstate A := fun b => lift b (m (b_k b)).

(** A write to the registers of hart [h] or to its interrupt controller. *)
Definition on_hart (h : nat) (f : regs -> regs) : M bstate unit :=
  modify (fun b => set_b_hart (<[h := f (b_hart b h)]> (b_hart b)) b).

Definition w_satp (v : Z) (r : regs) : regs :=
  mkRegs (r_sstatus r) (r_scause r) (r_sepc r) (r_stval r) v (r_sip r) (r_tp r) (r_stvec r) (plic_reads r) (plic_writes r).

(** ** The parts of the initialisation *)

Definition WriteReg (reg v : Z) : M bstate unit := modify (fun b => set_b_uart (uart_set reg (u8 v) (b_uart b)) b).

Definition uartinit : M bstate unit :=
  WriteReg IER 0x00 ;;;
  WriteReg LCR LCR_BAUD_LATCH ;;;
  WriteReg 0 0x03 ;;;
  WriteReg 1 0x00 ;;;
  WriteReg LCR LCR_EIGHT_BITS ;;;
  WriteReg FCR (Z.lor FCR_FIFO_ENABLE FCR_FIFO_CLEAR) ;;;
  WriteReg IER (Z.lor IER_TX_ENABLE IER_RX_ENABLE) ;;;
  kern (initlock Lk_uart).

Definition trapinit : K unit := initlock Lk_ticks.
Definition fileinit : K unit := initlock Lk_ftable.

Section Main.
Context `{LAY : Layout} `{DD : DiskDriver}.

Definition upd_devsw (major : Z) (f : devsw_entry -> devsw_entry) : M bstate unit :=
  modify (fun b => set_b_devsw (alter f (Z.to_nat major) (b_devsw b)) b).

Definition consoleinit : M bstate unit :=
  kern (initlock Lk_cons) ;;;
  uartinit ;;;
  upd_devsw CONSOLE (fun e => mkDevsw (Some consoleread) (dv_write e)) ;;;
  upd_devsw CONSOLE (fun e => mkDevsw (dv_read e) (Some consolewrite)).

Definition kvminit : M bstate unit :=
  root <- kern kvmmake ;;
  modify (set_b_kpt root).

Definition kvminithart (h : nat) : M bstate unit :=
  kpt <- gets b_kpt ;;
  on_hart h (w_satp (MAKE_SATP kpt)).

(** The addresses of [kernelvec] and of [disk.pages], and what the stack holds
    where [namei] puts a name. *)
Context (kernelvec disk_pages : Z) (junk : list Z).

Definition str_newline : list Z := [10].
Definition str_booting : list Z := bytes "xv6 kernel is booting" ++ [10].
Definition str_starting : list Z := bytes "hart %d starting" ++ [10].

(** What [main] calls, in order, on hart 0 and, once [started] is set, on
    another hart. *)
Definition main_first (h : nat) : list (M bstate unit) :=
  [consoleinit; kern printfinit;
   kern (printf (Some str_newline) []); kern (printf (Some str_booting) []); kern (printf (Some str_newline) []);
   kern kinit; kvminit; kvminithart h; kern procinit; kern trapinit; on_hart h (trapinithart kernelvec);
   on_hart h plicinit; on_hart h plicinithart;
   kern binit; kern iinit; kern fileinit; kern (virtio_disk_init disk_pages); kern mmrlistinit; kern (userinit junk);
   modify (set_b_started 1)].

Definition main_other (h : nat) : list (M bstate unit) :=
  [(r <- gets (fun b => b_hart b h) ;; kern (printf (Some str_starting) [AInt (cpuid r)]));
   kvminithart h; on_hart h (trapinithart kernelvec); on_hart h plicinithart].

(** Where a hart is in [main]. *)
Inductive place_in_main :=
| At (rest : list (M bstate unit))  (* calls still to make *)
| Spin  (* while(started == 0) *)
| Scheduler.

Definition main (h : nat) (b : bstate) : place_in_main :=
  if cpuid (b_hart b h) =? 0 then At (main_first h) else Spin.

(** One step of one hart. *)
Inductive main_step : bstate * (nat -> place_in_main) -> bstate * (nat -> place_in_main) -> Prop :=
| step_call b pcs h f rest b' : pcs h = At (f :: rest) -> f b = Ret tt b' -> main_step (b, pcs) (b', <[h := At rest]> pcs)
| step_scheduler b pcs h : pcs h = At [] -> main_step (b, pcs) (b, <[h := Scheduler]> pcs)
| step_wait b pcs h : pcs h = Spin -> b_started b = 0 -> main_step (b, pcs) (b, pcs)
| step_go b pcs h : pcs h = Spin -> b_started b <> 0 -> main_step (b, pcs) (b, <[h := At (main_other h)]> pcs).
End Main.
