(* ===== verification/BootFacts.v ===== *)
(** * What the kernel has when it has started

    [main] of hart 0 runs every initialisation function to its end; what the
    machine is in then; and no other hart does anything before. *)

From stdpp Require Import functions.
From S2P Require Import Prelude Machine State Kalloc Vm VmFacts VmUser VmKernel Printf Sched Sleeplock Block Bio Virtio Uio Fs FsFacts Console File Proc Syscall Trap FirstProc Boot.

(** ** The initialisation functions on the kernel's state *)

(** [procinit] on a process table of zeros. *)
Definition kstacks : list proc := imap (fun i p => set_p_kstack (KSTACK (Z.of_nat i)) p) (replicate NPROC proc0).

Lemma procinit_run s : k_proc s = replicate NPROC proc0 -> length (k_queue s) = 3%nat ->
  procinit s = Ret tt (set_k_proc kstacks (set_k_queue [mkQueue TSTICKSHIGH None None; mkQueue TSTICKSMEDIUM None None; mkQueue TSTICKSLOW None None] s)).
Proof.
  intros Hp Hq. destruct s as [a b c d ps e f g q h i j k l m n o]. cbn [k_proc k_queue] in *. subst ps. destruct q as [|q0 [|q1 [|q2 [|]]]]; try discriminate Hq. vm_compute. reflexivity.
Qed.

Lemma kstacks_cons : kstacks = set_p_kstack (KSTACK 0) proc0 :: tail kstacks.
Proof. reflexivity. Qed.

Lemma kstacks_rest : length (tail kstacks) = 63%nat /\ Forall (fun p => p_next p = None) (tail kstacks) /\ Forall (fun p => p_priority p = 0) (tail kstacks).
Proof.
  split; [reflexivity|]. split; apply Forall_lookup; intros i p Hp; change (tail kstacks) with (imap (fun i p => set_p_kstack (KSTACK (Z.of_nat (S i))) p) (replicate 63 proc0)) in Hp;
  rewrite list_lookup_imap in Hp; (destruct (replicate 63 proc0 !! i) as [q|] eqn:E; [|discriminate Hp]); apply lookup_replicate in E as [-> _]; injection Hp as <-; reflexivity.
Qed.

Lemma for_all_modify {X} (f : X -> kstate -> kstate) (P : kstate -> kstate -> Prop) :
  (forall s, P s s) -> (forall x s0 s, P s0 s -> P s0 (f x s)) ->
  forall l s0 s, P s0 s -> exists s', for_all l (fun x => modify (f x)) s = Ret tt s' /\ P s0 s'.
Proof.
  intros Hr Hf l. induction l as [|x l IH]; intros s0 s H; [by exists s|]. cbn [for_all].
  destruct (IH s0 (f x s) (Hf x s0 s H)) as (s' & E & H'). exists s'. split; [|done]. exact E.
Qed.

Lemma mmrlistinit_run s : exists l, mmrlistinit s = Ret tt (set_k_mmr_list l s).
Proof.
  destruct (for_all_modify (fun i s => set_k_mmr_list (<[i := 0]> (k_mmr_list s)) s) (fun s0 s => exists l, s = set_k_mmr_list l s0)) with (l := seq 0 NMMRLIST) (s0 := s) (s := s) as (s' & E & l & ->).
  - intros s1. exists (k_mmr_list s1). by destruct s1.
  - intros x s1 s2 (l & ->). eexists. by destruct s1.
  - exists (k_mmr_list s). by destruct s.
  - by exists l.
Qed.

Lemma iinit_run `{DD : DiskDriver} s : fs_inode (k_fs s) = replicate NINODE inode0 -> iinit s = Ret tt s.
Proof.
  intros H. assert (Hid : forall t, set_k_fs (set_fs_inode (fs_inode (k_fs t)) (k_fs t)) t = t) by (intros t; destruct t; kflat; f_equal; by destruct k_fs).
  apply for_all_id. intros i _. unfold initsleeplock, upd_slk, modify, set_slk. f_equal. rewrite H.
  replace (alter _ i (replicate NINODE inode0)) with (replicate NINODE inode0); [rewrite <- H; apply Hid|].
  apply list_eq. intros j. destruct (decide (i = j)) as [->|Hne]; [|by rewrite list_lookup_alter_ne].
  rewrite list_lookup_alter_eq. destruct (replicate NINODE inode0 !! j) as [x|] eqn:E; [|done]. apply lookup_replicate in E as [-> _]. done.
Qed.

(** The registers that say that there is a disk with a queue that is long enough. *)
Definition disk_there (regs : Z -> Z) : Prop :=
  regs VIRTIO_MMIO_MAGIC_VALUE = 0x74726976 /\ regs VIRTIO_MMIO_VERSION = 1 /\ regs VIRTIO_MMIO_DEVICE_ID = 2 /\ regs VIRTIO_MMIO_VENDOR_ID = 0x554d4551 /\
  NUM <= regs VIRTIO_MMIO_QUEUE_NUM_MAX < 2 ^ 32.

Lemma read_step r f s vd (Q : outcome kstate unit -> Prop) : Q (f (u32 (vd_regs vd r)) (set_k_vd vd s)) -> Q (bind (ReadR r) f (set_k_vd vd s)).
Proof. done. Qed.

Lemma write_step r v f s vd (Q : outcome kstate unit -> Prop) : (forall vd', vd_regs vd' = vd_regs vd -> Q (f tt (set_k_vd vd' s))) -> Q (bind (WriteR r v) f (set_k_vd vd s)).
Proof. intros H. apply (H (set_vd_wrote ((r, u32 v) :: vd_wrote vd) vd)). done. Qed.

(** What [virtio_disk_init] has to come to. *)
Definition vdinit (s : kstate) (o : outcome kstate unit) : Prop := exists vd, o = Ret tt (set_k_vd vd s) /\ vd_free vd = replicate 8 1.

Ltac vd_read := apply read_step; cbv beta.
Ltac vd_write := apply write_step; intros ? ?; cbv beta.

Lemma virtio_disk_init_run pages s : disk_there (vd_regs (k_vd s)) -> exists vd, virtio_disk_init pages s = Ret tt (set_k_vd vd s) /\ vd_free vd = replicate 8 1.
Proof.
  intros H. enough (Hv : vdinit s (virtio_disk_init pages (set_k_vd (k_vd s) s))) by (destruct Hv as (vd & E & Hf); exists vd; split; [|done]; rewrite <- E; by destruct s).
  generalize dependent (k_vd s). intros vd (H1 & H2 & H3 & H4 & H5). unfold NUM in H5. unfold virtio_disk_init.
  do 4 vd_read. rewrite H1, H2, H3, H4.
  change (negb (u32 0x74726976 =? 0x74726976) || negb (u32 1 =? 1) || negb (u32 2 =? 2) || negb (u32 0x554d4551 =? 0x554d4551)) with false. cbv iota zeta.
  do 2 vd_write. vd_read. do 5 vd_write. vd_read.
  match goal with |- context [vd_regs ?v VIRTIO_MMIO_QUEUE_NUM_MAX] => replace (vd_regs v VIRTIO_MMIO_QUEUE_NUM_MAX) with (vd_regs vd VIRTIO_MMIO_QUEUE_NUM_MAX) by congruence end.
  rewrite u32_small by lia. destruct (Z.eqb_spec (vd_regs vd VIRTIO_MMIO_QUEUE_NUM_MAX) 0); [lia|]. unfold NUM at 1.
  destruct (Z.ltb_spec (vd_regs vd VIRTIO_MMIO_QUEUE_NUM_MAX) 8); [lia|]. vd_write. eexists. split; reflexivity.
Qed.

(** ** The initialisation functions on the whole state *)

Lemma kern_Ret {A} (m : K A) b a s : m (b_k b) = Ret a s -> kern m b = Ret a (set_b_k s b).
Proof. intros H. unfold kern. by rewrite H. Qed.

Lemma initlock_none lk s : k_held s = [] -> initlock lk s = Ret tt s.
Proof. intros H. unfold initlock, modify. rewrite H. destruct s. cbn in H. by subst. Qed.

(** Calls one after the other. *)
Definition calls (l : list (M bstate unit)) : M bstate unit := for_all l (fun f => f).

Lemma calls_cons f l b b' : f b = Ret tt b' -> calls (f :: l) b = calls l b'.
Proof. intros H. exact (bind_Ret _ _ _ _ _ H). Qed.

(** 38.4K baud, eight bits, FIFOs on and both interrupts enabled. *)
Definition uart_on (u : uart16550) : uart16550 := mkUart 3 7 3 3 0 (u_thr u).

Lemma uartinit_run b : k_held (b_k b) = [] -> uartinit b = Ret tt (set_b_uart (uart_on (b_uart b)) b).
Proof.
  intros H. destruct b as [s hs u d kp st]. cbn [b_k] in H. unfold uartinit.
  assert (E : forall v, kern (initlock Lk_uart) (mkB s hs v d kp st) = Ret tt (mkB s hs v d kp st)) by (intros v; by rewrite (kern_Ret _ _ tt s); [|apply initlock_none]).
  refine (eq_trans (E _) _). do 2 f_equal. destruct u as [u1 u2 u3 u4 u5 u6].
  assert (E1 : uart_set IER (u8 0) (mkUart u1 u2 u3 u4 u5 u6) = mkUart (if hasbit u3 LCR_BAUD_LATCH then u1 else 0) u2 u3 u4 (if hasbit u3 LCR_BAUD_LATCH then 0 else u5) u6)
    by (unfold uart_set; cbn [u_lcr]; by destruct (hasbit u3 LCR_BAUD_LATCH)).
  cbn [b_uart set_b_uart]. rewrite E1. reflexivity.
Qed.

Section BootFacts.
Context `{LAY : Layout} `{DD : DiskDriver}.
Context (kernelvec disk_pages : Z) (junk : list Z).

Definition devsw_on : list devsw_entry :=
  <[Z.to_nat CONSOLE := mkDevsw (Some consoleread) (Some consolewrite)]> (replicate (Z.to_nat NDEV) (mkDevsw None None)).

Lemma consoleinit_run b : k_held (b_k b) = [] -> b_devsw b = replicate (Z.to_nat NDEV) (mkDevsw None None) ->
  consoleinit b = Ret tt (set_b_devsw devsw_on (set_b_uart (uart_on (b_uart b)) b)).
Proof.
  intros H Hd. unfold consoleinit. rewrite (bind_Ret _ _ _ _ _ (kern_Ret _ _ _ _ (initlock_none Lk_cons _ H))).
  assert (Hb : set_b_k (b_k b) b = b) by by destruct b. rewrite Hb, (bind_Ret _ _ _ _ _ (uartinit_run b H)). unfold upd_devsw, modify, bind. cbn [bindO]. unfold set_b_devsw at 2. cbn [b_devsw set_b_uart]. rewrite Hd. reflexivity.
Qed.

(** The table that [fileread] and [filewrite] use. *)
Lemma devsw_on_table major : 0 <= major < NDEV -> devsw_on !! Z.to_nat major = Some (mkDevsw (devsw_read major) (devsw_write major)).
Proof.
  intros H. unfold devsw_read, devsw_write. destruct (Z.ltb_spec major 0); [lia|]. destruct (Z.geb_spec major NDEV); [lia|]. cbn [orb]. unfold devsw_on.
  destruct (Z.eqb_spec major CONSOLE) as [->|Hne]; [reflexivity|]. rewrite list_lookup_insert_ne by (unfold CONSOLE in *; lia). by apply lookup_replicate_2; unfold NDEV in *; lia.
Qed.

Lemma kvminithart_run h b : kvminithart h b = Ret tt (set_b_hart (<[h := w_satp (MAKE_SATP (b_kpt b)) (b_hart b h)]> (b_hart b)) b).
Proof. reflexivity. Qed.

(** ** Hart 0 *)

(** The machine when [start] of every hart has come to [main]: the kernel's
    variables are zero, the UART works, there is a disk, and the kernel leaves
    memory enough for its page table. *)
Record powered (b : bstate) : Prop := {
  po_held : k_held (b_k b) = [];
  po_free : k_freelist (b_k b) = 0;
  po_room : kend + 502 * PGSIZE <= PHYSTOP;
  po_uart : uart_ready (b_k b);
  po_proc : k_proc (b_k b) = replicate NPROC proc0;
  po_queue : length (k_queue (b_k b)) = 3%nat;
  po_buf : length (fs_buf (k_fs (b_k b))) = NBUF /\ Forall fresh (fs_buf (k_fs (b_k b))) /\ (forall blk, length (fs_disk (k_fs (b_k b)) blk) = Z.to_nat BSIZE);
  po_inode : fs_inode (k_fs (b_k b)) = replicate NINODE inode0;
  po_disk : disk_there (vd_regs (k_vd (b_k b)));
  po_devsw : b_devsw b = replicate (Z.to_nat NDEV) (mkDevsw None None);
  po_started : b_started b = 0;
  po_tp : cpuid (b_hart b 0) = 0 /\ forall h, h <> 0%nat -> cpuid (b_hart b h) <> 0
}.

Lemma calls_kern m l s s' hs u d kp st : m s = Ret tt s' -> calls (kern m :: l) (mkB s hs u d kp st) = calls l (mkB s' hs u d kp st).
Proof. intros H. apply calls_cons. exact (kern_Ret m (mkB s hs u d kp st) tt s' H). Qed.

Lemma calls_hart h f l s hs u d kp st : calls (on_hart h f :: l) (mkB s hs u d kp st) = calls l (mkB s (<[h := f (hs h)]> hs) u d kp st).
Proof. by apply calls_cons. Qed.

Lemma printf_io fmt ap out s : Forall (fun c => 0 <= c < 256) fmt -> Forall arg_ok ap -> format fmt ap = Some out -> uart_ready s -> Lk_pr ∉ k_held s ->
  exists io, printf (Some fmt) ap s = Ret tt (set_k_io io s) /\ uart_ready (set_k_io io s) /\ io_out io = rev out ++ io_out (k_io s).
Proof.
  intros H1 H2 H3 H4 H5. destruct (printf_run fmt ap out s H1 H2 H3 H4 H5) as (s' & E & idle & Hi & ->). eexists. split; [exact E|]. split; [|done].
  destruct H4 as [Hp Hl]. split; [done|]. cbn. lia.
Qed.

(** The text at boot. *)
Definition banner : list Z := str_newline ++ str_booting ++ str_newline.

Lemma set_k_io_twice a c s : set_k_io a (set_k_io c s) = set_k_io a s.
Proof. done. Qed.

Lemma banner_run s hs u d kp st l : uart_ready s -> k_held s = [] ->
  exists io, calls (kern printfinit :: kern (printf (Some str_newline) []) :: kern (printf (Some str_booting) []) :: kern (printf (Some str_newline) []) :: l) (mkB s hs u d kp st) =
    calls l (mkB (set_k_io io s) hs u d kp st) /\ uart_ready (set_k_io io s) /\ io_out io = rev banner ++ io_out (k_io s).
Proof.
  intros Hu Hh. assert (Hpr : forall io, Lk_pr ∉ k_held (set_k_io io s)) by (intros io; kred; rewrite Hh; apply not_elem_of_nil).
  set (io0 := set_io_locking 1 (k_io s)). assert (Hu0 : uart_ready (set_k_io io0 s)) by done.
  assert (F1 : Forall (fun c => 0 <= c < 256) str_newline) by (apply (bool_decide_unpack _); vm_compute; exact I). assert (F2 : Forall (fun c => 0 <= c < 256) str_booting) by (apply (bool_decide_unpack _); vm_compute; exact I).
  destruct (printf_io str_newline [] str_newline _ F1 (Forall_nil_2 _) eq_refl Hu0 (Hpr _)) as (io1 & E1 & Hu1 & O1). rewrite set_k_io_twice in *.
  destruct (printf_io str_booting [] str_booting _ F2 (Forall_nil_2 _) eq_refl Hu1 (Hpr _)) as (io2 & E2 & Hu2 & O2). rewrite set_k_io_twice in *.
  destruct (printf_io str_newline [] str_newline _ F1 (Forall_nil_2 _) eq_refl Hu2 (Hpr _)) as (io3 & E3 & Hu3 & O3). rewrite set_k_io_twice in *.
  exists io3. split; [|split; [done|]].
  - rewrite (calls_kern printfinit _ s (set_k_io io0 s)) by reflexivity. by rewrite (calls_kern _ _ _ _ _ _ _ _ _ E1), (calls_kern _ _ _ _ _ _ _ _ _ E2), (calls_kern _ _ _ _ _ _ _ _ _ E3).
  - rewrite O3. cbn [k_io set_k_io]. rewrite O2. cbn [k_io set_k_io]. rewrite O1. unfold banner. rewrite !rev_app_distr, <- !app_assoc. done.
Qed.

(** Memory: the free list, the kernel's page table, paging on. *)
Lemma paging_run s hs u d kp st l : k_freelist s = 0 -> k_held s = [] -> kend + 502 * PGSIZE <= PHYSTOP ->
  exists root s' fl0 fl m0 stacks, calls (kern kinit :: kvminit :: kvminithart 0 :: l) (mkB s hs u d kp st) =
    calls l (mkB s' (<[0%nat := w_satp (MAKE_SATP root) (hs 0%nat)]> hs) u d root st) /\ same_but_mem s s' /\
    kspace m0 s' root fl0 fl (kernel_map stacks) stacks /\ length stacks = 64%nat /\ (9 <= length fl)%nat.
Proof.
  intros Hf Hh Hroom. pose proof layout_ok as Hlay. destruct (kinit_correct s Hf Hh) as (s1 & E1 & Hh1 & Hf1 & B1).
  set (fl0 := pages_down _ _) in Hf1. assert (Hl : 501 <= Z.of_nat (length fl0)).
  { unfold fl0, pages_down. rewrite length_rev, length_map, length_seq. pose proof (PGROUNDUP_bounds kend) as Hb. unfold PHYSTOP, KERNBASE, PGSIZE in *. Z.div_mod_to_equations. lia. }
  destruct (kvmmake_run s1 fl0 Hf1) as (root & s2 & fl & stacks & E2 & B2 & K2 & Hst & L2); [rewrite Hh1; apply not_elem_of_nil|done|].
  exists root, s2, fl0, fl, (k_mem s1), stacks. split; [|split; [by eapply same_but_mem_trans|split; [done|split; [done|lia]]]].
  rewrite (calls_kern _ _ _ _ _ _ _ _ _ E1). unfold kvminit at 1.
  assert (E3 : (root0 <- kern kvmmake ;; modify (set_b_kpt root0)) (mkB s1 hs u d kp st) = Ret tt (mkB s2 hs u d root st)).
  { refine (eq_trans (bind_Ret _ _ _ _ _ (kern_Ret kvmmake (mkB s1 hs u d kp st) root s2 E2)) _). reflexivity. }
  rewrite (calls_cons _ _ _ _ E3). by rewrite (calls_cons _ _ _ _ (kvminithart_run 0 _)).
Qed.

(** What hart 0 has set up. *)
Record booted (b b' : bstate) : Prop := {
  bt_started : b_started b' = 1;
  bt_uart : b_uart b' = uart_on (b_uart b);
  bt_devsw : forall major, 0 <= major < NDEV -> b_devsw b' !! Z.to_nat major = Some (mkDevsw (devsw_read major) (devsw_write major));
  bt_satp : r_satp (b_hart b' 0) = MAKE_SATP (b_kpt b');
  bt_stvec : r_stvec (b_hart b' 0) = kernelvec;
  bt_plic : plic_writes (b_hart b' 0) = [(PLIC_SPRIORITY 0, 0); (PLIC_SENABLE 0, 0x402); (PLIC + 4, 1); (PLIC + 40, 1)] ++ plic_writes (b_hart b 0);
  bt_cpuid : cpuid (b_hart b' 0) = 0;
  bt_harts : forall h, h <> 0%nat -> b_hart b' h = b_hart b h;
  bt_kernel : exists stacks, length stacks = 64%nat /\ NoDup stacks /\ forall vpn, vpn_ok vpn -> aspace (k_mem (b_k b')) (b_kpt b') vpn = kernel_map stacks vpn;
  bt_proc : exists tf pt y, k_proc (b_k b') !! 0%nat = Some (first_proc (set_p_kstack (KSTACK 0) proc0) (k_nextpid (b_k b)) tf pt) /\
    (forall vpn, vpn_ok vpn -> aspace (k_mem (b_k b')) pt vpn = map_range (proc_map tf) 0 1 y user_perm vpn) /\
    ld64 (k_mem (b_k b')) (tf + TF_epc) = 0 /\ ld64 (k_mem (b_k b')) (tf + TF_sp) = PGSIZE /\ page_holds (k_mem (b_k b')) y initcode /\ tf <> y;
  bt_queue : queues_ok (b_k b') [[0%nat]; []; []];
  bt_sched : sched_ok (b_k b');
  bt_init : k_initproc (b_k b') = Some 0%nat;
  bt_held : k_held (b_k b') = [];
  bt_vd : vd_free (k_vd (b_k b')) = replicate 8 1;
  bt_out : io_out (k_io (b_k b')) = rev banner ++ io_out (k_io (b_k b));
  bt_ready : uart_ready (b_k b')
}.

Lemma main_first_run b : powered b -> exists b', calls (main_first kernelvec disk_pages junk 0) b = Ret tt b' /\ booted b b'.
Proof.
  intros [Hh Hf Hroom Hu Hp Hq (Hb1 & Hb2 & Hb3) Hi Hd Hdv Hst Htp]. destruct b as [s hs u d kp st]. cbn [b_k b_hart b_devsw b_started] in *. unfold main_first.
  rewrite (calls_cons _ _ _ _ (consoleinit_run (mkB s hs u d kp st) Hh Hdv)). unfold set_b_devsw, set_b_uart. cbn [b_k b_hart b_uart b_devsw b_kpt b_started].
  destruct (banner_run s hs (uart_on u) devsw_on kp st (skipn 5 (main_first kernelvec disk_pages junk 0)) Hu Hh) as (io & E1 & Hu1 & Ho1). unfold main_first in E1. cbn [drop] in E1. rewrite E1. clear E1.
  destruct (paging_run (set_k_io io s) hs (uart_on u) devsw_on kp st (skipn 8 (main_first kernelvec disk_pages junk 0)) Hf Hh Hroom) as (root & s2 & fl0 & fl & m0 & stacks & E2 & B2 & K2 & Hl2 & L2).
  unfold main_first in E2. cbn [drop] in E2. rewrite E2. clear E2.
  assert (Hs2 : k_proc s2 = replicate NPROC proc0 /\ k_queue s2 = k_queue s /\ k_fs s2 = k_fs s /\ k_vd s2 = k_vd s /\ k_held s2 = [] /\ k_io s2 = io /\ k_nextpid s2 = k_nextpid s)
    by (rewrite B2; by kflat; repeat split).
  destruct Hs2 as (S1 & S2 & S3 & S4 & S5 & S6 & S7).
  rewrite (calls_kern _ _ _ _ _ _ _ _ _ (procinit_run s2 S1 ltac:(by rewrite S2))). set (s3 := set_k_proc kstacks _).
  rewrite (calls_kern _ _ _ _ _ _ _ _ _ (initlock_none Lk_ticks s3 S5)).
  destruct (binit_run s3) as (fs' & E4 & _ & _ & _ & Hre & bs & hd & tl & Hfs); [unfold s3; kred; by rewrite S3..|].
  rewrite !calls_hart, (calls_kern _ _ _ _ _ _ _ _ _ E4). set (s4 := set_k_fs fs' s3).
  assert (Hino : fs_inode (k_fs s4) = replicate NINODE inode0) by (unfold s4; kred; rewrite Hfs; unfold s3; kred; rewrite S3; exact Hi).
  rewrite (calls_kern _ _ _ _ _ _ _ _ _ (iinit_run s4 Hino)), (calls_kern _ _ _ _ _ _ _ _ _ (initlock_none Lk_ftable s4 S5)).
  destruct (virtio_disk_init_run disk_pages s4) as (vd & E5 & Hvd); [unfold s4, s3; kred; by rewrite S4|]. rewrite (calls_kern _ _ _ _ _ _ _ _ _ E5).
  destruct (mmrlistinit_run (set_k_vd vd s4)) as (ml & E6). rewrite (calls_kern _ _ _ _ _ _ _ _ _ E6). set (s6 := set_k_mmr_list ml _).
  assert (Hb6 : before_userinit s6 (set_p_kstack (KSTACK 0) proc0) (tail kstacks) (replicate 49 inode0)).
  { split; [exact S5|exact kstacks_cons|apply kstacks_rest|reflexivity|reflexivity|apply kstacks_rest|apply kstacks_rest|by eexists _, _, _|exact Hino|].
    split; [apply length_replicate|]. by apply Forall_replicate. }
  assert (Hf6 : free_pages s6 fl) by exact (proj1 (ks_inv _ _ _ _ _ _ _ K2)).
  destruct (userinit_run s6 _ _ _ fl junk Hb6 Hf6 L2) as (s7 & fl7 & tf & pt & y & E7 & HA). rewrite (calls_kern _ _ _ _ _ _ _ _ _ E7).
  eexists. split; [reflexivity|]. destruct HA as [A1 A2 A3 A4 A4' A5 A6 A7 A8 (A9 & A10 & _)].
  destruct (ks_xs _ _ _ _ _ _ _ K2) as [Hnd _].
  split; cbn [b_k b_hart b_uart b_devsw b_kpt b_started set_b_started]; rewrite ?fn_lookup_insert.
  - reflexivity.
  - reflexivity.
  - apply devsw_on_table.
  - reflexivity.
  - reflexivity.
  - cbn [app]. unfold plicinithart. change (cpuid (plicinit _)) with (cpuid (hs 0%nat)). rewrite (proj1 Htp). reflexivity.
  - exact (proj1 Htp).
  - intros h Hh0. by rewrite !fn_lookup_insert_ne by congruence.
  - exists stacks. split; [exact Hl2|]. split; [exact Hnd|]. apply (kspace_keep _ _ _ _ _ _ _ _ K2). exact (ks_pages _ _ _ _ _ _ _ A5).
  - exists tf, pt, y. change (k_nextpid s6) with (k_nextpid s2) in A2. rewrite S7 in A2. split; [exact A2|]. split; [exact (ks_map _ _ _ _ _ _ _ A5)|]. split; [exact A6|]. split; [exact A7|]. split; [exact A8|].
    destruct (ks_xs _ _ _ _ _ _ _ A5) as [Hn _]. intros ->. apply NoDup_cons in Hn as [Hn _]. apply Hn, elem_of_cons. by left.
  - exact A4.
  - exact A4'.
  - exact A3.
  - exact A1.
  - rewrite A10. exact Hvd.
  - rewrite A9. change (k_io s6) with (k_io s2). rewrite S6. exact Ho1.
  - unfold uart_ready. rewrite A9. change (k_io s6) with (k_io s2). rewrite S6. exact Hu1.
Qed.

(** C4: on a machine with a disk and memory enough, hart 0 runs every
    initialisation function of [main] to its end, without a panic. Then the
    UART is at 38.4K baud with eight bits, FIFOs and interrupts on; the console
    is the only device of [devsw]; the hart runs on the kernel's page table,
    which maps exactly the kernel's address space, traps to [kernelvec] and
    gets interrupts of the UART and the disk; all descriptors of the disk are
    free; the first process is the only one in a queue, runnable from address
    0 of a page with the bytes of initcode, with its own trap frame and kernel
    stack; no lock is held; the boot message has been sent. *)
Theorem main_boot b : powered b -> exists b', calls (main_first kernelvec disk_pages junk 0) b = Ret tt b' /\ booted b b'.
Proof. apply main_first_run. Qed.

(** ** The other harts *)

(** A call that leaves [started] and the other harts alone. *)
Definition keeps (f : M bstate unit) : Prop :=
  forall b b', f b = Ret tt b' -> b_started b' = b_started b /\ forall h, h <> 0%nat -> b_hart b' h = b_hart b h.

Lemma kern_inv {A} (m : K A) b a b' : kern m b = Ret a b' -> exists s, m (b_k b) = Ret a s /\ b' = set_b_k s b.
Proof. unfold kern. destruct (m (b_k b)) as [x s|msg s|s k|s]; intros H; try discriminate H. injection H as -> <-. by exists s. Qed.

Lemma keeps_kern m : keeps (kern m).
Proof. intros b b' (s & _ & ->)%kern_inv. done. Qed.

Lemma keeps_on_hart f : keeps (on_hart 0 f).
Proof. intros b b' [= <-]. split; [done|]. intros h Hh. cbn. by rewrite fn_lookup_insert_ne by congruence. Qed.

Lemma keeps_consoleinit : keeps consoleinit.
Proof.
  intros b b' H. unfold consoleinit, uartinit, WriteReg, upd_devsw in H. apply bind_inv_Ret in H as ([] & b1 & (s1 & _ & ->)%kern_inv & H).
  apply bind_inv_Ret in H as ([] & b2 & H2 & [= <-]). unfold modify in H2. do 7 (apply bind_inv_Ret in H2 as ([] & ? & [= <-] & H2)). apply kern_inv in H2 as (s2 & _ & ->). done.
Qed.

Lemma keeps_kvminit : keeps kvminit.
Proof. intros b b' H. apply bind_inv_Ret in H as (r & b1 & (s1 & _ & ->)%kern_inv & [= <-]). done. Qed.

Lemma keeps_kvminithart : keeps (kvminithart 0).
Proof. intros b b' H. rewrite kvminithart_run in H. injection H as <-. split; [done|]. intros h Hh. cbn. by rewrite fn_lookup_insert_ne by congruence. Qed.

Lemma keeps_main l f : main_first kernelvec disk_pages junk 0 = l ++ [f] -> Forall keeps l.
Proof.
  intros E. change (main_first kernelvec disk_pages junk 0) with (take 19 (main_first kernelvec disk_pages junk 0) ++ [modify (set_b_started 1)]) in E. apply app_inj_tail in E as [<- _].
  repeat (apply Forall_cons; split; [first [apply keeps_kern|apply keeps_on_hart|apply keeps_consoleinit|apply keeps_kvminit|apply keeps_kvminithart]|]). by apply Forall_nil.
Qed.

Lemma calls_keeps l : forall b b', Forall keeps l -> calls l b = Ret tt b' -> b_started b' = b_started b /\ forall h, h <> 0%nat -> b_hart b' h = b_hart b h.
Proof.
  induction l as [|f l IH]; intros b b' HF H; [by injection H as <-|]. apply Forall_cons in HF as [Hf HF]. apply bind_inv_Ret in H as ([] & b1 & H1 & H).
  destruct (IH b1 b' HF H) as [E1 E2], (Hf b b1 H1) as [F1 F2]. split; [congruence|]. intros h Hh. rewrite E2 by done. by apply F2.
Qed.

Lemma calls_app l1 : forall l2 b b', calls l1 b = Ret tt b' -> calls (l1 ++ l2) b = calls l2 b'.
Proof.
  induction l1 as [|f l1 IH]; intros l2 b b' H; [by injection H as <-|]. apply bind_inv_Ret in H as ([] & b1 & H1 & H). cbn [app]. rewrite (calls_cons _ _ _ _ H1). by apply IH.
Qed.

(** The registers of another hart after the first [n] calls of [main_other]. *)
Definition hart_after (kpt : Z) (n : nat) (r : regs) : regs :=
  let r2 := w_satp (MAKE_SATP kpt) r in
  let r3 := trapinithart kernelvec r2 in
  match n with 0 | 1 => r | 2 => r2 | 3 => r3 | _ => plicinithart r3 end%nat.

(** Where another hart is, with the registers it must have there. *)
Definition other_at (kpt : Z) (h : nat) (pc : place_in_main) (r0 r : regs) : Prop :=
  match pc with
  | Spin => r = r0
  | At rest => exists n, (n <= 4)%nat /\ rest = drop n (main_other kernelvec h) /\ r = hart_after kpt n r0
  | Scheduler => r = hart_after kpt 4 r0
  end.

(** Hart 0 is still at it, alone; or it has done it and other harts have changed
    nothing but their own registers and the output. *)
Inductive boot_inv (b0 : bstate) : bstate * (nat -> place_in_main) -> Prop :=
| bi_first b pcs l rest : main_first kernelvec disk_pages junk 0 = l ++ rest -> rest <> [] -> calls l b0 = Ret tt b ->
    pcs 0%nat = At rest -> (forall h, h <> 0%nat -> pcs h = Spin) -> boot_inv b0 (b, pcs)
| bi_others b1 b pcs io : calls (main_first kernelvec disk_pages junk 0) b0 = Ret tt b1 -> booted b0 b1 ->
    (pcs 0%nat = At [] \/ pcs 0%nat = Scheduler) -> b_k b = set_k_io io (b_k b1) -> uart_ready (b_k b) ->
    b_kpt b = b_kpt b1 -> b_started b = 1 -> b_hart b 0%nat = b_hart b1 0%nat ->
    (forall h, h <> 0%nat -> other_at (b_kpt b1) h (pcs h) (b_hart b0 h) (b_hart b h)) -> boot_inv b0 (b, pcs).

Lemma calls_snoc l f b0 b b' : calls l b0 = Ret tt b -> f b = Ret tt b' -> calls (l ++ [f]) b0 = Ret tt b'.
Proof. intros H1 H2. rewrite (calls_app _ _ _ _ H1), (calls_cons _ _ _ _ H2). done. Qed.

Lemma first_not_started b0 l rest b : powered b0 -> main_first kernelvec disk_pages junk 0 = l ++ rest -> rest <> [] -> calls l b0 = Ret tt b ->
  b_started b = 0 /\ forall h, h <> 0%nat -> b_hart b h = b_hart b0 h.
Proof.
  intros Hp E Hne H. destruct (exists_last Hne) as (r & f & ->). rewrite app_assoc in E. apply keeps_main, Forall_app in E as [HF _]. destruct (calls_keeps l b0 b HF H) as [-> ?]. split; [apply Hp|done].
Qed.

(** One call of another hart. *)
Lemma other_call kpt h b f rest r0 b' : b_kpt b = kpt -> uart_ready (b_k b) -> k_held (b_k b) = [] ->
  other_at kpt h (At (f :: rest)) r0 (b_hart b h) -> f b = Ret tt b' ->
  exists io, b_k b' = set_k_io io (b_k b) /\ uart_ready (b_k b') /\ b_kpt b' = b_kpt b /\ b_started b' = b_started b /\
    (forall h', h' <> h -> b_hart b' h' = b_hart b h') /\ other_at kpt h (At rest) r0 (b_hart b' h).
Proof.
  intros Hk Hu Hh (n & Hn & Er & Hr) Hf. assert (Hid : b_k b = set_k_io (k_io (b_k b)) (b_k b)) by by destruct (b_k b).
  destruct n as [|[|[|[|[|n]]]]]; [| | | |by unfold main_other in Er|lia]; unfold main_other in Er; cbn [drop] in Er; injection Er as -> ->.
  - unfold gets in Hf. rewrite bind_Ret with (a := b_hart b h) (s' := b) in Hf by done. apply kern_inv in Hf as (s & E & ->).
    assert (Hfmt : exists out, format str_starting [AInt (cpuid (b_hart b h))] = Some out) by (eexists; reflexivity). destruct Hfmt as (out & Hfmt).
    destruct (printf_io str_starting [AInt (cpuid (b_hart b h))] out (b_k b)) as (io & E2 & Hu2 & _).
    { apply (bool_decide_unpack _). vm_compute. exact I. }
    { apply Forall_singleton. cbn. unfold cpuid, i32. pose proof (Z.mod_pos_bound (r_tp (b_hart b h) + 2 ^ 31) (2 ^ 32)). lia. }
    { done. } { done. } { rewrite Hh. apply not_elem_of_nil. }
    rewrite E in E2. injection E2 as ->. exists io. do 4 (split; [done|]). split; [done|]. exists 1%nat. split; [lia|]. done.
  - injection Hf as <-. eexists. split; [exact Hid|]. do 3 (split; [done|]). split; [intros h' Hne; cbn; by rewrite fn_lookup_insert_ne|].
    exists 2%nat. split; [lia|]. split; [done|]. cbn. rewrite fn_lookup_insert, Hr, Hk. done.
  - injection Hf as <-. eexists. split; [exact Hid|]. do 3 (split; [done|]). split; [intros h' Hne; cbn; by rewrite fn_lookup_insert_ne|].
    exists 3%nat. split; [lia|]. split; [done|]. cbn. rewrite fn_lookup_insert, Hr. done.
  - injection Hf as <-. eexists. split; [exact Hid|]. do 3 (split; [done|]). split; [intros h' Hne; cbn; by rewrite fn_lookup_insert_ne|].
    exists 4%nat. split; [lia|]. split; [done|]. cbn. rewrite fn_lookup_insert, Hr. done.
Qed.

Lemma boot_inv_step b0 x y : powered b0 -> boot_inv b0 x -> main_step kernelvec x y -> boot_inv b0 y.
Proof.
  intros Hp Hi Hs. destruct Hi as [b pcs l rest El Hne Hc H0 Hoth|b1 b pcs io Hc Hb H0 Hk Hu Hkpt Hst Hh0 Hoth].
  - inversion Hs as [b2 pcs2 h f rest' b' Hpc Hf|b2 pcs2 h Hpc|b2 pcs2 h Hpc Hz|b2 pcs2 h Hpc Hz]; subst; destruct (decide (h = 0%nat)) as [->|Hh]; try (rewrite (Hoth h Hh) in Hpc; discriminate Hpc); try (rewrite H0 in Hpc); try discriminate Hpc.
    + injection Hpc as ->. destruct rest' as [|g rest'].
      * destruct (main_first_run b0 Hp) as (b1 & E1 & Hb). assert (E2 : calls (main_first kernelvec disk_pages junk 0) b0 = Ret tt b') by (rewrite El; exact (calls_snoc _ _ _ _ _ Hc Hf)).
        rewrite E1 in E2. injection E2 as ->.
        apply bi_others with b' (k_io (b_k b')); try done; [by rewrite fn_lookup_insert; left|by destruct (b_k b')|apply Hb|apply Hb|].
        intros h Hh. rewrite fn_lookup_insert_ne by congruence. rewrite (Hoth h Hh). by apply (bt_harts _ _ Hb).
      * apply bi_first with (l ++ [f]) (g :: rest'); [by rewrite <- app_assoc|done|by eapply calls_snoc|by rewrite fn_lookup_insert|].
        intros h Hh. rewrite fn_lookup_insert_ne by congruence. by apply Hoth.
    + by injection Hpc.
    + by apply bi_first with l rest.
    + by rewrite (proj1 (first_not_started b0 l rest b Hp El Hne Hc)) in Hz.
  - inversion Hs as [b2 pcs2 h f rest' b' Hpc Hf|b2 pcs2 h Hpc|b2 pcs2 h Hpc Hz|b2 pcs2 h Hpc Hz]; subst.
    + destruct (decide (h = 0%nat)) as [->|Hh]; [by destruct H0 as [H0|H0]; rewrite H0 in Hpc|].
      pose proof (Hoth h Hh) as Ho. rewrite Hpc in Ho. assert (Hheld : k_held (b_k b) = []) by (rewrite Hk; apply Hb).
      destruct (other_call _ _ _ _ _ _ _ Hkpt Hu Hheld Ho Hf) as (io' & Ek & Hu' & Ekpt & Est & Hhs & Ho').
      apply bi_others with b1 io'; try done; [by rewrite fn_lookup_insert_ne|by rewrite Ek, Hk|congruence|congruence|rewrite Hhs by congruence; done|].
      intros h' Hh'. destruct (decide (h' = h)) as [->|Hne]; [by rewrite fn_lookup_insert|]. rewrite fn_lookup_insert_ne, Hhs by congruence. by apply Hoth.
    + apply bi_others with b1 io; try done; [destruct (decide (h = 0%nat)) as [->|Hh]; [by rewrite fn_lookup_insert; right|by rewrite fn_lookup_insert_ne]|].
      intros h' Hh'. destruct (decide (h' = h)) as [->|Hne]; [|rewrite fn_lookup_insert_ne by congruence; by apply Hoth]. rewrite fn_lookup_insert.
      pose proof (Hoth h Hh') as Ho. rewrite Hpc in Ho. destruct Ho as (n & Hn & Er & Hr). destruct n as [|[|[|[|[|n]]]]]; [discriminate Er..|exact Hr|lia].
    + by apply bi_others with b1 io.
    + apply bi_others with b1 io; try done; [destruct (decide (h = 0%nat)) as [->|Hh]; [by destruct H0 as [H0|H0]; rewrite H0 in Hpc|by rewrite fn_lookup_insert_ne]|].
      intros h' Hh'. destruct (decide (h' = h)) as [->|Hne]; [|rewrite fn_lookup_insert_ne by congruence; by apply Hoth]. rewrite fn_lookup_insert.
      pose proof (Hoth h Hh') as Ho. rewrite Hpc in Ho. exists 0%nat. split; [lia|]. split; [done|exact Ho].
Qed.

(** C8: however the harts that enter [main] are interleaved, no hart but hart 0
    does anything before all of hart 0's initialisation is done: as long as
    [started] is 0 the others spin with their registers unchanged. When one of
    them has left the loop, the kernel's state is that in which hart 0 left it,
    but for the console's output; and every hart that has come to [scheduler]
    runs on the kernel's page table, traps to [kernelvec] and has its
    interrupts enabled at the interrupt controller. *)
Theorem boot_order b0 b pcs :
  powered b0 -> rtc (main_step kernelvec) (b0, fun h => main kernelvec disk_pages junk h b0) (b, pcs) ->
  (b_started b = 0 -> forall h, h <> 0%nat -> pcs h = Spin /\ b_hart b h = b_hart b0 h) /\
  (forall h, h <> 0%nat -> pcs h <> Spin ->
     exists b1 io, calls (main_first kernelvec disk_pages junk 0) b0 = Ret tt b1 /\ booted b0 b1 /\ b_k b = set_k_io io (b_k b1) /\ b_kpt b = b_kpt b1) /\
  (forall h, pcs h = Scheduler -> r_satp (b_hart b h) = MAKE_SATP (b_kpt b) /\ r_stvec (b_hart b h) = kernelvec /\
     (PLIC_SENABLE (cpuid (b_hart b h)), 0x402) ∈ plic_writes (b_hart b h)).
Proof.
  intros Hp Hr. assert (Hi : boot_inv b0 (b, pcs)).
  { refine (rtc_ind_l (fun x => boot_inv b0 x -> boot_inv b0 (b, pcs)) (b, pcs) _ _ _ Hr _); [done|intros x y Hs _ IH Hx; by apply IH, (boot_inv_step b0 x)|].
    destruct (po_tp _ Hp) as [T0 T1]. apply bi_first with [] (main_first kernelvec disk_pages junk 0); try done; [unfold main; by rewrite T0|].
    intros h Hh. unfold main. destruct (Z.eqb_spec (cpuid (b_hart b0 h)) 0); [by destruct (T1 h Hh)|done]. }
  inversion Hi as [? ? l rest El Hne Hc H0 Hoth|b1 ? ? io Hc Hb H0 Hk Hu Hkpt Hst Hh0 Hoth]; subst.
  - destruct (first_not_started b0 l rest b Hp El Hne Hc) as [_ Hhs]. split; [intros _ h Hh; split; auto|]. split; [intros h Hh Hn; by destruct (Hn (Hoth h Hh))|].
    intros h Hs. destruct (decide (h = 0%nat)) as [->|Hh]; [by rewrite H0 in Hs|by rewrite (Hoth h Hh) in Hs].
  - split; [rewrite Hst; done|]. split; [intros h Hh _; by exists b1, io|].
    intros h Hs. destruct (decide (h = 0%nat)) as [->|Hh].
    + rewrite Hh0, Hkpt. split; [apply Hb|]. split; [apply Hb|]. rewrite (bt_plic _ _ Hb).
      rewrite (bt_cpuid _ _ Hb). cbn [app]. apply elem_of_cons. right. apply elem_of_cons. by left.
    + specialize (Hoth h Hh). rewrite Hs in Hoth. cbn in Hoth. rewrite Hoth, Hkpt. split; [done|]. split; [done|]. apply elem_of_cons. right. apply elem_of_cons. by left.
Qed.
End BootFacts.

Module BootWitness.
(** A machine with a disk, in which the kernel has just been loaded. *)
Definition vd_on : vdisk := set_vd_regs (fun r =>
  if r =? VIRTIO_MMIO_MAGIC_VALUE then 0x74726976 else if r =? VIRTIO_MMIO_VERSION then 1 else if r =? VIRTIO_MMIO_DEVICE_ID then 2
  else if r =? VIRTIO_MMIO_VENDOR_ID then 0x554d4551 else if r =? VIRTIO_MMIO_QUEUE_NUM_MAX then 1024 else 0) vd0.

Definition hart (h : nat) : regs := mkRegs 0 0 0 0 0 0 (match h with O => 0 | _ => 1 end) 0 (fun _ => 0) [].

Definition loaded : bstate := mkB (set_k_vd vd_on boot) hart (mkUart 0 0 0 0 0 []) (replicate (Z.to_nat NDEV) (mkDevsw None None)) 0 0.

Lemma loaded_powered : @powered sym_layout loaded.
Proof.
  split; try reflexivity.
  - vm_compute. intros H. discriminate H.
  - split; [reflexivity|]. cbn. lia.
  - split; [reflexivity|]. split; [|intros blk; reflexivity]. apply Forall_replicate. by repeat split.
  - vm_compute. intuition congruence.
  - split; [reflexivity|]. intros [|h] Hh; [done|]. vm_compute. discriminate.
Qed.

Lemma main_boot_witness : exists b', calls (@main_first sym_layout BioWitness.now_driver 0x80006000 0x80020000 (replicate 14 0) 0) loaded = Ret tt b' /\
  b_started b' = 1 /\ r_satp (b_hart b' 0) = MAKE_SATP (b_kpt b') /\ u_dll (b_uart b') = 3.
Proof.
  destruct (@main_boot sym_layout BioWitness.now_driver 0x80006000 0x80020000 (replicate 14 0) loaded loaded_powered) as (b' & E & Hb). exists b'. split; [exact E|].
  destruct Hb as [B1 B2 B3 B4]. split; [exact B1|]. split; [exact B4|]. rewrite B2. reflexivity.
Defined.

(** Hart 1 has tried once. *)
Lemma boot_order_witness : exists pcs, rtc (@main_step 0x80006000) (loaded, fun h => @main sym_layout BioWitness.now_driver 0x80006000 0x80020000 (replicate 14 0) h loaded) (loaded, pcs) /\
  pcs 1%nat = Spin.
Proof.
  exists (fun h => @main sym_layout BioWitness.now_driver 0x80006000 0x80020000 (replicate 14 0) h loaded).
  assert (Hr : rtc (@main_step 0x80006000) (loaded, fun h => @main sym_layout BioWitness.now_driver 0x80006000 0x80020000 (replicate 14 0) h loaded) (loaded, fun h => @main sym_layout BioWitness.now_driver 0x80006000 0x80020000 (replicate 14 0) h loaded))
    by (apply rtc_once, (step_wait _ _ _ 1%nat); reflexivity).
  split; [exact Hr|]. apply (proj1 (@boot_order sym_layout BioWitness.now_driver 0x80006000 0x80020000 (replicate 14 0) loaded loaded _ loaded_powered Hr)); [reflexivity|discriminate].
Defined.
End BootWitness.
