(* ===== verification/Initcode.v ===== *)
(** * user/initcode.S: the first user program

    The bytes of [initcode] in kernel/proc.c are decoded and run from address
    0, as the first process runs them: they are what initcode.S says, and
    they call exec("/init", argv). *)

From stdpp Require Import functions.
From S2P Require Import Prelude Machine State Vm VmFacts VmUser Printf Bio Uio Fs Proc Syscall Trap FirstProc Boot BootFacts.

(** ** The instructions that it has *)

(** Registers by number; a0 is 10, a1 is 11, a7 is 17, ra is 1. *)
Inductive uins :=
| AUIPC (rd imm : Z)
| ADDI (rd rs imm : Z)
| ECALL
| JAL (rd imm : Z).

#[export] Instance uins_eq : EqDecision uins.
Proof. solve_decision. Defined.

(** Bits [lo] to [lo + n - 1] of a word. *)
Definition bits (w lo n : Z) : Z := Z.land (Z.shiftr w lo) (Z.ones n).

Definition signed (n x : Z) : Z := if Z.testbit x (n - 1) then x - 2 ^ n else x.

Definition decode (w : Z) : option uins :=
  let op := bits w 0 7 in
  let rd := bits w 7 5 in
  if op =? 0x17 then Some (AUIPC rd (signed 20 (bits w 12 20)))
  else if (op =? 0x13) && (bits w 12 3 =? 0) then Some (ADDI rd (bits w 15 5) (signed 12 (bits w 20 12)))
  else if w =? 0x73 then Some ECALL
  else if op =? 0x6f
  then Some (JAL rd (2 * signed 20 (Z.lor (Z.shiftl (bits w 31 1) 19) (Z.lor (Z.shiftl (bits w 12 8) 11) (Z.lor (Z.shiftl (bits w 20 1) 10) (bits w 21 10))))))
  else None.

(** ** initcode.S *)

(** The labels, as the array has them: [argv] right after the string. *)
Definition lab_exit : Z := 0x18.
Definition lab_init : Z := 0x24.
Definition lab_argv : Z := 0x2b.

(** [la rd, label] at [pc] *)
Definition la (rd label pc : Z) : list uins := [AUIPC rd 0; ADDI rd rd (label - pc)].
Definition li (rd v : Z) : uins := ADDI rd 0 v.

Definition start : list uins := la 10 lab_init 0 ++ la 11 lab_argv 8 ++ [li 17 SYS_exec; ECALL].
Definition exit_loop : list uins := [li 17 SYS_exit; ECALL; JAL 1 (lab_exit - 0x20)].
Definition init_string : list Z := bytes "/init" ++ [0; 0].

(** [.long init], [.long 0] and the zeros of the array's end *)
Definition argv_words : list Z := [lab_init; 0; 0; 0; 0; 0; 0; 0; 0].

Definition word_at (l : list Z) (k : nat) : Z := fold_right (fun b r => b + 256 * r) 0 (take 4 (drop (4 * k) l)).

(** The array in proc.c is initcode.S assembled. *)
Lemma initcode_assembled :
  map (fun k => decode (word_at initcode k)) (seq 0 9) = map Some (start ++ exit_loop) /\ drop 36 initcode = init_string ++ argv_words.
Proof. by vm_compute. Qed.

(** ** Running it *)

Record user := mkUser { u_pc : Z; u_reg : Z -> Z }.

Definition u_get (u : user) (r : Z) : Z := if r =? 0 then 0 else u_reg u r.
Definition u_set (r v : Z) (u : user) : user := mkUser (u_pc u + 4) (if r =? 0 then u_reg u else <[r := u64 v]> (u_reg u)).

(** One instruction of a program whose page 0 is the page [y] of memory;
    [None] at a system call. *)
Definition user_step (m : memory) (y : Z) (u : user) : option user :=
  match decode (ld 4 m (y + u_pc u)) with
  | Some (AUIPC rd imm) => Some (u_set rd (u_pc u + imm * 2 ^ 12) u)
  | Some (ADDI rd rs imm) => Some (u_set rd (u_get u rs + imm) u)
  | Some (JAL rd imm) => Some (mkUser (u_pc u + imm) (u_reg (u_set rd (u_pc u + 4) u)))
  | _ => None
  end.

Fixpoint user_run (fuel : nat) (m : memory) (y : Z) (u : user) : option user :=
  match fuel with
  | O => None
  | S f => match user_step m y u with
           | Some u' => user_run f m y u'
           | None => if decide (decode (ld 4 m (y + u_pc u)) = Some ECALL) then Some u else None
           end
  end.

(** ** What it does *)

Lemma page_ld m y n k : page_holds m y initcode -> 0 <= k -> k + Z.of_nat n <= PGSIZE -> ld n m (y + k) = ld n (fun i => nth (Z.to_nat i) initcode 0) k.
Proof.
  intros Hp. revert k. induction n as [|n IH]; intros k Hk Hn; [done|]. cbn [ld]. rewrite Hp by lia. replace (y + k + 1) with (y + (k + 1)) by lia. by rewrite IH by lia.
Qed.

(** The instruction at [pc]. *)
Lemma page_code m y pc i : page_holds m y initcode -> 0 <= pc < 36 -> decode (ld 4 (fun i => nth (Z.to_nat i) initcode 0) pc) = Some i -> decode (ld 4 m (y + pc)) = Some i.
Proof. intros Hp Hpc <-. f_equal. apply page_ld; [done|lia|unfold PGSIZE; lia]. Qed.

Lemma user_run_step f m y u u' : user_step m y u = Some u' -> user_run (S f) m y u = user_run f m y u'.
Proof. intros H. cbn [user_run]. by rewrite H. Qed.

Lemma user_run_ecall f m y u : decode (ld 4 m (y + u_pc u)) = Some ECALL -> user_run (S f) m y u = Some u.
Proof. intros H. cbn [user_run]. unfold user_step. rewrite H. by rewrite decide_True. Qed.

Lemma step_auipc m y u rd imm : decode (ld 4 m (y + u_pc u)) = Some (AUIPC rd imm) -> user_step m y u = Some (u_set rd (u_pc u + imm * 2 ^ 12) u).
Proof. intros H. unfold user_step. by rewrite H. Qed.
Lemma step_addi m y u rd rs imm : decode (ld 4 m (y + u_pc u)) = Some (ADDI rd rs imm) -> user_step m y u = Some (u_set rd (u_get u rs + imm) u).
Proof. intros H. unfold user_step. by rewrite H. Qed.
Lemma step_jal m y u rd imm : decode (ld 4 m (y + u_pc u)) = Some (JAL rd imm) -> user_step m y u = Some (mkUser (u_pc u + imm) (u_reg (u_set rd (u_pc u + 4) u))).
Proof. intros H. unfold user_step. by rewrite H. Qed.

(** Run to the next system call: the instructions come from [page_code]. *)
Ltac fetch := apply page_code; [assumption|cbn; lia|vm_compute; reflexivity].
Ltac run_insn :=
  first [rewrite user_run_ecall; [reflexivity|fetch]
        |erewrite user_run_step; [|first [apply step_auipc; fetch|apply step_addi; fetch|apply step_jal; fetch]]].

(** From [start] to the first system call. *)
Lemma initcode_start m y r : page_holds m y initcode ->
  exists u, user_run 6 m y (mkUser 0 r) = Some u /\ u_pc u = 0x14 /\ u_reg u 17 = SYS_exec /\ u_reg u 10 = lab_init /\ u_reg u 11 = lab_argv.
Proof. intros Hp. eexists. split; [repeat run_insn|]. by vm_compute. Qed.

(** From a return of the first to the second, and from a return of that to it
    again. *)
Lemma initcode_exit m y r : page_holds m y initcode ->
  (exists u, user_run 2 m y (mkUser 0x18 r) = Some u /\ u_pc u = 0x1c /\ u_reg u 17 = SYS_exit) /\
  (exists u, user_run 3 m y (mkUser 0x20 r) = Some u /\ u_pc u = 0x1c /\ u_reg u 17 = SYS_exit).
Proof. intros Hp. split; (eexists; split; [repeat run_insn|]; by vm_compute). Qed.

(** C10: the first process, as the kernel starts it, runs initcode.S: from
    whatever registers, at address 0 of the page that its page table has
    there, it comes to a system call with the number of exec, the path
    "/init" and an argument vector that has this path and ends; if exec
    returns, it calls exit, again and again. *)
Theorem initcode_execs `{LAY : Layout} `{DD : DiskDriver} kernelvec b b' r : booted kernelvec b b' ->
  let m := k_mem (b_k b') in
  exists pr y, k_proc (b_k b') !! 0%nat = Some pr /\ p_state pr = RUNNABLE /\
    ld64 m (p_trapframe pr + TF_epc) = 0 /\ aspace m (p_pagetable pr) 0 = mkpte y (Z.lor user_perm PTE_V) /\
    (exists u, user_run 6 m y (mkUser 0 r) = Some u /\ u_pc u = 0x14 /\ u_reg u 17 = SYS_exec /\
       rdbytes m (y + u_reg u 10) 6 = bytes "/init" ++ [0] /\
       ld64 m (y + u_reg u 11) = u_reg u 10 /\ ld64 m (y + (u_reg u 11 + 8)) = 0) /\
    (forall r1, exists u, user_run 2 m y (mkUser 0x18 r1) = Some u /\ u_pc u = 0x1c /\ u_reg u 17 = SYS_exit) /\
    (forall r1, exists u, user_run 3 m y (mkUser 0x20 r1) = Some u /\ u_pc u = 0x1c /\ u_reg u 17 = SYS_exit).
Proof.
  intros Hb m. destruct (bt_proc _ _ _ Hb) as (tf & pt & y & Hp & Hm & He & Hs & Hc & _). exists (first_proc (set_p_kstack (KSTACK 0) proc0) (k_nextpid (b_k b)) tf pt), y.
  split; [done|]. split; [done|]. split; [exact He|]. split; [|split; [|split; intros r1; by apply (initcode_exit m y r1)]].
  - cbn [p_pagetable first_proc alloced_proc set_p_state]. rewrite Hm by (vm_compute; intuition congruence). unfold map_range. cbn [Z.leb Z.ltb Z.compare andb Z.add Z.sub Z.mul Z.opp]. by rewrite Z.add_0_r.
  - destruct (initcode_start m y r Hc) as (u & E & H1 & H2 & H3 & H4). exists u. split; [done|]. split; [done|]. split; [done|]. rewrite H3, H4.
    unfold ld64. rewrite !(page_ld m y 8) by (done || unfold lab_argv, PGSIZE; lia). split; [|by vm_compute].
    unfold rdbytes. transitivity (map (fun i => u8 (nth (Z.to_nat (lab_init + Z.of_nat i)) initcode 0)) (seq 0 6)); [|by vm_compute].
    apply map_ext_in. intros i Hi%in_seq. f_equal. rewrite <- Hc by (unfold lab_init, PGSIZE; lia). f_equal. lia.
Qed.

Module InitcodeWitness.
Import BootWitness.

Lemma initcode_execs_witness : exists b' y u, user_run 6 (k_mem (b_k b')) y (mkUser 0 (fun _ => 0)) = Some u /\ u_reg u 17 = SYS_exec.
Proof.
  destruct (@main_first_run sym_layout BioWitness.now_driver 0x80006000 0x80020000 (replicate 14 0) loaded loaded_powered) as (b' & _ & Hb).
  destruct (@initcode_execs sym_layout BioWitness.now_driver 0x80006000 loaded b' (fun _ => 0) Hb) as (pr & y & _ & _ & _ & _ & (u & E & _ & H & _) & _).
  exists b', y, u. split; [exact E|exact H].
Defined.
End InitcodeWitness.
