(* ===== verification/Path.v ===== *)
(** * A system call, from the user program and back

    The stubs of user/usys.S, the trap of the hart, the trampoline and the
    kernel's [usertrap], put together: what a system call does to the
    registers of the program that makes it. *)

From stdpp Require Import functions.
From S2P Require Import Prelude Machine State Kalloc Vm Printf Sched Bio Virtio Uio Fs Proc Syscall Trap TrapFacts Riscv Asm.

(** ** user/usys.S *)

(** A stub loads the number and traps; it returns to its caller after that. *)
Definition stub `{MMU : Mmu} (num : Z) : M mach unit := block [LI a7 num].
Definition stub_ret : M mach Z := jr ra.

Definition usys : list (list Z * Z) :=
  [(bytes "fork", SYS_fork); (bytes "exit", SYS_exit); (bytes "wait", SYS_wait); (bytes "pipe", SYS_pipe); (bytes "read", SYS_read); (bytes "write", SYS_write);
   (bytes "close", SYS_close); (bytes "kill", SYS_kill); (bytes "exec", SYS_exec); (bytes "open", SYS_open); (bytes "mknod", SYS_mknod); (bytes "unlink", SYS_unlink);
   (bytes "fstat", SYS_fstat); (bytes "link", SYS_link); (bytes "mkdir", SYS_mkdir); (bytes "chdir", SYS_chdir); (bytes "dup", SYS_dup); (bytes "getpid", SYS_getpid);
   (bytes "sbrk", SYS_sbrk); (bytes "sleep", SYS_sleep); (bytes "uptime", SYS_uptime); (bytes "getprocs", SYS_getprocs); (bytes "wait2", SYS_wait2); (bytes "freepmem", SYS_freepmem);
   (bytes "mmap", SYS_mmap); (bytes "munmap", SYS_munmap); (bytes "sem_init", SYS_sem_init); (bytes "sem_destroy", SYS_sem_destroy); (bytes "sem_wait", SYS_sem_wait); (bytes "sem_post", SYS_sem_post)].

(** ** The trap *)

(** [sstatus] after a trap from user mode: interrupts are off, and whether
    they were on is kept. *)
Definition trap_sstatus (x : Z) : Z :=
  Z.lor (Z.land x (Z.lnot (Z.lor SSTATUS_SPP (Z.lor SSTATUS_SIE SSTATUS_SPIE)))) (if Z.testbit x 1 then SSTATUS_SPIE else 0).

(** [ecall] in user mode at the program counter [pc]: the hart goes to
    supervisor mode at [stvec], with the cause and the program counter in their
    registers and the previous mode, user, in [sstatus]. *)
Definition ecall (pc : Z) : M mach Z :=
  modify (fun m => set_mode Supervisor (set_csr sepc pc (set_csr scause 8
    (set_csr sstatus (trap_sstatus (m_csr m sstatus)) m)))) ;;;
  gets (fun m => m_csr m stvec).

(** The registers of the hart as the kernel's trap code reads them. *)
Definition trap_regs (m : mach) (r : regs) : Prop :=
  r_sstatus r = m_csr m sstatus /\ r_scause r = m_csr m scause /\ r_sepc r = m_csr m sepc /\ r_satp r = m_csr m satp /\ r_tp r = m_reg m tp.

(** The hart on the way back: [userret] is called with the trap frame and the
    page table, and the registers that [usertrapret] wrote. *)
Definition returning (m : mach) (r : regs) (tfva usatp : Z) : Prop :=
  m_reg m a0 = tfva /\ m_reg m a1 = usatp /\ m_csr m sstatus = r_sstatus r /\ m_csr m sepc = r_sepc r /\ m_mode m = Supervisor.

Section Path.
Context `{LAY : Layout} `{DD : DiskDriver} `{MMU : Mmu}.
Context (kernelvec : Z) (junk : list Z).

(** A process in user space: the hart has its page table, which maps its trap
    frame, and shares the memory with the kernel. *)
Record in_user (m : mach) (s : kstate) (p : nat) (pr : proc) : Prop := {
  iu_mode : m_mode m = User;
  iu_regs : regs_ok m;
  iu_mem : m_mem m = k_mem s;
  iu_cur : k_cur s = Some p;
  iu_proc : k_proc s !! p = Some pr;
  iu_killed : p_killed pr = 0;
  iu_scratch : m_csr m sscratch = TRAPFRAME;
  iu_satp : m_csr m satp = MAKE_SATP (p_pagetable pr);
  iu_frame : forall o, 0 <= o < 288 -> translate (MAKE_SATP (p_pagetable pr)) (TRAPFRAME + o) = Some (p_trapframe pr + o)
}.

(** The call [f] returned [v] in [s2] and left the trap frame of the process
    and its page table alone. *)
Record call_done (s1 s2 : kstate) (p : nat) (pr pr2 : proc) : Prop := {
  cd_cur : k_cur s2 = Some p;
  cd_proc : k_proc s2 !! p = Some pr2;
  cd_killed : p_killed pr2 = 0;
  cd_tf : p_trapframe pr2 = p_trapframe pr;
  cd_pt : p_pagetable pr2 = p_pagetable pr;
  cd_frame : forall a, p_trapframe pr <= a < p_trapframe pr + 288 -> k_mem s2 a = k_mem s1 a
}.

Lemma trapframe_va o : 0 <= o < 288 -> u64 (TRAPFRAME + o) = TRAPFRAME + o.
Proof. intros Ho. apply u64_small. assert (E : TRAPFRAME = 274877898752) by reflexivity. lia. Qed.

(** The trap: [ecall] and [uservec]. *)
Lemma trap_run m s p pr pc : in_user m s p pr -> 0 <= pc < 2 ^ 64 ->
  let tf := p_trapframe pr in
  exists m1, (_ <- ecall pc ;; uservec) m = Ret (ld64 (k_mem s) (tf + TF_kernel_trap)) m1 /\
    (forall r, ld64 (m_mem m1) (tf + tf_reg r) = m_reg m r) /\ (forall a, a < tf + 40 \/ tf + 288 <= a -> m_mem m1 a = k_mem s a) /\
    m_csr m1 scause = 8 /\ m_csr m1 sepc = pc /\ Z.testbit (m_csr m1 sstatus) 8 = false /\ m_mode m1 = Supervisor.
Proof.
  intros [Hmode Hr Hmem Hc Hp Hk Hsc Hsatp Hfr] Hpc tf.
  set (m0 := set_mode Supervisor (set_csr sepc pc (set_csr scause 8 (set_csr sstatus (trap_sstatus (m_csr m sstatus)) m)))).
  destruct (uservec_run m0 tf) as (m1 & E1 & H1 & H2 & _ & _ & _ & H5 & H6).
  - exact Hr.
  - change (m_csr m0 sscratch) with (m_csr m sscratch). rewrite Hsc. done.
  - intros o Ho. change (m_csr m0 sscratch) with (m_csr m sscratch). rewrite Hsc, trapframe_va by done. change (phys m0 (TRAPFRAME + o)) with (translate (m_csr m satp) (TRAPFRAME + o)).
    rewrite Hsatp. by apply Hfr.
  - exists m1. rewrite <- Hmem. split; [exact E1|]. split; [done|]. split; [done|]. rewrite !H5 by done. split; [done|]. split; [done|]. split; [|by rewrite H6].
    change (m_csr m0 sstatus) with (trap_sstatus (m_csr m sstatus)). unfold trap_sstatus. rewrite Z.lor_spec, Z.land_spec. unfold SSTATUS_SPP, SSTATUS_SIE, SSTATUS_SPIE.
    rewrite Z.lnot_spec by done. change (Z.testbit (Z.lor (Z.shiftl 1 8) (Z.lor (Z.shiftl 1 1) (Z.shiftl 1 5))) 8) with true. rewrite andb_false_r. by destruct (Z.testbit (m_csr m sstatus) 1).
Qed.

(** C6: a system call changes one register. A program that calls a stub of
    usys.S with the number of a call goes to the kernel's [usertrap] with its
    registers saved; when the call returns, leaving the trap frame and the page
    table alone, the hart is back in user mode behind the [ecall] with the
    value in [a0], the number in [a7] and every other register as it was, and
    the stub returns to its caller. *)
Theorem syscall_path m s p pr num pc f :
  in_user m s p pr -> 0 <= pc < 2 ^ 64 -> 0 <= num < 2 ^ 31 -> syscalls junk num = Some f ->
  exists m0 m1, stub num m = Ret tt m0 /\ (_ <- ecall pc ;; uservec) m0 = Ret (ld64 (k_mem s) (p_trapframe pr + TF_kernel_trap)) m1 /\
    let s1 := set_k_mem (m_mem m1) s in
    forall r r' v s2 pr2, trap_regs m1 r -> f (at_syscall r pr s1) = Ret v s2 -> call_done (at_syscall r pr s1) s2 p pr pr2 ->
    exists r1 s3, usertrap kernelvec junk r r' s1 = Ret (r1, TRAPFRAME, MAKE_SATP (p_pagetable pr)) s3 /\
      forall m2, m_mem m2 = k_mem s3 -> returning m2 r1 TRAPFRAME (MAKE_SATP (p_pagetable pr)) ->
        exists m3, userret m2 = Ret (u64 (pc + 4)) m3 /\ stub_ret m3 = Ret (m_reg m ra) m3 /\ m_mode m3 = User /\
          m_reg m3 a0 = u64 v /\ m_reg m3 a7 = num /\ (forall x, x <> a0 -> x <> a7 -> m_reg m3 x = m_reg m x).
Proof.
  intros Hu Hpc Hnum Hf. set (m0 := set_reg a7 (u64 num) m). set (tf := p_trapframe pr).
  assert (Hu0 : in_user m0 s p pr).
  { destruct Hu as [? Hr ? ? ? ? ? ? ?]. split; try done. intros x. cbn. destruct (decide (x = a7)) as [->|]; [rewrite fn_lookup_insert; apply u64_range|rewrite fn_lookup_insert_ne by congruence; apply Hr]. }
  destruct (trap_run m0 s p pr pc Hu0 Hpc) as (m1 & E1 & Hsave & _ & Hcause & Hepc & Hspp & _). fold tf in E1, Hsave.
  exists m0, m1. split; [done|]. split; [exact E1|]. intros s1 r r' v s2 pr2 (R1 & R2 & R3 & _) Ef [D1 D2 D3 D4 D5 D6].
  assert (Ha7 : i32 (ld64 (k_mem s1) (tf + TF_a7)) = num).
  { change (k_mem s1) with (m_mem m1). rewrite (Hsave a7 : ld64 (m_mem m1) (tf + TF_a7) = _). cbn. rewrite fn_lookup_insert, u64_small by lia. apply i32_small. lia. }
  destruct (usertrap_syscall kernelvec junk r r' s1 p pr f v s2 pr2) as (Hpc4 & r1 & mem & E & Ha0 & Hepc1 & Hss & Hfr); try done.
  { rewrite R1. unfold SSTATUS_SPP. by rewrite hasbit_testbit. }
  { by rewrite R2. }
  { apply (iu_cur _ _ _ _ Hu). }
  { apply (iu_proc _ _ _ _ Hu). }
  { apply (iu_killed _ _ _ _ Hu). }
  { fold tf. by rewrite Ha7. }
  unfold frame_ready in Hfr. cbv zeta in Hfr, Ha0, Hepc1. rewrite D4 in Hfr, Ha0, Hepc1. rewrite D5 in E. fold tf in Hfr, Ha0, Hepc1, D6, Hpc4. destruct Hfr as (_ & _ & _ & _ & Hfr).
  exists r1, (set_k_mem mem s2). split; [exact E|].
  intros m2 Hm2 (Q1 & Q2 & Q3 & Q4 & Q5). change (k_mem (set_k_mem mem s2)) with mem in Hm2.
  destruct (userret_run m2 tf) as (m3 & E3 & G1 & _ & _ & _ & G5).
  { intros o Ho. rewrite Q1, Q2, trapframe_va by done. unfold phys. cbn. rewrite Q5, fn_lookup_insert. by apply (iu_frame _ _ _ _ Hu). }
  assert (Hword : forall x, x <> a0 -> m_reg m3 x = m_reg m0 x).
  { intros x Hx. pose proof (user_frame_range _ (user_frame_elem x Hx)) as (_ & _ & X1 & X2 & X3). cbn [snd] in X1, X2, X3. rewrite G1, <- Hsave, Hm2. apply ld_ext. intros a Ha.
    rewrite Hfr by (unfold TF_kernel_hartid, TF_epc; lia). unfold st64, TF_a0. rewrite st_outside by (Z.div_mod_to_equations; lia). rewrite D6 by lia.
    unfold at_syscall, TF_epc. kred. unfold st64. fold tf. rewrite !st_outside by lia. done. }
  assert (Hret : r_sepc r1 = u64 (pc + 4)).
  { rewrite Hepc1. unfold ld64. rewrite (ld_ext 8 (k_mem (at_syscall r pr s1))); [|intros a Ha; apply D6; unfold TF_epc in Ha; lia].
    change (ld64 (k_mem (at_syscall r pr s1)) (tf + TF_epc) = u64 (pc + 4)). by rewrite Hpc4, R3, Hepc. }
  exists m3. split; [by rewrite E3, Q4, Hret|]. split; [unfold stub_ret, jr, gets; by rewrite (Hword ra)|].
  split; [|split; [|split]].
  - rewrite G5, Q3. destruct Hss as (Hb & _). unfold SSTATUS_SPP in Hb. rewrite hasbit_testbit in Hb by done. by rewrite Hb.
  - rewrite G1, Hm2. exact Ha0.
  - rewrite (Hword a7) by done. cbn. rewrite fn_lookup_insert. apply u64_small. lia.
  - intros x Hx0 Hx7. rewrite (Hword x) by done. cbn. by rewrite fn_lookup_insert_ne by congruence.
Qed.

(** Every stub asks for a call of its own that the kernel's table has. *)
Lemma usys_dispatch : NoDup usys.*2 /\ Forall (fun x => is_Some (syscalls junk x.2)) usys.
Proof. split; [apply (bool_decide_unpack _); vm_compute; exact I|]. unfold usys. repeat (apply Forall_cons; split; [by eexists|]). by apply Forall_nil. Qed.
End Path.

Module PathWitness.
(** A page table at 0 that maps the trap frame to 4096. *)
#[local] Instance demo_mmu : Mmu := {| translate := fun satp va => if satp =? 0 then Some va else Some (va - TRAPFRAME + 4096); translate_off := fun va => eq_refl |}.

Definition pr : proc := set_p_pid 3 (set_p_trapframe 4096 (set_p_state RUNNING proc0)).
Definition s : kstate := TickWitness.caller 0.
Definition m : mach := mkMach (fun _ => 7) (fun c => match c with sscratch => TRAPFRAME | satp => MAKE_SATP 0 | _ => 0 end) (k_mem s) User.

Lemma m_in_user : in_user m s 0 pr.
Proof.
  split; try reflexivity.
  - intros r. cbn. lia.
  - intros o Ho. change (Some (TRAPFRAME + o - TRAPFRAME + 4096) = Some (4096 + o)). f_equal. lia.
Qed.

Lemma syscall_path_witness : exists m0 m1 r1 s3, stub SYS_getpid m = Ret tt m0 /\
  usertrap (LAY := sym_layout) (DD := BioWitness.now_driver) 0 []
    (mkRegs (m_csr m1 sstatus) (m_csr m1 scause) (m_csr m1 sepc) 0 (m_csr m1 satp) 0 (m_reg m1 tp) 0 (fun _ => 0) []) TickWitness.regs0 (set_k_mem (m_mem m1) s)
    = Ret (r1, TRAPFRAME, MAKE_SATP 0) s3 /\
  exists m3, userret (mkMach (fun x => match x with a0 => TRAPFRAME | _ => MAKE_SATP 0 end)
    (fun c => match c with sstatus => r_sstatus r1 | sepc => r_sepc r1 | _ => 0 end) (k_mem s3) Supervisor) = Ret 104 m3 /\ m_reg m3 a0 = 3 /\ m_reg m3 s5 = 7.
Proof.
  destruct (syscall_path (LAY := sym_layout) (DD := BioWitness.now_driver) 0 [] m s 0 pr SYS_getpid 100 sys_getpid m_in_user) as (m0 & m1 & E0 & E1 & H); [done|done|reflexivity|].
  set (r := mkRegs (m_csr m1 sstatus) (m_csr m1 scause) (m_csr m1 sepc) 0 (m_csr m1 satp) 0 (m_reg m1 tp) 0 (fun _ => 0) []) in *.
  destruct (H r TickWitness.regs0 3 (at_syscall r pr (set_k_mem (m_mem m1) s)) pr) as (r1 & s3 & E2 & H2); [by repeat split|reflexivity|by split|].
  exists m0, m1, r1, s3. split; [exact E0|]. split; [exact E2|].
  destruct (H2 (mkMach (fun x => match x with a0 => TRAPFRAME | _ => MAKE_SATP 0 end)
    (fun c => match c with sstatus => r_sstatus r1 | sepc => r_sepc r1 | _ => 0 end) (k_mem s3) Supervisor) eq_refl) as (m3 & E3 & _ & _ & Ha & _ & Hx); [by repeat split|].
  exists m3. split; [exact E3|]. split; [exact Ha|]. by apply (Hx s5).
Defined.
End PathWitness.
