(* ===== verification/Ulib.v ===== *)
(** * user/ulib.c: the C library of user programs

    The string and memory routines as loops over the process's byte memory,
    against the same list descriptions as the kernel's routines ([CString]);
    the system calls of user/user.h that programs use, as a class of
    operations on a world, and the routines of ulib.c built on them. Plain
    [char] is unsigned on RISC-V. *)

From S2P Require Import Prelude Machine CString Printf.

(** ** Strings and memory *)

Definition strcpy (s t : Z) : Mem Z :=
  loop (fun '(s, t) =>
    c <- rd8 t ;; wr8 s c ;;;
    if c =? 0 then ret (inr tt) else ret (inl (s + 1, t + 1))) (s, t) ;;;
  ret s.

Definition strcmp (p q : Z) : Mem Z :=
  loop (fun '(p, q) =>
    a <- rd8 p ;; b <- rd8 q ;;
    if negb (a =? 0) && (a =? b) then ret (inl (p + 1, q + 1)) else ret (inr (a - b))) (p, q).

Definition strlen (s : Z) : Mem Z :=
  n <- loop (fun n =>
    c <- rd8 (s + n) ;;
    if c =? 0 then ret (inr n) else ret (inl (i32 (n + 1)))) 0 ;;
  ret (u32 n).

Definition memset (dst c n : Z) : Mem Z :=
  loop (fun i =>
    if u32 i <? n
    then wr8 (dst + i) c ;;; ret (inl (i32 (i + 1)))
    else ret (inr tt)) 0 ;;;
  ret dst.

(** Null is [None]. *)
Definition strchr (s c : Z) : Mem (option Z) :=
  loop (fun s =>
    x <- rd8 s ;;
    if x =? 0 then ret (inr None)
    else if x =? c then ret (inr (Some s)) else ret (inl (s + 1))) s.

Definition atoi (s : Z) : Mem Z :=
  loop (fun '(s, n) =>
    c <- rd8 s ;;
    if (48 <=? c) && (c <=? 57) then ret (inl (s + 1, i32 (n * 10 + c - 48))) else ret (inr n)) (s, 0).

Definition memmove (vdst vsrc n : Z) : Mem Z :=
  (if vsrc >? vdst
   then loop (fun '(s, d, n) =>
          if n >? 0
          then v <- rd8 s ;; wr8 d v ;;; ret (inl (s + 1, d + 1, i32 (n - 1)))
          else ret (inr tt)) (vsrc, vdst, n)
   else loop (fun '(s, d, n) =>
          if n >? 0
          then v <- rd8 (s - 1) ;; wr8 (d - 1) v ;;; ret (inl (s - 1, d - 1, i32 (n - 1)))
          else ret (inr tt)) (vsrc + n, vdst + n, n)) ;;;
  ret vdst.

Definition memcmp (s1 s2 n : Z) : Mem Z :=
  loop (fun '(p1, p2, n) =>
    if n >? 0
    then a <- rd8 p1 ;; b <- rd8 p2 ;;
         if a =? b then ret (inl (p1 + 1, p2 + 1, u32 (n - 1))) else ret (inr (a - b))
    else ret (inr 0)) (s1, s2, n).

Definition memcpy (dst src n : Z) : Mem Z := memmove dst src n.

(** ** What they compute *)

(** The string at [a] is [l]. *)
Definition string_at (m : memory) (a : Z) (l : list Z) : Prop :=
  (forall i, 0 <= i < Z.of_nat (length l) -> u8 (m (a + i)) = nth (Z.to_nat i) l 0) /\
  u8 (m (a + Z.of_nat (length l))) = 0 /\ Forall (fun c => 0 < c < 256) l.

Lemma string_at_cons m a c l : string_at m a (c :: l) <-> u8 (m a) = c /\ 0 < c < 256 /\ string_at m (a + 1) l.
Proof.
  unfold string_at. rewrite Forall_cons. cbn [length]. split.
  - intros (H & Hz & Hc & Hl). split; [|split; [done|split; [|split; [|done]]]].
    + rewrite <- (Z.add_0_r a). apply (H 0). lia.
    + intros i Hi. specialize (H (i + 1) ltac:(lia)). replace (Z.to_nat (i + 1)) with (S (Z.to_nat i)) in H by lia.
      cbn [nth] in H. rewrite <- H. do 2 f_equal. lia.
    + rewrite <- Hz. do 2 f_equal. lia.
  - intros (H0 & Hc & H & Hz & Hl). split; [|split; [|done]].
    + intros i Hi. destruct (decide (i = 0)) as [->|Hne]; [by rewrite Z.add_0_r|].
      specialize (H (i - 1) ltac:(lia)). replace (Z.to_nat i) with (S (Z.to_nat (i - 1))) by lia. cbn [nth]. rewrite <- H.
      do 2 f_equal. lia.
    + rewrite <- Hz. do 2 f_equal. lia.
Qed.

Lemma string_at_nil m a : string_at m a [] <-> u8 (m a) = 0.
Proof.
  unfold string_at. cbn [length]. rewrite Z.add_0_r. split; [tauto|]. intros H. split; [intros i Hi; lia|]. split; [done|].
  apply Forall_nil_2.
Qed.

(** The user's [memmove] and the kernel's, which choose the direction of the
    copy differently, are the same function: for every overlap both copy as if
    through a temporary buffer. *)
Theorem memmove_equiv dst src n m :
  0 <= n < 2 ^ 31 ->
  exists m1 m2, memmove dst src n m = Ret dst m1 /\ CString.memmove dst src n m = Ret dst m2 /\
    forall x, m1 x = m2 x /\ m1 x = copy m dst src n x.
Proof.
  intros Hn. destruct (CString.memmove_correct dst src n m ltac:(lia)) as (m2 & E2 & H2).
  assert (Hdec : forall k, 0 < k <= n -> i32 (k - 1) = k - 1) by (intros; apply i32_small; lia).
  assert (E1 : exists m1, memmove dst src n m = Ret dst m1 /\ forall x, m1 x = copy m dst src n x).
  { unfold memmove. rewrite Z.gtb_ltb. destruct (Z.ltb_spec dst src) as [Hd|Hd].
    - destruct (copy_up (fun k => i32 (k - 1)) dst src n m Hdec) as (m1 & E & Hm); [lia|lia|].
      rewrite (bind_Ret _ _ _ _ _ E). by exists m1.
    - destruct (copy_down (fun k => i32 (k - 1)) dst src n m Hdec) as (m1 & E & Hm); [lia|lia|].
      rewrite (bind_Ret _ _ _ _ _ E). by exists m1. }
  destruct E1 as (m1 & E1 & H1). exists m1, m2. split; [done|]. split; [done|]. intros x. by rewrite H1, H2.
Qed.

(** [strcmp] is 0 exactly on equal strings, otherwise the difference of the
    first bytes that differ. *)
Theorem strcmp_correct p q l1 l2 m :
  string_at m p l1 -> string_at m q l2 -> Z.of_nat (length l1) < 2 ^ 63 ->
  exists r, strcmp p q m = Ret r m /\ -255 <= r <= 255 /\ (r = 0 <-> l1 = l2).
Proof.
  intros H1 H2 Hl. unfold strcmp. match goal with |- context [loop ?b _] => set (body := b) end.
  assert (H : exists n r, runs body n (p, q) m (Ret r m) /\ (n <= S (length l1))%nat /\ -255 <= r <= 255 /\ (r = 0 <-> l1 = l2)).
  { clear Hl. revert p q l2 H1 H2. induction l1 as [|c l1 IH]; intros p q l2 H1 H2.
    - apply string_at_nil in H1. exists 1%nat, (0 - u8 (m q)). split; [apply runs_done; unfold body; mem_step; by rewrite H1|].
      split; [done|]. pose proof (u8_range (m q)). split; [lia|]. destruct l2 as [|d l2].
      + apply string_at_nil in H2. rewrite H2. done.
      + apply string_at_cons in H2 as (H2 & Hd & _). split; [lia|done].
    - apply string_at_cons in H1 as (E1 & Hc & H1). pose proof (u8_range (m q)).
      destruct (decide (u8 (m q) = c)) as [E2|E2].
      + destruct l2 as [|d l2]; [apply string_at_nil in H2; lia|]. apply string_at_cons in H2 as (E & Hd & H2).
        assert (d = c) as -> by congruence. destruct (IH (p + 1) (q + 1) l2 H1 H2) as (n & r & Hr & Hn & Hb & Hz).
        exists (S n), r. split; [|split; [cbn; lia|split; [done|rewrite Hz; split; congruence]]]. eapply runs_step; [|exact Hr].
        unfold body. mem_step. rewrite E1, E2. destruct (Z.eqb_spec c 0); [lia|]. by rewrite Z.eqb_refl.
      + exists 1%nat, (c - u8 (m q)). split.
        { apply runs_done. unfold body. mem_step. rewrite E1. destruct (Z.eqb_spec c 0); [lia|]. by destruct (Z.eqb_spec c (u8 (m q))). }
        split; [lia|]. split; [lia|]. split; [lia|]. intros <-. apply string_at_cons in H2. lia. }
  destruct H as (n & r & Hr & Hn & Hb & Hz). exists r. split; [|done]. apply (loop_runs _ n); [done|lia].
Qed.

(** [strlen] is the kernel's. *)
Lemma strlen_run s l m : string_at m s l -> Z.of_nat (length l) < 2 ^ 31 - 1 -> strlen s m = Ret (Z.of_nat (length l)) m.
Proof.
  intros (H & Hz & Hl) Hn. unfold strlen. rewrite (bind_Ret _ _ m (Z.of_nat (length l)) m).
  - unfold ret. f_equal. apply u32_small. lia.
  - apply strlen_loop; [lia| |done]. intros i Hi. rewrite H by lia. rewrite Forall_lookup in Hl.
    destruct (lookup_lt_is_Some_2 l (Z.to_nat i) ltac:(lia)) as [c Hc]. rewrite nth_lookup, Hc. specialize (Hl _ _ Hc). cbn. lia.
Qed.

(** The position of the first [c]. *)
Fixpoint index_of (c : Z) (l : list Z) : option nat :=
  match l with [] => None | x :: l' => if x =? c then Some 0%nat else S <$> index_of c l' end.

Lemma strchr_run s c l m :
  string_at m s l -> Z.of_nat (length l) < 2 ^ 63 -> strchr s c m = Ret ((fun i => s + Z.of_nat i) <$> index_of c l) m.
Proof.
  intros H Hl. unfold strchr. match goal with |- context [loop ?b _] => set (body := b) end.
  assert (Hr : exists n, runs body n s m (Ret ((fun i => s + Z.of_nat i) <$> index_of c l) m) /\ (n <= S (length l))%nat).
  { clear Hl. revert s H. induction l as [|x l IH]; intros s H.
    - apply string_at_nil in H. exists 1%nat. split; [|done]. apply runs_done. unfold body. mem_step. by rewrite H.
    - apply string_at_cons in H as (E & Hx & H). cbn [index_of]. destruct (Z.eqb_spec x c) as [->|Hne].
      + exists 1%nat. split; [|cbn; lia]. apply runs_done. unfold body. mem_step. rewrite E. destruct (Z.eqb_spec c 0); [lia|].
        rewrite Z.eqb_refl. cbn. by rewrite Z.add_0_r.
      + destruct (IH (s + 1) H) as (n & Hr & Hn). exists (S n). split; [|cbn; lia]. eapply runs_step.
        * unfold body. mem_step. rewrite E. destruct (Z.eqb_spec x 0); [lia|]. destruct (Z.eqb_spec x c); [done|]. reflexivity.
        * replace ((fun i => s + Z.of_nat i) <$> (S <$> index_of c l)) with ((fun i => s + 1 + Z.of_nat i) <$> index_of c l); [exact Hr|].
          destruct (index_of c l); cbn; [|done]. f_equal. lia. }
  destruct Hr as (n & Hr & Hn). apply (loop_runs _ n); [done|lia].
Qed.

(** ** Reading numbers *)

Definition is_digit (c : Z) : bool := (48 <=? c) && (c <=? 57).

(** Decimal digits, with the accumulator of the loop. *)
Lemma value_mono l : forall acc, 0 <= acc -> Forall (fun c => is_digit c = true) l -> acc <= fold_left (fun a c => a * 10 + digit_val c) l acc.
Proof.
  induction l as [|c l IH]; intros acc Ha Hl; cbn; [lia|]. apply Forall_cons in Hl as [Hc Hl]. unfold is_digit in Hc.
  assert (0 <= digit_val c) by (unfold digit_val; destruct (Z.leb_spec c 57); lia).
  specialize (IH (acc * 10 + digit_val c) ltac:(lia) Hl). lia.
Qed.

Lemma atoi_run a l m : forall acc,
  string_at m a l -> Forall (fun c => is_digit c = true) l -> 0 <= acc ->
  fold_left (fun a c => a * 10 + digit_val c) l acc < 2 ^ 31 -> Z.of_nat (length l) < 2 ^ 63 ->
  loop (fun '(s, n) => c <- rd8 s ;; if (48 <=? c) && (c <=? 57) then ret (inl (s + 1, i32 (n * 10 + c - 48))) else ret (inr n)) (a, acc) m =
  Ret (fold_left (fun a c => a * 10 + digit_val c) l acc) m.
Proof.
  intros acc Ha Hd Hacc Hv Hl. match goal with |- loop ?b _ _ = _ => set (body := b) end.
  assert (H : runs body (S (length l)) (a, acc) m (Ret (fold_left (fun a c => a * 10 + digit_val c) l acc) m)).
  { clear Hl. revert a acc Ha Hacc Hv. induction l as [|c l IH]; intros a acc Ha Hacc Hv.
    - apply string_at_nil in Ha. apply runs_done. unfold body. mem_step. by rewrite Ha.
    - apply string_at_cons in Ha as (E & Hc0 & Ha). apply Forall_cons in Hd as [Hc Hd]. cbn [fold_left] in Hv |- *.
      unfold is_digit in Hc. assert (Ed : digit_val c = c - 48) by (unfold digit_val; destruct (Z.leb_spec c 57); lia).
      pose proof (value_mono l (acc * 10 + digit_val c) ltac:(lia) Hd).
      eapply runs_step; [|apply (IH Hd (a + 1)); [done|lia|done]].
      unfold body. mem_step. rewrite E, Hc, i32_small by lia. do 3 f_equal. lia. }
  apply (loop_runs _ (S (length l))); [done|lia].
Qed.

Lemma numeral_decimal fuel : forall x, Forall (fun c => is_digit c = true) (numeral_le fuel 10 x).
Proof.
  assert (Hd : forall x, is_digit (digit (x mod 10)) = true).
  { intros x. pose proof (Z.mod_pos_bound x 10 eq_refl). destruct (digit_cases (x mod 10)) as [[-> ?]|[_ ?]]; [lia| |lia].
    unfold is_digit. apply andb_true_iff. lia. }
  induction fuel as [|f IH]; intros x; unfold numeral_le; fold numeral_le; (apply Forall_cons; split; [apply Hd|]);
    destruct (x / 10 =? 0); try apply Forall_nil_2. apply IH.
Qed.

(** [atoi] reads back what [%d] prints for a number that is not negative. *)
Theorem atoi_render a n m :
  0 <= n < 2 ^ 31 -> string_at m a (render 10 n) -> atoi a m = Ret n m.
Proof.
  intros Hn Ha. destruct (render_canonical 10 n) as (Hv & Hlen & _); [by left|lia|].
  unfold render in *. destruct (Z.ltb_spec n 0); [lia|]. set (l := rev (numeral_le 32 10 n)) in *.
  assert (Hd : Forall (fun c => is_digit c = true) l) by (apply Forall_rev, numeral_decimal).
  assert (Hval : fold_left (fun a c => a * 10 + digit_val c) l 0 = n).
  { etransitivity; [|exact Hv]. unfold read_int, value. destruct l as [|c l']; [done|]. apply Forall_cons in Hd as [Hc _]. unfold is_digit in Hc.
    destruct c as [|c|c]; try done. do 7 (destruct c as [c|c|]; try done). }
  unfold atoi. rewrite (atoi_run a l m 0 Ha Hd); [by rewrite Hval|lia|rewrite Hval; lia|lia].
Qed.

Module UlibWitness.
Definition m0 : memory := fun a => a mod 256.

(** Overlapping ranges. *)
Lemma memmove_equiv_witness : exists m1 m2, memmove 5 3 4 m0 = Ret 5 m1 /\ CString.memmove 5 3 4 m0 = Ret 5 m2 /\
  forall x, m1 x = m2 x /\ m1 x = copy m0 5 3 4 x.
Proof. apply (memmove_equiv 5 3 4 m0). lia. Defined.

Definition m1 : memory := fun a => nth (Z.to_nat (a - 8)) [49; 48; 53; 0] 0.

Lemma atoi_render_witness : atoi 8 m1 = Ret 105 m1.
Proof.
  apply (atoi_render 8 105 m1); [lia|]. split; [|split; [reflexivity|]].
  - intros i Hi. change (length (render 10 105)) with 3%nat in Hi. assert (i = 0 \/ i = 1 \/ i = 2) as [->|[->| ->]] by lia; reflexivity.
  - vm_compute. repeat constructor; congruence.
Defined.
End UlibWitness.
