(* ===== verification/Unix.v ===== *)
(** * System calls as user programs see them, and user/printf.c

    A user program runs against a world [W] through the system calls of
    user/user.h. The class [Unix] has the calls that the modelled programs
    use; the class [Streams] states what reading and writing an open file
    promises (a file descriptor delivers its bytes in order, in pieces of any
    size, and writing appends to something that is not one of the files that
    can be opened by name), so that the programs' theorems are proved
    against the interface. [exit] ends the run. The formatted output of
    user/printf.c follows, and what it writes. *)

From S2P Require Import Prelude Machine CString Printf Ulib.

Class Unix (W : Type) := {
  read : Z -> Z -> M W (Z * list Z);   (* the result and the bytes stored in the buffer *)
  write : Z -> list Z -> M W Z;
  open : list Z -> Z -> M W Z;
  close : Z -> M W Z;
  fstat : Z -> M W (Z * list Z);
  exited : Z -> W -> W                 (* the world after the process has exited *)
}.

Definition exit {W A} `{Unix W} (status : Z) : M W A := fun w => Panic "exit" (exited status w).

Class Streams (W : Type) `{Unix W} := {
  input : W -> Z -> list Z;    (* the bytes a descriptor has still to deliver *)
  output : W -> Z -> list Z;   (* the bytes written to a descriptor *)
  contents : W -> list Z -> option (list Z);   (* the files there are, by name *)
  read_law : forall fd n w, 0 <= n ->
    exists k w', read fd n w = Ret (Z.of_nat k, take k (input w fd)) w' /\
      Z.of_nat k <= n /\ (k <= length (input w fd))%nat /\ (k = 0%nat -> n = 0 \/ input w fd = []) /\
      (forall fd', input w' fd' = if fd' =? fd then drop k (input w fd) else input w fd') /\
      (forall fd', output w' fd' = output w fd') /\ forall a, contents w' a = contents w a;
  write_law : forall fd l w,
    exists w', write fd l w = Ret (Z.of_nat (length l)) w' /\
      (forall fd', input w' fd' = input w fd') /\
      (forall fd', output w' fd' = if fd' =? fd then output w fd ++ l else output w fd') /\
      forall a, contents w' a = contents w a
}.

(** ** ulib.c on top of the system calls *)

Section Ulib.
Context {W : Type} `{Unix W}.

(** The line that [gets] leaves in its buffer, before the NUL. *)
Definition gets (max : Z) : M W (list Z) :=
  loop (fun buf =>
    if Z.of_nat (length buf) + 1 <? max
    then
      '(cc, c) <- read 0 1 ;;
      if cc <? 1 then ret (inr buf)
      else
        let c := nth 0 c 0 in
        if (c =? 10) || (c =? 13) then ret (inr (buf ++ [c])) else ret (inl (buf ++ [c]))
    else ret (inr buf)) [].

Definition stat (n : list Z) : M W (Z * list Z) :=
  fd <- open n O_RDONLY ;;
  if fd <? 0 then ret (-1, [])
  else
    r <- fstat fd ;;
    _ <- close fd ;;
    ret r.

(** ** printf.c *)

(** ["0123456789ABCDEF"] *)
Definition digits : list Z := [48; 49; 50; 51; 52; 53; 54; 55; 56; 57; 65; 66; 67; 68; 69; 70].
Definition digit (x : Z) : Z := nth (Z.to_nat x) digits 0.

Definition putc (fd c : Z) : M W unit := _ <- write fd [u8 c] ;; ret tt.

Definition printint_digits (x base : Z) (buf : list Z) : M W (list Z) :=
  loop (fun '(x, buf) =>
    let buf := buf ++ [digit (x mod base)] in
    let x := x / base in
    if negb (x =? 0) then ret (inl (x, buf)) else ret (inr buf)) (x, buf).

Definition printint (fd xx base : Z) (sgn : bool) : M W unit :=
  let neg := sgn && (xx <? 0) in
  let x := if neg then u32 (i32 (- xx)) else u32 xx in
  buf <- printint_digits x base [] ;;
  let buf := if neg then buf ++ [45] else buf in
  for_all (rev buf) (putc fd).

Definition printptr (fd x : Z) : M W unit :=
  putc fd 48 ;;; putc fd 120 ;;;
  loop (fun '(i, x) =>
    if i <? 16
    then putc fd (digit (Z.shiftr x 60)) ;;; ret (inl (i + 1, u64 (Z.shiftl x 4)))
    else ret (inr tt)) (0, x).

(** A missing or mistyped variadic argument. *)
Definition undefined {A} : M W A := fun w => Panic "undefined behaviour" w.

(** The loop over the format; [state] is ['%'] after a percent sign. The
    argument of [%l] is passed on as an [int]. *)
Fixpoint vprintf_loop (fd : Z) (fmt : list Z) (state : bool) (ap : list arg) : M W unit :=
  match fmt with
  | [] => ret tt
  | c :: fmt =>
      if negb state
      then
        if c =? 37 then vprintf_loop fd fmt true ap
        else putc fd c ;;; vprintf_loop fd fmt false ap
      else if c =? 100 then
        match ap with AInt z :: ap => printint fd z 10 true ;;; vprintf_loop fd fmt false ap | _ => undefined end
      else if c =? 108 then
        match ap with APtr z :: ap => printint fd (i32 z) 10 false ;;; vprintf_loop fd fmt false ap | _ => undefined end
      else if c =? 120 then
        match ap with AInt z :: ap => printint fd z 16 false ;;; vprintf_loop fd fmt false ap | _ => undefined end
      else if c =? 112 then
        match ap with APtr z :: ap => printptr fd z ;;; vprintf_loop fd fmt false ap | _ => undefined end
      else if c =? 115 then
        match ap with
        | AStr s :: ap => for_all (match s with Some l => l | None => null_str end) (putc fd) ;;; vprintf_loop fd fmt false ap
        | _ => undefined
        end
      else if c =? 99 then
        match ap with AInt z :: ap => putc fd z ;;; vprintf_loop fd fmt false ap | _ => undefined end
      else if c =? 37 then putc fd c ;;; vprintf_loop fd fmt false ap
      else putc fd 37 ;;; putc fd c ;;; vprintf_loop fd fmt false ap
  end.

Definition vprintf (fd : Z) (fmt : list Z) (ap : list arg) : M W unit := vprintf_loop fd fmt false ap.
Definition fprintf (fd : Z) (fmt : list Z) (ap : list arg) : M W unit := vprintf fd fmt ap.
Definition printf (fmt : list Z) (ap : list arg) : M W unit := vprintf 1 fmt ap.
End Ulib.

(** ** What is written *)

Section Facts.
Context {W : Type} `{Streams W}.

(** Between [w] and [w'], [l] has been written to [fd] and nothing else done. *)
Definition emitted (fd : Z) (l : list Z) (w w' : W) : Prop :=
  (forall fd', input w' fd' = input w fd') /\
  (forall fd', output w' fd' = if fd' =? fd then output w fd ++ l else output w fd') /\
  forall a, contents w' a = contents w a.

Definition emits (fd : Z) (l : list Z) (m : M W unit) : Prop :=
  forall w, exists w', m w = Ret tt w' /\ emitted fd l w w'.

Lemma emitted_refl fd w : emitted fd [] w w.
Proof. split; [done|]. split; [|done]. intros fd'. rewrite app_nil_r. by destruct (Z.eqb_spec fd' fd) as [->|]. Qed.

Lemma emitted_app fd l1 l2 w w1 w2 : emitted fd l1 w w1 -> emitted fd l2 w1 w2 -> emitted fd (l1 ++ l2) w w2.
Proof.
  intros (I1 & O1 & C1) (I2 & O2 & C2). split; [intros fd'; by rewrite I2, I1|]. split; [|intros a; by rewrite C2, C1].
  intros fd'. rewrite O2, !O1, Z.eqb_refl. destruct (fd' =? fd); [by rewrite app_assoc|done].
Qed.

Lemma emits_ret fd : emits fd [] (ret tt).
Proof. intros w. exists w. split; [done|apply emitted_refl]. Qed.

Lemma emits_bind fd l1 l2 m1 m2 : emits fd l1 m1 -> emits fd l2 m2 -> emits fd (l1 ++ l2) (m1 ;;; m2).
Proof.
  intros H1 H2 w. destruct (H1 w) as (w1 & E1 & S1). destruct (H2 w1) as (w2 & E2 & S2). exists w2.
  rewrite (bind_Ret _ _ _ _ _ E1). split; [done|]. by apply (emitted_app fd l1 l2 w w1).
Qed.

Lemma emits_putc fd c : emits fd [u8 c] (putc fd c).
Proof.
  intros w. destruct (write_law fd [u8 c] w) as (w' & E & S'). exists w'. split; [|done].
  unfold putc. by rewrite (bind_Ret _ _ _ _ _ E).
Qed.

Lemma emits_byte fd c : 0 <= c < 256 -> emits fd [c] (putc fd c).
Proof. intros Hc. rewrite <- (u8_small c Hc) at 1. apply emits_putc. Qed.

Lemma emits_all fd l : Forall (fun c => 0 <= c < 256) l -> emits fd l (for_all l (putc fd)).
Proof.
  induction 1 as [|c l Hc _ IH]; [apply emits_ret|]. cbn [for_all]. apply (emits_bind fd [c]); [by apply emits_byte|done].
Qed.

Lemma i32_range x : - 2 ^ 31 <= i32 x < 2 ^ 31.
Proof. unfold i32. pose proof (Z.mod_pos_bound (x + 2 ^ 31) (2 ^ 32)). lia. Qed.

(** The digits of user/printf.c are the kernel's in upper case. *)
Definition upper (c : Z) : Z := if 97 <=? c then c - 32 else c.

Lemma digit_upper d : 0 <= d < 16 -> digit d = upper (Printf.digit d).
Proof.
  intros Hd. assert (Hb : forallb (fun d => digit (Z.of_nat d) =? upper (Printf.digit (Z.of_nat d))) (seq 0 16) = true) by reflexivity.
  rewrite forallb_forall in Hb. specialize (Hb (Z.to_nat d)). rewrite Z2Nat.id in Hb by lia. apply Z.eqb_eq, Hb, in_seq. lia.
Qed.

Lemma upper_decimal l : Forall (fun c => is_digit c = true) l -> map upper l = l.
Proof.
  induction 1 as [|c l Hc _ IH]; [done|]. cbn. rewrite IH. f_equal. unfold is_digit in Hc. unfold upper. destruct (Z.leb_spec 97 c); lia.
Qed.

Lemma printint_digits_run base x buf (w : W) :
  2 <= base <= 16 -> 0 <= x < 2 ^ 33 ->
  printint_digits x base buf w = Ret (buf ++ map upper (numeral_le 32 base x)) w.
Proof.
  intros Hb Hx. unfold printint_digits. apply (loop_measure _
    (fun '(x1, buf1) s1 => s1 = w /\ exists f, 0 <= x1 < 2 ^ Z.of_nat (S f) /\
       buf ++ map upper (numeral_le 32 base x) = buf1 ++ map upper (numeral_le f base x1))
    (fun '(x1, _) _ => Z.to_nat x1) (fun o => o = Ret (buf ++ map upper (numeral_le 32 base x)) w)).
  - intros [x1 buf1] s1 (-> & f & Hx1 & HE). cbv zeta. pose proof (Z.mod_pos_bound x1 base ltac:(lia)) as Hm.
    rewrite digit_upper by lia. destruct (Z.eqb_spec (x1 / base) 0) as [E|E]; cbn [negb].
    + right; left. do 2 eexists. split; [done|]. rewrite HE. destruct f; unfold numeral_le; by rewrite E.
    + left. do 2 eexists. split; [done|].
      assert (Hlt : 0 < x1 / base < x1).
      { assert (0 < x1 / base) by (pose proof (Z.div_pos x1 base ltac:(lia) ltac:(lia)); lia).
        assert (x1 <> 0) by (intros ->; by rewrite Z.div_0_l in E by lia).
        split; [done|]. apply Z.div_lt; lia. }
      split; [|lia]. split; [done|]. destruct f as [|f].
      { change (2 ^ Z.of_nat 1) with 2 in Hx1. lia. }
      exists f. split.
      * split; [lia|]. rewrite Nat2Z.inj_succ, Z.pow_succ_r in Hx1 by lia. apply Z.div_lt_upper_bound; [lia|]. nia.
      * rewrite HE. unfold numeral_le at 1; fold numeral_le. destruct (Z.eqb_spec (x1 / base) 0); [done|].
        by rewrite <- app_assoc.
  - split; [done|]. exists 32%nat. split; [change (2 ^ Z.of_nat 33) with (2 ^ 33); lia|done].
  - lia.
Qed.

Lemma upper_byte c : 48 <= c < 103 -> 0 <= upper c < 256.
Proof. unfold upper. destruct (Z.leb_spec 97 c); lia. Qed.

(** What [printint] prints for a value that is not negative. *)
Lemma numeral_emits fd base x :
  2 <= base <= 16 -> 0 <= x < 2 ^ 33 ->
  Forall (fun c => 0 <= c < 256) (rev (map upper (numeral_le 32 base x))) /\
  emits fd (rev (map upper (numeral_le 32 base x))) (for_all (rev (map upper (numeral_le 32 base x))) (putc fd)).
Proof.
  intros Hb Hx. destruct (numeral_facts 32 base x Hb) as (_ & Hf & _); [change (2 ^ Z.of_nat 33) with (2 ^ 33); lia|].
  assert (HF : Forall (fun c => 0 <= c < 256) (rev (map upper (numeral_le 32 base x)))).
  { apply Forall_rev, Forall_map. eapply Forall_impl; [exact Hf|]. intros c Hc. by apply upper_byte. }
  split; [done|]. by apply emits_all.
Qed.

Lemma printint_unsigned fd base xx :
  2 <= base <= 16 -> emits fd (rev (map upper (numeral_le 32 base (u32 xx)))) (printint fd xx base false).
Proof.
  intros Hb w. unfold printint. cbn [andb]. pose proof (u32_range xx).
  rewrite (bind_Ret _ _ _ _ _ (printint_digits_run base (u32 xx) [] w Hb ltac:(lia))). rewrite app_nil_l.
  apply numeral_emits; [done|lia].
Qed.

Lemma printint_decimal fd xx :
  - 2 ^ 31 <= xx < 2 ^ 31 -> emits fd (render 10 xx) (printint fd xx 10 true).
Proof.
  intros Hx w. unfold printint, render. cbn [andb]. assert (Hud : forall x, map upper (numeral_le 32 10 x) = numeral_le 32 10 x).
  { intros x. apply upper_decimal, numeral_decimal. }
  destruct (Z.ltb_spec xx 0) as [Hn|Hn].
  - assert (Hu : u32 (i32 (- xx)) = - xx).
    { destruct (decide (xx = - 2 ^ 31)) as [->|]; [reflexivity|]. rewrite i32_small, u32_small by lia. done. }
    rewrite Hu. rewrite (bind_Ret _ _ _ _ _ (printint_digits_run 10 (- xx) [] w ltac:(lia) ltac:(lia))).
    rewrite app_nil_l, rev_app_distr. destruct (numeral_emits fd 10 (- xx) ltac:(lia) ltac:(lia)) as [HF _]. rewrite Hud in *.
    apply (emits_all fd (45 :: rev (numeral_le 32 10 (- xx)))). apply Forall_cons. split; [lia|done].
  - rewrite u32_small by lia. rewrite (bind_Ret _ _ _ _ _ (printint_digits_run 10 xx [] w ltac:(lia) ltac:(lia))).
    rewrite app_nil_l, Hud. rewrite <- (Hud xx). apply numeral_emits; lia.
Qed.

(** The sixteen digits of a pointer. *)
Definition render_ptr (x : Z) : list Z :=
  48 :: 120 :: map (fun i => digit (x / 16 ^ (15 - Z.of_nat i) mod 16)) (seq 0 16).

Lemma udigit_byte d : 0 <= d < 16 -> 0 <= digit d < 256.
Proof. intros Hd. rewrite digit_upper by done. by apply upper_byte, Printf.digit_byte. Qed.

Lemma printptr_emits fd x : 0 <= x < 2 ^ 64 -> emits fd (render_ptr x) (printptr fd x).
Proof.
  intros Hx. unfold printptr, render_ptr. apply (emits_bind fd [48]); [by apply emits_byte|].
  apply (emits_bind fd [120]); [by apply emits_byte|]. intros w. set (D := fun i => digit (x / 16 ^ (15 - Z.of_nat i) mod 16)).
  apply (loop_measure _
    (fun '(i, y) w1 => exists j, (j <= 16)%nat /\ i = Z.of_nat j /\ y = u64 (x * 16 ^ i) /\ emitted fd (map D (seq 0 j)) w w1)
    (fun '(i, _) _ => Z.to_nat (16 - i))
    (fun o => exists w', o = Ret tt w' /\ emitted fd (map D (seq 0 16)) w w')).
  - intros [i y] w1 (j & Hj & -> & -> & HS). destruct (Z.ltb_spec (Z.of_nat j) 16) as [Hlt|Hge].
    2:{ right; left. do 2 eexists. split; [done|]. exists w1. split; [done|]. by replace 16%nat with j by lia. }
    left. rewrite top_digit by lia. pose proof (Z.mod_pos_bound (x / 16 ^ (15 - Z.of_nat j)) 16 ltac:(lia)) as Hm.
    destruct (emits_byte fd _ (udigit_byte _ Hm) w1) as (w2 & E2 & S2). rewrite (bind_Ret _ _ _ _ _ E2).
    do 2 eexists. split; [done|]. split; [|lia]. exists (S j). split; [lia|]. split; [lia|]. split.
    + rewrite shift_digit by lia. done.
    + rewrite seq_S, map_app. by apply (emitted_app fd _ _ w w1).
  - exists 0%nat. split; [lia|]. split; [lia|]. split; [|apply emitted_refl]. unfold u64. rewrite Z.mod_small; lia.
  - lia.
Qed.

(** The text a format and its arguments denote. *)
Fixpoint format (fmt : list Z) (state : bool) (ap : list arg) : option (list Z) :=
  match fmt with
  | [] => Some []
  | c :: fmt =>
      if negb state
      then if c =? 37 then format fmt true ap else app [c] <$> format fmt false ap
      else if c =? 100 then match ap with AInt z :: ap => app (render 10 z) <$> format fmt false ap | _ => None end
      else if c =? 108 then
        match ap with APtr z :: ap => app (rev (map upper (numeral_le 32 10 (u32 z)))) <$> format fmt false ap | _ => None end
      else if c =? 120 then
        match ap with AInt z :: ap => app (rev (map upper (numeral_le 32 16 (u32 z)))) <$> format fmt false ap | _ => None end
      else if c =? 112 then match ap with APtr z :: ap => app (render_ptr z) <$> format fmt false ap | _ => None end
      else if c =? 115 then
        match ap with
        | AStr s :: ap => app (match s with Some l => l | None => null_str end) <$> format fmt false ap
        | _ => None
        end
      else if c =? 99 then match ap with AInt z :: ap => app [u8 z] <$> format fmt false ap | _ => None end
      else if c =? 37 then app [37] <$> format fmt false ap
      else app [37; c] <$> format fmt false ap
  end.

Lemma u32_i32 z : u32 (i32 z) = u32 z.
Proof.
  unfold u32, i32. rewrite Zminus_mod_idemp_l. f_equal. lia.
Qed.

(** One conversion and the rest of the format. *)
Lemma emits_conv fd out m rest (o : option (list Z)) l :
  emits fd out m -> app out <$> o = Some l -> (forall l', o = Some l' -> emits fd l' rest) -> emits fd l (m ;;; rest).
Proof. intros Hm (l' & Ho & ->)%fmap_Some Hr. apply emits_bind; [done|by apply Hr]. Qed.

Lemma vprintf_loop_emits fd fmt : forall state ap out,
  Forall (fun c => 0 <= c < 256) fmt -> Forall arg_ok ap -> format fmt state ap = Some out ->
  emits fd out (vprintf_loop fd fmt state ap).
Proof.
  induction fmt as [|c fmt IH]; intros state ap out Hf Ha HF; [injection HF as <-; apply emits_ret|].
  apply Forall_cons in Hf as [Hc Hf]. cbn [vprintf_loop format] in *. destruct state; cbn [negb] in *.
  2:{ destruct (Z.eqb_spec c 37); [by apply IH|]. eapply emits_conv; [by apply emits_byte|exact HF|auto]. }
  assert (Harg : forall z ap', ap = z :: ap' -> arg_ok z /\ Forall arg_ok ap') by (intros z ap' ->; by apply Forall_cons).
  destruct (Z.eqb_spec c 100).
  { destruct ap as [|[z|z|s] ap]; try discriminate. destruct (Harg _ _ eq_refl).
    eapply emits_conv; [by apply printint_decimal|exact HF|auto]. }
  destruct (Z.eqb_spec c 108).
  { destruct ap as [|[z|z|s] ap]; try discriminate. destruct (Harg _ _ eq_refl).
    eapply emits_conv; [apply printint_unsigned; lia|rewrite u32_i32; exact HF|auto]. }
  destruct (Z.eqb_spec c 120).
  { destruct ap as [|[z|z|s] ap]; try discriminate. destruct (Harg _ _ eq_refl).
    eapply emits_conv; [apply printint_unsigned; lia|exact HF|auto]. }
  destruct (Z.eqb_spec c 112).
  { destruct ap as [|[z|z|s] ap]; try discriminate. destruct (Harg _ _ eq_refl).
    eapply emits_conv; [by apply printptr_emits|exact HF|auto]. }
  destruct (Z.eqb_spec c 115).
  { destruct ap as [|[z|z|s] ap]; try discriminate. destruct (Harg _ _ eq_refl) as [Hs ?].
    eapply emits_conv; [apply emits_all|exact HF|auto]. destruct s as [l|]; [exact Hs|repeat constructor; lia]. }
  destruct (Z.eqb_spec c 99).
  { destruct ap as [|[z|z|s] ap]; try discriminate. destruct (Harg _ _ eq_refl).
    eapply emits_conv; [apply emits_putc|exact HF|auto]. }
  destruct (Z.eqb_spec c 37) as [->|].
  { eapply emits_conv; [by apply emits_byte|exact HF|auto]. }
  apply fmap_Some in HF as (l & HF & ->). change ([37; c] ++ l) with ([37] ++ [c] ++ l).
  apply emits_bind; [by apply emits_byte|]. apply emits_bind; [by apply emits_byte|auto].
Qed.

(** [fprintf] writes the text that its format denotes, and nothing else; [%l]
    prints the low 32 bits of its 64-bit argument. *)
Theorem fprintf_correct fd fmt ap out :
  Forall (fun c => 0 <= c < 256) fmt -> Forall arg_ok ap -> format fmt false ap = Some out -> emits fd out (fprintf fd fmt ap).
Proof. apply vprintf_loop_emits. Qed.
End Facts.

(** ** A small world

    Descriptors deliver at most three bytes at a time; there is one file. *)

Module DemoUnix.
Record world := mkWorld { d_in : Z -> list Z; d_out : Z -> list Z; d_files : list (list Z * list Z); d_status : option Z }.

Definition upd {A} (f : Z -> A) (k : Z) (v : A) : Z -> A := fun x => if x =? k then v else f x.

Definition lookup_file (fs : list (list Z * list Z)) (a : list Z) : option (list Z) :=
  snd <$> List.find (fun p => bool_decide (p.1 = a)) fs.

#[export] Instance demo_unix : Unix world := {|
  read fd n w :=
    let k := Nat.min 3 (Nat.min (Z.to_nat n) (length (d_in w fd))) in
    Ret (Z.of_nat k, take k (d_in w fd)) (mkWorld (upd (d_in w) fd (drop k (d_in w fd))) (d_out w) (d_files w) (d_status w));
  write fd l w := Ret (Z.of_nat (length l)) (mkWorld (d_in w) (upd (d_out w) fd (d_out w fd ++ l)) (d_files w) (d_status w));
  open a _ w :=
    match lookup_file (d_files w) a with
    | Some l => Ret 3 (mkWorld (upd (d_in w) 3 l) (d_out w) (d_files w) (d_status w))
    | None => Ret (-1) w
    end;
  close fd w := Ret 0 w;
  fstat fd w := Ret (-1, []) w;
  exited st w := mkWorld (d_in w) (d_out w) (d_files w) (Some st)
|}.

#[export] Program Instance demo_streams : Streams world := {|
  input := d_in;
  output := d_out;
  contents w := lookup_file (d_files w)
|}.
Next Obligation.
  intros fd n w Hn. set (k := Nat.min 3 (Nat.min (Z.to_nat n) (length (d_in w fd)))). exists k. eexists.
  split; [reflexivity|]. split; [lia|]. split; [lia|]. split; [|done].
  intros Hk. destruct (d_in w fd) as [|c l]; [by right|left]. cbn [length] in k. lia.
Qed.
Next Obligation. intros fd l w. eexists. split; [reflexivity|]. done. Qed.

(** Descriptor 0 delivers [l]. *)
Definition start (l : list Z) (files : list (list Z * list Z)) : world := mkWorld (upd (fun _ => []) 0 l) (fun _ => []) files None.

Lemma fprintf_correct_witness : emits (W := world) 2 (bytes "n=-7 BEEF 5") (fprintf 2 (bytes "n=%d %x %l") [AInt (-7); AInt 0xbeef; APtr (2 ^ 32 + 5)]).
Proof.
  apply (fprintf_correct 2).
  - repeat (apply Forall_cons; split; [vm_compute; intuition congruence|]). apply Forall_nil_2.
  - repeat (apply Forall_cons; split; [cbn; lia|]). apply Forall_nil_2.
  - vm_compute. reflexivity.
Defined.
End DemoUnix.
