(* ===== verification/Uprogs.v ===== *)
(** * user/cat.c, user/wc.c, user/echo.c

    Three programs against the interface of [Unix]: what they write is a
    function of their arguments and of the contents of the files they name,
    however the kernel cuts the reads. *)

From S2P Require Import Prelude Machine CString Printf Ulib Unix.

(** Bytes of a string literal with a newline. *)
Definition line (s : string) : list Z := bytes s ++ [10].

Section Programs.
Context {W : Type} `{Unix W}.

(** ** cat.c *)

Definition cat (fd : Z) : M W unit :=
  n <- loop (fun _ : unit =>
    '(n, buf) <- read fd 512 ;;
    if n >? 0
    then
      r <- write 1 (take (Z.to_nat n) buf) ;;
      if negb (r =? n) then fprintf 2 (line "cat: write error") [] ;;; exit 1 else ret (inl tt)
    else ret (inr n)) tt ;;
  if n <? 0 then fprintf 2 (line "cat: read error") [] ;;; exit 1 else ret tt.

(** The arguments without the program's name. *)
Definition cat_main (args : list (list Z)) : M W unit :=
  match args with
  | [] => cat 0 ;;; exit 0
  | _ =>
      for_all args (fun a =>
        fd <- open a 0 ;;
        if fd <? 0 then fprintf 2 (line "cat: cannot open %s") [AStr (Some a)] ;;; exit 1
        else cat fd ;;; _ <- close fd ;; ret tt) ;;;
      exit 0
  end.

(** ** wc.c *)

(** [strchr(" \r\t\n\v", c)] *)
Definition is_space (c : Z) : bool := match index_of c [32; 13; 9; 10; 11] with Some _ => true | None => false end.

(** The counters after one byte: lines, words, bytes, [inword]. *)
Definition wc_byte (st : Z * Z * Z * bool) (c : Z) : Z * Z * Z * bool :=
  let '(l, w, n, inword) := st in
  let n := i32 (n + 1) in
  let l := if c =? 10 then i32 (l + 1) else l in
  if is_space c then (l, w, n, false)
  else if negb inword then (l, i32 (w + 1), n, true) else (l, w, n, inword).

Definition wc (fd : Z) (name : list Z) : M W unit :=
  '(n, st) <- loop (fun st =>
    '(n, buf) <- read fd 512 ;;
    if n >? 0 then ret (inl (fold_left wc_byte (take (Z.to_nat n) buf) st)) else ret (inr (n, st))) (0, 0, 0, false) ;;
  if n <? 0 then printf (line "wc: read error") [] ;;; exit 1
  else
    let '(l, w, c, _) := st in
    printf (line "%d %d %d %s") [AInt l; AInt w; AInt c; AStr (Some name)].

Definition wc_main (args : list (list Z)) : M W unit :=
  match args with
  | [] => wc 0 [] ;;; exit 0
  | _ =>
      for_all args (fun a =>
        fd <- open a 0 ;;
        if fd <? 0 then printf (line "wc: cannot open %s") [AStr (Some a)] ;;; exit 1
        else wc fd a ;;; _ <- close fd ;; ret tt) ;;;
      exit 0
  end.

(** ** echo.c *)

Fixpoint echo_args (args : list (list Z)) : M W unit :=
  match args with
  | [] => ret tt
  | a :: args' =>
      _ <- write 1 a ;;
      _ <- write 1 (match args' with [] => [10] | _ => [32] end) ;;
      echo_args args'
  end.

Definition echo_main (args : list (list Z)) : M W unit := echo_args args ;;; exit 0.
End Programs.

(** ** Reading a descriptor to its end *)

(** What [open] and [close] promise: a file is opened for reading at its
    beginning, with a descriptor other than 0, 1 and 2. *)
Class Files (W : Type) `{Streams W} := {
  open_law : forall path w, exists fd w', open path 0 w = Ret fd w' /\
    match contents w path with
    | Some l => 3 <= fd /\ (forall fd', input w' fd' = if fd' =? fd then l else input w fd')
    | None => fd = -1 /\ (forall fd', input w' fd' = input w fd')
    end /\ (forall fd', output w' fd' = output w fd') /\ forall a, contents w' a = contents w a;
  close_law : forall fd w, 3 <= fd -> exists w', close fd w = Ret 0 w' /\
    (forall fd', output w' fd' = output w fd') /\ forall a, contents w' a = contents w a
}.

Section ReadFacts.
Context {W : Type} `{Files W}.

(** A loop that reads [fd] piece by piece up to the end and hands each piece
    to [more]; [rel seen x w] relates what has been read to the loop's variable
    and the world. *)
Lemma read_all {X R} fd (more : X -> Z -> list Z -> M W (X + R)) (fin : Z -> X -> R) (rel : list Z -> X -> W -> Prop) x w :
  (forall seen c rest x1 w1, c <> [] -> rel seen x1 w1 -> input w fd = seen ++ c ++ rest -> input w1 fd = rest ->
     exists x2 w2, more x1 (Z.of_nat (length c)) c w1 = Ret (inl x2) w2 /\ rel (seen ++ c) x2 w2 /\ input w2 fd = rest) ->
  (forall seen x1 w0 w1, rel seen x1 w0 -> (forall fd', output w1 fd' = output w0 fd') ->
     (forall fd', fd' <> fd -> input w1 fd' = input w0 fd') -> (forall a, contents w1 a = contents w0 a) -> rel seen x1 w1) ->
  rel [] x w -> Z.of_nat (length (input w fd)) < 2 ^ 63 ->
  exists x' w', loop (fun x =>
      '(n, buf) <- read fd 512 ;;
      if n >? 0 then more x n buf else ret (inr (fin n x))) x w = Ret (fin 0 x') w' /\
    rel (input w fd) x' w' /\ input w' fd = [].
Proof.
  intros Huse Hext Hx Hlen. set (l := input w fd).
  apply (loop_measure _ (fun x1 w1 => exists seen, rel seen x1 w1 /\ l = seen ++ input w1 fd)
    (fun _ w1 => length (input w1 fd))
    (fun o => exists x' w', o = Ret (fin 0 x') w' /\ rel l x' w' /\ input w' fd = [])); [|by exists []|lia].
  intros x1 w1 (seen & Hrel & Hl). destruct (read_law fd 512 w1 ltac:(lia)) as (k & w2 & E & Hk & Hk2 & Hk0 & Hin & Hout & Hcon).
  rewrite (bind_Ret _ _ _ _ _ E).
  specialize (Hin fd) as Hinf. rewrite Z.eqb_refl in Hinf.
  assert (Hrel2 : rel seen x1 w2).
  { apply (Hext seen x1 w1); try done. intros fd' Hne. rewrite Hin. by destruct (Z.eqb_spec fd' fd). }
  rewrite Z.gtb_ltb. destruct (Z.ltb_spec 0 (Z.of_nat k)) as [Hpos|Hz].
  - assert (Hlc : length (take k (input w1 fd)) = k) by (rewrite length_take; lia).
    destruct (Huse seen (take k (input w1 fd)) (drop k (input w1 fd)) x1 w2) as (x2 & w3 & E3 & Hrel3 & Hin3); try done.
    { intros Ht. by rewrite Ht in Hlc; cbn in Hlc; subst k. }
    { by rewrite take_drop. }
    rewrite Hlc in E3. left. exists x2, w3. split; [done|]. split.
    + exists (seen ++ take k (input w1 fd)). split; [done|]. by rewrite Hin3, <- app_assoc, take_drop.
    + rewrite Hin3, length_drop. lia.
  - right; left. assert (k = 0%nat) as -> by lia. destruct (Hk0 eq_refl) as [?|Hnil]; [done|]. rewrite Hnil in *. rewrite app_nil_r in Hl. rewrite Hl.
    exists (fin 0 x1), w2. split; [done|]. by exists x1, w2.
Qed.

(** Only the descriptors' data have changed, [l] has been written to
    descriptor 1 and [fd] read to its end. *)
Definition consumed (fd : Z) (l : list Z) (w w' : W) : Prop :=
  input w' fd = [] /\ (forall fd', output w' fd' = if fd' =? 1 then output w 1 ++ l else output w fd') /\
  forall a, contents w' a = contents w a.

(** ** cat *)

Lemma cat_run fd w :
  Z.of_nat (length (input w fd)) < 2 ^ 63 -> exists w', cat fd w = Ret tt w' /\ consumed fd (input w fd) w w'.
Proof.
  intros Hlen.
  destruct (read_all fd (fun _ n buf => r <- write 1 (take (Z.to_nat n) buf) ;;
      if negb (r =? n) then fprintf 2 (line "cat: write error") [] ;;; exit 1 else ret (inl tt)) (fun n (_ : unit) => n)
    (fun seen _ w1 => (forall fd', output w1 fd' = if fd' =? 1 then output w 1 ++ seen else output w fd') /\
       forall a, contents w1 a = contents w a) tt w) as ([] & w' & E & (Ho & Hc) & Hi).
  - intros seen c rest [] w1 Hne [Ho Hc] Hin Hin1. rewrite Nat2Z.id, take_ge by done.
    destruct (write_law 1 c w1) as (w2 & E2 & I2 & O2 & C2). exists tt, w2. rewrite (bind_Ret _ _ _ _ _ E2), Z.eqb_refl.
    split; [done|]. split; [|by rewrite I2]. split.
    + intros fd'. rewrite O2, !Ho. destruct (Z.eqb_spec fd' 1) as [->|]; [|done]. by rewrite app_assoc.
    + intros a. by rewrite C2.
  - intros seen [] w0 w1 [Ho Hc] Ho1 _ Hc1. split; [intros fd'; by rewrite Ho1|intros a; by rewrite Hc1].
  - split; [|done]. intros fd'. rewrite app_nil_r. by destruct (Z.eqb_spec fd' 1) as [->|].
  - done.
  - exists w'. unfold cat. rewrite (bind_Ret _ _ _ _ _ E). change (0 <? 0) with false. done.
Qed.

(** ** Programs that go through the files named on the command line *)

Section EachFile.
Context (use : Z -> list Z -> M W unit) (complain : list Z -> M W unit) (out : list Z -> list Z -> list Z) (cfd : Z) (msg : list Z -> list Z).

Definition each_file (args : list (list Z)) : M W unit :=
  for_all args (fun a =>
    fd <- open a 0 ;;
    if fd <? 0 then complain a ;;; exit 1
    else use fd a ;;; _ <- close fd ;; ret tt) ;;;
  exit 0.

(** The text for the files up to the first that does not exist, and that one. *)
Fixpoint files_out (cf : list Z -> option (list Z)) (args : list (list Z)) : list Z * option (list Z) :=
  match args with
  | [] => ([], None)
  | a :: args' =>
      match cf a with
      | None => ([], Some a)
      | Some l => let '(o, e) := files_out cf args' in (out l a ++ o, e)
      end
  end.

Lemma files_out_ext cf cf' args : (forall a, cf' a = cf a) -> files_out cf' args = files_out cf args.
Proof. intros E. induction args as [|a args IH]; [done|]. cbn. by rewrite E, IH. Qed.

Context (ok good : list Z -> Prop).
Hypothesis Huse : forall fd a w, 3 <= fd -> ok a -> good (input w fd) ->
  exists w', use fd a w = Ret tt w' /\ consumed fd (out (input w fd) a) w w'.
Hypothesis Hcomplain : forall a, ok a -> emits cfd (msg a) (complain a).

Lemma each_file_run args w :
  Forall ok args -> (forall a l, contents w a = Some l -> good l) ->
  let '(o, e) := files_out (contents w) args in
  exists w', each_file args w = Panic "exit" (exited (match e with None => 0 | Some _ => 1 end) w') /\
    forall fd', output w' fd' =
      output w fd' ++ (if fd' =? 1 then o else []) ++ (if fd' =? cfd then match e with None => [] | Some a => msg a end else []).
Proof.
  intros Hok. revert w. unfold each_file. induction Hok as [|a args Ha _ IH]; intros w Hlen.
  { exists w. split; [done|]. intros fd'. by destruct (fd' =? 1), (fd' =? cfd); rewrite ?app_nil_r. }
  cbn [for_all files_out]. destruct (open_law a w) as (fd & w1 & E1 & Hres & O1 & C1).
  destruct (contents w a) as [l|] eqn:Hca.
  - destruct Hres as [Hfd I1]. specialize (I1 fd). rewrite Z.eqb_refl in I1.
    destruct (Huse fd a w1 Hfd Ha) as (w2 & E2 & _ & O2 & C2); [rewrite I1; by apply (Hlen a)|].
    destruct (close_law fd w2 Hfd) as (w3 & E3 & O3 & C3).
    assert (C : forall a, contents w3 a = contents w a) by (intros b; by rewrite C3, C2, C1).
    specialize (IH w3 ltac:(intros b l'; rewrite C; apply Hlen)). rewrite (files_out_ext (contents w) (contents w3) args C) in IH.
    destruct (files_out (contents w) args) as [o e]. destruct IH as (w' & E & O). exists w'. split.
    + erewrite bind_bind_Ret; [exact E|]. rewrite (bind_Ret _ _ _ _ _ E1). destruct (Z.ltb_spec fd 0); [lia|].
      by rewrite (bind_Ret _ _ _ _ _ E2), (bind_Ret _ _ _ _ _ E3).
    + intros fd'. rewrite O, O3, O2, !O1, I1. destruct (Z.eqb_spec fd' 1) as [->|]; by rewrite ?app_assoc.
  - destruct Hres as [-> _]. destruct (Hcomplain a Ha w1) as (w2 & E2 & _ & O2 & _). exists w2. split.
    + erewrite bind_Panic; [done|]. erewrite bind_Panic; [done|]. rewrite (bind_Ret _ _ _ _ _ E1).
      change (-1 <? 0) with true. cbv iota. by rewrite (bind_Ret _ _ _ _ _ E2).
    + intros fd'. rewrite O2, !O1. destruct (Z.eqb_spec fd' cfd) as [->|]; destruct (_ =? 1); by rewrite ?app_nil_r.
Qed.
End EachFile.
End ReadFacts.

(** ** What the counters of wc mean *)

(** The pieces of [l] between bytes that satisfy [p]. *)
Fixpoint split_at (p : Z -> bool) (l : list Z) : list (list Z) :=
  match l with
  | [] => [[]]
  | c :: l' =>
      if p c then [] :: split_at p l'
      else match split_at p l' with w :: ws => (c :: w) :: ws | [] => [[c]] end
  end.

Definition words (l : list Z) : list (list Z) := filter (fun w => w <> []) (split_at is_space l).
Definition newlines (l : list Z) : nat := length (filter (fun c => c = 10) l).

Lemma split_at_ne p l : split_at p l <> [].
Proof. destruct l as [|c l]; cbn; [done|]. destruct (p c); [done|]. by destruct (split_at p l). Qed.

(** A word goes on when the byte before it was in one. *)
Definition starts_word (l : list Z) : bool := match l with [] => false | c :: _ => negb (is_space c) end.

Lemma words_cons c l :
  length (words (c :: l)) =
  if is_space c then length (words l) else if starts_word l then length (words l) else S (length (words l)).
Proof.
  unfold words. cbn [split_at]. destruct (is_space c).
  { rewrite filter_cons. by rewrite decide_False by (intros H; by apply H). }
  destruct (split_at is_space l) as [|w ws] eqn:E; [by apply split_at_ne in E|].
  rewrite filter_cons, decide_True by done. cbn [length]. rewrite (filter_cons (fun w => w <> [])).
  destruct l as [|d l]; cbn [split_at starts_word] in *.
  - injection E as <- <-. rewrite decide_False by (intros H; by apply H). done.
  - destruct (is_space d); cbn [negb].
    + injection E as <- <-. rewrite decide_False by (intros H; by apply H). done.
    + destruct (split_at is_space l); injection E as <- <-; by rewrite decide_True.
Qed.

Lemma newlines_cons c l : newlines (c :: l) = if c =? 10 then S (newlines l) else newlines l.
Proof.
  unfold newlines. rewrite filter_cons. destruct (Z.eqb_spec c 10); [by rewrite decide_True|by rewrite decide_False].
Qed.

(** Equality of tuples of numbers. *)
Ltac by_parts := repeat match goal with |- (_, _) = (_, _) => apply f_equal2 end; reflexivity || lia.

(** The state machine of [wc] counts lines, words and bytes. *)
Lemma wc_fold l : forall ln wd ch inword,
  0 <= ln -> 0 <= wd -> 0 <= ch -> ln + Z.of_nat (length l) < 2 ^ 31 -> wd + Z.of_nat (length l) < 2 ^ 31 -> ch + Z.of_nat (length l) < 2 ^ 31 ->
  exists b, fold_left wc_byte l (ln, wd, ch, inword) =
    (ln + Z.of_nat (newlines l), wd + Z.of_nat (length (words l)) - (if inword && starts_word l then 1 else 0),
     ch + Z.of_nat (length l), b).
Proof.
  induction l as [|c l IH]; intros ln wd ch inword Hln Hwd Hch Bln Bwd Bch.
  { exists inword. change (words []) with (@nil (list Z)). change (newlines []) with 0%nat. cbn [starts_word length fold_left].
    rewrite andb_false_r. by_parts. }
  cbn [length] in *. cbn [fold_left starts_word]. rewrite words_cons, newlines_cons. unfold wc_byte at 2.
  rewrite !i32_small by lia. cbv zeta.
  assert (El : (if c =? 10 then ln + 1 else ln) + Z.of_nat (newlines l) = ln + Z.of_nat (if c =? 10 then S (newlines l) else newlines l))
    by (destruct (c =? 10); lia).
  assert (Hl1 : 0 <= (if c =? 10 then ln + 1 else ln) <= ln + 1) by (destruct (c =? 10); lia).
  destruct (is_space c); cbn [negb andb].
  - destruct (IH (if c =? 10 then ln + 1 else ln) wd (ch + 1) false) as [b ->]; try lia.
    exists b. rewrite andb_false_r, El. cbn [andb]. by_parts.
  - rewrite andb_true_r. destruct inword; cbn [negb andb].
    + destruct (IH (if c =? 10 then ln + 1 else ln) wd (ch + 1) true) as [b ->]; try lia.
      exists b. rewrite El. cbn [andb]. destruct (starts_word l); by_parts.
    + destruct (IH (if c =? 10 then ln + 1 else ln) (wd + 1) (ch + 1) true) as [b ->]; try lia.
      exists b. rewrite El. cbn [andb]. destruct (starts_word l); by_parts.
Qed.

Section ProgramFacts.
Context {W : Type} `{Files W}.

(** The line that wc prints for a file. *)
Definition wc_line (l name : list Z) : list Z :=
  render 10 (Z.of_nat (newlines l)) ++ [32] ++ render 10 (Z.of_nat (length (words l))) ++ [32] ++
  render 10 (Z.of_nat (length l)) ++ [32] ++ name ++ [10].

Definition byte_string (a : list Z) : Prop := Forall (fun c => 0 <= c < 256) a.

Lemma words_length l : (length (words l) <= length l)%nat.
Proof.
  induction l as [|c l IH]; [done|]. rewrite words_cons. cbn [length]. destruct (is_space c), (starts_word l); lia.
Qed.

Lemma newlines_length l : (newlines l <= length l)%nat.
Proof. induction l as [|c l IH]; [done|]. rewrite newlines_cons. cbn [length]. destruct (c =? 10); lia. Qed.

Lemma wc_run fd name w :
  byte_string name -> Z.of_nat (length (input w fd)) < 2 ^ 31 ->
  exists w', wc fd name w = Ret tt w' /\ consumed fd (wc_line (input w fd) name) w w'.
Proof.
  intros Hname Hlen. set (l := input w fd) in *.
  destruct (read_all fd (fun st n buf => ret (inl (fold_left wc_byte (take (Z.to_nat n) buf) st))) (fun n st => (n, st))
    (fun seen st w1 => st = fold_left wc_byte seen (0, 0, 0, false) /\ (forall fd', output w1 fd' = output w fd') /\
       forall a, contents w1 a = contents w a) (0, 0, 0, false) w) as (st & w1 & E & (Hst & Ho & Hc) & Hi).
  - intros seen c rest st w1 _ (-> & Ho & Hc) Hin Hin1. rewrite Nat2Z.id, take_ge by done. do 2 eexists. split; [done|].
    split; [|done]. split; [by rewrite fold_left_app|done].
  - intros seen st w0 w1 (-> & Ho & Hc) Ho1 _ Hc1. split; [done|]. split; [intros fd'; by rewrite Ho1|intros a; by rewrite Hc1].
  - done.
  - fold l. lia.
  - fold l in Hst. destruct (wc_fold l 0 0 0 false) as [b Hb]; try lia. rewrite Hb in Hst. cbn [andb] in Hst. rewrite !Z.add_0_l, Z.sub_0_r in Hst.
    pose proof (words_length l). pose proof (newlines_length l).
    destruct (vprintf_loop_emits 1 (line "%d %d %d %s") false
      [AInt (Z.of_nat (newlines l)); AInt (Z.of_nat (length (words l))); AInt (Z.of_nat (length l)); AStr (Some name)] (wc_line l name)) with (w := w1)
      as (w' & E' & I' & O' & C').
    + repeat (apply Forall_cons; split; [vm_compute; intuition congruence|]). apply Forall_nil_2.
    + repeat (apply Forall_cons; split; [cbn; lia || done|]). apply Forall_nil_2.
    + reflexivity.
    + exists w'. unfold wc. rewrite (bind_Ret _ _ _ _ _ E), Hst. change (0 <? 0) with false. cbv iota. split; [exact E'|].
      split; [by rewrite I'|]. split; [intros fd'; by rewrite O', !Ho|].
      intros a. by rewrite C'.
Qed.

(** Several files, one after the other. *)
Lemma complain_emits fd fmt a out :
  byte_string a -> Forall (fun c => 0 <= c < 256) fmt -> format fmt false [AStr (Some a)] = Some out ->
  emits fd out (vprintf fd fmt [AStr (Some a)]).
Proof. intros Ha Hf HF. unfold vprintf. apply vprintf_loop_emits; [done| |done]. apply Forall_cons. split; [exact Ha|apply Forall_nil_2]. Qed.

(** cat writes the contents of the files it is given, in order, up to the
    first that does not exist, about which it complains on descriptor 2 before
    it exits with status 1. *)
Theorem cat_main_correct args w :
  args <> [] -> Forall byte_string args -> (forall a l, contents w a = Some l -> Z.of_nat (length l) < 2 ^ 31) ->
  let '(o, e) := files_out (fun l _ => l) (contents w) args in
  exists w', cat_main args w = Panic "exit" (exited (match e with None => 0 | Some _ => 1 end) w') /\
    forall fd, output w' fd = output w fd ++ (if fd =? 1 then o else []) ++
      (if fd =? 2 then match e with None => [] | Some a => bytes "cat: cannot open " ++ a ++ [10] end else []).
Proof.
  intros Hne Hargs Hlen. destruct args as [|a args]; [done|].
  pose proof (each_file_run (fun fd _ => cat fd) (fun a => fprintf 2 (line "cat: cannot open %s") [AStr (Some a)]) (fun l _ => l) 2
    (fun a => bytes "cat: cannot open " ++ a ++ [10]) byte_string (fun l => Z.of_nat (length l) < 2 ^ 31)) as HE. unfold each_file in HE. apply HE; [| |done|done]; clear HE.
  - intros fd b w1 _ _ Hl. apply cat_run. lia.
  - intros b Hb. unfold fprintf. apply complain_emits; [done| |reflexivity]. repeat (apply Forall_cons; split; [vm_compute; intuition congruence|]). apply Forall_nil_2.
Qed.

(** wc prints, for each file, the number of its newlines, of its words (the
    maximal runs of bytes other than white space) and of its bytes, whatever
    the sizes of the pieces it reads. *)
Theorem wc_main_correct args w :
  args <> [] -> Forall byte_string args -> (forall a l, contents w a = Some l -> Z.of_nat (length l) < 2 ^ 31) ->
  let '(o, e) := files_out wc_line (contents w) args in
  exists w', wc_main args w = Panic "exit" (exited (match e with None => 0 | Some _ => 1 end) w') /\
    forall fd, output w' fd = output w fd ++ (if fd =? 1 then o else []) ++
      (if fd =? 1 then match e with None => [] | Some a => bytes "wc: cannot open " ++ a ++ [10] end else []).
Proof.
  intros Hne Hargs Hlen. destruct args as [|a args]; [done|].
  pose proof (each_file_run wc (fun a => printf (line "wc: cannot open %s") [AStr (Some a)]) wc_line 1
    (fun a => bytes "wc: cannot open " ++ a ++ [10]) byte_string (fun l => Z.of_nat (length l) < 2 ^ 31)) as HE. unfold each_file in HE. apply HE; [| |done|done]; clear HE.
  - intros fd b w1 _ Hb Hl. by apply wc_run.
  - intros b Hb. unfold printf. apply complain_emits; [done| |reflexivity]. repeat (apply Forall_cons; split; [vm_compute; intuition congruence|]). apply Forall_nil_2.
Qed.

(** The arguments separated by blanks, and a newline. *)
Fixpoint echo_text (args : list (list Z)) : list Z :=
  match args with [] => [] | a :: args' => a ++ (match args' with [] => [10] | _ => [32] end) ++ echo_text args' end.

Lemma echo_args_emits args : emits 1 (echo_text args) (echo_args args).
Proof.
  induction args as [|a args IH]; [apply emits_ret|]. intros w. cbn [echo_args echo_text].
  destruct (write_law 1 a w) as (w1 & E1 & S1). rewrite (bind_Ret _ _ _ _ _ E1).
  destruct (write_law 1 (match args with [] => [10] | _ => [32] end) w1) as (w2 & E2 & S2). rewrite (bind_Ret _ _ _ _ _ E2).
  destruct (IH w2) as (w3 & E3 & S3). exists w3. split; [done|]. apply (emitted_app 1 _ _ w w1); [done|]. by apply (emitted_app 1 _ _ w1 w2).
Qed.
End ProgramFacts.

Module UprogsWitness.
Import DemoUnix.

#[export] Instance demo_files : Files world.
Proof.
  split.
  - intros path w. cbn. destruct (lookup_file (d_files w) path); do 2 eexists; (split; [reflexivity|]); done.
  - intros fd w _. eexists. split; [reflexivity|]. done.
Qed.

Definition files0 : list (list Z * list Z) := [(bytes "a", bytes "one two" ++ [10]); (bytes "b", bytes "x")].

Lemma files0_small a l : lookup_file files0 a = Some l -> Z.of_nat (length l) < 2 ^ 31.
Proof.
  unfold lookup_file, files0. cbn. destruct (bool_decide _); cbn; [intros [= <-]; cbn; lia|].
  destruct (bool_decide _); cbn; [intros [= <-]; cbn; lia|discriminate].
Qed.

Lemma bytes_ok : Forall byte_string [bytes "a"; bytes "b"; bytes "c"].
Proof. repeat (apply Forall_cons; split; [repeat (apply Forall_cons; split; [vm_compute; intuition congruence|]); apply Forall_nil_2|]). apply Forall_nil_2. Qed.

Lemma cat_main_correct_witness : exists w', cat_main [bytes "a"; bytes "b"; bytes "c"] (start [] files0) = Panic "exit" (exited 1 w') /\
  output w' 1 = bytes "one two" ++ [10] ++ bytes "x" /\ output w' 2 = bytes "cat: cannot open c" ++ [10].
Proof.
  destruct (cat_main_correct [bytes "a"; bytes "b"; bytes "c"] (start [] files0)) as (w' & E & Ho);
    [discriminate|exact bytes_ok|exact files0_small|].
  exists w'. split; [exact E|]. split; [exact (Ho 1)|exact (Ho 2)].
Defined.

Lemma wc_main_correct_witness : exists w', wc_main [bytes "a"] (start [] files0) = Panic "exit" (exited 0 w') /\
  output w' 1 = bytes "1 2 8 a" ++ [10].
Proof.
  destruct (wc_main_correct [bytes "a"] (start [] files0)) as (w' & E & Ho);
    [discriminate|exact (Forall_take _ 1 _ bytes_ok)|exact files0_small|].
  exists w'. split; [exact E|]. rewrite (Ho 1). vm_compute. reflexivity.
Defined.
End UprogsWitness.
