(* ===== verification/Grep.v ===== *)
(** * user/grep.c

    The regular-expression matcher of Kernighan and Pike against the language
    that a pattern denotes, and the program around it, which prints the
    matching lines of its input however the reads cut them. *)

From S2P Require Import Prelude Machine CString Printf Ulib Unix Uprogs.

(** ** The matcher *)

(** [matchstar(c, re, text)]; [here] is [matchhere(re, _)]. *)
Fixpoint matchstar (c : Z) (here : list Z -> bool) (text : list Z) : bool :=
  if here text then true
  else
    match text with
    | [] => false
    | t :: text' => if (t =? c) || (c =? 46) then matchstar c here text' else false
    end.

(** A string is the list of its bytes before the NUL: [re[0] == 0] is [[]]. *)
Fixpoint matchhere (re text : list Z) : bool :=
  match re with
  | [] => true
  | c :: re1 =>
      let one :=
        match text with
        | [] => false
        | t :: text' => if (c =? 46) || (c =? t) then matchhere re1 text' else false
        end in
      match re1 with
      | [] => if c =? 36 then match text with [] => true | _ => false end else one
      | d :: re2 => if d =? 42 then matchstar c (matchhere re2) text else one
      end
  end.

Fixpoint match_loop (re text : list Z) : bool :=
  if matchhere re text then true
  else match text with [] => false | _ :: text' => match_loop re text' end.

Definition match_ (re text : list Z) : bool :=
  match re with
  | c :: re' => if c =? 94 then matchhere re' text else match_loop re text
  | [] => match_loop re text
  end.

(** ** What a pattern denotes *)

(** A pattern is a sequence of characters, each perhaps starred, and perhaps a
    final dollar sign. *)
Fixpoint parse (re : list Z) : list (Z * bool) * bool :=
  match re with
  | [] => ([], false)
  | c :: re1 =>
      match re1 with
      | [] => if c =? 36 then ([], true) else ([(c, false)], false)
      | d :: re2 =>
          if d =? 42 then let '(l, e) := parse re2 in ((c, true) :: l, e)
          else let '(l, e) := parse re1 in ((c, false) :: l, e)
      end
  end.

(** The character of a pattern matches the byte. *)
Definition fits (c t : Z) : Prop := c = 46 \/ t = c.

(** The strings a sequence of characters denotes. *)
Inductive language : list (Z * bool) -> list Z -> Prop :=
| lang_nil : language [] []
| lang_one c l t u : fits c t -> language l u -> language ((c, false) :: l) (t :: u)
| lang_star c l s u : Forall (fits c) s -> language l u -> language ((c, true) :: l) (s ++ u).

(** The pattern denotes a prefix of the text, all of it if it ends in a dollar. *)
Definition begins (re text : list Z) : Prop :=
  let '(l, e) := parse re in exists pre post, text = pre ++ post /\ language l pre /\ (e = true -> post = []).

Lemma matchstar_spec c here text :
  matchstar c here text = true <-> exists s u, text = s ++ u /\ Forall (fits c) s /\ here u = true.
Proof.
  induction text as [|t text IH]; cbn [matchstar].
  - destruct (here []) eqn:E.
    + split; [intros _; by exists [], []|done].
    + split; [done|]. intros (s & u & Ht & _ & Hu). symmetry in Ht. apply app_nil in Ht as [-> ->]. congruence.
  - destruct (here (t :: text)) eqn:E; [split; [intros _; by exists [], (t :: text)|done]|].
    assert (Hf : (t =? c) || (c =? 46) = true <-> fits c t).
    { rewrite orb_true_iff, !Z.eqb_eq. unfold fits. tauto. }
    destruct ((t =? c) || (c =? 46)).
    + rewrite IH. split.
      * intros (s & u & -> & Hs & Hu). exists (t :: s), u. split; [done|]. split; [|done]. apply Forall_cons. tauto.
      * intros (s & u & Ht & Hs & Hu). destruct s as [|t' s]; [cbn in Ht; congruence|]. injection Ht as <- ->.
        apply Forall_cons in Hs as [_ Hs]. by exists s, u.
    + split; [done|]. intros (s & u & Ht & Hs & Hu). destruct s as [|t' s]; [cbn in Ht; congruence|]. injection Ht as <- ->.
      apply Forall_cons in Hs as [Hs _]. tauto.
Qed.

(** One more character of the pattern. *)
Lemma begins_one c l e text :
  (exists pre post, text = pre ++ post /\ language ((c, false) :: l) pre /\ (e = true -> post = [])) <->
  exists t text', text = t :: text' /\ fits c t /\ exists pre post, text' = pre ++ post /\ language l pre /\ (e = true -> post = []).
Proof.
  split.
  - intros (pre & post & -> & HL & He). inversion HL as [|? ? t u Hf Hl|]; subst. exists t, (u ++ post). split; [done|]. split; [done|].
    by exists u, post.
  - intros (t & text' & -> & Hf & pre & post & -> & HL & He). exists (t :: pre), post. split; [done|]. split; [by constructor|done].
Qed.

Lemma begins_star c l e text :
  (exists pre post, text = pre ++ post /\ language ((c, true) :: l) pre /\ (e = true -> post = [])) <->
  exists s u, text = s ++ u /\ Forall (fits c) s /\ exists pre post, u = pre ++ post /\ language l pre /\ (e = true -> post = []).
Proof.
  split.
  - intros (pre & post & -> & HL & He). inversion HL as [| |? ? s u Hf Hl]; subst. exists s, (u ++ post). rewrite app_assoc. split; [done|].
    split; [done|]. by exists u, post.
  - intros (s & u & -> & Hf & pre & post & -> & HL & He). exists (s ++ pre), post. rewrite app_assoc. split; [done|]. split; [by constructor|done].
Qed.

(** The test for one character, whatever [matchhere] says of the rest. *)
Lemma one_spec c (b : list Z -> bool) text (P : list Z -> Prop) :
  (forall u, b u = true <-> P u) ->
  match text with [] => false | t :: text' => if (c =? 46) || (c =? t) then b text' else false end = true <->
  exists t text', text = t :: text' /\ fits c t /\ P text'.
Proof.
  intros Hb. destruct text as [|t text]; [split; [done|by intros (? & ? & ? & _)]|].
  destruct ((c =? 46) || (c =? t)) eqn:E.
  - rewrite Hb. assert (fits c t) by (unfold fits; apply orb_true_iff in E as [?|?]; lia).
    split; [intros HP; by exists t, text|]. intros (? & ? & Heq & _ & HP). by injection Heq as <- <-.
  - split; [done|]. intros (? & ? & Heq & Hf & _). injection Heq as <- <-. apply orb_false_iff in E. destruct Hf; lia.
Qed.

Lemma parse_cons c d re :
  parse (c :: d :: re) =
  if d =? 42 then let '(l, e) := parse re in ((c, true) :: l, e) else let '(l, e) := parse (d :: re) in ((c, false) :: l, e).
Proof. reflexivity. Qed.

Lemma matchhere_spec n : forall re text, (length re <= n)%nat -> matchhere re text = true <-> begins re text.
Proof.
  induction n as [|n IH]; intros re text Hn; (destruct re as [|c re]; [|cbn in Hn; try lia]).
  1-2: split; [intros _; exists [], text; split; [done|]; split; [constructor|done]|done].
  cbn [matchhere]. unfold begins. destruct re as [|d re]; [cbn [parse]|rewrite parse_cons].
  - destruct (Z.eqb_spec c 36) as [->|Hne].
    + destruct text as [|t text]; split; try done.
      * intros _. exists [], []. split; [done|]. split; [constructor|done].
      * intros (pre & post & Ht & HL & He). inversion HL; subst. cbn in Ht. rewrite He in Ht; done.
    + cbv beta iota. rewrite begins_one. apply one_spec. intros u. rewrite (IH [] u) by (cbn; lia). done.
  - destruct (Z.eqb_spec d 42) as [->|Hne].
    + assert (Hre : forall u, matchhere re u = true <-> begins re u) by (intros u; apply IH; cbn in Hn; lia).
      unfold begins in Hre. destruct (parse re) as [l e]. rewrite matchstar_spec, begins_star.
      split; intros (s & u & ? & ? & ?); exists s, u; (split; [done|]); (split; [done|]); by apply Hre.
    + assert (Hre : forall u, matchhere (d :: re) u = true <-> begins (d :: re) u) by (intros u; apply IH; cbn in *; lia).
      unfold begins in Hre. destruct (parse (d :: re)) as [l e]. rewrite begins_one. by apply one_spec.
Qed.

Lemma match_loop_spec re text : match_loop re text = true <-> exists a b, text = a ++ b /\ begins re b.
Proof.
  assert (H : forall u, matchhere re u = true <-> begins re u) by (intros u; by apply (matchhere_spec (length re))).
  induction text as [|t text IH]; cbn [match_loop].
  - destruct (matchhere re []) eqn:E.
    + split; [intros _; exists [], []; split; [done|by apply H]|done].
    + split; [done|]. intros (a & b & Ht & Hb). symmetry in Ht. apply app_nil in Ht as [-> ->]. apply H in Hb. congruence.
  - destruct (matchhere re (t :: text)) eqn:E; [split; [intros _; exists [], (t :: text); split; [done|by apply H]|done]|].
    rewrite IH. split.
    + intros (a & b & -> & Hb). by exists (t :: a), b.
    + intros (a & b & Ht & Hb). destruct a as [|t' a]; [cbn in Ht; subst b; apply H in Hb; congruence|].
      injection Ht as <- ->. by exists a, b.
Qed.

(** C19: The matcher is exact: [match] returns 1 if and only if some part of the
    text is denoted by the pattern, the part beginning with the text if the
    pattern begins with [^] and ending with it if the pattern ends with [$].
    It always returns. *)
Theorem match_correct re text :
  match_ re text = true <->
  match re with
  | c :: re' => if c =? 94 then begins re' text else exists a b, text = a ++ b /\ begins re b
  | [] => True
  end.
Proof.
  unfold match_. destruct re as [|c re].
  - rewrite match_loop_spec. split; [done|]. intros _. exists [], text. split; [done|]. exists [], text. split; [done|]. split; [constructor|done].
  - destruct (c =? 94); [by apply (matchhere_spec (length re))|apply match_loop_spec].
Qed.

(** ** The program *)

Section Program.
Context {W : Type} `{Unix W}.

(** The body of [while((q = strchr(p, '\n')) != 0)], on the [m] bytes of [buf]
    that are followed by a NUL; [p] is an index in it. *)
Definition grep_line (pattern : list Z) '((p, buf) : nat * list Z) : M W (nat * list Z + nat * list Z) :=
  match index_of 10 (upto_nul (drop p buf)) with
  | Some q =>
      let q := (p + q)%nat in
      let buf := <[q := 0]> buf in
      if match_ pattern (upto_nul (drop p buf))
      then
        let buf := <[q := 10]> buf in
        _ <- write 1 (take (q + 1 - p) (drop p buf)) ;;
        ret (inl ((q + 1)%nat, buf))
      else ret (inl ((q + 1)%nat, buf))
  | None => ret (inr (p, buf))
  end.

Definition grep_lines (pattern : list Z) : nat * list Z -> M W (nat * list Z) := loop (grep_line pattern).

Definition grep (pattern : list Z) (fd : Z) : M W unit :=
  loop (fun buf =>
    '(n, l) <- read fd (1024 - Z.of_nat (length buf) - 1) ;;
    if n >? 0
    then
      let buf := buf ++ take (Z.to_nat n) l in
      '(p, buf) <- grep_lines pattern (0%nat, buf) ;;
      ret (inl (drop p buf))
    else ret (inr tt)) [].

Definition grep_main (args : list (list Z)) : M W unit :=
  match args with
  | [] => fprintf 2 (line "usage: grep pattern [file ...]") [] ;;; exit 1
  | pattern :: [] => grep pattern 0 ;;; exit 0
  | pattern :: args' =>
      for_all args' (fun a =>
        fd <- open a 0 ;;
        if fd <? 0 then printf (line "grep: cannot open %s") [AStr (Some a)] ;;; exit 1
        else grep pattern fd ;;; _ <- close fd ;; ret tt) ;;;
      exit 0
  end.
End Program.

(** The lines of a text, and what follows its last newline. *)
Fixpoint lines_of (l : list Z) : list (list Z) * list Z :=
  match l with
  | [] => ([], [])
  | c :: l' =>
      let '(ls, t) := lines_of l' in
      if c =? 10 then ([] :: ls, t)
      else match ls with [] => ([], c :: t) | x :: ls' => ((c :: x) :: ls', t) end
  end.

(** The lines that match, each with its newline. *)
Definition grep_out (pattern : list Z) (ls : list (list Z)) : list Z :=
  concat (map (fun x => x ++ [10]) (List.filter (match_ pattern) ls)).

Lemma lines_of_tail l : 10 ∉ l -> lines_of l = ([], l).
Proof.
  induction l as [|c l IH]; [done|]. rewrite not_elem_of_cons. intros [Hc Hl]. cbn. rewrite (IH Hl). by destruct (Z.eqb_spec c 10).
Qed.

Lemma lines_of_line a b : 10 ∉ a -> lines_of (a ++ 10 :: b) = (a :: (lines_of b).1, (lines_of b).2).
Proof.
  induction a as [|c a IH]; cbn; [by destruct (lines_of b)|]. rewrite not_elem_of_cons. intros [Hc Ha]. rewrite (IH Ha). by destruct (Z.eqb_spec c 10).
Qed.

Lemma index_of_line a b : 10 ∉ a -> index_of 10 (a ++ 10 :: b) = Some (length a).
Proof.
  induction a as [|c a IH]; [done|]. rewrite not_elem_of_cons. intros [Hc Ha]. cbn. rewrite (IH Ha). by destruct (Z.eqb_spec c 10).
Qed.

Lemma index_of_none l : 10 ∉ l -> index_of 10 l = None.
Proof. induction l as [|c l IH]; [done|]. rewrite not_elem_of_cons. intros [Hc Hl]. cbn. rewrite (IH Hl). by destruct (Z.eqb_spec c 10). Qed.

(** A text either has no newline or begins with a line. *)
Lemma first_line l : 10 ∉ l \/ exists a b, l = a ++ 10 :: b /\ 10 ∉ a.
Proof.
  destruct (decide (10 ∈ l)) as [H|H]; [right|by left]. apply list_elem_of_split_l in H as (a & b & -> & Ha). by exists a, b.
Qed.

(** Induction on the lines of a text. *)
Lemma lines_ind (P : list Z -> Prop) :
  (forall l, 10 ∉ l -> P l) -> (forall a b, 10 ∉ a -> P b -> P (a ++ 10 :: b)) -> forall l, P l.
Proof.
  intros H0 H1 l. remember (length l) as n eqn:Hn. revert l Hn. induction n as [n IH] using lt_wf_ind. intros l ->.
  destruct (first_line l) as [?|(a & b & -> & Ha)]; [by apply H0|]. apply H1; [done|]. apply (IH (length b)); [|done].
  rewrite length_app. cbn. lia.
Qed.

(** More text goes on where the last line ends. *)
Lemma lines_of_app l r :
  lines_of (l ++ r) = ((lines_of l).1 ++ (lines_of ((lines_of l).2 ++ r)).1, (lines_of ((lines_of l).2 ++ r)).2).
Proof.
  revert l. apply lines_ind.
  - intros l Hl. rewrite (lines_of_tail l Hl). cbn [fst snd app]. by destruct (lines_of (l ++ r)).
  - intros a b Ha IH. rewrite <- app_assoc. cbn [app]. rewrite !lines_of_line, IH by done. done.
Qed.

Lemma grep_out_app re l l' : grep_out re (l ++ l') = grep_out re l ++ grep_out re l'.
Proof. unfold grep_out. by rewrite List.filter_app, map_app, concat_app. Qed.

Definition no_nul (l : list Z) : Prop := Forall (fun c => c <> 0) l.

Section ProgramFacts.
Context {W : Type} `{Files W}.

(** One line. *)
Lemma grep_lines_step re pre a b (w : W) :
  10 ∉ a -> no_nul a -> no_nul b ->
  exists x w', grep_line re (length pre, pre ++ a ++ 10 :: b) w = Ret (inl (length (pre ++ a ++ [x]), (pre ++ a ++ [x]) ++ b)) w' /\
    emitted 1 (grep_out re [a]) w w'.
Proof.
  intros Ha Hna Hnb. unfold grep_line. rewrite drop_app_length, upto_nul_id, index_of_line; [|done|].
  2:{ apply Forall_app. split; [done|]. apply Forall_cons. split; [done|exact Hnb]. }
  cbv zeta. set (q := (length pre + length a)%nat).
  assert (Hi : forall y z, <[q := z]> (pre ++ a ++ y :: b) = pre ++ a ++ z :: b).
  { intros y z. unfold q. rewrite insert_app_r, <- (Nat.add_0_r (length a)), insert_app_r. done. }
  assert (Hq : forall x : Z, (q + 1)%nat = length (pre ++ a ++ [x])) by (intros x; rewrite !length_app; cbn; lia).
  assert (Hb : forall x, pre ++ a ++ x :: b = (pre ++ a ++ [x]) ++ b) by (intros x; by rewrite <- !app_assoc).
  rewrite !Hi, drop_app_length, upto_nul_app by done. unfold grep_out. cbn [List.filter].
  destruct (match_ re a); cbn [map concat].
  - exists 10. destruct (write_law 1 (a ++ [10]) w) as (w' & E & S). exists w'. rewrite drop_app_length.
    replace (take (q + 1 - length pre) (a ++ 10 :: b)) with (a ++ [10]).
    2:{ replace (q + 1 - length pre)%nat with (length a + 1)%nat by lia. rewrite take_app, take_ge by lia.
      by replace (length a + 1 - length a)%nat with 1%nat by lia. }
    rewrite (bind_Ret _ _ _ _ _ E), (Hq 10), (Hb 10), app_nil_r. by split.
  - exists 0, w. rewrite (Hq 0), (Hb 0). split; [done|]. apply emitted_refl.
Qed.

Lemma grep_lines_runs re l : no_nul l -> forall pre (w : W), exists n p buf w',
  runs (grep_line re) n (length pre, pre ++ l) w (Ret (p, buf) w') /\ (n <= S (length l))%nat /\
  drop p buf = (lines_of l).2 /\ emitted 1 (grep_out re (lines_of l).1) w w'.
Proof.
  revert l. apply (lines_ind (fun l => no_nul l -> forall pre (w : W), exists n p buf w',
    runs (grep_line re) n (length pre, pre ++ l) w (Ret (p, buf) w') /\ (n <= S (length l))%nat /\
    drop p buf = (lines_of l).2 /\ emitted 1 (grep_out re (lines_of l).1) w w')).
  - intros l Hl Hn pre w. exists 1%nat, (length pre), (pre ++ l), w. rewrite lines_of_tail by done. split; [|split; [lia|]].
    + apply runs_done. unfold grep_line. by rewrite drop_app_length, upto_nul_id, index_of_none.
    + split; [by rewrite drop_app_length|apply emitted_refl].
  - intros a b Ha IH Hn pre w. apply Forall_app in Hn as [Hna Hnb]. apply Forall_cons in Hnb as [_ Hnb].
    destruct (grep_lines_step re pre a b w Ha Hna Hnb) as (x & w1 & E1 & S1).
    destruct (IH Hnb (pre ++ a ++ [x]) w1) as (n & p & buf & w2 & R2 & Hn2 & Hd & S2).
    exists (S n), p, buf, w2. split; [by eapply runs_step|]. split; [rewrite length_app; cbn; lia|].
    rewrite lines_of_line by done. split; [done|]. apply (emitted_app 1 (grep_out re [a]) _ w w1) in S2; [|done].
    by rewrite <- grep_out_app in S2.
Qed.

Lemma grep_lines_run re l (w : W) : no_nul l -> Z.of_nat (length l) < 2 ^ 63 -> exists p buf w',
  grep_lines re (0%nat, l) w = Ret (p, buf) w' /\ drop p buf = (lines_of l).2 /\ emitted 1 (grep_out re (lines_of l).1) w w'.
Proof.
  intros Hn Hl. destruct (grep_lines_runs re l Hn [] w) as (n & p & buf & w' & R & Hle & HR). exists p, buf, w'. split; [|done].
  unfold grep_lines. apply (loop_runs _ n); [exact R|lia].
Qed.

(** No line fills the buffer. *)
Definition short_lines (l : list Z) : Prop :=
  Forall (fun x => Z.of_nat (length x) < 1023) (lines_of l).1 /\ Z.of_nat (length (lines_of l).2) < 1023.

Lemma lines_of_rest l : 10 ∉ (lines_of l).2.
Proof.
  revert l. apply (lines_ind (fun l => 10 ∉ (lines_of l).2)).
  - intros l Hl. by rewrite lines_of_tail.
  - intros a b Ha IH. by rewrite lines_of_line.
Qed.

Lemma short_lines_rest l r : short_lines (l ++ r) -> Z.of_nat (length (lines_of l).2) < 1023.
Proof.
  unfold short_lines. rewrite lines_of_app. cbn [fst snd]. pose proof (lines_of_rest l) as Hl. set (t := (lines_of l).2) in *.
  rewrite Forall_app. intros [[_ Hx] Hy]. destruct (first_line r) as [Hr|(a & b & -> & Ha)].
  - rewrite lines_of_tail in Hy; [cbn in Hy; rewrite length_app in Hy; lia|]. rewrite elem_of_app. tauto.
  - rewrite app_assoc, lines_of_line in Hx by (rewrite elem_of_app; tauto). cbn [fst] in Hx. apply Forall_cons in Hx as [Hx _].
    rewrite length_app in Hx. lia.
Qed.

(** One piece of input: the lines it completes are dealt with and the rest is
    kept. *)
Lemma grep_piece re fd seen (w0 w1 : W) :
  no_nul (seen ++ input w1 fd) -> short_lines (seen ++ input w1 fd) -> Z.of_nat (length (seen ++ input w1 fd)) < 2 ^ 63 ->
  (forall fd', output w1 fd' = if fd' =? 1 then output w0 1 ++ grep_out re (lines_of seen).1 else output w0 fd') ->
  (forall a, contents w1 a = contents w0 a) ->
  exists k w2, (k <= length (input w1 fd))%nat /\ input w2 fd = drop k (input w1 fd) /\ (k = 0%nat -> input w1 fd = []) /\
    (forall a, contents w2 a = contents w0 a) /\
    (forall fd', output w2 fd' = if fd' =? 1 then output w0 1 ++ grep_out re (lines_of (seen ++ take k (input w1 fd))).1 else output w0 fd') /\
    ('(n, l) <- read fd (1024 - Z.of_nat (length (lines_of seen).2) - 1) ;;
     if n >? 0
     then
       let buf := (lines_of seen).2 ++ take (Z.to_nat n) l in
       '(p, buf) <- grep_lines re (0%nat, buf) ;;
       ret (inl (drop p buf))
     else ret (inr tt)) w1 =
    Ret (if decide (k = 0%nat) then inr tt else inl (lines_of (seen ++ take k (input w1 fd))).2) w2.
Proof.
  intros Hn Hs Hl Ho Hc. pose proof (short_lines_rest _ _ Hs) as Hshort. set (t := (lines_of seen).2) in *.
  destruct (read_law fd (1024 - Z.of_nat (length t) - 1) w1 ltac:(lia)) as (k & w2 & E & Hk & Hk2 & Hk0 & Hin & Hout & Hcon).
  specialize (Hin fd). rewrite Z.eqb_refl in Hin. set (c := take k (input w1 fd)) in *.
  destruct (decide (k = 0%nat)) as [->|Hne].
  - exists 0%nat, w2. split; [lia|]. split; [done|]. split; [intros _; destruct (Hk0 eq_refl) as [?|Hz]; [lia|exact Hz]|].
    split; [intros a; by rewrite Hcon|]. split; [intros fd'; rewrite Hout, Ho; cbn [take]; by rewrite app_nil_r|].
    by rewrite (bind_Ret _ _ _ _ _ E).
  - assert (Hnt : no_nul (t ++ c)).
    { apply Forall_app in Hn as [Hn1 Hn2]. apply Forall_app. split; [|by apply Forall_take]. unfold t. clear -Hn1. revert seen Hn1.
      apply (lines_ind (fun l => Forall (fun c => c <> 0) l -> Forall (fun c => c <> 0) (lines_of l).2)).
      - intros l Hl. by rewrite lines_of_tail.
      - intros a b Ha IH Hab. rewrite lines_of_line by done. apply IH. apply Forall_app in Hab as [_ Hb]. by apply Forall_cons in Hb as [_ Hb]. }
    assert (Hlt : Z.of_nat (length (t ++ c)) < 2 ^ 63) by (rewrite length_app; unfold c; rewrite length_take; lia).
    destruct (grep_lines_run re (t ++ c) w2 Hnt Hlt) as (p & buf & w3 & E3 & Hd & I3 & O3 & C3).
    exists k, w3. split; [done|]. split; [by rewrite I3|]. split; [done|]. split; [intros a; by rewrite C3, Hcon|]. split.
    + intros fd'. rewrite O3, !Hout, !Ho, (lines_of_app seen). fold t c. cbn [fst]. rewrite grep_out_app, Z.eqb_refl.
      destruct (Z.eqb_spec fd' 1) as [->|]; [by rewrite app_assoc|done].
    + rewrite (bind_Ret _ _ _ _ _ E), Z.gtb_ltb. destruct (Z.ltb_spec 0 (Z.of_nat k)); [|lia]. cbv zeta.
      rewrite Nat2Z.id, (take_ge c) by (unfold c; rewrite length_take; lia). rewrite (bind_Ret _ _ _ _ _ E3), Hd.
      by rewrite decide_False, (lines_of_app seen) by done.
Qed.

(** grep reads its input to the end and writes the lines that match. *)
Lemma grep_run re fd (w : W) :
  no_nul (input w fd) -> short_lines (input w fd) -> Z.of_nat (length (input w fd)) < 2 ^ 63 ->
  exists w', grep re fd w = Ret tt w' /\ consumed fd (grep_out re (lines_of (input w fd)).1) w w'.
Proof.
  set (l := input w fd). intros Hn Hs Hl. unfold grep.
  apply (loop_measure _ (fun buf w1 => exists seen, l = seen ++ input w1 fd /\ buf = (lines_of seen).2 /\
      (forall fd', output w1 fd' = if fd' =? 1 then output w 1 ++ grep_out re (lines_of seen).1 else output w fd') /\
      forall a, contents w1 a = contents w a)
    (fun _ w1 => length (input w1 fd))
    (fun o => exists w', o = Ret tt w' /\ consumed fd (grep_out re (lines_of l).1) w w')).
  - intros buf w1 (seen & El & -> & Ho & Hc).
    destruct (grep_piece re fd seen w w1) as (k & w2 & Hk & Hin & Hk0 & Hc2 & Ho2 & E); try (by rewrite <- El); try done.
    destruct (decide (k = 0%nat)) as [->|Hne].
    + right; left. exists tt, w2. split; [exact E|]. exists w2. split; [done|]. rewrite (Hk0 eq_refl) in *.
      rewrite app_nil_r in El. cbn [take] in Ho2. rewrite app_nil_r, <- El in Ho2. done.
    + left. do 2 eexists. split; [exact E|]. split; [|rewrite Hin, length_drop; lia].
      exists (seen ++ take k (input w1 fd)). rewrite Hin, <- app_assoc, take_drop. done.
  - exists []. split; [done|]. split; [done|]. split; [|done]. intros fd'. cbn. rewrite app_nil_r. by destruct (Z.eqb_spec fd' 1) as [->|].
  - fold l. lia.
Qed.

(** C20: grep prints, in order, exactly the complete lines of its files that match
    the pattern, however the reads cut the text, if the text has no NUL and no
    line fills the buffer of 1024 bytes. *)
Theorem grep_main_correct re args w :
  args <> [] -> Forall byte_string args ->
  (forall a l, contents w a = Some l -> no_nul l /\ short_lines l /\ Z.of_nat (length l) < 2 ^ 63) ->
  let '(o, e) := files_out (fun l _ => grep_out re (lines_of l).1) (contents w) args in
  exists w', grep_main (re :: args) w = Panic "exit" (exited (match e with None => 0 | Some _ => 1 end) w') /\
    forall fd, output w' fd = output w fd ++ (if fd =? 1 then o else []) ++
      (if fd =? 1 then match e with None => [] | Some a => bytes "grep: cannot open " ++ a ++ [10] end else []).
Proof.
  intros Hne Hargs Hok. destruct args as [|a args]; [done|].
  pose proof (each_file_run (fun fd _ => grep re fd) (fun a => printf (line "grep: cannot open %s") [AStr (Some a)])
    (fun l _ => grep_out re (lines_of l).1) 1 (fun a => bytes "grep: cannot open " ++ a ++ [10]) byte_string
    (fun l => no_nul l /\ short_lines l /\ Z.of_nat (length l) < 2 ^ 63)) as HE. unfold each_file in HE. apply HE; [| |done|done]; clear HE.
  - intros fd b w1 _ _ (Hx & Hy & Hz). by apply grep_run.
  - intros b Hb. unfold printf. apply complain_emits; [done| |reflexivity]. repeat (apply Forall_cons; split; [vm_compute; intuition congruence|]). apply Forall_nil_2.
Qed.
End ProgramFacts.

Module GrepWitness.
Import DemoUnix UprogsWitness.

Definition files1 : list (list Z * list Z) := [(bytes "a", bytes "axb" ++ [10] ++ bytes "ab" ++ [10] ++ bytes "yaxxb" ++ [10] ++ bytes "ax")].

Lemma files1_ok a l : lookup_file files1 a = Some l -> no_nul l /\ short_lines l /\ Z.of_nat (length l) < 2 ^ 63.
Proof.
  unfold lookup_file, files1. cbn [List.find]. destruct (bool_decide _); [intros [= <-]|discriminate]. split; [|split].
  - repeat (apply Forall_cons; split; [vm_compute; congruence|]). apply Forall_nil_2.
  - split; [|vm_compute; congruence]. repeat (apply Forall_cons; split; [vm_compute; congruence|]). apply Forall_nil_2.
  - vm_compute. congruence.
Qed.

Lemma grep_main_correct_witness : exists w', grep_main [bytes "ax*b$"; bytes "a"; bytes "b"] (start [] files1) = Panic "exit" (exited 1 w') /\
  output w' 1 = bytes "axb" ++ [10] ++ bytes "ab" ++ [10] ++ bytes "yaxxb" ++ [10] ++ bytes "grep: cannot open b" ++ [10].
Proof.
  destruct (grep_main_correct (bytes "ax*b$") [bytes "a"; bytes "b"] (start [] files1)) as (w' & E & Ho);
    [discriminate|exact (Forall_take _ 2 _ bytes_ok)|exact files1_ok|].
  exists w'. split; [exact E|]. rewrite (Ho 1). vm_compute. reflexivity.
Defined.
End GrepWitness.
