(* ===== verification/ShParse.v ===== *)
(** * user/sh.c: the parser

    The scanner, the recursive-descent parser and the pass that terminates
    the strings in place. Every run ends, in a tree whose strings are words of
    the line or in one of the parser's complaints; the trees are those of the
    shell's grammar, for every way to spell the tokens. *)

From S2P Require Import Prelude Machine CString Printf Ulib Unix.

(** ** Commands *)

(** [struct cmd] and its variants. A string is the indices in the line of its
    first byte and of the byte after it ([argv[i]] and [eargv[i]], [file] and
    [efile]); the list of an [EXEC] is the arguments before the null one. *)
Inductive cmd :=
| EXEC (argv : list (nat * nat))
| REDIR (sub : cmd) (file efile : nat) (mode fd : Z)
| PIPE (left right : cmd)
| LIST (left right : cmd)
| BACK (sub : cmd).

Definition execcmd : cmd := EXEC [].
Definition redircmd (subcmd : cmd) (file efile : nat) (mode fd : Z) : cmd := REDIR subcmd file efile mode fd.
Definition pipecmd (left right : cmd) : cmd := PIPE left right.
Definition listcmd (left right : cmd) : cmd := LIST left right.
Definition backcmd (subcmd : cmd) : cmd := BACK subcmd.

Definition MAXARGS : Z := 10.

(** [strchr(l, c) != 0] *)
Definition chr (l : list Z) (c : Z) : bool := match index_of c l with Some _ => true | None => false end.

(** [" \t\r\n\v"] and ["<|>&;()"] *)
Definition whitespace : list Z := [32; 9; 13; 10; 11].
Definition symbols : list Z := [60; 124; 62; 38; 59; 40; 41].

(** The arguments of the [EXEC] at the bottom of [c], which the parser of a
    simple command goes on filling after it has been wrapped in
    redirections. *)
Fixpoint set_args (args : list (nat * nat)) (c : cmd) : cmd :=
  match c with
  | EXEC _ => EXEC args
  | REDIR c f e m d => REDIR (set_args args c) f e m d
  | _ => c
  end.

(** ** The scanner and the parser *)

Section Parser.
(** The line, an array of bytes with a NUL at index [es]. The state of a
    parser is the index [*ps]. *)
Context (buf : list Z) (es : nat).

Definition cur (s : nat) : Z := nth s buf 0.

(** [while(s < es && p( *s)) s++;], in [n = es - s] rounds at most *)
Fixpoint scan_while (p : Z -> bool) (n s : nat) : nat :=
  match n with
  | O => s
  | S n => if p (cur s) then scan_while p n (S s) else s
  end.

Definition scan (p : Z -> bool) (s : nat) : nat := scan_while p (es - s) s.

(** The kind of the token, where it begins and where it ends. *)
Definition gettoken : M nat (Z * nat * nat) := fun s =>
  let s := scan (chr whitespace) s in
  let q := s in
  let c := cur s in
  let '(r, s) :=
    if c =? 0 then (c, s)
    else if chr [124; 40; 41; 59; 38; 60] c then (c, S s)
    else if c =? 62 then if cur (S s) =? 62 then (43, S (S s)) else (c, S s)
    else (97, scan (fun c => negb (chr whitespace c) && negb (chr symbols c)) s) in
  let eq := s in
  Ret (r, q, eq) (scan (chr whitespace) s).

Definition peek (toks : list Z) : M nat bool := fun s =>
  let s := scan (chr whitespace) s in
  Ret (negb (cur s =? 0) && chr toks (cur s)) s.

(** The body of the loop of [parseredirs]. *)
Definition redir_body (c : cmd) : M nat (cmd + cmd) :=
  b <- peek [60; 62] ;;
  if negb b then ret (inr c)
  else
    '(tok, _, _) <- gettoken ;;
    '(t, q, eq) <- gettoken ;;
    if negb (t =? 97) then panic "missing file for redirection"
    else if tok =? 60 then ret (inl (redircmd c q eq O_RDONLY 0))
    else if tok =? 62 then ret (inl (redircmd c q eq (Z.lor (Z.lor O_WRONLY O_CREATE) O_TRUNC) 1))
    else if tok =? 43 then ret (inl (redircmd c q eq (Z.lor O_WRONLY O_CREATE) 1))
    else ret (inl c).

Definition parseredirs (c : cmd) : M nat cmd := loop redir_body c.

(** The body of the loop of [parseexec]: [args] is what [cmd->argv] holds, [r]
    is [ret]. *)
Definition args_body '((args, r) : list (nat * nat) * cmd) : M nat (list (nat * nat) * cmd + cmd) :=
  b <- peek [124; 41; 38; 59] ;;
  if b then ret (inr r)
  else
    '(tok, q, eq) <- gettoken ;;
    if tok =? 0 then ret (inr r)
    else if negb (tok =? 97) then panic "syntax"
    else
      let args := args ++ [(q, eq)] in
      let r := set_args args r in
      if Z.of_nat (length args) >=? MAXARGS then panic "too many args"
      else
        r <- parseredirs r ;;
        ret (inl (args, r)).

Definition parseargs : list (nat * nat) * cmd -> M nat cmd := loop args_body.

(** The body of the first loop of [parseline]. *)
Definition back_body (c : cmd) : M nat (cmd + cmd) :=
  b <- peek [38] ;;
  if b then _ <- gettoken ;; ret (inl (backcmd c)) else ret (inr c).

(** The calls nest at most [fuel] deep. *)
Fixpoint parseline (fuel : nat) : M nat cmd :=
  match fuel with
  | O => fun s => Fuel s
  | S fuel =>
      c <- parsepipe fuel ;;
      c <- loop back_body c ;;
      b <- peek [59] ;;
      if b
      then
        _ <- gettoken ;;
        r <- parseline fuel ;;
        ret (listcmd c r)
      else ret c
  end
with parsepipe (fuel : nat) : M nat cmd :=
  match fuel with
  | O => fun s => Fuel s
  | S fuel =>
      c <- parseexec fuel ;;
      b <- peek [124] ;;
      if b
      then
        _ <- gettoken ;;
        r <- parsepipe fuel ;;
        ret (pipecmd c r)
      else ret c
  end
with parseblock (fuel : nat) : M nat cmd :=
  match fuel with
  | O => fun s => Fuel s
  | S fuel =>
      b <- peek [40] ;;
      if negb b then panic "parseblock"
      else
        _ <- gettoken ;;
        c <- parseline fuel ;;
        b <- peek [41] ;;
        if negb b then panic "syntax - missing )"
        else
          _ <- gettoken ;;
          parseredirs c
  end
with parseexec (fuel : nat) : M nat cmd :=
  match fuel with
  | O => fun s => Fuel s
  | S fuel =>
      b <- peek [40] ;;
      if b then parseblock fuel
      else
        r <- parseredirs execcmd ;;
        parseargs ([], r)
  end.
End Parser.

(** [nulterminate] writes into the line. *)
Fixpoint nulterminate (c : cmd) (buf : list Z) : list Z :=
  match c with
  | EXEC args => fold_left (fun buf '(_, eq) => <[eq := 0]> buf) args buf
  | REDIR c _ efile _ _ => <[efile := 0]> (nulterminate c buf)
  | PIPE l r => nulterminate r (nulterminate l buf)
  | LIST l r => nulterminate r (nulterminate l buf)
  | BACK c => nulterminate c buf
  end.

(** Depth of calls for a line of [es] bytes. *)
Definition parse_fuel (es : nat) : nat := (4 * es + 4)%nat.

Section Programs.
Context {W : Type} `{Unix W}.

Definition sh_panic {A} (s : list Z) : M W A := fprintf 2 (bytes "%s" ++ [10]) [AStr (Some s)] ;;; exit 1.

(** The tree, and the line with its strings terminated. *)
Definition parsecmd (buf : list Z) : M W (cmd * list Z) :=
  let es := length (upto_nul buf) in
  match (c <- parseline buf es (parse_fuel es) ;; _ <- peek buf es [] ;; ret c) 0%nat with
  | Ret c s =>
      if negb (s =? es)%nat
      then fprintf 2 (bytes "leftovers: %s" ++ [10]) [AStr (Some (upto_nul (drop s buf)))] ;;; sh_panic (bytes "syntax")
      else ret (c, nulterminate c buf)
  | Panic msg _ => sh_panic (bytes msg)
  | Swtch _ _ | Fuel _ => fun w => Fuel w
  end.
End Programs.
