(* ===== verification/ShFacts.v ===== *)
(** * What the shell's parser computes *)

From S2P Require Import Prelude Machine CString Printf Ulib Unix ShParse.

Lemma chr_true l c : chr l c = true <-> c ∈ l.
Proof.
  unfold chr. induction l as [|x l IH]; cbn [index_of]; [split; [done|by intros ?%elem_of_nil]|]. rewrite elem_of_cons.
  destruct (Z.eqb_spec x c) as [->|Hne]; [split; auto|]. destruct (index_of c l); cbn; split; try done; intuition congruence.
Qed.

Lemma chr_false l c : chr l c = false <-> c ∉ l.
Proof. rewrite <- chr_true. by destruct (chr l c). Qed.

(** A byte of a word. *)
Definition word_char (c : Z) : bool := negb (c =? 0) && negb (chr whitespace c) && negb (chr symbols c).

(** The line: [es] bytes that are not NUL and a NUL. *)
Definition line_ok (buf : list Z) (es : nat) : Prop :=
  (es < length buf)%nat /\ cur buf es = 0 /\ forall i, (i < es)%nat -> cur buf i <> 0.

Lemma line_ok_strlen buf : 0 ∈ buf -> line_ok buf (length (upto_nul buf)).
Proof.
  unfold line_ok, cur. induction buf as [|c buf IH]; [by rewrite elem_of_nil|]. intros Hin. cbn [upto_nul].
  destruct (Z.eqb_spec c 0) as [->|Hc]; [cbn; split; [lia|split; [done|lia]]|].
  apply elem_of_cons in Hin as [?|Hin]; [congruence|]. destruct (IH Hin) as (H1 & H2 & H3). cbn [length nth].
  split; [lia|]. split; [done|]. intros [|i] Hi; [done|]. apply H3. lia.
Qed.

(** From [q] to [eq] the line has a whole word. *)
Definition word_at (buf : list Z) (q eq : nat) : Prop :=
  (q < eq < length buf)%nat /\ (forall i, (q <= i < eq)%nat -> word_char (cur buf i) = true) /\ word_char (cur buf eq) = false.

(** The strings of the tree are words of the line, and an argument vector with
    its null pointer fits the array. *)
Fixpoint wf_cmd (buf : list Z) (c : cmd) : Prop :=
  match c with
  | EXEC args => Z.of_nat (length args) < MAXARGS /\ Forall (fun '(q, eq) => word_at buf q eq) args
  | REDIR c q eq _ fd => wf_cmd buf c /\ word_at buf q eq /\ (fd = 0 \/ fd = 1)
  | PIPE l r | LIST l r => wf_cmd buf l /\ wf_cmd buf r
  | BACK c => wf_cmd buf c
  end.

(** The run ends, if not in a complaint, in a result that satisfies [Q]. *)
Definition safe {A} (Q : A -> nat -> Prop) (o : outcome nat A) : Prop :=
  match o with Ret a s => Q a s | Panic _ _ => True | Swtch _ _ | Fuel _ => False end.

Lemma safe_bind {A B} (m : M nat A) (f : A -> M nat B) (P : A -> nat -> Prop) (Q : B -> nat -> Prop) s :
  safe P (m s) -> (forall a s', P a s' -> safe Q (f a s')) -> safe Q (bind m f s).
Proof. unfold bind. destruct (m s); cbn; try done. intros H Hf. by apply Hf. Qed.

Lemma safe_weaken {A} (P Q : A -> nat -> Prop) o : safe P o -> (forall a s, P a s -> Q a s) -> safe Q o.
Proof. destruct o; cbn; auto. Qed.

Lemma safe_loop {X R} (body : X -> M nat (X + R)) (es : nat) (I : X -> nat -> Prop) (Q : R -> nat -> Prop) :
  (forall x s, I x s -> safe (fun r s' => match r with inl x' => I x' s' /\ (s < s' <= es)%nat | inr y => Q y s' end) (body x s)) ->
  Z.of_nat es < 2 ^ 63 -> forall x s, I x s -> safe Q (loop body x s).
Proof.
  intros Hb Hes x s Hx.
  apply (loop_measure body I (fun _ s => (es - s)%nat) (safe Q)); [|done|lia]. clear x s Hx. intros x s Hx.
  specialize (Hb x s Hx). destruct (body x s) as [[x'|y] s'|msg s'| |]; cbn in Hb; try done.
  - left. exists x', s'. destruct Hb. split; [done|]. split; [done|]. lia.
  - right; left. by exists y, s'.
  - right; right. by exists msg, s'.
Qed.

Section Total.
Context (buf : list Z) (es : nat).
Hypothesis Hline : line_ok buf es.
Hypothesis Hes : Z.of_nat es < 2 ^ 63.

Lemma scan_spec p s : (s <= es)%nat ->
  let s' := scan buf es p s in
  (s <= s' <= es)%nat /\ (forall i, (s <= i < s')%nat -> p (cur buf i) = true) /\ ((s' < es)%nat -> p (cur buf s') = false).
Proof.
  unfold scan. remember (es - s)%nat as n eqn:Hn. revert s Hn. induction n as [|n IH]; intros s Hn Hs; cbn.
  { split; [lia|]. split; [lia|]. intros ?. lia. }
  destruct (p (cur buf s)) eqn:Hp.
  - destruct (IH (S s)) as (H1 & H2 & H3); [lia|lia|]. split; [lia|]. split; [|done]. intros i Hi.
    destruct (decide (i = s)) as [->|]; [done|]. apply H2. lia.
  - split; [lia|]. split; [lia|]. done.
Qed.

Lemma scan_stop p s : (s < es)%nat -> p (cur buf s) = false -> scan buf es p s = s.
Proof. unfold scan. intros Hs Hp. destruct (es - s)%nat eqn:E; [lia|]. cbn. by rewrite Hp. Qed.

Lemma cur_lt s : (s <= es)%nat -> cur buf s <> 0 -> (s < es)%nat.
Proof. intros Hs Hc. destruct Hline as (_ & H0 & _). destruct (decide (s = es)) as [->|]; [congruence|lia]. Qed.

(** A token of kind [t] from [s], with the index after it and the blanks. *)
Definition token_spec (s : nat) (r : Z * nat * nat) (s' : nat) : Prop :=
  let '(t, q, eq) := r in
  (s <= s' <= es)%nat /\ (t <> 0 -> (s < s')%nat) /\ (cur buf (scan buf es (chr whitespace) s) <> 0 -> t <> 0) /\
  (t = 97 -> word_at buf q eq).

Lemma gettoken_spec s : (s <= es)%nat -> exists r s', gettoken buf es s = Ret r s' /\ token_spec s r s'.
Proof.
  intros Hs. unfold gettoken, token_spec. destruct (scan_spec (chr whitespace) s Hs) as (H1 & H2 & H3). set (a := scan _ _ _ s) in *.
  assert (Hskip : forall b, (b <= es)%nat -> (b <= scan buf es (chr whitespace) b <= es)%nat) by (intros b Hb; apply (scan_spec _ b Hb)).
  destruct (Z.eqb_spec (cur buf a) 0) as [E0|E0].
  { do 2 eexists. split; [reflexivity|]. specialize (Hskip a). rewrite E0. split; [lia|]. split; [done|]. split; [done|discriminate]. }
  pose proof (cur_lt a (proj2 H1) E0) as Ha. specialize (H3 Ha).
  destruct (chr [124; 40; 41; 59; 38; 60] (cur buf a)) eqn:Hsym.
  { do 2 eexists. split; [reflexivity|]. specialize (Hskip (S a)). split; [lia|]. split; [lia|]. split; [done|].
    intros E. rewrite E in Hsym. discriminate Hsym. }
  destruct (Z.eqb_spec (cur buf a) 62) as [E62|E62].
  { destruct (Z.eqb_spec (cur buf (S a)) 62) as [E62'|_].
    - do 2 eexists. split; [reflexivity|]. assert (S a < es)%nat by (apply cur_lt; [lia|congruence]). specialize (Hskip (S (S a))).
      split; [lia|]. split; [lia|]. split; [lia|discriminate].
    - do 2 eexists. split; [reflexivity|]. specialize (Hskip (S a)). rewrite E62. split; [lia|]. split; [lia|]. split; [lia|discriminate]. }
  do 2 eexists. split; [reflexivity|]. destruct (scan_spec (fun c => negb (chr whitespace c) && negb (chr symbols c)) a ltac:(lia)) as (J1 & J2 & J3).
  set (b := scan _ _ _ a) in *.
  assert (Hb : (a < b)%nat).
  { destruct (decide (a = b)) as [E|]; [|lia]. exfalso. rewrite <- E in J3. specialize (J3 Ha).
    rewrite H3 in J3. cbn in J3. apply negb_false_iff, chr_true in J3. apply chr_false in Hsym. apply Hsym.
    revert J3. unfold symbols. rewrite !elem_of_cons. intuition congruence. }
  specialize (Hskip b). split; [lia|]. split; [lia|]. split; [done|]. intros _. destruct Hline as (Hl & H0 & Hnn).
  split; [lia|]. split.
  - intros i Hi. unfold word_char. rewrite <- andb_assoc, J2 by lia. destruct (Z.eqb_spec (cur buf i) 0) as [E|_]; [|done].
    exfalso. apply (Hnn i); [lia|done].
  - destruct (decide (b < es)%nat) as [Hlt|]; [|replace b with es by lia; by rewrite H0]. specialize (J3 Hlt).
    unfold word_char. by rewrite <- andb_assoc, J3, andb_false_r.
Qed.

Lemma peek_spec toks s : (s <= es)%nat -> exists s1, peek buf es toks s = Ret (negb (cur buf s1 =? 0) && chr toks (cur buf s1)) s1 /\
  (s <= s1 <= es)%nat /\ scan buf es (chr whitespace) s1 = s1.
Proof.
  intros Hs. unfold peek. destruct (scan_spec (chr whitespace) s Hs) as (H1 & _ & H3). eexists. split; [reflexivity|]. split; [done|].
  set (a := scan _ _ _ s) in *. destruct (decide (a < es)%nat) as [Hlt|]; [apply scan_stop; auto|].
  unfold scan. by replace (es - a)%nat with 0%nat by lia.
Qed.

(** Looking at the next token; if it is one of [toks], it can be taken. *)
Lemma safe_peek {A} toks (f : bool -> M nat A) (Q : A -> nat -> Prop) s : (s <= es)%nat ->
  (forall b s1, (s <= s1 <= es)%nat -> (b = true -> cur buf (scan buf es (chr whitespace) s1) <> 0) -> safe Q (f b s1)) ->
  safe Q (bind (peek buf es toks) f s).
Proof.
  intros Hs Hf. destruct (peek_spec toks s Hs) as (s1 & E & H1 & H2). rewrite (bind_Ret _ _ _ _ _ E). apply Hf; [done|].
  rewrite H2. intros Hb. apply andb_true_iff in Hb as [Hb _]. by destruct (Z.eqb_spec (cur buf s1) 0).
Qed.

Lemma safe_token {A} (f : Z * nat * nat -> M nat A) (Q : A -> nat -> Prop) s : (s <= es)%nat ->
  (forall r s1, token_spec s r s1 -> safe Q (f r s1)) -> safe Q (bind (gettoken buf es) f s).
Proof. intros Hs Hf. destruct (gettoken_spec s Hs) as (r & s1 & E & H1). rewrite (bind_Ret _ _ _ _ _ E). by apply Hf. Qed.

Lemma parseredirs_safe c s : (s <= es)%nat -> wf_cmd buf c -> safe (fun c' s' => (s <= s' <= es)%nat /\ wf_cmd buf c') (parseredirs buf es c s).
Proof.
  intros Hs Hc. unfold parseredirs.
  apply (safe_loop _ es (fun c s1 => (s <= s1 <= es)%nat /\ wf_cmd buf c)); [|done|split; [lia|done]]. clear c Hc. intros c s1 [Hs1 Hc]. unfold redir_body.
  apply safe_peek; [lia|]. intros b s2 Hs2 Hb. destruct b; cbn [negb]; [|split; [lia|done]].
  apply safe_token; [lia|]. intros [[t q0] eq0] s3 (T1 & T2 & T3 & _). specialize (T2 (T3 (Hb eq_refl))).
  apply safe_token; [lia|]. intros [[t' q] eq] s4 (U1 & _ & _ & U4). destruct (Z.eqb_spec t' 97) as [E|_]; [|done]. cbn [negb].
  specialize (U4 E). destruct (t =? 60), (t =? 62), (t =? 43); cbn; (split; [|lia]); (split; [lia|]); auto.
Qed.

Lemma set_args_wf args c : Z.of_nat (length args) < MAXARGS -> Forall (fun '(q, eq) => word_at buf q eq) args ->
  wf_cmd buf c -> wf_cmd buf (set_args args c).
Proof. intros Hl Ha. induction c; cbn; intuition auto. Qed.

Lemma parseargs_safe r s : (s <= es)%nat -> wf_cmd buf r ->
  safe (fun c' s' => (s <= s' <= es)%nat /\ wf_cmd buf c') (parseargs buf es ([], r) s).
Proof.
  intros Hs Hr. unfold parseargs.
  apply (safe_loop _ es (fun '(args, r) s1 => (s <= s1 <= es)%nat /\ Forall (fun '(q, eq) => word_at buf q eq) args /\ wf_cmd buf r));
    [|done|split; [lia|done]].
  clear r Hr. intros [args r] s1 (Hs1 & Ha & Hr). unfold args_body. apply safe_peek; [lia|]. intros b s2 Hs2 _. destruct b; [split; [lia|done]|].
  apply safe_token; [lia|]. intros [[t q] eq] s3 (T1 & T2 & _ & T4). destruct (Z.eqb_spec t 0) as [->|Ht]; [split; [lia|done]|].
  destruct (Z.eqb_spec t 97) as [->|_]; [|done]. cbn [negb]. specialize (T2 Ht). specialize (T4 eq_refl). cbv zeta.
  rewrite Z.geb_leb. destruct (Z.leb_spec MAXARGS (Z.of_nat (length (args ++ [(q, eq)])))) as [|Hlt]; [done|].
  assert (Ha' : Forall (fun '(q, eq) => word_at buf q eq) (args ++ [(q, eq)])) by (apply Forall_app; split; [done|by apply Forall_singleton]).
  eapply safe_bind; [apply parseredirs_safe; [lia|by apply set_args_wf]|]. intros c s4 [Hs4 Hc]. split; [split; [lia|done]|lia].
Qed.

Lemma parse_safe n :
  (forall s, (s <= es)%nat -> (4 * (es - s) + 4 <= n)%nat -> safe (fun c s' => (s <= s' <= es)%nat /\ wf_cmd buf c) (parseline buf es n s)) /\
  (forall s, (s <= es)%nat -> (4 * (es - s) + 3 <= n)%nat -> safe (fun c s' => (s <= s' <= es)%nat /\ wf_cmd buf c) (parsepipe buf es n s)) /\
  (forall s, (s <= es)%nat -> (4 * (es - s) + 2 <= n)%nat -> safe (fun c s' => (s <= s' <= es)%nat /\ wf_cmd buf c) (parseexec buf es n s)) /\
  (forall s, (s <= es)%nat -> (4 * (es - s) + 1 <= n)%nat -> safe (fun c s' => (s <= s' <= es)%nat /\ wf_cmd buf c) (parseblock buf es n s)).
Proof.
  induction n as [|n (IHl & IHp & IHe & IHb)]; [split; [|split; [|split]]; intros; lia|]. split; [|split; [|split]]; intros s Hs Hn.
  - cbn [parseline]. eapply safe_bind; [apply IHp; lia|]. intros c s1 [Hs1 Hc].
    apply (safe_bind _ _ (fun c s2 => (s1 <= s2 <= es)%nat /\ wf_cmd buf c)).
    { apply (safe_loop _ es (fun c s2 => (s1 <= s2 <= es)%nat /\ wf_cmd buf c)); [|done|split; [lia|done]]. clear c Hc. intros c s2 [Hs2 Hc]. unfold back_body.
      apply safe_peek; [lia|]. intros b s3 Hs3 Hb. destruct b; [|split; [lia|done]].
      apply safe_token; [lia|]. intros [[t q] eq] s4 (T1 & T2 & T3 & _). specialize (T2 (T3 (Hb eq_refl))). cbn. split; [split; [lia|done]|lia]. }
    clear c Hc. intros c s2 [Hs2 Hc]. apply safe_peek; [lia|]. intros b s3 Hs3 Hb. destruct b; [|split; [lia|done]].
    apply safe_token; [lia|]. intros [[t q] eq] s4 (T1 & T2 & T3 & _). specialize (T2 (T3 (Hb eq_refl))).
    eapply safe_bind; [apply IHl; lia|]. intros c' s5 [Hs5 Hc']. split; [lia|done].
  - cbn [parsepipe]. eapply safe_bind; [apply IHe; lia|]. intros c s1 [Hs1 Hc].
    apply safe_peek; [lia|]. intros b s3 Hs3 Hb. destruct b; [|split; [lia|done]].
    apply safe_token; [lia|]. intros [[t q] eq] s4 (T1 & T2 & T3 & _). specialize (T2 (T3 (Hb eq_refl))).
    eapply safe_bind; [apply IHp; lia|]. intros c' s5 [Hs5 Hc']. split; [lia|done].
  - cbn [parseexec]. apply safe_peek; [lia|]. intros b s3 Hs3 Hb. destruct b.
    + eapply safe_weaken; [apply IHb; lia|]. intros c s4 [Hs4 Hc]. split; [lia|done].
    + eapply safe_bind; [apply parseredirs_safe; [lia|by split]|]. intros c s4 [Hs4 Hc].
      eapply safe_weaken; [apply parseargs_safe; [lia|done]|]. intros c' s5 [Hs5 Hc']. split; [lia|done].
  - cbn [parseblock]. apply safe_peek; [lia|]. intros b s3 Hs3 Hb. destruct b; cbn [negb]; [|done].
    apply safe_token; [lia|]. intros [[t q] eq] s4 (T1 & T2 & T3 & _). specialize (T2 (T3 (Hb eq_refl))).
    eapply safe_bind; [apply IHl; lia|]. intros c s5 [Hs5 Hc].
    apply safe_peek; [lia|]. intros b s6 Hs6 Hb'. destruct b; cbn [negb]; [|done].
    apply safe_token; [lia|]. intros [[t' q'] eq'] s7 (U1 & U2 & U3 & _). specialize (U2 (U3 (Hb' eq_refl))).
    eapply safe_weaken; [apply parseredirs_safe; [lia|done]|]. intros c' s8 [Hs8 Hc']. split; [lia|done].
Qed.
End Total.

(** ** Strings in the line *)

(** A tree with its strings. *)
Inductive command :=
| Exec (argv : list (list Z))
| Redir (sub : command) (file : list Z) (mode fd : Z)
| Pipe (left right : command)
| List_ (left right : command)
| Back (sub : command).

Fixpoint command_of (str : nat * nat -> list Z) (c : cmd) : command :=
  match c with
  | EXEC args => Exec (map str args)
  | REDIR c q eq mode fd => Redir (command_of str c) (str (q, eq)) mode fd
  | PIPE l r => Pipe (command_of str l) (command_of str r)
  | LIST l r => List_ (command_of str l) (command_of str r)
  | BACK c => Back (command_of str c)
  end.

(** The bytes between the two pointers, and the C string at the first one. *)
Definition slice (buf : list Z) '((q, eq) : nat * nat) : list Z := take (eq - q) (drop q buf).
Definition cstring (buf : list Z) '((q, eq) : nat * nat) : list Z := upto_nul (drop q buf).

Fixpoint strings (c : cmd) : list (nat * nat) :=
  match c with
  | EXEC args => args
  | REDIR c q eq _ _ => (q, eq) :: strings c
  | PIPE l r | LIST l r => strings l ++ strings r
  | BACK c => strings c
  end.

Lemma cur_insert buf e i : cur (<[e := 0]> buf) i = if decide (i = e) then 0 else cur buf i.
Proof.
  unfold cur. rewrite !nth_lookup. destruct (decide (i = e)) as [->|Hne].
  - destruct (decide (e < length buf)%nat); [by rewrite list_lookup_insert_eq|].
    rewrite lookup_ge_None_2; [done|]. rewrite length_insert. lia.
  - by rewrite list_lookup_insert_ne.
Qed.

Lemma nulterminate_cur c : forall buf i, cur (nulterminate c buf) i = if decide (i ∈ map snd (strings c)) then 0 else cur buf i.
Proof.
  induction c as [args|c IH q eq mode fd|l IHl r IHr|l IHl r IHr|c IH]; intros buf i; cbn [nulterminate strings].
  - revert buf. induction args as [|[q eq] args IH]; intros buf; cbn [fold_left map snd]; [by rewrite decide_False by apply not_elem_of_nil|].
    rewrite IH, cur_insert. destruct (decide (i ∈ map snd args)) as [Hin|Hin].
    + rewrite decide_True; [done|]. rewrite elem_of_cons. by right.
    + destruct (decide (i = eq)) as [->|Hne]; [rewrite decide_True; [done|rewrite elem_of_cons; by left]|].
      rewrite decide_False; [done|]. rewrite elem_of_cons. intuition.
  - rewrite cur_insert, IH. cbn [map snd]. destruct (decide (i = eq)) as [->|Hne]; [rewrite decide_True; [done|rewrite elem_of_cons; by left]|].
    apply decide_ext. rewrite elem_of_cons. intuition congruence.
  - rewrite IHr, IHl, map_app. destruct (decide (i ∈ map snd (strings r))) as [H|H]; [rewrite decide_True; [done|rewrite elem_of_app; by right]|].
    apply decide_ext. rewrite elem_of_app. tauto.
  - rewrite IHr, IHl, map_app. destruct (decide (i ∈ map snd (strings r))) as [H|H]; [rewrite decide_True; [done|rewrite elem_of_app; by right]|].
    apply decide_ext. rewrite elem_of_app. tauto.
  - apply IH.
Qed.

Lemma nulterminate_length c : forall buf, length (nulterminate c buf) = length buf.
Proof.
  induction c as [args|c IH q eq mode fd|l IHl r IHr|l IHl r IHr|c IH]; intros buf; cbn; auto.
  - revert buf. induction args as [|[q eq] args IH]; intros buf; cbn; [done|]. by rewrite IH, length_insert.
  - by rewrite length_insert.
  - by rewrite IHr.
  - by rewrite IHr.
Qed.

Lemma wf_strings buf c : wf_cmd buf c -> Forall (fun '(q, eq) => word_at buf q eq) (strings c).
Proof.
  induction c as [args|c IH q eq mode fd|l IHl r IHr|l IHl r IHr|c IH]; cbn; auto.
  - tauto.
  - intros (Hc & Hw & _). apply Forall_cons. auto.
  - intros [? ?]. apply Forall_app. auto.
  - intros [? ?]. apply Forall_app. auto.
Qed.

Lemma upto_nul_slice n : forall buf' buf q, (q + n < length buf')%nat -> length buf' = length buf ->
  (forall i, (q <= i < q + n)%nat -> cur buf' i = cur buf i /\ cur buf i <> 0) -> cur buf' (q + n) = 0 ->
  upto_nul (drop q buf') = take n (drop q buf).
Proof.
  unfold cur. induction n as [|n IH]; intros buf' buf q Hl El Hi H0.
  - rewrite Nat.add_0_r in *. destruct (lookup_lt_is_Some_2 buf' q Hl) as [x Hx]. rewrite (drop_S _ _ _ Hx).
    rewrite nth_lookup, Hx in H0. cbn in H0. by subst x.
  - destruct (lookup_lt_is_Some_2 buf' q ltac:(lia)) as [x Hx]. destruct (lookup_lt_is_Some_2 buf q ltac:(lia)) as [y Hy].
    rewrite (drop_S _ _ _ Hx), (drop_S _ _ _ Hy). destruct (Hi q ltac:(lia)) as [E N]. rewrite !nth_lookup, Hx, Hy in E. rewrite nth_lookup, Hy in N.
    cbn in E, N. subst x. cbn. destruct (Z.eqb_spec y 0) as [|_]; [done|]. f_equal. apply IH; [lia|done| |].
    + intros i Hi'. apply Hi. lia.
    + by rewrite Nat.add_succ_comm.
Qed.

Lemma command_of_ext str str' c : (forall x, x ∈ strings c -> str x = str' x) -> command_of str c = command_of str' c.
Proof.
  induction c as [args|c IH q eq mode fd|l IHl r IHr|l IHl r IHr|c IH]; cbn; intros Hx.
  - f_equal. apply map_ext_in. intros x Hin. apply Hx. by apply list_elem_of_In.
  - rewrite IH, Hx; [done|rewrite elem_of_cons; by left|]. intros x Hin. apply Hx. rewrite elem_of_cons. by right.
  - rewrite IHl, IHr; [done| |]; intros x Hin; apply Hx; rewrite elem_of_app; auto.
  - rewrite IHl, IHr; [done| |]; intros x Hin; apply Hx; rewrite elem_of_app; auto.
  - by rewrite IH.
Qed.

(** Terminating the strings in place damages none of them. *)
Lemma nulterminate_strings buf c : wf_cmd buf c -> command_of (cstring (nulterminate c buf)) c = command_of (slice buf) c.
Proof.
  intros Hwf. pose proof (wf_strings _ _ Hwf) as Hs. rewrite Forall_forall in Hs. apply command_of_ext. intros [q eq] Hin.
  destruct (Hs _ Hin) as ([Hqe Hel] & Hw & _). unfold cstring, slice.
  apply upto_nul_slice; rewrite ?nulterminate_length; [lia|done| |].
  - intros i Hi. specialize (Hw i ltac:(lia)). split; [|by intros E; rewrite E in Hw]. rewrite nulterminate_cur, decide_False; [done|].
    intros Hend. apply list_elem_of_fmap in Hend as ([q' eq'] & -> & Hin'). destruct (Hs _ Hin') as (_ & _ & Hn). cbn in Hw. congruence.
  - replace (q + (eq - q))%nat with eq by lia. rewrite nulterminate_cur, decide_True; [done|]. apply list_elem_of_fmap. by exists (q, eq).
Qed.
