(* ===== verification/ShGrammar.v ===== *)
(** * The grammar of the shell

    Commands as the grammar has them, the tokens they are written with and the
    texts that spell the tokens; the parser gives each its tree. *)

From S2P Require Import Prelude Machine CString Printf Ulib Unix ShParse ShFacts.

(** ** The grammar *)

Inductive sop := From_ | To | Append.
Abbreviation redirs := (list (sop * list Z)).

(** [line ::= pipe { & } [ ; line ]], [pipe ::= exec [ | pipe ]],
    [exec ::= redirs { word redirs } | ( line ) redirs] *)
Inductive sline :=
| Line1 (p : spipe) (backs : nat)
| LineSeq (p : spipe) (backs : nat) (l : sline)
with spipe :=
| Pipe1 (e : sexec)
| PipeSeq (e : sexec) (p : spipe)
with sexec :=
| Simple (r : redirs) (args : list (list Z * redirs))
| Block (l : sline) (r : redirs).

Scheme sline_mind := Induction for sline Sort Prop
with spipe_mind := Induction for spipe Sort Prop
with sexec_mind := Induction for sexec Sort Prop.
Combined Scheme sh_mind from sline_mind, spipe_mind, sexec_mind.

(** The tree that a command denotes. *)
Definition op_mode (o : sop) : Z :=
  match o with From_ => O_RDONLY | To => Z.lor (Z.lor O_WRONLY O_CREATE) O_TRUNC | Append => Z.lor O_WRONLY O_CREATE end.
Definition op_fd (o : sop) : Z := match o with From_ => 0 | _ => 1 end.
Definition redirected (c : command) (r : redirs) : command := fold_left (fun c '(o, f) => Redir c f (op_mode o) (op_fd o)) r c.

Fixpoint tree_line (l : sline) : command :=
  match l with
  | Line1 p n => Nat.iter n Back (tree_pipe p)
  | LineSeq p n l => List_ (Nat.iter n Back (tree_pipe p)) (tree_line l)
  end
with tree_pipe (p : spipe) : command :=
  match p with Pipe1 e => tree_exec e | PipeSeq e p => Pipe (tree_exec e) (tree_pipe p) end
with tree_exec (e : sexec) : command :=
  match e with
  | Simple r args => redirected (Exec (map fst args)) (r ++ concat (map snd args))
  | Block l r => redirected (tree_line l) r
  end.

(** Its tokens. *)
Inductive token := TSym (c : Z) | TAppend | TWord (w : list Z).

Definition op_token (o : sop) : token := match o with From_ => TSym 60 | To => TSym 62 | Append => TAppend end.
Fixpoint toks_redirs (r : redirs) : list token :=
  match r with [] => [] | (o, f) :: r => op_token o :: TWord f :: toks_redirs r end.
Fixpoint toks_args (args : list (list Z * redirs)) : list token :=
  match args with [] => [] | (w, r) :: args => TWord w :: toks_redirs r ++ toks_args args end.

Fixpoint toks_line (l : sline) : list token :=
  match l with
  | Line1 p n => toks_pipe p ++ repeat (TSym 38) n
  | LineSeq p n l => toks_pipe p ++ repeat (TSym 38) n ++ TSym 59 :: toks_line l
  end
with toks_pipe (p : spipe) : list token :=
  match p with Pipe1 e => toks_exec e | PipeSeq e p => toks_exec e ++ TSym 124 :: toks_pipe p end
with toks_exec (e : sexec) : list token :=
  match e with
  | Simple r args => toks_redirs r ++ toks_args args
  | Block l r => TSym 40 :: toks_line l ++ TSym 41 :: toks_redirs r
  end.

(** No command has [MAXARGS] arguments or more. *)
Fixpoint fits_line (l : sline) : Prop :=
  match l with Line1 p _ => fits_pipe p | LineSeq p _ l => fits_pipe p /\ fits_line l end
with fits_pipe (p : spipe) : Prop := match p with Pipe1 e => fits_exec e | PipeSeq e p => fits_exec e /\ fits_pipe p end
with fits_exec (e : sexec) : Prop :=
  match e with Simple _ args => Z.of_nat (length args) < MAXARGS | Block l _ => fits_line l end.

(** The texts that spell tokens: blanks may follow a token; they must part two
    words, and [>] from another [>]. *)
Definition blanks (l : list Z) : Prop := Forall (fun c => c ∈ whitespace) l.

Inductive spells : list token -> list Z -> Prop :=
| sp_nil : spells [] []
| sp_sym c ws ts t : c ∈ symbols -> blanks ws -> (c = 62 -> head (ws ++ t) <> Some 62) -> spells ts t ->
    spells (TSym c :: ts) (c :: ws ++ t)
| sp_append ws ts t : blanks ws -> spells ts t -> spells (TAppend :: ts) (62 :: 62 :: ws ++ t)
| sp_word w ws ts t : w <> [] -> Forall (fun c => word_char c = true) w -> blanks ws ->
    (forall c, head (ws ++ t) = Some c -> word_char c = false) -> spells ts t ->
    spells (TWord w :: ts) (w ++ ws ++ t).

(** ** The scanner on a spelled text *)

Section Scan.
Context (text junk : list Z).
Let buf := text ++ 0 :: junk.
Let es := length text.

(** At [s], perhaps after blanks, [ts] are spelled. *)
Definition at_ (ts : list token) (s : nat) : Prop :=
  (s <= es)%nat /\ exists ws t, drop s text = ws ++ t /\ blanks ws /\ spells ts t.

Lemma cur_text s : (s < es)%nat -> exists c, text !! s = Some c /\ cur buf s = c.
Proof.
  intros Hs. destruct (lookup_lt_is_Some_2 text s Hs) as [c Hc]. exists c. split; [done|].
  unfold cur, buf. by rewrite nth_lookup, lookup_app_l, Hc.
Qed.

Lemma cur_drop s c t : drop s text = c :: t -> cur buf s = c /\ (s < es)%nat /\ drop (S s) text = t.
Proof.
  intros Hd. assert (Hl : (s < es)%nat).
  { apply (f_equal length) in Hd. rewrite length_drop in Hd. cbn in Hd. unfold es. lia. }
  destruct (cur_text s Hl) as (c' & Hc & E). rewrite (drop_S _ _ _ Hc) in Hd. injection Hd as -> <-. done.
Qed.

Lemma cur_end s : (s <= es)%nat -> drop s text = [] -> s = es /\ cur buf s = 0.
Proof.
  intros Hs Hd. apply (f_equal length) in Hd. rewrite length_drop in Hd. cbn in Hd. assert (s = es) as -> by (unfold es in *; lia).
  split; [done|]. unfold cur, buf, es. rewrite app_nth2 by lia. by rewrite Nat.sub_diag.
Qed.

(** The scan stops after the longest stretch of [p]. *)
Lemma scan_over p ws : forall s t, (s <= es)%nat -> drop s text = ws ++ t -> Forall (fun c => p c = true) ws ->
  (forall c, head t = Some c -> p c = false) ->
  scan buf es p s = (s + length ws)%nat /\ drop (s + length ws) text = t /\ (s + length ws <= es)%nat.
Proof.
  induction ws as [|c ws IH]; intros s t Hs Hd Hp Ht; cbn [length app] in *.
  - rewrite Nat.add_0_r. split; [|done]. destruct t as [|c t].
    + destruct (cur_end s Hs Hd) as [-> _]. unfold scan. by rewrite Nat.sub_diag.
    + destruct (cur_drop s c t Hd) as (E & Hl & _). apply scan_stop; [done|]. rewrite E. by apply Ht.
  - apply Forall_cons in Hp as [Hc Hp]. destruct (cur_drop s c _ Hd) as (E & Hl & Hd').
    destruct (IH (S s) t ltac:(lia) Hd' Hp Ht) as (E1 & E2 & E3). rewrite <- Nat.add_succ_comm. split; [|done].
    rewrite <- E1. unfold scan. replace (es - s)%nat with (S (es - S s)) by lia. cbn. by rewrite E, Hc.
Qed.

Lemma spells_head ts t c : spells ts t -> head t = Some c -> chr whitespace c = false.
Proof.
  intros Hsp Hc. apply chr_false. destruct Hsp as [|c' ws ts t Hsym _ _ _|ws ts t _ _|w ws ts t Hne Hw _ _ _]; cbn in Hc; try done.
  - injection Hc as ->. unfold symbols, whitespace in *. rewrite !elem_of_cons in *. rewrite elem_of_nil in *. lia.
  - injection Hc as <-. unfold whitespace. rewrite !elem_of_cons, elem_of_nil. lia.
  - destruct w as [|c' w]; [done|]. cbn in Hc. injection Hc as ->. apply Forall_cons in Hw as [Hw _]. unfold word_char in Hw.
    intros Hin%chr_true. by rewrite Hin, andb_false_r in Hw.
Qed.

(** Skipping blanks. *)
Lemma scan_blanks ts s : at_ ts s ->
  let s' := scan buf es (chr whitespace) s in (s <= s' <= es)%nat /\ spells ts (drop s' text) /\ at_ ts s'.
Proof.
  intros (Hs & ws & t & Hd & Hws & Hsp). destruct (scan_over (chr whitespace) ws s t Hs Hd) as (E1 & E2 & E3).
  - eapply Forall_impl; [exact Hws|]. intros c Hc. by apply chr_true.
  - intros c Hc. by apply (spells_head ts t).
  - cbv zeta. rewrite E1. split; [lia|]. rewrite E2. split; [done|]. split; [lia|]. exists [], t. split; [done|]. by split; [apply Forall_nil_2|].
Qed.

(** The next token is one of the symbols [toks]. *)
Definition looks (toks : list Z) (ts : list token) : bool :=
  match ts with TSym c :: _ => chr toks c | TAppend :: _ => chr toks 62 | _ => false end.

Lemma peek_at toks ts s : (forall c, c ∈ toks -> c ∈ symbols) -> at_ ts s ->
  exists s', peek buf es toks s = Ret (looks toks ts) s' /\ (s <= s')%nat /\ at_ ts s'.
Proof.
  intros Hsub Hat. destruct (scan_blanks ts s Hat) as (Hs' & Hsp & Hat'). eexists. split; [|split; [apply Hs'|exact Hat']].
  unfold peek. set (s' := scan _ _ _ s) in *. f_equal. destruct ts as [|[c| |w] ts]; cbn [looks]; inversion Hsp; subst.
  - destruct (cur_end s' (proj2 Hs') ltac:(done)) as [_ ->]. done.
  - destruct (cur_drop s' c (ws ++ t) ltac:(done)) as [-> _]. destruct (Z.eqb_spec c 0) as [->|_]; [|done].
    symmetry. apply chr_false. intros Hin. apply Hsub in Hin. by apply chr_true in Hin.
  - destruct (cur_drop s' 62 (62 :: ws ++ t) ltac:(done)) as [-> _]. done.
  - destruct w as [|c w]; [done|]. destruct (cur_drop s' c (w ++ ws ++ t) ltac:(done)) as [-> _].
    apply andb_false_iff. right. apply chr_false. intros Hin. apply Hsub, chr_true in Hin.
    match goal with H : Forall _ (c :: w) |- _ => apply Forall_cons in H as [H _]; unfold word_char in H; rewrite Hin, andb_false_r in H; discriminate end.
Qed.

Definition kind (t : token) : Z := match t with TSym c => c | TAppend => 43 | TWord _ => 97 end.

(** What the scanner does at the first byte [a] of a token. *)
Definition scan_token (a : nat) : Z * nat :=
  let c := cur buf a in
  if c =? 0 then (c, a)
  else if chr [124; 40; 41; 59; 38; 60] c then (c, S a)
  else if c =? 62 then if cur buf (S a) =? 62 then (43, S (S a)) else (c, S a)
  else (97, scan buf es (fun c => negb (chr whitespace c) && negb (chr symbols c)) a).

Lemma gettoken_scan s :
  let a := scan buf es (chr whitespace) s in
  gettoken buf es s = Ret ((scan_token a).1, a, (scan_token a).2) (scan buf es (chr whitespace) (scan_token a).2).
Proof. cbv zeta. unfold gettoken, scan_token. destruct (_ =? 0); [done|]. destruct (chr _ _); [done|]. destruct (_ =? 62); [|done]. by destruct (_ =? 62). Qed.

Lemma blanks_at ts b ws t : (b <= es)%nat -> drop b text = ws ++ t -> blanks ws -> spells ts t -> at_ ts b.
Proof. intros Hb Hd Hws Ht. split; [done|]. by exists ws, t. Qed.

Lemma scan_word a w u : (a <= es)%nat -> drop a text = w ++ u -> w <> [] -> Forall (fun c => word_char c = true) w ->
  (forall c, head u = Some c -> word_char c = false) -> (forall c, head u = Some c -> c <> 0) ->
  scan_token a = (97, (a + length w)%nat) /\ drop (a + length w) text = u /\ (a + length w <= es)%nat /\ slice buf (a, (a + length w)%nat) = w.
Proof.
  intros Ha Hd Hne Hw Hu Hu0. destruct w as [|c w]; [done|]. destruct (cur_drop a c (w ++ u) Hd) as (Ec & Hl & _).
  pose proof Hw as Hc. apply Forall_cons in Hc as [Hc _]. unfold word_char in Hc.
  apply andb_true_iff in Hc as [Hc Hsym]. apply andb_true_iff in Hc as [Hc0 Hws]. apply negb_true_iff in Hsym.
  destruct (scan_over (fun c => negb (chr whitespace c) && negb (chr symbols c)) (c :: w) a u Ha Hd) as (E1 & E2 & E3).
  - eapply Forall_impl; [exact Hw|]. intros x Hx. unfold word_char in Hx. rewrite <- andb_assoc in Hx. by apply andb_true_iff in Hx as [_ Hx].
  - intros x Hx. specialize (Hu x Hx). specialize (Hu0 x Hx). unfold word_char in Hu. rewrite <- andb_assoc in Hu.
    by destruct (Z.eqb_spec x 0).
  - split; [|split; [done|split; [done|]]].
    + unfold scan_token. rewrite Ec, E1. destruct (Z.eqb_spec c 0); [done|]. apply chr_false in Hsym.
      replace (chr [124; 40; 41; 59; 38; 60] c) with false.
      2:{ symmetry. apply chr_false. intros Hin. apply Hsym. unfold symbols. rewrite !elem_of_cons in *. tauto. }
      destruct (Z.eqb_spec c 62) as [->|]; [|done]. exfalso. apply Hsym. by apply chr_true.
    + unfold slice, buf. rewrite drop_app_le by (unfold es in *; lia). rewrite Hd. replace (a + length (c :: w) - a)%nat with (length (c :: w)) by lia.
      by rewrite <- app_assoc, take_app_length.
Qed.

(** The scanner takes one token. *)
Lemma gettoken_at tk ts s : at_ (tk :: ts) s -> exists q eq s', gettoken buf es s = Ret (kind tk, q, eq) s' /\
  at_ ts s' /\ (s < s' <= es)%nat /\ forall w, tk = TWord w -> slice buf (q, eq) = w.
Proof.
  intros Hat. destruct (scan_blanks _ s Hat) as (Ha & Hsp & _). rewrite gettoken_scan. set (a := scan _ _ _ s) in *.
  assert (Hnext : forall b ws t, (a < b <= es)%nat -> drop b text = ws ++ t -> blanks ws -> spells ts t ->
    at_ ts (scan buf es (chr whitespace) b) /\ (s < scan buf es (chr whitespace) b <= es)%nat).
  { intros b ws t Hb Hd Hws Ht. destruct (scan_blanks ts b (blanks_at ts b ws t ltac:(lia) Hd Hws Ht)) as (H1 & _ & H3). split; [done|lia]. }
  assert (Hu : exists u, drop a text = u) by eauto. destruct Hu as [u Hu]. rewrite Hu in Hsp. inversion Hsp as [|c ws ts' t Hsym Hws H62 Ht|ws ts' t Hws Ht|w ws ts' t Hne Hw Hws Hb Ht]; subst ts' tk;
    match goal with E : _ = u |- _ => rewrite <- E in Hu; clear E end.
  - destruct (cur_drop a _ _ Hu) as (Ec & Hl & Hd).
    assert (E : scan_token a = (c, S a)).
    { unfold scan_token. rewrite Ec. destruct (Z.eqb_spec c 0) as [->|_]; [by apply chr_true in Hsym|]. destruct (chr _ c) eqn:Hs; [done|].
      assert (c = 62) as ->.
      { apply chr_false in Hs. unfold symbols in Hsym. rewrite !elem_of_cons, elem_of_nil in Hsym. rewrite !elem_of_cons, elem_of_nil in Hs. tauto. }
      cbn [Z.eqb Pos.eqb]. destruct (Z.eqb_spec (cur buf (S a)) 62) as [E62|]; [|done]. exfalso. apply (H62 eq_refl).
      destruct (ws ++ t) as [|c' u'] eqn:E; [destruct (cur_end (S a) ltac:(lia) Hd); congruence|].
      destruct (cur_drop (S a) _ _ Hd) as [<- _]. cbn. by rewrite E62. }
    rewrite E. destruct (Hnext (S a) ws t ltac:(lia) Hd Hws Ht). do 3 eexists. split; [reflexivity|]. done.
  - destruct (cur_drop a _ _ Hu) as (Ec & Hl & Hd). destruct (cur_drop (S a) _ _ Hd) as (Ec' & Hl' & Hd').
    assert (E : scan_token a = (43, S (S a))) by (unfold scan_token; rewrite Ec, Ec'; done).
    rewrite E. destruct (Hnext (S (S a)) ws t ltac:(lia) Hd' Hws Ht). do 3 eexists. split; [reflexivity|]. done.
  - destruct (scan_word a w (ws ++ t)) as (E & Hd & Hl & Hsl); try done; [lia| |].
    { intros c Hc ->. destruct ws as [|c' ws]; cbn in Hc.
      - destruct Ht as [|c ? ? ? Hs|? ? ? ?|w' ? ? ? Hne' Hw']; cbn in Hc; try done.
        + injection Hc as ->. by apply chr_true in Hs.
        + destruct w' as [|c' w']; [done|]. cbn in Hc. injection Hc as ->. by apply Forall_cons in Hw' as [Hw' _].
      - injection Hc as ->. apply Forall_cons in Hws as [Hws _]. by apply chr_true in Hws. }
    assert (0 < length w)%nat by (destruct w; [done|cbn; lia]).
    rewrite E. destruct (Hnext (a + length w)%nat ws t ltac:(lia) Hd Hws Ht). do 3 eexists. split; [reflexivity|].
    split; [done|]. split; [done|]. intros ? [= <-]. done.
Qed.

Lemma gettoken_end s : at_ [] s -> exists q eq s', gettoken buf es s = Ret (0, q, eq) s' /\ at_ [] s' /\ (s <= s')%nat.
Proof.
  intros Hat. destruct (scan_blanks _ s Hat) as (Ha & Hsp & Hat'). rewrite gettoken_scan. set (a := scan _ _ _ s) in *.
  inversion Hsp as [Hd0 Hd| | |]. destruct (cur_end a (proj2 Ha) (eq_sym Hd)) as [_ E0].
  assert (E : scan_token a = (0, a)) by (unfold scan_token; by rewrite E0). rewrite E. cbn [fst snd].
  destruct (scan_blanks [] a Hat') as (H1 & _ & H3). do 3 eexists. split; [reflexivity|]. split; [done|]. lia.
Qed.

(** ** The parser on a spelled text *)

(** [c] is [c0] under the redirections [r]. *)
Definition wrapped (r : redirs) (c0 c : cmd) : Prop :=
  exists ps, Forall2 (fun '(_, f) p => slice buf p = f) r ps /\
    c = fold_left (fun c '((o, _), (q, eq)) => REDIR c q eq (op_mode o) (op_fd o)) (zip r ps) c0.

Lemma wrapped_nil c : wrapped [] c c.
Proof. by exists []. Qed.

Lemma wrapped_cons o f r q eq c0 c : slice buf (q, eq) = f -> wrapped r (REDIR c0 q eq (op_mode o) (op_fd o)) c -> wrapped ((o, f) :: r) c0 c.
Proof. intros Hf (ps & Hps & ->). exists ((q, eq) :: ps). split; [by constructor|done]. Qed.

Lemma wrapped_app r r' c0 c1 c : wrapped r c0 c1 -> wrapped r' c1 c -> wrapped (r ++ r') c0 c.
Proof.
  intros (ps & Hps & ->) (ps' & Hps' & ->). exists (ps ++ ps'). split; [by apply Forall2_app|].
  rewrite zip_with_app by (by apply Forall2_length in Hps). by rewrite fold_left_app.
Qed.

Lemma wrapped_set_args r c0 c args : wrapped r c0 c -> wrapped r (set_args args c0) (set_args args c).
Proof.
  intros (ps & Hps & ->). exists ps. split; [done|]. clear Hps. revert c0 ps. induction r as [|[o f] r IH]; intros c0 [|[q eq] ps]; try done.
  cbn. by rewrite IH.
Qed.

Lemma wrapped_command r c0 c : wrapped r c0 c -> command_of (slice buf) c = redirected (command_of (slice buf) c0) r.
Proof.
  intros (ps & Hps & ->). unfold redirected. revert c0. induction Hps as [|[o f] [q eq] r ps Hf Hps IH]; intros c0; [done|].
  cbn. rewrite IH. cbn [command_of]. by rewrite Hf.
Qed.

Ltac in_symbols := intros ?; unfold symbols; rewrite ?elem_of_cons, ?elem_of_nil; tauto.

Lemma parseredirs_runs r : forall rest c s, looks [60; 62] rest = false -> at_ (toks_redirs r ++ rest) s ->
  exists n c' s', runs (redir_body buf es) n c s (Ret c' s') /\ (n <= S (es - s))%nat /\ at_ rest s' /\ (s <= s' <= es)%nat /\ wrapped r c c'.
Proof.
  induction r as [|[o f] r IH]; intros rest c s Hrest Hat; cbn [toks_redirs app] in Hat.
  - destruct (peek_at [60; 62] rest s ltac:(in_symbols) Hat) as (s1 & E1 & H1 & Hat1). rewrite Hrest in E1.
    exists 1%nat, c, s1. split; [apply runs_done; unfold redir_body; by rewrite (bind_Ret _ _ _ _ _ E1)|].
    split; [lia|]. split; [done|]. split; [split; [lia|apply Hat1]|apply wrapped_nil].
  - destruct (peek_at [60; 62] _ s ltac:(in_symbols) Hat) as (s1 & E1 & H1 & Hat1).
    destruct (gettoken_at _ _ s1 Hat1) as (q0 & eq0 & s2 & E2 & Hat2 & H2 & _).
    destruct (gettoken_at _ _ s2 Hat2) as (q & eq & s3 & E3 & Hat3 & H3 & Hw). specialize (Hw f eq_refl).
    destruct (IH rest (REDIR c q eq (op_mode o) (op_fd o)) s3 Hrest Hat3) as (n & c' & s' & R & Hn & Hat' & Hs' & Hwr).
    exists (S n), c', s'. split.
    + eapply runs_step; [|exact R]. unfold redir_body.
      replace (looks [60; 62] _) with true in E1 by (by destruct o). rewrite (bind_Ret _ _ _ _ _ E1). cbn [negb].
      rewrite (bind_Ret _ _ _ _ _ E2), (bind_Ret _ _ _ _ _ E3). by destruct o.
    + split; [lia|]. split; [done|]. split; [lia|]. by eapply wrapped_cons.
Qed.

Hypothesis Hes : Z.of_nat es < 2 ^ 63.

Lemma parseredirs_at r rest c s : looks [60; 62] rest = false -> at_ (toks_redirs r ++ rest) s ->
  exists c' s', parseredirs buf es c s = Ret c' s' /\ at_ rest s' /\ (s <= s' <= es)%nat /\ wrapped r c c'.
Proof.
  intros Hrest Hat. destruct (parseredirs_runs r rest c s Hrest Hat) as (n & c' & s' & R & Hn & H'). exists c', s'. split; [|done].
  unfold parseredirs. apply (loop_runs _ n); [exact R|lia].
Qed.

(** What may follow a simple command. *)
Definition ends_exec (rest : list token) : Prop := rest = [] \/ looks [124; 41; 38; 59] rest = true.

Lemma ends_exec_redir rest : ends_exec rest -> looks [60; 62] rest = false.
Proof.
  intros [->|H]; [done|]. destruct rest as [|[c| |w] rest]; try done. cbn in *. apply chr_true in H. apply chr_false.
  rewrite !elem_of_cons, elem_of_nil in *. lia.
Qed.

Lemma toks_args_redir args rest : ends_exec rest -> looks [60; 62] (toks_args args ++ rest) = false.
Proof. intros H. destruct args as [|[w r] args]; [by apply ends_exec_redir|done]. Qed.

Lemma parseargs_runs args : forall rest done r0 r s, ends_exec rest -> at_ (toks_args args ++ rest) s ->
  Z.of_nat (length done + length args) < MAXARGS -> wrapped r0 (EXEC done) r ->
  exists n c' s' ps, runs (args_body buf es) n (done, r) s (Ret c' s') /\ (n <= S (es - s))%nat /\ at_ rest s' /\ (s <= s' <= es)%nat /\
    map (slice buf) ps = map fst args /\ wrapped (r0 ++ concat (map snd args)) (EXEC (done ++ ps)) c'.
Proof.
  induction args as [|[w rs] args IH]; intros rest dn r0 r s Hrest Hat Hlen Hr; cbn [toks_args app map concat] in *.
  - destruct (peek_at [124; 41; 38; 59] rest s ltac:(in_symbols) Hat) as (s1 & E1 & H1 & Hat1). rewrite !app_nil_r.
    destruct Hrest as [->|Hl].
    + destruct (gettoken_end s1 Hat1) as (q & eq & s2 & E2 & Hat2 & H2). exists 1%nat, r, s2, []. rewrite !app_nil_r.
      split; [apply runs_done; unfold args_body; rewrite (bind_Ret _ _ _ _ _ E1); cbn [looks]; by rewrite (bind_Ret _ _ _ _ _ E2)|].
      split; [lia|]. split; [done|]. split; [split; [lia|apply Hat2]|done].
    + rewrite Hl in E1. exists 1%nat, r, s1, []. rewrite !app_nil_r.
      split; [apply runs_done; unfold args_body; by rewrite (bind_Ret _ _ _ _ _ E1)|].
      split; [lia|]. split; [done|]. split; [split; [lia|apply Hat1]|done].
  - destruct (peek_at [124; 41; 38; 59] _ s ltac:(in_symbols) Hat) as (s1 & E1 & H1 & Hat1).
    destruct (gettoken_at _ _ s1 Hat1) as (q & eq & s2 & E2 & Hat2 & H2 & Hw). specialize (Hw w eq_refl). rewrite <- app_assoc in Hat2.
    destruct (parseredirs_at rs (toks_args args ++ rest) (set_args (dn ++ [(q, eq)]) r) s2) as (c1 & s3 & E3 & Hat3 & H3 & Hc1);
      [by apply toks_args_redir|done|].
    destruct (IH rest (dn ++ [(q, eq)]) (r0 ++ rs) c1 s3 Hrest Hat3) as (n & c' & s' & ps & R & Hn & Hat' & Hs' & Hps & Hc').
    { rewrite length_app. cbn [length] in *. lia. }
    { eapply wrapped_app; [by apply (wrapped_set_args _ _ _ (dn ++ [(q, eq)])) in Hr|done]. }
    exists (S n), c', s', ((q, eq) :: ps). split.
    + eapply runs_step; [|exact R]. unfold args_body. rewrite (bind_Ret _ _ _ _ _ E1). cbn [looks].
      rewrite (bind_Ret _ _ _ _ _ E2). cbn [kind Z.eqb Pos.eqb negb]. cbv zeta. rewrite Z.geb_leb.
      destruct (Z.leb_spec MAXARGS (Z.of_nat (length (dn ++ [(q, eq)])))) as [Hbad|]; [rewrite length_app in Hbad; cbn [length] in *; lia|].
      by rewrite (bind_Ret _ _ _ _ _ E3).
    + split; [lia|]. split; [done|]. split; [lia|]. cbn [map fst snd concat]. rewrite Hw, Hps. split; [done|].
      rewrite <- !app_assoc in Hc'. cbn [app] in Hc'. done.
Qed.

Lemma parseargs_at r args rest c s : ends_exec rest -> at_ (toks_args args ++ rest) s -> Z.of_nat (length args) < MAXARGS ->
  wrapped r (EXEC []) c -> exists c' s', parseargs buf es ([], c) s = Ret c' s' /\ at_ rest s' /\ (s <= s' <= es)%nat /\
    command_of (slice buf) c' = tree_exec (Simple r args).
Proof.
  intros Hrest Hat Hlen Hc. destruct (parseargs_runs args rest [] r c s Hrest Hat Hlen Hc) as (n & c' & s' & ps & R & Hn & Hat' & Hs' & Hps & Hc').
  exists c', s'. split; [unfold parseargs; apply (loop_runs _ n); [exact R|lia]|]. split; [done|]. split; [done|].
  rewrite (wrapped_command _ _ _ Hc'). cbn. by rewrite Hps.
Qed.

Lemma backs_at n : forall rest c s, looks [38] rest = false -> at_ (repeat (TSym 38) n ++ rest) s ->
  exists s' k, runs (back_body buf es) k c s (Ret (Nat.iter n BACK c) s') /\ (k <= S (es - s))%nat /\ at_ rest s' /\ (s <= s' <= es)%nat.
Proof.
  induction n as [|n IH]; intros rest c s Hrest Hat; cbn [repeat app] in Hat.
  - destruct (peek_at [38] rest s ltac:(in_symbols) Hat) as (s1 & E1 & H1 & Hat1). rewrite Hrest in E1.
    exists s1, 1%nat. split; [apply runs_done; unfold back_body; by rewrite (bind_Ret _ _ _ _ _ E1)|]. split; [lia|]. split; [done|].
    split; [lia|apply Hat1].
  - destruct (peek_at [38] _ s ltac:(in_symbols) Hat) as (s1 & E1 & H1 & Hat1).
    destruct (gettoken_at _ _ s1 Hat1) as (q & eq & s2 & E2 & Hat2 & H2 & _).
    destruct (IH rest (BACK c) s2 Hrest Hat2) as (s' & k & R & Hk & Hat' & Hs'). exists s', (S k). split; [|split; [lia|split; [done|lia]]].
    rewrite Nat.iter_succ_r. eapply runs_step; [|exact R]. change (looks [38] _) with true in E1.
    unfold back_body. by rewrite (bind_Ret _ _ _ _ _ E1), (bind_Ret _ _ _ _ _ E2).
Qed.

Lemma command_backs n c : command_of (slice buf) (Nat.iter n BACK c) = Nat.iter n Back (command_of (slice buf) c).
Proof. induction n as [|n IH]; [done|]. rewrite !Nat.iter_succ. cbn [command_of]. by rewrite IH. Qed.

Definition ends_pipe (rest : list token) : Prop := rest = [] \/ looks [41; 38; 59] rest = true.
Definition ends_line (rest : list token) : Prop := rest = [] \/ looks [41] rest = true.

(** Follow sets. *)
Lemma looks_mono toks toks' rest : (forall c, c ∈ toks -> c ∈ toks') -> looks toks rest = true -> looks toks' rest = true.
Proof. intros Hsub. destruct rest as [|[c| |w] rest]; try done; cbn; rewrite !chr_true; auto. Qed.

Lemma looks_disjoint toks toks' rest : (forall c, c ∈ toks -> c ∈ toks' -> False) -> rest = [] \/ looks toks rest = true -> looks toks' rest = false.
Proof.
  intros Hd [->|H]; [done|]. destruct rest as [|[c| |w] rest]; try done; cbn in *; apply chr_true in H; apply chr_false; intros H'; by eapply Hd.
Qed.

Ltac in_set := intros ?; rewrite ?elem_of_cons, ?elem_of_nil; intuition (congruence || lia).

Definition line_at (l : sline) : Prop := forall n rest s,
  ends_line rest -> fits_line l -> at_ (toks_line l ++ rest) s -> (4 * (es - s) + 4 <= n)%nat ->
  exists c s', parseline buf es n s = Ret c s' /\ at_ rest s' /\ (s <= s' <= es)%nat /\ command_of (slice buf) c = tree_line l.
Definition pipe_at (p : spipe) : Prop := forall n rest s,
  ends_pipe rest -> fits_pipe p -> at_ (toks_pipe p ++ rest) s -> (4 * (es - s) + 3 <= n)%nat ->
  exists c s', parsepipe buf es n s = Ret c s' /\ at_ rest s' /\ (s <= s' <= es)%nat /\ command_of (slice buf) c = tree_pipe p.
Definition exec_at (e : sexec) : Prop := forall n rest s,
  ends_exec rest -> fits_exec e -> at_ (toks_exec e ++ rest) s -> (4 * (es - s) + 2 <= n)%nat ->
  exists c s', parseexec buf es n s = Ret c s' /\ at_ rest s' /\ (s <= s' <= es)%nat /\ command_of (slice buf) c = tree_exec e.

(** A pipeline and the ampersands after it. *)
Lemma pipe_backs_at p k n rest s :
  pipe_at p -> fits_pipe p -> looks [38] rest = false -> ends_pipe rest -> at_ (toks_pipe p ++ repeat (TSym 38) k ++ rest) s ->
  (4 * (es - s) + 3 <= n)%nat ->
  exists c0 s0 c s1, parsepipe buf es n s = Ret c0 s0 /\ loop (back_body buf es) c0 s0 = Ret c s1 /\ at_ rest s1 /\
    (s <= s1 <= es)%nat /\ command_of (slice buf) c = Nat.iter k Back (tree_pipe p).
Proof.
  intros IH Hf Hrest Hend Hat Hn. destruct (IH n (repeat (TSym 38) k ++ rest) s) as (c0 & s0 & E0 & Hat0 & Hs0 & Hc0); try done.
  { destruct k; [done|by right]. }
  destruct (backs_at k rest c0 s0 Hrest Hat0) as (s1 & m & R & Hm & Hat1 & Hs1). exists c0, s0, (Nat.iter k BACK c0), s1.
  split; [done|]. split; [apply (loop_runs _ m); [exact R|lia]|]. split; [done|]. split; [lia|]. by rewrite command_backs, Hc0.
Qed.

Lemma line1_at p k : pipe_at p -> line_at (Line1 p k).
Proof.
  intros IH n rest s Hrest Hf Hat Hn. destruct n as [|n]; [lia|]. cbn [toks_line fits_line] in *. rewrite <- app_assoc in Hat.
  destruct (pipe_backs_at p k n rest s) as (c0 & s0 & c & s1 & E0 & E1 & Hat1 & Hs1 & Hc); try done; [| |lia|].
  { apply (looks_disjoint [41]); [in_set|exact Hrest]. }
  { destruct Hrest as [->|H]; [by left|right]. apply (looks_mono [41]); [in_set|done]. }
  destruct (peek_at [59] rest s1 ltac:(in_symbols) Hat1) as (s2 & E2 & Hs2 & Hat2).
  rewrite (looks_disjoint [41] [59] rest) in E2; [|in_set|exact Hrest]. exists c, s2. cbn [parseline].
  rewrite (bind_Ret _ _ _ _ _ E0), (bind_Ret _ _ _ _ _ E1), (bind_Ret _ _ _ _ _ E2).
  split; [done|]. split; [done|]. split; [split; [lia|apply Hat2]|done].
Qed.

Lemma lineseq_at p k l : pipe_at p -> line_at l -> line_at (LineSeq p k l).
Proof.
  intros IH IHl n rest s Hrest [Hf Hfl] Hat Hn. destruct n as [|n]; [lia|]. cbn [toks_line] in Hat. rewrite <- !app_assoc in Hat. cbn [app] in Hat.
  destruct (pipe_backs_at p k n (TSym 59 :: toks_line l ++ rest) s) as (c0 & s0 & c & s1 & E0 & E1 & Hat1 & Hs1 & Hc); try done; [by right|lia|].
  destruct (peek_at [59] _ s1 ltac:(in_symbols) Hat1) as (s2 & E2 & Hs2 & Hat2). change (looks [59] _) with true in E2.
  destruct (gettoken_at _ _ s2 Hat2) as (q & eq & s3 & E3 & Hat3 & Hs3 & _).
  destruct (IHl n rest s3) as (c' & s4 & E4 & Hat4 & Hs4 & Hc'); try done; [lia|]. exists (LIST c c'), s4. cbn [parseline].
  rewrite (bind_Ret _ _ _ _ _ E0), (bind_Ret _ _ _ _ _ E1), (bind_Ret _ _ _ _ _ E2), (bind_Ret _ _ _ _ _ E3), (bind_Ret _ _ _ _ _ E4).
  split; [done|]. split; [done|]. split; [lia|]. cbn. by rewrite Hc, Hc'.
Qed.

Lemma pipe1_at e : exec_at e -> pipe_at (Pipe1 e).
Proof.
  intros IH n rest s Hrest Hf Hat Hn. destruct n as [|n]; [lia|]. cbn [toks_pipe fits_pipe] in *.
  destruct (IH n rest s) as (c & s1 & E1 & Hat1 & Hs1 & Hc); try done; [|lia|].
  { destruct Hrest as [->|H]; [by left|right]. apply (looks_mono [41; 38; 59]); [in_set|done]. }
  destruct (peek_at [124] rest s1 ltac:(in_symbols) Hat1) as (s2 & E2 & Hs2 & Hat2).
  rewrite (looks_disjoint [41; 38; 59] [124] rest) in E2; [|in_set|exact Hrest]. exists c, s2. cbn [parsepipe].
  rewrite (bind_Ret _ _ _ _ _ E1), (bind_Ret _ _ _ _ _ E2). split; [done|]. split; [done|]. split; [split; [lia|apply Hat2]|done].
Qed.

Lemma pipeseq_at e p : exec_at e -> pipe_at p -> pipe_at (PipeSeq e p).
Proof.
  intros IH IHp n rest s Hrest [Hf Hfp] Hat Hn. destruct n as [|n]; [lia|]. cbn [toks_pipe] in Hat. rewrite <- app_assoc in Hat. cbn [app] in Hat.
  destruct (IH n (TSym 124 :: toks_pipe p ++ rest) s) as (c & s1 & E1 & Hat1 & Hs1 & Hc); try done; [by right|lia|].
  destruct (peek_at [124] _ s1 ltac:(in_symbols) Hat1) as (s2 & E2 & Hs2 & Hat2). change (looks [124] _) with true in E2.
  destruct (gettoken_at _ _ s2 Hat2) as (q & eq & s3 & E3 & Hat3 & Hs3 & _).
  destruct (IHp n rest s3) as (c' & s4 & E4 & Hat4 & Hs4 & Hc'); try done; [lia|]. exists (PIPE c c'), s4. cbn [parsepipe].
  rewrite (bind_Ret _ _ _ _ _ E1), (bind_Ret _ _ _ _ _ E2), (bind_Ret _ _ _ _ _ E3), (bind_Ret _ _ _ _ _ E4).
  split; [done|]. split; [done|]. split; [lia|]. cbn. by rewrite Hc, Hc'.
Qed.

Lemma simple_at r args : exec_at (Simple r args).
Proof.
  intros n rest s Hrest Hf Hat Hn. destruct n as [|n]; [lia|]. cbn [toks_exec fits_exec] in *. rewrite <- app_assoc in Hat.
  destruct (peek_at [40] _ s ltac:(in_symbols) Hat) as (s1 & E1 & Hs1 & Hat1).
  replace (looks [40] _) with false in E1.
  2:{ destruct r as [|[[] f] r]; try done. destruct args as [|[w r] args]; [|done]. symmetry. apply (looks_disjoint [124; 41; 38; 59]); [in_set|exact Hrest]. }
  destruct (parseredirs_at r _ execcmd s1 (toks_args_redir args rest Hrest) Hat1) as (c1 & s2 & E2 & Hat2 & Hs2 & Hw).
  destruct (parseargs_at r args rest c1 s2) as (c & s3 & E3 & Hat3 & Hs3 & Hc); try done. exists c, s3. cbn [parseexec].
  rewrite (bind_Ret _ _ _ _ _ E1), (bind_Ret _ _ _ _ _ E2). split; [done|]. split; [done|]. split; [lia|done].
Qed.

Lemma block_at l r : line_at l -> exec_at (Block l r).
Proof.
  intros IH n rest s Hrest Hf Hat Hn. destruct n as [|[|n]]; [lia|lia|]. cbn [toks_exec fits_exec] in *.
  cbn [app] in Hat. rewrite <- app_assoc in Hat. cbn [app] in Hat.
  destruct (peek_at [40] _ s ltac:(in_symbols) Hat) as (s1 & E1 & Hs1 & Hat1). change (looks [40] _) with true in E1.
  destruct (peek_at [40] _ s1 ltac:(in_symbols) Hat1) as (s2 & E2 & Hs2 & Hat2). change (looks [40] _) with true in E2.
  destruct (gettoken_at _ _ s2 Hat2) as (q & eq & s3 & E3 & Hat3 & Hs3 & _).
  destruct (IH n (TSym 41 :: toks_redirs r ++ rest) s3) as (c & s4 & E4 & Hat4 & Hs4 & Hc); try done; [by right|lia|].
  destruct (peek_at [41] _ s4 ltac:(in_symbols) Hat4) as (s5 & E5 & Hs5 & Hat5). change (looks [41] _) with true in E5.
  destruct (gettoken_at _ _ s5 Hat5) as (q' & eq' & s6 & E6 & Hat6 & Hs6 & _).
  destruct (parseredirs_at r rest c s6 (ends_exec_redir rest Hrest) Hat6) as (c' & s7 & E7 & Hat7 & Hs7 & Hw). exists c', s7.
  cbn [parseexec parseblock]. rewrite (bind_Ret _ _ _ _ _ E1), (bind_Ret _ _ _ _ _ E2). cbn [negb].
  rewrite (bind_Ret _ _ _ _ _ E3), (bind_Ret _ _ _ _ _ E4), (bind_Ret _ _ _ _ _ E5). cbn [negb]. rewrite (bind_Ret _ _ _ _ _ E6).
  split; [done|]. split; [done|]. split; [lia|]. rewrite (wrapped_command _ _ _ Hw). cbn. by rewrite Hc.
Qed.

Lemma parse_at : (forall l, line_at l) /\ (forall p, pipe_at p) /\ (forall e, exec_at e).
Proof.
  apply sh_mind; auto using line1_at, lineseq_at, pipe1_at, pipeseq_at, simple_at, block_at.
Qed.
End Scan.

Lemma spells_nonul ts t : spells ts t -> Forall (fun c => c <> 0) t.
Proof.
  assert (Hb : forall ws, blanks ws -> Forall (fun c => c <> 0) ws).
  { intros ws Hws. eapply Forall_impl; [exact Hws|]. intros c Hc ->. by apply chr_true in Hc. }
  induction 1 as [|c ws ts t Hc Hws _ _ IH|ws ts t Hws _ IH|w ws ts t _ Hw Hws _ _ IH].
  - apply Forall_nil_2.
  - apply Forall_cons. split; [intros ->; by apply chr_true in Hc|]. apply Forall_app. auto.
  - apply Forall_cons. split; [done|]. apply Forall_cons. split; [done|]. apply Forall_app. auto.
  - apply Forall_app. split; [|apply Forall_app; auto]. eapply Forall_impl; [exact Hw|]. intros c Hc ->. done.
Qed.

(** ** The parser as a whole *)

Section Parse.
Context {W : Type} `{Streams W}.

Lemma sh_panic_run {A} msg (w : W) : Forall (fun c => 0 <= c < 256) msg ->
  exists w', sh_panic (A := A) msg w = Panic "exit" (exited 1 w') /\ emitted 2 (msg ++ [10]) w w'.
Proof.
  intros Hm. destruct (vprintf_loop_emits 2 (bytes "%s" ++ [10]) false [AStr (Some msg)] (msg ++ [10])) with (w := w) as (w' & E & S).
  - repeat (apply Forall_cons; split; [vm_compute; intuition congruence|]). apply Forall_nil_2.
  - apply Forall_cons. split; [exact Hm|apply Forall_nil_2].
  - reflexivity.
  - exists w'. split; [|done]. unfold sh_panic. by rewrite (bind_Ret _ _ _ _ _ E).
Qed.

(** C18: Whatever the line, the parser ends: with a tree whose strings, after they
    have been terminated in place, are whole words of the line, and whose
    argument vectors fit their arrays; or with a message on descriptor 2 and
    exit status 1. *)
Theorem parsecmd_total buf (w : W) :
  0 ∈ buf -> Forall (fun c => 0 <= c < 256) buf -> Z.of_nat (length buf) < 2 ^ 63 ->
  (exists c, parsecmd buf w = Ret (c, nulterminate c buf) w /\ wf_cmd buf c /\
     command_of (cstring (nulterminate c buf)) c = command_of (slice buf) c) \/
  (exists msg w', parsecmd buf w = Panic "exit" (exited 1 w') /\ emitted 2 msg w w').
Proof.
  intros Hnul Hb Hl. pose proof (line_ok_strlen buf Hnul) as Hline. unfold parsecmd. set (es := length (upto_nul buf)) in *.
  assert (Hs : safe (fun c s => (s <= es)%nat /\ wf_cmd buf c) ((c <- parseline buf es (parse_fuel es) ;; _ <- peek buf es [] ;; ret c) 0%nat)).
  { destruct (parse_safe buf es Hline ltac:(destruct Hline; lia) (parse_fuel es)) as (HP & _).
    eapply safe_bind; [apply HP; unfold parse_fuel; lia|]. intros c s [Hs Hc]. apply safe_peek; [lia|]. intros b s1 Hs1 _. split; [lia|done]. }
  destruct (bind _ _ 0%nat) as [c s|msg s| |]; [|right|destruct Hs|destruct Hs].
  - destruct Hs as [Hs Hc]. destruct (Nat.eqb_spec s es); cbn [negb].
    + left. exists c. split; [done|]. split; [done|]. by apply nulterminate_strings.
    + right. destruct (vprintf_loop_emits 2 (bytes "leftovers: %s" ++ [10]) false [AStr (Some (upto_nul (drop s buf)))]
        (bytes "leftovers: " ++ upto_nul (drop s buf) ++ [10])) with (w := w) as (w1 & E1 & S1).
      * repeat (apply Forall_cons; split; [vm_compute; intuition congruence|]). apply Forall_nil_2.
      * apply Forall_cons. split; [|apply Forall_nil_2]. apply upto_nul_bytes. by apply Forall_drop.
      * reflexivity.
      * destruct (sh_panic_run (A := cmd * list Z) (bytes "syntax") w1 (bytes_byte _)) as (w2 & E2 & S2).
        exists ((bytes "leftovers: " ++ upto_nul (drop s buf) ++ [10]) ++ bytes "syntax" ++ [10]), w2.
        split; [|by apply (emitted_app 2 _ _ w w1)]. unfold fprintf, vprintf. by rewrite (bind_Ret _ _ _ _ _ E1).
  - destruct (sh_panic_run (A := cmd * list Z) (bytes msg) w (bytes_byte _)) as (w2 & E2 & S2). eauto.
Qed.

Lemma parsecmd_spelled l text ws junk (w : W) :
  spells (toks_line l) text -> blanks ws -> fits_line l -> Z.of_nat (length (ws ++ text)) < 2 ^ 63 ->
  exists c buf, parsecmd ((ws ++ text) ++ 0 :: junk) w = Ret (c, buf) w /\ command_of (cstring buf) c = tree_line l.
Proof.
  intros Hsp Hws Hf Hl. set (t := ws ++ text) in *.
  assert (Hnn : Forall (fun c => c <> 0) t).
  { apply Forall_app. split; [|by eapply spells_nonul]. eapply Forall_impl; [exact Hws|]. intros c Hc ->. by apply chr_true in Hc. }
  assert (Eu : upto_nul (t ++ 0 :: junk) = t) by (by apply upto_nul_app). unfold parsecmd. rewrite Eu.
  pose proof (line_ok_strlen (t ++ 0 :: junk) ltac:(rewrite elem_of_app, elem_of_cons; auto)) as Hline. rewrite Eu in Hline.
  assert (Hat : at_ t (toks_line l ++ []) 0) by (rewrite app_nil_r; split; [lia|]; by exists ws, text).
  destruct (parse_at t junk Hl) as (HP & _).
  destruct (HP l (parse_fuel (length t)) [] 0%nat) as (c & s & E & Hat' & Hs & Hc); [by left|done|done|unfold parse_fuel; lia|].
  destruct (parse_safe _ _ Hline Hl (parse_fuel (length t))) as (HS & _). specialize (HS 0%nat ltac:(lia) ltac:(unfold parse_fuel; lia)).
  rewrite E in HS. destruct HS as [_ Hwf]. rewrite (bind_Ret _ _ _ _ _ E). unfold peek.
  destruct (scan_blanks t junk [] s Hat') as (Hs' & Hsp' & _). inversion Hsp' as [Hd0 Hd| | |].
  destruct (cur_end t junk _ (proj2 Hs') (eq_sym Hd)) as [Es _]. unfold bind at 1. cbn [bindO]. unfold ret at 1. cbv zeta. rewrite Es, Nat.eqb_refl. cbn [negb].
  exists c, (nulterminate c (t ++ 0 :: junk)). split; [done|]. by rewrite nulterminate_strings.
Qed.

(** C16: The parser gives every command of the grammar its tree, however its tokens
    are spelled, with strings that end where the words end. *)
Theorem parsecmd_roundtrip l text ws junk (w : W) :
  spells (toks_line l) text -> blanks ws -> fits_line l -> Z.of_nat (length (ws ++ text)) < 2 ^ 63 ->
  exists c buf, parsecmd ((ws ++ text) ++ 0 :: junk) w = Ret (c, buf) w /\ command_of (cstring buf) c = tree_line l.
Proof. apply parsecmd_spelled. Qed.
End Parse.

Module ShWitness.
Import DemoUnix.

(** [(ls a|wc >>o)&; x <i], with blanks. *)
Definition line0 : sline :=
  LineSeq (Pipe1 (Block (Line1 (PipeSeq (Simple [] [(bytes "ls", []); (bytes "a", [])]) (Pipe1 (Simple [] [(bytes "wc", [(Append, bytes "o")])]))) 0) [])) 1
    (Line1 (Pipe1 (Simple [] [(bytes "x", [(From_, bytes "i")])])) 0).

Lemma spells_sym c ws ts t : chr symbols c = true -> Forall (fun c => chr whitespace c = true) ws -> (c =? 62) && (hd 0 (ws ++ t) =? 62) = false ->
  spells ts t -> spells (TSym c :: ts) (c :: ws ++ t).
Proof.
  intros Hc Hws H62 Ht. apply sp_sym; [by apply chr_true| | |done].
  - eapply Forall_impl; [exact Hws|]. intros x. apply chr_true.
  - intros -> Hh. destruct (ws ++ t); cbn in *; [done|]. injection Hh as ->. done.
Qed.

Lemma spells_word w ws ts t : w <> [] -> forallb word_char w = true -> Forall (fun c => chr whitespace c = true) ws ->
  word_char (hd 0 (ws ++ t)) = false -> spells ts t -> spells (TWord w :: ts) (w ++ ws ++ t).
Proof.
  intros Hne Hw Hws Hb Ht. apply sp_word; [done| | | |done].
  - apply Forall_forall. intros x Hx. rewrite forallb_forall in Hw. apply Hw. by apply list_elem_of_In.
  - eapply Forall_impl; [exact Hws|]. intros x. apply chr_true.
  - intros x Hx. destruct (ws ++ t); cbn in *; [done|]. by injection Hx as ->.
Qed.

Lemma spells_line0 : spells (toks_line line0) (bytes "(ls a|wc >>o)& ; x<i ").
Proof.
  unfold line0. cbn [toks_line toks_pipe toks_exec toks_redirs toks_args op_token app repeat].
  apply (spells_sym 40 [] _ (bytes "ls a|wc >>o)& ; x<i ")); [done|done|done|].
  apply (spells_word (bytes "ls") [32] _ (bytes "a|wc >>o)& ; x<i ")); [done|done|by repeat constructor|done|].
  apply (spells_word (bytes "a") [] _ (bytes "|wc >>o)& ; x<i ")); [done|done|by repeat constructor|done|].
  apply (spells_sym 124 [] _ (bytes "wc >>o)& ; x<i ")); [done|done|done|].
  apply (spells_word (bytes "wc") [32] _ (bytes ">>o)& ; x<i ")); [done|done|by repeat constructor|done|].
  apply (sp_append [] _ (bytes "o)& ; x<i ")); [apply Forall_nil_2|].
  apply (spells_word (bytes "o") [] _ (bytes ")& ; x<i ")); [done|done|by repeat constructor|done|].
  apply (spells_sym 41 [] _ (bytes "& ; x<i ")); [done|done|done|].
  apply (spells_sym 38 [32] _ (bytes "; x<i ")); [done|by repeat constructor|done|].
  apply (spells_sym 59 [32] _ (bytes "x<i ")); [done|by repeat constructor|done|].
  apply (spells_word (bytes "x") [] _ (bytes "<i ")); [done|done|by repeat constructor|done|].
  apply (spells_sym 60 [] _ (bytes "i ")); [done|done|done|].
  apply (spells_word (bytes "i") [32] _ []); [done|done|by repeat constructor|done|]. constructor.
Qed.

Lemma parsecmd_roundtrip_witness : exists c buf, parsecmd (bytes " (ls a|wc >>o)& ; x<i " ++ [0; 0]) (start [] []) = Ret (c, buf) (start [] []) /\
  command_of (cstring buf) c =
    List_ (Back (Pipe (Exec [bytes "ls"; bytes "a"]) (Redir (Exec [bytes "wc"]) (bytes "o") 0x201 1))) (Redir (Exec [bytes "x"]) (bytes "i") 0 0).
Proof.
  apply (parsecmd_roundtrip line0 (bytes "(ls a|wc >>o)& ; x<i ") [32] [0] (start [] [])).
  - exact spells_line0.
  - apply Forall_singleton. by apply chr_true.
  - vm_compute. done.
  - vm_compute. done.
Defined.

Lemma parsecmd_total_witness :
  (exists c, parsecmd (bytes "a & b" ++ [0]) (start [] []) = Ret (c, nulterminate c (bytes "a & b" ++ [0])) (start [] []) /\ wf_cmd (bytes "a & b" ++ [0]) c /\
     command_of (cstring (nulterminate c (bytes "a & b" ++ [0]))) c = command_of (slice (bytes "a & b" ++ [0])) c) \/
  (exists msg w', parsecmd (bytes "a & b" ++ [0]) (start [] []) = Panic "exit" (exited 1 w') /\ emitted 2 msg (start [] []) w').
Proof.
  apply (parsecmd_total (bytes "a & b" ++ [0]) (start [] [])).
  - apply elem_of_app. right. by apply elem_of_cons; left.
  - apply Forall_app. split; [apply bytes_byte|]. apply Forall_singleton. lia.
  - vm_compute. done.
Defined.
End ShWitness.
