(* ===== verification/ShRun.v ===== *)
(** * user/sh.c: running commands

    [runcmd] against the process calls of [Procs]. The class [Descriptors]
    states what the calls do to descriptor tables; against it, every program
    that a command line starts has the descriptors that the line asks for. *)

From S2P Require Import Prelude Machine CString Printf Ulib Unix ShParse ShFacts ShGrammar.

Class Procs (W : Type) `{Unix W} := {
  fork : M W unit -> M W Z;      (* the code of the child, which does not return, and the parent's result *)
  wait : Z -> M W Z;
  exec : list Z -> list (list Z) -> M W Z;
  pipe : M W (Z * Z * Z);        (* the result and the two descriptors *)
  dup : Z -> M W Z;
  chdir : list Z -> M W Z
}.

Section Programs.
Context {W : Type} `{Procs W}.

Definition fork1 (child : M W unit) : M W Z :=
  pid <- fork child ;;
  if pid =? -1 then sh_panic (bytes "fork") else ret pid.

(** The tree is given with the strings that its pointers lead to. *)
Fixpoint runcmd (c : command) : M W unit :=
  match c with
  | Exec [] => exit 1
  | Exec (a :: argv) =>
      _ <- exec a (a :: argv) ;;
      fprintf 2 (bytes "exec %s failed" ++ [10]) [AStr (Some a)] ;;;
      exit 0
  | Redir c file mode fd =>
      _ <- close fd ;;
      r <- open file mode ;;
      if r <? 0
      then fprintf 2 (bytes "open %s failed" ++ [10]) [AStr (Some file)] ;;; exit 1
      else runcmd c ;;; exit 0
  | List_ l r =>
      _ <- fork1 (runcmd l) ;;
      _ <- wait 0 ;;
      runcmd r ;;;
      exit 0
  | Pipe l r =>
      '(e, p0, p1) <- pipe ;;
      if e <? 0 then sh_panic (bytes "pipe")
      else
        _ <- fork1 (_ <- close 1 ;; _ <- dup p1 ;; _ <- close p0 ;; _ <- close p1 ;; runcmd l) ;;
        _ <- fork1 (_ <- close 0 ;; _ <- dup p0 ;; _ <- close p0 ;; _ <- close p1 ;; runcmd r) ;;
        _ <- close p0 ;;
        _ <- close p1 ;;
        _ <- wait 0 ;;
        _ <- wait 0 ;;
        exit 0
  | Back c =>
      _ <- fork1 (runcmd c) ;;
      exit 0
  end.

(** The result and the contents of the array. *)
Definition getcmd (nbuf : nat) : M W (Z * list Z) :=
  fprintf 2 (bytes "$ ") [] ;;;
  l <- Unix.gets (Z.of_nat nbuf) ;;
  let buf := l ++ repeat 0 (nbuf - length l) in
  if nth 0 buf 0 =? 0 then ret (-1, buf) else ret (0, buf).

(** What the child does with a line. *)
Definition run_line (buf : list Z) : M W unit :=
  '(c, buf) <- parsecmd buf ;;
  runcmd (command_of (cstring buf) c).

Definition sh_main : M W unit :=
  loop (fun _ : unit =>
    fd <- open (bytes "console") O_RDWR ;;
    if fd >=? 0
    then if fd >=? 3 then _ <- close fd ;; ret (inr tt) else ret (inl tt)
    else ret (inr tt)) tt ;;;
  loop (fun _ : unit =>
    '(e, buf) <- getcmd 100 ;;
    if e >=? 0
    then
      if (nth 0 buf 0 =? 99) && (nth 1 buf 0 =? 100) && (nth 2 buf 0 =? 32)
      then
        let buf := <[(length (upto_nul buf) - 1)%nat := 0]> buf in
        r <- chdir (upto_nul (drop 3 buf)) ;;
        (if r <? 0 then fprintf 2 (bytes "cannot cd %s" ++ [10]) [AStr (Some (upto_nul (drop 3 buf)))] else ret tt) ;;;
        ret (inl tt)
      else
        _ <- fork1 (run_line buf) ;;
        _ <- wait 0 ;;
        ret (inl tt)
    else ret (inr tt)) tt ;;;
  exit 0.
End Programs.

(** ** Relations that a run keeps *)

Section Keeps.
Context {S : Type} (R : S -> S -> Prop).
Hypothesis R_refl : forall s, R s s.
Hypothesis R_trans : forall s1 s2 s3, R s1 s2 -> R s2 s3 -> R s1 s3.

(** Where the run returns or stops, the state is related to the first one. *)
Definition keeps {A} (m : M S A) : Prop :=
  forall s, match m s with Ret _ s' | Panic _ s' | Fuel s' => R s s' | Swtch _ _ => False end.

Lemma keeps_ret {A} (a : A) : keeps (ret a).
Proof. intros s. apply R_refl. Qed.

Lemma keeps_bind {A B} (m : M S A) (f : A -> M S B) : keeps m -> (forall a, keeps (f a)) -> keeps (bind m f).
Proof.
  intros Hm Hf s. specialize (Hm s). unfold bind. destruct (m s) as [a s1|msg s1| |s1]; try done. cbn. specialize (Hf a s1).
  destruct (f a s1); try done; by eapply R_trans.
Qed.

Lemma keeps_loop {X T} (body : X -> M S (X + T)) x : (forall x, keeps (body x)) -> keeps (loop body x).
Proof.
  intros Hb. assert (Hi : forall d x, keeps (iter d body x)).
  { induction d as [|d IH]; intros y; [apply Hb|]. cbn [iter]. apply keeps_bind; [apply IH|]. intros [z|v]; [apply IH|apply keeps_ret]. }
  unfold loop. apply keeps_bind; [apply Hi|]. intros [z|v]; [intros s; apply R_refl|apply keeps_ret].
Qed.

Lemma keeps_all {X} (l : list X) (f : X -> M S unit) : (forall x, keeps (f x)) -> keeps (for_all l f).
Proof. intros Hf. induction l as [|x l IH]; cbn; [apply keeps_ret|]. by apply keeps_bind. Qed.
End Keeps.

Section KeepsPrintf.
Context {W : Type} `{Unix W} (R : W -> W -> Prop).
Hypothesis R_refl : forall s, R s s.
Hypothesis R_trans : forall s1 s2 s3, R s1 s2 -> R s2 s3 -> R s1 s3.
Hypothesis Hwrite : forall fd l, keeps R (write fd l).

Lemma keeps_putc fd c : keeps R (putc fd c).
Proof. unfold putc. apply keeps_bind; auto using keeps_ret. Qed.

Lemma keeps_printint fd xx base sgn : keeps R (printint fd xx base sgn).
Proof.
  unfold printint. apply keeps_bind; [done| |].
  - unfold printint_digits. apply keeps_loop; auto. intros [x buf]. cbv zeta. destruct (negb _); by apply keeps_ret.
  - intros buf. apply keeps_all; auto. intros c. apply keeps_putc.
Qed.

Lemma keeps_printptr fd x : keeps R (printptr fd x).
Proof.
  unfold printptr. apply keeps_bind; [done|apply keeps_putc|]. intros _. apply keeps_bind; [done|apply keeps_putc|]. intros _.
  apply keeps_loop; auto. intros [i y]. destruct (i <? 16); [|by apply keeps_ret]. apply keeps_bind; [done|apply keeps_putc|].
  intros _. by apply keeps_ret.
Qed.

Lemma keeps_then {A} (m : M W A) (k : M W unit) : keeps R m -> keeps R k -> keeps R (m ;;; k).
Proof. intros Hm Hk. by apply keeps_bind. Qed.

(** A conversion, for which [tac] accounts, and the rest. *)
Ltac conv IH tac :=
  lazymatch goal with
  | |- keeps _ undefined => intros ?; apply R_refl
  | |- _ => apply keeps_then; [tac|apply IH]
  end.

(** Formatted output keeps what writing keeps. *)
Lemma keeps_vprintf fd fmt : forall state ap, keeps R (vprintf_loop fd fmt state ap).
Proof.
  induction fmt as [|c fmt IH]; intros state ap; cbn [vprintf_loop]; [by apply keeps_ret|].
  destruct (negb state); [destruct (c =? 37); [apply IH|conv IH ltac:(apply keeps_putc)]|].
  destruct (c =? 100); [destruct ap as [|[] ap]; conv IH ltac:(apply keeps_printint)|].
  destruct (c =? 108); [destruct ap as [|[] ap]; conv IH ltac:(apply keeps_printint)|].
  destruct (c =? 120); [destruct ap as [|[] ap]; conv IH ltac:(apply keeps_printint)|].
  destruct (c =? 112); [destruct ap as [|[] ap]; conv IH ltac:(apply keeps_printptr)|].
  destruct (c =? 115); [destruct ap as [|[] ap]; conv IH ltac:(apply keeps_all; [exact R_refl|exact R_trans|apply keeps_putc])|].
  destruct (c =? 99); [destruct ap as [|[] ap]; conv IH ltac:(apply keeps_putc)|].
  destruct (c =? 37); [conv IH ltac:(apply keeps_putc)|].
  apply keeps_then; [apply keeps_putc|conv IH ltac:(apply keeps_putc)].
Qed.
End KeepsPrintf.

(** ** Descriptors *)

Inductive obj :=
| OFile (path : list Z) (mode : Z)
| ORead (id : nat)    (* the ends of the pipe [id] *)
| OWrite (id : nat)
| OOther (n : nat).

Abbreviation fdtable := (gmap Z obj).

(** The descriptor that the next call allocates. *)
Definition lowest (t : fdtable) (k : Z) : Prop :=
  0 <= k /\ t !! k = None /\ forall j, 0 <= j < k -> is_Some (t !! j).

(** What the calls do to the table of the calling process, to the programs
    started so far (with their arguments and their descriptors, in the order
    of the process tree) and to the number of pipes. *)
Class Descriptors (W : Type) `{Procs W} := {
  table : W -> fdtable;
  started : W -> list (list (list Z) * fdtable);
  pipes : W -> nat;
  openable : list Z -> Z -> bool;   (* [open] of a path with a mode succeeds *)
  runnable : list Z -> bool;        (* [exec] of a path succeeds *)
  same w w' : Prop := table w' = table w /\ started w' = started w /\ pipes w' = pipes w;
  write_same : forall fd l w, exists w', write fd l w = Ret (Z.of_nat (length l)) w' /\ same w w';
  wait_same : forall a w, exists r w', wait a w = Ret r w' /\ same w w';
  exited_same : forall st w, started (exited st w) = started w /\ pipes (exited st w) = pipes w;
  close_frees : forall fd w, is_Some (table w !! fd) ->
    exists w', close fd w = Ret 0 w' /\ table w' = delete fd (table w) /\ started w' = started w /\ pipes w' = pipes w;
  open_lowest : forall path mode w k, lowest (table w) k -> k < 16 ->
    if openable path mode
    then exists w', open path mode w = Ret k w' /\ table w' = <[k := OFile path mode]> (table w) /\ started w' = started w /\ pipes w' = pipes w
    else exists w', open path mode w = Ret (-1) w' /\ same w w';
  dup_lowest : forall fd w o k, table w !! fd = Some o -> lowest (table w) k -> k < 16 ->
    exists w', dup fd w = Ret k w' /\ table w' = <[k := o]> (table w) /\ started w' = started w /\ pipes w' = pipes w;
  pipe_lowest : forall w p0 p1, lowest (table w) p0 -> lowest (<[p0 := ORead (pipes w)]> (table w)) p1 -> p1 < 16 ->
    exists w', pipe w = Ret (0, p0, p1) w' /\
      table w' = <[p1 := OWrite (pipes w)]> (<[p0 := ORead (pipes w)]> (table w)) /\ started w' = started w /\ pipes w' = S (pipes w);
  fork_copies : forall child w msg wc, child w = Panic msg wc ->
    exists pid w', fork child w = Ret pid w' /\ 0 < pid /\ table w' = table w /\ started w' = started wc /\ pipes w' = pipes wc;
  exec_starts : forall path argv w,
    if runnable path
    then exists w', exec path argv w = Panic "exec" w' /\ started w' = started w ++ [(argv, table w)] /\ pipes w' = pipes w
    else exists w', exec path argv w = Ret (-1) w' /\ same w w'
}.

(** The programs that a command stands for, each with its descriptors: a
    redirection replaces one, a pipe the output of its left side and the input
    of its right side, and nothing else is passed on. *)
Section Plan.
Context (openable : list Z -> Z -> bool) (runnable : list Z -> bool).

Fixpoint plan (c : command) (t : fdtable) (n : nat) : list (list (list Z) * fdtable) * nat :=
  match c with
  | Exec [] => ([], n)
  | Exec (a :: argv) => (if runnable a then [(a :: argv, t)] else [], n)
  | Redir c f m d => if openable f m then plan c (<[d := OFile f m]> t) n else ([], n)
  | Pipe l r =>
      let '(x, n1) := plan l (<[1 := OWrite n]> t) (S n) in
      let '(y, n2) := plan r (<[0 := ORead n]> t) n1 in
      (x ++ y, n2)
  | List_ l r =>
      let '(x, n1) := plan l t n in
      let '(y, n2) := plan r t n1 in
      (x ++ y, n2)
  | Back c => plan c t n
  end.
End Plan.

(** The strings are bytes, and redirections are of descriptors 0 and 1. *)
Fixpoint ok_command (c : command) : Prop :=
  match c with
  | Exec argv => Forall (Forall (fun c => 0 <= c < 256)) argv
  | Redir c f _ d => ok_command c /\ Forall (fun c => 0 <= c < 256) f /\ (d = 0 \/ d = 1)
  | Pipe l r | List_ l r => ok_command l /\ ok_command r
  | Back c => ok_command c
  end.

Section RunFacts.
Context {W : Type} `{Descriptors W} `{!Streams W}.

(** Descriptors 0, 1 and 2 are open, and no other. *)
Definition std (t : fdtable) : Prop := forall fd, is_Some (t !! fd) <-> 0 <= fd <= 2.

Lemma std_replace t d o : std t -> d = 0 \/ d = 1 -> std (<[d := o]> t).
Proof.
  intros Ht Hd fd. destruct (decide (fd = d)) as [->|Hne]; [rewrite lookup_insert_eq; split; [lia|eauto]|].
  rewrite lookup_insert_ne by done. apply Ht.
Qed.

Lemma std_closed t d : std t -> d = 0 \/ d = 1 -> lowest (delete d t) d.
Proof.
  intros Ht Hd. split; [lia|]. split; [apply lookup_delete_eq|]. intros j Hj. rewrite lookup_delete_ne by lia. apply Ht. lia.
Qed.

Lemma same_refl w : same w w.
Proof. done. Qed.
Lemma same_trans w1 w2 w3 : same w1 w2 -> same w2 w3 -> same w1 w3.
Proof. intros (E1 & E2 & E3) (F1 & F2 & F3). split; [congruence|]. split; congruence. Qed.

Lemma write_keeps fd l : keeps same (write fd l).
Proof. intros w. destruct (write_same fd l w) as (w' & -> & Hs). exact Hs. Qed.

(** A message about a string, and the end. *)
Lemma complain_exit {A} (fmt s out : list Z) st (w : W) :
  Forall (fun c => 0 <= c < 256) fmt -> Forall (fun c => 0 <= c < 256) s -> format fmt false [AStr (Some s)] = Some out ->
  exists w', (fprintf 2 fmt [AStr (Some s)] ;;; exit (A := A) st) w = Panic "exit" w' /\ started w' = started w /\ pipes w' = pipes w.
Proof.
  intros Hf Hs HF. destruct (vprintf_loop_emits 2 fmt false [AStr (Some s)] out Hf) with (w := w) as (w' & E & _);
    [apply Forall_cons; split; [exact Hs|apply Forall_nil_2]|done|].
  pose proof (keeps_vprintf same same_refl same_trans write_keeps 2 fmt false [AStr (Some s)] w) as Hk. rewrite E in Hk.
  destruct Hk as (_ & E2 & E3). destruct (exited_same st w') as [F2 F3]. exists (exited st w').
  unfold fprintf, vprintf. rewrite (bind_Ret _ _ _ _ _ E). split; [done|]. split; congruence.
Qed.

(** [m] ends the process after starting the programs [l]. *)
Definition ends (m : M W unit) (w : W) (l : list (list (list Z) * fdtable)) (n : nat) : Prop :=
  exists msg w', m w = Panic msg w' /\ started w' = started w ++ l /\ pipes w' = n.

Lemma fork1_run child w l n : ends child w l n ->
  exists pid w', fork1 child w = Ret pid w' /\ table w' = table w /\ started w' = started w ++ l /\ pipes w' = n.
Proof.
  intros (msg & wc & E & Hs & Hn). destruct (fork_copies child w msg wc E) as (pid & w' & E' & Hpid & Ht & Hs' & Hn').
  exists pid, w'. unfold fork1. rewrite (bind_Ret _ _ _ _ _ E'). destruct (Z.eqb_spec pid (-1)); [lia|].
  split; [done|]. split; [done|]. split; congruence.
Qed.

(** The side of a pipeline whose end [o] of the pipe becomes descriptor [d]. *)
Lemma pipe_side d q o (m : M W unit) w t l n :
  std t -> d = 0 \/ d = 1 -> (q = 3 \/ q = 4) -> (exists o', table w = <[7 - q := o']> (<[q := o]> t)) ->
  (forall w1, table w1 = <[d := o]> t -> started w1 = started w -> pipes w1 = pipes w -> ends m w1 l n) ->
  ends (_ <- close d ;; _ <- dup q ;; _ <- close 3 ;; _ <- close 4 ;; m) w l n.
Proof.
  intros Ht Hd Hq [o' Et] Hm.
  destruct (close_frees d w) as (w1 & E1 & T1 & S1 & P1).
  { rewrite Et, !lookup_insert_ne by lia. apply Ht. lia. }
  assert (Hlow : lowest (table w1) d).
  { rewrite T1, Et. split; [lia|]. split; [apply lookup_delete_eq|]. intros j Hj. rewrite lookup_delete_ne, !lookup_insert_ne by lia. apply Ht. lia. }
  destruct (dup_lowest q w1 o d) as (w2 & E2 & T2 & S2 & P2); [|done|lia|].
  { rewrite T1, Et, lookup_delete_ne, lookup_insert_ne, lookup_insert_eq by lia. done. }
  destruct (close_frees 3 w2) as (w3 & E3 & T3 & S3 & P3).
  { rewrite T2, lookup_insert_ne, T1, lookup_delete_ne, Et by lia. destruct Hq as [-> | ->].
    - rewrite lookup_insert_ne, lookup_insert_eq by lia. eauto.
    - rewrite lookup_insert_eq. eauto. }
  destruct (close_frees 4 w3) as (w4 & E4 & T4 & S4 & P4).
  { rewrite T3, lookup_delete_ne, T2, lookup_insert_ne, T1, lookup_delete_ne, Et by lia. destruct Hq as [-> | ->].
    - rewrite lookup_insert_eq. eauto.
    - rewrite lookup_insert_ne, lookup_insert_eq by lia. eauto. }
  assert (HT : table w4 = <[d := o]> t).
  { rewrite T4, T3, T2, T1, Et. apply map_eq. intros i.
    assert (H3 : t !! 3 = None) by (destruct (t !! 3) eqn:E; [|done]; assert (0 <= 3 <= 2) by (apply Ht; eauto); lia).
    assert (H4 : t !! 4 = None) by (destruct (t !! 4) eqn:E; [|done]; assert (0 <= 4 <= 2) by (apply Ht; eauto); lia).
    destruct (decide (i = 4)) as [->|]; [rewrite lookup_delete_eq, lookup_insert_ne by lia; congruence|]. rewrite lookup_delete_ne by lia.
    destruct (decide (i = 3)) as [->|]; [rewrite lookup_delete_eq, lookup_insert_ne by lia; congruence|]. rewrite lookup_delete_ne by lia.
    destruct (decide (i = d)) as [->|]; [by rewrite !lookup_insert_eq|]. rewrite lookup_insert_ne, lookup_delete_ne, !lookup_insert_ne by lia. done. }
  destruct (Hm w4 HT ltac:(congruence) ltac:(congruence)) as (msg & w' & E & Hs & Hn). exists msg, w'.
  rewrite (bind_Ret _ _ _ _ _ E1), (bind_Ret _ _ _ _ _ E2), (bind_Ret _ _ _ _ _ E3), (bind_Ret _ _ _ _ _ E4).
  split; [done|]. split; [congruence|done].
Qed.

(** Nothing runs after the end of the process. *)
Lemma ends_bind m (k : M W unit) w l n : ends m w l n -> ends (m ;;; k) w l n.
Proof. intros (msg & w' & E & HS). exists msg, w'. split; [by apply bind_Panic|done]. Qed.

Lemma ends_exit st w : ends (exit st) w [] (pipes w).
Proof. destruct (exited_same st w) as [E1 E2]. exists "exit"%string, (exited st w). split; [done|]. rewrite app_nil_r. done. Qed.

Lemma wait_then (m : M W unit) w l n : (forall w', same w w' -> ends m w' l n) -> ends (_ <- wait 0 ;; m) w l n.
Proof.
  intros Hm. destruct (wait_same 0 w) as (r & w1 & E & Hs). destruct (Hm w1 Hs) as (msg & w' & E' & HS & Hn). exists msg, w'.
  rewrite (bind_Ret _ _ _ _ _ E). split; [done|]. destruct Hs as (_ & Hs & _). split; [congruence|done].
Qed.

(** A forked child, and what follows it. *)
Lemma fork1_then child (m : M W unit) w l1 n1 l2 n2 :
  ends child w l1 n1 -> (forall w', table w' = table w -> pipes w' = n1 -> ends m w' l2 n2) ->
  ends (_ <- fork1 child ;; m) w (l1 ++ l2) n2.
Proof.
  intros Hc Hm. destruct (fork1_run child w l1 n1 Hc) as (pid & w1 & E & Ht & Hs & Hn).
  destruct (Hm w1 Ht Hn) as (msg & w' & E' & HS & Hn'). exists msg, w'. rewrite (bind_Ret _ _ _ _ _ E). split; [done|].
  split; [|done]. rewrite HS, Hs. by rewrite app_assoc.
Qed.

Lemma exec_ends a argv w : Forall (Forall (fun c => 0 <= c < 256)) (a :: argv) ->
  ends (runcmd (Exec (a :: argv))) w (if runnable a then [(a :: argv, table w)] else []) (pipes w).
Proof.
  intros Ha. cbn [runcmd]. pose proof (exec_starts a (a :: argv) w) as Hx. destruct (runnable a).
  - destruct Hx as (w1 & E & S1 & P1). exists "exec"%string, w1. split; [by apply bind_Panic|done].
  - destruct Hx as (w1 & E & _ & S1 & P1). apply Forall_cons in Ha as [Ha _].
    destruct (complain_exit (A := unit) (bytes "exec %s failed" ++ [10]) a (bytes "exec " ++ a ++ bytes " failed" ++ [10]) 0 w1) as (w2 & E2 & S2 & P2);
      [apply Forall_app; split; [apply bytes_byte|apply Forall_singleton; lia]|done|reflexivity|].
    exists "exit"%string, w2. rewrite (bind_Ret _ _ _ _ _ E), app_nil_r. split; [done|]. split; congruence.
Qed.

Lemma redir_ends c f mode d w l n :
  std (table w) -> d = 0 \/ d = 1 -> Forall (fun c => 0 <= c < 256) f ->
  (forall w', table w' = <[d := OFile f mode]> (table w) -> pipes w' = pipes w -> ends (runcmd c) w' l n) ->
  ends (runcmd (Redir c f mode d)) w (if openable f mode then l else []) (if openable f mode then n else pipes w).
Proof.
  intros Ht Hd Hf Hc. cbn [runcmd]. destruct (close_frees d w) as (w1 & E1 & T1 & S1 & P1); [apply Ht; lia|].
  pose proof (open_lowest f mode w1 d) as Ho. rewrite T1 in Ho at 1. specialize (Ho (std_closed _ _ Ht Hd) ltac:(lia)). destruct (openable f mode).
  - destruct Ho as (w2 & E2 & T2 & S2 & P2). rewrite T1, insert_delete_eq in T2.
    destruct (ends_bind _ (exit 0) _ _ _ (Hc w2 T2 ltac:(congruence))) as (msg & w' & E & HS & Hn). exists msg, w'.
    rewrite (bind_Ret _ _ _ _ _ E1), (bind_Ret _ _ _ _ _ E2). destruct (Z.ltb_spec d 0); [lia|]. split; [done|]. split; [congruence|done].
  - destruct Ho as (w2 & E2 & _ & S2 & P2).
    destruct (complain_exit (A := unit) (bytes "open %s failed" ++ [10]) f (bytes "open " ++ f ++ bytes " failed" ++ [10]) 1 w2) as (w3 & E3 & S3 & P3);
      [apply Forall_app; split; [apply bytes_byte|apply Forall_singleton; lia]|done|reflexivity|].
    exists "exit"%string, w3. rewrite (bind_Ret _ _ _ _ _ E1), (bind_Ret _ _ _ _ _ E2), app_nil_r. split; [done|]. split; congruence.
Qed.

Lemma pipe_ends l r w lx n1 ly n2 :
  std (table w) ->
  (forall w', table w' = <[1 := OWrite (pipes w)]> (table w) -> pipes w' = S (pipes w) -> ends (runcmd l) w' lx n1) ->
  (forall w', table w' = <[0 := ORead (pipes w)]> (table w) -> pipes w' = n1 -> ends (runcmd r) w' ly n2) ->
  ends (runcmd (Pipe l r)) w (lx ++ ly) n2.
Proof.
  intros Ht Hl Hr. cbn [runcmd].
  assert (Hnone : forall k, 3 <= k -> table w !! k = None).
  { intros k Hk. destruct (table w !! k) eqn:E; [|done]. assert (0 <= k <= 2) by (apply Ht; eauto). lia. }
  destruct (pipe_lowest w 3 4) as (w1 & E1 & T1 & S1 & P1).
  { split; [lia|]. split; [apply Hnone; lia|]. intros j Hj. apply Ht. lia. }
  { split; [lia|]. split; [rewrite lookup_insert_ne by lia; apply Hnone; lia|]. intros j Hj.
    destruct (decide (j = 3)) as [->|]; [rewrite lookup_insert_eq; eauto|]. rewrite lookup_insert_ne by lia. apply Ht. lia. }
  { lia. }
  assert (Htop : ends (_ <- fork1 (_ <- close 1 ;; _ <- dup 4 ;; _ <- close 3 ;; _ <- close 4 ;; runcmd l) ;;
        _ <- fork1 (_ <- close 0 ;; _ <- dup 3 ;; _ <- close 3 ;; _ <- close 4 ;; runcmd r) ;;
        _ <- close 3 ;; _ <- close 4 ;; _ <- wait 0 ;; _ <- wait 0 ;; exit 0) w1 (lx ++ ly) n2).
  { apply (fork1_then _ _ w1 lx n1).
    - apply (pipe_side 1 4 (OWrite (pipes w)) _ _ (table w)); [done|lia|lia| |].
      + exists (ORead (pipes w)). change (7 - 4) with 3. rewrite T1. by rewrite insert_insert_ne by lia.
      + intros w2 T2 _ P2. apply Hl; congruence.
    - intros w2 T2 P2. rewrite <- (app_nil_r ly). apply (fork1_then _ _ w2 ly n2).
      + apply (pipe_side 0 3 (ORead (pipes w)) _ _ (table w)); [done|lia|lia| |].
        * exists (OWrite (pipes w)). change (7 - 3) with 4. congruence.
        * intros w3 T3 _ P3. apply Hr; congruence.
      + intros w3 T3 P3.
        destruct (close_frees 3 w3) as (w4 & E4 & T4 & S4 & P4); [rewrite T3, T2, T1, lookup_insert_ne, lookup_insert_eq by lia; eauto|].
        destruct (close_frees 4 w4) as (w5 & E5 & T5 & S5 & P5); [rewrite T4, lookup_delete_ne, T3, T2, T1, lookup_insert_eq by lia; eauto|].
        assert (HE : ends (_ <- wait 0 ;; _ <- wait 0 ;; exit 0) w5 [] n2).
        { apply wait_then. intros w6 (_ & _ & P6). apply wait_then. intros w7 (_ & _ & P7). replace n2 with (pipes w7) by congruence. apply ends_exit. }
        destruct HE as (msg & w' & E & HS & Hn). exists msg, w'. rewrite (bind_Ret _ _ _ _ _ E4), (bind_Ret _ _ _ _ _ E5).
        split; [done|]. split; [congruence|done]. }
  destruct Htop as (msg & w' & E & HS & Hn). exists msg, w'. rewrite (bind_Ret _ _ _ _ _ E1). change (0 <? 0) with false. cbv iota.
  split; [exact E|]. split; [congruence|done].
Qed.

Lemma runcmd_ends c : forall w, ok_command c -> std (table w) ->
  ends (runcmd c) w (plan openable runnable c (table w) (pipes w)).1 (plan openable runnable c (table w) (pipes w)).2.
Proof.
  induction c as [argv|c IH f mode d|l IHl r IHr|l IHl r IHr|c IH]; intros w Hok Ht; cbn [plan ok_command] in *.
  - destruct argv as [|a argv]; [apply ends_exit|by apply exec_ends].
  - destruct Hok as (Hc & Hf & Hd). destruct (redir_ends c f mode d w
      (plan openable runnable c (<[d := OFile f mode]> (table w)) (pipes w)).1
      (plan openable runnable c (<[d := OFile f mode]> (table w)) (pipes w)).2 Ht Hd Hf) as (msg & w' & E & HS).
    { intros w1 T1 P1. rewrite <- T1, <- P1. apply IH; [done|]. rewrite T1. by apply std_replace. }
    exists msg, w'. split; [exact E|]. by destruct (openable f mode).
  - destruct Hok as [Hl Hr]. destruct (plan _ _ l _ _) as [lx n1] eqn:El. destruct (plan _ _ r _ _) as [ly n2] eqn:Er.
    apply (pipe_ends l r w lx n1); [done| |].
    + intros w1 T1 P1. specialize (IHl w1 Hl ltac:(rewrite T1; apply std_replace; [done|lia])). by rewrite T1, P1, El in IHl.
    + intros w1 T1 P1. specialize (IHr w1 Hr ltac:(rewrite T1; apply std_replace; [done|lia])). by rewrite T1, P1, Er in IHr.
  - destruct Hok as [Hl Hr]. destruct (plan _ _ l _ _) as [lx n1] eqn:El. destruct (plan _ _ r _ _) as [ly n2] eqn:Er. cbn [runcmd].
    apply (fork1_then _ _ w lx n1); [specialize (IHl w Hl Ht); by rewrite El in IHl|]. intros w1 T1 P1.
    apply wait_then. intros w2 (T2 & _ & P2). apply ends_bind. specialize (IHr w2 Hr ltac:(by rewrite T2, T1)).
    replace (table w2) with (table w) in IHr by congruence. replace (pipes w2) with n1 in IHr by congruence. by rewrite Er in IHr.
  - cbn [runcmd]. rewrite <- (app_nil_r (plan _ _ _ _ _).1). apply (fork1_then _ _ w _ (plan openable runnable c (table w) (pipes w)).2); [by apply IH|].
    intros w1 T1 P1. rewrite <- P1. apply ends_exit.
Qed.

(** A process that runs a command with descriptors 0, 1 and 2 open ends; the
    programs started on the way, by it and by the processes that it forks,
    are those of the command, in order, each with the descriptors that the
    command gives it and no others (so that a reader of a pipe is not kept
    waiting by a stray copy of the writing end). *)
Theorem runcmd_correct c (w : W) : ok_command c -> std (table w) ->
  exists msg w', runcmd c w = Panic msg w' /\ started w' = started w ++ (plan openable runnable c (table w) (pipes w)).1.
Proof. intros Hok Ht. destruct (runcmd_ends c w Hok Ht) as (msg & w' & E & HS & _). by exists msg, w'. Qed.

(** C9: The shell as a whole: a line that spells a command of the grammar, in any
    layout, starts the programs of that command with their descriptors. *)
Theorem run_line_correct l text ws junk (w : W) :
  spells (toks_line l) text -> blanks ws -> fits_line l -> Z.of_nat (length (ws ++ text)) < 2 ^ 63 ->
  ok_command (tree_line l) -> std (table w) ->
  exists msg w', run_line ((ws ++ text) ++ 0 :: junk) w = Panic msg w' /\
    started w' = started w ++ (plan openable runnable (tree_line l) (table w) (pipes w)).1.
Proof.
  intros Hsp Hws Hf Hl Hok Ht. destruct (parsecmd_spelled l text ws junk w Hsp Hws Hf Hl) as (c & buf & E & Hc).
  destruct (runcmd_ends (tree_line l) w Hok Ht) as (msg & w' & E' & HS & _). exists msg, w'. unfold run_line.
  rewrite (bind_Ret _ _ _ _ _ E), Hc. done.
Qed.
End RunFacts.

(** ** A small system *)

Module DemoShell.
Record world := mkWorld { s_table : fdtable; s_started : list (list (list Z) * fdtable); s_pipes : nat; s_out : Z -> list Z }.

Definition set_table (t : fdtable) (w : world) : world := mkWorld t (s_started w) (s_pipes w) (s_out w).

(** The free descriptor below 16 that is allocated next. *)
Definition free (t : fdtable) : option Z := List.find (fun k => bool_decide (t !! k = None)) (map Z.of_nat (seq 0 16)).

Lemma find_lowest t k n : forall i, 0 <= i -> lowest t k -> i <= k < i + Z.of_nat n ->
  List.find (fun k => bool_decide (t !! k = None)) (map Z.of_nat (seq (Z.to_nat i) n)) = Some k.
Proof.
  induction n as [|n IH]; intros i Hi (Hk & Hn & Hlow) Hr; [lia|]. cbn [seq map List.find]. rewrite Z2Nat.id by lia.
  destruct (bool_decide_reflect (t !! i = None)) as [E|E].
  - destruct (decide (i = k)) as [->|Hne]; [done|]. destruct (Hlow i ltac:(lia)) as [o Ho]. congruence.
  - replace (S (Z.to_nat i)) with (Z.to_nat (i + 1)) by lia. apply IH; [lia|done|].
    destruct (decide (i = k)) as [->|]; [congruence|lia].
Qed.

Lemma free_lowest t k : lowest t k -> k < 16 -> free t = Some k.
Proof. intros Hl Hk. apply (find_lowest t k 16 0); [lia|done|]. destruct Hl. lia. Qed.

(** Every path can be opened but one, and every program run but one. *)
Definition no_such : list Z := bytes "none".

#[export] Instance shell_unix : Unix world := {|
  read fd n w := Ret (0, []) w;
  write fd l w := Ret (Z.of_nat (length l)) (mkWorld (s_table w) (s_started w) (s_pipes w) (fun x => if x =? fd then s_out w fd ++ l else s_out w x));
  open a mode w :=
    match (if bool_decide (a = no_such) then None else free (s_table w)) with
    | Some k => Ret k (set_table (<[k := OFile a mode]> (s_table w)) w)
    | None => Ret (-1) w
    end;
  close fd w := if bool_decide (is_Some (s_table w !! fd)) then Ret 0 (set_table (delete fd (s_table w)) w) else Ret (-1) w;
  fstat fd w := Ret (-1, []) w;
  exited st w := w
|}.

#[export] Program Instance shell_streams : Streams world := {|
  input _ _ := [];
  output := s_out;
  contents _ _ := None
|}.
Next Obligation.
  intros fd n w Hn. exists 0%nat, w. split; [done|]. split; [lia|]. split; [lia|]. split; [auto|]. split; [|done].
  intros fd'. by destruct (fd' =? fd).
Qed.
Next Obligation. intros fd l w. eexists. split; [reflexivity|]. done. Qed.

#[export] Instance shell_procs : Procs world := {|
  fork child w :=
    match child w with
    | Panic _ wc | Ret _ wc => Ret 1 (mkWorld (s_table w) (s_started wc) (s_pipes wc) (s_out wc))
    | Swtch _ _ | Fuel _ => Fuel w
    end;
  wait _ w := Ret 1 w;
  exec a argv w :=
    if bool_decide (a = no_such) then Ret (-1) w
    else Panic "exec" (mkWorld (s_table w) (s_started w ++ [(argv, s_table w)]) (s_pipes w) (s_out w));
  pipe w :=
    match free (s_table w) with
    | Some p0 =>
        let t := <[p0 := ORead (s_pipes w)]> (s_table w) in
        match free t with
        | Some p1 => Ret (0, p0, p1) (mkWorld (<[p1 := OWrite (s_pipes w)]> t) (s_started w) (S (s_pipes w)) (s_out w))
        | None => Ret (-1, 0, 0) w
        end
    | None => Ret (-1, 0, 0) w
    end;
  dup fd w :=
    match s_table w !! fd, free (s_table w) with
    | Some o, Some k => Ret k (set_table (<[k := o]> (s_table w)) w)
    | _, _ => Ret (-1) w
    end;
  chdir _ w := Ret 0 w
|}.

#[export] Program Instance shell_descriptors : Descriptors world := {|
  table := s_table;
  started := s_started;
  pipes := s_pipes;
  openable a _ := negb (bool_decide (a = no_such));
  runnable a := negb (bool_decide (a = no_such))
|}.
Next Obligation. intros. eexists. split; [reflexivity|done]. Qed.
Next Obligation. intros. do 2 eexists. split; [reflexivity|done]. Qed.
Next Obligation. done. Qed.
Next Obligation. intros fd w Hs. cbn. rewrite bool_decide_true by done. eexists. split; [reflexivity|done]. Qed.
Next Obligation.
  intros path mode w k Hl Hk. unfold open, shell_unix. destruct (bool_decide (path = no_such)); cbn [negb].
  - exists w. done.
  - rewrite (free_lowest _ k) by done. eexists. split; [reflexivity|done].
Qed.
Next Obligation. intros fd w o k Ho Hl Hk. unfold dup, shell_procs. rewrite Ho, (free_lowest _ k) by done. eexists. split; [reflexivity|done]. Qed.
Next Obligation.
  intros w p0 p1 Hl0 Hl1 Hk. unfold pipe, shell_procs. rewrite (free_lowest _ p0); [|done|].
  - cbv zeta. rewrite (free_lowest _ p1) by done. eexists. split; [reflexivity|done].
  - destruct Hl0 as (Hp & Hn & Hlow). destruct Hl1 as (Hp1 & Hn1 & _). destruct (decide (p1 < p0)) as [Hlt|]; [|lia]. exfalso.
    rewrite lookup_insert_ne in Hn1 by lia. destruct (Hlow p1 ltac:(lia)) as [o Ho]. congruence.
Qed.
Next Obligation.
  intros child w msg wc E. unfold fork, shell_procs. rewrite E. do 2 eexists. split; [reflexivity|]. split; [lia|done].
Qed.
Next Obligation.
  intros path argv w. unfold exec, shell_procs. destruct (bool_decide (path = no_such)); cbn [negb].
  - exists w. done.
  - eexists. split; [reflexivity|done].
Qed.

Definition t0 : fdtable := <[0 := OOther 0]> (<[1 := OOther 0]> {[2 := OOther 0]}).
Definition w0 : world := mkWorld t0 [] 0 (fun _ => []).

Lemma std_t0 : std t0.
Proof.
  intros fd. unfold t0. destruct (decide (fd = 0)) as [->|]; [split; [lia|eauto]|]. rewrite lookup_insert_ne by lia.
  destruct (decide (fd = 1)) as [->|]; [split; [lia|eauto]|]. rewrite lookup_insert_ne by lia.
  destruct (decide (fd = 2)) as [->|]; [split; [lia|eauto]|]. rewrite lookup_singleton_ne by lia. split; [by intros [? ?]|lia].
Qed.

(** [a | b >f ; none] *)
Lemma runcmd_correct_witness : exists msg w',
  runcmd (List_ (Pipe (Exec [bytes "a"]) (Redir (Exec [bytes "b"]) (bytes "f") 0x601 1)) (Exec [no_such])) w0 = Panic msg w' /\
  started w' = [([bytes "a"], <[1 := OWrite 0]> t0); ([bytes "b"], <[1 := OFile (bytes "f") 0x601]> (<[0 := ORead 0]> t0))].
Proof.
  destruct (runcmd_correct (List_ (Pipe (Exec [bytes "a"]) (Redir (Exec [bytes "b"]) (bytes "f") 0x601 1)) (Exec [no_such])) w0) as (msg & w' & E & HS).
  - repeat split; auto; try lia; repeat (apply Forall_cons; split; [apply bytes_byte|]); try apply Forall_nil_2. apply bytes_byte.
  - exact std_t0.
  - exists msg, w'. split; [exact E|]. rewrite HS. vm_compute. reflexivity.
Defined.

Lemma run_line_correct_witness : exists msg w', run_line (bytes " (ls a|wc >>o)& ; x<i " ++ [0; 0]) w0 = Panic msg w' /\
  started w' =
    [([bytes "ls"; bytes "a"], <[1 := OWrite 0]> t0);
     ([bytes "wc"], <[1 := OFile (bytes "o") 0x201]> (<[0 := ORead 0]> t0));
     ([bytes "x"], <[0 := OFile (bytes "i") 0]> t0)].
Proof.
  destruct (run_line_correct ShWitness.line0 (bytes "(ls a|wc >>o)& ; x<i ") [32] [0] w0) as (msg & w' & E & HS).
  - exact ShWitness.spells_line0.
  - apply Forall_singleton. by apply chr_true.
  - vm_compute. done.
  - vm_compute. done.
  - repeat split; auto; try lia; repeat (apply Forall_cons; split; [apply bytes_byte|]); try apply Forall_nil_2; apply bytes_byte.
  - exact std_t0.
  - exists msg, w'. split; [exact E|]. rewrite HS. vm_compute. reflexivity.
Defined.
End DemoShell.
