(* ===== verification/Ls.v ===== *)
(** * user/ls.c

    [ls] against the calls of [Unix]: what it writes is a function of the
    directories and of the status of their entries. *)

From S2P Require Import Prelude Machine CString Printf Ulib Unix Uprogs ShRun.

Definition DIRSIZ : Z := 14.
Definition SLASH : Z := 47.

(** The number stored in [n] bytes from [off] on. *)
Definition field (off n : nat) (l : list Z) : Z := fold_right (fun b r => b + 256 * r) 0 (take n (drop off l)).

(** struct stat of kernel/stat.h and struct dirent of kernel/fs.h, as bytes *)
Definition st_ino (st : list Z) : Z := field 4 4 st.
Definition st_type (st : list Z) : Z := i16 (field 8 2 st).
Definition st_size (st : list Z) : Z := field 16 8 st.
Definition de_inum (de : list Z) : Z := field 0 2 de.
Definition de_name (de : list Z) : list Z := take (Z.to_nat DIRSIZ) (drop 2 de).

(** A C string in an array that may be full. *)
Fixpoint until_nul (l : list Z) : list Z :=
  match l with
  | [] => []
  | c :: l' => if c =? 0 then [] else c :: until_nul l'
  end.

(** [for(p=path+strlen(path); p >= path && *p != '/'; p--)]; then [p++]: the
    offset of the first character after the last slash. *)
Fixpoint after_slash (path : list Z) (n : nat) : nat :=
  if nth n path 0 =? SLASH then S n else match n with O => O | S n' => after_slash path n' end.

Definition fmtname (path : list Z) : list Z :=
  let p := drop (after_slash path (length path)) path in
  if Z.of_nat (length p) >=? DIRSIZ then p
  else p ++ replicate (Z.to_nat (DIRSIZ - Z.of_nat (length p))) 32.

Section Program.
Context {W : Type} `{UX : Unix W}.

(** One entry of a directory, whose path with a slash is [buf]. *)
Definition ls_entry (buf de : list Z) : M W unit :=
  if de_inum de =? 0 then ret tt
  else
    let buf := buf ++ until_nul (de_name de) in
    '(r, st) <- stat buf ;;
    if r <? 0 then printf (line "ls: cannot stat %s") [AStr (Some buf)]
    else printf (line "%s %d %d %d") [AStr (Some (fmtname buf)); AInt (st_type st); AInt (i32 (st_ino st)); AInt (i32 (st_size st))].

Definition ls (path : list Z) : M W unit :=
  fd <- open path 0 ;;
  if fd <? 0 then fprintf 2 (line "ls: cannot open %s") [AStr (Some path)]
  else
    '(r, st) <- fstat fd ;;
    if r <? 0
    then fprintf 2 (line "ls: cannot stat %s") [AStr (Some path)] ;;; _ <- close fd ;; ret tt
    else
      (if st_type st =? T_FILE
       then printf (line "%s %d %d %l") [AStr (Some (fmtname path)); AInt (st_type st); AInt (i32 (st_ino st)); APtr (st_size st)]
       else if st_type st =? T_DIR
       then
         if Z.of_nat (length path) + 1 + DIRSIZ + 1 >? 512 then printf (line "ls: path too long") []
         else
           loop (fun _ : unit =>
             '(n, de) <- read fd 16 ;;
             if n =? 16 then ls_entry (path ++ [SLASH]) de ;;; ret (inl tt) else ret (inr tt)) tt
       else ret tt) ;;;
      _ <- close fd ;;
      ret tt.

Definition ls_main (args : list (list Z)) : M W unit :=
  match args with
  | [] => ls [46] ;;; exit 0
  | _ => for_all args ls ;;; exit 0
  end.
End Program.

(** ** What it shows *)

(** The status of files, which does not change while ls runs, and the open
    descriptors: [open] gives one that was not open, [close] frees it and
    leaves what the others have to deliver; entries of directories are read
    whole. *)
Class Dirs (W : Type) `{UX : Unix W} `{ST : !Streams W} `{FL : !Files W} := {
  status : list Z -> option (list Z);
  in_use : W -> Z -> bool;
  same_use (w w' : W) : Prop := forall fd, in_use w' fd = in_use w fd;
  status_bytes : forall path st, status path = Some st -> byte_string st;
  open_use : forall path w fd w1, open path 0 w = Ret fd w1 ->
    if fd <? 0 then same_use w w1 else in_use w fd = false /\ forall fd', in_use w1 fd' = in_use w fd' || (fd' =? fd);
  fstat_law : forall path w fd w1, open path 0 w = Ret fd w1 -> 0 <= fd ->
    exists st w2, status path = Some st /\ fstat fd w1 = Ret (0, st) w2 /\ same_use w1 w2 /\
      (forall fd', input w2 fd' = input w1 fd') /\ (forall fd', output w2 fd' = output w1 fd') /\ forall a, contents w2 a = contents w1 a;
  read_entry : forall fd w, 3 <= fd -> exists w', read fd 16 w = Ret (Z.of_nat (Nat.min 16 (length (input w fd))), take 16 (input w fd)) w' /\
    same_use w w' /\ (forall fd', input w' fd' = if fd' =? fd then drop 16 (input w fd) else input w fd') /\
    (forall fd', output w' fd' = output w fd') /\ forall a, contents w' a = contents w a;
  write_use : forall fd l w r w', write fd l w = Ret r w' -> same_use w w';
  close_use : forall fd w r w', close fd w = Ret r w' ->
    (forall fd', in_use w' fd' = in_use w fd' && negb (fd' =? fd)) /\ forall fd', fd' <> fd -> input w' fd' = input w fd'
}.

Section Facts.
Context {W : Type} `{UX : Unix W} `{ST : !Streams W} `{FL : !Files W} `{DI : !Dirs W}.

(** Blank-padded to fourteen characters. *)
Definition pad (name : list Z) : list Z := name ++ replicate (14 - length name) 32.

(** The part of a path after the last slash. *)
Definition basename (path name : list Z) : Prop := (SLASH ∉ name) /\ (path = name \/ exists d, path = d ++ SLASH :: name).

Lemma after_slash_spec path n : (n <= length path)%nat -> SLASH ∉ drop (S n) path ->
  let k := after_slash path n in (SLASH ∉ drop k path) /\ (k = 0%nat \/ exists j, k = S j /\ path !! j = Some SLASH).
Proof.
  revert path. induction n as [|n IH]; intros path Hn Hd; cbn [after_slash].
  - destruct (Z.eqb_spec (nth 0 path 0) SLASH) as [E|E].
    + split; [done|]. right. exists 0%nat. split; [done|]. destruct path as [|c path]; [discriminate E|]. cbn in E. by subst.
    + split; [|by left]. destruct path as [|c path]; [apply not_elem_of_nil|]. rewrite drop_0. apply not_elem_of_cons. split; [by intros <-|exact Hd].
  - destruct (Z.eqb_spec (nth (S n) path 0) SLASH) as [E|E].
    + split; [done|]. right. exists (S n). split; [done|]. destruct (path !! S n) as [c|] eqn:Ec; [by rewrite (nth_lookup_Some _ _ 0 _ Ec) in E; subst|].
      rewrite nth_lookup, Ec in E. discriminate E.
    + apply IH; [lia|]. destruct (path !! S n) as [c|] eqn:Ec.
      * rewrite (drop_S _ _ _ Ec). apply not_elem_of_cons. split; [|done]. intros <-. by rewrite (nth_lookup_Some _ _ 0 _ Ec) in E.
      * apply lookup_ge_None in Ec. rewrite drop_ge by lia. apply not_elem_of_nil.
Qed.

Lemma slash_mid n1 n2 k : SLASH ∉ n2 -> SLASH :: n2 = k ++ SLASH :: n1 -> n1 = n2.
Proof.
  intros Hn E. destruct k as [|c k]; [by injection E|]. injection E as _ ->. exfalso. apply Hn. rewrite elem_of_app, elem_of_cons. tauto.
Qed.

Lemma basename_unique path n1 n2 : basename path n1 -> basename path n2 -> n1 = n2.
Proof.
  intros [H1 [E1|(d1 & E1)]] [H2 [E2|(d2 & E2)]]; [congruence| | |].
  - exfalso. apply H1. rewrite <- E1, E2, elem_of_app, elem_of_cons. tauto.
  - exfalso. apply H2. rewrite <- E2, E1, elem_of_app, elem_of_cons. tauto.
  - rewrite E1 in E2. apply app_eq_inv in E2 as [(k & _ & E)|(k & _ & E)]; [by apply (slash_mid _ _ k)|symmetry; by apply (slash_mid _ _ k)].
Qed.

(** [fmtname] is the padded base name. *)
Lemma fmtname_correct path name : basename path name -> fmtname path = pad name.
Proof.
  intros Hb. destruct (after_slash_spec path (length path)) as [H1 H2]; [lia|rewrite drop_ge by lia; apply not_elem_of_nil|].
  assert (E : drop (after_slash path (length path)) path = name).
  { apply (basename_unique path); [|done]. split; [done|]. destruct H2 as [->|(j & -> & Hj)]; [left; by rewrite drop_0|right]. exists (take j path). by rewrite <- (drop_S _ _ _ Hj), take_drop. }
  unfold fmtname. rewrite E. unfold pad. rewrite Z.geb_leb. unfold DIRSIZ. destruct (Z.leb_spec 14 (Z.of_nat (length name))).
  - replace (14 - length name)%nat with 0%nat by lia. by rewrite app_nil_r.
  - do 2 f_equal. lia.
Qed.

(** The base name: the last of the parts between the slashes. *)
Definition base (path : list Z) : list Z := default [] (last (split_at (Z.eqb SLASH) path)).

Lemma split_at_base path :
  (SLASH ∉ base path) /\ match split_at (Z.eqb SLASH) path with
                       | [] => False
                       | [w] => path = w
                       | _ => exists d, path = d ++ SLASH :: base path
                       end.
Proof.
  unfold base. induction path as [|c path [IH1 IH2]]; [split; [apply not_elem_of_nil|done]|]. cbn [split_at].
  destruct (split_at (Z.eqb SLASH) path) as [|w ws]; [done|]. destruct (Z.eqb_spec SLASH c) as [<-|Hne].
  - change (last ([] :: w :: ws)) with (last (w :: ws)). split; [exact IH1|].
    destruct ws as [|w2 ws]; [exists []; cbn; by rewrite IH2|]. destruct IH2 as [d Hd]. exists (SLASH :: d). cbn [app]. by f_equal.
  - destruct ws as [|w2 ws].
    + cbn in *. split; [apply not_elem_of_cons; by split|congruence].
    + change (last ((c :: w) :: w2 :: ws)) with (last (w2 :: ws)). change (last (w :: w2 :: ws)) with (last (w2 :: ws)) in IH1, IH2.
      split; [exact IH1|]. destruct IH2 as [d Hd]. exists (c :: d). cbn [app]. by f_equal.
Qed.

Lemma base_basename path : basename path (base path).
Proof.
  destruct (split_at_base path) as [H1 H2]. split; [done|]. unfold base in *. destruct (split_at (Z.eqb SLASH) path) as [|w [|w2 ws]]; [done|left; exact H2|right; exact H2].
Qed.

Lemma fmtname_base path : fmtname path = pad (base path).
Proof. apply fmtname_correct, base_basename. Qed.

(** ** The text *)

Definition entry_line (path st : list Z) : list Z :=
  pad (base path) ++ [32] ++ render 10 (st_type st) ++ [32] ++ render 10 (i32 (st_ino st)) ++ [32] ++ render 10 (i32 (st_size st)) ++ [10].

Definition file_line (path st : list Z) : list Z :=
  pad (base path) ++ [32] ++ render 10 (st_type st) ++ [32] ++ render 10 (i32 (st_ino st)) ++ [32] ++ rev (map upper (numeral_le 32 10 (u32 (st_size st)))) ++ [10].

(** The files there are: [c]. *)
Section Text.
Context (c : list Z -> option (list Z)).

Definition entry_out (path de : list Z) : list Z :=
  if de_inum de =? 0 then []
  else
    let buf := (path ++ [SLASH]) ++ until_nul (de_name de) in
    match c buf, status buf with
    | Some _, Some st => entry_line buf st
    | _, _ => bytes "ls: cannot stat " ++ buf ++ [10]
    end.

(** The entries of a directory; bytes after the last whole one are ignored. *)
Fixpoint entries (n : nat) (l : list Z) : list (list Z) :=
  match n with O => [] | S n' => take 16 l :: entries n' (drop 16 l) end.

Definition dir_out (path l : list Z) : list Z := concat (map (entry_out path) (entries (length l / 16) l)).

Definition shown (path st l : list Z) : list Z :=
  if st_type st =? T_FILE then file_line path st
  else if st_type st =? T_DIR
  then if Z.of_nat (length path) + 16 >? 512 then line "ls: path too long" else dir_out path l
  else [].

(** What is written to descriptors 1 and 2 for a path. *)
Definition ls_out (path : list Z) : list Z * list Z :=
  match c path, status path with
  | Some l, Some st => (shown path st l, [])
  | _, _ => ([], bytes "ls: cannot open " ++ path ++ [10])
  end.
End Text.

Lemma field_range off n l : byte_string l -> 0 <= field off n l < 256 ^ Z.of_nat n.
Proof.
  intros Hl. unfold field. assert (Hb : byte_string (drop off l)) by (apply Forall_drop; exact Hl). revert Hb. generalize (drop off l). clear Hl. induction n as [|n IH]; intros k Hk; [change (0 <= 0 < 1); lia|].
  destruct k as [|c k]; [rewrite take_nil; cbn [fold_right]; pose proof (Z.pow_pos_nonneg 256 (Z.of_nat (S n)) ltac:(lia) ltac:(lia)); lia|]. apply Forall_cons in Hk as [Hc Hk]. specialize (IH k Hk). cbn [take fold_right].
  rewrite Nat2Z.inj_succ, Z.pow_succ_r by lia. lia.
Qed.

Lemma i16_in x : - 2 ^ 31 <= i16 x < 2 ^ 31.
Proof. unfold i16. pose proof (Z.mod_pos_bound (x + 2 ^ 15) (2 ^ 16)). lia. Qed.

Lemma until_nul_bytes l : byte_string l -> byte_string (until_nul l).
Proof. induction 1 as [|c l Hc _ IH]; [by constructor|]. cbn. destruct (c =? 0); [by constructor|]. by constructor. Qed.

Lemma fmtname_bytes path : byte_string path -> byte_string (fmtname path).
Proof.
  intros H. unfold fmtname. assert (Hd : byte_string (drop (after_slash path (length path)) path)) by by apply Forall_drop.
  destruct (_ >=? _); [done|]. apply Forall_app. split; [done|]. apply Forall_replicate. lia.
Qed.

Lemma line_bytes : Forall (fun c => 0 <= c < 256) (line "%s %d %d %d") /\ Forall (fun c => 0 <= c < 256) (line "%s %d %d %l") /\
  Forall (fun c => 0 <= c < 256) (line "ls: cannot stat %s") /\ Forall (fun c => 0 <= c < 256) (line "ls: cannot open %s") /\ Forall (fun c => 0 <= c < 256) (line "ls: path too long").
Proof. split_and!; apply (bool_decide_unpack _); vm_compute; exact I. Qed.

Lemma same_use_refl w : same_use w w.
Proof. done. Qed.

Lemma same_use_trans w1 w2 w3 : same_use w1 w2 -> same_use w2 w3 -> same_use w1 w3.
Proof. intros H1 H2 fd. by rewrite H2, H1. Qed.

(** Printing leaves the descriptors in use alone. *)
Lemma printed_use fd fmt ap w w' : vprintf_loop fd fmt false ap w = Ret tt w' -> same_use w w'.
Proof.
  intros E. pose proof (keeps_vprintf same_use same_use_refl same_use_trans) as Hk.
  assert (Hw : forall fd l, ShRun.keeps same_use (write fd l)).
  { intros fd' l w1. destruct (write_law fd' l w1) as (w2 & E2 & _). rewrite E2. by apply (write_use _ _ _ _ _ E2). }
  specialize (Hk Hw fd fmt false ap w). by rewrite E in Hk.
Qed.

(** [w'] is [w] but for the descriptors that are not [fd0], after [l] has been
    printed. *)
Definition goes_on (fd0 : Z) (l : list Z) (w w' : W) : Prop :=
  same_use w w' /\ input w' fd0 = input w fd0 /\
  (forall fd, output w' fd = output w fd ++ if fd =? 1 then l else []) /\ forall a, contents w' a = contents w a.

(** [stat] while [fd0] is open. *)
Lemma stat_run path fd0 w : in_use w fd0 = true ->
  exists w', stat path w = Ret (match contents w path, status path with Some _, Some st => (0, st) | _, _ => (-1, []) end) w' /\ goes_on fd0 [] w w'.
Proof.
  intros Hfd0. unfold stat, O_RDONLY. destruct (open_law path w) as (fd & w1 & E1 & H1 & O1 & C1). rewrite (bind_Ret _ _ _ _ _ E1).
  pose proof (open_use path w fd w1 E1) as Hu. destruct (contents w path) as [l|] eqn:El.
  - destruct H1 as [Hfd I1]. destruct (Z.ltb_spec fd 0); [lia|]. destruct Hu as [Hu0 Hu1].
    destruct (fstat_law path w fd w1 E1 ltac:(lia)) as (st & w2 & Hst & E2 & U2 & I2 & O2 & C2). rewrite (bind_Ret _ _ _ _ _ E2).
    destruct (close_law fd w2 Hfd) as (w3 & E3 & O3 & C3). destruct (close_use fd w2 0 w3 E3) as [U3 I3]. rewrite (bind_Ret _ _ _ _ _ E3), Hst.
    exists w3. split; [done|]. assert (Hne : fd0 <> fd) by congruence. split; [|split; [|split]].
    + intros x. rewrite U3, U2, Hu1. destruct (Z.eqb_spec x fd) as [->|]; [by rewrite andb_false_r|]. by rewrite orb_false_r, andb_true_r.
    + rewrite I3, I2, I1 by done. by destruct (Z.eqb_spec fd0 fd).
    + intros x. rewrite O3, O2, O1. destruct (x =? 1); by rewrite app_nil_r.
    + intros a. by rewrite C3, C2, C1.
  - destruct H1 as [-> I1]. cbn [Z.ltb Z.compare] in *. exists w1. split; [done|]. split; [exact Hu|]. split; [apply I1|]. split; [|done].
    intros x. rewrite O1. destruct (x =? 1); by rewrite app_nil_r.
Qed.

Lemma goes_on_print fd0 fmt ap l w w1 : Forall (fun c => 0 <= c < 256) fmt -> Forall arg_ok ap -> Unix.format fmt false ap = Some l -> goes_on fd0 [] w w1 ->
  exists w', printf fmt ap w1 = Ret tt w' /\ goes_on fd0 l w w'.
Proof.
  intros Hf Ha HF (U1 & I1 & O1 & C1). destruct (vprintf_loop_emits 1 fmt false ap l Hf Ha HF w1) as (w2 & E2 & I2 & O2 & C2).
  exists w2. split; [exact E2|]. split; [apply (same_use_trans _ _ _ U1), (printed_use _ _ _ _ _ E2)|]. split; [by rewrite I2|]. split; [|intros a; by rewrite C2].
  intros x. rewrite O2, !O1. destruct (Z.eqb_spec x 1) as [->|]; [|done]. by rewrite app_nil_r.
Qed.

Lemma ls_entry_emits path de fd0 w : byte_string path -> byte_string de -> in_use w fd0 = true ->
  exists w', ls_entry (path ++ [SLASH]) de w = Ret tt w' /\ goes_on fd0 (entry_out (contents w) path de) w w'.
Proof.
  intros Hp Hd Hfd0. destruct line_bytes as (L1 & L2 & L3 & L4 & L5). unfold ls_entry, entry_out.
  destruct (de_inum de =? 0); [exists w; split; [done|]; split; [apply same_use_refl|]; split; [done|]; split; [|done]; intros x; destruct (x =? 1); by rewrite app_nil_r|].
  set (buf := (path ++ [SLASH]) ++ until_nul (de_name de)). assert (Hb : byte_string buf).
  { apply Forall_app. split; [apply Forall_app; split; [done|apply Forall_singleton; unfold SLASH; lia]|]. apply until_nul_bytes. by apply Forall_take, Forall_drop. }
  assert (Hno : forall w1, goes_on fd0 [] w w1 -> exists w', printf (line "ls: cannot stat %s") [AStr (Some buf)] w1 = Ret tt w' /\ goes_on fd0 (bytes "ls: cannot stat " ++ buf ++ [10]) w w').
  { intros w1 Hg. apply goes_on_print; [done|apply Forall_singleton; exact Hb|reflexivity|done]. }
  destruct (stat_run buf fd0 w Hfd0) as (w1 & E1 & Hg). rewrite (bind_Ret _ _ _ _ _ E1).
  destruct (contents w buf) as [l|]; [|cbv iota beta; cbn [Z.ltb Z.compare]; by apply Hno]. destruct (status buf) as [st|] eqn:Est; cbv iota beta; cbn [Z.ltb Z.compare]; [|by apply Hno].
  pose proof (status_bytes buf st Est) as Hst. apply goes_on_print; [done| |unfold entry_line; rewrite <- fmtname_base; reflexivity|done].
  apply Forall_cons. split; [by apply fmtname_bytes|]. repeat (apply Forall_cons; split; [first [apply i32_range|apply i16_in]|]). apply Forall_nil_2.
Qed.

Lemma entries_snoc n : forall l, entries (S n) l = entries n l ++ [take 16 (drop (16 * n) l)].
Proof.
  induction n as [|n IH]; intros l; [done|]. change (entries (S (S n)) l) with (take 16 l :: entries (S n) (drop 16 l)). rewrite IH, drop_drop. replace (16 * S n)%nat with (16 + 16 * n)%nat by lia. done.
Qed.

Lemma entry_out_ext c c' path de : (forall a, c' a = c a) -> entry_out c' path de = entry_out c path de.
Proof. intros H. unfold entry_out. by rewrite H. Qed.

(** Reading a directory to its end. *)
Lemma ls_dir_run path fd w : byte_string path -> 3 <= fd -> in_use w fd = true -> byte_string (input w fd) -> Z.of_nat (length (input w fd)) < 2 ^ 63 ->
  exists w', loop (fun _ : unit =>
      '(n, de) <- read fd 16 ;;
      if n =? 16 then ls_entry (path ++ [SLASH]) de ;;; ret (inl tt) else ret (inr tt)) tt w = Ret tt w' /\
    (forall fd', output w' fd' = output w fd' ++ if fd' =? 1 then dir_out (contents w) path (input w fd) else []) /\ forall a, contents w' a = contents w a.
Proof.
  intros Hp Hfd Huse Hl Hlen. set (l := input w fd) in *.
  apply (loop_measure _ (fun _ w1 => exists k, (k <= length l / 16)%nat /\ input w1 fd = drop (16 * k) l /\ in_use w1 fd = true /\
      (forall fd', output w1 fd' = output w fd' ++ if fd' =? 1 then concat (map (entry_out (contents w) path) (entries k l)) else []) /\ forall a, contents w1 a = contents w a)
    (fun _ w1 => length (input w1 fd)) (fun o => exists w', o = Ret tt w' /\
      (forall fd', output w' fd' = output w fd' ++ if fd' =? 1 then dir_out (contents w) path l else []) /\ forall a, contents w' a = contents w a)).
  - intros [] w1 (k & Hk & Hi & Hu & Ho & Hc). destruct (read_entry fd w1 Hfd) as (w2 & E2 & U2 & I2 & O2 & C2). rewrite (bind_Ret _ _ _ _ _ E2). cbv iota beta.
    assert (Hli : length (input w1 fd) = (length l - 16 * k)%nat) by by rewrite Hi, length_drop.
    pose proof (Nat.div_mod_eq (length l) 16) as Hdm. pose proof (Nat.mod_upper_bound (length l) 16 ltac:(lia)) as Hmb.
    destruct (decide (16 <= length (input w1 fd))%nat) as [Hge|Hlt].
    + rewrite Nat.min_l by lia. change (Z.of_nat 16 =? 16) with true. cbv iota.
      destruct (ls_entry_emits path (take 16 (input w1 fd)) fd w2 Hp) as (w3 & E3 & U3 & I3 & O3 & C3); [rewrite Hi; by apply Forall_take, Forall_drop|by rewrite U2|].
      left. exists tt, w3. rewrite (bind_Ret _ _ _ _ _ E3). split; [done|]. pose proof (I2 fd) as I2f. rewrite Z.eqb_refl in I2f. split; [|rewrite I3, I2f, length_drop; lia].
      exists (S k). split; [lia|]. split; [rewrite I3, I2f, Hi, drop_drop; f_equal; lia|]. split; [by rewrite U3, U2|]. split; [|intros a; by rewrite C3, C2].
      intros fd'. rewrite O3, !O2, !Ho. destruct (Z.eqb_spec fd' 1) as [->|]; [|by rewrite !app_nil_r].
      rewrite (entry_out_ext (contents w)) by (intros a; by rewrite C2). rewrite <- app_assoc, entries_snoc, map_app, concat_app. f_equal. f_equal. cbn. by rewrite app_nil_r, Hi.
    + right; left. rewrite Nat.min_r by lia. destruct (Z.eqb_spec (Z.of_nat (length (input w1 fd))) 16); [lia|]. exists tt, w2. split; [done|]. exists w2. split; [done|].
      assert (k = (length l / 16)%nat) as -> by lia. split; [|intros a; by rewrite C2]. intros fd'. by rewrite O2, Ho.
  - exists 0%nat. split; [lia|]. split; [done|]. split; [done|]. split; [|done]. intros fd'. destruct (fd' =? 1); by rewrite app_nil_r.
  - fold l. lia.
Qed.

(** One path. *)
Lemma ls_run path w : byte_string path -> (forall l, contents w path = Some l -> byte_string l /\ Z.of_nat (length l) < 2 ^ 63) ->
  let '(o1, o2) := ls_out (contents w) path in
  exists w', ls path w = Ret tt w' /\ (forall fd, output w' fd = output w fd ++ (if fd =? 1 then o1 else if fd =? 2 then o2 else [])) /\ forall a, contents w' a = contents w a.
Proof.
  intros Hp Hc. destruct line_bytes as (L1 & L2 & L3 & L4 & L5). unfold ls. destruct (open_law path w) as (fd & w1 & E1 & H1 & O1 & C1). rewrite (bind_Ret _ _ _ _ _ E1).
  pose proof (open_use path w fd w1 E1) as Hu. unfold ls_out. destruct (contents w path) as [l|] eqn:El.
  - destruct H1 as [Hfd I1]. destruct (Hc l eq_refl) as [Hl Hlen]. destruct (Z.ltb_spec fd 0); [lia|]. destruct Hu as [_ Hu].
    destruct (fstat_law path w fd w1 E1 ltac:(lia)) as (st & w2 & Hst & E2 & U2 & I2 & O2 & C2). rewrite (bind_Ret _ _ _ _ _ E2). cbv iota beta. cbn [Z.ltb Z.compare].
    rewrite Hst. pose proof (status_bytes path st Hst) as Hsb.
    assert (Hin : input w2 fd = l) by (rewrite I2, I1; by rewrite Z.eqb_refl).
    set (o1 := shown (contents w) path st l).
    match goal with |- context [bind ?m _ w2] => assert (Hm : exists w3, m w2 = Ret tt w3 /\ (forall fd', output w3 fd' = output w2 fd' ++ if fd' =? 1 then o1 else []) /\ forall a, contents w3 a = contents w2 a) end.
    { unfold o1, shown. destruct (st_type st =? T_FILE); [|destruct (st_type st =? T_DIR); [|exists w2; split; [done|]; split; [|done]; intros fd'; destruct (fd' =? 1); by rewrite app_nil_r]].
      - destruct (vprintf_loop_emits 1 (line "%s %d %d %l") false [AStr (Some (fmtname path)); AInt (st_type st); AInt (i32 (st_ino st)); APtr (st_size st)] (file_line path st)) with (w := w2) as (w3 & E3 & _ & O3 & C3); [done| |unfold file_line; rewrite <- fmtname_base; reflexivity|].
        { apply Forall_cons. split; [by apply fmtname_bytes|]. apply Forall_cons. split; [apply i16_in|]. apply Forall_cons. split; [apply i32_range|]. apply Forall_singleton. exact (field_range 16 8 st Hsb). }
        exists w3. split; [exact E3|]. split; [|done]. intros fd'. rewrite O3. destruct (Z.eqb_spec fd' 1) as [->|]; [done|by rewrite app_nil_r].
      - replace (Z.of_nat (length path) + 1 + DIRSIZ + 1) with (Z.of_nat (length path) + 16) by (unfold DIRSIZ; lia). destruct (_ >? 512).
        + destruct (vprintf_loop_emits 1 (line "ls: path too long") false [] (line "ls: path too long")) with (w := w2) as (w3 & E3 & _ & O3 & C3); [done|apply Forall_nil_2|reflexivity|].
          exists w3. split; [exact E3|]. split; [|done]. intros fd'. rewrite O3. destruct (Z.eqb_spec fd' 1) as [->|]; [done|by rewrite app_nil_r].
        + destruct (ls_dir_run path fd w2 Hp Hfd) as (w3 & E3 & O3 & C3); [rewrite U2, Hu, Z.eqb_refl; apply orb_true_r|by rewrite Hin..|]. rewrite Hin in O3. exists w3.
          split; [done|]. split; [|done]. intros fd'. rewrite O3. destruct (fd' =? 1); [|done]. f_equal. unfold dir_out. f_equal. apply map_ext. intros de.
          apply entry_out_ext. intros a. by rewrite C2, C1. }
    destruct Hm as (w3 & E3 & O3 & C3). rewrite (bind_Ret _ _ _ _ _ E3). destruct (close_law fd w3 Hfd) as (w4 & E4 & O4 & C4). rewrite (bind_Ret _ _ _ _ _ E4).
    exists w4. split; [done|]. split; [|intros a; by rewrite C4, C3, C2, C1]. intros fd'. rewrite O4, O3, O2, O1. by destruct (fd' =? 1), (fd' =? 2).
  - destruct H1 as [-> I1]. cbn [Z.ltb Z.compare]. cbv iota beta.
    destruct (complain_emits 2 (line "ls: cannot open %s") path (bytes "ls: cannot open " ++ path ++ [10]) Hp L4 eq_refl w1) as (w2 & E2 & _ & O2 & C2). exists w2. split; [exact E2|].
    split; [|intros a; by rewrite C2, C1]. intros fd. rewrite O2, !O1. destruct (Z.eqb_spec fd 2) as [->|]; [done|]. destruct (fd =? 1); by rewrite app_nil_r.
Qed.

Lemma ls_out_ext c c' path : (forall a, c' a = c a) -> ls_out c' path = ls_out c path.
Proof.
  intros H. unfold ls_out, shown, dir_out. rewrite H. destruct (c path), (status path); try done. do 3 f_equal.
  destruct (_ =? T_FILE); [done|]. destruct (_ =? T_DIR); [|done]. destruct (_ >? 512); [done|]. f_equal. apply map_ext. intros de. by apply entry_out_ext.
Qed.

Lemma ls_all args w : Forall byte_string args -> (forall a l, contents w a = Some l -> byte_string l /\ Z.of_nat (length l) < 2 ^ 63) ->
  exists w', for_all args ls w = Ret tt w' /\
    (forall fd, output w' fd = output w fd ++ (if fd =? 1 then concat (map (fun a => (ls_out (contents w) a).1) args)
                                              else if fd =? 2 then concat (map (fun a => (ls_out (contents w) a).2) args) else [])).
Proof.
  intros Hargs. revert w. induction Hargs as [|a args Ha _ IH]; intros w Hc; [exists w; split; [done|]; intros fd; destruct (fd =? 1), (fd =? 2); by rewrite app_nil_r|].
  pose proof (ls_run a w Ha (Hc a)) as Hr. cbn [for_all map concat]. destruct (ls_out (contents w) a) as [o1 o2]. destruct Hr as (w1 & E1 & O1 & C1).
  destruct (IH w1) as (w2 & E2 & O2); [intros b l; rewrite C1; apply Hc|]. exists w2. rewrite (bind_Ret _ _ _ _ _ E1). split; [done|].
  intros fd. rewrite O2, O1, <- app_assoc. cbn [fst snd]. f_equal.
  rewrite !(map_ext _ _ (fun b => f_equal fst (ls_out_ext (contents w) (contents w1) b C1))), !(map_ext _ _ (fun b => f_equal snd (ls_out_ext (contents w) (contents w1) b C1))).
  by destruct (fd =? 1), (fd =? 2).
Qed.

(** The paths that ls is given, the current directory when there are none. *)
Definition ls_paths (args : list (list Z)) : list (list Z) := match args with [] => [bytes "."] | _ => args end.

(** C24: ls writes, for every path it is given (or for the current directory),
    in order, and whatever became of the others: for a file the part of its
    path after the last slash, padded with blanks to fourteen characters, its
    type, inode number and size; for a directory such a line for every entry in
    use, or a complaint if its status cannot be had; for a path that does not
    exist a complaint on descriptor 2. *)
Theorem ls_main_correct args w : Forall byte_string args ->
  (forall a l, contents w a = Some l -> byte_string l /\ Z.of_nat (length l) < 2 ^ 63) ->
  exists w', ls_main args w = Panic "exit" (exited 0 w') /\
    forall fd, output w' fd = output w fd ++ (if fd =? 1 then concat (map (fun a => (ls_out (contents w) a).1) (ls_paths args))
                                              else if fd =? 2 then concat (map (fun a => (ls_out (contents w) a).2) (ls_paths args)) else []).
Proof.
  intros Hargs Hc. destruct (ls_all (ls_paths args) w) as (w' & E & Ho); [destruct args; [|done]; apply Forall_singleton, (bool_decide_unpack _); vm_compute; exact I|done|].
  exists w'. split; [|exact Ho]. destruct args as [|a args].
  - cbn [ls_paths for_all] in E. change (bytes ".") with [46] in E. unfold ls_main. apply bind_inv_Ret in E as ([] & w1 & E & [= <-]).
    by rewrite (bind_Ret _ _ _ _ _ E).
  - unfold ls_main. cbn [ls_paths] in E. by rewrite (bind_Ret _ _ _ _ _ E).
Qed.
End Facts.


Module LsWitness.
(** A directory "d" with the file "a", an entry that is not in use and one that
    cannot be opened. *)
Definition stat_of (ino type size : Z) : list Z := [1; 0; 0; 0; ino; 0; 0; 0; type; 0; 1; 0; 0; 0; 0; 0; size; 0; 0; 0; 0; 0; 0; 0].
Definition entry (ino c : Z) : list Z := [ino; 0; c] ++ replicate 13 0.
Definition d_files : list (list Z * (list Z * list Z)) :=
  [(bytes "d", (entry 5 97 ++ entry 0 98 ++ entry 6 99, stat_of 4 1 48)); (bytes "d/a", (bytes "text", stat_of 5 2 4))].

Definition find_file (a : list Z) : option (list Z * list Z) := snd <$> List.find (fun p => bool_decide (p.1 = a)) d_files.

#[local] Arguments find_file : simpl never.

(** The descriptors from 3 on: what is left to read and the path, none when it
    has been closed. *)
Record world := mkWorld { d_fds : list (option (list Z * list Z)); d_out : Z -> list Z }.

Definition slot (fd : Z) : nat := Z.to_nat (fd - 3).
Definition d_get (w : world) (fd : Z) : option (list Z * list Z) := if fd <? 3 then None else mjoin (d_fds w !! slot fd).
Definition d_in (w : world) (fd : Z) : list Z := match d_get w fd with Some x => x.1 | None => [] end.
Definition d_upd (f : option (list Z * list Z) -> option (list Z * list Z)) (fd : Z) (w : world) : world :=
  if fd <? 3 then w else mkWorld (alter f (slot fd) (d_fds w)) (d_out w).
Definition advance (k : nat) : option (list Z * list Z) -> option (list Z * list Z) := fmap (fun x => (drop k x.1, x.2)).

#[export] Instance demo_unix : Unix world := {|
  read := fun fd n w => let l := d_in w fd in let k := Nat.min (Z.to_nat n) (length l) in
    Ret (Z.of_nat k, take k l) (d_upd (advance k) fd w);
  write := fun fd l w => Ret (Z.of_nat (length l)) (mkWorld (d_fds w) (fun fd' => if fd' =? fd then d_out w fd ++ l else d_out w fd'));
  open := fun a _ w => match find_file a with
    | Some x => Ret (3 + Z.of_nat (length (d_fds w))) (mkWorld (d_fds w ++ [Some (x.1, a)]) (d_out w))
    | None => Ret (-1) w
    end;
  close := fun fd w => Ret 0 (d_upd (fun _ => None) fd w);
  fstat := fun fd w => match d_get w fd ≫= (fun x => find_file x.2) with Some x => Ret (0, x.2) w | None => Ret (-1, []) w end;
  exited := fun _ w => w
|}.

Lemma d_get_upd f fd w fd' : f None = None -> d_get (d_upd f fd w) fd' = if fd' =? fd then f (d_get w fd) else d_get w fd'.
Proof.
  intros Hf. unfold d_upd, d_get. destruct (Z.eqb_spec fd' fd) as [->|Hne].
  - destruct (fd <? 3) eqn:E; [done|]. cbn [d_fds]. rewrite list_lookup_alter_eq. by destruct (d_fds w !! slot fd).
  - destruct (Z.ltb_spec fd 3); [done|]. cbn [d_fds]. destruct (Z.ltb_spec fd' 3); [done|]. rewrite list_lookup_alter_ne; [done|]. unfold slot. lia.
Qed.

Lemma d_out_upd f fd w : d_out (d_upd f fd w) = d_out w.
Proof. unfold d_upd. by destruct (fd <? 3). Qed.

Lemma d_in_advance k fd w fd' : d_in (d_upd (advance k) fd w) fd' = if fd' =? fd then drop k (d_in w fd) else d_in w fd'.
Proof.
  unfold d_in. rewrite d_get_upd by done. destruct (fd' =? fd); [|done]. destruct (d_get w fd); [done|]. by rewrite drop_nil.
Qed.

Lemma d_get_open w x fd' : d_get (mkWorld (d_fds w ++ [Some x]) (d_out w)) fd' = if fd' =? 3 + Z.of_nat (length (d_fds w)) then Some x else d_get w fd'.
Proof.
  unfold d_get. cbn [d_fds]. destruct (Z.eqb_spec fd' (3 + Z.of_nat (length (d_fds w)))) as [->|Hne].
  - destruct (Z.ltb_spec (3 + Z.of_nat (length (d_fds w))) 3); [lia|]. unfold slot. replace (Z.to_nat _) with (length (d_fds w)) by lia. by rewrite list_lookup_middle.
  - destruct (Z.ltb_spec fd' 3); [done|]. destruct (decide (slot fd' < length (d_fds w))%nat) as [Hlt|Hge]; [by rewrite lookup_app_l|].
    rewrite !lookup_ge_None_2; [done|lia|rewrite length_app; unfold slot in *; cbn; lia].
Qed.

Lemma d_get_beyond w : d_get w (3 + Z.of_nat (length (d_fds w))) = None.
Proof. unfold d_get, slot. destruct (_ <? 3); [done|]. rewrite lookup_ge_None_2; [done|lia]. Qed.

#[export] Instance demo_streams : Streams world.
Proof.
  refine {| input := d_in; output := d_out; contents := fun _ a => fst <$> find_file a |}.
  - intros fd n w Hn. set (k := Nat.min (Z.to_nat n) (length (d_in w fd))). exists k. eexists. split; [reflexivity|]. split; [lia|]. split; [lia|].
    split; [intros Hk; destruct (d_in w fd) as [|c l] eqn:E; [by right|left; cbn [length] in k; lia]|].
    split; [intros fd'; apply d_in_advance|]. split; [|done]. intros fd'. by rewrite d_out_upd.
  - intros fd l w. eexists. split; [reflexivity|]. done.
Defined.

#[export] Instance demo_files : Files world.
Proof.
  split.
  - intros path w. cbn. destruct (find_file path) as [x|]; do 2 eexists; (split; [reflexivity|]); [|done]. split; [|done]. split; [lia|]. intros fd'. unfold d_in.
    rewrite d_get_open. by destruct (fd' =? _).
  - intros fd w _. eexists. split; [reflexivity|]. split; [|done]. intros fd'. cbn. by rewrite d_out_upd.
Qed.

Lemma find_file_bytes a x : find_file a = Some x -> byte_string x.1 /\ byte_string x.2 /\ (length x.1 <= 48)%nat.
Proof.
  unfold find_file, d_files. cbn [List.find]. intros H. do 2 (destruct (bool_decide _); [injection H as <-; split_and!; [apply (bool_decide_unpack _); vm_compute; exact I..|vm_compute; lia]|]). discriminate H.
Qed.

#[export] Instance demo_dirs : Dirs world.
Proof.
  refine {| status := fun a => snd <$> find_file a; in_use := fun w fd => bool_decide (is_Some (d_get w fd)) |}.
  - intros path st H. apply fmap_Some in H as (x & Hx & ->). exact (proj1 (proj2 (find_file_bytes _ _ Hx))).
  - intros path w fd w1 H. cbn in H. destruct (find_file path) as [x|]; injection H as <- <-; [|done]. destruct (Z.ltb_spec (3 + Z.of_nat (length (d_fds w))) 0); [lia|].
    rewrite d_get_beyond. split; [by rewrite bool_decide_false by (by intros [])|]. intros fd'. rewrite d_get_open. destruct (fd' =? _); [by rewrite bool_decide_true, orb_true_r|by rewrite orb_false_r].
  - intros path w fd w1 H Hfd. cbn in H. destruct (find_file path) as [x|] eqn:E; injection H as <- <-; [|lia]. exists x.2. eexists. split; [done|]. cbn.
    rewrite d_get_open, Z.eqb_refl. cbn. rewrite E. split; [reflexivity|]. done.
  - intros fd w Hfd. cbn. set (l := d_in w fd). exists (d_upd (advance (Nat.min 16 (length l))) fd w).
    change (Z.to_nat 16) with 16%nat. split; [f_equal; f_equal; destruct (decide (16 <= length l)%nat); [by rewrite Nat.min_l by lia|rewrite Nat.min_r by lia; by rewrite !take_ge by lia]|].
    split; [intros fd'; rewrite d_get_upd by done; apply bool_decide_ext; destruct (Z.eqb_spec fd' fd) as [->|]; [apply fmap_is_Some|done]|].
    split; [|split; [intros fd'; by rewrite d_out_upd|done]].
    intros fd'. rewrite d_in_advance. destruct (fd' =? fd); [|done]. fold l. destruct (decide (16 <= length l)%nat); [by rewrite Nat.min_l by lia|rewrite Nat.min_r by lia; by rewrite !drop_ge by lia].
  - intros fd l w r w' H. cbn in H. by injection H as <- <-.
  - intros fd w r w' H. cbn in H. injection H as <- <-. split.
    + intros fd'. rewrite d_get_upd by done. destruct (fd' =? fd); [by rewrite bool_decide_false, andb_false_r by (by intros [])|by rewrite andb_true_r].
    + intros fd' Hne. change (d_in (d_upd (fun _ => None) fd w) fd' = d_in w fd'). unfold d_in. rewrite d_get_upd by done. by destruct (Z.eqb_spec fd' fd).
Defined.

Definition w0 : world := mkWorld [] (fun _ => []).

Lemma ls_main_correct_witness : exists w', ls_main [bytes "d"; bytes "e"] w0 = Panic "exit" (exited 0 w') /\
  output w' 1 = bytes "a              2 5 4" ++ [10] ++ bytes "ls: cannot stat d/c" ++ [10] /\ output w' 2 = bytes "ls: cannot open e" ++ [10].
Proof.
  destruct (ls_main_correct [bytes "d"; bytes "e"] w0) as (w' & E & Ho).
  - apply (bool_decide_unpack _). vm_compute. exact I.
  - intros a l H. apply fmap_Some in H as (x & Hx & ->). apply find_file_bytes in Hx as (H1 & _ & H2). split; [exact H1|lia].
  - exists w'. split; [exact E|]. split; [rewrite (Ho 1); vm_compute; reflexivity|rewrite (Ho 2); vm_compute; reflexivity].
Defined.
End LsWitness.
