(* ===== verification/Init.v ===== *)
(** * user/init.c

    The program that the first process becomes: it opens the console three
    times over and starts one shell after the other. *)

From S2P Require Import Prelude Machine CString Printf Ulib Unix Uprogs ShParse ShFacts ShGrammar ShRun.

Definition console : list Z := bytes "console".
Definition CONSOLE : Z := 1.
Definition sh_argv : list (list Z) := [bytes "sh"].

Section Program.
Context {W : Type} `{Procs W}.
Context (mknod : list Z -> Z -> Z -> M W Z).

Definition init_open : M W unit :=
  fd <- open console O_RDWR ;;
  (if fd <? 0 then _ <- mknod console CONSOLE 0 ;; _ <- open console O_RDWR ;; ret tt else ret tt) ;;;
  _ <- dup 0 ;;
  _ <- dup 0 ;;
  ret tt.

(** The child that becomes the shell. *)
Definition init_child : M W unit :=
  _ <- exec (bytes "sh") sh_argv ;;
  printf (line "init: exec sh failed") [] ;;;
  exit 1.

(** One shell, from its start to its end. *)
Definition init_round : M W unit :=
  printf (line "init: starting sh") [] ;;;
  pid <- fork init_child ;;
  if pid <? 0 then printf (line "init: fork failed") [] ;;; exit 1
  else
    loop (fun _ : unit =>
      wpid <- wait 0 ;;
      if wpid =? pid then ret (inr tt)
      else if wpid <? 0 then printf (line "init: wait returned an error") [] ;;; exit 1
      else ret (inl tt)) tt.

(** The first [n] rounds of the program, which goes on for ever. *)
Fixpoint init_rounds (n : nat) : M W unit :=
  match n with
  | O => ret tt
  | S n' => init_round ;;; init_rounds n'
  end.

Definition init_main (n : nat) : M W unit := init_open ;;; init_rounds n.
End Program.

(** ** What the kernel does for the process *)

(** The calls that change something outside the process or tell it something,
    with their outcome; [Execs argv t] is the program that takes the place of
    the calling process, with its arguments and descriptors. *)
Inductive event :=
| Made (path : list Z) (major minor : Z)
| Forked (pid : Z) | Fork_failed
| Execs (argv : list (list Z)) (t : fdtable) | Exec_failed (argv : list (list Z))
| Reaped (pid : Z) | Wait_failed.

(** The descriptors, the names in the file system, the children (a process
    whose parent exits becomes a child of init) and the events so far. The
    kernel may refuse a fork, an exec or a wait. *)
Class Caring (W : Type) `{UX : Unix W} `{PR : !Procs W} (mknod : list Z -> Z -> Z -> M W Z) := {
  fds : W -> fdtable;
  exists_ : W -> list Z -> bool;
  room : W -> bool;              (* the disk has room for another file *)
  children : W -> list Z;
  history : W -> list event;
  alike w w' : Prop := fds w' = fds w /\ exists_ w' = exists_ w /\ children w' = children w /\ history w' = history w;
  children_pos : forall w, Forall (fun pid => 0 < pid) (children w);
  write_alike : forall fd l w, exists r w', write fd l w = Ret r w' /\ alike w w';
  exited_history : forall st w, history (exited st w) = history w;
  open_fd : forall path w k, lowest (fds w) k -> k < 16 ->
    if exists_ w path
    then exists w', open path O_RDWR w = Ret k w' /\ fds w' = <[k := OFile path O_RDWR]> (fds w) /\ children w' = children w /\ history w' = history w
    else exists w', open path O_RDWR w = Ret (-1) w' /\ alike w w' /\ room w' = room w;
  mknod_makes : forall path major minor w, exists r w', mknod path major minor w = Ret r w' /\
    fds w' = fds w /\ children w' = children w /\ history w' = history w ++ [Made path major minor] /\
    exists_ w' path = exists_ w path || room w;
  dup_fd : forall fd w o k, fds w !! fd = Some o -> lowest (fds w) k -> k < 16 ->
    exists w', dup fd w = Ret k w' /\ fds w' = <[k := o]> (fds w) /\ children w' = children w /\ history w' = history w;
  exec_law : forall path argv w,
    (exists w', exec path argv w = Panic "exec" w' /\ history w' = history w ++ [Execs argv (fds w)]) \/
    (exists w', exec path argv w = Ret (-1) w' /\ history w' = history w ++ [Exec_failed argv]);
  (* the child runs in [w0]; while it does, the process is given orphans *)
  fork_law : forall child w,
    (exists w', fork child w = Ret (-1) w' /\ history w' = history w ++ [Fork_failed]) \/
    (exists pid w0, 0 < pid /\ (pid ∉ children w) /\ fds w0 = fds w /\ history w0 = history w ++ [Forked pid] /\
       forall msg wc, child w0 = Panic msg wc ->
         exists w' orphans, fork child w = Ret pid w' /\ fds w' = fds w /\ history w' = history wc /\
           children w' = pid :: orphans ++ children w /\ (pid ∉ orphans) /\ Z.of_nat (length orphans) <= 64);
  wait_law : forall w, children w <> [] ->
    (exists w', wait 0 w = Ret (-1) w' /\ history w' = history w ++ [Wait_failed]) \/
    (exists pid w', wait 0 w = Ret pid w' /\ pid ∈ children w /\ children w' = filter (fun x => x <> pid) (children w) /\
       fds w' = fds w /\ history w' = history w ++ [Reaped pid])
}.

(** ** What init does *)

(** The console as input, output and error output. *)
Definition console_table : fdtable := <[2 := OFile console O_RDWR]> (<[1 := OFile console O_RDWR]> (<[0 := OFile console O_RDWR]> ∅)).

(** A shell that is started, on the console, and the orphans that exit before
    it does. *)
Definition shell_run (pid : Z) (orphans : list Z) (l : list event) : Prop :=
  (l = Forked pid :: Execs sh_argv console_table :: map Reaped orphans \/
   l = Forked pid :: Exec_failed sh_argv :: map Reaped orphans) /\ (pid ∉ orphans).

(** A round ends when that shell has been reaped; the kernel may cut it short. *)
Definition round (l : list event) : Prop := exists pid orphans l', shell_run pid orphans l' /\ l = l' ++ [Reaped pid].

Definition cut_short (l : list event) : Prop :=
  l = [Fork_failed] \/ exists pid orphans l', shell_run pid orphans l' /\ l = l' ++ [Wait_failed].

Section Facts.
Context {W : Type} `{UX : Unix W} `{PR : !Procs W} (mknod : list Z -> Z -> Z -> M W Z) `{CA : !Caring W mknod} `{ST : !Streams W}.

Lemma alike_refl w : alike w w.
Proof. done. Qed.

Lemma alike_trans w1 w2 w3 : alike w1 w2 -> alike w2 w3 -> alike w1 w3.
Proof. intros (A1 & A2 & A3 & A4) (B1 & B2 & B3 & B4). split_and!; congruence. Qed.

Lemma write_cares fd l : ShRun.keeps alike (write fd l).
Proof. intros w. destruct (write_alike fd l w) as (r & w' & E & Hs). by rewrite E. Qed.

Lemma message_alike s w : Forall (fun c => 0 <= c < 256) (line s) -> format (line s) false [] = Some (line s) ->
  exists w', printf (line s) [] w = Ret tt w' /\ alike w w'.
Proof.
  intros Hs Hf. destruct (vprintf_loop_emits 1 (line s) false [] (line s) Hs (Forall_nil_2 _) Hf w) as (w' & E & _). exists w'. split; [exact E|].
  pose proof (keeps_vprintf alike alike_refl alike_trans write_cares 1 (line s) false [] w) as Hk. by rewrite E in Hk.
Qed.

Lemma text_ok s : bool_decide (Forall (fun c => 0 <= c < 256) (line s) /\ format (line s) false [] = Some (line s)) = true ->
  Forall (fun c => 0 <= c < 256) (line s) /\ format (line s) false [] = Some (line s).
Proof. intros H. by apply bool_decide_eq_true in H. Qed.

(** A message and the end. *)
Lemma message_exit {B} s w : Forall (fun c => 0 <= c < 256) (line s) -> format (line s) false [] = Some (line s) ->
  exists w', (printf (line s) [] ;;; exit 1 : M W B) w = Panic "exit" (exited 1 w') /\ history w' = history w.
Proof.
  intros F1 F2. destruct (message_alike s w F1 F2) as (w' & E & (_ & _ & _ & H)). exists w'. split; [|done]. by rewrite (bind_Ret _ _ _ _ _ E).
Qed.

Lemma init_child_run w : fds w = console_table -> exists msg wc, init_child w = Panic msg wc /\
  (history wc = history w ++ [Execs sh_argv console_table] \/ history wc = history w ++ [Exec_failed sh_argv]).
Proof.
  intros Ht. unfold init_child. destruct (exec_law (bytes "sh") sh_argv w) as [(w1 & E & H)|(w1 & E & H)].
  - exists "exec", w1. split; [unfold bind; by rewrite E|]. left. by rewrite H, Ht.
  - rewrite (bind_Ret _ _ _ _ _ E). destruct (text_ok "init: exec sh failed" eq_refl) as [F1 F2].
    destruct (message_exit (B := unit) "init: exec sh failed" w1 F1 F2) as (w2 & E2 & H2). do 2 eexists. split; [exact E2|]. right.
    by rewrite exited_history, H2, H.
Qed.

(** The wait for one child reaps others on the way, and ends with it, unless
    the kernel refuses. *)
Definition waited (pid : Z) (w : W) (o : outcome W unit) : Prop := exists orphans w', (pid ∉ orphans) /\
  ((o = Ret tt w' /\ history w' = history w ++ map Reaped orphans ++ [Reaped pid] /\ fds w' = fds w /\ (length (children w') <= length (children w))%nat) \/
   (o = Panic "exit" (exited 1 w') /\ history w' = history w ++ map Reaped orphans ++ [Wait_failed])).

Lemma init_wait_run pid w : pid ∈ children w -> Z.of_nat (length (children w)) < 2 ^ 64 ->
  waited pid w (loop (fun _ : unit =>
      wpid <- wait 0 ;;
      if wpid =? pid then ret (inr tt)
      else if wpid <? 0 then printf (line "init: wait returned an error") [] ;;; exit 1
      else ret (inl tt)) tt w).
Proof.
  intros Hin Hlen.
  apply (loop_measure _ (fun _ w3 => pid ∈ children w3 /\ (length (children w3) <= length (children w))%nat /\ fds w3 = fds w /\
      exists orphans, (pid ∉ orphans) /\ history w3 = history w ++ map Reaped orphans) (fun _ w3 => length (children w3))); [| |done].
  2:{ split; [done|]. split; [done|]. split; [done|]. exists []. split; [apply not_elem_of_nil|]. by rewrite app_nil_r. }
  intros [] w3 (Hin3 & Hle & F3 & orphans & Hno & H3).
  pose proof (proj1 (Forall_forall _ _) (children_pos w3) pid Hin3) as Hpp. cbn beta in Hpp.
  destruct (wait_law w3) as [(w4 & E4 & H4)|(r & w4 & E4 & Hr & C4 & F4 & H4)]; [by intros Hn; rewrite Hn in Hin3; apply elem_of_nil in Hin3| |];
    rewrite (bind_Ret _ _ _ _ _ E4).
  - right; right. destruct (Z.eqb_spec (-1) pid); [lia|]. change (-1 <? 0) with true. cbv iota.
    destruct (text_ok "init: wait returned an error" eq_refl) as [F1 F2].
    destruct (message_exit (B := unit + unit) "init: wait returned an error" w4 F1 F2) as (w5 & E5 & H5).
    exists "exit", (exited 1 w5). split; [exact E5|]. exists orphans, w5. split; [done|]. right. split; [done|]. by rewrite H5, H4, H3, app_assoc.
  - pose proof (proj1 (Forall_forall _ _) (children_pos w3) r Hr) as Hrp. cbn beta in Hrp.
    assert (Hlt : (length (children w4) < length (children w3))%nat) by (rewrite C4; apply length_filter_lt with r; auto).
    destruct (Z.eqb_spec r pid) as [->|Hne].
    + right; left. exists tt, w4. split; [done|]. exists orphans, w4. split; [done|]. left. split; [done|]. split; [by rewrite H4, H3, app_assoc|]. split; [congruence|lia].
    + left. destruct (Z.ltb_spec r 0); [lia|]. exists tt, w4. split; [done|]. split; [|done].
      split; [rewrite C4; apply list_elem_of_filter; split; [by apply not_eq_sym|done]|]. split; [lia|]. split; [congruence|].
      exists (orphans ++ [r]). split; [intros [?|Hx%list_elem_of_singleton]%elem_of_app; [done|congruence]|]. by rewrite H4, H3, map_app, app_assoc.
Qed.

(** One round. *)
Definition rounded (w : W) (o : outcome W unit) : Prop :=
  (exists w' l, o = Ret tt w' /\ round l /\ history w' = history w ++ l /\ fds w' = console_table /\
     (length (children w') <= length (children w) + 65)%nat) \/
  (exists w' l, o = Panic "exit" (exited 1 w') /\ cut_short l /\ history w' = history w ++ l).

Lemma init_round_run w : fds w = console_table -> Z.of_nat (length (children w)) + 65 < 2 ^ 64 -> rounded w (init_round w).
Proof.
  intros Ht Hlen. unfold init_round. destruct (text_ok "init: starting sh" eq_refl) as [F1 F2].
  destruct (message_alike "init: starting sh" w F1 F2) as (w1 & E1 & (T1 & _ & C1 & H1)). rewrite (bind_Ret _ _ _ _ _ E1). clear F1 F2 E1.
  destruct (fork_law init_child w1) as [(w2 & E2 & H2)|(pid & w0 & Hpid & Hno & T0 & H0 & Hf)].
  { rewrite (bind_Ret _ _ _ _ _ E2). change (-1 <? 0) with true. cbv iota. destruct (text_ok "init: fork failed" eq_refl) as [F1 F2].
    destruct (message_exit (B := unit) "init: fork failed" w2 F1 F2) as (w3 & E3 & H3). right. exists w3, [Fork_failed].
    split; [exact E3|]. split; [by left|]. by rewrite H3, H2, H1. }
  destruct (init_child_run w0) as (msg & wc & Ec & Hc); [congruence|].
  destruct (Hf msg wc Ec) as (w2 & orphans & E2 & T2 & H2 & C2 & Hnin & Hlo). rewrite (bind_Ret _ _ _ _ _ E2). destruct (Z.ltb_spec pid 0); [lia|].
  assert (Hl : (length (children w2) <= length (children w) + 65)%nat) by (rewrite C2; cbn; rewrite length_app, C1; lia).
  destruct (init_wait_run pid w2) as (os & w' & Hnos & Hres); [rewrite C2; apply elem_of_cons; by left|lia|].
  assert (Hrun : exists l', shell_run pid os l' /\ history w2 ++ map Reaped os = history w ++ l').
  { rewrite H2, <- H1. unfold shell_run. destruct Hc as [Hc|Hc]; rewrite Hc, H0, <- !app_assoc; eexists; (split; [split; [|exact Hnos]|reflexivity]); [by left|by right]. }
  destruct Hrun as (l' & Hs & El). destruct Hres as [(E' & H' & T' & L')|(E' & H')].
  - left. exists w', (l' ++ [Reaped pid]). split; [exact E'|]. split; [by exists pid, os, l'|]. split; [by rewrite H', !app_assoc, El|]. split; [congruence|lia].
  - right. exists w', (l' ++ [Wait_failed]). split; [exact E'|]. split; [right; by exists pid, os, l'|]. by rewrite H', !app_assoc, El.
Qed.

(** [n] rounds, or as many as the kernel allows. *)
Definition rounds_done (n : nat) (h : list event) (o : outcome W unit) : Prop := exists rs, Forall round rs /\
  ((exists w', o = Ret tt w' /\ length rs = n /\ history w' = h ++ concat rs /\ fds w' = console_table) \/
   (exists w' last, o = Panic "exit" (exited 1 w') /\ (length rs < n)%nat /\ cut_short last /\ history w' = h ++ concat rs ++ last)).

Lemma init_rounds_run n : forall w, fds w = console_table -> Z.of_nat (length (children w)) + 65 * Z.of_nat n < 2 ^ 64 ->
  rounds_done n (history w) (init_rounds n w).
Proof.
  induction n as [|n IH]; intros w Ht Hlen.
  - exists []. split; [done|]. left. exists w. split; [done|]. split; [done|]. by rewrite app_nil_r.
  - cbn [init_rounds]. unfold bind.
    destruct (init_round_run w Ht ltac:(lia)) as [(w1 & l & E1 & Hr & H1 & T1 & L1)|(w1 & l & E1 & Hc & H1)]; rewrite E1; cbn [bindO].
    + destruct (IH w1 T1 ltac:(lia)) as (rs & Hrs & Hres). exists (l :: rs). split; [by apply Forall_cons|]. rewrite H1 in Hres. cbn [length concat].
      destruct Hres as [(w' & E' & Hn & H' & T')|(w' & lst & E' & Hn & Hc' & H')]; [left|right].
      * exists w'. split; [done|]. split; [lia|]. split; [by rewrite H', app_assoc|done].
      * exists w', lst. split; [done|]. split; [lia|]. split; [done|]. by rewrite H', !app_assoc.
    + exists []. split; [done|]. right. exists w1, l. split; [done|]. split; [cbn; lia|]. split; [done|]. exact H1.
Qed.

(** The console as the three descriptors of a process that has none. *)
Lemma init_dups w : fds w = <[0 := OFile console O_RDWR]> ∅ ->
  exists w', (_ <- dup 0 ;; _ <- dup 0 ;; ret tt) w = Ret tt w' /\ fds w' = console_table /\ children w' = children w /\ history w' = history w.
Proof.
  intros T0. destruct (dup_fd 0 w (OFile console O_RDWR) 1) as (w1 & E1 & T1 & C1 & H1); [by rewrite T0| |lia|].
  { rewrite T0. split; [lia|]. split; [done|]. intros j Hj. replace j with 0 by lia. by eexists. }
  rewrite (bind_Ret _ _ _ _ _ E1).
  destruct (dup_fd 0 w1 (OFile console O_RDWR) 2) as (w2 & E2 & T2 & C2 & H2); [by rewrite T1, T0| |lia|].
  { rewrite T1, T0. split; [lia|]. split; [done|]. intros j Hj. assert (j = 0 \/ j = 1) as [-> | ->] by lia; by eexists. }
  rewrite (bind_Ret _ _ _ _ _ E2). exists w2. split; [done|]. split; [by rewrite T2, T1, T0|]. split; congruence.
Qed.

Definition made (w : W) : list event := if exists_ w console then [] else [Made console CONSOLE 0].

Lemma init_open_run w : fds w = ∅ -> exists_ w console || room w = true ->
  exists w', init_open mknod w = Ret tt w' /\ fds w' = console_table /\ children w' = children w /\ history w' = history w ++ made w.
Proof.
  intros Ht Hr. unfold init_open, made.
  assert (L0 : lowest ∅ 0) by (split; [lia|]; split; [apply lookup_empty|lia]).
  pose proof (open_fd console w 0 ltac:(by rewrite Ht) ltac:(lia)) as Ho. destruct (exists_ w console) eqn:Ex.
  - destruct Ho as (w0 & E0 & T0 & C0 & H0). rewrite (bind_Ret _ _ _ _ _ E0). change (0 <? 0) with false. cbv iota. rewrite (bind_Ret _ _ _ tt w0 eq_refl).
    destruct (init_dups w0) as (w' & E & T & C & H); [by rewrite T0, Ht|]. exists w'. rewrite app_nil_r. split; [exact E|]. split; [done|]. split; congruence.
  - destruct Ho as (w0 & E0 & (T0 & X0 & C0 & H0) & R0). rewrite (bind_Ret _ _ _ _ _ E0). change (-1 <? 0) with true. cbv iota.
    destruct (mknod_makes console CONSOLE 0 w0) as (r & w1 & E1 & T1 & C1 & H1 & X1).
    pose proof (open_fd console w1 0 ltac:(by rewrite T1, T0, Ht) ltac:(lia)) as Ho. rewrite X1, X0, Ex, R0 in Ho. cbn [orb] in Hr, Ho. rewrite Hr in Ho.
    destruct Ho as (w2 & E2 & T2 & C2 & H2). rewrite (bind_Ret (_ <- mknod console CONSOLE 0 ;; _) _ w0 tt w2)
      by (rewrite (bind_Ret _ _ _ _ _ E1), (bind_Ret _ _ _ _ _ E2); done).
    destruct (init_dups w2) as (w' & E & T & C & H); [by rewrite T2, T1, T0, Ht|]. exists w'. split; [exact E|]. split; [done|]. split; [congruence|].
    by rewrite H, H2, H1, H0.
Qed.

End Facts.

(** ** A world without a console file, in which every fork also leaves the
    process with an orphan that exits first *)
Module InitWitness.
Record world := mkWorld {
  i_fds : fdtable;
  i_names : list (list Z);
  i_kids : list positive;
  i_hist : list event;
  i_out : Z -> list Z
}.

Definition upd_hist (e : event) (w : world) : world := mkWorld (i_fds w) (i_names w) (i_kids w) (i_hist w ++ [e]) (i_out w).
Definition upd_fds (t : fdtable) (w : world) : world := mkWorld t (i_names w) (i_kids w) (i_hist w) (i_out w).

(** The lowest free descriptor. *)
Definition free_fd (t : fdtable) : option Z := find (fun k => bool_decide (t !! k = None)) (map Z.of_nat (seq 0 16)).

#[global] Arguments free_fd : simpl never.

Lemma free_fd_lowest t k : lowest t k -> k < 16 -> free_fd t = Some k.
Proof.
  intros (Hk & Hn & Hl) Hlt. unfold free_fd. replace 16%nat with (Z.to_nat k + S (15 - Z.to_nat k))%nat by lia.
  rewrite seq_app, map_app. cbn [seq map]. rewrite Nat.add_0_l, Z2Nat.id by lia.
  assert (Hpre : forall l, Forall (fun j => (j < Z.to_nat k)%nat) l ->
    forall l2, find (fun k => bool_decide (t !! k = None)) (map Z.of_nat l ++ k :: l2) = Some k).
  { induction l as [|j l IH]; intros HF l2; cbn [map app find]; [by rewrite bool_decide_true|].
    apply Forall_cons in HF as [Hj HF]. rewrite bool_decide_false; [by apply IH|]. destruct (Hl (Z.of_nat j)) as [x ->]; [lia|done]. }
  apply Hpre. apply Forall_forall. intros j Hj%elem_of_seq. lia.
Qed.

#[export] Instance init_unix : Unix world := {|
  read := fun _ _ => ret (0, []);
  write := fun fd l w => Ret (Z.of_nat (length l)) (mkWorld (i_fds w) (i_names w) (i_kids w) (i_hist w) (fun fd' => if fd' =? fd then i_out w fd ++ l else i_out w fd'));
  open := fun path mode w =>
    if bool_decide (path ∈ i_names w)
    then match free_fd (i_fds w) with Some k => Ret k (upd_fds (<[k := OFile path mode]> (i_fds w)) w) | None => Ret (-1) w end
    else Ret (-1) w;
  close := fun _ => ret 0;
  fstat := fun _ => ret (-1, []);
  exited := fun _ w => w
|}.

#[export] Instance init_streams : Streams world.
Proof.
  refine {| input := fun _ _ => []; output := i_out; contents := fun _ _ => None |}.
  - intros fd n w Hn. exists 0%nat, w. split; [done|]. split; [lia|]. split; [done|]. split; [by right|]. split; [|done]. intros fd'. by destruct (fd' =? fd).
  - intros fd l w. eexists. split; [reflexivity|]. done.
Defined.

Definition fresh (k : list positive) : positive := Pos.succ (foldr Pos.max 1%positive k).

#[export] Instance init_procs : Procs world := {|
  fork := fun child w =>
    let orphan := fresh (i_kids w) in
    let pid := Pos.succ orphan in
    match child (upd_hist (Forked (Z.pos pid)) w) with
    | Panic _ wc | Ret _ wc => Ret (Z.pos pid) (mkWorld (i_fds w) (i_names wc) (pid :: orphan :: i_kids w) (i_hist wc) (i_out wc))
    | Swtch _ _ | Fuel _ => Fuel w
    end;
  wait := fun _ w =>
    match last (i_kids w) with
    | Some p => Ret (Z.pos p) (mkWorld (i_fds w) (i_names w) (filter (fun x => x <> p) (i_kids w)) (i_hist w ++ [Reaped (Z.pos p)]) (i_out w))
    | None => Ret (-1) (upd_hist Wait_failed w)
    end;
  exec := fun _ argv w => Panic "exec" (upd_hist (Execs argv (i_fds w)) w);
  pipe := ret (-1, 0, 0);
  dup := fun fd w =>
    match i_fds w !! fd, free_fd (i_fds w) with
    | Some o, Some k => Ret k (upd_fds (<[k := o]> (i_fds w)) w)
    | _, _ => Ret (-1) w
    end;
  chdir := fun _ => ret (-1)
|}.

Definition mknod (path : list Z) (major minor : Z) : M world Z := fun w =>
  Ret 0 (mkWorld (i_fds w) (path :: i_names w) (i_kids w) (i_hist w ++ [Made path major minor]) (i_out w)).

Lemma fresh_gt k p : p ∈ k -> (p < fresh k)%positive.
Proof.
  unfold fresh. induction k as [|q k IH]; intros Hp; [by apply elem_of_nil in Hp|]. cbn [foldr].
  apply elem_of_cons in Hp as [->|Hp]; [lia|]. specialize (IH Hp). lia.
Qed.

Lemma reap_map p k : map Z.pos (filter (fun x => x <> p) k) = filter (fun x => x <> Z.pos p) (map Z.pos k).
Proof.
  induction k as [|q k IH]; [done|]. cbn [map]. destruct (decide (q = p)) as [->|Hne].
  - rewrite !filter_cons_False by auto. exact IH.
  - rewrite !filter_cons_True by congruence. cbn [map]. by rewrite IH.
Qed.

#[export] Program Instance init_caring : Caring world mknod := {|
  fds := i_fds;
  exists_ w path := bool_decide (path ∈ i_names w);
  room _ := true;
  children w := map Z.pos (i_kids w);
  history := i_hist
|}.
Next Obligation. intros w. apply Forall_forall. intros x Hx. by apply list_elem_of_fmap in Hx as (p & -> & _). Qed.
Next Obligation. intros fd l w. do 2 eexists. split; [reflexivity|done]. Qed.
Next Obligation. done. Qed.
Next Obligation.
  intros path w k Hl Hk. cbn. rewrite (free_fd_lowest _ _ Hl Hk). destruct (bool_decide _); eexists; (split; [reflexivity|done]).
Qed.
Next Obligation.
  intros path major minor w. do 2 eexists. split; [reflexivity|]. split; [done|]. split; [done|]. split; [done|]. cbn.
  rewrite orb_true_r. apply bool_decide_true, elem_of_cons. by left.
Qed.
Next Obligation. intros fd w o k Ho Hl Hk. cbn. rewrite Ho, (free_fd_lowest _ _ Hl Hk). eexists. split; [reflexivity|done]. Qed.
Next Obligation. intros path argv w. left. eexists. split; [reflexivity|done]. Qed.
Next Obligation.
  intros child w. right. exists (Z.pos (Pos.succ (fresh (i_kids w)))), (upd_hist (Forked (Z.pos (Pos.succ (fresh (i_kids w))))) w).
  split; [lia|]. split; [intros (p & Hx & Hp)%list_elem_of_fmap; apply fresh_gt in Hp; lia|]. split; [done|]. split; [done|].
  intros msg wc E. eexists. exists [Z.pos (fresh (i_kids w))]. split; [cbn; by rewrite E|]. split; [done|]. split; [done|]. split; [done|].
  split; [intros Hx%list_elem_of_singleton; lia|cbn; lia].
Qed.
Next Obligation.
  intros w Hne. right. cbn. destruct (last (i_kids w)) as [p|] eqn:E; [|apply last_None in E; destruct Hne; cbn; by rewrite E].
  exists (Z.pos p). eexists. split; [reflexivity|]. split; [|split; [apply reap_map|done]].
  apply list_elem_of_fmap. exists p. split; [done|]. apply last_Some in E as (l' & ->). apply elem_of_app. right. by apply list_elem_of_singleton.
Qed.

End InitWitness.
