(* ===== verification/Utools.v ===== *)
(** * The small tools: user/rm.c, mkdir.c, ln.c, kill.c, sleep.c, free.c, time.c, ps.c and pstree.c

    The system calls that only these programs use are parameters. What each
    writes is shown; for pstree that it is the tree of the processes. *)

From S2P Require Import Prelude Machine CString Printf Ulib Unix Uprogs ShParse ShFacts ShGrammar ShRun.

(** [atoi] of the text of an argument. *)
Fixpoint atoi_from (n : Z) (l : list Z) : Z :=
  match l with
  | c :: l => if (48 <=? c) && (c <=? 57) then atoi_from (i32 (n * 10 + c - 48)) l else n
  | [] => n
  end.

Definition atoi_text (l : list Z) : Z := atoi_from 0 l.

(** struct pstat; [p_name] has the bytes before the NUL. *)
Record pstat := mkPstat { p_pid : Z; p_state : Z; p_size : Z; p_ppid : Z; p_name : list Z; p_cputime : Z }.

(** The array [states] of ps.c, null where it has no initialiser. *)
Definition states (st : Z) : option (list Z) :=
  if st =? 2 then Some (bytes "sleeping")
  else if st =? 3 then Some (bytes "runnable")
  else if st =? 4 then Some (bytes "running ")
  else if st =? 5 then Some (bytes "zombie  ")
  else None.

Definition TAB : list Z := [9].

Section Programs.
Context {W : Type} `{PR : Procs W}.
Context (unlink mkdir : list Z -> M W Z) (link : list Z -> list Z -> M W Z) (kill sleep : Z -> M W Z).
Context (uptime freepmem : M W Z) (getprocs : M W (Z * list pstat)).
Context (wait2 : Z -> M W (option Z)).   (* the cputime that it stores, if it finds a child *)

(** The loop of rm and mkdir, which ends at the first failure. *)
Fixpoint until_fail (f : list Z -> M W Z) (msg : list Z) (args : list (list Z)) : M W unit :=
  match args with
  | [] => ret tt
  | a :: args =>
      r <- f a ;;
      if r <? 0 then fprintf 2 msg [AStr (Some a)] else until_fail f msg args
  end.

Definition rm_main (args : list (list Z)) : M W unit :=
  match args with
  | [] => fprintf 2 (line "Usage: rm files...") [] ;;; exit 1
  | _ => until_fail unlink (line "rm: %s failed to delete") args ;;; exit 0
  end.

Definition mkdir_main (args : list (list Z)) : M W unit :=
  match args with
  | [] => fprintf 2 (line "Usage: mkdir files...") [] ;;; exit 1
  | _ => until_fail mkdir (line "mkdir: %s failed to create") args ;;; exit 0
  end.

Definition ln_main (args : list (list Z)) : M W unit :=
  match args with
  | [a; b] =>
      r <- link a b ;;
      (if r <? 0 then fprintf 2 (line "link %s %s: failed") [AStr (Some a); AStr (Some b)] else ret tt) ;;;
      exit 0
  | _ => fprintf 2 (line "Usage: ln old new") [] ;;; exit 1
  end.

Definition kill_main (args : list (list Z)) : M W unit :=
  match args with
  | [] => fprintf 2 (line "usage: kill pid...") [] ;;; exit 1
  | _ => for_all args (fun a => _ <- kill (atoi_text a) ;; ret tt) ;;; exit 0
  end.

Definition sleep_main (args : list (list Z)) : M W unit :=
  match args with
  | [a] => _ <- sleep (atoi_text a) ;; exit 0
  | _ => fprintf 2 (line "usage: sleep ticks") [] ;;; exit 1
  end.

Definition free_main (args : list (list Z)) : M W unit :=
  let divisor := match args with
                 | [a] => let c := nth 1 a 0 in if c =? 107 then 1024 else if c =? 109 then 1024 * 1024 else 1
                 | _ => 1
                 end in
  n <- freepmem ;;
  printf (line "%l") [APtr (u64 n / divisor)] ;;;
  exit 0.

(** What time does after the fork, also in a child whose [exec] has failed. A
    division by zero has all bits set. *)
Definition time_report (start : Z) : M W unit :=
  ru <- wait2 0 ;;
  let cputime := match ru with Some c => c | None => 0 end in
  now <- uptime ;;
  let elapsed := i32 (now - start) in
  let cpu := if elapsed =? 0 then 2 ^ 64 - 1 else u64 (cputime * 100) / u64 elapsed in
  printf (line "elapsed time: %d ticks, cpu time: %d ticks, %d CPU") [AInt elapsed; AInt (i32 cputime); AInt (i32 cpu)] ;;;
  exit 0.

(** [newargv] has MAXARGS = 16 elements. *)
Definition time_main (args : list (list Z)) : M W unit :=
  match args with
  | [] => printf (line "Usage: time <comm> [args...]") [] ;;; exit (-1)
  | a :: _ =>
      if 16 <=? Z.of_nat (length args) then fun w => Panic "newargv" w
      else
        start <- uptime ;;
        _ <- fork (_ <- exec a args ;; time_report start) ;;
        time_report start
  end.

Definition ps_line (p : pstat) : M W unit :=
  printf (bytes "%d" ++ TAB ++ bytes "%s" ++ TAB ++ bytes "%l" ++ TAB ++ bytes "%d" ++ TAB ++ bytes "%s" ++ TAB ++ line "%d")
    [AInt (p_pid p); AStr (states (p_state p)); APtr (p_size p); AInt (p_ppid p); AStr (Some (p_name p)); AInt (i32 (p_cputime p))].

Definition ps_header : list Z :=
  bytes "pid" ++ TAB ++ bytes "state" ++ TAB ++ TAB ++ bytes "size" ++ TAB ++ bytes "ppid" ++ TAB ++ bytes "name" ++ TAB ++ line "cputime".

Definition ps_main : M W unit :=
  '(n, uproc) <- getprocs ;;
  if n <? 0 then exit (-1)
  else
    printf ps_header [] ;;;
    for_all uproc ps_line ;;;
    exit 0.

(** The recursion of [mktree], at most [fuel] deep; [uproc] is the global
    array, [nprocs] elements of it. *)
Fixpoint mktree (uproc : list pstat) (fuel indent : nat) (pid : Z) : M W unit :=
  match fuel with
  | O => fun w => Fuel w
  | S fuel =>
      match List.find (fun p => p_pid p =? pid) uproc with
      | None => printf (line "pid %d not found") [AInt pid]
      | Some p =>
          for_all (replicate indent tt) (fun _ => printf [32; 32] []) ;;;
          printf (line "%s(%d)") [AStr (Some (p_name p)); AInt (p_pid p)] ;;;
          for_all uproc (fun q => if p_ppid q =? pid then mktree uproc fuel (S indent) (p_pid q) else ret tt)
      end
  end.

Definition target (args : list (list Z)) : Z := match args with [a] => atoi_text a | _ => 1 end.

(** No chain of NPROC = 64 processes is longer than 65. *)
Definition pstree_main (args : list (list Z)) : M W unit :=
  '(n, uproc) <- getprocs ;;
  if n <? 0 then exit (-1)
  else
    mktree uproc 65 0 (target args) ;;;
    exit 0.
End Programs.

(** [atoi_text] is what ulib.c's [atoi] computes from the bytes in memory. *)
Lemma atoi_text_correct m a l : string_at m a l -> Z.of_nat (length l) < 2 ^ 63 -> atoi a m = Ret (atoi_text l) m.
Proof.
  intros Ha Hl. unfold atoi, atoi_text. match goal with |- loop ?b _ _ = _ => set (body := b) end.
  assert (H : forall n, exists k, (k <= S (length l))%nat /\ runs body k (a, n) m (Ret (atoi_from n l) m)).
  { clear Hl. revert a Ha. induction l as [|c l IH]; intros a Ha n.
    - apply string_at_nil in Ha. exists 1%nat. split; [done|]. apply runs_done. unfold body. mem_step. by rewrite Ha.
    - apply string_at_cons in Ha as (E & Hc0 & Ha). cbn [atoi_from]. destruct ((48 <=? c) && (c <=? 57)) eqn:Ed.
      + destruct (IH (a + 1) Ha (i32 (n * 10 + c - 48))) as (k & Hk & Hr). exists (S k). split; [cbn; lia|].
        eapply runs_step; [|exact Hr]. unfold body. mem_step. by rewrite E, Ed.
      + exists 1%nat. split; [cbn; lia|]. apply runs_done. unfold body. mem_step. by rewrite E, Ed. }
  destruct (H 0) as (k & Hk & Hr). apply (loop_runs _ k); [done|lia].
Qed.

(** ** What is written *)

(** A process with its children. *)
#[warnings="-register-all"]
Inductive tree := Node (p : pstat) (ts : list tree).

(** [shape ps pid t]: [t] is the tree of the processes that descend from [pid],
    the children of each in the order of the table. *)
#[warnings="-register-all"]
Inductive shape (ps : list pstat) (pid : Z) : tree -> Prop :=
| shape_node p ts :
    List.find (fun p => p_pid p =? pid) ps = Some p ->
    Forall2 (fun q t => shape ps (p_pid q) t) (filter (fun q => p_ppid q = pid) ps) ts ->
    shape ps pid (Node p ts).

(** A line for each process, two blanks further in for each generation. *)
Fixpoint tree_text (indent : nat) (t : tree) : list Z :=
  match t with
  | Node p ts =>
      concat (replicate indent [32; 32]) ++ p_name p ++ [40] ++ render 10 (p_pid p) ++ [41; 10] ++ concat (map (tree_text (S indent)) ts)
  end.

(** What the kernel reports: a parent is older than its children. *)
Definition pstat_ok (p : pstat) : Prop :=
  p_ppid p < p_pid p /\ 0 <= p_pid p < 2 ^ 31 /\ byte_string (p_name p).

Definition younger (ps : list pstat) (pid : Z) : nat := length (filter (fun q => pid < p_pid q) ps).

Lemma filter_le {A} (P Q : A -> Prop) `{!forall x, Decision (P x), !forall x, Decision (Q x)} l :
  (forall y, P y -> Q y) -> (length (filter P l) <= length (filter Q l))%nat.
Proof.
  intros HPQ. induction l as [|y l IH]; [done|]. destruct (decide (P y)).
  - rewrite !filter_cons_True by auto. cbn. lia.
  - rewrite filter_cons_False by done. rewrite filter_cons. destruct (decide (Q y)); cbn; lia.
Qed.

Lemma younger_child ps q : q ∈ ps -> p_ppid q < p_pid q -> (younger ps (p_pid q) < younger ps (p_ppid q))%nat.
Proof.
  unfold younger. intros (l1 & l2 & ->)%list_elem_of_split Hlt. rewrite !filter_app, !length_app.
  rewrite (filter_cons_False _ q), (filter_cons_True _ q) by lia. cbn [length].
  pose proof (filter_le (fun x => p_pid q < p_pid x) (fun x => p_ppid q < p_pid x) l1 ltac:(cbn; lia)).
  pose proof (filter_le (fun x => p_pid q < p_pid x) (fun x => p_ppid q < p_pid x) l2 ltac:(cbn; lia)). lia.
Qed.

Lemma find_row ps q : q ∈ ps -> exists p, List.find (fun p => p_pid p =? p_pid q) ps = Some p.
Proof.
  intros Hq. destruct (List.find _ ps) eqn:E; [eauto|]. apply list_elem_of_In in Hq. pose proof (find_none _ _ E q Hq) as Hn. cbn in Hn. lia.
Qed.

Section Facts.
Context {W : Type} `{UX : Unix W} `{ST : !Streams W} `{PR : !Procs W}.

Lemma tree_line_emits p : pstat_ok p ->
  emits (W := W) 1 (p_name p ++ [40] ++ render 10 (p_pid p) ++ [41; 10]) (printf (line "%s(%d)") [AStr (Some (p_name p)); AInt (p_pid p)]).
Proof.
  intros (_ & Hp & Hn). apply vprintf_loop_emits.
  - repeat (apply Forall_cons; split; [vm_compute; intuition congruence|]). apply Forall_nil_2.
  - repeat (apply Forall_cons; split; [cbn; lia || done|]). apply Forall_nil_2.
  - reflexivity.
Qed.

Lemma indent_emits n : emits (W := W) 1 (concat (replicate n [32; 32])) (for_all (replicate n tt) (fun _ => printf [32; 32] [])).
Proof.
  induction n as [|n IH]; [apply emits_ret|]. cbn [replicate for_all concat]. apply emits_bind; [|exact IH].
  apply vprintf_loop_emits; [|apply Forall_nil_2|reflexivity]. repeat (apply Forall_cons; split; [lia|]). apply Forall_nil_2.
Qed.

(** The loop over the children, given what [mktree] writes for each. *)
Lemma children_emits ps fuel indent pid l :
  (forall q, q ∈ l -> p_ppid q = pid -> exists t, shape ps (p_pid q) t /\ emits (W := W) 1 (tree_text indent t) (mktree ps fuel indent (p_pid q))) ->
  exists ts, Forall2 (fun q t => shape ps (p_pid q) t) (filter (fun q => p_ppid q = pid) l) ts /\
    emits (W := W) 1 (concat (map (tree_text indent) ts)) (for_all l (fun q => if p_ppid q =? pid then mktree ps fuel indent (p_pid q) else ret tt)).
Proof.
  induction l as [|q l IH]; intros H; [exists []; split; [done|apply emits_ret]|].
  destruct IH as (ts & Hts & He); [intros q' Hq'; apply H; by apply elem_of_cons; right|]. cbn [for_all].
  destruct (Z.eqb_spec (p_ppid q) pid) as [Eq|Ne].
  - destruct (H q) as (t & Ht & Et); [apply elem_of_cons; by left|done|]. exists (t :: ts). rewrite filter_cons_True by done.
    split; [by apply Forall2_cons|]. cbn [map concat]. by apply emits_bind.
  - exists ts. rewrite filter_cons_False by done. split; [done|]. by apply (emits_bind 1 []); [apply emits_ret|].
Qed.

Lemma mktree_emits ps fuel : Forall pstat_ok ps -> forall indent pid p,
  List.find (fun p => p_pid p =? pid) ps = Some p -> (younger ps pid < fuel)%nat ->
  exists t, shape ps pid t /\ emits (W := W) 1 (tree_text indent t) (mktree ps fuel indent pid).
Proof.
  intros Hps. induction fuel as [|fuel IH]; intros indent pid p Hf Hy; [lia|]. cbn [mktree]. rewrite Hf.
  destruct (children_emits ps fuel (S indent) pid ps) as (ts & Hts & He).
  { intros q Hq Eq. destruct (find_row ps q Hq) as (p' & Hf'). apply (IH _ _ p' Hf').
    pose proof (younger_child ps q Hq (proj1 (proj1 (Forall_forall _ _) Hps q Hq))). subst pid. lia. }
  exists (Node p ts). split; [by apply shape_node|]. cbn [tree_text]. apply emits_bind; [apply indent_emits|].
  apply find_some in Hf as [Hin%list_elem_of_In _]. pose proof (tree_line_emits p (proj1 (Forall_forall _ _) Hps p Hin)) as Hl.
  pose proof (emits_bind 1 _ _ _ _ Hl He) as Hb. by rewrite <- !app_assoc in Hb.
Qed.

(** C23: pstree writes the tree of the descendants of the process it is asked
    for (1 without an argument): a line for each, indented by its generation,
    the children of each process below it and in the order of the table; it
    terminates, because a parent's pid is smaller than its child's. A process
    that is not in the table is reported as not found. *)
Theorem pstree_main_correct getprocs args ps (w w1 : W) :
  getprocs w = Ret (Z.of_nat (length ps), ps) w1 -> (forall fd, output w1 fd = output w fd) ->
  (length ps <= 64)%nat -> Forall pstat_ok ps -> - 2 ^ 31 <= target args < 2 ^ 31 ->
  exists w' text, pstree_main getprocs args w = Panic "exit" (exited 0 w') /\
    (forall fd, output w' fd = if fd =? 1 then output w fd ++ text else output w fd) /\
    match List.find (fun p => p_pid p =? target args) ps with
    | Some _ => exists t, shape ps (target args) t /\ text = tree_text 0 t
    | None => text = bytes "pid " ++ render 10 (target args) ++ line " not found"
    end.
Proof.
  intros Eg Ho Hlen Hps Ht. unfold pstree_main. rewrite (bind_Ret _ _ _ _ _ Eg). destruct (Z.ltb_spec (Z.of_nat (length ps)) 0); [lia|].
  assert (Hm : exists text, emits (W := W) 1 text (mktree ps 65 0 (target args)) /\
    match List.find (fun p => p_pid p =? target args) ps with
    | Some _ => exists t, shape ps (target args) t /\ text = tree_text 0 t
    | None => text = bytes "pid " ++ render 10 (target args) ++ line " not found"
    end).
  { destruct (List.find (fun p => p_pid p =? target args) ps) as [p|] eqn:Ef.
    - destruct (mktree_emits ps 65 Hps 0 (target args) p Ef) as (t & Hs & He); [|eauto].
      unfold younger. pose proof (length_filter (fun q => target args < p_pid q) ps). lia.
    - eexists. split; [|reflexivity]. cbn [mktree]. rewrite Ef. apply vprintf_loop_emits.
      + repeat (apply Forall_cons; split; [vm_compute; intuition congruence|]). apply Forall_nil_2.
      + apply Forall_singleton. cbn. lia.
      + reflexivity. }
  destruct Hm as (text & He & Hcase). destruct (He w1) as (w' & Er & _ & Hout & _). exists w', text.
  rewrite (bind_Ret _ _ _ _ _ Er). split; [done|]. split; [|exact Hcase].
  intros fd. rewrite Hout, !Ho. destruct (Z.eqb_spec fd 1) as [->|]; done.
Qed.

(** *** ps *)

Definition ps_text (p : pstat) : list Z :=
  render 10 (p_pid p) ++ TAB ++ default null_str (states (p_state p)) ++ TAB ++ rev (map upper (numeral_le 32 10 (u32 (p_size p)))) ++ TAB ++
  render 10 (p_ppid p) ++ TAB ++ p_name p ++ TAB ++ render 10 (i32 (p_cputime p)) ++ [10].

Lemma states_ok st : arg_ok (AStr (states st)).
Proof. unfold states. repeat case_match; try exact I; cbn; apply (bool_decide_unpack _); vm_compute; exact I. Qed.

Lemma ps_line_emits p : pstat_ok p -> 0 <= p_ppid p -> 0 <= p_size p < 2 ^ 64 -> emits (W := W) 1 (ps_text p) (ps_line p).
Proof.
  intros (H1 & H2 & H3) H4 H5. apply vprintf_loop_emits.
  - apply (bool_decide_unpack _). vm_compute. exact I.
  - pose proof (i32_range (p_cputime p)). repeat (apply Forall_cons; split; [apply states_ok || (cbn; lia || done)|]). apply Forall_nil_2.
  - unfold ps_text. destruct (states (p_state p)); reflexivity.
Qed.

(** ps writes its header and a line for each process, in the order of the table. *)
Theorem ps_main_correct getprocs ps (w w1 : W) :
  getprocs w = Ret (Z.of_nat (length ps), ps) w1 -> (forall fd, output w1 fd = output w fd) ->
  Forall (fun p => pstat_ok p /\ 0 <= p_ppid p /\ 0 <= p_size p < 2 ^ 64) ps ->
  exists w', ps_main getprocs w = Panic "exit" (exited 0 w') /\
    forall fd, output w' fd = if fd =? 1 then output w fd ++ ps_header ++ concat (map ps_text ps) else output w fd.
Proof.
  intros Eg Ho Hps. unfold ps_main. rewrite (bind_Ret _ _ _ _ _ Eg). destruct (Z.ltb_spec (Z.of_nat (length ps)) 0); [lia|].
  assert (Hh : emits (W := W) 1 ps_header (printf ps_header [])).
  { apply vprintf_loop_emits; [apply (bool_decide_unpack _); vm_compute; exact I|apply Forall_nil_2|reflexivity]. }
  assert (He : emits (W := W) 1 (concat (map ps_text ps)) (for_all ps ps_line)).
  { clear Eg. induction Hps as [|p ps (Hp & Hq & Hr) _ IH]; [apply emits_ret|]. cbn [for_all map concat]. apply emits_bind; [by apply ps_line_emits|]. apply IH. lia. }
  destruct (Hh w1) as (w2 & E2 & _ & O2 & _). rewrite (bind_Ret _ _ _ _ _ E2). destruct (He w2) as (w' & E' & _ & O' & _). rewrite (bind_Ret _ _ _ _ _ E').
  exists w'. split; [done|]. intros fd. rewrite O', !O2, !Ho. destruct (Z.eqb_spec fd 1) as [->|]; [|done]. by rewrite app_assoc.
Qed.
End Facts.

(** *** rm *)

Section Remove.
Context {W : Type} `{UX : Unix W} `{ST : !Streams W}.
(** The names that [unlink] removes; writing does not touch them. *)
Context (names : W -> gset (list Z)) (unlink : list Z -> M W Z).
Hypothesis unlink_law : forall a w, exists w',
  unlink a w = Ret (if bool_decide (a ∈ names w) then 0 else -1) w' /\ names w' = names w ∖ {[a]} /\ forall fd, output w' fd = output w fd.
Hypothesis write_names : forall fd l, ShRun.keeps (fun w w' => names w' = names w) (write fd l).

Lemma until_fail_prefix msg pre : forall w rest, NoDup pre -> (forall a, a ∈ pre -> a ∈ names w) ->
  exists w', until_fail unlink msg (pre ++ rest) w = until_fail unlink msg rest w' /\
    names w' = names w ∖ list_to_set pre /\ forall fd, output w' fd = output w fd.
Proof.
  induction pre as [|a pre IH]; intros w rest Hnd Hin.
  - exists w. split; [done|]. split; [set_solver|done].
  - apply NoDup_cons in Hnd as [Ha Hnd]. destruct (unlink_law a w) as (w1 & E1 & N1 & O1).
    rewrite bool_decide_true in E1 by (apply Hin, elem_of_cons; by left).
    destruct (IH w1 rest Hnd) as (w' & E' & N' & O').
    { intros b Hb. rewrite N1. assert (b ∈ names w) by (apply Hin, elem_of_cons; by right). assert (b <> a) by congruence. set_solver. }
    exists w'. split; [cbn [app until_fail]; by rewrite (bind_Ret _ _ _ _ _ E1)|]. split; [rewrite N', N1; set_solver|].
    intros fd. by rewrite O', O1.
Qed.

Lemma until_fail_run msg out pre a post w :
  NoDup pre -> (forall b, b ∈ pre -> b ∈ names w) -> (a ∉ names w ∖ list_to_set pre) -> emits 2 out (fprintf 2 msg [AStr (Some a)]) ->
  exists w', until_fail unlink msg (pre ++ a :: post) w = Ret tt w' /\ names w' = names w ∖ list_to_set pre /\
    forall fd, output w' fd = if fd =? 2 then output w fd ++ out else output w fd.
Proof.
  intros Hnd Hin Ha He. destruct (until_fail_prefix msg pre w (a :: post) Hnd Hin) as (w1 & E1 & N1 & O1).
  destruct (unlink_law a w1) as (w2 & E2 & N2 & O2). rewrite bool_decide_false in E2 by (by rewrite N1).
  destruct (He w2) as (w' & E' & _ & O' & _). exists w'. split; [|split].
  - rewrite E1. cbn [until_fail]. rewrite (bind_Ret _ _ _ _ _ E2). exact E'.
  - pose proof (keeps_vprintf (fun w w' => names w' = names w) ltac:(done) ltac:(congruence) write_names 2 msg false [AStr (Some a)] w2) as Hk.
    unfold fprintf, vprintf in E'. rewrite E' in Hk. rewrite Hk, N2, N1. apply set_eq. intros x. rewrite !elem_of_difference, elem_of_singleton.
    split; [tauto|]. intros [Hx Hp]. split; [done|]. intros ->. apply Ha, elem_of_difference. done.
  - intros fd. rewrite O', !O2, !O1. by destruct (Z.eqb_spec fd 2) as [->|].
Qed.

(** rm removes the files it is given up to the first that there is not, about
    which it complains, and leaves those after it. *)
Theorem rm_main_correct pre a post w :
  NoDup pre -> (forall b, b ∈ pre -> b ∈ names w) -> (a ∉ names w ∖ list_to_set pre) -> byte_string a ->
  exists w', rm_main unlink (pre ++ a :: post) w = Panic "exit" (exited 0 w') /\ names w' = names w ∖ list_to_set pre /\
    forall fd, output w' fd = if fd =? 2 then output w fd ++ bytes "rm: " ++ a ++ line " failed to delete" else output w fd.
Proof.
  intros Hnd Hin Ha Hb. destruct (until_fail_run (line "rm: %s failed to delete") (bytes "rm: " ++ a ++ line " failed to delete") pre a post w Hnd Hin Ha) as (w' & E & H).
  - apply complain_emits; [done|apply (bool_decide_unpack _); vm_compute; exact I|reflexivity].
  - exists w'. split; [|exact H]. unfold rm_main. destruct pre; cbn [app] in *; by rewrite (bind_Ret _ _ _ _ _ E).
Qed.
End Remove.

Module UtoolsWitness.
Import DemoShell.

(** init with a shell and a daemon, and the shell's child. *)
Definition table0 : list pstat :=
  [mkPstat 1 2 12288 0 (bytes "init") 3; mkPstat 2 2 16384 1 (bytes "sh") 5; mkPstat 7 4 8192 2 (bytes "pstree") 0; mkPstat 5 3 8192 1 (bytes "d") 40].

Lemma pstree_main_correct_witness : exists w' text,
  pstree_main (fun w => Ret (4, table0) w) [bytes "1"] w0 = Panic "exit" (exited 0 w') /\
  (forall fd, output w' fd = if fd =? 1 then output w0 fd ++ text else output w0 fd) /\
  exists t, shape table0 1 t /\ text = tree_text 0 t.
Proof.
  destruct (pstree_main_correct (fun w => Ret (4, table0) w) [bytes "1"] table0 w0 w0) as (w' & text & E & Ho & Ht).
  - reflexivity.
  - reflexivity.
  - cbn. lia.
  - repeat (apply Forall_cons; split; [split; [cbn; lia|]; split; [cbn; lia|apply bytes_byte]|]). apply Forall_nil_2.
  - vm_compute. intuition congruence.
  - exists w', text. split; [exact E|]. split; [exact Ho|exact Ht].
Defined.

(** The text in full. *)
Example pstree_text : output (match pstree_main (fun w => Ret (4, table0) w) [] w0 with Panic _ w' => w' | _ => w0 end) 1 =
  line "init(1)" ++ line "  sh(2)" ++ line "    pstree(7)" ++ line "  d(5)".
Proof. vm_compute. reflexivity. Qed.
End UtoolsWitness.
