(* ===== verification/ProdCons.v ===== *)
(** * user/private.c, user/prodcons1.c, user/prodcons2.c, user/prodcons3.c

    The programs that try out mapped regions: a producer fills a buffer and a
    consumer adds it up, in one process or in two that share the buffer or do
    not. The class [Sharing] states what mmap, fork and wait of this kernel do
    to the memory of a parent and its child: a page of a region is allocated,
    filled with fives, when it is first touched (kernel/trap.c, kalloc), and a
    child shares with its parent only the pages of a shared region that the
    parent has touched before the fork (kernel/proc.c, fork). *)

From stdpp Require Import functions.
From S2P Require Import Prelude Machine CString Printf Ulib Unix ShRun.

(** ** kernel/stat.h *)

Definition PROT_READ : Z := Z.shiftl 1 1.
Definition PROT_WRITE : Z := Z.shiftl 1 2.
Definition MAP_ANONYMOUS : Z := 0x20.

(** Mapping a region, and the loads and stores of ints. *)
Class Regions (W : Type) `{UX : Unix W} `{PR : !Procs W} := {
  mmap : Z -> Z -> Z -> Z -> Z -> Z -> M W Z;  (* addr, length, prot, flags, fd, offset *)
  munmap : Z -> Z -> M W Z;
  lw : Z -> M W Z;
  sw : Z -> Z -> M W unit
}.

(** The int in a page that [kalloc] has filled with fives. *)
Definition FILL : Z := 0x05050505.
Definition page (x : Z) : Z := x / 4096.

Class Sharing (W : Type) `{UX : Unix W} `{ST : !Streams W} `{PR : !Procs W} `{RG : !Regions W} := {
  word : W -> Z -> Z;       (* the int that a load from an address gives *)
  rw : W -> Z -> bool;      (* an address that may be read and written *)
  shared : W -> Z -> bool;  (* an address in a region that is shared *)
  present : W -> Z -> bool; (* a page that is in the page table *)
  mmap_law : forall len prot flags w, 0 < len -> exists a w', mmap 0 len prot flags (-1) 0 w = Ret a w' /\ a mod 4096 = 0 /\
    (forall x, a <= x < a + len -> rw w' x = hasbit prot PROT_READ && hasbit prot PROT_WRITE /\ shared w' x = hasbit flags MAP_SHARED /\
       present w' (page x) = false) /\
    forall fd, output w' fd = output w fd;
  munmap_law : forall a len w, exists r w', munmap a len w = Ret r w' /\ forall fd, output w' fd = output w fd;
  (* the page fault that a first access causes *)
  fresh_law : forall w x, rw w x = true -> present w (page x) = false -> word w x = FILL;
  lw_law : forall x w, rw w x = true -> exists w', lw x w = Ret (word w x) w' /\
    (forall y, word w' y = word w y) /\ (forall q, present w' q = present w q || (q =? page x)) /\
    (forall y, rw w' y = rw w y) /\ (forall y, shared w' y = shared w y) /\ forall fd, output w' fd = output w fd;
  sw_law : forall x v w, rw w x = true -> exists w', sw x v w = Ret tt w' /\
    (forall y, y mod 4 = x mod 4 -> word w' y = if y =? x then i32 v else word w y) /\ (forall q, present w' q = present w q || (q =? page x)) /\
    (forall y, rw w' y = rw w y) /\ (forall y, shared w' y = shared w y) /\ forall fd, output w' fd = output w fd;
  (* a child has a copy of its parent's memory; when it has exited, the parent
     finds what the child has left in the pages they share *)
  forked : W -> W;
  forked_law : forall w, (forall y, word (forked w) y = word w y) /\ (forall y, rw (forked w) y = rw w y) /\ (forall y, shared (forked w) y = shared w y) /\
    (forall q, present (forked w) q = present w q) /\ forall fd, output (forked w) fd = output w fd;
  fork_wait_law : forall child st w w1, child (forked w) = Panic "exit" (exited st w1) ->
    exists pid w2 w3, fork child w = Ret pid w2 /\ 0 < pid /\ wait 0 w2 = Ret pid w3 /\
      (forall y, word w3 y = if shared w y && present w (page y) then word w1 y else word w y) /\ (forall q, present w3 q = present w q) /\
      (forall y, rw w3 y = rw w y) /\ (forall y, shared w3 y = shared w y) /\ forall fd, output w3 fd = output w1 fd
}.

Section Programs.
Context {W : Type} `{UX : Unix W} `{PR : !Procs W} `{RG : !Regions W}.

(** ** The buffer: [buf], [nextin], [nextout], [num_produced], [num_consumed], [total] *)

Section Buffer.
Context (BSIZE MAX buffer : Z).

Definition slot (i : Z) : Z := buffer + 4 * i.
Definition nextin : Z := slot BSIZE.
Definition nextout : Z := slot (BSIZE + 1).
Definition num_produced : Z := slot (BSIZE + 2).
Definition num_consumed : Z := slot (BSIZE + 3).
Definition total : Z := slot (BSIZE + 4).
Definition size : Z := 4 * (BSIZE + 5).

(** [value] is the right-hand side of the assignment. *)
Definition produce (value : M W Z) : M W unit :=
  loop (fun _ : unit =>
    n <- lw num_produced ;;
    if n >=? MAX then ret (inr tt)
    else
      sw num_produced (n + 1) ;;;
      i <- lw nextin ;;
      sw nextin (i + 1) ;;;
      v <- value ;;
      sw (slot i) v ;;;
      k <- lw nextin ;;
      sw nextin (Z.rem k BSIZE) ;;;
      ret (inl tt)) tt.

Definition consume : M W unit :=
  loop (fun _ : unit =>
    n <- lw num_consumed ;;
    if n >=? MAX then ret (inr tt)
    else
      i <- lw nextout ;;
      sw nextout (i + 1) ;;;
      x <- lw (slot i) ;;
      t <- lw total ;;
      sw total (t + x) ;;;
      k <- lw nextout ;;
      sw nextout (Z.rem k BSIZE) ;;;
      c <- lw num_consumed ;;
      sw num_consumed (c + 1) ;;;
      ret (inl tt)) tt.

Definition clear : M W unit :=
  sw nextin 0 ;;; sw nextout 0 ;;; sw num_produced 0 ;;; sw num_consumed 0 ;;; sw total 0.

Definition report : M W unit :=
  t <- lw total ;; printf (bytes "total = %d" ++ [10]) [AInt t].
End Buffer.

Definition PROT : Z := Z.lor PROT_READ PROT_WRITE.

(** ** private.c *)

Definition private_main : M W unit :=
  buffer <- mmap 0 (size 10) PROT (Z.lor MAP_ANONYMOUS MAP_PRIVATE) (-1) 0 ;;
  clear 10 buffer ;;;
  produce 10 10 buffer (lw (num_produced 10 buffer)) ;;;
  consume 10 10 buffer ;;;
  report 10 buffer ;;;
  _ <- munmap buffer (size 10) ;;
  exit 0.

(** ** prodcons1.c, prodcons2.c, prodcons3.c

    The child is a producer or a consumer that exits; the parent waits. *)

Definition two (BSIZE MAX flags : Z) (value : Z -> M W Z) : M W unit :=
  buffer <- mmap 0 (size BSIZE) PROT (Z.lor MAP_ANONYMOUS flags) (-1) 0 ;;
  clear BSIZE buffer ;;;
  _ <- fork (produce BSIZE MAX buffer (value buffer) ;;; exit 0) ;;
  _ <- wait 0 ;;
  _ <- fork (consume BSIZE MAX buffer ;;; exit 0) ;;
  _ <- wait 0 ;;
  report BSIZE buffer ;;;
  exit 0.

Definition prodcons1_main : M W unit := two 10 10 MAP_SHARED (fun buffer => lw (num_produced 10 buffer)).
Definition prodcons2_main : M W unit := two 10 10 MAP_PRIVATE (fun buffer => lw (num_produced 10 buffer)).
Definition prodcons3_main : M W unit := two 2048 2048 MAP_SHARED (fun _ => ret 1).
End Programs.

(** ** What they do to the buffer *)

Section Facts.
Context {W : Type} `{UX : Unix W} `{ST : !Streams W} `{PR : !Procs W} `{RG : !Regions W} `{SH : !Sharing W}.
Context (B b : Z) (HB : 0 < B < 2 ^ 20).

(** [w'] differs from [w] in the words of memory only. *)
Definition only_words (w w' : W) : Prop :=
  (forall y, rw w' y = rw w y) /\ (forall y, shared w' y = shared w y) /\ forall fd, output w' fd = output w fd.

Lemma only_words_refl w : only_words w w.
Proof. done. Qed.

Lemma only_words_trans w1 w2 w3 : only_words w1 w2 -> only_words w2 w3 -> only_words w1 w3.
Proof. intros (A1 & A2 & A3) (B1 & B2 & B3). split_and!; intros; congruence. Qed.

(** The buffer may be read and written, and its words are [f]. *)
Definition buffer_is (w : W) (f : Z -> Z) : Prop :=
  forall i, 0 <= i < B + 5 -> rw w (slot b i) = true /\ word w (slot b i) = f i.

Lemma lw_slot w f i : buffer_is w f -> 0 <= i < B + 5 ->
  exists w', lw (slot b i) w = Ret (f i) w' /\ only_words w w' /\ buffer_is w' f.
Proof.
  intros H Hi. destruct (H i Hi) as [H1 H2]. destruct (lw_law (slot b i) w H1) as (w' & E & Hw & _ & Hr & Hs & Ho).
  exists w'. rewrite <- H2. split; [done|]. split; [done|]. intros j Hj. rewrite Hr, Hw. by apply H.
Qed.

Lemma sw_slot w f i v : buffer_is w f -> 0 <= i < B + 5 ->
  exists w', sw (slot b i) v w = Ret tt w' /\ only_words w w' /\ buffer_is w' (<[i := i32 v]> f) /\
    forall q, present w' q = present w q || (q =? page (slot b i)).
Proof.
  intros H Hi. destruct (sw_law (slot b i) v w (proj1 (H i Hi))) as (w' & E & Hw & Hp & Hr & Hs & Ho). exists w'. split; [done|]. split; [done|]. split; [|done].
  intros j Hj. destruct (H j Hj) as [J1 J2]. split; [by rewrite Hr|]. rewrite Hw by (unfold slot; Z.div_mod_to_equations; lia).
  destruct (Z.eqb_spec (slot b j) (slot b i)) as [E2|E2]; [assert (j = i) as -> by (unfold slot in E2; lia); by rewrite fn_lookup_insert|].
  rewrite fn_lookup_insert_ne by (intros ->; done). done.
Qed.

Lemma buffer_is_ext w f g : buffer_is w f -> (forall i, 0 <= i < B + 5 -> f i = g i) -> buffer_is w g.
Proof. intros H Hfg i Hi. destruct (H i Hi) as [H1 H2]. split; [done|]. by rewrite H2, Hfg. Qed.
End Facts.

Section Loops.
Context {W : Type} `{UX : Unix W} `{ST : !Streams W} `{PR : !Procs W} `{RG : !Regions W} `{SH : !Sharing W}.
Context (B b : Z) (HB : 0 < B < 2 ^ 20).

(** The buffer after [k] rounds of the producer. *)
Definition produced (val : Z -> Z) (f : Z -> Z) (k : Z) : Z -> Z := fun i =>
  if (0 <=? i) && (i <? k) then val (i + 1) else if i =? B then Z.rem k B else if i =? B + 2 then k else f i.

Lemma produce_round val value f k w :
  buffer_is B b w (produced val f k) -> 0 <= k < B -> (forall i, - 2 ^ 31 <= val i < 2 ^ 31) ->
  (forall w1 g, buffer_is B b w1 g -> g (B + 2) = k + 1 ->
     exists w2, value w1 = Ret (val (k + 1)) w2 /\ only_words w1 w2 /\ buffer_is B b w2 g) ->
  exists w', (n <- lw (num_produced B b) ;;
    if n >=? B then ret (inr tt)
    else
      sw (num_produced B b) (n + 1) ;;;
      i <- lw (nextin B b) ;;
      sw (nextin B b) (i + 1) ;;;
      v <- value ;;
      sw (slot b i) v ;;;
      k <- lw (nextin B b) ;;
      sw (nextin B b) (Z.rem k B) ;;;
      ret (inl tt)) w = Ret (@inl unit unit tt) w' /\ only_words w w' /\ buffer_is B b w' (produced val f (k + 1)).
Proof.
  intros H0 Hk Hval Hvalue. unfold num_produced, nextin.
  assert (P2 : produced val f k (B + 2) = k) by (unfold produced; repeat (case_match; try lia)).
  assert (PB : produced val f k B = k) by (unfold produced; repeat (case_match; try lia); apply Z.rem_small; lia).
  destruct (lw_slot B b w _ (B + 2) H0 ltac:(lia)) as (v0 & L0 & OL0 & G0). rewrite (bind_Ret _ _ _ _ _ L0), P2, Z.geb_leb. destruct (Z.leb_spec B k); [lia|].
  destruct (sw_slot B b v0 _ (B + 2) (k + 1) G0 ltac:(lia)) as (w1 & E1 & O1 & H1 & _). rewrite (bind_Ret _ _ _ _ _ E1).
  destruct (lw_slot B b w1 _ B H1 ltac:(lia)) as (v1 & L1 & OL1 & G1). rewrite (bind_Ret _ _ _ _ _ L1), fn_lookup_insert_ne, PB by lia.
  destruct (sw_slot B b v1 _ B (k + 1) G1 ltac:(lia)) as (w2 & E2 & O2 & H2 & _). rewrite (bind_Ret _ _ _ _ _ E2).
  destruct (Hvalue w2 _ H2) as (v2 & L2 & OL2 & G2); [rewrite fn_lookup_insert_ne, fn_lookup_insert by lia; apply i32_small; lia|]. rewrite (bind_Ret _ _ _ _ _ L2).
  destruct (sw_slot B b v2 _ k (val (k + 1)) G2 ltac:(lia)) as (w3 & E3 & O3 & H3 & _). rewrite (bind_Ret _ _ _ _ _ E3).
  destruct (lw_slot B b w3 _ B H3 ltac:(lia)) as (v3 & L3 & OL3 & G3). rewrite (bind_Ret _ _ _ _ _ L3).
  rewrite fn_lookup_insert_ne, fn_lookup_insert by lia. rewrite (i32_small (k + 1)) by lia.
  destruct (sw_slot B b v3 _ B (Z.rem (k + 1) B) G3 ltac:(lia)) as (w4 & E4 & O4 & H4 & _). rewrite (bind_Ret _ _ _ _ _ E4).
  exists w4. split; [done|]. split; [by repeat (eapply only_words_trans; [eassumption|])|].
  eapply buffer_is_ext; [exact H4|]. intros i Hi. unfold insert, fn_insert.
  pose proof (Z.rem_bound_pos (k + 1) B ltac:(lia) ltac:(lia)).
  rewrite (i32_small (Z.rem (k + 1) B)), !(i32_small (k + 1)), (i32_small (val (k + 1))) by (lia || apply Hval).
  unfold produced. repeat (case_decide; subst; try lia); repeat (case_match; try lia); done.
Qed.

(** The right-hand side of the producer's assignment: [val n] when [n] numbers
    have been produced. *)
Definition yields (value : M W Z) (val : Z -> Z) : Prop :=
  forall k w g, 0 <= k < B -> buffer_is B b w g -> g (B + 2) = k + 1 ->
    exists w', value w = Ret (val (k + 1)) w' /\ only_words w w' /\ buffer_is B b w' g.

Lemma produce_run val value f w : buffer_is B b w f -> f B = 0 -> f (B + 2) = 0 -> (forall i, - 2 ^ 31 <= val i < 2 ^ 31) -> yields value val ->
  exists w', produce B B b value w = Ret tt w' /\ only_words w w' /\ buffer_is B b w' (produced val f B).
Proof.
  intros H HfB Hf2 Hval Hy. unfold produce.
  apply (loop_measure _ (fun _ w1 => exists k, 0 <= k <= B /\ only_words w w1 /\ buffer_is B b w1 (produced val f k))
    (fun _ w1 => Z.to_nat (B - word w1 (num_produced B b))) (fun o => exists w', o = Ret tt w' /\ only_words w w' /\ buffer_is B b w' (produced val f B))).
  - intros [] w1 (k & Hk & O1 & H1). assert (Hw : forall k w2, 0 <= k <= B -> buffer_is B b w2 (produced val f k) -> word w2 (num_produced B b) = k).
    { intros k2 w2 Hk2 H2. unfold num_produced. destruct (H2 (B + 2) ltac:(lia)) as [_ ->]. unfold produced. repeat (case_match; try lia). }
    destruct (decide (k = B)) as [->|Hne].
    + right; left. destruct (lw_slot B b w1 _ (B + 2) H1 ltac:(lia)) as (v1 & L1 & OL1 & G1). exists tt, v1.
      split; [|exists v1; split; [done|split; [by eapply only_words_trans|done]]]. unfold num_produced in *. rewrite (bind_Ret _ _ _ _ _ L1).
      rewrite <- (proj2 (H1 (B + 2) ltac:(lia))), (Hw B w1) by (done || lia). rewrite Z.geb_leb. by destruct (Z.leb_spec B B); [|lia].
    + left. destruct (produce_round val value f k w1 H1 ltac:(lia) Hval) as (w2 & E2 & O2 & H2); [intros w3 g H3 Hg; apply (Hy k w3 g); try done; lia|].
      exists tt, w2. split; [exact E2|]. split; [exists (k + 1); split; [lia|]; split; [by eapply only_words_trans|done]|].
      rewrite (Hw (k + 1) w2), (Hw k w1) by (done || lia). lia.
  - exists 0. split; [lia|]. split; [done|]. eapply buffer_is_ext; [exact H|]. intros i Hi. unfold produced. repeat (case_match; try lia); try done; [|by replace i with (B + 2) by lia]. replace i with B by lia. by rewrite HfB.
  - destruct (H (B + 2) ltac:(lia)) as [_ E]. unfold num_produced. rewrite E, Hf2. lia.
Qed.

(** The sum of the first [k] slots, as the int it is stored in. *)
Definition adds (f : Z -> Z) (k : Z) (t : Z) : Z := fold_left (fun t i => i32 (t + f (Z.of_nat i))) (seq 0 (Z.to_nat k)) t.

Lemma adds_next f k t : 0 <= k -> adds f (k + 1) t = i32 (adds f k t + f k).
Proof. intros Hk. unfold adds. rewrite Z2Nat.inj_add, Nat.add_1_r, seq_S, fold_left_app by lia. cbn. by rewrite Z2Nat.id. Qed.

(** The buffer after [k] rounds of the consumer. *)
Definition consumed (f : Z -> Z) (k : Z) : Z -> Z := fun i =>
  if i =? B + 1 then Z.rem k B else if i =? B + 3 then k else if i =? B + 4 then adds f k (f (B + 4)) else f i.

Lemma consume_round f k w :
  buffer_is B b w (consumed f k) -> 0 <= k < B ->
  exists w', (n <- lw (num_consumed B b) ;;
    if n >=? B then ret (inr tt)
    else
      i <- lw (nextout B b) ;;
      sw (nextout B b) (i + 1) ;;;
      x <- lw (slot b i) ;;
      t <- lw (total B b) ;;
      sw (total B b) (t + x) ;;;
      k <- lw (nextout B b) ;;
      sw (nextout B b) (Z.rem k B) ;;;
      c <- lw (num_consumed B b) ;;
      sw (num_consumed B b) (c + 1) ;;;
      ret (inl tt)) w = Ret (@inl unit unit tt) w' /\ only_words w w' /\ buffer_is B b w' (consumed f (k + 1)).
Proof.
  intros H0 Hk. unfold num_consumed, nextout, total.
  assert (P1 : consumed f k (B + 1) = k) by (unfold consumed; repeat (case_match; try lia); apply Z.rem_small; lia).
  assert (P3 : consumed f k (B + 3) = k) by (unfold consumed; repeat (case_match; try lia)).
  assert (P4 : consumed f k (B + 4) = adds f k (f (B + 4))) by (unfold consumed; repeat (case_match; try lia)).
  assert (Pk : consumed f k k = f k) by (unfold consumed; repeat (case_match; try lia)).
  destruct (lw_slot B b w _ (B + 3) H0 ltac:(lia)) as (v0 & L0 & OL0 & G0). rewrite (bind_Ret _ _ _ _ _ L0), P3, Z.geb_leb. destruct (Z.leb_spec B k); [lia|].
  destruct (lw_slot B b v0 _ (B + 1) G0 ltac:(lia)) as (v1 & L1 & OL1 & G1). rewrite (bind_Ret _ _ _ _ _ L1), P1.
  destruct (sw_slot B b v1 _ (B + 1) (k + 1) G1 ltac:(lia)) as (w1 & E1 & O1 & H1 & _). rewrite (bind_Ret _ _ _ _ _ E1).
  destruct (lw_slot B b w1 _ k H1 ltac:(lia)) as (v2 & L2 & OL2 & G2). rewrite (bind_Ret _ _ _ _ _ L2), fn_lookup_insert_ne, Pk by lia.
  destruct (lw_slot B b v2 _ (B + 4) G2 ltac:(lia)) as (v3 & L3 & OL3 & G3). rewrite (bind_Ret _ _ _ _ _ L3), fn_lookup_insert_ne, P4 by lia.
  destruct (sw_slot B b v3 _ (B + 4) (adds f k (f (B + 4)) + f k) G3 ltac:(lia)) as (w2 & E2 & O2 & H2 & _). rewrite (bind_Ret _ _ _ _ _ E2).
  destruct (lw_slot B b w2 _ (B + 1) H2 ltac:(lia)) as (v4 & L4 & OL4 & G4). rewrite (bind_Ret _ _ _ _ _ L4), fn_lookup_insert_ne, fn_lookup_insert, (i32_small (k + 1)) by lia.
  destruct (sw_slot B b v4 _ (B + 1) (Z.rem (k + 1) B) G4 ltac:(lia)) as (w3 & E3 & O3 & H3 & _). rewrite (bind_Ret _ _ _ _ _ E3).
  destruct (lw_slot B b w3 _ (B + 3) H3 ltac:(lia)) as (v5 & L5 & OL5 & G5). rewrite (bind_Ret _ _ _ _ _ L5), !fn_lookup_insert_ne, P3 by lia.
  destruct (sw_slot B b v5 _ (B + 3) (k + 1) G5 ltac:(lia)) as (w4 & E4 & O4 & H4 & _). rewrite (bind_Ret _ _ _ _ _ E4).
  exists w4. split; [done|]. split; [by repeat (eapply only_words_trans; [eassumption|])|].
  eapply buffer_is_ext; [exact H4|]. intros i Hi. unfold insert, fn_insert. pose proof (Z.rem_bound_pos (k + 1) B ltac:(lia) ltac:(lia)).
  rewrite (i32_small (Z.rem (k + 1) B)), !(i32_small (k + 1)) by lia. unfold consumed. rewrite adds_next by lia.
  repeat (case_decide; subst; try lia); repeat (case_match; try lia); done.
Qed.

Lemma consume_run f w : buffer_is B b w f -> f (B + 1) = 0 -> f (B + 3) = 0 ->
  exists w', consume B B b w = Ret tt w' /\ only_words w w' /\ buffer_is B b w' (consumed f B).
Proof.
  intros H Hf1 Hf3. unfold consume.
  apply (loop_measure _ (fun _ w1 => exists k, 0 <= k <= B /\ only_words w w1 /\ buffer_is B b w1 (consumed f k))
    (fun _ w1 => Z.to_nat (B - word w1 (num_consumed B b))) (fun o => exists w', o = Ret tt w' /\ only_words w w' /\ buffer_is B b w' (consumed f B))).
  - intros [] w1 (k & Hk & O1 & H1). assert (Hw : forall k w2, 0 <= k <= B -> buffer_is B b w2 (consumed f k) -> word w2 (num_consumed B b) = k).
    { intros k2 w2 Hk2 H2. unfold num_consumed. destruct (H2 (B + 3) ltac:(lia)) as [_ ->]. unfold consumed. repeat (case_match; try lia). }
    destruct (decide (k = B)) as [->|Hne].
    + right; left. destruct (lw_slot B b w1 _ (B + 3) H1 ltac:(lia)) as (v1 & L1 & OL1 & G1). exists tt, v1.
      split; [|exists v1; split; [done|split; [by eapply only_words_trans|done]]]. unfold num_consumed in *. rewrite (bind_Ret _ _ _ _ _ L1).
      rewrite <- (proj2 (H1 (B + 3) ltac:(lia))), (Hw B w1) by (done || lia). rewrite Z.geb_leb. by destruct (Z.leb_spec B B); [|lia].
    + left. destruct (consume_round f k w1 H1 ltac:(lia)) as (w2 & E2 & O2 & H2).
      exists tt, w2. split; [exact E2|]. split; [exists (k + 1); split; [lia|]; split; [by eapply only_words_trans|done]|].
      rewrite (Hw (k + 1) w2), (Hw k w1) by (done || lia). lia.
  - exists 0. split; [lia|]. split; [done|]. eapply buffer_is_ext; [exact H|]. intros i Hi. unfold consumed. repeat (case_match; try lia); try done.
    + replace i with (B + 1) by lia. by rewrite Hf1.
    + by replace i with (B + 3) by lia.
    + by replace i with (B + 4) by lia.
  - destruct (H (B + 3) ltac:(lia)) as [_ E]. unfold num_consumed. rewrite E, Hf3. lia.
Qed.

(** The buffer when the program has set its counters. *)
Definition cleared (f : Z -> Z) : Prop := forall i, B <= i < B + 5 -> f i = 0.

(** The page of the counters: the program touches no other one before it
    forks. *)
Definition kept (i : Z) : bool := page (slot b i) =? page (slot b B).

Lemma start_buffer flags w w0 : page (slot b (B + 4)) = page (slot b B) ->
  (forall x, b <= x < b + size B -> rw w0 x = hasbit PROT PROT_READ && hasbit PROT PROT_WRITE /\ shared w0 x = hasbit flags MAP_SHARED /\ present w0 (page x) = false) ->
  (forall fd, output w0 fd = output w fd) ->
  exists w1 f, clear B b w0 = Ret tt w1 /\ buffer_is B b w1 f /\ cleared f /\
    (forall i, 0 <= i < B + 5 -> shared w1 (slot b i) = hasbit flags MAP_SHARED) /\
    (forall i, 0 <= i < B + 5 -> present w1 (page (slot b i)) = kept i) /\ (forall fd, output w1 fd = output w fd).
Proof.
  intros Hpg H0 Ho. assert (G0 : buffer_is B b w0 (fun i => word w0 (slot b i))).
  { intros i Hi. destruct (H0 (slot b i)) as [-> _]; [unfold slot, size; lia|done]. }
  unfold clear, nextin, nextout, num_produced, num_consumed, total.
  destruct (sw_slot B b w0 _ B 0 G0 ltac:(lia)) as (w1 & E1 & O1 & G1 & P1). rewrite (bind_Ret _ _ _ _ _ E1).
  destruct (sw_slot B b w1 _ (B + 1) 0 G1 ltac:(lia)) as (w2 & E2 & O2 & G2 & P2). rewrite (bind_Ret _ _ _ _ _ E2).
  destruct (sw_slot B b w2 _ (B + 2) 0 G2 ltac:(lia)) as (w3 & E3 & O3 & G3 & P3). rewrite (bind_Ret _ _ _ _ _ E3).
  destruct (sw_slot B b w3 _ (B + 3) 0 G3 ltac:(lia)) as (w4 & E4 & O4 & G4 & P4). rewrite (bind_Ret _ _ _ _ _ E4).
  destruct (sw_slot B b w4 _ (B + 4) 0 G4 ltac:(lia)) as (w5 & E5 & O5 & G5 & P5). eexists w5, _. split; [exact E5|]. split; [exact G5|].
  pose proof (only_words_trans _ _ _ O1 (only_words_trans _ _ _ O2 (only_words_trans _ _ _ O3 (only_words_trans _ _ _ O4 O5)))) as (_ & Hs & Hout).
  split; [|split; [|split; [|intros fd; by rewrite Hout]]].
  - intros i Hi. unfold insert, fn_insert. change (i32 0) with 0. repeat (case_decide; try lia); lia.
  - intros i Hi. rewrite Hs. apply H0. unfold slot, size. lia.
  - intros i Hi. rewrite P5, P4, P3, P2, P1. destruct (H0 (slot b i)) as (_ & _ & ->); [unfold slot, size; lia|].
    assert (Hsame : forall d, 0 <= d <= 4 -> page (slot b (B + d)) = page (slot b B)).
    { intros d Hd. unfold page, slot in *. Z.div_mod_to_equations. lia. }
    rewrite !Hsame by lia. unfold kept. by destruct (_ =? _).
Qed.

(** [n] is printed as "total = n". *)
Definition total_line (n : Z) : list Z := bytes "total = " ++ render 10 n ++ [10].

Lemma report_run w f : buffer_is B b w f -> - 2 ^ 31 <= f (B + 4) < 2 ^ 31 ->
  exists w', report B b w = Ret tt w' /\ forall fd, output w' fd = output w fd ++ (if fd =? 1 then total_line (f (B + 4)) else []).
Proof.
  intros H Hf. unfold report, total. destruct (lw_slot B b w f (B + 4) H ltac:(lia)) as (v & L & (_ & _ & OL) & _). rewrite (bind_Ret _ _ _ _ _ L).
  assert (HF : Unix.format (bytes "total = %d" ++ [10]) false [AInt (f (B + 4))] = Some (total_line (f (B + 4)))) by reflexivity.
  destruct (vprintf_loop_emits 1 (bytes "total = %d" ++ [10]) false [AInt (f (B + 4))] _ ltac:(apply (bool_decide_unpack _); vm_compute; exact I) ltac:(by apply Forall_singleton) HF v) as (w' & E & _ & Ho & _).
  exists w'. split; [exact E|]. intros fd. rewrite Ho, !OL. destruct (Z.eqb_spec fd 1) as [->|]; [done|by rewrite app_nil_r].
Qed.
End Loops.

(** ** The programs *)

Section Mains.
Context {W : Type} `{UX : Unix W} `{ST : !Streams W} `{PR : !Procs W} `{RG : !Regions W} `{SH : !Sharing W}.

Lemma adds_ext f g k t : (forall i, 0 <= i < k -> f i = g i) -> adds f k t = adds g k t.
Proof.
  intros H. unfold adds. assert (Hs : forall l t, (forall i, i ∈ l -> Z.of_nat i < k) -> fold_left (fun t i => i32 (t + f (Z.of_nat i))) l t = fold_left (fun t i => i32 (t + g (Z.of_nat i))) l t).
  { induction l as [|i l IH]; intros t1 Hl; [done|]. cbn. rewrite H by (specialize (Hl i ltac:(apply elem_of_cons; by left)); lia). apply IH. intros j Hj. apply Hl, elem_of_cons. by right. }
  apply Hs. intros i Hi%elem_of_seq. lia.
Qed.

Lemma adds_range f k t : - 2 ^ 31 <= t < 2 ^ 31 -> - 2 ^ 31 <= adds f k t < 2 ^ 31.
Proof.
  unfold adds. generalize (seq 0 (Z.to_nat k)) as l. intros l. revert t. induction l as [|i l IH]; intros t Ht; [done|]. cbn. apply IH. unfold i32.
  pose proof (Z.mod_pos_bound (t + f (Z.of_nat i) + 2 ^ 31) (2 ^ 32)). lia.
Qed.

(** What a child does to the buffer that its parent finds. *)
Lemma fork_buffer B b w f g child (sh : bool) : buffer_is B b w f -> (forall i, 0 <= i < B + 5 -> shared w (slot b i) = sh) ->
  (forall i, 0 <= i < B + 5 -> present w (page (slot b i)) = kept B b i) ->
  (forall w0, buffer_is B b w0 f -> exists w1, child w0 = Ret tt w1 /\ only_words w0 w1 /\ buffer_is B b w1 g) ->
  exists pid w2 w3, fork (child ;;; exit 0) w = Ret pid w2 /\ wait 0 w2 = Ret pid w3 /\
    buffer_is B b w3 (fun i => if sh && kept B b i then g i else f i) /\
    (forall i, 0 <= i < B + 5 -> shared w3 (slot b i) = sh) /\ (forall i, 0 <= i < B + 5 -> present w3 (page (slot b i)) = kept B b i) /\
    forall fd, output w3 fd = output w fd.
Proof.
  intros H Hs Hk Hc. destruct (forked_law w) as (F1 & F2 & F3 & _ & F4).
  destruct (Hc (forked w)) as (w1 & E1 & (O1 & O2 & O3) & G1); [intros i Hi; rewrite F1, F2; by apply H|].
  destruct (fork_wait_law (child ;;; exit 0) 0 w w1) as (pid & w2 & w3 & E2 & _ & E3 & W1 & WP & W2 & W3 & W4); [by rewrite (bind_Ret _ _ _ _ _ E1)|].
  exists pid, w2, w3. split; [done|]. split; [done|]. split; [|split; [intros i Hi; rewrite W3; by apply Hs|split; [intros i Hi; rewrite WP; by apply Hk|intros fd; by rewrite W4, O3, F4]]].
  intros i Hi. rewrite W1, W2, Hs, Hk by done. destruct (H i Hi) as [H1 H2], (G1 i Hi) as [G2 G3]. by destruct (sh && kept B b i).
Qed.

(** What two processes add up: in a shared region, the numbers produced in the
    page of the counters and the fives of the other pages; 0 in a private one. *)
Definition two_total (B : Z) (sh : bool) (val : Z -> Z) : Z :=
  if sh then adds (fun i => if 4 * i / 4096 =? 4 * B / 4096 then val (i + 1) else FILL) B 0 else 0.

Lemma kept_offset B b i : b mod 4096 = 0 -> kept B b i = (4 * i / 4096 =? 4 * B / 4096).
Proof. intros Hb. unfold kept, page, slot. apply eq_iff_eq_true. rewrite !Z.eqb_eq. Z.div_mod_to_equations. lia. Qed.

Lemma two_run B flags val (value : Z -> M W Z) w : 0 < B < 2 ^ 20 -> 4 * (B + 4) / 4096 = 4 * B / 4096 ->
  (forall i, - 2 ^ 31 <= val i < 2 ^ 31) -> (forall b, yields B b (value b) val) ->
  exists w', two B B flags value w = Panic "exit" (exited 0 w') /\
    forall fd, output w' fd = output w fd ++ (if fd =? 1 then total_line (two_total B (hasbit (Z.lor MAP_ANONYMOUS flags) MAP_SHARED) val) else []).
Proof.
  intros HB Hpg Hval Hy. unfold two.
  destruct (mmap_law (size B) PROT (Z.lor MAP_ANONYMOUS flags) w ltac:(unfold size; lia)) as (b & w0 & E0 & Hb & R0 & Ho0). rewrite (bind_Ret _ _ _ _ _ E0).
  assert (HK : forall i, kept B b i = (4 * i / 4096 =? 4 * B / 4096)) by (intros i; by apply kept_offset).
  destruct (start_buffer B b HB (Z.lor MAP_ANONYMOUS flags) w w0) as (w1 & f & E1 & H1 & Hf & Hs1 & Hp1 & Ho1);
    [apply Z.eqb_eq; fold (kept B b (B + 4)); rewrite HK; by apply Z.eqb_eq|done|done|].
  rewrite (bind_Ret _ _ _ _ _ E1). set (sh := hasbit _ MAP_SHARED) in *.
  assert (Hfill : forall i, 0 <= i < B -> kept B b i = false -> f i = FILL).
  { intros i Hi Hk. destruct (H1 i ltac:(lia)) as [Hr <-]. apply fresh_law; [done|]. by rewrite Hp1 by lia. }
  assert (HKc : forall i, B <= i < B + 5 -> kept B b i = true).
  { intros i Hi. rewrite HK. apply Z.eqb_eq. Z.div_mod_to_equations. lia. }
  destruct (fork_buffer B b w1 f (produced B val f B) (produce B B b (value b)) sh H1 Hs1 Hp1) as (p2 & w2 & w3 & E2 & E3 & H3 & Hs3 & Hp3 & Ho3).
  { intros w2 H2. apply produce_run; [done|done|apply Hf; lia|apply Hf; lia|done|apply Hy]. }
  rewrite (bind_Ret _ _ _ _ _ E2), (bind_Ret _ _ _ _ _ E3). set (f3 := fun i => if sh && kept B b i then produced B val f B i else f i) in *.
  assert (Hf3 : forall i, B <= i < B + 5 -> i <> B + 2 -> f3 i = 0).
  { intros i Hi Hne. unfold f3, produced. destruct (sh && kept B b i); [|by apply Hf]. repeat (case_match; try lia); try (by apply Hf); try (by rewrite Z.rem_same by lia). }
  destruct (fork_buffer B b w3 f3 (consumed B f3 B) (consume B B b) sh H3 Hs3 Hp3) as (p4 & w4 & w5 & E4 & E5 & H5 & Hs5 & Hp5 & Ho5).
  { intros w4 H4. apply consume_run; [done|done|apply Hf3; lia|apply Hf3; lia]. }
  rewrite (bind_Ret _ _ _ _ _ E4), (bind_Ret _ _ _ _ _ E5).
  assert (Ht : (if sh && kept B b (B + 4) then consumed B f3 B (B + 4) else f3 (B + 4)) = two_total B sh val).
  { rewrite HKc, andb_true_r by lia. unfold two_total. destruct sh eqn:Esh; [|apply Hf3; lia].
    unfold consumed. repeat (case_match; try lia). rewrite (Hf3 (B + 4)) by lia. apply adds_ext. intros i Hi.
    unfold f3. cbn [andb]. rewrite <- HK. destruct (kept B b i) eqn:Ek; [|by apply Hfill]. unfold produced. repeat (case_match; try lia). }
  destruct (report_run B b HB w5 _ H5) as (w6 & E6 & Ho6); [rewrite Ht; unfold two_total; destruct sh; [apply adds_range; lia|lia]|].
  rewrite (bind_Ret _ _ _ _ _ E6). exists w6. split; [done|]. intros fd. by rewrite Ho6, Ho5, Ho3, Ho1, Ht.
Qed.

Lemma yields_count B b : 0 < B < 2 ^ 20 -> yields B b (lw (num_produced B b)) i32.
Proof. 
  intros HB k w g Hk H Hg. unfold num_produced. destruct (lw_slot B b w g (B + 2) H ltac:(lia)) as (w' & E & HO). exists w'.
  by rewrite Hg, <- (i32_small (k + 1)) in E by lia.
Qed.

Lemma private_run w : exists w', private_main w = Panic "exit" (exited 0 w') /\ forall fd, output w' fd = output w fd ++ (if fd =? 1 then total_line 55 else []).
Proof.
  set (B := 10). assert (HB : 0 < B < 2 ^ 20) by done. unfold private_main. fold B.
  destruct (mmap_law (size B) PROT (Z.lor MAP_ANONYMOUS MAP_PRIVATE) w ltac:(unfold size; lia)) as (b & w0 & E0 & Hb & R0 & Ho0). rewrite (bind_Ret _ _ _ _ _ E0).
  destruct (start_buffer B b HB (Z.lor MAP_ANONYMOUS MAP_PRIVATE) w w0) as (w1 & f & E1 & H1 & Hf & _ & _ & Ho1);
    [unfold page, slot, B; Z.div_mod_to_equations; lia|done|done|]. rewrite (bind_Ret _ _ _ _ _ E1).
  destruct (produce_run B b HB i32 (lw (num_produced B b)) f w1 H1 ltac:(apply Hf; lia) ltac:(apply Hf; lia) i32_range (yields_count B b HB)) as (w2 & E2 & (_ & _ & Ho2) & H2). rewrite (bind_Ret _ _ _ _ _ E2).
  destruct (consume_run B b HB _ w2 H2) as (w3 & E3 & (_ & _ & Ho3) & H3); [unfold produced; repeat (case_match; try lia); apply Hf; lia..|]. rewrite (bind_Ret _ _ _ _ _ E3).
  assert (Ht : consumed B (produced B i32 f B) B (B + 4) = 55).
  { unfold consumed. repeat (case_match; try lia). assert (E4 : produced B i32 f B (B + 4) = 0) by (unfold produced; repeat (case_match; try lia); apply Hf; lia).
    rewrite E4, (adds_ext _ (fun i => i32 (i + 1))); [by vm_compute|]. intros i Hi. unfold produced. repeat (case_match; try lia). }
  destruct (report_run B b HB w3 _ H3) as (w4 & E4 & Ho4); [rewrite Ht; lia|]. rewrite (bind_Ret _ _ _ _ _ E4). rewrite Ht in Ho4.
  destruct (munmap_law b (size B) w4) as (r & w5 & E5 & Ho5). rewrite (bind_Ret _ _ _ _ _ E5). exists w5. split; [done|]. intros fd. by rewrite Ho5, Ho4, Ho3, Ho2, Ho1.
Qed.

(** C21: producing and consuming in one process with a private region gives
    1 + ... + 10; in two processes that share a region of one page, too. In two
    processes with a private region the parent never sees what its children
    have written, and prints 0. In two processes that share a region of three
    pages of which the parent has touched only the last one before it forks,
    the producer's 2048 ones, which go to the first two, are lost: the consumer
    adds up fresh pages full of fives, and the program prints 673720320 where
    it means 2048. *)
Theorem prodcons_correct w :
  let prints (main : M W unit) n := exists w', main w = Panic "exit" (exited 0 w') /\ forall fd, output w' fd = output w fd ++ (if fd =? 1 then total_line n else []) in
  prints private_main 55 /\ prints prodcons1_main 55 /\ prints prodcons2_main 0 /\ prints prodcons3_main 673720320.
Proof.
  split; [apply private_run|]. split; [|split].
  - destruct (two_run 10 MAP_SHARED i32 (fun b => lw (num_produced 10 b)) w ltac:(lia) eq_refl i32_range (fun b => yields_count 10 b ltac:(lia))) as (w' & E & Ho).
    exists w'. split; [exact E|]. intros fd. rewrite Ho. by replace (two_total 10 _ i32) with 55 by by vm_compute.
  - exact (two_run 10 MAP_PRIVATE i32 (fun b => lw (num_produced 10 b)) w ltac:(lia) eq_refl i32_range (fun b => yields_count 10 b ltac:(lia))).
  - destruct (two_run 2048 MAP_SHARED (fun _ => 1) (fun _ => ret 1) w ltac:(lia) eq_refl ltac:(lia)) as (w' & E & Ho); [intros b k w1 g _ H _; by exists w1|].
    exists w'. split; [exact E|]. intros fd. rewrite Ho. by replace (two_total 2048 _ (fun _ => 1)) with 673720320 by by vm_compute.
Qed.
End Mains.

Module ProdConsWitness.
(** A world with one pending child at most; [d_mem] is the memory of the pages
    that are present. *)
Record world := mkWorld {
  d_mem : Z -> Z;
  d_present : Z -> bool;
  d_rw : Z -> bool;
  d_shared : Z -> bool;
  d_out : Z -> list Z;
  d_next : Z;      (* the page at which the next region starts *)
  d_child : option ((Z -> Z) * (Z -> list Z))
}.

Definition d_word (w : world) (y : Z) : Z := if d_present w (page y) then d_mem w y else FILL.

(** The page of [x] has been touched, the words being [f]. *)
Definition touched (x : Z) (f : Z -> Z) (w : world) : world :=
  mkWorld f (fun q => d_present w q || (q =? page x)) (d_rw w) (d_shared w) (d_out w) (d_next w) (d_child w).

#[export] Instance demo_unix : Unix world := {|
  read := fun _ _ => ret (0, []);
  write := fun fd l w => Ret (Z.of_nat (length l)) (mkWorld (d_mem w) (d_present w) (d_rw w) (d_shared w)
    (fun fd' => if fd' =? fd then d_out w fd ++ l else d_out w fd') (d_next w) (d_child w));
  open := fun _ _ => ret (-1);
  close := fun _ => ret 0;
  fstat := fun _ => ret (-1, []);
  exited := fun _ w => w
|}.

#[export] Instance demo_streams : Streams world.
Proof.
  refine {| input := fun _ _ => []; output := d_out; contents := fun _ _ => None |}.
  - intros fd n w Hn. exists 0%nat, w. split; [done|]. split; [lia|]. split; [done|]. split; [by right|]. split; [|done]. intros fd'. by destruct (fd' =? fd).
  - intros fd l w. eexists. split; [reflexivity|]. done.
Defined.

#[export] Instance demo_procs : Procs world := {|
  fork := fun child w =>
    match child w with
    | Panic _ w1 => Ret 1 (mkWorld (d_mem w) (d_present w) (d_rw w) (d_shared w) (d_out w) (d_next w) (Some (d_word w1, d_out w1)))
    | _ => Fuel w
    end;
  wait := fun _ w =>
    match d_child w with
    | Some (word1, out1) => Ret 1 (mkWorld (fun y => if d_shared w y then word1 y else d_mem w y) (d_present w) (d_rw w) (d_shared w) out1 (d_next w) None)
    | None => Ret (-1) w
    end;
  exec := fun _ _ => ret (-1);
  pipe := ret (-1, 0, 0);
  dup := fun _ => ret (-1);
  chdir := fun _ => ret (-1)
|}.

#[export] Instance demo_regions : Regions world := {|
  mmap := fun _ len prot flags _ _ w =>
    let a := 4096 * d_next w in
    let new x := (a <=? x) && (x <? a + len) in
    Ret a (mkWorld (d_mem w) (fun q => d_present w q && (q <? d_next w)) (fun x => if new x then hasbit prot PROT_READ && hasbit prot PROT_WRITE else d_rw w x)
      (fun x => if new x then hasbit flags MAP_SHARED else d_shared w x) (d_out w) (d_next w + len / 4096 + 1) (d_child w));
  munmap := fun _ _ => ret 0;
  lw := fun x w => if d_rw w x then Ret (d_word w x) (touched x (d_word w) w) else Fuel w;
  sw := fun x v w => if d_rw w x then Ret tt (touched x (<[x := i32 v]> (d_word w)) w) else Fuel w
|}.

Lemma touched_word x f w y : (d_present w (page y) = false -> page y <> page x -> f y = FILL) -> d_word (touched x f w) y = f y.
Proof.
  intros H. unfold d_word, touched. cbn. destruct (d_present w (page y)); [done|]. cbn. destruct (Z.eqb_spec (page y) (page x)); [done|].
  symmetry. by apply H.
Qed.

#[export] Instance demo_sharing : Sharing world.
Proof.
  refine {| word := d_word; rw := d_rw; shared := d_shared; present := d_present; forked := fun w => w |}.
  - intros len prot flags w Hl. do 2 eexists. split; [reflexivity|]. split; [rewrite Z.mul_comm; apply Z_mod_mult|]. split; [|done]. intros x Hx. cbn.
    destruct (Z.leb_spec (4096 * d_next w) x), (Z.ltb_spec x (4096 * d_next w + len)); try lia. split; [done|]. split; [done|].
    destruct (Z.ltb_spec (page x) (d_next w)); [unfold page in *; Z.div_mod_to_equations; lia|apply andb_false_r].
  - intros a len w. do 2 eexists. split; [reflexivity|]. done.
  - intros w x _ Hp. unfold d_word. by rewrite Hp.
  - intros x w Hr. cbn. rewrite Hr. eexists. split; [reflexivity|]. split; [|done]. intros y. apply touched_word. intros Hp _. unfold d_word. by rewrite Hp.
  - intros x v w Hr. cbn. rewrite Hr. eexists. split; [reflexivity|]. split; [|done]. intros y _.
    assert (E : (<[x := i32 v]> (d_word w)) y = if y =? x then i32 v else d_word w y)
      by (destruct (Z.eqb_spec y x) as [->|Hne]; [by rewrite fn_lookup_insert|by rewrite fn_lookup_insert_ne]).
    rewrite <- E. apply touched_word. intros Hp Hne. rewrite E. destruct (Z.eqb_spec y x) as [Heq|]; [by rewrite Heq in Hne|]. unfold d_word. by rewrite Hp.
  - done.
  - intros child st w w1 E. cbn in *. rewrite E. do 3 eexists. split; [reflexivity|]. split; [lia|]. split; [reflexivity|]. split; [|done].
    intros y. unfold d_word. cbn. destruct (d_present w (page y)); [|by rewrite andb_false_r]. by rewrite andb_true_r.
Defined.

Definition w0 : world := mkWorld (fun _ => 7) (fun _ => false) (fun _ => false) (fun _ => false) (fun _ => []) 1 None.

Lemma prodcons_correct_witness :
  (exists w', prodcons1_main w0 = Panic "exit" (exited 0 w') /\ output w' 1 = bytes "total = 55" ++ [10]) /\
  (exists w', prodcons2_main w0 = Panic "exit" (exited 0 w') /\ output w' 1 = bytes "total = 0" ++ [10]) /\
  (exists w', prodcons3_main w0 = Panic "exit" (exited 0 w') /\ output w' 1 = bytes "total = 673720320" ++ [10]).
Proof.
  destruct (prodcons_correct w0) as (_ & (w1 & E1 & H1) & (w2 & E2 & H2) & (w3 & E3 & H3)).
  split; [exists w1; split; [exact E1|exact (H1 1)]|]. split; [exists w2; split; [exact E2|exact (H2 1)]|].
  exists w3. split; [exact E3|]. exact (H3 1).
Defined.
End ProdConsWitness.
