(* ===== verification/Umalloc.v ===== *)
(** * user/umalloc.c

    The allocator of Kernighan and Ritchie on byte memory: a ring of free
    blocks in the order of their addresses, entered at [freep]. The blocks
    handed out are disjoint from each other and from the free ones, their
    contents are left alone, and every call returns. *)

From stdpp Require Import sorting.
From S2P Require Import Prelude Machine CString.

(** The memory of the process, the variable [freep] and the end of the heap. *)
Record ust := mkUst { u_mem : memory; u_freep : Z; u_brk : Z }.

(** [sizeof(Header)] *)
Definition SIZEOF_HEADER : Z := 16.

Section Code.
(** The address of [base], and the system call [sbrk]. *)
Context (base : Z) (sbrk : Z -> M ust Z).

(** [p->s.ptr] and [p->s.size] *)
Definition get_ptr (p : Z) : M ust Z := gets (fun s => ld64 (u_mem s) p).
Definition get_size (p : Z) : M ust Z := gets (fun s => ld32 (u_mem s) (p + 8)).
Definition put_ptr (p v : Z) : M ust unit := modify (fun s => mkUst (st64 (u_mem s) p v) (u_freep s) (u_brk s)).
Definition put_size (p v : Z) : M ust unit := modify (fun s => mkUst (st32 (u_mem s) (p + 8) v) (u_freep s) (u_brk s)).
Definition put_freep (p : Z) : M ust unit := modify (fun s => mkUst (u_mem s) p (u_brk s)).

(** The loop of [free]: the block after which [bp] belongs. *)
Definition free_step (bp p : Z) : M ust (Z + Z) :=
  nxt <- get_ptr p ;;
  if (bp >? p) && (bp <? nxt) then ret (inr p)
  else if (p >=? nxt) && ((bp >? p) || (bp <? nxt)) then ret (inr p)
  else ret (inl nxt).

(** [bp] is put in front of the block after [p], and joined to it if it ends there. *)
Definition join_next (bp p : Z) : M ust unit :=
  n <- get_size bp ;;
  nxt <- get_ptr p ;;
  if bp + SIZEOF_HEADER * n =? nxt
  then
    k <- get_size nxt ;;
    put_size bp (u32 (n + k)) ;;;
    q <- get_ptr nxt ;;
    put_ptr bp q
  else put_ptr bp nxt.

Definition join_prev (bp p : Z) : M ust unit :=
  n <- get_size p ;;
  if p + SIZEOF_HEADER * n =? bp
  then
    k <- get_size bp ;;
    put_size p (u32 (n + k)) ;;;
    q <- get_ptr bp ;;
    put_ptr p q
  else put_ptr p bp.

Definition free (ap : Z) : M ust unit :=
  let bp := ap - SIZEOF_HEADER in
  p0 <- gets u_freep ;;
  p <- loop (free_step bp) p0 ;;
  join_next bp p ;;;
  join_prev bp p ;;;
  put_freep p.

Definition morecore (nu : Z) : M ust Z :=
  let nu := if nu <? 4096 then 4096 else nu in
  p <- sbrk (i32 (nu * SIZEOF_HEADER)) ;;
  if p =? -1 then ret 0
  else
    put_size p nu ;;;
    free (p + SIZEOF_HEADER) ;;;
    gets u_freep.

(** [p], which is large enough, gives [nunits] from its end. *)
Definition take_units (nunits prevp p : Z) : M ust Z :=
  n <- get_size p ;;
  p <- (if n =? nunits
        then
          q <- get_ptr p ;;
          put_ptr prevp q ;;;
          ret p
        else
          put_size p (u32 (n - nunits)) ;;;
          k <- get_size p ;;
          let p := p + SIZEOF_HEADER * k in
          put_size p nunits ;;;
          ret p) ;;
  put_freep prevp ;;;
  ret (p + SIZEOF_HEADER).

(** The body of the loop of [malloc]. *)
Definition malloc_step (nunits : Z) '((prevp, p) : Z * Z) : M ust (Z * Z + Z) :=
  n <- get_size p ;;
  if n >=? nunits
  then
    r <- take_units nunits prevp p ;;
    ret (inr r)
  else
    fp <- gets u_freep ;;
    if p =? fp
    then
      p <- morecore nunits ;;
      if p =? 0 then ret (inr 0)
      else
        q <- get_ptr p ;;
        ret (inl (p, q))
    else
      q <- get_ptr p ;;
      ret (inl (p, q)).

Definition malloc (nbytes : Z) : M ust Z :=
  let nunits := u32 ((nbytes + SIZEOF_HEADER - 1) / SIZEOF_HEADER + 1) in
  fp <- gets u_freep ;;
  prevp <- (if fp =? 0
            then
              put_freep base ;;;
              put_ptr base base ;;;
              put_size base 0 ;;;
              ret base
            else ret fp) ;;
  p <- get_ptr prevp ;;
  loop (malloc_step nunits) (prevp, p).
End Code.

(** ** Headers in memory *)

Definition hp (m : memory) (a : Z) : Z := ld64 m a.
Definition hs (m : memory) (a : Z) : Z := ld32 m (a + 8).

(** Two headers are the same or do not overlap. *)
Definition apart (a b : Z) : Prop := a = b \/ a + 16 <= b \/ b + 16 <= a.

Lemma hp_st64 m a b v : 0 <= v < 2 ^ 64 -> apart a b -> hp (st64 m a v) b = if decide (b = a) then v else hp m b.
Proof.
  unfold hp. intros Hv Hab. destruct (decide (b = a)) as [->|Hne]; [by apply ld64_st64_same|]. apply ld64_st64_other. destruct Hab; lia.
Qed.

Lemma hs_st64 m a b v : apart a b -> hs (st64 m a v) b = hs m b.
Proof. unfold hs, ld32, st64. intros Hab. apply ld_st_other. destruct Hab; lia. Qed.

Lemma hp_st32 m a b v : apart a b -> hp (st32 m (a + 8) v) b = hp m b.
Proof. unfold hp, ld64, st32. intros Hab. apply ld_st_other. destruct Hab; lia. Qed.

Lemma hs_st32 m a b v : 0 <= v < 2 ^ 32 -> apart a b -> hs (st32 m (a + 8) v) b = if decide (b = a) then v else hs m b.
Proof.
  unfold hs, ld32, st32. intros Hv Hab. destruct (decide (b = a)) as [->|Hne].
  - rewrite ld_st_same. by apply Z.mod_small.
  - apply ld_st_other. destruct Hab; lia.
Qed.

(** The bytes that a header does not cover. *)
Lemma st64_header m a v x : ~ (a <= x < a + 16) -> st64 m a v x = m x.
Proof. intros H. apply st_outside. cbn. lia. Qed.
Lemma st32_header m a v x : ~ (a <= x < a + 16) -> st32 m (a + 8) v x = m x.
Proof. intros H. apply st_outside. cbn. lia. Qed.

(** ** Rings *)

(** Each address of [l] holds a pointer to the next, the last one to [e]. *)
Fixpoint links (m : memory) (l : list Z) (e : Z) : Prop :=
  match l with [] => True | a :: l' => hp m a = hd e l' /\ links m l' e end.

Lemma links_app m l1 l2 e : links m (l1 ++ l2) e <-> links m l1 (hd e l2) /\ links m l2 e.
Proof.
  induction l1 as [|a l1 IH]; cbn; [tauto|]. rewrite IH. destruct l1; cbn; tauto.
Qed.

Lemma links_ext m m' l e : (forall a, a ∈ l -> hp m' a = hp m a) -> links m l e -> links m' l e.
Proof.
  induction l as [|a l IH]; cbn; [done|]. intros Hx [H1 H2]. split; [rewrite Hx; [done|apply elem_of_cons; auto]|].
  apply IH; [|done]. intros b Hb. apply Hx, elem_of_cons. auto.
Qed.

(** ** Blocks *)

(** A block is the address of its header and its size in units. *)
Abbreviation block := (Z * Z)%type.

(** The block and [y] are disjoint. *)
Definition sep (x y : block) : Prop := x.1 + 16 * x.2 <= y.1 \/ y.1 + 16 * y.2 <= x.1.

(** The address [a] lies in one of the blocks. *)
Definition covers (l : list block) (a : Z) : Prop := exists x, x ∈ l /\ x.1 <= a < x.1 + 16 * x.2.

Lemma covers_app l1 l2 a : covers (l1 ++ l2) a <-> covers l1 a \/ covers l2 a.
Proof. unfold covers. setoid_rewrite elem_of_app. split; [intros (x & [?|?] & ?)|intros [(x & ? & ?)|(x & ? & ?)]]; eauto. Qed.

Lemma covers_cons x l a : covers (x :: l) a <-> x.1 <= a < x.1 + 16 * x.2 \/ covers l a.
Proof. unfold covers. setoid_rewrite elem_of_cons. split; [intros (y & [->|?] & ?)|intros [?|(y & ? & ?)]]; eauto. Qed.

(** [x] comes before [y], with a gap between them. *)
Definition before (x y : block) : Prop := x.1 + 16 * x.2 < y.1.

(** The free blocks [fl] are in the order of their addresses, no two adjacent;
    they and the allocated blocks [al] are disjoint parts of [lo .. hi). *)
Record layout (lo hi : Z) (fl al : list block) : Prop := {
  l_blocks : forall x, x ∈ fl ++ al -> 1 <= x.2 /\ lo <= x.1 /\ x.1 + 16 * x.2 <= hi;
  l_sorted : StronglySorted before fl;
  l_sep : forall x y, x ∈ fl -> y ∈ al -> sep x y;
  l_alloc : ForallOrdPairs sep al
}.

(** The ring of free blocks begins with [base], which has no units, and
    headers hold the sizes. *)
Record heap_ok (base : Z) (s : ust) (fl al : list block) : Prop := {
  h_bounds : 0 < base /\ base + 16 <= u_brk s <= 2 ^ 31;
  h_layout : layout (base + 16) (u_brk s) fl al;
  h_ring : links (u_mem s) (base :: map fst fl) base;
  h_base : hs (u_mem s) base = 0;
  h_sizes : forall x, x ∈ fl ++ al -> hs (u_mem s) x.1 = x.2;
  h_freep : u_freep s ∈ base :: map fst fl
}.

Arguments l_blocks {lo hi fl al} l.
Arguments l_sorted {lo hi fl al} l.
Arguments l_sep {lo hi fl al} l.
Arguments l_alloc {lo hi fl al} l.
Arguments h_bounds {base s fl al} h.
Arguments h_layout {base s fl al} h.
Arguments h_ring {base s fl al} h.
Arguments h_base {base s fl al} h.
Arguments h_sizes {base s fl al} h.
Arguments h_freep {base s fl al} h.

Lemma before_trans x y z : 1 <= y.2 -> before x y -> before y z -> before x z.
Proof. unfold before. lia. Qed.

Lemma sorted_mid (fl : list block) x y l1 l2 l3 : fl = l1 ++ x :: l2 ++ y :: l3 -> StronglySorted before fl -> before x y.
Proof.
  intros -> Hs. apply StronglySorted_app_1_r in Hs. apply StronglySorted_inv in Hs as [_ Hs]. rewrite Forall_app, Forall_cons in Hs. tauto.
Qed.

(** Free blocks are disjoint too. *)
Lemma sorted_sep fl x y : StronglySorted before fl -> x ∈ fl -> y ∈ fl -> x = y \/ sep x y.
Proof.
  induction 1 as [|z fl _ IH Hz]; [by rewrite elem_of_nil|]. rewrite !elem_of_cons. rewrite Forall_forall in Hz.
  unfold sep, before in *. intros [->|Hx] [->|Hy].
  - by left.
  - right. specialize (Hz y Hy). lia.
  - right. specialize (Hz x Hx). lia.
  - auto.
Qed.

Lemma alloc_sep al x y : ForallOrdPairs sep al -> x ∈ al -> y ∈ al -> x = y \/ sep x y.
Proof.
  induction 1 as [|z al Hz _ IH]; [by rewrite elem_of_nil|]. rewrite !elem_of_cons. rewrite Forall_forall in Hz.
  unfold sep in *. intros [->|Hx] [->|Hy].
  - by left.
  - right. by apply Hz.
  - right. specialize (Hz x Hx). lia.
  - auto.
Qed.

Lemma layout_sep lo hi fl al x y : layout lo hi fl al -> x ∈ fl ++ al -> y ∈ fl ++ al -> x = y \/ sep x y.
Proof.
  intros [_ Hs Hsep Ha]. rewrite !elem_of_app. intros [Hx|Hx] [Hy|Hy].
  - by apply (sorted_sep fl).
  - right. auto.
  - right. specialize (Hsep y x Hy Hx). unfold sep in *. lia.
  - by apply (alloc_sep al).
Qed.

(** Headers do not overlap. *)
Lemma heap_apart base s fl al x y : heap_ok base s fl al -> x ∈ fl ++ al -> y ∈ fl ++ al -> apart x.1 y.1.
Proof.
  intros Hh Hx Hy. destruct (l_blocks (h_layout Hh) _ Hx) as [Hx1 _]. destruct (l_blocks (h_layout Hh) _ Hy) as [Hy1 _].
  destruct (layout_sep _ _ _ _ x y (h_layout Hh) Hx Hy) as [->|Hs]; [by left|]. unfold apart, sep in *. lia.
Qed.

Lemma heap_apart_base base s fl al x : heap_ok base s fl al -> x ∈ fl ++ al -> apart base x.1.
Proof. intros Hh Hx. destruct (l_blocks (h_layout Hh) _ Hx) as (_ & Hx1 & _). unfold apart. lia. Qed.

(** Where a block that is disjoint from the free ones belongs. *)
Lemma place fl bp n : 1 <= n -> (forall x, x ∈ fl -> 1 <= x.2 /\ sep x (bp, n)) -> StronglySorted before fl ->
  exists A B, fl = A ++ B /\ (forall x, x ∈ A -> x.1 + 16 * x.2 <= bp) /\ (forall y, y ∈ B -> bp + 16 * n <= y.1).
Proof.
  intros Hn Hx Hs. induction Hs as [|z fl Hs IH Hz].
  { exists [], []. split; [done|]. split; intros ? ?%elem_of_nil; done. }
  destruct (Hx z) as [Hz1 Hzs]; [apply elem_of_cons; by left|]. unfold sep in Hzs. cbn in Hzs. destruct Hzs as [Hle|Hge].
  - destruct IH as (A & B & -> & HA & HB); [intros x Hin; apply Hx, elem_of_cons; by right|].
    exists (z :: A), B. split; [done|]. split; [|done]. intros x [->|Hin]%elem_of_cons; auto.
  - exists [], (z :: fl). split; [done|]. split; [intros ? ?%elem_of_nil; done|]. rewrite Forall_forall in Hz.
    intros y [->|Hin]%elem_of_cons; [done|]. specialize (Hz y Hin). unfold before in Hz. lia.
Qed.

Lemma sorted_app3 A x B : StronglySorted before (A ++ x :: B) <->
  StronglySorted before A /\ StronglySorted before B /\ (forall y, y ∈ A -> before y x) /\ (forall y, y ∈ B -> before x y) /\
  (forall y z, y ∈ A -> z ∈ B -> before y z).
Proof.
  rewrite StronglySorted_app, StronglySorted_cons, Forall_forall. split.
  - intros (H1 & H2 & H3 & H4). split; [done|]. split; [done|]. split; [intros y Hy; apply H1; [done|apply elem_of_cons; auto]|].
    split; [done|]. intros y z Hy Hz. apply H1; [done|apply elem_of_cons; auto].
  - intros (H1 & H2 & H3 & H4 & H5). split; [|done]. intros y z Hy [->|Hz]%elem_of_cons; auto.
Qed.

Lemma alloc_cons x al : ForallOrdPairs sep (x :: al) <-> (forall y, y ∈ al -> sep x y) /\ ForallOrdPairs sep al.
Proof.
  split.
  - intros H. inversion H as [|? ? Hx Ha]; subst. rewrite Forall_forall in Hx. done.
  - intros [Hx Ha]. constructor; [by apply Forall_forall|done].
Qed.

(** [layout] spelled out for a list of free blocks around one of them and for a
    list of allocated blocks with a first one. *)
Definition in_range (lo hi : Z) (x : block) : Prop := 1 <= x.2 /\ lo <= x.1 /\ x.1 + 16 * x.2 <= hi.

Lemma layout_mid lo hi A x B al : layout lo hi (A ++ x :: B) al <->
  layout lo hi (A ++ B) al /\ in_range lo hi x /\ (forall y, y ∈ A -> before y x) /\ (forall y, y ∈ B -> before x y) /\
  (forall y, y ∈ al -> sep x y).
Proof.
  split.
  - intros [Hb Hs Hsep Hal]. apply sorted_app3 in Hs as (H1 & H2 & H3 & H4 & H5). split; [|split; [|split; [done|split; [done|]]]].
    + split; [| | |done].
      * intros y Hy. apply Hb. rewrite !elem_of_app, !elem_of_cons in *. tauto.
      * apply StronglySorted_app. done.
      * intros y z Hy. apply Hsep. rewrite !elem_of_app, !elem_of_cons in *. tauto.
    + apply Hb. rewrite !elem_of_app, !elem_of_cons. tauto.
    + intros y Hy. apply Hsep; [|done]. rewrite !elem_of_app, !elem_of_cons. tauto.
  - intros ([Hb Hs Hsep Hal] & Hx & H3 & H4 & H5). apply StronglySorted_app in Hs as (H6 & H1 & H2). split; [| | |done].
    + intros y Hy. rewrite <- app_assoc, elem_of_app in Hy. cbn [app] in Hy. rewrite elem_of_cons in Hy.
      destruct Hy as [Hy|[->|Hy]]; [apply Hb|done|apply Hb]; rewrite !elem_of_app in *; tauto.
    + apply sorted_app3. done.
    + intros y z Hy Hz. rewrite !elem_of_app, !elem_of_cons in Hy. destruct Hy as [Hy|[->|Hy]]; [apply Hsep; [|done]| auto |apply Hsep; [|done]];
        rewrite !elem_of_app; tauto.
Qed.

Lemma layout_alloc lo hi fl x al : layout lo hi fl (x :: al) <->
  layout lo hi fl al /\ in_range lo hi x /\ (forall y, y ∈ fl -> sep y x) /\ (forall y, y ∈ al -> sep x y).
Proof.
  split.
  - intros [Hb Hs Hsep Hal]. apply alloc_cons in Hal as [Hx Hal]. split; [split; [|done| |done]|split; [|split; [|done]]].
    + intros y Hy. apply Hb. rewrite !elem_of_app, !elem_of_cons in *. tauto.
    + intros y z Hy Hz. apply Hsep; [done|]. apply elem_of_cons. auto.
    + apply Hb. rewrite elem_of_app, elem_of_cons. auto.
    + intros y Hy. apply Hsep; [done|]. apply elem_of_cons. auto.
  - intros ([Hb Hs Hsep Hal] & Hx & H1 & H2). split; [|done| |by apply alloc_cons].
    + intros y Hy. rewrite elem_of_app, elem_of_cons in Hy. destruct Hy as [Hy|[->|Hy]]; [apply Hb|done|apply Hb]; rewrite elem_of_app; auto.
    + intros y z Hy [->|Hz]%elem_of_cons; auto.
Qed.

Ltac blocks := unfold in_range, before, sep in *; cbn [fst snd] in *.

(** The block after [(bp, n)] is joined to it. *)
Lemma layout_join_next lo hi A kb B bp n al :
  layout lo hi (A ++ (bp + 16 * n, kb) :: B) ((bp, n) :: al) -> layout lo hi (A ++ B) ((bp, n + kb) :: al).
Proof.
  rewrite !layout_alloc, !layout_mid. intros ((HL & Hr & HA & HB & Hal) & Hr' & Hs & Hs'). split; [done|]. blocks. split; [lia|]. split.
  - intros y [Hy|Hy]%elem_of_app.
    + specialize (HA y Hy). specialize (Hs y). rewrite elem_of_app in Hs. specialize (Hs (or_introl Hy)). destruct (l_blocks HL y); [|lia].
      rewrite !elem_of_app. auto.
    + specialize (HB y Hy). lia.
  - intros y Hy. specialize (Hal y Hy). specialize (Hs' y Hy). destruct (l_blocks HL y); [rewrite !elem_of_app; auto|]. lia.
Qed.

(** It is joined to the block before it. *)
Lemma layout_join_prev lo hi A a ka B n al :
  layout lo hi (A ++ (a, ka) :: B) ((a + 16 * ka, n) :: al) -> (forall y, y ∈ B -> a + 16 * ka + 16 * n < y.1) ->
  layout lo hi (A ++ (a, ka + n) :: B) al.
Proof.
  rewrite !layout_alloc, !layout_mid. intros ((HL & Hr & HA & HB & Hal) & Hr' & Hs & Hs') HB'. split; [done|]. blocks. split; [lia|].
  split; [done|]. split; [intros y Hy; specialize (HB' y Hy); lia|].
  intros y Hy. specialize (Hal y Hy). specialize (Hs' y Hy). destruct (l_blocks HL y); [rewrite !elem_of_app; auto|]. lia.
Qed.

(** It becomes a free block of its own. *)
Lemma layout_insert lo hi A B bp n al :
  layout lo hi (A ++ B) ((bp, n) :: al) -> (forall x, x ∈ A -> x.1 + 16 * x.2 < bp) -> (forall y, y ∈ B -> bp + 16 * n < y.1) ->
  layout lo hi (A ++ (bp, n) :: B) al.
Proof. rewrite !layout_alloc, !layout_mid. blocks. intuition auto. Qed.

(** A free block is allocated whole, or its end is. *)
Lemma layout_take lo hi A p k B al : layout lo hi (A ++ (p, k) :: B) al -> layout lo hi (A ++ B) ((p, k) :: al).
Proof.
  rewrite !layout_alloc, !layout_mid. intros (HL & Hr & HA & HB & Hal). split; [done|]. split; [done|]. split; [|done].
  intros y [Hy|Hy]%elem_of_app; blocks; [specialize (HA y Hy)|specialize (HB y Hy)]; lia.
Qed.

Lemma layout_take_end lo hi A p k n B al : 1 <= n < k -> layout lo hi (A ++ (p, k) :: B) al ->
  layout lo hi (A ++ (p, k - n) :: B) ((p + 16 * (k - n), n) :: al).
Proof.
  rewrite !layout_alloc, !layout_mid. intros Hn (HL & Hr & HA & HB & Hal). blocks. split; [|split; [lia|split]].
  - split; [done|]. split; [lia|]. split; [done|]. split; [intros y Hy; specialize (HB y Hy); lia|]. intros y Hy. specialize (Hal y Hy).
    destruct (l_blocks HL y); [rewrite !elem_of_app; auto|]. lia.
  - intros y Hy. rewrite elem_of_app, elem_of_cons in Hy. destruct Hy as [Hy|[->|Hy]]; [specialize (HA y Hy)|cbn|specialize (HB y Hy)]; lia.
  - intros y Hy. specialize (Hal y Hy). destruct (l_blocks HL y); [rewrite !elem_of_app; auto|]. lia.
Qed.

Lemma sorted_length hi fl : forall lo, lo <= hi -> StronglySorted before fl -> (forall x, x ∈ fl -> in_range lo hi x) ->
  16 * Z.of_nat (length fl) <= hi - lo.
Proof.
  induction fl as [|x fl IH]; intros lo Hlo Hs Hr; cbn [length]; [lia|]. apply StronglySorted_cons in Hs as [Hx Hs]. rewrite Forall_forall in Hx.
  destruct (Hr x) as (H1 & H2 & H3); [apply elem_of_cons; auto|]. specialize (IH (x.1 + 16 * x.2) H3 Hs).
  enough (16 * Z.of_nat (length fl) <= hi - (x.1 + 16 * x.2)) by lia. apply IH. intros y Hy. specialize (Hx y Hy).
  destruct (Hr y) as (? & _ & ?); [apply elem_of_cons; auto|]. blocks. lia.
Qed.

Lemma rounds_trans {S X R} (body : X -> M S (X + R)) k1 k2 x s x1 s1 x2 s2 :
  rounds body k1 x s x1 s1 -> rounds body k2 x1 s1 x2 s2 -> rounds body (k1 + k2) x s x2 s2.
Proof. induction 1 as [|k x s x' s' x1 s1 E _ IH]; [done|]. intros H2. cbn. econstructor; [exact E|]. by apply IH. Qed.

Lemma rounds_runs {S X R} (body : X -> M S (X + R)) k n x s x1 s1 o :
  rounds body k x s x1 s1 -> runs body n x1 s1 o -> runs body (k + n) x s o.
Proof. induction 1 as [|k x s x' s' x1 s1 E _ IH]; [done|]. intros H2. cbn. econstructor; [exact E|]. by apply IH. Qed.

(** ** The walk of [free] *)

Section Free.
Context (base : Z).

Lemma free_step_on bp x s : (bp <= x \/ hp (u_mem s) x <= bp) -> (x < hp (u_mem s) x \/ (hp (u_mem s) x <= bp <= x)) ->
  free_step bp x s = Ret (inl (hp (u_mem s) x)) s.
Proof.
  intros H1 H2. unfold free_step, get_ptr, gets, bind. cbn [bindO]. unfold hp in *. set (q := ld64 (u_mem s) x) in *.
  replace ((bp >? x) && (bp <? q)) with false; [|symmetry; apply andb_false_iff; rewrite Z.gtb_ltb; lia].
  replace ((x >=? q) && ((bp >? x) || (bp <? q))) with false; [done|]. symmetry. rewrite Z.geb_leb, Z.gtb_ltb.
  apply andb_false_iff. rewrite orb_false_iff. lia.
Qed.

Lemma free_step_stop bp x s : x < bp -> (bp < hp (u_mem s) x \/ hp (u_mem s) x <= x) -> free_step bp x s = Ret (inr x) s.
Proof.
  intros H1 H2. unfold free_step, get_ptr, gets, bind. cbn [bindO]. unfold hp in *. set (q := ld64 (u_mem s) x) in *.
  rewrite Z.gtb_ltb, Z.geb_leb. destruct (Z.ltb_spec x bp); [|lia]. cbn [andb orb]. destruct (Z.ltb_spec bp q); [done|].
  destruct (Z.leb_spec q x); [done|lia].
Qed.

(** A stretch of the ring that is passed over. *)
Lemma free_walk bp s l e : links (u_mem s) l e -> (forall x, x ∈ l -> free_step bp x s = Ret (inl (hp (u_mem s) x)) s) ->
  rounds (free_step bp) (length l) (hd e l) s e s.
Proof.
  revert e. induction l as [|a l IH]; intros e Hl Hx; [constructor|]. destruct Hl as [Ha Hl]. cbn [length hd].
  econstructor; [apply Hx, elem_of_cons; by left|]. rewrite Ha. apply IH; [done|]. intros x Hx'. apply Hx, elem_of_cons. by right.
Qed.

Lemma links_next m l e x : links m l e -> x ∈ l -> exists l1 l2, l = l1 ++ x :: l2 /\ hp m x = hd e l2.
Proof.
  intros Hl (l1 & l2 & ->)%list_elem_of_split. exists l1, l2. split; [done|]. apply links_app in Hl as [_ [Hx _]]. done.
Qed.

(** The addresses increase along the list. *)
Lemma addrs_sorted lo hi fl al : layout (lo + 16) hi fl al -> StronglySorted Z.lt (lo :: map fst fl).
Proof.
  intros [Hb Hs _ _]. apply StronglySorted_cons. split.
  - apply Forall_forall. intros x (y & -> & Hy)%list_elem_of_fmap. destruct (Hb y); [rewrite elem_of_app; auto|lia].
  - assert (Hb' : forall x, x ∈ fl -> 1 <= x.2) by (intros x Hx; apply Hb; rewrite elem_of_app; auto). clear Hb.
    induction Hs as [|x fl Hs IH Hx]; cbn; [constructor|]. apply StronglySorted_cons. rewrite Forall_forall in Hx. split.
    + apply Forall_forall. intros z (y & -> & Hy)%list_elem_of_fmap. specialize (Hx y Hy). specialize (Hb' x). rewrite elem_of_cons in Hb'. specialize (Hb' (or_introl eq_refl)). blocks. lia.
    + apply IH. intros y Hy. apply Hb', elem_of_cons. auto.
Qed.

(** The first part of the ring, up to the last address [p] below [bp], and the
    rest of it are passed over. *)
Lemma pass_low bp s Q p : links (u_mem s) Q p -> StronglySorted Z.lt (Q ++ [p]) -> p < bp ->
  forall x, x ∈ Q -> free_step bp x s = Ret (inl (hp (u_mem s) x)) s.
Proof.
  intros HQ Hs Hp x Hx. destruct (links_next _ _ _ _ HQ Hx) as (l1 & l2 & -> & E). rewrite <- app_assoc in Hs. cbn [app] in Hs.
  apply StronglySorted_app_1_r, StronglySorted_cons in Hs as [Hx' Hs]. rewrite Forall_forall in Hx'.
  assert (Hin : hd p l2 ∈ l2 ++ [p]) by (destruct l2; cbn; rewrite elem_of_cons; auto).
  assert (Hle : hd p l2 <= p).
  { destruct l2 as [|y l2]; cbn; [lia|]. cbn [app] in Hs. apply StronglySorted_cons in Hs as [Hy _]. rewrite Forall_forall in Hy.
    specialize (Hy p). rewrite elem_of_app, elem_of_cons in Hy. specialize (Hy (or_intror (or_introl eq_refl))). lia. }
  specialize (Hx' _ Hin). apply free_step_on; rewrite E; lia.
Qed.

Lemma pass_high bp s l : links (u_mem s) l base -> StronglySorted Z.lt l -> base < bp -> (forall x, x ∈ l -> bp <= x) ->
  forall x, x ∈ l -> free_step bp x s = Ret (inl (hp (u_mem s) x)) s.
Proof.
  intros Hl Hs Hb Hbp x Hx. pose proof (Hbp x Hx). destruct (links_next _ _ _ _ Hl Hx) as (l1 & l2 & -> & E).
  apply StronglySorted_app_1_r, StronglySorted_cons in Hs as [Hx' _]. rewrite Forall_forall in Hx'.
  apply free_step_on; rewrite E; [lia|]. destruct l2 as [|y l2]; cbn; [lia|]. left. apply Hx', elem_of_cons. by left.
Qed.

(** The search ends at the block before [bp]. *)
Lemma free_find s fl A B bp n al :
  heap_ok base s fl ((bp, n) :: al) -> fl = A ++ B ->
  (forall x, x ∈ A -> x.1 + 16 * x.2 <= bp) -> (forall y, y ∈ B -> bp + 16 * n <= y.1) ->
  exists Q p, base :: map fst A = Q ++ [p] /\ loop (free_step bp) (u_freep s) s = Ret p s /\
    links (u_mem s) Q p /\ hp (u_mem s) p = hd base (map fst B) /\ links (u_mem s) (map fst B) base.
Proof.
  intros Hh -> HA HB. destruct (exists_last (l := base :: map fst A)) as (Q & p & EQ); [done|]. exists Q, p. split; [done|].
  pose proof (h_ring Hh) as Hr. rewrite map_app, app_comm_cons, EQ, links_app, links_app in Hr. destruct Hr as ((HQ & Hp & _) & HmB).
  cbn [hd] in HQ, Hp. pose proof (h_layout Hh) as HL. apply layout_alloc in HL as (HL & Hbp & _ & _).
  pose proof (addrs_sorted _ _ _ _ HL) as Hs. rewrite map_app, app_comm_cons, EQ, <- app_assoc in Hs.
  assert (Hlen : 16 * Z.of_nat (length (A ++ B)) <= 2 ^ 31).
  { destruct (h_bounds Hh). pose proof (sorted_length (u_brk s) (A ++ B) (base + 16) ltac:(lia) (l_sorted HL)) as Hl.
    assert (16 * Z.of_nat (length (A ++ B)) <= u_brk s - (base + 16)); [|lia]. apply Hl. intros x Hx. apply (l_blocks HL). rewrite elem_of_app. auto. }
  assert (HlQ : length Q = length A) by (apply (f_equal length) in EQ; cbn in EQ; rewrite length_app, length_map in EQ; cbn in EQ; lia).
  blocks. assert (Hpb : p < bp).
  { assert (Hin : p ∈ base :: map fst A) by (rewrite EQ, elem_of_app, elem_of_cons; auto). apply elem_of_cons in Hin as [->|Hin]; [lia|].
    apply list_elem_of_fmap in Hin as (y & -> & Hy). specialize (HA y Hy). destruct (l_blocks HL y); [rewrite !elem_of_app; auto|lia]. }
  assert (Hstop : free_step bp p s = Ret (inr p) s).
  { apply free_step_stop; [done|]. rewrite Hp. destruct B as [|y B]; cbn.
    - right. assert (Hb : base ∈ Q ++ [p]) by (rewrite <- EQ; apply elem_of_cons; auto). rewrite elem_of_app, list_elem_of_singleton in Hb. destruct Hb as [Hb| ->]; [|lia].
      apply StronglySorted_app_1_elem_of with (x1 := base) (x2 := p) in Hs; [lia|done|]. apply elem_of_cons. auto.
    - left. specialize (HB y). rewrite elem_of_cons in HB. specialize (HB (or_introl eq_refl)). lia. }
  assert (Hlow : forall L1 f L2, Q = L1 ++ f :: L2 -> rounds (free_step bp) (length (f :: L2)) f s p s).
  { intros L1 f L2 ->. apply (free_walk bp s (f :: L2) p).
    - apply links_app in HQ. tauto.
    - intros x Hx. apply (pass_low bp s (L1 ++ f :: L2) p); [done| |done|rewrite elem_of_app; auto].
      apply (StronglySorted_app_1_l _ _ (map fst B)). by rewrite <- app_assoc. }
  split; [|done].
  pose proof (h_freep Hh) as Hf. rewrite map_app, app_comm_cons, EQ, !elem_of_app, list_elem_of_singleton in Hf. destruct Hf as [[Hf|Hf]|Hf].
  - apply list_elem_of_split in Hf as (L1 & L2 & E). pose proof (Hlow _ _ _ E) as HR. apply (loop_runs _ (length (u_freep s :: L2) + 1)).
    + eapply rounds_runs; [exact HR|]. by constructor.
    + apply (f_equal length) in E. rewrite length_app in E. cbn in *. rewrite length_app in Hlen. lia.
  - rewrite Hf. apply (loop_runs _ 1); [by constructor|lia].
  - apply list_elem_of_split in Hf as (L1 & L2 & E).
    assert (HR : rounds (free_step bp) (length (u_freep s :: L2)) (u_freep s) s base s).
    { apply (free_walk bp s (u_freep s :: L2) base).
      - rewrite E in HmB. apply links_app in HmB. tauto.
      - intros x Hx. apply (pass_high bp s (map fst B)); [done| |lia| |rewrite E, elem_of_app; auto].
        + apply StronglySorted_app_1_r in Hs. cbn in Hs. by apply StronglySorted_cons in Hs as [_ Hs].
        + intros z (y & -> & Hy)%list_elem_of_fmap. specialize (HB y Hy). lia. }
    assert (HR2 : exists k, rounds (free_step bp) k base s p s /\ (k <= length Q)%nat).
    { destruct Q as [|q Q]; cbn in EQ; injection EQ as <- ?; [exists 0%nat; split; [constructor|lia]|]. exists (length (base :: Q)). split; [|done].
      by apply (Hlow [] base Q). }
    destruct HR2 as (k & HR2 & Hk). apply (loop_runs _ (length (u_freep s :: L2) + k + 1)).
    + eapply rounds_runs; [by eapply rounds_trans|]. by constructor.
    + apply (f_equal length) in E. rewrite length_map, length_app in E. cbn in *. rewrite length_app in Hlen. lia.
Qed.

(** The headers. *)
Definition nodes (fl al : list block) : list Z := base :: map fst (fl ++ al).

Lemma nodes_apart lo hi fl al a b : lo = base + 16 -> layout lo hi fl al -> a ∈ nodes fl al -> b ∈ nodes fl al -> apart a b.
Proof.
  intros -> HL. unfold nodes. rewrite !elem_of_cons, !list_elem_of_fmap. intros [->|(x & -> & Hx)] [->|(y & -> & Hy)].
  - by left.
  - destruct (l_blocks HL y Hy). right. lia.
  - destruct (l_blocks HL x Hx). right. lia.
  - destruct (l_blocks HL x Hx), (l_blocks HL y Hy).
    destruct (layout_sep _ _ _ _ x y HL Hx Hy) as [->|Hs]; [by left|]. unfold apart, sep in *. lia.
Qed.

(** Only the header at [a] differs. *)
Definition only_header (a : Z) (m m' : memory) : Prop :=
  (forall b, apart a b -> b <> a -> hp m' b = hp m b /\ hs m' b = hs m b) /\ forall x, ~ (a <= x < a + 16) -> m' x = m x.

Lemma only_ptr a m v : only_header a m (st64 m a v).
Proof.
  split; [|intros x Hx; by apply st64_header]. intros b Hab Hne. split; [|by apply hs_st64].
  apply ld64_st64_other. destruct Hab; lia.
Qed.

Lemma only_size a m v : only_header a m (st32 m (a + 8) v).
Proof.
  split; [|intros x Hx; by apply st32_header]. intros b Hab Hne. split; [by apply hp_st32|].
  apply ld_st_other. destruct Hab; lia.
Qed.

Lemma only_trans a m1 m2 m3 : only_header a m1 m2 -> only_header a m2 m3 -> only_header a m1 m3.
Proof.
  intros [H1 H2] [H3 H4]. split.
  - intros b Hab Hne. destruct (H1 b Hab Hne), (H3 b Hab Hne). split; congruence.
  - intros x Hx. rewrite H4, H2 by done. done.
Qed.

(** The size and then the pointer of a header are set. *)
Lemma set_header m a n q : 0 <= n < 2 ^ 32 -> 0 <= q < 2 ^ 64 ->
  let m' := st64 (st32 m (a + 8) n) a q in hs m' a = n /\ hp m' a = q /\ only_header a m m'.
Proof.
  intros Hn Hq. cbv zeta. split; [|split].
  - rewrite hs_st64 by (by left). rewrite hs_st32 by (done || by left). by rewrite decide_True.
  - rewrite hp_st64 by (done || by left). by rewrite decide_True.
  - eapply only_trans; [apply only_size|apply only_ptr].
Qed.

Lemma next_range hi B : 0 < base -> base < hi -> (forall y : block, y ∈ B -> base < y.1 < hi) -> 0 < hd base (map fst B) < hi.
Proof. intros H1 H2 H. destruct B as [|y B]; cbn; [lia|]. specialize (H y). rewrite elem_of_cons in H. specialize (H (or_introl eq_refl)). lia. Qed.

Lemma join_next_run s A B bp n al p :
  heap_ok base s (A ++ B) ((bp, n) :: al) -> (forall y, y ∈ B -> bp + 16 * n <= y.1) ->
  hp (u_mem s) p = hd base (map fst B) -> links (u_mem s) (map fst B) base ->
  exists n1 B1 m1, join_next bp p s = Ret tt (mkUst m1 (u_freep s) (u_brk s)) /\
    layout (base + 16) (u_brk s) (A ++ B1) ((bp, n1) :: al) /\ (forall y, y ∈ B1 -> bp + 16 * n1 < y.1) /\ n <= n1 /\
    (forall y, y ∈ B1 -> y ∈ B) /\ hs m1 bp = n1 /\ hp m1 bp = hd base (map fst B1) /\ links (u_mem s) (map fst B1) base /\
    only_header bp (u_mem s) m1 /\ (forall a, covers ((bp, n1) :: B1) a <-> covers ((bp, n) :: B) a).
Proof.
  intros Hh HB Hp HlB. pose proof (h_layout Hh) as HL. destruct (h_bounds Hh) as [Hb0 Hb1].
  assert (Hn : hs (u_mem s) bp = n) by (apply (h_sizes Hh (bp, n)); rewrite !elem_of_app, elem_of_cons; auto).
  pose proof HL as HL'. apply layout_alloc in HL' as (HL0 & Hr & _ & _). blocks.
  assert (HBr : forall y, y ∈ B -> base < y.1 < u_brk s).
  { intros y Hy. destruct (l_blocks HL y); [rewrite !elem_of_app; auto|lia]. }
  unfold join_next, get_size, get_ptr, gets, bind. cbn [bindO]. fold (hs (u_mem s) bp) (hp (u_mem s) p). rewrite Hn, Hp. unfold SIZEOF_HEADER.
  destruct (Z.eqb_spec (bp + 16 * n) (hd base (map fst B))) as [E|E].
  - destruct B as [|[q k] B]; cbn in E; [lia|]. subst q. cbn [map hd fst] in *. destruct HlB as [Hq HlB].
    assert (Hk : hs (u_mem s) (bp + 16 * n) = k) by (apply (h_sizes Hh (bp + 16 * n, k)); rewrite !elem_of_app, elem_of_cons; auto).
    destruct (l_blocks HL (bp + 16 * n, k)) as (Hk1 & _ & Hk2); [rewrite !elem_of_app, elem_of_cons; auto|]. cbn in Hk1, Hk2.
    pose proof (layout_join_next _ _ _ _ _ _ _ _ HL) as HL1.
    exists (n + k), B. fold (hs (u_mem s) (bp + 16 * n)). rewrite Hk, u32_small by lia. unfold put_size, modify. cbn [bindO u_mem u_freep u_brk].
    fold (hp (st32 (u_mem s) (bp + 8) (n + k)) (bp + 16 * n)). rewrite hp_st32 by (right; lia). rewrite Hq. unfold put_ptr, modify.
    cbn [bindO u_mem u_freep u_brk]. eexists. split; [reflexivity|]. split; [done|]. split.
    { intros y Hy. apply layout_mid in HL0 as (_ & _ & _ & HB' & _). specialize (HB' y Hy). blocks. lia. }
    split; [lia|]. split; [intros y Hy; apply elem_of_cons; auto|].
    assert (Hq2 : 0 < hd base (map fst B) < u_brk s) by (apply next_range; [lia|lia|]; intros y Hy; apply HBr, elem_of_cons; auto).
    destruct (set_header (u_mem s) bp (n + k) (hd base (map fst B))) as (S1 & S2 & S3); [lia|lia|].
    split; [done|]. split; [done|]. split; [done|]. split; [done|]. intros a. rewrite !covers_cons. cbn [fst snd].
    assert (bp <= a < bp + 16 * (n + k) <-> bp <= a < bp + 16 * n \/ bp + 16 * n <= a < bp + 16 * n + 16 * k) by lia. tauto.
  - exists n, B. unfold put_ptr, modify. eexists. split; [reflexivity|]. split; [done|]. split.
    { intros y Hy. destruct B as [|z B]; [by apply elem_of_nil in Hy|]. cbn in E. specialize (HB z) as HBz. rewrite elem_of_cons in HBz. specialize (HBz (or_introl eq_refl)).
      apply elem_of_cons in Hy as [->|Hy]; [lia|]. apply layout_mid in HL0 as (_ & Hz & _ & HB' & _). specialize (HB' y Hy). blocks. lia. }
    split; [lia|]. split; [done|].
    assert (Hq2 : 0 < hd base (map fst B) < u_brk s) by (apply next_range; [lia|lia|done]).
    split; [by rewrite hs_st64 by (by left)|]. split; [|split; [done|split; [apply only_ptr|done]]].
    rewrite hp_st64 by (lia || by left). by rewrite decide_True.
Qed.

(** What is known when [bp] has been put in front of the block after [p]. *)
Record joined (s : ust) (A B : list block) (bp n : Z) (al : list block) (Q : list Z) (p : Z) (n1 : Z) (B1 : list block) (m1 : memory) : Prop := {
  j_heap : heap_ok base s (A ++ B) ((bp, n) :: al);
  j_low : forall x, x ∈ A -> x.1 + 16 * x.2 <= bp;
  j_Q : base :: map fst A = Q ++ [p];
  j_links : links (u_mem s) Q p;
  j_layout : layout (base + 16) (u_brk s) (A ++ B1) ((bp, n1) :: al);
  j_high : forall y, y ∈ B1 -> bp + 16 * n1 < y.1;
  j_sub : forall y, y ∈ B1 -> y ∈ B;
  j_size : hs m1 bp = n1;
  j_ptr : hp m1 bp = hd base (map fst B1);
  j_rest : links (u_mem s) (map fst B1) base;
  j_only : only_header bp (u_mem s) m1
}.

Arguments j_heap {s A B bp n al Q p n1 B1 m1} j.
Arguments j_low {s A B bp n al Q p n1 B1 m1} j.
Arguments j_Q {s A B bp n al Q p n1 B1 m1} j.
Arguments j_links {s A B bp n al Q p n1 B1 m1} j.
Arguments j_layout {s A B bp n al Q p n1 B1 m1} j.
Arguments j_high {s A B bp n al Q p n1 B1 m1} j.
Arguments j_sub {s A B bp n al Q p n1 B1 m1} j.
Arguments j_size {s A B bp n al Q p n1 B1 m1} j.
Arguments j_ptr {s A B bp n al Q p n1 B1 m1} j.
Arguments j_rest {s A B bp n al Q p n1 B1 m1} j.
Arguments j_only {s A B bp n al Q p n1 B1 m1} j.

Section Joined.
Context s A B bp n al Q p n1 B1 m1 (J : joined s A B bp n al Q p n1 B1 m1).

Lemma j_range : base + 16 <= bp /\ bp + 16 * n1 <= u_brk s /\ 1 <= n1 /\ 0 < base /\ u_brk s <= 2 ^ 31.
Proof.
  destruct (h_bounds (j_heap J)). pose proof (j_layout J) as HL.
  apply layout_alloc in HL as (_ & Hr & _). blocks. lia.
Qed.

(** [p] is [base] or the last block of [A]. *)
Lemma j_prev : (A = [] /\ Q = [] /\ p = base) \/ (exists A' ka, A = A' ++ [(p, ka)] /\ Q = base :: map fst A').
Proof.
  pose proof (j_Q J) as E. destruct A as [|x A0 _] using rev_ind.
  - left. destruct Q as [|q [|? ?]]; cbn in E; [|discriminate|discriminate]. by injection E as ->.
  - right. destruct x as [a ka]. rewrite map_app, app_comm_cons in E. cbn [map fst] in E. apply app_inj_tail in E as [<- <-]. by exists A0, ka.
Qed.

Lemma j_below x : x ∈ Q -> x < p.
Proof.
  pose proof (addrs_sorted _ _ _ _ (h_layout (j_heap J))) as Hs.
  rewrite map_app, app_comm_cons, (j_Q J) in Hs. apply StronglySorted_app_1_l in Hs. intros Hx.
  apply (StronglySorted_app_1_elem_of _ _ _ x p Hs Hx). apply elem_of_cons. auto.
Qed.

Lemma j_p_bp : p + 16 <= bp.
Proof.
  pose proof j_range. destruct j_prev as [(_ & _ & ->)|(A' & ka & -> & _)]; [lia|].
  pose proof (j_low J (p, ka)) as Hl. rewrite elem_of_app, elem_of_cons in Hl. specialize (Hl (or_intror (or_introl eq_refl))).
  destruct (l_blocks (j_layout J) (p, ka)); [rewrite !elem_of_app, elem_of_cons; auto|]. cbn in *. lia.
Qed.

(** Other headers than those of [p] and [bp] are as they were. *)
Lemma j_same m2 a : only_header p m1 m2 -> a ∈ nodes (A ++ B) ((bp, n) :: al) -> a <> p -> a <> bp ->
  hp m2 a = hp (u_mem s) a /\ hs m2 a = hs (u_mem s) a.
Proof.
  intros [H2 _] Ha Hap Hab. destruct (j_only J) as [H1 _]. pose proof (h_layout (j_heap J)) as HL.
  assert (Hp : p ∈ nodes (A ++ B) ((bp, n) :: al)).
  { unfold nodes. rewrite <- app_assoc, map_app, app_comm_cons, (j_Q J), !elem_of_app, list_elem_of_singleton. auto. }
  assert (Hbp : bp ∈ nodes (A ++ B) ((bp, n) :: al)).
  { unfold nodes. rewrite elem_of_cons, list_elem_of_fmap. right. exists (bp, n). rewrite elem_of_app, elem_of_cons. auto. }
  destruct (H1 a (nodes_apart _ _ _ _ _ _ eq_refl HL Hbp Ha) Hab) as [E1 E2]. destruct (H2 a (nodes_apart _ _ _ _ _ _ eq_refl HL Hp Ha) Hap) as [E3 E4].
  split; congruence.
Qed.

Lemma j_high_ne y : y ∈ B1 -> y.1 <> p /\ y.1 <> bp /\ y.1 ∈ nodes (A ++ B) ((bp, n) :: al).
Proof.
  intros Hy. pose proof (j_high J y Hy). pose proof j_p_bp. pose proof j_range. split; [lia|]. split; [lia|].
  unfold nodes. rewrite elem_of_cons, list_elem_of_fmap. right. exists y. split; [done|]. rewrite !elem_of_app. left; right. by apply (j_sub J).
Qed.

(** The parts of the ring that do not change. *)
Lemma j_ring m2 : only_header p m1 m2 -> links m2 Q p /\ links m2 (map fst B1) base.
Proof.
  intros H2. split.
  - apply (links_ext (u_mem s)); [|apply (j_links J)]. intros a Ha. pose proof (j_below a Ha). pose proof j_p_bp.
    apply (j_same m2 a H2); [|lia|lia]. unfold nodes. rewrite <- app_assoc, map_app, app_comm_cons, (j_Q J), !elem_of_app. auto.
  - apply (links_ext (u_mem s)); [|apply (j_rest J)]. intros a (y & -> & Hy)%list_elem_of_fmap.
    destruct (j_high_ne y Hy) as (N1 & N2 & N3). by apply (j_same m2 y.1 H2).
Qed.

(** The sizes that do not change. *)
Lemma j_sizes m2 x : only_header p m1 m2 -> x ∈ A ++ B1 ++ al -> x.1 <> p -> hs m2 x.1 = x.2.
Proof.
  intros H2 Hx Hxp. rewrite !elem_of_app in Hx.
  assert (Hin : x ∈ (A ++ B) ++ (bp, n) :: al).
  { rewrite !elem_of_app, elem_of_cons. destruct Hx as [Hx|[Hx|Hx]]; auto. left; right. by apply (j_sub J). }
  rewrite <- (h_sizes (j_heap J) x Hin). apply (j_same m2 x.1 H2); [|done|].
  - unfold nodes. rewrite elem_of_cons, list_elem_of_fmap. eauto.
  - pose proof (j_layout J) as HL. pose proof (l_blocks HL x) as Hb. apply layout_alloc in HL as (_ & Hr & Hs1 & Hs2).
    rewrite !elem_of_app, elem_of_cons in Hb. specialize (Hb ltac:(tauto)). blocks. destruct Hx as [Hx|[Hx|Hx]].
    + specialize (Hs1 x). rewrite elem_of_app in Hs1. specialize (Hs1 (or_introl Hx)). lia.
    + specialize (Hs1 x). rewrite elem_of_app in Hs1. specialize (Hs1 (or_intror Hx)). lia.
    + specialize (Hs2 x Hx). lia.
Qed.

(** The end of [free] when [bp] is a block of its own. *)
Lemma finish_insert : (forall x, x ∈ A -> x.1 + 16 * x.2 < bp) ->
  heap_ok base (mkUst (st64 m1 p bp) p (u_brk s)) (A ++ (bp, n1) :: B1) al.
Proof.
  intros Hlow. pose proof (only_ptr p m1 bp) as H2. set (m2 := st64 m1 p bp) in *. pose proof j_range. pose proof j_p_bp.
  assert (Hbp : hp m2 bp = hd base (map fst B1) /\ hs m2 bp = n1).
  { destruct H2 as [H2 _]. destruct (H2 bp) as [-> ->]; [right; lia|lia|]. split; [apply (j_ptr J)|apply (j_size J)]. }
  assert (Hsz : forall x, x ∈ A ++ B1 ++ al -> hs m2 x.1 = x.2).
  { intros x Hx. destruct (decide (x.1 = p)) as [E|]; [|by apply j_sizes]. 
    assert (Em : hs m2 p = hs (u_mem s) p).
    { unfold m2. rewrite hs_st64 by (by left). destruct (j_only J) as [H1 _]. apply H1; [right; lia|lia]. }
    rewrite E, Em, <- E. apply (h_sizes (j_heap J)). rewrite !elem_of_app in Hx. rewrite !elem_of_app, elem_of_cons.
    destruct Hx as [Hx|[Hx|Hx]]; auto. left; right. by apply (j_sub J). }
  destruct (j_ring m2 H2) as [HQ HB]. split; cbn [u_mem u_freep u_brk].
  - destruct (h_bounds (j_heap J)). done.
  - apply layout_insert; [apply (j_layout J)|done|apply (j_high J)].
  - rewrite map_app, app_comm_cons, (j_Q J), <- app_assoc, links_app. split; [done|]. cbn [app links map fst hd].
    split; [|split; [apply Hbp|done]]. unfold m2. rewrite hp_st64 by (lia || by left). by rewrite decide_True.
  - destruct (decide (base = p)) as [<-|Hne].
    + unfold m2. rewrite hs_st64 by (by left). destruct (j_only J) as [H1 _].
      destruct (H1 base) as [_ ->]; [right; lia|lia|]. apply (h_base (j_heap J)).
    + destruct (j_same m2 base H2) as [_ ->]; [unfold nodes; apply elem_of_cons; auto|done|lia|]. apply (h_base (j_heap J)).
  - intros x Hx. rewrite <- app_assoc, elem_of_app in Hx. cbn [app] in Hx. rewrite elem_of_cons in Hx. destruct Hx as [Hx|[->|Hx]]; [|apply Hbp|].
    + apply Hsz. rewrite elem_of_app. auto.
    + apply Hsz. rewrite elem_of_app. auto.
  - rewrite map_app, app_comm_cons, (j_Q J), !elem_of_app, list_elem_of_singleton. auto.
Qed.

(** The end of [free] when [bp] is joined to [p]. *)
Lemma finish_merge A' ka : A = A' ++ [(p, ka)] -> p + 16 * ka = bp ->
  heap_ok base (mkUst (st64 (st32 m1 (p + 8) (ka + n1)) p (hp m1 bp)) p (u_brk s)) (A' ++ (p, ka + n1) :: B1) al.
Proof.
  intros EA Ep. pose proof j_range. pose proof j_p_bp. pose proof (j_ptr J) as Eptr. rewrite Eptr.
  assert (Hnx : 0 < hd base (map fst B1) < 2 ^ 31).
  { enough (0 < hd base (map fst B1) < u_brk s) by lia. apply next_range; [lia|lia|]. intros y Hy. pose proof (j_high J y Hy).
    destruct (l_blocks (j_layout J) y); [rewrite !elem_of_app; auto|lia]. }
  assert (Hka : 1 <= ka /\ base + 16 <= p).
  { destruct (l_blocks (j_layout J) (p, ka)); [rewrite EA, !elem_of_app, elem_of_cons; auto|]. cbn in *. lia. }
  destruct (set_header m1 p (ka + n1) (hd base (map fst B1))) as (S1 & S2 & H2); [lia|lia|]. set (m2 := st64 _ p _) in *.
  destruct (j_ring m2 H2) as [HQ HB]. split; cbn [u_mem u_freep u_brk].
  - destruct (h_bounds (j_heap J)). done.
  - pose proof (j_layout J) as HL. rewrite EA, <- app_assoc in HL. cbn [app] in HL. rewrite <- Ep in HL.
    apply layout_join_prev; [done|]. intros y Hy. pose proof (j_high J y Hy). lia.
  - assert (EQ : Q = base :: map fst A').
    { pose proof (j_Q J) as E. rewrite EA, map_app, app_comm_cons in E. cbn [map fst] in E. by apply app_inj_tail in E as [<- _]. }
    rewrite map_app, app_comm_cons, <- EQ, links_app. split; [done|]. cbn [map fst links]. done.
  - destruct (j_same m2 base H2) as [_ ->]; [unfold nodes; apply elem_of_cons; auto|lia|lia|]. apply (h_base (j_heap J)).
  - intros x Hx. rewrite <- app_assoc, elem_of_app in Hx. cbn [app] in Hx. rewrite elem_of_cons in Hx.
    pose proof (j_layout J) as HL. rewrite EA, <- app_assoc in HL. cbn [app] in HL. apply layout_alloc in HL as (HL & _).
    apply layout_mid in HL as (HL & Hr & HA' & HB' & Hal'). pose proof (l_blocks HL x) as Hb. rewrite !elem_of_app in Hb.
    destruct Hx as [Hx|[->|Hx]]; [|done|].
    + apply (j_sizes m2 x H2); [rewrite EA, !elem_of_app; auto|]. specialize (HA' x Hx). specialize (Hb ltac:(tauto)). blocks. lia.
    + apply (j_sizes m2 x H2); [rewrite elem_of_app; auto|]. apply elem_of_app in Hx as [Hx|Hx].
      * apply (j_high_ne x Hx).
      * specialize (Hal' x Hx). specialize (Hb ltac:(tauto)). blocks. lia.
  - rewrite map_app. cbn [map fst]. rewrite elem_of_cons, elem_of_app, elem_of_cons. auto.
Qed.
End Joined.

(** The contents of the allocated blocks are left alone. *)
Definition kept (al : list block) (s s' : ust) : Prop :=
  forall y x, y ∈ al -> y.1 <= x < y.1 + 16 * y.2 -> u_mem s' x = u_mem s x.

Lemma kept_trans al s1 s2 s3 : kept al s1 s2 -> kept al s2 s3 -> kept al s1 s3.
Proof. intros H1 H2 y x Hy Hx. rewrite (H2 y x), (H1 y x) by done. done. Qed.

Lemma j_kept s A B bp n al Q p n1 B1 m1 m2 f : joined s A B bp n al Q p n1 B1 m1 -> only_header p m1 m2 -> kept al s (mkUst m2 f (u_brk s)).
Proof.
  intros J [_ H2] y x Hy Hx. cbn [u_mem]. destruct (j_only J) as [_ H1]. pose proof (j_layout J) as HL.
  destruct (l_blocks HL y) as (Hy1 & Hy2 & _); [rewrite elem_of_app, elem_of_cons; auto|].
  pose proof HL as HL'. apply layout_alloc in HL' as (HL' & Hr & _ & Hs). specialize (Hs y Hy). blocks.
  rewrite H2, H1; [done| |]; [lia|]. destruct (j_prev _ _ _ _ _ _ _ _ _ _ _ J) as [(_ & _ & ->)|(A' & ka & -> & _)]; [lia|].
  pose proof (l_sep HL' (p, ka) y) as Hs'. rewrite !elem_of_app, elem_of_cons in Hs'. specialize (Hs' ltac:(auto) Hy).
  destruct (l_blocks HL (p, ka)) as (Hk & _); [rewrite !elem_of_app, elem_of_cons; auto|]. blocks. lia.
Qed.

(** [free] of a block. *)
Lemma free_run s fl bp n al : heap_ok base s fl ((bp, n) :: al) ->
  exists s' fl', free (bp + 16) s = Ret tt s' /\ heap_ok base s' fl' al /\ u_brk s' = u_brk s /\ kept al s s' /\
    (exists x, x ∈ fl' /\ n <= x.2) /\ (forall a, covers fl' a <-> covers fl a \/ bp <= a < bp + 16 * n).
Proof.
  intros Hh. pose proof (h_layout Hh) as HL. pose proof HL as HL'. apply layout_alloc in HL' as (HL' & Hr & Hsep & _). blocks.
  destruct (place fl bp n) as (A & B & -> & HA & HB); [lia| |apply (l_sorted HL)|].
  { intros x Hx. split; [apply (l_blocks HL); rewrite elem_of_app; auto|by apply Hsep]. }
  destruct (free_find s (A ++ B) A B bp n al Hh eq_refl HA HB) as (Q & p & EQ & E & HQ & Hp & HmB).
  destruct (join_next_run s A B bp n al p Hh HB Hp HmB) as (n1 & B1 & m1 & E1 & HL1 & Hhigh & Hn1 & Hsub & Hsz & Hptr & Hrest & Honly & Hcov).
  assert (J : joined s A B bp n al Q p n1 B1 m1) by (split; done).
  assert (Hcov1 : forall a, covers (A ++ (bp, n1) :: B1) a <-> covers (A ++ B) a \/ bp <= a < bp + 16 * n).
  { intros a. specialize (Hcov a). rewrite !covers_app. rewrite !covers_cons in *. cbn [fst snd] in *. tauto. }
  pose proof (j_p_bp _ _ _ _ _ _ _ _ _ _ _ J) as Hpb. pose proof (j_range _ _ _ _ _ _ _ _ _ _ _ J) as Hrg.
  assert (Hfree : free (bp + 16) s = (join_prev bp p ;;; put_freep p) (mkUst m1 (u_freep s) (u_brk s))).
  { unfold free, SIZEOF_HEADER. replace (bp + 16 - 16) with bp by lia. unfold gets at 1. unfold bind at 1. cbn [bindO].
    by rewrite (bind_Ret _ _ _ _ _ E), (bind_Ret _ _ _ _ _ E1). }
  rewrite Hfree. unfold join_prev, get_size, get_ptr, put_size, put_ptr, put_freep, gets, modify, bind. cbn [bindO u_mem u_freep u_brk].
  fold (hs m1 p) (hs m1 bp) (hp m1 bp). unfold SIZEOF_HEADER.
  destruct (j_prev _ _ _ _ _ _ _ _ _ _ _ J) as [(EA & _ & Ep)|(A' & ka & EA & _)].
  - assert (H0 : hs m1 p = 0).
    { destruct Honly as [H1 _]. destruct (H1 p) as [_ ->]; [right; lia|lia|]. rewrite Ep. apply (h_base Hh). }
    rewrite H0. destruct (Z.eqb_spec (p + 16 * 0) bp); [lia|]. do 2 eexists. split; [reflexivity|]. cbn [u_mem u_freep u_brk].
    split; [eapply finish_insert; [exact J|]; rewrite EA; intros ? ?%elem_of_nil; done|]. split; [done|].
    split; [eapply j_kept; [exact J|apply only_ptr]|]. split; [|exact Hcov1]. exists (bp, n1). split; [rewrite elem_of_app, elem_of_cons; auto|done].
  - assert (Hk : hs m1 p = ka).
    { destruct Honly as [H1 _]. destruct (H1 p) as [_ ->]; [right; lia|lia|]. apply (h_sizes Hh (p, ka)). rewrite EA, !elem_of_app, elem_of_cons. auto. }
    rewrite Hk. destruct (Z.eqb_spec (p + 16 * ka) bp) as [Ebp|Ebp].
    + cbn [bindO u_mem u_freep u_brk]. fold (hs m1 bp). rewrite Hsz. assert (1 <= ka) by (destruct (l_blocks HL (p, ka)); [rewrite EA, !elem_of_app, elem_of_cons; auto|done]).
      assert (base + 16 <= p) by (destruct (l_blocks HL (p, ka)) as (_ & ? & _); [rewrite EA, !elem_of_app, elem_of_cons; auto|done]).
      rewrite u32_small by lia. cbn [bindO u_mem u_freep u_brk]. fold (hp (st32 m1 (p + 8) (ka + n1)) bp). rewrite hp_st32 by (right; lia).
      do 2 eexists. split; [reflexivity|]. cbn [u_mem u_freep u_brk].
      split; [eapply finish_merge; [exact J|exact EA|exact Ebp]|]. split; [done|]. split.
      * eapply j_kept; [exact J|]. eapply only_trans; [apply only_size|apply only_ptr].
      * split; [exists (p, ka + n1); split; [rewrite elem_of_app, elem_of_cons; auto|cbn; lia]|].
        intros a. rewrite <- Hcov1, EA, <- app_assoc. cbn [app]. rewrite !covers_app, !covers_cons. cbn [fst snd].
        assert (p <= a < p + 16 * (ka + n1) <-> p <= a < p + 16 * ka \/ bp <= a < bp + 16 * n1) by lia. tauto.
    + do 2 eexists. split; [reflexivity|]. cbn [u_mem u_freep u_brk].
      split; [eapply finish_insert; [exact J|]|].
      * intros x Hx. rewrite EA in Hx. apply elem_of_app in Hx as [Hx|Hx].
        -- rewrite EA, <- app_assoc in HL'. cbn [app] in HL'. apply layout_mid in HL' as (_ & Hrk & HA' & _). specialize (HA' x Hx). specialize (HA (p, ka)).
           rewrite EA, elem_of_app, elem_of_cons in HA. specialize (HA ltac:(auto)). blocks. lia.
        -- rewrite list_elem_of_singleton in Hx. subst x. specialize (HA (p, ka)). rewrite EA, elem_of_app, elem_of_cons in HA. specialize (HA ltac:(auto)). cbn [fst snd] in HA |- *. lia.
      * split; [done|]. split; [eapply j_kept; [exact J|apply only_ptr]|]. split; [|exact Hcov1]. exists (bp, n1). split; [rewrite elem_of_app, elem_of_cons; auto|done].
Qed.

(** ** Getting memory from the kernel *)

(** [sbrk] of a positive amount refuses, or moves the end of the heap up and
    returns where it was. *)
Context (sbrk : Z -> M ust Z).
Hypothesis sbrk_law : forall s n, 0 < n < 2 ^ 31 ->
  sbrk n s = Ret (-1) s \/
  (exists m', sbrk n s = Ret (u_brk s) (mkUst m' (u_freep s) (u_brk s + n)) /\ u_brk s + n <= 2 ^ 31 /\ forall x, x < u_brk s -> m' x = u_mem s x).

(** The new memory is a block of its own. *)
Lemma grow_ok s fl al nu m' : heap_ok base s fl al -> 1 <= nu -> u_brk s + 16 * nu <= 2 ^ 31 -> (forall x, x < u_brk s -> m' x = u_mem s x) ->
  let s1 := mkUst (st32 m' (u_brk s + 8) nu) (u_freep s) (u_brk s + 16 * nu) in
  heap_ok base s1 fl ((u_brk s, nu) :: al) /\ kept al s s1.
Proof.
  intros Hh Hnu Hbrk Hm. cbv zeta. destruct (h_bounds Hh) as [Hb0 Hb1]. pose proof (h_layout Hh) as HL.
  assert (Hlow : forall x, x < u_brk s -> st32 m' (u_brk s + 8) nu x = u_mem s x) by (intros x Hx; rewrite st32_header by lia; auto).
  assert (Hin : forall x, x ∈ fl ++ al -> 1 <= x.2 /\ base + 16 <= x.1 /\ x.1 + 16 * x.2 <= u_brk s) by apply (l_blocks HL).
  assert (Hhd : forall a, a + 16 <= u_brk s -> hp (st32 m' (u_brk s + 8) nu) a = hp (u_mem s) a /\ hs (st32 m' (u_brk s + 8) nu) a = hs (u_mem s) a).
  { intros a Ha. split; (apply ld_ext; intros x Hx; apply Hlow; cbn in Hx; lia). }
  split; [split; cbn [u_mem u_freep u_brk]|].
  - lia.
  - apply layout_alloc. split; [|split; [blocks; lia|split]].
    + destruct HL as [_ H2 H3 H4]. split; [|done|done|done]. intros x Hx. specialize (Hin x Hx). lia.
    + intros y Hy. specialize (Hin y). rewrite elem_of_app in Hin. specialize (Hin ltac:(auto)). blocks. lia.
    + intros y Hy. specialize (Hin y). rewrite elem_of_app in Hin. specialize (Hin ltac:(auto)). blocks. lia.
  - apply (links_ext (u_mem s)); [|apply (h_ring Hh)]. intros a Ha. apply Hhd. apply elem_of_cons in Ha as [->|Ha]; [lia|].
    apply list_elem_of_fmap in Ha as (y & -> & Hy). specialize (Hin y). rewrite elem_of_app in Hin. specialize (Hin ltac:(auto)). lia.
  - destruct (Hhd base) as [_ ->]; [lia|]. apply (h_base Hh).
  - intros x Hx. rewrite elem_of_app, elem_of_cons in Hx. assert (Hx' : x = (u_brk s, nu) \/ x ∈ fl ++ al) by (rewrite elem_of_app; tauto).
    destruct Hx' as [->|Hx']; cbn [fst snd].
    + rewrite hs_st32 by (lia || by left). by rewrite decide_True.
    + specialize (Hin x Hx'). destruct (Hhd x.1) as [_ ->]; [lia|]. by apply (h_sizes Hh).
  - apply (h_freep Hh).
  - intros y x Hy Hx. cbn [u_mem]. apply Hlow. specialize (Hin y). rewrite elem_of_app in Hin. specialize (Hin ltac:(auto)). lia.
Qed.

Lemma morecore_run s fl al nu : heap_ok base s fl al -> 1 <= nu < 2 ^ 27 ->
  morecore sbrk nu s = Ret 0 s \/
  exists s' fl', morecore sbrk nu s = Ret (u_freep s') s' /\ heap_ok base s' fl' al /\ kept al s s' /\ exists x, x ∈ fl' /\ nu <= x.2.
Proof.
  intros Hh Hnu. unfold morecore. set (k := if nu <? 4096 then 4096 else nu). unfold SIZEOF_HEADER.
  assert (Hk : nu <= k /\ 1 <= k < 2 ^ 27) by (unfold k; destruct (Z.ltb_spec nu 4096); lia). rewrite i32_small by lia.
  destruct (sbrk_law s (k * 16) ltac:(lia)) as [E|(m' & E & Hb & Hm)].
  - left. by rewrite (bind_Ret _ _ _ _ _ E).
  - right. destruct (h_bounds Hh) as [Hb0 Hb1].
    destruct (grow_ok s fl al k m' Hh ltac:(lia) ltac:(lia) Hm) as [Hh1 Hk1]. set (s1 := mkUst (st32 m' (u_brk s + 8) k) _ _) in *.
    destruct (free_run s1 fl (u_brk s) k al Hh1) as (s' & fl' & E' & Hh' & _ & Hk' & (x & Hx & Hxk) & _).
    exists s', fl'. split; [|split; [done|split; [by eapply kept_trans|exists x; split; [done|lia]]]].
    rewrite (bind_Ret _ _ _ _ _ E). destruct (Z.eqb_spec (u_brk s) (-1)); [lia|]. unfold put_size, modify, bind at 1. cbn [bindO u_mem u_freep u_brk].
    replace (u_brk s + k * 16) with (u_brk s + 16 * k) by lia. fold s1. by rewrite (bind_Ret _ _ _ _ _ E').
Qed.

(** ** Taking a block *)

(** The block after [prevp] in the ring, if it is not [base]. *)
Lemma ring_block s fl al prevp p : heap_ok base s fl al -> prevp ∈ base :: map fst fl -> hp (u_mem s) prevp = p -> p <> base ->
  exists A k B l1, fl = A ++ (p, k) :: B /\ base :: map fst A = l1 ++ [prevp].
Proof.
  intros Hh Hin Hp Hne. destruct (links_next _ _ _ _ (h_ring Hh) Hin) as (l1 & l2 & E & E2). rewrite Hp in E2.
  destruct l2 as [|p' l3]; cbn in E2; [congruence|]. subst p'. destruct l1 as [|b l1]; cbn in E; injection E as E1 E.
  - destruct fl as [|[q k] fl]; [done|]. cbn in E. injection E as -> E. exists [], k, fl, []. cbn. by rewrite E1.
  - change (l1 ++ prevp :: p :: l3) with (l1 ++ [prevp] ++ p :: l3) in E. rewrite app_assoc in E. apply map_eq_app in E as (A & B & -> & HA & HB).
    destruct B as [|[q k] B]; [done|]. cbn in HB. injection HB as -> HB. exists A, k, B, (base :: l1). split; [done|]. by rewrite HA.
Qed.

(** The headers of the ring are not in allocated blocks. *)
Lemma free_header s fl al a y x : heap_ok base s fl al -> a ∈ base :: map fst fl -> y ∈ al -> y.1 <= x < y.1 + 16 * y.2 -> ~ (a <= x < a + 16).
Proof.
  intros Hh Ha Hy Hx. pose proof (h_layout Hh) as HL. destruct (l_blocks HL y) as (Hy1 & Hy2 & _); [rewrite elem_of_app; auto|].
  apply elem_of_cons in Ha as [->|Ha]; [lia|]. apply list_elem_of_fmap in Ha as (z & -> & Hz). pose proof (l_sep HL z y Hz Hy) as Hs.
  destruct (l_blocks HL z) as (Hz1 & _); [rewrite elem_of_app; auto|]. blocks. lia.
Qed.

Lemma take_whole s A p k B al l1 prevp : heap_ok base s (A ++ (p, k) :: B) al -> base :: map fst A = l1 ++ [prevp] ->
  let s' := mkUst (st64 (u_mem s) prevp (hp (u_mem s) p)) prevp (u_brk s) in
  heap_ok base s' (A ++ B) ((p, k) :: al) /\ kept al s s'.
Proof.
  intros Hh EA. cbv zeta. pose proof (h_layout Hh) as HL. destruct (h_bounds Hh) as [Hb0 Hb1]. pose proof (h_ring Hh) as Hr.
  rewrite map_app, app_comm_cons, EA in Hr. cbn [map fst] in Hr. rewrite <- app_assoc, links_app in Hr. cbn [app links hd] in Hr.
  destruct Hr as (Hl1 & Hprev & Hp & HB).
  assert (Hpr : prevp ∈ nodes (A ++ (p, k) :: B) al).
  { unfold nodes. rewrite <- app_assoc, map_app, app_comm_cons, EA, !elem_of_app, list_elem_of_singleton. auto. }
  assert (Hnx : 0 < hp (u_mem s) p < 2 ^ 64).
  { rewrite Hp. enough (0 < hd base (map fst B) < u_brk s) by lia. apply next_range; [lia|lia|]. intros y Hy.
    destruct (l_blocks HL y); [rewrite !elem_of_app, elem_of_cons; auto|lia]. }
  assert (Hap : forall a, a ∈ nodes (A ++ (p, k) :: B) al -> apart prevp a) by (intros a Ha; by apply (nodes_apart _ _ _ _ _ _ eq_refl HL)).
  pose proof (addrs_sorted _ _ _ _ HL) as Hs. rewrite map_app, app_comm_cons, EA in Hs. cbn [map fst] in Hs. rewrite <- app_assoc in Hs.
  assert (Hne1 : forall a, a ∈ l1 -> a < prevp).
  { intros a Ha. apply (StronglySorted_app_1_elem_of _ _ _ a prevp Hs Ha). rewrite elem_of_app, list_elem_of_singleton. auto. }
  assert (Hne2 : forall y, y ∈ B -> prevp < y.1).
  { intros y Hy. apply StronglySorted_app_1_r, StronglySorted_cons in Hs as [Hs _]. rewrite Forall_forall in Hs. apply Hs.
    rewrite elem_of_cons, list_elem_of_fmap. eauto. }
  split; [split; cbn [u_mem u_freep u_brk]|].
  - done.
  - by apply layout_take.
  - rewrite map_app, app_comm_cons, EA, <- app_assoc, links_app. split; [|cbn [app links]; split].
    + cbn [app hd]. apply (links_ext (u_mem s)); [|done]. intros a Ha. rewrite hp_st64.
      * pose proof (Hne1 a Ha). by rewrite decide_False by lia.
      * lia.
      * apply Hap. unfold nodes. rewrite <- app_assoc, map_app, app_comm_cons, EA, !elem_of_app. auto.
    + rewrite hp_st64 by (lia || by left). by rewrite decide_True.
    + apply (links_ext (u_mem s)); [|done]. intros a (y & -> & Hy)%list_elem_of_fmap. pose proof (Hne2 y Hy). rewrite hp_st64.
      * by rewrite decide_False by lia.
      * lia.
      * apply Hap. unfold nodes. rewrite elem_of_cons, list_elem_of_fmap. right. exists y. rewrite !elem_of_app, elem_of_cons. auto.
  - rewrite hs_st64; [apply (h_base Hh)|]. apply Hap. unfold nodes. apply elem_of_cons. auto.
  - intros x Hx. assert (Hx' : x ∈ (A ++ (p, k) :: B) ++ al) by (rewrite !elem_of_app, !elem_of_cons in *; tauto).
    rewrite hs_st64; [by apply (h_sizes Hh)|]. apply Hap. unfold nodes. rewrite elem_of_cons, list_elem_of_fmap. eauto.
  - rewrite map_app, app_comm_cons, EA, !elem_of_app, list_elem_of_singleton. auto.
  - intros y x Hy Hx. cbn [u_mem]. apply st64_header. eapply free_header; [exact Hh| |exact Hy|exact Hx].
    rewrite map_app, app_comm_cons, EA, !elem_of_app, list_elem_of_singleton. auto.
Qed.

Lemma take_part s A p k n B al prevp : heap_ok base s (A ++ (p, k) :: B) al -> 1 <= n < k -> prevp ∈ base :: map fst A ->
  let q := p + 16 * (k - n) in
  let s' := mkUst (st32 (st32 (u_mem s) (p + 8) (k - n)) (q + 8) n) prevp (u_brk s) in
  heap_ok base s' (A ++ (p, k - n) :: B) ((q, n) :: al) /\ kept al s s'.
Proof.
  intros Hh Hn Hprev. cbv zeta. set (q := p + 16 * (k - n)). set (m' := st32 _ (q + 8) n). pose proof (h_layout Hh) as HL. destruct (h_bounds Hh) as [Hb0 Hb1].
  pose proof HL as HL'. apply layout_mid in HL' as (HL' & Hr & HA & HB & Hal). blocks.
  assert (Hp : p ∈ nodes (A ++ (p, k) :: B) al).
  { unfold nodes. rewrite elem_of_cons, list_elem_of_fmap. right. exists (p, k). rewrite !elem_of_app, elem_of_cons. auto. }
  assert (Hblk : forall x, x ∈ A ++ B ++ al -> x.1 + 16 <= p \/ p + 16 * k <= x.1).
  { intros x Hx. assert (Hx1 : 1 <= x.2) by (apply (l_blocks HL'); by rewrite <- app_assoc). rewrite !elem_of_app in Hx. destruct Hx as [Hx|[Hx|Hx]].
    - specialize (HA x Hx). lia.
    - specialize (HB x Hx). lia.
    - specialize (Hal x Hx). lia. }
  assert (Hhd : forall a, a ∈ nodes (A ++ (p, k) :: B) al -> hp m' a = hp (u_mem s) a /\ hs m' a = if decide (a = p) then k - n else hs (u_mem s) a).
  { intros a Ha. assert (Hpa : apart p a) by (by apply (nodes_apart _ _ _ _ _ _ eq_refl HL)).
    assert (Hqa : apart q a /\ a <> q).
    { unfold nodes in Ha. rewrite elem_of_cons, list_elem_of_fmap in Ha. unfold apart, q. destruct Ha as [->|(x & -> & Hx)]; [lia|].
      assert (Hx' : x = (p, k) \/ x ∈ A ++ B ++ al) by (rewrite !elem_of_app, elem_of_cons in *; tauto). destruct Hx' as [->|Hx']; [cbn; lia|].
      specialize (Hblk x Hx'). lia. }
    destruct Hqa as [Hqa Hne]. unfold m'. rewrite !hp_st32, !hs_st32 by (done || lia). by rewrite decide_False by done. }
  split; [split; cbn [u_mem u_freep u_brk]|].
  - done.
  - apply layout_take_end; [lia|done].
  - pose proof (h_ring Hh) as Hrg. rewrite map_app in *. cbn [map fst] in *. apply (links_ext (u_mem s)); [|done]. intros a Ha. apply Hhd.
    unfold nodes. rewrite <- app_assoc, map_app. cbn [app map fst]. rewrite map_app. rewrite elem_of_cons, elem_of_app, elem_of_cons in *. rewrite elem_of_app. tauto.
  - destruct (Hhd base) as [_ ->]; [unfold nodes; apply elem_of_cons; auto|]. rewrite decide_False by lia. apply (h_base Hh).
  - intros x Hx. assert (Hx' : x = (q, n) \/ x = (p, k - n) \/ x ∈ A ++ B ++ al) by (rewrite !elem_of_app, !elem_of_cons in *; tauto).
    destruct Hx' as [->|[->|Hx']]; cbn [fst snd].
    + unfold m'. rewrite hs_st32 by (lia || by left). by rewrite decide_True.
    + destruct (Hhd p Hp) as [_ ->]. by rewrite decide_True.
    + assert (Hin : x ∈ (A ++ (p, k) :: B) ++ al) by (rewrite !elem_of_app, elem_of_cons in *; tauto).
      destruct (Hhd x.1) as [_ ->]; [unfold nodes; rewrite elem_of_cons, list_elem_of_fmap; eauto|]. specialize (Hblk x Hx'). rewrite decide_False by lia.
      by apply (h_sizes Hh).
  - rewrite map_app, elem_of_cons, elem_of_app in *. tauto.
  - intros y x Hy Hx. cbn [u_mem]. specialize (Hblk y). rewrite !elem_of_app in Hblk. specialize (Hblk ltac:(auto)). specialize (Hal y Hy).
    unfold m'. rewrite !st32_header; [done|lia|unfold q; lia].
Qed.

(** [p], the block after [prevp], gives [n] units. *)
Lemma take_units_run s fl al prevp p n : heap_ok base s fl al -> prevp ∈ base :: map fst fl -> hp (u_mem s) prevp = p ->
  1 <= n <= hs (u_mem s) p ->
  exists r s' fl', take_units n prevp p s = Ret r s' /\ heap_ok base s' fl' ((r - 16, n) :: al) /\ kept al s s'.
Proof.
  intros Hh Hin Hp Hn. assert (Hne : p <> base) by (intros ->; rewrite (h_base Hh) in Hn; lia).
  destruct (ring_block s fl al prevp p Hh Hin Hp Hne) as (A & k & B & l1 & -> & EA).
  assert (Hk : hs (u_mem s) p = k) by (apply (h_sizes Hh (p, k)); rewrite !elem_of_app, elem_of_cons; auto). rewrite Hk in Hn.
  destruct (l_blocks (h_layout Hh) (p, k)) as (_ & Hp1 & Hp2); [rewrite !elem_of_app, elem_of_cons; auto|]. cbn [fst snd] in Hp1, Hp2.
  destruct (h_bounds Hh) as [Hb0 Hb1].
  unfold take_units, get_size, get_ptr, put_size, put_ptr, put_freep, gets, modify, bind, ret, SIZEOF_HEADER. cbn [bindO u_mem u_freep u_brk].
  fold (hs (u_mem s) p) (hp (u_mem s) p). rewrite Hk. destruct (Z.eqb_spec k n) as [->|Hkn]; cbn [bindO u_mem u_freep u_brk].
  - destruct (take_whole s A p n B al l1 prevp Hh EA) as [H1 H2]. do 3 eexists. split; [reflexivity|].
    replace (p + 16 - 16) with p by lia. split; [exact H1|exact H2].
  - rewrite u32_small by lia. fold (hs (st32 (u_mem s) (p + 8) (k - n)) p). rewrite hs_st32 by (lia || by left). rewrite decide_True by done.
    destruct (take_part s A p k n B al prevp Hh ltac:(lia)) as [H1 H2]; [rewrite EA, elem_of_app, list_elem_of_singleton; auto|].
    do 3 eexists. split; [reflexivity|]. replace (p + 16 * (k - n) + 16 - 16) with (p + 16 * (k - n)) by lia. split; [exact H1|exact H2].
Qed.

(** ** The search of [malloc] *)

Lemma search_walk s n O : forall prevp, links (u_mem s) (prevp :: O) (u_freep s) -> u_freep s ∉ O ->
  exists k q, rounds (malloc_step sbrk n) k (prevp, hp (u_mem s) prevp) s (q, hp (u_mem s) q) s /\ (k <= length O)%nat /\ q ∈ prevp :: O /\
    (n <= hs (u_mem s) (hp (u_mem s) q) \/
     (hs (u_mem s) (hp (u_mem s) q) < n /\ hp (u_mem s) q = u_freep s /\ forall x, x ∈ O ++ [u_freep s] -> hs (u_mem s) x < n)).
Proof.
  induction O as [|o O IH]; intros prevp Hl Hf; cbn [links hd] in Hl; destruct Hl as [Ep Hl].
  - exists 0%nat, prevp. split; [constructor|]. split; [lia|]. split; [apply elem_of_cons; auto|]. rewrite Ep.
    destruct (decide (n <= hs (u_mem s) (u_freep s))); [auto|]. right. split; [lia|]. split; [done|].
    intros x Hx. cbn in Hx. rewrite list_elem_of_singleton in Hx. subst x. lia.
  - rewrite not_elem_of_cons in Hf. destruct Hf as [Hfo Hf]. destruct (decide (n <= hs (u_mem s) o)) as [Hge|Hlt].
    { exists 0%nat, prevp. split; [constructor|]. split; [lia|]. split; [apply elem_of_cons; auto|]. rewrite Ep. auto. }
    destruct (IH o Hl Hf) as (k & q & HR & Hk & Hq & Hres). exists (S k), q. split; [|split; [cbn; lia|split; [apply elem_of_cons; auto|]]].
    + rewrite Ep. econstructor; [|exact HR]. unfold malloc_step, get_size, get_ptr, gets, bind, ret. cbn [bindO]. fold (hs (u_mem s) o).
      rewrite Z.geb_leb. destruct (Z.leb_spec n (hs (u_mem s) o)); [lia|]. destruct (Z.eqb_spec o (u_freep s)); [congruence|]. done.
    + destruct Hres as [?|(H1 & H2 & H3)]; [auto|right]. split; [done|]. split; [done|]. cbn [app]. intros x [->|Hx]%elem_of_cons; [lia|auto].
Qed.

(** One way round the ring from [freep]. *)
Lemma search s fl al n : heap_ok base s fl al ->
  exists k q, rounds (malloc_step sbrk n) k (u_freep s, hp (u_mem s) (u_freep s)) s (q, hp (u_mem s) q) s /\ (k <= length fl)%nat /\
    q ∈ base :: map fst fl /\
    (n <= hs (u_mem s) (hp (u_mem s) q) \/
     (hs (u_mem s) (hp (u_mem s) q) < n /\ hp (u_mem s) q = u_freep s /\ forall x, x ∈ fl -> x.2 < n)).
Proof.
  intros Hh. pose proof (h_ring Hh) as Hr. pose proof (h_freep Hh) as Hf. pose proof (addrs_sorted _ _ _ _ (h_layout Hh)) as Hs.
  apply list_elem_of_split in Hf as (L1 & L2 & E). assert (Hlen : length fl = length (L2 ++ L1)).
  { apply (f_equal length) in E. cbn in E. rewrite length_map, length_app in E. cbn in E. rewrite length_app. lia. }
  assert (Hnode : forall x, x ∈ base :: map fst fl <-> x ∈ L2 ++ L1 ++ [u_freep s]) by (intros x; rewrite E, !elem_of_app, !elem_of_cons, elem_of_nil; tauto).
  assert (Hl : links (u_mem s) (u_freep s :: L2 ++ L1) (u_freep s)).
  { rewrite E, links_app in Hr. destruct Hr as [H1 H2]. rewrite app_comm_cons, links_app. split; [|done].
    destruct L1 as [|b L1]; cbn in E; injection E as E _; cbn [hd]; [rewrite E in H2|rewrite <- E]; exact H2. }
  assert (Hnf : u_freep s ∉ L2 ++ L1).
  { rewrite E in Hs. rewrite elem_of_app. intros [Hin|Hin].
    - apply StronglySorted_app_1_r, StronglySorted_cons in Hs as [Hs _]. rewrite Forall_forall in Hs. specialize (Hs _ Hin). lia.
    - pose proof (StronglySorted_app_1_elem_of _ _ _ _ _ Hs Hin (list_elem_of_here _ _)). lia. }
  destruct (search_walk s n (L2 ++ L1) (u_freep s) Hl Hnf) as (k & q & HR & Hk & Hq & Hres). exists k, q. split; [done|]. split; [lia|].
  split; [apply Hnode; rewrite elem_of_cons in Hq; rewrite app_assoc, elem_of_app, list_elem_of_singleton; tauto|].
  destruct Hres as [?|(H1 & H2 & H3)]; [auto|right]. split; [done|]. split; [done|]. intros x Hx. rewrite <- (h_sizes Hh x) by (rewrite elem_of_app; auto).
  apply H3. rewrite <- app_assoc. apply Hnode. rewrite elem_of_cons, list_elem_of_fmap. eauto.
Qed.

(** A block is found, or memory is asked for; the second way round the ring
    finds it. *)
Lemma found_run s fl al n k q x0 : heap_ok base s fl al -> 1 <= n -> rounds (malloc_step sbrk n) k x0 s (q, hp (u_mem s) q) s ->
  q ∈ base :: map fst fl -> n <= hs (u_mem s) (hp (u_mem s) q) ->
  exists r s' fl', runs (malloc_step sbrk n) (k + 1) x0 s (Ret r s') /\ heap_ok base s' fl' ((r - 16, n) :: al) /\ kept al s s'.
Proof.
  intros Hh Hn HR Hq Hge. destruct (take_units_run s fl al q _ n Hh Hq eq_refl ltac:(lia)) as (r & s' & fl' & E & Hh' & Hk').
  exists r, s', fl'. split; [|done]. eapply rounds_runs; [exact HR|]. constructor. unfold malloc_step, get_size, gets, bind at 1. cbn [bindO].
  fold (hs (u_mem s) (hp (u_mem s) q)). rewrite Z.geb_leb. destruct (Z.leb_spec n (hs (u_mem s) (hp (u_mem s) q))); [|lia].
  by rewrite (bind_Ret _ _ _ _ _ E).
Qed.

Lemma heap_length s fl al : heap_ok base s fl al -> Z.of_nat (length fl) <= 2 ^ 31.
Proof.
  intros Hh. destruct (h_bounds Hh) as [Hb0 Hb1]. pose proof (sorted_length (u_brk s) fl (base + 16) ltac:(lia) (l_sorted (h_layout Hh))) as Hl.
  assert (16 * Z.of_nat (length fl) <= u_brk s - (base + 16)); [|lia]. apply Hl. intros x Hx. apply (l_blocks (h_layout Hh)). rewrite elem_of_app. auto.
Qed.

Lemma freep_pos s fl al : heap_ok base s fl al -> 0 < u_freep s.
Proof.
  intros Hh. pose proof (h_freep Hh) as Hf. destruct (h_bounds Hh). apply elem_of_cons in Hf as [->|Hf]; [lia|].
  apply list_elem_of_fmap in Hf as (y & -> & Hy). destruct (l_blocks (h_layout Hh) y); [rewrite elem_of_app; auto|lia].
Qed.

Lemma malloc_loop s fl al n : heap_ok base s fl al -> 1 <= n < 2 ^ 27 ->
  exists r s', loop (malloc_step sbrk n) (u_freep s, hp (u_mem s) (u_freep s)) s = Ret r s' /\ kept al s s' /\
    ((r = 0 /\ heap_ok base s' fl al) \/ exists fl', heap_ok base s' fl' ((r - 16, n) :: al)).
Proof.
  intros Hh Hn. pose proof (heap_length _ _ _ Hh) as Hlen. destruct (search s fl al n Hh) as (k & q & HR & Hk & Hq & [Hge|(Hlt & Hqf & Hall)]).
  - destruct (found_run s fl al n k q _ Hh ltac:(lia) HR Hq Hge) as (r & s' & fl' & HR' & Hh' & Hk'). exists r, s'.
    split; [apply (loop_runs _ (k + 1)); [exact HR'|lia]|]. split; [done|]. right. eauto.
  - assert (Hstep : malloc_step sbrk n (q, hp (u_mem s) q) s =
      (p <- morecore sbrk n ;; if p =? 0 then ret (inr 0) else q <- get_ptr p ;; ret (inl (p, q))) s).
    { unfold malloc_step, get_size, gets. unfold bind at 1. cbn [bindO]. fold (hs (u_mem s) (hp (u_mem s) q)). rewrite Z.geb_leb.
      destruct (Z.leb_spec n (hs (u_mem s) (hp (u_mem s) q))); [lia|]. unfold bind at 1. cbn [bindO]. by rewrite Hqf, Z.eqb_refl. }
    destruct (morecore_run s fl al n Hh Hn) as [E|(s1 & fl1 & E & Hh1 & Hk1 & x & Hx & Hxn)]; rewrite (bind_Ret _ _ _ _ _ E) in Hstep.
    + exists 0, s. split; [apply (loop_runs _ (k + 1)); [eapply rounds_runs; [exact HR|by constructor]|lia]|]. split; [done|]. by left.
    + pose proof (freep_pos _ _ _ Hh1). destruct (Z.eqb_spec (u_freep s1) 0); [lia|]. unfold get_ptr, gets, bind, ret in Hstep. cbn [bindO] in Hstep.
      pose proof (heap_length _ _ _ Hh1) as Hlen1. destruct (search s1 fl1 al n Hh1) as (k2 & q2 & HR2 & Hk2 & Hq2 & [Hge2|(_ & _ & Hall2)]);
        [|specialize (Hall2 x Hx); lia].
      destruct (found_run s1 fl1 al n k2 q2 _ Hh1 ltac:(lia) HR2 Hq2 Hge2) as (r & s' & fl' & HR' & Hh' & Hk'). exists r, s'. split.
      * apply (loop_runs _ (k + S (k2 + 1))); [|lia]. eapply rounds_runs; [exact HR|]. eapply runs_step; [exact Hstep|exact HR'].
      * split; [by eapply kept_trans|]. right. eauto.
Qed.

(** The state of the allocator: it has not been used, or it has a heap. *)
Definition heap (s : ust) (al : list block) : Prop :=
  (u_freep s = 0 /\ al = [] /\ 0 < base /\ base + 16 <= u_brk s <= 2 ^ 31) \/ exists fl, heap_ok base s fl al.

(** The first call makes the ring of [base] alone. *)
Lemma init_ok s : 0 < base -> base + 16 <= u_brk s <= 2 ^ 31 ->
  heap_ok base (mkUst (st32 (st64 (u_mem s) base base) (base + 8) 0) base (u_brk s)) [] [].
Proof.
  intros Hb0 Hb1. split; cbn [u_mem u_freep u_brk app map].
  - done.
  - split; [intros x Hx; by apply elem_of_nil in Hx|constructor|intros x y Hx; by apply elem_of_nil in Hx|constructor].
  - cbn [links hd]. split; [|done]. rewrite hp_st32 by (by left). rewrite hp_st64 by (lia || by left). by rewrite decide_True.
  - rewrite hs_st32 by (lia || by left). by rewrite decide_True.
  - intros x Hx. by apply elem_of_nil in Hx.
  - apply elem_of_cons. auto.
Qed.

(** C11: [malloc] returns a block that is large enough and disjoint from every
    other block in use, or null when the kernel has no more memory; it always
    returns, and the contents of the blocks in use are left alone. *)
Theorem malloc_correct nbytes s al : 0 <= nbytes < 2 ^ 31 - 64 -> heap s al ->
  exists r s', malloc base sbrk nbytes s = Ret r s' /\ kept al s s' /\
    ((r = 0 /\ heap s' al) \/ exists n, nbytes <= 16 * (n - 1) /\ heap s' ((r - 16, n) :: al)).
Proof.
  intros Hn Hheap. unfold malloc, SIZEOF_HEADER. set (n := u32 _).
  assert (En : n = (nbytes + 15) / 16 + 1) by (unfold n; rewrite u32_small; [f_equal; f_equal; lia|Z.div_mod_to_equations; lia]).
  assert (Hn1 : 1 <= n < 2 ^ 27 /\ nbytes <= 16 * (n - 1)) by (rewrite En; Z.div_mod_to_equations; lia). clearbody n.
  assert (Hmain : forall s1 fl, heap_ok base s1 fl al -> kept al s s1 ->
    exists r s', (p <- get_ptr (u_freep s1) ;; loop (malloc_step sbrk n) (u_freep s1, p)) s1 = Ret r s' /\ kept al s s' /\
      ((r = 0 /\ heap s' al) \/ exists n, nbytes <= 16 * (n - 1) /\ heap s' ((r - 16, n) :: al))).
  { intros s1 fl Hh Hk. destruct (malloc_loop s1 fl al n Hh ltac:(lia)) as (r & s' & E & Hk' & Hres). exists r, s'. split; [exact E|].
    split; [by eapply kept_trans|]. unfold heap. destruct Hres as [[-> Hh']|[fl' Hh']]; [left|right; exists n; split; [lia|]]; eauto. }
  destruct Hheap as [(Hf & -> & Hb0 & Hb1)|[fl Hh]].
  - destruct (Hmain _ [] (init_ok s Hb0 Hb1)) as (r & s' & E & HR); [intros y x Hy; by apply elem_of_nil in Hy|]. exists r, s'. split; [|done].
    rewrite <- E. unfold gets, bind at 1. cbn [bindO]. rewrite Hf, Z.eqb_refl. done.
  - destruct (Hmain s fl Hh) as (r & s' & E & HR); [done|]. exists r, s'. split; [|done]. rewrite <- E. unfold gets, bind at 1. cbn [bindO].
    pose proof (freep_pos _ _ _ Hh). destruct (Z.eqb_spec (u_freep s) 0); [lia|]. exact (bind_Ret (ret (u_freep s)) _ s (u_freep s) s eq_refl).
Qed.

(** C12: [free] gives the block back: afterwards the free list covers exactly
    the addresses it covered before and those of the block, the block is no
    longer in use, and the list is again sorted with no two adjacent blocks, so
    the block has been joined to its neighbours. The other blocks in use, their
    contents and the end of the heap are left alone; it always returns. *)
Theorem free_correct ap n s fl al : heap_ok base s fl ((ap - 16, n) :: al) ->
  exists s' fl', free ap s = Ret tt s' /\ heap_ok base s' fl' al /\
    (forall a, covers fl' a <-> covers fl a \/ ap - 16 <= a < ap - 16 + 16 * n) /\
    kept al s s' /\ u_brk s' = u_brk s.
Proof.
  intros Hh. destruct (free_run s fl (ap - 16) n al Hh) as (s' & fl' & E & Hh' & Hb & Hk & _ & Hc).
  exists s', fl'. replace (ap - 16 + 16) with ap in E by lia. done.
Qed.
End Free.

Module UmallocWitness.
(** A kernel that has memory up to 1 MB. *)
Definition sbrk (n : Z) : M ust Z := fun s =>
  if (n >? 0) && (u_brk s + n <=? 2 ^ 20) then Ret (u_brk s) (mkUst (u_mem s) (u_freep s) (u_brk s + n)) else Ret (-1) s.

Lemma sbrk_ok s n : 0 < n < 2 ^ 31 ->
  sbrk n s = Ret (-1) s \/
  (exists m', sbrk n s = Ret (u_brk s) (mkUst m' (u_freep s) (u_brk s + n)) /\ u_brk s + n <= 2 ^ 31 /\ forall x, x < u_brk s -> m' x = u_mem s x).
Proof.
  intros Hn. unfold sbrk. destruct (_ && _) eqn:E; [right|by left]. exists (u_mem s). apply andb_true_iff in E as [_ E]. split; [done|]. split; [lia|done].
Qed.

Definition s0 : ust := mkUst (fun _ => 0) 0 8192.

Lemma malloc_correct_witness : exists r s', malloc 64 sbrk 100 s0 = Ret r s' /\ kept [] s0 s' /\
  ((r = 0 /\ heap 64 s' []) \/ exists n, 100 <= 16 * (n - 1) /\ heap 64 s' [(r - 16, n)]).
Proof. apply (malloc_correct 64 sbrk sbrk_ok 100 s0 []); [lia|]. left. split; [done|]. split; [done|]. cbn. lia. Defined.

(** One block in use, followed by a free one. *)
Definition s1 : ust := mkUst (st32 (st32 (st64 (st32 (st64 (fun _ => 0) 64 128) 72 0) 128 64) 136 5) 88 3) 64 8192.

Lemma s1_heap : heap_ok 64 s1 [(128, 5)] [(96 - 16, 3)].
Proof.
  split.
  - cbn. lia.
  - split.
    + intros x Hx. cbn in Hx. rewrite elem_of_cons, list_elem_of_singleton in Hx. destruct Hx as [-> | ->]; cbn; lia.
    + repeat constructor.
    + intros x y Hx Hy. apply list_elem_of_singleton in Hx as ->. apply list_elem_of_singleton in Hy as ->. unfold sep. cbn. lia.
    + repeat constructor.
  - repeat split; vm_compute; reflexivity.
  - vm_compute. reflexivity.
  - intros x Hx. cbn in Hx. rewrite elem_of_cons, list_elem_of_singleton in Hx. destruct Hx as [-> | ->]; vm_compute; reflexivity.
  - apply elem_of_cons. by left.
Qed.

Lemma free_correct_witness : exists s' fl', free 96 s1 = Ret tt s' /\ heap_ok 64 s' fl' [] /\
  (forall a, covers fl' a <-> covers [(128, 5)] a \/ 80 <= a < 128).
Proof.
  destruct (free_correct 64 96 3 s1 [(128, 5)] [] s1_heap) as (s' & fl' & E & Hh & Hc & _).
  exists s', fl'. split; [exact E|]. split; [exact Hh|exact Hc].
Defined.
End UmallocWitness.
