(* ===== verification/Mkfs.v ===== *)
(** * mkfs/mkfs.c

    The program that makes the first file-system image, against the kernel's
    reading of the disk: the super block, the inodes and the contents of the
    files are what kernel/fs.c finds there. *)

From S2P Require Import Prelude Machine State CString Printf Block Bio Fs FsFacts FileFacts.

(** ** Constants and the layout of the disk *)

Definition FSSIZE : Z := 1000.
Definition NINODES : Z := 200.
Definition nbitmap : Z := FSSIZE / (BSIZE * 8) + 1.
Definition ninodeblocks : Z := NINODES / IPB + 1.
Definition nlog : Z := LOGSIZE.
Definition nmeta : Z := 2 + nlog + ninodeblocks + nbitmap.
Definition nblocks : Z := FSSIZE - nmeta.

(** The bytes in the order of the machine that reads the image, as a number
    of this machine, which has the same order. *)
Definition xshort (x : Z) : Z := u8 x + 256 * u8 (Z.shiftr x 8).
Definition xint (x : Z) : Z := u8 x + 256 * (u8 (Z.shiftr x 8) + 256 * (u8 (Z.shiftr x 16) + 256 * u8 (Z.shiftr x 24))).

Definition mkfs_sb : superblock :=
  mkSuperblock FSMAGIC (xint FSSIZE) (xint nblocks) (xint NINODES) (xint nlog) (xint 2) (xint (2 + nlog)) (xint (2 + nlog + ninodeblocks)).

(** ** The image *)

(** The blocks of the image, which has [FSSIZE] of them, and the variables
    [freeinode] and [freeblock]. *)
Record img := mkImg { im_blk : Z -> list Z; im_freeinode : Z; im_freeblock : Z }.

Definition zeroes : list Z := replicate (Z.to_nat BSIZE) 0.

Definition wsect (sec : Z) (buf : list Z) : M img unit :=
  modify (fun im => mkImg (fun b => if b =? sec then buf else im_blk im b) (im_freeinode im) (im_freeblock im)).

(** Reading past the end of the image fails. *)
Definition rsect (sec : Z) : M img (list Z) :=
  if sec <? FSSIZE then gets (fun im => im_blk im sec) else panic "read".

Definition winode (inum : Z) (ip : dinode) : M img unit :=
  let bn := IBLOCK inum mkfs_sb in
  buf <- rsect bn ;;
  wsect bn (wr_dinode buf (dip_off inum) ip).

Definition rinode (inum : Z) : M img dinode :=
  let bn := IBLOCK inum mkfs_sb in
  buf <- rsect bn ;;
  ret (rd_dinode buf (dip_off inum)).

Definition ialloc (type : Z) : M img Z :=
  inum <- gets im_freeinode ;;
  modify (fun im => mkImg (im_blk im) (u32 (im_freeinode im + 1)) (im_freeblock im)) ;;;
  winode inum (mkDinode (xshort type) 0 0 (xshort 1) (xint 0) (replicate (NDIRECT + 1) 0)) ;;;
  ret inum.

(** [freeblock++] *)
Definition next_block : M img Z :=
  b <- gets im_freeblock ;;
  modify (fun im => mkImg (im_blk im) (im_freeinode im) (u32 (im_freeblock im + 1))) ;;;
  ret b.

Definition set_addrs (din : dinode) (k : nat) (v : Z) : dinode :=
  mkDinode (di_type din) (di_major din) (di_minor din) (di_nlink din) (di_size din) (<[k := v]> (di_addrs din)).

(** The address of block [fbn] of the file, allocated if need be. *)
Definition iappend_addr (din : dinode) (fbn : Z) : M img (dinode * Z) :=
  if fbn <? Z.of_nat NDIRECT
  then
    din <- (if xint (nth (Z.to_nat fbn) (di_addrs din) 0) =? 0
            then b <- next_block ;; ret (set_addrs din (Z.to_nat fbn) (xint b))
            else ret din) ;;
    ret (din, xint (nth (Z.to_nat fbn) (di_addrs din) 0))
  else
    din <- (if xint (nth NDIRECT (di_addrs din) 0) =? 0
            then b <- next_block ;; ret (set_addrs din NDIRECT (xint b))
            else ret din) ;;
    ind <- rsect (xint (nth NDIRECT (di_addrs din) 0)) ;;
    let o := Z.to_nat (4 * (fbn - Z.of_nat NDIRECT)) in
    ind <- (if rd 4 ind o =? 0
            then
              b <- next_block ;;
              let ind := wr 4 ind o (xint b) in
              wsect (xint (nth NDIRECT (di_addrs din) 0)) ind ;;;
              ret ind
            else ret ind) ;;
    ret (din, xint (rd 4 ind o)).

(** One round of the loop of [iappend]: the inode, the offset and what is left. *)
Definition iappend_step '((din, off, p) : dinode * Z * list Z) : M img (dinode * Z * list Z + dinode * Z) :=
  if Z.of_nat (length p) >? 0
  then
    let fbn := off / BSIZE in
    if negb (fbn <? MAXFILE) then panic "assert"
    else
      '(din, x) <- iappend_addr din fbn ;;
      let n1 := Z.min (Z.of_nat (length p)) ((fbn + 1) * BSIZE - off) in
      buf <- rsect x ;;
      wsect x (splice buf (Z.to_nat (off - fbn * BSIZE)) (take (Z.to_nat n1) p)) ;;;
      ret (inl (din, u32 (off + n1), drop (Z.to_nat n1) p))
  else ret (inr (din, off)).

Definition iappend (inum : Z) (p : list Z) : M img unit :=
  din <- rinode inum ;;
  '(din, off) <- loop iappend_step (din, xint (di_size din), p) ;;
  winode inum (mkDinode (di_type din) (di_major din) (di_minor din) (di_nlink din) (xint off) (di_addrs din)).

Definition balloc (used : Z) : M img unit :=
  if negb (used <? BSIZE * 8) then panic "assert"
  else
    let buf := fold_left (fun buf i => set_bit (Z.of_nat i) buf) (seq 0 (Z.to_nat used)) zeroes in
    wsect (sb_bmapstart mkfs_sb) buf.

(** [struct dirent] with a name that [strcpy] or [strncpy] stored. *)
Definition mkfs_dirent (inum : Z) (name : list Z) : list Z :=
  let n := take (Z.to_nat DIRSIZ) name in
  wr 2 [0; 0] 0 (xshort inum) ++ n ++ replicate (Z.to_nat DIRSIZ - length n) 0.

(** The block of the super block. *)
Definition sb_block : list Z :=
  fold_left (fun d '(o, v) => wr 4 d o v)
    [(0, sb_magic mkfs_sb); (4, sb_size mkfs_sb); (8, sb_nblocks mkfs_sb); (12, sb_ninodes mkfs_sb); (16, sb_nlog mkfs_sb);
     (20, sb_logstart mkfs_sb); (24, sb_inodestart mkfs_sb); (28, sb_bmapstart mkfs_sb)]%nat zeroes.

(** The name of a file in the image: without "user/" and without a leading
    underscore. *)
Definition shortname (path : list Z) : list Z :=
  if bool_decide (take 5 path = bytes "user/") then drop 5 path else path.

Definition skip_underscore (s : list Z) : list Z := match s with c :: s' => if c =? 95 then s' else s | [] => s end.

(** One file of the host: its path and the pieces in which it is read. *)
Definition mkfs_file (rootino : Z) '((path, chunks) : list Z * list (list Z)) : M img unit :=
  let s := shortname path in
  if bool_decide (47 ∈ s) then panic "assert"
  else
    inum <- ialloc T_FILE ;;
    iappend rootino (mkfs_dirent inum (skip_underscore s)) ;;;
    for_all chunks (iappend inum).

(** The end of [main]: the size of the root directory, then the bitmap. *)
Definition mkfs_finish (rootino : Z) : M img unit :=
  din <- rinode rootino ;;
  let off := xint (di_size din) in
  let off := u32 ((off / BSIZE + 1) * BSIZE) in
  winode rootino (mkDinode (di_type din) (di_major din) (di_minor din) (di_nlink din) (xint off) (di_addrs din)) ;;;
  used <- gets im_freeblock ;;
  balloc used.

Definition mkfs_main (files : list (list Z * list (list Z))) : M img unit :=
  for_all (seq 0 (Z.to_nat FSSIZE)) (fun i => wsect (Z.of_nat i) zeroes) ;;;
  wsect 1 sb_block ;;;
  rootino <- ialloc T_DIR ;;
  if negb (rootino =? ROOTINO) then panic "assert"
  else
    iappend rootino (mkfs_dirent rootino (bytes ".")) ;;;
    iappend rootino (mkfs_dirent rootino (bytes "..")) ;;;
    for_all files (mkfs_file rootino) ;;;
    mkfs_finish rootino.

(** [freeinode] is 1 and [freeblock] is [nmeta] when the blocks are written. *)
Definition mkfs_start (blk : Z -> list Z) : img := mkImg blk 1 nmeta.

(** ** Numbers *)

Lemma xint_id x : 0 <= x < 2 ^ 32 -> xint x = x.
Proof.
  intros Hx. unfold xint, u8. rewrite !Z.shiftr_div_pow2 by lia.
  change (2 ^ 24) with (256 * 256 * 256). change (2 ^ 16) with (256 * 256). change (2 ^ 8) with 256.
  rewrite <- !Z.div_div by lia. set (a := x / 256). set (b := a / 256). set (c := b / 256).
  pose proof (Z.div_mod x 256 ltac:(lia)) as E1. pose proof (Z.div_mod a 256 ltac:(lia)) as E2. pose proof (Z.div_mod b 256 ltac:(lia)) as E3. fold a in E1. fold b in E2. fold c in E3.
  assert (0 <= a < 2 ^ 24) by (unfold a; Z.div_mod_to_equations; lia). assert (0 <= b < 2 ^ 16) by (unfold b; Z.div_mod_to_equations; lia).
  assert (0 <= c < 256) by (unfold c; Z.div_mod_to_equations; lia). rewrite (Z.mod_small c) by lia. lia.
Qed.

Lemma xshort_id x : 0 <= x < 2 ^ 16 -> xshort x = x.
Proof.
  intros Hx. unfold xshort, u8. rewrite Z.shiftr_div_pow2 by lia. change (2 ^ 8) with 256.
  assert (0 <= x / 256 < 256) by (Z.div_mod_to_equations; lia). rewrite (Z.mod_small (x / 256)) by lia. pose proof (Z.div_mod x 256 ltac:(lia)). lia.
Qed.

(** ** Files in the image *)

(** Block [bn] of a file with addresses [a], as the kernel finds it. *)
Definition addr (v : Z -> list Z) (a : list Z) (bn : Z) : Z :=
  if bn <? Z.of_nat NDIRECT then nth (Z.to_nat bn) a 0 else rd 4 (v (nth NDIRECT a 0)) (Z.to_nat (4 * (bn - Z.of_nat NDIRECT))).

Lemma addr_blk_of v i bn : addr v (i_addrs i) bn = blk_of v i bn.
Proof. done. Qed.

(** Who uses a block: an inode, for one of its blocks or (as number [MAXFILE])
    for the block of indirect addresses. *)
Abbreviation owners := (Z -> option (Z * Z)).

(** The file [inum] has [nb] blocks, which hold [c] and then zeros. *)
Record file_ok (v : Z -> list Z) (own : owners) (inum : Z) (a : list Z) (nb : Z) (c : list Z) : Prop := {
  f_len : length a = (NDIRECT + 1)%nat;
  f_nb : 0 <= nb <= MAXFILE;
  f_max : Z.of_nat (length c) <= nb * BSIZE;
  f_used : forall bn, 0 <= bn < nb -> own (addr v a bn) = Some (inum, bn);
  f_free : forall k, nb <= Z.of_nat k -> (k < NDIRECT)%nat -> nth k a 0 = 0;
  f_ind : (nth NDIRECT a 0 = 0 /\ nb <= Z.of_nat NDIRECT) \/
    (own (nth NDIRECT a 0) = Some (inum, MAXFILE) /\
     forall bn, nb <= bn < MAXFILE -> Z.of_nat NDIRECT <= bn -> rd 4 (v (nth NDIRECT a 0)) (Z.to_nat (4 * (bn - Z.of_nat NDIRECT))) = 0);
  f_bytes : forall o, 0 <= o < nb * BSIZE -> nth (Z.to_nat (o mod BSIZE)) (v (addr v a (o / BSIZE))) 0 = nth (Z.to_nat o) c 0
}.
Arguments f_len {v own inum a nb c} f.
Arguments f_nb {v own inum a nb c} f.
Arguments f_max {v own inum a nb c} f.
Arguments f_used {v own inum a nb c} f.
Arguments f_free {v own inum a nb c} f.
Arguments f_ind {v own inum a nb c} f.
Arguments f_bytes {v own inum a nb c} f.

(** Blocks in use lie between the first data block and [freeblock]; from there
    on they are clear. *)
Record space (im : img) (own : owners) : Prop := {
  s_fb : nmeta <= im_freeblock im <= FSSIZE;
  s_own : forall b x, own b = Some x -> nmeta <= b < im_freeblock im;
  s_len : forall b, 0 <= b < FSSIZE -> length (im_blk im b) = Z.to_nat BSIZE;
  s_zero : forall b, im_freeblock im <= b < FSSIZE -> im_blk im b = zeroes
}.
Arguments s_fb {im own} s.
Arguments s_own {im own} s.
Arguments s_len {im own} s.
Arguments s_zero {im own} s.

Definition extends (own own' : owners) : Prop := forall b x, own b = Some x -> own' b = Some x.

(** The addresses of a file do not depend on blocks of others. *)
Lemma addr_ext v v' own inum a nb c bn : file_ok v own inum a nb c -> (forall b, own b = Some (inum, MAXFILE) -> v' b = v b) ->
  0 <= bn < nb -> addr v' a bn = addr v a bn.
Proof.
  intros Hf Hv Hbn. unfold addr. destruct (Z.ltb_spec bn (Z.of_nat NDIRECT)) as [|Hge]; [done|].
  destruct (f_ind Hf) as [[_ Hnb]|[Ho _]]; [lia|]. by rewrite (Hv _ Ho).
Qed.

Lemma file_ext v v' own own' inum a nb c : file_ok v own inum a nb c ->
  (forall b k, own b = Some (inum, k) -> v' b = v b) -> extends own own' -> file_ok v' own' inum a nb c.
Proof.
  intros Hf Hv He. assert (Ha : forall bn, 0 <= bn < nb -> addr v' a bn = addr v a bn).
  { intros bn Hbn. eapply addr_ext; [exact Hf| |done]. intros b Hb. by apply (Hv b MAXFILE). }
  split; try apply Hf.
  - intros bn Hbn. rewrite Ha by done. apply He. by apply (f_used Hf).
  - destruct (f_ind Hf) as [H|[Ho Hz]]; [by left|right]. split; [by apply He|]. intros bn H1 H2. rewrite (Hv _ _ Ho). by apply Hz.
  - intros o Ho. assert (Hd : 0 <= o / BSIZE < nb) by (unfold BSIZE in *; Z.div_mod_to_equations; lia).
    rewrite Ha, (Hv _ _ (f_used Hf _ Hd)) by done. by apply (f_bytes Hf).
Qed.

(** ** Allocating blocks *)

Definition set_own (own : owners) (b : Z) (x : Z * Z) : owners := fun k => if k =? b then Some x else own k.

Lemma set_own_extends im own x : space im own -> extends own (set_own own (im_freeblock im) x).
Proof. intros Hs b y Hb. unfold set_own. pose proof (s_own Hs b y Hb). destruct (Z.eqb_spec b (im_freeblock im)); [lia|done]. Qed.

Lemma space_alloc im own x : space im own -> im_freeblock im < FSSIZE ->
  space (mkImg (im_blk im) (im_freeinode im) (im_freeblock im + 1)) (set_own own (im_freeblock im) x).
Proof.
  intros Hs Hlt. pose proof (s_fb Hs). split; cbn [im_blk im_freeblock im_freeinode].
  - lia.
  - intros b y Hb. unfold set_own in Hb. destruct (Z.eqb_spec b (im_freeblock im)); [lia|]. pose proof (s_own Hs b y Hb). lia.
  - apply (s_len Hs).
  - intros b Hb. apply (s_zero Hs). lia.
Qed.

Lemma next_block_run im own : space im own -> im_freeblock im < FSSIZE ->
  next_block im = Ret (im_freeblock im) (mkImg (im_blk im) (im_freeinode im) (im_freeblock im + 1)).
Proof.
  intros Hs Hlt. pose proof (s_fb Hs). unfold next_block, gets, modify, bind, ret. cbn [bindO im_blk im_freeblock im_freeinode].
  assert (nmeta = 46) by reflexivity. unfold FSSIZE in *. rewrite u32_small by lia. done.
Qed.

(** A block of the image changes. *)
Definition upd (v : Z -> list Z) (x : Z) (d : list Z) : Z -> list Z := fun b => if b =? x then d else v b.

Lemma space_upd im own x d : space im own -> x < im_freeblock im -> length d = Z.to_nat BSIZE ->
  space (mkImg (upd (im_blk im) x d) (im_freeinode im) (im_freeblock im)) own.
Proof.
  intros Hs Hx Hd. split; cbn [im_blk im_freeblock im_freeinode]; [apply (s_fb Hs)|apply (s_own Hs)| |].
  - intros b Hb. unfold upd. destruct (b =? x); [done|by apply (s_len Hs)].
  - intros b Hb. unfold upd. destruct (Z.eqb_spec b x); [lia|by apply (s_zero Hs)].
Qed.

(** Number of blocks that the file has, with the one for indirect addresses. *)
Definition weight (a : list Z) (nb : Z) : Z := nb + if nth NDIRECT a 0 =? 0 then 0 else 1.

Section Alloc.
Context (im : img) (own : owners) (inum : Z) (a : list Z) (nb : Z) (c : list Z).
Hypothesis Hs : space im own.
Hypothesis Hf : file_ok (im_blk im) own inum a nb c.
Hypothesis Hlt : im_freeblock im < FSSIZE.
Let v := im_blk im.
Let b := im_freeblock im.

Lemma fb_pos : 0 < b.
Proof. pose proof (s_fb Hs). unfold b. assert (0 < nmeta) by reflexivity. lia. Qed.

(** The new block has no bytes yet. *)
Lemma new_block_zero o : nth o (v b) 0 = 0.
Proof. unfold v. rewrite (s_zero Hs) by (unfold b in *; lia). apply nth_zeros. Qed.

Lemma past_end o : nb * BSIZE <= o -> nth (Z.to_nat o) c 0 = 0.
Proof. intros Ho. pose proof (f_max Hf). apply nth_overflow. lia. Qed.

Lemma nth_insert_addr k j x : (j < NDIRECT + 1)%nat -> nth k (<[j := x]> a) 0 = if decide (k = j) then x else nth k a 0.
Proof.
  intros Hj. rewrite !nth_lookup. destruct (decide (k = j)) as [->|Hne].
  - rewrite list_lookup_insert_eq; [done|]. rewrite (f_len Hf). done.
  - by rewrite list_lookup_insert_ne.
Qed.

Lemma alloc_direct : nb < Z.of_nat NDIRECT ->
  file_ok v (set_own own b (inum, nb)) inum (<[Z.to_nat nb := b]> a) (nb + 1) c /\ nth NDIRECT (<[Z.to_nat nb := b]> a) 0 = nth NDIRECT a 0.
Proof.
  intros Hnb. pose proof (f_nb Hf) as Hnb0. assert (Hk : (Z.to_nat nb < NDIRECT)%nat) by lia.
  assert (H12 : nth NDIRECT (<[Z.to_nat nb := b]> a) 0 = nth NDIRECT a 0) by (rewrite nth_insert_addr, decide_False by lia; done).
  assert (Hold : forall bn, 0 <= bn < nb -> addr v (<[Z.to_nat nb := b]> a) bn = addr v a bn).
  { intros bn Hbn. unfold addr. destruct (Z.ltb_spec bn (Z.of_nat NDIRECT)); [|lia]. by rewrite nth_insert_addr, decide_False by lia. }
  assert (Hnew : addr v (<[Z.to_nat nb := b]> a) nb = b).
  { unfold addr. destruct (Z.ltb_spec nb (Z.of_nat NDIRECT)); [|lia]. by rewrite nth_insert_addr, decide_True by lia. }
  split; [|done]. split.
  - rewrite length_insert. apply (f_len Hf).
  - assert (MAXFILE = 268) by reflexivity. assert (Z.of_nat NDIRECT = 12) by reflexivity. lia.
  - pose proof (f_max Hf). unfold BSIZE in *. lia.
  - intros bn Hbn. unfold set_own. destruct (decide (bn = nb)) as [->|]; [by rewrite Hnew, Z.eqb_refl|]. rewrite Hold by lia.
    pose proof (f_used Hf bn ltac:(lia)) as Ho. fold v in Ho. pose proof (s_own Hs _ _ Ho). destruct (Z.eqb_spec (addr v a bn) b); [unfold b in *; lia|done].
  - intros k Hk1 Hk2. rewrite nth_insert_addr, decide_False by lia. apply (f_free Hf); lia.
  - rewrite H12. destruct (f_ind Hf) as [[H0 _]|[Ho Hz]]; [left; split; [done|lia]|right]. split; [by apply (set_own_extends im)|].
    intros bn H1 H2. apply Hz; lia.
  - intros o Ho. destruct (decide (o < nb * BSIZE)).
    + rewrite Hold by (unfold BSIZE in *; Z.div_mod_to_equations; lia). apply (f_bytes Hf). lia.
    + replace (o / BSIZE) with nb by (unfold BSIZE in *; Z.div_mod_to_equations; lia). rewrite Hnew, new_block_zero. symmetry. apply past_end. lia.
Qed.

Lemma alloc_indirect : nth NDIRECT a 0 = 0 ->
  file_ok v (set_own own b (inum, MAXFILE)) inum (<[NDIRECT := b]> a) nb c /\ nth NDIRECT (<[NDIRECT := b]> a) 0 = b.
Proof.
  intros H0. assert (H12 : nth NDIRECT (<[NDIRECT := b]> a) 0 = b) by (rewrite nth_insert_addr, decide_True by lia; done).
  assert (Hnb : nb <= Z.of_nat NDIRECT).
  { destruct (f_ind Hf) as [[_ H]|[Ho _]]; [done|]. rewrite H0 in Ho. pose proof (s_own Hs _ _ Ho). assert (0 < nmeta) by reflexivity. lia. }
  assert (Hold : forall bn, 0 <= bn < nb -> addr v (<[NDIRECT := b]> a) bn = addr v a bn).
  { intros bn Hbn. unfold addr. destruct (Z.ltb_spec bn (Z.of_nat NDIRECT)); [|lia]. by rewrite nth_insert_addr, decide_False by lia. }
  split; [|done]. split.
  - rewrite length_insert. apply (f_len Hf).
  - apply (f_nb Hf).
  - apply (f_max Hf).
  - intros bn Hbn. rewrite Hold by lia. apply (set_own_extends im); [done|]. by apply (f_used Hf).
  - intros k Hk1 Hk2. rewrite nth_insert_addr, decide_False by lia. by apply (f_free Hf).
  - right. rewrite H12. split; [unfold set_own; by rewrite Z.eqb_refl|]. intros bn _ _. cbn [rd]. by rewrite !new_block_zero.
  - intros o Ho. rewrite Hold by (unfold BSIZE in *; Z.div_mod_to_equations; lia). by apply (f_bytes Hf).
Qed.

Lemma alloc_entry : Z.of_nat NDIRECT <= nb < MAXFILE -> own (nth NDIRECT a 0) = Some (inum, MAXFILE) ->
  let i := nth NDIRECT a 0 in
  let v' := upd v i (wr 4 (v i) (Z.to_nat (4 * (nb - Z.of_nat NDIRECT))) b) in
  file_ok v' (set_own own b (inum, nb)) inum a (nb + 1) c.
Proof.
  intros Hnb Hoi. cbv zeta. set (i := nth NDIRECT a 0) in *. set (o0 := Z.to_nat (4 * (nb - Z.of_nat NDIRECT))). set (v' := upd v i _).
  assert (Hz : forall bn, nb <= bn < MAXFILE -> rd 4 (v i) (Z.to_nat (4 * (bn - Z.of_nat NDIRECT))) = 0).
  { destruct (f_ind Hf) as [[H0 _]|[_ Hz]]; [|intros bn Hbn; apply Hz; lia]. exfalso. unfold i in Hoi. rewrite H0 in Hoi. pose proof (s_own Hs _ _ Hoi).
    assert (0 < nmeta) by reflexivity. lia. }
  pose proof (s_own Hs _ _ Hoi) as Hi. pose proof fb_pos. assert (Hli : length (v i) = 1024%nat) by (apply (s_len Hs); unfold b in *; assert (0 < nmeta) by reflexivity; lia).
  assert (Hmax : MAXFILE = 268) by reflexivity. assert (HND : NDIRECT = 12%nat) by reflexivity.
  assert (Hvi : v' i = wr 4 (v i) o0 b) by (unfold v', upd; by rewrite Z.eqb_refl).
  assert (Hold : forall bn, 0 <= bn < MAXFILE -> bn <> nb -> addr v' a bn = addr v a bn).
  { intros bn Hbn Hne. unfold addr. destruct (Z.ltb_spec bn (Z.of_nat NDIRECT)); [done|]. fold i. rewrite Hvi. apply rd_wr_other. unfold o0. lia. }
  assert (Hnew : addr v' a nb = b).
  { unfold addr. destruct (Z.ltb_spec nb (Z.of_nat NDIRECT)); [lia|]. fold i o0. rewrite Hvi, rd_wr_same by (rewrite Hli; unfold o0; lia).
    apply Z.mod_small. change (256 ^ Z.of_nat 4) with (2 ^ 32). unfold b, FSSIZE in *. lia. }
  assert (Hdata : forall bn, 0 <= bn < nb -> addr v a bn <> i).
  { intros bn Hbn E. pose proof (f_used Hf bn Hbn) as Ho. fold v in Ho. rewrite E, Hoi in Ho. injection Ho as Ho. lia. }
  split.
  - apply (f_len Hf).
  - lia.
  - pose proof (f_max Hf). unfold BSIZE in *. lia.
  - intros bn Hbn. unfold set_own. destruct (decide (bn = nb)) as [->|]; [by rewrite Hnew, Z.eqb_refl|]. rewrite Hold by lia.
    pose proof (f_used Hf bn ltac:(lia)) as Ho. fold v in Ho. pose proof (s_own Hs _ _ Ho). destruct (Z.eqb_spec (addr v a bn) b); [unfold b in *; lia|done].
  - intros k Hk1 Hk2. apply (f_free Hf); lia.
  - right. fold i. split; [by apply (set_own_extends im)|]. intros bn H1 H2. rewrite Hvi, rd_wr_other by (unfold o0; lia). apply Hz. lia.
  - intros o Ho. destruct (decide (o < nb * BSIZE)) as [Hl|Hl].
    + assert (Hd : 0 <= o / BSIZE < nb) by (unfold BSIZE in *; Z.div_mod_to_equations; lia). rewrite Hold by lia.
      unfold v', upd. destruct (Z.eqb_spec (addr v a (o / BSIZE)) i) as [E|_]; [by apply Hdata in E|]. apply (f_bytes Hf). lia.
    + replace (o / BSIZE) with nb by (unfold BSIZE in *; Z.div_mod_to_equations; lia). rewrite Hnew. unfold v', upd.
      destruct (Z.eqb_spec b i); [unfold b in *; lia|]. rewrite new_block_zero. symmetry. apply past_end. lia.
Qed.
End Alloc.

(** ** Appending *)

Definition with_addrs (din : dinode) (a : list Z) : dinode :=
  mkDinode (di_type din) (di_major din) (di_minor din) (di_nlink din) (di_size din) a.

(** Between two images only blocks of the file [inum], and free ones, differ. *)
Definition mine (inum : Z) (own : owners) (im im' : img) : Prop :=
  im_freeinode im' = im_freeinode im /\ (forall b j k, own b = Some (j, k) -> j <> inum -> im_blk im' b = im_blk im b) /\
  (forall b, b < nmeta -> im_blk im' b = im_blk im b).

Lemma mine_refl inum own im : mine inum own im im.
Proof. done. Qed.

Lemma mine_trans inum own own' im1 im2 im3 : extends own own' -> mine inum own im1 im2 -> mine inum own' im2 im3 -> mine inum own im1 im3.
Proof.
  intros He (A1 & A2 & A3) (B1 & B2 & B3). split; [congruence|]. split.
  - intros b j k Hb Hj. rewrite (B2 b j k), (A2 b j k); auto.
  - intros b Hb. rewrite B3, A3; auto.
Qed.

Lemma extends_trans own1 own2 own3 : extends own1 own2 -> extends own2 own3 -> extends own1 own3.
Proof. unfold extends. auto. Qed.

Lemma owned_int im own b x : space im own -> own b = Some x -> xint b = b /\ 0 < b < FSSIZE.
Proof.
  intros Hs Hb. pose proof (s_own Hs b x Hb). pose proof (s_fb Hs). assert (nmeta = 46) by reflexivity. unfold FSSIZE in *. rewrite xint_id by lia. lia.
Qed.

Section Append.
Context (inum : Z).

(** What finding the block of an offset gives. *)
Definition placed (im : img) (own : owners) (din : dinode) (nb : Z) (c : list Z) (fbn : Z) (din' : dinode) (x : Z) (im' : img) (own' : owners) : Prop :=
  exists a', din' = with_addrs din a' /\ space im' own' /\ extends own own' /\ mine inum own im im' /\
    file_ok (im_blk im') own' inum a' (Z.max nb (fbn + 1)) c /\ addr (im_blk im') a' fbn = x /\
    (Z.max nb (fbn + 1) <= Z.of_nat NDIRECT -> nth NDIRECT a' 0 = nth NDIRECT (di_addrs din) 0) /\
    im_freeblock im' + weight (di_addrs din) nb = im_freeblock im + weight a' (Z.max nb (fbn + 1)).

Lemma with_addrs_id din : with_addrs din (di_addrs din) = din.
Proof. by destruct din. Qed.

(** The block is there already. *)
Lemma placed_old im own din nb c fbn : space im own -> file_ok (im_blk im) own inum (di_addrs din) nb c -> 0 <= fbn < nb ->
  iappend_addr din fbn im = Ret (din, addr (im_blk im) (di_addrs din) fbn) im /\
  placed im own din nb c fbn din (addr (im_blk im) (di_addrs din) fbn) im own.
Proof.
  intros Hs Hf Hfb. pose proof (f_used Hf fbn Hfb) as Ho. destruct (owned_int _ _ _ _ Hs Ho) as [Ex Hx]. split.
  - unfold iappend_addr. unfold addr in Ex, Ho, Hx |- *. destruct (Z.ltb_spec fbn (Z.of_nat NDIRECT)).
    + rewrite Ex. destruct (Z.eqb_spec (nth (Z.to_nat fbn) (di_addrs din) 0) 0); [lia|]. unfold bind, ret. cbn [bindO]. by rewrite Ex.
    + destruct (f_ind Hf) as [[_ Hn]|[Hi _]]; [lia|]. destruct (owned_int _ _ _ _ Hs Hi) as [Ei Hi2]. rewrite Ei.
      destruct (Z.eqb_spec (nth NDIRECT (di_addrs din) 0) 0); [lia|]. unfold rsect, gets, bind, ret. cbn [bindO]. rewrite Ei.
      destruct (Z.ltb_spec (nth NDIRECT (di_addrs din) 0) FSSIZE); [|lia]. cbn [bindO].
      destruct (Z.eqb_spec (rd 4 (im_blk im (nth NDIRECT (di_addrs din) 0)) (Z.to_nat (4 * (fbn - Z.of_nat NDIRECT)))) 0); [lia|]. cbn [bindO]. by rewrite Ex.
  - exists (di_addrs din). rewrite with_addrs_id. replace (Z.max nb (fbn + 1)) with nb by lia. split; [done|]. split; [done|]. split; [by intros ? ?|].
    split; [apply mine_refl|]. split; [done|]. split; [done|]. split; [done|lia].
Qed.

Lemma weight_ind a nb : nth NDIRECT a 0 <> 0 -> weight a nb = nb + 1.
Proof. intros H. unfold weight. by destruct (Z.eqb_spec (nth NDIRECT a 0) 0). Qed.

(** A new direct block. *)
Lemma placed_direct im own din nb c : space im own -> file_ok (im_blk im) own inum (di_addrs din) nb c -> nb < Z.of_nat NDIRECT ->
  im_freeblock im + 2 <= FSSIZE -> exists din' x im' own', iappend_addr din nb im = Ret (din', x) im' /\ placed im own din nb c nb din' x im' own'.
Proof.
  intros Hs Hf Hnb Hfb. pose proof (f_nb Hf). destruct (alloc_direct im own inum _ nb c Hs Hf ltac:(lia) Hnb) as [Hf' H12].
  assert (Eb : xint (im_freeblock im) = im_freeblock im) by (apply xint_id; pose proof (s_fb Hs); assert (nmeta = 46) by reflexivity; unfold FSSIZE in *; lia).
  assert (Hb0 : 0 < im_freeblock im) by (pose proof (s_fb Hs); assert (nmeta = 46) by reflexivity; lia).
  do 4 eexists. split.
  - unfold iappend_addr. destruct (Z.ltb_spec nb (Z.of_nat NDIRECT)); [|lia]. rewrite (f_free Hf (Z.to_nat nb)) by lia. change (xint 0 =? 0) with true. cbv iota.
    erewrite bind_bind_Ret by exact (next_block_run im own Hs ltac:(lia)). cbv beta. rewrite Eb. unfold bind, ret, set_addrs. cbn [bindO di_addrs].
    rewrite nth_lookup, list_lookup_insert_eq by (rewrite (f_len Hf); lia). cbn [default from_option id]. rewrite Eb. reflexivity.
  - exists (<[Z.to_nat nb := im_freeblock im]> (di_addrs din)). split; [done|]. split; [apply (space_alloc im own (inum, nb) Hs); lia|].
    split; [by apply set_own_extends|]. split; [done|]. cbn [im_blk im_freeblock]. replace (Z.max nb (nb + 1)) with (nb + 1) by lia. split; [exact Hf'|].
    split; [|split; [done|unfold weight; rewrite H12; lia]]. unfold addr. destruct (Z.ltb_spec nb (Z.of_nat NDIRECT)); [|lia].
    by rewrite nth_lookup, list_lookup_insert_eq by (rewrite (f_len Hf); lia).
Qed.

(** A new entry in the block of indirect addresses, which is there. *)
Lemma placed_entry im own a nb c : space im own -> file_ok (im_blk im) own inum a nb c -> Z.of_nat NDIRECT <= nb < MAXFILE ->
  own (nth NDIRECT a 0) = Some (inum, MAXFILE) -> im_freeblock im < FSSIZE ->
  let i := nth NDIRECT a 0 in
  let o := Z.to_nat (4 * (nb - Z.of_nat NDIRECT)) in
  let im' := mkImg (upd (im_blk im) i (wr 4 (im_blk im i) o (im_freeblock im))) (im_freeinode im) (im_freeblock im + 1) in
  let own' := set_own own (im_freeblock im) (inum, nb) in
  rd 4 (im_blk im i) o = 0 /\ space im' own' /\ extends own own' /\ mine inum own im im' /\ file_ok (im_blk im') own' inum a (nb + 1) c /\
  addr (im_blk im') a nb = im_freeblock im /\ rd 4 (wr 4 (im_blk im i) o (im_freeblock im)) o = im_freeblock im.
Proof.
  intros Hs Hf Hnb Hoi Hfb. cbv zeta. set (i := nth NDIRECT a 0) in *. set (o := Z.to_nat _). pose proof (alloc_entry im own inum a nb c Hs Hf Hfb Hnb Hoi) as Hf'.
  cbv zeta in Hf'. fold i o in Hf'. destruct (owned_int _ _ _ _ Hs Hoi) as [_ Hi]. pose proof (s_own Hs _ _ Hoi) as Hir.
  assert (Hmax : MAXFILE = 268) by reflexivity. assert (HND : NDIRECT = 12%nat) by reflexivity.
  assert (Hli : length (im_blk im i) = 1024%nat) by (apply (s_len Hs); lia).
  assert (Hrd : rd 4 (wr 4 (im_blk im i) o (im_freeblock im)) o = im_freeblock im).
  { rewrite rd_wr_same by (rewrite Hli; unfold o; lia). apply Z.mod_small. change (256 ^ Z.of_nat 4) with (2 ^ 32). unfold FSSIZE in *. lia. }
  split.
  { destruct (f_ind Hf) as [[H0 _]|[_ Hz]]; [fold i in H0; lia|]. apply Hz; lia. }
  split.
  { pose proof (space_upd im own i (wr 4 (im_blk im i) o (im_freeblock im)) Hs ltac:(lia) ltac:(by rewrite length_wr)) as Hs'.
    apply (space_alloc _ _ (inum, nb)) in Hs'; [|done]. exact Hs'. }
  split; [by apply set_own_extends|]. split.
  { split; [done|]. cbn [im_blk]. split.
    - intros b j k Hb Hj. unfold upd. destruct (Z.eqb_spec b i) as [->|]; [congruence|done].
    - intros b Hb. unfold upd. destruct (Z.eqb_spec b i); [lia|done]. }
  split; [exact Hf'|]. split; [|done]. unfold addr. destruct (Z.ltb_spec nb (Z.of_nat NDIRECT)); [lia|]. cbn [im_blk]. fold i o.
  unfold upd. by rewrite Z.eqb_refl.
Qed.

(** A new indirect block. *)
Lemma placed_indirect im own din nb c : space im own -> file_ok (im_blk im) own inum (di_addrs din) nb c -> Z.of_nat NDIRECT <= nb < MAXFILE ->
  im_freeblock im + 2 <= FSSIZE -> exists din' x im' own', iappend_addr din nb im = Ret (din', x) im' /\ placed im own din nb c nb din' x im' own'.
Proof.
  intros Hs Hf Hnb Hfb.
  assert (Hpre : exists a1 im1 own1, (if xint (nth NDIRECT (di_addrs din) 0) =? 0
      then b <- next_block ;; ret (set_addrs din NDIRECT (xint b)) else ret din) im = Ret (with_addrs din a1) im1 /\
    space im1 own1 /\ extends own own1 /\ mine inum own im im1 /\ file_ok (im_blk im1) own1 inum a1 nb c /\
    own1 (nth NDIRECT a1 0) = Some (inum, MAXFILE) /\ im_freeblock im1 < FSSIZE /\
    im_freeblock im1 + weight (di_addrs din) nb = im_freeblock im + weight a1 nb).
  { destruct (f_ind Hf) as [[H0 _]|[Hi _]].
    - destruct (alloc_indirect im own inum _ nb c Hs Hf ltac:(lia) H0) as [Hf1 H12].
      assert (Eb : xint (im_freeblock im) = im_freeblock im) by (apply xint_id; pose proof (s_fb Hs); assert (nmeta = 46) by reflexivity; unfold FSSIZE in *; lia).
      assert (Hb0 : 0 < im_freeblock im) by (pose proof (s_fb Hs); assert (nmeta = 46) by reflexivity; lia).
      exists (<[NDIRECT := im_freeblock im]> (di_addrs din)). do 2 eexists. rewrite H0. change (xint 0 =? 0) with true. cbv iota.
      rewrite (bind_Ret _ _ _ _ _ (next_block_run im own Hs ltac:(lia))), Eb. split; [reflexivity|]. split; [apply (space_alloc im own (inum, MAXFILE) Hs); lia|].
      split; [by apply set_own_extends|]. split; [done|]. split; [exact Hf1|]. split; [rewrite H12; unfold set_own; by rewrite Z.eqb_refl|].
      cbn [im_freeblock]. split; [lia|]. rewrite (weight_ind (<[NDIRECT := im_freeblock im]> (di_addrs din))) by lia. unfold weight. rewrite H0. cbn. lia.
    - exists (di_addrs din), im, own. destruct (owned_int _ _ _ _ Hs Hi) as [Ei Hi2]. rewrite Ei. destruct (Z.eqb_spec (nth NDIRECT (di_addrs din) 0) 0); [lia|].
      rewrite with_addrs_id. split; [done|]. split; [done|]. split; [by intros ? ?|]. split; [apply mine_refl|]. split; [done|]. split; [done|]. lia. }
  destruct Hpre as (a1 & im1 & own1 & E1 & Hs1 & He1 & Hm1 & Hf1 & Ho1 & Hlt1 & Hw1).
  destruct (placed_entry im1 own1 a1 nb c Hs1 Hf1 Hnb Ho1 Hlt1) as (Hz & Hs2 & He2 & Hm2 & Hf2 & Ha2 & Hrd). destruct (owned_int _ _ _ _ Hs1 Ho1) as [Ei Hi].
  assert (Eb : xint (im_freeblock im1) = im_freeblock im1) by (apply xint_id; pose proof (s_fb Hs1); assert (nmeta = 46) by reflexivity; unfold FSSIZE in *; lia).
  do 4 eexists. split.
  - unfold iappend_addr. destruct (Z.ltb_spec nb (Z.of_nat NDIRECT)); [lia|]. rewrite (bind_Ret _ _ _ _ _ E1). cbn [with_addrs di_addrs]. rewrite Ei.
    unfold rsect. destruct (Z.ltb_spec (nth NDIRECT a1 0) FSSIZE); [|lia]. unfold gets at 1. unfold bind at 1. cbn [bindO]. rewrite Hz. change (0 =? 0) with true. cbv iota zeta.
    erewrite bind_bind_Ret by exact (next_block_run im1 own1 Hs1 Hlt1). cbv beta zeta. rewrite Eb. unfold wsect, modify, bind, ret. cbn [bindO im_blk im_freeinode im_freeblock]. rewrite Hrd, Eb. reflexivity.
  - exists a1. split; [reflexivity|]. split; [exact Hs2|]. split; [by eapply extends_trans|]. split; [by eapply mine_trans|].
    replace (Z.max nb (nb + 1)) with (nb + 1) by lia. split; [exact Hf2|]. split; [exact Ha2|]. split; [lia|]. cbn [im_freeblock].
    assert (nth NDIRECT a1 0 <> 0) by lia. rewrite (weight_ind a1) in * by done. lia.
Qed.

(** Bytes written behind the end of the file, within its last block. *)
Lemma file_write im own a nb c q : space im own -> file_ok (im_blk im) own inum a nb c ->
  let off := Z.of_nat (length c) in
  let fbn := off / BSIZE in
  let x := addr (im_blk im) a fbn in
  let d := splice (im_blk im x) (Z.to_nat (off - fbn * BSIZE)) q in
  fbn < nb -> off + Z.of_nat (length q) <= (fbn + 1) * BSIZE ->
  space (mkImg (upd (im_blk im) x d) (im_freeinode im) (im_freeblock im)) own /\ file_ok (upd (im_blk im) x d) own inum a nb (c ++ q) /\
  mine inum own im (mkImg (upd (im_blk im) x d) (im_freeinode im) (im_freeblock im)).
Proof.
  intros Hs Hf off fbn x d Hfb Hq. assert (Hoff : off = Z.of_nat (length c)) by done. assert (Hf0 : 0 <= fbn) by (unfold fbn, off, BSIZE; Z.div_mod_to_equations; lia).
  assert (Hin : fbn * BSIZE <= off < (fbn + 1) * BSIZE) by (unfold fbn, BSIZE; Z.div_mod_to_equations; lia).
  pose proof (f_used Hf fbn ltac:(lia)) as Hx. fold x in Hx. pose proof (s_own Hs _ _ Hx) as Hxr. pose proof (s_fb Hs) as Hfbr. pose proof (f_nb Hf) as Hnb.
  assert (Hm : nmeta = 46) by reflexivity. assert (Hmax : MAXFILE = 268) by reflexivity. assert (HB : BSIZE = 1024) by reflexivity.
  assert (Hlx : length (im_blk im x) = Z.to_nat BSIZE) by (apply (s_len Hs); unfold FSSIZE in *; lia).
  assert (Hld : (Z.to_nat (off - fbn * BSIZE) + length q <= length (im_blk im x))%nat) by (rewrite Hlx; lia).
  assert (Ha : forall bn, 0 <= bn < nb -> addr (upd (im_blk im) x d) a bn = addr (im_blk im) a bn).
  { intros bn Hbn. eapply addr_ext; [exact Hf| |done]. intros b Hb. unfold upd. destruct (Z.eqb_spec b x) as [->|]; [|done].
    rewrite Hx in Hb. injection Hb as Hb. lia. }
  split; [apply space_upd; [done|lia|]; unfold d; by rewrite length_splice|]. split.
  - split.
    + apply (f_len Hf).
    + done.
    + rewrite length_app. nia.
    + intros bn Hbn. rewrite Ha by done. by apply (f_used Hf).
    + apply (f_free Hf).
    + destruct (f_ind Hf) as [H|[Ho Hz]]; [by left|right]. split; [done|]. intros bn H1 H2. unfold upd.
      destruct (Z.eqb_spec (nth NDIRECT a 0) x) as [E|]; [|by apply Hz]. rewrite E, Hx in Ho. injection Ho as Ho. lia.
    + intros o Ho. assert (Hd : 0 <= o / BSIZE < nb) by (rewrite HB in *; Z.div_mod_to_equations; lia). rewrite Ha by done.
      pose proof (f_bytes Hf o Ho) as Hb. unfold upd. destruct (Z.eqb_spec (addr (im_blk im) a (o / BSIZE)) x) as [E|Hne].
      * pose proof (f_used Hf _ Hd) as Ho'. rewrite E, Hx in Ho'. injection Ho' as Ho'. rewrite E in Hb.
        assert (Eo : o mod BSIZE = o - fbn * BSIZE) by (rewrite Ho'; rewrite HB; Z.div_mod_to_equations; lia).
        assert (Hol : fbn * BSIZE <= o < (fbn + 1) * BSIZE) by (rewrite Ho'; rewrite HB; Z.div_mod_to_equations; lia).
        unfold d. rewrite nth_splice by done. rewrite Eo in *. destruct (decide _) as [Hi|Hi].
        -- rewrite app_nth2 by lia. f_equal. lia.
        -- rewrite Hb. destruct (decide (o < off)); [by rewrite app_nth1 by lia|]. rewrite (nth_overflow c), nth_overflow by (rewrite ?length_app; lia). done.
      * rewrite Hb. destruct (decide (o < off)); [by rewrite app_nth1 by lia|]. rewrite (nth_overflow c) by lia. rewrite nth_overflow; [done|]. rewrite length_app.
        assert (o / BSIZE <> fbn) by (intros E; apply Hne; by rewrite E). rewrite HB in *. Z.div_mod_to_equations. lia.
  - split; [done|]. cbn [im_blk]. split; intros b; unfold upd.
    + intros j k Hb Hj. destruct (Z.eqb_spec b x) as [->|]; [congruence|done].
    + intros Hb. destruct (Z.eqb_spec b x); [lia|done].
Qed.

(** The file that [din] describes has the contents [c] and no more blocks than
    they need. *)
Definition nblk (n : Z) : Z := (n + BSIZE - 1) / BSIZE.
Definition cost (n : Z) : Z := nblk n + if nblk n <=? Z.of_nat NDIRECT then 0 else 1.
Definition sized (c : list Z) : Z := Z.of_nat (length c).

Record holds (im : img) (own : owners) (din : dinode) (c : list Z) : Prop := {
  h_space : space im own;
  h_file : file_ok (im_blk im) own inum (di_addrs din) (nblk (sized c)) c;
  h_tight : nblk (sized c) <= Z.of_nat NDIRECT -> nth NDIRECT (di_addrs din) 0 = 0
}.

Lemma holds_weight im own din c : holds im own din c -> weight (di_addrs din) (nblk (sized c)) = cost (sized c).
Proof.
  intros [Hs Hf Ht]. unfold weight, cost. destruct (Z.leb_spec (nblk (sized c)) (Z.of_nat NDIRECT)); [by rewrite Ht|].
  destruct (f_ind Hf) as [[_ ?]|[Ho _]]; [lia|]. destruct (owned_int _ _ _ _ Hs Ho). destruct (Z.eqb_spec (nth NDIRECT (di_addrs din) 0) 0); lia.
Qed.

(** [im'], [own'] and [din'] come from [im], [own] and [din] by appending to the
    file, which held [c] and holds [c'] now. *)
Definition grows (im : img) (own : owners) (din : dinode) (c : list Z) (im' : img) (own' : owners) (din' : dinode) (c' : list Z) : Prop :=
  (exists a', din' = with_addrs din a') /\ extends own own' /\ mine inum own im im' /\ holds im' own' din' c' /\
  im_freeblock im' + cost (sized c) = im_freeblock im + cost (sized c').

Lemma append_trans im1 own1 din1 c1 im2 own2 din2 c2 im3 own3 din3 c3 :
  grows im1 own1 din1 c1 im2 own2 din2 c2 -> grows im2 own2 din2 c2 im3 own3 din3 c3 -> grows im1 own1 din1 c1 im3 own3 din3 c3.
Proof.
  intros ([a1 E1] & A2 & A3 & A4 & A5) ([a2 E2] & B2 & B3 & B4 & B5). split; [exists a2; by rewrite E2, E1|].
  split; [by eapply extends_trans|]. split; [by eapply mine_trans|]. split; [done|]. lia.
Qed.

Lemma append_refl im own din c : holds im own din c -> grows im own din c im own din c.
Proof. intros H. split; [exists (di_addrs din); by rewrite with_addrs_id|]. split; [by intros ? ?|]. split; [apply mine_refl|]. done. Qed.

Lemma cost_le m n : 0 <= m <= n -> cost m <= cost n.
Proof.
  intros H. assert (nblk m <= nblk n) by (unfold nblk, BSIZE; Z.div_mod_to_equations; lia). unfold cost.
  destruct (Z.leb_spec (nblk m) (Z.of_nat NDIRECT)); destruct (Z.leb_spec (nblk n) (Z.of_nat NDIRECT)); lia.
Qed.

(** Finding the block where the next bytes go. *)
Lemma place_run im own din c p : holds im own din c -> p <> [] -> sized (c ++ p) <= MAXFILE * BSIZE ->
  im_freeblock im + cost (sized (c ++ p)) < FSSIZE + cost (sized c) ->
  exists din' x im' own', iappend_addr din (sized c / BSIZE) im = Ret (din', x) im' /\ placed im own din (nblk (sized c)) c (sized c / BSIZE) din' x im' own'.
Proof.
  intros [Hs Hf Ht] Hp Hmax Hsp. pose proof (f_nb Hf). set (n := sized c) in *. assert (Hn : 0 <= n) by (unfold n, sized; lia).
  assert (Hlp : (0 < length p)%nat) by (destruct p; [done|cbn; lia]). assert (Hm : n + 1 <= sized (c ++ p)) by (unfold sized, n in *; rewrite length_app; unfold sized; lia).
  assert (HB : BSIZE = 1024) by reflexivity. assert (HM : MAXFILE = 268) by reflexivity.
  assert (Hcase : 0 <= n / BSIZE < nblk n \/ n / BSIZE = nblk n /\ nblk (n + 1) = nblk n + 1 /\ nblk n < MAXFILE)
    by (unfold nblk; rewrite HB, HM in *; Z.div_mod_to_equations; lia).
  destruct Hcase as [Hc|(Ec & Ec1 & Hc)].
  - destruct (placed_old im own din (nblk n) c (n / BSIZE) Hs Hf Hc) as [E P]. by do 4 eexists.
  - rewrite Ec. assert (im_freeblock im + 2 <= FSSIZE).
    { pose proof (cost_le (n + 1) (sized (c ++ p)) ltac:(lia)). unfold cost in *. rewrite Ec1 in *.
      destruct (Z.leb_spec (nblk n) (Z.of_nat NDIRECT)); destruct (Z.leb_spec (nblk n + 1) (Z.of_nat NDIRECT)); lia. }
    destruct (Z.lt_ge_cases (nblk n) (Z.of_nat NDIRECT)); [by apply placed_direct|apply placed_indirect; [done|done|lia|done]].
Qed.

(** One round of the loop. *)
Lemma step_run im own din c p : holds im own din c -> p <> [] -> sized (c ++ p) <= MAXFILE * BSIZE ->
  im_freeblock im + cost (sized (c ++ p)) < FSSIZE + cost (sized c) ->
  exists q p' im' own' din', p = q ++ p' /\ q <> [] /\ iappend_step (din, sized c, p) im = Ret (inl (din', sized (c ++ q), p')) im' /\
    grows im own din c im' own' din' (c ++ q).
Proof.
  intros Hh Hp Hmax Hsp. destruct (place_run im own din c p Hh Hp Hmax Hsp) as (din1 & x & im1 & own1 & E1 & a1 & -> & Hs1 & He1 & Hm1 & Hf1 & Ha1 & Ht1 & Hw1).
  pose proof (holds_weight _ _ _ _ Hh) as Hw. pose proof (h_tight _ _ _ _ Hh) as Ht.
  set (n1 := Z.min (sized p) ((sized c / BSIZE + 1) * BSIZE - sized c)). set (q := take (Z.to_nat n1) p).
  assert (HB : BSIZE = 1024) by reflexivity. assert (HM : MAXFILE = 268) by reflexivity. assert (Hc0 : 0 <= sized c) by (unfold sized; lia).
  assert (Hlp : 0 < sized p) by (destruct p; [done|unfold sized; cbn; lia]).
  assert (Hn1 : 0 < n1 <= sized p) by (unfold n1; rewrite HB; Z.div_mod_to_equations; lia).
  assert (Hq : sized q = n1) by (unfold q, sized in *; rewrite length_take; lia).
  assert (Hcq : sized (c ++ q) = sized c + n1) by (unfold sized in *; rewrite length_app; lia).
  assert (Hcp : sized (c ++ p) = sized c + sized p) by (unfold sized in *; rewrite length_app; lia).
  assert (Hnb : Z.max (nblk (sized c)) (sized c / BSIZE + 1) = nblk (sized (c ++ q))) by (rewrite Hcq; unfold nblk, n1; rewrite HB; Z.div_mod_to_equations; lia).
  rewrite Hnb in *. pose proof (f_used Hf1 (sized c / BSIZE) ltac:(rewrite <- Hnb, HB; Z.div_mod_to_equations; lia)) as Hox. rewrite Ha1 in Hox.
  destruct (owned_int _ _ _ _ Hs1 Hox) as [_ Hxr].
  destruct (file_write im1 own1 a1 _ c q Hs1 Hf1) as (Hs2 & Hf2 & Hm2).
  { change (sized c / BSIZE < nblk (sized (c ++ q))). rewrite <- Hnb. lia. }
  { change (sized c + sized q <= (sized c / BSIZE + 1) * BSIZE). rewrite Hq. unfold n1. lia. }
  change (Z.of_nat (length c)) with (sized c) in Hs2, Hf2, Hm2. rewrite Ha1 in Hs2, Hf2, Hm2.
  exists q, (drop (Z.to_nat n1) p), (mkImg (upd (im_blk im1) x (splice (im_blk im1 x) (Z.to_nat (sized c - sized c / BSIZE * BSIZE)) q)) (im_freeinode im1) (im_freeblock im1)), own1, (with_addrs din a1).
  split; [unfold q; by rewrite take_drop|]. split; [intros E; rewrite E in Hq; unfold sized in Hq; cbn in Hq; lia|]. split.
  - unfold iappend_step. change (Z.of_nat (length p)) with (sized p). destruct (Z.gtb_spec (sized p) 0); [|lia]. cbv zeta.
    destruct (Z.ltb_spec (sized c / BSIZE) MAXFILE); [|exfalso; rewrite HB, HM in *; Z.div_mod_to_equations; lia]. cbn [negb].
    rewrite (bind_Ret _ _ _ _ _ E1). unfold rsect. destruct (Z.ltb_spec x FSSIZE); [|lia]. fold n1. rewrite Hcq, u32_small by (rewrite HB, HM in *; lia). reflexivity.
  - split; [by exists a1|]. split; [done|]. split; [eapply mine_trans; [exact He1|exact Hm1|exact Hm2]|].
    assert (Hh2 : holds (mkImg (upd (im_blk im1) x (splice (im_blk im1 x) (Z.to_nat (sized c - sized c / BSIZE * BSIZE)) q)) (im_freeinode im1) (im_freeblock im1)) own1 (with_addrs din a1) (c ++ q)).
    { split; [done|exact Hf2|]. intros Hle. cbn [with_addrs di_addrs]. rewrite Ht1 by done. apply Ht. lia. }
    split; [done|]. apply holds_weight in Hh2. cbn [with_addrs di_addrs im_freeblock] in *. lia.
Qed.

(** The whole loop. *)
Lemma steps_run im own din c p : holds im own din c -> sized (c ++ p) <= MAXFILE * BSIZE ->
  im_freeblock im + cost (sized (c ++ p)) < FSSIZE + cost (sized c) ->
  exists im' own' din', loop iappend_step (din, sized c, p) im = Ret (din', sized (c ++ p)) im' /\ grows im own din c im' own' din' (c ++ p).
Proof.
  intros Hh Hmax Hsp.
  apply (loop_measure iappend_step
    (fun '(din1, off1, p1) im1 => exists q own1, p = q ++ p1 /\ off1 = sized (c ++ q) /\ grows im own din c im1 own1 din1 (c ++ q))
    (fun '(_, _, p1) _ => length p1)
    (fun o => exists im' own' din', o = Ret (din', sized (c ++ p)) im' /\ grows im own din c im' own' din' (c ++ p))).
  - intros [[din1 off1] p1] im1 (q & own1 & -> & -> & Hg). destruct (decide (p1 = [])) as [->|Hp].
    + right. left. exists (din1, sized (c ++ q)), im1. split; [done|]. rewrite app_nil_r. by exists im1, own1, din1.
    + left. rewrite (app_assoc c) in Hmax, Hsp. pose proof Hg as (_ & _ & _ & Hh1 & Hw).
      destruct (step_run im1 own1 din1 (c ++ q) p1 Hh1 Hp Hmax ltac:(lia)) as (q2 & p2 & im2 & own2 & din2 & -> & Hq2 & E & Hg2).
      exists (din2, sized ((c ++ q) ++ q2), p2), im2. split; [exact E|]. split.
      * exists (q ++ q2), own2. rewrite !(app_assoc). split; [done|]. split; [done|]. by eapply append_trans.
      * rewrite length_app. destruct q2; [done|cbn; lia].
  - exists [], own. rewrite app_nil_r. split; [done|]. split; [done|]. by apply append_refl.
  - assert (BSIZE = 1024) by reflexivity. assert (MAXFILE = 268) by reflexivity. unfold sized in Hmax. rewrite length_app in Hmax. lia.
Qed.
End Append.
