(* ===== verification/MkfsImage.v ===== *)
(** * The image that mkfs makes

    The inodes of the image and the whole of [main] in mkfs/mkfs.c: every file
    given to mkfs is in the image as kernel/fs.c reads it, the root directory
    names them all, and the bitmap marks the blocks in use. *)

From S2P Require Import Prelude Machine State CString Printf Block Bio Fs FsFacts FileFacts Dir Mkfs.

Abbreviation disk_inode := (on_disk mkfs_sb).

(** The boot block, the super block and the log are the same. *)
Definition same_head (im im' : img) : Prop := forall b, b < 32 -> im_blk im' b = im_blk im b.

Lemma same_head_trans im1 im2 im3 : same_head im1 im2 -> same_head im2 im3 -> same_head im1 im3.
Proof. intros H1 H2 b Hb. by rewrite H2, H1. Qed.

(** ** Inodes *)

Lemma IBLOCK_range inum : 0 <= inum < 208 -> IBLOCK inum mkfs_sb = inum / IPB + 32 /\ 32 <= inum / IPB + 32 < 45.
Proof.
  intros H. assert (IPB = 16) as HI by reflexivity. unfold IBLOCK. change (sb_inodestart mkfs_sb) with 32. rewrite HI.
  assert (0 <= inum / 16 < 13) by (Z.div_mod_to_equations; lia). rewrite u32_small by lia. lia.
Qed.

Definition set_inode (im : img) (inum : Z) (din : dinode) : img :=
  let bn := IBLOCK inum mkfs_sb in
  mkImg (upd (im_blk im) bn (wr_dinode (im_blk im bn) (dip_off inum) din)) (im_freeinode im) (im_freeblock im).

Lemma winode_run im inum din : 0 <= inum < 208 -> winode inum din im = Ret tt (set_inode im inum din).
Proof.
  intros H. destruct (IBLOCK_range inum H) as [E ?]. unfold winode, rsect, set_inode. rewrite E.
  destruct (Z.ltb_spec (inum / IPB + 32) FSSIZE); [done|unfold FSSIZE in *; lia].
Qed.

Lemma rinode_run im inum : 0 <= inum < 208 -> rinode inum im = Ret (disk_inode (im_blk im) inum) im.
Proof.
  intros H. destruct (IBLOCK_range inum H) as [E ?]. unfold rinode, rsect, on_disk. rewrite E.
  destruct (Z.ltb_spec (inum / IPB + 32) FSSIZE); [done|unfold FSSIZE in *; lia].
Qed.

Section SetInode.
Context (im : img) (own : owners) (inum : Z) (din : dinode).
Hypothesis Hs : space im own.
Hypothesis Hi : 0 <= inum < 208.

Lemma space_set_inode : space (set_inode im inum din) own.
Proof.
  destruct (IBLOCK_range inum Hi) as [E ?]. pose proof (s_fb Hs). assert (nmeta = 46) by reflexivity. unfold set_inode. rewrite E.
  apply space_upd; [done|lia|]. rewrite length_wr_dinode. apply (s_len Hs). unfold FSSIZE. lia.
Qed.

Lemma set_inode_blk b : b < 32 \/ 45 <= b -> im_blk (set_inode im inum din) b = im_blk im b.
Proof. intros Hb. destruct (IBLOCK_range inum Hi) as [E ?]. cbn. unfold upd. rewrite E. destruct (Z.eqb_spec b (inum / IPB + 32)); [lia|done]. Qed.

Lemma holds_set_inode j d c : holds j im own d c -> holds j (set_inode im inum din) own d c.
Proof.
  intros [_ Hf Ht]. split; [apply space_set_inode| |done]. eapply file_ext; [exact Hf| |by intros ? ?]. intros b k Hb.
  pose proof (s_own Hs _ _ Hb). assert (nmeta = 46) by reflexivity. apply set_inode_blk. lia.
Qed.

Lemma set_inode_same : dinode_ok din -> disk_inode (im_blk (set_inode im inum din)) inum = din.
Proof.
  intros Hd. unfold on_disk. cbn. unfold upd. rewrite Z.eqb_refl. apply rd_wr_dinode; [done|]. destruct (IBLOCK_range inum Hi) as [E ?]. rewrite E.
  rewrite (s_len Hs) by (unfold FSSIZE; lia). apply dip_off_bound.
Qed.

Lemma set_inode_other j : dinode_ok din -> 0 <= j < 208 -> j <> inum -> disk_inode (im_blk (set_inode im inum din)) j = disk_inode (im_blk im) j.
Proof.
  intros Hd Hj Hne. unfold on_disk. cbn. unfold upd. destruct (Z.eqb_spec (IBLOCK j mkfs_sb) (IBLOCK inum mkfs_sb)) as [E|]; [|done].
  rewrite E. apply rd_dinode_ext. intros k Hk. apply nth_wr_dinode_other; [apply Hd|]. destruct (IBLOCK_range inum Hi) as [E1 _]. destruct (IBLOCK_range j Hj) as [E2 _].
  assert (Hm : j mod IPB <> inum mod IPB).
  { intros Em. apply Hne. pose proof (Z.div_mod j IPB ltac:(done)). pose proof (Z.div_mod inum IPB ltac:(done)). assert (j / IPB = inum / IPB) by lia. nia. }
  destruct (dip_off_other j inum Hm); lia.
Qed.
End SetInode.

(** ** The image as a list of files *)

(** A file of the image: its type and its contents. *)
Abbreviation dfile := (Z * list Z)%type.

Definition entry (t : Z) (c : list Z) (a : list Z) : dinode := mkDinode t 0 0 1 (sized c) a.

Definition file_at (im : img) (own : owners) (inum : Z) (f : dfile) : Prop :=
  exists a, disk_inode (im_blk im) inum = entry f.1 f.2 a /\ holds inum im own (entry f.1 f.2 a) f.2.

(** Blocks that the files take. *)
Fixpoint total (T : list dfile) : Z := match T with f :: T => cost (sized f.2) + total T | [] => 0 end.

(** Inode [1 + k] is the file number [k] of the list; the other inodes are
    free, and [freeblock] counts the blocks of the files. *)
Record image (im : img) (own : owners) (T : list dfile) : Prop := {
  i_space : space im own;
  i_files : forall k f, T !! k = Some f -> file_at im own (1 + Z.of_nat k) f;
  i_free : forall j, 1 + Z.of_nat (length T) <= j < NINODES -> di_type (disk_inode (im_blk im) j) = 0;
  i_next : im_freeinode im = 1 + Z.of_nat (length T);
  i_fb : im_freeblock im = nmeta + total T;
  i_many : Z.of_nat (length T) < NINODES;
  i_types : Forall (fun f => 0 <= f.1 < 2 ^ 15) T
}.
Arguments i_space {im own T} i.
Arguments i_files {im own T} i.
Arguments i_free {im own T} i.
Arguments i_next {im own T} i.
Arguments i_fb {im own T} i.
Arguments i_many {im own T} i.
Arguments i_types {im own T} i.

Lemma total_app T1 T2 : total (T1 ++ T2) = total T1 + total T2.
Proof. induction T1 as [|f T1 IH]; [done|]. cbn. rewrite IH. lia. Qed.

Lemma total_insert T k f g : T !! k = Some f -> total (<[k := g]> T) = total T + cost (sized g.2) - cost (sized f.2).
Proof.
  revert k. induction T as [|h T IH]; intros [|k] H; [done|done|injection H as ->; cbn; lia|].
  change (<[Datatypes.S k := g]> (h :: T)) with (h :: <[k := g]> T). cbn [total]. rewrite (IH k H). lia.
Qed.

Lemma cost_nonneg n : 0 <= n -> 0 <= cost n.
Proof. intros H. assert (0 <= nblk n) by (unfold nblk, BSIZE; Z.div_mod_to_equations; lia). unfold cost. destruct (_ <=? _); lia. Qed.

(** The addresses of a file fit their fields. *)
Lemma entry_ok im own inum t c c0 a : 0 <= t < 2 ^ 15 -> sized c < 2 ^ 32 -> holds inum im own (entry t c0 a) c -> dinode_ok (entry t c a).
Proof.
  intros Ht Hc [Hs Hf _]. cbn [entry di_addrs] in Hf. split; [|split; [cbn; unfold sized in *; lia|]].
  { intros x Hx. cbn in Hx. rewrite !elem_of_cons, elem_of_nil in Hx. lia. }
  split; [apply (f_len Hf)|]. apply Forall_lookup. intros k b Hb. cbn [entry di_addrs] in Hb. pose proof (lookup_lt_Some _ _ _ Hb) as Hlt. rewrite (f_len Hf) in Hlt.
  assert (En : nth k a 0 = b) by by rewrite nth_lookup, Hb. destruct (decide (k = NDIRECT)) as [->|Hk].
  - destruct (f_ind Hf) as [[E _]|[Ho _]]; [lia|]. destruct (owned_int _ _ _ _ Hs Ho). unfold FSSIZE in *. lia.
  - destruct (Z.lt_ge_cases (Z.of_nat k) (nblk (sized c))).
    + pose proof (f_used Hf (Z.of_nat k) ltac:(lia)) as Ho. unfold addr in Ho. destruct (Z.ltb_spec (Z.of_nat k) (Z.of_nat NDIRECT)); [|lia]. rewrite Nat2Z.id in Ho.
      destruct (owned_int _ _ _ _ Hs Ho). unfold FSSIZE in *. lia.
    + rewrite <- En, (f_free Hf k) by lia. lia.
Qed.

(** Files that another file's growth leaves alone. *)
Lemma file_at_frame im own im' own' inum j f : file_at im own j f -> j <> inum -> 0 <= j < 208 -> extends own own' -> mine inum own im im' -> space im' own' ->
  file_at im' own' j f.
Proof.
  intros (a & Ea & [_ Hf Ht]) Hne Hj He (_ & Hm1 & Hm2) Hs'. destruct (IBLOCK_range j Hj) as [E ?]. assert (nmeta = 46) by reflexivity.
  exists a. split; [unfold on_disk in *; rewrite Hm2 by lia; done|]. split; [done| |done]. eapply file_ext; [exact Hf| |done]. intros b k Hb. by eapply Hm1.
Qed.

Lemma free_frame im own im' inum : mine inum own im im' -> forall j, 0 <= j < NINODES -> disk_inode (im_blk im') j = disk_inode (im_blk im) j.
Proof.
  intros (_ & _ & Hm) j Hj. unfold NINODES in Hj. destruct (IBLOCK_range j ltac:(lia)) as [E ?]. assert (nmeta = 46) by reflexivity. unfold on_disk. by rewrite Hm by lia.
Qed.

(** Appending to a file of the image. *)
Lemma iappend_run im own T k t c p : image im own T -> T !! k = Some (t, c) -> sized (c ++ p) <= MAXFILE * BSIZE ->
  nmeta + total (<[k := (t, c ++ p)]> T) < FSSIZE ->
  exists im' own', iappend (1 + Z.of_nat k) p im = Ret tt im' /\ image im' own' (<[k := (t, c ++ p)]> T) /\ same_head im im'.
Proof.
  intros Hi Hk Hmax Hsp. set (inum := 1 + Z.of_nat k). pose proof (lookup_lt_Some _ _ _ Hk) as Hlt. pose proof (i_many Hi) as Hmany. unfold NINODES in Hmany.
  assert (Hin : 0 <= inum < 208) by lia. destruct (i_files Hi k _ Hk) as (a & Ea & Hh). fold inum in Ea, Hh. cbn [fst snd] in Ea, Hh.
  rewrite (total_insert _ _ _ _ Hk) in Hsp. cbn [snd] in Hsp. pose proof (i_fb Hi) as Hfb. assert (HB : BSIZE = 1024) by reflexivity. assert (HM : MAXFILE = 268) by reflexivity.
  destruct (steps_run inum im own _ c p Hh Hmax ltac:(lia)) as (im1 & own1 & din1 & E1 & ([a1 ->] & He & Hm & Hh1 & Hw)).
  change (with_addrs (entry t c a) a1) with (entry t c a1) in *. pose proof (h_space _ _ _ _ _ Hh1) as Hs1.
  assert (Ht : 0 <= t < 2 ^ 15) by (apply (proj1 (Forall_lookup _ _) (i_types Hi) k _ Hk)).
  assert (Hok : dinode_ok (entry t (c ++ p) a1)) by (eapply entry_ok; [done|rewrite HB, HM in *; lia|exact Hh1]).
  exists (set_inode im1 inum (entry t (c ++ p) a1)), own1. split; [|split].
  - unfold iappend. fold inum. rewrite (bind_Ret _ _ _ _ _ (rinode_run im inum Hin)), Ea. change (di_size (entry t c a)) with (sized c).
    assert (0 <= sized c <= sized (c ++ p)) by (unfold sized; rewrite length_app; lia).
    rewrite xint_id by (rewrite HB, HM in *; lia). rewrite (bind_Ret _ _ _ _ _ E1). rewrite xint_id by (rewrite HB, HM in *; lia). apply (winode_run im1 inum (entry t (c ++ p) a1)). done.
  - split.
    + by apply space_set_inode.
    + intros j f Hj. destruct (decide (j = k)) as [->|Hne].
      * rewrite list_lookup_insert_eq in Hj by done. injection Hj as <-. exists a1. split; [by eapply set_inode_same|].
        apply holds_set_inode; [done|done|]. destruct Hh1 as [? ? ?]. by split.
      * rewrite list_lookup_insert_ne in Hj by done. pose proof (lookup_lt_Some _ _ _ Hj).
        destruct (file_at_frame _ _ im1 own1 inum _ _ (i_files Hi j f Hj) ltac:(lia) ltac:(lia) He Hm Hs1) as (b & Eb & Hb).
        exists b. split; [by erewrite set_inode_other by (try done; lia)|by apply holds_set_inode].
    + intros j Hj. rewrite length_insert in Hj. unfold NINODES in Hj. erewrite set_inode_other by (try done; lia).
      rewrite (free_frame _ _ _ _ Hm) by (unfold NINODES; lia). apply (i_free Hi). unfold NINODES. lia.
    + rewrite length_insert. cbn. destruct Hm as [-> _]. apply (i_next Hi).
    + cbn. rewrite (total_insert _ _ _ _ Hk). cbn [snd]. lia.
    + rewrite length_insert. apply (i_many Hi).
    + apply Forall_insert; [apply (i_types Hi)|done].
  - intros b Hb. rewrite set_inode_blk by (try done; lia). apply Hm. assert (nmeta = 46) by reflexivity. lia.
Qed.

(** A new, empty file. *)
Lemma ialloc_run im own T t : image im own T -> Z.of_nat (length T) + 1 < NINODES -> 0 <= t < 2 ^ 15 ->
  exists im', ialloc t im = Ret (1 + Z.of_nat (length T)) im' /\ image im' own (T ++ [(t, [])]) /\ same_head im im'.
Proof.
  intros Hi Hmany Ht. unfold NINODES in Hmany. set (inum := 1 + Z.of_nat (length T)). assert (Hin : 0 <= inum < 208) by lia.
  set (im1 := mkImg (im_blk im) (inum + 1) (im_freeblock im)). set (a0 := replicate (NDIRECT + 1) 0).
  assert (Hs1 : space im1 own) by (destruct (i_space Hi) as [? ? ? ?]; by split).
  assert (Hh : holds inum im1 own (entry t [] a0) []).
  { split; [done| |done]. assert (Hn : nblk (sized []) = 0) by reflexivity. rewrite Hn. split; try done; [intros; lia|intros m _ Hm; unfold a0, entry; cbn [di_addrs]; apply nth_zeros|by left|intros; lia]. }
  assert (Hok : dinode_ok (entry t [] a0)) by (by eapply entry_ok).
  exists (set_inode im1 inum (entry t [] a0)). split; [|split].
  - unfold ialloc, gets, modify, ret. unfold bind at 1. cbn [bindO]. unfold bind at 1. cbn [bindO]. rewrite (i_next Hi). fold inum. rewrite u32_small by lia.
    change (mkImg (im_blk im) (inum + 1) (im_freeblock im)) with im1. rewrite xshort_id by lia. erewrite bind_Ret by exact (winode_run im1 inum _ Hin). done.
  - split.
    + by apply space_set_inode.
    + intros j f Hj. apply lookup_app_Some in Hj as [Hj|[Hge Hj]].
      * pose proof (lookup_lt_Some _ _ _ Hj). destruct (i_files Hi j f Hj) as (b & Eb & [Hb1 Hb2 Hb3]).
        exists b. split; [by erewrite set_inode_other by (try done; lia)|apply holds_set_inode; [done|done|by split]].
      * destruct (j - length T)%nat as [|m] eqn:Em; [|by destruct m]. injection Hj as <-. replace j with (length T) by lia. fold inum.
        exists a0. split; [by eapply set_inode_same|by apply holds_set_inode].
    + intros j Hj. rewrite length_app in Hj. cbn in Hj. unfold NINODES in Hj. erewrite set_inode_other by (try done; lia). apply (i_free Hi). unfold NINODES. lia.
    + rewrite length_app. cbn. lia.
    + rewrite total_app. change (total [(t, [])]) with 0. cbn. rewrite (i_fb Hi). lia.
    + rewrite length_app. cbn. unfold NINODES. lia.
    + apply Forall_app. split; [apply (i_types Hi)|apply Forall_singleton; done].
  - intros b Hb. rewrite set_inode_blk by (try done; lia). done.
Qed.

(** ** main *)

Definition name_of (path : list Z) : list Z := skip_underscore (shortname path).

(** The entries of the root directory, and its bytes, once [fs] are in the image. *)
Definition dirents (fs : list (list Z * list (list Z))) : list (list Z) :=
  mkfs_dirent 1 (bytes ".") :: mkfs_dirent 1 (bytes "..") :: imap (fun k f => mkfs_dirent (2 + Z.of_nat k) (name_of f.1)) fs.
Definition root_bytes (fs : list (list Z * list (list Z))) : list Z := concat (dirents fs).

Definition files_of (fs : list (list Z * list (list Z))) : list dfile := map (fun f => (T_FILE, concat f.2)) fs.

Definition table (fs : list (list Z * list (list Z))) : list dfile := (T_DIR, root_bytes fs) :: files_of fs.

(** What mkfs can put in the image: names without a slash, files that the
    inodes can hold, and room for them all and one more block. *)
Record fits (fs : list (list Z * list (list Z))) : Prop := {
  fit_names : Forall (fun f => 47 ∉ shortname f.1) fs;
  fit_sizes : Forall (fun f => sized (concat f.2) <= MAXFILE * BSIZE) fs;
  fit_many : Z.of_nat (length fs) + 1 < NINODES;
  fit_space : nmeta + total (table fs) < FSSIZE
}.

Lemma length_dirent inum name : length (mkfs_dirent inum name) = 16%nat.
Proof. unfold mkfs_dirent. rewrite !length_app, length_replicate, length_take, length_wr. cbn [length]. unfold DIRSIZ. lia. Qed.

Lemma dirents_snoc fs f : dirents (fs ++ [f]) = dirents fs ++ [mkfs_dirent (2 + Z.of_nat (length fs)) (name_of f.1)].
Proof. unfold dirents. rewrite imap_app. cbn [imap app]. by rewrite Nat.add_0_r. Qed.

Lemma root_snoc fs f : root_bytes (fs ++ [f]) = root_bytes fs ++ mkfs_dirent (2 + Z.of_nat (length fs)) (name_of f.1).
Proof. unfold root_bytes. rewrite dirents_snoc, concat_app. cbn [concat]. by rewrite app_nil_r. Qed.

Lemma sized_root fs : sized (root_bytes fs) = 16 * (2 + Z.of_nat (length fs)).
Proof.
  induction fs as [|f fs IH] using rev_ind; [reflexivity|]. rewrite root_snoc. unfold sized in *. rewrite !length_app, length_dirent. cbn [length]. lia.
Qed.

Lemma table_length fs : length (table fs) = S (length fs).
Proof. unfold table, files_of. cbn [length]. by rewrite length_map. Qed.

Lemma total_nonneg T : 0 <= total T.
Proof. induction T as [|f T IH]; [done|]. cbn [total]. pose proof (cost_nonneg (sized f.2) ltac:(unfold sized; lia)). lia. Qed.

Lemma total_table fs f : total (table (fs ++ [f])) = cost (sized (root_bytes (fs ++ [f]))) + total (files_of fs) + cost (sized (concat f.2)).
Proof. unfold table, files_of. rewrite map_app. cbn [total map snd]. rewrite total_app. cbn [total snd]. lia. Qed.

(** A prefix of the files fits as well. *)
Lemma fits_prefix fs f : fits (fs ++ [f]) -> fits fs /\ (47 ∉ shortname f.1) /\ sized (concat f.2) <= MAXFILE * BSIZE.
Proof.
  intros [H1 H2 H3 H4]. apply Forall_app in H1 as [H1 H1']. apply Forall_app in H2 as [H2 H2']. rewrite length_app in H3. cbn in H3.
  rewrite Forall_singleton in H1', H2'. split; [|split; [exact H1'|exact H2']]. split; [done|done|lia|]. rewrite total_table in H4. unfold table. cbn [total snd].
  pose proof (cost_nonneg (sized (concat f.2)) ltac:(unfold sized; lia)).
  pose proof (cost_le (sized (root_bytes fs)) (sized (root_bytes (fs ++ [f]))) ltac:(rewrite !sized_root, length_app; lia)). lia.
Qed.

(** Appending the pieces of a file. *)
Lemma chunks_run chunks : forall im own T k t c, image im own T -> T !! k = Some (t, c) -> sized (c ++ concat chunks) <= MAXFILE * BSIZE ->
  nmeta + total (<[k := (t, c ++ concat chunks)]> T) < FSSIZE ->
  exists im' own', (for_all chunks (iappend (1 + Z.of_nat k)) im = Ret tt im') /\ image im' own' (<[k := (t, c ++ concat chunks)]> T) /\ same_head im im'.
Proof.
  induction chunks as [|p chunks IH]; intros im own T k t c Hi Hk Hmax Hsp; cbn [concat for_all] in *.
  - exists im, own. rewrite app_nil_r, (list_insert_id _ _ _ Hk). done.
  - pose proof (lookup_lt_Some _ _ _ Hk) as Hlt. rewrite (app_assoc c) in Hmax, Hsp.
    assert (Hle : sized (c ++ p) <= sized ((c ++ p) ++ concat chunks)) by (unfold sized; rewrite (length_app (c ++ p)); lia).
    rewrite (total_insert _ _ _ _ Hk) in Hsp. cbn [snd] in Hsp. pose proof (cost_le (sized (c ++ p)) _ (conj (Nat2Z.is_nonneg _) Hle)) as Hc.
    destruct (iappend_run im own T k t c p Hi Hk ltac:(lia)) as (im1 & own1 & E1 & Hi1 & Hb1); [rewrite (total_insert _ _ _ _ Hk); cbn [snd]; lia|].
    assert (Hk1 : <[k := (t, c ++ p)]> T !! k = Some (t, c ++ p)) by by apply list_lookup_insert_eq.
    destruct (IH im1 own1 _ k t (c ++ p) Hi1 Hk1 Hmax) as (im2 & own2 & E2 & Hi2 & Hb2).
    { rewrite list_insert_insert_eq, (total_insert _ _ _ _ Hk). cbn [snd]. lia. }
    rewrite list_insert_insert_eq, <- (app_assoc c) in Hi2. exists im2, own2. split; [by rewrite (bind_Ret _ _ _ _ _ E1)|]. split; [done|by eapply same_head_trans].
Qed.

(** One file of the command line. *)
Lemma mkfs_file_run im own fs f : image im own (table fs) -> fits (fs ++ [f]) ->
  exists im' own', mkfs_file 1 f im = Ret tt im' /\ image im' own' (table (fs ++ [f])) /\ same_head im im'.
Proof.
  intros Hi Hfit. destruct (fits_prefix fs f Hfit) as (Hfit0 & Hn & Hsz). destruct f as [path chunks]. cbn [fst snd] in Hn, Hsz.
  pose proof (fit_many _ Hfit) as Hmany. rewrite length_app in Hmany. cbn in Hmany. pose proof (fit_space _ Hfit) as Hsp. rewrite total_table in Hsp. cbn [snd] in Hsp.
  destruct (ialloc_run im own _ T_FILE Hi) as (im1 & E1 & Hi1 & Hb1); [rewrite table_length; lia|done|]. rewrite table_length in E1.
  assert (HB : BSIZE = 1024) by reflexivity. assert (HM : MAXFILE = 268) by reflexivity.
  pose proof (sized_root (fs ++ [(path, chunks)])) as He. rewrite length_app in He. cbn [length] in He. rewrite root_snoc in He, Hsp. cbn [fst] in He, Hsp. unfold NINODES in Hmany.
  pose proof (cost_nonneg (sized (concat chunks)) ltac:(unfold sized; lia)) as Hcn.
  destruct (iappend_run im1 own _ 0 T_DIR (root_bytes fs) (mkfs_dirent (2 + Z.of_nat (length fs)) (name_of path)) Hi1 eq_refl ltac:(rewrite HB, HM; lia)) as (im2 & own2 & E2 & Hi2 & Hb2).
  { rewrite (total_insert _ _ (T_DIR, root_bytes fs)) by done. rewrite total_app. unfold table. cbn [total snd]. change (cost (sized [])) with 0. lia. }
  change (<[0%nat := (T_DIR, root_bytes fs ++ mkfs_dirent (2 + Z.of_nat (length fs)) (name_of path))]> (table fs ++ [(T_FILE, [])]))
    with ((T_DIR, root_bytes fs ++ mkfs_dirent (2 + Z.of_nat (length fs)) (name_of path)) :: (files_of fs ++ [(T_FILE, [])])) in Hi2.
  set (es := root_bytes fs ++ _) in *. assert (Hlk : ((T_DIR, es) :: (files_of fs ++ [(T_FILE, [])])) !! S (length fs) = Some (T_FILE, [])).
  { change ((files_of fs ++ [(T_FILE, [])]) !! length fs = Some (T_FILE, [])). rewrite lookup_app_r by (unfold files_of; rewrite length_map; lia). unfold files_of. by rewrite length_map, Nat.sub_diag. }
  assert (Hins : <[S (length fs) := (T_FILE, concat chunks)]> ((T_DIR, es) :: (files_of fs ++ [(T_FILE, [])])) = table (fs ++ [(path, chunks)])).
  { change (<[S (length fs) := (T_FILE, concat chunks)]> ((T_DIR, es) :: (files_of fs ++ [(T_FILE, [])]))) with ((T_DIR, es) :: <[length fs := (T_FILE, concat chunks)]> (files_of fs ++ [(T_FILE, [])])).
    unfold table. rewrite root_snoc. f_equal. rewrite <- (Nat.add_0_r (length fs)). replace (length fs) with (length (files_of fs)) by (unfold files_of; by rewrite length_map).
    rewrite insert_app_r. unfold files_of. by rewrite map_app. }
  destruct (chunks_run chunks im2 own2 _ _ T_FILE [] Hi2 Hlk Hsz) as (im3 & own3 & E3 & Hi3 & Hb3).
  { change ([] ++ concat chunks) with (concat chunks). rewrite Hins, total_table, root_snoc. cbn [fst snd]. fold es. lia. }
  change ([] ++ concat chunks) with (concat chunks) in Hi3. rewrite Hins in Hi3. exists im3, own3. split; [|split; [done|eauto using same_head_trans]].
  unfold mkfs_file. cbv zeta. rewrite bool_decide_eq_false_2 by done. rewrite (bind_Ret _ _ _ _ _ E1). replace (1 + Z.of_nat (S (length fs))) with (2 + Z.of_nat (length fs)) by lia.
  change (1 + Z.of_nat 0) with 1 in E2. rewrite (bind_Ret _ _ _ _ _ E2). replace (2 + Z.of_nat (length fs)) with (1 + Z.of_nat (S (length fs))) by lia. exact E3.
Qed.

Lemma fits_app fs1 fs2 : fits (fs1 ++ fs2) -> fits fs1.
Proof. induction fs2 as [|f fs2 IH] using rev_ind; [by rewrite app_nil_r|]. rewrite app_assoc. intros (H & _)%fits_prefix. by apply IH. Qed.

Lemma files_run fs2 : forall im own fs1, image im own (table fs1) -> fits (fs1 ++ fs2) ->
  exists im' own', (for_all fs2 (mkfs_file 1) im = Ret tt im') /\ image im' own' (table (fs1 ++ fs2)) /\ same_head im im'.
Proof.
  induction fs2 as [|f fs2 IH]; intros im own fs1 Hi Hfit; cbn [for_all].
  - exists im, own. rewrite app_nil_r. done.
  - change (fs1 ++ f :: fs2) with (fs1 ++ [f] ++ fs2) in *. rewrite app_assoc in *.
    destruct (mkfs_file_run im own fs1 f Hi (fits_app _ _ Hfit)) as (im1 & own1 & E1 & Hi1 & Hb1).
    destruct (IH im1 own1 _ Hi1 Hfit) as (im2 & own2 & E2 & Hi2 & Hb2). exists im2, own2.
    split; [by rewrite (bind_Ret _ _ _ _ _ E1)|]. split; [done|by eapply same_head_trans].
Qed.

(** Clearing the image. *)
Lemma wipe_run n : forall k im, exists im', (for_all (seq k n) (fun i => wsect (Z.of_nat i) zeroes) im = Ret tt im') /\
  (forall b, Z.of_nat k <= b < Z.of_nat (k + n) -> im_blk im' b = zeroes) /\ (forall b, b < Z.of_nat k -> im_blk im' b = im_blk im b) /\
  im_freeinode im' = im_freeinode im /\ im_freeblock im' = im_freeblock im.
Proof.
  induction n as [|n IH]; intros k im; cbn [seq for_all]; [exists im; split; [done|]; split; [lia|]; done|].
  destruct (IH (S k) (mkImg (fun b => if b =? Z.of_nat k then zeroes else im_blk im b) (im_freeinode im) (im_freeblock im))) as (im' & E & H1 & H2 & H3 & H4).
  exists im'. split; [exact E|]. split; [|split; [|done]].
  - intros b Hb. destruct (decide (b = Z.of_nat k)) as [->|]; [|apply H1; lia]. rewrite H2 by lia. cbn. by rewrite Z.eqb_refl.
  - intros b Hb. rewrite H2 by lia. cbn. destruct (Z.eqb_spec b (Z.of_nat k)); [lia|done].
Qed.

Lemma sb_block_read : sb_of sb_block = mkfs_sb.
Proof. vm_compute. reflexivity. Qed.

(** The image before the first file. *)
Lemma blank_run blk : exists im, (forall rest : M img unit, (for_all (seq 0 (Z.to_nat FSSIZE)) (fun i => wsect (Z.of_nat i) zeroes) ;;; wsect 1 sb_block ;;; rest) (mkfs_start blk) = rest im) /\
  image im (fun _ => None) [] /\ im_blk im 1 = sb_block /\ (forall b, 0 <= b < 32 -> b <> 1 -> im_blk im b = zeroes).
Proof.
  destruct (wipe_run (Z.to_nat FSSIZE) 0 (mkfs_start blk)) as (im & E & H1 & _ & H3 & H4).
  assert (Hz : forall b, 0 <= b < FSSIZE -> b <> 1 -> im_blk (mkImg (upd (im_blk im) 1 sb_block) (im_freeinode im) (im_freeblock im)) b = zeroes).
  { intros b Hb Hne. cbn. unfold upd. destruct (Z.eqb_spec b 1); [done|]. apply H1. unfold FSSIZE in *. lia. }
  exists (mkImg (upd (im_blk im) 1 sb_block) (im_freeinode im) (im_freeblock im)). split; [intros rest; by rewrite (bind_Ret _ _ _ _ _ E)|]. split; [|split; [done|]].
  - split; [split| | | | | |].
    + cbn [im_freeblock]. rewrite H4. done.
    + done.
    + intros b Hb. destruct (decide (b = 1)) as [->|Hne]; [reflexivity|]. rewrite Hz by done. by unfold zeroes; rewrite length_replicate.
    + intros b Hb. cbn [im_freeblock] in Hb. rewrite H4 in Hb. cbn in Hb. apply Hz; assert (nmeta = 46) by reflexivity; lia.
    + intros k f Hk. by rewrite lookup_nil in Hk.
    + intros j Hj. unfold NINODES in Hj. cbn [length] in Hj. destruct (IBLOCK_range j ltac:(lia)) as [Eb ?]. unfold on_disk. rewrite Eb, Hz by (unfold FSSIZE; lia).
      unfold rd_dinode, zeroes. cbn [di_type]. by rewrite rd_zeros.
    + cbn [im_freeinode]. rewrite H3. done.
    + cbn [im_freeblock total]. rewrite H4. cbn. lia.
    + done.
    + done.
  - intros b Hb Hne. apply Hz; unfold FSSIZE; lia.
Qed.

(** The bitmap. *)
Lemma used_bits n : (n <= 8 * Z.to_nat BSIZE)%nat ->
  let buf := fold_left (fun buf i => set_bit (Z.of_nat i) buf) (seq 0 n) zeroes in
  length buf = Z.to_nat BSIZE /\ forall b, 0 <= b -> bit buf b = (b <? Z.of_nat n).
Proof.
  induction n as [|n IH]; intros Hn; cbv zeta.
  - split; [done|]. intros b Hb. cbn [seq fold_left]. unfold bit, zeroes. rewrite nth_zeros, Z.bits_0. symmetry. apply Z.ltb_ge. lia.
  - destruct (IH ltac:(lia)) as [Hl Hb]. rewrite seq_S, fold_left_app. cbn [fold_left Nat.add]. split; [unfold set_bit; by rewrite length_insert|].
    intros b Hb0. destruct (decide (Z.of_nat n = b)) as [<-|Hne].
    + rewrite bit_set_eq by lia. symmetry. apply Z.ltb_lt. lia.
    + rewrite bit_set_ne by lia. rewrite Hb by done. destruct (Z.ltb_spec b (Z.of_nat n)), (Z.ltb_spec b (Z.of_nat (S n))); lia.
Qed.

(** ** What the kernel finds *)

(** Inode [inum] is a file of type [t] with one link, which holds [c] and then
    [pad] zeros; its blocks are its own. *)
Definition file_is (im : img) (own : owners) (inum t : Z) (c : list Z) (pad : nat) : Prop :=
  forall i, dinode_of i = disk_inode (im_blk im) inum ->
    i_type i = t /\ i_nlink i = 1 /\ contents (im_blk im) i = c ++ replicate pad 0 /\
    (forall bn, 0 <= bn < nblk (sized c) -> own (blk_of (im_blk im) i bn) = Some (inum, bn)) /\
    (Z.of_nat NDIRECT < nblk (sized c) -> own (indirect i) = Some (inum, MAXFILE)).

Lemma holds_is im own inum t c pad a : holds inum im own (entry t c a) c ->
  disk_inode (im_blk im) inum = mkDinode t 0 0 1 (sized c + Z.of_nat pad) a ->
  (forall o, nblk (sized c) * BSIZE <= o < sized c + Z.of_nat pad -> nth (Z.to_nat (o mod BSIZE)) (im_blk im (addr (im_blk im) a (o / BSIZE))) 0 = 0) ->
  file_is im own inum t c pad.
Proof.
  intros [_ Hf _] Ed Hz i Hi. cbn [entry di_addrs] in Hf. rewrite Ed in Hi. destruct i as []. unfold dinode_of in Hi. cbn in Hi. injection Hi as -> -> -> -> -> ->. cbn.
  split; [done|]. split; [done|]. split; [|split; [apply (f_used Hf)|]].
  - unfold contents. cbn [i_size]. apply list_eq. intros k. assert (Hc : sized c = Z.of_nat (length c)) by done. assert (HB : BSIZE = 1024) by reflexivity.
    destruct (decide (k < Z.to_nat (sized c + Z.of_nat pad))%nat) as [Hk|Hk].
    + rewrite bytes_from_lookup by done. rewrite Z.add_0_l. unfold file_byte. rewrite <- addr_blk_of. cbn [i_addrs].
      assert (E : nth (Z.to_nat (Z.of_nat k mod BSIZE)) (im_blk im (addr (im_blk im) a (Z.of_nat k / BSIZE))) 0 = nth k c 0).
      { destruct (Z.lt_ge_cases (Z.of_nat k) (nblk (sized c) * BSIZE)); [rewrite (f_bytes Hf) by lia; by rewrite Nat2Z.id|]. rewrite Hz by lia.
        rewrite nth_overflow; [done|]. unfold nblk in *. rewrite HB in *. Z.div_mod_to_equations. lia. }
      rewrite E. symmetry. rewrite nth_lookup. destruct (decide (k < length c)%nat).
      * rewrite lookup_app_l by done. by destruct (lookup_lt_is_Some_2 c k) as [x ->].
      * rewrite lookup_app_r, lookup_replicate_2 by lia. by rewrite lookup_ge_None_2 by lia.
    + rewrite !lookup_ge_None_2; [done| |]; rewrite ?length_bytes_from, ?length_app, ?length_replicate; lia.
  - intros Hb. destruct (f_ind Hf) as [[_ ?]|[Ho _]]; [lia|done].
Qed.

(** Writing a block before the data. *)
Lemma holds_meta im own x d inum din c : x < nmeta -> length d = Z.to_nat BSIZE -> holds inum im own din c ->
  holds inum (mkImg (upd (im_blk im) x d) (im_freeinode im) (im_freeblock im)) own din c.
Proof.
  intros Hx Hd [Hs Hf Ht]. pose proof (s_fb Hs). split; [apply space_upd; [done|lia|done]| |done]. eapply file_ext; [exact Hf| |by intros ? ?].
  intros b k Hb. pose proof (s_own Hs _ _ Hb). cbn. unfold upd. destruct (Z.eqb_spec b x); [lia|done].
Qed.

(** The zeros that the rounded size of the root directory adds. *)
Definition root_pad (n : Z) : nat := Z.to_nat ((n / BSIZE + 1) * BSIZE - n).

(** What mkfs leaves on the disk. *)
Record made (im : img) (own : owners) (fs : list (list Z * list (list Z))) : Prop := {
  m_sb : sb_of (im_blk im 1) = mkfs_sb;
  m_log : rd 4 (im_blk im (sb_logstart mkfs_sb)) 0 = 0;
  m_bitmap : forall b, 0 <= b < FSSIZE -> bit (im_blk im (sb_bmapstart mkfs_sb)) b = (b <? im_freeblock im);
  m_own : forall b x, own b = Some x -> nmeta <= b < im_freeblock im;
  m_root : file_is im own ROOTINO T_DIR (root_bytes fs) (root_pad (sized (root_bytes fs)));
  m_files : forall k f, fs !! k = Some f -> file_is im own (2 + Z.of_nat k) T_FILE (concat f.2) 0;
  m_free : forall j, 2 + Z.of_nat (length fs) <= j < NINODES -> di_type (disk_inode (im_blk im) j) = 0
}.

Section Finish.
Context (im : img) (own : owners) (fs : list (list Z * list (list Z))).
Hypothesis Hi : image im own (table fs).
Hypothesis Hsb : im_blk im 1 = sb_block.
Hypothesis Hz : forall b, 0 <= b < 32 -> b <> 1 -> im_blk im b = zeroes.
Let n := sized (root_bytes fs).
Let size := (n / BSIZE + 1) * BSIZE.
Let bits := fold_left (fun buf i => set_bit (Z.of_nat i) buf) (seq 0 (Z.to_nat (im_freeblock im))) zeroes.

Lemma fs_many : Z.of_nat (length fs) < 199.
Proof. pose proof (i_many Hi) as H. rewrite table_length in H. unfold NINODES in H. lia. Qed.

Lemma size_bounds : 0 <= n < size /\ size <= 4096 /\ xint n = n /\ u32 size = size /\ xint size = size /\ n + Z.of_nat (root_pad n) = size.
Proof.
  pose proof fs_many. pose proof (sized_root fs) as En. fold n in En. assert (HB : BSIZE = 1024) by reflexivity.
  assert (Hs : 0 <= n < size /\ size <= 4096) by (unfold size; rewrite HB; Z.div_mod_to_equations; lia).
  rewrite u32_small, !xint_id by lia. split; [lia|]. unfold root_pad. fold size. lia.
Qed.

(** The final image, from the address list of the root directory. *)
Definition final (a : list Z) : img :=
  let im1 := set_inode im ROOTINO (mkDinode T_DIR 0 0 1 size a) in
  mkImg (upd (im_blk im1) 45 bits) (im_freeinode im1) (im_freeblock im1).

Lemma bits_ok : length bits = Z.to_nat BSIZE /\ forall b, 0 <= b -> bit bits b = (b <? im_freeblock im).
Proof.
  pose proof (s_fb (i_space Hi)). assert (nmeta = 46) by reflexivity.
  destruct (used_bits (Z.to_nat (im_freeblock im))) as [Hl Hb]; [unfold FSSIZE, BSIZE in *; lia|]. split; [done|]. intros b Hb0. unfold bits. rewrite Hb by done. f_equal. lia.
Qed.

Lemma finish_run a : disk_inode (im_blk im) ROOTINO = entry T_DIR (root_bytes fs) a -> mkfs_finish ROOTINO im = Ret tt (final a).
Proof.
  intros Ea. destruct size_bounds as (_ & _ & E1 & E2 & E3 & _). unfold mkfs_finish. rewrite (bind_Ret _ _ _ _ _ (rinode_run im ROOTINO ltac:(done))), Ea.
  change (di_size (entry T_DIR (root_bytes fs) a)) with n. cbv zeta. rewrite E1. fold size. rewrite E2, E3.
  erewrite bind_Ret by exact (winode_run im ROOTINO _ ltac:(done)). unfold gets, bind. cbn [bindO]. unfold balloc. cbn [im_freeblock set_inode].
  pose proof (s_fb (i_space Hi)). destruct (Z.ltb_spec (im_freeblock im) (BSIZE * 8)); [reflexivity|unfold FSSIZE, BSIZE in *; lia].
Qed.

Lemma final_inode a j : dinode_ok (mkDinode T_DIR 0 0 1 size a) -> 0 <= j < 208 ->
  disk_inode (im_blk (final a)) j = if j =? 1 then mkDinode T_DIR 0 0 1 size a else disk_inode (im_blk im) j.
Proof.
  intros Hok Hj. destruct (IBLOCK_range j Hj) as [E ?].
  assert (E45 : disk_inode (im_blk (final a)) j = disk_inode (im_blk (set_inode im ROOTINO (mkDinode T_DIR 0 0 1 size a))) j).
  { unfold on_disk, final. cbn [im_blk]. unfold upd at 1. rewrite E. destruct (Z.eqb_spec (j / IPB + 32) 45); [lia|done]. }
  rewrite E45. destruct (Z.eqb_spec j 1) as [->|Hne]; [by apply (set_inode_same _ own); [apply (i_space Hi)|..]|by apply set_inode_other].
Qed.

Lemma final_blk a b : b < 32 \/ 46 <= b -> im_blk (final a) b = im_blk im b.
Proof. intros Hb. unfold final. cbn [im_blk]. unfold upd at 1. destruct (Z.eqb_spec b 45); [lia|]. apply set_inode_blk; [done|lia]. Qed.

Lemma final_holds a j din c : holds j im own din c -> holds j (final a) own din c.
Proof. intros H. apply holds_meta; [done|apply bits_ok|]. apply holds_set_inode; [apply (i_space Hi)|done|done]. Qed.

(** The root directory. *)
Lemma final_root a : dinode_ok (mkDinode T_DIR 0 0 1 size a) -> holds 1 im own (entry T_DIR (root_bytes fs) a) (root_bytes fs) ->
  file_is (final a) own ROOTINO T_DIR (root_bytes fs) (root_pad n).
Proof.
  intros Hok Hh. destruct size_bounds as (Hn & Hs & _ & _ & _ & Ep). apply (holds_is _ _ _ _ _ _ a).
  - by apply final_holds.
  - rewrite final_inode by done. change (sized (root_bytes fs)) with n. by rewrite Ep.
  - change (sized (root_bytes fs)) with n. rewrite Ep. intros o Ho. assert (HB : BSIZE = 1024) by reflexivity.
    assert (Eo : nblk n <= o / BSIZE < 4) by (split; [apply Z.div_le_lower_bound|apply Z.div_lt_upper_bound]; lia).
    assert (0 <= nblk n) by (apply Z.div_pos; lia).
    unfold addr. destruct (Z.ltb_spec (o / BSIZE) (Z.of_nat NDIRECT)) as [|Hge]; [|change (Z.of_nat NDIRECT) with 12 in Hge; lia].
    pose proof (f_free (h_file _ _ _ _ _ Hh) (Z.to_nat (o / BSIZE))) as Hfr. cbn [entry di_addrs] in Hfr. change (sized (root_bytes fs)) with n in Hfr.
    rewrite Hfr by (rewrite ?Z2Nat.id; lia). rewrite final_blk, Hz by lia. apply nth_zeros.
Qed.

Lemma finish_made : exists im', mkfs_finish ROOTINO im = Ret tt im' /\ made im' own fs.
Proof.
  destruct (i_files Hi 0 _ eq_refl) as (a & Ea & Hh). cbn [fst snd] in Ea, Hh. change (1 + Z.of_nat 0) with 1 in Ea, Hh. pose proof fs_many. destruct size_bounds as (Hn & Hs & _).
  assert (Hok : dinode_ok (mkDinode T_DIR 0 0 1 size a)).
  { destruct (entry_ok im own 1 T_DIR (root_bytes fs) (root_bytes fs) a ltac:(done) ltac:(fold n; lia) Hh) as (K1 & _ & K3). split; [exact K1|]. split; [cbn; lia|exact K3]. }
  exists (final a). split; [by apply finish_run|]. split.
  - rewrite final_blk by lia. rewrite Hsb. apply sb_block_read.
  - change (sb_logstart mkfs_sb) with 2. rewrite final_blk, Hz by lia. apply rd_zeros.
  - intros b Hb. change (sb_bmapstart mkfs_sb) with 45. unfold final. cbn [im_blk im_freeblock]. unfold upd at 1. rewrite Z.eqb_refl. apply bits_ok. lia.
  - apply (s_own (i_space Hi)).
  - by apply final_root.
  - intros k f Hk. pose proof (lookup_lt_Some _ _ _ Hk).
    assert (Hk' : table fs !! S k = Some (T_FILE, concat f.2)) by (change (table fs !! S k) with (((fun f => (T_FILE, concat f.2)) <$> fs) !! k); by rewrite list_lookup_fmap, Hk).
    destruct (i_files Hi _ _ Hk') as (b & Eb & Hb). cbn [fst snd] in Eb, Hb. replace (1 + Z.of_nat (S k)) with (2 + Z.of_nat k) in * by lia.
    apply (holds_is _ _ _ _ _ _ b); [by apply final_holds| |].
    + rewrite final_inode by (done || lia). destruct (Z.eqb_spec (2 + Z.of_nat k) 1); [lia|]. rewrite Eb, Z.add_0_r. done.
    + intros o Ho. exfalso. pose proof (f_max (h_file _ _ _ _ _ Hb)). unfold sized in *. lia.
  - intros j Hj. unfold NINODES in Hj. rewrite final_inode by (done || lia). destruct (Z.eqb_spec j 1); [lia|]. apply (i_free Hi). rewrite table_length. unfold NINODES. lia.
Qed.
End Finish.

(** ** The names in the root directory *)

Lemma cut_pad k m l : cut k (take k l ++ replicate m 0) = cut k l.
Proof. revert l. induction k as [|k IH]; intros [|c l]; [done|done|by destruct m|]. cbn [take app cut]. destruct (u8 c =? 0); [done|]. by rewrite IH. Qed.

Lemma dirent_name inum name : cut (Z.to_nat DIRSIZ) (de_name (mkfs_dirent inum name)) = cut (Z.to_nat DIRSIZ) name.
Proof.
  unfold de_name, mkfs_dirent. rewrite drop_app_length' by by rewrite length_wr.
  rewrite firstn_all2 by (rewrite length_app, length_replicate, length_take; unfold DIRSIZ; lia). apply cut_pad.
Qed.

Lemma dirent_inum inum name : 0 <= inum < 2 ^ 16 -> de_inum (mkfs_dirent inum name) = inum.
Proof.
  intros H. unfold de_inum, mkfs_dirent. rewrite xshort_id by done. rewrite (rd_ext 2 (wr 2 [0; 0] 0 inum)).
  - rewrite rd_wr_same by (cbn; lia). by apply Z.mod_small.
  - intros j Hj. by rewrite app_nth1 by (rewrite length_wr; cbn; lia).
Qed.

Lemma concat_chunk (l : list (list Z)) j d : Forall (fun x => length x = 16%nat) l -> l !! j = Some d -> take 16 (drop (16 * j) (concat l)) = d.
Proof.
  intros Hl. revert j. induction Hl as [|x l Hx Hl IH]; intros j Hj; [by rewrite lookup_nil in Hj|]. cbn [concat]. destruct j as [|j].
  - injection Hj as ->. rewrite drop_0. by apply take_app_length'.
  - replace (16 * S j)%nat with (length x + 16 * j)%nat by lia. rewrite drop_app_add. by apply IH.
Qed.

Lemma dirents_ok fs : Forall (fun x => length x = 16%nat) (dirents fs).
Proof.
  induction fs as [|f fs IH] using rev_ind; [repeat constructor; apply length_dirent|]. rewrite dirents_snoc. apply Forall_app. split; [done|].
  apply Forall_singleton. apply length_dirent.
Qed.

(** The entries that [dirlookup] goes through. *)
Lemma entries_chunk v i c z j d : contents v i = concat c ++ z -> Forall (fun x => length x = 16%nat) c -> c !! j = Some d -> entries v i !! j = Some d.
Proof.
  intros Hc Hl Hj. rewrite <- (concat_chunk c j d Hl Hj). pose proof (lookup_lt_Some _ _ _ Hj) as Hlt.
  assert (Hcl : length (concat c) = (16 * length c)%nat) by (clear -Hl; induction Hl as [|x c Hx _ IH]; [done|]; cbn [concat length]; rewrite length_app, IH; lia).
  assert (Hsz : (16 * length c <= Z.to_nat (i_size i))%nat) by (apply (f_equal length) in Hc; unfold contents in Hc; rewrite length_bytes_from, length_app in Hc; lia).
  rewrite entries_lookup by (unfold SIZEOF_DIRENT; Z.div_mod_to_equations; lia). f_equal. unfold contents in Hc.
  replace (Z.to_nat (i_size i)) with (16 * j + (16 + (Z.to_nat (i_size i) - 16 * j - 16)))%nat in Hc by lia. rewrite !bytes_from_app in Hc.
  assert (E : take 16 (drop (16 * j) (concat c ++ z)) = take 16 (drop (16 * j) (concat c))).
  { rewrite drop_app_le by lia. apply take_app_le. rewrite length_drop. lia. }
  rewrite <- E, <- Hc. rewrite drop_app_length' by by rewrite length_bytes_from. rewrite take_app_length' by by rewrite length_bytes_from.
  f_equal. unfold SIZEOF_DIRENT. lia.
Qed.

Definition names (fs : list (list Z * list (list Z))) : list (list Z) := bytes "." :: bytes ".." :: map (fun f => name_of f.1) fs.

Lemma dirents_lookup fs j d : dirents fs !! j = Some d -> exists g inum, names fs !! j = Some g /\ d = mkfs_dirent inum g /\ ((2 <= j)%nat -> inum = Z.of_nat j).
Proof.
  unfold dirents, names. destruct j as [|[|j]]; intros H.
  - injection H as <-. exists (bytes "."), 1. split; [done|]. split; [done|]. lia.
  - injection H as <-. exists (bytes ".."), 1. split; [done|]. split; [done|]. lia.
  - change (imap (fun k f => mkfs_dirent (2 + Z.of_nat k) (name_of f.1)) fs !! j = Some d) in H. apply list_lookup_imap_Some in H as (f & Hf & ->).
    exists (name_of f.1), (2 + Z.of_nat j). split; [|split; [done|lia]]. change (((fun f => name_of f.1) <$> fs) !! j = Some (name_of f.1)). by rewrite list_lookup_fmap, Hf.
Qed.

(** Looking up a name that no earlier entry has gives the file. *)
Lemma lookup_run im own fs i k f : made im own fs -> dinode_of i = disk_inode (im_blk im) ROOTINO -> fs !! k = Some f -> Z.of_nat k < 2 ^ 15 ->
  (forall j g, (j < 2 + k)%nat -> names fs !! j = Some g -> cut (Z.to_nat DIRSIZ) g <> cut (Z.to_nat DIRSIZ) (name_of f.1)) ->
  exists d, first (matches (name_of f.1)) (entries (im_blk im) i) = Some (2 + k)%nat /\ entries (im_blk im) i !! (2 + k)%nat = Some d /\ de_inum d = 2 + Z.of_nat k.
Proof.
  intros Hm Hi Hk Hlt Hd. destruct (m_root _ _ _ Hm i Hi) as (_ & _ & Hc & _).
  assert (Hdk : dirents fs !! (2 + k)%nat = Some (mkfs_dirent (2 + Z.of_nat k) (name_of f.1))).
  { change (imap (fun k f => mkfs_dirent (2 + Z.of_nat k) (name_of f.1)) fs !! k = Some (mkfs_dirent (2 + Z.of_nat k) (name_of f.1))). by rewrite list_lookup_imap, Hk. }
  pose proof (entries_chunk _ _ _ _ _ _ Hc (dirents_ok fs) Hdk) as He.
  exists (mkfs_dirent (2 + Z.of_nat k) (name_of f.1)). split; [|split; [done|by apply dirent_inum; lia]].
  apply first_Some. exists (mkfs_dirent (2 + Z.of_nat k) (name_of f.1)). split; [done|]. split.
  - unfold matches. rewrite dirent_inum, dirent_name by lia. rewrite bool_decide_eq_true_2 by done. destruct (Z.eqb_spec (2 + Z.of_nat k) 0); [lia|done].
  - intros j y Hj Hy. destruct (lookup_lt_is_Some_2 (dirents fs) j) as [y' Hy']; [apply lookup_lt_Some in Hdk; lia|].
    rewrite (entries_chunk _ _ _ _ _ _ Hc (dirents_ok fs) Hy') in Hy. injection Hy as ->. destruct (dirents_lookup fs j y Hy') as (g & inum & Hg & -> & _).
    unfold matches. rewrite dirent_name. rewrite bool_decide_eq_false_2; [apply andb_false_r|]. intros E. by apply (Hd j g Hj Hg).
Qed.

(** ** The whole of mkfs *)

(** The root directory with its first two entries. *)
Lemma root_run im own : image im own [] -> nmeta + total (table []) < FSSIZE ->
  exists im' own', (forall rest : Z -> M img unit, (rootino <- ialloc T_DIR ;;
    if negb (rootino =? ROOTINO) then panic "assert"
    else iappend rootino (mkfs_dirent rootino (bytes ".")) ;;; iappend rootino (mkfs_dirent rootino (bytes "..")) ;;; rest rootino) im = rest ROOTINO im') /\
  image im' own' (table []) /\ same_head im im'.
Proof.
  intros Hi Hsp. destruct (ialloc_run im own [] T_DIR Hi ltac:(done) ltac:(done)) as (im1 & E1 & Hi1 & Hb1). cbn [app] in Hi1.
  change (ialloc T_DIR im = Ret 1 im1) in E1. change (1 + Z.of_nat 0) with 1 in *.
  destruct (iappend_run im1 own [(T_DIR, [])] 0 T_DIR [] (mkfs_dirent 1 (bytes ".")) Hi1 eq_refl ltac:(done) ltac:(done)) as (im2 & own2 & E2 & Hi2 & Hb2).
  destruct (iappend_run im2 own2 _ 0 T_DIR _ (mkfs_dirent 1 (bytes "..")) Hi2 eq_refl ltac:(done) ltac:(done)) as (im3 & own3 & E3 & Hi3 & Hb3).
  exists im3, own3. split; [|split; [exact Hi3|eauto using same_head_trans]]. intros rest. rewrite (bind_Ret _ _ _ _ _ E1).
  change (1 =? ROOTINO) with true. cbn [negb]. rewrite (bind_Ret _ _ _ _ _ E2), (bind_Ret _ _ _ _ _ E3). reflexivity.
Qed.

(** C5: mkfs puts the files that it is given into the image. When their names
    have no slash and they fit, it writes an image in which the kernel finds
    the super block, an empty log, a bitmap that marks exactly the blocks in
    use, each file (type, one link, contents, blocks that no other file has)
    under the next inode number, the root directory, and otherwise free
    inodes; and looking up the name of a file in the root directory gives the
    file, when no earlier entry has that name. *)
Theorem mkfs_main_correct blk fs : fits fs ->
  exists im own, mkfs_main fs (mkfs_start blk) = Ret tt im /\ made im own fs /\
    forall i k f, dinode_of i = disk_inode (im_blk im) ROOTINO -> fs !! k = Some f ->
      (forall j g, (j < 2 + k)%nat -> names fs !! j = Some g -> cut (Z.to_nat DIRSIZ) g <> cut (Z.to_nat DIRSIZ) (name_of f.1)) ->
      exists d, first (matches (name_of f.1)) (entries (im_blk im) i) = Some (2 + k)%nat /\
        entries (im_blk im) i !! (2 + k)%nat = Some d /\ de_inum d = 2 + Z.of_nat k.
Proof.
  intros Hfit. destruct (blank_run blk) as (im1 & E1 & Hi1 & Hsb & Hz). pose proof (fits_app [] fs Hfit) as Hf0.
  destruct (root_run im1 _ Hi1 (fit_space _ Hf0)) as (im2 & own2 & E2 & Hi2 & Hb2).
  destruct (files_run fs im2 own2 [] Hi2 Hfit) as (im3 & own3 & E3 & Hi3 & Hb3). pose proof (same_head_trans _ _ _ Hb2 Hb3) as Hb.
  destruct (finish_made im3 own3 fs Hi3) as (im4 & E4 & Hm); [by rewrite Hb|intros b Hr Hne; rewrite Hb by lia; by apply Hz|].
  exists im4, own3. split; [|split; [done|]].
  - unfold mkfs_main. rewrite E1, E2. exact (eq_trans (bind_Ret _ _ _ _ _ E3) E4).
  - intros i k f Hi Hk Hd. eapply lookup_run; [exact Hm|done|done| |done]. pose proof (fit_many _ Hfit). apply lookup_lt_Some in Hk. unfold NINODES in *. lia.
Qed.

Module MkfsWitness.
Definition demo : list (list Z * list (list Z)) :=
  [(bytes "README", [bytes "xv6 is a re-implementation"]); (bytes "user/_cat", [replicate 700 7; replicate 700 9])].

Lemma demo_fits : fits demo.
Proof. split; [apply (bool_decide_unpack _); vm_compute; exact I..|reflexivity|vm_compute; reflexivity]. Defined.

Lemma mkfs_main_correct_witness : exists im own, mkfs_main demo (mkfs_start (fun _ => [])) = Ret tt im /\ file_is im own 3 T_FILE (replicate 700 7 ++ replicate 700 9) 0.
Proof.
  destruct (mkfs_main_correct (fun _ => []) demo demo_fits) as (im & own & E & Hm & _). exists im, own. split; [exact E|].
  pose proof (m_files _ _ _ Hm 1%nat _ eq_refl) as H. cbn [snd concat] in H. rewrite app_nil_r in H. exact H.
Defined.
End MkfsWitness.
